(* ===== verification/_CoqProject ===== *)
-Q . S2P
Prelude.v
RustStr.v
GuestMemory.v
Virtqueue.v
VirtioMmio.v
RateLimiter.v
VirtioBlk.v
VirtioRng.v
VirtioBalloon.v
Bus.v
Serial.v
Cmos.v
VirtioNet.v
VirtioNetTx.v
VirtioNetRx.v
NetGateway.v
Tables.v
MpTable.v
Acpi.v
VirtioVsock.v
VsockProofs.v
VsockQueues.v
Quota.v
VmStore.v
Pools.v
HttpAcl.v
Grants.v
Ipam.v
Pci.v
VmConfig.v
VmBus.v
Qcow2.v
Idempotency.v
Supervise.v
Dhcp.v
PauseBarrier.v
VzSwitch.v
Unpack.v
Journal.v
Recovery.v
Sweep.v
Boot.v
Vhost.v
QueueService.v
Seccomp.v
Snapshot.v
SnapRestore.v
SnapSave.v
SnapCapture.v
LbService.v
Maglev.v
LbCatalog.v
LbMaps.v
LbRoute.v
HaJournal.v
HaReplay.v
Pressure.v
LbGc.v
NetPolicy.v
NetEdge.v
NetGroups.v
NetApply.v
