(* ===== verification/Prelude.v ===== *)
(** * FluxVM: a verification library

    FluxVM runs virtual machines and sandboxes.  A control plane (API, scheduler,
    storage, network) keeps the records of the VMs of a host and starts each one in
    a backend; one backend is the hypervisor of the repository itself
    ([crates/fluxvm-hypervisor]), a KVM monitor whose devices parse rings and
    descriptors a guest writes.  A network layer gives every VM an address, enforces
    its policy in eBPF and balances services over backends.  This library models
    the parts where a wrong step costs most: what faces hostile input (device
    model, images and layers, packets, requests of sandboxes), what must survive
    crashes and failing calls (store, journal, snapshots, maps in the kernel) and
    what several threads or nodes do together (pause barrier, queue service,
    replication to a standby).

    ** Parts and how they interact

    A guest access exits to the vCPU loop, which hands it to the bus; the bus
    routes it to the UART, the clock, the PCI window or a virtio-mmio transport.  A
    write to a transport's notify register runs the notify handler of its device on
    the device's queue, through the queue service, which may have given the network
    queues to vhost-net: the handler walks descriptors in guest RAM, moves data
    between RAM and a host resource (an image file, a tap, sockets, the entropy
    source), publishes the used element and advances [last_avail].  Rate limiters
    sit in front of the block and network handlers.  The machine is built from a
    configuration, its firmware tables and kernel are laid out in RAM, and a
    snapshot is taken and restored behind the pause barrier of the vCPUs.

    In the control plane, creating a VM waits for memory pressure to clear, reads the
    quota ledger, checks the caps and stores the record; the store keeps the ledger
    beside the records.  Every operation that allocates host resources writes an
    intent first, which recovery and the sweep of orphans read after a crash.  The
    network layer merges a VM's policy with those of its security groups and writes
    the result into the maps that the program at the VM's interface reads; the load
    balancer writes its own maps from a catalog and ships its connections to a
    standby.

    ** Files

    Shared:
    - [Prelude]: machine integers, the [Result] and state monad, bytes, shared
      lemmas, the hint databases [mrel], [keeps] and [rust] and the tactics
      [mrel_tac], [keeps_tac], [dlia], [by_eval].
    - [RustStr]: strings of the standard library as lists of code points, UTF-8,
      numbers and hexadecimal.

    The hypervisor (file names of [crates/fluxvm-hypervisor/src]):
    - [GuestMemory] ([memory.rs]), [Virtqueue] (descriptors, rings, chains as the
      relation [chain_from]) and [VirtioMmio] ([devices/virtio_mmio.rs]).
    - [RateLimiter] ([devices/rate_limiter.rs], in exact binary64; its class
      [RateLimit] is what the devices are proved against), [VirtioBlk], [VirtioRng],
      [VirtioBalloon] (with [balloon_ctl.rs]).
    - [VirtioNet] (with [tap.rs]) and its theorems in [VirtioNetTx], [VirtioNetRx],
      [NetGateway]; [VirtioVsock] and its theorems in [VsockProofs], [VsockQueues].
    - [Bus] ([bus.rs]; the traits [PioDevice] and [MmioDevice] are classes) with its
      instances [Serial], [Cmos] and [Pci].
    - [Tables], [MpTable] ([mptable.rs]), [Acpi] ([acpi.rs]), [Boot] ([boot.rs] and
      the entry state of [kvm.rs]).
    - [VmConfig] ([config.rs]), [VmBus] (the devices and the command line of
      [vm.rs]).
    - [PauseBarrier] ([pause.rs] with the vCPU loops of [vm.rs]).
    - [Vhost] ([vhost.rs]) and [QueueService] ([queue_service.rs]).
    - [Snapshot] (the file format of [kvm_snap.rs]), [SnapCapture] and [SnapRestore]
      ([kvm_state.rs]), [SnapSave] ([snapshot.rs]).
    - [Seccomp]: the filters of [fluxvm-core], the hypervisor and [fluxvm-procbox].

    The control plane:
    - [Quota] ([fluxvm-core/src/policy.rs]), [VmStore] ([Store] of
      [fluxvm-storage/src/lib.rs] and the admission of [VmManager::create]), [Pools]
      ([PoolStore]), [Grants] ([fluxvm-core/src/grants.rs]).
    - [Pressure] ([fluxvm-core/src/pressure_admission.rs],
      [fluxvm-cgroup/src/pressure.rs], [fluxvm-scheduler/src/density.rs]).
    - [Journal], [Recovery], [Sweep], [Idempotency] ([fluxvm-scheduler/src]).

    Images and the guest side:
    - [Qcow2] ([fluxvm-image/src/qcow2.rs]); [Unpack], [Dhcp], [Supervise]
      ([fluxvm-oci-init/src]).

    The network ([fluxvm-network/src] unless said otherwise):
    - [Ipam] ([ipam.rs]), [HttpAcl] ([http_acl.rs]), [VzSwitch]
      ([fluxvm-vz-switch/src/lib.rs]).
    - [NetPolicy] ([dataplane.rs], [groups.rs], [identity.rs], [cnp.rs]), [NetEdge]
      ([configure_maps] of [ebpf.rs] and [handle_ipv4] of [bpf/fluxvm_tc.bpf.c]),
      [NetGroups] (from a group to the verdict on a packet) and [NetApply] (the stored
      policy, its attachment and the nftables fallback of [dataplane.rs], [egress.rs]).
    - [LbService], [LbCatalog], [LbMaps], [LbGc] ([service.rs]) with [Maglev] (the
      table) and [LbRoute] (the maps as [bpf/fluxvm_service.bpf.c] reads them).
    - [HaJournal] ([service.rs], [service_ha.rs]) with [HaReplay].

    ** How the code is modelled

    A [u8] to [u64] is an [N]; [+], [-], [*] wrap (the release profile has no
    overflow checks) and checked or saturating methods are written out.
    Counters of list elements held in memory (packets, connections) are left
    unbounded.  Bytes are [list N].  A function that takes [&mut] arguments and
    returns [Result] is in the monad [M]: its result is [Ok], [Err] with the
    variant, [Panic] or [Loop], and writes made before an early return stay.
    A mutex or an advisory lock that serialises operations makes each one step (an
    operation that takes it twice is two: [create_vm]); where threads interleave ([PauseBarrier]) a step is one access to the shared
    state.  Memory fences are left out; the model has one memory.

    The host is explicit.  An image file carries its bytes and a script of
    faults; a tap and a socket carry what their next reads give and whether
    their next writes fail; the clock, the entropy stream and the effect of
    [madvise] are arguments; an eventfd is a counter; a JSON file is its decoded
    value, blank, or text that does not parse.  A call to the kernel or the file
    system that may fail takes the next answer of a script, so that quantifying
    over scripts is quantifying over every failure, and where the process may die
    ([VmStore], [Journal], [Recovery]) over every crash point.  Crates that are not
    in the repository are parameters ([linux-loader], [seccompiler], the
    decompressors, SHA-256), as is the IPv6 reader of the standard library.

    Fuel.  Notify loops of block, rng, balloon and vsock stop after 65 steps
    in the source and take 65 in the model.  A transmit loop has no bound in
    the source: its theorem needs one step more than the pending buffers, and
    [net_tx_can_spin] shows that no fuel is enough for some guests.
    [scatter] takes twice the buffers plus one, [rx_walk] the queue size plus
    one, [inet_cksum]'s carry loop 3, [alloc_host_port] the 10,000 of the
    source, [cid_loop] one more than the CIDs in use, [pkg_loop] 3, [io_part] the
    chunks of the buffer plus two, [admit_loop] one more than the seconds of the
    wait, [probe] of the Maglev table its size; a BPF program runs for its length,
    and resolving a path takes the 40 hops of the source.  The theorems show that
    none of these runs out.  All other loops are over lists.

    ** What the theorems show

    - Hostile guests: whatever is in RAM and the registers, a notify handler
      never panics or loops (block, rng, balloon, vsock), writes only where the
      guest allows, advances [last_avail] by what it completed
      ([blk_notify_safe], [blk_request_safe], [rng_notify_safe],
      [balloon_notify_safe], [vsock_notify_safe], [mmio_accesses_safe]).
    - Data: reads, writes, frames and streams arrive complete, in order and in
      the right place ([blk_write_correct], [blk_read_correct],
      [rx_deliver_correct], [net_tx_order], [vsock_guest_stream],
      [vsock_host_send], [serial_fifo], [serial_receive]).
    - Parsers and walkers against specifications ([walk_chain_spec],
      [gather_spec], [valid_io_request_iff], [parse_mac_roundtrip],
      [vsock_header_roundtrip], [cmos_clock], [glob_match_correct],
      [dhcp_parse_spec], [from_args_valid], [smaps_spec]).
    - The machine: a reader that follows pointers and verifies checksums finds the
      firmware tables ([acpi_tables_readable], [mptable_readable]); a booted kernel
      finds page tables, zero page, command line, initrd and memory map
      ([raw_boot_ready], [memory_maps_bounds]); the devices of the command line are
      those of the bus ([boot_bus_layout]).
    - Threads and the kernel: a pause that is granted holds under every
      interleaving and is granted in bounded time ([pause_barrier_sound],
      [pause_completes]); once vhost-net has the rings nothing else touches them
      ([kernel_owns_rings], [datapath_truthful], [vhost_bring_up]).
    - Snapshots: what is captured is what is loaded and restored, restoring any
      file returns, and a save is published whole or not at all
      ([captured_roundtrip], [snapshot_restores], [restore_safe], [save_atomic]).
    - Confinement: the system call filters are their lists ([vmm_filter_spec],
      [procbox_denylist]), a layer changes nothing outside its root as long as its links
      can be read ([layer_contained]), a converted image is the guest's disk
      ([qcow2_convert_refines]), a secret goes to the sandbox that holds the grant
      ([grant_resolve_correct]).
    - Control plane: the quota ledger is exact in every reachable store but those a
      crash and a later copy leave stale, the caps hold after an admitted create but
      for what raced with it, what the intent of a create that dies names is undone, a
      sweep that can read the claims takes nothing claimed, pool members are handed out once, the gate on memory
      pressure decides in time ([store_ledger_exact], [create_respects_caps],
      [create_crash_recovered], [sweep_spares_claimed], [pool_members_conserved],
      [admit_under_pressure_spec], [reclaim_vms_spec]).
    - Network: subnets do not overlap, frames go to their owner, requests are judged
      by the rules ([ipam_no_overlap], [switch_forwards], [http_check_spec]); what is in
      force of a policy is enforced once written and fails closed ([edge_enforces],
      [configure_fail_closed]), with the groups' denials ([groups_merge],
      [group_deny_enforced]), by nftables as far as its rules carry the policy
      ([nft_agrees], [required_attaches], [ensure_heals]).
    - Load balancer: the table is full and fair, flows go to ready backends, the maps
      and the catalog change as a whole, the collector removes what it should, a
      standby converges on the first interface ([maglev_fair], [maps_route_ready], [populate_fail_closed],
      [upsert_transaction], [gc_exact], [standby_converges]).
    - Where the code falls short, a lemma shows it, among them
      [consume_over_capacity_denied] (a request larger than the bucket stalls its
      queue), [net_tx_can_spin], [gateway_reply_can_panic], [vsock_flush_fifo] (the
      packet lost on an error), [resize_crash_leaves_stale_ledger],
      [create_race_exceeds_cap], [pause_blocked_by_reserved_vcpu],
      [resync_keeps_stale], [denied_port_allowed], [ninth_group_dropped],
      [sample_rate_audits], [chain_failure_opens], [two_guests_blocked],
      [unread_link_followed], [create_crash_leaks_jail], [failed_delete_ignored],
      [synced_too_late], [sweep_unreadable_store_removes_disk], [x32_logged],
      [save_over_memory].

    ** Not modelled

    KVM, vhost and the BPF verifier and helpers are the kernel's: the model has the
    calls made to them and the maps they read.  The rest of the repository was left
    out: the containerd shim, the container agent, the HTTP API and [fluxctl] (glue
    around the parts above), the other backends (argument construction and sockets
    of external VMMs), live migration and vCPU hotplug, mmap and tap set-up,
    attachment with tc and XDP, netlink, Pod policies, IPv6 verdicts at the edge, path
    containment of policies, the encodings of JSON files, telemetry and metrics. *)

From stdpp Require Import prelude list.
From Stdlib Require Import NArith ZArith Lia.

#[global] Open Scope N_scope.

Declare Scope rust_scope.
Delimit Scope rust_scope with rust.
#[global] Open Scope rust_scope.

(** ** Machine integers

    A [uN] value is an [N] below [2^N].  The crate is built without
    [overflow-checks] in release mode, so [+], [-], [*] on unsigned integers
    wrap; the checked and saturating methods are written out
    ([saturating_sub] is [N.sub]). *)

Module U.

Definition wrap (w x : N) : N := x mod 2 ^ w.
Definition inr (w x : N) : bool := x <? 2 ^ w.
Definition max (w : N) : N := 2 ^ w - 1.
Definition add (w x y : N) : N := wrap w (x + y).
Definition sub (w x y : N) : N := wrap w (x + (2 ^ w - y)).
Definition mul (w x y : N) : N := wrap w (x * y).
Definition checked_add (w x y : N) : option N :=
  if x + y <? 2 ^ w then Some (x + y) else None.
Definition checked_mul (w x y : N) : option N :=
  if x * y <? 2 ^ w then Some (x * y) else None.
Definition saturating_add (w x y : N) : N := N.min (x + y) (max w).

(** Bitwise complement of a [w]-bit value. *)
Definition not (w x : N) : N := N.lxor x (N.ones w).

End U.

(** [x & mask != 0] *)
Definition bits (x mask : N) : bool := negb (N.land x mask =? 0).

(** The range of a machine integer, as a proposition. *)
Definition in_u (w x : N) : Prop := x < 2 ^ w.

Lemma inr_spec w x : U.inr w x = true <-> in_u w x.
Proof. apply N.ltb_lt. Qed.

#[global] Instance in_u_dec w x : Decision (in_u w x).
Proof. unfold in_u. apply _. Defined.

(** Linear arithmetic with divisions and remainders turned into equations. *)
Ltac dlia := zify; Z.to_euclidean_division_equations; lia.

Lemma pow2_pos w : 0 < 2 ^ w.
Proof. apply N.neq_0_lt_0, N.pow_nonzero. lia. Qed.

Lemma wrap_range w x : in_u w (U.wrap w x).
Proof. apply N.mod_lt, N.pow_nonzero. lia. Qed.

Lemma wrap_small w x : in_u w x -> U.wrap w x = x.
Proof. intros. by apply N.mod_small. Qed.

Lemma in_u_mono v w x : v <= w -> in_u v x -> in_u w x.
Proof.
  unfold in_u. intros Hvw Hx. pose proof (N.pow_le_mono_r 2 v w). lia.
Qed.

(** ** Outcomes

    [Result<T, FluxError>] with two further cases: [Panic] is a Rust panic
    (an out-of-range slice, an [unwrap] of [None]) and [Loop] is the
    exhaustion of the fuel a model gives to a [loop] or [while] of the
    source.  The text of an error is dropped; its variant is kept. *)

Inductive FluxError :=
| Hypervisor
| Memory
| Device
| Boot
| Network
| Unsupported
| Io.

#[global] Instance FluxError_eq_dec : EqDecision FluxError.
Proof. solve_decision. Defined.

Inductive outcome (A : Type) :=
| Ok (a : A)
| Err (e : FluxError)
| Panic
| Loop.
Arguments Ok {A} _.
Arguments Err {A} _.
Arguments Panic {A}.
Arguments Loop {A}.

(** [Result<A, E>] of the control plane, whose error types differ from one
    component to the next. *)
Inductive result (E A : Type) :=
| ROk (a : A)
| RErr (e : E).
Arguments ROk {E A} _.
Arguments RErr {E A} _.

Definition rbind {E A B} (m : result E A) (f : A -> result E B) : result E B :=
  match m with ROk a => f a | RErr e => RErr e end.

Notation "'let?' x ':=' m 'in' k" := (rbind m (fun x => k))
  (at level 10, x pattern, m at level 100, k at level 200) : rust_scope.

Definition r_is_ok {E A} (r : result E A) : bool :=
  match r with ROk _ => true | RErr _ => false end.

#[global] Instance result_eq_dec {E A} `{EqDecision E, EqDecision A} : EqDecision (result E A).
Proof. solve_decision. Defined.

Definition is_ok {A} (o : outcome A) : bool :=
  match o with Ok _ => true | _ => false end.

(** A computation that returns normally or with an error value. *)
Definition returns {A} (o : outcome A) : Prop :=
  match o with Ok _ | Err _ => True | _ => False end.

(** ** The state and error monad

    [&mut] arguments are the state; what was written before an early return
    with [?] stays written. *)

Definition M (S A : Type) : Type := S -> outcome A * S.

Definition ret {S A} (a : A) : M S A := fun s => (Ok a, s).
Definition throw {S A} (e : FluxError) : M S A := fun s => (Err e, s).
Definition panic {S A} : M S A := fun s => (Panic, s).
Definition diverge {S A} : M S A := fun s => (Loop, s).
Definition get {S} : M S S := fun s => (Ok s, s).
Definition gets {S A} (f : S -> A) : M S A := fun s => (Ok (f s), s).
Definition modify {S} (f : S -> S) : M S unit := fun s => (Ok tt, f s).

Definition bind {S A B} (m : M S A) (f : A -> M S B) : M S B := fun s =>
  match m s with
  | (Ok a, s') => f a s'
  | (Err e, s') => (Err e, s')
  | (Panic, s') => (Panic, s')
  | (Loop, s') => (Loop, s')
  end.

(** [match m { Ok(a) => f(a), Err(_) => h }] *)
Definition try_ok {S A B} (m : M S A) (f : A -> M S B) (h : M S B) : M S B := fun s =>
  match m s with
  | (Ok a, s') => f a s'
  | (Err _, s') => h s'
  | (Panic, s') => (Panic, s')
  | (Loop, s') => (Loop, s')
  end.

Notation "'let!' x ':=' m 'in' k" := (bind m (fun x => k))
  (at level 10, x pattern, m at level 100, k at level 200) : rust_scope.
Notation "'do!' m 'in' k" := (bind m (fun _ => k))
  (at level 10, m at level 100, k at level 200) : rust_scope.

(** Run a computation on a component of the state. *)
Definition zoom {S T A} (g : S -> T) (p : T -> S -> S) (m : M T A) : M S A := fun s =>
  let '(o, t) := m (g s) in (o, p t s).

(** A value or an error computed without touching the state. *)
Definition lift {S A} (o : outcome A) : M S A := fun s => (o, s).
Definition ok_or {S A} (o : option A) (e : FluxError) : M S A :=
  match o with Some a => ret a | None => throw e end.

Lemma bind_Ok {S A B} (m : M S A) (f : A -> M S B) s b s' : bind m f s = (Ok b, s') -> exists a s1, m s = (Ok a, s1) /\ f a s1 = (Ok b, s').
Proof. unfold bind. destruct (m s) as [[a|e| |] s1]; try done. by exists a, s1. Qed.

(** ** Reasoning about computations

    [mrel R m]: whatever the outcome, the final state is [R]-related to the
    initial one. *)

Definition mrel {S A} (R : S -> S -> Prop) (m : M S A) : Prop := forall s, R s (m s).2.

Section Mrel.
Context {S : Type} (R : S -> S -> Prop) `{!PreOrder R}.

Lemma mrel_lift {A} (o : outcome A) : mrel R (lift o).
Proof. intros s. simpl. reflexivity. Qed.

Lemma mrel_ret {A} (a : A) : mrel R (ret a).
Proof. intros s. simpl. reflexivity. Qed.

Lemma mrel_throw {A} e : mrel R (throw (A:=A) e).
Proof. intros s. simpl. reflexivity. Qed.

Lemma mrel_panic {A} : mrel R (panic (A:=A)).
Proof. intros s. simpl. reflexivity. Qed.

Lemma mrel_diverge {A} : mrel R (diverge (A:=A)).
Proof. intros s. simpl. reflexivity. Qed.

Lemma mrel_get : mrel R get.
Proof. intros s. simpl. reflexivity. Qed.

Lemma mrel_gets {A} (f : S -> A) : mrel R (gets f).
Proof. intros s. simpl. reflexivity. Qed.

Lemma mrel_ok_or {A} (o : option A) e : mrel R (ok_or o e).
Proof. intros s. destruct o; simpl; reflexivity. Qed.

Lemma mrel_bind {A B} (m : M S A) (f : A -> M S B) :
  mrel R m -> (forall a, mrel R (f a)) -> mrel R (bind m f).
Proof.
  intros Hm Hf s. unfold bind. specialize (Hm s).
  destruct (m s) as [[a|e| |] s']; simpl in *; try done.
  etransitivity; [done | apply Hf].
Qed.

Lemma mrel_try_ok {A B} (m : M S A) (f : A -> M S B) (h : M S B) :
  mrel R m -> (forall a, mrel R (f a)) -> mrel R h -> mrel R (try_ok m f h).
Proof.
  intros Hm Hf Hh s. unfold try_ok. specialize (Hm s).
  destruct (m s) as [[a|e| |] s']; simpl in *; try done.
  - etransitivity; [done | apply Hf].
  - etransitivity; [done | apply Hh].
Qed.

Lemma mrel_if {A} (b : bool) (m1 m2 : M S A) :
  mrel R m1 -> mrel R m2 -> mrel R (if b then m1 else m2).
Proof. by destruct b. Qed.

End Mrel.

Lemma mrel_zoom {S T A} (R : S -> S -> Prop) (g : S -> T) (p : T -> S -> S) (m : M T A) :
  (forall s, R s (p (m (g s)).2 s)) -> mrel R (zoom g p m).
Proof.
  intros H s. unfold zoom. specialize (H s).
  destruct (m (g s)); simpl in *; done.
Qed.

Create HintDb mrel discriminated.
#[export] Hint Resolve mrel_lift mrel_ret mrel_throw mrel_panic mrel_diverge mrel_get
  mrel_gets mrel_ok_or mrel_bind mrel_try_ok mrel_if : mrel.

(** Case split on every [match] of a computation and apply the rules above. *)
Ltac mrel_tac :=
  repeat lazymatch goal with
  | |- forall _, mrel _ _ => intro
  | |- forall _ _, mrel _ _ => intro
  | |- mrel _ (bind _ _) => apply mrel_bind; [typeclasses eauto | |]
  | |- mrel _ (try_ok _ _ _) => apply mrel_try_ok; [typeclasses eauto | | |]
  | |- mrel _ (match ?x with _ => _ end) => destruct x eqn:?
  | |- mrel _ _ => solve [eauto with mrel typeclass_instances]
  end.

(** [keeps J m]: started anywhere [J]-related to a reference state, [m] returns
    (a value or an error, never a panic or exhausted fuel) and stays [J]-related
    to it. *)
Definition keeps {S A} (J : S -> S -> Prop) (m : M S A) : Prop :=
  forall s0 s, J s0 s -> returns (m s).1 /\ J s0 (m s).2.

Section Keeps.
Context {S : Type} (J : S -> S -> Prop).

Lemma keeps_ret {A} (a : A) : keeps J (ret a).
Proof. by intros s0 s. Qed.

Lemma keeps_throw {A} e : keeps J (throw (A:=A) e).
Proof. by intros s0 s. Qed.

Lemma keeps_get : keeps J get.
Proof. by intros s0 s. Qed.

Lemma keeps_gets {A} (f : S -> A) : keeps J (gets f).
Proof. by intros s0 s. Qed.

Lemma keeps_ok_or {A} (o : option A) e : keeps J (ok_or o e).
Proof. by intros s0 s; destruct o. Qed.

Lemma keeps_modify (f : S -> S) : (forall s0 s, J s0 s -> J s0 (f s)) -> keeps J (modify f).
Proof. intros H s0 s Hs. split; [done|]. by apply H. Qed.

Lemma keeps_bind {A B} (m : M S A) (f : A -> M S B) :
  keeps J m -> (forall a, keeps J (f a)) -> keeps J (bind m f).
Proof.
  intros Hm Hf s0 s Hs. destruct (Hm s0 s Hs) as [Hr HJ]. unfold bind.
  destruct (m s) as [[a|e| |] s']; simpl in *; try done. by apply Hf.
Qed.

Lemma keeps_try_ok {A B} (m : M S A) (f : A -> M S B) (h : M S B) :
  keeps J m -> (forall a, keeps J (f a)) -> keeps J h -> keeps J (try_ok m f h).
Proof.
  intros Hm Hf Hh s0 s Hs. destruct (Hm s0 s Hs) as [Hr HJ]. unfold try_ok.
  destruct (m s) as [[a|e| |] s']; simpl in *; try done; [by apply Hf|by apply Hh].
Qed.

End Keeps.

Create HintDb keeps discriminated.
#[export] Hint Resolve keeps_ret keeps_throw keeps_get keeps_gets keeps_ok_or : keeps.

(** Structural steps of a [keeps] goal. *)
Ltac keeps_tac :=
  repeat lazymatch goal with
  | |- forall _, keeps _ _ => intro
  | |- forall _ _, keeps _ _ => intro
  | |- keeps _ (bind _ _) => apply keeps_bind
  | |- keeps _ (try_ok _ _ _) => apply keeps_try_ok
  | |- keeps _ (match ?x with _ => _ end) => destruct x eqn:?
  | |- keeps _ _ => solve [eauto with keeps]
  end.

(** ** Byte strings *)

Abbreviation u8 := N (only parsing).
Abbreviation u16 := N (only parsing).
Abbreviation u32 := N (only parsing).
Abbreviation u64 := N (only parsing).
Abbreviation usize := N (only parsing).
Abbreviation bytes := (list N) (only parsing).

Definition lenN {A} (l : list A) : N := N.of_nat (length l).

Lemma lenN_app {A} (a b : list A) : lenN (a ++ b) = lenN a + lenN b.
Proof. unfold lenN. rewrite length_app. lia. Qed.

(** [uN::to_le_bytes] on [n] bytes and [uN::from_le_bytes]. *)
Fixpoint le_bytes (n : nat) (v : N) : bytes :=
  match n with
  | O => []
  | S n => v mod 256 :: le_bytes n (v / 256)
  end.

Fixpoint from_le (bs : bytes) : N :=
  match bs with
  | [] => 0
  | b :: bs => b + 256 * from_le bs
  end.

(** [u16::from_be_bytes] and friends. *)
Definition from_be (bs : bytes) : N := from_le (reverse bs).

(** Every element is a byte. *)
Definition bytesb (bs : bytes) : bool := forallb (U.inr 8) bs.
Definition is_bytes (bs : bytes) : Prop := Forall (in_u 8) bs.

Lemma bytesb_spec bs : bytesb bs = true <-> is_bytes bs.
Proof.
  unfold bytesb, is_bytes. rewrite forallb_forall, List.Forall_forall.
  by setoid_rewrite inr_spec.
Qed.

Lemma length_le_bytes n v : length (le_bytes n v) = n.
Proof. revert v. induction n; intros; simpl; auto. Qed.

Lemma le_bytes_is_bytes n v : is_bytes (le_bytes n v).
Proof.
  revert v. induction n; intros; simpl; constructor; [|apply IHn].
  apply N.mod_lt. lia.
Qed.

Lemma pow256 n : 256 ^ N.of_nat n = 2 ^ (8 * N.of_nat n).
Proof. change 256 with (2 ^ 8). by rewrite <- N.pow_mul_r. Qed.

Lemma from_le_bytes n v : from_le (le_bytes n v) = v mod 2 ^ (8 * N.of_nat n).
Proof.
  rewrite <- pow256. revert v. induction n as [|n IH]; intros v.
  - simpl. by rewrite N.mod_1_r.
  - cbn [le_bytes from_le]. rewrite IH, Nat2N.inj_succ, N.pow_succ_r'.
    rewrite N.Div0.mod_mul_r. lia.
Qed.

Lemma from_le_bytes_small n v :
  in_u (8 * N.of_nat n) v -> from_le (le_bytes n v) = v.
Proof. intros. rewrite from_le_bytes. by apply N.mod_small. Qed.

Lemma from_le_range bs : is_bytes bs -> in_u (8 * lenN bs) (from_le bs).
Proof.
  unfold in_u, lenN. rewrite <- pow256. induction 1 as [|b bs Hb Hbs IH]; simpl length.
  - simpl. lia.
  - cbn [from_le]. rewrite Nat2N.inj_succ, N.pow_succ_r'. unfold in_u in Hb.
    change (2 ^ 8) with 256 in Hb. lia.
Qed.

Lemma le_bytes_from_le bs : is_bytes bs -> le_bytes (length bs) (from_le bs) = bs.
Proof.
  induction 1 as [|b bs Hb Hbs IH]; [done|]. unfold in_u in Hb. change (2 ^ 8) with 256 in Hb.
  cbn [length le_bytes from_le].
  replace ((b + 256 * from_le bs) mod 256) with b by dlia.
  replace ((b + 256 * from_le bs) / 256) with (from_le bs) by dlia. by rewrite IH.
Qed.

(** ** Slices *)

(** [&l[i..i+n]] *)
Definition slice {A} (i n : nat) (l : list A) : list A := take n (drop i l).

(** [l[i..i+d.len()].copy_from_slice(d)] *)
Definition splice {A} (i : nat) (d l : list A) : list A :=
  take i l ++ d ++ drop (i + length d) l.

Section Slices.
Context {A : Type}.
Implicit Types l d : list A.

Lemma length_slice i n l : (i + n <= length l)%nat -> length (slice i n l) = n.
Proof. intros. unfold slice. rewrite length_take, length_drop. lia. Qed.

Lemma length_splice i d l :
  (i + length d <= length l)%nat -> length (splice i d l) = length l.
Proof.
  intros. unfold splice. rewrite !length_app, length_take, length_drop. lia.
Qed.

Lemma lookup_slice i n l j :
  slice i n l !! j = if decide (j < n)%nat then l !! (i + j)%nat else None.
Proof.
  unfold slice. case_decide.
  - rewrite lookup_take_lt, lookup_drop; done.
  - apply lookup_take_ge. lia.
Qed.

Lemma lookup_splice i d l j :
  (i + length d <= length l)%nat ->
  splice i d l !! j =
    if decide (i <= j < i + length d)%nat then d !! (j - i)%nat else l !! j.
Proof.
  intros Hle. unfold splice.
  assert (length (take i l) = i) as Hl by (rewrite length_take; lia).
  destruct (decide (j < i)%nat).
  - rewrite lookup_app_l, lookup_take_lt by lia. by rewrite decide_False by lia.
  - rewrite lookup_app_r, Hl by lia. case_decide.
    + rewrite lookup_app_l by lia. done.
    + rewrite lookup_app_r, lookup_drop by lia. f_equal. lia.
Qed.

Lemma slice_splice_same i d l :
  (i + length d <= length l)%nat -> slice i (length d) (splice i d l) = d.
Proof.
  intros. apply list_eq. intros j. rewrite lookup_slice, lookup_splice by lia.
  destruct (decide (j < length d)%nat).
  - rewrite decide_True by lia. f_equal. lia.
  - symmetry. apply lookup_ge_None. lia.
Qed.

Lemma slice_splice_disjoint i n k d l :
  (k + length d <= length l)%nat ->
  (i + n <= k \/ k + length d <= i)%nat ->
  slice i n (splice k d l) = slice i n l.
Proof.
  intros ? Hd. apply list_eq. intros j. rewrite !lookup_slice. case_decide; [|done].
  rewrite lookup_splice by lia. by rewrite decide_False by lia.
Qed.

Lemma splice_slice_id i n l : (i + n <= length l)%nat -> splice i (slice i n l) l = l.
Proof.
  intros. apply list_eq. intros j. rewrite lookup_splice; rewrite length_slice by lia; [|lia].
  case_decide; [|done]. rewrite lookup_slice, decide_True by lia. f_equal. lia.
Qed.

Lemma slice_app_split i n m l : slice i (n + m) l = slice i n l ++ slice (i + n) m l.
Proof.
  unfold slice. rewrite <- drop_drop. symmetry.
  rewrite Nat.add_comm. rewrite (Nat.add_comm m n). by rewrite take_take_drop.
Qed.

End Slices.

Lemma slice_is_bytes i n bs : is_bytes bs -> is_bytes (slice i n bs).
Proof. intros. unfold slice. by apply Forall_take, Forall_drop. Qed.

Lemma splice_is_bytes i d bs : is_bytes bs -> is_bytes d -> is_bytes (splice i d bs).
Proof.
  intros. unfold splice. repeat apply Forall_app_2; try done;
    [by apply Forall_take | by apply Forall_drop].
Qed.

Create HintDb rust discriminated.
#[export] Hint Resolve le_bytes_is_bytes slice_is_bytes splice_is_bytes : rust.

#[global] Arguments le_bytes : simpl never.
#[global] Arguments from_le : simpl never.
#[global] Arguments slice : simpl never.
#[global] Arguments splice : simpl never.

(** ** Bit operations at a width *)

Lemma in_u_land w a : in_u w a <-> N.land a (N.ones w) = a.
Proof.
  rewrite N.land_ones. unfold in_u. split; intros H.
  - by apply N.mod_small.
  - rewrite <- H. apply N.mod_lt, N.pow_nonzero. lia.
Qed.

Lemma lor_in_u w a b : in_u w a -> in_u w b -> in_u w (N.lor a b).
Proof. rewrite !in_u_land. intros Ha Hb. by rewrite N.land_lor_distr_l, Ha, Hb. Qed.

Lemma land_in_u_l w a b : in_u w a -> in_u w (N.land a b).
Proof.
  rewrite !in_u_land. intros Ha.
  by rewrite <- N.land_assoc, (N.land_comm b), N.land_assoc, Ha.
Qed.

Lemma land_in_u_r w a b : in_u w b -> in_u w (N.land a b).
Proof. rewrite N.land_comm. apply land_in_u_l. Qed.

Lemma shiftl_in_u v w a : in_u v a -> in_u (v + w) (N.shiftl a w).
Proof.
  unfold in_u. intros. rewrite N.shiftl_mul_pow2, N.pow_add_r.
  apply N.mul_lt_mono_pos_r; [apply pow2_pos|done].
Qed.

(** Bits of disjoint fields add up. *)
Lemma lor_shiftl_add a b n : in_u n a -> N.lor a (N.shiftl b n) = a + b * 2 ^ n.
Proof.
  intros Ha. rewrite <- N.shiftl_mul_pow2.
  assert (N.land a (N.shiftl b n) = 0) as H0.
  { apply N.bits_inj. intros k. rewrite N.land_spec, N.bits_0.
    destruct (N.lt_ge_cases k n).
    - by rewrite N.shiftl_spec_low, andb_false_r.
    - rewrite in_u_land in Ha. rewrite <- Ha, N.land_spec, N.ones_spec_high by done.
      by rewrite andb_false_r. }
  rewrite N.add_nocarry_lxor by done. by rewrite N.lxor_lor.
Qed.

Lemma land_not_ones w x n : n <= w -> in_u w x ->
  N.land x (U.not w (N.ones n)) = 2 ^ n * (x / 2 ^ n).
Proof.
  intros Hn Hx. rewrite <- N.shiftr_div_pow2, N.mul_comm, <- N.shiftl_mul_pow2.
  apply N.bits_inj. intros k. unfold U.not. rewrite N.land_spec, N.lxor_spec.
  destruct (N.lt_ge_cases k n).
  - rewrite !N.ones_spec_low, N.shiftl_spec_low by lia. apply andb_false_r.
  - rewrite (N.ones_spec_high n k), N.shiftl_spec_high', N.shiftr_spec' by lia.
    replace (k - n + n) with k by lia.
    destruct (N.lt_ge_cases k w).
    + rewrite N.ones_spec_low by lia. by rewrite andb_true_r.
    + rewrite in_u_land in Hx. rewrite <- Hx, N.land_spec, N.ones_spec_high by lia.
      by rewrite !andb_false_r.
Qed.

#[export] Hint Resolve lor_in_u land_in_u_l land_in_u_r wrap_range : rust.

(** Discharge a decidable hypothesis of a concrete instance by evaluation. *)
Ltac by_eval := apply (bool_decide_unpack _); vm_compute; exact I.

(** ** More on slices *)

Section MoreSlices.
Context {A : Type}.
Implicit Types l d : list A.

(** Two adjacent writes are one. *)
Lemma splice_app i d1 d2 l :
  (i + length d1 + length d2 <= length l)%nat ->
  splice (i + length d1) d2 (splice i d1 l) = splice i (d1 ++ d2) l.
Proof.
  intros Hle. apply list_eq. intros j.
  rewrite !lookup_splice; rewrite ?length_splice, ?length_app; try lia.
  repeat case_decide; try lia.
  - rewrite lookup_app_r by lia. f_equal. lia.
  - by rewrite lookup_app_l by lia.
  - done.
Qed.

Lemma splice_nil i l : (i <= length l)%nat -> splice i [] l = l.
Proof. intros. unfold splice. simpl. rewrite Nat.add_0_r. apply take_drop. Qed.

Lemma slice_zero i l : slice i 0 l = [].
Proof. done. Qed.

(** Bytes outside [lo, lo+n) are the same and the length too. *)
Definition same_outside (lo n : nat) (l l' : list A) : Prop :=
  length l' = length l /\ forall j, (j < lo \/ lo + n <= j)%nat -> l' !! j = l !! j.

Lemma same_outside_refl lo n l : same_outside lo n l l.
Proof. done. Qed.

Lemma same_outside_splice lo n i d l :
  (lo <= i)%nat -> (i + length d <= lo + n)%nat -> (i + length d <= length l)%nat ->
  same_outside lo n l (splice i d l).
Proof.
  intros ? ? ?. split; [by apply length_splice|]. intros j Hj.
  rewrite lookup_splice by done. by rewrite decide_False by lia.
Qed.

Lemma same_outside_trans lo1 n1 lo2 n2 lo n l1 l2 l3 :
  (lo <= lo1)%nat -> (lo1 + n1 <= lo + n)%nat -> (lo <= lo2)%nat -> (lo2 + n2 <= lo + n)%nat ->
  same_outside lo1 n1 l1 l2 -> same_outside lo2 n2 l2 l3 -> same_outside lo n l1 l3.
Proof.
  intros ? ? ? ? [Hl1 H1] [Hl2 H2]. split; [congruence|].
  intros j Hj. rewrite H2, H1 by lia. done.
Qed.

End MoreSlices.
