(* ===== verification/RustStr.v ===== *)
(** * Strings of the Rust standard library

    What the sources use of [str]: a string is the list of its code points.
    UTF-8 in both directions, ASCII case, trimming, splitting, joining and
    prefixes, with the lemmas on them the components share. *)

From stdpp Require Import prelude list strings.
From Stdlib Require Import NArith Lia.
From S2P Require Import Prelude.

Abbreviation rstr := (list N).

(** A literal of ASCII characters, as a string or as bytes. *)
Definition bstr (s : String.string) : list N := map Ascii.N_of_ascii (String.list_ascii_of_string s).

(** [str::as_bytes]: the UTF-8 encoding of a code point and of a string. *)
Definition encode_char (c : N) : bytes :=
  if c <? 0x80 then [c]
  else if c <? 0x800 then [0xc0 + c / 64; 0x80 + c mod 64]
  else if c <? 0x10000 then [0xe0 + c / 4096; 0x80 + (c / 64) mod 64; 0x80 + c mod 64]
  else [0xf0 + c / 262144; 0x80 + (c / 4096) mod 64; 0x80 + (c / 64) mod 64; 0x80 + c mod 64].

Definition as_bytes (s : rstr) : bytes := flat_map encode_char s.

(** [String::from_utf8_lossy]: code points, each maximal invalid sequence as
    U+FFFD. *)
Definition cont (b : N) : bool := (0x80 <=? b) && (b <=? 0xbf).

Definition second_ok (lead b : N) : bool :=
  if lead =? 0xe0 then (0xa0 <=? b) && (b <=? 0xbf)
  else if lead =? 0xed then (0x80 <=? b) && (b <=? 0x9f)
  else if lead =? 0xf0 then (0x90 <=? b) && (b <=? 0xbf)
  else if lead =? 0xf4 then (0x80 <=? b) && (b <=? 0x8f)
  else cont b.

Fixpoint utf8_lossy (fuel : nat) (bs : bytes) : list N :=
  match fuel, bs with
  | O, _ | _, [] => []
  | S fuel, b :: r =>
      if b <? 0x80 then b :: utf8_lossy fuel r
      else if (0xc2 <=? b) && (b <=? 0xdf) then
        match r with
        | c :: r' => if cont c then ((b - 0xc0) * 64 + (c - 0x80)) :: utf8_lossy fuel r'
                     else 0xfffd :: utf8_lossy fuel r
        | [] => [0xfffd]
        end
      else if (0xe0 <=? b) && (b <=? 0xef) then
        match r with
        | c :: r' =>
            if second_ok b c then
              match r' with
              | d :: r'' =>
                  if cont d then ((b - 0xe0) * 4096 + (c - 0x80) * 64 + (d - 0x80)) :: utf8_lossy fuel r''
                  else 0xfffd :: utf8_lossy fuel r'
              | [] => [0xfffd]
              end
            else 0xfffd :: utf8_lossy fuel r
        | [] => [0xfffd]
        end
      else if (0xf0 <=? b) && (b <=? 0xf4) then
        match r with
        | c :: r' =>
            if second_ok b c then
              match r' with
              | d :: r'' =>
                  if cont d then
                    match r'' with
                    | e :: r3 =>
                        if cont e then
                          ((b - 0xf0) * 262144 + (c - 0x80) * 4096 + (d - 0x80) * 64 + (e - 0x80))
                            :: utf8_lossy fuel r3
                        else 0xfffd :: utf8_lossy fuel r''
                    | [] => [0xfffd]
                    end
                  else 0xfffd :: utf8_lossy fuel r'
              | [] => [0xfffd]
              end
            else 0xfffd :: utf8_lossy fuel r
        | [] => [0xfffd]
        end
      else 0xfffd :: utf8_lossy fuel r
  end.

(** [char::is_whitespace] and [str::trim]. *)
Definition is_space (c : N) : bool :=
  ((0x9 <=? c) && (c <=? 0xd)) || (c =? 0x20) || (c =? 0x85) || (c =? 0xa0) || (c =? 0x1680) ||
  ((0x2000 <=? c) && (c <=? 0x200a)) || (c =? 0x2028) || (c =? 0x2029) || (c =? 0x202f) ||
  (c =? 0x205f) || (c =? 0x3000).

Fixpoint trim_start (s : list N) : list N :=
  match s with c :: r => if is_space c then trim_start r else s | [] => [] end.

Definition trim (s : list N) : list N := reverse (trim_start (reverse (trim_start s))).

Fixpoint strip_prefix (p s : list N) : option (list N) :=
  match p, s with
  | [], _ => Some s
  | x :: p, y :: s => if x =? y then strip_prefix p s else None
  | _, [] => None
  end.

Definition strip_suffix (p s : list N) : option (list N) :=
  reverse <$> strip_prefix (reverse p) (reverse s).

Definition starts_with (p s : list N) : bool :=
  match strip_prefix p s with Some _ => true | None => false end.

(** [trim_start_matches] and [trim_end_matches] of one character. *)
Fixpoint trim_start_matches (c : N) (s : list N) : list N :=
  match s with x :: r => if x =? c then trim_start_matches c r else s | [] => [] end.

Definition trim_end_matches (c : N) (s : list N) : list N :=
  reverse (trim_start_matches c (reverse s)).

(** [s.split(sep)]: always at least one piece. *)
Fixpoint split_on (sep : N) (s cur : bytes) : list bytes :=
  match s with
  | [] => [cur]
  | c :: s => if c =? sep then cur :: split_on sep s [] else split_on sep s (cur ++ [c])
  end.

(** [pieces.join(sep)]. *)
Fixpoint join (sep : list N) (ps : list (list N)) : list N :=
  match ps with
  | [] => []
  | [p] => p
  | p :: ps => p ++ sep ++ join sep ps
  end.

(** [str::split_whitespace]: the maximal runs without white space. *)
Fixpoint words_from (s cur : list N) : list (list N) :=
  match s with
  | [] => if bool_decide (cur = []) then [] else [cur]
  | c :: s =>
      if is_space c then (if bool_decide (cur = []) then [] else [cur]) ++ words_from s []
      else words_from s (cur ++ [c])
  end.

Definition split_whitespace (s : list N) : list (list N) := words_from s [].

(** [s.find(c)]: what is before the first [c], and what comes after it. *)
Fixpoint split_once (c : N) (s : list N) : option (list N * list N) :=
  match s with
  | [] => None
  | x :: r =>
      if x =? c then Some ([], r)
      else match split_once c r with Some (a, b) => Some (x :: a, b) | None => None end
  end.

Definition rsplit_once (c : N) (s : list N) : option (list N * list N) :=
  match split_once c (reverse s) with
  | Some (a, b) => Some (reverse b, reverse a)
  | None => None
  end.

Definition contains (c : N) (s : list N) : bool := existsb (N.eqb c) s.

(** [s.contains(pat)] *)
Fixpoint contains_str (pat s : rstr) : bool :=
  starts_with pat s || match s with [] => false | _ :: s => contains_str pat s end.

(** ** ASCII classes and case *)

Definition is_upper (c : N) : bool := (65 <=? c) && (c <=? 90).
Definition is_lower (c : N) : bool := (97 <=? c) && (c <=? 122).
Definition is_alpha (c : N) : bool := is_upper c || is_lower c.
Definition is_digit (c : N) : bool := (48 <=? c) && (c <=? 57).
Definition is_alnum (c : N) : bool := is_alpha c || is_digit c.
(** [u8::is_ascii_control]. *)
Definition is_control (c : N) : bool := (c <? 32) || (c =? 127).

Definition lower (c : N) : N := if is_upper c then c + 32 else c.
Definition upper (c : N) : N := if is_lower c then c - 32 else c.
Definition to_ascii_lowercase (s : list N) : list N := map lower s.
Definition to_ascii_uppercase (s : list N) : list N := map upper s.
Definition eq_ignore_ascii_case (a b : list N) : bool :=
  bool_decide (to_ascii_lowercase a = to_ascii_lowercase b).

(** A hexadecimal digit as [{:x}] prints it, and bytes as [{:02x}]. *)
Definition hex_lower (d : N) : N := if d <? 10 then 48 + d else 87 + d.
Definition hex (bs : bytes) : list N := flat_map (fun b => [hex_lower (b / 16); hex_lower (b mod 16)]) bs.

(** A number in [n] lower-case hexadecimal digits. *)
Fixpoint hex_string (n : nat) (v : N) : list N :=
  match n with O => [] | S n => hex_string n (v / 16) ++ [hex_lower (v mod 16)] end.

(** ** Hexadecimal and decimal numbers *)

Definition hex_digit (c : N) : option N :=
  if (48 <=? c) && (c <=? 57) then Some (c - 48)
  else if (97 <=? c) && (c <=? 102) then Some (c - 87)
  else if (65 <=? c) && (c <=? 70) then Some (c - 55)
  else None.

(** [u8::from_str_radix(p, 16)]: an optional plus sign, at least one digit, no
    overflow at any step. *)
Fixpoint hex_digits (p : bytes) (acc : N) : option N :=
  match p with
  | [] => Some acc
  | c :: p =>
      match hex_digit c with
      | Some d => if acc * 16 + d <? 256 then hex_digits p (acc * 16 + d) else None
      | None => None
      end
  end.

Definition u8_from_hex (p : bytes) : option N :=
  match p with
  | [] => None
  | [c] => if (c =? 43) || (c =? 45) then None else hex_digits [c] 0
  | c :: rest => if c =? 43 then hex_digits rest 0 else hex_digits p 0
  end.

(** [format!("{:X}")] of one digit. *)
Definition hex_upper (d : N) : N := if d <? 10 then 48 + d else 55 + d.

(** [s.parse::<uw>()] in base ten: an optional plus sign, at least one digit,
    no overflow at any step. *)
Fixpoint dec_digits (w : N) (p : list N) (acc : N) : option N :=
  match p with
  | [] => Some acc
  | c :: p =>
      if is_digit c then
        if acc * 10 + (c - 48) <? 2 ^ w then dec_digits w p (acc * 10 + (c - 48)) else None
      else None
  end.

Definition parse_dec (w : N) (p : list N) : option N :=
  match p with
  | [] => None
  | [c] => dec_digits w [c] 0
  | c :: rest => if c =? 43 then dec_digits w rest 0 else dec_digits w p 0
  end.

(** [format!("{}", n)] *)
Fixpoint dec_fuel (fuel : nat) (n : N) : rstr :=
  match fuel with
  | O => []
  | S fuel => if n <? 10 then [48 + n] else dec_fuel fuel (n / 10) ++ [48 + n mod 10]
  end.

Definition to_decimal (n : N) : rstr := dec_fuel (S (N.to_nat (N.size n))) n.

(** [str::lines]: what is between line feeds, without the carriage return of
    a line end and without an empty last piece. *)
Definition strip_cr (s : list N) : list N := default s (strip_suffix [13] s).

Fixpoint line_pieces (ps : list (list N)) : list (list N) :=
  match ps with
  | [] => []
  | [p] => if bool_decide (p = []) then [] else [p]
  | p :: ps => strip_cr p :: line_pieces ps
  end.

Definition lines (s : list N) : list (list N) := line_pieces (split_on 10 s []).

(** ** Order *)

(** [String::cmp]: by bytes. *)
Fixpoint rstr_leb (a b : rstr) : bool :=
  match a, b with
  | [], _ => true
  | _ :: _, [] => false
  | x :: a, y :: b => if x <? y then true else if x =? y then rstr_leb a b else false
  end.

(** ** Trimming *)

(** No white space at the front. *)
Definition lead_ok (s : list N) : bool := match s with c :: _ => negb (is_space c) | [] => true end.

Lemma trim_start_lead s : lead_ok (trim_start s) = true.
Proof. induction s as [|c s IH]; [done|]. simpl. destruct (is_space c) eqn:E; [done|]. simpl. by rewrite E. Qed.

Lemma trim_start_id s : lead_ok s = true -> trim_start s = s.
Proof. destruct s as [|c s]; [done|]. simpl. by destruct (is_space c). Qed.

(** Trimming the front keeps a last character that is not white space. *)
Lemma trim_start_app s c : is_space c = false -> exists r, trim_start (s ++ [c]) = r ++ [c].
Proof.
  intros Hc. induction s as [|x s [r IH]]; simpl; [rewrite Hc; by exists []|].
  destruct (is_space x); [by exists r|by exists (x :: s)].
Qed.

Lemma trim_ends s : lead_ok (trim s) = true /\ lead_ok (reverse (trim s)) = true.
Proof.
  unfold trim. rewrite reverse_involutive. split; [|apply trim_start_lead].
  pose proof (trim_start_lead s) as Hl. destruct (trim_start s) as [|c u]; [done|].
  simpl in Hl. apply negb_true_iff in Hl. rewrite reverse_cons.
  destruct (trim_start_app (reverse u) c Hl) as [r ->]. rewrite reverse_app. simpl. by rewrite Hl.
Qed.

Lemma trim_idemp s : trim (trim s) = trim s.
Proof.
  destruct (trim_ends s) as [H1 H2]. unfold trim at 1.
  rewrite (trim_start_id (trim s)) by done. rewrite (trim_start_id (reverse (trim s))) by done.
  apply reverse_involutive.
Qed.

(** ** Prefixes, suffixes and pieces *)

Lemma strip_prefix_spec p s r : strip_prefix p s = Some r <-> s = p ++ r.
Proof.
  revert s. induction p as [|x p IH]; intros [|y s]; simpl; split; intros H; simplify_eq; try done.
  - destruct (N.eqb_spec x y) as [->|]; [|done]. f_equal. by apply IH.
  - rewrite N.eqb_refl. by apply IH.
Qed.

Lemma strip_suffix_spec p s r : strip_suffix p s = Some r <-> s = r ++ p.
Proof.
  unfold strip_suffix. rewrite fmap_Some. split.
  - intros (u & Hu & ->). apply strip_prefix_spec in Hu.
    rewrite <- (reverse_involutive s), Hu, reverse_app, reverse_involutive. done.
  - intros ->. exists (reverse r). rewrite reverse_involutive. split; [|done].
    apply strip_prefix_spec. by rewrite reverse_app.
Qed.

Lemma split_once_app c a b : c ∉ a -> split_once c (a ++ c :: b) = Some (a, b).
Proof.
  induction a as [|x a IH]; intros Ha; simpl; [by rewrite N.eqb_refl|].
  destruct (N.eqb_spec x c) as [->|]; [set_solver|]. rewrite IH; set_solver.
Qed.

Lemma split_once_some c s a b : split_once c s = Some (a, b) -> s = a ++ c :: b /\ c ∉ a.
Proof.
  revert a. induction s as [|x s IH]; intros a; simpl; [done|].
  destruct (N.eqb_spec x c) as [->|Hx]; [intros [= <- <-]; set_solver|].
  destruct (split_once c s) as [[a' b']|]; [|done]. intros [= <- <-].
  destruct (IH a' eq_refl) as [-> ?]. set_solver.
Qed.

Lemma split_once_none c s : split_once c s = None <-> c ∉ s.
Proof.
  split.
  - induction s as [|x s IH]; simpl; [set_solver|].
    destruct (N.eqb_spec x c); [done|]. destruct (split_once c s) as [[]|]; [done|]. set_solver.
  - destruct (split_once c s) as [[a b]|] eqn:E; [|done].
    apply split_once_some in E as [-> _]. set_solver.
Qed.

Lemma contains_spec c s : contains c s = true <-> c ∈ s.
Proof.
  unfold contains. rewrite existsb_exists. setoid_rewrite N.eqb_eq.
  split; [intros (x & Hx & <-)|intros Hx; exists c]; [|split; [|done]]; by apply list_elem_of_In.
Qed.

Lemma contains_str_spec pat s : contains_str pat s = true <-> exists a b, s = a ++ pat ++ b.
Proof.
  assert (forall s, starts_with pat s = true <-> exists b, s = pat ++ b) as Hp.
  { intros t. unfold starts_with. destruct (strip_prefix pat t) as [r|] eqn:E.
    - apply strip_prefix_spec in E. naive_solver.
    - split; [done|]. intros [b Hb]. apply strip_prefix_spec in Hb. congruence. }
  induction s as [|c s IH]; cbn [contains_str]; rewrite orb_true_iff, Hp.
  - split.
    + intros [[b Hb]|?]; [|done]. by exists [], b.
    + intros (a & b & E). left. exists b. by destruct a.
  - rewrite IH. split.
    + intros [[b Hb]|(a & b & ->)]; [by exists [], b|by exists (c :: a), b].
    + intros ([|x a] & b & E); [left; by exists b|right]. simplify_eq/=. eauto.
Qed.

Lemma contains_str_app pat s t : contains_str pat s = true -> contains_str pat (s ++ t) = true.
Proof.
  rewrite !contains_str_spec. intros (a & b & ->). exists a, (b ++ t). by rewrite <- !app_assoc.
Qed.

(** ** Splitting and joining *)

Lemma split_on_cur sep s cur : exists h t, split_on sep s [] = h :: t /\ split_on sep s cur = (cur ++ h) :: t.
Proof.
  revert cur. induction s as [|c s IH]; intros cur; simpl.
  - exists [], []. by rewrite app_nil_r.
  - destruct (c =? sep).
    + exists [], (split_on sep s []). by rewrite app_nil_r.
    + destruct (IH [c]) as (h & t & E & E1), (IH (cur ++ [c])) as (h' & t' & E' & E2).
      rewrite E in E'. simplify_eq. exists (c :: h'), t'. rewrite E1, E2, <- app_assoc. done.
Qed.

Lemma split_on_nosep sep a s : sep ∉ a -> split_on sep (a ++ sep :: s) [] = a :: split_on sep s [].
Proof.
  intros Ha. cut (forall cur, split_on sep (a ++ sep :: s) cur = (cur ++ a) :: split_on sep s []).
  { intros H. apply (H []). }
  induction a as [|c a IH]; intros cur; simpl.
  - rewrite N.eqb_refl, app_nil_r. done.
  - destruct (N.eqb_spec c sep) as [->|]; [set_solver|].
    rewrite IH by set_solver. by rewrite <- app_assoc.
Qed.

Lemma split_on_single sep a : sep ∉ a -> split_on sep a [] = [a].
Proof.
  intros Ha. cut (forall cur, split_on sep a cur = [cur ++ a]); [intros H; apply (H [])|].
  induction a as [|c a IH]; intros cur; simpl; [by rewrite app_nil_r|].
  destruct (N.eqb_spec c sep) as [->|]; [set_solver|].
  rewrite IH by set_solver. by rewrite <- app_assoc.
Qed.

(** Splitting undoes joining pieces that do not hold the separator. *)
Lemma split_on_join sep p ps :
  Forall (fun q => sep ∉ q) (p :: ps) -> split_on sep (join [sep] (p :: ps)) [] = p :: ps.
Proof.
  revert p. induction ps as [|q ps IH]; intros p H; apply Forall_cons in H as [Hp H].
  - by apply split_on_single.
  - change (join [sep] (p :: q :: ps)) with (p ++ sep :: join [sep] (q :: ps)).
    rewrite split_on_nosep by done. by rewrite IH.
Qed.

Lemma split_on_free sep s cur : sep ∉ cur -> Forall (fun q => sep ∉ q) (split_on sep s cur).
Proof.
  revert cur. induction s as [|c s IH]; intros cur Hc; simpl; [by constructor|].
  destruct (N.eqb_spec c sep).
  - constructor; [done|]. apply IH. set_solver.
  - apply IH. set_solver.
Qed.

Lemma split_on_sub sep s cur q x : q ∈ split_on sep s cur -> x ∈ q -> x ∈ cur \/ x ∈ s.
Proof.
  revert cur. induction s as [|c s IH]; intros cur; simpl; [set_solver|].
  destruct (c =? sep).
  - intros [->|Hq]%elem_of_cons Hx; [by left|]. destruct (IH [] Hq Hx); set_solver.
  - intros Hq Hx. destruct (IH _ Hq Hx); set_solver.
Qed.

(** ** Case *)

Lemma lower_idemp c : lower (lower c) = lower c.
Proof.
  unfold lower, is_upper. destruct (N.leb_spec 65 c), (N.leb_spec c 90); simpl;
    destruct (N.leb_spec 65 (c + 32)), (N.leb_spec (c + 32) 90), (N.leb_spec 65 c), (N.leb_spec c 90); simpl; lia.
Qed.

Lemma to_ascii_lowercase_idemp s : to_ascii_lowercase (to_ascii_lowercase s) = to_ascii_lowercase s.
Proof. unfold to_ascii_lowercase. rewrite map_map. apply map_ext. intros. apply lower_idemp. Qed.

Lemma as_bytes_ascii s : Forall (fun c => c < 0x80) s -> as_bytes s = s.
Proof.
  induction 1 as [|c s Hc _ IH]; [done|]. unfold as_bytes in *. simpl. rewrite IH.
  unfold encode_char. by destruct (N.ltb_spec c 0x80); [|lia].
Qed.

Lemma as_bytes_app a b : as_bytes (a ++ b) = as_bytes a ++ as_bytes b.
Proof. apply flat_map_app. Qed.

(** ** Decimal round trip *)

Lemma dec_digits_app w p q acc :
  dec_digits w (p ++ q) acc = match dec_digits w p acc with Some a => dec_digits w q a | None => None end.
Proof.
  revert acc. induction p as [|c p IH]; intros acc; [done|]. cbn [app dec_digits].
  destruct (is_digit c); [|done]. destruct (_ <? _); [|done]. apply IH.
Qed.

Lemma is_digit_of d : d < 10 -> is_digit (48 + d) = true.
Proof. intros H. unfold is_digit. rewrite andb_true_iff, !N.leb_le. lia. Qed.

Lemma digit_not_space c : is_digit c = true -> is_space c = false /\ c <> 10 /\ c <> 13.
Proof.
  unfold is_digit, is_space. rewrite andb_true_iff, !N.leb_le. intros H.
  repeat match goal with
    | |- context [?a <=? ?b] => destruct (N.leb_spec a b); try lia
    | |- context [?a =? ?b] => destruct (N.eqb_spec a b); try lia
    end; by split.
Qed.


Lemma dec_fuel_digits fuel w n :
  n < 2 ^ w -> n < 10 ^ N.of_nat fuel -> dec_digits w (dec_fuel fuel n) 0 = Some n /\
  Forall (fun c => is_digit c = true) (dec_fuel fuel n) /\ (0 < fuel -> dec_fuel fuel n <> [])%nat.
Proof.
  revert n. induction fuel as [|fuel IH]; intros n Hw Hf; [simpl in Hf; assert (n = 0) as -> by lia; by repeat split; try lia|].
  cbn [dec_fuel]. destruct (N.ltb_spec n 10) as [Hn|Hn].
  - split_and!; [|by repeat constructor; apply is_digit_of|done]. cbn [dec_digits]. rewrite is_digit_of by done.
    replace (0 * 10 + (48 + n - 48)) with n by lia. by destruct (N.ltb_spec n (2 ^ w)); [|lia].
  - rewrite Nat2N.inj_succ, N.pow_succ_r' in Hf.
    destruct (IH (n / 10)) as (H1 & H2 & _); [dlia..|]. split_and!.
    + rewrite dec_digits_app, H1. cbn [dec_digits]. rewrite is_digit_of by dlia.
      replace (n / 10 * 10 + (48 + n mod 10 - 48)) with n by dlia. by destruct (N.ltb_spec n (2 ^ w)); [|lia].
    + apply Forall_app; split; [done|]. repeat constructor. apply is_digit_of. dlia.
    + intros _ Hnil. by apply app_nil in Hnil as [_ ?].
Qed.

Lemma to_decimal_fuel n : n < 10 ^ N.of_nat (S (N.to_nat (N.size n))).
Proof.
  rewrite Nat2N.inj_succ, N2Nat.id. pose proof (N.size_gt n) as H.
  eapply N.lt_le_trans; [exact H|]. transitivity (10 ^ N.size n); [apply N.pow_le_mono_l; lia|].
  apply N.pow_le_mono_r; lia.
Qed.

Lemma to_decimal_digits n : Forall (fun c => is_digit c = true) (to_decimal n) /\ to_decimal n <> [].
Proof.
  destruct (dec_fuel_digits (S (N.to_nat (N.size n))) (N.size n) n (N.size_gt n) (to_decimal_fuel n)) as (_ & H1 & H2).
  split; [done|]. apply H2. lia.
Qed.

Lemma parse_to_decimal w n : n < 2 ^ w -> parse_dec w (to_decimal n) = Some n.
Proof.
  intros Hw. destruct (to_decimal_digits n) as [Hd Hne].
  destruct (dec_fuel_digits (S (N.to_nat (N.size n))) w n Hw (to_decimal_fuel n)) as (H & _).
  unfold parse_dec. fold (to_decimal n) in H. destruct (to_decimal n) as [|c [|d p]]; [done|done|].
  destruct (N.eqb_spec c 43) as [-> |]; [|done]. by apply Forall_cons in Hd as [? _].
Qed.

(** ** Hexadecimal *)

Lemma hex_lower_inj a b : a < 16 -> b < 16 -> hex_lower a = hex_lower b -> a = b.
Proof. unfold hex_lower. intros. destruct (N.ltb_spec a 10), (N.ltb_spec b 10); lia. Qed.

Lemma hex_digit_lower d : d < 16 -> hex_digit (hex_lower d) = Some d.
Proof. intros H. destruct d as [|p]; [done|]. do 5 (destruct p as [p|p|]; try done; try lia). Qed.

Lemma hex_lower_alnum d : d < 16 -> 48 <= hex_lower d < 103 /\ hex_lower d <> 58.
Proof. unfold hex_lower. intros H. destruct (N.ltb_spec d 10); lia. Qed.

(** [u8::from_str_radix] reads back what [{:02x}] printed. *)
Lemma u8_from_hex_byte b : b < 256 -> u8_from_hex [hex_lower (b / 16); hex_lower (b mod 16)] = Some b.
Proof.
  intros H. assert (b / 16 < 16 /\ b mod 16 < 16 /\ b / 16 * 16 + b mod 16 = b) as (H1 & H2 & E) by (split_and!; dlia).
  revert H1 H2 E. generalize (b / 16) (b mod 16). intros x y Hx Hy E.
  pose proof (hex_lower_alnum x Hx). unfold u8_from_hex. destruct (N.eqb_spec (hex_lower x) 43); [lia|].
  unfold hex_digits. rewrite !hex_digit_lower by done.
  destruct (N.ltb_spec (0 * 16 + x) 256); [|lia]. replace ((0 * 16 + x) * 16 + y) with b by lia.
  by destruct (N.ltb_spec b 256); [|lia].
Qed.

Lemma hex_pair a b : a < 256 -> b < 256 -> hex_lower (a / 16) = hex_lower (b / 16) ->
  hex_lower (a mod 16) = hex_lower (b mod 16) -> a = b.
Proof.
  intros Ha Hb. unfold hex_lower.
  destruct (N.ltb_spec (a / 16) 10), (N.ltb_spec (b / 16) 10), (N.ltb_spec (a mod 16) 10), (N.ltb_spec (b mod 16) 10); dlia.
Qed.

Lemma hex_inj a b : is_bytes a -> is_bytes b -> hex a = hex b -> a = b.
Proof.
  intros Ha. revert b. induction Ha as [|x a Hx Ha IH]; intros [|y b] Hb H; try done.
  apply Forall_cons in Hb as [Hy Hb]. unfold hex in H. cbn [flat_map app] in H. injection H as H1 H2 H.
  unfold in_u in *. change (2 ^ 8) with 256 in *. f_equal; [by apply hex_pair|by apply IH].
Qed.

Lemma length_hex bs : length (hex bs) = (2 * length bs)%nat.
Proof. unfold hex. induction bs as [|b bs IH]; simpl; [done|]. rewrite IH. lia. Qed.
