(* ===== verification/GuestMemory.v ===== *)
(** * Guest RAM

    [crates/fluxvm-hypervisor/src/memory.rs]: the VM's RAM as the device
    handlers see it.  The mapping is a list of bytes whose length is the size of
    the mapping; [read_at] and [write_at] are the only way the handlers touch it.
    A handler runs under the queue-service lock; what a vCPU writes between two
    accesses is not modelled. *)

From stdpp Require Import prelude list.
From Stdlib Require Import NArith Lia.
From S2P Require Import Prelude.

Record GuestMemory := { ram : bytes }.

Definition mem_len (m : GuestMemory) : usize := lenN (ram m).

(** [GuestMemory::allocate]; [mapped] is whether [mmap] succeeded. *)
Definition allocate (mapped : bool) (len : usize) : outcome GuestMemory :=
  if (len =? 0) || negb (len mod 4096 =? 0) then Err Memory
  else if negb mapped then Err Memory
  else Ok {| ram := repeat 0 (N.to_nat len) |}.

Definition write_at (gpa : u64) (data : bytes) : M GuestMemory unit :=
  let start := gpa in
  let! m := get in
  let! fin := ok_or (U.checked_add 64 start (lenN data)) Memory in
  if mem_len m <? fin then throw Memory
  else modify (fun m => {| ram := splice (N.to_nat start) data (ram m) |}).

(** [read_at(gpa, &mut buf)] with [n = buf.len()] returns the bytes read. *)
Definition read_at (gpa : u64) (n : usize) : M GuestMemory bytes :=
  let start := gpa in
  let! m := get in
  let! fin := ok_or (U.checked_add 64 start n) Memory in
  if mem_len m <? fin then throw Memory
  else gets (fun m => slice (N.to_nat start) (N.to_nat n) (ram m)).

Definition read_u16 (gpa : u64) : M GuestMemory u16 :=
  let! b := read_at gpa 2 in ret (from_le b).

Definition write_u16 (gpa : u64) (v : u16) : M GuestMemory unit :=
  write_at gpa (le_bytes 2 v).

(** [advise_dontneed]: [dontneed start len] is what the host's [madvise] does to
    the contents of the mapping, a parameter of the model. *)
Definition advise_dontneed (dontneed : usize -> usize -> bytes -> bytes)
    (gpa : u64) (len : usize) : M GuestMemory unit :=
  let start := gpa in
  let! m := get in
  if mem_len m <? U.saturating_add 64 start len then ret tt
  else modify (fun m => {| ram := dontneed start len (ram m) |}).

(** [touch_page]: the volatile read is out of bounds (undefined, shown as
    [Panic]) when the wrapping [start + 1] passes the test for an address that
    is not in the mapping. *)
Definition touch_page (gpa : u64) : M GuestMemory unit :=
  let start := gpa in
  let! m := get in
  if mem_len m <? U.add 64 start 1 then ret tt
  else if start <? mem_len m then ret tt else panic.

#[global] Arguments write_at : simpl never.
#[global] Arguments read_at : simpl never.
#[global] Arguments read_u16 : simpl never.
#[global] Arguments write_u16 : simpl never.

(** ** What the accessors promise *)

(** Addresses of a range. *)
Definition in_range (gpa len a : N) : Prop := gpa <= a < gpa + len.

(** The RAM keeps its size, and only bytes in [F] may differ. *)
Definition mem_frame (F : N -> Prop) (m m' : GuestMemory) : Prop :=
  length (ram m') = length (ram m) /\
  forall a, ~ F (N.of_nat a) -> ram m' !! a = ram m !! a.

#[global] Instance mem_frame_preorder F : PreOrder (mem_frame F).
Proof.
  split.
  - by intros m; split.
  - intros m1 m2 m3 [Hl1 H1] [Hl2 H2]. split; [congruence|].
    intros a Ha. rewrite H2, H1; done.
Qed.

Lemma mem_frame_mono F G m m' :
  (forall a, F a -> G a) -> mem_frame F m m' -> mem_frame G m m'.
Proof. intros HFG [Hl H]. split; [done|]. intros a Ha. apply H. auto. Qed.

Lemma mem_frame_len F m m' : mem_frame F m m' -> mem_len m' = mem_len m.
Proof. intros [Hl _]. unfold mem_len, lenN. by rewrite Hl. Qed.

(** The range [gpa, gpa+n) lies in RAM and its end is a [u64]. *)
Definition in_ram (m : GuestMemory) (gpa n : N) : bool :=
  (gpa + n <? 2 ^ 64) && (gpa + n <=? mem_len m).

Lemma in_ram_spec m gpa n :
  in_ram m gpa n = true <-> gpa + n < 2 ^ 64 /\ gpa + n <= mem_len m.
Proof. unfold in_ram. rewrite andb_true_iff, N.ltb_lt, N.leb_le. done. Qed.

Lemma in_ram_nat m gpa n :
  in_ram m gpa n = true -> (N.to_nat gpa + N.to_nat n <= length (ram m))%nat.
Proof. rewrite in_ram_spec. unfold mem_len, lenN. lia. Qed.

Lemma in_ram_frame F m m' gpa n : mem_frame F m m' -> in_ram m' gpa n = in_ram m gpa n.
Proof. intros H. unfold in_ram. by rewrite (mem_frame_len _ _ _ H). Qed.

Lemma write_at_eq gpa d m :
  write_at gpa d m =
    if in_ram m gpa (lenN d)
    then (Ok tt, {| ram := splice (N.to_nat gpa) d (ram m) |}) else (Err Memory, m).
Proof.
  unfold write_at, bind, get, in_ram, U.checked_add.
  destruct (N.ltb_spec (gpa + lenN d) (2 ^ 64)); simpl; [|done].
  destruct (N.ltb_spec (mem_len m) (gpa + lenN d));
    destruct (N.leb_spec (gpa + lenN d) (mem_len m)); try lia; done.
Qed.

Lemma read_at_eq gpa n m :
  read_at gpa n m =
    if in_ram m gpa n
    then (Ok (slice (N.to_nat gpa) (N.to_nat n) (ram m)), m) else (Err Memory, m).
Proof.
  unfold read_at, bind, get, in_ram, U.checked_add.
  destruct (N.ltb_spec (gpa + n) (2 ^ 64)); simpl; [|done].
  destruct (N.ltb_spec (mem_len m) (gpa + n));
    destruct (N.leb_spec (gpa + n) (mem_len m)); try lia; done.
Qed.

Lemma read_u16_eq gpa m :
  read_u16 gpa m =
    if in_ram m gpa 2
    then (Ok (from_le (slice (N.to_nat gpa) 2 (ram m))), m) else (Err Memory, m).
Proof. unfold read_u16, bind. rewrite read_at_eq. by destruct (in_ram m gpa 2). Qed.

Lemma write_at_frame (F : N -> Prop) gpa d :
  (forall a, in_range gpa (lenN d) a -> F a) -> mrel (mem_frame F) (write_at gpa d).
Proof.
  intros HF m. rewrite write_at_eq. destruct (in_ram _ _ _) eqn:E; simpl; [|reflexivity].
  pose proof (in_ram_nat _ _ _ E) as Hn. unfold lenN in Hn. rewrite Nat2N.id in Hn.
  split; simpl.
  - by apply length_splice.
  - intros a Ha. rewrite lookup_splice by done. case_decide as Hd; [|done].
    exfalso. apply Ha, HF. unfold in_range, lenN. lia.
Qed.

Lemma read_at_mrel (R : GuestMemory -> GuestMemory -> Prop) `{!PreOrder R} gpa n :
  mrel R (read_at gpa n).
Proof. intros m. rewrite read_at_eq. destruct (in_ram _ _ _); simpl; reflexivity. Qed.

Lemma read_u16_mrel (R : GuestMemory -> GuestMemory -> Prop) `{!PreOrder R} gpa :
  mrel R (read_u16 gpa).
Proof. unfold read_u16. apply mrel_bind; [done|by apply read_at_mrel|]. mrel_tac. Qed.

#[export] Hint Resolve read_at_mrel read_u16_mrel : mrel.

Lemma read_at_frame F gpa n m m' :
  mem_frame F m m' -> (forall a, in_range gpa n a -> ~ F a) ->
  (read_at gpa n m').1 = (read_at gpa n m).1.
Proof.
  intros Hf HF. rewrite !read_at_eq, (in_ram_frame _ _ _ _ _ Hf).
  destruct (in_ram m gpa n) eqn:E; [|done]. simpl. f_equal.
  apply list_eq. intros j. rewrite !lookup_slice. case_decide; [|done].
  apply Hf, HF. unfold in_range. lia.
Qed.

Lemma read_at_state gpa n m : read_at gpa n m = ((read_at gpa n m).1, m).
Proof. rewrite read_at_eq. by destruct (in_ram m gpa n). Qed.

Lemma read_at_keep F gpa n m m' b :
  mem_frame F m m' -> (forall a, in_range gpa n a -> ~ F a) ->
  read_at gpa n m = (Ok b, m) -> read_at gpa n m' = (Ok b, m').
Proof.
  intros Hf HF Hb. rewrite read_at_state, (read_at_frame F gpa n m m') by done.
  by rewrite Hb.
Qed.

Lemma read_u16_frame F gpa m m' :
  mem_frame F m m' -> (forall a, in_range gpa 2 a -> ~ F a) ->
  (read_u16 gpa m').1 = (read_u16 gpa m).1.
Proof.
  intros Hf HF. pose proof (read_at_frame F gpa 2 m m' Hf HF) as H. revert H.
  unfold read_u16, bind. rewrite !read_at_eq.
  destruct (in_ram m' gpa 2), (in_ram m gpa 2); simpl; intros [=]; try done.
  by f_equal; f_equal.
Qed.

(** A write followed by a read of the same range. *)
Lemma read_write_same gpa d m m' :
  write_at gpa d m = (Ok tt, m') -> read_at gpa (lenN d) m' = (Ok d, m').
Proof.
  rewrite write_at_eq. destruct (in_ram _ _ _) eqn:E; [|done]. intros [= <-].
  rewrite read_at_eq.
  pose proof (in_ram_nat _ _ _ E) as Hn. unfold lenN in Hn. rewrite Nat2N.id in Hn.
  assert (in_ram {| ram := splice (N.to_nat gpa) d (ram m) |} gpa (lenN d) = true) as ->.
  { rewrite <- E. unfold in_ram, mem_len, lenN. simpl. by rewrite length_splice. }
  simpl. do 2 f_equal. unfold lenN. rewrite Nat2N.id. by apply slice_splice_same.
Qed.
