(* ===== verification/Virtqueue.v ===== *)
(** * Split virtqueues

    What every virtio handler of [crates/fluxvm-hypervisor/src/devices] does
    with a queue: the queue registers ([QueueState] of [virtio_mmio.rs]), the
    16-byte descriptor, the avail ring and [used_push], the routine that
    publishes a completed buffer.  The source repeats [used_push] in each device
    file; the files of this library that model those devices name this one. *)

From stdpp Require Import prelude list.
From Stdlib Require Import NArith Lia.
From S2P Require Import Prelude GuestMemory.

Definition VRING_DESC_F_NEXT : u16 := 1.
Definition VRING_DESC_F_WRITE : u16 := 2.
Definition VRING_DESC_F_INDIRECT : u16 := 4.
Definition VRING_AVAIL_F_NO_INTERRUPT : u16 := 1.

Record QueueState := {
  q_num : u32;
  q_ready : u32;
  q_desc : u64;
  q_avail : u64;
  q_used : u64;
  q_last_avail : u16;
}.

Definition QueueState_default : QueueState :=
  {| q_num := 0; q_ready := 0; q_desc := 0; q_avail := 0; q_used := 0; q_last_avail := 0 |}.

Definition with_last_avail (v : u16) (q : QueueState) : QueueState :=
  {| q_num := q_num q; q_ready := q_ready q; q_desc := q_desc q; q_avail := q_avail q;
     q_used := q_used q; q_last_avail := v |}.

(** [q.last_avail = q.last_avail.wrapping_add(1)] *)
Definition bump_last_avail (q : QueueState) : QueueState :=
  with_last_avail (U.add 16 (q_last_avail q) 1) q.

(** A descriptor table entry. *)
Record Desc := { d_addr : u64; d_len : u32; d_flags : u16; d_next : u16 }.

Definition parse_desc (raw : bytes) : Desc :=
  {| d_addr := from_le (slice 0 8 raw); d_len := from_le (slice 8 4 raw);
     d_flags := from_le (slice 12 2 raw); d_next := from_le (slice 14 2 raw) |}.

(** [mem.read_at(desc, &mut raw)?] and the four field reads that follow it. *)
Definition read_desc (gpa : u64) : M GuestMemory Desc :=
  let! raw := read_at gpa 16 in ret (parse_desc raw).

(** [mem.read_u16(q.avail + 2)] and [mem.read_u16(q.avail + 4 + slot * 2)]. *)
Definition read_avail_idx (avail : u64) : M GuestMemory u16 :=
  read_u16 (U.add 64 avail 2).

Definition read_avail_head (avail : u64) (last_avail : u16) (qnum : u32) : M GuestMemory u16 :=
  if qnum =? 0 then panic
  else
    let slot := last_avail mod qnum in
    read_u16 (U.add 64 (U.add 64 avail 4) (slot * 2)).

Definition used_elem_gpa (used_gpa : u64) (slot : u32) : u64 :=
  U.add 64 (U.add 64 used_gpa 4) (slot * 8).

Definition used_push (used_gpa : u64) (qnum : u32) (desc_id : u16) (written : u32)
    : M GuestMemory unit :=
  let! idx := read_u16 (U.add 64 used_gpa 2) in
  if qnum =? 0 then panic
  else
    let slot := idx mod qnum in
    let elem := used_elem_gpa used_gpa slot in
    do! write_at elem (le_bytes 4 desc_id) in
    do! write_at (U.add 64 elem 4) (le_bytes 4 written) in
    write_u16 (U.add 64 used_gpa 2) (U.add 16 idx 1).

(** ** The used ring's footprint and what [used_push] does to it *)

(** The addresses a [used_push] on this ring may write. *)
Definition used_footprint (used_gpa : u64) (qnum : u32) (a : N) : Prop :=
  in_range (U.add 64 used_gpa 2) 2 a \/
  exists slot, slot < qnum /\
    (in_range (used_elem_gpa used_gpa slot) 4 a \/
     in_range (U.add 64 (used_elem_gpa used_gpa slot) 4) 4 a).

Lemma used_push_frame (F : N -> Prop) used_gpa qnum id written :
  (forall a, used_footprint used_gpa qnum a -> F a) ->
  mrel (mem_frame F) (used_push used_gpa qnum id written).
Proof.
  intros HF. unfold used_push, write_u16. mrel_tac.
  - apply write_at_frame. intros b Hb. apply HF. right.
    apply N.eqb_neq in Heqb. exists (a mod qnum). split; [by apply N.mod_lt|by left].
  - apply write_at_frame. intros b Hb. apply HF. right.
    apply N.eqb_neq in Heqb. exists (a mod qnum). split; [by apply N.mod_lt|by right].
  - apply write_at_frame. intros b Hb. apply HF. by left.
Qed.

(** A used ring of [qnum] elements placed in RAM. *)
Definition used_ring_ok (m : GuestMemory) (used_gpa : u64) (qnum : u32) : bool :=
  (0 <? qnum) && (mem_len m <? 2 ^ 64) && (used_gpa + 4 + 8 * qnum <=? mem_len m).

Lemma used_ring_ok_spec m used_gpa qnum :
  used_ring_ok m used_gpa qnum = true <->
  0 < qnum /\ mem_len m < 2 ^ 64 /\ used_gpa + 4 + 8 * qnum <= mem_len m.
Proof. unfold used_ring_ok. rewrite !andb_true_iff, !N.ltb_lt, N.leb_le. tauto. Qed.

(** Ring addresses do not wrap when the ring lies in RAM. *)
Lemma add64_small x y : x + y < 2 ^ 64 -> U.add 64 x y = x + y.
Proof. intros. by apply wrap_small. Qed.

Lemma used_elem_gpa_small used_gpa slot :
  used_gpa + 4 + 8 * slot < 2 ^ 64 -> used_elem_gpa used_gpa slot = used_gpa + 4 + 8 * slot.
Proof.
  intros. unfold used_elem_gpa. rewrite !add64_small; rewrite ?add64_small; lia.
Qed.

Lemma used_footprint_bounds used_gpa qnum a :
  used_gpa + 4 + 8 * qnum < 2 ^ 64 -> used_footprint used_gpa qnum a ->
  in_range (used_gpa + 2) (2 + 8 * qnum) a.
Proof.
  unfold used_footprint, in_range. intros Hlt [Ha|(slot & Hs & Ha)].
  - rewrite add64_small in Ha by lia. lia.
  - rewrite used_elem_gpa_small, add64_small in Ha by lia. lia.
Qed.

Lemma write_at_ok gpa d m :
  in_ram m gpa (lenN d) = true ->
  exists m', write_at gpa d m = (Ok tt, m') /\
    mem_frame (in_range gpa (lenN d)) m m' /\ read_at gpa (lenN d) m' = (Ok d, m').
Proof.
  intros E. destruct (write_at gpa d m) as [o m'] eqn:W. exists m'.
  assert (o = Ok tt) as ->.
  { rewrite write_at_eq, E in W. by injection W. }
  split; [done|]. split; [|by eapply read_write_same].
  pose proof (write_at_frame (in_range gpa (lenN d)) gpa d ltac:(auto) m) as H.
  by rewrite W in H.
Qed.

Lemma read_at_app gpa n1 n2 m b1 b2 :
  gpa + n1 + n2 < 2 ^ 64 ->
  read_at gpa n1 m = (Ok b1, m) -> read_at (gpa + n1) n2 m = (Ok b2, m) ->
  read_at gpa (n1 + n2) m = (Ok (b1 ++ b2), m).
Proof.
  intros Hlt. rewrite !read_at_eq.
  destruct (in_ram m gpa n1) eqn:E1; [|done].
  destruct (in_ram m (gpa + n1) n2) eqn:E2; [|done].
  intros [= <-] [= <-]. apply in_ram_spec in E1, E2.
  assert (in_ram m gpa (n1 + n2) = true) as ->.
  { apply in_ram_spec. lia. }
  do 2 f_equal. rewrite N2Nat.inj_add, slice_app_split. do 2 f_equal. lia.
Qed.

(** The addresses that publishing one element at [slot] writes: the element and the
    index of the ring. *)
Definition used_slot (used_gpa : u64) (slot : N) (a : N) : Prop :=
  in_range (used_gpa + 2) 2 a \/ in_range (used_gpa + 4 + 8 * slot) 8 a.

Lemma used_push_exact m used_gpa qnum id written :
  used_ring_ok m used_gpa qnum = true ->
  exists idx m',
    read_u16 (used_gpa + 2) m = (Ok idx, m) /\
    used_push used_gpa qnum id written m = (Ok tt, m') /\
    mem_frame (used_footprint used_gpa qnum) m m' /\
    read_u16 (used_gpa + 2) m' = (Ok (U.add 16 idx 1), m') /\
    read_at (used_gpa + 4 + 8 * (idx mod qnum)) 8 m' =
      (Ok (le_bytes 4 id ++ le_bytes 4 written), m') /\
    mem_frame (used_slot used_gpa (idx mod qnum)) m m'.
Proof.
  rewrite used_ring_ok_spec. intros (Hq & Hlen & Hfit).
  assert (in_ram m (used_gpa + 2) 2 = true) as Hr by (apply in_ram_spec; lia).
  set (idx := from_le (slice (N.to_nat (used_gpa + 2)) 2 (ram m))).
  assert (read_u16 (used_gpa + 2) m = (Ok idx, m)) as Hidx by (by rewrite read_u16_eq, Hr).
  pose proof (N.mod_lt idx qnum ltac:(lia)) as Hslot. set (slot := idx mod qnum) in *.
  pose proof (used_push_frame (used_footprint used_gpa qnum) used_gpa qnum id written
    ltac:(auto) m) as Hframe.
  set (elem := used_gpa + 4 + 8 * slot).
  (* first word of the element *)
  destruct (write_at_ok elem (le_bytes 4 id) m) as (m1 & W1 & F1 & R1).
  { apply in_ram_spec. unfold lenN, elem. rewrite length_le_bytes. lia. }
  destruct (write_at_ok (elem + 4) (le_bytes 4 written) m1) as (m2 & W2 & F2 & R2).
  { apply in_ram_spec. rewrite (mem_frame_len _ _ _ F1). unfold lenN, elem.
    rewrite length_le_bytes. lia. }
  destruct (write_at_ok (used_gpa + 2) (le_bytes 2 (U.add 16 idx 1)) m2) as (m3 & W3 & F3 & R3).
  { apply in_ram_spec. rewrite (mem_frame_len _ _ _ F2), (mem_frame_len _ _ _ F1).
    unfold lenN. rewrite length_le_bytes. lia. }
  unfold lenN in *. rewrite !length_le_bytes in *.
  assert (used_push used_gpa qnum id written m = (Ok tt, m3)) as HP.
  { unfold used_push, bind. rewrite add64_small, Hidx by lia. cbn.
    rewrite (proj2 (N.eqb_neq qnum 0)) by lia. fold slot.
    rewrite used_elem_gpa_small by lia. fold elem. rewrite W1.
    rewrite add64_small by (unfold elem; lia). rewrite W2. unfold write_u16. apply W3. }
  exists idx, m3. rewrite HP in Hframe.
  split; [done|]. split; [done|]. split; [done|].
  change (N.of_nat 4) with 4 in *. change (N.of_nat 2) with 2 in *.
  split; [|split].
  - unfold read_u16, bind. rewrite R3. unfold ret. do 2 f_equal.
    apply from_le_bytes_small, wrap_range.
  - change 8 with (4 + 4) at 2. fold elem. apply read_at_app; [unfold elem; lia| |];
      (eapply read_at_keep; [exact F3 | unfold in_range, elem; lia |]); [|exact R2].
    eapply read_at_keep; [exact F2 | unfold in_range; lia | exact R1].
  - fold slot. etransitivity; [|etransitivity]; (eapply mem_frame_mono; [|done]); unfold used_slot, in_range, elem; lia.
Qed.

Lemma used_push_ok m used_gpa qnum id written :
  used_ring_ok m used_gpa qnum = true ->
  exists idx m',
    read_u16 (used_gpa + 2) m = (Ok idx, m) /\
    used_push used_gpa qnum id written m = (Ok tt, m') /\
    mem_frame (used_footprint used_gpa qnum) m m' /\
    read_u16 (used_gpa + 2) m' = (Ok (U.add 16 idx 1), m') /\
    read_at (used_gpa + 4 + 8 * (idx mod qnum)) 8 m' =
      (Ok (le_bytes 4 id ++ le_bytes 4 written), m').
Proof. intros H. destruct (used_push_exact m used_gpa qnum id written H) as (idx & m' & ? & ? & ? & ? & ? & _). by exists idx, m'. Qed.

(** ** Ring accesses return *)

Lemma read_at_returns gpa n m : returns (read_at gpa n m).1.
Proof. rewrite read_at_eq. by destruct (in_ram m gpa n). Qed.

Lemma read_u16_returns gpa m : returns (read_u16 gpa m).1.
Proof. rewrite read_u16_eq. by destruct (in_ram m gpa 2). Qed.

Lemma write_at_returns gpa d m : returns (write_at gpa d m).1.
Proof. rewrite write_at_eq. by destruct (in_ram m gpa (lenN d)). Qed.

Lemma bind_returns {S A B} (m : M S A) (f : A -> M S B) s :
  returns (m s).1 -> (forall a s', m s = (Ok a, s') -> returns (f a s').1) -> returns (bind m f s).1.
Proof.
  unfold bind. destruct (m s) as [[a|e| |] s'] eqn:E; simpl; try done. intros _ H. by apply H.
Qed.

Lemma read_avail_head_returns avail la qnum m : qnum <> 0 -> returns (read_avail_head avail la qnum m).1.
Proof.
  intros Hq. unfold read_avail_head. rewrite (proj2 (N.eqb_neq _ _) Hq). apply read_u16_returns.
Qed.

Lemma used_push_returns used_gpa qnum id w m : qnum <> 0 -> returns (used_push used_gpa qnum id w m).1.
Proof.
  intros Hq. unfold used_push. apply bind_returns; [apply read_u16_returns|]. intros idx m1 _.
  rewrite (proj2 (N.eqb_neq _ _) Hq).
  apply bind_returns; [apply write_at_returns|]. intros _ m2 _.
  apply bind_returns; [apply write_at_returns|]. intros _ m3 _. apply write_at_returns.
Qed.

(** The RAM's size never changes. *)
Definition same_size : GuestMemory -> GuestMemory -> Prop := mem_frame (fun _ => True).

#[global] Instance same_size_preorder : PreOrder same_size.
Proof. unfold same_size. apply _. Qed.

Lemma write_at_size gpa d : mrel same_size (write_at gpa d).
Proof. by apply write_at_frame. Qed.

Lemma used_push_size used_gpa qnum id w : mrel same_size (used_push used_gpa qnum id w).
Proof. by apply used_push_frame. Qed.

Lemma read_avail_idx_mrel (R : GuestMemory -> GuestMemory -> Prop) `{!PreOrder R} avail :
  mrel R (read_avail_idx avail).
Proof. unfold read_avail_idx. by apply read_u16_mrel. Qed.

Lemma read_avail_head_mrel (R : GuestMemory -> GuestMemory -> Prop) `{!PreOrder R} avail la qnum :
  mrel R (read_avail_head avail la qnum).
Proof. unfold read_avail_head. mrel_tac. Qed.

Lemma read_desc_mrel (R : GuestMemory -> GuestMemory -> Prop) `{!PreOrder R} a : mrel R (read_desc a).
Proof. unfold read_desc. mrel_tac. Qed.

#[export] Hint Resolve write_at_size used_push_size read_avail_idx_mrel read_avail_head_mrel
  read_desc_mrel : mrel.

Lemma read_desc_returns a m : returns (read_desc a m).1.
Proof. unfold read_desc. apply bind_returns; [apply read_at_returns|]. done. Qed.

(** ** Descriptor chains: the specification *)

(** Descriptor [idx] of the table at [base] in RAM [m]. *)
Definition desc_at (m : GuestMemory) (base : u64) (idx : u16) (d : Desc) : Prop :=
  exists a, U.checked_add 64 base (idx * 16) = Some a /\ read_desc a m = (Ok d, m).

(** A terminated chain of direct descriptors starting at an index. *)
Inductive chain_from (m : GuestMemory) (base : u64) (qnum : u32) : u16 -> list (u16 * Desc) -> Prop :=
| chain_last idx d :
    idx < qnum -> desc_at m base idx d -> bits (d_flags d) VRING_DESC_F_INDIRECT = false ->
    bits (d_flags d) VRING_DESC_F_NEXT = false -> chain_from m base qnum idx [(idx, d)]
| chain_more idx d l :
    idx < qnum -> desc_at m base idx d -> bits (d_flags d) VRING_DESC_F_INDIRECT = false ->
    bits (d_flags d) VRING_DESC_F_NEXT = true -> chain_from m base qnum (d_next d) l ->
    chain_from m base qnum idx ((idx, d) :: l).

Lemma existsb_eqb x l : existsb (N.eqb x) l = false <-> x ∉ l.
Proof.
  rewrite <- not_true_iff_false, existsb_exists. setoid_rewrite N.eqb_eq.
  setoid_rewrite <- list_elem_of_In. naive_solver.
Qed.

Lemma read_desc_state a m : read_desc a m = ((read_desc a m).1, m).
Proof. unfold read_desc, bind. rewrite read_at_state. by destruct (read_at a 16 m).1. Qed.

Lemma desc_at_fun m base idx d d' : desc_at m base idx d -> desc_at m base idx d' -> d = d'.
Proof. intros (a & Ha & Hr) (a' & Ha' & Hr'). congruence. Qed.

Lemma chain_from_inv m base qnum idx d l :
  desc_at m base idx d -> chain_from m base qnum idx l ->
  bits (d_flags d) VRING_DESC_F_INDIRECT = false /\
  if bits (d_flags d) VRING_DESC_F_NEXT
  then exists l', l = (idx, d) :: l' /\ chain_from m base qnum (d_next d) l'
  else l = [(idx, d)].
Proof.
  intros Hat Hl. destruct Hl as [? d' ? Hat' Hi Hn|? d' l' ? Hat' Hi Hn Hl'];
    rewrite (desc_at_fun _ _ _ _ _ Hat Hat'), Hn; eauto.
Qed.

(** ** The notify loop

    virtio-blk, virtio-rng and virtio-balloon drain a queue with the same loop:
    one iteration either leaves it ([None]) or completes a buffer ([Some tt]),
    and the loop stops after the 65th ([if n > 64 { break; }]). *)

Fixpoint notify_loop {S} (step : M S (option unit)) (fuel : nat) (n : u32) : M S u32 :=
  match fuel with
  | O => diverge
  | S fuel =>
      let! r := step in
      match r with
      | None => ret n
      | Some _ => let n := n + 1 in if 64 <? n then ret n else notify_loop step fuel n
      end
  end.

Section NotifyLoop.
Context {S : Type} (step : M S (option unit)) (qof : S -> QueueState).
Context (I : S -> Prop) (R : S -> S -> Prop) `{!PreOrder R}.

(** One iteration returns, keeps [I] and [R], and advances [last_avail] by one
    exactly when it completes a buffer. *)
Definition step_ok : Prop := forall s, I s ->
  exists o s', step s = (o, s') /\ returns o /\ R s s' /\ I s' /\
    qof s' = match o with Ok (Some _) => bump_last_avail (qof s) | _ => qof s end.

Lemma notify_loop_safe fuel n s : step_ok -> I s -> n + N.of_nat fuel = 65 -> (0 < fuel)%nat ->
  exists o s' k, notify_loop step fuel n s = (o, s') /\ returns o /\ R s s' /\ I s' /\
    n + k <= 65 /\ (forall r, o = Ok r -> r = n + k) /\
    qof s' = Nat.iter (N.to_nat k) bump_last_avail (qof s).
Proof.
  intros Hstep. revert n s. induction fuel as [|fuel IH]; intros n s HI Hf Hpos; [lia|].
  cbn [notify_loop]. destruct (Hstep s HI) as (o & s1 & Hs & Ho & HR & HI1 & Hq).
  unfold bind at 1. rewrite Hs. destruct o as [[[]|]|e| |]; try done.
  - destruct (N.ltb_spec 64 (n + 1)).
    + exists (Ok (n + 1)), s1, 1. repeat (split; [done||lia|]). split; [by intros ? [= <-]|done].
    + destruct (IH (n + 1) s1) as (o & s' & k & Hrun & Ho' & HR' & HI' & Hle & Hr & Hq');
        [done|lia|lia|].
      exists o, s', (k + 1). split; [done|]. split; [done|]. split; [by etransitivity|].
      split; [done|]. split; [lia|]. split; [intros r Hr'; rewrite (Hr r Hr'); lia|].
      rewrite Hq', Hq. replace (N.to_nat (k + 1)) with (Datatypes.S (N.to_nat k)) by lia.
      by rewrite Nat.iter_succ_r.
  - exists (Ok n), s1, 0. repeat (split; [done||lia|]). split; [intros ? [= <-]; lia|done].
  - exists (Err e), s1, 0. by repeat (split; [done||lia|]).
Qed.

End NotifyLoop.

Lemma iter_bump k q :
  Nat.iter k bump_last_avail q =
    with_last_avail (match k with O => q_last_avail q | S _ => U.wrap 16 (q_last_avail q + N.of_nat k) end) q.
Proof.
  induction k as [|k IH]; [by destruct q|]. rewrite Nat.iter_succ, IH.
  unfold bump_last_avail, with_last_avail. simpl. f_equal. unfold U.add, U.wrap.
  destruct k; [done|]. rewrite N.Div0.add_mod_idemp_l. f_equal. lia.
Qed.

Lemma iter_bump_mod k q : in_u 16 (q_last_avail q) ->
  Nat.iter (N.to_nat k) bump_last_avail q = with_last_avail ((q_last_avail q + k) mod 2 ^ 16) q.
Proof.
  intros Hq. rewrite iter_bump. destruct (N.to_nat k) as [|j] eqn:Ek.
  - replace k with 0 by lia. by rewrite N.add_0_r, N.mod_small.
  - unfold U.wrap. do 2 f_equal. lia.
Qed.

(** ** One iteration of the notify loop

    The part the devices share: read the avail index, leave when there is no
    new buffer, read the head, let the device serve its chain, publish it.  The
    device says [None] when the loop must stop before the chain. *)

Section NotifyOne.
Context {S : Type}.
Context (mem_of : S -> GuestMemory) (set_mem : GuestMemory -> S -> S).
Context (q_of : S -> QueueState) (set_q : QueueState -> S -> S).
Context (body : QueueState -> u16 -> M S (option u32)).

Definition on_guest {A} (m : M GuestMemory A) : M S A := zoom mem_of set_mem m.

Definition notify_one : M S (option unit) :=
  let! s := get in
  let q := q_of s in
  let! avail_idx := on_guest (read_avail_idx (q_avail q)) in
  if q_last_avail q =? avail_idx then ret None
  else
    let! head := on_guest (read_avail_head (q_avail q) (q_last_avail q) (q_num q)) in
    let! r := body q head in
    match r with
    | None => ret None
    | Some written =>
        do! on_guest (used_push (q_used q) (q_num q) head written) in
        do! modify (fun s => set_q (bump_last_avail (q_of s)) s) in
        ret (Some tt)
    end.

(** [J s0 s]: what the iteration keeps of [s0], the queue registers included. *)
Context (J R : S -> S -> Prop) (I : S -> Prop).
Hypothesis J_refl : forall s, I s -> J s s.
Hypothesis J_q : forall s0 s, J s0 s -> q_of s = q_of s0.
Hypothesis J_I : forall s0 s, I s0 -> J s0 s -> I s.
Hypothesis J_R : forall s0 s, J s0 s -> R s0 s.
Hypothesis J_bump : forall s0 s, I s0 -> J s0 s ->
  R s0 (set_q (bump_last_avail (q_of s)) s) /\ I (set_q (bump_last_avail (q_of s)) s) /\
  q_of (set_q (bump_last_avail (q_of s)) s) = bump_last_avail (q_of s).
Hypothesis I_num : forall s, I s -> q_num (q_of s) <> 0.
Hypothesis J_read : forall A (m : M GuestMemory A),
  (forall x, returns (m x).1 /\ (m x).2 = x) -> keeps J (on_guest m).
Hypothesis J_used : forall g qnum id w, qnum <> 0 -> keeps J (on_guest (used_push g qnum id w)).
Hypothesis J_body : forall q head, keeps J (body q head).

Lemma notify_one_ok : step_ok notify_one q_of I R.
Proof.
  intros s HI. pose proof (I_num s HI) as Hn. unfold notify_one, bind at 1, get at 1.
  set (post (o : outcome (option unit)) (s' : S) := returns o /\ R s s' /\ I s' /\
    q_of s' = match o with Ok (Some _) => bump_last_avail (q_of s) | _ => q_of s end).
  assert (forall {A} (m : M S A) (k : A -> M S (option unit)) s1,
    keeps J m -> J s s1 -> (forall a s2, J s s2 -> exists o s', k a s2 = (o, s') /\ post o s') ->
    exists o s', bind m k s1 = (o, s') /\ post o s') as Hseq.
  { intros A m k s1 Hm Hs1 Hk. destruct (Hm s s1 Hs1) as [Hr HJ]. unfold bind.
    destruct (m s1) as [[a|e| |] s2]; simpl in *; try done; [by apply Hk|].
    eexists _, _. split; [done|]. unfold post. rewrite (J_q _ _ HJ). repeat split; [by apply J_R|by eapply J_I]. }
  assert (forall s1, J s s1 -> exists o s', ret (@None unit) s1 = (o, s') /\ post o s') as Hnone.
  { intros s1 Hs1. eexists _, _. split; [done|]. unfold post. rewrite (J_q _ _ Hs1). simpl.
    repeat split; [by apply J_R|by eapply J_I]. }
  assert (forall {A} (m : M GuestMemory A), (forall x, returns (m x).1) ->
    mrel eq m -> keeps J (on_guest m)) as Hread.
  { intros A m Hr Hm. apply J_read. intros x. split; [apply Hr|]. symmetry. apply Hm. }
  apply Hseq; [apply Hread; [intros; apply read_u16_returns|mrel_tac]|by apply J_refl|].
  intros avail_idx s1 Hs1. destruct (_ =? _); [by apply Hnone|].
  apply Hseq; [apply Hread; [intros; by apply read_avail_head_returns|mrel_tac]|done|].
  intros head s2 Hs2. apply Hseq; [apply J_body|done|].
  intros [written|] s3 Hs3; [|by apply Hnone].
  apply Hseq; [by apply J_used|done|]. intros _ s4 Hs4.
  unfold bind, modify, ret. eexists _, _. split; [reflexivity|].
  destruct (J_bump s s4 HI Hs4) as (HR & HI' & Hq).
  unfold post. simpl. rewrite Hq, (J_q _ _ Hs4). split; [done|]. rewrite (J_q _ _ Hs4) in HR, HI'. done.
Qed.

End NotifyOne.

(** RAM holds bytes, before and after a publication. *)
Definition mem_bytes (m : GuestMemory) : Prop := is_bytes (ram m).

Lemma write_at_bytes gpa d m : mem_bytes m -> is_bytes d -> mem_bytes (write_at gpa d m).2.
Proof.
  intros Hm Hd. rewrite write_at_eq. destruct (in_ram m gpa (lenN d)); simpl; [|done].
  by apply splice_is_bytes.
Qed.

(** RAM of the same size, still made of bytes. *)
Definition mem_kept (m0 m : GuestMemory) : Prop := same_size m0 m /\ (mem_bytes m0 -> mem_bytes m).

#[global] Instance mem_kept_preorder : PreOrder mem_kept.
Proof.
  split.
  - intros m. split; [reflexivity|done].
  - intros m1 m2 m3 [] []. split; [by etransitivity|auto].
Qed.

Lemma write_at_kept gpa d : is_bytes d -> mrel mem_kept (write_at gpa d).
Proof. intros Hd m. split; [apply write_at_size|]. intros Hm. by apply write_at_bytes. Qed.

Lemma used_push_kept g qnum id w : mrel mem_kept (used_push g qnum id w).
Proof.
  unfold used_push, write_u16. mrel_tac; apply write_at_kept; apply le_bytes_is_bytes.
Qed.

#[export] Hint Resolve used_push_kept : mrel.
