(* ===== verification/VirtioMmio.v ===== *)
(** * virtio-mmio transport

    [crates/fluxvm-hypervisor/src/devices/virtio_mmio.rs]: the register file of
    one virtio device, its constructors for each device kind, the guest's
    register reads and writes, and the two interrupt lines.  The mutex-protected
    [VirtioState] and the two feature selectors are one record; the interrupt
    eventfd is the counter the kernel keeps for it ([None] when creating it
    failed). *)

From stdpp Require Import prelude list.
From Stdlib Require Import NArith Lia.
From S2P Require Import Prelude GuestMemory Virtqueue.

Definition VIRTIO_MMIO_MAGIC : u32 := 0x74726976.
Definition VIRTIO_MMIO_VERSION : u32 := 2.
Definition VIRTIO_ID_NET : u32 := 1.
Definition VIRTIO_ID_BLOCK : u32 := 2.
Definition VIRTIO_ID_RNG : u32 := 4.
Definition VIRTIO_ID_BALLOON : u32 := 5.
Definition VIRTIO_ID_VSOCK : u32 := 19.
Definition VIRTIO_ID_FS : u32 := 26.
Definition VIRTIO_F_VERSION_1 : u64 := N.shiftl 1 32.
Definition VIRTIO_BLK_F_RO : u64 := N.shiftl 1 5.
Definition VIRTIO_NET_F_CTRL_VQ : u64 := N.shiftl 1 17.
Definition VIRTIO_NET_F_MQ : u64 := N.shiftl 1 22.
Definition NET_MAX_QUEUE_PAIRS : u16 := 4.
Definition MAX_QUEUES : nat := 9.
Definition VIRTIO_MMIO_INT_VRING : u32 := 1.
Definition VIRTIO_MMIO_INT_CONFIG : u32 := 2.
Definition MMIO_LEN : u64 := 0x200.

Record VirtioState := {
  device_id : u32;
  features : u64;
  driver_features : u64;
  status : u32;
  mac : bytes;
  capacity_sectors : u64;
  guest_cid : u32;
  balloon_num_pages : u32;
  balloon_actual : u32;
  fs_tag : bytes;
  queues : list QueueState;
  num_queues : u32;
  sel : u32;
  notify : option u32;
  interrupt_status : u32;
  irq : u32;
  net_max_pairs : u16;
  net_active_pairs : u16;
}.

Definition VirtioState_default : VirtioState := {|
  device_id := VIRTIO_ID_NET;
  features := N.lor (N.lor VIRTIO_F_VERSION_1 (N.shiftl 1 5)) (N.shiftl 1 16);
  driver_features := 0;
  status := 0;
  mac := [0x02; 0x00; 0x00; 0x00; 0x00; 0x02];
  capacity_sectors := 0;
  guest_cid := 3;
  balloon_num_pages := 0;
  balloon_actual := 0;
  fs_tag := repeat 0 36;
  queues := repeat QueueState_default MAX_QUEUES;
  num_queues := 2;
  sel := 0;
  notify := None;
  interrupt_status := 0;
  irq := 5;
  net_max_pairs := 1;
  net_active_pairs := 1;
|}.

Record VirtioMmio := {
  base : u64;
  size : u64;
  state : VirtioState;
  dev_feat_sel : u32;
  drv_feat_sel : u32;
  interrupt_evt : option N;
}.

(** Field updates of the guest-driven part of the state. *)
Definition st_driver (df st_status nap : N) (s : VirtioState) : VirtioState :=
  {| device_id := device_id s; features := features s; driver_features := df;
     status := st_status; mac := mac s; capacity_sectors := capacity_sectors s;
     guest_cid := guest_cid s; balloon_num_pages := balloon_num_pages s;
     balloon_actual := balloon_actual s; fs_tag := fs_tag s; queues := queues s;
     num_queues := num_queues s; sel := sel s; notify := notify s;
     interrupt_status := interrupt_status s; irq := irq s;
     net_max_pairs := net_max_pairs s; net_active_pairs := nap |}.

Definition st_queues (qs : list QueueState) (s : VirtioState) : VirtioState :=
  {| device_id := device_id s; features := features s; driver_features := driver_features s;
     status := status s; mac := mac s; capacity_sectors := capacity_sectors s;
     guest_cid := guest_cid s; balloon_num_pages := balloon_num_pages s;
     balloon_actual := balloon_actual s; fs_tag := fs_tag s; queues := qs;
     num_queues := num_queues s; sel := sel s; notify := notify s;
     interrupt_status := interrupt_status s; irq := irq s;
     net_max_pairs := net_max_pairs s; net_active_pairs := net_active_pairs s |}.

Definition st_lines (sl : u32) (nt : option u32) (ints : u32) (s : VirtioState) : VirtioState :=
  {| device_id := device_id s; features := features s; driver_features := driver_features s;
     status := status s; mac := mac s; capacity_sectors := capacity_sectors s;
     guest_cid := guest_cid s; balloon_num_pages := balloon_num_pages s;
     balloon_actual := balloon_actual s; fs_tag := fs_tag s; queues := queues s;
     num_queues := num_queues s; sel := sl; notify := nt;
     interrupt_status := ints; irq := irq s;
     net_max_pairs := net_max_pairs s; net_active_pairs := net_active_pairs s |}.

Definition st_balloon (target actual : u32) (s : VirtioState) : VirtioState :=
  {| device_id := device_id s; features := features s; driver_features := driver_features s;
     status := status s; mac := mac s; capacity_sectors := capacity_sectors s;
     guest_cid := guest_cid s; balloon_num_pages := target;
     balloon_actual := actual; fs_tag := fs_tag s; queues := queues s;
     num_queues := num_queues s; sel := sel s; notify := notify s;
     interrupt_status := interrupt_status s; irq := irq s;
     net_max_pairs := net_max_pairs s; net_active_pairs := net_active_pairs s |}.

(** The fields a constructor sets. *)
Definition st_config (id : u32) (feat : u64) (m : bytes) (cap : u64) (cid : u32)
    (tag : bytes) (nq q_irq : u32) (pairs : u16) : VirtioState :=
  let s := VirtioState_default in
  {| device_id := id; features := feat; driver_features := driver_features s;
     status := status s; mac := m; capacity_sectors := cap;
     guest_cid := cid; balloon_num_pages := balloon_num_pages s;
     balloon_actual := balloon_actual s; fs_tag := tag; queues := queues s;
     num_queues := nq; sel := sel s; notify := notify s;
     interrupt_status := interrupt_status s; irq := q_irq;
     net_max_pairs := pairs; net_active_pairs := net_active_pairs s |}.

(** ** Constructors *)

Definition new (bs : u64) (st : VirtioState) (evt : option N) : VirtioMmio :=
  {| base := bs; size := MMIO_LEN; state := st; dev_feat_sel := 0; drv_feat_sel := 0;
     interrupt_evt := evt |}.

Definition net (bs : u64) (m : bytes) (evt : option N) : VirtioMmio :=
  let d := VirtioState_default in
  new bs (st_config (device_id d) (features d) m (capacity_sectors d) (guest_cid d)
            (fs_tag d) 2 5 (net_max_pairs d)) evt.

Definition net_mq (bs : u64) (m : bytes) (pairs : u16) (evt : option N) : VirtioMmio :=
  let pairs := N.min pairs NET_MAX_QUEUE_PAIRS in
  if pairs <=? 1 then net bs m evt
  else
    let d := VirtioState_default in
    new bs (st_config (device_id d)
              (N.lor (features d) (N.lor VIRTIO_NET_F_CTRL_VQ VIRTIO_NET_F_MQ)) m
              (capacity_sectors d) (guest_cid d) (fs_tag d) (2 * pairs + 1) 5 pairs) evt.

Definition block (bs : u64) (cap : u64) (read_only : bool) (evt : option N) : VirtioMmio :=
  let d := VirtioState_default in
  let feat := if read_only then N.lor VIRTIO_F_VERSION_1 VIRTIO_BLK_F_RO
              else VIRTIO_F_VERSION_1 in
  new bs (st_config VIRTIO_ID_BLOCK feat (repeat 0 6) cap (guest_cid d) (fs_tag d) 1 6
            (net_max_pairs d)) evt.

Definition vsock (bs : u64) (cid q_irq : u32) (evt : option N) : VirtioMmio :=
  let d := VirtioState_default in
  new bs (st_config VIRTIO_ID_VSOCK VIRTIO_F_VERSION_1 (repeat 0 6) (capacity_sectors d)
            (N.max cid 3) (fs_tag d) 3 q_irq (net_max_pairs d)) evt.

Definition balloon (bs : u64) (q_irq : u32) (evt : option N) : VirtioMmio :=
  let d := VirtioState_default in
  new bs (st_config VIRTIO_ID_BALLOON VIRTIO_F_VERSION_1 (repeat 0 6) (capacity_sectors d)
            (guest_cid d) (fs_tag d) 2 q_irq (net_max_pairs d)) evt.

Definition rng (bs : u64) (q_irq : u32) (evt : option N) : VirtioMmio :=
  let d := VirtioState_default in
  new bs (st_config VIRTIO_ID_RNG VIRTIO_F_VERSION_1 (repeat 0 6) (capacity_sectors d)
            (guest_cid d) (fs_tag d) 1 q_irq (net_max_pairs d)) evt.

(** [virtio_fs::tag_config_bytes]; the tag is its UTF-8 bytes. *)
Definition FS_TAG_LEN : nat := 36.

Definition validate_tag (tag : bytes) : outcome unit :=
  if (lenN tag =? 0) || (N.of_nat FS_TAG_LEN <=? lenN tag) then Err Unsupported
  else if existsb (N.eqb 0) tag then Err Unsupported
  else Ok tt.

Definition tag_config_bytes (tag : bytes) : outcome bytes :=
  match validate_tag tag with
  | Ok _ => Ok (splice 0 tag (repeat 0 FS_TAG_LEN))
  | Err e => Err e
  | Panic => Panic
  | Loop => Loop
  end.

Definition fs (bs : u64) (q_irq : u32) (tag : bytes) (evt : option N) : outcome VirtioMmio :=
  let d := VirtioState_default in
  match tag_config_bytes tag with
  | Ok t =>
      Ok (new bs (st_config VIRTIO_ID_FS VIRTIO_F_VERSION_1 (repeat 0 6) (capacity_sectors d)
                    (guest_cid d) t 2 q_irq (net_max_pairs d)) evt)
  | Err e => Err e
  | Panic => Panic
  | Loop => Loop
  end.

(** ** Interrupts *)

Definition with_state (s : VirtioState) (d : VirtioMmio) : VirtioMmio :=
  {| base := base d; size := size d; state := s; dev_feat_sel := dev_feat_sel d;
     drv_feat_sel := drv_feat_sel d; interrupt_evt := interrupt_evt d |}.

Definition with_feat_sel (dev drv : u32) (d : VirtioMmio) : VirtioMmio :=
  {| base := base d; size := size d; state := state d; dev_feat_sel := dev;
     drv_feat_sel := drv; interrupt_evt := interrupt_evt d |}.

(** [trigger_eventfd]: adds one to the counter, unless it is full (the
    descriptor is non-blocking and the result of [write] is ignored). *)
Definition trigger_eventfd (e : option N) : option N :=
  match e with
  | None => None
  | Some c => if c + 1 <? U.max 64 then Some (c + 1) else Some c
  end.

Definition raise_interrupt (bit : u32) (d : VirtioMmio) : VirtioMmio :=
  let s := state d in
  {| base := base d; size := size d;
     state := st_lines (sel s) (notify s) (N.lor (interrupt_status s) bit) s;
     dev_feat_sel := dev_feat_sel d; drv_feat_sel := drv_feat_sel d;
     interrupt_evt := trigger_eventfd (interrupt_evt d) |}.

Definition raise_vring_interrupt : VirtioMmio -> VirtioMmio :=
  raise_interrupt VIRTIO_MMIO_INT_VRING.

Definition raise_config_interrupt : VirtioMmio -> VirtioMmio :=
  raise_interrupt VIRTIO_MMIO_INT_CONFIG.

(** ** Register access *)

Definition rel (d : VirtioMmio) (addr : u64) : u64 := addr - base d.

(** The index of the queue [VirtioMmio::q] selects. *)
Definition q_index (st : VirtioState) : nat :=
  let max := N.min (num_queues st - 1) (N.of_nat MAX_QUEUES - 1) in
  N.to_nat (N.min (sel st) max).

(** [f(Self::q(&mut st))] *)
Definition on_q (f : QueueState -> QueueState) : M VirtioMmio unit :=
  let! d := get in
  let st := state d in
  match queues st !! q_index st with
  | Some q => modify (with_state (st_queues (<[q_index st := f q]> (queues st)) st))
  | None => panic
  end.

(** The two halves of a 64-bit register. *)
Definition set_lo (old val : N) : N := N.lor (N.land old (U.not 64 0xffffffff)) val.
Definition set_hi (old val : N) : N := N.lor (N.land old 0xffffffff) (N.shiftl val 32).

Definition q_set_num (v : N) (q : QueueState) : QueueState :=
  {| q_num := v; q_ready := q_ready q; q_desc := q_desc q; q_avail := q_avail q;
     q_used := q_used q; q_last_avail := q_last_avail q |}.
Definition q_set_ready (v : N) (q : QueueState) : QueueState :=
  {| q_num := q_num q; q_ready := v; q_desc := q_desc q; q_avail := q_avail q;
     q_used := q_used q; q_last_avail := q_last_avail q |}.
Definition q_set_rings (d a u : N) (q : QueueState) : QueueState :=
  {| q_num := q_num q; q_ready := q_ready q; q_desc := d; q_avail := a;
     q_used := u; q_last_avail := q_last_avail q |}.

(** The value a guest store of 1, 2 or 4 bytes carries. *)
Definition mmio_value (data : bytes) : u32 :=
  match data with
  | [b] => b
  | [b0; b1] => from_le [b0; b1]
  | _ => from_le (splice 0 (take 4 data) (repeat 0 4))
  end.

(** Status register write: 0 resets the device. *)
Definition write_status (val : u32) : M VirtioMmio unit :=
  modify (fun d =>
    let st := state d in
    if val =? 0 then
      with_feat_sel 0 0
        (with_state
           (st_queues (map (fun _ => QueueState_default) (queues st))
              (st_lines 0 None 0 (st_driver 0 0 1 st))) d)
    else with_state (st_driver (driver_features st) val (net_active_pairs st) st) d).

Definition mmio_write (addr : u64) (data : bytes) : M VirtioMmio unit :=
  let val := mmio_value data in
  let! d := get in
  let off := rel d addr in
  let st := state d in
  if off =? 0x014 then modify (fun d => with_feat_sel val (drv_feat_sel d) d)
  else if off =? 0x024 then modify (fun d => with_feat_sel (dev_feat_sel d) val d)
  else if off =? 0x020 then let df := if drv_feat_sel d =? 0 then set_lo (driver_features st) val
                else set_hi (driver_features st) val in
      modify (with_state (st_driver df (status st) (net_active_pairs st) st))
  else if off =? 0x030 then modify (with_state (st_lines val (notify st) (interrupt_status st) st))
  else if off =? 0x038 then on_q (q_set_num val)
  else if off =? 0x044 then on_q (q_set_ready val)
  else if off =? 0x050 then modify (with_state (st_lines (sel st) (Some val) (interrupt_status st) st))
  else if off =? 0x064 then modify (with_state
        (st_lines (sel st) (notify st) (N.land (interrupt_status st) (U.not 32 val)) st))
  else if off =? 0x070 then write_status val
  else if off =? 0x080 then on_q (fun q => q_set_rings (set_lo (q_desc q) val) (q_avail q) (q_used q) q)
  else if off =? 0x084 then on_q (fun q => q_set_rings (set_hi (q_desc q) val) (q_avail q) (q_used q) q)
  else if off =? 0x090 then on_q (fun q => q_set_rings (q_desc q) (set_lo (q_avail q) val) (q_used q) q)
  else if off =? 0x094 then on_q (fun q => q_set_rings (q_desc q) (set_hi (q_avail q) val) (q_used q) q)
  else if off =? 0x0a0 then on_q (fun q => q_set_rings (q_desc q) (q_avail q) (set_lo (q_used q) val) q)
  else if off =? 0x0a4 then on_q (fun q => q_set_rings (q_desc q) (q_avail q) (set_hi (q_used q) val) q)
  else if off =? 0x100 then if device_id st =? VIRTIO_ID_BALLOON
      then modify (with_state (st_balloon val (balloon_actual st) st))
      else ret tt
  else ret tt.

(** [data[..n].copy_from_slice(&field[i..i + n])] with
    [i = off - lo], [n = data.len().min(field.len() - i)]. *)
Definition copy_field (lo off : N) (field data : bytes) : bytes :=
  let i := N.to_nat (off - lo) in
  let n := Nat.min (length data) (length field - i) in
  splice 0 (slice i n field) data.

Definition within (lo hi off : N) : bool := (lo <=? off) && (off <? hi).

Definition nonempty (data : bytes) : bool := negb (length data =? 0)%nat.

(** The device-specific configuration space: [Some buf] when the access is
    answered there. *)
Definition config_read (st : VirtioState) (off : u64) (data : bytes) : outcome (option bytes) :=
  if device_id st =? VIRTIO_ID_BLOCK then
    Ok (if within 0x100 0x108 off && nonempty data
        then Some (copy_field 0x100 off (le_bytes 8 (capacity_sectors st)) data) else None)
  else if device_id st =? VIRTIO_ID_VSOCK then
    Ok (if within 0x100 0x108 off && nonempty data
        then Some (copy_field 0x100 off (le_bytes 8 (guest_cid st)) data) else None)
  else if device_id st =? VIRTIO_ID_BALLOON then
    Ok (if within 0x100 0x104 off && nonempty data
        then Some (copy_field 0x100 off (le_bytes 4 (balloon_num_pages st)) data)
        else if within 0x104 0x108 off && nonempty data
        then Some (copy_field 0x104 off (le_bytes 4 (balloon_actual st)) data) else None)
  else if device_id st =? VIRTIO_ID_RNG then Ok None
  else if device_id st =? VIRTIO_ID_FS then
    Ok (if within 0x100 (0x100 + 36) off && nonempty data
        then Some (copy_field 0x100 off (fs_tag st) data) else None)
  else if within 0x108 0x10a off && bits (features st) VIRTIO_NET_F_MQ && nonempty data then
    Ok (Some (copy_field 0x108 off (le_bytes 2 (net_max_pairs st)) data))
  else if within 0x100 0x106 off then
    match mac st !! N.to_nat (off - 0x100) with
    | Some b => Ok (Some (if nonempty data then <[0%nat := b]> data else data))
    | None => if nonempty data then Panic else Ok (Some data)
    end
  else if (off =? 0x106) && (2 <=? length data)%nat then
    Ok (Some (<[1%nat := 0]> (<[0%nat := 1]> data)))
  else Ok None.

(** [mmio_read(addr, &mut data)] returns the buffer after the read. *)
Definition mmio_read (addr : u64) (data : bytes) : M VirtioMmio bytes :=
  let! d := get in
  let off := rel d addr in
  let st := state d in
  let! c := lift (config_read st off data) in
  match c with
  | Some buf => ret buf
  | None =>
      let! val :=
        if off =? 0x000 then ret VIRTIO_MMIO_MAGIC
  else if off =? 0x004 then ret VIRTIO_MMIO_VERSION
  else if off =? 0x008 then ret (device_id st)
  else if off =? 0x00c then ret 0x554d5846
  else if off =? 0x010 then ret (if dev_feat_sel d =? 0 then U.wrap 32 (features st)
                 else U.wrap 32 (N.shiftr (features st) 32))
  else if off =? 0x034 then ret 256
  else if off =? 0x044 then (match queues st !! q_index st with | Some q => ret (q_ready q) | None => panic end)
  else if off =? 0x060 then ret (interrupt_status st)
  else if off =? 0x070 then ret (status st)
  else ret 0 in
      let n := Nat.min (length data) 4 in
      ret (splice 0 (take n (le_bytes 4 val)) data)
  end.

(** [take_notify] *)
Definition take_notify (st : VirtioState) : option u32 * VirtioState :=
  (notify st, st_lines (sel st) None (interrupt_status st) st).

(** ** The register-file invariant *)

Definition queue_wf (q : QueueState) : Prop :=
  in_u 32 (q_num q) /\ in_u 32 (q_ready q) /\ in_u 64 (q_desc q) /\
  in_u 64 (q_avail q) /\ in_u 64 (q_used q) /\ in_u 16 (q_last_avail q).

(** Arrays have their declared length and integers their declared width. *)
Definition st_wf (s : VirtioState) : Prop :=
  length (queues s) = MAX_QUEUES /\ length (mac s) = 6%nat /\
  length (fs_tag s) = FS_TAG_LEN /\ Forall queue_wf (queues s) /\
  in_u 64 (driver_features s) /\ in_u 32 (status s) /\ in_u 32 (sel s) /\
  in_u 32 (interrupt_status s) /\ in_u 32 (balloon_num_pages s).

Definition dev_wf (d : VirtioMmio) : Prop :=
  st_wf (state d) /\ in_u 32 (dev_feat_sel d) /\ in_u 32 (drv_feat_sel d).

#[global] Instance queue_wf_dec q : Decision (queue_wf q).
Proof. unfold queue_wf. apply _. Defined.
#[global] Instance st_wf_dec s : Decision (st_wf s).
Proof. unfold st_wf. apply _. Defined.
#[global] Instance dev_wf_dec d : Decision (dev_wf d).
Proof. unfold dev_wf. apply _. Defined.

(** What the driver cannot change: everything the constructor set. *)
Definition same_config (s s' : VirtioState) : Prop :=
  device_id s' = device_id s /\ features s' = features s /\ mac s' = mac s /\
  capacity_sectors s' = capacity_sectors s /\ guest_cid s' = guest_cid s /\
  fs_tag s' = fs_tag s /\ num_queues s' = num_queues s /\ irq s' = irq s /\
  net_max_pairs s' = net_max_pairs s /\ balloon_actual s' = balloon_actual s /\
  length (queues s') = length (queues s).

Definition same_device (d d' : VirtioMmio) : Prop :=
  base d' = base d /\ size d' = size d /\ same_config (state d) (state d').

#[global] Instance same_device_preorder : PreOrder same_device.
Proof.
  unfold same_device, same_config. split.
  - intros d. repeat split; done.
  - intros d1 d2 d3 H1 H2. destruct_and!. repeat split; congruence.
Qed.

Lemma mmio_value_range data : is_bytes data -> in_u 32 (mmio_value data).
Proof.
  intros Hd. unfold mmio_value.
  destruct data as [|b0 [|b1 [|b2 t]]].
  - vm_compute. done.
  - inversion Hd; subst. by eapply in_u_mono; [|done].
  - eapply in_u_mono; [|by apply from_le_range]. vm_compute. done.
  - eapply in_u_mono; [|apply from_le_range, splice_is_bytes].
    + unfold lenN. rewrite length_splice; [vm_compute; done|].
      rewrite length_take, repeat_length. lia.
    + repeat constructor; vm_compute; done.
    + by apply Forall_take.
Qed.

Lemma set_lo_eq old v : in_u 64 old -> in_u 32 v -> set_lo old v = v + 2 ^ 32 * (old / 2 ^ 32).
Proof.
  intros Ho Hv. unfold set_lo. change 0xffffffff with (N.ones 32).
  rewrite land_not_ones by (done || lia).
  rewrite N.lor_comm, (N.mul_comm (2 ^ 32)), <- (N.shiftl_mul_pow2 (old / 2 ^ 32)).
  rewrite lor_shiftl_add by done. by rewrite N.shiftl_mul_pow2.
Qed.

Lemma set_hi_eq old v : set_hi old v = old mod 2 ^ 32 + v * 2 ^ 32.
Proof.
  unfold set_hi. change 0xffffffff with (N.ones 32).
  rewrite N.land_ones. apply lor_shiftl_add. apply (wrap_range 32).
Qed.

Lemma set_lo_range old v : in_u 64 old -> in_u 32 v -> in_u 64 (set_lo old v).
Proof.
  intros Ho Hv. rewrite set_lo_eq by done. unfold in_u in *.
  change (2 ^ 64) with (2 ^ 32 * 2 ^ 32) in *.
  pose proof (N.Div0.div_lt_upper_bound old (2 ^ 32) (2 ^ 32) Ho). nia.
Qed.

Lemma set_hi_range old v : in_u 32 v -> in_u 64 (set_hi old v).
Proof.
  intros Hv. rewrite set_hi_eq. unfold in_u in *.
  change (2 ^ 64) with (2 ^ 32 * 2 ^ 32).
  pose proof (N.mod_lt old (2 ^ 32) ltac:(lia)). nia.
Qed.

(** A driver writes a 64-bit address as two 32-bit halves, in either order. *)
Lemma set_lo_hi old v : in_u 64 old -> in_u 64 v ->
  set_hi (set_lo old (v mod 2 ^ 32)) (v / 2 ^ 32) = v /\
  set_lo (set_hi old (v / 2 ^ 32)) (v mod 2 ^ 32) = v.
Proof.
  intros Ho Hv.
  assert (in_u 32 (v mod 2 ^ 32)) as Hl by apply (wrap_range 32).
  assert (in_u 32 (v / 2 ^ 32)) as Hh by (unfold in_u in *; apply N.Div0.div_lt_upper_bound; done).
  rewrite set_hi_eq, set_lo_eq, set_lo_eq, set_hi_eq by (done || by apply set_hi_range).
  unfold in_u in *. split; dlia.
Qed.

Lemma q_index_lt st : length (queues st) = MAX_QUEUES ->
  exists q, queues st !! q_index st = Some q.
Proof.
  intros Hl. apply lookup_lt_is_Some. rewrite Hl. unfold q_index, MAX_QUEUES. lia.
Qed.

#[export] Hint Resolve mmio_value_range set_lo_range set_hi_range : rust.

(** A write through [on_q] changes the selected queue only. *)
Lemma on_q_spec f d :
  dev_wf d -> (forall q, queue_wf q -> queue_wf (f q)) ->
  exists q, queues (state d) !! q_index (state d) = Some q /\
    let d' := with_state (st_queues (<[q_index (state d) := f q]> (queues (state d))) (state d)) d in
    on_q f d = (Ok tt, d') /\ dev_wf d' /\ same_device d d'.
Proof.
  intros Hwf Hf. destruct Hwf as [Hst Hs]. pose proof Hst as Hst'.
  unfold st_wf in Hst. destruct_and! Hst.
  destruct (q_index_lt (state d)) as [q Hq]; [done|]. exists q. split; [done|].
  assert (queue_wf q) by (by eapply Forall_lookup_1). simpl. split; [|split].
  - unfold on_q, bind, get. by rewrite Hq.
  - split; [|done]. unfold st_wf. simpl. rewrite length_insert.
    repeat split; try done. apply Forall_insert; auto.
  - unfold same_device, same_config. simpl. rewrite length_insert. by repeat split.
Qed.

Lemma same_config_refl s : same_config s s.
Proof. unfold same_config. by repeat split. Qed.

Ltac wf_simple :=
  unfold dev_wf, st_wf, same_device, same_config in *; simpl in *; destruct_and?;
  repeat split; auto with rust; try done.

Lemma write_status_spec val d : in_u 32 val -> dev_wf d ->
  dev_wf (write_status val d).2 /\ same_device d (write_status val d).2.
Proof.
  intros Hv Hd. unfold write_status, modify. cbn [snd].
  destruct (val =? 0); [|wf_simple].
  unfold dev_wf, st_wf, same_device, same_config in *. simpl in *. destruct_and!.
  rewrite length_map. repeat split; try done.
  apply List.Forall_forall. intros q Hin. apply in_map_iff in Hin as (? & <- & _).
  repeat split; done.
Qed.

Lemma mmio_write_ok addr data d : is_bytes data -> dev_wf d ->
  exists d', mmio_write addr data d = (Ok tt, d') /\ dev_wf d' /\ same_device d d'.
Proof.
  intros Hdata Hd. pose proof (mmio_value_range data Hdata) as Hv.
  assert (forall f, (forall q, queue_wf q -> queue_wf (f q)) ->
    exists d', on_q f d = (Ok tt, d') /\ dev_wf d' /\ same_device d d') as Hq.
  { intros f Hf. destruct (on_q_spec f d Hd Hf) as (q & _ & ? & ? & ?). eauto. }
  assert (forall f : VirtioMmio -> VirtioMmio, dev_wf (f d) /\ same_device d (f d) ->
    exists d', modify f d = (Ok tt, d') /\ dev_wf d' /\ same_device d d') as Hm.
  { intros f []. unfold modify. eauto. }
  unfold mmio_write, bind, get.
  repeat match goal with |- context [if ?b then _ else _] => destruct b end;
    try (apply Hq; unfold queue_wf; simpl; intros; destruct_and?; repeat split;
         auto with rust; done);
    try (apply Hm; wf_simple; fail).
  - destruct (write_status_spec (mmio_value data) d Hv Hd) as [? ?].
    unfold write_status, modify in *. eauto.
  - exists d. split; [done|]. split; [done|reflexivity].
  - exists d. split; [done|]. split; [done|reflexivity].
Qed.

Lemma length_copy_field lo off field data :
  length (copy_field lo off field data) = length data.
Proof.
  unfold copy_field. apply length_splice. unfold slice.
  rewrite length_take, length_drop. lia.
Qed.

Lemma within_spec lo hi off : within lo hi off = true <-> lo <= off < hi.
Proof. unfold within. by rewrite andb_true_iff, N.leb_le, N.ltb_lt. Qed.

Lemma config_read_ok st off data : st_wf st ->
  exists c, config_read st off data = Ok c /\
    forall buf, c = Some buf -> length buf = length data.
Proof.
  intros Hst. unfold st_wf in Hst. destruct_and!. unfold config_read.
  repeat match goal with
  | |- context [match ?o with Some _ => _ | None => _ end] => destruct o eqn:?
  | |- context [if ?b then _ else _] => destruct b eqn:?
  end; try (eexists; split; [done|]; intros ? [= <-]; rewrite ?length_insert, ?length_copy_field; done);
  try (eexists; split; [done|]; done).
  exfalso. apply lookup_ge_None in Heqo. apply within_spec in Heqb5. lia.
Qed.

Lemma mmio_read_ok addr data d : dev_wf d ->
  exists buf, mmio_read addr data d = (Ok buf, d) /\ length buf = length data.
Proof.
  intros [Hst Hs]. destruct (config_read_ok (state d) (rel d addr) data Hst) as (c & Hc & Hl).
  unfold mmio_read, bind, get, lift. rewrite Hc.
  destruct c as [buf|]; [exists buf; split; [done|by apply Hl]|].
  destruct (q_index_lt (state d)) as [q Hq]; [apply Hst|]. rewrite Hq.
  repeat match goal with |- context [if ?b then _ else _] => destruct b end;
    (eexists; split; [reflexivity|]; apply length_splice;
     rewrite length_take, length_le_bytes; lia).
Qed.

(** ** Guest access sequences *)

(** What can happen to the register file: a guest store, a guest load into a
    buffer, an interrupt raised by a queue handler or by the control API. *)
Inductive access :=
| Store (addr : u64) (data : bytes)
| Load (addr : u64) (buf : bytes)
| RaiseVring
| RaiseConfig.

Definition access_wf (a : access) : Prop :=
  match a with Store _ data => is_bytes data | _ => True end.

#[global] Instance access_wf_dec a : Decision (access_wf a).
Proof. destruct a; simpl; unfold is_bytes; apply _. Defined.

Definition step_access (a : access) : M VirtioMmio unit :=
  match a with
  | Store addr data => mmio_write addr data
  | Load addr buf => do! mmio_read addr buf in ret tt
  | RaiseVring => modify raise_vring_interrupt
  | RaiseConfig => modify raise_config_interrupt
  end.

Fixpoint run_accesses (tr : list access) : M VirtioMmio unit :=
  match tr with
  | [] => ret tt
  | a :: tr => do! step_access a in run_accesses tr
  end.

Lemma raise_interrupt_ok bit d : in_u 32 bit -> dev_wf d ->
  dev_wf (raise_interrupt bit d) /\ same_device d (raise_interrupt bit d).
Proof. intros. wf_simple. Qed.

Lemma step_access_ok a d : access_wf a -> dev_wf d ->
  exists d', step_access a d = (Ok tt, d') /\ dev_wf d' /\ same_device d d'.
Proof.
  intros Ha Hd. destruct a as [addr data|addr buf| |]; simpl in *.
  - by apply mmio_write_ok.
  - destruct (mmio_read_ok addr buf d Hd) as (b & Hb & _). exists d.
    unfold bind. rewrite Hb. split; [done|]. split; [done|reflexivity].
  - eexists. split; [done|]. by apply raise_interrupt_ok.
  - eexists. split; [done|]. by apply raise_interrupt_ok.
Qed.

Lemma run_accesses_ok tr d : Forall access_wf tr -> dev_wf d ->
  exists d', run_accesses tr d = (Ok tt, d') /\ dev_wf d' /\ same_device d d'.
Proof.
  intros Htr. revert d. induction Htr as [|a tr Ha Htr IH]; intros d Hd; simpl.
  - exists d. split; [done|]. split; [done|reflexivity].
  - destruct (step_access_ok a d Ha Hd) as (d1 & H1 & Hw1 & Hs1).
    destruct (IH d1 Hw1) as (d2 & H2 & Hw2 & Hs2). exists d2.
    unfold bind. rewrite H1. split; [done|]. split; [done|by etransitivity].
Qed.

(** ** Devices as the VMM builds them *)

Inductive built : VirtioMmio -> Prop :=
| built_net bs m evt : length m = 6%nat -> built (net bs m evt)
| built_net_mq bs m pairs evt : length m = 6%nat -> built (net_mq bs m pairs evt)
| built_block bs cap ro evt : built (block bs cap ro evt)
| built_vsock bs cid i evt : built (vsock bs cid i evt)
| built_balloon bs i evt : built (balloon bs i evt)
| built_rng bs i evt : built (rng bs i evt)
| built_fs bs i tag evt d : fs bs i tag evt = Ok d -> built d.

(** The driver-visible registers hold their power-on values. *)
Definition pristine (d : VirtioMmio) : Prop :=
  let s := state d in
  driver_features s = 0 /\ status s = 0 /\ sel s = 0 /\ notify s = None /\
  interrupt_status s = 0 /\ net_active_pairs s = 1 /\
  queues s = repeat QueueState_default MAX_QUEUES /\
  dev_feat_sel d = 0 /\ drv_feat_sel d = 0.

Lemma st_config_ok id feat m cap cid tag nq i pairs bs evt :
  length m = 6%nat -> length tag = FS_TAG_LEN ->
  let d := new bs (st_config id feat m cap cid tag nq i pairs) evt in dev_wf d /\ pristine d.
Proof.
  intros. unfold d, dev_wf, st_wf, pristine, new, st_config. simpl.
  repeat split; try done. repeat constructor; vm_compute; done.
Qed.

Lemma built_ok d : built d -> dev_wf d /\ pristine d.
Proof.
  destruct 1 as [| bs m pairs evt Hm | | | | | bs i tag evt d Hd].
  - by apply st_config_ok.
  - unfold net_mq. destruct (_ <=? _); by apply st_config_ok.
  - by apply st_config_ok.
  - by apply st_config_ok.
  - by apply st_config_ok.
  - by apply st_config_ok.
  - unfold fs, tag_config_bytes, validate_tag in Hd.
    destruct (_ || _) eqn:E; [done|]. destruct (existsb _ _); [done|].
    injection Hd as <-. apply st_config_ok; [done|].
    apply orb_false_iff in E as [_ E]. apply N.leb_gt in E. unfold lenN in E.
    rewrite length_splice; [done|]. unfold FS_TAG_LEN in E. simpl. lia.
Qed.

(** A guest's reset request: a 32-bit store of 0 to the status register. *)
Definition reset_request (d : VirtioMmio) : access := Store (base d + 0x070) [0; 0; 0; 0].

Lemma reset_eq d :
  step_access (reset_request d) d =
    (Ok tt, with_feat_sel 0 0
       (with_state (st_queues (map (fun _ => QueueState_default) (queues (state d)))
          (st_lines 0 None 0 (st_driver 0 0 1 (state d)))) d)).
Proof.
  unfold reset_request, step_access, mmio_write, bind, get.
  replace (rel d (base d + 0x070)) with 0x070 by (unfold rel; lia). reflexivity.
Qed.

(** ** Driver-side queue set-up *)

(** 32-bit store [v] to register [off]. *)
Definition store32 (d : VirtioMmio) (off v : N) : access := Store (base d + off) (le_bytes 4 v).

(** What a virtio driver writes to set up queue [i]. *)
Definition program_queue (d : VirtioMmio) (i num desc avail used : N) : list access :=
  [ store32 d 0x030 i; store32 d 0x038 num;
    store32 d 0x080 (desc mod 2 ^ 32); store32 d 0x084 (desc / 2 ^ 32);
    store32 d 0x090 (avail mod 2 ^ 32); store32 d 0x094 (avail / 2 ^ 32);
    store32 d 0x0a0 (used mod 2 ^ 32); store32 d 0x0a4 (used / 2 ^ 32);
    store32 d 0x044 1 ].

Lemma mmio_value_le v : in_u 32 v -> mmio_value (le_bytes 4 v) = v.
Proof.
  intros. assert (mmio_value (le_bytes 4 v) = from_le (le_bytes 4 v)) as -> by done.
  by apply from_le_bytes_small.
Qed.

Lemma store32_rel d d0 off : base d = base d0 -> rel d (base d0 + off) = off.
Proof. unfold rel. intros ->. lia. Qed.

Lemma on_q_run f d i q :
  q_index (state d) = i -> queues (state d) !! i = Some q ->
  on_q f d = (Ok tt, with_state (st_queues (<[i := f q]> (queues (state d))) (state d)) d).
Proof. intros Hi Hq. unfold on_q, bind, get. by rewrite Hi, Hq. Qed.

(** The device after [k] writes through the selected queue [i]. *)
Definition with_q (d : VirtioMmio) (i : nat) (q : QueueState) : VirtioMmio :=
  with_state (st_queues (<[i := q]> (queues (state d))) (state d)) d.

Lemma with_q_on_q f d i q :
  q_index (state d) = i -> (i < length (queues (state d)))%nat ->
  on_q f (with_q d i q) = (Ok tt, with_q d i (f q)).
Proof.
  intros Hi Hl. erewrite (on_q_run f (with_q d i q) i q).
  - unfold with_q, with_state, st_queues. simpl. by rewrite list_insert_insert_eq.
  - done.
  - simpl. by apply list_lookup_insert_eq.
Qed.

Ltac q_store :=
  cbn [run_accesses]; unfold bind at 1; unfold store32 at 1; cbn [step_access];
  unfold mmio_write at 1, bind at 1, get at 1;
  rewrite store32_rel by done; cbn [N.eqb Pos.eqb].

(** * Properties *)

(** whatever a guest does to the registers of a device the VMM built (any
    sequence of loads and stores at any address and of any width, interleaved
    with interrupts raised by the device), no access panics, every register
    keeps its declared width, every array its declared length, and nothing the
    constructor configured (identity, features, capacity, MAC, CID, queue
    count) changes. *)
Theorem mmio_accesses_safe d tr :
  built d -> Forall access_wf tr ->
  exists d', run_accesses tr d = (Ok tt, d') /\ dev_wf d' /\ same_device d d'.
Proof. intros Hd Htr. apply run_accesses_ok; [done|]. by apply built_ok. Qed.

(** a driver's reset (status := 0) returns the device to the state the VMM
    built it in, whatever happened before; only the balloon target and the
    interrupt eventfd's counter keep their values. *)
Theorem mmio_reset_restores d tr d1 :
  built d -> Forall access_wf tr -> run_accesses tr d = (Ok tt, d1) ->
  exists target evt,
    step_access (reset_request d1) d1 =
      (Ok tt, {| base := base d; size := size d;
                 state := st_balloon target (balloon_actual (state d)) (state d);
                 dev_feat_sel := dev_feat_sel d; drv_feat_sel := drv_feat_sel d;
                 interrupt_evt := evt |}).
Proof.
  intros Hb Htr Hrun. destruct (built_ok d Hb) as [Hwf Hp].
  destruct (run_accesses_ok tr d Htr Hwf) as (d1' & Hrun' & Hwf1 & Hbase & Hsize & Hcfg).
  rewrite Hrun in Hrun'. injection Hrun' as <-.
  exists (balloon_num_pages (state d1)), (interrupt_evt d1). rewrite reset_eq.
  destruct Hp as (?&?&?&?&?&?&Hq&Hs1&Hs2).
  destruct Hcfg as (?&?&?&?&?&?&?&?&?&?&Hl). rewrite Hq, repeat_length in Hl.
  assert (map (fun _ => QueueState_default) (queues (state d1)) = queues (state d)) as Hqs.
  { rewrite Hq, map_const, Hl. done. }
  unfold with_feat_sel, with_state, st_queues, st_lines, st_driver, st_balloon. simpl.
  rewrite Hqs, Hs1, Hs2, Hbase, Hsize. do 2 f_equal. f_equal; congruence.
Qed.

(** the driver's queue set-up sequence (select, size, three 64-bit ring
    addresses written as low and high halves, ready) leaves queue [i] with
    exactly those registers and every other queue untouched. *)
Theorem mmio_queue_setup d i num desc avail used q :
  dev_wf d -> i < num_queues (state d) <= N.of_nat MAX_QUEUES ->
  queues (state d) !! N.to_nat i = Some q ->
  in_u 32 num -> in_u 64 desc -> in_u 64 avail -> in_u 64 used ->
  exists d', run_accesses (program_queue d i num desc avail used) d = (Ok tt, d') /\
    queues (state d') !! N.to_nat i =
      Some {| q_num := num; q_ready := 1; q_desc := desc; q_avail := avail;
              q_used := used; q_last_avail := q_last_avail q |} /\
    forall j, j <> N.to_nat i -> queues (state d') !! j = queues (state d) !! j.
Proof.
  intros Hwf Hi Hq Hnum Hdesc Havail Hused.
  assert (forall v, in_u 64 v -> in_u 32 (v mod 2 ^ 32) /\ in_u 32 (v / 2 ^ 32)) as Hhalf.
  { intros v Hv. split; [apply (wrap_range 32)|]. by apply N.Div0.div_lt_upper_bound. }
  assert (queue_wf q) as Hqwf by (eapply Forall_lookup_1; [apply Hwf|done]).
  destruct (Hhalf desc), (Hhalf avail), (Hhalf used); try done.
  assert (in_u 32 i) as Hi32.
  { unfold in_u. unfold MAX_QUEUES in Hi. lia. }
  set (d1 := with_state (st_lines i (notify (state d)) (interrupt_status (state d)) (state d)) d).
  assert (q_index (state d1) = N.to_nat i) as Hidx.
  { unfold q_index, d1, MAX_QUEUES in *. simpl. lia. }
  assert (N.to_nat i < length (queues (state d1)))%nat as Hlt by (by eapply lookup_lt_Some).
  assert (d1 = with_q d1 (N.to_nat i) q) as Hd1.
  { unfold with_q, with_state, st_queues, d1. simpl. rewrite list_insert_id by done. by destruct d as [? ? []]. }
  destruct Hqwf as (?&?&?&?&?&?).
  eexists. split; [|split].
  - unfold program_queue. q_store. rewrite mmio_value_le by done. unfold modify at 1.
    fold d1. rewrite Hd1.
    do 8 (q_store; rewrite mmio_value_le, with_q_on_q by done).
    simpl. unfold ret. reflexivity.
  - simpl. rewrite list_lookup_insert_eq by done.
    unfold q_set_ready, q_set_rings, q_set_num. simpl.
    rewrite (proj1 (set_lo_hi (q_desc q) desc ltac:(done) ltac:(done))).
    rewrite (proj1 (set_lo_hi (q_avail q) avail ltac:(done) ltac:(done))).
    by rewrite (proj1 (set_lo_hi (q_used q) used ltac:(done) ltac:(done))).
  - intros j Hj. simpl. by rewrite list_lookup_insert_ne.
Qed.

(** The guest reads a block device's capacity back from configuration
    space byte by byte, exactly as configured. *)
Theorem block_capacity_roundtrip bs cap ro evt :
  in_u 64 cap ->
  from_le (map (fun i => match (mmio_read (bs + 0x100 + N.of_nat i) [0] (block bs cap ro evt)).1 with
                         | Ok [b] => b | _ => 0 end) (seq 0 8)) = cap.
Proof.
  intros Hcap. transitivity (from_le (le_bytes 8 cap)); [|by apply from_le_bytes_small].
  f_equal.
  assert (forall i, (i < 8)%nat ->
    (mmio_read (bs + 0x100 + N.of_nat i) [0] (block bs cap ro evt)).1 =
      Ok (slice i 1 (le_bytes 8 cap))) as Hread.
  { intros i Hi. unfold mmio_read, bind, get, lift.
    replace (rel _ _) with (0x100 + N.of_nat i) by (unfold rel; simpl; lia).
    unfold config_read. cbn [state device_id block new st_config VIRTIO_ID_BLOCK N.eqb Pos.eqb].
    replace (within _ _ _) with true by (symmetry; apply within_spec; lia).
    cbn [nonempty length Nat.eqb negb andb]. unfold ret, copy_field. cbn [fst].
    replace (N.to_nat (0x100 + N.of_nat i - 0x100)) with i by lia.
    rewrite length_le_bytes. cbn [length].
    replace (Nat.min 1 (8 - i)) with 1%nat by lia.
    unfold splice. rewrite length_slice by (rewrite length_le_bytes; lia).
    cbn [take drop Nat.add]. by rewrite app_nil_r. }
  cbn [seq map]. rewrite !Hread by lia. reflexivity.
Qed.

(** ** Witnesses *)

Definition demo_blk : VirtioMmio := block 0xfeb00000 64 false (Some 0).
Definition demo_trace : list access :=
  [ Store 0xfeb00030 [0; 0; 0; 0]; Store 0xfeb00038 [8; 0; 0; 0]; Load 0xfeb00100 [0; 0];
    Store 0xfeb00090 [0x34; 0x12]; RaiseVring; Store 0xffffffffffffffff [] ].

Lemma mmio_accesses_safe_witness :
  exists d', run_accesses demo_trace demo_blk = (Ok tt, d') /\ dev_wf d' /\
    same_device demo_blk d'.
Proof. apply (mmio_accesses_safe demo_blk demo_trace); [constructor | by_eval]. Defined.

Lemma mmio_reset_restores_witness :
  exists target evt,
    step_access (reset_request (run_accesses demo_trace demo_blk).2)
      (run_accesses demo_trace demo_blk).2 =
      (Ok tt, {| base := base demo_blk; size := size demo_blk;
                 state := st_balloon target (balloon_actual (state demo_blk)) (state demo_blk);
                 dev_feat_sel := dev_feat_sel demo_blk; drv_feat_sel := drv_feat_sel demo_blk;
                 interrupt_evt := evt |}).
Proof.
  apply (mmio_reset_restores demo_blk demo_trace); [constructor | by_eval | vm_compute; reflexivity].
Defined.

Lemma mmio_queue_setup_witness :
  exists d', run_accesses (program_queue demo_blk 0 128 0x123456000 0x8000 0x9000) demo_blk =
      (Ok tt, d') /\
    queues (state d') !! N.to_nat 0 =
      Some {| q_num := 128; q_ready := 1; q_desc := 0x123456000; q_avail := 0x8000;
              q_used := 0x9000; q_last_avail := q_last_avail QueueState_default |} /\
    forall j, j <> N.to_nat 0 -> queues (state d') !! j = queues (state demo_blk) !! j.
Proof.
  apply (mmio_queue_setup demo_blk 0 128 0x123456000 0x8000 0x9000 QueueState_default);
    (by_eval || reflexivity).
Defined.

Lemma block_capacity_roundtrip_witness :
  from_le (map (fun i => match (mmio_read (0xfeb00000 + 0x100 + N.of_nat i) [0]
                                  (block 0xfeb00000 123456789012 false None)).1 with
                         | Ok [b] => b | _ => 0 end) (seq 0 8)) = 123456789012.
Proof. apply (block_capacity_roundtrip 0xfeb00000 123456789012 false None). by_eval. Defined.
