(* ===== verification/RateLimiter.v ===== *)
(** * Token-bucket rate limiter

    [crates/fluxvm-hypervisor/src/devices/rate_limiter.rs].  Tokens are IEEE
    binary64 numbers; they are modelled with the executable binary64 operations
    of [SpecFloat], so the rounding of every refill is the source's.  The clock
    ([Instant::now]) is the list of its future readings, in nanoseconds.
    [RateLimit] is the interface the virtio-blk and virtio-net handlers use. *)

From stdpp Require Import prelude list.
From Stdlib Require Import NArith ZArith Lia SpecFloat.
From S2P Require Import Prelude.

(** What a handler needs of a limiter: [consume(bytes)]. *)
Class RateLimit (L : Type) := consume : u64 -> L -> bool * L.

(** [limiter: Option<&RateLimiter>] and [if let Some(lim) = limiter { lim.consume(n) }]. *)
Definition consume_opt {L} `{RateLimit L} (bytes : u64) (l : option L) : bool * option L :=
  match l with
  | Some lim => let '(b, lim') := consume bytes lim in (b, Some lim')
  | None => (true, None)
  end.

(** ** binary64 *)

Definition f64 := spec_float.

Definition f64_of_Z (z : Z) : f64 := binary_normalize 53 1024 z 0 false.
Definition f64_of_u64 (n : u64) : f64 := f64_of_Z (Z.of_N n).
Definition f64_add : f64 -> f64 -> f64 := SFadd 53 1024.
Definition f64_sub : f64 -> f64 -> f64 := SFsub 53 1024.
Definition f64_mul : f64 -> f64 -> f64 := SFmul 53 1024.
Definition f64_div : f64 -> f64 -> f64 := SFdiv 53 1024.
Definition f64_ge (x y : f64) : bool := SFleb y x.

Definition is_nan (x : f64) : bool := match x with S754_nan => true | _ => false end.

(** [f64::min]: the other operand when one is NaN. *)
Definition f64_min (x y : f64) : f64 :=
  if is_nan x then y else if is_nan y then x else if SFltb x y then x else y.

(** [f64::MAX] *)
Definition f64_max : f64 := S754_finite false (2 ^ 53 - 1) 971.

(** [Duration::as_secs_f64] of a difference of two clock readings in ns. *)
Definition as_secs_f64 (ns : N) : f64 :=
  f64_add (f64_of_u64 (ns / 1000000000))
    (f64_div (f64_of_u64 (ns mod 1000000000)) (f64_of_u64 1000000000)).

(** ** The limiter *)

Record Inner := {
  capacity : u64;
  tokens : f64;
  refill_per_sec : f64;
  last : N;
}.

Record RateLimiter := { inner : Inner; clock : list N }.

(** [Instant::now()]: the next reading; the clock stands still at the end of
    the list. *)
Definition instant_now (prev : N) (c : list N) : N * list N :=
  match c with [] => (prev, []) | t :: c => (t, c) end.

Definition unlimited (c : list N) : RateLimiter :=
  let '(t, c) := instant_now 0 c in
  {| inner := {| capacity := U.max 64; tokens := f64_max;
                 refill_per_sec := f64_of_u64 0; last := t |};
     clock := c |}.

Definition from_mbit (mbit_limit : u32) (c : list N) : RateLimiter :=
  if mbit_limit =? 0 then unlimited c
  else
    let bytes_per_sec := mbit_limit * 1000000 / 8 in
    let '(t, c) := instant_now 0 c in
    {| inner := {| capacity := bytes_per_sec; tokens := f64_of_u64 bytes_per_sec;
                   refill_per_sec := f64_of_u64 bytes_per_sec; last := t |};
       clock := c |}.

(** [consume]; [duration_since] saturates at zero. *)
Definition consume_tokens (bytes : u64) (l : RateLimiter) : bool * RateLimiter :=
  let g := inner l in
  if capacity g =? U.max 64 then (true, l)
  else
    let '(now, c) := instant_now (last g) (clock l) in
    let elapsed := as_secs_f64 (now - last g) in
    let tk := f64_min (f64_add (tokens g) (f64_mul elapsed (refill_per_sec g)))
                (f64_of_u64 (capacity g)) in
    let set tk :=
      {| inner := {| capacity := capacity g; tokens := tk;
                     refill_per_sec := refill_per_sec g; last := now |};
         clock := c |} in
    if f64_ge tk (f64_of_u64 bytes) then (true, set (f64_sub tk (f64_of_u64 bytes)))
    else (false, set tk).

#[global] Instance RateLimiter_limits : RateLimit RateLimiter := consume_tokens.

(** A run of requests against one limiter. *)
Fixpoint consume_all (reqs : list u64) (l : RateLimiter) : list bool * RateLimiter :=
  match reqs with
  | [] => ([], l)
  | n :: reqs =>
      let '(b, l) := consume n l in
      let '(bs, l) := consume_all reqs l in (b :: bs, l)
  end.

Definition grants (l : RateLimiter) (reqs : list u64) : list bool := (consume_all reqs l).1.

(** 8 Mbit/s: one second's worth is granted at once, then nothing until the
    clock moves, then in proportion to the time elapsed. *)
Example consume_run :
  grants (from_mbit 8 [0; 0; 0; 500000000; 500000000])
    [1000000; 1; 500000; 1] = [true; false; true; false].
Proof. vm_compute. reflexivity. Qed.

(** ** Order on binary64

    Comparison of two numbers is the lexicographic order of a triple of
    integers: the class, then the signed exponent, then the signed mantissa. *)

Definition key (x : f64) : Z * Z * Z :=
  match x with
  | S754_nan => (3, 0, 0)%Z
  | S754_infinity true => (-2, 0, 0)%Z
  | S754_infinity false => (2, 0, 0)%Z
  | S754_zero _ => (0, 0, 0)%Z
  | S754_finite true m e => (-1, - e, - Zpos m)%Z
  | S754_finite false m e => (1, e, Zpos m)%Z
  end.

Definition key_lt (a b : Z * Z * Z) : Prop :=
  let '(a1, a2, a3) := a in
  let '(b1, b2, b3) := b in
  (a1 < b1 \/ a1 = b1 /\ (a2 < b2 \/ a2 = b2 /\ a3 < b3))%Z.

Lemma SFcompare_key x y c : SFcompare x y = Some c ->
  match c with
  | Lt => key_lt (key x) (key y)
  | Eq => key x = key y
  | Gt => key_lt (key y) (key x)
  end.
Proof.
  unfold SFcompare. change (Pos.compare_cont Eq) with Pos.compare. destruct x as [sx|sx| |sx mx ex], y as [sy|sy| |sy my ey]; try done;
    try (destruct sx); try (destruct sy); try (intros [= <-]; simpl; (done || lia));
    destruct (Z.compare_spec ex ey); intros [= <-]; simpl; try lia;
    subst; destruct (Pos.compare_spec mx my); simpl; subst; try done; lia.
Qed.

Lemma SFltb_key x y : SFltb x y = true -> key_lt (key x) (key y).
Proof.
  unfold SFltb. destruct (SFcompare x y) as [c|] eqn:E; [|done].
  apply SFcompare_key in E. by destruct c.
Qed.

Lemma SFleb_key x y : SFleb x y = true -> key_lt (key x) (key y) \/ key x = key y.
Proof.
  unfold SFleb. destruct (SFcompare x y) as [c|] eqn:E; [|done].
  apply SFcompare_key in E. destruct c; intros; try done; auto.
Qed.

Lemma SFltb_nan x y : SFltb x y = true -> is_nan x = false /\ is_nan y = false.
Proof. by destruct x as [[]|[]| |[]], y as [[]|[]| |[]]. Qed.

(** The refilled bucket never holds more than its capacity. *)
Lemma f64_min_le x cap : is_nan cap = false ->
  key_lt (key (f64_min x cap)) (key cap) \/ f64_min x cap = cap.
Proof.
  intros Hc. unfold f64_min. rewrite Hc. destruct (is_nan x); [by right|].
  destruct (SFltb x cap) eqn:E; [left; by apply SFltb_key|by right].
Qed.

(** a request larger than the bucket's capacity (one second's worth of
    bandwidth) is refused in every state of the limiter and at every time: the
    exact binary64 arithmetic of the refill never lifts the bucket over its
    capacity. *)
Theorem consume_over_capacity_denied l bytes :
  capacity (inner l) <> U.max 64 ->
  SFltb (f64_of_u64 (capacity (inner l))) (f64_of_u64 bytes) = true ->
  (consume bytes l).1 = false.
Proof.
  intros Hcap Hlt. unfold consume, RateLimiter_limits, consume_tokens.
  rewrite (proj2 (N.eqb_neq _ _) Hcap).
  destruct (instant_now _ _) as [now c].
  match goal with |- context [f64_min ?x ?y] =>
    pose proof (f64_min_le x y (proj1 (SFltb_nan _ _ Hlt))) as Hmin;
    generalize dependent (f64_min x y); intros tk Hmin
  end.
  destruct (f64_ge _ _) eqn:E; [|done]. exfalso.
  apply SFleb_key in E. apply SFltb_key in Hlt.
  revert Hlt Hmin E. generalize (f64_of_u64 bytes) (f64_of_u64 (capacity (inner l))).
  intros b k Hlt Hmin E. destruct Hmin as [Hmin| ->]; destruct E as [E|E].
  all: destruct (key b) as [[? ?] ?], (key k) as [[? ?] ?];
    try (destruct (key tk) as [[? ?] ?]); simpl in *; try injection E; lia.
Qed.

Lemma consume_over_capacity_denied_witness :
  (consume 131089 (from_mbit 1 [0; 1000000000])).1 = false.
Proof.
  apply (consume_over_capacity_denied (from_mbit 1 [0; 1000000000]) 131089);
    [by_eval | vm_compute; reflexivity].
Defined.
