(* ===== verification/VirtioBlk.v ===== *)
(** * virtio-blk

    [crates/fluxvm-hypervisor/src/devices/virtio_blk.rs]: opening a raw image,
    walking a request's descriptor chain, validating and executing the request
    against the backing file, and the notify loop of the request queue.

    The backing file is its contents, the position of the shared handle and the
    list of faults the host will inject into the coming operations: [None] lets
    an operation succeed, [Some k] makes it fail after [k] bytes.  The bounce
    buffer is its length: its contents are overwritten before every use. *)

From stdpp Require Import prelude list.
From Stdlib Require Import NArith Lia.
From S2P Require Import Prelude GuestMemory Virtqueue VirtioMmio RateLimiter.

Definition SECTOR_SIZE : u64 := 512.
Definition VIRTIO_BLK_T_IN : u32 := 0.
Definition VIRTIO_BLK_T_OUT : u32 := 1.
Definition VIRTIO_BLK_T_FLUSH : u32 := 4.
Definition VIRTIO_BLK_T_GET_ID : u32 := 8.
Definition VIRTIO_BLK_S_OK : u8 := 0.
Definition VIRTIO_BLK_S_IOERR : u8 := 1.
Definition VIRTIO_BLK_S_UNSUPP : u8 := 2.
Definition IO_CHUNK_SIZE : usize := 1024 * 1024.

(** ** The backing file *)

Record File := { f_data : bytes; f_pos : N; f_faults : list (option N) }.

Definition f_len (f : File) : N := lenN (f_data f).

(** Take the next injected fault. *)
Definition next_fault : M File (option N) := fun f =>
  match f_faults f with
  | [] => (Ok None, f)
  | x :: xs => (Ok x, {| f_data := f_data f; f_pos := f_pos f; f_faults := xs |})
  end.

Definition f_set_pos (p : N) (f : File) : File :=
  {| f_data := f_data f; f_pos := p; f_faults := f_faults f |}.

(** [seek(SeekFrom::Start(p)).is_ok()] *)
Definition file_seek (p : N) : M File bool :=
  let! fault := next_fault in
  match fault with
  | None => do! modify (f_set_pos p) in ret true
  | Some _ => ret false
  end.

(** [read_exact] of [n] bytes: the bytes, or [None] on an error. *)
Definition file_read_exact (n : N) : M File (option bytes) :=
  let! fault := next_fault in
  let! f := get in
  match fault with
  | Some k => do! modify (f_set_pos (f_pos f + N.min k n)) in ret None
  | None =>
      if f_pos f + n <=? f_len f then
        do! modify (f_set_pos (f_pos f + n)) in
        ret (Some (slice (N.to_nat (f_pos f)) (N.to_nat n) (f_data f)))
      else do! modify (f_set_pos (f_len f)) in ret None
  end.

(** The contents after writing [d] at [p]: the file grows, zero-filled, when
    the write ends past its end. *)
Definition write_data (p : N) (d data : bytes) : bytes :=
  let i := N.to_nat p in
  take i (data ++ repeat 0 (i - length data)) ++ d ++ drop (i + length d) data.

Definition f_write (d : bytes) (f : File) : File :=
  {| f_data := write_data (f_pos f) d (f_data f); f_pos := f_pos f + lenN d;
     f_faults := f_faults f |}.

(** [write_all(d).is_ok()] *)
Definition file_write_all (d : bytes) : M File bool :=
  let! fault := next_fault in
  match fault with
  | None => do! modify (f_write d) in ret true
  | Some k => do! modify (f_write (take (N.to_nat k) d)) in ret false
  end.

(** [sync_data().is_ok()] *)
Definition file_sync : M File bool :=
  let! fault := next_fault in
  ret (match fault with None => true | Some _ => false end).

(** ** [BlockBackend] *)

Record BlockBackend := {
  file : File;
  b_capacity_sectors : u64;
  read_only : bool;
}.

Definition magic_qcow2 : bytes := [0x51; 0x46; 0x49; 0xfb].
Definition magic_vmdk : bytes := [0x4b; 0x44; 0x4d; 0x56].
Definition magic_vhdx : bytes := [0x76; 0x68; 0x64; 0x78].
Definition footer_vhd : bytes := [0x63; 0x6f; 0x6e; 0x65; 0x63; 0x74; 0x69; 0x78].

Definition beqb (x y : bytes) : bool := bool_decide (x = y).

(** [BlockBackend::open] on a file with contents [data]. *)
Definition open_backend (data : bytes) (ro : bool) : outcome BlockBackend :=
  let len := lenN data in
  if len <? 4 then Err Io
  else
    let magic := slice 0 4 data in
    if beqb magic magic_qcow2 then Err Unsupported
    else if beqb magic magic_vmdk || beqb magic magic_vhdx then Err Unsupported
    else if (SECTOR_SIZE <=? len) &&
            beqb (slice (N.to_nat (len - SECTOR_SIZE)) 8 data) footer_vhd then Err Unsupported
    else if (len =? 0) || negb (len mod SECTOR_SIZE =? 0) then Err Unsupported
    else
      Ok {| file := {| f_data := data; f_pos := 0; f_faults := [] |};
            b_capacity_sectors := (len + (SECTOR_SIZE - 1)) / SECTOR_SIZE;
            read_only := ro |}.

(** ** Descriptor chains *)

(** (gpa, len, device_write) *)
Definition part : Type := (u64 * u32 * bool)%type.

Record DescChain := { head : u16; parts : list part }.

Definition part_of (d : Desc) : part :=
  (d_addr d, d_len d, bits (d_flags d) VRING_DESC_F_WRITE).

(** The hops of [walk_chain]; [seen] is [seen[..hop]] and [acc] is [parts]. *)
Fixpoint walk_hops (hops : nat) (desc_base : u64) (qnum : u32) (hd idx : u16)
    (seen : list u16) (acc : list part) : M GuestMemory DescChain :=
  match hops with
  | O => throw Device
  | S hops =>
      if (qnum <=? idx) || existsb (N.eqb idx) seen then throw Device
      else
        let! addr := ok_or (U.checked_add 64 desc_base (idx * 16)) Memory in
        let! d := read_desc addr in
        if bits (d_flags d) 4 then throw Unsupported
        else
          let acc := acc ++ [part_of d] in
          if negb (bits (d_flags d) VRING_DESC_F_NEXT)
          then ret {| head := hd; parts := acc |}
          else walk_hops hops desc_base qnum hd (d_next d) (seen ++ [idx]) acc
  end.

Definition walk_chain (desc_base : u64) (hd : u16) (qnum : u32) : M GuestMemory DescChain :=
  walk_hops (N.to_nat (N.min qnum 64)) desc_base qnum hd hd [] [].

(** ** Requests *)

(** The loop of [valid_io_request] over the data descriptors. *)
Fixpoint valid_parts (mem_len : u64) (ps : list part) (device_writes : bool) (total : u64)
    : option u64 :=
  match ps with
  | [] => Some total
  | (gpa, len, writable) :: ps =>
      if negb (eqb writable device_writes) ||
         negb (match U.checked_add 64 gpa len with
               | Some fin => fin <=? mem_len | None => false end)
      then None
      else
        match U.checked_add 64 total len with
        | None => None
        | Some next => valid_parts mem_len ps device_writes next
        end
  end.

Definition valid_io_request (m : GuestMemory) (b : BlockBackend) (data_parts : list part)
    (sector : u64) (device_writes : bool) : bool :=
  match valid_parts (mem_len m) data_parts device_writes 0 with
  | None => false
  | Some total =>
      if negb (total mod SECTOR_SIZE =? 0) || (U.max 32 - 1 <? total) then false
      else
        match U.checked_mul 64 sector SECTOR_SIZE with
        | None => false
        | Some start =>
            match U.checked_add 64 start total,
                  U.checked_mul 64 (b_capacity_sectors b) SECTOR_SIZE with
            | Some fin, Some capacity => fin <=? capacity
            | _, _ => false
            end
        end
  end.

(** What [process_request] works on. *)
Record BlkIo := { io_mem : GuestMemory; io_backend : BlockBackend; scratch_len : usize }.

Definition on_mem {A} (m : M GuestMemory A) : M BlkIo A :=
  zoom io_mem (fun x s =>
    {| io_mem := x; io_backend := io_backend s; scratch_len := scratch_len s |}) m.

Definition on_file {A} (m : M File A) : M BlkIo A :=
  zoom (fun s => file (io_backend s)) (fun x s =>
    {| io_mem := io_mem s;
       io_backend := {| file := x; b_capacity_sectors := b_capacity_sectors (io_backend s);
                        read_only := read_only (io_backend s) |};
       scratch_len := scratch_len s |}) m.

Definition set_scratch (n : usize) (s : BlkIo) : BlkIo :=
  {| io_mem := io_mem s; io_backend := io_backend s; scratch_len := n |}.

(** The [while done < len] loop for one descriptor; [false] is [break 'parts]. *)
Fixpoint io_part (fuel : nat) (reading : bool) (gpa : u64) (len : u32) (done : usize)
    (written : u32) : M BlkIo (bool * u32) :=
  match fuel with
  | O => diverge
  | S fuel =>
      if done <? len then
        let! s := get in
        let n := N.min (len - done) (scratch_len s) in
        let addr := U.add 64 gpa done in
        if reading then
          let! r := on_file (file_read_exact n) in
          match r with
          | None => ret (false, written)
          | Some buf =>
              do! on_mem (write_at addr buf) in
              io_part fuel reading gpa len (done + n) (U.add 32 written n)
          end
        else
          let! buf := on_mem (read_at addr n) in
          let! ok := on_file (file_write_all buf) in
          if ok then io_part fuel reading gpa len (done + n) written
          else ret (false, written)
      else ret (true, written)
  end.

(** Iterations needed for [len] bytes with a buffer of [sc]. *)
Definition part_fuel (len : u32) (sc : usize) : nat := S (S (N.to_nat (len / N.max 1 sc))).

(** The ['parts] loop: the status and the bytes written to the guest. *)
Fixpoint io_parts (reading : bool) (ps : list part) (written : u32) : M BlkIo (u8 * u32) :=
  match ps with
  | [] => ret (VIRTIO_BLK_S_OK, written)
  | (gpa, len, _) :: ps =>
      let! s := get in
      let! r := io_part (part_fuel len (scratch_len s)) reading gpa len 0 written in
      let '(go, written) := r in
      if go then io_parts reading ps written else ret (VIRTIO_BLK_S_IOERR, written)
  end.

(** [data_parts.iter().map(len).max().unwrap_or(0).min(IO_CHUNK_SIZE)] *)
Definition chunk_of (ps : list part) : usize :=
  N.min (foldr N.max 0 (map (fun p => p.1.2) ps)) IO_CHUNK_SIZE.

Definition blk_id : bytes := [0x66; 0x6c; 0x75; 0x78; 0x76; 0x6d; 0x2d; 0x62; 0x6c; 0x6b; 0x30; 0].

(** The body of a request once its header is decoded: status and bytes
    written to the guest. *)
Definition run_request (req_type : u32) (sector : u64) (data_parts : list part)
    : M BlkIo (u8 * u32) :=
  if (req_type =? VIRTIO_BLK_T_IN) || (req_type =? VIRTIO_BLK_T_OUT) then
    let reading := req_type =? VIRTIO_BLK_T_IN in
    let! s := get in
    if negb reading && read_only (io_backend s) then ret (VIRTIO_BLK_S_IOERR, 0)
    else
      let chunk := chunk_of data_parts in
      do! modify (fun s => if scratch_len s <? chunk then set_scratch chunk s else s) in
      let! ok := on_file (file_seek (U.mul 64 sector SECTOR_SIZE)) in
      if ok then io_parts reading data_parts 0 else ret (VIRTIO_BLK_S_IOERR, 0)
  else if req_type =? VIRTIO_BLK_T_FLUSH then
    let! ok := on_file file_sync in
    ret (if ok then VIRTIO_BLK_S_OK else VIRTIO_BLK_S_IOERR, 0)
  else if req_type =? VIRTIO_BLK_T_GET_ID then
    match data_parts with
    | (gpa, len, true) :: _ =>
        let n := N.min (lenN blk_id) len in
        do! on_mem (write_at gpa (take (N.to_nat n) blk_id)) in
        ret (VIRTIO_BLK_S_OK, n)
    | _ => ret (VIRTIO_BLK_S_OK, 0)
    end
  else ret (VIRTIO_BLK_S_UNSUPP, 0).

(** [&parts[1..parts.len() - 1]] *)
Definition middle {A} (l : list A) : list A := slice 1 (length l - 2) l.

Definition process_request (chain : DescChain) : M BlkIo u32 :=
  match parts chain, List.last (map Some (parts chain)) None with
  | (hdr_gpa, hdr_len, hdr_w) :: _ :: _, Some (status_gpa, status_len, status_w) =>
      if (hdr_len <? 16) || hdr_w then ret 0
      else
        let! hdr := on_mem (read_at hdr_gpa 16) in
        let req_type := from_le (slice 0 4 hdr) in
        let sector := from_le (slice 8 8 hdr) in
        if negb status_w || (status_len <? 1) then ret 0
        else
          let data_parts := middle (parts chain) in
          let! s := get in
          if ((req_type =? VIRTIO_BLK_T_IN) || (req_type =? VIRTIO_BLK_T_OUT)) &&
             negb (valid_io_request (io_mem s) (io_backend s) data_parts sector
                     (req_type =? VIRTIO_BLK_T_IN))
          then
            do! on_mem (write_at status_gpa [VIRTIO_BLK_S_IOERR]) in ret 1
          else
            let! r := run_request req_type sector data_parts in
            let '(status, written) := r in
            do! on_mem (write_at status_gpa [status]) in
            ret (U.saturating_add 32 written 1)
  | _, _ => ret 0
  end.

(** ** The notify loop *)

Section Notify.
Context {L : Type} `{RateLimit L}.

(** Guest RAM, the block device's registers and backend, and its limiter. *)
Record BlkDev := {
  bd_mem : GuestMemory;
  bd_st : VirtioState;
  bd_backend : BlockBackend;
  bd_lim : option L;
}.

(** The state of one [handle_notify]: request state, the request queue, limiter. *)
Record BlkCtx := { c_io : BlkIo; c_q : QueueState; c_lim : option L }.

Definition on_io {A} (m : M BlkIo A) : M BlkCtx A :=
  zoom c_io (fun x s => {| c_io := x; c_q := c_q s; c_lim := c_lim s |}) m.

Definition on_lim (n : u64) : M BlkCtx bool := fun s =>
  let '(b, l) := consume_opt n (c_lim s) in
  (Ok b, {| c_io := c_io s; c_q := c_q s; c_lim := l |}).

Definition bump : M BlkCtx unit :=
  modify (fun s => {| c_io := c_io s; c_q := bump_last_avail (c_q s); c_lim := c_lim s |}).

Definition chain_bytes (c : DescChain) : u64 := foldr N.add 0 (map (fun p => p.1.2) (parts c)).

(** One request: [None] leaves the loop, [Some tt] completes a request. *)
Definition serve_one : M BlkCtx (option unit) :=
  let! s := get in
  let q := c_q s in
  let! avail_idx := on_io (on_mem (read_avail_idx (q_avail q))) in
  if q_last_avail q =? avail_idx then ret None
  else
    let! hd := on_io (on_mem (read_avail_head (q_avail q) (q_last_avail q) (q_num q))) in
    let! chain := on_io (on_mem (walk_chain (q_desc q) hd (q_num q))) in
    let! granted := on_lim (chain_bytes chain) in
    if negb granted then ret None
    else
      let! written := try_ok (on_io (process_request chain)) ret (ret 1) in
      do! on_io (on_mem (used_push (q_used q) (q_num q) (head chain) written)) in
      do! bump in
      ret (Some tt).

(** The loop: it stops after the 65th request. *)
Definition serve_loop : nat -> u32 -> M BlkCtx u32 := notify_loop serve_one.

Definition handle_notify (qsel : u32) : M BlkDev u32 := fun d =>
  match queues (bd_st d) with
  | [] => (Panic, d)
  | q :: qs =>
      if (q_ready q =? 0) || (q_num q =? 0) then (Ok 0, d)
      else
        let ctx := {| c_io := {| io_mem := bd_mem d; io_backend := bd_backend d;
                                 scratch_len := 0 |};
                      c_q := q; c_lim := bd_lim d |} in
        let '(o, s) := serve_loop 65 0 ctx in
        (o, {| bd_mem := io_mem (c_io s); bd_st := st_queues (c_q s :: qs) (bd_st d);
               bd_backend := io_backend (c_io s); bd_lim := c_lim s |})
  end.

End Notify.
Arguments BlkDev : clear implicits.
Arguments BlkCtx : clear implicits.

(** ** The chain walk against its specification *)

Lemma walk_hops_spec m base qnum hd hops idx seen acc c m' :
  NoDup seen ->
  walk_hops hops base qnum hd idx seen acc m = (Ok c, m') <->
  m' = m /\ exists l, chain_from m base qnum idx l /\ (length l <= hops)%nat /\
    NoDup (seen ++ map fst l) /\
    c = {| head := hd; parts := acc ++ map (fun x => part_of x.2) l |}.
Proof.
  revert idx seen acc. induction hops as [|hops IH]; intros idx seen acc Hnd; simpl.
  { split; [done|]. intros (_ & l & Hl & Hlen & _). destruct Hl; simpl in *; lia. }
  destruct (_ || _) eqn:E.
  { split; [done|]. intros (_ & l & Hl & _ & Hd & _). exfalso.
    apply orb_true_iff in E as [E|E].
    - apply N.leb_le in E. destruct Hl; lia.
    - apply not_false_iff_true in E. apply E, existsb_eqb.
      destruct Hl; simpl in Hd; apply NoDup_app in Hd as (_ & Hd & _); intros Hin;
        by eapply Hd; [|left]. }
  apply orb_false_iff in E as [Hlt%N.leb_gt Hseen%existsb_eqb].
  unfold bind at 1, ok_or. destruct (U.checked_add 64 base (idx * 16)) as [a|] eqn:Ea; simpl.
  2:{ split; [done|]. intros (_ & l & Hl & _). destruct Hl as [?? ? (? & ? & ?)|??? ? (? & ? & ?)];
        congruence. }
  unfold bind at 1. rewrite read_desc_state. destruct (read_desc a m).1 as [d|e| |] eqn:Ed; simpl;
    try (split; [done|]; intros (_ & l & Hl & _);
         destruct Hl as [?? ? (? & ? & Hr)|??? ? (? & ? & Hr)]; simplify_eq; by rewrite Hr in Ed).
  assert (desc_at m base idx d) as Hat.
  { exists a. split; [done|]. by rewrite read_desc_state, Ed. }
  pose proof (fun l => chain_from_inv m base qnum idx d l Hat) as Hinv.
  change 4 with VRING_DESC_F_INDIRECT.
  destruct (bits (d_flags d) VRING_DESC_F_INDIRECT) eqn:Ei.
  { split; [done|]. intros (_ & l & Hl & _). by destruct (Hinv l Hl). }
  destruct (bits (d_flags d) VRING_DESC_F_NEXT) eqn:En; simpl.
  - assert (NoDup (seen ++ [idx])) as Hnd'.
    { apply NoDup_app. repeat split; [done| |apply NoDup_singleton].
      intros x Hx Hx'. apply list_elem_of_singleton in Hx'. by subst. }
    rewrite IH by done. split; intros (-> & l & Hl & Hlen & Hd & ->).
    + split; [done|]. exists ((idx, d) :: l). split; [by constructor|].
      rewrite <- !app_assoc in *. simpl in *. auto with lia.
    + destruct (Hinv l Hl) as (_ & l' & -> & Hl'). split; [done|]. exists l'.
      rewrite <- !app_assoc. simpl in *. auto with lia.
  - split.
    + intros [= <- <-]. split; [done|]. exists [(idx, d)]. split; [by constructor|].
      simpl. split; [lia|]. split; [|done]. apply NoDup_app.
      repeat split; [done| |apply NoDup_singleton].
      intros x Hx Hx'. apply list_elem_of_singleton in Hx'. by subst.
    + intros (-> & l & Hl & _ & _ & ->). by destruct (Hinv l Hl) as (_ & ->).
Qed.

(** ** Validation: the specification *)

(** A data descriptor has the right direction and lies in RAM. *)
Definition part_ok (ml : u64) (device_writes : bool) (p : part) : Prop :=
  p.2 = device_writes /\ p.1.1 + p.1.2 < 2 ^ 64 /\ p.1.1 + p.1.2 <= ml.

Definition total_len (ps : list part) : N := foldr N.add 0 (map (fun p => p.1.2) ps).

Lemma valid_parts_sound ml ps dw t t' :
  valid_parts ml ps dw t = Some t' -> Forall (part_ok ml dw) ps /\ t' = t + total_len ps.
Proof.
  revert t. induction ps as [|[[gpa len] w] ps IH]; intros t; simpl.
  { intros [= <-]. split; [constructor|]. unfold total_len. simpl. lia. }
  unfold U.checked_add. destruct (_ || _) eqn:E; [done|].
  destruct (t + len <? 2 ^ 64) eqn:Et; simpl; [|done]. intros [Hps ->]%IH.
  apply orb_false_iff in E as [Ew%negb_false_iff%eqb_prop Em%negb_false_iff].
  destruct (gpa + len <? 2 ^ 64) eqn:Eg in Em; [|done]. apply N.ltb_lt in Eg. apply N.leb_le in Em.
  split; [by repeat constructor|]. unfold total_len. simpl. lia.
Qed.

Lemma valid_parts_complete ml ps dw t :
  Forall (part_ok ml dw) ps -> t + total_len ps < 2 ^ 64 ->
  valid_parts ml ps dw t = Some (t + total_len ps).
Proof.
  intros Hps. revert t. induction Hps as [|[[gpa len] w] ps (Hw & Hlt & Hle) Hps IH]; intros t Ht.
  { simpl. f_equal. unfold total_len. simpl. lia. }
  unfold total_len in *. simpl in *. unfold U.checked_add.
  rewrite Hw, eqb_reflx, (proj2 (N.ltb_lt _ _) Hlt), (proj2 (N.leb_le _ _) Hle). simpl.
  rewrite (proj2 (N.ltb_lt (t + len) (2 ^ 64))) by lia. rewrite IH by lia. f_equal. lia.
Qed.

Lemma valid_io_request_spec m b ps sector dw :
  b_capacity_sectors b * SECTOR_SIZE < 2 ^ 64 ->
  valid_io_request m b ps sector dw = true <->
  Forall (part_ok (mem_len m) dw) ps /\ total_len ps mod SECTOR_SIZE = 0 /\
  total_len ps <= 2 ^ 32 - 2 /\
  sector * SECTOR_SIZE + total_len ps <= b_capacity_sectors b * SECTOR_SIZE.
Proof.
  intros Hcap. unfold valid_io_request, U.checked_add, U.checked_mul, U.max.
  rewrite (proj2 (N.ltb_lt _ _) Hcap). split.
  - destruct (valid_parts _ _ _ _) as [t|] eqn:E; [|done].
    apply valid_parts_sound in E as [Hps ->]. rewrite N.add_0_l.
    destruct (_ || _) eqn:E; [done|].
    apply orb_false_iff in E as [E1%negb_false_iff%N.eqb_eq E2%N.ltb_ge].
    destruct (sector * SECTOR_SIZE <? 2 ^ 64) eqn:E3; [|done].
    destruct (sector * SECTOR_SIZE + total_len ps <? 2 ^ 64) eqn:E4; [|done].
    intros E5%N.leb_le. split; [done|]. split; [done|]. split; [lia|done].
  - intros (Hps & Hmod & Ht & Hfit).
    rewrite valid_parts_complete by (done || lia). rewrite N.add_0_l.
    rewrite (proj2 (N.eqb_eq _ _) Hmod). simpl.
    rewrite (proj2 (N.ltb_ge (2 ^ 32 - 1 - 1) (total_len ps))) by lia.
    rewrite (proj2 (N.ltb_lt (sector * SECTOR_SIZE) (2 ^ 64))) by lia.
    rewrite (proj2 (N.ltb_lt (sector * SECTOR_SIZE + total_len ps) (2 ^ 64))) by lia.
    by apply N.leb_le.
Qed.

(** ** Execution *)

(** Nothing but guest RAM and the file's contents, position and faults changes. *)
Definition same_backend (s s' : BlkIo) : Prop :=
  b_capacity_sectors (io_backend s') = b_capacity_sectors (io_backend s) /\
  read_only (io_backend s') = read_only (io_backend s) /\
  scratch_len s' = scratch_len s.

Lemma same_backend_trans s1 s2 s3 :
  same_backend s1 s2 -> same_backend s2 s3 -> same_backend s1 s3.
Proof. unfold same_backend. intuition congruence. Qed.

Definition io_file (s : BlkIo) : File := file (io_backend s).

Lemma write_data_splice p d data :
  (N.to_nat p + length d <= length data)%nat -> write_data p d data = splice (N.to_nat p) d data.
Proof.
  intros. unfold write_data, splice.
  replace (N.to_nat p - length data)%nat with 0%nat by lia. simpl. by rewrite app_nil_r.
Qed.

(** Faults are consumed one by one; without faults none appear. *)
Lemma file_write_all_spec d f :
  (N.to_nat (f_pos f) + length d <= length (f_data f))%nat ->
  exists ok f', file_write_all d f = (Ok ok, f') /\
    same_outside (N.to_nat (f_pos f)) (length d) (f_data f) (f_data f') /\
    (f_faults f = [] -> ok = true /\ f_faults f' = []) /\
    (ok = true -> f_data f' = splice (N.to_nat (f_pos f)) d (f_data f) /\
                  f_pos f' = f_pos f + lenN d).
Proof.
  intros Hle. unfold file_write_all, bind, next_fault, modify, ret.
  destruct (f_faults f) as [|[k|] fs] eqn:Ef; cbn -[f_write];
    (eexists _, _; split; [reflexivity|]); cbn [f_write f_data f_pos f_faults];
    rewrite write_data_splice by (rewrite ?length_take; lia);
    (split; [apply same_outside_splice; rewrite ?length_take; lia|]);
    split; intros; simplify_eq; by repeat split.
Qed.

Lemma file_read_exact_spec n f :
  f_pos f + n <= f_len f ->
  exists r f', file_read_exact n f = (Ok r, f') /\ f_data f' = f_data f /\
    (f_faults f = [] -> is_Some r /\ f_faults f' = []) /\
    (forall buf, r = Some buf ->
       buf = slice (N.to_nat (f_pos f)) (N.to_nat n) (f_data f) /\ f_pos f' = f_pos f + n).
Proof.
  intros Hle. unfold file_read_exact, bind, next_fault, modify, ret, get.
  destruct (f_faults f) as [|[k|] fs] eqn:Ef; cbn -[f_len];
    unfold f_len in *; cbn [f_data f_pos]; try rewrite (proj2 (N.leb_le _ _) Hle); cbn;
    (eexists _, _; split; [reflexivity|]); cbn; repeat split; try done; intros; by simplify_eq.
Qed.

Lemma file_seek_spec p f :
  exists ok f', file_seek p f = (Ok ok, f') /\ f_data f' = f_data f /\
    (f_faults f = [] -> ok = true /\ f_faults f' = []) /\ (ok = true -> f_pos f' = p).
Proof.
  unfold file_seek, bind, next_fault, modify, ret.
  destruct (f_faults f) as [|[k|] fs] eqn:Ef; simpl; (eexists _, _; split; [reflexivity|]);
    simpl; repeat split; intros; by simplify_eq.
Qed.

(** Enough iterations remain for the rest of a descriptor. *)
Definition fuel_ok (fuel : nat) (rest sc : N) : Prop :=
  (0 < fuel)%nat /\ rest <= N.of_nat (fuel - 1) * sc.

Lemma part_fuel_ok len sc : 0 < sc \/ len = 0 -> fuel_ok (part_fuel len sc) len sc.
Proof.
  intros [Hsc| ->]; [|split; [apply Nat.lt_0_succ|apply N.le_0_l]]. unfold fuel_ok, part_fuel. split; [apply Nat.lt_0_succ|].
  replace (N.max 1 sc) with sc by lia.
  pose proof (N.div_mod' len sc). pose proof (N.mod_lt len sc ltac:(lia)).
  generalize dependent (len / sc). intros q Hq.
  replace (N.of_nat _) with (q + 1) by lia. lia.
Qed.

Lemma fuel_ok_step fuel rest sc : 0 < rest ->
  fuel_ok (S fuel) rest sc -> fuel_ok fuel (rest - N.min rest sc) sc.
Proof.
  intros Hr [_ H]. unfold fuel_ok. destruct fuel as [|fuel]; [simpl in H; lia|].
  split; [lia|]. replace (N.of_nat (S (S fuel) - 1)) with (1 + N.of_nat fuel) in H by lia.
  replace (N.of_nat (S fuel - 1)) with (N.of_nat fuel) by lia.
  rewrite N.mul_add_distr_r in H. lia.
Qed.

Lemma on_file_eq {A} (m : M File A) s o f :
  m (io_file s) = (o, f) ->
  on_file m s = (o, {| io_mem := io_mem s;
    io_backend := {| file := f; b_capacity_sectors := b_capacity_sectors (io_backend s);
                     read_only := read_only (io_backend s) |};
    scratch_len := scratch_len s |}).
Proof. intros H. unfold on_file, zoom, io_file in *. by rewrite H. Qed.

Lemma on_mem_eq {A} (m : M GuestMemory A) s o x :
  m (io_mem s) = (o, x) ->
  on_mem m s = (o, {| io_mem := x; io_backend := io_backend s; scratch_len := scratch_len s |}).
Proof. intros H. unfold on_mem, zoom. by rewrite H. Qed.

Lemma blkio_eta s :
  {| io_mem := io_mem s; io_backend := io_backend s; scratch_len := scratch_len s |} = s.
Proof. by destruct s. Qed.

Lemma slice_chunk {A} (i a b c : N) (l : list A) : a + c <= b ->
  slice (N.to_nat (i + a)) (N.to_nat (b - a)) l =
  slice (N.to_nat (i + a)) (N.to_nat c) l ++
  slice (N.to_nat (i + (a + c))) (N.to_nat (b - (a + c))) l.
Proof.
  intros. replace (N.to_nat (b - a)) with (N.to_nat c + N.to_nat (b - (a + c)))%nat by lia.
  rewrite slice_app_split. do 2 f_equal. lia.
Qed.

(** Writing the rest of a descriptor to the file. *)
Lemma io_part_out fuel gpa len done written s :
  done <= len -> fuel_ok fuel (len - done) (scratch_len s) ->
  in_ram (io_mem s) gpa len = true -> f_pos (io_file s) + (len - done) <= f_len (io_file s) ->
  exists go s', io_part fuel false gpa len done written s = (Ok (go, written), s') /\
    same_backend s s' /\ io_mem s' = io_mem s /\
    same_outside (N.to_nat (f_pos (io_file s))) (N.to_nat (len - done))
      (f_data (io_file s)) (f_data (io_file s')) /\
    (f_faults (io_file s) = [] -> go = true /\ f_faults (io_file s') = []) /\
    (go = true ->
       f_data (io_file s') = splice (N.to_nat (f_pos (io_file s)))
         (slice (N.to_nat (gpa + done)) (N.to_nat (len - done)) (ram (io_mem s)))
         (f_data (io_file s)) /\
       f_pos (io_file s') = f_pos (io_file s) + (len - done)).
Proof.
  revert done s. induction fuel as [|fuel IH]; intros done s Hd Hf Hram Hfit.
  { destruct Hf; lia. }
  pose proof Hram as Hram'. apply in_ram_spec in Hram as [Hw Hin].
  unfold mem_len, lenN in Hin. unfold f_len, lenN in Hfit.
  cbn [io_part]. destruct (N.ltb_spec done len) as [Hlt|Hge].
  2:{ exists true, s. replace (len - done) with 0 by lia. change (N.to_nat 0) with 0%nat.
      rewrite slice_zero, splice_nil by lia.
      split; [done|]. split; [done|]. split; [done|]. split; [done|]. split; [done|].
      intros _. split; [done|lia]. }
  unfold bind at 1, get at 1. cbn [scratch_len].
  set (n := N.min (len - done) (scratch_len s)).
  rewrite add64_small by lia.
  assert (read_at (gpa + done) n (io_mem s) =
    (Ok (slice (N.to_nat (gpa + done)) (N.to_nat n) (ram (io_mem s))), io_mem s)) as Hr.
  { rewrite read_at_eq. assert (in_ram (io_mem s) (gpa + done) n = true) as ->; [|done].
    apply in_ram_spec. unfold mem_len, lenN. lia. }
  set (buf := slice _ _ _) in Hr.
  assert (length buf = N.to_nat n) as Hbuf by (apply length_slice; lia).
  unfold bind at 1. rewrite (on_mem_eq _ _ _ _ Hr), blkio_eta.
  destruct (file_write_all_spec buf (io_file s)) as (ok & f' & Hw' & Hout & Hnf & Hok); [lia|].
  unfold bind at 1. rewrite (on_file_eq _ _ _ _ Hw').
  set (s1 := Build_BlkIo _ _ _).
  destruct ok.
  - destruct (Hok eq_refl) as [Hdata Hpos]. clear Hok.
    assert (length (f_data f') = length (f_data (io_file s))) as Hlen by apply Hout.
    destruct (IH (done + n) s1) as (go & s' & Hrun & Hsb & Hm & Hout' & Hnf' & Hgo).
    + lia.
    + replace (len - (done + n)) with (len - done - n) by lia. apply fuel_ok_step; [lia|done].
    + done.
    + unfold f_len, io_file, lenN. simpl. rewrite Hpos, Hlen. unfold lenN. lia.
    + exists go, s'. split; [done|]. split; [by eapply same_backend_trans|].
      split; [by rewrite Hm|]. unfold io_file at 1 2 in Hout'. simpl in Hout'.
      rewrite Hpos in Hout'. unfold lenN in Hout'. split.
      { eapply (same_outside_trans (N.to_nat (f_pos (io_file s))) (length buf)
          (N.to_nat (f_pos (io_file s) + N.of_nat (length buf))) (N.to_nat (len - (done + n))));
          [lia|lia|lia|lia|exact Hout|exact Hout']. }
      split; [intros Hz; apply Hnf'; by apply Hnf|]. intros Hg.
      destruct (Hgo Hg) as [Hd' Hp']. unfold io_file at 2 3 in Hd'. unfold io_file at 2 in Hp'.
      simpl in Hd', Hp'. rewrite Hpos in Hd', Hp'. unfold lenN in *. rewrite Hbuf in *.
      split; [|lia]. rewrite Hd', Hdata, (slice_chunk gpa done len n) by lia. fold buf.
      rewrite <- splice_app; [|rewrite Hbuf, length_slice; lia]. rewrite Hbuf.
      f_equal. lia.
  - exists false, s1. split; [done|]. split; [done|]. split; [done|].
    split; [|split; [intros Hz; by destruct (Hnf Hz)|done]].
    eapply (same_outside_trans _ (length buf) (N.to_nat (f_pos (io_file s))) 0);
      [..|exact Hout|apply same_outside_refl]; lia.
Qed.

Lemma write_at_in_ram gpa d m : in_ram m gpa (lenN d) = true ->
  write_at gpa d m = (Ok tt, {| ram := splice (N.to_nat gpa) d (ram m) |}).
Proof. intros E. by rewrite write_at_eq, E. Qed.

(** Reading the rest of a descriptor from the file. *)
Lemma io_part_in fuel gpa len done written s :
  done <= len -> fuel_ok fuel (len - done) (scratch_len s) ->
  in_ram (io_mem s) gpa len = true -> f_pos (io_file s) + (len - done) <= f_len (io_file s) ->
  exists go w s', io_part fuel true gpa len done written s = (Ok (go, w), s') /\
    same_backend s s' /\ f_data (io_file s') = f_data (io_file s) /\
    mem_frame (in_range gpa len) (io_mem s) (io_mem s') /\
    (f_faults (io_file s) = [] -> go = true /\ f_faults (io_file s') = []) /\
    (go = true ->
       ram (io_mem s') = splice (N.to_nat (gpa + done))
         (slice (N.to_nat (f_pos (io_file s))) (N.to_nat (len - done)) (f_data (io_file s)))
         (ram (io_mem s)) /\
       f_pos (io_file s') = f_pos (io_file s) + (len - done) /\
       (written + (len - done) < 2 ^ 32 -> w = written + (len - done))).
Proof.
  revert done written s. induction fuel as [|fuel IH]; intros done written s Hd Hf Hram Hfit.
  { destruct Hf; lia. }
  pose proof Hram as Hram'. apply in_ram_spec in Hram as [Hw Hin].
  pose proof Hin as Hin'. unfold mem_len, lenN in Hin. pose proof Hfit as Hfit'. unfold f_len, lenN in Hfit.
  cbn [io_part]. destruct (N.ltb_spec done len) as [Hlt|Hge].
  2:{ exists true, written, s. replace (len - done) with 0 by lia. change (N.to_nat 0) with 0%nat.
      rewrite slice_zero, splice_nil by lia.
      split; [done|]. split; [done|]. split; [done|]. split; [reflexivity|]. split; [done|].
      intros _. split; [done|]. split; lia. }
  unfold bind at 1, get at 1. cbn [scratch_len].
  set (n := N.min (len - done) (scratch_len s)). rewrite add64_small by lia.
  destruct (file_read_exact_spec n (io_file s)) as (r & f' & Hr & Hdata & Hnf & Hok); [lia|].
  unfold bind at 1. rewrite (on_file_eq _ _ _ _ Hr). set (s1 := Build_BlkIo _ _ _).
  destruct r as [buf|].
  - destruct (Hok buf eq_refl) as [Hbuf Hpos]. clear Hok.
    assert (length buf = N.to_nat n) as Hlb by (rewrite Hbuf; apply length_slice; lia).
    unfold bind at 1.
    assert (write_at (gpa + done) buf (io_mem s1) =
      (Ok tt, {| ram := splice (N.to_nat (gpa + done)) buf (ram (io_mem s)) |})) as Hwr.
    { apply write_at_in_ram, in_ram_spec. unfold lenN. simpl. lia. }
    rewrite (on_mem_eq _ _ _ _ Hwr). set (s2 := Build_BlkIo _ _ _).
    assert (mem_frame (in_range gpa len) (io_mem s) (io_mem s2)) as Hfr.
    { pose proof (write_at_frame (in_range gpa len) (gpa + done) buf) as H.
      specialize (H ltac:(unfold in_range, lenN; lia) (io_mem s)).
      by change (io_mem s1) with (io_mem s) in Hwr; rewrite Hwr in H. }
    destruct (IH (done + n) (U.add 32 written n) s2) as (go & w & s' & Hrun & Hsb & Hd' & Hm & Hnf' & Hgo).
    + lia.
    + replace (len - (done + n)) with (len - done - n) by lia. apply fuel_ok_step; [lia|done].
    + rewrite (in_ram_frame _ _ _ _ _ Hfr). done.
    + unfold f_len, io_file. simpl. rewrite Hpos, Hdata. unfold lenN. lia.
    + exists go, w, s'. split; [done|]. split; [by eapply same_backend_trans|].
      split; [rewrite Hd'; apply Hdata|]. split; [by etransitivity|].
      split; [intros Hz; apply Hnf'; by apply Hnf|]. intros Hg.
      destruct (Hgo Hg) as (Hram2 & Hp' & Hwv).
      unfold io_file at 1 2 in Hram2. unfold io_file at 2 in Hp'. simpl in Hram2, Hp'.
      rewrite Hpos in Hram2, Hp'. rewrite Hdata in Hram2.
      split; [|split; [lia|]].
      * rewrite Hram2.
        replace (slice (N.to_nat (f_pos (io_file s))) (N.to_nat (len - done)) (f_data (io_file s)))
          with (buf ++ slice (N.to_nat (f_pos (io_file s) + n)) (N.to_nat (len - (done + n)))
                  (f_data (io_file s))).
        2:{ rewrite Hbuf. replace (N.to_nat (len - done)) with
              (N.to_nat n + N.to_nat (len - (done + n)))%nat by lia.
            rewrite slice_app_split. do 2 f_equal. lia. }
        rewrite <- splice_app; [|rewrite Hlb, length_slice; lia]. rewrite Hlb.
        f_equal. lia.
      * intros Hlt32. unfold U.add in Hwv. rewrite wrap_small in Hwv by (unfold in_u; lia). lia.
  - exists false, written, s1. split; [done|]. split; [done|]. split; [apply Hdata|].
    split; [reflexivity|]. split; [|done]. intros Hz. destruct (Hnf Hz) as [[? ?] _]. done.
Qed.

(** ** Reference semantics of the data phase *)

(** The bytes the guest's data descriptors hold, in order. *)
Definition gather_ref (r : bytes) (ps : list part) : bytes :=
  concat (map (fun p => slice (N.to_nat p.1.1) (N.to_nat p.1.2) r) ps).

(** RAM after [src] is laid out over the data descriptors, in order. *)
Fixpoint scatter_ref (ps : list part) (src r : bytes) : bytes :=
  match ps with
  | [] => r
  | (gpa, len, _) :: ps =>
      scatter_ref ps (drop (N.to_nat len) src) (splice (N.to_nat gpa) (take (N.to_nat len) src) r)
  end.

(** The addresses of a list of descriptors. *)
Definition parts_range (ps : list part) (a : N) : Prop :=
  Exists (fun p => in_range p.1.1 p.1.2 a) ps.

Lemma part_ok_in_ram m dw p : part_ok (mem_len m) dw p -> in_ram m p.1.1 p.1.2 = true.
Proof. intros (_ & ? & ?). by apply in_ram_spec. Qed.

Lemma total_len_cons p ps : total_len (p :: ps) = p.1.2 + total_len ps.
Proof. done. Qed.

Lemma length_gather_ref m dw ps : Forall (part_ok (mem_len m) dw) ps ->
  length (gather_ref (ram m) ps) = N.to_nat (total_len ps).
Proof.
  induction 1 as [|p ps Hp Hps IH]; [done|]. unfold gather_ref in *. cbn [map concat].
  rewrite length_app, IH, total_len_cons, length_slice; [lia|].
  by apply in_ram_nat, (part_ok_in_ram _ dw).
Qed.

Lemma io_parts_out ps written s dw :
  Forall (part_ok (mem_len (io_mem s)) dw) ps -> 0 < scratch_len s \/ total_len ps = 0 ->
  f_pos (io_file s) + total_len ps <= f_len (io_file s) ->
  exists st s', io_parts false ps written s = (Ok (st, written), s') /\
    same_backend s s' /\ io_mem s' = io_mem s /\
    same_outside (N.to_nat (f_pos (io_file s))) (N.to_nat (total_len ps))
      (f_data (io_file s)) (f_data (io_file s')) /\
    (f_faults (io_file s) = [] -> st = VIRTIO_BLK_S_OK) /\
    (st = VIRTIO_BLK_S_OK ->
       f_data (io_file s') = splice (N.to_nat (f_pos (io_file s)))
         (gather_ref (ram (io_mem s)) ps) (f_data (io_file s))).
Proof.
  revert s. induction ps as [|[[gpa len] w] ps IH]; intros s Hps Hsc Hfit.
  { exists VIRTIO_BLK_S_OK, s. unfold f_len, lenN in Hfit.
    unfold gather_ref. simpl. rewrite splice_nil by lia. by repeat split. }
  inversion Hps as [|? ? Hp Hps']; subst. rewrite total_len_cons in *. simpl in Hfit, Hsc.
  cbn [io_parts]. unfold bind at 1, get at 1.
  destruct (io_part_out (part_fuel len (scratch_len s)) gpa len 0 written s)
    as (go & s1 & Hrun & Hsb & Hm & Hout & Hnf & Hgo); [lia| |by apply (part_ok_in_ram _ dw) in Hp|lia|].
  { rewrite N.sub_0_r. apply part_fuel_ok. lia. }
  rewrite N.sub_0_r, ?N.add_0_r in *. unfold bind at 1. rewrite Hrun. cbn [fst snd].
  destruct go.
  - destruct (Hgo eq_refl) as [Hd1 Hp1]. destruct (Hout) as [Hl1 _].
    assert (f_len (io_file s1) = f_len (io_file s)) as Hfl by (unfold f_len, lenN; by rewrite Hl1).
    destruct (IH s1) as (st & s' & Hrun' & Hsb' & Hm' & Hout' & Hnf' & Hok).
    { by rewrite Hm. } { destruct Hsb as (_ & _ & ->). lia. } { lia. }
    exists st, s'. split; [done|]. split; [by eapply same_backend_trans|].
    split; [congruence|]. rewrite Hp1 in Hout'. split.
    { eapply same_outside_trans; [..|exact Hout|exact Hout']; lia. }
    split; [intros Hz; apply Hnf'; by apply Hnf|].
    intros Hst. rewrite (Hok Hst), Hd1, Hp1, Hm. unfold gather_ref. cbn [map concat fst snd].
    assert (length (slice (N.to_nat gpa) (N.to_nat len) (ram (io_mem s))) = N.to_nat len) as Hls
      by (apply length_slice, in_ram_nat, (part_ok_in_ram _ dw _ Hp)).
    rewrite <- splice_app; rewrite Hls.
    + f_equal. lia.
    + pose proof (length_gather_ref (io_mem s) dw ps Hps') as Hg. unfold gather_ref in Hg.
      rewrite Hg. unfold f_len, lenN in Hfit. lia.
  - exists VIRTIO_BLK_S_IOERR, s1. split; [done|]. split; [done|]. split; [done|].
    split; [|split; [intros Hz; by destruct (Hnf Hz)|done]].
    eapply (same_outside_trans _ (N.to_nat len) (N.to_nat (f_pos (io_file s))) 0);
      [..|exact Hout|apply same_outside_refl]; lia.
Qed.

Lemma io_parts_in ps written s dw :
  Forall (part_ok (mem_len (io_mem s)) dw) ps -> 0 < scratch_len s \/ total_len ps = 0 ->
  f_pos (io_file s) + total_len ps <= f_len (io_file s) -> written + total_len ps < 2 ^ 32 ->
  exists st w s', io_parts true ps written s = (Ok (st, w), s') /\
    same_backend s s' /\ f_data (io_file s') = f_data (io_file s) /\
    mem_frame (parts_range ps) (io_mem s) (io_mem s') /\
    (f_faults (io_file s) = [] -> st = VIRTIO_BLK_S_OK) /\
    (st = VIRTIO_BLK_S_OK ->
       ram (io_mem s') = scatter_ref ps
         (slice (N.to_nat (f_pos (io_file s))) (N.to_nat (total_len ps)) (f_data (io_file s)))
         (ram (io_mem s)) /\ w = written + total_len ps).
Proof.
  revert written s. induction ps as [|[[gpa len] w] ps IH]; intros written s Hps Hsc Hfit H32.
  { exists VIRTIO_BLK_S_OK, written, s. split; [done|]. split; [done|]. split; [done|].
    split; [reflexivity|]. split; [done|]. intros _. split; [done|]. unfold total_len. simpl. lia. }
  inversion Hps as [|? ? Hp Hps']; subst. rewrite total_len_cons in *. simpl in Hfit, Hsc, H32.
  cbn [io_parts]. unfold bind at 1, get at 1.
  destruct (io_part_in (part_fuel len (scratch_len s)) gpa len 0 written s)
    as (go & w1 & s1 & Hrun & Hsb & Hd1 & Hm & Hnf & Hgo);
    [lia| |by apply (part_ok_in_ram _ dw) in Hp|lia|].
  { rewrite N.sub_0_r. apply part_fuel_ok. lia. }
  rewrite N.sub_0_r, ?N.add_0_r in *. unfold bind at 1. rewrite Hrun. cbn [fst snd].
  assert (mem_frame (parts_range ((gpa, len, w) :: ps)) (io_mem s) (io_mem s1)) as Hm1.
  { eapply mem_frame_mono; [|exact Hm]. intros a Ha. by left. }
  destruct go.
  - destruct (Hgo eq_refl) as (Hr1 & Hp1 & Hw1).
    assert (f_len (io_file s1) = f_len (io_file s)) as Hfl by (unfold f_len; by rewrite Hd1).
    destruct (IH w1 s1) as (st & w' & s' & Hrun' & Hsb' & Hd' & Hm' & Hnf' & Hok).
    { by rewrite (mem_frame_len _ _ _ Hm). } { destruct Hsb as (_ & _ & ->). lia. } { lia. }
    { rewrite Hw1; lia. }
    exists st, w', s'. split; [done|]. split; [by eapply same_backend_trans|].
    split; [congruence|]. split.
    { etransitivity; [exact Hm1|]. eapply mem_frame_mono; [|exact Hm']. intros a Ha. by right. }
    split; [intros Hz; apply Hnf'; by apply Hnf|].
    intros Hst. destruct (Hok Hst) as [Hr' Hw']. split; [|lia].
    rewrite Hr', Hr1, Hp1, Hd1. cbn [scatter_ref].
    rewrite N2Nat.inj_add, (N2Nat.inj_add len), slice_app_split.
    unfold f_len, lenN in Hfit.
    rewrite drop_app_length', take_app_length'; [done|..]; rewrite length_slice; lia.
  - exists VIRTIO_BLK_S_IOERR, w1, s1. split; [done|]. split; [done|]. split; [done|].
    split; [done|]. split; [intros Hz; by destruct (Hnf Hz)|done].
Qed.

(** ** Whole requests *)

(** The advertised capacity is the size of the image. *)
Definition backend_ok (b : BlockBackend) : Prop :=
  b_capacity_sectors b * SECTOR_SIZE = f_len (file b) /\ f_len (file b) < 2 ^ 64.

#[global] Instance backend_ok_dec b : Decision (backend_ok b).
Proof. unfold backend_ok. apply _. Defined.

Lemma open_backend_ok data ro b :
  lenN data < 2 ^ 64 -> open_backend data ro = Ok b -> backend_ok b.
Proof.
  intros Hlen. unfold open_backend. 
  repeat match goal with |- (if ?b then Err _ else _) = _ -> _ => destruct b eqn:?; [done|] end.
  intros [= <-]. unfold backend_ok, f_len. simpl.
  match goal with H : _ || negb _ = false |- _ =>
    apply orb_false_iff in H as [_ H%negb_false_iff%N.eqb_eq] end.
  unfold SECTOR_SIZE in *. split; [|done]. dlia.
Qed.

Lemma foldr_max_le ls x : In x ls -> x <= foldr N.max 0 ls.
Proof. induction ls as [|y ls IH]; simpl; [done|]. intros [->|H]; [lia|]. specialize (IH H). lia. Qed.

Lemma chunk_of_pos ps : 0 < chunk_of ps \/ total_len ps = 0.
Proof.
  unfold chunk_of, total_len, IO_CHUNK_SIZE. induction ps as [|p ps IH]; simpl; [by right|]. lia.
Qed.

(** The device-writable bytes of a chain. *)
Definition writable_range (ps : list part) (a : N) : Prop :=
  Exists (fun p => p.2 = true /\ in_range p.1.1 p.1.2 a) ps.

Lemma parts_range_writable m ps a :
  Forall (part_ok m true) ps -> parts_range ps a -> writable_range ps a.
Proof.
  intros Hps Ha. unfold parts_range, writable_range in *. rewrite !List.Exists_exists in *.
  destruct Ha as (p & Hin & Hr). exists p. split; [done|]. split; [|done].
  rewrite List.Forall_forall in Hps. by destruct (Hps p Hin).
Qed.

(** What no request changes, whatever it asks and whatever the host injects. *)
Definition disk_kept (s s' : BlkIo) : Prop :=
  b_capacity_sectors (io_backend s') = b_capacity_sectors (io_backend s) /\
  read_only (io_backend s') = read_only (io_backend s) /\
  length (f_data (io_file s')) = length (f_data (io_file s)) /\
  (read_only (io_backend s) = true -> f_data (io_file s') = f_data (io_file s)).

#[global] Instance disk_kept_preorder : PreOrder disk_kept.
Proof.
  unfold disk_kept. split.
  - intros s. by repeat split.
  - intros s1 s2 s3 (?&?&?&H3) (?&?&?&H6). repeat split; try congruence.
    intros Hr. rewrite H6, H3 by congruence. done.
Qed.

Lemma disk_kept_same s s' :
  same_backend s s' -> f_data (io_file s') = f_data (io_file s) -> disk_kept s s'.
Proof. intros (?&?&?) Hd. unfold disk_kept. rewrite Hd. by repeat split. Qed.

(** The data phase of a validated read or write. *)
Lemma run_request_io ty sector ps s :
  ty = VIRTIO_BLK_T_IN \/ ty = VIRTIO_BLK_T_OUT -> backend_ok (io_backend s) ->
  valid_io_request (io_mem s) (io_backend s) ps sector (ty =? VIRTIO_BLK_T_IN) = true ->
  let off := N.to_nat (sector * SECTOR_SIZE) in
  exists st w s', run_request ty sector ps s = (Ok (st, w), s') /\ disk_kept s s' /\
    mem_frame (writable_range ps) (io_mem s) (io_mem s') /\
    (ty = VIRTIO_BLK_T_IN -> f_data (io_file s') = f_data (io_file s)) /\
    (f_faults (io_file s) = [] -> (ty = VIRTIO_BLK_T_OUT -> read_only (io_backend s) = false) ->
       st = VIRTIO_BLK_S_OK) /\
    (st = VIRTIO_BLK_S_OK ->
       if ty =? VIRTIO_BLK_T_IN
       then ram (io_mem s') = scatter_ref ps
              (slice off (N.to_nat (total_len ps)) (f_data (io_file s))) (ram (io_mem s)) /\
            w = total_len ps
       else io_mem s' = io_mem s /\ w = 0 /\
            f_data (io_file s') = splice off (gather_ref (ram (io_mem s)) ps) (f_data (io_file s))).
Proof.
  intros Hty [Hcap Hlen] Hv off.
  apply valid_io_request_spec in Hv as (Hps & _ & Ht & Hfit); [|rewrite Hcap; done].
  rewrite Hcap in Hfit. unfold run_request.
  assert ((ty =? VIRTIO_BLK_T_IN) || (ty =? VIRTIO_BLK_T_OUT) = true) as -> by (by destruct Hty; subst).
  unfold bind at 1, get at 1.
  destruct (negb _ && read_only _) eqn:Ero.
  { apply andb_true_iff in Ero as [Er1%negb_true_iff Er2]. unfold ret.
    exists VIRTIO_BLK_S_IOERR, 0, s. rewrite Er1.
    split; [done|]. split; [reflexivity|]. split; [reflexivity|]. split; [done|].
    split; [|done]. intros _ Hro. destruct Hty as [->| ->]; [done|]. by rewrite Hro in Er2. }
  unfold bind at 1, modify at 1.
  set (s1 := if scratch_len s <? chunk_of ps then _ else _).
  assert (io_mem s1 = io_mem s /\ io_backend s1 = io_backend s /\
          (0 < scratch_len s1 \/ total_len ps = 0)) as (Hm1 & Hb1 & Hsc1).
  { unfold s1. destruct (N.ltb_spec (scratch_len s) (chunk_of ps)); simpl;
      pose proof (chunk_of_pos ps); (split; [done|]; split; [done|]); lia. }
  assert (U.mul 64 sector SECTOR_SIZE = sector * SECTOR_SIZE) as ->.
  { apply wrap_small. unfold in_u, io_file in *. lia. }
  unfold bind at 1.
  destruct (file_seek_spec (sector * SECTOR_SIZE) (io_file s1)) as (ok & f1 & Es & Hd & Hnf & Hpos).
  assert (io_file s1 = io_file s) as Hf1 by (unfold io_file; by rewrite Hb1).
  rewrite Hf1 in Hd, Hnf.
  rewrite (on_file_eq _ _ _ _ Es). set (s2 := Build_BlkIo _ _ _).
  assert (disk_kept s s2 /\ io_mem s2 = io_mem s /\ f_data (io_file s2) = f_data (io_file s)) as (Hk2 & Hm2 & Hd2).
  { unfold disk_kept, s2, io_file in *. simpl. rewrite Hb1, Hm1, Hd. by repeat split. }
  destruct ok.
  2:{ exists VIRTIO_BLK_S_IOERR, 0, s2. split; [done|]. split; [done|].
      split; [by rewrite Hm2|]. split; [done|]. split; [|done]. intros Hz _. by destruct (Hnf Hz). }
  assert (f_pos (io_file s2) = sector * SECTOR_SIZE) as Hp2 by (by apply Hpos).
  assert (f_pos (io_file s2) + total_len ps <= f_len (io_file s2)) as Hfit2.
  { rewrite Hp2. unfold f_len, lenN, io_file in *. rewrite Hd2. done. }
  assert (Forall (part_ok (mem_len (io_mem s2)) (ty =? VIRTIO_BLK_T_IN)) ps) as Hps2 by (by rewrite Hm2).
  destruct Hty as [-> | ->].
  - change (VIRTIO_BLK_T_IN =? VIRTIO_BLK_T_IN) with true in *.
    destruct (io_parts_in ps 0 s2 true) as (st & w & s' & Hrun & Hsb & Hdd & Hm & Hz & Hok);
      [done|done|done|lia|].
    exists st, w, s'. split; [done|].
    split; [etransitivity; [exact Hk2|by apply disk_kept_same]|].
    split; [rewrite <- Hm2; eapply mem_frame_mono; [|exact Hm]; intros a; by eapply parts_range_writable|].
    split; [by rewrite Hdd|]. split; [intros Hf _; apply Hz; by apply Hnf|].
    intros Hst. destruct (Hok Hst) as [Hr Hw]. rewrite Hp2, Hd2, Hm2 in Hr. split; [done|lia].
  - change (VIRTIO_BLK_T_OUT =? VIRTIO_BLK_T_IN) with false in *. simpl in Ero.
    destruct (io_parts_out ps 0 s2 false) as (st & s' & Hrun & Hsb & Hm & Hout & Hz & Hok);
      [done|done|done|].
    exists st, 0, s'. split; [done|]. split.
    { etransitivity; [exact Hk2|]. destruct Hsb as (?&?&?), Hout as [Hl _]. unfold disk_kept.
      split; [done|]. split; [done|]. split; [done|]. intros Hr.
      destruct Hk2 as (_ & Hk & _). congruence. }
    split; [by rewrite Hm, Hm2|]. split; [done|].
    split; [intros Hf _; apply Hz; by apply Hnf|].
    intros Hst. rewrite (Hok Hst), Hp2, Hd2, Hm2. by rewrite Hm.
Qed.

Lemma middle_spec {A} (x y : A) l : middle (x :: l ++ [y]) = l.
Proof.
  unfold middle, slice. cbn [length drop]. rewrite length_app. cbn [length].
  replace (S (length l + 1) - 2)%nat with (length l) by lia. by apply take_app_length'.
Qed.

Lemma last_map_Some {A} (l : list A) x : List.last (map Some l) None = Some x -> In x l.
Proof.
  induction l as [|y [|z l] IH]; [done|simpl; intros [= ->]; by left|]. intros H. right. by apply IH.
Qed.

Lemma last_snoc_Some {A} (l : list A) x y : List.last (map Some (y :: l ++ [x])) None = Some x.
Proof.
  change (y :: l ++ [x]) with ((y :: l) ++ [x]). rewrite map_app. simpl map at 2. apply last_last.
Qed.

Lemma in_middle {A} (l : list A) x : In x (middle l) -> In x l.
Proof.
  unfold middle, slice. intros H. rewrite <- (firstn_skipn 1 l). apply in_or_app. right.
  rewrite <- (firstn_skipn (length l - 2) (drop 1 l)). apply in_or_app. by left.
Qed.

Lemma writable_range_incl ps qs a :
  (forall p, In p ps -> In p qs) -> writable_range ps a -> writable_range qs a.
Proof.
  intros Hin. unfold writable_range. rewrite !List.Exists_exists. intros (p & ? & ?). eauto.
Qed.

Lemma on_mem_mrel_kept {A} (m : M GuestMemory A) : mrel disk_kept (on_mem m).
Proof. apply mrel_zoom. intros s. unfold disk_kept, io_file. simpl. by repeat split. Qed.

(** Request bodies other than reads and writes. *)
Lemma run_request_other ty sector ps s :
  ty <> VIRTIO_BLK_T_IN -> ty <> VIRTIO_BLK_T_OUT ->
  exists o s', run_request ty sector ps s = (o, s') /\ returns o /\ disk_kept s s' /\
    mem_frame (writable_range ps) (io_mem s) (io_mem s').
Proof.
  intros Hi Ho. unfold run_request.
  rewrite (proj2 (N.eqb_neq _ _) Hi), (proj2 (N.eqb_neq _ _) Ho). cbn [orb].
  assert (forall (r : u8 * u32) , exists o s', @ret BlkIo _ r s = (o, s') /\ returns o /\ disk_kept s s' /\
    mem_frame (writable_range ps) (io_mem s) (io_mem s')) as Hret.
  { intros r. unfold ret. eexists _, _. split; [done|]. split; [done|]. by split. }
  destruct (ty =? _).
  { unfold bind, on_file, zoom, file_sync, bind, next_fault, ret.
    destruct (f_faults _) as [|x fs] eqn:Ef; simpl; (eexists _, _; split; [reflexivity|]);
      (split; [done|]); unfold disk_kept, io_file; simpl; by repeat split. }
  destruct (ty =? _); [|apply Hret]. destruct ps as [|[[gpa len] []] ps]; [apply Hret| |apply Hret].
  unfold bind. destruct (on_mem _ s) as [o s'] eqn:E.
  pose proof (on_mem_mrel_kept (write_at gpa (take (N.to_nat (N.min (lenN blk_id) len)) blk_id)) s) as Hk.
  rewrite E in Hk. unfold on_mem, zoom in E. rewrite write_at_eq in E.
  pose proof (write_at_frame (writable_range ((gpa, len, true) :: ps)) gpa
    (take (N.to_nat (N.min (lenN blk_id) len)) blk_id)) as Hf.
  specialize (Hf ltac:(intros a Ha; left; split; [done|]; revert Ha;
    unfold in_range, lenN; rewrite length_take; simpl; lia) (io_mem s)).
  rewrite write_at_eq in Hf.
  destruct (in_ram _ _ _); injection E as <- <-; (eexists _, _; split; [reflexivity|]);
    (split; [done|]); by split.
Qed.

(** Any request on any chain, with any faults. *)
Lemma process_request_safe_aux chain s : backend_ok (io_backend s) ->
  exists o s', process_request chain s = (o, s') /\ returns o /\ disk_kept s s' /\
    mem_frame (writable_range (parts chain)) (io_mem s) (io_mem s').
Proof.
  intros Hb. unfold process_request. set (ps := parts chain).
  assert (forall (n : u32), exists o s', @ret BlkIo _ n s = (o, s') /\ returns o /\ disk_kept s s' /\
    mem_frame (writable_range ps) (io_mem s) (io_mem s')) as Hret.
  { intros n. unfold ret. eexists _, _. split; [done|]. split; [done|]. by split. }
  destruct ps as [|[[hg hl] hw] [|p ps']] eqn:Eps; try apply Hret.
  destruct (List.last _ None) as [[[sg sl] sw]|] eqn:El; [|apply Hret].
  apply last_map_Some in El. destruct (_ || hw); [apply Hret|].
  unfold bind at 1. unfold on_mem at 1, zoom. rewrite read_at_state.
  destruct (read_at hg 16 (io_mem s)).1 as [hdr|e| |] eqn:Er; rewrite ?blkio_eta;
    try (eexists _, _; split; [done|]; split; [done|]; by split);
    try (rewrite read_at_eq in Er; by destruct (in_ram _ _ _)).
  set (ty := from_le (slice 0 4 hdr)). set (sector := from_le (slice 8 8 hdr)).
  destruct (negb sw || _) eqn:Esw; [apply Hret|].
  apply orb_false_iff in Esw as [Hsw%negb_false_iff Hsl%N.ltb_ge]. subst sw.
  unfold bind at 1, get at 1.
  (* writing the status byte, from any state reached so far *)
  assert (forall st (n : u32) s1, disk_kept s s1 -> mem_frame (writable_range ps) (io_mem s) (io_mem s1) ->
    exists o s', bind (on_mem (write_at sg [st])) (fun _ => ret n) s1 = (o, s') /\ returns o /\
      disk_kept s s' /\ mem_frame (writable_range ps) (io_mem s) (io_mem s')) as Hst.
  { intros st n s1 Hk Hm. unfold bind. destruct (on_mem (write_at sg [st]) s1) as [o s'] eqn:E.
    pose proof (on_mem_mrel_kept (write_at sg [st]) s1) as Hk'. rewrite E in Hk'.
    unfold on_mem, zoom in E.
    pose proof (write_at_frame (writable_range ps) sg [st]) as Hf.
    specialize (Hf ltac:(intros a Ha; unfold writable_range; apply List.Exists_exists;
      exists (sg, sl, true); rewrite Eps; split; [done|]; split; [done|];
      revert Ha; unfold in_range, lenN; simpl; lia) (io_mem s1)).
    rewrite write_at_eq in E, Hf.
    destruct (in_ram _ _ _); injection E as <- <-; (eexists _, _; split; [reflexivity|]);
      (split; [done|]); split; by etransitivity. }
  rewrite <- Eps in *. clear Hret.
  destruct (_ && _) eqn:Ev; [by apply Hst|].
  assert (exists o s1, run_request ty sector (middle ps) s = (o, s1) /\ returns o /\ disk_kept s s1 /\
    mem_frame (writable_range (middle ps)) (io_mem s) (io_mem s1)) as (o & s1 & Hrun & Ho & Hk & Hm).
  { destruct (decide (ty = VIRTIO_BLK_T_IN \/ ty = VIRTIO_BLK_T_OUT)) as [Hty|Hty].
    - assert (valid_io_request (io_mem s) (io_backend s) (middle ps) sector (ty =? VIRTIO_BLK_T_IN) = true) as Hv.
      { by destruct Hty as [Hty|Hty]; rewrite Hty in Ev |- *; simpl in Ev; apply negb_false_iff in Ev. }
      destruct (run_request_io ty sector (middle ps) s Hty Hb Hv) as (st & w & s1 & -> & ? & ? & _).
      by eexists _, _.
    - apply run_request_other; tauto. }
  unfold bind at 1. rewrite Hrun.
  assert (mem_frame (writable_range ps) (io_mem s) (io_mem s1)) as Hm'.
  { eapply mem_frame_mono; [|exact Hm]. intros a. apply writable_range_incl, in_middle. }
  destruct o as [[st w]|e| |]; try done; [by apply Hst|]. eexists _, _. split; [done|]. by split.
Qed.

(** ** Scattered data reads back *)

Definition disjoint_part (p q : part) : Prop :=
  p.1.1 + p.1.2 <= q.1.1 \/ q.1.1 + q.1.2 <= p.1.1.

(** No two data descriptors share a byte. *)
Fixpoint disjoint_parts (ps : list part) : Prop :=
  match ps with
  | [] => True
  | p :: ps => Forall (disjoint_part p) ps /\ disjoint_parts ps
  end.

#[global] Instance disjoint_parts_dec ps : Decision (disjoint_parts ps).
Proof.
  induction ps; simpl; [apply _|]. unfold disjoint_part in *. apply _.
Defined.

Lemma length_scatter_ref m dw ps src r :
  Forall (part_ok m dw) ps -> lenN r = m -> (N.to_nat (total_len ps) <= length src)%nat ->
  length (scatter_ref ps src r) = length r.
Proof.
  intros Hps. revert src r. induction Hps as [|[[g l] w] ps (_ & _ & Hp) Hps IH];
    intros src r Hr Hs; [done|].
  rewrite total_len_cons in Hs. unfold lenN in *. simpl in *.
  assert (length (take (N.to_nat l) src) = N.to_nat l) as Hl by (rewrite length_take; lia).
  rewrite IH; rewrite ?length_splice, ?length_drop; lia.
Qed.

Lemma slice_scatter_ref m dw ps src r i n :
  Forall (part_ok m dw) ps -> lenN r = m -> (N.to_nat (total_len ps) <= length src)%nat ->
  Forall (disjoint_part (i, n, dw)) ps ->
  slice (N.to_nat i) (N.to_nat n) (scatter_ref ps src r) = slice (N.to_nat i) (N.to_nat n) r.
Proof.
  intros Hps. revert src r. induction Hps as [|[[g l] w] ps (_ & _ & Hp) Hps IH];
    intros src r Hr Hs Hd; [done|].
  inversion Hd as [|? ? Hd1 Hd2]; subst. rewrite total_len_cons in Hs.
  unfold lenN, disjoint_part in *. simpl in *.
  assert (length (take (N.to_nat l) src) = N.to_nat l) as Hl by (rewrite length_take; lia).
  rewrite IH; try done; rewrite ?length_splice, ?length_drop; try lia.
  apply slice_splice_disjoint; lia.
Qed.

Lemma gather_scatter_ref m dw ps src r :
  Forall (part_ok m dw) ps -> disjoint_parts ps -> lenN r = m ->
  length src = N.to_nat (total_len ps) -> gather_ref (scatter_ref ps src r) ps = src.
Proof.
  intros Hps. revert src r. induction Hps as [|[[g l] w] ps Hp Hps IH]; intros src r Hd Hr Hs.
  { by destruct src. }
  destruct Hd as [Hd1 Hd2], Hp as (_ & _ & Hp). rewrite total_len_cons in Hs. simpl in Hp, Hs.
  assert (length (take (N.to_nat l) src) = N.to_nat l) as Hl by (rewrite length_take; lia).
  unfold lenN in *.
  assert (length (splice (N.to_nat g) (take (N.to_nat l) src) r) = length r) as Hlr
    by (apply length_splice; lia).
  cbn [scatter_ref]. unfold gather_ref. cbn [map concat fst snd]. fold (gather_ref
    (scatter_ref ps (drop (N.to_nat l) src) (splice (N.to_nat g) (take (N.to_nat l) src) r)) ps).
  rewrite IH; [|done|by rewrite Hlr|rewrite length_drop; lia].
  rewrite (slice_scatter_ref m dw); [|done|unfold lenN; by rewrite Hlr|rewrite length_drop; lia|done].
  rewrite <- Hl at 1. rewrite slice_splice_same by lia. apply take_drop.
Qed.

(** * Properties *)

(** The guest's request as it lies in RAM: a header descriptor, data
    descriptors and a status descriptor. *)
Definition request_at (m : GuestMemory) (chain : DescChain) (ty : u32) (sector : u64)
    (ps : list part) (sg : u64) : Prop :=
  exists hg hl sl hdr,
    parts chain = (hg, hl, false) :: ps ++ [(sg, sl, true)] /\ 16 <= hl /\ 1 <= sl /\
    in_ram m sg 1 = true /\ read_at hg 16 m = (Ok hdr, m) /\
    from_le (slice 0 4 hdr) = ty /\ from_le (slice 8 8 hdr) = sector.

Lemma process_request_io chain s ty sector ps sg :
  ty = VIRTIO_BLK_T_IN \/ ty = VIRTIO_BLK_T_OUT ->
  request_at (io_mem s) chain ty sector ps sg ->
  valid_io_request (io_mem s) (io_backend s) ps sector (ty =? VIRTIO_BLK_T_IN) = true ->
  process_request chain s =
    bind (run_request ty sector ps) (fun r =>
      bind (on_mem (write_at sg [r.1])) (fun _ => ret (U.saturating_add 32 r.2 1))) s.
Proof.
  intros Hty (hg & hl & sl & hdr & Hp & Hhl & Hsl & Hsg & Hr & Et & Es) Hv.
  unfold process_request. rewrite Hp, last_snoc_Some.
  destruct (ps ++ [(sg, sl, true)]) as [|p0 rest] eqn:Ep; [by destruct ps|]. rewrite <- Ep.
  rewrite (proj2 (N.ltb_ge hl 16) Hhl). cbn [orb].
  unfold bind at 1. rewrite (on_mem_eq _ _ _ _ Hr), blkio_eta, Et, Es.
  rewrite (proj2 (N.ltb_ge sl 1) Hsl). cbn [orb negb].
  unfold bind at 1, get at 1. rewrite middle_spec, Hv, andb_false_r.
  unfold bind at 1 3. by destruct (run_request ty sector ps s) as [[[st w]|e| |] s1].
Qed.

(** C31: [walk_chain] succeeds exactly on the terminated, acyclic chains of at
    most 64 direct descriptors whose indices lie in the queue, and returns
    their descriptors in order. *)
Theorem walk_chain_spec m base hd qnum c m' :
  walk_chain base hd qnum m = (Ok c, m') <->
  m' = m /\ exists l, chain_from m base qnum hd l /\ (length l <= N.to_nat (N.min qnum 64))%nat /\
    NoDup (map fst l) /\ c = {| head := hd; parts := map (fun x => part_of x.2) l |}.
Proof. unfold walk_chain. rewrite walk_hops_spec by constructor. done. Qed.

(** a request is accepted exactly when every data descriptor has the right
    direction and lies in guest RAM, the total is a whole number of sectors that
    fits the used-ring length, and the range lies within the disk. *)
Theorem valid_io_request_iff m b ps sector dw :
  b_capacity_sectors b * SECTOR_SIZE < 2 ^ 64 ->
  valid_io_request m b ps sector dw = true <->
  Forall (part_ok (mem_len m) dw) ps /\ total_len ps mod SECTOR_SIZE = 0 /\
  total_len ps <= 2 ^ 32 - 2 /\
  sector * SECTOR_SIZE + total_len ps <= b_capacity_sectors b * SECTOR_SIZE.
Proof. apply valid_io_request_spec. Qed.

(** C1: a validated write on a healthy host stores the guest's data
    descriptors, in order, at the requested sectors and nowhere else, reports
    success, and changes nothing in guest RAM but the status byte. *)
Theorem blk_write_correct chain s sector ps sg :
  backend_ok (io_backend s) -> request_at (io_mem s) chain VIRTIO_BLK_T_OUT sector ps sg ->
  valid_io_request (io_mem s) (io_backend s) ps sector false = true ->
  read_only (io_backend s) = false -> f_faults (io_file s) = [] ->
  exists s', process_request chain s = (Ok 1, s') /\
    ram (io_mem s') = splice (N.to_nat sg) [VIRTIO_BLK_S_OK] (ram (io_mem s)) /\
    f_data (io_file s') = splice (N.to_nat (sector * SECTOR_SIZE))
      (gather_ref (ram (io_mem s)) ps) (f_data (io_file s)).
Proof.
  intros Hb Hreq Hv Hro Hf.
  rewrite (process_request_io chain s VIRTIO_BLK_T_OUT sector ps sg) by auto.
  destruct (run_request_io VIRTIO_BLK_T_OUT sector ps s) as (st & w & s1 & Hrun & _ & _ & _ & Hok & Hres);
    auto.
  rewrite (Hok Hf (fun _ => Hro)) in *. destruct (Hres eq_refl) as (Hm & -> & Hd).
  destruct Hreq as (hg & hl & sl & hdr & _ & _ & _ & Hsg & _).
  unfold bind. rewrite Hrun. erewrite on_mem_eq by (apply write_at_in_ram; by rewrite Hm).
  eexists. split; [reflexivity|]. simpl. by rewrite Hm.
Qed.

(** C2: a validated read on a healthy host into non-overlapping buffers leaves
    the requested sectors in the guest's data descriptors, reports success and
    the byte count, and leaves the disk untouched. *)
Theorem blk_read_correct chain s sector ps sg :
  backend_ok (io_backend s) -> request_at (io_mem s) chain VIRTIO_BLK_T_IN sector ps sg ->
  valid_io_request (io_mem s) (io_backend s) ps sector true = true ->
  f_faults (io_file s) = [] -> disjoint_parts ((sg, 1, true) :: ps) ->
  exists s', process_request chain s = (Ok (total_len ps + 1), s') /\
    gather_ref (ram (io_mem s')) ps =
      slice (N.to_nat (sector * SECTOR_SIZE)) (N.to_nat (total_len ps)) (f_data (io_file s)) /\
    slice (N.to_nat sg) 1 (ram (io_mem s')) = [VIRTIO_BLK_S_OK] /\
    f_data (io_file s') = f_data (io_file s).
Proof.
  intros Hb Hreq Hv Hf [Hds Hdp].
  rewrite (process_request_io chain s VIRTIO_BLK_T_IN sector ps sg) by auto.
  destruct (run_request_io VIRTIO_BLK_T_IN sector ps s)
    as (st & w & s1 & Hrun & _ & Hfr & Hd & Hok & Hres); auto.
  rewrite (Hok Hf) in * by done. destruct (Hres eq_refl) as (Hm & ->).
  destruct Hreq as (hg & hl & sl & hdr & _ & _ & _ & Hsg & _).
  destruct Hb as [Hcap Hlen].
  apply valid_io_request_spec in Hv as (Hps & _ & Ht & Hfit); [|by rewrite Hcap].
  rewrite Hcap in Hfit. unfold f_len, lenN in Hfit.
  set (src := slice _ _ _) in Hm. assert (length src = N.to_nat (total_len ps)) as Hsrc.
  { apply length_slice. unfold io_file in *. lia. }
  assert (in_ram (io_mem s1) sg 1 = true) as Hsg1 by (by rewrite (in_ram_frame _ _ _ _ _ Hfr)).
  unfold bind. rewrite Hrun. erewrite on_mem_eq by (by apply write_at_in_ram).
  eexists. split.
  { unfold ret. do 3 f_equal. unfold U.saturating_add, U.max. simpl. lia. }
  pose proof (in_ram_nat _ _ _ Hsg1) as Hn. split; [|split; [|by apply Hd]]; simpl.
  - fold src. rewrite <- (gather_scatter_ref (mem_len (io_mem s)) true ps src (ram (io_mem s))) by done.
    rewrite <- Hm. unfold gather_ref. f_equal. apply map_ext_in. intros p Hp.
    apply slice_splice_disjoint; [simpl; lia|].
    rewrite List.Forall_forall in Hds. specialize (Hds p Hp). unfold disjoint_part in Hds.
    simpl in *. lia.
  - change 1%nat with (length [VIRTIO_BLK_S_OK]) at 1. apply slice_splice_same. simpl. lia.
Qed.

(** C27: no request, however malformed and whatever the host injects, panics or
    loops; guest RAM changes only in the chain's device-writable descriptors,
    the image keeps its size, and a read-only image keeps its contents. *)
Theorem blk_request_safe chain s : backend_ok (io_backend s) ->
  exists o s', process_request chain s = (o, s') /\ returns o /\ disk_kept s s' /\
    mem_frame (writable_range (parts chain)) (io_mem s) (io_mem s').
Proof. apply process_request_safe_aux. Qed.

(** ** The notify loop is safe and bounded *)

Lemma walk_hops_returns hops base qnum hd idx seen acc m :
  returns (walk_hops hops base qnum hd idx seen acc m).1.
Proof.
  revert idx seen acc. induction hops as [|hops IH]; intros idx seen acc; [done|]. simpl.
  destruct (_ || _); [done|].
  apply bind_returns; [by destruct (U.checked_add _ _ _)|]. intros a m1.
  destruct (U.checked_add _ _ _); [|done]. intros [= <- <-].
  apply bind_returns; [apply read_desc_returns|]. intros d m2 Hd.
  rewrite read_desc_state in Hd. injection Hd as _ <-.
  destruct (bits _ _); [done|]. destruct (negb _); [done|]. apply IH.
Qed.

Lemma walk_hops_mrel (R : GuestMemory -> GuestMemory -> Prop) `{!PreOrder R}
    hops base qnum hd idx seen acc : mrel R (walk_hops hops base qnum hd idx seen acc).
Proof.
  revert idx seen acc. induction hops as [|hops IH]; intros idx seen acc; cbn [walk_hops]; mrel_tac.
Qed.

Section NotifySafe.
Context {L : Type} `{RateLimit L}.
Implicit Types s : BlkCtx L.

(** What every step of the loop keeps. *)
Definition ctx_kept (s s' : BlkCtx L) : Prop :=
  disk_kept (c_io s) (c_io s') /\ same_size (io_mem (c_io s)) (io_mem (c_io s')).

#[global] Instance ctx_kept_preorder : PreOrder ctx_kept.
Proof.
  split.
  - intros s. split; reflexivity.
  - intros s1 s2 s3 [] []. split; by etransitivity.
Qed.

Lemma on_ring_step {A} (m : M GuestMemory A) s :
  mrel same_size m -> returns (m (io_mem (c_io s))).1 ->
  exists o s', on_io (on_mem m) s = (o, s') /\ returns o /\ ctx_kept s s' /\ c_q s' = c_q s.
Proof.
  intros Hm Hr. specialize (Hm (io_mem (c_io s))).
  unfold on_io, on_mem, zoom. destruct (m (io_mem (c_io s))) as [o x] eqn:E.
  eexists _, _. split; [reflexivity|]. split; [done|]. split; [|done].
  split; [|done]. unfold disk_kept, io_file. simpl. by repeat split.
Qed.

Ltac ring_step o s1 :=
  match goal with |- context [bind (on_io (on_mem ?m)) _ ?s] =>
    let E := fresh "E" in let Hr := fresh "Hr" in let Hk := fresh "Hk" in let Hq := fresh "Hq" in
    destruct (on_ring_step m s) as (o & s1 & E & Hr & Hk & Hq);
    [eauto with mrel typeclass_instances | | unfold bind at 1; rewrite E; destruct o as [?|?| |]; try done]
  end.

(** One iteration: a request is completed, or the queue registers are kept. *)
Lemma serve_one_safe s : q_num (c_q s) <> 0 -> backend_ok (io_backend (c_io s)) ->
  exists o s', serve_one s = (o, s') /\ returns o /\ ctx_kept s s' /\
    c_q s' = match o with Ok (Some _) => bump_last_avail (c_q s) | _ => c_q s end.
Proof.
  intros Hn Hb. unfold serve_one, bind at 1, get at 1.
  assert (forall (e : FluxError) s', ctx_kept s s' -> c_q s' = c_q s ->
    exists o s'', (@Err (option unit) e, s') = (o, s'') /\ returns o /\ ctx_kept s s'' /\
      c_q s'' = match o with Ok (Some _) => bump_last_avail (c_q s) | _ => c_q s end) as Herr.
  { intros e s' Hk Hq. by eexists _, _. }
  ring_step o1 s1; [apply read_u16_returns| |by apply Herr].
  destruct (_ =? _); [by eexists _, _|].
  ring_step o2 s2; [by apply read_avail_head_returns| |apply Herr; [by etransitivity|congruence]].
  assert (mrel same_size (walk_chain (q_desc (c_q s)) a0 (q_num (c_q s)))) as Hwalk
    by (apply walk_hops_mrel; apply _).
  ring_step o3 s3; [apply walk_hops_returns| |apply Herr; [do 2 (etransitivity; [done|]); done|congruence]].
  unfold bind at 1, on_lim. destruct (consume_opt _ _) as [granted l'].
  set (s4 := Build_BlkCtx _ _ _).
  assert (ctx_kept s s4) as Hk4 by (do 2 (etransitivity; [done|]); done).
  assert (c_q s4 = c_q s) as Hq4 by (simpl; congruence).
  destruct granted; cbn [negb]; [|by eexists _, _].
  assert (backend_ok (io_backend (c_io s4))) as Hb4.
  { destruct Hk4 as [(Hc & _ & Hl & _) _]. unfold backend_ok, f_len, lenN, io_file in *. by rewrite Hc, Hl. }
  destruct (process_request_safe_aux a1 (c_io s4) Hb4) as (o5 & io5 & Hp & Ho5 & Hd5 & Hf5).
  unfold bind at 1, try_ok, on_io at 1, zoom. rewrite Hp.
  set (s5 := Build_BlkCtx _ _ _).
  assert (ctx_kept s s5) as Hk5.
  { etransitivity; [exact Hk4|]. split; [done|]. eapply mem_frame_mono; [|exact Hf5]. done. }
  assert (forall w, exists o s',
    bind (on_io (on_mem (used_push (q_used (c_q s)) (q_num (c_q s)) (head a1) w)))
      (fun _ => bind bump (fun _ => ret (Some tt))) s5 = (o, s') /\ returns o /\ ctx_kept s s' /\
    c_q s' = match o with Ok (Some _) => bump_last_avail (c_q s) | _ => c_q s end) as Hend.
  { intros w. ring_step o6 s6; [by apply used_push_returns| |].
    - unfold bind, bump, modify, ret. eexists _, _. split; [reflexivity|]. split; [done|].
      split; [etransitivity; [exact Hk5|exact Hk2]|]. simpl. rewrite Hq2. simpl. congruence.
    - apply Herr; [by etransitivity|]. rewrite Hq2. simpl. congruence. }
  destruct o5; try done; apply Hend.
Qed.

Lemma blk_step_ok : step_ok (@serve_one L _) c_q
  (fun s => q_num (c_q s) <> 0 /\ backend_ok (io_backend (c_io s))) ctx_kept.
Proof.
  intros s [Hn Hb]. destruct (serve_one_safe s Hn Hb) as (o & s' & Hs & Ho & Hk & Hq).
  exists o, s'. split; [done|]. split; [done|]. split; [done|]. split; [|done]. split.
  - rewrite Hq. by destruct o as [[]| | |].
  - destruct Hk as [(Hc & _ & Hl & _) _]. unfold backend_ok, f_len, lenN, io_file in *. by rewrite Hc, Hl.
Qed.

End NotifySafe.

(** C39: servicing a notify on the request queue, against any limiter, neither
    panics nor loops: it completes some number [k] of at most 65 requests,
    advances [last_avail] by exactly [k] (mod 2^16), returns [k] unless it stops
    at an error, and keeps every other register, the RAM size, the image size
    and the contents of a read-only image. *)
Theorem blk_notify_safe {L} `{RateLimit L} (d : BlkDev L) qsel q qs :
  queues (bd_st d) = q :: qs -> backend_ok (bd_backend d) -> in_u 16 (q_last_avail q) ->
  exists o d' k, handle_notify qsel d = (o, d') /\ returns o /\ k <= 65 /\
    (forall r, o = Ok r -> r = k) /\
    bd_st d' = st_queues (with_last_avail ((q_last_avail q + k) mod 2 ^ 16) q :: qs) (bd_st d) /\
    mem_len (bd_mem d') = mem_len (bd_mem d) /\
    length (f_data (file (bd_backend d'))) = length (f_data (file (bd_backend d))) /\
    (read_only (bd_backend d) = true ->
       f_data (file (bd_backend d')) = f_data (file (bd_backend d))).
Proof.
  intros Hq Hb Hla. unfold handle_notify. rewrite Hq.
  assert (forall s, queues s = q :: qs -> st_queues (with_last_avail (q_last_avail q) q :: qs) s = s) as Hid.
  { intros s Hs. destruct q, s. unfold st_queues, with_last_avail. simpl in *. by rewrite Hs. }
  destruct (_ || _) eqn:E.
  { exists (Ok 0), d, 0. split; [done|]. split; [done|]. split; [lia|]. split; [by intros ? [= <-]|].
    rewrite N.add_0_r, N.mod_small by done. by rewrite Hid. }
  apply orb_false_iff in E as [_ En%N.eqb_neq].
  set (ctx := Build_BlkCtx _ _ _).
  destruct (notify_loop_safe serve_one c_q _ _ 65 0 ctx blk_step_ok)
    as (o & s & k & Hrun & Ho & [Hd Hsz] & _ & Hk & Hr & Hc); [done|lia|lia|].
  unfold serve_loop. rewrite Hrun. eexists o, _, k. split; [reflexivity|]. split; [done|]. split; [lia|].
  split; [done|]. destruct Hd as (_ & _ & Hl & Hro). split; [|split; [|done]].
  - simpl. do 2 f_equal. rewrite Hc. by apply iter_bump_mod.
  - apply (mem_frame_len _ _ _ Hsz).
Qed.

(** ** Witnesses: a 2 KiB guest and a two-sector disk *)

Definition demo_header (ty : u32) (sector : u64) : bytes :=
  le_bytes 4 ty ++ le_bytes 4 0 ++ le_bytes 8 sector.

Definition demo_io (ty : u32) (sector : u64) : BlkIo :=
  {| io_mem := {| ram := splice 0 (demo_header ty sector) (repeat 7 2048) |};
     io_backend := {| file := {| f_data := repeat 9 1024; f_pos := 0; f_faults := [] |};
                      b_capacity_sectors := 2; read_only := false |};
     scratch_len := 0 |}.

Definition demo_parts (w : bool) : list part := [(0x100, 256, w); (0x300, 256, w)].

Definition demo_chain (w : bool) : DescChain :=
  {| head := 0; parts := (0, 16, false) :: demo_parts w ++ [(0x500, 1, true)] |}.

Lemma demo_request_at ty sector w :
  in_u 32 ty -> in_u 64 sector ->
  request_at (io_mem (demo_io ty sector)) (demo_chain w) ty sector (demo_parts w) 0x500.
Proof.
  intros Ht Hs. exists 0, 16, 1, (demo_header ty sector).
  split; [done|]. split; [lia|]. split; [lia|]. split; [by vm_compute|]. split; [|split].
  - unfold demo_header. reflexivity.
  - change (slice 0 4 (demo_header ty sector)) with (le_bytes 4 ty). by apply from_le_bytes_small.
  - change (slice 8 8 (demo_header ty sector)) with (le_bytes 8 sector). by apply from_le_bytes_small.
Qed.

Lemma valid_io_request_iff_witness :
  valid_io_request (io_mem (demo_io 1 1)) (io_backend (demo_io 1 1)) (demo_parts false) 1 false = true <->
  Forall (part_ok (mem_len (io_mem (demo_io 1 1))) false) (demo_parts false) /\
  total_len (demo_parts false) mod SECTOR_SIZE = 0 /\ total_len (demo_parts false) <= 2 ^ 32 - 2 /\
  1 * SECTOR_SIZE + total_len (demo_parts false) <=
    b_capacity_sectors (io_backend (demo_io 1 1)) * SECTOR_SIZE.
Proof. apply (valid_io_request_iff (io_mem (demo_io 1 1)) (io_backend (demo_io 1 1))). by_eval. Defined.

Lemma blk_write_correct_witness :
  exists s', process_request (demo_chain false) (demo_io 1 1) = (Ok 1, s') /\
    ram (io_mem s') = splice (N.to_nat 0x500) [VIRTIO_BLK_S_OK] (ram (io_mem (demo_io 1 1))) /\
    f_data (io_file s') = splice (N.to_nat (1 * SECTOR_SIZE))
      (gather_ref (ram (io_mem (demo_io 1 1))) (demo_parts false)) (f_data (io_file (demo_io 1 1))).
Proof.
  apply (blk_write_correct (demo_chain false) (demo_io 1 1) 1 (demo_parts false) 0x500);
    [by_eval | apply demo_request_at; by_eval | vm_compute; reflexivity | reflexivity | reflexivity].
Defined.

Lemma blk_read_correct_witness :
  exists s', process_request (demo_chain true) (demo_io 0 1) =
      (Ok (total_len (demo_parts true) + 1), s') /\
    gather_ref (ram (io_mem s')) (demo_parts true) =
      slice (N.to_nat (1 * SECTOR_SIZE)) (N.to_nat (total_len (demo_parts true)))
        (f_data (io_file (demo_io 0 1))) /\
    slice (N.to_nat 0x500) 1 (ram (io_mem s')) = [VIRTIO_BLK_S_OK] /\
    f_data (io_file s') = f_data (io_file (demo_io 0 1)).
Proof.
  apply (blk_read_correct (demo_chain true) (demo_io 0 1) 1 (demo_parts true) 0x500);
    [by_eval | apply demo_request_at; by_eval | vm_compute; reflexivity | reflexivity | by_eval].
Defined.

Lemma blk_request_safe_witness :
  exists o s', process_request (demo_chain true) (demo_io 5 9) = (o, s') /\ returns o /\
    disk_kept (demo_io 5 9) s' /\
    mem_frame (writable_range (parts (demo_chain true))) (io_mem (demo_io 5 9)) (io_mem s').
Proof. apply (blk_request_safe (demo_chain true) (demo_io 5 9)). by_eval. Defined.

Definition demo_blkdev : BlkDev RateLimiter :=
  {| bd_mem := io_mem (demo_io 1 1);
     bd_st := st_queues
       (q_set_rings 0x200 0x300 0x400 (q_set_num 8 (q_set_ready 1 QueueState_default))
          :: repeat QueueState_default 8) (state demo_blk);
     bd_backend := io_backend (demo_io 1 1); bd_lim := Some (from_mbit 8 [0; 5]) |}.

Lemma blk_notify_safe_witness :
  exists o d' k, handle_notify 0 demo_blkdev = (o, d') /\ returns o /\ k <= 65 /\
    (forall r, o = Ok r -> r = k) /\
    bd_st d' = st_queues
      (with_last_avail
         ((q_last_avail (q_set_rings 0x200 0x300 0x400
              (q_set_num 8 (q_set_ready 1 QueueState_default))) + k) mod 2 ^ 16)
         (q_set_rings 0x200 0x300 0x400 (q_set_num 8 (q_set_ready 1 QueueState_default)))
         :: repeat QueueState_default 8) (bd_st demo_blkdev) /\
    mem_len (bd_mem d') = mem_len (bd_mem demo_blkdev) /\
    length (f_data (file (bd_backend d'))) = length (f_data (file (bd_backend demo_blkdev))) /\
    (read_only (bd_backend demo_blkdev) = true ->
       f_data (file (bd_backend d')) = f_data (file (bd_backend demo_blkdev))).
Proof.
  apply (blk_notify_safe demo_blkdev 0
    (q_set_rings 0x200 0x300 0x400 (q_set_num 8 (q_set_ready 1 QueueState_default)))
    (repeat QueueState_default 8)); [reflexivity | by_eval | by_eval].
Defined.
