(* ===== verification/VirtioRng.v ===== *)
(** * virtio-rng

    [crates/fluxvm-hypervisor/src/devices/virtio_rng.rs]: filling the guest's
    buffers with entropy.  The host's [getrandom] is the list of the byte
    strings its next calls return; its result is ignored, so a short or failed
    call leaves the rest of the zeroed buffer. *)

From stdpp Require Import prelude list.
From Stdlib Require Import NArith Lia.
From S2P Require Import Prelude GuestMemory Virtqueue VirtioMmio.

(** The state of one [handle_notify]. *)
Record RngCtx := { g_mem : GuestMemory; g_q : QueueState; g_pool : list bytes }.

Definition set_gmem (x : GuestMemory) (s : RngCtx) : RngCtx :=
  {| g_mem := x; g_q := g_q s; g_pool := g_pool s |}.

Definition set_gq (x : QueueState) (s : RngCtx) : RngCtx :=
  {| g_mem := g_mem s; g_q := x; g_pool := g_pool s |}.

Definition on_gmem {A} (m : M GuestMemory A) : M RngCtx A := on_guest g_mem set_gmem m.

Definition used_push : u64 -> u32 -> u16 -> u32 -> M GuestMemory unit := Virtqueue.used_push.

(** [fill_random] of a zeroed buffer of [n] bytes. *)
Definition fill_random (n : usize) : M RngCtx bytes := fun s =>
  let zeros := repeat 0 (N.to_nat n) in
  match g_pool s with
  | [] => (Ok zeros, s)
  | b :: pool =>
      (Ok (take (N.to_nat n) (b ++ zeros)),
       {| g_mem := g_mem s; g_q := g_q s; g_pool := pool |})
  end.

(** The [for _ in 0..16] loop over a chain: the bytes written. *)
Fixpoint rng_hops (hops : nat) (desc : u64) (idx : u16) (written : u32) : M RngCtx u32 :=
  match hops with
  | O => ret written
  | S hops =>
      let! d := on_gmem (read_desc (U.add 64 desc (idx * 16))) in
      let! written :=
        if bits (d_flags d) VRING_DESC_F_WRITE && (0 <? d_len d) then
          let! buf := fill_random (d_len d) in
          do! on_gmem (write_at (d_addr d) buf) in
          ret (U.saturating_add 32 written (d_len d))
        else ret written in
      if negb (bits (d_flags d) VRING_DESC_F_NEXT) then ret written
      else rng_hops hops desc (d_next d) written
  end.

(** One iteration of the loop of [handle_notify]. *)
Definition rng_one : M RngCtx (option unit) :=
  notify_one g_mem set_gmem g_q set_gq
    (fun q head => let! written := rng_hops 16 (q_desc q) head 0 in ret (Some written)).

Record RngDev := { rd_mem : GuestMemory; rd_st : VirtioState; rd_pool : list bytes }.

Definition handle_notify (qsel : u32) : M RngDev u32 := fun d =>
  match queues (rd_st d) with
  | [] => (Panic, d)
  | q :: qs =>
      if (q_ready q =? 0) || (q_num q =? 0) then (Ok 0, d)
      else
        let '(o, s) := notify_loop rng_one 65 0
          {| g_mem := rd_mem d; g_q := q; g_pool := rd_pool d |} in
        (o, {| rd_mem := g_mem s; rd_st := st_queues (g_q s :: qs) (rd_st d);
               rd_pool := g_pool s |})
  end.

(** ** Safety *)

Definition rng_kept (s s' : RngCtx) : Prop := same_size (g_mem s) (g_mem s').

#[global] Instance rng_kept_preorder : PreOrder rng_kept.
Proof. split; [intros s; apply same_size_preorder|]. intros s1 s2 s3. apply same_size_preorder. Qed.

(** What serving a chain keeps: the RAM size and the queue registers. *)
Definition rng_J (s0 s : RngCtx) : Prop := rng_kept s0 s /\ g_q s = g_q s0.

Lemma rng_on_gmem {A} (m : M GuestMemory A) :
  mrel same_size m -> (forall x, returns (m x).1) -> keeps rng_J (on_gmem m).
Proof.
  intros Hm Hr s0 s [Hk Hq]. specialize (Hm (g_mem s)). specialize (Hr (g_mem s)).
  unfold on_gmem, on_guest, zoom. destruct (m (g_mem s)) as [o x]. simpl in *.
  split; [done|]. split; [|done]. unfold rng_kept in *. simpl. by etransitivity.
Qed.

Lemma keeps_fill n : keeps rng_J (fill_random n).
Proof. intros s0 s [Hk Hq]. unfold fill_random. by destruct (g_pool s). Qed.

Lemma keeps_hops hops desc idx written : keeps rng_J (rng_hops hops desc idx written).
Proof.
  revert idx written. induction hops as [|hops IH]; intros idx written; cbn [rng_hops]; keeps_tac.
  - apply rng_on_gmem; [mrel_tac|apply read_desc_returns].
  - apply keeps_fill.
  - apply rng_on_gmem; [mrel_tac|intros; apply write_at_returns].
Qed.

Lemma rng_step_ok : step_ok rng_one g_q (fun s => q_num (g_q s) <> 0) rng_kept.
Proof.
  apply (notify_one_ok _ _ _ _ _ rng_J).
  - intros s _. split; [reflexivity|done].
  - by intros s0 s [].
  - intros s0 s Hn [_ ->]. done.
  - by intros s0 s [].
  - intros s0 s Hn [Hk Hq]. simpl. rewrite Hq. done.
  - done.
  - intros A m Hm. apply rng_on_gmem; [intros x; by rewrite (proj2 (Hm x))|apply Hm].
  - intros g qnum id w Hq. apply rng_on_gmem; [apply used_push_size|intros; by apply used_push_returns].
  - intros q head. apply keeps_bind; [apply keeps_hops|]. intros. apply keeps_ret.
Qed.

(** ** Delivery *)

(** a notify on the entropy queue, whatever the guest put in its rings and
    descriptors, never panics or loops; it completes [k <= 65] buffers, advances
    [last_avail] by exactly [k] and keeps the RAM size and every other
    register. *)
Theorem rng_notify_safe d qsel q qs :
  queues (rd_st d) = q :: qs -> in_u 16 (q_last_avail q) ->
  exists o d' k, handle_notify qsel d = (o, d') /\ returns o /\ k <= 65 /\
    (forall r, o = Ok r -> r = k) /\
    rd_st d' = st_queues (with_last_avail ((q_last_avail q + k) mod 2 ^ 16) q :: qs) (rd_st d) /\
    mem_len (rd_mem d') = mem_len (rd_mem d).
Proof.
  intros Hq Hla. unfold handle_notify. rewrite Hq.
  destruct (_ || _) eqn:E.
  { exists (Ok 0), d, 0. split; [done|]. split; [done|]. split; [lia|]. split; [by intros ? [= <-]|].
    rewrite N.add_0_r, N.mod_small by done. split; [|done].
    destruct q, d as [? [] ?]. unfold st_queues, with_last_avail. simpl in *. by rewrite Hq. }
  apply orb_false_iff in E as [_ En%N.eqb_neq].
  set (ctx := Build_RngCtx _ _ _).
  destruct (notify_loop_safe rng_one g_q _ _ 65 0 ctx rng_step_ok)
    as (o & s & k & Hrun & Ho & Hd & _ & Hk & Hr & Hc); [done|lia|lia|].
  rewrite Hrun. eexists o, _, k. split; [reflexivity|]. split; [done|]. split; [lia|].
  split; [done|]. simpl. split; [|by apply (mem_frame_len _ _ _ Hd)].
  do 2 f_equal. rewrite Hc. by apply iter_bump_mod.
Qed.

(** A 4 KiB guest with one 16-byte device-writable buffer at 0x800, posted on
    queue 0 (descriptors at 0x100, avail at 0x200, used at 0x300). *)
Definition demo_desc (addr : u64) (len : u32) (flags next : u16) : bytes :=
  le_bytes 8 addr ++ le_bytes 4 len ++ le_bytes 2 flags ++ le_bytes 2 next.

Definition demo_queue : QueueState :=
  q_set_rings 0x100 0x200 0x300 (q_set_num 8 (q_set_ready 1 QueueState_default)).

Definition demo_rng : RngDev :=
  {| rd_mem := {| ram := splice 0x100 (demo_desc 0x800 16 2 0)
                   (splice 0x200 (le_bytes 2 0 ++ le_bytes 2 1 ++ le_bytes 2 0) (repeat 0 4096)) |};
     rd_st := st_queues (demo_queue :: repeat QueueState_default 8) (state (rng 0 5 None));
     rd_pool := [repeat 0xab 16] |}.

(** The entropy lands in the posted buffer and is published with its length. *)
Example rng_delivers :
  let '(o, d) := handle_notify 0 demo_rng in
  o = Ok 1 /\ slice 0x800 16 (ram (rd_mem d)) = repeat 0xab 16 /\
  slice 0x302 10 (ram (rd_mem d)) = le_bytes 2 1 ++ le_bytes 4 0 ++ le_bytes 4 16.
Proof. vm_compute. repeat split. Qed.

Lemma rng_notify_safe_witness :
  exists o d' k, handle_notify 0 demo_rng = (o, d') /\ returns o /\ k <= 65 /\
    (forall r, o = Ok r -> r = k) /\
    rd_st d' = st_queues (with_last_avail ((q_last_avail demo_queue + k) mod 2 ^ 16) demo_queue
                 :: repeat QueueState_default 8) (rd_st demo_rng) /\
    mem_len (rd_mem d') = mem_len (rd_mem demo_rng).
Proof.
  apply (rng_notify_safe demo_rng 0 demo_queue (repeat QueueState_default 8));
    [reflexivity | by_eval].
Defined.
