(* ===== verification/VirtioBalloon.v ===== *)
(** * virtio-balloon and its runtime control

    [crates/fluxvm-hypervisor/src/devices/virtio_balloon.rs]: the inflate and
    deflate queues, whose buffers hold page frame numbers; and
    [balloon_ctl.rs]: the slot through which the control API sets the target.
    What the host's [madvise(MADV_DONTNEED)] does to the mapping's contents is
    the parameter [dontneed] of {!GuestMemory.advise_dontneed}. *)

From stdpp Require Import prelude list.
From Stdlib Require Import NArith Lia.
From S2P Require Import Prelude GuestMemory Virtqueue VirtioMmio.

Definition VIRTIO_BALLOON_PFN_SHIFT : u32 := 12.

Definition used_push : u64 -> u32 -> u16 -> u32 -> M GuestMemory unit := Virtqueue.used_push.

(** The state of one [process_pfns]: RAM, the queue and [balloon_actual]. *)
Record BalloonCtx := { b_mem : GuestMemory; b_q : QueueState; b_actual : u32 }.

Definition set_bmem (x : GuestMemory) (s : BalloonCtx) : BalloonCtx :=
  {| b_mem := x; b_q := b_q s; b_actual := b_actual s |}.

Definition set_bq (x : QueueState) (s : BalloonCtx) : BalloonCtx :=
  {| b_mem := b_mem s; b_q := x; b_actual := b_actual s |}.

Definition set_bactual (x : u32) (s : BalloonCtx) : BalloonCtx :=
  {| b_mem := b_mem s; b_q := b_q s; b_actual := x |}.

Definition on_bmem {A} (m : M GuestMemory A) : M BalloonCtx A := on_guest b_mem set_bmem m.

Record BalloonDev := { bd_mem : GuestMemory; bd_st : VirtioState }.

Section Balloon.
Context (dontneed : usize -> usize -> bytes -> bytes).

(** One page frame number of the buffer. *)
Definition balloon_page (inflate : bool) (pfn : u32) : M BalloonCtx unit :=
  let gpa := N.shiftl pfn VIRTIO_BALLOON_PFN_SHIFT in
  if inflate then
    do! on_bmem (advise_dontneed dontneed gpa 4096) in
    modify (fun s => set_bactual (U.saturating_add 32 (b_actual s) 1) s)
  else
    do! on_bmem (touch_page gpa) in
    modify (fun s => set_bactual (b_actual s - 1) s).

(** [for i in 0..count], from [i] on with [n] entries left. *)
Fixpoint pfn_loop (inflate : bool) (addr : u64) (n : nat) (i : u64) : M BalloonCtx unit :=
  match n with
  | O => ret tt
  | S n =>
      let! pfnb := on_bmem (read_at (U.add 64 addr (i * 4)) 4) in
      do! balloon_page inflate (from_le pfnb) in
      pfn_loop inflate addr n (i + 1)
  end.

(** [for _ in 0..32] over the chain. *)
Fixpoint balloon_hops (inflate : bool) (hops : nat) (desc : u64) (idx : u16)
    : M BalloonCtx unit :=
  match hops with
  | O => ret tt
  | S hops =>
      let! d := on_bmem (read_desc (U.add 64 desc (idx * 16))) in
      do! pfn_loop inflate (d_addr d) (N.to_nat (d_len d / 4)) 0 in
      if negb (bits (d_flags d) VRING_DESC_F_NEXT) then ret tt
      else balloon_hops inflate hops desc (d_next d)
  end.

(** One iteration of the loop of [process_pfns]. *)
Definition balloon_one (inflate : bool) : M BalloonCtx (option unit) :=
  notify_one b_mem set_bmem b_q set_bq
    (fun q head => do! balloon_hops inflate 32 (q_desc q) head in ret (Some 0)).

Definition process_pfns (q_idx : nat) (inflate : bool) : M BalloonDev u32 := fun d =>
  let st := bd_st d in
  match queues st !! q_idx with
  | None => (Panic, d)
  | Some q =>
      if (q_ready q =? 0) || (q_num q =? 0) then (Ok 0, d)
      else
        let '(o, s) := notify_loop (balloon_one inflate) 65 0
          {| b_mem := bd_mem d; b_q := q; b_actual := balloon_actual st |} in
        (o, {| bd_mem := b_mem s;
               bd_st := st_queues (<[q_idx := b_q s]> (queues st))
                          (st_balloon (balloon_num_pages st) (b_actual s) st) |})
  end.

Definition handle_notify (qsel : u32) : M BalloonDev u32 :=
  if qsel =? 0 then process_pfns 0 true
  else if qsel =? 1 then process_pfns 1 false
  else ret 0.

(** ** Safety

    [madvise] keeps the size of the mapping, and a mapping holds bytes. *)

Context (dontneed_len : forall start len r, length (dontneed start len r) = length r).
Context (dontneed_bytes : forall start len r, is_bytes r -> is_bytes (dontneed start len r)).

(** What an iteration keeps of the context it started from. *)
Definition bal_kept (s s' : BalloonCtx) : Prop :=
  mem_len (b_mem s') = mem_len (b_mem s) /\ (in_u 32 (b_actual s) -> in_u 32 (b_actual s')).

#[local] Instance bal_kept_preorder : PreOrder bal_kept.
Proof.
  split; [by intros s; split|]. intros s1 s2 s3 [] []. split; [congruence|auto].
Qed.

Definition bal_J (s0 s : BalloonCtx) : Prop :=
  bal_kept s0 s /\ mem_bytes (b_mem s) /\ b_q s = b_q s0.

Lemma keeps_bmem {A} (m : M GuestMemory A) :
  mrel mem_kept m -> (forall x, returns (m x).1) -> keeps bal_J (on_bmem m).
Proof.
  intros Hm Hr s0 s ([Hl Ha] & Hb & Hq). specialize (Hm (b_mem s)). specialize (Hr (b_mem s)).
  unfold on_bmem, on_guest, zoom. destruct (m (b_mem s)) as [o x]. simpl in *.
  destruct Hm as [Hs Hb']. split; [done|]. split; [split|by split; [apply Hb'|]]; [|done].
  simpl. by rewrite (mem_frame_len _ _ _ Hs).
Qed.

(** A value read out of RAM fits the bytes read. *)
Lemma keeps_read_at {B} gpa n (f : bytes -> M BalloonCtx B) :
  (forall b, is_bytes b -> lenN b = n -> keeps bal_J (f b)) ->
  keeps bal_J (bind (on_bmem (read_at gpa n)) f).
Proof.
  intros Hf s0 s Hs. unfold bind, on_bmem, on_guest, zoom. rewrite read_at_eq.
  replace (set_bmem (b_mem s) s) with s by by destruct s.
  destruct (in_ram _ _ _) eqn:E; cbn -[in_ram]; [|by destruct s].
  replace (set_bmem (b_mem s) s) with s by by destruct s. apply Hf; [|..|done].
  - apply slice_is_bytes, Hs.
  - unfold lenN. rewrite length_slice by by apply in_ram_nat. lia.
Qed.

Lemma keeps_page inflate pfn : in_u 32 pfn -> keeps bal_J (balloon_page inflate pfn).
Proof.
  intros Hp s0 s ([Hl Ha] & Hb & Hq).
  unfold balloon_page, on_bmem, on_guest, zoom, bind, modify, advise_dontneed, touch_page, get.
  destruct inflate; cbn -[N.ltb N.leb U.saturating_add U.add N.shiftl].
  - destruct (mem_len (b_mem s) <? _); simpl; (split; [done|]); (split; [split|]); simpl; try done.
    + intros H. specialize (Ha H). unfold U.saturating_add, U.max, in_u in *. lia.
    + rewrite <- Hl. unfold mem_len, lenN. simpl. by rewrite dontneed_len.
    + intros H. specialize (Ha H). unfold U.saturating_add, U.max, in_u in *. lia.
    + split; [|done]. by apply dontneed_bytes.
  - destruct (N.ltb_spec (mem_len (b_mem s))
      (U.add 64 (N.shiftl pfn VIRTIO_BALLOON_PFN_SHIFT) 1)) as [Hlt|Hle]; simpl.
    + split; [done|]. split; [split|]; simpl; try done. intros H. specialize (Ha H).
      unfold in_u in *. lia.
    + assert ((N.shiftl pfn VIRTIO_BALLOON_PFN_SHIFT <? mem_len (b_mem s)) = true) as ->.
      { apply N.ltb_lt. revert Hle. rewrite N.shiftl_mul_pow2. unfold in_u in Hp.
        change (2 ^ VIRTIO_BALLOON_PFN_SHIFT) with 4096. rewrite add64_small by lia. lia. }
      simpl. split; [done|]. split; [split|]; simpl; try done. intros H. specialize (Ha H).
      unfold in_u in *. lia.
Qed.

Lemma keeps_pfns inflate addr n i : keeps bal_J (pfn_loop inflate addr n i).
Proof.
  revert i. induction n as [|n IH]; intros i; cbn [pfn_loop]; [apply keeps_ret|].
  apply keeps_read_at. intros b Hb Hlen. apply keeps_bind; [|done].
  apply keeps_page. pose proof (from_le_range b Hb) as H. by rewrite Hlen in H.
Qed.

Lemma keeps_balloon_hops inflate hops desc idx : keeps bal_J (balloon_hops inflate hops desc idx).
Proof.
  revert idx. induction hops as [|hops IH]; intros idx; cbn [balloon_hops]; keeps_tac.
  - apply keeps_bmem; [mrel_tac|apply read_desc_returns].
  - apply keeps_pfns.
Qed.

Lemma balloon_step_ok inflate :
  step_ok (balloon_one inflate) b_q (fun s => q_num (b_q s) <> 0 /\ mem_bytes (b_mem s)) bal_kept.
Proof.
  apply (notify_one_ok _ _ _ _ _ bal_J).
  - intros s [_ Hb]. split; [reflexivity|done].
  - by intros s0 s (_ & _ & Hq).
  - intros s0 s [Hn _] (_ & Hb & ->). done.
  - by intros s0 s [].
  - intros s0 s [Hn _] (Hk & Hb & Hq). simpl. rewrite Hq. done.
  - by intros s [].
  - intros A m Hm. apply keeps_bmem; [intros x; by rewrite (proj2 (Hm x))|apply Hm].
  - intros g qnum id w Hq. apply keeps_bmem; [apply used_push_kept|intros; by apply used_push_returns].
  - intros q head. apply keeps_bind; [apply keeps_balloon_hops|]. intros. apply keeps_ret.
Qed.

(** a notify on either balloon queue never panics, loops or reads outside
    RAM; it completes [k <= 65] buffers, advances that queue's [last_avail] by
    [k], keeps [balloon_actual] a [u32] and changes no other register nor the
    size of RAM. *)
Theorem balloon_notify_safe d qsel q0 q1 qs :
  queues (bd_st d) = q0 :: q1 :: qs -> in_u 16 (q_last_avail q0) -> in_u 16 (q_last_avail q1) ->
  mem_bytes (bd_mem d) -> in_u 32 (balloon_actual (bd_st d)) ->
  exists o d' k actual, handle_notify qsel d = (o, d') /\ returns o /\ k <= 65 /\
    (forall r, o = Ok r -> r = k) /\ in_u 32 actual /\
    bd_st d' = st_queues
      (let adv q := with_last_avail ((q_last_avail q + k) mod 2 ^ 16) q in
       if qsel =? 0 then adv q0 :: q1 :: qs
       else if qsel =? 1 then q0 :: adv q1 :: qs else q0 :: q1 :: qs)
      (st_balloon (balloon_num_pages (bd_st d)) actual (bd_st d)) /\
    mem_len (bd_mem d') = mem_len (bd_mem d).
Proof.
  intros Hqs Hq0 Hq1 Hb Ha.
  assert (forall q, in_u 16 (q_last_avail q) ->
    with_last_avail ((q_last_avail q + 0) mod 2 ^ 16) q = q) as Hadv.
  { intros q Hq. rewrite N.add_0_r, N.mod_small by done. by destruct q. }
  assert (bd_st d = st_queues (q0 :: q1 :: qs)
    (st_balloon (balloon_num_pages (bd_st d)) (balloon_actual (bd_st d)) (bd_st d))) as Hself.
  { destruct d as [? []]. unfold st_queues, st_balloon. simpl in *. by rewrite Hqs. }
  assert (forall i inflate q, queues (bd_st d) !! i = Some q -> in_u 16 (q_last_avail q) ->
    exists o d' k actual, process_pfns i inflate d = (o, d') /\ returns o /\ k <= 65 /\
      (forall r, o = Ok r -> r = k) /\ in_u 32 actual /\
      bd_st d' = st_queues (<[i := with_last_avail ((q_last_avail q + k) mod 2 ^ 16) q]> (queues (bd_st d)))
        (st_balloon (balloon_num_pages (bd_st d)) actual (bd_st d)) /\
      mem_len (bd_mem d') = mem_len (bd_mem d)) as Hp.
  { intros i inflate q Hi Hla. unfold process_pfns. rewrite Hi. destruct (_ || _) eqn:E.
    { exists (Ok 0), d, 0, (balloon_actual (bd_st d)).
      repeat (split; [done || lia || by intros ? [= <-]|]).
      rewrite Hadv, list_insert_id, Hqs by done. done. }
    apply orb_false_iff in E as [_ En%N.eqb_neq]. set (ctx := Build_BalloonCtx _ _ _).
    destruct (notify_loop_safe (balloon_one inflate) b_q _ _ 65 0 ctx (balloon_step_ok inflate))
      as (o & s & k & Hrun & Ho & [Hlen Hact] & _ & Hk & Hr & Hc); [done|lia|lia|].
    rewrite Hrun. eexists o, _, k, (b_actual s). split; [reflexivity|].
    repeat (split; [done || lia || by apply Hact|]). simpl.
    split; [|done]. do 3 f_equal. rewrite Hc. by apply iter_bump_mod. }
  unfold handle_notify. destruct (N.eqb_spec qsel 0) as [->|H0].
  { destruct (Hp 0%nat true q0) as (o & d' & k & a & H); [by rewrite Hqs|done|].
    rewrite Hqs in H. by exists o, d', k, a. }
  destruct (N.eqb_spec qsel 1) as [->|H1].
  { destruct (Hp 1%nat false q1) as (o & d' & k & a & H); [by rewrite Hqs|done|].
    rewrite Hqs in H. by exists o, d', k, a. }
  exists (Ok 0), d, 0, (balloon_actual (bd_st d)).
  by repeat (split; [done || lia || by intros ? [= <-]|]).
Qed.

(** ** What a buffer of page frame numbers does

    [madvise] touches only the range it is given. *)

Context (dontneed_local : forall start len r a,
  (a < N.to_nat start \/ N.to_nat (start + len) <= a)%nat -> dontneed start len r !! a = r !! a).

(** The pages of [ps] that lie in RAM are discarded, in order. *)
Definition discard_pages (ps : list N) (r : bytes) : bytes :=
  fold_left (fun r p =>
    if p * 4096 + 4096 <=? lenN r then dontneed (p * 4096) 4096 r else r) ps r.

Lemma balloon_page_inflate pfn s : in_u 32 pfn ->
  balloon_page true pfn s =
    (Ok tt, {| b_mem := {| ram := discard_pages [pfn] (ram (b_mem s)) |}; b_q := b_q s;
               b_actual := N.min (b_actual s + 1) (U.max 32) |}).
Proof.
  intros Hp. unfold in_u in Hp.
  unfold balloon_page, on_bmem, on_guest, zoom, bind, modify, advise_dontneed, get, discard_pages.
  cbn -[N.ltb N.leb U.saturating_add U.add N.shiftl].
  rewrite N.shiftl_mul_pow2. change (2 ^ VIRTIO_BALLOON_PFN_SHIFT) with 4096.
  assert (U.saturating_add 64 (pfn * 4096) 4096 = pfn * 4096 + 4096) as ->
    by (unfold U.saturating_add, U.max; lia).
  unfold mem_len. destruct s as [[r] q a]. cbn [b_mem b_q ram].
  destruct (N.ltb_spec (lenN r) (pfn * 4096 + 4096)), (N.leb_spec (pfn * 4096 + 4096) (lenN r));
    try lia; done.
Qed.

Lemma balloon_page_deflate pfn s : in_u 32 pfn ->
  balloon_page false pfn s = (Ok tt, set_bactual (b_actual s - 1) s).
Proof.
  intros Hp. unfold in_u in Hp.
  unfold balloon_page, on_bmem, on_guest, zoom, bind, modify, touch_page, get.
  cbn -[N.ltb N.leb U.saturating_add U.add N.shiftl].
  rewrite N.shiftl_mul_pow2. change (2 ^ VIRTIO_BALLOON_PFN_SHIFT) with 4096.
  rewrite add64_small by lia.
  destruct (N.ltb_spec (mem_len (b_mem s)) (pfn * 4096 + 1)); [by destruct s|].
  rewrite (proj2 (N.ltb_lt (pfn * 4096) _)) by lia. by destruct s.
Qed.

(** The entries of a buffer, read one by one. *)
Definition holds_pfns (m : GuestMemory) (addr : u64) (ps : list N) : Prop :=
  forall i p, ps !! i = Some p ->
    in_u 32 p /\ read_at (addr + 4 * N.of_nat i) 4 m = (Ok (le_bytes 4 p), m).

(** The buffer does not lie in a page it lists. *)
Definition buffer_apart (addr : u64) (ps : list N) : Prop :=
  forall p a, p ∈ ps -> in_range addr (4 * lenN ps) a -> ~ in_range (p * 4096) 4096 a.

Lemma discard_page_frame p m :
  mem_frame (in_range (p * 4096) 4096) m {| ram := discard_pages [p] (ram m) |}.
Proof.
  unfold discard_pages. simpl. destruct (p * 4096 + 4096 <=? lenN (ram m)); [|by destruct m].
  split; simpl; [by rewrite dontneed_len|]. intros a Ha. apply dontneed_local.
  unfold in_range in Ha. lia.
Qed.

Lemma holds_pfns_tail m addr p ps : holds_pfns m addr (p :: ps) -> holds_pfns m (addr + 4) ps.
Proof.
  intros H i q Hi. destruct (H (S i) q Hi) as [Hq Hr]. split; [done|].
  by replace (addr + 4 + 4 * N.of_nat i) with (addr + 4 * N.of_nat (S i)) by lia.
Qed.

Lemma pfn_loop_tail inflate addr n : addr + 4 < 2 ^ 64 ->
  pfn_loop inflate addr n 1 = pfn_loop inflate (addr + 4) n 0.
Proof.
  intros H. replace (addr + 4) with (U.add 64 addr (1 * 4)) by (rewrite add64_small; lia).
  assert (forall j, pfn_loop inflate addr n (1 + j) = pfn_loop inflate (U.add 64 addr (1 * 4)) n j) as E.
  { clear -H. revert addr H. induction n as [|n IH]; intros addr H j; [done|]. cbn [pfn_loop].
    replace (U.add 64 (U.add 64 addr (1 * 4)) (j * 4)) with (U.add 64 addr ((1 + j) * 4)).
    { rewrite <- N.add_assoc, IH by done. done. }
    unfold U.add, U.wrap. rewrite N.Div0.add_mod_idemp_l. f_equal. lia. }
  apply (E 0).
Qed.

(** a deflate buffer of page frame numbers leaves RAM alone and takes its
    pages off [balloon_actual]; an inflate buffer discards exactly the listed
    pages that lie in RAM, in order, and adds its length to [balloon_actual],
    saturating. *)
Theorem balloon_buffer_exact inflate addr ps s :
  holds_pfns (b_mem s) addr ps -> buffer_apart addr ps -> addr + 4 * lenN ps < 2 ^ 64 ->
  in_u 32 (b_actual s) ->
  pfn_loop inflate addr (length ps) 0 s =
    (Ok tt, if inflate
      then {| b_mem := {| ram := discard_pages ps (ram (b_mem s)) |}; b_q := b_q s;
              b_actual := N.min (b_actual s + lenN ps) (U.max 32) |}
      else set_bactual (b_actual s - lenN ps) s).
Proof.
  revert addr s. induction ps as [|p ps IH]; intros addr s Hp Hd Hlt Ha.
  { unfold in_u in Ha. simpl. unfold ret. f_equal. unfold set_bactual, lenN, U.max.
    destruct inflate, s as [[] ? ?]; simpl in *; f_equal; lia. }
  assert (lenN (p :: ps) = lenN ps + 1) as El by (unfold lenN; simpl; lia).
  rewrite El in *. destruct (Hp 0%nat p eq_refl) as [Hp0 Hr0].
  rewrite N.add_0_r in Hr0. cbn [length pfn_loop]. unfold bind at 1.
  unfold on_bmem, on_guest, zoom. rewrite N.mul_0_l, add64_small, N.add_0_r, Hr0 by lia.
  cbn [fst snd]. replace (set_bmem (b_mem s) s) with s by by destruct s.
  rewrite from_le_bytes_small by done. unfold bind at 1.
  assert (buffer_apart (addr + 4) ps) as Hd'.
  { intros q a Hq Ha'. apply Hd; [by right|]. unfold in_range in *. rewrite El. lia. }
  rewrite N.add_0_l, pfn_loop_tail by lia. destruct inflate.
  - rewrite balloon_page_inflate by done. rewrite IH; [| |done|lia|].
    + f_equal. f_equal. simpl. unfold U.max. lia.
    + intros i q Hi. destruct (Hp (S i) q Hi) as [Hq Hr]. split; [done|].
      simpl. eapply read_at_keep; [apply discard_page_frame| |].
      * intros a Ha' Hin. apply (Hd p a); [by left| |done]. unfold in_range in *.
        apply lookup_lt_Some in Hi. rewrite El. unfold lenN. lia.
      * by replace (addr + 4 + 4 * N.of_nat i) with (addr + 4 * N.of_nat (S i)) by lia.
    + simpl. unfold in_u, U.max. lia.
  - rewrite balloon_page_deflate by done.
    rewrite IH; [|by apply holds_pfns_tail in Hp|done|lia|].
    + f_equal. unfold set_bactual. simpl. f_equal. lia.
    + simpl. unfold in_u in *. lia.
Qed.

End Balloon.

(** ** The control slot ([balloon_ctl.rs])

    The published device is shared with the VMM; what the control API does to it
    is the change of the slot's device. *)

Definition MIN_GUEST_MIB : u64 := 64.
Definition PAGES_PER_MIB : u64 := 256.

Record BalloonSlot := { slot_dev : option VirtioMmio; memory_mib : u64 }.

Record BalloonStatus := { bs_memory_mib : u64; target_mib : u64; actual_mib : u64 }.

Definition publish (dev : option VirtioMmio) (mib : u64) (_ : BalloonSlot) : BalloonSlot :=
  {| slot_dev := dev; memory_mib := mib |}.

Definition device : M BalloonSlot VirtioMmio :=
  let! s := get in ok_or (slot_dev s) Unsupported.

Definition pages_to_mib (pages : u32) : u64 := pages / PAGES_PER_MIB.

Definition status : M BalloonSlot BalloonStatus :=
  let! dev := device in
  let! s := get in
  ret {| bs_memory_mib := memory_mib s;
         target_mib := pages_to_mib (balloon_num_pages (state dev));
         actual_mib := pages_to_mib (balloon_actual (state dev)) |}.

Definition plan_balloon_pages (mib balloon_mib : u64) : outcome u32 :=
  let max := mib - MIN_GUEST_MIB in
  if max <? balloon_mib then Err Unsupported
  else
    let pages := U.mul 64 balloon_mib PAGES_PER_MIB in
    if pages <? 2 ^ 32 then Ok pages else Err Unsupported.

(** [dev.state.lock().balloon_num_pages = pages; dev.raise_config_interrupt()] *)
Definition retarget (pages : u32) (d : VirtioMmio) : VirtioMmio :=
  raise_config_interrupt
    (with_state (st_balloon pages (balloon_actual (state d)) (state d)) d).

Definition set_target (balloon_mib : u64) : M BalloonSlot BalloonStatus :=
  let! dev := device in
  let! s := get in
  let! pages := lift (plan_balloon_pages (memory_mib s) balloon_mib) in
  do! modify (fun s => {| slot_dev := Some (retarget pages dev); memory_mib := memory_mib s |}) in
  status.

(** [set_target] on a VM of less than 2^56 MiB accepts exactly the balloons
    that leave the guest 64 MiB and whose page count is a [u32]; it then stores
    the target in the device, raises the config interrupt, keeps the size the
    guest reached, and reports the target back in MiB.  Anything else is
    refused and leaves the device as it was. *)
Theorem set_target_exact s dev mib :
  slot_dev s = Some dev -> in_u 56 (memory_mib s) ->
  set_target mib s =
    if (MIN_GUEST_MIB + mib <=? N.max MIN_GUEST_MIB (memory_mib s)) && (mib * PAGES_PER_MIB <? 2 ^ 32)
    then (Ok {| bs_memory_mib := memory_mib s; target_mib := mib;
                actual_mib := balloon_actual (state dev) / PAGES_PER_MIB |},
          {| slot_dev := Some (raise_config_interrupt
               (with_state (st_balloon (mib * PAGES_PER_MIB) (balloon_actual (state dev)) (state dev)) dev));
             memory_mib := memory_mib s |})
    else (Err Unsupported, s).
Proof.
  intros Hdev Hmem. unfold in_u in Hmem.
  assert (plan_balloon_pages (memory_mib s) mib =
    if (MIN_GUEST_MIB + mib <=? N.max MIN_GUEST_MIB (memory_mib s)) && (mib * PAGES_PER_MIB <? 2 ^ 32)
    then Ok (mib * PAGES_PER_MIB) else Err Unsupported) as Hplan.
  { unfold plan_balloon_pages, MIN_GUEST_MIB, PAGES_PER_MIB.
    destruct (N.ltb_spec (memory_mib s - 64) mib), (N.leb_spec (64 + mib) (N.max 64 (memory_mib s)));
      try lia; [done|]. simpl. unfold U.mul. rewrite wrap_small; [done|]. unfold in_u. lia. }
  unfold set_target, device, status, bind, get, lift. rewrite Hdev. simpl.
  rewrite Hplan. destruct (_ && _); [|done]. unfold device, bind, modify, get, ret, ok_or. simpl.
  do 3 f_equal; try done. unfold retarget, raise_config_interrupt, raise_interrupt.
  unfold pages_to_mib, PAGES_PER_MIB. destruct dev. simpl. apply N.div_mul. lia.
Qed.

(** Above that size the page count is computed modulo 2^64: a balloon of 2^56
    MiB is accepted as an empty one. *)
Example plan_balloon_pages_wraps : plan_balloon_pages (2 ^ 57) (2 ^ 56) = Ok 0.
Proof. reflexivity. Qed.

(** ** Concrete instances *)

(** A host that zeroes the discarded range. *)
Definition zero_range (start len : usize) (r : bytes) : bytes :=
  if start + len <=? lenN r then splice (N.to_nat start) (repeat 0 (N.to_nat len)) r else r.

Lemma zero_range_len start len r : length (zero_range start len r) = length r.
Proof.
  unfold zero_range, lenN. destruct (N.leb_spec (start + len) (N.of_nat (length r))); [|done].
  apply length_splice. rewrite repeat_length. lia.
Qed.

Lemma zero_range_bytes start len r : is_bytes r -> is_bytes (zero_range start len r).
Proof.
  intros. unfold zero_range. destruct (_ <=? _); [|done]. apply splice_is_bytes; [done|].
  apply List.Forall_forall. intros x Hx%repeat_spec. by subst.
Qed.

Lemma zero_range_local start len r a :
  (a < N.to_nat start \/ N.to_nat (start + len) <= a)%nat -> zero_range start len r !! a = r !! a.
Proof.
  intros Ha. unfold zero_range, lenN. destruct (N.leb_spec (start + len) (N.of_nat (length r))); [|done].
  rewrite lookup_splice, repeat_length by (rewrite repeat_length; lia). by rewrite decide_False by lia.
Qed.

(** Three pages of RAM; page 1 is listed by a one-entry buffer at 0x800, posted
    on the inflate queue (descriptors at 0x100, avail at 0x200, used at 0x300). *)
Definition demo_bal_queue : QueueState :=
  q_set_rings 0x100 0x200 0x300 (q_set_num 8 (q_set_ready 1 QueueState_default)).

Definition demo_bal_ram : bytes :=
  splice 0x100 (le_bytes 8 0x800 ++ le_bytes 4 4 ++ le_bytes 2 0 ++ le_bytes 2 0)
    (splice 0x200 (le_bytes 2 0 ++ le_bytes 2 1 ++ le_bytes 2 0)
      (splice 0x800 (le_bytes 4 1) (repeat 0x11 12288))).

Definition demo_balloon : BalloonDev :=
  {| bd_mem := {| ram := demo_bal_ram |};
     bd_st := st_queues (demo_bal_queue :: demo_bal_queue :: repeat QueueState_default 7)
                (state (balloon 0 5 None)) |}.

Lemma balloon_notify_safe_witness :
  exists o d' k actual, handle_notify zero_range 0 demo_balloon = (o, d') /\ returns o /\ k <= 65 /\
    (forall r, o = Ok r -> r = k) /\ in_u 32 actual /\
    bd_st d' = st_queues
      (with_last_avail ((q_last_avail demo_bal_queue + k) mod 2 ^ 16) demo_bal_queue
        :: demo_bal_queue :: repeat QueueState_default 7)
      (st_balloon (balloon_num_pages (bd_st demo_balloon)) actual (bd_st demo_balloon)) /\
    mem_len (bd_mem d') = mem_len (bd_mem demo_balloon).
Proof.
  apply (balloon_notify_safe zero_range zero_range_len zero_range_bytes demo_balloon 0
           demo_bal_queue demo_bal_queue (repeat QueueState_default 7)).
  - reflexivity.
  - by_eval.
  - by_eval.
  - apply bytesb_spec. vm_compute. reflexivity.
  - by_eval.
Defined.

Definition demo_bal_ctx : BalloonCtx :=
  {| b_mem := {| ram := demo_bal_ram |}; b_q := demo_bal_queue; b_actual := 7 |}.

Lemma balloon_buffer_exact_witness :
  pfn_loop zero_range true 0x800 1 0 demo_bal_ctx =
    (Ok tt, {| b_mem := {| ram := discard_pages zero_range [1] demo_bal_ram |};
               b_q := demo_bal_queue; b_actual := 8 |}).
Proof.
  apply (balloon_buffer_exact zero_range zero_range_len zero_range_local true 0x800 [1] demo_bal_ctx).
  - intros [|i] p Hi; [|done]. injection Hi as <-. split; [by_eval|vm_compute; reflexivity].
  - intros p a Hp Ha. apply list_elem_of_singleton in Hp as ->.
    unfold in_range, lenN in *. simpl in *. lia.
  - vm_compute. reflexivity.
  - by_eval.
Defined.

Definition demo_slot : BalloonSlot := {| slot_dev := Some (balloon 0 5 (Some 0)); memory_mib := 1024 |}.

Lemma set_target_exact_witness :
  set_target 256 demo_slot =
    (Ok {| bs_memory_mib := 1024; target_mib := 256; actual_mib := 0 |},
     {| slot_dev := Some (raise_config_interrupt
          (with_state (st_balloon (256 * 256) 0 (state (balloon 0 5 (Some 0)))) (balloon 0 5 (Some 0))));
        memory_mib := 1024 |}).
Proof. apply (set_target_exact demo_slot (balloon 0 5 (Some 0)) 256); [reflexivity|by_eval]. Defined.
