(* ===== verification/Bus.v ===== *)
(** * The device bus

    [crates/fluxvm-hypervisor/src/bus.rs]: the port and MMIO buses a VM exit is
    dispatched on.  The traits [PioDevice] and [MmioDevice] are type classes, a
    [dyn] device is a value packed with its instance.  A read handler gets the
    buffer and returns it filled. *)

From stdpp Require Import prelude list.
From Stdlib Require Import NArith Lia.
From S2P Require Import Prelude VirtioMmio.

Class PioDevice (D : Type) := {
  port_range : D -> u16 * u16;
  io_out : u16 -> bytes -> M D unit;
  io_in : u16 -> bytes -> M D bytes;
}.

Class MmioDevice (D : Type) := {
  mmio_range : D -> u64 * u64;
  dev_mmio_write : u64 -> bytes -> M D unit;
  dev_mmio_read : u64 -> bytes -> M D bytes;
}.

#[global] Instance VirtioMmio_device : MmioDevice VirtioMmio := {
  mmio_range d := (base d, U.sub 64 (U.add 64 (base d) (size d)) 1);
  dev_mmio_write := VirtioMmio.mmio_write;
  dev_mmio_read := VirtioMmio.mmio_read;
}.

Inductive DynPio := dyn_pio (D : Type) (_ : PioDevice D) (d : D).
Inductive DynMmio := dyn_mmio (D : Type) (_ : MmioDevice D) (d : D).

Record Bus := { pio : list DynPio; mmio : list DynMmio }.

Definition new_bus : Bus := {| pio := []; mmio := [] |}.

Definition add_pio (dev : DynPio) (b : Bus) : Bus := {| pio := pio b ++ [dev]; mmio := mmio b |}.
Definition add_mmio (dev : DynMmio) (b : Bus) : Bus := {| pio := pio b; mmio := mmio b ++ [dev] |}.

(** [range.contains(&x)] of an inclusive range. *)
Definition contains (r : N * N) (x : N) : bool := (r.1 <=? x) && (x <=? r.2).

Definition pio_span (d : DynPio) : u16 * u16 := let '(dyn_pio _ _ d) := d in port_range d.
Definition mmio_span (d : DynMmio) : u64 * u64 := let '(dyn_mmio _ _ d) := d in mmio_range d.

(** A handler run on the packed device. *)
Definition pio_run {A} (f : forall D, PioDevice D -> M D A) : M DynPio A := fun d =>
  let '(dyn_pio D ops x) := d in let '(o, x') := f D ops x in (o, dyn_pio D ops x').
Definition mmio_run {A} (f : forall D, MmioDevice D -> M D A) : M DynMmio A := fun d =>
  let '(dyn_mmio D ops x) := d in let '(o, x') := f D ops x in (o, dyn_mmio D ops x').

(** [for d in devs { if range(d).contains(x) { return run(d) } } other] *)
Fixpoint dispatch {D A} (span : D -> N * N) (x : N) (run : M D A) (other : outcome A)
    : M (list D) A := fun ds =>
  match ds with
  | [] => (other, [])
  | d :: ds =>
      if contains (span d) x then let '(o, d') := run d in (o, d' :: ds)
      else let '(o, ds') := dispatch span x run other ds in (o, d :: ds')
  end.

Definition on_pio {A} (m : M (list DynPio) A) : M Bus A :=
  zoom pio (fun l b => {| pio := l; mmio := mmio b |}) m.
Definition on_mmio {A} (m : M (list DynMmio) A) : M Bus A :=
  zoom mmio (fun l b => {| pio := pio b; mmio := l |}) m.

Definition fill (v : N) (data : bytes) : bytes := map (fun _ => v) data.

Definition pio_write (port : u16) (data : bytes) : M Bus unit :=
  on_pio (dispatch pio_span port (pio_run (fun D _ => io_out port data)) (Ok tt)).

Definition pio_read (port : u16) (data : bytes) : M Bus bytes :=
  on_pio (dispatch pio_span port (pio_run (fun D _ => io_in port data)) (Ok (fill 0xff data))).

Definition mmio_write (addr : u64) (data : bytes) : M Bus unit :=
  on_mmio (dispatch mmio_span addr (mmio_run (fun D _ => dev_mmio_write addr data)) (Err Device)).

Definition mmio_read (addr : u64) (data : bytes) : M Bus bytes :=
  on_mmio (dispatch mmio_span addr (mmio_run (fun D _ => dev_mmio_read addr data))
    (Ok (fill 0xff data))).

(** ** Dispatch *)

Section Dispatch.
Context {D A : Type} (span : D -> N * N) (x : N) (run : M D A) (other : outcome A).

Lemma dispatch_hit ds i d :
  ds !! i = Some d -> contains (span d) x = true ->
  (forall j e, (j < i)%nat -> ds !! j = Some e -> contains (span e) x = false) ->
  dispatch span x run other ds = ((run d).1, <[i := (run d).2]> ds).
Proof.
  revert i. induction ds as [|e ds IH]; intros i Hi Hc Hbefore; [done|].
  destruct i as [|i]; simpl in *.
  - injection Hi as ->. rewrite Hc. by destruct (run d).
  - rewrite (Hbefore 0%nat e) by (lia || done). rewrite (IH i); [done..|].
    intros j e' Hj. apply (Hbefore (S j)). lia.
Qed.

Lemma dispatch_miss ds :
  (forall d, d ∈ ds -> contains (span d) x = false) -> dispatch span x run other ds = (other, ds).
Proof.
  induction ds as [|d ds IH]; intros H; [done|]. simpl. rewrite H by by left.
  by rewrite IH by (intros; apply H; by right).
Qed.

End Dispatch.

(** Ranges that do not meet. *)
Definition apart {D} (span : D -> N * N) (ds : list D) : Prop :=
  forall i j d e x, i <> j -> ds !! i = Some d -> ds !! j = Some e ->
    contains (span d) x = true -> contains (span e) x = false.

(** What a non-overlapping bus does with an access: [access] runs [run] on the
    one device that claims [x], and answers [other] when none does. *)
Definition routes {D A} (span : D -> N * N) (x : N) (run : M D A) (other : outcome A)
    (devs : Bus -> list D) (put : list D -> Bus -> Bus) (access : M Bus A) (b : Bus) : Prop :=
  (forall i d, devs b !! i = Some d -> contains (span d) x = true ->
     access b = ((run d).1, put (<[i := (run d).2]> (devs b)) b)) /\
  ((forall d, d ∈ devs b -> contains (span d) x = false) -> access b = (other, b)).

Definition put_pio (l : list DynPio) (b : Bus) : Bus := {| pio := l; mmio := mmio b |}.
Definition put_mmio (l : list DynMmio) (b : Bus) : Bus := {| pio := pio b; mmio := l |}.

Lemma dispatch_routes {D A} (span : D -> N * N) x (run : M D A) other devs put b :
  apart span (devs b) -> put (devs b) b = b ->
  routes span x run other devs put (zoom devs put (dispatch span x run other)) b.
Proof.
  intros Hap Hput. split.
  - intros i d Hi Hc. unfold zoom. rewrite (dispatch_hit _ _ _ _ _ i d Hi Hc); [done|].
    intros j e Hj He. apply (Hap i j d e); [lia|done..].
  - intros H. unfold zoom. rewrite dispatch_miss by done. by rewrite Hput.
Qed.

(** on a bus whose devices do not overlap, every port or MMIO access goes to
    the one device whose range holds the address, wherever it was registered: it
    alone changes and its result is the guest's.  An address no device claims
    reads as all ones; a port write there is dropped and an MMIO write there is
    an error; nothing changes. *)
Theorem bus_routes b x data :
  apart pio_span (pio b) -> apart mmio_span (mmio b) ->
  routes pio_span x (pio_run (fun D _ => io_out x data)) (Ok tt) pio put_pio (pio_write x data) b /\
  routes pio_span x (pio_run (fun D _ => io_in x data)) (Ok (repeat 0xff (length data)))
    pio put_pio (pio_read x data) b /\
  routes mmio_span x (mmio_run (fun D _ => dev_mmio_write x data)) (Err Device)
    mmio put_mmio (mmio_write x data) b /\
  routes mmio_span x (mmio_run (fun D _ => dev_mmio_read x data)) (Ok (repeat 0xff (length data)))
    mmio put_mmio (mmio_read x data) b.
Proof.
  intros Hp Hm. replace (repeat 0xff (length data)) with (fill 0xff data)
    by (unfold fill; induction data; simpl; by f_equal).
  split; [|split; [|split]]; apply dispatch_routes; try done; by destruct b.
Qed.

(** Two virtio windows, as [VmConfig] lays them out. *)
Definition demo_bus : Bus :=
  add_mmio (dyn_mmio _ _ (balloon 0xd0001000 6 None))
    (add_mmio (dyn_mmio _ _ (rng 0xd0000000 5 None)) new_bus).

Lemma demo_bus_apart : apart mmio_span (mmio demo_bus).
Proof.
  assert (mmio_span (dyn_mmio _ _ (rng 0xd0000000 5 None)) = (0xd0000000, 0xd00001ff)) as H0
    by reflexivity.
  assert (mmio_span (dyn_mmio _ _ (balloon 0xd0001000 6 None)) = (0xd0001000, 0xd00011ff)) as H1
    by reflexivity.
  intros i j d e x Hij Hi Hj. unfold contains. rewrite andb_true_iff, andb_false_iff, !N.leb_le, !N.leb_gt.
  unfold demo_bus in Hi, Hj. cbn [mmio add_mmio new_bus app] in Hi, Hj.
  destruct i as [|[|i]], j as [|[|j]]; try done; injection Hi as <-; injection Hj as <-;
    rewrite H0, H1; cbn [fst snd]; lia.
Qed.

Lemma bus_routes_witness :
  routes mmio_span 0xd0001070 (mmio_run (fun D _ => dev_mmio_write 0xd0001070 [0; 0; 0; 0]))
    (Err Device) mmio put_mmio (mmio_write 0xd0001070 [0; 0; 0; 0]) demo_bus.
Proof.
  apply (bus_routes demo_bus 0xd0001070 [0; 0; 0; 0]).
  - by intros [|i] j d e x.
  - apply demo_bus_apart.
Defined.
