(* ===== verification/Serial.v ===== *)
(** * The COM1 UART

    [crates/fluxvm-hypervisor/src/devices/serial.rs].  The bytes written to the
    host's stdout and the interrupt eventfd are part of the device state. *)

From stdpp Require Import prelude list.
From Stdlib Require Import NArith Lia.
From S2P Require Import Prelude VirtioMmio Bus.

Definition IIR_NO_INT : u8 := 0x01.
Definition IIR_THR : u8 := 0x02.
Definition IIR_RDA : u8 := 0x04.
Definition IIR_FIFO_BITS : u8 := 0xc0.
Definition IER_RDA : u8 := 0x01.
Definition IER_THR : u8 := 0x02.

(** [evt] is the eventfd's counter, [None] when [interrupt_evt] is [-1]; [out] is
    what the guest sent to stdout. *)
Record Serial16550 := {
  sbase : u16; irq : u32;
  ier : u8; lcr : u8; mcr : u8; scratch : u8; dll : u8; dlm : u8; fcr : u8; iir : u8;
  rx : bytes; evt : option N; out : bytes;
}.

(** [create_eventfd] with whether the host gave a descriptor. *)
Definition create_eventfd (available : bool) : option N := if available then Some 0 else None.

Definition com1 (available : bool) : Serial16550 :=
  {| sbase := 0x3f8; irq := 4; ier := 0; lcr := 0x03; mcr := 0x08; scratch := 0; dll := 0x0c;
     dlm := 0; fcr := 0; iir := IIR_NO_INT; rx := []; evt := create_eventfd available; out := [] |}.

Definition set_regs (ie lc mc sc dl dm fc : u8) (s : Serial16550) : Serial16550 :=
  {| sbase := sbase s; irq := irq s; ier := ie; lcr := lc; mcr := mc; scratch := sc; dll := dl;
     dlm := dm; fcr := fc; iir := iir s; rx := rx s; evt := evt s; out := out s |}.

Definition set_iir (v : u8) (s : Serial16550) : Serial16550 :=
  {| sbase := sbase s; irq := irq s; ier := ier s; lcr := lcr s; mcr := mcr s;
     scratch := scratch s; dll := dll s; dlm := dlm s; fcr := fcr s; iir := v; rx := rx s;
     evt := evt s; out := out s |}.

Definition set_rx (v : bytes) (s : Serial16550) : Serial16550 :=
  {| sbase := sbase s; irq := irq s; ier := ier s; lcr := lcr s; mcr := mcr s;
     scratch := scratch s; dll := dll s; dlm := dlm s; fcr := fcr s; iir := iir s; rx := v;
     evt := evt s; out := out s |}.

Definition set_io (e : option N) (o : bytes) (s : Serial16550) : Serial16550 :=
  {| sbase := sbase s; irq := irq s; ier := ier s; lcr := lcr s; mcr := mcr s;
     scratch := scratch s; dll := dll s; dlm := dlm s; fcr := fcr s; iir := iir s; rx := rx s;
     evt := e; out := o |}.

Definition offset (s : Serial16550) (port : u16) : u16 := port - sbase s.

Definition rx_len (s : Serial16550) : usize := lenN (rx s).

Definition irq_pending (s : Serial16550) : bool := negb (iir s =? IIR_NO_INT).

Definition trigger_interrupt (s : Serial16550) : Serial16550 :=
  set_io (trigger_eventfd (evt s)) (out s) s.

(** The rising edge shared by the two interrupt sources. *)
Definition thr_empty_interrupt (s : Serial16550) : Serial16550 :=
  if negb (bits (ier s) IER_THR) then s
  else if bits (iir s) IIR_THR then s
  else trigger_interrupt (set_iir (N.lor (N.land (iir s) (U.not 8 IIR_NO_INT)) IIR_THR) s).

Definition recv_data_interrupt (s : Serial16550) : Serial16550 :=
  if negb (bits (ier s) IER_RDA) then s
  else if bits (iir s) IIR_RDA then s
  else trigger_interrupt (set_iir (N.lor (N.land (iir s) (U.not 8 IIR_NO_INT)) IIR_RDA) s).

(** [for &b in bytes { if q.len() < 1024 { q.push_back(b) } }] *)
Definition enqueue (q bs : bytes) : bytes :=
  fold_left (fun q b => if lenN q <? 1024 then q ++ [b] else q) bs q.

Definition push_rx (bs : bytes) (s : Serial16550) : Serial16550 :=
  let was_empty := match rx s with [] => true | _ => false end in
  let q := enqueue (rx s) bs in
  let now_nonempty := match q with [] => false | _ => true end in
  let s := set_rx q s in
  if was_empty && now_nonempty then recv_data_interrupt s else s.

Definition serial_out (port : u16) (data : bytes) : M Serial16550 unit :=
  let v := match data with v :: _ => v | [] => 0 end in
  let! s := get in
  let dlab := bits (lcr s) 0x80 in
  let off := offset s port in
  let regs ie lc mc sc dl dm fc := modify (set_regs ie lc mc sc dl dm fc) in
  if (off =? 0) && dlab then regs (ier s) (lcr s) (mcr s) (scratch s) v (dlm s) (fcr s)
  else if off =? 0 then modify (fun s => thr_empty_interrupt (set_io (evt s) (out s ++ [v]) s))
  else if (off =? 1) && dlab then regs (ier s) (lcr s) (mcr s) (scratch s) (dll s) v (fcr s)
  else if off =? 1 then regs (N.land v 0x0f) (lcr s) (mcr s) (scratch s) (dll s) (dlm s) (fcr s)
  else if off =? 2 then regs (ier s) (lcr s) (mcr s) (scratch s) (dll s) (dlm s) v
  else if off =? 3 then regs (ier s) v (mcr s) (scratch s) (dll s) (dlm s) (fcr s)
  else if off =? 4 then regs (ier s) (lcr s) v (scratch s) (dll s) (dlm s) (fcr s)
  else if off =? 7 then regs (ier s) (lcr s) (mcr s) v (dll s) (dlm s) (fcr s)
  else ret tt.

(** The receive buffer read: the byte and the state. *)
Definition read_rbr (s : Serial16550) : u8 * Serial16550 :=
  let '(b, q) := match rx s with [] => (0, []) | b :: q => (b, q) end in
  let s := set_rx q s in
  match q with
  | [] =>
      let i := N.land (iir s) (U.not 8 IIR_RDA) in
      (b, set_iir (if N.land i (N.lor IIR_THR IIR_RDA) =? 0 then IIR_NO_INT else i) s)
  | _ => (b, s)
  end.

(** The interrupt identification read. *)
Definition read_iir (s : Serial16550) : u8 * Serial16550 :=
  let raw := iir s in
  let reported :=
    if raw =? IIR_NO_INT then IIR_NO_INT
    else if bits raw IIR_RDA then IIR_RDA
    else if bits raw IIR_THR then IIR_THR
    else N.land raw (U.not 8 IIR_NO_INT) in
  (N.lor reported IIR_FIFO_BITS, set_iir IIR_NO_INT s).

Definition serial_in_value (port : u16) (s : Serial16550) : u8 * Serial16550 :=
  let dlab := bits (lcr s) 0x80 in
  let off := offset s port in
  if (off =? 0) && dlab then (dll s, s)
  else if off =? 0 then read_rbr s
  else if (off =? 1) && dlab then (dlm s, s)
  else if off =? 1 then (ier s, s)
  else if off =? 2 then read_iir s
  else if off =? 3 then (lcr s, s)
  else if off =? 4 then (mcr s, s)
  else if off =? 5 then
    (let lsr := N.lor 0x20 0x40 in match rx s with [] => lsr | _ => N.lor lsr 0x01 end, s)
  else if off =? 6 then (N.lor (N.lor 0x10 0x20) 0x80, s)
  else if off =? 7 then (scratch s, s)
  else (0xff, s).

Definition serial_in (port : u16) (data : bytes) : M Serial16550 bytes := fun s =>
  let '(v, s) := serial_in_value port s in
  (Ok (match data with [] => [] | _ :: rest => v :: rest end), s).

#[global] Instance Serial_pio : PioDevice Serial16550 := {
  port_range s := (sbase s, U.add 16 (sbase s) 7);
  io_out := serial_out;
  io_in := serial_in;
}.

(** ** The receive queue *)

(** What [push_rx] takes of its bytes. *)
Definition accepted (q bs : bytes) : bytes := take (1024 - length q) bs.

Lemma enqueue_eq q bs : (length q <= 1024)%nat -> enqueue q bs = q ++ accepted q bs.
Proof.
  revert q. induction bs as [|b bs IH]; intros q Hq; unfold enqueue, accepted.
  - simpl. by rewrite take_nil, app_nil_r.
  - cbn [fold_left]. fold (enqueue (if lenN q <? 1024 then q ++ [b] else q) bs).
    unfold lenN. destruct (N.ltb_spec (N.of_nat (length q)) 1024).
    + rewrite IH by (rewrite length_app; simpl; lia). unfold accepted.
      rewrite length_app. simpl. replace (1024 - length q)%nat with (S (1023 - length q)) by lia.
      simpl. rewrite <- app_assoc. simpl. do 3 f_equal. lia.
    + rewrite IH by done. unfold accepted. replace (1024 - length q)%nat with 0%nat by lia. done.
Qed.

(** The interrupt identification register holds no interrupt, or some of the two
    sources. *)
Definition iir_ok (v : u8) : bool :=
  (v =? 1) || (v =? 2) || (v =? 4) || (v =? 6).

Lemma iir_ok_cases v : iir_ok v = true -> v = 1 \/ v = 2 \/ v = 4 \/ v = 6.
Proof. unfold iir_ok. rewrite !orb_true_iff, !N.eqb_eq. tauto. Qed.

(** An operation of the host or of the guest, with what it pushes into the queue
    and takes out of it. *)
Inductive serial_op :=
| HostPush (bs : bytes)
| GuestOut (port : u16) (data : bytes)
| GuestIn (port : u16) (data : bytes).

Definition serial_step (op : serial_op) (s : Serial16550) : Serial16550 :=
  match op with
  | HostPush bs => push_rx bs s
  | GuestOut port data => (serial_out port data s).2
  | GuestIn port data => (serial_in port data s).2
  end.

(** Whether the guest read takes a byte of the queue. *)
Definition pops (s : Serial16550) (op : serial_op) : bytes :=
  match op with
  | GuestIn port _ =>
      if (offset s port =? 0) && negb (bits (lcr s) 0x80) then take 1 (rx s) else []
  | _ => []
  end.

Definition pushes (s : Serial16550) (op : serial_op) : bytes :=
  match op with HostPush bs => accepted (rx s) bs | _ => [] end.

(** A run, with the bytes accepted and the bytes delivered, in order. *)
Inductive serial_run : Serial16550 -> list serial_op -> bytes -> bytes -> Serial16550 -> Prop :=
| run_nil s : serial_run s [] [] [] s
| run_cons s op ops i d s' :
    serial_run (serial_step op s) ops i d s' ->
    serial_run s (op :: ops) (pushes s op ++ i) (pops s op ++ d) s'.

Definition serial_inv (s : Serial16550) : Prop :=
  (length (rx s) <= 1024)%nat /\ iir_ok (iir s) = true /\ sbase s = 0x3f8.

Lemma rising_iir v bit : iir_ok v = true -> bit = 2 \/ bit = 4 ->
  iir_ok (N.lor (N.land v (U.not 8 IIR_NO_INT)) bit) = true.
Proof. intros H%iir_ok_cases Hb. by destruct H as [->|[->|[->| ->]]], Hb as [->| ->]. Qed.

Lemma recv_rx s : rx (recv_data_interrupt s) = rx s /\ sbase (recv_data_interrupt s) = sbase s /\
  (iir_ok (iir s) = true -> iir_ok (iir (recv_data_interrupt s)) = true).
Proof.
  unfold recv_data_interrupt. repeat case_match; try done. repeat split. simpl.
  intros. by apply rising_iir; [|right].
Qed.

Lemma thr_rx s : rx (thr_empty_interrupt s) = rx s /\ sbase (thr_empty_interrupt s) = sbase s /\
  (iir_ok (iir s) = true -> iir_ok (iir (thr_empty_interrupt s)) = true).
Proof.
  unfold thr_empty_interrupt. repeat case_match; try done. repeat split. simpl.
  intros. by apply rising_iir; [|left].
Qed.

Lemma serial_out_inv port data s : serial_inv s ->
  serial_inv (serial_out port data s).2 /\ rx (serial_out port data s).2 = rx s.
Proof.
  intros (Hl & Hi & Hb). unfold serial_out, bind, get, modify, ret.
  repeat case_match; simpl; try done.
  all: match goal with |- context [thr_empty_interrupt ?x] => destruct (thr_rx x) as (E1 & E2 & E3) end.
  all: unfold serial_inv; rewrite E1, E2; split; [|done]; split; [done|]; split; [by apply E3|done].
Qed.

Lemma read_rbr_inv s : serial_inv s ->
  serial_inv (read_rbr s).2 /\ rx s = take 1 (rx s) ++ rx (read_rbr s).2.
Proof.
  intros (Hl & Hi & Hb). unfold read_rbr. destruct (rx s) as [|b [|c q]] eqn:E; simpl in *;
    try (split; [|done]); unfold serial_inv; simpl; rewrite ?E; simpl;
    (split; [lia|]); (split; [|done]); try done;
    by apply iir_ok_cases in Hi as [->|[->|[->| ->]]].
Qed.

Lemma serial_in_inv port data s : serial_inv s ->
  serial_inv (serial_in port data s).2 /\
  rx s = pops s (GuestIn port data) ++ rx (serial_in port data s).2.
Proof.
  intros Hs. unfold serial_in. destruct (serial_in_value port s) as [v s'] eqn:E. simpl.
  revert E. unfold serial_in_value. destruct (offset s port =? 0) eqn:E0; simpl.
  - destruct (bits (lcr s) 0x80); simpl; [by intros [= <- <-]|].
    intros E. pose proof (read_rbr_inv s Hs) as H. by rewrite E in H.
  - repeat case_match; intros [= <- <-]; try done. destruct Hs as (? & ? & ?).
    by repeat split.
Qed.

Lemma push_rx_inv bs s : serial_inv s ->
  serial_inv (push_rx bs s) /\ rx (push_rx bs s) = rx s ++ accepted (rx s) bs.
Proof.
  intros (Hl & Hi & Hb).
  assert (length (rx s ++ accepted (rx s) bs) <= 1024)%nat as Hlen.
  { rewrite length_app. unfold accepted. rewrite length_take. lia. }
  assert (rx (push_rx bs s) = rx s ++ accepted (rx s) bs /\ sbase (push_rx bs s) = sbase s /\
    iir_ok (iir (push_rx bs s)) = true) as (E1 & E2 & E3).
  { unfold push_rx. rewrite <- enqueue_eq by done. destruct (_ && _); [|by repeat split].
    destruct (recv_rx (set_rx (enqueue (rx s) bs) s)) as (E1 & E2 & E3). rewrite E1, E2.
    split; [done|]. split; [done|]. by apply E3. }
  unfold serial_inv. by rewrite E1, E2.
Qed.

Lemma serial_step_inv op s : serial_inv s ->
  serial_inv (serial_step op s) /\ rx s ++ pushes s op = pops s op ++ rx (serial_step op s).
Proof.
  intros Hs. destruct op as [bs|port data|port data]; simpl.
  - destruct (push_rx_inv bs s Hs) as [H1 H2]. by rewrite H2.
  - destruct (serial_out_inv port data s Hs) as [H1 H2]. rewrite H2, app_nil_r. done.
  - destruct (serial_in_inv port data s Hs) as [H1 H2]. rewrite app_nil_r. split; [done|exact H2].
Qed.

(** whatever the host pushes and the guest does to the UART, its receive
    queue never exceeds 1024 bytes, and the bytes the guest reads followed by
    the bytes still queued are exactly the bytes accepted, in the order they were
    pushed; the interrupt identification register is always a legal value. *)
Theorem serial_fifo ops i d s avail :
  serial_run (com1 avail) ops i d s ->
  i = d ++ rx s /\ (length (rx s) <= 1024)%nat /\ iir_ok (iir s) = true.
Proof.
  assert (forall s0, serial_inv s0 -> serial_run s0 ops i d s ->
    rx s0 ++ i = d ++ rx s /\ serial_inv s) as Hgen.
  { intros s0 Hs Hrun. induction Hrun as [s|s op ops i d s' Hrun IH].
    - by rewrite app_nil_r.
    - destruct (serial_step_inv op s Hs) as [Hs1 He]. destruct (IH Hs1) as [IH1 IH2].
      split; [|done]. by rewrite app_assoc, He, <- !app_assoc, IH1. }
  intros Hrun. destruct (Hgen (com1 avail)) as [He Hs]; [|done|].
  { repeat split. simpl. lia. }
  simpl in He. destruct Hs as (H1 & H2 & _). done.
Qed.

(** [n] one-byte reads of the receive buffer port. *)
Fixpoint drain (n : nat) (s : Serial16550) : bytes * Serial16550 :=
  match n with
  | O => ([], s)
  | S n =>
      let '(o, s) := serial_in 0x3f8 [0] s in
      let '(bs, s) := drain n s in
      (match o with Ok b => b ++ bs | _ => bs end, s)
  end.

Lemma read_rbr_rx b q s : rx s = b :: q ->
  (read_rbr s).1 = b /\ rx (read_rbr s).2 = q /\ lcr (read_rbr s).2 = lcr s /\
  sbase (read_rbr s).2 = sbase s /\ evt (read_rbr s).2 = evt s /\
  (iir s = IIR_NO_INT -> iir (read_rbr s).2 = IIR_NO_INT).
Proof. intros E. unfold read_rbr. rewrite E. destruct q; repeat split; simpl; by intros ->. Qed.

Lemma drain_all bs s :
  rx s = bs -> bits (lcr s) 0x80 = false -> sbase s = 0x3f8 -> iir s = IIR_NO_INT ->
  (drain (length bs) s).1 = bs /\ rx (drain (length bs) s).2 = [] /\
  iir (drain (length bs) s).2 = IIR_NO_INT.
Proof.
  revert s. induction bs as [|b bs IH]; intros s Hr Hd Hb Hi; [done|].
  destruct (read_rbr_rx b bs s Hr) as (E1 & E2 & E3 & E4 & E5 & E6).
  cbn [length drain]. unfold serial_in, serial_in_value, offset. rewrite Hb, Hd.
  change ((0x3f8 - 0x3f8 =? 0) && false) with false. change (0x3f8 - 0x3f8 =? 0) with true. cbv iota.
  destruct (read_rbr s) as [v s1]. simpl in E1, E2, E3, E4, E5, E6. subst v.
  destruct (IH s1) as (F1 & F2 & F3); [congruence..|by apply E6|].
  destruct (drain (length bs) s1) as [bs' s2]. simpl in *. by subst.
Qed.

(** with the receive interrupt enabled, console input arriving on an idle
    UART fires the interrupt line once; the guest then identifies it as "data
    available" and reads back exactly the bytes the host pushed, after which the
    queue is empty and no interrupt is pending. *)
Theorem serial_receive s bs :
  rx s = [] -> iir s = IIR_NO_INT -> sbase s = 0x3f8 -> bits (lcr s) 0x80 = false ->
  bits (ier s) IER_RDA = true -> (0 < length bs <= 1024)%nat ->
  let s1 := push_rx bs s in
  evt s1 = trigger_eventfd (evt s) /\ irq_pending s1 = true /\
  let '(o, s2) := serial_in 0x3fa [0] s1 in
  o = Ok [N.lor IIR_RDA IIR_FIFO_BITS] /\
  let '(got, s3) := drain (length bs) s2 in
  got = bs /\ rx s3 = [] /\ irq_pending s3 = false.
Proof.
  intros Hr Hi Hb Hd He Hl s1.
  assert (s1 = trigger_interrupt (set_iir 4 (set_rx bs s))) as ->.
  { unfold s1, push_rx. rewrite enqueue_eq, Hr by (rewrite Hr; simpl; lia). simpl.
    unfold accepted. simpl length. rewrite take_ge by lia.
    destruct bs; [simpl in Hl; lia|]. simpl andb. cbv iota.
    unfold recv_data_interrupt. simpl. by rewrite He, Hi. }
  split; [done|]. split; [done|]. unfold serial_in at 1, serial_in_value, offset. simpl sbase.
  rewrite Hb. change (0x3fa - 0x3f8) with 2. simpl. split; [done|].
  match goal with |- context [drain _ ?x] => destruct (drain_all bs x) as (F1 & F2 & F3) end; try done.
  destruct (drain _ _) as [got s3]. simpl in *. subst. split; [done|]. split; [done|].
  unfold irq_pending. by rewrite F3.
Qed.

Definition demo_ops : list serial_op :=
  [GuestOut 0x3f9 [1]; HostPush [104; 105]; GuestIn 0x3f8 [0]; HostPush [33]].

Lemma serial_fifo_witness :
  [104; 105; 33] = [104] ++ rx (fold_left (fun s op => serial_step op s) demo_ops (com1 true)) /\
  (length (rx (fold_left (fun s op => serial_step op s) demo_ops (com1 true))) <= 1024)%nat /\
  iir_ok (iir (fold_left (fun s op => serial_step op s) demo_ops (com1 true))) = true.
Proof.
  apply (serial_fifo demo_ops [104; 105; 33] [104] _ true).
  exact (run_cons _ _ _ _ _ _ (run_cons _ _ _ _ _ _ (run_cons _ _ _ _ _ _
    (run_cons _ _ _ _ _ _ (run_nil _))))).
Defined.

Definition demo_com1 : Serial16550 := (serial_out 0x3f9 [1] (com1 true)).2.

Lemma serial_receive_witness :
  evt (push_rx [104; 105] demo_com1) = Some 1 /\ irq_pending (push_rx [104; 105] demo_com1) = true /\
  let '(o, s2) := serial_in 0x3fa [0] (push_rx [104; 105] demo_com1) in
  o = Ok [N.lor IIR_RDA IIR_FIFO_BITS] /\
  let '(got, s3) := drain 2 s2 in
  got = [104; 105] /\ rx s3 = [] /\ irq_pending s3 = false.
Proof.
  apply (serial_receive demo_com1 [104; 105]); try reflexivity. simpl. lia.
Defined.
