(* ===== verification/Cmos.v ===== *)
(** * The CMOS clock

    [crates/fluxvm-hypervisor/src/devices/cmos.rs].  The host clock is an
    argument: the seconds since 1970 a read of the time registers sees. *)

From stdpp Require Import prelude list.
From Stdlib Require Import NArith ZArith Lia.
From S2P Require Import Prelude Bus.

Record CmosRtc := { addr : u8; nvram : bytes }.

Definition new_cmos : CmosRtc :=
  {| addr := 0;
     nvram := <[0x0d%nat := 0x80]> (<[0x0b%nat := 0x02]> (<[0x0a%nat := 0x26]> (repeat 0 128))) |}.

Definition to_bcd (v : u8) : u8 := N.lor (U.wrap 8 (N.shiftl (v / 10) 4)) (v mod 10).

(** The civil date [(y, m, d)] of a day number, as [refresh_time] computes it. *)
Definition civil (days : u64) : Z * N * N :=
  let z := (Z.of_N days + 719468)%Z in
  let era := Z.quot (if (0 <=? z)%Z then z else z - 146096)%Z 146097 in
  let doe := Z.to_N (z - era * 146097)%Z in
  let yoe := (doe - doe / 1460 + doe / 36524 - doe / 146096) / 365 in
  let y := (Z.of_N yoe + era * 400)%Z in
  let doy := doe - (365 * yoe + yoe / 4 - yoe / 100) in
  let mp := (5 * doy + 2) / 153 in
  let d := doy - (153 * mp + 2) / 5 + 1 in
  let m := if mp <? 10 then mp + 3 else mp - 9 in
  let y := if m <=? 2 then (y + 1)%Z else y in
  (y, m, d).

(** The registers the time refresh writes, in its order. *)
Definition time_regs (secs : u64) : list (nat * u8) :=
  let days := secs / 86400 in
  let tod := secs mod 86400 in
  let hour := tod / 3600 in
  let min := (tod mod 3600) / 60 in
  let sec := tod mod 60 in
  let '(y, m, d) := civil days in
  let year := Z.to_N (Z.rem y 100) in
  let dow := (days + 4) mod 7 in
  [(0x00%nat, to_bcd sec); (0x02%nat, to_bcd min); (0x04%nat, to_bcd hour); (0x06%nat, to_bcd dow);
   (0x07%nat, to_bcd d); (0x08%nat, to_bcd m); (0x09%nat, to_bcd year)].

Definition refresh_time (secs : u64) (data : bytes) : bytes :=
  let data := fold_left (fun l '(i, v) => <[i := v]> l) (time_regs secs) data in
  alter (fun v => N.land v (U.not 8 0x80)) 0x0a%nat data.

Definition cmos_out (port : u16) (data : bytes) : M CmosRtc unit :=
  let v := match data with v :: _ => v | [] => 0 end in
  if port =? 0x70 then modify (fun c => {| addr := N.land v 0x7f; nvram := nvram c |})
  else if port =? 0x71 then
    let! c := get in
    let idx := N.land (addr c) 0x7f in
    if idx <? 128 then modify (fun c => {| addr := addr c; nvram := <[N.to_nat idx := v]> (nvram c) |})
    else ret tt
  else ret tt.

(** [now] is what [SystemTime::now] answers. *)
Definition cmos_in_value (now : u64) (port : u16) (c : CmosRtc) : u8 * CmosRtc :=
  if port =? 0x70 then (addr c, c)
  else if port =? 0x71 then
    let idx := N.land (addr c) 0x7f in
    let mem := if (idx <=? 0x09) || (idx =? 0x0a) then refresh_time now (nvram c) else nvram c in
    (default 0 (mem !! N.to_nat idx), {| addr := addr c; nvram := mem |})
  else (0xff, c).

Definition cmos_in (now : u64) (port : u16) (data : bytes) : M CmosRtc bytes := fun c =>
  let '(v, c) := cmos_in_value now port c in
  (Ok (match data with [] => [] | _ :: rest => v :: rest end), c).

#[global] Instance Cmos_pio (now : u64) : PioDevice CmosRtc := {
  port_range _ := (0x70, 0x71);
  io_out := cmos_out;
  io_in := cmos_in now;
}.

(** ** The calendar *)

Definition is_leap (y : N) : bool :=
  (y mod 4 =? 0) && (negb (y mod 100 =? 0) || (y mod 400 =? 0)).

Definition year_days (y : N) : N := if is_leap y then 366 else 365.

Definition month_days (y m : N) : N :=
  if m =? 2 then (if is_leap y then 29 else 28)
  else if (m =? 4) || (m =? 6) || (m =? 9) || (m =? 11) then 30 else 31.

(** Days of the [k] years from 1970 on. *)
Fixpoint years_days (k : nat) : N :=
  match k with O => 0 | S k => years_days k + year_days (1970 + N.of_nat k) end.

(** Days of the first [k] months of a year. *)
Fixpoint months_days (y : N) (k : nat) : N :=
  match k with O => 0 | S k => months_days y k + month_days y (N.of_nat (S k)) end.

(** The day number of a date, counted year by year and month by month. *)
Definition epoch_days (y m d : N) : N :=
  years_days (N.to_nat (y - 1970)) + months_days y (N.to_nat (m - 1)) + (d - 1).

Definition valid_date (y m d : N) : Prop :=
  1970 <= y /\ 1 <= m <= 12 /\ 1 <= d <= month_days y m.

Lemma is_leap_spec y : is_leap y = true <-> y mod 4 = 0 /\ (y mod 100 <> 0 \/ y mod 400 = 0).
Proof.
  unfold is_leap. rewrite andb_true_iff, orb_true_iff, negb_true_iff, !N.eqb_eq, N.eqb_neq. tauto.
Qed.

Lemma year_days_eq y : 1 <= y ->
  year_days y + ((y - 1) / 4 + (y - 1) / 400 + y / 100) = 365 + (y / 4 + y / 400 + (y - 1) / 100).
Proof.
  intros Hy. unfold year_days. destruct (is_leap y) eqn:E.
  - apply is_leap_spec in E as [H1 H2]. dlia.
  - assert (~ (y mod 4 = 0 /\ (y mod 100 <> 0 \/ y mod 400 = 0))) as H.
    { intros H%is_leap_spec. congruence. }
    dlia.
Qed.

(** The closed form of the years' days. *)
Lemma years_days_eq k : let y := 1969 + N.of_nat k in
  years_days k + 719162 + y / 100 = 365 * y + (y / 4 + y / 400).
Proof.
  induction k as [|k IH]; [reflexivity|]. cbv zeta in *. cbn [years_days].
  replace (1969 + N.of_nat (S k)) with (1970 + N.of_nat k) by lia.
  pose proof (year_days_eq (1970 + N.of_nat k) ltac:(lia)) as H.
  replace (1970 + N.of_nat k - 1) with (1969 + N.of_nat k) in H by lia. lia.
Qed.

(** Year of the era: its first day and the next one's bracket the day. *)
Lemma yoe_spec doe : doe < 146097 ->
  let yoe := (doe - doe / 1460 + doe / 36524 - doe / 146096) / 365 in
  yoe < 400 /\ 365 * yoe + yoe / 4 <= doe + yoe / 100 /\
  (doe + yoe / 100 < 365 * yoe + yoe / 4 + 365 \/
   (doe + yoe / 100 = 365 * yoe + yoe / 4 + 365 /\ yoe mod 4 = 3 /\
     (yoe mod 100 <> 99 \/ yoe = 399))).
Proof. intros H. cbv zeta. dlia. Qed.

(** The months' lengths and running sums, as tables. *)
Definition lengths (leap : bool) : list N :=
  [0; 31; if leap then 29 else 28; 31; 30; 31; 30; 31; 31; 30; 31; 30; 31].

Lemma month_days_table y m : 1 <= m <= 12 ->
  month_days y m = nth (N.to_nat m) (lengths (is_leap y)) 0.
Proof.
  intros Hm. assert (exists k, m = N.of_nat k /\ (k <= 12)%nat) as (k & -> & Hk).
  { exists (N.to_nat m). lia. }
  unfold month_days. do 13 (destruct k as [|k]; [first [by destruct (is_leap y)|exfalso; lia]|]). lia.
Qed.

Lemma months_days_table y k : (k <= 12)%nat ->
  months_days y k = foldr N.add 0 (take (S k) (lengths (is_leap y))).
Proof.
  intros Hk. do 13 (destruct k as [|k];
    [cbn [months_days]; rewrite ?month_days_table by done; by destruct (is_leap y)|]). lia.
Qed.

(** Month of a year that starts in March: [mp] months are [(153 mp + 2) / 5] days. *)
Lemma month_spec y doy : doy < 366 ->
  let mp := (5 * doy + 2) / 153 in
  let d := doy - (153 * mp + 2) / 5 + 1 in
  let m := if mp <? 10 then mp + 3 else mp - 9 in
  let leap := if is_leap y then 1 else 0 in
  1 <= m <= 12 /\ 1 <= d /\ (m <> 2 -> d <= month_days y m) /\ (m = 2 -> d <= 29 /\ (d = 29 -> doy = 365)) /\
  (3 <= m <-> doy < 306) /\
  months_days y (N.to_nat (m - 1)) + d = if m <=? 2 then doy + 1 - 306 else doy + 1 + 59 + leap.
Proof.
  intros Hd. cbv zeta. remember ((5 * doy + 2) / 153) as mp eqn:Emp.
  assert (153 * mp <= 5 * doy + 2 < 153 * mp + 153) as Hmp by (subst mp; dlia). clear Emp.
  set (c := (153 * mp + 2) / 5). set (m := if mp <? 10 then mp + 3 else mp - 9).
  assert (mp = 0 \/ mp = 1 \/ mp = 2 \/ mp = 3 \/ mp = 4 \/ mp = 5 \/ mp = 6 \/ mp = 7 \/
    mp = 8 \/ mp = 9 \/ mp = 10 \/ mp = 11) as Hc by lia.
  assert (1 <= m <= 12) as Hm by (unfold m; destruct (N.ltb_spec mp 10); lia).
  rewrite (month_days_table y m), (months_days_table y (N.to_nat (m - 1))) by lia.
  split; [done|]. destruct_or! Hc; subst mp; vm_compute in (value of c); vm_compute in (value of m);
    subst c m; destruct (is_leap y);
    repeat match goal with
    | |- context [nth ?i ?l 0] => let v := eval vm_compute in (nth i l 0) in change (nth i l 0) with v
    | |- context [foldr N.add 0 ?l] =>
        let v := eval vm_compute in (foldr N.add 0 l) in change (foldr N.add 0 l) with v
    | |- context [?a <=? 2] => let v := eval vm_compute in (a <=? 2) in change (a <=? 2) with v
    end; cbv iota; repeat (split; [lia|]); lia.
Qed.

(** The date is right: valid, and its day number is the one given. *)
Lemma civil_spec days : exists y m d,
  civil days = (Z.of_N y, m, d) /\ valid_date y m d /\ epoch_days y m d = days.
Proof.
  set (z := days + 719468). set (era := z / 146097). set (doe := z mod 146097).
  assert (z = era * 146097 + doe /\ doe < 146097) as [Hz Hdoe] by (unfold era, doe; dlia).
  set (yoe := (doe - doe / 1460 + doe / 36524 - doe / 146096) / 365).
  pose proof (yoe_spec doe Hdoe) as Hyoe. cbv zeta in Hyoe. fold yoe in Hyoe.
  destruct Hyoe as [Hy400 Hyoe].
  set (doy := doe - (365 * yoe + yoe / 4 - yoe / 100)).
  assert (yoe / 100 <= yoe / 4) as Hc by (apply N.div_le_compat_l; lia).
  assert (doe + yoe / 100 = 365 * yoe + yoe / 4 + doy) as Hdoy by (unfold doy; clearbody yoe; lia).
  assert (doy < 366) as Hlt by lia.
  set (Y := yoe + era * 400).
  assert (Y / 4 = yoe / 4 + 100 * era /\ Y / 100 = yoe / 100 + 4 * era /\ Y / 400 = era) as (H4 & H100 & H400)
    by (unfold Y; clearbody yoe era; clear -Hy400; dlia).
  set (mp := (5 * doy + 2) / 153). set (d := doy - (153 * mp + 2) / 5 + 1).
  set (m := if mp <? 10 then mp + 3 else mp - 9).
  set (y := if m <=? 2 then Y + 1 else Y).
  assert (civil days = (Z.of_N y, m, d)) as Hciv.
  { unfold civil. replace (Z.of_N days + 719468)%Z with (Z.of_N z) by (unfold z; lia).
    replace (0 <=? Z.of_N z)%Z with true by (symmetry; apply Z.leb_le; lia).
    replace (Z.quot (Z.of_N z) 146097) with (Z.of_N era) by (unfold era; change 146097%Z with (Z.of_N 146097); by rewrite N2Z.inj_quot).
    replace (Z.to_N (Z.of_N z - Z.of_N era * 146097)) with doe by lia.
    fold yoe doy mp d m. do 2 f_equal. unfold y, Y. destruct (m <=? 2); lia. }
  pose proof (month_spec y doy Hlt) as Hm. cbv zeta in Hm. fold mp d m in Hm.
  destruct Hm as (Hm1 & Hd1 & Hd2 & Hd3 & Hm3 & Hsum).
  assert (days + 306 + Y / 100 + 719162 = 365 * Y + (Y / 4 + Y / 400) + doy) as Hdays.
  { rewrite H4, H100, H400. unfold Y. lia. }
  exists y, m, d. split; [done|]. clearbody d m era doe yoe doy.
  pose proof (years_days_eq (N.to_nat (y - 1970))) as Hyd. cbv zeta in Hyd.
  unfold valid_date, epoch_days. destruct (N.leb_spec m 2) as [Hm2|Hm2]; unfold y in *; clear y.
  - assert (1969 <= Y) as HY.
    { destruct (N.le_gt_cases 1969 Y); [done|]. clear -Hdays H Hlt. dlia. }
    replace (1969 + N.of_nat (N.to_nat (Y + 1 - 1970))) with Y in Hyd by lia.
    split; [|lia]. split; [lia|]. split; [lia|]. split; [lia|].
    destruct (N.eq_dec m 2) as [->|]; [|by apply Hd2]. destruct (Hd3 eq_refl) as [Hd29 Hd365].
    unfold month_days. simpl. destruct (is_leap (Y + 1)) eqn:El; [done|].
    destruct (N.eq_dec d 29) as [->|]; [|lia]. exfalso. specialize (Hd365 eq_refl).
    destruct Hyoe as [_ [Hbad|(_ & Hr4 & Hr100)]]; [lia|].
    assert (is_leap (Y + 1) = true) as Ht; [|congruence]. apply is_leap_spec.
    unfold Y. clear -Hr4 Hr100 Hy400. dlia.
  - assert (1970 <= Y) as HY.
    { destruct (N.le_gt_cases 1970 Y); [done|]. assert (doy < 306) by lia. clear -Hdays H H0. dlia. }
    replace (1969 + N.of_nat (N.to_nat (Y - 1970))) with (Y - 1) in Hyd by lia.
    pose proof (year_days_eq Y ltac:(lia)) as Hye. unfold year_days in Hye.
    split; [split; [lia|split; [lia|]]|].
    + split; [lia|]. apply Hd2. lia.
    + destruct (is_leap Y); lia.
Qed.

(** ** What the guest reads *)

Definition from_bcd (v : u8) : N := 10 * (v / 16) + v mod 16.

Lemma bcd_roundtrip v : v < 100 -> from_bcd (to_bcd v) = v.
Proof.
  intros Hv. unfold to_bcd, from_bcd, U.wrap. rewrite N.shiftl_mul_pow2.
  rewrite (N.mod_small (v / 10 * 2 ^ 4)) by dlia.
  rewrite N.lor_comm, <- (N.shiftl_mul_pow2 _ 4), lor_shiftl_add by (unfold in_u; dlia).
  change (2 ^ 4) with 16. dlia.
Qed.

(** Selecting register [r] and reading it at time [now]. *)
Definition rtc_read (now : u64) (r : u8) (c : CmosRtc) : outcome bytes :=
  (cmos_in now 0x71 [0] (cmos_out 0x70 [r] c).2).1.

Definition cmos_wf (c : CmosRtc) : Prop := length (nvram c) = 128%nat.

Lemma rtc_read_time now r c : r <= 0x0a ->
  rtc_read now r c = Ok [default 0 (refresh_time now (nvram c) !! N.to_nat r)].
Proof.
  intros Hr. unfold rtc_read, cmos_out, cmos_in, cmos_in_value, modify. simpl.
  assert (N.land (N.land r 0x7f) 0x7f = r) as ->.
  { change 0x7f with (N.ones 7). rewrite !N.land_ones. change (2 ^ 7) with 128.
    by rewrite !(N.mod_small r 128) by lia. }
  assert ((r <=? 9) || (r =? 10) = true) as ->; [|done].
  apply orb_true_iff. rewrite N.leb_le, N.eqb_eq. lia.
Qed.

(** Writing a list of registers, then reading one of them. *)
Lemma fold_insert_lookup (regs : list (nat * N)) (l : bytes) i v :
  NoDup (map fst regs) -> Forall (fun p => p.1 < length l)%nat regs -> (i, v) ∈ regs ->
  fold_left (fun l '(i, v) => <[i := v]> l) regs l !! i = Some v.
Proof.
  revert l. induction regs as [|[j w] regs IH]; intros l Hnd Hlt Hin; [by apply elem_of_nil in Hin|].
  simpl in *. apply NoDup_cons in Hnd as [Hj Hnd]. apply Forall_cons in Hlt as [Hj0 Hlt].
  assert (forall (rs : list (nat * N)) (k : bytes), j ∉ map fst rs ->
    fold_left (fun l '(i, v) => <[i := v]> l) rs k !! j = k !! j) as Hother.
  { induction rs as [|[a b] rs IHr]; intros k Hn; [done|]. simpl in *.
    rewrite not_elem_of_cons in Hn. rewrite IHr by tauto. apply list_lookup_insert_ne. by destruct Hn as [Hn _]; intros ->. }
  apply elem_of_cons in Hin as [[= -> ->]|Hin].
  - rewrite Hother by done. by apply list_lookup_insert_eq.
  - apply IH; [done| |done]. eapply Forall_impl; [exact Hlt|]. intros p. by rewrite length_insert.
Qed.

Lemma refresh_lookup now l i v : length l = 128%nat -> (i, v) ∈ time_regs now ->
  refresh_time now l !! i = Some v.
Proof.
  intros Hl Hin. unfold refresh_time.
  assert (i <> 0x0a%nat /\ NoDup (map fst (time_regs now)) /\
    Forall (fun p => p.1 < length l)%nat (time_regs now)) as (Hi & Hnd & Hlt).
  { revert Hin. unfold time_regs. destruct (civil _) as [[y m] d]. simpl. intros Hin.
    split; [|split; [by_eval|by rewrite Hl; repeat constructor; simpl; lia]].
    intros ->. repeat (apply elem_of_cons in Hin as [[=]|Hin]). by apply elem_of_nil in Hin. }
  rewrite list_lookup_alter_ne by done. by apply fold_insert_lookup.
Qed.

(** The decimal value each clock register stands for. *)
Definition clock_fields (now y m d : N) : list (u8 * N) :=
  [(0x00, now mod 60); (0x02, now / 60 mod 60); (0x04, now / 3600 mod 24);
   (0x06, (now / 86400 + 4) mod 7); (0x07, d); (0x08, m); (0x09, y mod 100)].

(** reading the clock registers at any time gives, in BCD, the second,
    minute, hour, weekday, day, month and year of the Gregorian date whose day
    number (counted year by year and month by month from 1970) is that time's;
    and the update-in-progress bit reads as clear whatever the guest stored. *)
Theorem cmos_clock c now :
  cmos_wf c ->
  (exists y m d, valid_date y m d /\ epoch_days y m d = now / 86400 /\
    Forall (fun '(r, v) => exists b, rtc_read now r c = Ok [b] /\ from_bcd b = v)
      (clock_fields now y m d)) /\
  exists a, rtc_read now 0x0a c = Ok [a] /\ N.testbit a 7 = false.
Proof.
  intros Hwf. split.
  - destruct (civil_spec (now / 86400)) as (y & m & d & Hciv & Hv & He).
    exists y, m, d. split; [done|]. split; [done|].
    assert (forall r v, r <= 0x0a -> v < 100 -> (N.to_nat r, to_bcd v) ∈ time_regs now ->
      exists b, rtc_read now r c = Ok [b] /\ from_bcd b = v) as Hreg.
    { intros r v Hr Hv100 Hin. exists (to_bcd v). split; [|by apply bcd_roundtrip].
      rewrite rtc_read_time by done. by rewrite (refresh_lookup now (nvram c) _ _ Hwf Hin). }
    destruct Hv as (Hy & Hm & Hd).
    assert (month_days y m <= 31) by (unfold month_days; repeat case_match; lia).
    unfold time_regs in Hreg. rewrite Hciv in Hreg.
    assert (Z.to_N (Z.rem (Z.of_N y) 100) = y mod 100) as Hyy.
    { rewrite Z.rem_mod_nonneg by lia. rewrite <- (N2Z.id (y mod 100)). f_equal.
      symmetry. apply N2Z.inj_mod. }
    rewrite Hyy in Hreg.
    assert (now mod 86400 mod 60 = now mod 60 /\ now mod 86400 mod 3600 / 60 = now / 60 mod 60 /\
      now mod 86400 / 3600 = now / 3600 mod 24) as (E1 & E2 & E3) by (clear; dlia).
    rewrite E1, E2, E3 in Hreg.
    repeat (apply Forall_cons_2; [apply Hreg; [lia|clear -Hm Hd H; dlia|
      repeat (apply elem_of_cons; first [left; reflexivity | right])]|]).
    constructor.
  - rewrite rtc_read_time by lia. eexists. split; [done|]. unfold refresh_time.
    change (N.to_nat 10) with 0x0a%nat. rewrite list_lookup_alter_eq.
    destruct (_ !! 0x0a%nat) as [v|]; [|done].
    change (U.not 8 0x80) with (N.ones 7). cbn [fmap option_fmap option_map default from_option id].
    by rewrite N.land_spec, N.ones_spec_high, andb_false_r.
Qed.

Lemma cmos_clock_witness :
  (exists y m d, valid_date y m d /\ epoch_days y m d = 1709164800 / 86400 /\
    Forall (fun '(r, v) => exists b, rtc_read 1709164800 r new_cmos = Ok [b] /\ from_bcd b = v)
      (clock_fields 1709164800 y m d)) /\
  exists a, rtc_read 1709164800 0x0a new_cmos = Ok [a] /\ N.testbit a 7 = false.
Proof. apply (cmos_clock new_cmos 1709164800). reflexivity. Defined.

(** 29 February 2024, noon less a second. *)
Example cmos_leap_day :
  map (fun r => rtc_read 1709207999 r new_cmos) [0; 2; 4; 6; 7; 8; 9] =
  map (fun b => Ok [b]) [0x59; 0x59; 0x11; 0x04; 0x29; 0x02; 0x24].
Proof. vm_compute. reflexivity. Qed.
