(* ===== verification/VirtioNet.v ===== *)
(** * virtio-net

    [crates/fluxvm-hypervisor/src/devices/virtio_net.rs]: transmit ([gather],
    [handle_notify]), receive ([scatter], [rx_deliver], [rx_pump]), the canned
    gateway that answers when there is no tap, the multiqueue control queue and
    MAC address parsing.  The host's tap device ([tap.rs]) is what its next reads
    give and whether its next writes fail, with the frames written so far. *)

From stdpp Require Import prelude list.
From Stdlib Require Import NArith Lia.
From S2P Require Import Prelude RustStr GuestMemory Virtqueue VirtioMmio RateLimiter.

Definition NET_HDR_LEN : usize := 12.
Definition RX_FRAME_MAX : usize := 65536.

Definition used_push : u64 -> u32 -> u16 -> u32 -> M GuestMemory unit := Virtqueue.used_push.

(** ** The tap *)

Inductive tap_read := Frame (f : bytes) | WouldBlock | ReadError.

Record Tap := { t_in : list tap_read; t_wfail : list bool; t_out : list bytes }.

(** [read_frame] into a buffer of [n] bytes; a frame that does not fit is cut. *)
Definition read_frame (n : usize) : M Tap (option bytes) := fun t =>
  match t_in t with
  | [] => (Ok None, t)
  | r :: rest =>
      let t := {| t_in := rest; t_wfail := t_wfail t; t_out := t_out t |} in
      match r with
      | Frame f =>
          let f := take (N.to_nat n) f in
          (Ok (match f with [] => None | _ => Some f end), t)
      | WouldBlock => (Ok None, t)
      | ReadError => (Err Network, t)
      end
  end.

Definition write_frame (frame : bytes) : M Tap unit := fun t =>
  let sent := {| t_in := t_in t; t_wfail := drop 1 (t_wfail t); t_out := t_out t ++ [frame] |} in
  match t_wfail t with
  | true :: rest => (Err Network, {| t_in := t_in t; t_wfail := rest; t_out := t_out t |})
  | _ => (Ok tt, sent)
  end.

(** ** Transmit: [gather] *)

Fixpoint gather_hops (hops : nat) (desc_base : u64) (qnum : u32) (idx : u16) (seen : list u16)
    (out : bytes) : M GuestMemory bytes :=
  match hops with
  | O => throw Network
  | S hops =>
      if (qnum <=? idx) || existsb (N.eqb idx) seen then throw Network
      else
        let! desc := ok_or (U.checked_add 64 desc_base (idx * 16)) Memory in
        let! d := read_desc desc in
        let len := d_len d in
        if bits (d_flags d) (N.lor VRING_DESC_F_WRITE VRING_DESC_F_INDIRECT) then throw Network
        else
          let start := lenN out in
          let! fin := ok_or (U.checked_add 64 start len) Network in
          if NET_HDR_LEN + RX_FRAME_MAX <? fin then throw Network
          else
            let! m := get in
            if negb (match U.checked_add 64 (d_addr d) len with
                     | Some fin => fin <=? mem_len m | None => false end) then throw Memory
            else
              let! b := read_at (d_addr d) len in
              let out := out ++ b in
              if negb (bits (d_flags d) VRING_DESC_F_NEXT) then ret out
              else gather_hops hops desc_base qnum (d_next d) (seen ++ [idx]) out
  end.

Definition gather (desc_base : u64) (head : u16) (qnum : u32) : M GuestMemory bytes :=
  gather_hops 16 desc_base qnum head [] [].

(** ** Receive *)

Inductive RxDelivery :=
| Delivered (written : u32) (interrupt : bool)
| NoBuffer
| TooSmall
| Invalid.

Definition rx_pending (q : QueueState) : M GuestMemory u16 :=
  if (q_ready q =? 0) || (q_num q =? 0) then ret 0
  else
    let! i := read_avail_idx (q_avail q) in
    ret (U.sub 16 i (q_last_avail q)).

(** The [while room > 0 && si < src.len()] loop over one descriptor; [src] is
    what is left of the slices from [si] on. *)
Fixpoint scatter_seg (fuel : nat) (a : u64) (room : usize) (src : list bytes)
    : M GuestMemory (list bytes) :=
  match fuel with
  | O => diverge
  | S fuel =>
      if room =? 0 then ret src
      else
        match src with
        | [] => ret []
        | [] :: rest => scatter_seg fuel a room rest
        | s :: rest =>
            let n := N.min (lenN s) room in
            do! write_at a (take (N.to_nat n) s) in
            scatter_seg fuel (U.add 64 a n) (room - n) (drop (N.to_nat n) s :: rest)
        end
  end.

Fixpoint scatter_segs (segs : list (u64 * u32)) (src : list bytes) : M GuestMemory unit :=
  match segs with
  | [] => ret tt
  | (addr, len) :: segs =>
      let! src := scatter_seg (S (2 * length src)) addr len src in
      scatter_segs segs src
  end.

Definition scatter (segs : list (u64 * u32)) (hdr frame : bytes) : M GuestMemory unit :=
  scatter_segs segs [hdr; frame].

(** The descriptor loop of [rx_deliver]: [bad], the segments and their total. *)
Fixpoint rx_walk (fuel : nat) (desc : u64) (qnum : u32) (idx : u16) (steps : u32)
    (segs : list (u64 * u32)) (capacity : u64) : M GuestMemory (bool * list (u64 * u32) * u64) :=
  match fuel with
  | O => diverge
  | S fuel =>
      if (qnum <=? idx) || (qnum <=? steps) then ret (true, segs, capacity)
      else
        try_ok (read_desc (U.add 64 desc (idx * 16)))
          (fun d =>
             if negb (bits (d_flags d) VRING_DESC_F_WRITE) || bits (d_flags d) VRING_DESC_F_INDIRECT
             then ret (true, segs, capacity)
             else
               let segs := segs ++ [(d_addr d, d_len d)] in
               let capacity := U.add 64 capacity (d_len d) in
               if negb (bits (d_flags d) VRING_DESC_F_NEXT) then ret (false, segs, capacity)
               else rx_walk fuel desc qnum (d_next d) (steps + 1) segs capacity)
          (ret (true, segs, capacity))
  end.

(** RAM and the receive queue. *)
Record RxCtx := { r_mem : GuestMemory; r_q : QueueState }.

Definition on_rmem {A} (m : M GuestMemory A) : M RxCtx A :=
  zoom r_mem (fun x s => {| r_mem := x; r_q := r_q s |}) m.

Definition rx_bump : M RxCtx unit :=
  modify (fun s => {| r_mem := r_mem s; r_q := bump_last_avail (r_q s) |}).

(** The header: all zero but [num_buffers = 1]. *)
Definition net_hdr : bytes := <[10%nat := 1]> (repeat 0 (N.to_nat NET_HDR_LEN)).

Definition rx_deliver (frame : bytes) : M RxCtx RxDelivery :=
  let! s := get in
  let q := r_q s in
  let! pending := on_rmem (rx_pending q) in
  if pending =? 0 then ret NoBuffer
  else if q_num q <? pending then ret Invalid
  else
    let! head := on_rmem (read_avail_head (q_avail q) (q_last_avail q) (q_num q)) in
    let! (bad, segs, capacity) :=
      on_rmem (rx_walk (S (N.to_nat (q_num q))) (q_desc q) (q_num q) head 0 [] 0) in
    let need := NET_HDR_LEN + lenN frame in
    if negb bad && (capacity <? need) then ret TooSmall
    else
      let! bad :=
        if bad then ret true
        else try_ok (on_rmem (scatter segs net_hdr frame)) (fun _ => ret false) (ret true) in
      if bad then
        do! (if head <? q_num q then on_rmem (used_push (q_used q) (q_num q) head 0) else ret tt) in
        do! rx_bump in
        ret Invalid
      else
        do! on_rmem (used_push (q_used q) (q_num q) head (U.wrap 32 need)) in
        do! rx_bump in
        let! flags := on_rmem (read_u16 (q_avail q)) in
        ret (Delivered (U.wrap 32 need) (negb (bits flags VRING_AVAIL_F_NO_INTERRUPT))).

Record NetStats := {
  rx_frames : u64; rx_bytes : u64; rx_no_buffer : u64; rx_too_small : u64; rx_invalid : u64;
  rx_rate_limited : u64; tx_frames : u64;
}.

Inductive RxPump := Idle | NoBuffers | More.

Definition count_rx (r : RxDelivery) (n : u64) (s : NetStats) : NetStats :=
  let inc := U.add 64 in
  {| rx_frames := match r with Delivered _ _ => inc (rx_frames s) 1 | _ => rx_frames s end;
     rx_bytes := match r with Delivered _ _ => inc (rx_bytes s) n | _ => rx_bytes s end;
     rx_no_buffer := match r with NoBuffer => inc (rx_no_buffer s) 1 | _ => rx_no_buffer s end;
     rx_too_small := match r with TooSmall => inc (rx_too_small s) 1 | _ => rx_too_small s end;
     rx_invalid := match r with Invalid => inc (rx_invalid s) 1 | _ => rx_invalid s end;
     rx_rate_limited := rx_rate_limited s; tx_frames := tx_frames s |}.

Definition count_limited (s : NetStats) : NetStats :=
  {| rx_frames := rx_frames s; rx_bytes := rx_bytes s; rx_no_buffer := rx_no_buffer s;
     rx_too_small := rx_too_small s; rx_invalid := rx_invalid s;
     rx_rate_limited := U.add 64 (rx_rate_limited s) 1; tx_frames := tx_frames s |}.

(** ** The canned gateway *)

(** The words of a packet added into a [u32], an odd last byte as the high one. *)
Fixpoint sum_words (p : bytes) (s : u32) : u32 :=
  match p with
  | x :: y :: p => sum_words p (U.add 32 s (from_be [x; y]))
  | [x] => U.add 32 s (N.shiftl x 8)
  | [] => s
  end.

(** [while s >> 16 != 0]: 3 rounds end it for every [u32]. *)
Fixpoint fold16 (fuel : nat) (s : u32) : u32 :=
  match fuel with
  | O => s
  | S fuel =>
      if N.shiftr s 16 =? 0 then s else fold16 fuel (N.land s 0xffff + N.shiftr s 16)
  end.

Definition inet_cksum (p : bytes) : u16 := U.wrap 16 (U.not 32 (fold16 3 (sum_words p 0))).

(** [frame[i]] of a frame known to be long enough. *)
Definition byte_at (l : bytes) (i : nat) : u8 := nth i l 0.

Definition gw_mac : bytes := [0x02; 0x00; 0x00; 0x00; 0x00; 0x01].

Definition gateway_reply (frame guest_mac : bytes) : outcome (option bytes) :=
  if lenN frame <? 42 then Ok None
  else
    let etype := from_be (slice 12 2 frame) in
    let op := from_be (slice 20 2 frame) in
    let tpa := slice 38 4 frame in
    if (etype =? 0x0806) && ((op =? 1) && bool_decide (tpa = [192; 168; 100; 1])) then
      let r := repeat 0 42 in
      let r := splice 0 guest_mac r in
      let r := splice 6 gw_mac r in
      let r := splice 12 [0x08; 0x06; 0x00; 0x01; 0x08; 0x00; 0x06; 0x04; 0x00; 0x02] r in
      let r := splice 22 gw_mac r in
      let r := splice 28 [192; 168; 100; 1] r in
      let r := splice 32 guest_mac r in
      let r := splice 38 [192; 168; 100; 2] r in
      Ok (Some r)
    else if (etype =? 0x0800) && (byte_at frame 23 =? 1) && (byte_at frame 34 =? 8) then
      let r := splice 0 guest_mac frame in
      let r := splice 6 gw_mac r in
      let r := splice 26 [192; 168; 100; 1] r in
      let r := splice 30 [192; 168; 100; 2] r in
      let r := splice 34 [0] r in
      let r := splice 24 [0; 0] r in
      let ihl := N.land (byte_at r 14) 0xf * 4 in
      if lenN r <? 14 + ihl then Panic
      else
        let sum := inet_cksum (slice 14 (N.to_nat ihl) r) in
        let r := splice 24 [U.wrap 8 (N.shiftr sum 8); U.wrap 8 sum] r in
        let r := splice 36 [0; 0] r in
        let c := inet_cksum (drop 34 r) in
        let r := splice 36 [U.wrap 8 (N.shiftr c 8); U.wrap 8 c] r in
        Ok (Some r)
    else Ok None.

(** ** The device *)

Section Device.
Context {L : Type} `{RateLimit L}.

(** What [rx_pump] works on. *)
Record RxDev := {
  x_mem : GuestMemory; x_st : VirtioState; x_tap : Tap; x_lim : option L; x_stats : NetStats;
}.

(** [rx_deliver(mem, &mut st.queues[0], frame)] on RAM and device registers. *)
Definition deliver_q0 (frame : bytes) (mem : GuestMemory) (st : VirtioState)
    : outcome RxDelivery * GuestMemory * VirtioState :=
  match queues st with
  | [] => (Panic, mem, st)
  | q :: qs =>
      let '(o, s) := rx_deliver frame {| r_mem := mem; r_q := q |} in
      (o, r_mem s, st_queues (r_q s :: qs) st)
  end.

Definition x_deliver (frame : bytes) : M RxDev RxDelivery := fun d =>
  let '(o, mem, st) := deliver_q0 frame (x_mem d) (x_st d) in
  (o, {| x_mem := mem; x_st := st; x_tap := x_tap d; x_lim := x_lim d; x_stats := x_stats d |}).

Definition x_pending : M RxDev u16 := fun d =>
  match queues (x_st d) with
  | [] => (Panic, d)
  | q :: _ => ((rx_pending q (x_mem d)).1, d)
  end.

Definition x_read (n : usize) : M RxDev (option bytes) :=
  zoom x_tap (fun t d => {| x_mem := x_mem d; x_st := x_st d; x_tap := t; x_lim := x_lim d;
                            x_stats := x_stats d |}) (read_frame n).

Definition x_consume (n : u64) : M RxDev bool := fun d =>
  let '(b, l) := consume_opt n (x_lim d) in
  (Ok b, {| x_mem := x_mem d; x_st := x_st d; x_tap := x_tap d; x_lim := l; x_stats := x_stats d |}).

Definition x_count (f : NetStats -> NetStats) : M RxDev unit :=
  modify (fun d => {| x_mem := x_mem d; x_st := x_st d; x_tap := x_tap d; x_lim := x_lim d;
                      x_stats := f (x_stats d) |}).

(** [for _ in 0..budget]; [n] is [scratch.len()]. *)
Fixpoint rx_pump_loop (budget : nat) (n : usize) (irq : bool) : M RxDev (RxPump * bool) :=
  match budget with
  | O => ret (More, irq)
  | S budget =>
      let! pending := x_pending in
      if pending =? 0 then ret (NoBuffers, irq)
      else
        let! r := x_read n in
        match r with
        | None => ret (Idle, irq)
        | Some frame =>
            let! granted := x_consume (lenN frame) in
            if negb granted then
              do! x_count count_limited in rx_pump_loop budget n irq
            else
              let! r := x_deliver frame in
              do! x_count (count_rx r (lenN frame)) in
              rx_pump_loop budget n
                (irq || match r with Delivered _ interrupt => interrupt | _ => false end)
        end
  end.

Definition rx_pump (n : usize) (budget : usize) : M RxDev (RxPump * bool) :=
  rx_pump_loop (N.to_nat budget) n false.

(** What the transmit and control handlers work on. *)
Record NetDev := {
  n_mem : GuestMemory; n_st : VirtioState; n_tap : option Tap; n_lim : option L;
}.

Definition set_nmem (x : GuestMemory) (d : NetDev) : NetDev :=
  {| n_mem := x; n_st := n_st d; n_tap := n_tap d; n_lim := n_lim d |}.

Definition set_nst (x : VirtioState) (d : NetDev) : NetDev :=
  {| n_mem := n_mem d; n_st := x; n_tap := n_tap d; n_lim := n_lim d |}.

Definition on_nmem {A} (m : M GuestMemory A) : M NetDev A := on_guest n_mem set_nmem m.

Definition n_consume (n : u64) : M NetDev bool := fun d =>
  let '(b, l) := consume_opt n (n_lim d) in
  (Ok b, {| n_mem := n_mem d; n_st := n_st d; n_tap := n_tap d; n_lim := l |}).

(** [&st.queues[i]] and its [last_avail] bump. *)
Definition n_queue (i : nat) : M NetDev QueueState := fun d =>
  match queues (n_st d) !! i with Some q => (Ok q, d) | None => (Panic, d) end.

Definition n_bump (i : nat) : M NetDev unit :=
  modify (fun d => set_nst (st_queues (alter bump_last_avail i (queues (n_st d))) (n_st d)) d).

Definition inject_rx (frame : bytes) : M NetDev bool := fun d =>
  let '(o, mem, st) := deliver_q0 frame (n_mem d) (n_st d) in
  (match o with
   | Ok (Delivered _ _) => Ok true
   | Ok _ => Ok false
   | Err e => Err e
   | Panic => Panic
   | Loop => Loop
   end, {| n_mem := mem; n_st := st; n_tap := n_tap d; n_lim := n_lim d |}).

(** What is done with a frame of the guest: the tap's errors are ignored. *)
Definition transmit (frame : bytes) : M NetDev unit := fun d =>
  match n_tap d with
  | Some t =>
      (Ok tt, {| n_mem := n_mem d; n_st := n_st d; n_tap := Some (write_frame frame t).2;
                 n_lim := n_lim d |})
  | None =>
      (let! reply := lift (gateway_reply frame (mac (n_st d))) in
       match reply with
       | Some r => try_ok (inject_rx r) (fun _ => ret tt) (ret tt)
       | None => ret tt
       end) d
  end.

(** One iteration of the transmit loop: [None] leaves it, [Some c] completes a
    buffer that carried [c] frames. *)
Definition tx_one (q : QueueState) : M NetDev (option u32) :=
  let! cur := n_queue 1 in
  let! avail_idx := on_nmem (read_avail_idx (q_avail q)) in
  if q_last_avail cur =? avail_idx then ret None
  else
    let! head := on_nmem (read_avail_head (q_avail q) (q_last_avail cur) (q_num q)) in
    let! buf := on_nmem (gather (q_desc q) head (q_num q)) in
    let! granted := n_consume (lenN buf) in
    if negb granted then ret None
    else
      do! on_nmem (used_push (q_used q) (q_num q) head (U.wrap 32 (lenN buf))) in
      do! n_bump 1 in
      let frame := drop 12 buf in
      match frame with
      | [] => ret (Some 0)
      | _ => do! transmit frame in ret (Some 1)
      end.

Fixpoint tx_loop (fuel : nat) (q : QueueState) (frames : u32) : M NetDev u32 :=
  match fuel with
  | O => diverge
  | S fuel =>
      let! r := tx_one q in
      match r with
      | None => ret frames
      | Some c => tx_loop fuel q (U.add 32 frames c)
      end
  end.

(** The loop has no budget of its own; [fuel] bounds the model. *)
Definition handle_notify (fuel : nat) (qsel : u32) : M NetDev u32 :=
  if negb (qsel =? 1) then ret 0
  else
    let! q := n_queue 1 in
    if (q_ready q =? 0) || (q_num q =? 0) then ret 0
    else tx_loop fuel q 0.

(** ** The control queue *)

Definition VIRTIO_NET_CTRL_MQ : u8 := 4.
Definition VIRTIO_NET_CTRL_MQ_VQ_PAIRS_SET : u8 := 0.
Definition VIRTIO_NET_OK : u8 := 0.
Definition VIRTIO_NET_ERR : u8 := 1.

(** [for _ in 0..16] over a control chain: [chain_ok], the request (at most 16
    bytes) and the ack address. *)
Fixpoint ctrl_hops (hops : nat) (desc : u64) (qnum : u32) (idx : u16) (req : bytes)
    (ack_addr : option u64) : M GuestMemory (bool * bytes * option u64) :=
  match hops with
  | O => ret (true, req, ack_addr)
  | S hops =>
      if qnum <=? idx then ret (false, req, ack_addr)
      else
        try_ok (read_desc (U.add 64 desc (idx * 16)))
          (fun d =>
             let next req ack_addr :=
               if negb (bits (d_flags d) VRING_DESC_F_NEXT) then ret (true, req, ack_addr)
               else ctrl_hops hops desc qnum (d_next d) req ack_addr in
             if bits (d_flags d) VRING_DESC_F_INDIRECT then ret (false, req, ack_addr)
             else if bits (d_flags d) VRING_DESC_F_WRITE then
               next req (if 1 <=? d_len d then Some (d_addr d) else ack_addr)
             else
               match ack_addr with
               | Some _ => next req ack_addr
               | None =>
                   let n := N.min (d_len d) (16 - lenN req) in
                   try_ok (read_at (d_addr d) n)
                     (fun b => next (req ++ b) ack_addr)
                     (ret (false, req, ack_addr))
               end)
          (ret (false, req, ack_addr))
  end.

(** The command: the pair count to set, if it is accepted. *)
Definition ctrl_command (chain_ok : bool) (req : bytes) (max_pairs : u16) (allow_multi : bool)
    : option u16 :=
  if chain_ok && (4 <=? lenN req) && (byte_at req 0 =? VIRTIO_NET_CTRL_MQ) &&
     (byte_at req 1 =? VIRTIO_NET_CTRL_MQ_VQ_PAIRS_SET)
  then
    let pairs := from_le (slice 2 2 req) in
    if (1 <=? pairs) && (pairs <=? max_pairs) && ((pairs =? 1) || allow_multi) then Some pairs
    else None
  else None.

Definition set_active_pairs (n : u16) (s : VirtioState) : VirtioState :=
  st_driver (driver_features s) (status s) n s.

Definition ctrl_one (qidx : nat) (q : QueueState) (allow_multi : bool) : M NetDev (option unit) :=
  let! cur := n_queue qidx in
  let! avail_idx := on_nmem (read_avail_idx (q_avail q)) in
  if q_last_avail cur =? avail_idx then ret None
  else
    let! head := on_nmem (read_avail_head (q_avail q) (q_last_avail cur) (q_num q)) in
    let! (chain_ok, req, ack_addr) := on_nmem (ctrl_hops 16 (q_desc q) (q_num q) head [] None) in
    let! d := get in
    let cmd := ctrl_command chain_ok req (net_max_pairs (n_st d)) allow_multi in
    do! (match cmd with
         | Some pairs => modify (fun d => set_nst (set_active_pairs pairs (n_st d)) d)
         | None => ret tt
         end) in
    let ack := match cmd with Some _ => VIRTIO_NET_OK | None => VIRTIO_NET_ERR end in
    let! written :=
      match ack_addr with
      | Some a => try_ok (on_nmem (write_at a [ack])) (fun _ => ret 1) (ret 0)
      | None => ret 0
      end in
    do! on_nmem (used_push (q_used q) (q_num q) head written) in
    do! n_bump qidx in
    ret (Some tt).

Fixpoint ctrl_loop (fuel : nat) (qidx : nat) (q : QueueState) (allow_multi : bool) (done : u32)
    : M NetDev u32 :=
  match fuel with
  | O => diverge
  | S fuel =>
      let! r := ctrl_one qidx q allow_multi in
      match r with
      | None => ret done
      | Some _ => ctrl_loop fuel qidx q allow_multi (U.add 32 done 1)
      end
  end.

Definition handle_ctrl (fuel : nat) (qidx : nat) (allow_multi : bool) : M NetDev u32 :=
  let! q := n_queue qidx in
  if (q_ready q =? 0) || (q_num q =? 0) then ret 0
  else ctrl_loop fuel qidx q allow_multi 0.

End Device.
Arguments RxDev : clear implicits.
Arguments NetDev : clear implicits.

(** ** MAC addresses *)

Fixpoint parse_parts (ps : list bytes) : outcome bytes :=
  match ps with
  | [] => Ok []
  | p :: ps =>
      match u8_from_hex p with
      | None => Err Network
      | Some b => match parse_parts ps with Ok mac => Ok (b :: mac) | o => o end
      end
  end.

Definition parse_mac (s : bytes) : outcome bytes :=
  let parts := split_on 58 s [] in
  if negb (lenN parts =? 6) then Err Network else parse_parts parts.
