(* ===== verification/VirtioNetTx.v ===== *)
(** * virtio-net transmit and control: correctness

    [gather] against a specification of descriptor chains, the transmit loop
    (order, completeness and termination) and the multiqueue control queue, for
    the definitions of {!VirtioNet}. *)

From stdpp Require Import prelude list.
From Stdlib Require Import NArith Lia.
From S2P Require Import Prelude GuestMemory Virtqueue VirtioMmio RateLimiter VirtioNet.

(** ** [gather] *)

Lemma bits_lor x a b : bits x (N.lor a b) = bits x a || bits x b.
Proof.
  unfold bits. rewrite N.land_lor_distr_r.
  destruct (N.eqb_spec (N.land x a) 0) as [Ha|Ha], (N.eqb_spec (N.land x b) 0) as [Hb|Hb];
    simpl; apply negb_true_iff || apply negb_false_iff; rewrite ?Ha, ?Hb; try done;
    apply N.eqb_neq; rewrite N.lor_eq_0_iff; tauto.
Qed.

(** A descriptor the device may transmit from: device-readable and in RAM. *)
Definition tx_seg_ok (m : GuestMemory) (x : u16 * Desc) : Prop :=
  bits (d_flags x.2) VRING_DESC_F_WRITE = false /\ in_ram m (d_addr x.2) (d_len x.2) = true.

Definition tx_total (l : list (u16 * Desc)) : N := foldr N.add 0 (map (fun x => d_len x.2) l).

(** The bytes of a chain, in order. *)
Definition tx_bytes (m : GuestMemory) (l : list (u16 * Desc)) : bytes :=
  concat (map (fun x => slice (N.to_nat (d_addr x.2)) (N.to_nat (d_len x.2)) (ram m)) l).

(** A chain [gather] accepts, from index [idx] on. *)
Definition tx_chain (m : GuestMemory) (base : u64) (qnum : u32) (idx : u16) (hops : nat)
    (seen : list u16) (room : N) (l : list (u16 * Desc)) : Prop :=
  chain_from m base qnum idx l /\ (length l <= hops)%nat /\ NoDup (seen ++ map fst l) /\
  Forall (tx_seg_ok m) l /\ tx_total l <= room.

Lemma NoDup_snoc (seen : list N) idx : NoDup seen -> idx ∉ seen -> NoDup (seen ++ [idx]).
Proof.
  intros Hnd Hn. apply NoDup_app. repeat split; [done| |apply NoDup_singleton].
  intros x Hx Hx'. apply list_elem_of_singleton in Hx'. by subst.
Qed.

(** What a chain starting at a descriptor looks like. *)
Lemma tx_chain_inv m base qnum idx hops seen room d l :
  desc_at m base idx d -> tx_chain m base qnum idx (S hops) seen room l ->
  bits (d_flags d) (N.lor VRING_DESC_F_WRITE VRING_DESC_F_INDIRECT) = false /\
  in_ram m (d_addr d) (d_len d) = true /\ d_len d <= room /\
  if bits (d_flags d) VRING_DESC_F_NEXT
  then exists l', l = (idx, d) :: l' /\
    tx_chain m base qnum (d_next d) hops (seen ++ [idx]) (room - d_len d) l'
  else l = [(idx, d)].
Proof.
  intros Hat (Hl & Hlen & Hnd & Hok & Htot). rewrite bits_lor.
  destruct (chain_from_inv _ _ _ _ _ _ Hat Hl) as [-> Hn].
  destruct (bits (d_flags d) VRING_DESC_F_NEXT).
  - destruct Hn as (l' & -> & Hl'). apply Forall_cons in Hok as [[Hw Hr] Hok].
    unfold tx_total in *. simpl in *. rewrite Hw. split; [done|]. split; [done|]. split; [lia|].
    exists l'. split; [done|]. split; [done|]. split; [lia|]. rewrite <- app_assoc.
    split; [done|]. split; [done|]. unfold tx_total. lia.
  - subst l. apply Forall_cons in Hok as [[Hw Hr] _]. unfold tx_total in Htot. simpl in *.
    rewrite Hw. repeat split; try done. lia.
Qed.

Lemma tx_chain_intro m base qnum idx hops seen room d :
  idx < qnum -> desc_at m base idx d -> NoDup seen -> idx ∉ seen ->
  bits (d_flags d) (N.lor VRING_DESC_F_WRITE VRING_DESC_F_INDIRECT) = false ->
  in_ram m (d_addr d) (d_len d) = true -> d_len d <= room ->
  if bits (d_flags d) VRING_DESC_F_NEXT
  then forall l', tx_chain m base qnum (d_next d) hops (seen ++ [idx]) (room - d_len d) l' ->
    tx_chain m base qnum idx (S hops) seen room ((idx, d) :: l')
  else tx_chain m base qnum idx (S hops) seen room [(idx, d)].
Proof.
  rewrite bits_lor. intros Hlt Hat Hnd Hn [Hw Hi]%orb_false_iff Hr Hroom.
  destruct (bits (d_flags d) VRING_DESC_F_NEXT) eqn:En.
  - intros l' (Hl & Hlen & Hnd' & Hok & Htot). rewrite <- app_assoc in Hnd'.
    split; [by constructor|]. split; [simpl; lia|]. split; [done|]. split; [by constructor|].
    unfold tx_total in *. simpl. lia.
  - split; [by constructor|]. split; [simpl; lia|]. split; [by apply NoDup_snoc|].
    split; [by repeat constructor|]. unfold tx_total. simpl. lia.
Qed.

Lemma gather_hops_spec m base qnum hops idx seen out buf m' :
  NoDup seen -> lenN out <= NET_HDR_LEN + RX_FRAME_MAX ->
  gather_hops hops base qnum idx seen out m = (Ok buf, m') <->
  m' = m /\ exists l,
    tx_chain m base qnum idx hops seen (NET_HDR_LEN + RX_FRAME_MAX - lenN out) l /\
    buf = out ++ tx_bytes m l.
Proof.
  revert idx seen out. induction hops as [|hops IH]; intros idx seen out Hnd Hout; simpl.
  { split; [done|]. intros (_ & l & (Hl & Hlen & _) & _). destruct Hl; simpl in *; lia. }
  destruct (_ || _) eqn:E.
  { split; [done|]. intros (_ & l & (Hl & _ & Hd & _) & _). exfalso.
    apply orb_true_iff in E as [E|E].
    - apply N.leb_le in E. destruct Hl; lia.
    - apply not_false_iff_true in E. apply E, existsb_eqb.
      destruct Hl; simpl in Hd; apply NoDup_app in Hd as (_ & Hd & _); intros Hin;
        by eapply Hd; [|left]. }
  apply orb_false_iff in E as [Hlt%N.leb_gt Hseen%existsb_eqb].
  unfold bind at 1, ok_or. destruct (U.checked_add 64 base (idx * 16)) as [a|] eqn:Ea; simpl.
  2:{ split; [done|]. intros (_ & l & (Hl & _) & _).
      destruct Hl as [?? ? (? & ? & ?)|??? ? (? & ? & ?)]; congruence. }
  unfold bind at 1. rewrite read_desc_state. destruct (read_desc a m).1 as [d|e| |] eqn:Ed; simpl;
    try (split; [done|]; intros (_ & l & (Hl & _) & _);
         destruct Hl as [?? ? (? & ? & Hr)|??? ? (? & ? & Hr)]; simplify_eq; by rewrite Hr in Ed).
  assert (desc_at m base idx d) as Hat.
  { exists a. split; [done|]. by rewrite read_desc_state, Ed. }
  set (room := NET_HDR_LEN + RX_FRAME_MAX - lenN out).
  pose proof (fun l => tx_chain_inv m base qnum idx hops seen room d l Hat) as Hinv.
  pose proof (tx_chain_intro m base qnum idx hops seen room d Hlt Hat Hnd Hseen) as Hint.
  change (N.lor 2 4) with (N.lor VRING_DESC_F_WRITE VRING_DESC_F_INDIRECT).
  destruct (bits (d_flags d) (N.lor VRING_DESC_F_WRITE VRING_DESC_F_INDIRECT)).
  { split; [done|]. intros (_ & l & Hl & _). by destruct (Hinv l Hl). }
  unfold bind at 1, ok_or, U.checked_add.
  destruct (N.ltb_spec (lenN out + d_len d) (2 ^ 64)) as [H64|H64]; simpl.
  2:{ split; [done|]. intros (_ & l & Hl & _). destruct (Hinv l Hl) as (_ & _ & Hr & _).
      unfold room, NET_HDR_LEN, RX_FRAME_MAX in *. lia. }
  destruct (N.ltb_spec (NET_HDR_LEN + RX_FRAME_MAX) (lenN out + d_len d)) as [Hbig|Hfit].
  { split; [done|]. intros (_ & l & Hl & _). destruct (Hinv l Hl) as (_ & _ & Hr & _).
    unfold room in Hr. lia. }
  unfold bind at 1, get at 1.
  assert ((match (if d_addr d + d_len d <? 2 ^ 64 then Some (d_addr d + d_len d) else None) with
    | Some fin => fin <=? mem_len m | None => false end) = in_ram m (d_addr d) (d_len d)) as ->.
  { unfold in_ram. by destruct (_ <? _). }
  destruct (in_ram m (d_addr d) (d_len d)) eqn:Er; simpl.
  2:{ split; [done|]. intros (_ & l & Hl & _). by destruct (Hinv l Hl) as (_ & Hr & _). }
  unfold bind at 1. rewrite read_at_eq, Er.
  specialize (Hint eq_refl eq_refl ltac:(unfold room; lia)).
  set (b := slice (N.to_nat (d_addr d)) (N.to_nat (d_len d)) (ram m)).
  assert (lenN b = d_len d) as Hb.
  { unfold lenN, b. rewrite length_slice by by apply in_ram_nat. lia. }
  change 1 with VRING_DESC_F_NEXT.
  destruct (bits (d_flags d) VRING_DESC_F_NEXT) eqn:En; simpl.
  - assert (lenN (out ++ b) = lenN out + d_len d) as Hob by (unfold lenN in *; rewrite length_app; lia).
    rewrite IH; [|by apply NoDup_snoc|rewrite Hob; done].
    assert (NET_HDR_LEN + RX_FRAME_MAX - lenN (out ++ b) = room - d_len d) as ->
      by (unfold room; rewrite Hob; lia).
    split; intros (-> & l & Hl & ->).
    + split; [done|]. exists ((idx, d) :: l). split; [by apply Hint|].
      by rewrite <- app_assoc.
    + destruct (Hinv l Hl) as (_ & _ & _ & l' & -> & Hl'). split; [done|]. exists l'.
      split; [done|]. by rewrite <- app_assoc.
  - split.
    + intros [= <- <-]. split; [done|]. exists [(idx, d)]. split; [done|].
      unfold tx_bytes. simpl. by rewrite app_nil_r.
    + intros (-> & l & Hl & ->). destruct (Hinv l Hl) as (_ & _ & _ & ->).
      unfold tx_bytes. simpl. by rewrite app_nil_r.
Qed.

(** [gather] succeeds exactly on the terminated, acyclic chains of at most 16
    device-readable, direct descriptors whose indices lie in the queue, whose
    buffers lie in guest RAM and whose total fits header and largest frame; it
    then returns the bytes of the buffers in chain order and changes nothing. *)
Theorem gather_spec m base head qnum buf m' :
  gather base head qnum m = (Ok buf, m') <->
  m' = m /\ exists l, chain_from m base qnum head l /\ (length l <= 16)%nat /\ NoDup (map fst l) /\
    Forall (tx_seg_ok m) l /\ tx_total l <= 12 + 65536 /\ buf = tx_bytes m l.
Proof.
  unfold gather. rewrite gather_hops_spec; [|constructor|by vm_compute].
  unfold tx_chain. split; intros (-> & l & Hl); (split; [done|]); exists l; [|].
  - destruct Hl as ((? & ? & ? & ? & Ht) & ->). repeat split; done.
  - destruct Hl as (? & ? & ? & ? & ? & ->). repeat split; done.
Qed.

(** ** Chains survive writes elsewhere *)

Lemma read_u16_state gpa m : read_u16 gpa m = ((read_u16 gpa m).1, m).
Proof. rewrite read_u16_eq. by destruct (in_ram m gpa 2). Qed.

Lemma read_u16_keep F gpa m m' v :
  mem_frame F m m' -> (forall a, in_range gpa 2 a -> ~ F a) ->
  read_u16 gpa m = (Ok v, m) -> read_u16 gpa m' = (Ok v, m').
Proof.
  intros Hf HF Hv. rewrite read_u16_state, (read_u16_frame F gpa m m') by done. by rewrite Hv.
Qed.

(** The addresses of a chain: its descriptors and its buffers. *)
Definition chain_reads (base : u64) (l : list (u16 * Desc)) (a : N) : Prop :=
  Exists (fun x => in_range (base + x.1 * 16) 16 a \/ in_range (d_addr x.2) (d_len x.2) a) l.

Lemma desc_at_keep F m m' base idx d :
  mem_frame F m m' -> (forall a, in_range (base + idx * 16) 16 a -> ~ F a) ->
  desc_at m base idx d -> desc_at m' base idx d.
Proof.
  intros Hf HF (g & Hg & Hr). exists g. split; [done|]. revert Hr. unfold read_desc, bind.
  assert (g = base + idx * 16) as ->.
  { revert Hg. unfold U.checked_add. by destruct (_ <? _); intros [= <-]. }
  rewrite (read_at_state _ _ m). destruct (read_at _ 16 m).1 as [b|e| |] eqn:E; [|done..].
  intros [= <-]. rewrite (read_at_keep F _ _ m m' b); [done|done|done|]. by rewrite read_at_state, E.
Qed.

Lemma chain_from_keep F m m' base qnum idx l :
  mem_frame F m m' -> (forall a, chain_reads base l a -> ~ F a) ->
  chain_from m base qnum idx l -> chain_from m' base qnum idx l.
Proof.
  intros Hf HF Hl. revert HF. induction Hl as [idx d|idx d l Hlt Hat Hi Hn Hl IH]; intros HF.
  - constructor; try done. eapply desc_at_keep; [done| |done]. intros a Ha. apply HF.
    left. by left.
  - constructor; try done.
    + eapply desc_at_keep; [done| |done]. intros a Ha. apply HF. left. by left.
    + apply IH. intros a Ha. apply HF. by right.
Qed.

Lemma tx_bytes_keep F m m' base l :
  mem_frame F m m' -> (forall a, chain_reads base l a -> ~ F a) -> tx_bytes m' l = tx_bytes m l.
Proof.
  intros [_ Hf] HF. unfold tx_bytes. f_equal. apply map_ext_in. intros x Hx.
  apply list_eq. intros j. rewrite !lookup_slice. case_decide; [|done]. apply Hf, HF.
  apply List.Exists_exists. exists x. split; [done|]. right. unfold in_range. lia.
Qed.

Lemma gather_keep F m m' base head qnum l buf :
  mem_frame F m m' -> (forall a, chain_reads base l a -> ~ F a) ->
  tx_chain m base qnum head 16 [] (NET_HDR_LEN + RX_FRAME_MAX) l -> buf = tx_bytes m l ->
  gather base head qnum m' = (Ok buf, m').
Proof.
  intros Hf HF (Hl & Hlen & Hnd & Hok & Htot) ->. unfold gather.
  apply gather_hops_spec; [constructor|by vm_compute|]. split; [done|]. exists l.
  split; [|by rewrite (tx_bytes_keep F m m' base)]. split; [by eapply chain_from_keep|].
  split; [done|]. split; [done|]. split; [|done]. eapply Forall_impl; [exact Hok|].
  intros x [Hw Hr]. split; [done|]. by rewrite (in_ram_frame _ _ _ _ _ Hf).
Qed.

(** ** The transmit loop with a tap *)

(** The [k]-th pending buffer of the queue is the chain from [hb.1] and holds [hb.2]:
    its head is in the avail ring, its chain is one [gather] accepts, and the used
    ring overlaps neither. *)
Definition tx_posted (m : GuestMemory) (q : QueueState) (k : nat) (hb : u16 * bytes) : Prop :=
  let slot := (q_last_avail q + N.of_nat k) mod 2 ^ 16 mod q_num q in
  let gpa := U.add 64 (U.add 64 (q_avail q) 4) (slot * 2) in
  exists l,
    read_u16 gpa m = (Ok hb.1, m) /\
    tx_chain m (q_desc q) (q_num q) hb.1 16 [] (NET_HDR_LEN + RX_FRAME_MAX) l /\
    hb.2 = tx_bytes m l /\
    forall a, used_footprint (q_used q) (q_num q) a ->
      ~ in_range gpa 2 a /\ ~ chain_reads (q_desc q) l a.

Definition sent_frames (bufs : list bytes) : list bytes :=
  filter (fun f => f <> []) (map (drop 12) bufs).

(** The slot of the used ring that the [i]-th buffer goes to, and its element there. *)
Definition used_slot_of (q : QueueState) (u0 : u16) (i : nat) : N := (u0 + N.of_nat i) mod 2 ^ 16 mod q_num q.

Definition tx_returned (m : GuestMemory) (q : QueueState) (u0 : u16) (i : nat) (hb : u16 * bytes) : Prop :=
  read_at (q_used q + 4 + 8 * used_slot_of q u0 i) 8 m = (Ok (le_bytes 4 hb.1 ++ le_bytes 4 (U.wrap 32 (lenN hb.2))), m).

(** The first [k] buffers are on the used ring, but where a later one took the slot. *)
Definition all_returned (m : GuestMemory) (q : QueueState) (u0 : u16) (posted : list (u16 * bytes)) (k : nat) : Prop :=
  forall i hb, posted !! i = Some hb -> (i < k)%nat ->
    (forall j, (i < j < k)%nat -> used_slot_of q u0 j <> used_slot_of q u0 i) -> tx_returned m q u0 i hb.

Section TxLoop.
Context {L : Type} `{RateLimit L}.
Context (posted : list (u16 * bytes)).
Context (m0 : GuestMemory) (st0 : VirtioState) (q : QueueState) (ai : u16).
Let F := used_footprint (q_used q) (q_num q).
Context (Hused : used_ring_ok m0 (q_used q) (q_num q) = true).
Context (Hla : in_u 16 (q_last_avail q)).
Context (Hai : read_u16 (U.add 64 (q_avail q) 2) m0 = (Ok ai, m0)).
Context (Hsep : forall a, F a -> ~ in_range (U.add 64 (q_avail q) 2) 2 a).
Context (u0 : u16) (Hu16 : in_u 16 u0).

(** The state after [k] buffers. *)
Definition tx_at (k : nat) (t : Tap) (d : NetDev L) : Prop :=
  mem_frame F m0 (n_mem d) /\
  n_st d = st_queues (<[1%nat := with_last_avail ((q_last_avail q + N.of_nat k) mod 2 ^ 16) q]>
             (queues st0)) st0 /\
  n_tap d = Some t /\ n_lim d = None /\
  read_u16 (q_used q + 2) (n_mem d) = (Ok ((u0 + N.of_nat k) mod 2 ^ 16), n_mem d) /\
  all_returned (n_mem d) q u0 posted k.

Context (Hq : queues st0 !! 1%nat = Some q).

Lemma tx_at_queue k t d : tx_at k t d ->
  queues (n_st d) !! 1%nat = Some (with_last_avail ((q_last_avail q + N.of_nat k) mod 2 ^ 16) q).
Proof.
  intros (_ & -> & _). simpl. apply list_lookup_insert_eq. by eapply lookup_lt_Some.
Qed.

Lemma used_ring_keep m : mem_frame F m0 m -> used_ring_ok m (q_used q) (q_num q) = true.
Proof. intros Hf. unfold used_ring_ok in *. by rewrite (mem_frame_len _ _ _ Hf). Qed.

(** One buffer is completed and its frame, if any, goes to the tap. *)
Lemma returned_push m m' k hb : used_ring_ok m (q_used q) (q_num q) = true -> posted !! k = Some hb -> all_returned m q u0 posted k ->
  mem_frame (used_slot (q_used q) (used_slot_of q u0 k)) m m' -> tx_returned m' q u0 k hb -> all_returned m' q u0 posted (S k).
Proof.
  intros Hok Hk Hall Hf Hnew i hb' Hi Hlt Hsl. destruct (decide (i = k)) as [->|Hne]; [by simplify_eq|].
  unfold tx_returned. eapply read_at_keep; [exact Hf| |apply (Hall i hb'); [done|lia|intros j Hj; apply Hsl; lia]].
  specialize (Hsl k ltac:(lia)). intros a Ha [Hu|Hu]; unfold in_range in *; lia.
Qed.

Lemma tx_one_sends k t d hb :
  tx_at k t d -> t_wfail t = [] -> posted !! k = Some hb -> tx_posted m0 q k hb ->
  ai <> (q_last_avail q + N.of_nat k) mod 2 ^ 16 ->
  exists d', tx_one q d = (Ok (Some (lenN (sent_frames [hb.2]))), d') /\
    tx_at (S k) {| t_in := t_in t; t_wfail := []; t_out := t_out t ++ sent_frames [hb.2] |} d'.
Proof.
  destruct hb as [head buf]. intros Hat Hw Hpk (l & Hhd & Hch & Hb & Hap) Hne. simpl in Hhd, Hch, Hap, Hpk, Hb |- *. subst buf. set (la := (q_last_avail q + N.of_nat k) mod 2 ^ 16) in *.
  pose proof (tx_at_queue k t d Hat) as Hqk. fold la in Hqk. destruct Hat as (Hf & Hst & Ht & Hlim & Hu & Hret).
  assert (q_num q <> 0) as Hn by (apply used_ring_ok_spec in Hused; lia).
  unfold tx_one, n_queue, bind at 1. rewrite Hqk. unfold bind at 1, on_nmem at 1, on_guest, zoom.
  unfold read_avail_idx. rewrite (read_u16_keep F _ m0 (n_mem d) ai); [|done| |done].
  2:{ intros a Ha HF. by apply (Hsep a). }
  replace (set_nmem (n_mem d) d) with d by by destruct d.
  cbn [q_last_avail with_last_avail]. rewrite (proj2 (N.eqb_neq la ai)) by done.
  unfold bind at 1, on_nmem at 1, on_guest, zoom, read_avail_head.
  rewrite (proj2 (N.eqb_neq _ _) Hn). rewrite (read_u16_keep F _ m0 (n_mem d) head); [|done| |done].
  2:{ intros a Ha HF. by destruct (Hap a HF) as [Hx _]; apply Hx. }
  replace (set_nmem (n_mem d) d) with d by by destruct d.
  unfold bind at 1, on_nmem at 1, on_guest, zoom.
  rewrite (gather_keep F m0 (n_mem d) (q_desc q) head (q_num q) l (tx_bytes m0 l) Hf); [| |done|done].
  2:{ intros a Ha HF. by destruct (Hap a HF) as [_ Hx]; apply Hx. }
  replace (set_nmem (n_mem d) d) with d by by destruct d.
  set (buf := tx_bytes m0 l). unfold bind at 1, n_consume. rewrite Hlim. simpl.
  destruct (used_push_exact (n_mem d) (q_used q) (q_num q) head (U.wrap 32 (lenN buf))) as
    (idx & m1 & Hidx & Hp & Hf1 & Hidx1 & Hel & Hfs); [by apply used_ring_keep|].
  rewrite Hu in Hidx. injection Hidx as <-.
  pose proof (returned_push (n_mem d) m1 k (head, buf) (used_ring_keep _ Hf) Hpk Hret Hfs Hel) as Hret1.
  unfold bind at 1, on_nmem at 1, on_guest, zoom, used_push. simpl. rewrite Hp.
  unfold bind at 1, n_bump, modify.
  set (d2 := set_nst _ _).
  assert (forall t', tx_at (S k) t'
    {| n_mem := n_mem d2; n_st := n_st d2; n_tap := Some t'; n_lim := n_lim d2 |}) as Hnext.
  { intros t'. split; [by etransitivity|]. split; [|split; [done|split; [done|split; [|exact Hret1]]]].
    2:{ unfold d2. simpl. rewrite Hidx1. do 2 f_equal. unfold U.add, U.wrap.
        rewrite N.Div0.add_mod_idemp_l. f_equal. lia. }
    unfold d2, set_nst, set_nmem. simpl.
    rewrite Hst. simpl. unfold st_queues. simpl. f_equal.
    apply list_eq. intros j. destruct (decide (j = 1%nat)) as [->|].
    - rewrite list_lookup_alter_eq, !list_lookup_insert_eq by by eapply lookup_lt_Some.
      simpl. f_equal. unfold bump_last_avail, with_last_avail. simpl. f_equal.
      unfold la, U.add, U.wrap. rewrite N.Div0.add_mod_idemp_l. f_equal. lia.
    - by rewrite list_lookup_alter_ne, !list_lookup_insert_ne by done. }
  assert (n_tap d2 = Some t) as Ht2 by (unfold d2; simpl; done).
  unfold sent_frames. cbn [map filter list_filter].
  destruct (drop 12 buf) as [|b f] eqn:Ef.
  - exists d2. split; [done|]. specialize (Hnext t). rewrite app_nil_r, <- Hw.
    replace {| t_in := t_in t; t_wfail := t_wfail t; t_out := t_out t |} with t by by destruct t.
    unfold tx_at in *. cbn [n_mem n_st n_tap n_lim] in Hnext. by rewrite Ht2.
  - rewrite decide_True by done. unfold bind, transmit. rewrite Ht2. eexists. split; [done|].
    unfold write_frame. rewrite Hw. simpl. apply Hnext.
Qed.

Lemma tx_loop_sends bufs k fuel frames t d :
  tx_at k t d -> t_wfail t = [] -> drop k posted = bufs ->
  (forall i hb, bufs !! i = Some hb -> tx_posted m0 q (k + i) hb) ->
  ai = (q_last_avail q + N.of_nat (k + length bufs)) mod 2 ^ 16 ->
  (k + length bufs < N.to_nat (2 ^ 16))%nat -> (length bufs < fuel)%nat ->
  frames + lenN bufs < 2 ^ 32 ->
  exists d', tx_loop fuel q frames d = (Ok (frames + lenN (sent_frames (map snd bufs))), d') /\
    tx_at (k + length bufs) {| t_in := t_in t; t_wfail := []; t_out := t_out t ++ sent_frames (map snd bufs) |} d'.
Proof.
  revert k fuel frames t d. induction bufs as [|hb bufs IH]; intros k fuel frames t d Hat Hw Hdr Hp Hend Hk Hfuel Hfr;
    (destruct fuel as [|fuel]; [simpl in Hfuel; lia|]); cbn [tx_loop].
  - pose proof (tx_at_queue k t d Hat) as Hqk. exists d.
    unfold bind at 1, tx_one, n_queue, bind at 1. rewrite Hqk. destruct Hat as (Hf & Hst & Ht & Hlim & Hu & Hret).
    unfold bind at 1, on_nmem at 1, on_guest, zoom, read_avail_idx.
    rewrite (read_u16_keep F _ m0 (n_mem d) ai); [|done| |done].
    2:{ intros a Ha HF. by apply (Hsep a). }
    replace (set_nmem (n_mem d) d) with d by by destruct d.
    cbn [q_last_avail with_last_avail length] in *. rewrite Nat.add_0_r in Hend.
    rewrite <- Hend, N.eqb_refl. simpl.
    unfold ret. split; [do 2 f_equal; unfold lenN; simpl; lia|]. rewrite Nat.add_0_r, app_nil_r.
    split; [done|]. split; [done|]. split; [|done]. rewrite Ht, <- Hw. by destruct t.
  - cbn [length] in Hend, Hk, Hfuel.
    assert (posted !! k = Some hb) as Hpk by (rewrite <- (Nat.add_0_r k), <- lookup_drop; by rewrite Hdr).
    destruct (tx_one_sends k t d hb Hat Hw Hpk) as (d1 & E1 & Hat1).
    { specialize (Hp 0%nat hb eq_refl). by rewrite Nat.add_0_r in Hp. }
    { rewrite Hend. unfold in_u in Hla. clear -Hk Hla. intros E. dlia. }
    unfold bind at 1. rewrite E1.
    assert (Hone : lenN (sent_frames [hb.2]) <= 1).
    { unfold sent_frames, lenN. pose proof (length_filter (fun f => f <> []) (map (drop 12) [hb.2])). simpl length in *. lia. }
    assert (U.add 32 frames (lenN (sent_frames [hb.2])) = frames + lenN (sent_frames [hb.2])) as ->.
    { unfold lenN in Hfr, Hone |- *. simpl length in Hfr. apply wrap_small. unfold in_u. lia. }
    destruct (IH (S k) fuel (frames + lenN (sent_frames [hb.2])) _ d1 Hat1) as (d2 & E2 & Hat2);
      [done|by rewrite (drop_S _ _ _ Hpk) in Hdr; injection Hdr| |rewrite Hend; do 3 f_equal; lia|lia|lia|unfold lenN in *; simpl length in *; lia|].
    { intros i b Hi. specialize (Hp (S i) b Hi). by rewrite Nat.add_succ_r in Hp. }
    exists d2. rewrite E2. simpl t_out in Hat2. rewrite <- app_assoc in Hat2.
    assert (sent_frames (map snd (hb :: bufs)) = sent_frames [hb.2] ++ sent_frames (map snd bufs)) as ->.
    { unfold sent_frames. change (map snd (hb :: bufs)) with ([hb.2] ++ map snd bufs). by rewrite map_app, filter_app. }
    split.
    + do 2 f_equal. unfold lenN. rewrite length_app. lia.
    + simpl length. by rewrite Nat.add_succ_r.
Qed.

End TxLoop.

(** C30: with a tap that takes every write and no rate limiter, a transmit notify on a
    queue whose used ring overlaps none of the rings, descriptors and buffers it
    reads drains the queue: it hands the frame of every pending buffer that has one to
    the tap exactly once and in ring order, publishes the head and the length of every
    buffer in the used element that is next (each is there at the end, unless a later
    buffer took its slot), advances the used index by their number, and stops within
    one step more than the number of pending buffers; nothing but the used ring
    changes in RAM. *)
Theorem net_tx_order {L} `{RateLimit L} (d : NetDev L) q t ai u0 bufs fuel :
  queues (n_st d) !! 1%nat = Some q -> q_ready q <> 0 -> in_u 16 (q_last_avail q) ->
  n_tap d = Some t -> t_wfail t = [] -> n_lim d = None ->
  used_ring_ok (n_mem d) (q_used q) (q_num q) = true ->
  read_u16 (q_used q + 2) (n_mem d) = (Ok u0, n_mem d) -> in_u 16 u0 ->
  read_u16 (U.add 64 (q_avail q) 2) (n_mem d) = (Ok ai, n_mem d) ->
  (forall a, used_footprint (q_used q) (q_num q) a -> ~ in_range (U.add 64 (q_avail q) 2) 2 a) ->
  ai = (q_last_avail q + lenN bufs) mod 2 ^ 16 -> lenN bufs < 2 ^ 16 ->
  (forall i hb, bufs !! i = Some hb -> tx_posted (n_mem d) q i hb) ->
  (length bufs < fuel)%nat ->
  exists mem', handle_notify fuel 1 d =
    (Ok (lenN (sent_frames (map snd bufs))),
     {| n_mem := mem'; n_st := st_queues (<[1%nat := with_last_avail ai q]> (queues (n_st d))) (n_st d);
        n_tap := Some {| t_in := t_in t; t_wfail := []; t_out := t_out t ++ sent_frames (map snd bufs) |};
        n_lim := None |}) /\
    mem_frame (used_footprint (q_used q) (q_num q)) (n_mem d) mem' /\
    read_u16 (q_used q + 2) mem' = (Ok ((u0 + lenN bufs) mod 2 ^ 16), mem') /\
    all_returned mem' q u0 bufs (length bufs).
Proof.
  intros Hq Hr Hla Ht Hw Hlim Hused Hu Hu16 Hai Hsep Hend Hlen Hp Hfuel.
  unfold lenN in Hend, Hlen.
  destruct (tx_loop_sends bufs (n_mem d) (n_st d) q ai Hused Hla Hai Hsep u0 Hq bufs 0 fuel 0 t d)
    as (d' & E & Hm & Hst & Ht' & Hl' & Hu' & Hret); try done; [|lia|unfold lenN; lia|].
  { split; [reflexivity|]. change (N.of_nat 0) with 0. rewrite !N.add_0_r, !N.mod_small by done.
    split; [|split_and!; [done|done|done|by intros i hb _ ?; lia]]. replace (with_last_avail (q_last_avail q) q) with q by by destruct q.
    rewrite list_insert_id by done. by destruct (n_st d). }
  exists (n_mem d'). unfold handle_notify, n_queue, bind at 1. simpl. rewrite Hq.
  assert (q_num q <> 0) as Hn by (apply used_ring_ok_spec in Hused; lia).
  rewrite (proj2 (N.eqb_neq _ _) Hr), (proj2 (N.eqb_neq _ _) Hn). simpl. rewrite E, N.add_0_l.
  unfold lenN. simpl in Hst, Hu', Hret. rewrite <- Hend in Hst. split; [|done]. f_equal.
  destruct d'. simpl in *. by subst.
Qed.

(** ** The control queue *)

(** What the control queue may do to the active pair count. *)
Definition pairs_ok (allow_multi : bool) (st st' : VirtioState) : Prop :=
  net_max_pairs st' = net_max_pairs st /\
  (net_active_pairs st' = net_active_pairs st \/
   1 <= net_active_pairs st' <= net_max_pairs st /\ (net_active_pairs st' = 1 \/ allow_multi = true)).

Definition ctrl_rel {L} (allow_multi : bool) (d d' : NetDev L) : Prop :=
  pairs_ok allow_multi (n_st d) (n_st d').

#[global] Instance ctrl_rel_preorder {L} am : PreOrder (@ctrl_rel L am).
Proof.
  split.
  - intros d. split; [done|by left].
  - intros d1 d2 d3 [E1 H1] [E2 H2]. split; [congruence|]. rewrite E1 in H2.
    destruct H2 as [->|H2]; [done|by right].
Qed.

Lemma ctrl_command_range ok req max am n :
  ctrl_command ok req max am = Some n -> 1 <= n <= max /\ (n = 1 \/ am = true).
Proof.
  unfold ctrl_command. destruct (_ && _); [|done]. destruct (_ && _) eqn:E; [|done].
  intros [= <-]. apply andb_true_iff in E as [[E1%N.leb_le E2%N.leb_le]%andb_true_iff E3].
  apply orb_true_iff in E3 as [E3%N.eqb_eq|E3]; auto.
Qed.

Section Ctrl.
Context {L : Type} `{RateLimit L} (allow_multi : bool).

Lemma ctrl_on_nmem {A} (m : M GuestMemory A) : mrel (@ctrl_rel L allow_multi) (on_nmem m).
Proof. apply mrel_zoom. intros d. split; [done|by left]. Qed.

Lemma ctrl_n_queue i : mrel (@ctrl_rel L allow_multi) (n_queue i).
Proof. intros d. unfold n_queue. destruct (queues (n_st d) !! i); simpl; reflexivity. Qed.

Lemma ctrl_n_bump i : mrel (@ctrl_rel L allow_multi) (n_bump i).
Proof. intros d. split; [done|by left]. Qed.

(** A computation that starts by reading the state. *)
Lemma mrel_bind_get {S A} (R : S -> S -> Prop) (f : S -> M S A) :
  (forall s, R s (f s s).2) -> mrel R (bind get f).
Proof. intros Hf s. apply Hf. Qed.

Lemma mrel_bind_at {S A B} (R : S -> S -> Prop) `{!PreOrder R} (m : M S A) (f : A -> M S B) s :
  R s (m s).2 -> (forall a, mrel R (f a)) -> R s (bind m f s).2.
Proof.
  intros Hm Hf. unfold bind. destruct (m s) as [[a|e| |] s']; simpl in *; try done.
  etransitivity; [done|apply Hf].
Qed.

Lemma ctrl_one_pairs qidx q : mrel (@ctrl_rel L allow_multi) (ctrl_one qidx q allow_multi).
Proof.
  unfold ctrl_one. apply mrel_bind; [apply _|apply ctrl_n_queue|]. intros cur.
  apply mrel_bind; [apply _|apply ctrl_on_nmem|]. intros ai. apply mrel_if; [mrel_tac|].
  apply mrel_bind; [apply _|apply ctrl_on_nmem|]. intros head.
  apply mrel_bind; [apply _|apply ctrl_on_nmem|]. intros [[ok req] ack_addr].
  apply mrel_bind_get. intros d. apply mrel_bind_at; [apply _| |].
  - destruct (ctrl_command ok req _ allow_multi) as [n|] eqn:E; [|simpl; reflexivity].
    apply ctrl_command_range in E. split; [done|]. by right.
  - intros _. apply mrel_bind; [apply _| |].
    + destruct ack_addr; [apply mrel_try_ok; [apply _|apply ctrl_on_nmem|mrel_tac..]|mrel_tac].
    + intros w. apply mrel_bind; [apply _|apply ctrl_on_nmem|]. intros _.
      apply mrel_bind; [apply _|apply ctrl_n_bump|mrel_tac].
Qed.

Lemma ctrl_loop_pairs fuel qidx q done :
  mrel (@ctrl_rel L allow_multi) (ctrl_loop fuel qidx q allow_multi done).
Proof.
  revert done. induction fuel as [|fuel IH]; intros done; cbn [ctrl_loop]; [mrel_tac|].
  apply mrel_bind; [apply _|apply ctrl_one_pairs|]. intros [[]|]; [apply IH|mrel_tac].
Qed.

End Ctrl.

(** whatever commands the guest queues, the control queue leaves the number
    of active queue pairs as it was or sets it between 1 and the device's
    maximum, and to more than one only when the datapath allows it. *)
Theorem net_ctrl_pairs {L} `{RateLimit L} (d : NetDev L) fuel qidx allow_multi :
  pairs_ok allow_multi (n_st d) (n_st (handle_ctrl fuel qidx allow_multi d).2).
Proof.
  assert (mrel (@ctrl_rel L allow_multi) (handle_ctrl fuel qidx allow_multi)) as Hm; [|apply Hm].
  unfold handle_ctrl. apply mrel_bind; [apply _|apply ctrl_n_queue|]. intros q.
  apply mrel_if; [mrel_tac|apply ctrl_loop_pairs].
Qed.

(** ** A concrete transmit

    4 KiB of RAM, descriptors at 0x100, avail ring at 0x200, used ring at 0x300;
    one pending buffer at 0x800: a 12-byte header and the frame [1; 2; 3; 4]. *)
Definition demo_tx_q : QueueState :=
  {| q_num := 8; q_ready := 1; q_desc := 0x100; q_avail := 0x200; q_used := 0x300; q_last_avail := 0 |}.

Definition demo_tx_desc : Desc := {| d_addr := 0x800; d_len := 16; d_flags := 0; d_next := 0 |}.

Definition demo_tx_mem : GuestMemory :=
  {| ram := splice 0x100 (le_bytes 8 0x800 ++ le_bytes 4 16)
       (splice 0x202 [1; 0] (splice 0x80c [1; 2; 3; 4] (repeat 0 4096))) |}.

Definition demo_net : NetDev RateLimiter :=
  {| n_mem := demo_tx_mem;
     n_st := st_queues [QueueState_default; demo_tx_q] VirtioState_default;
     n_tap := Some {| t_in := []; t_wfail := []; t_out := [] |}; n_lim := None |}.

Lemma demo_tx_posted : tx_posted demo_tx_mem demo_tx_q 0 (0, repeat 0 12 ++ [1; 2; 3; 4]).
Proof.
  exists [(0, demo_tx_desc)]. split; [vm_compute; reflexivity|]. split.
  { split; [|split; [simpl; lia|split; [by_eval|split; [|by vm_compute]]]].
    - apply chain_last; [by_eval| |reflexivity..]. exists 0x100. split; [reflexivity|].
      vm_compute. reflexivity.
    - repeat constructor; vm_compute; reflexivity. }
  split; [vm_compute; reflexivity|]. intros a Ha%used_footprint_bounds; [|by vm_compute].
  unfold in_range in Ha. simpl in Ha. unfold chain_reads. rewrite Exists_cons, Exists_nil.
  unfold in_range. vm_compute U.add. simpl. lia.
Qed.

Lemma net_tx_order_witness : exists mem', handle_notify 2 1 demo_net =
    (Ok 1,
     {| n_mem := mem'; n_st := st_queues [QueueState_default; with_last_avail 1 demo_tx_q] VirtioState_default;
        n_tap := Some {| t_in := []; t_wfail := []; t_out := [[1; 2; 3; 4]] |}; n_lim := None |}) /\
    mem_frame (used_footprint 0x300 8) demo_tx_mem mem' /\
    read_u16 0x302 mem' = (Ok 1, mem') /\ all_returned mem' demo_tx_q 0 [(0, repeat 0 12 ++ [1; 2; 3; 4])] 1.
Proof.
  apply (net_tx_order demo_net demo_tx_q {| t_in := []; t_wfail := []; t_out := [] |} 1 0
           [(0, repeat 0 12 ++ [1; 2; 3; 4])] 2); try reflexivity; try by_eval.
  - intros a Ha%used_footprint_bounds; [|by vm_compute]. revert Ha. unfold in_range.
    vm_compute U.add. simpl. lia.
  - intros [|i] buf Hi; [|done]. injection Hi as <-. apply demo_tx_posted.
Defined.

(** ** A ring layout that never drains

    The transmit loop has no budget.  A guest that places a one-entry used ring
    on top of its avail ring has every completion advance the avail index. *)
Definition spin_q : QueueState :=
  {| q_num := 1; q_ready := 1; q_desc := 0x100; q_avail := 0x200; q_used := 0x200; q_last_avail := 0 |}.

Definition spin_mem : GuestMemory := {| ram := splice 0x202 [1; 0] (repeat 0 4096) |}.

Definition spin_net : NetDev RateLimiter :=
  {| n_mem := spin_mem; n_st := st_queues [QueueState_default; spin_q] VirtioState_default;
     n_tap := None; n_lim := None |}.

Definition spin_F : N -> Prop := used_footprint 0x200 1.

(** The state after [k] completions. *)
Definition spin_at (k : N) (d : NetDev RateLimiter) : Prop :=
  mem_frame spin_F spin_mem (n_mem d) /\
  read_u16 0x202 (n_mem d) = (Ok ((k + 1) mod 2 ^ 16), n_mem d) /\
  read_u16 0x204 (n_mem d) = (Ok 0, n_mem d) /\
  queues (n_st d) !! 1%nat = Some (with_last_avail (k mod 2 ^ 16) spin_q) /\ n_lim d = None.

Lemma spin_gather m : mem_frame spin_F spin_mem m -> gather 0x100 0 1 m = (Ok [], m).
Proof.
  intros Hf.
  apply (gather_keep spin_F spin_mem m 0x100 0 1 [(0, {| d_addr := 0; d_len := 0; d_flags := 0; d_next := 0 |})]);
    [done| | |reflexivity].
  - intros a Ha HF. apply used_footprint_bounds in HF; [|by vm_compute].
    unfold chain_reads in Ha. rewrite Exists_cons, Exists_nil in Ha. unfold in_range in *. simpl in *. lia.
  - split; [|split; [simpl; lia|split; [by_eval|split; [|by vm_compute]]]].
    + apply chain_last; [by_eval| |reflexivity..]. exists 0x100. split; [reflexivity|].
      vm_compute. reflexivity.
    + repeat constructor; vm_compute; reflexivity.
Qed.

Lemma spin_step k d : spin_at k d -> exists d', tx_one spin_q d = (Ok (Some 0), d') /\ spin_at (k + 1) d'.
Proof.
  intros (Hf & Hidx & Hhead & Hq & Hlim).
  assert (used_ring_ok (n_mem d) 0x200 1 = true) as Hok.
  { unfold used_ring_ok. rewrite (mem_frame_len _ _ _ Hf). vm_compute. reflexivity. }
  destruct (used_push_ok (n_mem d) 0x200 1 0 0 Hok) as (idx & m1 & Hi & Hp & Hf1 & Hi1 & He).
  change (0x200 + 2) with 0x202 in *. rewrite Hidx in Hi. injection Hi as <-.
  assert (k mod 2 ^ 16 <> (k + 1) mod 2 ^ 16) as Hne by (clear; dlia).
  unfold tx_one, n_queue, bind at 1. rewrite Hq. unfold bind at 1, on_nmem at 1, on_guest, zoom, read_avail_idx.
  change (U.add 64 (q_avail spin_q) 2) with 0x202. rewrite Hidx.
  replace (set_nmem (n_mem d) d) with d by by destruct d.
  cbn [q_last_avail with_last_avail]. rewrite (proj2 (N.eqb_neq _ _) Hne).
  unfold bind at 1, on_nmem at 1, on_guest, zoom, read_avail_head.
  change (q_num spin_q =? 0) with false. change (q_num spin_q) with 1. cbv iota. rewrite N.mod_1_r.
  change (U.add 64 (U.add 64 (q_avail spin_q) 4) (0 * 2)) with 0x204. rewrite Hhead.
  replace (set_nmem (n_mem d) d) with d by by destruct d.
  unfold bind at 1, on_nmem at 1, on_guest, zoom. change (q_desc spin_q) with 0x100.
  rewrite spin_gather by done. replace (set_nmem (n_mem d) d) with d by by destruct d.
  unfold bind at 1, n_consume. rewrite Hlim. cbn [consume_opt negb].
  unfold bind at 1, on_nmem at 1, on_guest, zoom. change (q_used spin_q) with 0x200.
  change (U.wrap 32 (lenN (@nil N))) with 0. unfold used_push. cbn [n_mem]. rewrite Hp.
  unfold bind at 1, n_bump, modify. eexists. split; [reflexivity|].
  split; [by etransitivity|]. cbn [n_mem n_st n_lim set_nst set_nmem queues st_queues]. split; [|split; [|split; [|done]]].
  - rewrite Hi1. do 2 f_equal. unfold U.add, U.wrap. rewrite N.Div0.add_mod_idemp_l. f_equal.
  - revert He. rewrite N.mod_1_r. change (0x200 + 4 + 8 * 0) with 0x204. rewrite read_at_eq, read_u16_eq.
    destruct (in_ram m1 0x204 8) eqn:E8; [|done]. intros [= Hs].
    assert (in_ram m1 0x204 2 = true) as -> by (apply in_ram_spec in E8; apply in_ram_spec; lia).
    do 3 f_equal. change (N.to_nat 8) with (2 + 6)%nat in Hs. rewrite slice_app_split in Hs.
    apply (f_equal (take 2)) in Hs. rewrite take_app_length' in Hs; [by rewrite Hs|].
    apply in_ram_nat in E8. symmetry. apply length_slice. simpl in *. lia.
  - rewrite list_lookup_alter_eq, Hq. simpl. f_equal. unfold bump_last_avail, with_last_avail.
    simpl. f_equal. unfold U.add, U.wrap. by rewrite N.Div0.add_mod_idemp_l.
Qed.

(** the transmit handler need not return: with a used ring placed over the
    avail ring it completes buffers for ever, whatever the fuel given to the
    loop. *)
Theorem net_tx_can_spin : exists d : NetDev RateLimiter, forall fuel, (handle_notify fuel 1 d).1 = Loop.
Proof.
  exists spin_net. intros fuel.
  assert (forall fuel k d frames, spin_at k d -> (tx_loop fuel spin_q frames d).1 = Loop) as Hloop.
  { clear fuel. intros fuel. induction fuel as [|fuel IH]; intros k d frames Hat; [done|].
    cbn [tx_loop]. destruct (spin_step k d Hat) as (d' & E & Hat'). unfold bind at 1. rewrite E. by eapply IH. }
  apply (Hloop fuel 0). split; [reflexivity|]. repeat split; vm_compute; reflexivity.
Qed.
