(* ===== verification/VirtioNetRx.v ===== *)
(** * virtio-net receive: correctness

    [scatter], [rx_deliver] and [rx_pump] of {!VirtioNet}: what lands in the
    guest's buffers, what is published, what is counted; the Internet checksum of
    the canned gateway; MAC address parsing. *)

From stdpp Require Import prelude list.
From Stdlib Require Import NArith Lia.
From S2P Require Import Prelude GuestMemory Virtqueue VirtioMmio RateLimiter VirtioNet.

(** ** [scatter] *)

(** RAM after [src] is laid out over the segments, in order. *)
Fixpoint lay (segs : list (u64 * u32)) (src r : bytes) : bytes :=
  match segs with
  | [] => r
  | (a, len) :: segs =>
      lay segs (drop (N.to_nat len) src) (splice (N.to_nat a) (take (N.to_nat len) src) r)
  end.

(** A write of [n] bytes at [a] that cannot fail. *)
Definition fits (m : GuestMemory) (a n : N) : Prop := n = 0 \/ in_ram m a n = true.

Lemma splice_nil' {A} i (l : list A) : splice i [] l = l.
Proof. unfold splice. simpl. by rewrite Nat.add_0_r, take_drop. Qed.

Lemma take_app_split {A} k (s t : list A) : (length s <= k)%nat ->
  take k (s ++ t) = s ++ take (k - length s) t.
Proof. intros. rewrite take_app. by rewrite take_ge. Qed.

Lemma fits_mem m m' a n : mem_len m' = mem_len m -> fits m a n -> fits m' a n.
Proof. intros E. unfold fits, in_ram. by rewrite E. Qed.

Lemma scatter_seg_spec src fuel a room m :
  (2 * length src < fuel)%nat -> fits m a (N.min room (lenN (concat src))) ->
  exists src', scatter_seg fuel a room src m =
    (Ok src', {| ram := splice (N.to_nat a) (take (N.to_nat room) (concat src)) (ram m) |}) /\
    concat src' = drop (N.to_nat room) (concat src) /\ (length src' <= length src)%nat.
Proof.
  revert fuel a room m. induction src as [|s rest IH]; intros fuel a room m Hf Hfit;
    (destruct fuel as [|fuel]; [simpl in Hf; lia|]); cbn [scatter_seg].
  { exists []. simpl. rewrite take_nil, drop_nil, splice_nil'. destruct m.
    by destruct (room =? 0). }
  destruct (N.eqb_spec room 0) as [->|Hroom].
  { exists (s :: rest). change (N.to_nat 0) with 0%nat. rewrite take_0, drop_0, splice_nil'.
    by destruct m. }
  destruct s as [|b s'].
  { destruct (IH fuel a room m) as (src' & E & Hc & Hl); [simpl in *; lia|done|].
    exists src'. split; [done|]. split; [done|simpl; lia]. }
  set (s := b :: s') in *. set (n := N.min (lenN s) room).
  assert (0 < n) as Hn by (unfold n, s, lenN; simpl; lia).
  assert (lenN (concat (s :: rest)) = lenN s + lenN (concat rest)) as El
    by (unfold lenN; simpl; rewrite length_app; simpl; lia).
  assert (in_ram m a (N.min room (lenN (concat (s :: rest)))) = true) as Hram.
  { destruct Hfit as [H0|]; [|done]. rewrite El in H0. unfold s, lenN in H0. simpl in H0. lia. }
  rewrite El in Hram. apply in_ram_spec in Hram as [H64 Hlen].
  assert (length (take (N.to_nat n) s) = N.to_nat n) as Hlt by (rewrite length_take; unfold n, lenN; lia).
  assert (n <= N.min room (lenN s + lenN (concat rest))) as Hnle by (unfold n; lia).
  unfold bind at 1. rewrite write_at_eq.
  assert (in_ram m a (lenN (take (N.to_nat n) s)) = true) as ->.
  { apply in_ram_spec. unfold lenN at 1 2. rewrite Hlt, N2Nat.id. lia. }
  rewrite add64_small by lia.
  destruct fuel as [|fuel]; [simpl in Hf; lia|]. cbn [scatter_seg].
  assert (length (splice (N.to_nat a) (take (N.to_nat n) s) (ram m)) = length (ram m)) as Hsl.
  { apply length_splice. rewrite Hlt. unfold mem_len, lenN in Hlen, Hnle. lia. }
  set (m1 := {| ram := splice _ _ _ |}).
  destruct (N.eqb_spec (room - n) 0) as [Hz|Hz].
  - exists (drop (N.to_nat n) s :: rest). assert (n = room) as Hnr by (unfold n in *; lia).
    assert ((N.to_nat room <= length s)%nat) by (unfold n, lenN in *; lia).
    rewrite Hnr. unfold m1. change (concat (s :: rest)) with (s ++ concat rest). rewrite take_app_le, drop_app_le by done. rewrite Hnr.
    split; [done|]. split; [done|simpl; lia].
  - assert (n = lenN s) as Hns by (unfold n in *; lia).
    assert (drop (N.to_nat n) s = []) as ->.
    { apply drop_ge. rewrite Hns. unfold lenN. lia. }
    destruct (IH fuel (a + n) (room - n) m1) as (src' & E & Hc & Hl); [simpl in *; lia| |].
    { apply (fits_mem m); [unfold mem_len, lenN, m1; simpl; by rewrite Hsl|].
      right. apply in_ram_spec. lia. }
    exists src'. rewrite E. change (concat (s :: rest)) with (s ++ concat rest).
    rewrite take_app_split, drop_app_ge by (unfold lenN in *; lia).
    replace (N.to_nat (room - n)) with (N.to_nat room - length s)%nat in Hc |- * by (unfold lenN in *; lia).
    split; [|split; [done|simpl; lia]]. do 2 f_equal. unfold m1. simpl ram.
    rewrite (take_ge s) by (rewrite Hns; unfold lenN; lia).
    rewrite <- splice_app.
    + do 2 f_equal. unfold lenN in *. lia.
    + rewrite length_take. unfold mem_len, lenN in *. lia.
Qed.

(** Every segment can take its part of [n] bytes. *)
Fixpoint segs_fit (m : GuestMemory) (segs : list (u64 * u32)) (n : N) : Prop :=
  match segs with
  | [] => True
  | (a, len) :: segs => fits m a (N.min len n) /\ segs_fit m segs (n - len)
  end.

Lemma segs_fit_mem m m' segs n : mem_len m' = mem_len m -> segs_fit m segs n -> segs_fit m' segs n.
Proof.
  intros E. revert n. induction segs as [|[a len] segs IH]; intros n; [done|].
  intros [H1 H2]. split; [by eapply fits_mem|by apply IH].
Qed.

Lemma length_splice_fits m a d : fits m a (lenN d) ->
  length (splice (N.to_nat a) d (ram m)) = length (ram m).
Proof.
  intros [H|H].
  - destruct d; [by rewrite splice_nil'|]. unfold lenN in H. simpl in H. lia.
  - apply length_splice. apply in_ram_nat in H. unfold lenN in H. lia.
Qed.

Lemma lenN_take n (s : bytes) : lenN (take (N.to_nat n) s) = N.min n (lenN s).
Proof. unfold lenN. rewrite length_take. lia. Qed.

Lemma lenN_drop n (s : bytes) : lenN (drop (N.to_nat n) s) = lenN s - n.
Proof. unfold lenN. rewrite length_drop. lia. Qed.

Lemma scatter_segs_spec segs src m : segs_fit m segs (lenN (concat src)) ->
  scatter_segs segs src m = (Ok tt, {| ram := lay segs (concat src) (ram m) |}).
Proof.
  revert src m. induction segs as [|[a len] segs IH]; intros src m Hfit; [by destruct m|].
  destruct Hfit as [Hfit Hrest]. cbn [scatter_segs lay]. unfold bind.
  destruct (scatter_seg_spec src (S (2 * length src)) a len m) as (src' & -> & Hc & _); [lia|done|].
  rewrite IH, Hc; [done|]. rewrite Hc, lenN_drop. eapply segs_fit_mem; [|exact Hrest].
  unfold mem_len, lenN. simpl. f_equal. apply length_splice_fits. by rewrite lenN_take.
Qed.

(** ** Reading back what was laid out *)

Definition seg_in (m : GuestMemory) (s : u64 * u32) : Prop := in_ram m s.1 s.2 = true.

Definition seg_apart (s t : u64 * u32) : Prop := s.1 + s.2 <= t.1 \/ t.1 + t.2 <= s.1.

Fixpoint segs_apart (segs : list (u64 * u32)) : Prop :=
  match segs with
  | [] => True
  | s :: segs => Forall (seg_apart s) segs /\ segs_apart segs
  end.

#[global] Instance segs_apart_dec segs : Decision (segs_apart segs).
Proof. induction segs; simpl; [apply _|]. unfold seg_apart in *. apply _. Defined.

Definition segs_total (segs : list (u64 * u32)) : N := foldr N.add 0 (map snd segs).

(** The bytes of the segments, in order. *)
Definition segs_bytes (segs : list (u64 * u32)) (r : bytes) : bytes :=
  concat (map (fun s => slice (N.to_nat s.1) (N.to_nat s.2) r) segs).

Lemma length_lay m segs src r : Forall (seg_in m) segs -> length r = length (ram m) ->
  length (lay segs src r) = length r.
Proof.
  intros Hs. revert src r. induction Hs as [|[a len] segs Hin Hs IH]; intros src r Hr; [done|].
  cbn [lay]. apply in_ram_nat in Hin. simpl in Hin.
  assert (length (splice (N.to_nat a) (take (N.to_nat len) src) r) = length r) as El
    by (apply length_splice; rewrite length_take; lia).
  rewrite IH; lia.
Qed.

Lemma slice_lay m i n segs src r :
  Forall (seg_in m) segs -> length r = length (ram m) -> Forall (seg_apart (i, n)) segs ->
  slice (N.to_nat i) (N.to_nat n) (lay segs src r) = slice (N.to_nat i) (N.to_nat n) r.
Proof.
  intros Hs. revert src r. induction Hs as [|[a len] segs Hin Hs IH]; intros src r Hr Hap; [done|].
  apply Forall_cons in Hap as [Ha Hap]. cbn [lay]. apply in_ram_nat in Hin. unfold seg_apart in Ha.
  simpl in Ha, Hin.
  assert (length (splice (N.to_nat a) (take (N.to_nat len) src) r) = length r) as El
    by (apply length_splice; rewrite length_take; lia).
  rewrite IH by (done || lia). apply slice_splice_disjoint; rewrite length_take; lia.
Qed.

Lemma lay_readback m segs src r :
  Forall (seg_in m) segs -> length r = length (ram m) -> segs_apart segs ->
  lenN src <= segs_total segs ->
  take (length src) (segs_bytes segs (lay segs src r)) = src.
Proof.
  intros Hs. revert src r. induction Hs as [|[a len] segs Hin Hs IH]; intros src r Hr Hap Hsrc.
  { destruct src; [done|]. unfold lenN in Hsrc. simpl in Hsrc. unfold segs_total in Hsrc. simpl in Hsrc. lia. }
  destruct Hap as [Hap Haps]. change (segs_total ((a, len) :: segs)) with (len + segs_total segs) in Hsrc.
  unfold segs_bytes. cbn [map concat lay fst snd].
  apply in_ram_nat in Hin. simpl in Hin. set (k := N.to_nat len) in *.
  assert (length (splice (N.to_nat a) (take k src) r) = length r) as El
    by (apply length_splice; rewrite length_take; lia).
  unfold k at 1. rewrite (slice_lay m) by (done || lia). fold k.
  change (concat (map _ segs)) with (segs_bytes segs (lay segs (drop k src) (splice (N.to_nat a) (take k src) r))).
  destruct (Nat.le_gt_cases (length src) k) as [Hle|Hgt].
  - rewrite take_app_le by (rewrite length_slice; lia). rewrite (take_ge src k) in El |- * by lia.
    apply list_eq. intros j. destruct (Nat.lt_ge_cases j (length src)).
    + rewrite lookup_take_lt, lookup_slice, decide_True, lookup_splice, decide_True by lia. f_equal. lia.
    + rewrite lookup_take_ge by lia. symmetry. by apply lookup_ge_None.
  - assert (length (take k src) = k) as Hk by (rewrite length_take; lia).
    assert (slice (N.to_nat a) k (splice (N.to_nat a) (take k src) r) = take k src) as ->.
    { rewrite <- Hk at 1. apply slice_splice_same. lia. }
    rewrite take_app_split by lia. rewrite Hk.
    replace (length src - k)%nat with (length (drop k src)) by (rewrite length_drop; lia).
    rewrite IH; [by rewrite take_drop|lia|done|]. unfold k, lenN in *. rewrite length_drop. lia.
Qed.

(** What was laid out, and after it the old bytes. *)
Lemma lay_rest m segs src r :
  Forall (seg_in m) segs -> length r = length (ram m) -> segs_apart segs ->
  drop (length src) (segs_bytes segs (lay segs src r)) = drop (length src) (segs_bytes segs r).
Proof.
  intros Hs. revert src r. induction Hs as [|[a len] segs Hin Hs IH]; intros src r Hr Hap; [done|].
  destruct Hap as [Hap Haps]. unfold segs_bytes. cbn [map concat lay fst snd].
  apply in_ram_nat in Hin. simpl in Hin. set (k := N.to_nat len) in *.
  assert (length (splice (N.to_nat a) (take k src) r) = length r) as El
    by (apply length_splice; rewrite length_take; lia).
  unfold k at 1. rewrite (slice_lay m) by (done || lia). fold k.
  change (concat (map _ segs)) with (segs_bytes segs (lay segs (drop k src) (splice (N.to_nat a) (take k src) r))) at 1.
  change (concat (map _ segs)) with (segs_bytes segs r).
  assert (segs_bytes segs (splice (N.to_nat a) (take k src) r) = segs_bytes segs r) as Ekeep.
  { unfold segs_bytes. f_equal. apply map_ext_in. intros [b n] Hb. rewrite List.Forall_forall in Hap. specialize (Hap _ Hb).
    rewrite List.Forall_forall in Hs. specialize (Hs _ Hb). apply in_ram_nat in Hs. unfold seg_apart in Hap. simpl in *.
    apply slice_splice_disjoint; rewrite length_take; lia. }
  assert (length (slice (N.to_nat a) k r) = k) as L1 by (rewrite length_slice; lia).
  assert (length (slice (N.to_nat a) k (splice (N.to_nat a) (take k src) r)) = k) as L2 by (rewrite length_slice; lia).
  destruct (Nat.le_gt_cases (length src) k) as [Hle|Hgt].
  - rewrite (drop_ge src k), !drop_app_le by lia. specialize (IH [] (splice (N.to_nat a) (take k src) r) ltac:(lia) Haps). simpl in IH. rewrite !drop_0 in IH. rewrite IH, Ekeep. f_equal.
    apply list_eq. intros j. rewrite !lookup_drop, !lookup_slice. case_decide; [|done]. rewrite lookup_splice by (rewrite length_take; lia). rewrite length_take, decide_False by lia. done.
  - rewrite !drop_app_ge, L1, L2 by lia. specialize (IH (drop k src) (splice (N.to_nat a) (take k src) r) ltac:(lia) Haps). rewrite length_drop in IH. by rewrite IH, Ekeep.
Qed.

Lemma segs_in_fit m segs n : Forall (seg_in m) segs -> segs_fit m segs n.
Proof.
  intros Hs. revert n. induction Hs as [|[a len] segs Hin Hs IH]; intros n; [done|].
  split; [|apply IH]. right. apply in_ram_spec in Hin. apply in_ram_spec. simpl in Hin. lia.
Qed.

(** ** The descriptor walk *)

Definition rx_seg (x : u16 * Desc) : u64 * u32 := (d_addr x.2, d_len x.2).

Definition rx_writable (x : u16 * Desc) : Prop := bits (d_flags x.2) VRING_DESC_F_WRITE = true.

Lemma desc_at_add m base idx d : desc_at m base idx d ->
  read_desc (U.add 64 base (idx * 16)) m = (Ok d, m).
Proof.
  intros (a & Ha & Hr). revert Ha. unfold U.checked_add.
  destruct (N.ltb_spec (base + idx * 16) (2 ^ 64)); [|done]. intros [= <-]. by rewrite add64_small.
Qed.

Lemma rx_walk_chain m base qnum l idx steps segs cap fuel :
  chain_from m base qnum idx l -> Forall rx_writable l ->
  steps + lenN l <= qnum -> (length l <= fuel)%nat -> cap + segs_total (map rx_seg l) < 2 ^ 64 ->
  rx_walk fuel base qnum idx steps segs cap m =
    (Ok (false, segs ++ map rx_seg l, cap + segs_total (map rx_seg l)), m).
Proof.
  intros Hl. revert steps segs cap fuel.
  induction Hl as [idx d Hlt Hat Hi Hn|idx d l Hlt Hat Hi Hn Hl IH]; intros steps segs cap fuel Hw Hs Hf Hc;
    apply Forall_cons in Hw as [Hw Hws]; unfold rx_writable in Hw; unfold lenN in Hs; cbn [snd length] in Hw, Hs, Hf;
    (destruct fuel as [|fuel]; [lia|]); cbn [rx_walk];
    rewrite (proj2 (N.leb_gt qnum idx)), (proj2 (N.leb_gt qnum steps)) by lia; cbn [orb];
    unfold try_ok; rewrite (desc_at_add m base idx d Hat), Hw, Hi, Hn; cbn [negb orb];
    unfold segs_total in *; simpl in Hc |- *.
  - unfold ret. do 4 f_equal. rewrite add64_small; lia.
  - rewrite add64_small by lia. rewrite IH; try done; [|unfold lenN; lia|lia|unfold segs_total; lia].
    rewrite <- app_assoc. do 3 f_equal. unfold segs_total. lia.
Qed.

(** ** Delivery *)

Definition segs_range (segs : list (u64 * u32)) (a : N) : Prop :=
  Exists (fun s => in_range s.1 s.2 a) segs.

Lemma lay_frame m segs src : Forall (seg_in m) segs ->
  mem_frame (segs_range segs) m {| ram := lay segs src (ram m) |}.
Proof.
  intros Hs. split; [simpl; by apply (length_lay m)|]. simpl. intros j Hj.
  assert (forall src r, length r = length (ram m) -> lay segs src r !! j = r !! j) as Hgen; [|by apply Hgen].
  clear src. induction Hs as [|[a len] segs Hin Hs IH]; intros src r Hr; [done|]. cbn [lay].
  unfold segs_range in Hj. rewrite Exists_cons in Hj. apply in_ram_nat in Hin. simpl in Hin.
  rewrite IH; [|unfold segs_range; tauto|].
  - rewrite lookup_splice by (rewrite length_take; lia). rewrite length_take. case_decide; [|done].
    exfalso. apply Hj. left. unfold in_range. simpl. lia.
  - rewrite length_splice; [done|]. rewrite length_take. lia.
Qed.

Lemma segs_bytes_keep F m m' segs : mem_frame F m m' -> (forall a, segs_range segs a -> ~ F a) ->
  segs_bytes segs (ram m') = segs_bytes segs (ram m).
Proof.
  intros [_ Hf] HF. unfold segs_bytes. f_equal. apply map_ext_in. intros s Hs. apply list_eq.
  intros j. rewrite !lookup_slice. case_decide; [|done]. apply Hf, HF. apply List.Exists_exists.
  exists s. split; [done|]. unfold in_range. lia.
Qed.

(** The guest posted a receive buffer: the chain [l] from [head] is the next
    available one; it is device-writable, in RAM, does not overlap itself nor the
    used ring, and the used ring lies in RAM. *)
Definition rx_posted (m : GuestMemory) (q : QueueState) (head : u16) (l : list (u16 * Desc)) : Prop :=
  q_ready q <> 0 /\ used_ring_ok m (q_used q) (q_num q) = true /\ in_ram m (q_avail q) 2 = true /\
  (exists ai, read_u16 (U.add 64 (q_avail q) 2) m = (Ok ai, m) /\
    0 < U.sub 16 ai (q_last_avail q) <= q_num q) /\
  read_avail_head (q_avail q) (q_last_avail q) (q_num q) m = (Ok head, m) /\
  chain_from m (q_desc q) (q_num q) head l /\ Forall rx_writable l /\ lenN l <= q_num q /\
  segs_total (map rx_seg l) < 2 ^ 64 /\ Forall (seg_in m) (map rx_seg l) /\
  segs_apart (map rx_seg l) /\
  (forall a, segs_range (map rx_seg l) a -> ~ used_footprint (q_used q) (q_num q) a).

Lemma on_rmem_eq {A} (m : M GuestMemory A) s o x :
  m (r_mem s) = (o, x) -> on_rmem m s = (o, {| r_mem := x; r_q := r_q s |}).
Proof. unfold on_rmem, zoom. by intros ->. Qed.

Lemma rx_pending_eq q m ai : q_ready q <> 0 -> q_num q <> 0 ->
  read_u16 (U.add 64 (q_avail q) 2) m = (Ok ai, m) ->
  rx_pending q m = (Ok (U.sub 16 ai (q_last_avail q)), m).
Proof.
  intros Hr Hn Hi. unfold rx_pending. rewrite (proj2 (N.eqb_neq _ _) Hr), (proj2 (N.eqb_neq _ _) Hn).
  simpl. unfold bind, read_avail_idx. by rewrite Hi.
Qed.

(** C8: a frame that fits the buffer chain the guest posted is delivered: the
    chain's bytes become the 12-byte header (all zero but [num_buffers = 1])
    followed by the frame, the rest of the chain as it was; the chain's head and the
    length are published in the used element that the used index before delivery
    names, the index and [last_avail] advance by one, and nothing else in RAM
    changes: no other element of the used ring, no byte outside the chain. *)
Theorem rx_deliver_correct m q head l frame :
  rx_posted m q head l -> 12 + lenN frame <= segs_total (map rx_seg l) -> 12 + lenN frame < 2 ^ 32 ->
  exists m' irq u,
    rx_deliver frame {| r_mem := m; r_q := q |} =
      (Ok (Delivered (12 + lenN frame) irq), {| r_mem := m'; r_q := bump_last_avail q |}) /\
    segs_bytes (map rx_seg l) (ram m') =
      [0; 0; 0; 0; 0; 0; 0; 0; 0; 0; 1; 0] ++ frame ++ drop (12 + length frame) (segs_bytes (map rx_seg l) (ram m)) /\
    read_u16 (q_used q + 2) m = (Ok u, m) /\
    read_u16 (q_used q + 2) m' = (Ok (U.add 16 u 1), m') /\
    read_at (q_used q + 4 + 8 * (u mod q_num q)) 8 m' =
      (Ok (le_bytes 4 head ++ le_bytes 4 (12 + lenN frame)), m') /\
    mem_frame (fun a => segs_range (map rx_seg l) a \/ used_slot (q_used q) (u mod q_num q) a) m m'.
Proof.
  intros (Hr & Hu & Hfl & (ai & Hai & Hp) & Hhd & Hch & Hw & Hl & Htot & Hin & Hap & Hsep) Hneed H32.
  assert (q_num q <> 0) as Hn by (apply used_ring_ok_spec in Hu; lia).
  set (segs := map rx_seg l) in *. set (src := net_hdr ++ frame).
  assert (lenN src = 12 + lenN frame) as Hsrc by (unfold src, lenN; rewrite length_app; simpl; lia).
  set (m1 := {| ram := lay segs src (ram m) |}).
  pose proof (lay_frame m segs src Hin) as Hf1. fold m1 in Hf1.
  destruct (used_push_exact m1 (q_used q) (q_num q) head (12 + lenN frame)) as (u & m2 & Hu1 & Hpush & Hf2 & Hu2 & He2 & Hfs).
  { unfold used_ring_ok in *. by rewrite (mem_frame_len _ _ _ Hf1). }
  assert (read_u16 (q_used q + 2) m = (Ok u, m)) as Hu0.
  { apply used_ring_ok_spec in Hu as (_ & Hlen & Hfit). rewrite read_u16_eq in Hu1 |- *. rewrite (in_ram_frame _ _ _ _ _ Hf1) in Hu1.
    destruct (in_ram m (q_used q + 2) 2); [|done]. injection Hu1 as <-. do 3 f_equal. apply list_eq. intros j. rewrite !lookup_slice. case_decide; [|done].
    symmetry. apply Hf1. intros Hc. apply (Hsep _ Hc). left. rewrite add64_small by lia. unfold in_range. lia. }
  set (irq := negb (bits (from_le (slice (N.to_nat (q_avail q)) 2 (ram m2))) VRING_AVAIL_F_NO_INTERRUPT)).
  exists m2, irq, u. split; [|split; [|split; [done|split; [done|split; [done|]]]]].
  - unfold rx_deliver, bind at 1, get at 1. cbn [r_q].
    unfold bind at 1. rewrite (on_rmem_eq _ {| r_mem := m; r_q := q |} _ m (rx_pending_eq q m ai Hr Hn Hai)). cbn [r_q].
    rewrite (proj2 (N.eqb_neq _ _)), (proj2 (N.ltb_ge _ _)) by lia.
    unfold bind at 1. rewrite (on_rmem_eq _ {| r_mem := m; r_q := q |} _ m Hhd). cbn [r_q].
    unfold bind at 1. rewrite (on_rmem_eq _ {| r_mem := m; r_q := q |} (Ok (false, segs, segs_total segs)) m).
    2:{ rewrite (rx_walk_chain m _ _ l); [by rewrite N.add_0_l|done|done|by rewrite N.add_0_l| |by rewrite N.add_0_l].
        unfold lenN in Hl. lia. }
    cbn [r_q negb andb]. unfold NET_HDR_LEN. rewrite (proj2 (N.ltb_ge _ _)) by done.
    unfold bind at 1, try_ok. rewrite (on_rmem_eq _ {| r_mem := m; r_q := q |} (Ok tt) m1).
    2:{ unfold scatter. rewrite scatter_segs_spec.
        - simpl concat. by rewrite app_nil_r.
        - by apply segs_in_fit. }
    cbn [ret]. unfold ret at 1. rewrite wrap_small by done.
    unfold bind at 1. rewrite (on_rmem_eq _ {| r_mem := m1; r_q := q |} (Ok tt) m2) by done.
    unfold bind at 1, rx_bump, modify. cbn [r_mem r_q].
    unfold bind at 1. rewrite (on_rmem_eq _ {| r_mem := m2; r_q := bump_last_avail q |}
      (Ok (from_le (slice (N.to_nat (q_avail q)) 2 (ram m2)))) m2); [done|].
    rewrite read_u16_eq, (in_ram_frame _ _ _ _ _ Hf2), (in_ram_frame _ _ _ _ _ Hf1). by rewrite Hfl.
  - rewrite (segs_bytes_keep _ _ _ segs Hf2) by done. unfold m1. cbn [ram].
    replace (12 + length frame)%nat with (length src) by (unfold lenN in Hsrc; lia).
    rewrite <- (take_drop (length src) (segs_bytes segs (lay segs src (ram m)))), (lay_readback m), (lay_rest m) by (done || lia).
    unfold src. by rewrite <- app_assoc.
  - etransitivity; (eapply mem_frame_mono; [|done]); simpl; tauto.
Qed.

(** ** Any ring, any frame *)

Lemma scatter_seg_safe fuel a room src m : (2 * length src < fuel)%nat ->
  exists o m', scatter_seg fuel a room src m = (o, m') /\ returns o /\ same_size m m' /\
    forall src', o = Ok src' -> (length src' <= length src)%nat.
Proof.
  revert fuel a room m. induction src as [|s rest IH]; intros fuel a room m Hf;
    (destruct fuel as [|fuel]; [simpl in Hf; lia|]); cbn [scatter_seg].
  { destruct (room =? 0); eexists _, _; (split; [reflexivity|]); repeat split; intros ? [= <-]; done. }
  destruct (room =? 0); [eexists _, _; (split; [reflexivity|]); repeat split; by intros ? [= <-]|].
  destruct s as [|b s'].
  { destruct (IH fuel a room m) as (o & m' & -> & Ho & Hs & Hl); [simpl in *; lia|].
    exists o, m'. repeat (split; [done|]). intros src' E. specialize (Hl _ E). simpl. lia. }
  set (s := b :: s'). set (n := N.min (lenN s) room). unfold bind at 1.
  pose proof (write_at_returns a (take (N.to_nat n) s) m) as Hr.
  pose proof (write_at_size a (take (N.to_nat n) s) m) as Hs.
  destruct (write_at a (take (N.to_nat n) s) m) as [[[]|e| |] m1]; simpl in Hr, Hs; try done.
  2:{ exists (Err e), m1. by repeat (split; [done|]). }
  destruct fuel as [|fuel]; [simpl in Hf; lia|]. cbn [scatter_seg].
  destruct (N.eqb_spec (room - n) 0) as [|Hz].
  { eexists _, _. split; [reflexivity|]. split; [done|]. split; [done|]. by intros ? [= <-]. }
  assert (drop (N.to_nat n) s = []) as ->.
  { apply drop_ge. unfold n, lenN in *. lia. }
  destruct (IH fuel (U.add 64 a n) (room - n) m1) as (o & m' & -> & Ho & Hs1 & Hl); [simpl in *; lia|].
  exists o, m'. split; [done|]. split; [done|]. split; [by etransitivity|].
  intros src' E. specialize (Hl _ E). simpl. lia.
Qed.

Lemma scatter_segs_safe segs src m : exists o m', scatter_segs segs src m = (o, m') /\
  returns o /\ same_size m m'.
Proof.
  revert src m. induction segs as [|[a len] segs IH]; intros src m; cbn [scatter_segs].
  { by exists (Ok tt), m. }
  unfold bind. destruct (scatter_seg_safe (S (2 * length src)) a len src m) as (o & m1 & -> & Ho & Hs & _); [lia|].
  destruct o as [src'|e| |]; try done; [|by exists (Err e), m1].
  destruct (IH src' m1) as (o & m2 & -> & Ho' & Hs'). exists o, m2. split; [done|]. split; [done|]. by etransitivity.
Qed.

Lemma rx_walk_safe fuel desc qnum idx steps segs cap m :
  steps <= qnum -> qnum < steps + N.of_nat fuel ->
  exists r, rx_walk fuel desc qnum idx steps segs cap m = (Ok r, m).
Proof.
  revert idx steps segs cap. induction fuel as [|fuel IH]; intros idx steps segs cap Hs Hf; [lia|].
  cbn [rx_walk]. destruct (N.leb_spec qnum idx); [by eexists|].
  destruct (N.leb_spec qnum steps); [by eexists|]. cbn [orb]. unfold try_ok. rewrite read_desc_state.
  pose proof (read_desc_returns (U.add 64 desc (idx * 16)) m) as Hr.
  destruct (read_desc (U.add 64 desc (idx * 16)) m).1 as [d|e| |]; simpl in Hr; try done; [|by eexists].
  destruct (negb _ || _); [by eexists|]. destruct (negb _); [by eexists|]. apply IH; lia.
Qed.

(** What [rx_deliver] may do, by its result. *)
Definition rx_effect (s s' : RxCtx) (o : outcome RxDelivery) : Prop :=
  same_size (r_mem s) (r_mem s') /\
  match o with
  | Ok NoBuffer | Ok TooSmall => s' = s
  | Ok (Delivered _ _) => r_q s' = bump_last_avail (r_q s)
  | _ => r_q s' = r_q s \/ r_q s' = bump_last_avail (r_q s)
  end.

Lemma on_rmem_at {A} (m : M GuestMemory A) s :
  on_rmem m s = ((m (r_mem s)).1, {| r_mem := (m (r_mem s)).2; r_q := r_q s |}).
Proof. unfold on_rmem, zoom. by destruct (m (r_mem s)). Qed.

Lemma rx_pending_state q m : exists o, rx_pending q m = (o, m) /\ returns o.
Proof.
  unfold rx_pending. destruct (_ || _); [by eexists|]. unfold bind, read_avail_idx.
  rewrite read_u16_eq. destruct (in_ram m _ 2); by eexists.
Qed.

(** The end of a delivery: publish, bump, and a rest that only reads. *)
Lemma rx_publish_safe {A} (p : M GuestMemory unit) (k : M RxCtx A) m q :
  (forall m, returns (p m).1) -> mrel same_size p ->
  (forall s, returns (k s).1 /\ (k s).2 = s) ->
  exists o s', (do! on_rmem p in do! rx_bump in k) {| r_mem := m; r_q := q |} = (o, s') /\
    returns o /\ same_size m (r_mem s') /\
    (r_q s' = q /\ is_ok o = false \/ r_q s' = bump_last_avail q /\ o = (k s').1).
Proof.
  intros Hr Hs Hk. specialize (Hr m). specialize (Hs m). unfold bind at 1. rewrite on_rmem_at. cbn [r_mem r_q].
  destruct (p m) as [[[]|e| |] m1]; simpl in Hr, Hs; try done; cbn [fst snd].
  - unfold bind, rx_bump, modify. cbn [r_mem r_q].
    destruct (Hk {| r_mem := m1; r_q := bump_last_avail q |}) as [Hkr Hks].
    destruct (k _) as [o s'] eqn:E. simpl in Hkr, Hks. subst s'. eexists _, _. split; [reflexivity|].
    split; [done|]. split; [done|]. right. split; [done|]. by rewrite E.
  - eexists _, _. split; [reflexivity|]. split; [done|]. split; [done|]. by left.
Qed.

Lemma rx_deliver_effect frame s : exists o s', rx_deliver frame s = (o, s') /\ returns o /\ rx_effect s s' o.
Proof.
  destruct s as [m q]. unfold rx_deliver, bind at 1, get at 1. cbn [r_q].
  assert (forall o, rx_effect {| r_mem := m; r_q := q |} {| r_mem := m; r_q := q |} o \/ exists w i, o = Ok (Delivered w i)) as Hid.
  { intros o. destruct o as [[| | |]|e| |]; eauto; left; (split; [reflexivity|]); auto. }
  destruct (rx_pending_state q m) as (op & Ep & Hop).
  unfold bind at 1. rewrite (on_rmem_eq _ {| r_mem := m; r_q := q |} _ _ Ep). cbn [r_q].
  destruct op as [pending|e| |]; try done.
  2:{ eexists _, _. split; [reflexivity|]. split; [done|]. by destruct (Hid (Err e)) as [?|(? & ? & ?)]. }
  destruct (N.eqb_spec pending 0) as [|Hpend].
  { eexists _, _. split; [reflexivity|]. split; [done|]. by destruct (Hid (Ok NoBuffer)) as [?|(? & ? & ?)]. }
  destruct (q_num q <? pending).
  { eexists _, _. split; [reflexivity|]. split; [done|]. by destruct (Hid (Ok Invalid)) as [?|(? & ? & ?)]. }
  assert (q_num q <> 0) as Hn.
  { intros H0. unfold rx_pending in Ep. rewrite H0, orb_true_r in Ep. injection Ep as <-. done. }
  unfold bind at 1. rewrite on_rmem_at. cbn [r_mem r_q].
  pose proof (read_avail_head_returns (q_avail q) (q_last_avail q) (q_num q) m Hn) as Hhr.
  assert ((read_avail_head (q_avail q) (q_last_avail q) (q_num q) m).2 = m) as ->.
  { symmetry. apply (read_avail_head_mrel eq). }
  destruct (read_avail_head _ _ _ m).1 as [head|e| |]; try done.
  2:{ eexists _, _. split; [reflexivity|]. split; [done|]. by destruct (Hid (Err e)) as [?|(? & ? & ?)]. }
  destruct (rx_walk_safe (S (N.to_nat (q_num q))) (q_desc q) (q_num q) head 0 [] 0 m) as ([[bad segs] cap] & Ew);
    [lia|lia|].
  unfold bind at 1. rewrite (on_rmem_eq _ {| r_mem := m; r_q := q |} _ _ Ew). cbn [r_q].
  destruct (negb bad && _).
  { eexists _, _. split; [reflexivity|]. split; [done|]. by destruct (Hid (Ok TooSmall)) as [?|(? & ? & ?)]. }
  assert (exists bad' m1, (if bad then ret true else
      try_ok (on_rmem (scatter segs net_hdr frame)) (fun _ => ret false) (ret true)) {| r_mem := m; r_q := q |} =
    (Ok bad', {| r_mem := m1; r_q := q |}) /\ same_size m m1) as (bad' & m1 & Eb & Hs1).
  { destruct bad; [by exists true, m|]. unfold try_ok, scatter.
    destruct (scatter_segs_safe segs [net_hdr; frame] m) as (o & m1 & Es & Ho & Hs).
    rewrite (on_rmem_eq _ {| r_mem := m; r_q := q |} _ _ Es).
    destruct o as [[]|e| |]; try done; [by exists false, m1|by exists true, m1]. }
  unfold bind at 1. rewrite Eb. destruct bad'.
  - destruct (head <? q_num q).
    + destruct (rx_publish_safe (used_push (q_used q) (q_num q) head 0) (ret Invalid) m1 q)
        as (o & s' & -> & Ho & Hs' & Hq'); [by intros; apply used_push_returns|mrel_tac|done|].
      exists o, s'. split; [done|]. split; [done|]. split; [by etransitivity|]. cbn [r_q].
      destruct Hq' as [[-> Hk]|[-> ->]]; [|by right]. destruct o as [[| | |]|e| |]; try done; by left.
    + eexists _, _. split; [reflexivity|]. split; [done|]. split; [done|]. by right.
  - match goal with |- context [bind rx_bump (fun _ => ?k)] =>
      destruct (rx_publish_safe (used_push (q_used q) (q_num q) head (U.wrap 32 (NET_HDR_LEN + lenN frame)))
        k m1 q) as (o & s' & -> & Ho & Hs' & Hq') end.
    + intros. by apply used_push_returns.
    + mrel_tac.
    + intros s. unfold bind. rewrite on_rmem_at, read_u16_eq. destruct s.
      by destruct (in_ram _ _ 2).
    + exists o, s'. split; [done|]. split; [done|]. split; [by etransitivity|]. cbn [r_q].
      destruct Hq' as [[-> Hk]|[-> Hk]].
      * destruct o as [[| | |]|e| |]; try done. by left.
      * revert Hk. unfold bind. rewrite on_rmem_at, read_u16_eq.
        destruct (in_ram _ _ 2); intros ->; simpl; [done|by right].
Qed.

(** ** The pump *)

(** A computation whose result is never [NoBuffer]. *)
Definition no_nobuffer (m : M RxCtx RxDelivery) : Prop := forall s, (m s).1 <> Ok NoBuffer.

Lemma no_nobuffer_bind {A} (m : M RxCtx A) f :
  (forall a, no_nobuffer (f a)) -> no_nobuffer (bind m f).
Proof. intros Hf s. unfold bind. destruct (m s) as [[a|e| |] s']; try done. apply Hf. Qed.

(** A buffer seen before reading the tap is still there for the frame. *)
Lemma rx_deliver_buffer frame m q p :
  (rx_pending q m).1 = Ok p -> p <> 0 -> (rx_deliver frame {| r_mem := m; r_q := q |}).1 <> Ok NoBuffer.
Proof.
  intros Hp H0. unfold rx_deliver, bind at 1, get at 1. cbn [r_q].
  destruct (rx_pending_state q m) as (op & Ep & Hop). rewrite Ep in Hp. simpl in Hp. subst op.
  unfold bind at 1. rewrite (on_rmem_eq _ {| r_mem := m; r_q := q |} _ _ Ep). cbn [r_q].
  rewrite (proj2 (N.eqb_neq _ _) H0). destruct (q_num q <? p); [done|].
  match goal with |- (?m ?s).1 <> _ => cut (no_nobuffer m); [intros Hm; apply Hm|] end.
  apply no_nobuffer_bind. intros hd. apply no_nobuffer_bind. intros [[bad segs] cap].
  destruct (negb bad && _); [done|]. apply no_nobuffer_bind. intros [];
    repeat (apply no_nobuffer_bind; intros ?); done.
Qed.

(** The frames among what the tap gave. *)
Definition is_frame (n : usize) (r : tap_read) : bool :=
  match r with Frame f => match take (N.to_nat n) f with [] => false | _ => true end | _ => false end.

Definition frames_in (n : usize) (l : list tap_read) : N := lenN (filter (fun r => is_frame n r = true) l).

(** Frames accounted for: delivered, or dropped for one of three reasons. *)
Definition handled (s : NetStats) : N :=
  rx_frames s + rx_too_small s + rx_invalid s + rx_rate_limited s.

(** What a pump changes: it takes a prefix of the tap's frames, never finds the
    queue empty after reading one, and touches only RAM and queue 0. *)
Definition pump_rel {L} (d d' : RxDev L) (used : list tap_read) : Prop :=
  t_in (x_tap d) = used ++ t_in (x_tap d') /\ rx_no_buffer (x_stats d') = rx_no_buffer (x_stats d) /\
  length (queues (x_st d')) = length (queues (x_st d)) /\
  drop 1 (queues (x_st d')) = drop 1 (queues (x_st d)) /\ mem_len (x_mem d') = mem_len (x_mem d).

Lemma count_rx_handled r n s : r <> NoBuffer -> handled s + 1 < 2 ^ 64 ->
  handled (count_rx r n s) = handled s + 1 /\ rx_no_buffer (count_rx r n s) = rx_no_buffer s.
Proof.
  unfold handled, count_rx. intros Hr Hs.
  destruct r; simpl; try done; (split; [|done]); rewrite add64_small; lia.
Qed.

Lemma count_limited_handled s : handled s + 1 < 2 ^ 64 ->
  handled (count_limited s) = handled s + 1.
Proof. unfold handled, count_limited. simpl. intros Hs. rewrite add64_small; lia. Qed.

Section Pump.
Context {L : Type} `{RateLimit L}.

Lemma pump_rel_trans (d1 d2 d3 : RxDev L) u1 u2 :
  pump_rel d1 d2 u1 -> pump_rel d2 d3 u2 -> pump_rel d1 d3 (u1 ++ u2).
Proof.
  intros (A1 & A2 & A3 & A4 & A5) (B1 & B2 & B3 & B4 & B5).
  split; [by rewrite A1, B1, app_assoc|]. repeat split; congruence.
Qed.

Lemma frames_in_app n l k : frames_in n (l ++ k) = frames_in n l + frames_in n k.
Proof. unfold frames_in, lenN. rewrite filter_app, length_app. lia. Qed.

(** Reading the tap takes one result and says whether it is a frame. *)
Lemma x_read_eq n (d : RxDev L) : exists o used d', x_read n d = (o, d') /\ returns o /\
  pump_rel d d' used /\ x_stats d' = x_stats d /\ queues (x_st d') = queues (x_st d) /\
  x_mem d' = x_mem d /\
  (forall f, o = Ok f -> frames_in n used = match f with Some _ => 1 | None => 0 end).
Proof.
  unfold x_read, zoom, read_frame. destruct (t_in (x_tap d)) as [|r rest] eqn:E.
  { exists (Ok None), []. eexists. split; [reflexivity|]. split; [done|]. split; [done|].
    repeat (split; [done|]). by intros f [= <-]. }
  exists (match r with Frame f => Ok (match take (N.to_nat n) f with [] => None | _ => Some (take (N.to_nat n) f) end)
    | WouldBlock => Ok None | ReadError => Err Network end), [r].
  destruct r as [f| |]; (eexists; split; [reflexivity|]); (split; [done|]);
    (split; [by unfold pump_rel; simpl; rewrite E|]); repeat (split; [done|]);
    intros o Ho; unfold frames_in; cbn [filter list_filter is_frame].
  - injection Ho as <-. by destruct (take (N.to_nat n) f).
  - by injection Ho as <-.
  - done.
Qed.

(** Delivering a frame after a buffer was seen. *)
Lemma x_deliver_eq frame (d : RxDev L) q qs p :
  queues (x_st d) = q :: qs -> (rx_pending q (x_mem d)).1 = Ok p -> p <> 0 ->
  exists o d', x_deliver frame d = (o, d') /\ returns o /\ o <> Ok NoBuffer /\ pump_rel d d' [] /\
    x_stats d' = x_stats d.
Proof.
  intros Hq Hp H0. unfold x_deliver, deliver_q0. rewrite Hq.
  destruct (rx_deliver_effect frame {| r_mem := x_mem d; r_q := q |}) as (o & s' & E & Ho & Hs & _).
  pose proof (rx_deliver_buffer frame (x_mem d) q p Hp H0) as Hnb. rewrite E in *. simpl in Hnb.
  eexists o, _. split; [reflexivity|]. split; [done|]. split; [done|]. split; [|done].
  split; [done|]. split; [done|]. simpl. rewrite Hq. simpl. repeat split; try done.
  by apply (mem_frame_len _ _ _ Hs).
Qed.

Lemma rx_pump_loop_ok budget n irq (d : RxDev L) :
  queues (x_st d) <> [] -> handled (x_stats d) + N.of_nat budget < 2 ^ 64 ->
  exists o d' used, rx_pump_loop budget n irq d = (o, d') /\ returns o /\ pump_rel d d' used /\
    (is_ok o = true -> handled (x_stats d') = handled (x_stats d) + frames_in n used).
Proof.
  revert irq d. induction budget as [|budget IH]; intros irq d Hqs Hb; cbn [rx_pump_loop].
  { exists (Ok (More, irq)), d, []. split; [done|]. split; [done|]. split; [done|]. intros _. unfold frames_in, lenN. simpl. lia. }
  assert (forall (o : outcome (RxPump * bool)) d' used, returns o -> pump_rel d d' used ->
    x_stats d' = x_stats d -> (is_ok o = true -> frames_in n used = 0) ->
    exists o1 d1 used1, (o, d') = (o1, d1) /\ returns o1 /\ pump_rel d d1 used1 /\
      (is_ok o1 = true -> handled (x_stats d1) = handled (x_stats d) + frames_in n used1)) as Hstop.
  { intros o d' used Ho Hrel Hst Hf. exists o, d', used. repeat (split; [done|]). intros Hok.
    rewrite Hst, Hf by done. lia. }
  destruct (queues (x_st d)) as [|q qs] eqn:Hq; [done|].
  unfold bind at 1, x_pending. rewrite Hq. destruct (rx_pending_state q (x_mem d)) as (op & Ep & Hop).
  rewrite Ep. cbn [fst]. destruct op as [p|e| |]; try done; [|by apply (Hstop _ d [])].
  destruct (N.eqb_spec p 0) as [->|Hp]; [by apply (Hstop _ d [])|].
  unfold bind at 1. destruct (x_read_eq n d) as (o1 & u1 & d1 & -> & Ho1 & Hrel1 & Hst1 & Hq1 & Hm1 & Hf1).
  destruct o1 as [[frame|]|e| |]; try done; [|apply (Hstop _ d1 u1); try done; intros _; by apply (Hf1 None)|by apply (Hstop _ d1 u1)].
  assert (frames_in n u1 = 1) as Hu1 by by apply (Hf1 (Some frame)).
  unfold bind at 1, x_consume. destruct (consume_opt (lenN frame) (x_lim d1)) as [granted lim].
  set (d2 := Build_RxDev _ _ _ _ _).
  assert (forall d3 irq', pump_rel d d3 u1 -> handled (x_stats d3) = handled (x_stats d) + 1 ->
    exists o d' used, rx_pump_loop budget n irq' d3 = (o, d') /\ returns o /\ pump_rel d d' used /\
    (is_ok o = true -> handled (x_stats d') = handled (x_stats d) + frames_in n used)) as Hgo.
  { intros d3 irq' Hrel Hh. destruct (IH irq' d3) as (o & d' & u & -> & Ho & Hrel' & Hk).
    - destruct Hrel as (_ & _ & Hlen & _). rewrite Hq in Hlen. intros E0. by rewrite E0 in Hlen.
    - lia.
    - exists o, d', (u1 ++ u). split; [done|]. split; [done|]. split; [by eapply pump_rel_trans|].
      intros Hok. rewrite (Hk Hok), Hh, frames_in_app, Hu1. lia. }
  destruct granted; cbn [negb].
  - unfold bind at 1.
    destruct (x_deliver_eq frame d2 q qs p) as (o & d3 & -> & Ho & Hnb & Hrel & Hst).
    { unfold d2. simpl. by rewrite Hq1, Hq. }
    { unfold d2. simpl. by rewrite Hm1, Ep. }
    { done. }
    assert (pump_rel d d3 u1) as Hrel3.
    { rewrite <- (app_nil_r u1). eapply pump_rel_trans; [|exact Hrel]. exact Hrel1. }
    destruct o as [r|e| |]; try done.
    + unfold bind at 1, x_count, modify.
      destruct (count_rx_handled r (lenN frame) (x_stats d3)) as [Hc Hnb3]; [by intros ->| |].
      { rewrite Hst. unfold d2. simpl. rewrite Hst1. lia. }
      apply Hgo.
      * destruct Hrel3 as (A1 & A2 & A3 & A4 & A5). split; [done|]. split; [etransitivity; [exact Hnb3|done]|done].
      * simpl. rewrite Hc, Hst. unfold d2. simpl. by rewrite Hst1.
    + exists (Err e), d3, u1. by repeat (split; [done|]).
  - unfold bind at 1, x_count, modify. apply Hgo.
    + destruct Hrel1 as (A1 & A2 & A3 & A4 & A5). repeat split; done.
    + simpl. rewrite count_limited_handled, Hst1; [done|]. rewrite Hst1. lia.
Qed.

End Pump.

(** the receive pump never takes a frame from the tap without a guest buffer
    to put it in: it never counts a frame as lost for want of a buffer, and when
    it returns normally every frame it took was delivered, too large, rejected
    with its buffer, or rate limited, and counted exactly once.  It never panics
    and only touches RAM and queue 0. *)
Theorem rx_pump_accounts {L} `{RateLimit L} (d : RxDev L) n budget :
  queues (x_st d) <> [] -> handled (x_stats d) + budget < 2 ^ 64 ->
  exists o d' used, rx_pump n budget d = (o, d') /\ returns o /\
    t_in (x_tap d) = used ++ t_in (x_tap d') /\
    rx_no_buffer (x_stats d') = rx_no_buffer (x_stats d) /\
    drop 1 (queues (x_st d')) = drop 1 (queues (x_st d)) /\ mem_len (x_mem d') = mem_len (x_mem d) /\
    (is_ok o = true -> handled (x_stats d') = handled (x_stats d) + frames_in n used).
Proof.
  intros Hq Hb. unfold rx_pump.
  destruct (rx_pump_loop_ok (N.to_nat budget) n false d Hq) as (o & d' & u & E & Ho & (A1 & A2 & A3 & A4 & A5) & Hk);
    [by rewrite N2Nat.id|].
  exists o, d', u. by repeat (split; [done|]).
Qed.

(** ** A concrete delivery

    4 KiB of RAM, descriptors at 0x100, avail ring at 0x200, used ring at 0x300;
    one 32-byte and one 64-byte receive buffer chained at 0x800 and 0x900. *)
Definition demo_rx_q : QueueState :=
  {| q_num := 8; q_ready := 1; q_desc := 0x100; q_avail := 0x200; q_used := 0x300; q_last_avail := 0 |}.

Definition demo_rx_chain : list (u16 * Desc) :=
  [(0, {| d_addr := 0x800; d_len := 32; d_flags := 3; d_next := 5 |});
   (5, {| d_addr := 0x900; d_len := 64; d_flags := 2; d_next := 0 |})].

Definition demo_rx_mem : GuestMemory :=
  {| ram := splice 0x100 (le_bytes 8 0x800 ++ le_bytes 4 32 ++ le_bytes 2 3 ++ le_bytes 2 5)
       (splice 0x150 (le_bytes 8 0x900 ++ le_bytes 4 64 ++ le_bytes 2 2 ++ le_bytes 2 0)
         (splice 0x202 [1; 0] (repeat 0 4096))) |}.

Lemma demo_rx_posted : rx_posted demo_rx_mem demo_rx_q 0 demo_rx_chain.
Proof.
  split; [done|]. split; [reflexivity|]. split; [reflexivity|].
  split; [exists 1; split; [vm_compute; reflexivity|vm_compute; by split]|].
  split; [vm_compute; reflexivity|]. split.
  { apply chain_more; [by_eval| |reflexivity..|].
    - exists 0x100. split; [reflexivity|]. vm_compute. reflexivity.
    - apply chain_last; [by_eval| |reflexivity..]. exists 0x150. split; [reflexivity|].
      vm_compute. reflexivity. }
  split; [by repeat constructor|]. split; [by vm_compute|]. split; [by vm_compute|].
  split; [by repeat constructor|]. split; [by_eval|].
  intros a Ha HF. apply used_footprint_bounds in HF; [|by vm_compute].
  unfold segs_range in Ha. simpl map in Ha. rewrite !Exists_cons, Exists_nil in Ha.
  unfold in_range in *. simpl in *. lia.
Qed.

Definition demo_frame : bytes := map N.of_nat (seq 1 40).

Lemma rx_deliver_correct_witness :
  exists m' irq u,
    rx_deliver demo_frame {| r_mem := demo_rx_mem; r_q := demo_rx_q |} =
      (Ok (Delivered 52 irq), {| r_mem := m'; r_q := bump_last_avail demo_rx_q |}) /\
    segs_bytes (map rx_seg demo_rx_chain) (ram m') =
      [0; 0; 0; 0; 0; 0; 0; 0; 0; 0; 1; 0] ++ demo_frame ++ drop 52 (segs_bytes (map rx_seg demo_rx_chain) (ram demo_rx_mem)) /\
    read_u16 0x302 demo_rx_mem = (Ok u, demo_rx_mem) /\
    read_u16 0x302 m' = (Ok (U.add 16 u 1), m') /\
    read_at (0x304 + 8 * (u mod 8)) 8 m' = (Ok (le_bytes 4 0 ++ le_bytes 4 52), m') /\
    mem_frame (fun a => segs_range (map rx_seg demo_rx_chain) a \/ used_slot 0x300 (u mod 8) a) demo_rx_mem m'.
Proof.
  apply (rx_deliver_correct demo_rx_mem demo_rx_q 0 demo_rx_chain demo_frame).
  - apply demo_rx_posted.
  - by_eval.
  - by_eval.
Defined.

Definition demo_rxdev : RxDev RateLimiter :=
  {| x_mem := demo_rx_mem; x_st := st_queues [demo_rx_q] VirtioState_default;
     x_tap := {| t_in := [Frame demo_frame; Frame demo_frame]; t_wfail := []; t_out := [] |};
     x_lim := None;
     x_stats := {| rx_frames := 0; rx_bytes := 0; rx_no_buffer := 0; rx_too_small := 0; rx_invalid := 0;
                   rx_rate_limited := 0; tx_frames := 0 |} |}.

(** The second frame stays in the tap: the guest posted one buffer. *)
Example demo_pump : let '(o, d) := rx_pump 2048 8 demo_rxdev in
  o = Ok (NoBuffers, true) /\ t_in (x_tap d) = [Frame demo_frame] /\ rx_frames (x_stats d) = 1.
Proof. vm_compute. repeat split. Qed.

Lemma rx_pump_accounts_witness :
  exists o d' used, rx_pump 2048 8 demo_rxdev = (o, d') /\ returns o /\
    t_in (x_tap demo_rxdev) = used ++ t_in (x_tap d') /\
    rx_no_buffer (x_stats d') = rx_no_buffer (x_stats demo_rxdev) /\
    drop 1 (queues (x_st d')) = drop 1 (queues (x_st demo_rxdev)) /\
    mem_len (x_mem d') = mem_len (x_mem demo_rxdev) /\
    (is_ok o = true -> handled (x_stats d') = handled (x_stats demo_rxdev) + frames_in 2048 used).
Proof. apply (rx_pump_accounts demo_rxdev 2048 8); [done|by_eval]. Defined.
