(* ===== verification/NetGateway.v ===== *)
(** * The canned gateway and MAC parsing: correctness

    The Internet checksum of [inet_cksum], the ICMP echo replies of
    [gateway_reply] and [VirtioNetConfig::parse_mac], for the definitions of
    {!VirtioNet}. *)

From stdpp Require Import prelude list.
From Stdlib Require Import NArith Lia.
From S2P Require Import Prelude RustStr GuestMemory Virtqueue VirtioMmio RateLimiter VirtioNet.

(** ** The Internet checksum *)

(** The sum of the 16-bit big-endian words of a packet. *)
Fixpoint words (p : bytes) : N :=
  match p with
  | x :: y :: p => 256 * x + y + words p
  | [x] => 256 * x
  | [] => 0
  end.

(** Induction two bytes at a time. *)
Lemma pair_ind (P : bytes -> Prop) :
  P [] -> (forall x, P [x]) -> (forall x y p, P p -> P (x :: y :: p)) -> forall p, P p.
Proof.
  intros H0 H1 H2 p. assert (P p /\ forall x, P (x :: p)) as [? _]; [|done].
  induction p as [|y p [IH1 IH2]]; [auto|]. split; [apply IH2|]. intros x. by apply H2.
Qed.

Lemma words_bound p : is_bytes p -> words p <= 65535 * (lenN p).
Proof.
  unfold is_bytes, in_u, lenN. induction p as [|x|x y p IH] using pair_ind; intros Hp.
  - simpl. lia.
  - apply Forall_cons in Hp as [Hx _]. change (2 ^ 8) with 256 in Hx. simpl. lia.
  - apply Forall_cons in Hp as [Hx Hp]. apply Forall_cons in Hp as [Hy Hp].
    change (2 ^ 8) with 256 in *. specialize (IH Hp). simpl length. simpl words. lia.
Qed.

Lemma sum_words_eq p s : is_bytes p -> s + words p < 2 ^ 32 -> sum_words p s = s + words p.
Proof.
  unfold is_bytes, in_u. revert s. induction p as [|x|x y p IH] using pair_ind; intros s Hp Hs.
  - simpl. lia.
  - simpl in *. rewrite N.shiftl_mul_pow2. change (2 ^ 8) with 256.
    unfold U.add. rewrite wrap_small; [lia|]. unfold in_u. lia.
  - apply Forall_cons in Hp as [Hx Hp]. apply Forall_cons in Hp as [Hy Hp].
    cbn [sum_words words] in *. change (from_be [x; y]) with (y + 256 * (x + 256 * 0)).
    unfold U.add. rewrite wrap_small by (unfold in_u; lia). rewrite IH; [lia|done|lia].
Qed.

(** Folding the carries: the value is kept modulo 65535, and 0 only for 0. *)
Lemma fold16_spec s : s < 2 ^ 32 ->
  fold16 3 s < 2 ^ 16 /\ fold16 3 s mod 65535 = s mod 65535 /\ (fold16 3 s = 0 <-> s = 0).
Proof.
  assert (forall x, N.land x 0xffff = x mod 65536 /\ N.shiftr x 16 = x / 65536) as Hx.
  { intros x. split; [apply (N.land_ones x 16)|apply (N.shiftr_div_pow2 x 16)]. }
  intros Hs. cbn [fold16]. rewrite !(proj1 (Hx _)), !(proj2 (Hx _)).
  change (2 ^ 32) with 4294967296 in Hs. change (2 ^ 16) with 65536.
  destruct (N.eqb_spec (s / 65536) 0) as [H0|H0]; [dlia|].
  set (s1 := s mod 65536 + s / 65536).
  assert (0 < s1 < 131071 /\ s1 mod 65535 = s mod 65535) as [H1 E1] by (unfold s1; dlia).
  clearbody s1. destruct (N.eqb_spec (s1 / 65536) 0) as [H2|H2]; [dlia|].
  set (s2 := s1 mod 65536 + s1 / 65536).
  assert (0 < s2 < 65536 /\ s2 mod 65535 = s1 mod 65535) as [H3 E2] by (unfold s2; dlia).
  clearbody s2. destruct (N.eqb_spec (s2 / 65536) 0) as [H4|H4]; dlia.
Qed.

Lemma inet_cksum_eq p : is_bytes p -> words p < 2 ^ 32 ->
  inet_cksum p = 65535 - fold16 3 (words p) /\ fold16 3 (words p) < 65536.
Proof.
  intros Hp Hw. destruct (fold16_spec (words p) Hw) as [Hf _]. change (2 ^ 16) with 65536 in Hf.
  unfold inet_cksum. rewrite sum_words_eq, N.add_0_l by (done || lia).
  split; [|done]. set (f := fold16 3 (words p)) in *. clearbody f.
  unfold U.not. change (N.lxor f (N.ones 32)) with (N.lnot f 32).
  rewrite N.lnot_sub_low.
  - change (N.ones 32) with 4294967295. unfold U.wrap. change (2 ^ 16) with 65536. dlia.
  - destruct (N.eq_dec f 0) as [->|]; [done|]. apply N.log2_lt_pow2; lia.
Qed.

(** Storing the checksum in a zero field at an even offset. *)
Lemma words_splice j hi lo p : slice (2 * j) 2 p = [0; 0] ->
  words (splice (2 * j) [hi; lo] p) = words p + 256 * hi + lo.
Proof.
  revert p. induction j as [|j IH]; intros p Hz.
  - destruct p as [|x [|y p]]; try done. change (slice (2 * 0) 2 (x :: y :: p)) with [x; y] in Hz.
    injection Hz as -> ->. change (splice (2 * 0) [hi; lo] (0 :: 0 :: p)) with (hi :: lo :: drop 0 p).
    rewrite drop_0. cbn [words]. lia.
  - destruct p as [|x [|y p]]; try done; [by destruct j|].
    replace (2 * S j)%nat with (S (S (2 * j))) in * by lia.
    change (slice (S (S (2 * j))) 2 (x :: y :: p)) with (slice (2 * j) 2 p) in Hz.
    change (splice (S (S (2 * j))) [hi; lo] (x :: y :: p)) with (x :: y :: splice (2 * j) [hi; lo] p).
    cbn [words]. rewrite IH by done. lia.
Qed.

Definition cksum_bytes (c : u16) : bytes := [U.wrap 8 (N.shiftr c 8); U.wrap 8 c].

Lemma cksum_bytes_eq c : c < 65536 -> 256 * U.wrap 8 (N.shiftr c 8) + U.wrap 8 c = c.
Proof.
  intros Hc. unfold U.wrap. rewrite N.shiftr_div_pow2. change (2 ^ 8) with 256. dlia.
Qed.

(** A packet whose checksum field holds the checksum of the rest sums to zero. *)
Lemma cksum_verifies j p : is_bytes p -> lenN p < 2 ^ 16 -> slice (2 * j) 2 p = [0; 0] ->
  inet_cksum (splice (2 * j) (cksum_bytes (inet_cksum p)) p) = 0.
Proof.
  intros Hp Hl Hz. pose proof (words_bound p Hp) as Hw.
  destruct (inet_cksum_eq p Hp ltac:(lia)) as [Ec Hf]. set (f := fold16 3 (words p)) in *.
  destruct (fold16_spec (words p) ltac:(lia)) as (_ & Hmod & H0). fold f in Hmod, H0.
  set (c := inet_cksum p) in *.
  assert (c <= 65535) as Hc by lia. pose proof (cksum_bytes_eq c ltac:(lia)) as Hcb.
  set (p' := splice (2 * j) (cksum_bytes c) p).
  assert (words p' = words p + c) as Hw'.
  { unfold p', cksum_bytes. rewrite words_splice by done. lia. }
  assert (is_bytes p') as Hp'.
  { apply splice_is_bytes; [done|]. repeat constructor; apply wrap_range. }
  destruct (inet_cksum_eq p' Hp' ltac:(lia)) as [Ec' Hf'].
  destruct (fold16_spec (words p') ltac:(lia)) as (_ & Hmod' & H0').
  rewrite Ec'. set (f' := fold16 3 (words p')) in *. rewrite Hw' in Hmod', H0'.
  set (w := words p) in *. clearbody f f' c w. clear -Hmod Hmod' H0 H0' Ec Hf Hf'.
  assert (w + c <> 0) as Hnz by lia. assert (f' <> 0) as Hf0 by tauto.
  assert ((w + c) mod 65535 = 0) as Hz.
  { rewrite Ec. replace (w + (65535 - f)) with (w + 65535 - f) by lia. clear -Hmod Hf. dlia. }
  rewrite Hz in Hmod'. clear -Hmod' Hf0 Hf'. dlia.
Qed.

(** ** Echo replies *)

Section SpliceViews.
Context {A : Type}.
Implicit Types l d : list A.

Lemma drop_splice i k d l : (i <= k)%nat -> (k + length d <= length l)%nat ->
  drop i (splice k d l) = splice (k - i) d (drop i l).
Proof.
  intros Hi Hk. apply list_eq. intros j.
  rewrite lookup_drop, !lookup_splice, lookup_drop by (rewrite ?length_drop; lia).
  repeat case_decide; try lia; [f_equal; lia|done].
Qed.

Lemma slice_splice_inside i n k d l :
  (i <= k)%nat -> (k + length d <= i + n)%nat -> (i + n <= length l)%nat ->
  slice i n (splice k d l) = splice (k - i) d (slice i n l).
Proof.
  intros Hi Hk Hl. apply list_eq. intros j.
  rewrite lookup_slice, !lookup_splice, lookup_slice by (rewrite ?length_slice; lia).
  repeat case_decide; try lia; try done. f_equal. lia.
Qed.

Lemma drop_splice_before i k d l : (k + length d <= i)%nat -> (k + length d <= length l)%nat ->
  drop i (splice k d l) = drop i l.
Proof.
  intros Hi Hk. apply list_eq. intros j. rewrite !lookup_drop, lookup_splice by done.
  by rewrite decide_False by lia.
Qed.

Lemma slice_slice a n i m l : (a + n <= m)%nat -> slice a n (slice i m l) = slice (i + a) n l.
Proof.
  intros Ha. apply list_eq. intros j. rewrite !lookup_slice. repeat case_decide; try lia; try done.
  f_equal. lia.
Qed.

Lemma slice_drop a n i l : slice a n (drop i l) = slice (i + a) n l.
Proof. unfold slice. by rewrite drop_drop. Qed.

Lemma slice_splice_all k d l n : n = length d -> (k + n <= length l)%nat -> slice k n (splice k d l) = d.
Proof. intros -> Hl. by apply slice_splice_same. Qed.

End SpliceViews.

Lemma byte_at_splice k d l i : (i < k \/ k + length d <= i)%nat -> (k + length d <= length l)%nat ->
  byte_at (splice k d l) i = byte_at l i.
Proof.
  intros Hi Hk. unfold byte_at. rewrite !nth_lookup, lookup_splice by done.
  by rewrite decide_False by lia.
Qed.

Lemma byte_at_slice l i v : slice i 1 l = [v] -> byte_at l i = v.
Proof.
  intros H. unfold byte_at. rewrite nth_lookup. apply (f_equal (fun l => l !! 0%nat)) in H.
  rewrite lookup_slice in H. simpl in H. rewrite Nat.add_0_r in H. by rewrite H.
Qed.

(** Lengths of a chain of in-place writes, and reads that miss them. *)
Ltac splice_len := repeat (rewrite length_splice; [|simpl; try lia]); simpl; try lia.
Ltac peel := repeat (rewrite slice_splice_disjoint by (splice_len; lia)).

(** for an IPv4 echo request with a 20-byte header, the gateway's answer has
    the request's length and payload, goes from the gateway's MAC and address to
    the guest's, is an echo reply, and both its IP header checksum and its ICMP
    checksum verify. *)
Theorem gateway_echo_reply frame guest_mac :
  is_bytes frame -> is_bytes guest_mac -> length guest_mac = 6%nat -> 42 <= lenN frame < 2 ^ 16 ->
  from_be (slice 12 2 frame) = 0x0800 -> byte_at frame 23 = 1 -> byte_at frame 34 = 8 ->
  N.land (byte_at frame 14) 0xf = 5 ->
  exists r, gateway_reply frame guest_mac = Ok (Some r) /\ length r = length frame /\
    slice 0 6 r = guest_mac /\ slice 6 6 r = gw_mac /\ slice 12 12 r = slice 12 12 frame /\
    slice 26 8 r = [192; 168; 100; 1; 192; 168; 100; 2] /\ byte_at r 34 = 0 /\
    drop 38 r = drop 38 frame /\
    inet_cksum (slice 14 20 r) = 0 /\ inet_cksum (drop 34 r) = 0.
Proof.
  intros Hb Hm Hml Hl Het Hproto Htype Hihl. unfold lenN in Hl.
  assert (length gw_mac = 6%nat) as Hgl by reflexivity.
  set (r1 := splice 24 [0; 0] (splice 34 [0] (splice 30 [192; 168; 100; 2] (splice 26 [192; 168; 100; 1]
    (splice 6 gw_mac (splice 0 guest_mac frame)))))).
  assert (length r1 = length frame) as Hl1 by (unfold r1; splice_len).
  assert (slice 0 6 r1 = guest_mac /\ slice 6 6 r1 = gw_mac /\ slice 12 12 r1 = slice 12 12 frame /\
    slice 24 2 r1 = [0; 0] /\ slice 26 8 r1 = [192; 168; 100; 1; 192; 168; 100; 2] /\
    slice 34 1 r1 = [0] /\ byte_at r1 14 = byte_at frame 14 /\ drop 38 r1 = drop 38 frame /\
    is_bytes r1) as (V0 & V6 & V12 & V24 & V26 & V34 & V14 & V38 & Hb1).
  { unfold r1. repeat split.
    - peel. by apply slice_splice_all; [|lia].
    - peel. apply slice_splice_all; [done|]. splice_len.
    - by peel.
    - apply slice_splice_all; [done|]. splice_len.
    - change 8%nat with (4 + 4)%nat. rewrite slice_app_split.
      change [192; 168; 100; 1; 192; 168; 100; 2] with ([192; 168; 100; 1] ++ [192; 168; 100; 2]).
      f_equal; peel; (apply slice_splice_all; [done|]; splice_len).
    - peel. apply slice_splice_all; [done|]. splice_len.
    - by repeat (rewrite byte_at_splice by (splice_len; lia)).
    - by repeat (rewrite drop_splice_before by (splice_len; lia)).
    - repeat (apply splice_is_bytes; [|by (by_eval || done)]). done. }
  set (c1 := inet_cksum (slice 14 20 r1)). set (r2 := splice 24 (cksum_bytes c1) r1).
  set (r3 := splice 36 [0; 0] r2). set (c2 := inet_cksum (drop 34 r3)).
  set (r4 := splice 36 (cksum_bytes c2) r3).
  assert (length r2 = length frame) as Hl2 by (unfold r2; splice_len).
  assert (length r3 = length frame) as Hl3 by (unfold r3; splice_len).
  assert (length r4 = length frame) as Hl4 by (unfold r4; splice_len).
  assert (is_bytes r3) as Hb3.
  { unfold r3, r2. apply splice_is_bytes; [|by by_eval]. apply splice_is_bytes; [done|].
    repeat constructor; apply wrap_range. }
  exists r4. split.
  { unfold gateway_reply. rewrite (proj2 (N.ltb_ge _ _)) by (unfold lenN; lia). rewrite Het, Hproto, Htype.
    simpl ((_ =? _) && _). cbv iota. cbn zeta. fold r1. rewrite V14, Hihl.
    rewrite (proj2 (N.ltb_ge _ _)) by (unfold lenN; lia). done. }
  split; [done|]. unfold r4, r3, r2.
  split; [by peel|]. split; [by peel|]. split; [by peel|]. split; [by peel|].
  split; [apply byte_at_slice; by peel|].
  split; [by repeat (rewrite drop_splice_before by (splice_len; lia))|]. split.
  - peel. rewrite slice_splice_inside by (simpl; lia). apply (cksum_verifies 5).
    + by apply slice_is_bytes.
    + unfold lenN. rewrite length_slice by lia. simpl. lia.
    + by rewrite slice_slice by lia.
  - fold r2 r3. rewrite drop_splice by (simpl; lia). apply (cksum_verifies 1).
    + by apply Forall_drop.
    + unfold lenN. rewrite length_drop. lia.
    + rewrite slice_drop. unfold r3. apply slice_splice_all; [done|]. simpl. lia.
Qed.

(** A 42-byte echo request whose header length field is 15 words: the slice the
    header checksum is taken of runs past the frame. *)
Definition short_echo : bytes :=
  repeat 0 12 ++ [0x08; 0x00; 0x4f] ++ repeat 0 8 ++ [1] ++ repeat 0 10 ++ [8] ++ repeat 0 7.

(** [gateway_reply] is not total: an echo request that claims a header longer
    than the frame makes it slice past the frame's end. *)
Theorem gateway_reply_can_panic :
  exists frame, lenN frame = 42 /\ is_bytes frame /\ forall guest_mac, length guest_mac = 6%nat ->
    gateway_reply frame guest_mac = Panic.
Proof.
  exists short_echo. split; [reflexivity|]. split; [by_eval|].
  intros [|a [|b [|c [|d [|e [|f [|]]]]]]] H; try done.
Qed.

(** ** MAC addresses *)

Definition hex_char (d : N) : N := if d <? 10 then 48 + d else 87 + d.

Definition show_byte (b : u8) : bytes := [hex_char (b / 16); hex_char (b mod 16)].

(** [aa:bb:cc:dd:ee:ff] *)
Fixpoint show_mac (mac : bytes) : bytes :=
  match mac with
  | [] => []
  | [b] => show_byte b
  | b :: mac => show_byte b ++ 58 :: show_mac mac
  end.

Lemma hex_char_spec d : d < 16 ->
  hex_digit (hex_char d) = Some d /\ hex_char d <> 58 /\ hex_char d <> 43.
Proof.
  intros Hd. unfold hex_char, hex_digit. destruct (N.ltb_spec d 10).
  - rewrite (proj2 (N.leb_le 48 _)), (proj2 (N.leb_le _ 57)) by lia. cbn [andb].
    split; [f_equal; lia|lia].
  - rewrite (proj2 (N.leb_gt _ 57)), andb_false_r by lia.
    rewrite (proj2 (N.leb_le 97 _)), (proj2 (N.leb_le _ 102)) by lia. cbn [andb].
    split; [f_equal; lia|lia].
Qed.

Lemma u8_from_show b : in_u 8 b -> u8_from_hex (show_byte b) = Some b.
Proof.
  unfold in_u. change (2 ^ 8) with 256. intros Hb. unfold show_byte, u8_from_hex.
  destruct (hex_char_spec (b / 16) ltac:(dlia)) as (E1 & _ & N1).
  destruct (hex_char_spec (b mod 16) ltac:(dlia)) as (E2 & _).
  rewrite (proj2 (N.eqb_neq _ _) N1). cbn [hex_digits]. rewrite E1, E2.
  rewrite (proj2 (N.ltb_lt _ _)) by dlia. rewrite (proj2 (N.ltb_lt _ _)) by dlia. f_equal. dlia.
Qed.

Lemma split_show b s : in_u 8 b -> split_on 58 (show_byte b ++ s) [] = split_on 58 s (show_byte b).
Proof.
  unfold in_u. change (2 ^ 8) with 256. intros Hb. unfold show_byte.
  destruct (hex_char_spec (b / 16) ltac:(dlia)) as (_ & N1 & _).
  destruct (hex_char_spec (b mod 16) ltac:(dlia)) as (_ & N2 & _).
  cbn [app split_on]. by rewrite (proj2 (N.eqb_neq _ _) N1), (proj2 (N.eqb_neq _ _) N2).
Qed.

Lemma split_show_mac mac : is_bytes mac -> mac <> [] -> split_on 58 (show_mac mac) [] = map show_byte mac.
Proof.
  intros Hb. induction Hb as [|b mac Hb Hbs IH]; intros Hne; [done|]. destruct mac as [|c mac].
  - pose proof (split_show b [] Hb) as E. rewrite app_nil_r in E. exact E.
  - change (show_mac (b :: c :: mac)) with (show_byte b ++ 58 :: show_mac (c :: mac)).
    rewrite split_show by done. cbn [split_on]. change (58 =? 58) with true. cbv iota.
    by rewrite IH.
Qed.

Lemma parse_parts_show mac : is_bytes mac -> parse_parts (map show_byte mac) = Ok mac.
Proof.
  induction 1 as [|b mac Hb Hbs IH]; [done|]. cbn [map parse_parts]. by rewrite u8_from_show, IH.
Qed.

(** A MAC address printed as six colon-separated pairs of hexadecimal digits
    parses back to itself. *)
Theorem parse_mac_roundtrip mac : is_bytes mac -> length mac = 6%nat -> parse_mac (show_mac mac) = Ok mac.
Proof.
  intros Hb Hl. unfold parse_mac. rewrite split_show_mac; [|done|by intros ->].
  unfold lenN. rewrite length_map, Hl. simpl. by apply parse_parts_show.
Qed.

Lemma parse_mac_roundtrip_witness : parse_mac (show_mac [0x52; 0x54; 0; 0xab; 0x0f; 0xff]) = Ok [0x52; 0x54; 0; 0xab; 0x0f; 0xff].
Proof. apply (parse_mac_roundtrip [0x52; 0x54; 0; 0xab; 0x0f; 0xff]); [by_eval|reflexivity]. Defined.

(** An echo request for 192.168.100.1 with four bytes of payload. *)
Definition demo_echo : bytes :=
  [2; 0; 0; 0; 0; 1; 2; 0; 0; 0; 0; 2; 8; 0; 0x45; 0; 0; 32; 0; 1; 0; 0; 64; 1; 0; 0;
   192; 168; 100; 2; 192; 168; 100; 1; 8; 0; 0xf7; 0xff; 0; 0; 0; 0; 1; 2; 3; 4].

Lemma gateway_echo_reply_witness :
  exists r, gateway_reply demo_echo [2; 0; 0; 0; 0; 2] = Ok (Some r) /\ length r = length demo_echo /\
    slice 0 6 r = [2; 0; 0; 0; 0; 2] /\ slice 6 6 r = gw_mac /\ slice 12 12 r = slice 12 12 demo_echo /\
    slice 26 8 r = [192; 168; 100; 1; 192; 168; 100; 2] /\ byte_at r 34 = 0 /\
    drop 38 r = drop 38 demo_echo /\
    inet_cksum (slice 14 20 r) = 0 /\ inet_cksum (drop 34 r) = 0.
Proof.
  apply (gateway_echo_reply demo_echo [2; 0; 0; 0; 0; 2]); first [reflexivity | by_eval].
Defined.
