(* ===== verification/Tables.v ===== *)
(** * Firmware tables in guest RAM

    What the builders of the MP table ([mptable.rs]) and of the ACPI tables
    ([acpi.rs]) share: patching a buffer at constant offsets, byte sums, and
    installing tables in guest RAM.  [rd] is how a reader that follows
    pointers sees RAM. *)

From stdpp Require Import prelude list strings.
From Stdlib Require Import NArith Lia.
From S2P Require Import Prelude RustStr GuestMemory.

(** [buf[i..i + d.len()].copy_from_slice(d)], which panics out of range. *)
Definition put (i : N) (d : bytes) : M bytes unit := fun b =>
  if i + lenN d <=? lenN b then (Ok tt, splice (N.to_nat i) d b) else (Panic, b).

(** A table built in a zeroed buffer of [n] bytes. *)
Definition build (n : N) (f : M bytes unit) : outcome bytes :=
  match f (repeat 0 (N.to_nat n)) with
  | (Ok _, b) => Ok b
  | (Err e, _) => Err e
  | (Panic, _) => Panic
  | (Loop, _) => Loop
  end.

(** The wrapping [u8] sum of the checksum loops. *)
Definition sum8 (bs : bytes) : u8 := fold_left (U.add 8) bs 0.

(** ** Sums *)

Definition sumN (bs : bytes) : N := fold_right N.add 0 bs.

Lemma sumN_app a b : sumN (a ++ b) = sumN a + sumN b.
Proof. unfold sumN. induction a as [|x a IH]; simpl; [done|]. rewrite IH. lia. Qed.

Lemma sum8_acc bs : forall a, fold_left (U.add 8) bs a mod 2 ^ 8 = (a + sumN bs) mod 2 ^ 8.
Proof.
  induction bs as [|x bs IH]; intros a; cbn [fold_left sumN fold_right]; [by rewrite N.add_0_r|].
  rewrite IH. unfold U.add, U.wrap. fold (sumN bs). rewrite N.add_assoc.
  by rewrite N.Div0.add_mod_idemp_l.
Qed.

Lemma sum8_eq bs : sum8 bs = sumN bs mod 2 ^ 8.
Proof.
  rewrite <- (N.add_0_l (sumN bs)), <- sum8_acc. fold (sum8 bs). symmetry. apply N.mod_small.
  unfold sum8. assert (forall a, a < 2 ^ 8 -> fold_left (U.add 8) bs a < 2 ^ 8) as H; [|by apply H].
  induction bs as [|x bs IH]; intros a Ha; [done|]. apply IH, wrap_range.
Qed.

(** Storing the two's complement of the sum in a zero byte makes the sum zero. *)
Lemma seal_sum i c b :
  (i < length b)%nat -> b !! i = Some 0 -> (c + sumN b) mod 2 ^ 8 = 0 -> sum8 (splice i [c] b) = 0.
Proof.
  intros Hi Hb Hc. rewrite sum8_eq, <- Hc. f_equal.
  rewrite <- (take_drop_middle b i 0 Hb) at 2. unfold splice.
  replace (i + length [c])%nat with (S i) by (simpl; lia).
  rewrite !sumN_app. cbn [sumN fold_right]. unfold sumN. lia.
Qed.

(** ** Installing tables *)

Fixpoint install (ts : list (u64 * bytes)) : M GuestMemory unit :=
  match ts with
  | [] => ret tt
  | (g, b) :: r => do! write_at g b in install r
  end.

Definition clear_of (g n : N) (ts : list (u64 * bytes)) : bool :=
  forallb (fun '(g', b') => (g + n <=? g') || (g' + lenN b' <=? g)) ts.

(** Tables that do not overlap. *)
Fixpoint apart_tables (ts : list (u64 * bytes)) : bool :=
  match ts with
  | [] => true
  | (g, b) :: r => clear_of g (lenN b) r && apart_tables r
  end.

Definition in_tables (ts : list (u64 * bytes)) (a : N) : Prop :=
  exists g b, (g, b) ∈ ts /\ in_range g (lenN b) a.

Lemma clear_of_spec g n ts a :
  clear_of g n ts = true -> in_range g n a -> ~ in_tables ts a.
Proof.
  intros Hc Ha (g' & b' & Hin & Hr). unfold clear_of in Hc. rewrite forallb_forall in Hc.
  apply list_elem_of_In in Hin. apply Hc in Hin.
  apply orb_true_iff in Hin as [?%N.leb_le|?%N.leb_le]; unfold in_range in *; lia.
Qed.

Lemma install_spec ts : forall m,
  Forall (fun '(g, b) => in_ram m g (lenN b) = true) ts -> apart_tables ts = true ->
  exists m', install ts m = (Ok tt, m') /\ mem_frame (in_tables ts) m m' /\
    forall g b, (g, b) ∈ ts -> read_at g (lenN b) m' = (Ok b, m').
Proof.
  induction ts as [|[g b] r IH]; intros m Hr Ha.
  { exists m. split; [done|]. split; [reflexivity|]. by intros g b ?%not_elem_of_nil. }
  apply Forall_cons in Hr as [Hg Hr]. cbn [apart_tables] in Ha. apply andb_true_iff in Ha as [Hc Ha].
  assert (Hw : write_at g b m = (Ok tt, {| ram := splice (N.to_nat g) b (ram m) |})) by by rewrite write_at_eq, Hg.
  set (m1 := {| ram := splice (N.to_nat g) b (ram m) |}) in *.
  assert (Hf1 : mem_frame (in_range g (lenN b)) m m1).
  { pose proof (write_at_frame (in_range g (lenN b)) g b (fun _ H => H) m) as H. by rewrite Hw in H. }
  destruct (IH m1) as (m' & Ei & Hf & Hrd); [|done|].
  { eapply Forall_impl; [exact Hr|]. intros [g' b'] H'. by rewrite (in_ram_frame _ _ _ _ _ Hf1). }
  exists m'. cbn [install]. unfold bind. rewrite Hw, Ei. split; [done|]. split.
  - transitivity m1; (eapply mem_frame_mono; [|done]).
    + intros a Ha'. exists g, b. split; [left|done].
    + intros a (g' & b' & Hin & Hin'). exists g', b'. split; [by right|done].
  - intros g' b' [[= -> ->]|Hin]%elem_of_cons; [|by apply Hrd].
    eapply read_at_keep; [exact Hf| |by eapply read_write_same].
    intros a Ha'. by eapply clear_of_spec.
Qed.

(** ** Readers *)

Notation reader := (N -> N -> option bytes).

Definition rd (m : GuestMemory) : reader := fun g n =>
  match read_at g n m with (Ok b, _) => Some b | _ => None end.

(** The reader that only sees the tables. *)
Fixpoint rd_tables (ts : list (u64 * bytes)) (g n : N) : option bytes :=
  match ts with
  | [] => None
  | (g', b) :: r =>
      if (g' <=? g) && (g + n <=? g' + lenN b)
      then Some (slice (N.to_nat (g - g')) (N.to_nat n) b) else rd_tables r g n
  end.

Definition reads_more (r1 r2 : reader) : Prop := forall g n b, r1 g n = Some b -> r2 g n = Some b.

Lemma read_at_sub g b m g' n :
  read_at g (lenN b) m = (Ok b, m) -> g <= g' -> g' + n <= g + lenN b ->
  rd m g' n = Some (slice (N.to_nat (g' - g)) (N.to_nat n) b).
Proof.
  intros Hb H1 H2. unfold rd. rewrite read_at_eq in *. destruct (in_ram m g (lenN b)) eqn:E; [|done].
  assert (in_ram m g' n = true) as -> by (rewrite in_ram_spec in *; lia).
  injection Hb as Hb. f_equal. rewrite <- Hb. apply list_eq. intros j. rewrite !lookup_slice.
  repeat case_decide; first [done|f_equal; lia|unfold lenN in *; lia].
Qed.

Lemma rd_tables_sound ts m :
  (forall g b, (g, b) ∈ ts -> read_at g (lenN b) m = (Ok b, m)) -> reads_more (rd_tables ts) (rd m).
Proof.
  intros H g n b. induction ts as [|[g' b'] r IH]; [done|]. cbn [rd_tables].
  destruct (N.leb_spec g' g), (N.leb_spec (g + n) (g' + lenN b')); simpl; intros Hb;
    try (apply IH; [intros g0 b0 Hin; apply H; by right|done]).
  injection Hb as <-. apply read_at_sub; [apply H; left|done|done].
Qed.
