(* ===== verification/MpTable.v ===== *)
(** * The MP table

    [crates/fluxvm-hypervisor/src/mptable.rs]: the Intel MP floating pointer
    and configuration table.  The packed structs are records; [as_bytes] of
    one is its fields in order, little endian.  [mp_scan] is a reader in the
    manner of an operating system: it finds the table from the floating
    pointer, verifies both checksums and decodes the entries. *)

From stdpp Require Import prelude list strings.
From Stdlib Require Import NArith Lia.
From S2P Require Import Prelude RustStr GuestMemory Tables.

Definition MPFLOAT_GPA : u64 := 0x9fc00.
Definition IOAPIC_ADDR : u32 := 0xfec00000.
Definition LAPIC_ADDR : u32 := 0xfee00000.

Record MpFloatingPointer := {
  fp_signature : bytes; fp_phys_addr : u32; fp_length : u8; fp_spec_rev : u8; fp_checksum : u8;
  fp_features : bytes
}.

Record MpConfigTableHeader := {
  h_signature : bytes; h_base_table_length : u16; h_spec_rev : u8; h_checksum : u8; h_oem_id : bytes;
  h_product_id : bytes; h_oem_table_ptr : u32; h_oem_table_size : u16; h_entry_count : u16;
  h_local_apic_addr : u32; h_ext_table_length : u16; h_ext_table_checksum : u8; h_reserved : u8
}.

Record MpProcessor := {
  cpu_apic_id : u8; cpu_apic_version : u8; cpu_flags : u8; cpu_signature : u32; cpu_features : u32
}.

Record MpBus := { bus_id : u8; bus_type : bytes }.

Record MpIoApic := { io_id : u8; io_version : u8; io_flags : u8; io_addr : u32 }.

(** [MpIoInterrupt] (entry type 3) and [MpLocalInterrupt] (entry type 4) have
    the same fields. *)
Record MpInterrupt := {
  int_type : u8; int_flags : u16; int_bus : u8; int_irq : u8; int_dest : u8; int_pin : u8
}.

Definition fp_bytes (f : MpFloatingPointer) : bytes :=
  fp_signature f ++ le_bytes 4 (fp_phys_addr f) ++ [fp_length f; fp_spec_rev f; fp_checksum f] ++ fp_features f.

Definition header_bytes (h : MpConfigTableHeader) : bytes :=
  h_signature h ++ le_bytes 2 (h_base_table_length h) ++ [h_spec_rev h; h_checksum h] ++
  h_oem_id h ++ h_product_id h ++ le_bytes 4 (h_oem_table_ptr h) ++ le_bytes 2 (h_oem_table_size h) ++
  le_bytes 2 (h_entry_count h) ++ le_bytes 4 (h_local_apic_addr h) ++ le_bytes 2 (h_ext_table_length h) ++
  [h_ext_table_checksum h; h_reserved h].

Definition processor_bytes (p : MpProcessor) : bytes :=
  [0; cpu_apic_id p; cpu_apic_version p; cpu_flags p] ++ le_bytes 4 (cpu_signature p) ++
  le_bytes 4 (cpu_features p) ++ repeat 0 8.

Definition bus_bytes (b : MpBus) : bytes := [1; bus_id b] ++ bus_type b.

Definition ioapic_bytes (i : MpIoApic) : bytes :=
  [2; io_id i; io_version i; io_flags i] ++ le_bytes 4 (io_addr i).

Definition interrupt_bytes (entry_type : u8) (i : MpInterrupt) : bytes :=
  [entry_type; int_type i] ++ le_bytes 2 (int_flags i) ++ [int_bus i; int_irq i; int_dest i; int_pin i].

(** [s.wrapping_neg()] of the wrapping sum. *)
Definition checksum (bs : bytes) : u8 := U.sub 8 0 (sum8 bs).

Definition header_placeholder : MpConfigTableHeader :=
  {| h_signature := bstr "PCMP"; h_base_table_length := 0; h_spec_rev := 4; h_checksum := 0;
     h_oem_id := bstr "ZYVOR   "; h_product_id := bstr "FLUXVM      "; h_oem_table_ptr := 0;
     h_oem_table_size := 0; h_entry_count := 0; h_local_apic_addr := LAPIC_ADDR;
     h_ext_table_length := 0; h_ext_table_checksum := 0; h_reserved := 0 |}.

Definition processor (i : u8) : MpProcessor :=
  {| cpu_apic_id := i; cpu_apic_version := 0x14; cpu_flags := if i =? 0 then 3 else 1;
     cpu_signature := 0x600; cpu_features := 0x201 |}.

Definition isa_irqs : list u8 := filter (fun irq => irq <> 2) (map N.of_nat (seq 0 16)).

Definition io_interrupt (irq : u8) : MpInterrupt :=
  {| int_type := 0; int_flags := 0; int_bus := 0; int_irq := irq; int_dest := 0; int_pin := irq |}.

Definition lint0 : MpInterrupt :=
  {| int_type := 3; int_flags := 0; int_bus := 0; int_irq := 0; int_dest := 0xff; int_pin := 0 |}.

Definition lint1 : MpInterrupt :=
  {| int_type := 1; int_flags := 0; int_bus := 0; int_irq := 0; int_dest := 0xff; int_pin := 1 |}.

(** The entries in the order they are pushed. *)
Definition entries_of (cpus : u8) : list bytes :=
  map (fun i => processor_bytes (processor (N.of_nat i))) (seq 0 (N.to_nat cpus)) ++
  [bus_bytes {| bus_id := 0; bus_type := bstr "ISA   " |};
   ioapic_bytes {| io_id := 0; io_version := 0x17; io_flags := 1; io_addr := IOAPIC_ADDR |}] ++
  map (fun irq => interrupt_bytes 3 (io_interrupt irq)) isa_irqs ++
  [interrupt_bytes 4 lint0; interrupt_bytes 4 lint1].

(** The table with its length, entry count and checksum patched in. *)
Definition mp_table (cpus : u8) : outcome bytes :=
  let table := header_bytes header_placeholder ++ concat (entries_of cpus) in
  match (do! put 4 (le_bytes 2 (U.wrap 16 (lenN table))) in
         do! put 34 (le_bytes 2 (U.wrap 16 (lenN (entries_of cpus)))) in
         do! put 7 [0] in
         let! t := get in
         put 7 [checksum t]) table with
  | (Ok _, t) => Ok t
  | (Err e, _) => Err e
  | (Panic, _) => Panic
  | (Loop, _) => Loop
  end.

Definition mp_float (cfg_gpa : u64) (sum : u8) : MpFloatingPointer :=
  {| fp_signature := bstr "_MP_"; fp_phys_addr := U.wrap 32 cfg_gpa; fp_length := 1; fp_spec_rev := 4;
     fp_checksum := sum; fp_features := repeat 0 5 |}.

(** [num_cpus.clamp(1, 8)] *)
Definition clamp_cpus (num_cpus : u8) : u8 := N.min (N.max num_cpus 1) 8.

Definition write_mptable (num_cpus : u8) : M GuestMemory unit :=
  let! table := lift (mp_table (clamp_cpus num_cpus)) in
  let cfg_gpa := U.add 64 MPFLOAT_GPA 16 in
  do! write_at cfg_gpa table in
  write_at MPFLOAT_GPA (fp_bytes (mp_float cfg_gpa (checksum (fp_bytes (mp_float cfg_gpa 0))))).

(** ** A reader of the table *)

Inductive mp_entry :=
| Cpu (apic_id flags : N)
| Isa (id : N)
| IoApic (id addr : N)
| IoInt (irq pin : N)
| LocalInt (kind lint : N).

#[global] Instance mp_entry_eq_dec : EqDecision mp_entry.
Proof. solve_decision. Defined.

(** One entry: processors take 20 bytes, the others 8. *)
Definition mp_decode (e : bytes) : option (mp_entry * bytes) :=
  match e with
  | 0 :: id :: _ :: fl :: r => if 16 <=? lenN r then Some (Cpu id fl, drop 16 r) else None
  | 1 :: id :: r => if 6 <=? lenN r then Some (Isa id, drop 6 r) else None
  | 2 :: id :: _ :: _ :: r => if 4 <=? lenN r then Some (IoApic id (from_le (take 4 r)), drop 4 r) else None
  | 3 :: _ :: _ :: _ :: _ :: irq :: _ :: pin :: r => Some (IoInt irq pin, r)
  | 4 :: k :: _ :: _ :: _ :: _ :: _ :: lint :: r => Some (LocalInt k lint, r)
  | _ => None
  end.

Fixpoint mp_entries (n : nat) (bs : bytes) : option (list mp_entry) :=
  match n with
  | O => match bs with [] => Some [] | _ => None end
  | S n =>
      '(e, r) ← mp_decode bs;
      l ← mp_entries n r;
      Some (e :: l)
  end.

Definition mp_scan (rd : reader) : option (N * list mp_entry) :=
  fp ← rd MPFLOAT_GPA 16;
  if bool_decide (take 4 fp = bstr "_MP_") && (sum8 fp =? 0) then
    let cfg := from_le (slice 4 4 fp) in
    hdr ← rd cfg 44;
    table ← rd cfg (from_le (slice 4 2 hdr));
    if bool_decide (take 4 table = bstr "PCMP") && (sum8 table =? 0) then
      l ← mp_entries (N.to_nat (from_le (slice 34 2 table))) (drop 44 table);
      Some (from_le (slice 36 4 table), l)
    else None
  else None.

Lemma mp_scan_mono r1 r2 v : reads_more r1 r2 -> mp_scan r1 = Some v -> mp_scan r2 = Some v.
Proof.
  intros H. unfold mp_scan. cbv zeta. intros Hs.
  destruct (r1 MPFLOAT_GPA 16) as [fp|] eqn:E1; [|done]. apply H in E1. rewrite E1. cbn [mbind option_bind] in *.
  destruct (bool_decide (take 4 fp = _) && _); [|done].
  destruct (r1 (from_le (slice 4 4 fp)) 44) as [hdr|] eqn:E2; [|done]. apply H in E2. rewrite E2.
  cbn [mbind option_bind] in *.
  destruct (r1 (from_le (slice 4 4 fp)) (from_le (slice 4 2 hdr))) as [t|] eqn:E3; [|done].
  apply H in E3. by rewrite E3.
Qed.

(** What the table says of a machine of [cpus] processors. *)
Definition mp_expected (cpus : N) : N * list mp_entry :=
  (LAPIC_ADDR,
   map (fun i => Cpu (N.of_nat i) (if (i =? 0)%nat then 3 else 1)) (seq 0 (N.to_nat cpus)) ++
   [Isa 0; IoApic 0 IOAPIC_ADDR] ++ map (fun irq => IoInt irq irq) isa_irqs ++
   [LocalInt 3 0; LocalInt 1 1]).

Definition mp_tables (cpus : N) (table : bytes) : list (u64 * bytes) :=
  let cfg_gpa := U.add 64 MPFLOAT_GPA 16 in
  [(cfg_gpa, table);
   (MPFLOAT_GPA, fp_bytes (mp_float cfg_gpa (checksum (fp_bytes (mp_float cfg_gpa 0)))))].

Definition mp_good (cpus : N) : bool :=
  match mp_table cpus with
  | Ok t => apart_tables (mp_tables cpus t)
            && bool_decide (mp_scan (rd_tables (mp_tables cpus t)) = Some (mp_expected cpus))
            && (lenN t =? 196 + 20 * cpus)
  | _ => false
  end.

(** Every processor count the clamp allows, by evaluation. *)
Lemma mp_good_all n : mp_good (clamp_cpus n) = true.
Proof.
  assert (Hall : forallb mp_good [1; 2; 3; 4; 5; 6; 7; 8] = true) by (vm_compute; reflexivity).
  rewrite forallb_forall in Hall. apply Hall. unfold clamp_cpus.
  assert (H : 1 <= N.min (N.max n 1) 8 <= 8) by lia. revert H. generalize (N.min (N.max n 1) 8). intros k Hk.
  destruct (decide (k = 1)), (decide (k = 2)), (decide (k = 3)), (decide (k = 4)), (decide (k = 5)),
    (decide (k = 6)), (decide (k = 7)), (decide (k = 8)); subst; simpl; tauto || lia.
Qed.

Definition mp_float_bytes : bytes :=
  let cfg_gpa := U.add 64 MPFLOAT_GPA 16 in fp_bytes (mp_float cfg_gpa (checksum (fp_bytes (mp_float cfg_gpa 0)))).

(** The two pieces of the table, in RAM. *)
Lemma mptable_installs m num_cpus : MPFLOAT_GPA + 372 <= mem_len m < 2 ^ 64 ->
  exists m' t, write_mptable num_cpus m = (Ok tt, m') /\ mem_frame (in_range MPFLOAT_GPA 372) m m' /\
    (forall g b, (g, b) ∈ mp_tables (clamp_cpus num_cpus) t -> read_at g (lenN b) m' = (Ok b, m') /\ MPFLOAT_GPA <= g /\ g + lenN b <= MPFLOAT_GPA + 372) /\
    mp_scan (rd_tables (mp_tables (clamp_cpus num_cpus) t)) = Some (mp_expected (clamp_cpus num_cpus)).
Proof.
  intros Hram. pose proof (mp_good_all num_cpus) as Hg. assert (Hc : clamp_cpus num_cpus <= 8) by (unfold clamp_cpus; lia).
  set (c := clamp_cpus num_cpus) in *. unfold mp_good in Hg.
  destruct (mp_table c) as [t|e| |] eqn:Et; [|done..].
  apply andb_true_iff in Hg as [[Ha Hs%bool_decide_eq_true]%andb_true_iff Hl%N.eqb_eq].
  assert (Hfp : lenN mp_float_bytes = 16) by (vm_compute; reflexivity). unfold mp_float_bytes in Hfp.
  change (U.add 64 MPFLOAT_GPA 16) with 0x9fc10 in *. cbv zeta in Hfp.
  assert (Hrange : forall g b, (g, b) ∈ mp_tables c t -> MPFLOAT_GPA <= g /\ g + lenN b <= MPFLOAT_GPA + 372).
  { unfold mp_tables. change (U.add 64 MPFLOAT_GPA 16) with 0x9fc10. intros g b Hin.
    apply elem_of_cons in Hin as [[= -> ->]|[[= -> ->]|[]%not_elem_of_nil]%elem_of_cons]; unfold MPFLOAT_GPA in *; lia. }
  destruct (install_spec (mp_tables c t) m) as (m' & Ei & Hf & Hr); [|done|].
  { apply Forall_forall. intros [g b] Hin. apply Hrange in Hin. rewrite in_ram_spec. lia. }
  exists m', t. split_and!.
  - rewrite <- Ei. unfold write_mptable, mp_tables, install, lift, bind. fold c. rewrite Et.
    change (U.add 64 MPFLOAT_GPA 16) with 0x9fc10. destruct (write_at 0x9fc10 t m) as [[[]|e| |] m1]; [|done..].
    by destruct (write_at _ _ m1) as [[[]|e| |] m2].
  - eapply mem_frame_mono; [|exact Hf]. intros a (g & b & Hin & Hra). apply Hrange in Hin. unfold in_range in *. lia.
  - intros g b Hin. split; [by apply Hr|by apply Hrange].
  - exact Hs.
Qed.

(** for every CPU count and every RAM that holds low memory, the MP table
    is installed without error, changes only the floating pointer's 16 bytes
    and the at most 356 after them, and a reader that starts at the floating
    pointer and checks both checksums finds exactly the clamped CPUs (the first
    one the boot processor), the IOAPIC and the identity map of the ISA
    interrupts without the cascade. *)
Theorem mptable_readable m num_cpus (Hram : MPFLOAT_GPA + 372 <= mem_len m < 2 ^ 64) :
  exists m', write_mptable num_cpus m = (Ok tt, m') /\
    mem_frame (in_range MPFLOAT_GPA 372) m m' /\
    mp_scan (rd m') = Some (mp_expected (clamp_cpus num_cpus)).
Proof.
  destruct (mptable_installs m num_cpus Hram) as (m' & t & Ew & Hf & Hr & Hs). exists m'. split_and!; [done..|].
  eapply mp_scan_mono; [|exact Hs]. apply rd_tables_sound. intros g b Hin. by apply Hr.
Qed.

Lemma mptable_readable_witness :
  let m := {| ram := repeat 0 (N.to_nat 0x9fd74) |} in
  exists m', write_mptable 4 m = (Ok tt, m') /\
    mem_frame (in_range MPFLOAT_GPA 372) m m' /\
    mp_scan (rd m') = Some (mp_expected (clamp_cpus 4)).
Proof.
  intros m. apply (mptable_readable m 4). unfold mem_len, lenN, m, ram. rewrite repeat_length.
  rewrite N2Nat.id. by unfold MPFLOAT_GPA.
Defined.
