(* ===== verification/Acpi.v ===== *)
(** * ACPI tables

    [crates/fluxvm-hypervisor/src/acpi.rs]: the RSDP, XSDT, FADT, MADT, MCFG
    and DSDT the hypervisor writes for PVH guests.  A table is built in a
    zeroed buffer by the same patches as in the source, each of which panics
    out of range.  [acpi_scan] is a reader that follows the pointers from the
    RSDP and verifies signatures, lengths and checksums, as a guest does. *)

From stdpp Require Import prelude list strings.
From Stdlib Require Import NArith Lia.
From S2P Require Import Prelude RustStr GuestMemory Tables MpTable.

Definition RSDP_ADDR : u64 := 0xe0000.
Definition MMIO_WINDOW : u64 := 0xfeb00000.
Definition PCI_MMCONFIG_SIZE : u64 := N.shiftl 256 20.
Definition PCI_MMCONFIG_START : u64 := IOAPIC_ADDR - PCI_MMCONFIG_SIZE.

Definition FADT : u64 := 0xa0000.
Definition MADT : u64 := 0xa1000.
Definition XSDT : u64 := 0xa2000.
Definition MCFG : u64 := 0xa3000.
Definition DSDT_GPA : u64 := 0xa4000.

(** [(!s).wrapping_add(1)] of the wrapping sum. *)
Definition acpi_checksum (buf : bytes) : u8 := U.add 8 (U.not 8 (sum8 buf)) 1.

Definition write_header (sig : bytes) (len : u32) (rev : u8) : M bytes unit :=
  do! put 0 sig in
  do! put 4 (le_bytes 4 len) in
  do! put 8 [rev] in
  do! put 9 [0] in
  do! put 10 (bstr "FLUXVM") in
  do! put 16 (bstr "FLUXVM  ") in
  do! put 24 (le_bytes 4 1) in
  do! put 28 (bstr "FLVM") in
  put 32 (le_bytes 4 1).

(** [t[9] = checksum(&t)] *)
Definition seal : M bytes unit := let! b := get in put 9 [acpi_checksum b].

(** ** AML *)

Definition name_seg (seg : bytes) : bytes := splice 0 (take 4 seg) (bstr "____").

(** [u32::from_str_radix] of up to four hexadecimal digits. *)
Fixpoint hex_value (ds : bytes) (acc : N) : option N :=
  match ds with
  | [] => Some acc
  | c :: r =>
      if (48 <=? c) && (c <=? 57) then hex_value r (acc * 16 + (c - 48))
      else if (65 <=? c) && (c <=? 70) then hex_value r (acc * 16 + (c - 55))
      else if (97 <=? c) && (c <=? 102) then hex_value r (acc * 16 + (c - 87))
      else None
  end.

(** The ids of the source are seven ASCII characters. *)
Definition eisa_id (id : bytes) : u32 :=
  let d i := U.sub 8 (nth i id 0) 0x40 in
  let prod := default 0 (hex_value (slice 3 4 id) 0) in
  N.lor (N.lor (N.lor (U.wrap 32 (N.shiftl (d 0%nat) 26)) (U.wrap 32 (N.shiftl (d 1%nat) 21)))
           (U.wrap 32 (N.shiftl (d 2%nat) 16))) (N.land prod 0xffff).

Definition encode_pkg_len (len : usize) : bytes :=
  if len <? 0x40 then [U.wrap 8 len]
  else if len <? 0x1000 then [N.lor (U.wrap 8 (N.land len 0xf)) 0x40; U.wrap 8 (N.shiftr len 4)]
  else [N.lor (U.wrap 8 (N.land len 0xf)) 0x80; U.wrap 8 (N.land (N.shiftr len 4) 0xff);
        U.wrap 8 (N.land (N.shiftr len 12) 0xff)].

(** The [loop] of [push_pkg] from a guess of the length's width. *)
Fixpoint pkg_loop (fuel : nat) (width : usize) (op name body : bytes) : outcome bytes :=
  match fuel with
  | O => Loop
  | S fuel =>
      let enc := encode_pkg_len (width + (lenN name + lenN body)) in
      if lenN enc =? width then Ok (op ++ enc ++ name ++ body)
      else pkg_loop fuel (lenN enc) op name body
  end.

Definition push_pkg (op name body : bytes) : outcome bytes := pkg_loop 3 1 op name body.

Definition memory32_fixed (base length : u32) : bytes :=
  [0x86; 0x09; 0x00; 0x01] ++ le_bytes 4 base ++ le_bytes 4 length.

Definition crs : bytes :=
  let crs_bytes := memory32_fixed (U.wrap 32 PCI_MMCONFIG_START) 0x100000 ++
                   memory32_fixed (U.wrap 32 MMIO_WINDOW) 0x1000 ++ [0x79; 0x00] in
  [0x11; U.wrap 8 (1 + 2 + lenN crs_bytes); 0x0a; U.wrap 8 (lenN crs_bytes)] ++ crs_bytes.

Definition dev_id (name id : bytes) : bytes := [0x08] ++ name_seg name ++ [0x0c] ++ le_bytes 4 (eisa_id id).

Definition dev_body : bytes :=
  dev_id (bstr "_HID") (bstr "PNP0A08") ++ dev_id (bstr "_CID") (bstr "PNP0A03") ++
  [0x08] ++ name_seg (bstr "_UID") ++ [0x00] ++
  [0x08] ++ name_seg (bstr "_STA") ++ [0x0a; 0x0f] ++
  [0x08] ++ name_seg (bstr "_CRS") ++ crs.

Definition dsdt_aml : outcome bytes :=
  match push_pkg [0x5b; 0x82] (name_seg (bstr "PCI0")) dev_body with
  | Ok device => push_pkg [0x10] ([0x5c] ++ name_seg (bstr "_SB_")) device
  | o => o
  end.

(** ** Tables *)

Definition dsdt_table : outcome bytes :=
  match dsdt_aml with
  | Ok aml =>
      let len := U.wrap 32 (36 + lenN aml) in
      build len (do! write_header (bstr "DSDT") len 2 in do! put 36 aml in seal)
  | o => o
  end.

Definition fadt_table : outcome bytes :=
  build 276
    (do! write_header (bstr "FACP") 276 5 in
     do! put 40 (le_bytes 4 (U.wrap 32 DSDT_GPA)) in
     do! put 45 [1] in
     do! put 56 (le_bytes 4 0x1000) in
     do! put 64 (le_bytes 4 0x1004) in
     do! put 88 [4] in
     do! put 89 [2] in
     do! put 112 (le_bytes 4 (N.shiftl 1 10)) in
     do! put 116 [1] in
     do! put 117 [8] in
     do! put 118 [0] in
     do! put 119 [1] in
     do! put 120 (le_bytes 8 0xcf9) in
     do! put 128 [0x06] in
     do! put 140 (le_bytes 8 DSDT_GPA) in
     seal).

(** [for i in 0..num_cpus]; returns [off]. *)
Fixpoint lapics (ids : list u8) (off : usize) : M bytes usize :=
  match ids with
  | [] => ret off
  | i :: ids =>
      do! put off [0] in
      do! put (off + 1) [8] in
      do! put (off + 2) [i] in
      do! put (off + 3) [i] in
      do! put (off + 4) (le_bytes 4 1) in
      lapics ids (off + 8)
  end.

Definition cpu_ids (num_cpus : u8) : list u8 := map N.of_nat (seq 0 (N.to_nat num_cpus)).

Definition madt_table (num_cpus : u8) : outcome bytes :=
  let madt_len := 44 + 8 * num_cpus + 12 in
  build madt_len
    (do! write_header (bstr "APIC") madt_len 3 in
     do! put 36 (le_bytes 4 LAPIC_ADDR) in
     do! put 40 (le_bytes 4 1) in
     let! off := lapics (cpu_ids num_cpus) 44 in
     do! put off [1] in
     do! put (off + 1) [12] in
     do! put (off + 2) [0] in
     do! put (off + 3) [0] in
     do! put (off + 4) (le_bytes 4 IOAPIC_ADDR) in
     do! put (off + 8) (le_bytes 4 0) in
     seal).

Definition mcfg_table : outcome bytes :=
  build 60
    (do! write_header (bstr "MCFG") 60 1 in
     do! put 44 (le_bytes 8 PCI_MMCONFIG_START) in
     do! put 52 (le_bytes 2 0) in
     do! put 54 [0] in
     do! put 55 [0] in
     seal).

Definition xsdt_table : outcome bytes :=
  build 60
    (do! write_header (bstr "XSDT") 60 1 in
     do! put 36 (le_bytes 8 FADT) in
     do! put 44 (le_bytes 8 MADT) in
     do! put 52 (le_bytes 8 MCFG) in
     seal).

Definition rsdp_table : outcome bytes :=
  build 36
    (do! put 0 (bstr "RSD PTR ") in
     do! put 9 (bstr "FLUXVM") in
     do! put 15 [2] in
     do! put 16 (le_bytes 4 0) in
     do! put 20 (le_bytes 4 36) in
     do! put 24 (le_bytes 8 XSDT) in
     let! b := get in
     do! put 8 [acpi_checksum (take 20 b)] in
     let! b := get in
     put 32 [acpi_checksum b]).

Definition write_tables (num_cpus : u8) : M GuestMemory u64 :=
  let! dsdt := lift dsdt_table in
  do! write_at DSDT_GPA dsdt in
  let! fadt := lift fadt_table in
  do! write_at FADT fadt in
  let! madt := lift (madt_table num_cpus) in
  do! write_at MADT madt in
  let! mcfg := lift mcfg_table in
  do! write_at MCFG mcfg in
  let! xsdt := lift xsdt_table in
  do! write_at XSDT xsdt in
  let! rsdp_buf := lift rsdp_table in
  do! write_at RSDP_ADDR rsdp_buf in
  ret RSDP_ADDR.

Definition is_acpi_reset (port : u16) (data : bytes) : bool :=
  (port =? 0xcf9) && match data with b :: _ => bits b 0x04 | [] => false end.

(** ** A reader of the tables *)

(** A table: header first, then the whole of it, with its checksum. *)
Definition table_at (rd : reader) (p : N) (sig : bytes) : option bytes :=
  hdr ← rd p 36;
  t ← rd p (from_le (slice 4 4 hdr));
  if bool_decide (take 4 t = sig) && (sum8 t =? 0) then Some t else None.

(** The first of the listed tables with a signature. *)
Fixpoint find_table (rd : reader) (ps : list N) (sig : bytes) : option bytes :=
  match ps with
  | [] => None
  | p :: ps =>
      hdr ← rd p 36;
      if bool_decide (take 4 hdr = sig) then table_at rd p sig else find_table rd ps sig
  end.

(** The 64-bit pointers of an XSDT body. *)
Fixpoint le64s (n : nat) (bs : bytes) : list N :=
  match n with O => [] | S n => from_le (take 8 bs) :: le64s n (drop 8 bs) end.

Inductive madt_entry :=
| LocalApic (processor apic flags : N)
| IoApicEntry (id addr gsi_base : N).

#[global] Instance madt_entry_eq_dec : EqDecision madt_entry.
Proof. solve_decision. Defined.

(** Entries carry their type and length. *)
Fixpoint madt_entries (fuel : nat) (bs : bytes) : option (list madt_entry) :=
  match fuel, bs with
  | _, [] => Some []
  | S fuel, 0 :: 8 :: p :: a :: r =>
      l ← madt_entries fuel (drop 4 r);
      Some (LocalApic p a (from_le (take 4 r)) :: l)
  | S fuel, 1 :: 12 :: i :: _ :: r =>
      l ← madt_entries fuel (drop 8 r);
      Some (IoApicEntry i (from_le (take 4 r)) (from_le (slice 4 4 r)) :: l)
  | _, _ => None
  end.

Record acpi_view := {
  av_lapic : N;
  av_entries : list madt_entry;
  av_ecam : N;
  av_reset : N * N;
  av_aml : bytes
}.

Definition acpi_scan (rd : reader) : option acpi_view :=
  rsdp ← rd RSDP_ADDR 36;
  if bool_decide (take 8 rsdp = bstr "RSD PTR ") && (sum8 (take 20 rsdp) =? 0) && (sum8 rsdp =? 0) then
    xsdt ← table_at rd (from_le (slice 24 8 rsdp)) (bstr "XSDT");
    let ps := le64s ((length xsdt - 36) / 8) (drop 36 xsdt) in
    fadt ← find_table rd ps (bstr "FACP");
    madt ← find_table rd ps (bstr "APIC");
    mcfg ← find_table rd ps (bstr "MCFG");
    dsdt ← table_at rd (from_le (slice 140 8 fadt)) (bstr "DSDT");
    entries ← madt_entries (length madt) (drop 44 madt);
    Some {| av_lapic := from_le (slice 36 4 madt); av_entries := entries;
            av_ecam := from_le (slice 44 8 mcfg);
            av_reset := (from_le (slice 120 8 fadt), nth 128 fadt 0); av_aml := drop 36 dsdt |}
  else None.

(** ** Building a table *)

(** A builder that works on a prefix leaves what follows alone. *)
Definition local_in (f : M bytes unit) : Prop :=
  forall a z a', f a = (Ok tt, a') -> f (a ++ z) = (Ok tt, a' ++ z).

Lemma splice_prefix i d (a z : bytes) :
  (i + length d <= length a)%nat -> splice i d (a ++ z) = splice i d a ++ z.
Proof. intros H. unfold splice. rewrite take_app_le, drop_app_le by lia. by rewrite <- !app_assoc. Qed.

Lemma put_local i d : local_in (put i d).
Proof.
  intros a z a'. unfold put. rewrite lenN_app.
  destruct (N.leb_spec (i + lenN d) (lenN a)) as [H|]; [|done]. intros [= <-].
  destruct (N.leb_spec (i + lenN d) (lenN a + lenN z)); [|lia]. f_equal.
  apply splice_prefix. unfold lenN in H. lia.
Qed.

Lemma bind_local f g : local_in f -> local_in g -> local_in (bind f (fun _ => g)).
Proof.
  intros Hf Hg a z a'. unfold bind. destruct (f a) as [[[]|e| |] a1] eqn:E; [|done..].
  rewrite (Hf _ z _ E). apply Hg.
Qed.

(** Filling a zeroed buffer from front to back. *)
Lemma put_next a d z : lenN d <= lenN z -> put (lenN a) d (a ++ z) = (Ok tt, (a ++ d) ++ drop (length d) z).
Proof.
  intros H. unfold put. rewrite lenN_app. destruct (N.leb_spec (lenN a + lenN d) (lenN a + lenN z)); [|lia].
  f_equal. unfold lenN in *. rewrite Nat2N.id. unfold splice.
  rewrite take_app_length, drop_app_ge by lia. rewrite <- app_assoc. do 3 f_equal. lia.
Qed.

Lemma put_zeros off a d k :
  off = lenN a -> put off d (a ++ repeat 0 (length d + k)) = (Ok tt, (a ++ d) ++ repeat 0 k).
Proof.
  intros ->. rewrite put_next by (unfold lenN; rewrite repeat_length; lia).
  rewrite repeat_app, drop_app_length'; [done|]. by rewrite repeat_length.
Qed.

Definition lapic_bytes (i : u8) : bytes := [0; 8; i; i; 1; 0; 0; 0].

Lemma lapics_spec ids : forall a off k,
  off = lenN a ->
  lapics ids off (a ++ repeat 0 (8 * length ids + k))
  = (Ok (off + 8 * lenN ids), (a ++ concat (map lapic_bytes ids)) ++ repeat 0 k).
Proof.
  induction ids as [|i ids IH]; intros a off k ->.
  { cbn [lapics map concat length Nat.mul Nat.add]. unfold ret. rewrite app_nil_r. change (8 * lenN []) with 0. by rewrite N.add_0_r. }
  cbn [lapics]. unfold bind.
  replace (8 * length (i :: ids) + k)%nat with (1 + (1 + (1 + (1 + (4 + (8 * length ids + k))))))%nat by (simpl; lia).
  rewrite (put_zeros _ a [0]) by done.
  rewrite (put_zeros _ (a ++ [0]) [8]) by (by rewrite !lenN_app).
  rewrite (put_zeros _ ((a ++ [0]) ++ [8]) [i]) by (rewrite !lenN_app; unfold lenN; simpl; lia).
  rewrite (put_zeros _ (((a ++ [0]) ++ [8]) ++ [i]) [i]) by (rewrite !lenN_app; unfold lenN; simpl; lia).
  rewrite (put_zeros _ ((((a ++ [0]) ++ [8]) ++ [i]) ++ [i]) (le_bytes 4 1))
    by (rewrite !lenN_app; unfold lenN; simpl; lia).
  rewrite IH by (rewrite !lenN_app; unfold lenN; simpl; lia).
  cbn [map concat]. rewrite <- !app_assoc. do 2 f_equal. unfold lenN. simpl length. lia.
Qed.

Lemma not8 s : s < 256 -> U.not 8 s = 255 - s.
Proof.
  intros H. unfold U.not. change (N.lxor s (N.ones 8)) with (N.lnot s 8).
  destruct (decide (s = 0)) as [->|Hs]; [done|]. apply N.lnot_sub_low. apply N.log2_lt_pow2; [lia|done].
Qed.

Lemma acpi_checksum_zero b : (acpi_checksum b + sumN b) mod 2 ^ 8 = 0.
Proof.
  unfold acpi_checksum. rewrite sum8_eq. pose proof (wrap_range 8 (sumN b)) as Hr. unfold in_u, U.wrap in Hr.
  rewrite not8 by exact Hr. unfold U.add, U.wrap. change (2 ^ 8) with 256 in *.
  pose proof (N.div_mod' (sumN b) 256). clear Hr. dlia.
Qed.

(** ** Valid tables *)

Definition valid_table (sig t : bytes) : Prop :=
  36 <= lenN t /\ from_le (slice 4 4 t) = lenN t /\ take 4 t = sig /\ sum8 t = 0.

#[global] Instance valid_table_dec sig t : Decision (valid_table sig t).
Proof. unfold valid_table. apply _. Defined.

Definition holds (m : GuestMemory) (p : N) (t : bytes) : Prop := read_at p (lenN t) m = (Ok t, m).

Lemma holds_prefix m p t n : holds m p t -> n <= lenN t -> rd m p n = Some (take (N.to_nat n) t).
Proof.
  intros H Hn. rewrite (read_at_sub p t m p n) by (done || lia). rewrite N.sub_diag. done.
Qed.

Lemma slice_take {A} i n k (l : list A) : (i + n <= k)%nat -> slice i n (take k l) = slice i n l.
Proof. intros H. unfold slice. rewrite skipn_firstn_comm, take_take. f_equal. lia. Qed.

Lemma table_at_ok m p sig t : valid_table sig t -> holds m p t -> table_at (rd m) p sig = Some t.
Proof.
  intros (H1 & H2 & H3 & H4) Hh. unfold table_at. rewrite (holds_prefix _ _ _ _ Hh H1). cbn [mbind option_bind].
  rewrite slice_take by lia. rewrite H2, (holds_prefix _ _ _ _ Hh) by lia. cbn [mbind option_bind].
  rewrite (take_ge t (N.to_nat (lenN t))) by (unfold lenN; lia). rewrite H3, H4, bool_decide_true by done. done.
Qed.

Lemma find_table_ok m p ps sig sig' t :
  valid_table sig' t -> holds m p t ->
  find_table (rd m) (p :: ps) sig = if bool_decide (sig' = sig) then Some t else find_table (rd m) ps sig.
Proof.
  intros Hv Hh. cbn [find_table]. rewrite (holds_prefix _ _ _ _ Hh) by apply Hv. cbn [mbind option_bind].
  rewrite take_take. change (4 `min` N.to_nat 36)%nat with 4%nat.
  destruct (Hv) as (_ & _ & -> & _). case_bool_decide as E; [|done]. subst. by apply table_at_ok.
Qed.

(** ** The MADT *)

Lemma bind3_run {S A} (f g h : M S unit) (k : M S A) s s' :
  (do! f in do! g in h) s = (Ok tt, s') -> (do! f in do! g in do! h in k) s = k s'.
Proof.
  unfold bind. destruct (f s) as [[[]|e| |] s1]; [|done..]. destruct (g s1) as [[[]|e| |] s2]; [|done..].
  by intros ->.
Qed.

Definition madt_fixed (len : u32) : M bytes unit :=
  do! write_header (bstr "APIC") len 3 in
  do! put 36 (le_bytes 4 LAPIC_ADDR) in
  put 40 (le_bytes 4 1).

Lemma madt_fixed_local len : local_in (madt_fixed len).
Proof. unfold madt_fixed, write_header. repeat apply bind_local; apply put_local. Qed.

Lemma madt_fixed_spec len : exists h,
  madt_fixed len (repeat 0 44) = (Ok tt, h) /\ length h = 44%nat /\ slice 4 4 h = le_bytes 4 len /\
  take 4 h = bstr "APIC" /\ h !! 9%nat = Some 0 /\ slice 36 4 h = le_bytes 4 LAPIC_ADDR.
Proof.
  unfold madt_fixed, write_header. pose proof (length_le_bytes 4 len) as Hl.
  destruct (le_bytes 4 len) as [|b0 [|b1 [|b2 [|b3 [|b4 r]]]]]; try discriminate Hl. clear Hl.
  eexists. split; [vm_compute; reflexivity|]. repeat split; vm_compute; reflexivity.
Qed.

Definition ioapic_entry : bytes := [1; 12; 0; 0] ++ le_bytes 4 IOAPIC_ADDR ++ le_bytes 4 0.

(** The tail of the builder: the IOAPIC entry in the last twelve bytes. *)
Lemma madt_tail a off :
  off = lenN a ->
  (do! put off [1] in do! put (off + 1) [12] in do! put (off + 2) [0] in do! put (off + 3) [0] in
   do! put (off + 4) (le_bytes 4 IOAPIC_ADDR) in do! put (off + 8) (le_bytes 4 0) in seal) (a ++ repeat 0 12)
  = seal (a ++ ioapic_entry).
Proof.
  intros ->. unfold bind.
  change (repeat 0 12) with (repeat 0 (length [1] + 11)). rewrite put_zeros by done.
  change (repeat 0 11) with (repeat 0 (length [12] + 10)). rewrite put_zeros by (by rewrite !lenN_app).
  change (repeat 0 10) with (repeat 0 (length [0] + 9)).
  rewrite put_zeros by (rewrite !lenN_app; unfold lenN; simpl; lia).
  change (repeat 0 9) with (repeat 0 (length [0] + 8)).
  rewrite put_zeros by (rewrite !lenN_app; unfold lenN; simpl; lia).
  change (repeat 0 8) with (repeat 0 (length (le_bytes 4 IOAPIC_ADDR) + 4)).
  rewrite put_zeros by (rewrite !lenN_app; unfold lenN; simpl; lia).
  change (repeat 0 4) with (repeat 0 (length (le_bytes 4 0) + 0)).
  rewrite put_zeros by (rewrite !lenN_app; unfold lenN; simpl length; lia).
  cbn [repeat]. rewrite app_nil_r, <- !app_assoc. done.
Qed.

Definition madt_body (num_cpus : N) : bytes := concat (map lapic_bytes (cpu_ids num_cpus)) ++ ioapic_entry.

Lemma length_lapics ids : length (concat (map lapic_bytes ids)) = (8 * length ids)%nat.
Proof. induction ids as [|i ids IH]; [done|]. cbn [map concat]. rewrite length_app, IH. simpl. lia. Qed.

Lemma length_cpu_ids n : length (cpu_ids n) = N.to_nat n.
Proof. unfold cpu_ids. by rewrite length_map, length_seq. Qed.

(** What the builder leaves: the fixed part, one entry per CPU, the IOAPIC,
    and the checksum in byte 9. *)
Lemma madt_eq n : exists h,
  madt_table n = Ok (splice 9 [acpi_checksum (h ++ madt_body n)] (h ++ madt_body n)) /\
  length h = 44%nat /\ slice 4 4 h = le_bytes 4 (44 + 8 * n + 12) /\
  take 4 h = bstr "APIC" /\ h !! 9%nat = Some 0 /\ slice 36 4 h = le_bytes 4 LAPIC_ADDR.
Proof.
  destruct (madt_fixed_spec (44 + 8 * n + 12)) as (h & E & Hh & Hrest). exists h. split; [|done].
  unfold madt_table, build.
  replace (N.to_nat (44 + 8 * n + 12)) with (44 + (8 * length (cpu_ids n) + 12))%nat
    by (rewrite length_cpu_ids; lia).
  rewrite repeat_app. erewrite bind3_run by (apply madt_fixed_local; exact E).
  unfold bind at 1. rewrite lapics_spec by (unfold lenN; by rewrite Hh).
  cbn beta iota. rewrite madt_tail.
  2:{ rewrite lenN_app. unfold lenN. rewrite length_lapics, Hh. lia. }
  rewrite <- app_assoc. fold (madt_body n). unfold seal, bind, get, put. rewrite lenN_app.
  destruct (N.leb_spec (9 + lenN [acpi_checksum (h ++ madt_body n)]) (lenN h + lenN (madt_body n))) as [|Hlt]; [done|].
  exfalso. unfold lenN in Hlt. simpl length in Hlt. lia.
Qed.

Lemma lenN_madt_body n : lenN (madt_body n) = 8 * n + 12.
Proof. unfold madt_body. rewrite lenN_app. unfold lenN. rewrite length_lapics, length_cpu_ids. simpl. lia. Qed.

Lemma madt_entries_body ids fuel :
  (length ids < fuel)%nat ->
  madt_entries fuel (concat (map lapic_bytes ids) ++ ioapic_entry)
  = Some (map (fun i => LocalApic i i 1) ids ++ [IoApicEntry 0 IOAPIC_ADDR 0]).
Proof.
  revert fuel. induction ids as [|i ids IH]; intros [|fuel] Hf; simpl in Hf; try lia.
  - by destruct fuel.
  - cbn [map concat lapic_bytes app madt_entries drop take]. rewrite IH by lia. done.
Qed.

Lemma madt_ok n : in_u 8 n -> exists t,
  madt_table n = Ok t /\ valid_table (bstr "APIC") t /\ lenN t = 44 + 8 * n + 12 /\
  from_le (slice 36 4 t) = LAPIC_ADDR /\
  madt_entries (length t) (drop 44 t) = Some (map (fun i => LocalApic i i 1) (cpu_ids n) ++ [IoApicEntry 0 IOAPIC_ADDR 0]).
Proof.
  intros Hn. unfold in_u in Hn. destruct (madt_eq n) as (h & -> & Hh & H4 & Hs & H9 & H36). eexists. split; [done|].
  set (b := h ++ madt_body n). set (c := acpi_checksum b).
  assert (Hb : lenN b = 44 + 8 * n + 12) by (unfold b; rewrite lenN_app, lenN_madt_body; unfold lenN; rewrite Hh; lia).
  assert (Hin : (9 + length [c] <= length b)%nat) by (unfold lenN in Hb; simpl; lia).
  assert (Hlen : lenN (splice 9 [c] b) = 44 + 8 * n + 12) by (unfold lenN; rewrite length_splice by done; exact Hb).
  assert (Hsl : forall i k, (i + k <= 9 \/ 10 <= i /\ i + k <= 44)%nat -> slice i k (splice 9 [c] b) = slice i k h).
  { intros i k Hik. rewrite slice_splice_disjoint; [|done|simpl; lia]. unfold b, slice.
    rewrite drop_app_le, take_app_le by (rewrite ?length_drop; lia). done. }
  split_and!.
  - split_and!.
    + lia.
    + rewrite Hsl by lia. rewrite H4, from_le_bytes_small by (unfold in_u; lia). by rewrite Hlen.
    + change (take 4 (splice 9 [c] b)) with (slice 0 4 (splice 9 [c] b)). rewrite Hsl by lia. exact Hs.
    + apply seal_sum; [simpl in Hin; lia| |apply acpi_checksum_zero].
      unfold b. rewrite lookup_app_l by lia. exact H9.
  - done.
  - rewrite Hsl by lia. by rewrite H36.
  - replace (drop 44 (splice 9 [c] b)) with (madt_body n).
    + apply madt_entries_body. rewrite length_splice by done. rewrite length_cpu_ids. unfold lenN in Hb. lia.
    + unfold b. rewrite splice_prefix by (simpl; lia). rewrite drop_app_length'; [done|].
      rewrite length_splice; simpl; lia.
Qed.

(** ** The other tables, which are constant *)

Lemma dsdt_ok : exists t aml,
  dsdt_table = Ok t /\ dsdt_aml = Ok aml /\ valid_table (bstr "DSDT") t /\ lenN t = 120 /\ drop 36 t = aml.
Proof. eexists _, _. split; [vm_compute; reflexivity|]. split; [vm_compute; reflexivity|]. split; [by_eval|by split]. Qed.

Lemma fadt_ok : exists t,
  fadt_table = Ok t /\ valid_table (bstr "FACP") t /\ lenN t = 276 /\
  from_le (slice 140 8 t) = DSDT_GPA /\ from_le (slice 120 8 t) = 0xcf9 /\ nth 128 t 0 = 6.
Proof. eexists. split; [vm_compute; reflexivity|]. split; [by_eval|by split_and!]. Qed.

Lemma mcfg_ok : exists t,
  mcfg_table = Ok t /\ valid_table (bstr "MCFG") t /\ lenN t = 60 /\ from_le (slice 44 8 t) = PCI_MMCONFIG_START.
Proof. eexists. split; [vm_compute; reflexivity|]. split; [by_eval|by split_and!]. Qed.

Lemma xsdt_ok : exists t,
  xsdt_table = Ok t /\ valid_table (bstr "XSDT") t /\ lenN t = 60 /\
  le64s ((length t - 36) / 8) (drop 36 t) = [FADT; MADT; MCFG].
Proof. eexists. split; [vm_compute; reflexivity|]. split; [by_eval|by split_and!]. Qed.

Lemma rsdp_ok : exists t,
  rsdp_table = Ok t /\ lenN t = 36 /\ from_le (slice 24 8 t) = XSDT /\
  bool_decide (take 8 t = bstr "RSD PTR ") && (sum8 (take 20 t) =? 0) && (sum8 t =? 0) = true.
Proof. eexists. split; [vm_compute; reflexivity|]. by split_and!. Qed.

(** ** The reader finds what was written *)

Lemma acpi_scan_holds m rsdp xsdt fadt madt mcfg dsdt entries :
  holds m RSDP_ADDR rsdp -> lenN rsdp = 36 -> from_le (slice 24 8 rsdp) = XSDT ->
  bool_decide (take 8 rsdp = bstr "RSD PTR ") && (sum8 (take 20 rsdp) =? 0) && (sum8 rsdp =? 0) = true ->
  holds m XSDT xsdt -> valid_table (bstr "XSDT") xsdt ->
  le64s ((length xsdt - 36) / 8) (drop 36 xsdt) = [FADT; MADT; MCFG] ->
  holds m FADT fadt -> valid_table (bstr "FACP") fadt -> from_le (slice 140 8 fadt) = DSDT_GPA ->
  holds m MADT madt -> valid_table (bstr "APIC") madt ->
  holds m MCFG mcfg -> valid_table (bstr "MCFG") mcfg ->
  holds m DSDT_GPA dsdt -> valid_table (bstr "DSDT") dsdt ->
  madt_entries (length madt) (drop 44 madt) = Some entries ->
  acpi_scan (rd m) =
    Some {| av_lapic := from_le (slice 36 4 madt); av_entries := entries;
            av_ecam := from_le (slice 44 8 mcfg);
            av_reset := (from_le (slice 120 8 fadt), nth 128 fadt 0); av_aml := drop 36 dsdt |}.
Proof.
  intros Hr Hr36 Hrx Hrs Hx Hxv Hps Hf Hfv Hfd Ha Hav Hm Hmv Hd Hdv He. unfold acpi_scan.
  rewrite (holds_prefix _ _ _ 36 Hr) by lia. cbn [mbind option_bind].
  rewrite (take_ge rsdp (N.to_nat 36)) by (unfold lenN in Hr36; lia). rewrite Hrs, Hrx.
  rewrite (table_at_ok _ _ _ _ Hxv Hx). cbn [mbind option_bind]. rewrite Hps.
  rewrite !(find_table_ok _ _ _ _ _ _ Hfv Hf), !(find_table_ok _ _ _ _ _ _ Hav Ha), !(find_table_ok _ _ _ _ _ _ Hmv Hm).
  rewrite (bool_decide_true (bstr "FACP" = bstr "FACP")), (bool_decide_true (bstr "APIC" = bstr "APIC")),
    (bool_decide_true (bstr "MCFG" = bstr "MCFG")), (bool_decide_false (bstr "FACP" = bstr "APIC")),
    (bool_decide_false (bstr "FACP" = bstr "MCFG")), (bool_decide_false (bstr "APIC" = bstr "MCFG")) by done.
  cbn [mbind option_bind].
  rewrite Hfd, (table_at_ok _ _ _ _ Hdv Hd). cbn [mbind option_bind]. by rewrite He.
Qed.

(** for every CPU count and every RAM that reaches past the RSDP, the ACPI
    tables are installed without error or panic, change only their pages below
    the RSDP and its 36 bytes, and a reader that follows the pointers from the
    RSDP and verifies every signature, length and checksum finds one enabled
    local APIC per CPU in order, the IOAPIC, the ECAM window, the reset
    register and the DSDT's AML. *)
Theorem acpi_tables_readable m num_cpus
    (Hn : in_u 8 num_cpus) (Hram : RSDP_ADDR + 36 <= mem_len m < 2 ^ 64) :
  exists m' aml, write_tables num_cpus m = (Ok RSDP_ADDR, m') /\
    mem_frame (fun a => in_range FADT 0x5000 a \/ in_range RSDP_ADDR 36 a) m m' /\
    dsdt_aml = Ok aml /\
    acpi_scan (rd m') =
      Some {| av_lapic := LAPIC_ADDR;
              av_entries := map (fun i => LocalApic i i 1) (cpu_ids num_cpus) ++ [IoApicEntry 0 IOAPIC_ADDR 0];
              av_ecam := PCI_MMCONFIG_START; av_reset := (0xcf9, 6); av_aml := aml |}.
Proof.
  destruct dsdt_ok as (dsdt & aml & Ed & Eaml & Vd & Ld & Daml). destruct fadt_ok as (fadt & Ef & Vf & Lf & F1 & F2 & F3).
  destruct (madt_ok num_cpus Hn) as (madt & Em & Vm & Lm & M1 & M2). destruct mcfg_ok as (mcfg & Ec & Vc & Lc & C1).
  destruct xsdt_ok as (xsdt & Ex & Vx & Lx & X1). destruct rsdp_ok as (rsdp & Er & Lr & R1 & R2). unfold in_u in Hn.
  set (ts := [(DSDT_GPA, dsdt); (FADT, fadt); (MADT, madt); (MCFG, mcfg); (XSDT, xsdt); (RSDP_ADDR, rsdp)]).
  destruct (install_spec ts m) as (m' & Ei & Hf & Hr).
  { unfold ts. repeat constructor; rewrite in_ram_spec; rewrite ?Ld, ?Lf, ?Lm, ?Lc, ?Lx, ?Lr;
      unfold DSDT_GPA, FADT, MADT, MCFG, XSDT, RSDP_ADDR in *; lia. }
  { unfold ts. cbn [apart_tables clear_of forallb]. rewrite ?Ld, ?Lf, ?Lm, ?Lc, ?Lx, ?Lr.
    unfold DSDT_GPA, FADT, MADT, MCFG, XSDT, RSDP_ADDR in *.
    repeat match goal with |- (_ && _) = true => apply andb_true_iff; split end; try reflexivity;
      apply orb_true_iff; rewrite !N.leb_le; lia. }
  exists m', aml. split_and!; [| |done|].
  - unfold ts, install, bind in Ei. unfold write_tables, lift, bind. rewrite Ed, Ef, Em, Ec, Ex, Er.
    repeat (destruct (write_at _ _ _) as [[[]|?| |] ?]; [|done..]). by injection Ei as <-.
  - eapply mem_frame_mono; [|exact Hf]. intros a (g & b & Hin & Hra). unfold ts in Hin.
    unfold DSDT_GPA, FADT, MADT, MCFG, XSDT, RSDP_ADDR, in_range in *.
    repeat (apply elem_of_cons in Hin as [[= -> ->]|Hin]; [rewrite ?Ld, ?Lf, ?Lm, ?Lc, ?Lx, ?Lr in Hra; lia|]).
    exfalso. exact (not_elem_of_nil _ Hin).
  - assert (H0 : holds m' DSDT_GPA dsdt) by (apply Hr; left).
    assert (H1 : holds m' FADT fadt) by (apply Hr; do 1 right; left).
    assert (H2 : holds m' MADT madt) by (apply Hr; do 2 right; left).
    assert (H3 : holds m' MCFG mcfg) by (apply Hr; do 3 right; left).
    assert (H4 : holds m' XSDT xsdt) by (apply Hr; do 4 right; left).
    assert (H5 : holds m' RSDP_ADDR rsdp) by (apply Hr; do 5 right; left).
    rewrite (acpi_scan_holds m' rsdp xsdt fadt madt mcfg dsdt _ H5 Lr R1 R2 H4 Vx X1 H1 Vf F1 H2 Vm H3 Vc H0 Vd M2).
    rewrite M1, C1, F2, F3, Daml. reflexivity.
Qed.

Lemma acpi_tables_readable_witness :
  let m := {| ram := repeat 0 (N.to_nat 0xe0024) |} in
  exists m' aml, write_tables 2 m = (Ok RSDP_ADDR, m') /\
    mem_frame (fun a => in_range FADT 0x5000 a \/ in_range RSDP_ADDR 36 a) m m' /\
    dsdt_aml = Ok aml /\
    acpi_scan (rd m') =
      Some {| av_lapic := LAPIC_ADDR;
              av_entries := map (fun i => LocalApic i i 1) (cpu_ids 2) ++ [IoApicEntry 0 IOAPIC_ADDR 0];
              av_ecam := PCI_MMCONFIG_START; av_reset := (0xcf9, 6); av_aml := aml |}.
Proof.
  intros m. apply (acpi_tables_readable m 2); [done|]. unfold mem_len, lenN, m, ram. rewrite repeat_length.
  rewrite N2Nat.id. by unfold RSDP_ADDR.
Defined.

(** ** Package lengths and identifiers *)

(** [PkgLength] by the AML rules: the top two bits of the lead byte count the
    bytes that follow it. *)
Definition pkg_len_of (bs : bytes) : option N :=
  match bs with
  | b :: r =>
      if N.shiftr b 6 =? 0 then Some b
      else match N.shiftr b 6, r with
           | 1, b1 :: _ => Some (N.land b 0xf + 16 * b1)
           | 2, b1 :: b2 :: _ => Some (N.land b 0xf + 16 * b1 + 4096 * b2)
           | _, _ => None
           end
  | [] => None
  end.

(** The compressed id an operating system reads from a [DWordPrefix] constant:
    three letters and a four-digit product, most significant byte first. *)
Definition eisa_read (bs : bytes) : N := from_be bs.

(** The identifiers in the DSDT are stored byte-reversed: what is read back is
    the id that [to_be_bytes] would have stored, backwards. *)
Example dsdt_hid_reversed :
  eisa_read (le_bytes 4 (eisa_id (bstr "PNP0A08"))) = 0x080ad041 /\
  eisa_id (bstr "PNP0A08") = 0x41d00a08.
Proof. split; vm_compute; reflexivity. Qed.

(** A lead byte of [k] following bytes carries the low nibble. *)
Lemma lead_byte len k : k < 4 ->
  N.lor (U.wrap 8 (N.land len 0xf)) (64 * k) = len mod 16 + 64 * k /\
  N.shiftr (len mod 16 + 64 * k) 6 = k /\ N.land (len mod 16 + 64 * k) 0xf = len mod 16.
Proof.
  intros Hk. change 0xf with (N.ones 4). rewrite !N.land_ones. change (2 ^ 4) with 16.
  rewrite wrap_small by (unfold in_u; dlia). split_and!.
  - replace (64 * k) with (N.shiftl k 6) by (rewrite N.shiftl_mul_pow2; change (2 ^ 6) with 64; lia).
    rewrite lor_shiftl_add by (unfold in_u; dlia). rewrite N.shiftl_mul_pow2. reflexivity.
  - rewrite N.shiftr_div_pow2. change (2 ^ 6) with 64. dlia.
  - dlia.
Qed.

Lemma pkg_len_encode len r : len < 2 ^ 20 -> pkg_len_of (encode_pkg_len len ++ r) = Some len.
Proof.
  intros Hl. unfold encode_pkg_len. destruct (N.ltb_spec len 0x40); [|destruct (N.ltb_spec len 0x1000)]; cbn [app pkg_len_of].
  - rewrite wrap_small by (unfold in_u; lia). rewrite N.shiftr_div_pow2, N.div_small by done. reflexivity.
  - destruct (lead_byte len 1) as (E1 & E2 & E3); [lia|]. change (64 * 1) with 0x40 in *. rewrite E1, E2, E3. cbn [N.eqb Pos.eqb].
    f_equal. rewrite N.shiftr_div_pow2, wrap_small by (unfold in_u; change (2 ^ 4) with 16; dlia). change (2 ^ 4) with 16. dlia.
  - destruct (lead_byte len 2) as (E1 & E2 & E3); [lia|]. change (64 * 2) with 0x80 in *. rewrite E1, E2, E3. cbn [N.eqb Pos.eqb].
    f_equal. rewrite !N.shiftr_div_pow2. change 0xff with (N.ones 8). rewrite !N.land_ones.
    change (2 ^ 4) with 16. change (2 ^ 12) with 4096. change (2 ^ 8) with 256.
    rewrite !wrap_small by (unfold in_u; dlia). dlia.
Qed.

Lemma encode_width len : lenN (encode_pkg_len len) = if len <? 0x40 then 1 else if len <? 0x1000 then 2 else 3.
Proof. unfold encode_pkg_len. by repeat case_match. Qed.

(** [push_pkg] always finds a width for the package length, and the length
    it encodes is, by the AML rules, that of the length field, the name and the
    body together. *)
Theorem aml_package_length op name body (Hlen : lenN name + lenN body + 3 < 2 ^ 20) :
  exists enc, push_pkg op name body = Ok (op ++ enc ++ name ++ body) /\
    pkg_len_of (enc ++ name ++ body) = Some (lenN (enc ++ name ++ body)).
Proof.
  set (p := lenN name + lenN body).
  assert (Hok : forall w, w <= 3 -> lenN (encode_pkg_len (w + p)) = w ->
    pkg_len_of (encode_pkg_len (w + p) ++ name ++ body) = Some (lenN (encode_pkg_len (w + p) ++ name ++ body))).
  { intros w Hw Hl. rewrite pkg_len_encode by (unfold p; lia). by rewrite !lenN_app, Hl. }
  unfold push_pkg. cbn [pkg_loop]. fold p.
  destruct (N.eqb_spec (lenN (encode_pkg_len (1 + p))) 1) as [E1|N1]; [eauto with lia|].
  destruct (N.eqb_spec (lenN (encode_pkg_len (lenN (encode_pkg_len (1 + p)) + p))) (lenN (encode_pkg_len (1 + p)))) as [E2|N2].
  { eexists. split; [done|]. apply Hok; [rewrite encode_width; repeat case_match; lia|done]. }
  set (w := lenN (encode_pkg_len (lenN (encode_pkg_len (1 + p)) + p))) in *.
  assert (Hw : w = 3 /\ lenN (encode_pkg_len (w + p)) = w).
  { revert N1 N2. unfold w. rewrite !encode_width. repeat case_match; rewrite ?N.ltb_lt, ?N.ltb_ge in *; lia. }
  destruct Hw as [Hw3 Hww]. rewrite Hww, N.eqb_refl. eexists. split; [done|]. apply Hok; [lia|done].
Qed.

Lemma aml_package_length_witness :
  exists enc, push_pkg [0x10] (bstr "_SB_") (repeat 0 300) = Ok ([0x10] ++ enc ++ bstr "_SB_" ++ repeat 0 300) /\
    pkg_len_of (enc ++ bstr "_SB_" ++ repeat 0 300) = Some (lenN (enc ++ bstr "_SB_" ++ repeat 0 300)).
Proof. apply (aml_package_length [0x10] (bstr "_SB_") (repeat 0 300)). vm_compute. reflexivity. Defined.
