(* ===== verification/VirtioVsock.v ===== *)
(** * virtio-vsock

    [crates/fluxvm-hypervisor/src/devices/virtio_vsock.rs]: the packet header,
    the host-side connection table and its state machine, the virtqueue handlers.
    A host socket is what its next reads give and how its next writes end, with
    the bytes written so far; the listener is what its next [accept]s give.  The
    order in which the connection table is walked (a [HashMap]'s) is a
    parameter. *)

From stdpp Require Import prelude list gmap.
From Stdlib Require Import NArith Lia.
From S2P Require Import Prelude RustStr GuestMemory Virtqueue VirtioMmio.

Definition VSOCK_HOST_CID : u32 := 2.
Definition VSOCK_TYPE_STREAM : u16 := 1.
Definition VSOCK_OP_INVALID : u16 := 0.
Definition VSOCK_OP_REQUEST : u16 := 1.
Definition VSOCK_OP_RESPONSE : u16 := 2.
Definition VSOCK_OP_RST : u16 := 3.
Definition VSOCK_OP_SHUTDOWN : u16 := 4.
Definition VSOCK_OP_RW : u16 := 5.
Definition VSOCK_OP_CREDIT_UPDATE : u16 := 6.
Definition VSOCK_OP_CREDIT_REQUEST : u16 := 7.
Definition DEFAULT_BUF_ALLOC : u32 := 128 * 1024.
Definition HDR_LEN : usize := 44.
Definition MAX_RW_CHUNK : usize := 4096.

(** ** Packet headers *)

Record VsockHeader := {
  src_cid : u64; dst_cid : u64; src_port : u32; dst_port : u32; h_len : u32;
  type_ : u16; op : u16; flags : u32; buf_alloc : u32; fwd_cnt : u32;
}.

Definition encode (h : VsockHeader) : bytes :=
  le_bytes 8 (src_cid h) ++ le_bytes 8 (dst_cid h) ++ le_bytes 4 (src_port h) ++
  le_bytes 4 (dst_port h) ++ le_bytes 4 (h_len h) ++ le_bytes 2 (type_ h) ++ le_bytes 2 (op h) ++
  le_bytes 4 (flags h) ++ le_bytes 4 (buf_alloc h) ++ le_bytes 4 (fwd_cnt h).

Definition decode (raw : bytes) : option VsockHeader :=
  if lenN raw <? HDR_LEN then None
  else Some {|
    src_cid := from_le (slice 0 8 raw); dst_cid := from_le (slice 8 8 raw);
    src_port := from_le (slice 16 4 raw); dst_port := from_le (slice 20 4 raw);
    h_len := from_le (slice 24 4 raw); type_ := from_le (slice 28 2 raw);
    op := from_le (slice 30 2 raw); flags := from_le (slice 32 4 raw);
    buf_alloc := from_le (slice 36 4 raw); fwd_cnt := from_le (slice 40 4 raw) |}.

Definition ctrl (scid dcid : u64) (sport dport : u32) (o : u16) (alloc fwd : u32) : VsockHeader :=
  {| src_cid := scid; dst_cid := dcid; src_port := sport; dst_port := dport; h_len := 0;
     type_ := VSOCK_TYPE_STREAM; op := o; flags := 0; buf_alloc := alloc; fwd_cnt := fwd |}.

Definition with_flags (f : u32) (h : VsockHeader) : VsockHeader :=
  {| src_cid := src_cid h; dst_cid := dst_cid h; src_port := src_port h; dst_port := dst_port h;
     h_len := h_len h; type_ := type_ h; op := op h; flags := f; buf_alloc := buf_alloc h;
     fwd_cnt := fwd_cnt h |}.

(** ** Host sockets *)

Inductive sock_read := SData (d : bytes) | SEof | SBlock | SError.

(** [s_wr]: the next [write_all]s succeed ([None]) or stop after some bytes. *)
Record UnixStream := { s_in : list sock_read; s_wr : list (option nat); s_out : bytes }.

Inductive read_result := RBytes (d : bytes) | RBlock | RError.

(** [stream.read(&mut buf)] with [n = buf.len()]: what does not fit stays. *)
Definition stream_read (n : usize) (s : UnixStream) : read_result * UnixStream :=
  let rest l := {| s_in := l; s_wr := s_wr s; s_out := s_out s |} in
  match s_in s with
  | [] => (RBlock, s)
  | SData d :: l =>
      let got := take (N.to_nat n) d in
      let left := drop (N.to_nat n) d in
      (RBytes got, rest (match left with [] => l | _ => SData left :: l end))
  | SEof :: l => (RBytes [], rest (SEof :: l))
  | SBlock :: l => (RBlock, rest l)
  | SError :: l => (RError, rest l)
  end.

(** [stream.write_all(d)]: whether it succeeded. *)
Definition stream_write_all (d : bytes) (s : UnixStream) : bool * UnixStream :=
  let put o l := {| s_in := s_in s; s_wr := l; s_out := s_out s ++ o |} in
  match s_wr s with
  | Some k :: l => (false, put (take k d) l)
  | None :: l => (true, put d l)
  | [] => (true, put d [])
  end.

(** ** The backend *)

Record PendingHost := { p_stream : UnixStream; p_buf : bytes }.

Record Established := {
  e_stream : UnixStream; e_guest_port : u32; e_host_port : u32; peer_buf_alloc : u32;
  peer_fwd_cnt : u32; tx_cnt : u32; rx_cnt : u32;
}.

Inductive ConnState :=
| WaitResponse (stream : UnixStream) (guest_port host_port : u32)
| Est (est : Established).

Inductive accept_result := Accepted (s : UnixStream) | AcceptError.

Record VsockInner := {
  listener : option (list accept_result);
  pending_hosts : list PendingHost;
  conns : gmap u32 ConnState;
  rx_q : list bytes;
  next_host_port : u32;
  host_buf_alloc : u32;
}.

Record VsockBackend := { be_guest_cid : u32; inner : VsockInner }.

Definition set_conns (c : gmap u32 ConnState) (q : list bytes) (s : VsockInner) : VsockInner :=
  {| listener := listener s; pending_hosts := pending_hosts s; conns := c; rx_q := q;
     next_host_port := next_host_port s; host_buf_alloc := host_buf_alloc s |}.

Definition set_rxq (q : list bytes) (s : VsockInner) : VsockInner := set_conns (conns s) q s.

Definition set_next_port (p : u32) (s : VsockInner) : VsockInner :=
  {| listener := listener s; pending_hosts := pending_hosts s; conns := conns s; rx_q := rx_q s;
     next_host_port := p; host_buf_alloc := host_buf_alloc s |}.

Definition set_pending (l : option (list accept_result)) (ps : list PendingHost) (s : VsockInner)
    : VsockInner :=
  {| listener := l; pending_hosts := ps; conns := conns s; rx_q := rx_q s;
     next_host_port := next_host_port s; host_buf_alloc := host_buf_alloc s |}.

Definition push_pkt (q : list bytes) (h : VsockHeader) (payload : bytes) : list bytes :=
  q ++ [encode h ++ payload].

(** [VsockBackend::new] once the socket is bound ([accepts] is its backlog). *)
Definition new_backend (bound : bool) (accepts : list accept_result) (cid : u32) : outcome VsockBackend :=
  if negb bound then Err Hypervisor
  else Ok {| be_guest_cid := N.max cid 3;
             inner := {| listener := Some accepts; pending_hosts := []; conns := ∅; rx_q := [];
                         next_host_port := 50000; host_buf_alloc := DEFAULT_BUF_ALLOC |} |}.

(** ** Accepting and the CONNECT line *)

Fixpoint accept_loop (l : list accept_result) (ps : list PendingHost) (n : u32)
    : list accept_result * list PendingHost * u32 :=
  match l with
  | Accepted s :: l => accept_loop l (ps ++ [{| p_stream := s; p_buf := [] |}]) (n + 1)
  | AcceptError :: l => (l, ps, n)
  | [] => ([], ps, n)
  end.

Definition accept_pending (s : VsockInner) : u32 * VsockInner :=
  match listener s with
  | None => (0, s)
  | Some l =>
      let '(l, ps, n) := accept_loop l (pending_hosts s) 0 in (n, set_pending (Some l) ps s)
  end.

(** [str::parse::<u32>]: an optional plus sign, at least one digit, no overflow. *)
Fixpoint dec_digits (s : list N) (acc : N) : option N :=
  match s with
  | [] => Some acc
  | c :: s =>
      if (48 <=? c) && (c <=? 57) then
        let acc := acc * 10 + (c - 48) in if acc <? 2 ^ 32 then dec_digits s acc else None
      else None
  end.

Definition parse_u32 (s : list N) : option N :=
  match s with
  | [] => None
  | [c] => if (c =? 43) || (c =? 45) then None else dec_digits [c] 0
  | c :: rest => if c =? 43 then dec_digits rest 0 else dec_digits s 0
  end.

Definition str_CONNECT : list N := [67; 79; 78; 78; 69; 67; 84; 32].
Definition str_connect : list N := [99; 111; 110; 110; 101; 99; 116; 32].

Definition parse_connect (line : list N) : option u32 :=
  let line := trim line in
  match (match strip_prefix str_CONNECT line with Some r => Some r | None => strip_prefix str_connect line end) with
  | Some rest => parse_u32 (trim rest)
  | None => None
  end.

(** [for _ in 0..10_000], with [n] rounds left. *)
Fixpoint alloc_loop (n : nat) (s : VsockInner) : u32 * VsockInner :=
  match n with
  | O => (next_host_port s, s)
  | S n =>
      let p := next_host_port s in
      let s := set_next_port (N.max (U.add 32 p 1) 1024) s in
      match conns s !! p with
      | None => (p, s)
      | Some _ => alloc_loop n s
      end
  end.

Definition alloc_host_port : VsockInner -> u32 * VsockInner := alloc_loop (N.to_nat 10000).

(** [buf.iter().position(|&b| b == b'\n')]: the line with its newline. *)
Fixpoint take_line (buf : bytes) : option bytes :=
  match buf with
  | [] => None
  | b :: r => if b =? 10 then Some [b] else match take_line r with Some l => Some (b :: l) | None => None end
  end.

(** A complete line: the connection it opens, if it is a CONNECT. *)
Definition connect_line (guest_cid : u32) (stream : UnixStream) (line : bytes) (s : VsockInner)
    : u32 * VsockInner :=
  match parse_connect (utf8_lossy (length line) line) with
  | Some port =>
      let '(host_port, s) := alloc_host_port s in
      let hdr := ctrl VSOCK_HOST_CID guest_cid host_port port VSOCK_OP_REQUEST (host_buf_alloc s) 0 in
      (1, set_conns (<[host_port := WaitResponse stream port host_port]> (conns s))
            (push_pkt (rx_q s) hdr []) s)
  | None => (0, s)
  end.

(** The [while i < len] loop: [ps] are the clients from [i] on, [kept] those
    before [i]. *)
Fixpoint drain_loop (guest_cid : u32) (ps kept : list PendingHost) (n : u32) (s : VsockInner)
    : u32 * list PendingHost * VsockInner :=
  match ps with
  | [] => (n, kept, s)
  | p :: ps =>
      match stream_read 256 (p_stream p) with
      | (RBytes [], _) => drain_loop guest_cid ps kept n s
      | (RError, _) => drain_loop guest_cid ps kept n s
      | (RBlock, st) =>
          drain_loop guest_cid ps (kept ++ [{| p_stream := st; p_buf := p_buf p |}]) n s
      | (RBytes d, st) =>
          let buf := p_buf p ++ d in
          match take_line buf with
          | Some line =>
              let '(k, s) := connect_line guest_cid st line s in
              drain_loop guest_cid ps kept (n + k) s
          | None =>
              if 128 <? lenN buf then drain_loop guest_cid ps kept n s
              else drain_loop guest_cid ps (kept ++ [{| p_stream := st; p_buf := buf |}]) n s
          end
      end
  end.

Definition drain_connect_lines (guest_cid : u32) (s : VsockInner) : u32 * VsockInner :=
  let '(n, kept, s') := drain_loop guest_cid (pending_hosts s) [] 0 s in
  (n, set_pending (listener s') kept s').

(** ** Host to guest *)

Inductive Action :=
| CreditRequest (hp gp rx : u32)
| Shutdown (hp gp rx : u32)
| Rst (hp gp rx : u32)
| Rw (hp gp rx : u32) (data : bytes)
| ANone.

Definition with_stream (st : UnixStream) (e : Established) : Established :=
  {| e_stream := st; e_guest_port := e_guest_port e; e_host_port := e_host_port e;
     peer_buf_alloc := peer_buf_alloc e; peer_fwd_cnt := peer_fwd_cnt e; tx_cnt := tx_cnt e;
     rx_cnt := rx_cnt e |}.

Definition with_tx (v : u32) (e : Established) : Established :=
  {| e_stream := e_stream e; e_guest_port := e_guest_port e; e_host_port := e_host_port e;
     peer_buf_alloc := peer_buf_alloc e; peer_fwd_cnt := peer_fwd_cnt e; tx_cnt := v;
     rx_cnt := rx_cnt e |}.

(** Bytes the guest still has room for. *)
Definition credit (e : Established) : u32 := peer_buf_alloc e - U.sub 32 (tx_cnt e) (peer_fwd_cnt e).

(** What one established connection calls for, reading its socket. *)
Definition est_action (e : Established) : Action * Established :=
  let hp := e_host_port e in let gp := e_guest_port e in let rx := rx_cnt e in
  if credit e =? 0 then (CreditRequest hp gp rx, e)
  else
    let '(r, st) := stream_read (N.max (N.min MAX_RW_CHUNK (credit e)) 1) (e_stream e) in
    let e := with_stream st e in
    (match r with
     | RBytes [] => Shutdown hp gp rx
     | RBytes d => Rw hp gp rx d
     | RBlock => ANone
     | RError => Rst hp gp rx
     end, e).

(** One key of the walk. *)
Definition poll_key (guest_cid host_port : u32) (n : u32) (s : VsockInner) : u32 * VsockInner :=
  match conns s !! host_port with
  | Some (Est e) =>
      let '(a, e) := est_action e in
      let s := set_conns (<[host_port := Est e]> (conns s)) (rx_q s) s in
      let hba := host_buf_alloc s in
      match a with
      | ANone => (n, s)
      | CreditRequest hp gp rx =>
          (n + 1, set_rxq (push_pkt (rx_q s)
                    (ctrl VSOCK_HOST_CID guest_cid hp gp VSOCK_OP_CREDIT_REQUEST hba rx) []) s)
      | Shutdown hp gp rx =>
          (n + 1, set_conns (delete host_port (conns s)) (push_pkt (rx_q s)
                    (with_flags 3 (ctrl VSOCK_HOST_CID guest_cid hp gp VSOCK_OP_SHUTDOWN hba rx)) []) s)
      | Rst hp gp rx =>
          (n + 1, set_conns (delete host_port (conns s)) (push_pkt (rx_q s)
                    (ctrl VSOCK_HOST_CID guest_cid hp gp VSOCK_OP_RST hba rx) []) s)
      | Rw hp gp rx data =>
          let k := U.wrap 32 (lenN data) in
          let hdr := {| src_cid := VSOCK_HOST_CID; dst_cid := guest_cid; src_port := hp; dst_port := gp;
                        h_len := k; type_ := VSOCK_TYPE_STREAM; op := VSOCK_OP_RW; flags := 0;
                        buf_alloc := hba; fwd_cnt := rx |} in
          (n + 1, set_conns (<[host_port := Est (with_tx (U.add 32 (tx_cnt e) k) e)]> (conns s))
                    (push_pkt (rx_q s) hdr data) s)
      end
  | _ => (n, s)
  end.

Fixpoint poll_keys (guest_cid : u32) (keys : list u32) (n : u32) (s : VsockInner) : u32 * VsockInner :=
  match keys with
  | [] => (n, s)
  | k :: keys => let '(n, s) := poll_key guest_cid k n s in poll_keys guest_cid keys n s
  end.

Section Poll.
(** The order in which [HashMap::keys] gives the ports. *)
Context (key_order : gmap u32 ConnState -> list u32).

Definition poll_established_host_reads (guest_cid : u32) (s : VsockInner) : u32 * VsockInner :=
  poll_keys guest_cid (key_order (conns s)) 0 s.

Definition poll_host (be : VsockBackend) : u32 * VsockBackend :=
  let cid := be_guest_cid be in
  let '(a, s) := accept_pending (inner be) in
  let '(b, s) := drain_connect_lines cid s in
  let '(c, s) := poll_established_host_reads cid s in
  (a + b + c, {| be_guest_cid := cid; inner := s |}).

End Poll.

(** ** Guest to host *)

(** Decimal digits, as [format!] prints a [u32]. *)
Fixpoint dec_show (fuel : nat) (v : N) : bytes :=
  match fuel with
  | O => []
  | S fuel => (if v <? 10 then [] else dec_show fuel (v / 10)) ++ [48 + v mod 10]
  end.

(** [format!("OK {host_port}\n")] *)
Definition ok_line (host_port : u32) : bytes := [79; 75; 32] ++ dec_show 10 host_port ++ [10].

(** The peer's window, as every data and credit packet carries it. *)
Definition with_peer (h : VsockHeader) (e : Established) : Established :=
  {| e_stream := e_stream e; e_guest_port := e_guest_port e; e_host_port := e_host_port e;
     peer_buf_alloc := if 0 <? buf_alloc h then buf_alloc h else peer_buf_alloc e;
     peer_fwd_cnt := fwd_cnt h; tx_cnt := tx_cnt e; rx_cnt := rx_cnt e |}.

Definition with_rx (st : UnixStream) (v : u32) (e : Established) : Established :=
  {| e_stream := st; e_guest_port := e_guest_port e; e_host_port := e_host_port e;
     peer_buf_alloc := peer_buf_alloc e; peer_fwd_cnt := peer_fwd_cnt e; tx_cnt := tx_cnt e;
     rx_cnt := v |}.

Definition handle_guest_packet (guest_cid : u32) (h : VsockHeader) (payload : bytes) (s : VsockInner)
    : u32 * VsockInner :=
  let hba := host_buf_alloc s in
  let port := dst_port h in
  let send hp gp o rx := push_pkt (rx_q s) (ctrl VSOCK_HOST_CID guest_cid hp gp o hba rx) [] in
  if op h =? VSOCK_OP_RESPONSE then
    match conns s !! port with
    | Some (WaitResponse stream guest_port host_port) =>
        let gport := if negb (src_port h =? 0) then src_port h else guest_port in
        let st := (stream_write_all (ok_line host_port) stream).2 in
        (1, set_conns (<[host_port := Est {|
               e_stream := st; e_guest_port := gport; e_host_port := host_port;
               peer_buf_alloc := N.max (buf_alloc h) 1; peer_fwd_cnt := fwd_cnt h;
               tx_cnt := 0; rx_cnt := 0 |}]> (delete port (conns s))) (rx_q s) s)
    | _ => (0, set_conns (delete port (conns s)) (rx_q s) s)
    end
  else if op h =? VSOCK_OP_RW then
    match conns s !! port with
    | Some (Est e) =>
        let e := with_peer h e in
        match payload with
        | [] => (0, set_conns (<[port := Est e]> (conns s)) (rx_q s) s)
        | _ =>
            let '(ok, st) := stream_write_all payload (e_stream e) in
            if ok then
              let rx := U.add 32 (rx_cnt e) (U.wrap 32 (lenN payload)) in
              (1, set_conns (<[port := Est (with_rx st rx e)]> (conns s))
                    (send (e_host_port e) (e_guest_port e) VSOCK_OP_CREDIT_UPDATE rx) s)
            else
              (1, set_conns (delete (e_host_port e)
                              (<[port := Est (with_rx st (rx_cnt e) e)]> (conns s)))
                    (send (e_host_port e) (e_guest_port e) VSOCK_OP_RST 0) s)
        end
    | _ => (0, s)
    end
  else if (op h =? VSOCK_OP_CREDIT_UPDATE) || (op h =? VSOCK_OP_CREDIT_REQUEST) then
    match conns s !! port with
    | Some (Est e) =>
        let e := with_peer h e in
        let c := <[port := Est e]> (conns s) in
        if op h =? VSOCK_OP_CREDIT_REQUEST
        then (1, set_conns c (send (e_host_port e) (e_guest_port e) VSOCK_OP_CREDIT_UPDATE (rx_cnt e)) s)
        else (0, set_conns c (rx_q s) s)
    | _ => (0, s)
    end
  else if (op h =? VSOCK_OP_SHUTDOWN) || (op h =? VSOCK_OP_RST) then
    let c := delete port (conns s) in
    if op h =? VSOCK_OP_SHUTDOWN
    then (1, set_conns c (send port (src_port h) VSOCK_OP_RST 0) s)
    else (0, set_conns c (rx_q s) s)
  else if op h =? VSOCK_OP_REQUEST then
    (1, set_rxq (send port (src_port h) VSOCK_OP_RST 0) s)
  else (0, s).

(** ** The virtqueues *)

Definition used_push : u64 -> u32 -> u16 -> u32 -> M GuestMemory unit := Virtqueue.used_push.

Fixpoint gather_tx_hops (hops : nat) (desc_base : u64) (idx : u16) (out : bytes) : M GuestMemory bytes :=
  match hops with
  | O => ret out
  | S hops =>
      let! d := read_desc (U.add 64 desc_base (idx * 16)) in
      let! out :=
        if negb (bits (d_flags d) VRING_DESC_F_WRITE)
        then let! b := read_at (d_addr d) (d_len d) in ret (out ++ b)
        else ret out in
      if negb (bits (d_flags d) VRING_DESC_F_NEXT) then ret out
      else gather_tx_hops hops desc_base (d_next d) out
  end.

Definition gather_tx (desc_base : u64) (head : u16) : M GuestMemory bytes :=
  gather_tx_hops 32 desc_base head [].

(** [for _ in 0..32]: what is left of the packet and the bytes written. *)
Fixpoint inject_hops (hops : nat) (desc : u64) (idx : u16) (remaining : bytes) (written : u32)
    : M GuestMemory (bytes * u32) :=
  match hops with
  | O => ret (remaining, written)
  | S hops =>
      let! d := read_desc (U.add 64 desc (idx * 16)) in
      let! (remaining, written) :=
        if bits (d_flags d) VRING_DESC_F_WRITE && (0 <? d_len d) && (0 <? lenN remaining) then
          let n := N.min (lenN remaining) (d_len d) in
          do! write_at (d_addr d) (take (N.to_nat n) remaining) in
          ret (drop (N.to_nat n) remaining, U.add 32 written (U.wrap 32 n))
        else ret (remaining, written) in
      if negb (bits (d_flags d) VRING_DESC_F_NEXT) then ret (remaining, written)
      else inject_hops hops desc (d_next d) remaining written
  end.

(** Guest RAM, the device registers and the backend. *)
Record VsockDev := { v_mem : GuestMemory; v_st : VirtioState; v_be : option VsockBackend }.

Definition set_vmem (x : GuestMemory) (d : VsockDev) : VsockDev :=
  {| v_mem := x; v_st := v_st d; v_be := v_be d |}.

Definition on_vmem {A} (m : M GuestMemory A) : M VsockDev A := on_guest v_mem set_vmem m.

Definition v_queue (i : nat) : M VsockDev QueueState := fun d =>
  match queues (v_st d) !! i with Some q => (Ok q, d) | None => (Panic, d) end.

Definition v_bump (i : nat) : M VsockDev unit :=
  modify (fun d => {| v_mem := v_mem d;
    v_st := st_queues (alter bump_last_avail i (queues (v_st d))) (v_st d); v_be := v_be d |}).

(** [be.inner.lock()] and an update of it. *)
Definition v_inner (f : u32 -> VsockInner -> VsockInner) : M VsockDev unit :=
  modify (fun d => {| v_mem := v_mem d; v_st := v_st d;
    v_be := match v_be d with
            | Some be => Some {| be_guest_cid := be_guest_cid be; inner := f (be_guest_cid be) (inner be) |}
            | None => None
            end |}).

Definition inject_rx_packet (pkt : bytes) : M VsockDev bool :=
  let! q := v_queue 0 in
  if (q_ready q =? 0) || (q_num q =? 0) then ret false
  else
    let! avail_idx := on_vmem (read_avail_idx (q_avail q)) in
    if q_last_avail q =? avail_idx then ret false
    else
      let! head := on_vmem (read_avail_head (q_avail q) (q_last_avail q) (q_num q)) in
      let! (remaining, written) := on_vmem (inject_hops 32 (q_desc q) head pkt 0) in
      do! on_vmem (used_push (q_used q) (q_num q) head written) in
      do! v_bump 0 in
      ret (match remaining with [] => true | _ => false end).

(** The flush loop over the packets queued when it starts. *)
Fixpoint flush_loop (pkts : list bytes) (n : u32) : M VsockDev u32 :=
  match pkts with
  | [] => ret n
  | pkt :: pkts =>
      do! v_inner (fun _ s => set_rxq pkts s) in
      let! sent := inject_rx_packet pkt in
      if sent then flush_loop pkts (n + 1)
      else
        do! v_inner (fun _ s => set_rxq (pkt :: pkts) s) in
        ret n
  end.

Definition flush_rx : M VsockDev u32 :=
  let! d := get in
  match v_be d with
  | Some be => flush_loop (rx_q (inner be)) 0
  | None => ret 0
  end.

(** The packet of a guest buffer, handed to the backend. *)
Definition guest_packet (pkt : bytes) : M VsockDev unit :=
  match decode pkt with
  | Some h =>
      let plen := N.min (h_len h) (U.wrap 32 (lenN pkt - HDR_LEN)) in
      let payload := if HDR_LEN <? lenN pkt then slice (N.to_nat HDR_LEN) (N.to_nat plen) pkt else [] in
      v_inner (fun cid s => (handle_guest_packet cid h payload s).2)
  | None => ret tt
  end.

(** The transmit loop, left after the buffer that takes [n] past 64. *)
Fixpoint vtx_loop (fuel : nat) (n : u32) : M VsockDev u32 :=
  match fuel with
  | O => diverge
  | S fuel =>
      let! q := v_queue 1 in
      let! avail_idx := on_vmem (read_avail_idx (q_avail q)) in
      if q_last_avail q =? avail_idx then ret n
      else
        let! head := on_vmem (read_avail_head (q_avail q) (q_last_avail q) (q_num q)) in
        let! pkt := on_vmem (gather_tx (q_desc q) head) in
        do! on_vmem (used_push (q_used q) (q_num q) head 0) in
        do! v_bump 1 in
        let n := n + 1 in
        do! guest_packet pkt in
        if 64 <? n then ret n else vtx_loop fuel n
  end.

Definition handle_notify (qsel : u32) : M VsockDev u32 :=
  let! n := flush_rx in
  let! n :=
    if qsel =? 1 then
      let! q := v_queue 1 in
      if negb (q_ready q =? 0) && negb (q_num q =? 0) then vtx_loop 65 n else ret n
    else ret n in
  let! k := flush_rx in
  ret (n + k).

Definition poll (key_order : gmap u32 ConnState -> list u32) : M VsockDev u32 := fun d =>
  match v_be d with
  | None => (Ok 0, d)
  | Some be =>
      let '(n, be) := poll_host key_order be in
      (let! k := flush_rx in ret (n + k)) {| v_mem := v_mem d; v_st := v_st d; v_be := Some be |}
  end.
