(* ===== verification/VsockProofs.v ===== *)
(** * virtio-vsock: correctness

    The header codec, host port allocation, the connection table's invariant over
    every sequence of host and guest events, flow control, data transfer, and the
    virtqueue handlers, for the definitions of {!VirtioVsock}. *)

From stdpp Require Import prelude list gmap.
From Stdlib Require Import NArith Lia.
From S2P Require Import Prelude GuestMemory Virtqueue VirtioMmio VirtioVsock.

(** ** The header codec *)

Lemma slice_skip {A} (a b : list A) i n : (length a <= i)%nat ->
  slice i n (a ++ b) = slice (i - length a) n b.
Proof. intros. unfold slice. by rewrite drop_app_ge. Qed.

Lemma slice_here {A} (a b : list A) n : length a = n -> slice 0 n (a ++ b) = a.
Proof. intros <-. unfold slice. rewrite drop_0. by apply take_app_length. Qed.

(** Every field of a header fits its width. *)
Definition header_ok (h : VsockHeader) : Prop :=
  in_u 64 (src_cid h) /\ in_u 64 (dst_cid h) /\ in_u 32 (src_port h) /\ in_u 32 (dst_port h) /\
  in_u 32 (h_len h) /\ in_u 16 (type_ h) /\ in_u 16 (op h) /\ in_u 32 (flags h) /\
  in_u 32 (buf_alloc h) /\ in_u 32 (fwd_cnt h).

#[global] Instance header_ok_dec h : Decision (header_ok h).
Proof. unfold header_ok. apply _. Defined.

Lemma length_encode h : length (encode h) = 44%nat.
Proof. unfold encode. by rewrite !length_app, !length_le_bytes. Qed.

Ltac field :=
  repeat (rewrite slice_skip by (rewrite length_le_bytes; lia); rewrite length_le_bytes; cbn [Nat.sub]);
  rewrite slice_here by apply length_le_bytes.

(** decoding an encoded header, with whatever payload behind it, gives the
    header back, for every field value of its width. *)
Theorem vsock_header_roundtrip h payload : header_ok h -> decode (encode h ++ payload) = Some h.
Proof.
  intros (H1 & H2 & H3 & H4 & H5 & H6 & H7 & H8 & H9 & H10). unfold decode.
  assert ((lenN (encode h ++ payload) <? HDR_LEN) = false) as ->.
  { apply N.ltb_ge. unfold lenN. rewrite length_app, length_encode. unfold HDR_LEN. lia. }
  unfold encode. rewrite <- !app_assoc. f_equal. destruct h as [f1 f2 f3 f4 f5 f6 f7 f8 f9 f10].
  cbn [src_cid dst_cid src_port dst_port h_len type_ op flags buf_alloc fwd_cnt] in *.
  f_equal; field; by apply from_le_bytes_small.
Qed.

(** ** Port allocation *)

Definition next_port (p : u32) : u32 := N.max (U.add 32 p 1) 1024.

(** The ports tried, in order. *)
Fixpoint tried (n : nat) (p : u32) : list u32 :=
  match n with O => [] | S n => p :: tried n (next_port p) end.

(** The [k]-th port tried. *)
Definition port_at (p : u32) (k : N) : u32 := if p + k <? 2 ^ 32 then p + k else 1024 + (p + k - 2 ^ 32).

Lemma next_port_at p k : 1024 <= p -> in_u 32 p -> k < 10000 -> next_port (port_at p k) = port_at p (k + 1).
Proof.
  unfold in_u, next_port, port_at, U.add, U.wrap. intros Hp Hp32 Hk.
  destruct (N.ltb_spec (p + k) (2 ^ 32)), (N.ltb_spec (p + (k + 1)) (2 ^ 32)); try lia.
  - rewrite N.mod_small by lia. lia.
  - replace (p + k + 1) with (2 ^ 32) by lia. rewrite N.Div0.mod_same. lia.
  - rewrite N.mod_small by lia. lia.
Qed.

Lemma tried_eq n p k : 1024 <= p -> in_u 32 p -> k + N.of_nat n <= 10000 ->
  tried n (port_at p k) = map (fun i => port_at p (k + N.of_nat i)) (seq 0 n).
Proof.
  intros Hp Hp32. revert k. induction n as [|n IH]; intros k Hk; [done|]. cbn [tried seq map].
  rewrite next_port_at by (assumption || lia). rewrite IH by lia. apply (f_equal2 cons).
  - change (N.of_nat 0) with 0. by rewrite N.add_0_r.
  - rewrite <- seq_shift, map_map. apply map_ext. intros i.
    by replace (k + N.of_nat (S i)) with (k + 1 + N.of_nat i) by lia.
Qed.

Lemma tried_nodup n p : 1024 <= p -> in_u 32 p -> (n <= N.to_nat 10000)%nat -> NoDup (tried n p).
Proof.
  intros Hp Hp32 Hn. replace p with (port_at p 0) by (unfold port_at, in_u in *; rewrite N.add_0_r;
    by rewrite (proj2 (N.ltb_lt _ _))).
  rewrite tried_eq by (assumption || lia). apply NoDup_fmap_2_strong; [|apply NoDup_seq].
  intros i j Hi%elem_of_seq Hj%elem_of_seq. unfold port_at, in_u in *.
  destruct (N.ltb_spec (p + (0 + N.of_nat i)) (2 ^ 32)), (N.ltb_spec (p + (0 + N.of_nat j)) (2 ^ 32)); lia.
Qed.

Lemma alloc_loop_fresh n s :
  (exists p, p ∈ tried n (next_host_port s) /\ conns s !! p = None) ->
  conns s !! (alloc_loop n s).1 = None.
Proof.
  revert s. induction n as [|n IH]; intros s (p & Hin & Hp); [by apply elem_of_nil in Hin|].
  cbn [alloc_loop tried] in *. cbn [conns set_next_port] in *.
  destruct (conns s !! next_host_port s) eqn:E; [|done].
  apply elem_of_cons in Hin as [->|Hin]; [congruence|].
  apply (IH (set_next_port (N.max (U.add 32 (next_host_port s) 1) 1024) s)). by exists p.
Qed.

(** while fewer than 10,000 connections are open, the host port handed to a
    new connection is one no open connection uses. *)
Theorem alloc_host_port_fresh s :
  (stdpp.base.size (conns s) < N.to_nat 10000)%nat -> 1024 <= next_host_port s -> in_u 32 (next_host_port s) ->
  conns s !! (alloc_host_port s).1 = None.
Proof.
  intros Hsz Hp Hp32. apply alloc_loop_fresh. set (l := tried (N.to_nat 10000) (next_host_port s)).
  assert (NoDup l) as Hnd by by apply tried_nodup.
  assert (length l = N.to_nat 10000) as Hlen.
  { unfold l. clear. generalize (next_host_port s). induction (N.to_nat 10000) as [|n IH]; intros p;
      [done|]. cbn [tried length]. by rewrite IH. }
  destruct (decide (Exists (fun p => conns s !! p = None) l)) as [Hex|Hno].
  { apply List.Exists_exists in Hex as (p & Hin & Hp0). exists p. by rewrite list_elem_of_In. }
  exfalso. apply (Nat.lt_irrefl (stdpp.base.size (conns s))). eapply Nat.lt_le_trans; [exact Hsz|].
  rewrite <- Hlen, <- (size_dom (D := gset N) (conns s)). rewrite <- (size_list_to_set (C := gset N) l) by done.
  apply subseteq_size. intros p Hin%elem_of_list_to_set.
  apply elem_of_dom. destruct (conns s !! p) eqn:E; [by eexists|]. exfalso. apply Hno.
  apply List.Exists_exists. exists p. split; [by apply list_elem_of_In|done].
Qed.

(** ** The connection table over time *)

Definition conn_port (c : ConnState) : u32 :=
  match c with WaitResponse _ _ hp => hp | Est e => e_host_port e end.

(** A packet for the guest: a header from the host whose length field is its
    payload's, at most one chunk. *)
Definition pkt_wf (pkt : bytes) : Prop :=
  exists h d, pkt = encode h ++ d /\ h_len h = lenN d /\ lenN d <= MAX_RW_CHUNK /\
    src_cid h = VSOCK_HOST_CID /\ type_ h = VSOCK_TYPE_STREAM /\ (d <> [] -> op h = VSOCK_OP_RW).

Definition inner_ok (s : VsockInner) : Prop :=
  map_Forall (fun p c => conn_port c = p) (conns s) /\
  1024 <= next_host_port s /\ in_u 32 (next_host_port s) /\ Forall pkt_wf (rx_q s).

(** What can happen to a backend: the host side, a packet of the guest, and the
    removal of a queued packet by a flush. *)
Inductive vsock_step : VsockInner -> VsockInner -> Prop :=
| step_accept s : vsock_step s (accept_pending s).2
| step_drain cid s : vsock_step s (drain_connect_lines cid s).2
| step_poll cid keys n s : vsock_step s (poll_keys cid keys n s).2
| step_packet cid h payload s : vsock_step s (handle_guest_packet cid h payload s).2
| step_flush q1 q2 s : rx_q s = q1 ++ q2 -> vsock_step s (set_rxq q2 s).

Lemma ctrl_pkt_wf cid sp dp o a f fl : pkt_wf (encode (with_flags fl (ctrl VSOCK_HOST_CID cid sp dp o a f)) ++ []).
Proof. eexists _, []. repeat split; try done. Qed.

Lemma ctrl_wf cid sp dp o a f : pkt_wf (encode (ctrl VSOCK_HOST_CID cid sp dp o a f) ++ []).
Proof. eexists _, []. repeat split; try done. Qed.

Lemma push_wf q h d : Forall pkt_wf q -> pkt_wf (encode h ++ d) -> Forall pkt_wf (push_pkt q h d).
Proof. intros. unfold push_pkt. apply Forall_app. split; [done|]. by constructor. Qed.

Lemma inner_ok_set s c q : inner_ok s -> map_Forall (fun p c => conn_port c = p) c -> Forall pkt_wf q ->
  inner_ok (set_conns c q s).
Proof. intros (_ & H2 & H3 & _) Hc Hq. by repeat split. Qed.

Lemma alloc_loop_ok n s : inner_ok s -> inner_ok (alloc_loop n s).2.
Proof.
  revert s. induction n as [|n IH]; intros s Hs; [done|]. cbn [alloc_loop].
  assert (inner_ok (set_next_port (N.max (U.add 32 (next_host_port s) 1) 1024) s)) as Hs'.
  { destruct Hs as (H1 & H2 & H3 & H4). split; [done|]. split; [simpl; lia|]. split; [|done]. simpl.
    unfold in_u. pose proof (wrap_range 32 (next_host_port s + 1)) as Hw. unfold in_u in Hw.
    unfold U.add. lia. }
  destruct (_ !! _); [by apply IH|done].
Qed.

Lemma connect_line_ok cid st line s : inner_ok s -> inner_ok (connect_line cid st line s).2.
Proof.
  intros Hs. unfold connect_line. destruct (parse_connect _) as [port|]; [|done].
  pose proof (alloc_loop_ok (N.to_nat 10000) s Hs) as Ha. unfold alloc_host_port.
  destruct (alloc_loop (N.to_nat 10000) s) as [hp s1]. cbn [snd] in *. apply inner_ok_set; [done| |].
  - apply map_Forall_insert_2; [done|apply Ha].
  - apply push_wf; [apply Ha|apply ctrl_wf].
Qed.

Lemma drain_loop_ok cid ps kept n s : inner_ok s -> inner_ok (drain_loop cid ps kept n s).2.
Proof.
  revert kept n s. induction ps as [|p ps IH]; intros kept n s Hs; [done|]. cbn [drain_loop].
  destruct (stream_read 256 (p_stream p)) as [[[|b d]| |] st]; try by apply IH.
  destruct (take_line _) as [line|].
  - pose proof (connect_line_ok cid st line s Hs) as Hc. destruct (connect_line cid st line s) as [k s1].
    by apply IH.
  - destruct (128 <? _); by apply IH.
Qed.

Lemma stream_read_len n s d st : stream_read n s = (RBytes d, st) -> (length d <= N.to_nat n)%nat.
Proof.
  unfold stream_read. destruct (s_in s) as [|[d'| | |] l]; try done; intros [= <- <-]; [|simpl; lia].
  rewrite length_take. lia.
Qed.

Lemma poll_key_ok cid port n s : inner_ok s -> inner_ok (poll_key cid port n s).2.
Proof.
  intros Hs. unfold poll_key. destruct (conns s !! port) as [[|e]|] eqn:E; [done| |done].
  assert (e_host_port e = port) as Hp by (destruct Hs as [Hs _]; apply (Hs port (Est e) E)).
  destruct (est_action e) as [a e'] eqn:Ea.
  assert (e_host_port e' = port /\ match a with Rw _ _ _ d => (0 < length d <= 4096)%nat | _ => True end) as [Hp' Ha].
  { revert Ea. unfold est_action. destruct (credit e =? 0); [by intros [= <- <-]|].
    destruct (stream_read _ _) as [r st] eqn:Er. intros [= <- <-]. split; [done|].
    destruct r as [[|b d]| |]; try done. apply stream_read_len in Er. split; [simpl; lia|].
    unfold MAX_RW_CHUNK in Er. lia. }
  assert (map_Forall (fun p c => conn_port c = p) (<[port := Est e']> (conns s))) as Hc1.
  { apply map_Forall_insert_2; [done|apply Hs]. }
  assert (Forall pkt_wf (rx_q s)) as Hq by apply Hs.
  assert (inner_ok (set_conns (<[port := Est e']> (conns s)) (rx_q s) s)) as Hs1 by by apply inner_ok_set.
  assert (forall q, Forall pkt_wf q ->
    inner_ok (set_conns (delete port (<[port := Est e']> (conns s))) q
      (set_conns (<[port := Est e']> (conns s)) (rx_q s) s))) as Hdel.
  { intros q Hqq. apply inner_ok_set; [done| |done]. by apply map_Forall_delete. }
  destruct a as [hp gp rx|hp gp rx|hp gp rx|hp gp rx data|]; cbn [snd].
  - apply inner_ok_set; [done|done|]. apply push_wf; [done|apply ctrl_wf].
  - apply Hdel, push_wf; [done|apply ctrl_pkt_wf].
  - apply Hdel, push_wf; [done|apply ctrl_wf].
  - apply inner_ok_set; [done| |].
    + apply map_Forall_insert_2; [done|]. exact Hc1.
    + apply push_wf; [done|]. eexists _, data. split; [reflexivity|].
      cbn [h_len src_cid type_ op]. unfold U.wrap, lenN, MAX_RW_CHUNK. rewrite N.mod_small by lia.
      repeat split; try done. lia.
  - exact Hs1.
Qed.

Lemma poll_keys_ok cid keys n s : inner_ok s -> inner_ok (poll_keys cid keys n s).2.
Proof.
  revert n s. induction keys as [|k keys IH]; intros n s Hs; [done|]. cbn [poll_keys].
  pose proof (poll_key_ok cid k n s Hs) as H. destruct (poll_key cid k n s) as [n1 s1]. by apply IH.
Qed.

Lemma packet_ok cid h payload s : inner_ok s -> inner_ok (handle_guest_packet cid h payload s).2.
Proof.
  intros Hs. assert (Forall pkt_wf (rx_q s)) as Hq by apply Hs.
  assert (map_Forall (fun p c => conn_port c = p) (conns s)) as Hc by apply Hs.
  unfold handle_guest_packet. cbv zeta.
  assert (forall e e', conns s !! dst_port h = Some (Est e) -> e_host_port e' = e_host_port e ->
    map_Forall (fun p c => conn_port c = p) (<[dst_port h := Est e']> (conns s))) as Hins.
  { intros e e' He Hh. apply map_Forall_insert_2; [|done]. simpl. rewrite Hh. apply (Hc _ _ He). }
  destruct (op h =? VSOCK_OP_RESPONSE).
  { destruct (conns s !! dst_port h) as [[st gp hp|e]|] eqn:E; cbn [snd]; apply inner_ok_set; try done;
      try (by apply map_Forall_delete). apply map_Forall_insert_2; [done|by apply map_Forall_delete]. }
  destruct (op h =? VSOCK_OP_RW).
  { destruct (conns s !! dst_port h) as [[st gp hp|e]|] eqn:E; try done.
    destruct payload as [|b p]; [cbn [snd]; apply inner_ok_set; try done; by eapply Hins|].
    destruct (stream_write_all _ _) as [[] st]; cbn [snd]; apply inner_ok_set; try done;
      try (apply push_wf; [done|apply ctrl_wf]); [by eapply Hins|apply map_Forall_delete; by eapply Hins]. }
  destruct (_ || _).
  { destruct (conns s !! dst_port h) as [[st gp hp|e]|] eqn:E; try done.
    destruct (op h =? _); cbn [snd]; apply inner_ok_set; try done;
      try (apply push_wf; [done|apply ctrl_wf]); by eapply Hins. }
  destruct (_ || _).
  { destruct (op h =? _); cbn [snd]; apply inner_ok_set; try done;
      try (apply push_wf; [done|apply ctrl_wf]); by apply map_Forall_delete. }
  destruct (op h =? _); [|done]. cbn [snd]. apply inner_ok_set; try done. apply push_wf; [done|apply ctrl_wf].
Qed.

Lemma vsock_step_ok s s' : vsock_step s s' -> inner_ok s -> inner_ok s'.
Proof.
  intros Hstep Hs. destruct Hstep as [s|cid s|cid keys n s|cid h p s|q1 q2 s Hq].
  - unfold accept_pending. destruct (listener s) as [l|]; [|done].
    destruct (accept_loop l (pending_hosts s) 0) as [[l' ps] n]. exact Hs.
  - unfold drain_connect_lines. pose proof (drain_loop_ok cid (pending_hosts s) [] 0 s Hs) as H.
    destruct (drain_loop cid (pending_hosts s) [] 0 s) as [[n kept] s']. exact H.
  - by apply poll_keys_ok.
  - by apply packet_ok.
  - destruct Hs as (H1 & H2 & H3 & H4). repeat split; try done. simpl. rewrite Hq in H4.
    by apply Forall_app in H4 as [_ H4].
Qed.

(** C29: from the moment the backend is created, whatever the host clients and the
    guest do, every connection is filed under its own host port, the port counter
    stays in the unprivileged range, and every packet queued for the guest is a
    well-formed host packet whose length field is its payload's and at most one
    4096-byte chunk, with data only in RW packets. *)
Theorem vsock_table_invariant accepts cid be s :
  new_backend true accepts cid = Ok be -> rtc vsock_step (inner be) s -> inner_ok s.
Proof.
  intros [= <-] Hrun. assert (inner_ok s) as H; [|done].
  remember (inner _) as s0 eqn:E0. assert (inner_ok s0) as H0.
  { subst s0. split; [apply map_Forall_empty|]. split; [by vm_compute|]. split; [by vm_compute|constructor]. }
  clear E0. induction Hrun as [|s1 s2 s3 Hstep Hrun IH]; [done|]. apply IH. by eapply vsock_step_ok.
Qed.

(** ** Data transfer and flow control *)

(** Bytes sent to the guest that it has not yet consumed. *)
Definition in_flight (e : Established) : N := U.sub 32 (tx_cnt e) (peer_fwd_cnt e).

(** when the host has data for an established connection with credit left,
    one packet with the next chunk of it is queued, of at most 4096 bytes and at
    most the remaining credit; the rest stays in the socket, and what is in
    flight afterwards still fits the window the guest advertised. *)
Theorem vsock_host_send cid port n s e d l :
  conns s !! port = Some (Est e) -> s_in (e_stream e) = SData d :: l -> d <> [] -> credit e <> 0 ->
  in_u 32 (tx_cnt e) -> in_u 32 (peer_fwd_cnt e) -> in_u 32 (peer_buf_alloc e) ->
  let k := N.to_nat (N.min 4096 (credit e)) in
  exists s' h e', poll_key cid port n s = (n + 1, s') /\
    rx_q s' = rx_q s ++ [encode h ++ take k d] /\
    op h = VSOCK_OP_RW /\ src_port h = e_host_port e /\ dst_port h = e_guest_port e /\
    dst_cid h = cid /\ h_len h = lenN (take k d) /\
    conns s' = <[port := Est e']> (conns s) /\
    s_in (e_stream e') = match drop k d with [] => l | r => SData r :: l end /\
    in_flight e' = in_flight e + lenN (take k d) /\ in_flight e' <= peer_buf_alloc e'.
Proof.
  intros Hc Hin Hd Hcr Htx Hfwd Hpa. cbv zeta. set (k := N.to_nat (N.min 4096 (credit e))).
  assert (N.max (N.min MAX_RW_CHUNK (credit e)) 1 = N.min 4096 (credit e)) as Hk by (unfold MAX_RW_CHUNK; lia).
  assert (exists b t, take k d = b :: t) as (b & t & Ht).
  { destruct d as [|b d]; [done|]. unfold k. destruct (N.to_nat (N.min 4096 (credit e))) eqn:E; [lia|]. simpl. eauto. }
  assert (lenN (take k d) <= N.min 4096 (credit e)) as Hlen by (unfold lenN; rewrite length_take; lia).
  unfold poll_key. rewrite Hc. unfold est_action. rewrite (proj2 (N.eqb_neq _ _) Hcr), Hk.
  unfold stream_read. rewrite Hin. fold k. rewrite Ht. rewrite <- Ht.
  assert (U.wrap 32 (lenN (take k d)) = lenN (take k d)) as Hw by (apply wrap_small; unfold in_u; lia).
  rewrite Hw. eexists _, _, _. split; [reflexivity|]. split; [reflexivity|].
  cbn [op src_port dst_port dst_cid h_len conns set_conns e_stream s_in with_tx with_stream].
  repeat (split; [done|]). split; [by rewrite insert_insert_eq|]. split; [by destruct (drop k d)|].
  unfold in_flight, credit, U.sub, U.add, U.wrap, in_u in *. cbn [tx_cnt peer_fwd_cnt peer_buf_alloc with_tx with_stream].
  set (m := lenN (take k d)) in *. clearbody m. clear -Hlen Hcr Htx Hfwd Hpa.
  destruct e as [st gp hp pa fw tx rx]. simpl in *. change (2 ^ 32) with 4294967296 in *.
  assert ((tx + (4294967296 - fw)) mod 4294967296 + m < 4294967296) as Hsum by lia.
  assert (((tx + m) mod 4294967296 + (4294967296 - fw)) mod 4294967296 =
          (tx + (4294967296 - fw)) mod 4294967296 + m) as ->; [|split; [done|lia]].
  rewrite N.Div0.add_mod_idemp_l. rewrite <- (N.mod_small _ _ Hsum), N.Div0.add_mod_idemp_l. f_equal. lia.
Qed.

(** A run of data packets of the guest. *)
Definition deliver_all (cid : u32) (pkts : list (VsockHeader * bytes)) (s : VsockInner) : VsockInner :=
  fold_left (fun s '(h, p) => (handle_guest_packet cid h p s).2) pkts s.

(** the data packets the guest sends on an established connection reach the
    host socket complete and in order, are counted in the connection's consumed
    byte count, and disturb no other connection. *)
Theorem vsock_guest_stream cid port pkts s e :
  conns s !! port = Some (Est e) -> s_wr (e_stream e) = [] -> in_u 32 (rx_cnt e) ->
  Forall (fun '(h, p) => op h = VSOCK_OP_RW /\ dst_port h = port) pkts ->
  exists e', conns (deliver_all cid pkts s) !! port = Some (Est e') /\
    s_out (e_stream e') = s_out (e_stream e) ++ concat (map snd pkts) /\
    rx_cnt e' = (rx_cnt e + lenN (concat (map snd pkts))) mod 2 ^ 32 /\
    forall q, q <> port -> conns (deliver_all cid pkts s) !! q = conns s !! q.
Proof.
  intros Hc Hw Hrx Hp. revert s e Hc Hw Hrx. induction Hp as [|[h p] pkts [Hop Hdst] Hp IH]; intros s e Hc Hw Hrx.
  { exists e. simpl. rewrite app_nil_r. unfold lenN. simpl. rewrite N.add_0_r, N.mod_small by done. done. }
  unfold deliver_all. cbn [fold_left]. fold (deliver_all cid pkts (handle_guest_packet cid h p s).2).
  assert (exists s1 e1, (handle_guest_packet cid h p s).2 = s1 /\ conns s1 = <[port := Est e1]> (conns s) /\
    s_wr (e_stream e1) = [] /\ s_out (e_stream e1) = s_out (e_stream e) ++ p /\
    rx_cnt e1 = (rx_cnt e + lenN p) mod 2 ^ 32) as (s1 & e1 & -> & Hc1 & Hw1 & Ho1 & Hr1).
  { unfold handle_guest_packet. rewrite Hop, Hdst, Hc. cbn [N.eqb]. change (VSOCK_OP_RW =? VSOCK_OP_RESPONSE) with false.
    change (VSOCK_OP_RW =? VSOCK_OP_RW) with true. cbv iota zeta. destruct p as [|b p].
    - eexists _, (with_peer h e). split; [reflexivity|]. split; [reflexivity|]. split; [done|]. split; [by rewrite app_nil_r|].
      unfold lenN. simpl. by rewrite N.add_0_r, N.mod_small.
    - cbn [e_stream with_peer]. unfold stream_write_all. rewrite Hw. cbv iota.
      eexists _, _. split; [reflexivity|]. split; [reflexivity|]. split; [done|]. split; [done|].
      cbn [rx_cnt with_rx with_peer]. unfold U.add, U.wrap. by rewrite N.Div0.add_mod_idemp_r. }
  destruct (IH s1 e1) as (e' & Hc' & Ho' & Hr' & Hother).
  { rewrite Hc1. by rewrite lookup_insert_eq. }
  { done. }
  { rewrite Hr1. unfold in_u. apply N.mod_lt. done. }
  exists e'. split; [done|]. cbn [map concat snd]. split; [by rewrite Ho', Ho1, app_assoc|]. split.
  - rewrite Hr', Hr1, N.Div0.add_mod_idemp_l. unfold lenN. rewrite length_app. f_equal. lia.
  - intros q Hq. rewrite Hother by done. rewrite Hc1. by rewrite lookup_insert_ne.
Qed.

(** A connection response for a connection that is already established drops
    it without a word: no reset reaches the guest and the host's socket is just
    closed. *)
Theorem vsock_response_drops_established cid h payload s e :
  op h = VSOCK_OP_RESPONSE -> conns s !! dst_port h = Some (Est e) ->
  handle_guest_packet cid h payload s = (0, set_conns (delete (dst_port h) (conns s)) (rx_q s) s).
Proof. intros Hop Hc. unfold handle_guest_packet. by rewrite Hop, Hc. Qed.

(** ** Concrete instances *)

Definition demo_hdr (o : u16) : VsockHeader :=
  {| src_cid := 3; dst_cid := 2; src_port := 1024; dst_port := 50000; h_len := 2; type_ := 1; op := o;
     flags := 0; buf_alloc := 65536; fwd_cnt := 0 |}.

Lemma vsock_header_roundtrip_witness :
  decode (encode (demo_hdr VSOCK_OP_RW) ++ [104; 105]) = Some (demo_hdr VSOCK_OP_RW).
Proof. apply (vsock_header_roundtrip (demo_hdr VSOCK_OP_RW) [104; 105]). by_eval. Defined.

Definition demo_est : Established :=
  {| e_stream := {| s_in := [SData (repeat 7 5000)]; s_wr := []; s_out := [79; 75] |};
     e_guest_port := 1024; e_host_port := 50000; peer_buf_alloc := 6000; peer_fwd_cnt := 0;
     tx_cnt := 4000; rx_cnt := 0 |}.

Definition demo_inner : VsockInner :=
  {| listener := Some []; pending_hosts := []; conns := {[ 50000 := Est demo_est ]}; rx_q := [];
     next_host_port := 50000; host_buf_alloc := DEFAULT_BUF_ALLOC |}.

Lemma demo_conn : conns demo_inner !! 50000 = Some (Est demo_est).
Proof. apply lookup_singleton_eq. Qed.

Lemma alloc_host_port_fresh_witness : conns demo_inner !! (alloc_host_port demo_inner).1 = None.
Proof.
  apply (alloc_host_port_fresh demo_inner).
  - unfold demo_inner. cbn [conns]. rewrite map_size_singleton. lia.
  - by vm_compute.
  - by_eval.
Defined.

Lemma vsock_table_invariant_witness :
  exists be, new_backend true [] 3 = Ok be /\ inner_ok (handle_guest_packet 3 (demo_hdr VSOCK_OP_REQUEST) [] (inner be)).2.
Proof.
  eexists. split; [reflexivity|]. eapply (vsock_table_invariant [] 3); [reflexivity|].
  eapply rtc_l; [apply step_packet|]. apply rtc_refl.
Defined.

Lemma vsock_host_send_witness :
  exists s' h e', poll_key 3 50000 0 demo_inner = (1, s') /\
    rx_q s' = [] ++ [encode h ++ take 2000 (repeat 7 5000)] /\
    op h = VSOCK_OP_RW /\ src_port h = 50000 /\ dst_port h = 1024 /\
    dst_cid h = 3 /\ h_len h = lenN (take 2000 (repeat 7 5000)) /\
    conns s' = <[50000 := Est e']> (conns demo_inner) /\
    s_in (e_stream e') = match drop 2000 (repeat 7 5000) with [] => [] | r => [SData r] end /\
    in_flight e' = in_flight demo_est + lenN (take 2000 (repeat 7 5000)) /\
    in_flight e' <= peer_buf_alloc e'.
Proof.
  apply (vsock_host_send 3 50000 0 demo_inner demo_est (repeat 7 5000) []).
  - apply demo_conn.
  - reflexivity.
  - done.
  - done.
  - by_eval.
  - by_eval.
  - by_eval.
Defined.

Lemma vsock_guest_stream_witness :
  exists e', conns (deliver_all 3 [(demo_hdr VSOCK_OP_RW, [104]); (demo_hdr VSOCK_OP_RW, [105])] demo_inner)
      !! 50000 = Some (Est e') /\
    s_out (e_stream e') = [79; 75] ++ concat [[104]; [105]] /\
    rx_cnt e' = (0 + lenN (concat [[104]; [105]])) mod 2 ^ 32 /\
    forall q, q <> 50000 ->
      conns (deliver_all 3 [(demo_hdr VSOCK_OP_RW, [104]); (demo_hdr VSOCK_OP_RW, [105])] demo_inner) !! q =
      conns demo_inner !! q.
Proof.
  apply (vsock_guest_stream 3 50000 [(demo_hdr VSOCK_OP_RW, [104]); (demo_hdr VSOCK_OP_RW, [105])]
           demo_inner demo_est).
  - apply demo_conn.
  - reflexivity.
  - by_eval.
  - by repeat constructor.
Defined.

Lemma vsock_response_drops_established_witness :
  handle_guest_packet 3 (demo_hdr VSOCK_OP_RESPONSE) [] demo_inner =
    (0, set_conns (delete 50000 (conns demo_inner)) (rx_q demo_inner) demo_inner).
Proof.
  apply (vsock_response_drops_established 3 (demo_hdr VSOCK_OP_RESPONSE) [] demo_inner demo_est);
    [reflexivity|apply demo_conn].
Defined.
