(* ===== verification/VsockQueues.v ===== *)
(** * virtio-vsock: the virtqueue handlers

    Safety and termination of [handle_notify], and the order in which queued
    packets reach the guest, for the definitions of {!VirtioVsock}. *)

From stdpp Require Import prelude list gmap.
From Stdlib Require Import NArith Lia.
From S2P Require Import Prelude GuestMemory Virtqueue VirtioMmio VirtioVsock.

(** The registers of a queue a handler never changes. *)
Definition q_static (q : QueueState) : N * N * N * N * N :=
  (q_num q, q_ready q, q_desc q, q_avail q, q_used q).

Lemma q_static_bump q : q_static (bump_last_avail q) = q_static q.
Proof. done. Qed.

Section Safe.
(** The state a handler starts in. *)
Context (d0 : VsockDev).

Definition vs_kept (_ d : VsockDev) : Prop :=
  mem_len (v_mem d) = mem_len (v_mem d0) /\
  map q_static (queues (v_st d)) = map q_static (queues (v_st d0)).

Lemma keeps_vmem {A} (m : M GuestMemory A) :
  mrel same_size m -> (forall x, returns (m x).1) -> keeps vs_kept (on_vmem m).
Proof.
  intros Hm Hr s0 s [Hl Hq]. specialize (Hm (v_mem s)). specialize (Hr (v_mem s)).
  unfold on_vmem, on_guest, zoom. destruct (m (v_mem s)) as [o x]. simpl in *.
  split; [done|]. split; [|done]. simpl. by rewrite (mem_frame_len _ _ _ Hm).
Qed.

Lemma keeps_v_inner f : keeps vs_kept (v_inner f).
Proof. by apply keeps_modify. Qed.

Lemma map_alter_static (l : list QueueState) i : map q_static (alter bump_last_avail i l) = map q_static l.
Proof.
  revert i. induction l as [|q l IH]; intros [|i]; try done.
  change (q_static q :: map q_static (alter bump_last_avail i l) = q_static q :: map q_static l).
  by rewrite IH.
Qed.

Lemma keeps_v_bump i : keeps vs_kept (v_bump i).
Proof.
  apply keeps_modify. intros s0 s [Hl Hq]. split; [done|]. simpl. by rewrite map_alter_static.
Qed.

(** Reading queue [i], whose static registers are those it started with. *)
Lemma keeps_v_queue {A} i (f : QueueState -> M VsockDev A) q0 :
  queues (v_st d0) !! i = Some q0 ->
  (forall q, q_static q = q_static q0 -> keeps vs_kept (f q)) -> keeps vs_kept (bind (v_queue i) f).
Proof.
  intros H0 Hf s0 s Hs. unfold bind, v_queue.
  assert (exists q, queues (v_st s) !! i = Some q /\ q_static q = q_static q0) as (q & -> & Hq).
  { destruct Hs as [_ Hst]. apply (f_equal (fun l => l !! i)) in Hst. rewrite !list_lookup_fmap, H0 in Hst.
    destruct (queues (v_st s) !! i) as [q|]; [|done]. injection Hst as Hst. exists q. split; [done|].
    unfold q_static. simpl. congruence. }
  by apply Hf.
Qed.

Lemma keeps_gather_tx desc head : keeps vs_kept (on_vmem (gather_tx desc head)).
Proof.
  unfold gather_tx. generalize 32%nat, (@nil N). intros hops. apply (fun H => H).
  intros out. apply keeps_vmem.
  - revert head out. induction hops as [|hops IH]; intros head out; cbn [gather_tx_hops]; mrel_tac; apply IH.
  - revert head out. induction hops as [|hops IH]; intros head out x; cbn [gather_tx_hops]; [done|].
    apply bind_returns; [apply read_desc_returns|]. intros d x1 _. apply bind_returns.
    + destruct (negb _); [|done]. apply bind_returns; [apply read_at_returns|done].
    + intros o x2 _. destruct (negb _); [done|apply IH].
Qed.

Lemma keeps_inject desc head pkt w : keeps vs_kept (on_vmem (inject_hops 32 desc head pkt w)).
Proof.
  generalize 32%nat. intros hops. apply keeps_vmem.
  - revert head pkt w. induction hops as [|hops IH]; intros head pkt w; cbn [inject_hops]; mrel_tac; apply IH.
  - revert head pkt w. induction hops as [|hops IH]; intros head pkt w x; cbn [inject_hops]; [done|].
    apply bind_returns; [apply read_desc_returns|]. intros d x1 _. apply bind_returns.
    + destruct (_ && _); [|done]. apply bind_returns; [apply write_at_returns|done].
    + intros [r w'] x2 _. destruct (negb _); [done|apply IH].
Qed.

Context (q0 q1 : QueueState) (Hq0 : queues (v_st d0) !! 0%nat = Some q0)
  (Hq1 : queues (v_st d0) !! 1%nat = Some q1).

Lemma keeps_inject_rx pkt : keeps vs_kept (inject_rx_packet pkt).
Proof.
  unfold inject_rx_packet. apply (keeps_v_queue 0 _ q0 Hq0). intros q Hq.
  destruct (_ || _) eqn:E; [apply keeps_ret|]. apply orb_false_iff in E as [_ Hn%N.eqb_neq].
  apply keeps_bind; [apply keeps_vmem; [mrel_tac|intros; apply read_u16_returns]|]. intros ai.
  destruct (_ =? _); [apply keeps_ret|].
  apply keeps_bind; [apply keeps_vmem; [mrel_tac|intros; by apply read_avail_head_returns]|]. intros head.
  apply keeps_bind; [apply keeps_inject|]. intros [r w].
  apply keeps_bind; [apply keeps_vmem; [apply used_push_size|intros; by apply used_push_returns]|]. intros _.
  apply keeps_bind; [apply keeps_v_bump|]. intros _. apply keeps_ret.
Qed.

Lemma keeps_flush : keeps vs_kept flush_rx.
Proof.
  assert (forall pkts n, keeps vs_kept (flush_loop pkts n)) as Hl.
  { induction pkts as [|pkt pkts IH]; intros n; cbn [flush_loop]; [apply keeps_ret|].
    apply keeps_bind; [apply keeps_v_inner|]. intros _. apply keeps_bind; [apply keeps_inject_rx|].
    intros [|]; [apply IH|]. apply keeps_bind; [apply keeps_v_inner|]. intros _. apply keeps_ret. }
  apply keeps_bind; [apply keeps_get|]. intros d. destruct (v_be d); [apply Hl|apply keeps_ret].
Qed.

Lemma keeps_guest_packet pkt : keeps vs_kept (guest_packet pkt).
Proof. unfold guest_packet. destruct (decode pkt); [apply keeps_v_inner|apply keeps_ret]. Qed.

Lemma keeps_vtx fuel n : q_num q1 <> 0 -> 65 <= n + N.of_nat fuel -> (0 < fuel)%nat ->
  keeps vs_kept (vtx_loop fuel n).
Proof.
  intros Hn. revert n. induction fuel as [|fuel IH]; intros n Hf Hp; [lia|]. cbn [vtx_loop].
  apply (keeps_v_queue 1 _ q1 Hq1). intros q Hq.
  assert (q_num q <> 0) as Hqn by (unfold q_static in Hq; congruence).
  apply keeps_bind; [apply keeps_vmem; [mrel_tac|intros; apply read_u16_returns]|]. intros ai.
  destruct (_ =? _); [apply keeps_ret|].
  apply keeps_bind; [apply keeps_vmem; [mrel_tac|intros; by apply read_avail_head_returns]|]. intros head.
  apply keeps_bind; [apply keeps_gather_tx|]. intros pkt.
  apply keeps_bind; [apply keeps_vmem; [apply used_push_size|intros; by apply used_push_returns]|]. intros _.
  apply keeps_bind; [apply keeps_v_bump|]. intros _. cbv zeta.
  apply keeps_bind; [apply keeps_guest_packet|]. intros _.
  destruct (N.ltb_spec 64 (n + 1)); [apply keeps_ret|]. apply IH; lia.
Qed.

Lemma keeps_notify qsel : keeps vs_kept (handle_notify qsel).
Proof.
  unfold handle_notify. apply keeps_bind; [apply keeps_flush|]. intros n.
  apply keeps_bind.
  - destruct (qsel =? 1); [|apply keeps_ret]. apply (keeps_v_queue 1 _ q1 Hq1). intros q Hq.
    destruct (negb _ && negb _) eqn:E; [|apply keeps_ret].
    apply andb_true_iff in E as [_ E%negb_true_iff]. apply N.eqb_neq in E.
    apply keeps_vtx; [unfold q_static in Hq; congruence|lia|lia].
  - intros n'. apply keeps_bind; [apply keeps_flush|]. intros k. apply keeps_ret.
Qed.

End Safe.

(** a vsock notify, whatever the guest put in its rings and whatever is
    connected, never panics and always returns; it keeps the size of RAM and
    every queue register but [last_avail]. *)
Theorem vsock_notify_safe d qsel q0 q1 :
  queues (v_st d) !! 0%nat = Some q0 -> queues (v_st d) !! 1%nat = Some q1 ->
  exists o d', handle_notify qsel d = (o, d') /\ returns o /\
    mem_len (v_mem d') = mem_len (v_mem d) /\
    map q_static (queues (v_st d')) = map q_static (queues (v_st d)).
Proof.
  intros H0 H1. destruct (keeps_notify d q0 q1 H0 H1 qsel d d) as [Hr [Hl Hq]]; [done|].
  destruct (handle_notify qsel d) as [o d']. by exists o, d'.
Qed.

(** ** Order *)

Definition v_rxq (d : VsockDev) : list bytes := match v_be d with Some be => rx_q (inner be) | None => [] end.

Definition same_be (d d' : VsockDev) : Prop := v_be d' = v_be d.

#[global] Instance same_be_preorder : PreOrder same_be.
Proof. split; [done|]. intros d1 d2 d3. unfold same_be. congruence. Qed.

Lemma inject_same_be pkt : mrel same_be (inject_rx_packet pkt).
Proof.
  assert (forall A (m : M GuestMemory A), mrel same_be (on_vmem m)) as Hm by (intros; by apply mrel_zoom).
  unfold inject_rx_packet, v_queue, v_bump.
  apply mrel_bind; [apply _| |].
  { intros d. by destruct (queues (v_st d) !! 0%nat). }
  intros q. mrel_tac; try apply Hm. done.
Qed.

Lemma flush_loop_fifo pkts n d be : v_be d = Some be -> rx_q (inner be) = pkts ->
  exists o d' sent, flush_loop pkts n d = (o, d') /\
    match o with
    | Ok k => pkts = sent ++ v_rxq d' /\ k = n + lenN sent
    | _ => exists lost, pkts = sent ++ lost :: v_rxq d'
    end.
Proof.
  revert n d be. induction pkts as [|pkt pkts IH]; intros n d be Hb Hq; cbn [flush_loop].
  { exists (Ok n), d, []. split; [done|]. unfold v_rxq. rewrite Hb, Hq. unfold lenN. simpl. split; [done|lia]. }
  unfold bind at 1, v_inner, modify. rewrite Hb. set (d1 := Build_VsockDev _ _ _).
  unfold bind at 1. pose proof (inject_same_be pkt d1) as Hs.
  destruct (inject_rx_packet pkt d1) as [o d2]. unfold same_be in Hs. simpl in Hs.
  destruct o as [[|]|e| |].
  - destruct (IH (n + 1) d2 _ Hs) as (o & d' & sent & -> & Ho); [done|].
    exists o, d', (pkt :: sent). split; [done|]. destruct o as [k|e| |].
    + destruct Ho as [-> ->]. split; [done|]. unfold lenN. simpl. lia.
    + destruct Ho as [lost ->]. by exists lost.
    + destruct Ho as [lost ->]. by exists lost.
    + destruct Ho as [lost ->]. by exists lost.
  - unfold bind at 1, modify. rewrite Hs. eexists _, _, []. split; [reflexivity|].
    unfold v_rxq. simpl. unfold lenN. simpl. split; [done|lia].
  - eexists _, _, []. split; [reflexivity|]. exists pkt. unfold v_rxq. by rewrite Hs.
  - eexists _, _, []. split; [reflexivity|]. exists pkt. unfold v_rxq. by rewrite Hs.
  - eexists _, _, []. split; [reflexivity|]. exists pkt. unfold v_rxq. by rewrite Hs.
Qed.

(** a flush that returns normally has moved a prefix of the queued packets, in
    order, and reports its length; one that fails on a guest access has lost
    exactly the packet it was placing. *)
Theorem vsock_flush_fifo d :
  exists o d' sent, flush_rx d = (o, d') /\
    match o with
    | Ok k => v_rxq d = sent ++ v_rxq d' /\ k = lenN sent
    | _ => exists lost, v_rxq d = sent ++ lost :: v_rxq d'
    end.
Proof.
  unfold flush_rx, bind at 1, get at 1. destruct (v_be d) as [be|] eqn:E.
  - replace (v_rxq d) with (rx_q (inner be)) by (unfold v_rxq; by rewrite E). destruct (flush_loop_fifo (rx_q (inner be)) 0 d be E eq_refl) as (o & d' & sent & -> & Ho).
    by exists o, d', sent.
  - exists (Ok 0), d, []. split; [done|]. unfold v_rxq. rewrite E. done.
Qed.

(** ** Concrete instances

    4 KiB of RAM, receive queue with descriptors at 0x100, avail at 0x200, used
    at 0x300 and one 44-byte buffer at 0x800: too small for a packet with two
    bytes of data. *)
Definition demo_vq : QueueState :=
  {| q_num := 8; q_ready := 1; q_desc := 0x100; q_avail := 0x200; q_used := 0x300; q_last_avail := 0 |}.

Definition demo_pkt : bytes :=
  encode {| src_cid := 2; dst_cid := 3; src_port := 50000; dst_port := 1024; h_len := 2; type_ := 1;
            op := VSOCK_OP_RW; flags := 0; buf_alloc := DEFAULT_BUF_ALLOC; fwd_cnt := 0 |} ++ [104; 105].

Definition demo_vsock : VsockDev :=
  {| v_mem := {| ram := splice 0x100 (le_bytes 8 0x800 ++ le_bytes 4 44 ++ le_bytes 2 2)
                   (splice 0x202 [1; 0] (repeat 0 4096)) |};
     v_st := st_queues [demo_vq; demo_vq] VirtioState_default;
     v_be := Some {| be_guest_cid := 3;
       inner := {| listener := None; pending_hosts := []; conns := ∅; rx_q := [demo_pkt];
                   next_host_port := 50001; host_buf_alloc := DEFAULT_BUF_ALLOC |} |} |}.

(** A packet that does not fit the guest's buffer is published truncated and
    stays queued: the guest sees its first 44 bytes, and will see them again. *)
Example vsock_short_buffer_duplicates :
  let '(o, d) := flush_rx demo_vsock in
  o = Ok 0 /\ slice 0x800 44 (ram (v_mem d)) = take 44 demo_pkt /\
  slice 0x302 10 (ram (v_mem d)) = le_bytes 2 1 ++ le_bytes 4 0 ++ le_bytes 4 44 /\
  v_rxq d = [demo_pkt].
Proof. vm_compute. repeat split. Qed.

Lemma vsock_notify_safe_witness :
  exists o d', handle_notify 1 demo_vsock = (o, d') /\ returns o /\
    mem_len (v_mem d') = mem_len (v_mem demo_vsock) /\
    map q_static (queues (v_st d')) = map q_static (queues (v_st demo_vsock)).
Proof. apply (vsock_notify_safe demo_vsock 1 demo_vq demo_vq); reflexivity. Defined.
