(* ===== verification/Quota.v ===== *)
(** * Quota ledger and admission checks

    Models [UsageTotals], [QuotaLedger], [ledger_for_host_admission] and the
    [enforce_*] checks of [fluxvm-core/src/policy.rs], with the caps of
    [Policy] and [TenantPolicy] ([config.rs]) that they read.  A Rust string
    is the list of its code points; a [BTreeMap] is a [gmap]. *)

From stdpp Require Import prelude list gmap.
From Stdlib Require Import NArith Lia.
From S2P Require Import Prelude RustStr.

(** ** Totals *)

Record UsageTotals := MkUsage {
  t_vms : N;
  t_vcpus : N;
  t_memory_mib : N
}.

Definition usage_default : UsageTotals := MkUsage 0 0 0.

#[global] Instance UsageTotals_eq_dec : EqDecision UsageTotals.
Proof. solve_decision. Defined.

Definition usage_add (u : UsageTotals) (vcpus memory_mib : N) : UsageTotals :=
  MkUsage (U.saturating_add 64 (t_vms u) 1)
          (U.saturating_add 64 (t_vcpus u) vcpus)
          (U.saturating_add 64 (t_memory_mib u) memory_mib).

(** [saturating_sub] is the truncated subtraction of [N]. *)
Definition usage_sub (u : UsageTotals) (vcpus memory_mib : N) : UsageTotals :=
  MkUsage (t_vms u - 1) (t_vcpus u - vcpus) (t_memory_mib u - memory_mib).

(** ** The ledger *)

Record QuotaLedger := MkLedger {
  host : UsageTotals;
  tenants : gmap rstr UsageTotals;
  tokens : gmap rstr UsageTotals;
  untracked_host : UsageTotals
}.

Definition ledger_default : QuotaLedger := MkLedger usage_default ∅ ∅ usage_default.

#[global] Instance QuotaLedger_eq_dec : EqDecision QuotaLedger.
Proof. solve_decision. Defined.

Definition set_untracked (u : UsageTotals) (L : QuotaLedger) : QuotaLedger :=
  MkLedger (host L) (tenants L) (tokens L) u.

Definition ledger_for_host_admission (L : QuotaLedger) : QuotaLedger :=
  MkLedger
    (MkUsage (t_vms (host L))
             (U.saturating_add 64 (t_vcpus (host L)) (t_vcpus (untracked_host L)))
             (U.saturating_add 64 (t_memory_mib (host L)) (t_memory_mib (untracked_host L))))
    (tenants L) (tokens L) (untracked_host L).

(** [name.map(str::trim).filter(|s| !s.is_empty())] *)
Definition slot_name (name : option rstr) : option rstr :=
  match name with
  | Some s => match trim s with [] => None | c :: r => Some (c :: r) end
  | None => None
  end.

(** [entry(k).or_default().add(..)] for the slot a name selects. *)
Definition slot_ingest (name : option rstr) (vcpus memory_mib : N) (m : gmap rstr UsageTotals) :
    gmap rstr UsageTotals :=
  match slot_name name with
  | Some k => <[k := usage_add (default usage_default (m !! k)) vcpus memory_mib]> m
  | None => m
  end.

(** [get_mut(k)], [sub], and [remove] when the slot is down to no VM. *)
Definition slot_release (name : option rstr) (vcpus memory_mib : N) (m : gmap rstr UsageTotals) :
    gmap rstr UsageTotals :=
  match slot_name name with
  | Some k =>
      match m !! k with
      | Some u =>
          let u' := usage_sub u vcpus memory_mib in
          if t_vms u' =? 0 then delete k m else <[k := u']> m
      | None => m
      end
  | None => m
  end.

Definition ingest (L : QuotaLedger) (tenant token : option rstr) (vcpus memory_mib : N) : QuotaLedger :=
  MkLedger (usage_add (host L) vcpus memory_mib)
           (slot_ingest tenant vcpus memory_mib (tenants L))
           (slot_ingest token vcpus memory_mib (tokens L))
           (untracked_host L).

Definition release (L : QuotaLedger) (tenant token : option rstr) (vcpus memory_mib : N) : QuotaLedger :=
  MkLedger (usage_sub (host L) vcpus memory_mib)
           (slot_release tenant vcpus memory_mib (tenants L))
           (slot_release token vcpus memory_mib (tokens L))
           (untracked_host L).

(** ** Policy and admission checks *)

Record TenantPolicy := MkTenantPolicy {
  tp_tenant : rstr;
  max_vcpus_total : option N;
  max_memory_mib_total : option N;
  max_vms_total : option N
}.

(** The fields of [Policy] the checks read. *)
Record Policy := MkPolicy {
  max_vcpus_host : option N;
  max_memory_mib_host : option N;
  p_tenants : list TenantPolicy
}.

(** Which [bail!] a check ended in. *)
Inductive denial :=
| AtMaxVms
| OverMaxVcpus
| OverMaxMemory.

#[global] Instance denial_eq_dec : EqDecision denial.
Proof. solve_decision. Defined.

(** [Result<()>] of the checks, and [?]. *)
Notation admission := (denial + unit)%type.

Definition and_then {A} (r : admission) (k : denial + A) : denial + A :=
  match r with inl e => inl e | inr _ => k end.

(** [if let Some(max) = cap && used >= max { bail! }] *)
Definition cap_count (cap : option N) (used : N) : admission :=
  match cap with Some max => if max <=? used then inl AtMaxVms else inr tt | None => inr tt end.

(** [if let Some(max) = cap { if used.saturating_add(req) > max { bail! } }] *)
Definition cap_sum (e : denial) (cap : option N) (used req : N) : admission :=
  match cap with
  | Some max => if max <? U.saturating_add 64 used req then inl e else inr tt
  | None => inr tt
  end.

Definition find_tenant (tenant : rstr) (l : list TenantPolicy) : option TenantPolicy :=
  find (fun t => bool_decide (tp_tenant t = tenant)) l.

Definition enforce_tenant_totals (tenant : rstr) (vcpus memory_mib : N) (policy : Policy)
    (ledger : QuotaLedger) : admission :=
  match find_tenant tenant (p_tenants policy) with
  | None => inr tt
  | Some tp =>
      let used := default usage_default (tenants ledger !! tenant) in
      and_then (cap_count (max_vms_total tp) (t_vms used))
        (and_then (cap_sum OverMaxVcpus (max_vcpus_total tp) (t_vcpus used) vcpus)
          (cap_sum OverMaxMemory (max_memory_mib_total tp) (t_memory_mib used) memory_mib))
  end.

Definition enforce_token_totals (actor : rstr) (vcpus memory_mib : N)
    (max_vms max_memory_mib : option N) (ledger : QuotaLedger) : admission :=
  let used := default usage_default (tokens ledger !! actor) in
  and_then (cap_count max_vms (t_vms used))
    (cap_sum OverMaxMemory max_memory_mib (t_memory_mib used) memory_mib).

Definition enforce_host_totals (vcpus memory_mib : N) (policy : Policy) (ledger : QuotaLedger) :
    admission :=
  and_then (cap_sum OverMaxVcpus (max_vcpus_host policy) (t_vcpus (host ledger)) vcpus)
    (cap_sum OverMaxMemory (max_memory_mib_host policy) (t_memory_mib (host ledger)) memory_mib).

Definition ledger_is_warm (ledger_vms store_len : N) : bool := ledger_vms =? store_len.

Definition require_signed_catalog (require from_catalog : bool) (signed_by : option rstr) : bool :=
  if negb require then true
  else from_catalog && match signed_by with Some (_ :: _) => true | _ => false end.

(** ** Saturating totals *)

Notation U64MAX := (U.max 64).

(** A total that has not reached the saturation point leaves room for [x]. *)
Definition room (u : UsageTotals) (vcpus memory_mib : N) : Prop :=
  t_vms u + 1 <= U64MAX /\ t_vcpus u + vcpus <= U64MAX /\ t_memory_mib u + memory_mib <= U64MAX.

Lemma usage_add_comm u c1 m1 c2 m2 :
  usage_add (usage_add u c1 m1) c2 m2 = usage_add (usage_add u c2 m2) c1 m1.
Proof. unfold usage_add, U.saturating_add. cbn [t_vms t_vcpus t_memory_mib]. f_equal; lia. Qed.

Lemma usage_sub_add u c m : room u c m -> usage_sub (usage_add u c m) c m = u.
Proof.
  intros (H1 & H2 & H3). destruct u as [a b d]. cbn [t_vms t_vcpus t_memory_mib] in *.
  unfold usage_sub, usage_add, U.saturating_add. cbn [t_vms t_vcpus t_memory_mib]. f_equal; lia.
Qed.

Lemma usage_add_nonzero u c m : t_vms (usage_add u c m) <> 0.
Proof. unfold usage_add, U.saturating_add. cbn [t_vms]. assert (0 < U64MAX) by done. lia. Qed.

Lemma slot_name_trimmed name k : slot_name name = Some k -> slot_name (Some k) = Some k.
Proof.
  unfold slot_name. destruct name as [s|]; [|done]. pose proof (trim_idemp s) as Hi.
  destruct (trim s) as [|c r]; [done|]. intros [= <-]. by rewrite Hi.
Qed.

(** Trimming twice is trimming once: [quota_sample] trims, and so does [ingest]. *)
Lemma slot_name_idemp name : slot_name (slot_name name) = slot_name name.
Proof. destruct (slot_name name) as [k|] eqn:E; [|done]. by eapply slot_name_trimmed. Qed.

Lemma slot_ingest_comm n1 c1 m1 n2 c2 m2 m :
  slot_ingest n1 c1 m1 (slot_ingest n2 c2 m2 m) = slot_ingest n2 c2 m2 (slot_ingest n1 c1 m1 m).
Proof.
  unfold slot_ingest. destruct (slot_name n1) as [a|], (slot_name n2) as [b|]; [|done..].
  destruct (decide (a = b)) as [->|Hne].
  - by rewrite !lookup_insert_eq, !insert_insert_eq; simpl; rewrite usage_add_comm.
  - rewrite !lookup_insert_ne by done. by rewrite insert_insert_ne.
Qed.

Lemma ingest_comm L n1 k1 c1 m1 n2 k2 c2 m2 :
  ingest (ingest L n1 k1 c1 m1) n2 k2 c2 m2 = ingest (ingest L n2 k2 c2 m2) n1 k1 c1 m1.
Proof.
  unfold ingest. cbn [host tenants tokens untracked_host].
  by rewrite usage_add_comm, (slot_ingest_comm n2), (slot_ingest_comm k2).
Qed.

(** A slot that is present counts at least one VM. *)
Definition slots_live (m : gmap rstr UsageTotals) : Prop :=
  map_Forall (fun _ u => t_vms u <> 0) m.

Lemma slot_ingest_live n c x m : slots_live m -> slots_live (slot_ingest n c x m).
Proof.
  unfold slot_ingest. destruct (slot_name n); [|done]. intros H.
  apply map_Forall_insert_2; [apply usage_add_nonzero|done].
Qed.

Lemma slot_release_ingest n c x m :
  slots_live m -> (forall k u, m !! k = Some u -> room u c x) ->
  slot_release n c x (slot_ingest n c x m) = m.
Proof.
  intros Hl Hr. unfold slot_release, slot_ingest. destruct (slot_name n) as [k|]; [|done].
  rewrite lookup_insert_eq. destruct (m !! k) as [u|] eqn:E; cbn [default from_option].
  - rewrite usage_sub_add by eauto. rewrite (proj2 (N.eqb_neq _ _)) by exact (Hl _ _ E).
    rewrite insert_insert_eq. by apply insert_id.
  - unfold usage_sub, usage_add, U.saturating_add. cbn [t_vms t_vcpus t_memory_mib].
    change (0 + 1) with 1. change (N.min 1 U64MAX - 1 =? 0) with true. cbn [id].
    rewrite delete_insert_eq. by apply delete_id.
Qed.

Lemma release_ingest L n k c x :
  slots_live (tenants L) -> slots_live (tokens L) -> room (host L) c x ->
  (forall a u, tenants L !! a = Some u -> room u c x) ->
  (forall a u, tokens L !! a = Some u -> room u c x) ->
  release (ingest L n k c x) n k c x = L.
Proof.
  intros H1 H2 H3 H4 H5. destruct L. unfold release, ingest. cbn [host tenants tokens untracked_host] in *.
  by rewrite usage_sub_add, !slot_release_ingest.
Qed.
