(* ===== verification/VmStore.v ===== *)
(** * The VM record store and its quota ledger

    Models [Store] of [fluxvm-storage/src/lib.rs]: the two files [vms.json]
    and [quotas.json] under one lock, the read-modify-write of every
    operation, and the incremental ledger beside the records.  Each file is
    its decoded contents and its modification time; an operation takes the
    times at which its writes land and how many of the two durable writes
    complete ([writes]), so a crash or an I/O error between them is a value
    of the model. *)

From stdpp Require Import prelude list gmap sets fin_maps fin_map_dom.
From Stdlib Require Import NArith Lia.
From S2P Require Import Prelude RustStr Quota.

(** ** Records *)

(** The fields of [VmRecord] the store reads; [payload] stands for the rest,
    which it copies. *)
Record VmRecord := MkVm {
  vm_id : N;
  vm_tenant : option rstr;
  vm_token : option rstr;
  vm_vcpus : N;
  vm_memory_mib : N;
  guest_cid : option N;
  payload : list N
}.

#[global] Instance VmRecord_eq_dec : EqDecision VmRecord.
Proof. solve_decision. Defined.

Notation vm_map := (gmap N VmRecord).

(** Contents of a JSON file: blank, a value, or text that does not parse. *)
Inductive content (A : Type) :=
| Blank
| Json (a : A)
| Garbage.
Arguments Blank {A}.
Arguments Json {A} _.
Arguments Garbage {A}.

Record Files := MkFiles {
  vms_file : option (content vm_map * N);
  quota_file : option (content QuotaLedger * N)
}.

Definition no_files : Files := MkFiles None None.

(** [Store::read_map] *)
Definition read_map_of (s : Files) : outcome vm_map :=
  match vms_file s with
  | None | Some (Blank, _) => Ok ∅
  | Some (Json m, _) => Ok m
  | Some (Garbage, _) => Err Io
  end.

Definition read_map : M Files vm_map := fun s => (read_map_of s, s).

(** ** Samples and deltas *)

Record QuotaSample := MkSample {
  s_tenant : option rstr;
  s_token : option rstr;
  s_vcpus : N;
  s_memory_mib : N
}.

#[global] Instance QuotaSample_eq_dec : EqDecision QuotaSample.
Proof. solve_decision. Defined.

Inductive LedgerDelta :=
| Preserve
| Ingest (sample : QuotaSample)
| Release (sample : QuotaSample)
| Replace (from to : QuotaSample)
| Rebuild.

#[global] Instance LedgerDelta_eq_dec : EqDecision LedgerDelta.
Proof. solve_decision. Defined.

Definition quota_sample (vm : VmRecord) : QuotaSample :=
  MkSample (slot_name (vm_tenant vm)) (slot_name (vm_token vm)) (vm_vcpus vm) (vm_memory_mib vm).

Definition apply_sample (ledger : QuotaLedger) (sample : QuotaSample) (rel : bool) : QuotaLedger :=
  if rel
  then release ledger (s_tenant sample) (s_token sample) (s_vcpus sample) (s_memory_mib sample)
  else ingest ledger (s_tenant sample) (s_token sample) (s_vcpus sample) (s_memory_mib sample).

(** One step of the loop of [quota_ledger_from]. *)
Definition ingest_vm (vm : VmRecord) (L : QuotaLedger) : QuotaLedger :=
  ingest L (vm_tenant vm) (vm_token vm) (vm_vcpus vm) (vm_memory_mib vm).

Definition quota_ledger_from (m : vm_map) : QuotaLedger :=
  map_fold (fun _ => ingest_vm) ledger_default m.

(** ** The ledger file *)

Definition write_quota_content (t : N) (c : content QuotaLedger) (s : Files) : Files :=
  MkFiles (vms_file s) (Some (c, t)).

Definition write_quota_ledger (t : N) (L : QuotaLedger) (s : Files) : Files :=
  write_quota_content t (Json L) s.

Definition write_vms (t : N) (m : vm_map) (s : Files) : Files :=
  MkFiles (Some (Json m, t)) (quota_file s).

Definition read_warm_ledger (s : Files) (vm_count : N) : option QuotaLedger :=
  match vms_file s, quota_file s with
  | Some (_, vms_modified), Some (c, quota_modified) =>
      if quota_modified <? vms_modified then None
      else match c with
           | Json L => if ledger_is_warm (t_vms (host L)) vm_count then Some L else None
           | _ => None
           end
  | _, _ => None
  end.

Definition read_untracked_host (s : Files) : UsageTotals :=
  match quota_file s with
  | Some (Json L, _) => untracked_host L
  | _ => usage_default
  end.

(** The ledger rebuilt from the records, with the reservations kept. *)
Definition rebuilt (s : Files) (m : vm_map) : QuotaLedger :=
  set_untracked (read_untracked_host s) (quota_ledger_from m).

Definition map_len (m : vm_map) : N := N.of_nat (stdpp.base.size m).

Definition load_quota_ledger (s : Files) (m : vm_map) : QuotaLedger :=
  match read_warm_ledger s (map_len m) with
  | Some L => L
  | None => rebuilt s m
  end.

(** The incremental change a delta makes to a warm ledger. *)
Definition ledger_step (d : LedgerDelta) (L : QuotaLedger) : QuotaLedger :=
  match d with
  | Ingest x => apply_sample L x false
  | Release x => apply_sample L x true
  | Replace from to => apply_sample (apply_sample L from true) to false
  | Preserve | Rebuild => L
  end.

Definition apply_ledger_delta (t : N) (m : vm_map) (len_before : N) (d : LedgerDelta) (s : Files) :
    Files :=
  match d with
  | Preserve =>
      match quota_file s with
      | Some (c, _) => write_quota_content t c s
      | None => s
      end
  | Rebuild => write_quota_ledger t (rebuilt s m) s
  | _ =>
      match read_warm_ledger s len_before with
      | Some L => write_quota_ledger t (ledger_step d L) s
      | None => write_quota_ledger t (rebuilt s m) s
      end
  end.

(** ** Operations *)

(** How many of an operation's durable writes complete. *)
Inductive writes := NoWrite | VmsOnly | BothWrites.

Definition with_exclusive {A} (w : writes) (t1 t2 : N)
    (f : vm_map -> outcome (A * vm_map * LedgerDelta)) : M Files A :=
  let! m := read_map in
  let! rmd := lift (f m) in
  let '(r, m', d) := rmd in
  match w with
  | NoWrite => throw Io
  | VmsOnly => do! modify (write_vms t1 m') in throw Io
  | BothWrites =>
      do! modify (write_vms t1 m') in
      do! modify (apply_ledger_delta t2 m' (map_len m) d) in
      ret r
  end.

Definition insert_f (vm : VmRecord) (m : vm_map) : outcome (unit * vm_map * LedgerDelta) :=
  Ok (tt, <[vm_id vm := vm]> m, Ingest (quota_sample vm)).

(** [m.values().filter_map(|v| v.guest_cid).collect()] *)
Definition used_cids (m : vm_map) : list N := omap (fun p => guest_cid p.2) (map_to_list m).

(** [while used.contains(&candidate) { candidate += 1; }] on [u32]. *)
Fixpoint cid_loop (fuel : nat) (used : list N) (candidate : N) : outcome N :=
  match fuel with
  | O => Loop
  | S fuel =>
      if bool_decide (candidate ∈ used) then cid_loop fuel used (U.add 32 candidate 1)
      else Ok candidate
  end.

Definition set_cid (vm : VmRecord) (cid : option N) : VmRecord :=
  MkVm (vm_id vm) (vm_tenant vm) (vm_token vm) (vm_vcpus vm) (vm_memory_mib vm) cid (payload vm).

Definition insert_with_cid_f (record : VmRecord) (needs_cid : bool) (first_cid : N) (m : vm_map) :
    outcome (VmRecord * vm_map * LedgerDelta) :=
  let record' :=
    if needs_cid then
      match cid_loop (S (length (used_cids m))) (used_cids m) first_cid with
      | Ok candidate => Ok (set_cid record (Some candidate))
      | Err e => Err e
      | Panic => Panic
      | Loop => Loop
      end
    else Ok record in
  match record' with
  | Ok r => Ok (r, <[vm_id r := r]> m, Ingest (quota_sample r))
  | Err e => Err e
  | Panic => Panic
  | Loop => Loop
  end.

Definition update_f (vm : VmRecord) (m : vm_map) : outcome (unit * vm_map * LedgerDelta) :=
  match m !! vm_id vm with
  | None => Ok (tt, m, Preserve)
  | Some slot =>
      let from := quota_sample slot in
      let to := quota_sample vm in
      Ok (tt, <[vm_id vm := vm]> m, if decide (from = to) then Preserve else Replace from to)
  end.

Definition remove_f (id : N) (m : vm_map) : outcome (option VmRecord * vm_map * LedgerDelta) :=
  Ok (m !! id, delete id m,
      match m !! id with Some vm => Release (quota_sample vm) | None => Preserve end).

Definition rebuild_f (m : vm_map) : outcome (unit * vm_map * LedgerDelta) := Ok (tt, m, Rebuild).

Section Ops.

Context (w : writes) (t1 t2 : N).

Definition insert_vm (vm : VmRecord) : M Files unit := with_exclusive w t1 t2 (insert_f vm).
Definition insert_with_cid (vm : VmRecord) (needs_cid : bool) (first_cid : N) : M Files VmRecord :=
  with_exclusive w t1 t2 (insert_with_cid_f vm needs_cid first_cid).
Definition update_vm (vm : VmRecord) : M Files unit := with_exclusive w t1 t2 (update_f vm).
Definition remove_vm (id : N) : M Files (option VmRecord) := with_exclusive w t1 t2 (remove_f id).

(** [quota_ledger] under the shared lock. *)
Definition quota_ledger : M Files QuotaLedger :=
  let! m := read_map in gets (fun s => load_quota_ledger s m).

Definition rebuild_quota_ledger : M Files QuotaLedger :=
  do! with_exclusive w t1 t2 rebuild_f in quota_ledger.

(** [mutate_quota]: the only write is the ledger. *)
Definition mutate_quota (f : QuotaLedger -> denial + QuotaLedger) : M Files admission :=
  let! m := read_map in
  let! L := gets (fun s => load_quota_ledger s m) in
  match f L with
  | inl e => ret (inl e)
  | inr L' =>
      match w with
      | BothWrites => do! modify (write_quota_ledger t2 L') in ret (inr tt)
      | _ => throw Io
      end
  end.

Definition reserve_untracked_host (vcpus memory_mib : N) (policy : Policy) : M Files admission :=
  mutate_quota (fun L =>
    and_then (enforce_host_totals vcpus memory_mib policy (ledger_for_host_admission L))
      (inr (set_untracked
              (MkUsage (t_vms (untracked_host L))
                       (U.saturating_add 64 (t_vcpus (untracked_host L)) vcpus)
                       (U.saturating_add 64 (t_memory_mib (untracked_host L)) memory_mib)) L))).

Definition release_untracked_host (vcpus memory_mib : N) : M Files admission :=
  mutate_quota (fun L =>
    inr (set_untracked
           (MkUsage (t_vms (untracked_host L)) (t_vcpus (untracked_host L) - vcpus)
                    (t_memory_mib (untracked_host L) - memory_mib)) L)).

Definition set_untracked_host (vcpus memory_mib : N) : M Files admission :=
  mutate_quota (fun L => inr (set_untracked (MkUsage 0 vcpus memory_mib) L)).

End Ops.

(** [Store::get] under the shared lock: an unreadable file reads as no VM. *)
Definition get_vm (id : N) (s : Files) : option VmRecord :=
  match read_map_of s with Ok m => m !! id | _ => None end.

(** ** The rebuilt ledger *)

Lemma ingest_vm_comm v1 v2 L : ingest_vm v1 (ingest_vm v2 L) = ingest_vm v2 (ingest_vm v1 L).
Proof. apply ingest_comm. Qed.

(** [HashMap::values] visits the records in no particular order: every order
    gives the same ledger. *)
Lemma quota_ledger_from_order m l :
  l ≡ₚ (map_to_list m).*2 -> foldr ingest_vm ledger_default l = quota_ledger_from m.
Proof.
  intros Hp. unfold quota_ledger_from. rewrite map_fold_foldr.
  transitivity (foldr ingest_vm ledger_default (map_to_list m).*2).
  - apply (foldr_permutation (=) ingest_vm ledger_default); [|done].
    intros j1 a1 j2 a2 b. intros. apply ingest_vm_comm.
  - clear Hp. induction (map_to_list m) as [|[k v] r IH]; [done|]. exact (f_equal (ingest_vm v) IH).
Qed.

Lemma quota_ledger_from_insert m id vm :
  m !! id = None -> quota_ledger_from (<[id := vm]> m) = ingest_vm vm (quota_ledger_from m).
Proof.
  intros Hid. unfold quota_ledger_from. rewrite map_fold_insert_L; [done| |done].
  intros. apply ingest_vm_comm.
Qed.

Lemma quota_ledger_from_delete m id vm :
  m !! id = Some vm -> quota_ledger_from m = ingest_vm vm (quota_ledger_from (delete id m)).
Proof.
  intros Hid. rewrite <- quota_ledger_from_insert with (id := id) by apply lookup_delete_eq.
  by rewrite insert_delete_id.
Qed.

Lemma quota_ledger_from_replace m id vm vm' :
  m !! id = Some vm ->
  quota_ledger_from (<[id := vm']> m) = ingest_vm vm' (quota_ledger_from (delete id m)).
Proof.
  intros _. rewrite <- quota_ledger_from_insert with (id := id) by apply lookup_delete_eq.
  by rewrite insert_delete_eq.
Qed.

Lemma quota_ledger_from_untracked m : untracked_host (quota_ledger_from m) = usage_default.
Proof.
  unfold quota_ledger_from. by apply (map_fold_weak_ind (fun L _ => untracked_host L = usage_default)).
Qed.

(** *** True totals *)

Definition plus_vm (vm : VmRecord) (u : UsageTotals) : UsageTotals :=
  MkUsage (t_vms u + 1) (t_vcpus u + vm_vcpus vm) (t_memory_mib u + vm_memory_mib vm).

(** The unbounded totals of the records that satisfy [p]. *)
Definition usage_where (p : VmRecord -> bool) (m : vm_map) : UsageTotals :=
  map_fold (fun _ vm u => if p vm then plus_vm vm u else u) usage_default m.

Definition saturate (u : UsageTotals) : UsageTotals :=
  MkUsage (N.min (t_vms u) U64MAX) (N.min (t_vcpus u) U64MAX) (N.min (t_memory_mib u) U64MAX).

Definition usage_le (u v : UsageTotals) : Prop :=
  t_vms u <= t_vms v /\ t_vcpus u <= t_vcpus v /\ t_memory_mib u <= t_memory_mib v.

Definition all_vms (vm : VmRecord) : bool := true.
Definition tenant_is (t : rstr) (vm : VmRecord) : bool := bool_decide (slot_name (vm_tenant vm) = Some t).
Definition token_is (t : rstr) (vm : VmRecord) : bool := bool_decide (slot_name (vm_token vm) = Some t).

Lemma usage_where_insert p m id vm :
  m !! id = None ->
  usage_where p (<[id := vm]> m) = if p vm then plus_vm vm (usage_where p m) else usage_where p m.
Proof.
  intros Hid. unfold usage_where. rewrite map_fold_insert_L; [done| |done].
  intros j1 j2 z1 z2 y _ _ _. unfold plus_vm. destruct (p z1), (p z2); cbn [t_vms t_vcpus t_memory_mib];
    f_equal; lia.
Qed.

Lemma usage_where_delete p m id vm :
  m !! id = Some vm ->
  usage_where p m = if p vm then plus_vm vm (usage_where p (delete id m)) else usage_where p (delete id m).
Proof.
  intros Hid. rewrite <- usage_where_insert with (id := id) by apply lookup_delete_eq.
  by rewrite insert_delete_id.
Qed.

Lemma usage_where_le p m : usage_le (usage_where p m) (usage_where all_vms m).
Proof.
  induction m as [|id vm m Hid IH] using map_ind; [unfold usage_le; done|].
  rewrite !usage_where_insert by done. destruct IH as (H1 & H2 & H3).
  unfold usage_le, plus_vm. destruct (p vm); cbn [all_vms t_vms t_vcpus t_memory_mib]; lia.
Qed.

Lemma saturate_plus vm u :
  usage_add (saturate u) (vm_vcpus vm) (vm_memory_mib vm) = saturate (plus_vm vm u).
Proof.
  unfold usage_add, saturate, plus_vm, U.saturating_add. cbn [t_vms t_vcpus t_memory_mib].
  f_equal; lia.
Qed.

Lemma usage_where_vms m : t_vms (usage_where all_vms m) = map_len m.
Proof.
  induction m as [|id vm m Hid IH] using map_ind; [done|].
  rewrite usage_where_insert by done. unfold map_len in *. rewrite map_size_insert_None by done.
  cbn [all_vms plus_vm t_vms]. lia.
Qed.

(** The host total of the rebuilt ledger. *)
Lemma ledger_host m : host (quota_ledger_from m) = saturate (usage_where all_vms m).
Proof.
  induction m as [|id vm m Hid IH] using map_ind; [done|].
  rewrite quota_ledger_from_insert, usage_where_insert by done. cbn [all_vms].
  rewrite <- saturate_plus, <- IH. done.
Qed.

(** A slot of the ledger: the total of its records, absent when there is none. *)
Definition slot_of (u : UsageTotals) : option UsageTotals :=
  if t_vms u =? 0 then None else Some (saturate u).

Lemma slot_of_plus vm u : slot_of (plus_vm vm u) = Some (saturate (plus_vm vm u)).
Proof. unfold slot_of, plus_vm. cbn [t_vms]. by rewrite (proj2 (N.eqb_neq _ _)) by lia. Qed.

Lemma default_slot_of p m : default usage_default (slot_of (usage_where p m)) = saturate (usage_where p m).
Proof.
  induction m as [|id vm m Hid IH] using map_ind; [done|].
  rewrite usage_where_insert by done. destruct (p vm); [by rewrite slot_of_plus|done].
Qed.

Lemma slot_ingest_lookup name vm t sl p m (Hsl : sl !! t = slot_of (usage_where p m)) :
  slot_ingest name (vm_vcpus vm) (vm_memory_mib vm) sl !! t
  = if bool_decide (slot_name name = Some t) then Some (saturate (plus_vm vm (usage_where p m)))
    else slot_of (usage_where p m).
Proof.
  unfold slot_ingest. destruct (slot_name name) as [k|]; [|done].
  destruct (decide (k = t)) as [->|Hne].
  - rewrite bool_decide_true by done. rewrite lookup_insert_eq, Hsl, default_slot_of.
    by rewrite saturate_plus.
  - rewrite bool_decide_false by congruence. by rewrite lookup_insert_ne.
Qed.

Lemma ledger_tenant m t : tenants (quota_ledger_from m) !! t = slot_of (usage_where (tenant_is t) m).
Proof.
  induction m as [|id vm m Hid IH] using map_ind; [done|].
  rewrite quota_ledger_from_insert, usage_where_insert by done.
  unfold ingest_vm, ingest. cbn [tenants]. rewrite (slot_ingest_lookup _ _ _ _ _ _ IH).
  change (bool_decide (slot_name (vm_tenant vm) = Some t)) with (tenant_is t vm).
  destruct (tenant_is t vm); [by rewrite slot_of_plus|done].
Qed.

Lemma ledger_token m t : tokens (quota_ledger_from m) !! t = slot_of (usage_where (token_is t) m).
Proof.
  induction m as [|id vm m Hid IH] using map_ind; [done|].
  rewrite quota_ledger_from_insert, usage_where_insert by done.
  unfold ingest_vm, ingest. cbn [tokens]. rewrite (slot_ingest_lookup _ _ _ _ _ _ IH).
  change (bool_decide (slot_name (vm_token vm) = Some t)) with (token_is t vm).
  destruct (token_is t vm); [by rewrite slot_of_plus|done].
Qed.

(** ** Incremental updates agree with rebuilding *)

(** The totals of the records stay within [u64]. *)
Definition fits (m : vm_map) : Prop :=
  usage_le (usage_where all_vms m) (MkUsage U64MAX U64MAX U64MAX).

#[global] Instance fits_dec m : Decision (fits m).
Proof. unfold fits, usage_le. apply _. Defined.

Lemma room_saturate u v vm :
  usage_le u v -> usage_le (plus_vm vm v) (MkUsage U64MAX U64MAX U64MAX) ->
  room (saturate u) (vm_vcpus vm) (vm_memory_mib vm).
Proof.
  unfold usage_le, room, saturate, plus_vm. cbn [t_vms t_vcpus t_memory_mib]. lia.
Qed.

Lemma slot_of_room p m vm u :
  usage_le (plus_vm vm (usage_where all_vms m)) (MkUsage U64MAX U64MAX U64MAX) ->
  slot_of (usage_where p m) = Some u -> room u (vm_vcpus vm) (vm_memory_mib vm).
Proof.
  unfold slot_of. case_match; [done|]. intros Hr [= <-]. eapply room_saturate; [|done].
  apply usage_where_le.
Qed.

Lemma slot_of_live u v : slot_of u = Some v -> t_vms v <> 0.
Proof.
  unfold slot_of. destruct (N.eqb_spec (t_vms u) 0); [done|]. intros [= <-]. cbn [saturate t_vms].
  assert (0 < U64MAX) by done. lia.
Qed.

Lemma ledger_live m : slots_live (tenants (quota_ledger_from m)) /\ slots_live (tokens (quota_ledger_from m)).
Proof.
  split; intros k u; [rewrite ledger_tenant|rewrite ledger_token]; apply slot_of_live.
Qed.

Lemma release_vm m id vm :
  fits m -> m !! id = Some vm ->
  release (quota_ledger_from m) (vm_tenant vm) (vm_token vm) (vm_vcpus vm) (vm_memory_mib vm)
  = quota_ledger_from (delete id m).
Proof.
  intros Hf Hid. unfold fits in Hf. rewrite (usage_where_delete _ _ _ _ Hid) in Hf. cbn [all_vms] in Hf.
  rewrite (quota_ledger_from_delete _ _ _ Hid). destruct (ledger_live (delete id m)) as [Ht Hk].
  apply release_ingest; [done..| | |].
  - rewrite ledger_host. by eapply room_saturate.
  - intros a u. rewrite ledger_tenant. by apply slot_of_room.
  - intros a u. rewrite ledger_token. by apply slot_of_room.
Qed.

Lemma apply_sample_ingest L vm : apply_sample L (quota_sample vm) false = ingest_vm vm L.
Proof.
  unfold apply_sample, quota_sample, ingest_vm, ingest, slot_ingest. cbn [s_tenant s_token s_vcpus s_memory_mib].
  by rewrite !slot_name_idemp.
Qed.

Lemma apply_sample_release L vm :
  apply_sample L (quota_sample vm) true
  = release L (vm_tenant vm) (vm_token vm) (vm_vcpus vm) (vm_memory_mib vm).
Proof.
  unfold apply_sample, quota_sample, release, slot_release. cbn [s_tenant s_token s_vcpus s_memory_mib].
  by rewrite !slot_name_idemp.
Qed.

Lemma ingest_vm_sample v1 v2 L : quota_sample v1 = quota_sample v2 -> ingest_vm v1 L = ingest_vm v2 L.
Proof. intros H. by rewrite <- !apply_sample_ingest, H. Qed.

(** The contract between an operation and the ledger: the delta it returns
    turns the ledger of the records it found into that of those it left. *)
Definition delta_sound {A} (f : vm_map -> outcome (A * vm_map * LedgerDelta)) (m : vm_map) : Prop :=
  forall r m' d, f m = Ok (r, m', d) -> ledger_step d (quota_ledger_from m) = quota_ledger_from m'.

Lemma insert_sound vm m : m !! vm_id vm = None -> delta_sound (insert_f vm) m.
Proof.
  intros Hid r m' d [= <- <- <-]. cbn [ledger_step].
  by rewrite apply_sample_ingest, quota_ledger_from_insert.
Qed.

Lemma insert_with_cid_sound vm b c m : m !! vm_id vm = None -> delta_sound (insert_with_cid_f vm b c) m.
Proof.
  intros Hid r m' d. unfold insert_with_cid_f.
  assert (Hg : forall v, vm_id v = vm_id vm ->
    ledger_step (Ingest (quota_sample v)) (quota_ledger_from m) = quota_ledger_from (<[vm_id v := v]> m)).
  { intros v Hv. cbn [ledger_step]. rewrite apply_sample_ingest, quota_ledger_from_insert; [done|by rewrite Hv]. }
  destruct b; [destruct (cid_loop _ _ _) as [a|e| |]|]; [|done..|]; intros [= <- <- <-].
  - by apply (Hg (set_cid vm (Some a))).
  - by apply Hg.
Qed.

Lemma update_sound vm m : fits m -> delta_sound (update_f vm) m.
Proof.
  intros Hf r m' d. unfold update_f. destruct (m !! vm_id vm) as [v|] eqn:Hid; [|by intros [= <- <- <-]].
  intros [= <- <- <-]. rewrite (quota_ledger_from_replace _ _ _ _ Hid).
  case_decide as Hs; cbn [ledger_step].
  - rewrite (quota_ledger_from_delete _ _ _ Hid). by apply ingest_vm_sample.
  - by rewrite apply_sample_ingest, apply_sample_release, (release_vm _ _ _ Hf Hid).
Qed.

Lemma remove_sound id m : fits m -> delta_sound (remove_f id) m.
Proof.
  intros Hf r m' d [= <- <- <-]. destruct (m !! id) as [v|] eqn:Hid; cbn [ledger_step].
  - by rewrite apply_sample_release, (release_vm _ _ _ Hf Hid).
  - by rewrite delete_id.
Qed.

Lemma rebuild_sound m : delta_sound rebuild_f m.
Proof. by intros r m' d [= <- <- <-]. Qed.

Lemma ledger_step_untracked d u L : ledger_step d (set_untracked u L) = set_untracked u (ledger_step d L).
Proof. by destruct d. Qed.

(** ** CID allocation *)

(** A scan that starts at [c] and does not leave [u32] ends at the first
    free number. *)
Lemma cid_loop_spec used : forall fuel c,
  (length (filter (fun x => (c <= x)%N) used) < fuel)%nat -> c + N.of_nat fuel <= 2 ^ 32 ->
  exists r, cid_loop fuel used c = Ok r /\ c <= r /\ (r ∉ used) /\ forall x, c <= x < r -> x ∈ used.
Proof.
  induction fuel as [|fuel IH]; intros c Hl Hc; [lia|]. cbn [cid_loop].
  case_bool_decide as Hin; [|by exists c; split_and!; [done|lia|done|intros; lia]].
  assert (Hlt : (length (filter (fun x => (c + 1 <= x)%N) used) < length (filter (fun x => (c <= x)%N) used))%nat).
  { clear -Hin. induction used as [|y l IHl]; [by apply not_elem_of_nil in Hin|].
    assert (Hle : (length (filter (fun x => (c + 1 <= x)%N) l) <= length (filter (fun x => (c <= x)%N) l))%nat).
    { clear. induction l as [|z l IHl]; [done|]. rewrite !filter_cons. repeat case_decide; simpl; lia. }
    rewrite !filter_cons. apply elem_of_cons in Hin as [<-|Hin].
    - rewrite decide_False, decide_True by lia. simpl. lia.
    - specialize (IHl Hin). repeat case_decide; simpl; lia. }
  unfold U.add. rewrite wrap_small by (unfold in_u; lia).
  destruct (IH (c + 1)) as (r & E & H1 & H2 & H3); [lia..|]. exists r. split_and!; [done|lia|done|].
  intros x Hx. destruct (decide (x = c)) as [->|]; [done|]. apply H3. lia.
Qed.

Lemma elem_of_used_cids m c : c ∈ used_cids m <-> exists id vm, m !! id = Some vm /\ guest_cid vm = Some c.
Proof.
  unfold used_cids. rewrite list_elem_of_omap. split.
  - intros ([id vm] & Hin & Hc). apply elem_of_map_to_list in Hin. eauto.
  - intros (id & vm & Hin & Hc). exists (id, vm). by rewrite elem_of_map_to_list.
Qed.

Lemma cid_found m first :
  first + N.of_nat (length (used_cids m)) < 2 ^ 32 ->
  exists r, cid_loop (S (length (used_cids m))) (used_cids m) first = Ok r /\ first <= r
    /\ (r ∉ used_cids m) /\ forall x, first <= x < r -> x ∈ used_cids m.
Proof.
  intros H. apply cid_loop_spec; [|lia].
  pose proof (length_filter (fun x => first <= x) (used_cids m)). lia.
Qed.

(** ** Reachable stores *)

Inductive op :=
| OpInsert (vm : VmRecord)
| OpInsertCid (vm : VmRecord) (first : N)
| OpUpdate (vm : VmRecord)
| OpRemove (id : N)
| OpRebuild
| OpReserve (vcpus memory_mib : N) (policy : Policy)
| OpReleaseHost (vcpus memory_mib : N)
| OpSetHost (vcpus memory_mib : N).

Definition run (w : writes) (t1 t2 : N) (o : op) : M Files admission :=
  match o with
  | OpInsert vm => do! insert_vm w t1 t2 vm in ret (inr tt)
  | OpInsertCid vm first => do! insert_with_cid w t1 t2 vm true first in ret (inr tt)
  | OpUpdate vm => do! update_vm w t1 t2 vm in ret (inr tt)
  | OpRemove id => do! remove_vm w t1 t2 id in ret (inr tt)
  | OpRebuild => do! rebuild_quota_ledger w t1 t2 in ret (inr tt)
  | OpReserve c x p => reserve_untracked_host w t2 c x p
  | OpReleaseHost c x => release_untracked_host w t2 c x
  | OpSetHost c x => set_untracked_host w t2 c x
  end.

(** New records have new ids ([Uuid::new_v4]) and the CID space is not
    exhausted. *)
Definition op_pre (o : op) (m : vm_map) : Prop :=
  match o with
  | OpInsert vm => m !! vm_id vm = None
  | OpInsertCid vm first => m !! vm_id vm = None /\ first + N.of_nat (length (used_cids m)) < 2 ^ 32
  | _ => True
  end.

(** What an operation does to [quotas.json]: it copies the file forward
    ([Preserve]), changes it with the records, rebuilds it, or changes the
    reservations in it only. *)
Inductive effect := Copies | Changes | Rebuilds | Reserves.

Definition delta_effect (d : LedgerDelta) : effect :=
  match d with Preserve => Copies | Rebuild => Rebuilds | _ => Changes end.

Definition op_effect (o : op) (m : vm_map) : effect :=
  match o with
  | OpInsert _ | OpInsertCid _ _ => Changes
  | OpUpdate vm =>
      match m !! vm_id vm with
      | Some v => if decide (quota_sample v = quota_sample vm) then Copies else Changes
      | None => Copies
      end
  | OpRemove id => match m !! id with Some _ => Changes | None => Copies end
  | OpRebuild => Rebuilds
  | OpReserve _ _ _ | OpReleaseHost _ _ | OpSetHost _ _ => Reserves
  end.

Definition admitted (r : outcome admission) : bool :=
  match r with Ok (inr _) => true | _ => false end.

(** How [quotas.json] stands to the records: it holds their totals, it is older
    than [vms.json] (and is rebuilt when read), or neither is known. *)
Inductive ledger_state := Exact | Behind | Stale.

#[global] Instance ledger_state_eq_dec : EqDecision ledger_state.
Proof. solve_decision. Defined.

(** How it stands after an operation, [later] when the operation's writes carry a
    later time than everything before it.  A store becomes [Stale] in two ways
    only: a write that copies the ledger forward completes while the ledger is
    behind, or a changing operation is interrupted within the clock tick of the
    write before it.  A change or an interruption at a later time, and any
    rebuild, end it. *)
Definition state_after (later : bool) (st : ledger_state) (w : writes) (e : effect) (adm : bool) : ledger_state :=
  match w, e with
  | NoWrite, _ | VmsOnly, Reserves => st
  | VmsOnly, _ =>
      match st, e with
      | Behind, _ => Behind
      | Exact, Copies => Exact
      | _, _ => if later then Behind else Stale
      end
  | BothWrites, Reserves => if adm then match st with Stale => Stale | _ => Exact end else st
  | BothWrites, Copies => match st with Exact => Exact | _ => Stale end
  | BothWrites, Changes => match st with Stale => if later then Exact else Stale | _ => Exact end
  | BothWrites, Rebuilds => Exact
  end.

(** Stores reachable by any operations at non-decreasing times, any of them
    interrupted before, between or after its writes. *)
Inductive reach : N -> ledger_state -> Files -> Prop :=
| reach_init : reach 0 Exact no_files
| reach_step now st s m w t1 t2 o :
    reach now st s -> read_map_of s = Ok m -> fits m -> op_pre o m -> now <= t1 -> t1 <= t2 ->
    reach t2 (state_after (now <? t1) st w (op_effect o m) (admitted (run w t1 t2 o s).1)) (run w t1 t2 o s).2.

Definition vms_time (s : Files) : N := match vms_file s with Some (_, t) => t | None => 0 end.

(** What each state says of the ledger file [L], written at [tq]. *)
Definition ledger_fits (st : ledger_state) (s : Files) (m : vm_map) (L : QuotaLedger) (tq : N) : Prop :=
  match st with
  | Exact => L = set_untracked (untracked_host L) (quota_ledger_from m)
  | Behind => tq < vms_time s
  | Stale => True
  end.

Definition store_inv (now : N) (st : ledger_state) (s : Files) (m : vm_map) : Prop :=
  read_map_of s = Ok m /\ vms_time s <= now /\
  match quota_file s with
  | None => True
  | Some (c, tq) => tq <= now /\ exists L, c = Json L /\ ledger_fits st s m L tq
  end.

Lemma load_exact now st s m : store_inv now st s m -> st <> Stale -> load_quota_ledger s m = rebuilt s m.
Proof.
  intros (_ & _ & Hq) Hst. unfold load_quota_ledger, read_warm_ledger, rebuilt, read_untracked_host, vms_time in *.
  destruct (vms_file s) as [[cv tv]|] eqn:Ev, (quota_file s) as [[c tq]|]; [|done..].
  destruct Hq as (_ & L & -> & Hb). destruct (N.ltb_spec tq tv); [done|].
  destruct (ledger_is_warm _ _); [|done]. destruct st; [done| |done]. simpl in Hb. unfold vms_time in Hb. rewrite Ev in Hb. lia.
Qed.

Lemma apply_ledger_delta_map t m n d s : read_map_of (apply_ledger_delta t m n d s) = read_map_of s.
Proof. unfold apply_ledger_delta. by repeat case_match. Qed.

Lemma store_inv_later now now' st s m : store_inv now st s m -> now <= now' -> store_inv now' st s m.
Proof.
  intros (H1 & H2 & H3) Hn. split; [done|]. split; [lia|].
  destruct (quota_file s) as [[c tq]|]; [|done]. destruct H3 as (H3 & H4). split; [lia|done].
Qed.

(** Nothing is asked of a [Stale] ledger but that it is one. *)
Lemma store_inv_stale now st s m : store_inv now st s m -> store_inv now Stale s m.
Proof.
  intros (H1 & H2 & H3). split; [done|]. split; [done|]. destruct (quota_file s) as [[c tq]|]; [|done].
  destruct H3 as (H3 & L & H4 & _). split; [done|]. by exists L.
Qed.

(** Writing a ledger of the right totals, and copying one forward. *)
Lemma write_ledger_inv t st s m L :
  read_map_of s = Ok m -> vms_time s <= t -> ledger_fits st (write_quota_ledger t L s) m L t ->
  store_inv t st (write_quota_ledger t L s) m.
Proof. intros Hr Hv HL. split; [done|]. split; [done|]. cbn. split; [done|]. by exists L. Qed.

(** The first write of an operation, left alone. *)
Lemma crash_inv now st s m m' d t1 :
  store_inv now st s m -> ledger_step d (quota_ledger_from m) = quota_ledger_from m' -> now <= t1 ->
  store_inv t1 (state_after (now <? t1) st VmsOnly (delta_effect d) true) (write_vms t1 m' s) m'.
Proof.
  intros (H1 & H2 & H3) Hd Hn. split; [done|]. cbn. split; [done|].
  destruct (quota_file s) as [[c tq]|]; [|done]. destruct H3 as (H3 & L & -> & HL).
  split; [lia|]. exists L. split; [done|].
  assert (now <? t1 = true -> tq < t1) as Hlt by (intros ?%N.ltb_lt; lia).
  destruct st, d; simpl in *; try destruct (now <? t1); try (by apply Hlt); try done;
    first [by rewrite <- Hd|unfold vms_time in *; simpl; lia].
Qed.

(** Both writes: [Preserve] keeps an exact ledger exact and hides one that is
    behind; a change starts from an exact ledger or rebuilds it. *)
Lemma delta_inv now st s m m' d t1 t2 :
  store_inv now st s m -> ledger_step d (quota_ledger_from m) = quota_ledger_from m' ->
  now <= t1 -> t1 <= t2 ->
  store_inv t2 (state_after (now <? t1) st BothWrites (delta_effect d) true)
    (apply_ledger_delta t2 m' (map_len m) d (write_vms t1 m' s)) m'.
Proof.
  intros (Hr & Hv & Hq) Hd H1 H2. set (s1 := write_vms t1 m' s).
  assert (Hcold : forall st', store_inv t2 st' (write_quota_ledger t2 (rebuilt s1 m') s1) m' \/ st' = Behind).
  { intros [| |]; [left| by right|left]; by apply write_ledger_inv. }
  assert (Hinc : delta_effect d = Changes ->
    store_inv t2 (state_after (now <? t1) st BothWrites Changes true) (apply_ledger_delta t2 m' (map_len m) d s1) m').
  { intros Ed. replace (apply_ledger_delta t2 m' (map_len m) d s1) with
      (match read_warm_ledger s1 (map_len m) with
       | Some L => write_quota_ledger t2 (ledger_step d L) s1
       | None => write_quota_ledger t2 (rebuilt s1 m') s1 end) by by destruct d.
    destruct (read_warm_ledger s1 (map_len m)) as [L|] eqn:E.
    2:{ edestruct Hcold as [Hc|Hc]; [exact Hc|]. by destruct st, (now <? t1). }
    apply write_ledger_inv; [done|done|]. revert E. unfold read_warm_ledger. cbn.
    destruct (quota_file s) as [[c tq]|]; [|done]. destruct Hq as (Hq1 & L0 & -> & Hq2).
    destruct (N.ltb_spec tq t1); [done|]. destruct (ledger_is_warm _ _); [|done]. intros [= <-].
    destruct st; simpl in *; [|lia|destruct (N.ltb_spec now t1); [lia|done]].
    rewrite Hq2, ledger_step_untracked, Hd. done. }
  destruct d; simpl delta_effect in *; try by apply Hinc.
  - cbn. cbn [ledger_step] in Hd. unfold store_inv. destruct (quota_file s) as [[c tq]|] eqn:Eq; cbn.
    + destruct Hq as (_ & L & -> & HL). split; [done|]. split; [done|]. split; [done|]. exists L.
      split; [done|]. destruct st; simpl in *; [by rewrite <- Hd|done|done].
    + rewrite Eq. by split; [|split].
  - by destruct (Hcold Exact).
Qed.

Lemma exclusive_inv {A} (f : vm_map -> outcome (A * vm_map * LedgerDelta)) w t1 t2 now st s m r m' d :
  store_inv now st s m -> delta_sound f m -> f m = Ok (r, m', d) -> now <= t1 -> t1 <= t2 ->
  exists m'', store_inv t2 (state_after (now <? t1) st w (delta_effect d) true) (with_exclusive w t1 t2 f s).2 m''.
Proof.
  intros Hi Hs Hf H1 H2. unfold with_exclusive, read_map, bind, lift. rewrite (proj1 Hi), Hf.
  destruct w; simpl.
  - exists m. eapply store_inv_later; [done|lia].
  - exists m'. eapply store_inv_later; [|exact H2]. eapply crash_inv; eauto.
  - exists m'. eapply delta_inv; eauto.
Qed.

Lemma mutate_inv w t2 now st s m f :
  store_inv now st s m -> now <= t2 -> (forall L L', f L = inr L' -> exists u, L' = set_untracked u L) ->
  forall later, store_inv t2 (state_after later st w Reserves (admitted (mutate_quota w t2 f s).1)) (mutate_quota w t2 f s).2 m.
Proof.
  intros Hi Ht Hf later. unfold mutate_quota, read_map, bind, gets. rewrite (proj1 Hi). simpl.
  destruct (f (load_quota_ledger s m)) as [e|L'] eqn:E; [by destruct w; eapply store_inv_later|].
  destruct w; [by eapply store_inv_later..|]. simpl.
  apply write_ledger_inv; [apply Hi|destruct Hi as (_ & Hv & _); lia|].
  destruct (decide (st = Stale)) as [->|Hst]; [done|]. destruct (Hf _ _ E) as [u ->].
  rewrite (load_exact _ _ _ _ Hi Hst). by destruct st.
Qed.

Lemma bind_state {A B} (g : M Files A) (k : A -> M Files B) s :
  (forall a s', (k a s').2 = s') -> (bind g k s).2 = (g s).2.
Proof. intros Hk. unfold bind. destruct (g s) as [[a|e| |] s']; simpl; [apply Hk|done..]. Qed.

Lemma quota_ledger_state s : (quota_ledger s).2 = s.
Proof. unfold quota_ledger, read_map, bind, gets. by destruct (read_map_of s). Qed.

Lemma quota_ledger_ok now st s m :
  store_inv now st s m -> st <> Stale -> quota_ledger s = (Ok (rebuilt s m), s).
Proof.
  intros Hi Hst. unfold quota_ledger, read_map, bind, gets. rewrite (proj1 Hi). by rewrite (load_exact _ _ _ _ Hi Hst).
Qed.

Lemma state_after_adm later st w e a a' : e <> Reserves -> state_after later st w e a = state_after later st w e a'.
Proof. by destruct w, e. Qed.

Lemma update_delta vm m : exists m' d, update_f vm m = Ok (tt, m', d) /\ delta_effect d = op_effect (OpUpdate vm) m.
Proof.
  unfold update_f, op_effect. destruct (m !! vm_id vm) as [v|]; [|by eexists _, _].
  eexists _, _. split; [done|]. by case_decide.
Qed.

Lemma run_inv now st s m w t1 t2 o :
  store_inv now st s m -> fits m -> op_pre o m -> now <= t1 -> t1 <= t2 ->
  exists m', store_inv t2 (state_after (now <? t1) st w (op_effect o m) (admitted (run w t1 t2 o s).1)) (run w t1 t2 o s).2 m'.
Proof.
  intros Hi Hf Hp H1 H2.
  assert (Hex : forall {A} (f : vm_map -> outcome (A * vm_map * LedgerDelta)) r m' d e a,
    delta_sound f m -> f m = Ok (r, m', d) -> delta_effect d = e -> e <> Reserves ->
    exists m'', store_inv t2 (state_after (now <? t1) st w e a) (with_exclusive w t1 t2 f s).2 m'').
  { intros A f r m' d e a Hs Hfm <- He. rewrite (state_after_adm _ _ _ _ a true He). by eapply exclusive_inv. }
  destruct o.
  6-8: exists m; eapply mutate_inv; [done|lia|]; intros L L';
       unfold and_then; try destruct (enforce_host_totals _ _ _ _); intros [= <-]; by eexists.
  all: cbn [run]; rewrite (bind_state _ _ s) by done.
  - by eapply Hex; [apply insert_sound|..].
  - destruct Hp as [Hp1 Hp2]. destruct (cid_found _ _ Hp2) as (c & Ec & _).
    eapply Hex; [by apply insert_with_cid_sound|unfold insert_with_cid_f; by rewrite Ec|done..].
  - destruct (update_delta vm m) as (m' & d & E & Hd).
    eapply Hex; [by apply update_sound|exact E|done|]. rewrite <- Hd. by destruct d.
  - eapply Hex; [by apply remove_sound|done|simpl; by destruct (m !! id)|simpl; by destruct (m !! id)].
  - unfold rebuild_quota_ledger. rewrite (bind_state _ _ s) by (intros; apply quota_ledger_state).
    by eapply Hex; [apply rebuild_sound|..].
Qed.

(** ** Create-path admission

    The checks of [VmManager::create] between reading the ledger and storing
    the record ([fluxvm-scheduler/src/lib.rs]).  The two take the lock of the
    store separately: the operations other requests complete in between are an
    argument ([others]).  What this request does in between (image checks, the
    operation journal, the workspace) does not touch the store. *)

Record step := MkStep { st_writes : writes; st_t1 : N; st_t2 : N; st_op : op }.

Definition run_steps (l : list step) (s : Files) : Files :=
  foldl (fun s x => (run (st_writes x) (st_t1 x) (st_t2 x) (st_op x) s).2) s l.

Definition FIRST_GUEST_CID : N := 3.

Definition create_admission (policy : Policy) (vm : VmRecord) : M Files admission :=
  let! L := quota_ledger in
  ret (and_then
         (match vm_tenant vm with
          | Some tenant =>
              match p_tenants policy with
              | [] => inr tt
              | _ => enforce_tenant_totals tenant (vm_vcpus vm) (vm_memory_mib vm) policy L
              end
          | None => inr tt
          end)
         (enforce_host_totals (vm_vcpus vm) (vm_memory_mib vm) policy (ledger_for_host_admission L))).

Definition create_vm (others : list step) (t1 t2 : N) (policy : Policy) (vm : VmRecord) (needs_cid : bool) :
    M Files (denial + VmRecord) :=
  let! a := create_admission policy vm in
  match a with
  | inl e => ret (inl e)
  | inr _ =>
      do! modify (run_steps others) in
      let! r := insert_with_cid BothWrites t1 t2 vm needs_cid FIRST_GUEST_CID in
      ret (inr r)
  end.

(** ** Theorems *)

Lemma reach_inv now st s : reach now st s -> exists m, store_inv now st s m.
Proof.
  induction 1 as [|now st s m w t1 t2 o Hr IH Hm Hf Hp H1 H2].
  - by exists ∅.
  - destruct IH as [m0 Hi]. assert (m0 = m) as -> by (destruct Hi; congruence). by eapply run_inv.
Qed.

(** C3: in every store reachable by any operations, each completed, refused or
    interrupted before or between its writes, at times that do not go back, the
    ledger an admission reads is exact (its host total and every tenant's and
    token's slot are the totals of the stored records, a slot is absent exactly
    when it has no record, and the reservations are those on disk), unless the
    store is [Stale]: an interrupted change of the records was followed by a write
    that leaves the sizes alone and copies the old ledger forward, or fell within
    the clock tick of the write before it, and no later change or rebuild has come
    since ([state_after]; [resize_crash_leaves_stale_ledger] shows such a store).
    New records have new ids, guest CIDs do not run out, and the totals stay
    below 2^64. *)
Theorem store_ledger_exact now st s (Hreach : reach now st s) (Hst : st <> Stale) :
  exists m L,
    read_map_of s = Ok m /\ quota_ledger s = (Ok L, s) /\
    host L = saturate (usage_where all_vms m) /\
    (forall t, tenants L !! t = slot_of (usage_where (tenant_is t) m)) /\
    (forall t, tokens L !! t = slot_of (usage_where (token_is t) m)) /\
    untracked_host L = read_untracked_host s.
Proof.
  destruct (reach_inv _ _ _ Hreach) as [m Hi]. exists m, (rebuilt s m).
  split_and!; [apply Hi|by eapply quota_ledger_ok|apply ledger_host|apply ledger_tenant|apply ledger_token|done].
Qed.

Definition acme : rstr := [97; 99; 109; 101].
Definition vm_a : VmRecord := MkVm 1 (Some acme) None 2 512 None [].
Definition vm_a_big : VmRecord := MkVm 1 (Some acme) None 4 2048 None [].
Definition vm_b : VmRecord := MkVm 2 (Some acme) (Some [107]) 1 256 None [].

(** An insert interrupted between its writes, an update that copies the old ledger
    forward, and a later resize that ends the stale state. *)
Lemma store_ledger_exact_witness :
  let s1 := (run BothWrites 1 2 (OpInsertCid vm_a 3) no_files).2 in
  let s2 := (run VmsOnly 3 4 (OpInsert vm_b) s1).2 in
  let s3 := (run BothWrites 5 6 (OpUpdate vm_b) s2).2 in
  let s4 := (run BothWrites 7 8 (OpUpdate vm_a_big) s3).2 in
  reach 4 Behind s2 /\ reach 6 Stale s3 /\ reach 8 Exact s4 /\
  exists m L, read_map_of s4 = Ok m /\ quota_ledger s4 = (Ok L, s4) /\
    host L = saturate (usage_where all_vms m) /\
    (forall t, tenants L !! t = slot_of (usage_where (tenant_is t) m)) /\
    (forall t, tokens L !! t = slot_of (usage_where (token_is t) m)) /\
    untracked_host L = read_untracked_host s4.
Proof.
  intros s1 s2 s3 s4.
  assert (H1 : reach 2 Exact s1).
  { refine (reach_step 0 Exact no_files ∅ BothWrites 1 2 (OpInsertCid vm_a 3) reach_init _ _ _ _ _);
      [done|by_eval|by split|lia|lia]. }
  assert (H2 : reach 4 Behind s2).
  { refine (reach_step 2 Exact s1 {[1 := set_cid vm_a (Some 3)]} VmsOnly 3 4 (OpInsert vm_b) H1 _ _ _ _ _);
      [vm_compute; reflexivity|by_eval|vm_compute; reflexivity|lia|lia]. }
  assert (H3 : reach 6 Stale s3).
  { refine (reach_step 4 Behind s2 (<[2 := vm_b]> {[1 := set_cid vm_a (Some 3)]}) BothWrites 5 6 (OpUpdate vm_b) H2 _ _ _ _ _);
      [vm_compute; reflexivity|by_eval|done|lia|lia]. }
  assert (H4 : reach 8 Exact s4).
  { refine (reach_step 6 Stale s3 (<[2 := vm_b]> {[1 := set_cid vm_a (Some 3)]}) BothWrites 7 8 (OpUpdate vm_a_big) H3 _ _ _ _ _);
      [vm_compute; reflexivity|by_eval|done|lia|lia]. }
  split; [exact H2|]. split; [exact H3|]. split; [exact H4|].
  apply (store_ledger_exact 8 Exact s4 H4). done.
Defined.

(** a record stored with a fresh CID gets the lowest CID from [first]
    upwards that no stored VM uses, every CID it skipped is in use, and the
    record is in the store afterwards. *)
Theorem insert_with_cid_lowest s m vm first t1 t2
    (Hm : read_map_of s = Ok m) (Hid : m !! vm_id vm = None)
    (Hspace : first + N.of_nat (length (used_cids m)) < 2 ^ 32) :
  exists c s',
    insert_with_cid BothWrites t1 t2 vm true first s = (Ok (set_cid vm (Some c)), s') /\
    read_map_of s' = Ok (<[vm_id vm := set_cid vm (Some c)]> m) /\
    first <= c /\
    (forall id v, m !! id = Some v -> guest_cid v <> Some c) /\
    (forall x, first <= x < c -> exists id v, m !! id = Some v /\ guest_cid v = Some x).
Proof.
  destruct (cid_found _ _ Hspace) as (c & Ec & H1 & H2 & H3). eexists c, _. split_and!.
  - unfold insert_with_cid, with_exclusive, read_map, bind, lift, insert_with_cid_f. rewrite Hm, Ec. done.
  - by rewrite apply_ledger_delta_map.
  - done.
  - intros id v Hv Hc. apply H2, elem_of_used_cids. eauto.
  - intros x Hx. apply elem_of_used_cids. auto.
Qed.

Lemma insert_with_cid_lowest_witness :
  let s := (run BothWrites 1 2 (OpInsertCid vm_a 3) no_files).2 in
  let m : vm_map := {[1 := set_cid vm_a (Some 3)]} in
  exists c s',
    insert_with_cid BothWrites 3 4 vm_b true 3 s = (Ok (set_cid vm_b (Some c)), s') /\
    read_map_of s' = Ok (<[vm_id vm_b := set_cid vm_b (Some c)]> m) /\
    3 <= c /\
    (forall id v, m !! id = Some v -> guest_cid v <> Some c) /\
    (forall x, 3 <= x < c -> exists id v, m !! id = Some v /\ guest_cid v = Some x).
Proof.
  intros s m. apply (insert_with_cid_lowest s m vm_b 3 3 4); [vm_compute; reflexivity..].
Defined.

(** A tenant's totals are within its caps. *)
Definition within (tp : TenantPolicy) (u : UsageTotals) : Prop :=
  (forall max, max_vms_total tp = Some max -> t_vms u <= max) /\
  (forall max, max_vcpus_total tp = Some max -> t_vcpus u <= max) /\
  (forall max, max_memory_mib_total tp = Some max -> t_memory_mib u <= max).

Lemma and_then_inr {A} (r : admission) (k : denial + A) a : and_then r k = inr a -> r = inr tt /\ k = inr a.
Proof. by destruct r as [|[]]. Qed.

Lemma cap_count_inr cap used : cap_count cap used = inr tt -> forall max, cap = Some max -> used < max.
Proof. intros H max ->. unfold cap_count in H. destruct (N.leb_spec max used); [done|lia]. Qed.

Lemma cap_sum_inr e cap used req :
  cap_sum e cap used req = inr tt -> forall max, cap = Some max -> U.saturating_add 64 used req <= max.
Proof. intros H max ->. unfold cap_sum in H. destruct (N.ltb_spec max (U.saturating_add 64 used req)); [done|lia]. Qed.

Lemma tenant_admitted t tp vm policy m :
  find_tenant t (p_tenants policy) = Some tp ->
  enforce_tenant_totals t (vm_vcpus vm) (vm_memory_mib vm) policy (quota_ledger_from m) = inr tt ->
  usage_le (plus_vm vm (usage_where (tenant_is t) m)) (MkUsage U64MAX U64MAX U64MAX) ->
  within tp (plus_vm vm (usage_where (tenant_is t) m)).
Proof.
  unfold enforce_tenant_totals. intros ->. rewrite ledger_tenant, default_slot_of.
  intros (Hv & (Hc & Hx)%and_then_inr)%and_then_inr (F1 & F2 & F3).
  pose proof (cap_count_inr _ _ Hv) as Hv'. pose proof (cap_sum_inr _ _ _ _ Hc) as Hc'.
  pose proof (cap_sum_inr _ _ _ _ Hx) as Hx'. clear Hv Hc Hx.
  unfold saturate, plus_vm, U.saturating_add in *. cbn [t_vms t_vcpus t_memory_mib] in *.
  split_and!; intros max E; [specialize (Hv' _ E)|specialize (Hc' _ E)|specialize (Hx' _ E)];
    cbn [t_vms t_vcpus t_memory_mib]; lia.
Qed.

Lemma with_exclusive_result {A} (f : vm_map -> outcome (A * vm_map * LedgerDelta)) s m t1 t2 r s' :
  read_map_of s = Ok m -> with_exclusive BothWrites t1 t2 f s = (Ok r, s') ->
  exists m' d, f m = Ok (r, m', d) /\ read_map_of s' = Ok m'.
Proof.
  intros Hm. unfold with_exclusive, read_map, bind, lift. rewrite Hm.
  destruct (f m) as [[[r0 m'] d]|e| |]; [|done..]. intros Heq.
  pose proof (f_equal fst Heq) as H1. pose proof (f_equal snd Heq) as H2.
  cbn [fst snd modify ret] in H1, H2. injection H1 as ->.
  exists m', d. split; [done|]. by rewrite <- H2, apply_ledger_delta_map.
Qed.

Lemma insert_with_cid_result s m vm b first t1 t2 r s' :
  read_map_of s = Ok m -> insert_with_cid BothWrites t1 t2 vm b first s = (Ok r, s') ->
  (exists c, r = set_cid vm c) /\ read_map_of s' = Ok (<[vm_id vm := r]> m).
Proof.
  intros Hm (m' & d & Hf & ->)%(with_exclusive_result _ _ _ _ _ _ _ Hm). unfold insert_with_cid_f in Hf.
  destruct b; [destruct (cid_loop _ _ _) as [c|e| |]|]; simplify_eq/=; (split; [|done]); [by eexists|].
  exists (guest_cid r). by destruct r.
Qed.

(** Splits an admitted create into the checks that passed and the insert. *)
Lemma create_admitted now st s m others vm policy b t1 t2 r s' :
  store_inv now st s m -> st <> Stale -> create_vm others t1 t2 policy vm b s = (Ok (inr r), s') ->
  (forall t tp, vm_tenant vm = Some t -> find_tenant t (p_tenants policy) = Some tp ->
     enforce_tenant_totals t (vm_vcpus vm) (vm_memory_mib vm) policy (quota_ledger_from m) = inr tt) /\
  enforce_host_totals (vm_vcpus vm) (vm_memory_mib vm) policy (ledger_for_host_admission (rebuilt s m)) = inr tt /\
  insert_with_cid BothWrites t1 t2 vm b FIRST_GUEST_CID (run_steps others s) = (Ok r, s').
Proof.
  intros Hi Hst. unfold create_vm, create_admission, bind. rewrite (quota_ledger_ok _ _ _ _ Hi Hst). cbn [ret].
  destruct (and_then _ _) as [|[]] eqn:Ha; [done|]. apply and_then_inr in Ha as [Ht Hh]. cbn [modify].
  destruct (insert_with_cid _ _ _ _ _ _ _) as [[r0|e| |] s0]; [|done..]. intros [= -> ->].
  split_and!; [|done|done]. intros t tp E Hf. rewrite E in Ht. destruct (p_tenants policy); [done|exact Ht].
Qed.

Lemma host_admitted s m vm policy :
  enforce_host_totals (vm_vcpus vm) (vm_memory_mib vm) policy (ledger_for_host_admission (rebuilt s m)) = inr tt ->
  (forall max, max_vcpus_host policy = Some max -> max < U64MAX ->
     t_vcpus (plus_vm vm (usage_where all_vms m)) + t_vcpus (read_untracked_host s) <= max) /\
  (forall max, max_memory_mib_host policy = Some max -> max < U64MAX ->
     t_memory_mib (plus_vm vm (usage_where all_vms m)) + t_memory_mib (read_untracked_host s) <= max).
Proof.
  unfold enforce_host_totals, ledger_for_host_admission, rebuilt, set_untracked. cbn [host untracked_host t_vcpus t_memory_mib].
  rewrite ledger_host. intros (Hc & Hx)%and_then_inr.
  pose proof (cap_sum_inr _ _ _ _ Hc) as Hc'. pose proof (cap_sum_inr _ _ _ _ Hx) as Hx'. clear Hc Hx.
  unfold saturate, plus_vm, U.saturating_add in *. cbn [t_vms t_vcpus t_memory_mib] in *.
  split; intros max E Hlt; [specialize (Hc' _ E)|specialize (Hx' _ E)]; lia.
Qed.

(** What other operations added between two states. *)
Definition growth (before after : UsageTotals) : UsageTotals :=
  MkUsage (t_vms after - t_vms before) (t_vcpus after - t_vcpus before) (t_memory_mib after - t_memory_mib before).

Definition within_grown (tp : TenantPolicy) (g u : UsageTotals) : Prop :=
  (forall max, max_vms_total tp = Some max -> t_vms u <= max + t_vms g) /\
  (forall max, max_vcpus_total tp = Some max -> t_vcpus u <= max + t_vcpus g) /\
  (forall max, max_memory_mib_total tp = Some max -> t_memory_mib u <= max + t_memory_mib g).

(** Records and reservations of the host together. *)
Definition host_usage (s : Files) (m : vm_map) : UsageTotals :=
  let u := usage_where all_vms m in
  MkUsage (t_vms u) (t_vcpus u + t_vcpus (read_untracked_host s)) (t_memory_mib u + t_memory_mib (read_untracked_host s)).

Lemma within_later tp vm u v : within tp (plus_vm vm u) -> within_grown tp (growth u v) (plus_vm vm v).
Proof.
  unfold within, within_grown, growth, plus_vm. cbn [t_vms t_vcpus t_memory_mib]. intros (H1 & H2 & H3).
  split_and!; intros max E; [specialize (H1 _ E)|specialize (H2 _ E)|specialize (H3 _ E)]; lia.
Qed.

(** C40: an admitted create leaves its tenant within every cap of its policy
    entry, and the host with its reservations within the host caps, but for what
    other operations added between its check and its insert, which take the lock
    separately: a cap is exceeded by at most that much, and not at all when nothing
    completed in between ([create_race_exceeds_cap] shows two creates that race).
    It starts from any reachable store that is not [Stale], a ledger left behind by a
    crash included.  The tenant is named without surrounding blanks (another
    spelling is charged but not checked, [untrimmed_tenant_unchecked]), and a host
    cap of 2^64 - 1 counts as none. *)
Theorem create_respects_caps now st s m others m1 vm policy needs_cid t1 t2 r s'
    (Hreach : reach now st s) (Hst : st <> Stale) (Hm : read_map_of s = Ok m)
    (Hm1 : read_map_of (run_steps others s) = Ok m1) (Hid : m1 !! vm_id vm = None)
    (Hcreate : create_vm others t1 t2 policy vm needs_cid s = (Ok (inr r), s'))
    (Hfits : usage_le (plus_vm vm (usage_where all_vms m)) (MkUsage U64MAX U64MAX U64MAX)) :
  let s1 := run_steps others s in
  let m' := <[vm_id vm := r]> m1 in
  read_map_of s' = Ok m' /\
  (forall t tp, vm_tenant vm = Some t -> slot_name (Some t) = Some t ->
     find_tenant t (p_tenants policy) = Some tp ->
     within_grown tp (growth (usage_where (tenant_is t) m) (usage_where (tenant_is t) m1)) (usage_where (tenant_is t) m')) /\
  (forall max, max_vcpus_host policy = Some max -> max < U64MAX ->
     t_vcpus (host_usage s1 m') <= max + t_vcpus (growth (host_usage s m) (host_usage s1 m1))) /\
  (forall max, max_memory_mib_host policy = Some max -> max < U64MAX ->
     t_memory_mib (host_usage s1 m') <= max + t_memory_mib (growth (host_usage s m) (host_usage s1 m1))).
Proof.
  destruct (reach_inv _ _ _ Hreach) as [m0 Hi]. assert (m0 = m) as -> by (destruct Hi; congruence).
  destruct (create_admitted _ _ _ _ _ _ _ _ _ _ _ _ Hi Hst Hcreate) as (Ht & [Hc Hx]%host_admitted & Hins).
  destruct (insert_with_cid_result _ _ _ _ _ _ _ _ _ Hm1 Hins) as [[c ->] Hm'].
  intros s1 m'. split; [done|]. unfold m'. split.
  - intros t tp Et Hs Hf. rewrite usage_where_insert by done. unfold tenant_is at 3.
    cbn [set_cid vm_tenant]. rewrite bool_decide_true by (by rewrite Et).
    apply (within_later tp vm), (tenant_admitted t tp vm policy m); [done|by eapply Ht|].
    destruct (usage_where_le (tenant_is t) m) as (H1 & H2 & H3). destruct Hfits as (F1 & F2 & F3).
    unfold usage_le in *. cbn [plus_vm t_vms t_vcpus t_memory_mib] in *. lia.
  - unfold host_usage, growth. rewrite !usage_where_insert by done. cbn [all_vms t_vcpus t_memory_mib].
    unfold plus_vm in *. cbn [set_cid vm_vcpus vm_memory_mib t_vcpus t_memory_mib] in *.
    split; intros max E Hlt; [specialize (Hc _ E Hlt)|specialize (Hx _ E Hlt)]; lia.
Qed.

Definition acme_policy : Policy := MkPolicy (Some 8) (Some 4096) [MkTenantPolicy acme (Some 4) (Some 1024) (Some 2)].

(** Another tenant's VM and a reservation come in between. *)
Definition demo_others : list step :=
  [MkStep BothWrites 1 2 (OpInsert (MkVm 9 None None 1 128 None [])); MkStep BothWrites 3 4 (OpSetHost 2 64)].

Lemma create_respects_caps_witness :
  let s := no_files in
  let s1 := run_steps demo_others s in
  let s' := (create_vm demo_others 5 6 acme_policy vm_a true s).2 in
  let r := set_cid vm_a (Some 3) in
  let m1 : vm_map := {[9 := MkVm 9 None None 1 128 None []]} in
  let m' : vm_map := <[1 := r]> m1 in
  read_map_of s' = Ok m' /\
  (forall t tp, vm_tenant vm_a = Some t -> slot_name (Some t) = Some t ->
     find_tenant t (p_tenants acme_policy) = Some tp ->
     within_grown tp (growth (usage_where (tenant_is t) ∅) (usage_where (tenant_is t) m1)) (usage_where (tenant_is t) m')) /\
  (forall max, max_vcpus_host acme_policy = Some max -> max < U64MAX ->
     t_vcpus (host_usage s1 m') <= max + t_vcpus (growth (host_usage s ∅) (host_usage s1 m1))) /\
  (forall max, max_memory_mib_host acme_policy = Some max -> max < U64MAX ->
     t_memory_mib (host_usage s1 m') <= max + t_memory_mib (growth (host_usage s ∅) (host_usage s1 m1))).
Proof.
  intros s s1 s' r m1 m'. apply (create_respects_caps 0 Exact s ∅ demo_others m1 vm_a acme_policy true 5 6 r s' reach_init);
    [done|done|vm_compute; reflexivity|vm_compute; reflexivity|vm_compute; reflexivity|by_eval].
Defined.

(** The check and the insert take the lock separately: two creates that both
    read the ledger before either inserts are both admitted, and the tenant
    ends over its cap. *)
Example create_race_exceeds_cap :
  let policy := MkPolicy None None [MkTenantPolicy acme None None (Some 1)] in
  (create_admission policy vm_a no_files).1 = Ok (inr tt) /\
  (create_admission policy vm_b no_files).1 = Ok (inr tt) /\
  let s2 := (create_vm [MkStep BothWrites 1 2 (OpInsertCid vm_a FIRST_GUEST_CID)] 3 4 policy vm_b true no_files).2 in
  exists m, read_map_of s2 = Ok m /\ t_vms (usage_where (tenant_is acme) m) = 2.
Proof. split; [done|]. split; [done|]. eexists. split; vm_compute; reflexivity. Qed.

(** A tenant name with a surrounding blank is charged to the trimmed slot and
    checked against none. *)
Example untrimmed_tenant_unchecked :
  let policy := MkPolicy None None [MkTenantPolicy acme None None (Some 0)] in
  let vm := MkVm 7 (Some (acme ++ [32])) None 1 1 None [] in
  create_admission policy vm no_files = (Ok (inr tt), no_files) /\
  tenants (ingest_vm vm ledger_default) !! acme = Some (MkUsage 1 1 1).
Proof. split; vm_compute; reflexivity. Qed.

(** how the ledger goes stale: an update that changes a record's
    size is interrupted between its two writes, and the next update of that
    record changes no size.  The second update copies the old [quotas.json]
    forward, and admissions then read the totals from before the resize. *)
Theorem resize_crash_leaves_stale_ledger now s m tq L v vm vm' t1 t2 t3
    (Hreach : reach now Exact s) (Hm : read_map_of s = Ok m) (Hq : quota_file s = Some (Json L, tq))
    (Hv : m !! vm_id vm = Some v) (Hid : vm_id vm' = vm_id vm)
    (Hsame : quota_sample vm' = quota_sample vm) (Hfits : fits m) (Ht : t2 <= t3) :
  let s1 := (update_vm VmsOnly t1 t1 vm s).2 in
  let s2 := (update_vm BothWrites t2 t3 vm' s1).2 in
  read_map_of s2 = Ok (<[vm_id vm := vm']> m) /\
  quota_ledger s2 = (Ok L, s2) /\ host L = saturate (usage_where all_vms m).
Proof.
  destruct (reach_inv _ _ _ Hreach) as [m0 Hi]. assert (m0 = m) as -> by (destruct Hi; congruence).
  destruct Hi as (_ & _ & HL). rewrite Hq in HL. destruct HL as (_ & L' & [= <-] & HL).
  assert (Hh : host L = saturate (usage_where all_vms m)) by (rewrite HL; apply ledger_host).
  intros s1 s2.
  assert (E1 : s1 = write_vms t1 (<[vm_id vm := vm]> m) s).
  { subst s1. unfold update_vm, with_exclusive, read_map, bind, lift, update_f. by rewrite Hm, Hv. }
  assert (E2 : s2 = MkFiles (Some (Json (<[vm_id vm := vm']> m), t2)) (Some (Json L, t3))).
  { subst s2. rewrite E1. unfold update_vm, with_exclusive, read_map, bind, lift, update_f.
    cbn [read_map_of write_vms vms_file]. rewrite Hid, lookup_insert_eq, decide_True by done.
    cbn. by rewrite Hq, insert_insert_eq. }
  rewrite E2. split_and!; [done| |done].
  unfold quota_ledger, load_quota_ledger, read_warm_ledger, read_map, bind, gets. cbn.
  destruct (N.ltb_spec t3 t2); [lia|]. unfold ledger_is_warm, map_len.
  rewrite map_size_insert_Some by (by eexists). rewrite Hh. cbn [saturate t_vms].
  rewrite usage_where_vms. destruct Hfits as (F & _). rewrite usage_where_vms in F. cbn [t_vms] in F.
  rewrite N.min_l by done. unfold map_len. by rewrite N.eqb_refl.
Qed.

Lemma resize_crash_leaves_stale_ledger_witness :
  let s := (run BothWrites 1 2 (OpInsert vm_a) no_files).2 in
  let L := ingest_vm vm_a ledger_default in
  let s1 := (update_vm VmsOnly 3 3 vm_a_big s).2 in
  let s2 := (update_vm BothWrites 4 5 vm_a_big s1).2 in
  let m : vm_map := {[1 := vm_a]} in
  read_map_of s2 = Ok (<[vm_id vm_a_big := vm_a_big]> m) /\
  quota_ledger s2 = (Ok L, s2) /\ host L = saturate (usage_where all_vms m).
Proof.
  intros s L s1 s2 m.
  assert (H1 : reach 2 Exact s).
  { refine (reach_step 0 Exact no_files ∅ BothWrites 1 2 (OpInsert vm_a) reach_init _ _ _ _ _);
      [done|by_eval|done|lia|lia]. }
  apply (resize_crash_leaves_stale_ledger 2 s m 2 L vm_a vm_a_big vm_a_big 3 4 5 H1);
    [vm_compute; reflexivity|vm_compute; reflexivity|done|done|done|by_eval|lia].
Defined.
