(* ===== verification/Pools.v ===== *)
(** * The warm-pool store

    Models [PoolStore] of [fluxvm-storage/src/lib.rs]: pools by name in one
    file, every operation a read-modify-write under the exclusive lock, so
    that operations of concurrent processes interleave only as whole steps.
    [ok] says whether an operation's durable write completes. *)

From stdpp Require Import prelude list gmap.
From Stdlib Require Import NArith Lia.
From S2P Require Import Prelude RustStr Quota VmStore.

(** [template] is the [CreateVmRequest] the pool's members are made from,
    which the store only copies. *)
Record PoolRecord := MkPool {
  pool_name : rstr;
  pool_size : N;
  template : list N;
  members : list N;
  claimed_total : N
}.

Notation pool_map := (gmap rstr PoolRecord).
Notation PoolFile := (option (content pool_map)).

Definition read_pools : M PoolFile pool_map := fun f =>
  (match f with
   | None | Some Blank => Ok ∅
   | Some (Json m) => Ok m
   | Some Garbage => Err Io
   end, f).

Definition pool_exclusive {A} (ok : bool) (f : pool_map -> A * pool_map) : M PoolFile A :=
  let! m := read_pools in
  let '(r, m') := f m in
  if ok then do! modify (fun _ => Some (Json m')) in ret r else throw Io.

Definition set_members (l : list N) (p : PoolRecord) : PoolRecord :=
  MkPool (pool_name p) (pool_size p) (template p) l (claimed_total p).

Definition insert_pool (ok : bool) (pool : PoolRecord) : M PoolFile unit :=
  pool_exclusive ok (fun m => (tt, <[pool_name pool := pool]> m)).

(** [get]: an unreadable file reads as no pool. *)
Definition get_pool (name : rstr) (f : PoolFile) : option PoolRecord :=
  match (read_pools f).1 with Ok m => m !! name | _ => None end.

Definition remove_pool (ok : bool) (name : rstr) : M PoolFile (option PoolRecord) :=
  pool_exclusive ok (fun m => (m !! name, delete name m)).

(** [Vec::pop] takes the last member. *)
Definition pop_member (ok : bool) (name : rstr) : M PoolFile (option N) :=
  pool_exclusive ok (fun m =>
    match m !! name with
    | Some p =>
        match reverse (members p) with
        | x :: r => (Some x, <[name := set_members (reverse r) p]> m)
        | [] => (None, m)
        end
    | None => (None, m)
    end).

Definition push_member (ok : bool) (name : rstr) (member : N) : M PoolFile bool :=
  pool_exclusive ok (fun m =>
    match m !! name with
    | Some p => (true, <[name := set_members (members p ++ [member]) p]> m)
    | None => (false, m)
    end).

Definition increment_claimed (ok : bool) (name : rstr) : M PoolFile unit :=
  pool_exclusive ok (fun m =>
    match m !! name with
    | Some p =>
        (tt, <[name := MkPool (pool_name p) (pool_size p) (template p) (members p)
                              (U.add 64 (claimed_total p) 1)]> m)
    | None => (tt, m)
    end).

Definition set_size (ok : bool) (name : rstr) (n : N) : M PoolFile (option PoolRecord) :=
  pool_exclusive ok (fun m =>
    match m !! name with
    | Some p =>
        let p' := MkPool (pool_name p) n (template p) (members p) (claimed_total p) in
        (Some p', <[name := p']> m)
    | None => (None, m)
    end).

(** ** Interleavings *)

Inductive pool_op :=
| PInsert (pool : PoolRecord)
| PRemove (name : rstr)
| PPop (name : rstr)
| PPush (name : rstr) (member : N)
| PClaim (name : rstr)
| PResize (name : rstr) (n : N).

(** The file after an operation, the members it hands out of the pool
    [pool] and the members it adds to it. *)
Definition pool_effect (pool : rstr) (ok : bool) (o : pool_op) (f : PoolFile) :
    PoolFile * list N * list N :=
  match o with
  | PInsert p => ((insert_pool ok p f).2, [], [])
  | PRemove n => ((remove_pool ok n f).2, [], [])
  | PPop n =>
      let '(r, f') := pop_member ok n f in
      (f', match r with Ok (Some x) => if bool_decide (n = pool) then [x] else [] | _ => [] end, [])
  | PPush n x =>
      let '(r, f') := push_member ok n x f in
      (f', [], match r with Ok true => if bool_decide (n = pool) then [x] else [] | _ => [] end)
  | PClaim n => ((increment_claimed ok n f).2, [], [])
  | PResize n k => ((set_size ok n k f).2, [], [])
  end.

(** A schedule: each operation with whether its write completes. *)
Fixpoint pool_run (pool : rstr) (ops : list (bool * pool_op)) (f : PoolFile) : PoolFile * list N * list N :=
  match ops with
  | [] => (f, [], [])
  | (ok, o) :: r =>
      let '(f1, out1, in1) := pool_effect pool ok o f in
      let '(f2, out2, in2) := pool_run pool r f1 in
      (f2, out1 ++ out2, in1 ++ in2)
  end.

(** The operation does not create or delete [pool] itself. *)
Definition keeps_pool (pool : rstr) (o : pool_op) : bool :=
  match o with
  | PInsert p => negb (bool_decide (pool_name p = pool))
  | PRemove n => negb (bool_decide (n = pool))
  | _ => true
  end.

Lemma pool_exclusive_json {A} (ok : bool) (f : pool_map -> A * pool_map) (m : pool_map) :
  pool_exclusive ok f (Some (Json m))
  = if ok then (Ok (f m).1, Some (Json (f m).2)) else (Err Io, Some (Json m)).
Proof. unfold pool_exclusive, bind, read_pools. destruct (f m), ok; done. Qed.

(** What a step may do to the members of [pool]. *)
Definition conserves (pool : rstr) (p : PoolRecord) (r : PoolFile * list N * list N) : Prop :=
  exists m' p' out inn,
    r = (Some (Json m'), out, inn) /\ m' !! pool = Some p' /\ members p ++ inn ≡ₚ out ++ members p'.

Lemma conserves_same (pool : rstr) (p : PoolRecord) (m : pool_map) : m !! pool = Some p -> conserves pool p (Some (Json m), [], []).
Proof. intros Hp. exists m, p, [], []. split; [done|]. split; [done|]. by rewrite app_nil_r. Qed.

Lemma conserves_other (pool : rstr) (p : PoolRecord) (m : pool_map) (n : rstr) q :
  m !! pool = Some p -> n <> pool -> conserves pool p (Some (Json (<[n := q]> m)), [], []).
Proof. intros Hp Hn. apply conserves_same. by rewrite lookup_insert_ne. Qed.

Lemma conserves_at (pool : rstr) (p : PoolRecord) (m : pool_map) q out inn :
  members p ++ inn ≡ₚ out ++ members q -> conserves pool p (Some (Json (<[pool := q]> m)), out, inn).
Proof. intros Hm. exists (<[pool := q]> m), q, out, inn. by rewrite lookup_insert_eq. Qed.

(** One step conserves the pool's members. *)
Lemma pool_effect_conserves (pool : rstr) (ok : bool) (o : pool_op) (m : pool_map) (p : PoolRecord) :
  m !! pool = Some p -> keeps_pool pool o = true -> conserves pool p (pool_effect pool ok o (Some (Json m))).
Proof.
  intros Hp Hk. destruct o as [q|n|n|n x|n|n k]; simpl in Hk; unfold pool_effect, insert_pool, remove_pool,
    pop_member, push_member, increment_claimed, set_size; rewrite !pool_exclusive_json;
    cbn beta iota zeta delta [fst snd]; destruct ok; cbn [fst snd]; [|by apply conserves_same|..].
  - apply negb_true_iff, bool_decide_eq_false in Hk. by apply conserves_other.
  - apply negb_true_iff, bool_decide_eq_false in Hk. apply conserves_same. by rewrite lookup_delete_ne.
  - by apply conserves_same.
  - destruct (m !! n) as [q|] eqn:Hn; [|by apply conserves_same].
    destruct (reverse (members q)) as [|x r] eqn:Er; [by apply conserves_same|].
    case_bool_decide as E; [subst n|by apply conserves_other]. assert (q = p) as -> by congruence.
    apply conserves_at. apply (f_equal reverse) in Er. rewrite reverse_involutive, reverse_cons in Er.
    simpl. rewrite Er, app_nil_r. apply Permutation_app_comm.
  - by apply conserves_same.
  - destruct (m !! n) as [q|] eqn:Hn; [|by apply conserves_same].
    case_bool_decide as E; [subst n|by apply conserves_other]. assert (q = p) as -> by congruence.
    by apply conserves_at.
  - by apply conserves_same.
  - destruct (m !! n) as [q|] eqn:Hn; [|by apply conserves_same].
    destruct (decide (n = pool)) as [->|]; [|by apply conserves_other]. assert (q = p) as -> by congruence.
    apply conserves_at. by rewrite app_nil_r.
  - by apply conserves_same.
  - destruct (m !! n) as [q|] eqn:Hn; [|by apply conserves_same].
    destruct (decide (n = pool)) as [->|]; [|by apply conserves_other]. assert (q = p) as -> by congruence.
    apply conserves_at. by rewrite app_nil_r.
  - by apply conserves_same.
Qed.

(** while a pool exists, its members and those added to it are, whatever
    the interleaving of operations and write failures, exactly those handed
    out and those still in it: none is lost and, its ids being distinct, none
    is handed out twice. *)
Theorem pool_members_conserved (pool : rstr) (ops : list (bool * pool_op)) (m : pool_map) (p : PoolRecord)
    (Hp : m !! pool = Some p) (Hk : Forall (fun '(_, o) => keeps_pool pool o = true) ops) :
  exists m' p' out inn,
    pool_run pool ops (Some (Json m)) = (Some (Json m'), out, inn) /\
    m' !! pool = Some p' /\ members p ++ inn ≡ₚ out ++ members p' /\
    (NoDup (members p ++ inn) -> NoDup out).
Proof.
  revert m p Hp. induction Hk as [|[ok o] r Ho Hr IH]; intros m p Hp.
  - exists m, p, [], []. rewrite app_nil_r. by repeat split; [..|constructor].
  - destruct (pool_effect_conserves pool ok o m p Hp Ho) as (m1 & p1 & out1 & in1 & E1 & Hp1 & Hm1).
    destruct (IH _ _ Hp1) as (m2 & p2 & out2 & in2 & E2 & Hp2 & Hm2 & _).
    exists m2, p2, (out1 ++ out2), (in1 ++ in2). cbn [pool_run]. rewrite E1, E2.
    assert (Hall : members p ++ in1 ++ in2 ≡ₚ (out1 ++ out2) ++ members p2).
    { by rewrite app_assoc, Hm1, <- (app_assoc out1), Hm2, app_assoc. }
    split_and!; [done|done|done|]. rewrite Hall. by intros (H & _)%NoDup_app.
Qed.

Lemma pool_members_conserved_witness :
  let p := MkPool acme 2 [] [10; 11] 0 in
  let m : pool_map := {[acme := p]} in
  let ops := [(true, PPop acme); (true, PPush acme 12); (false, PPop acme); (true, PPop acme); (true, PClaim acme)] in
  exists m' p' out inn,
    pool_run acme ops (Some (Json m)) = (Some (Json m'), out, inn) /\
    m' !! acme = Some p' /\ members p ++ inn ≡ₚ out ++ members p' /\
    (NoDup (members p ++ inn) -> NoDup out).
Proof.
  intros p m ops. apply (pool_members_conserved acme ops m p); [by vm_compute|repeat constructor].
Defined.
