(* ===== verification/HttpAcl.v ===== *)
(** * The HTTP access list of the egress proxy

    [fluxvm-network/src/http_acl.rs]: parsing rules, globs, path and host
    canonicalisation, the verdict on a request and on a [CONNECT] tunnel, and
    the rule-set lint.  Strings are lists of code points; the code's byte
    loops run on their UTF-8 encoding ([as_bytes]).  Messages are constructors
    that carry what the message prints. *)

From stdpp Require Import prelude list strings.
From Stdlib Require Import NArith Lia.
From S2P Require Import Prelude RustStr.

(** ** Data *)

Inductive Action := AllowRule | DenyRule.

#[global] Instance Action_eq_dec : EqDecision Action.
Proof. solve_decision. Defined.

Record Rule := MkRule {
  action : Action;
  method : option rstr;
  rhost : rstr;
  rpath : option rstr;
  source : rstr
}.

#[global] Instance Rule_eq_dec : EqDecision Rule.
Proof. solve_decision. Defined.

Inductive path_error :=
| NoLeadingSlash (raw : rstr)
| MalformedEscape
| EncodedNul
| EncodedSlash
| RawBackslash
| ControlByte.

Inductive deny_reason :=
| RejectedPath (e : path_error)
| DeniedBy (rule : rstr)
| NoAllow (method host path : rstr)
| HostDeniedBy (host rule : rstr)
| NoAllowForHost (host : rstr)
| TunnelDenied (host rule : rstr)
| TunnelNotCovered (host : rstr).

Inductive Verdict := Allow | Deny (r : deny_reason).

Definition is_allow (v : Verdict) : bool := match v with Allow => true | Deny _ => false end.

Inductive rule_error :=
| BadShape
| UnknownAction (a : rstr)
| InvalidMethod (m : rstr)
| EmptyHostGlob
| BadHostChar
| GlobChar
| GlobDoubleSlash
| GlobDotSegment.

(** ** Globs *)

(** The main loop of [glob_match] on bytes; [Ok None] is its [return false],
    [Ok (Some pi)] its exit at the end of the text. *)
Fixpoint glob_loop (fuel : nat) (p t : bytes) (pi ti : nat) (star : option nat) (mark : nat) :
    outcome (option nat) :=
  match fuel with
  | O => Loop
  | S fuel =>
      match t !! ti with
      | None => Ok (Some pi)
      | Some c =>
          if bool_decide (p !! pi = Some 42) then glob_loop fuel p t (S pi) ti (Some pi) ti
          else if bool_decide (p !! pi = Some c) then glob_loop fuel p t (S pi) (S ti) star mark
          else match star with
               | Some s => glob_loop fuel p t (S s) (S mark) star (S mark)
               | None => Ok None
               end
      end
  end.

(** How far [while pi < p.len() && p[pi] == b'*' { pi += 1 }] advances. *)
Fixpoint stars (p : bytes) : nat :=
  match p with c :: p => if c =? 42 then S (stars p) else O | [] => O end.

Definition glob_fuel (p t : bytes) : nat := S ((length t + 1) * (length p + 1)).

Definition glob_run (pattern text : rstr) : outcome bool :=
  let p := as_bytes pattern in
  let t := as_bytes text in
  match glob_loop (glob_fuel p t) p t 0 0 None 0 with
  | Ok None => Ok false
  | Ok (Some pi) => Ok (bool_decide ((pi + stars (drop pi p))%nat = length p))
  | Err e => Err e
  | Panic => Panic
  | Loop => Loop
  end.

Definition glob_match (pattern text : rstr) : bool :=
  match glob_run pattern text with Ok b => b | _ => false end.

Definition path_glob_match (glob path : rstr) : bool :=
  if glob_match glob path then true
  else match strip_suffix (bstr "/*") glob with
       | Some dir => glob_match dir (default path (strip_suffix (bstr "/") path))
       | None => false
       end.

(** ** Rules *)

Definition method_matches (r : Rule) (m : rstr) : bool :=
  match method r with None => true | Some rm => eq_ignore_ascii_case rm m end.

Definition host_matches (r : Rule) (host : rstr) : bool := glob_match (rhost r) host.

Definition path_matches (r : Rule) (path : rstr) : bool :=
  match rpath r with None => true | Some p => path_glob_match p path end.

Definition covers (d allow : Rule) : bool :=
  let method_ok :=
    match method d, method allow with
    | None, _ => true
    | Some m, Some a => eq_ignore_ascii_case m a
    | Some _, None => false
    end in
  let path_ok :=
    match rpath d, rpath allow with
    | None, _ => true
    | Some p, other =>
        if bool_decide (p = bstr "/*") then true
        else match other with
             | Some a => if negb (contains 42 a) then path_glob_match p a else false
             | None => false
             end
    end in
  method_ok && path_ok && glob_match (rhost d) (rhost allow).

Definition same_as (a b : Rule) : bool :=
  bool_decide (action a = action b) && bool_decide (method a = method b) &&
  bool_decide (rhost a = rhost b) && bool_decide (rpath a = rpath b).

Definition covers_whole_host (r : Rule) : bool :=
  match method r with None => true | Some m => eq_ignore_ascii_case m (bstr "CONNECT") end &&
  match rpath r with None => true | Some p => bool_decide (p = bstr "/*") end.

(** ** Parsing *)

Definition has_double_slash (p : rstr) : bool :=
  (fix go (prev : bool) (s : rstr) : bool :=
     match s with
     | [] => false
     | c :: s => if c =? 47 then if prev then true else go true s else go false s
     end) false p.

Definition validate_path_glob (p : rstr) : result rule_error unit :=
  if existsb (fun b => (b =? 37) || (b =? 63) || (b =? 35) || (b =? 92) || is_control b) (as_bytes p) then
    RErr GlobChar
  else if has_double_slash p then RErr GlobDoubleSlash
  else if existsb (fun s => bool_decide (s = bstr ".") || bool_decide (s = bstr ".."))
            (split_on 47 p []) then RErr GlobDotSegment
  else ROk tt.

Definition parse_action (w : rstr) : result rule_error Action :=
  let a := to_ascii_lowercase w in
  if bool_decide (a = bstr "allow") then ROk AllowRule
  else if bool_decide (a = bstr "deny") then ROk DenyRule
  else RErr (UnknownAction a).

Definition parse_method (w : rstr) : result rule_error (option rstr) :=
  if bool_decide (w = bstr "*") then ROk None
  else if negb (bool_decide (w = [])) && forallb is_alpha (as_bytes w) then
    ROk (Some (to_ascii_uppercase w))
  else RErr (InvalidMethod w).

Definition parse_rule (raw : rstr) : result rule_error Rule :=
  match split_whitespace raw with
  | [w0; w1; target] =>
      let? action := parse_action w0 in
      let? method := parse_method w1 in
      let '(host, path) :=
        match split_once 47 target with
        | Some (h, rest) => (h, Some (47 :: rest))
        | None => (target, None)
        end in
      if bool_decide (host = []) then RErr EmptyHostGlob
      else if existsb (fun b => (b =? 64) || (b =? 92) || (b =? 63) || (b =? 35) || is_control b)
                (as_bytes host) then RErr BadHostChar
      else
        let? _ := match path with Some p => validate_path_glob p | None => ROk tt end in
        ROk (MkRule action method (to_ascii_lowercase host) path (trim raw))
  | _ => RErr BadShape
  end.

(** [HttpAcl::parse]: the first malformed rule is the error. *)
Fixpoint parse (rules : list rstr) : result (rstr * rule_error) (list Rule) :=
  match rules with
  | [] => ROk []
  | raw :: rest =>
      match parse_rule raw with
      | RErr e => RErr (raw, e)
      | ROk r => let? out := parse rest in ROk (r :: out)
      end
  end.

(** ** Paths *)

Definition is_unreserved (b : N) : bool :=
  is_alnum b || (b =? 45) || (b =? 46) || (b =? 95) || (b =? 126).

(** [format!("%{h:02X}")]. *)
Definition escape (h : N) : rstr := [37; hex_upper (h / 16); hex_upper (h mod 16)].

(** The decoding loop over the bytes of the path. *)
Fixpoint decode (bs : bytes) : result path_error rstr :=
  match bs with
  | [] => ROk []
  | b :: r =>
      if b =? 37 then
        match r with
        | h1 :: h2 :: r =>
            match u8_from_hex [h1; h2] with
            | None => RErr MalformedEscape
            | Some hex =>
                if hex =? 0 then RErr EncodedNul
                else if (hex =? 47) || (hex =? 92) then RErr EncodedSlash
                else let? d := decode r in
                     ROk ((if is_unreserved hex then [hex] else escape hex) ++ d)
            end
        | _ => RErr MalformedEscape
        end
      else if b =? 92 then RErr RawBackslash
      else if (b <? 0x20) || (b =? 0x7f) || (0x80 <=? b) then RErr ControlByte
      else let? d := decode r in ROk (b :: d)
  end.

(** The segment loop: the stack, and whether the path ends in a slash. *)
Fixpoint resolve (segs : list rstr) (stack : list rstr) (trailing : bool) : list rstr * bool :=
  match segs with
  | [] => (stack, trailing)
  | seg :: rest =>
      let last := bool_decide (rest = []) in
      if bool_decide (seg = []) || bool_decide (seg = bstr ".") then resolve rest stack last
      else if bool_decide (seg = bstr "..") then resolve rest (removelast stack) last
      else resolve rest (stack ++ [seg]) false
  end.

Fixpoint before_query (s : rstr) : rstr :=
  match s with
  | [] => []
  | c :: s => if (c =? 63) || (c =? 35) then [] else c :: before_query s
  end.

Definition normalize_path (raw : rstr) : result path_error rstr :=
  let raw := before_query raw in
  if bool_decide (raw = []) then ROk (bstr "/")
  else if negb (starts_with (bstr "/") raw) then RErr (NoLeadingSlash raw)
  else
    let? decoded := decode (as_bytes raw) in
    let '(stack, trailing) := resolve (split_on 47 decoded []) [] false in
    ROk (bstr "/" ++ join (bstr "/") stack ++
         (if trailing && negb (bool_decide (stack = [])) then bstr "/" else [])).

(** ** Hosts *)

Inductive host_error :=
| EmptyHost
| AmbiguousHost (s : rstr)
| UnbracketedIpv6 (s : rstr)
| UnterminatedIpv6
| HostMismatch (u h : rstr)
| NoHost.

Definition host_char_bad (b : N) : bool :=
  (b =? 64) || (b =? 47) || (b =? 92) || (b =? 32) || is_control b.

(** The authority without its port. *)
Definition strip_port (s : rstr) : result host_error rstr :=
  match strip_prefix (bstr "[") s with
  | Some rest =>
      match split_once 93 rest with
      | Some (a, _) => ROk (91 :: a ++ [93])
      | None => RErr UnterminatedIpv6
      end
  | None =>
      match rsplit_once 58 s with
      | Some (h, port) =>
          if negb (bool_decide (port = [])) && forallb is_digit (as_bytes port) then ROk h
          else if bool_decide (port = []) then ROk (take (length s - 1) s)
          else ROk s
      | None => ROk s
      end
  end.

Definition canon_host (s : rstr) : result host_error rstr :=
  let s := trim s in
  if bool_decide (s = []) then RErr EmptyHost
  else if existsb host_char_bad (as_bytes s) then RErr (AmbiguousHost s)
  else if negb (starts_with (bstr "[") s) && (1 <? lenN (List.filter (N.eqb 58) s)) then
    RErr (UnbracketedIpv6 s)
  else
    let? host := strip_port s in
    let host := to_ascii_lowercase (trim_end_matches 46 host) in
    if bool_decide (host = []) then RErr EmptyHost else ROk host.

Definition canon_opt (o : option rstr) : result host_error (option rstr) :=
  match o with
  | None => ROk None
  | Some s => let? h := canon_host s in ROk (Some h)
  end.

Definition effective_host (uri_host host_header : option rstr) : result host_error rstr :=
  let? from_uri := canon_opt uri_host in
  let? from_header := canon_opt host_header in
  match from_uri, from_header with
  | Some u, Some h => if bool_decide (u = h) then ROk u else RErr (HostMismatch u h)
  | Some u, None => ROk u
  | None, Some h => ROk h
  | None, None => RErr NoHost
  end.

(** ** Verdicts *)

Section Acl.
Context (rules : list Rule).

Definition is_active : bool := negb (bool_decide (rules = [])).

Definition is_allow_rule (r : Rule) : bool := bool_decide (action r = AllowRule).
Definition is_deny_rule (r : Rule) : bool := bool_decide (action r = DenyRule).

Definition has_allow : bool := existsb is_allow_rule rules.

(** The conjunction both loops of [check] test. *)
Definition rule_hits (m host path : rstr) (r : Rule) : bool :=
  method_matches r m && host_matches r host && path_matches r path.

Definition check (m host raw_path : rstr) : Verdict :=
  if negb is_active then Allow
  else
    match normalize_path raw_path with
    | RErr e => Deny (RejectedPath e)
    | ROk path =>
        let host := to_ascii_lowercase host in
        match List.find (fun r => is_deny_rule r && rule_hits m host path r) rules with
        | Some r => Deny (DeniedBy (source r))
        | None =>
            if negb has_allow then Allow
            else match List.find (fun r => is_allow_rule r && rule_hits m host path r) rules with
                 | Some _ => Allow
                 | None => Deny (NoAllow m host path)
                 end
        end
    end.

Definition any_path (r : Rule) : bool :=
  match rpath r with None => true | Some p => bool_decide (p = bstr "/*") end.

Definition check_intercepted_connect (host : rstr) : Verdict :=
  if negb is_active then Allow
  else
    let host := to_ascii_lowercase host in
    match List.find (fun r => is_deny_rule r && bool_decide (method r = None) && any_path r &&
                              host_matches r host) rules with
    | Some r => Deny (HostDeniedBy host (source r))
    | None =>
        if has_allow && negb (existsb (fun r => is_allow_rule r && host_matches r host) rules)
        then Deny (NoAllowForHost host)
        else Allow
    end.

Definition check_connect (host : rstr) : Verdict :=
  if negb is_active then Allow
  else
    let host := to_ascii_lowercase host in
    match List.find (fun r => is_deny_rule r && host_matches r host) rules with
    | Some r => Deny (TunnelDenied host (source r))
    | None =>
        if negb has_allow then Allow
        else if existsb (fun r => is_allow_rule r && host_matches r host && covers_whole_host r) rules
        then Allow
        else Deny (TunnelNotCovered host)
    end.

(** *** Lint *)

Inductive LintSeverity := Info | Warn | High.

Definition severity_rank (s : LintSeverity) : nat :=
  match s with Info => 0 | Warn => 1 | High => 2 end.

Inductive lint_message :=
| DenyOnly
| AllowEverything (rule : rstr)
| AllowAnyHost (rule : rstr)
| AllowMetadataHost (rule : rstr)
| AllowNeverMatches (rule deny : rstr)
| DuplicateRule (rule : rstr).

Record LintFinding := MkFinding { severity : LintSeverity; message : lint_message }.

Definition METADATA_HOSTS : list rstr :=
  [bstr "169.254.169.254"; bstr "169.254.170.2"; bstr "100.100.100.200"; bstr "fd00:ec2::254";
   bstr "metadata.google.internal"].

(** The findings of rule [r], which comes after the rules [before]. *)
Definition lint_rule (before : list Rule) (r : Rule) : list LintFinding :=
  if negb (is_allow_rule r) then []
  else
    (if bool_decide (rhost r = bstr "*") && (covers_whole_host r && bool_decide (method r = None)) then
       [MkFinding High (AllowEverything (source r))]
     else if bool_decide (rhost r = bstr "*") then [MkFinding Warn (AllowAnyHost (source r))] else []) ++
    (if bool_decide (trim_end_matches 93 (trim_start_matches 91 (rhost r)) ∈ METADATA_HOSTS) then
       [MkFinding High (AllowMetadataHost (source r))] else []) ++
    (if negb (contains 42 (rhost r)) then
       match List.find (fun d => is_deny_rule d && covers d r) rules with
       | Some d => [MkFinding Warn (AllowNeverMatches (source r) (source d))]
       | None => []
       end else []) ++
    (if existsb (fun e => same_as e r) before then [MkFinding Info (DuplicateRule (source r))] else []).

Fixpoint lint_rules (before rest : list Rule) : list LintFinding :=
  match rest with
  | [] => []
  | r :: rest => lint_rule before r ++ lint_rules (before ++ [r]) rest
  end.

(** [sort_by_key(|f| Reverse(f.severity))], a stable sort. *)
Fixpoint insert_finding (f : LintFinding) (l : list LintFinding) : list LintFinding :=
  match l with
  | [] => [f]
  | g :: l' =>
      if (severity_rank (severity g) <=? severity_rank (severity f))%nat then f :: l
      else g :: insert_finding f l'
  end.

Definition lint : list LintFinding :=
  fold_right insert_finding []
    ((if is_active && negb has_allow then [MkFinding Warn DenyOnly] else []) ++ lint_rules [] rules).

End Acl.

(** ** Globs: the loop against the definition of a match *)

(** [gmatch p t]: the bytes [t] are the bytes [p] with every [*] replaced by
    some run of bytes. *)
Inductive gmatch : bytes -> bytes -> Prop :=
| g_nil : gmatch [] []
| g_star p x t : gmatch p t -> gmatch (42 :: p) (x ++ t)
| g_lit c p t : c <> 42 -> gmatch p t -> gmatch (c :: p) (c :: t).

Definition nostar (l : bytes) : Prop := 42 ∉ l.

Lemma gmatch_star_inv p t : gmatch (42 :: p) t <-> exists x y, t = x ++ y /\ gmatch p y.
Proof. split; [inversion 1; subst; eauto; done|]. intros (x & y & -> & H). by constructor. Qed.

Lemma gmatch_lits l p t : nostar l -> gmatch (l ++ p) t <-> exists y, t = l ++ y /\ gmatch p y.
Proof.
  unfold nostar. revert t. induction l as [|c l IH]; intros t Hl; simpl.
  - split; [eauto|]. by intros (y & -> & H).
  - split.
    + inversion 1; subst; [set_solver|].
      match goal with H : gmatch (l ++ p) _ |- _ => apply IH in H; [|set_solver] end.
      naive_solver.
    + intros (y & -> & H). constructor; [set_solver|]. apply IH; [set_solver|]. eauto.
Qed.

Lemma gmatch_literal l t : nostar l -> gmatch l t <-> t = l.
Proof.
  intros Hl. rewrite <- (app_nil_r l) at 1. rewrite gmatch_lits by done. split.
  - intros (y & -> & H). inversion H. by rewrite app_nil_r.
  - intros ->. exists []. rewrite app_nil_r. split; [done|constructor].
Qed.

Lemma gmatch_star_more p x t : gmatch (42 :: p) t -> gmatch (42 :: p) (x ++ t).
Proof.
  rewrite !gmatch_star_inv. intros (u & y & -> & H). exists (x ++ u), y. by rewrite app_assoc.
Qed.

(** The greedy step: once the literals after a star have matched, a later star
    can take over from there. *)
Lemma gmatch_greedy l p t : nostar l -> gmatch (42 :: l ++ 42 :: p) (l ++ t) <-> gmatch (42 :: p) t.
Proof.
  intros Hl. split.
  - rewrite gmatch_star_inv. intros (x & y & E & H). apply gmatch_lits in H as (z & -> & H); [|done].
    rewrite app_assoc in E.
    assert (t = drop (length l) ((x ++ l) ++ z)) as -> by (rewrite <- E; by rewrite drop_app_length).
    rewrite drop_app_le by (rewrite length_app; lia). by apply gmatch_star_more.
  - intros H. apply (g_star _ []). apply gmatch_lits; eauto.
Qed.

(** Where the literals cannot go on, the star has to take one more byte. *)
Lemma gmatch_backtrack l p c t :
  nostar l -> ~ gmatch p (c :: t) ->
  gmatch (42 :: l ++ p) (l ++ c :: t) <-> gmatch (42 :: l ++ p) (tail (l ++ c :: t)).
Proof.
  intros Hl Hn. rewrite !(gmatch_star_inv (l ++ p)). split.
  - intros ([|b x] & y & E & H); simpl in E.
    + subst y. apply gmatch_lits in H as (z & E & H); [|done]. simplify_list_eq. done.
    + exists x, y. split; [|done]. by rewrite E.
  - intros (x & y & E & H). destruct (l ++ c :: t) as [|b u] eqn:El; [by destruct l|].
    simpl in E. subst u. by exists (b :: x), y.
Qed.

Lemma gmatch_nil_stars p : gmatch p [] <-> stars p = length p.
Proof.
  induction p as [|c p IH]; simpl; [split; [done|constructor]|].
  destruct (N.eqb_spec c 42) as [->|Hc].
  - rewrite gmatch_star_inv. split.
    + intros (x & y & E & H). destruct x; [|done]. simpl in E. subst y. f_equal. by apply IH.
    + intros [= H]. exists [], []. split; [done|]. by apply IH.
  - split; [by inversion 1|done].
Qed.

Definition glob_inv (p t : bytes) (pi ti : nat) (star : option nat) (mark : nat) : Prop :=
  (pi <= length p)%nat /\ (ti <= length t)%nat /\ (mark <= ti)%nat /\
  match star with
  | None => gmatch p t <-> gmatch (drop pi p) (drop ti t)
  | Some s => exists l,
      drop s p = 42 :: l ++ drop pi p /\ drop mark t = l ++ drop ti t /\ nostar l /\
      (gmatch p t <-> gmatch (drop s p) (drop mark t))
  end.

Definition glob_measure (p t : bytes) (pi mark : nat) : nat :=
  (length t - mark) * (length p + 1) + (length p - pi).

(** What the loop's result says of the match. *)
Definition glob_result (p t : bytes) (o : outcome (option nat)) : Prop :=
  match o with
  | Ok None => ~ gmatch p t
  | Ok (Some pi) => (pi <= length p)%nat /\ (gmatch p t <-> gmatch (drop pi p) [])
  | _ => False
  end.

Lemma drop_cons_lookup {A} (l : list A) i x : l !! i = Some x -> drop i l = x :: drop (S i) l.
Proof. apply drop_S. Qed.

Lemma glob_inv_exit p t pi ti star mark :
  glob_inv p t pi ti star mark -> t !! ti = None -> gmatch p t <-> gmatch (drop pi p) [].
Proof.
  intros (Hp & Ht & Hm & H) Hn%lookup_ge_None_1.
  assert (drop ti t = []) as E by by apply drop_ge.
  destruct star as [s|]; [|by rewrite E in H].
  destruct H as (l & Es & Em & Hl & ->). rewrite Es, Em, E, app_nil_r. rewrite gmatch_star_inv. split.
  - intros (x & y & El & H). apply gmatch_lits in H as (z & -> & H); [|done].
    apply (f_equal length) in El. rewrite !length_app in El. destruct z; [done|]. simpl in El. lia.
  - intros H. exists [], l. split; [done|]. apply gmatch_lits; [done|]. exists []. by rewrite app_nil_r.
Qed.

Lemma glob_inv_star p t pi ti star mark :
  glob_inv p t pi ti star mark -> p !! pi = Some 42 -> glob_inv p t (S pi) ti (Some pi) ti.
Proof.
  intros (Hp & Ht & Hm & H) Hs. pose proof (lookup_lt_Some _ _ _ Hs).
  apply drop_cons_lookup in Hs as Ed. split_and!; try lia. exists [].
  split_and!; [done|done|unfold nostar; set_solver|]. destruct star as [s|]; [|done].
  destruct H as (l & Es & Em & Hl & ->). by rewrite Es, Em, Ed, gmatch_greedy.
Qed.

Lemma glob_inv_lit p t pi ti star mark c :
  glob_inv p t pi ti star mark -> t !! ti = Some c -> p !! pi = Some c -> c <> 42 ->
  glob_inv p t (S pi) (S ti) star mark.
Proof.
  intros (Hp & Ht & Hm & H) Hc Hs Hn.
  pose proof (lookup_lt_Some _ _ _ Hs). pose proof (lookup_lt_Some _ _ _ Hc).
  apply drop_cons_lookup in Hs as Ed, Hc as Et. split_and!; try lia.
  destruct star as [s|].
  - destruct H as (l & Es & Em & Hl & HG). exists (l ++ [c]).
    rewrite Es, Em, Ed, Et in *. rewrite <- !app_assoc. unfold nostar in *. split_and!; [done|done|set_solver|done].
  - rewrite H, Ed, Et. split; [by inversion 1|]. by constructor.
Qed.

Lemma glob_mismatch p pi c t :
  p !! pi <> Some 42 -> p !! pi <> Some c -> ~ gmatch (drop pi p) (c :: t).
Proof.
  intros Hs Hc. destruct (p !! pi) as [b|] eqn:E.
  - apply drop_cons_lookup in E as ->. inversion 1; subst; congruence.
  - apply lookup_ge_None_1 in E. rewrite drop_ge by done. inversion 1.
Qed.

Lemma glob_inv_back p t pi ti s mark c :
  glob_inv p t pi ti (Some s) mark -> t !! ti = Some c -> p !! pi <> Some 42 -> p !! pi <> Some c ->
  glob_inv p t (S s) (S mark) (Some s) (S mark).
Proof.
  intros (Hp & Ht & Hm & (l & Es & Em & Hl & HG)) Hc H1 H2.
  pose proof (lookup_lt_Some _ _ _ Hc). apply drop_cons_lookup in Hc as Et.
  assert (drop (S s) p = l ++ drop pi p) as Ep.
  { replace (S s) with (s + 1)%nat by lia. by rewrite <- drop_drop, Es. }
  assert (drop (S mark) t = tail (drop mark t)) as Em'.
  { replace (S mark) with (mark + 1)%nat by lia. rewrite <- drop_drop. by destruct (drop mark t). }
  assert (s < length p)%nat by (apply (f_equal length) in Es; rewrite length_drop in Es; simpl in Es; lia).
  split_and!; try lia. exists []. rewrite HG, Es, Ep, Em', Em, Et.
  pose proof (gmatch_backtrack l (drop pi p) c (drop (S ti) t) Hl (glob_mismatch _ _ _ _ H1 H2)) as HB.
  split_and!; [done|done|unfold nostar; set_solver|done].
Qed.

Lemma glob_loop_spec fuel p t pi ti star mark :
  glob_inv p t pi ti star mark -> (glob_measure p t pi mark < fuel)%nat ->
  glob_result p t (glob_loop fuel p t pi ti star mark).
Proof.
  revert pi ti star mark. induction fuel as [|fuel IH]; intros pi ti star mark Hi Hf; [lia|].
  simpl. pose proof Hi as (Hp & Ht & Hm & HG). unfold glob_measure in *.
  destruct (t !! ti) as [c|] eqn:Ec; [|split; [done|by eapply glob_inv_exit]].
  pose proof (lookup_lt_Some _ _ _ Ec) as Hlt.
  case_bool_decide as Hs; [|case_bool_decide as Hc].
  - pose proof (lookup_lt_Some _ _ _ Hs). apply IH; [by eapply glob_inv_star|nia].
  - pose proof (lookup_lt_Some _ _ _ Hc). apply IH; [|nia]. eapply glob_inv_lit; eauto. congruence.
  - destruct star as [s|].
    + pose proof (glob_inv_back _ _ _ _ _ _ _ Hi Ec Hs Hc) as Hb. apply IH; [done|].
      destruct Hb as (? & ? & ? & _). nia.
    + simpl. rewrite HG. apply drop_cons_lookup in Ec as ->. by apply glob_mismatch.
Qed.

Lemma glob_run_spec pattern text :
  exists b, glob_run pattern text = Ok b /\ (b = true <-> gmatch (as_bytes pattern) (as_bytes text)).
Proof.
  unfold glob_run. set (p := as_bytes pattern). set (t := as_bytes text).
  assert (glob_inv p t 0 0 None 0) as Hi by (split_and!; try lia; rewrite !drop_0; tauto).
  pose proof (glob_loop_spec (glob_fuel p t) _ _ _ _ _ _ Hi) as H.
  assert (glob_measure p t 0 0 < glob_fuel p t)%nat as Hf by (unfold glob_measure, glob_fuel; nia).
  specialize (H Hf). destruct (glob_loop _ _ _ _ _ _ _) as [[pi|]| | |]; try done; simpl in H.
  - destruct H as [Hp HG]. eexists. split; [done|]. rewrite HG, bool_decide_eq_true, gmatch_nil_stars, length_drop. lia.
  - exists false. split; [done|]. split; [done|]. intros H'. by destruct (H H').
Qed.

Lemma glob_match_spec pattern text :
  glob_match pattern text = true <-> gmatch (as_bytes pattern) (as_bytes text).
Proof.
  unfold glob_match. destruct (glob_run_spec pattern text) as (b & -> & H). exact H.
Qed.

(** ** Canonical paths *)

(** A character [decode] copies as it is. *)
Definition plain (c : N) : bool :=
  negb (c =? 37) && negb (c =? 92) && (0x20 <=? c) && (c <? 0x7f).

(** An escape that [decode] keeps. *)
Definition kept (h : N) : bool :=
  (h <? 256) && negb (h =? 0) && negb (h =? 47) && negb (h =? 92) && negb (is_unreserved h).

(** Text in which every escape is kept and in upper case. *)
Inductive canon : rstr -> Prop :=
| c_nil : canon []
| c_plain c s : plain c = true -> canon s -> canon (c :: s)
| c_escape h s : kept h = true -> canon s -> canon (escape h ++ s).

Lemma canon_app a b : canon a -> canon b -> canon (a ++ b).
Proof.
  induction 1 as [|c s Hc H IH|h s Hh H IH]; intros Hb; [done|by constructor; auto|].
  rewrite <- app_assoc. apply c_escape; auto.
Qed.

Lemma hex_digit_upper d : d < 16 -> hex_digit (hex_upper d) = Some d /\ hex_upper d <> 43 /\ 48 <= hex_upper d <= 70 /\ hex_upper d <> 63.
Proof.
  intros H. unfold hex_upper, hex_digit.
  destruct (N.ltb_spec d 10);
    repeat match goal with |- context [?a <=? ?b] => destruct (N.leb_spec a b); try lia end; simpl;
    repeat split; try lia; f_equal; lia.
Qed.

Lemma u8_from_hex_escape h :
  h < 256 -> u8_from_hex [hex_upper (h / 16); hex_upper (h mod 16)] = Some h.
Proof.
  intros Hh. destruct (hex_digit_upper (h / 16)) as (E1 & N1 & _); [dlia|].
  destruct (hex_digit_upper (h mod 16)) as (E2 & _); [dlia|].
  unfold u8_from_hex. rewrite (proj2 (N.eqb_neq _ _) N1). cbn [hex_digits]. rewrite E1, E2.
  destruct (N.ltb_spec (0 * 16 + h / 16) 256); [|dlia].
  destruct (N.ltb_spec ((0 * 16 + h / 16) * 16 + h mod 16) 256); [|dlia]. f_equal. dlia.
Qed.

Lemma hex_digits_bound p acc v : acc < 256 -> hex_digits p acc = Some v -> v < 256.
Proof.
  revert acc. induction p as [|c p IH]; intros acc Ha; simpl; [by intros [= <-]|].
  destruct (hex_digit c); [|done]. destruct (N.ltb_spec (acc * 16 + n) 256); [|done]. by apply IH.
Qed.

Lemma u8_from_hex_bound p v : u8_from_hex p = Some v -> v < 256.
Proof.
  unfold u8_from_hex. destruct p as [|c [|d p]]; [done| |].
  - destruct ((c =? 43) || (c =? 45)); [done|]. apply hex_digits_bound. lia.
  - destruct (c =? 43); apply hex_digits_bound; lia.
Qed.

Lemma plain_unreserved h : is_unreserved h = true -> plain h = true.
Proof.
  unfold is_unreserved, is_alnum, is_alpha, is_upper, is_lower, is_digit, plain.
  intros H. repeat rewrite ?orb_true_iff, ?andb_true_iff, ?N.leb_le, ?N.eqb_eq in H.
  repeat (match goal with |- (_ && _) = true => apply andb_true_iff; split end);
    rewrite ?negb_true_iff, ?N.eqb_neq, ?N.leb_le, ?N.ltb_lt; lia.
Qed.

(** One case of the loop at a time. *)
Lemma decode_ind (P : bytes -> rstr -> Prop) :
  P [] [] ->
  (forall b r d, plain b = true -> decode r = ROk d -> P r d -> P (b :: r) (b :: d)) ->
  (forall h1 h2 r d h, u8_from_hex [h1; h2] = Some h -> is_unreserved h = true ->
     decode r = ROk d -> P r d -> P (37 :: h1 :: h2 :: r) (h :: d)) ->
  (forall h1 h2 r d h, u8_from_hex [h1; h2] = Some h -> kept h = true ->
     decode r = ROk d -> P r d -> P (37 :: h1 :: h2 :: r) (escape h ++ d)) ->
  forall bs d, decode bs = ROk d -> P bs d.
Proof.
  intros P0 P1 P2 P3 bs. induction bs as [bs IH] using (induction_ltof1 _ (@length _)).
  unfold ltof in IH. intros d. destruct bs as [|b r]; [by intros [= <-]|]. cbn [decode].
  destruct (N.eqb_spec b 37) as [->|H37].
  - destruct r as [|h1 [|h2 r]]; [done..|]. destruct (u8_from_hex [h1; h2]) as [h|] eqn:Eh; [|done].
    destruct (h =? 0) eqn:E0; [done|]. destruct ((h =? 47) || (h =? 92)) eqn:E1; [done|].
    destruct (decode r) as [d'|] eqn:Ed; [|done]. simpl. apply u8_from_hex_bound in Eh as Hb.
    destruct (is_unreserved h) eqn:Eu; intros [= <-].
    + apply P2; auto. apply IH; [simpl; lia|done].
    + apply P3; auto; [|apply IH; [simpl; lia|done]]. apply orb_false_iff in E1 as [E1 E2].
      unfold kept. rewrite E0, E1, E2, Eu. apply N.ltb_lt in Hb as ->. done.
  - destruct (b =? 92) eqn:E92; [done|].
    destruct ((b <? 0x20) || (b =? 0x7f) || (0x80 <=? b)) eqn:Ec; [done|].
    destruct (decode r) as [d'|] eqn:Ed; [|done]. intros [= <-]. apply P1; [|done|apply IH; [simpl; lia|done]].
    unfold plain. rewrite E92. apply N.eqb_neq in H37 as ->. simpl.
    rewrite !orb_false_iff, N.ltb_ge, N.eqb_neq, N.leb_gt in Ec.
    apply andb_true_iff; split; [apply N.leb_le|apply N.ltb_lt]; lia.
Qed.

Lemma decode_canon bs d : decode bs = ROk d -> canon d.
Proof.
  revert bs d. apply decode_ind; intros; [constructor|by apply c_plain| |by apply c_escape].
  apply c_plain; [|done]. by apply plain_unreserved.
Qed.

Lemma decode_plain c s : plain c = true -> decode (c :: s) = let? d := decode s in ROk (c :: d).
Proof.
  unfold plain. rewrite !andb_true_iff, !negb_true_iff, N.leb_le, N.ltb_lt. intros [[[H37 H92] H1] H2].
  cbn [decode]. rewrite H37, H92. destruct (N.ltb_spec c 0x20); [lia|].
  destruct (N.eqb_spec c 0x7f); [lia|]. by destruct (N.leb_spec 0x80 c); [lia|].
Qed.

Lemma decode_escape h s : kept h = true -> decode (escape h ++ s) = let? d := decode s in ROk (escape h ++ d).
Proof.
  unfold kept. rewrite !andb_true_iff, !negb_true_iff, N.ltb_lt. intros [[[[Hb H0] H1] H2] Hu].
  unfold escape. cbn [app decode]. rewrite u8_from_hex_escape by done. by rewrite H0, H1, H2, Hu.
Qed.

Lemma decode_fix d : canon d -> decode d = ROk d.
Proof.
  induction 1 as [|c s Hc _ IH|h s Hh _ IH]; [done| |].
  - by rewrite decode_plain, IH.
  - by rewrite decode_escape, IH.
Qed.

Lemma escape_chars h c : kept h = true -> c ∈ escape h -> c = 37 \/ (48 <= c <= 70 /\ c <> 63 /\ c <> 92).
Proof.
  unfold kept. rewrite !andb_true_iff, N.ltb_lt. intros [[[[Hb _] _] _] _] Hc.
  destruct (hex_digit_upper (h / 16)) as (_ & _ & ? & ?); [dlia|].
  destruct (hex_digit_upper (h mod 16)) as (_ & _ & ? & ?); [dlia|].
  unfold escape in Hc. rewrite !elem_of_cons, elem_of_nil in Hc. destruct Hc as [-> |[-> |[-> |[]]]]; [by left|right; lia..].
Qed.

(** Canonical text is printable ASCII without a backslash. *)
Lemma canon_chars s c : canon s -> c ∈ s -> 0x20 <= c < 0x7f /\ c <> 92.
Proof.
  induction 1 as [|b s Hb _ IH|h s Hh _ IH]; [set_solver| |].
  - intros [->|?]%elem_of_cons; [|auto]. unfold plain in Hb.
    rewrite !andb_true_iff, !negb_true_iff, N.leb_le, N.ltb_lt, !N.eqb_neq in Hb. lia.
  - intros [H|?]%elem_of_app; [|auto]. destruct (escape_chars _ _ Hh H); lia.
Qed.

Lemma canon_split s cur : canon s -> canon cur -> Forall canon (split_on 47 s cur).
Proof.
  intros H. revert cur. induction H as [|b s Hb _ IH|h s Hh _ IH]; intros cur Hc; simpl.
  - by repeat constructor.
  - destruct (b =? 47); [constructor; [done|]; apply IH; constructor|].
    apply IH. apply canon_app; [done|]. constructor; [done|constructor].
  - assert (forall c, c ∈ [hex_upper (h / 16); hex_upper (h mod 16)] -> (c =? 47) = false) as E.
    { intros c Hin. apply N.eqb_neq. destruct (escape_chars h c Hh); [unfold escape; set_solver|lia..]. }
    rewrite (E (hex_upper (h / 16))), (E (hex_upper (h mod 16))) by set_solver.
    apply IH. rewrite <- !app_assoc. apply canon_app; [done|].
    rewrite <- (app_nil_r ([_] ++ _)). apply (c_escape h []); [done|constructor].
Qed.

(** A segment [resolve] keeps. *)
Definition good_seg (s : rstr) : Prop := s <> [] /\ s <> bstr "." /\ s <> bstr "..".

Definition slash_end (trailing : bool) (stack : list rstr) : rstr :=
  if trailing && negb (bool_decide (stack = [])) then bstr "/" else [].

(** The normal form of a path: a slash, kept segments in canonical text without
    slash, query or fragment, and maybe a slash at the end. *)
Definition seg_ok (s : rstr) : Prop := good_seg s /\ canon s /\ 47 ∉ s /\ 63 ∉ s /\ 35 ∉ s.

Definition normal_path (out : rstr) : Prop :=
  exists stack trailing, out = bstr "/" ++ join (bstr "/") stack ++ slash_end trailing stack /\ Forall seg_ok stack.

Lemma removelast_sublist {A} (P : A -> Prop) l : Forall P l -> Forall P (removelast l).
Proof.
  induction l as [|x l IH]; simpl; [done|]. intros [Hx H]%Forall_cons.
  destruct l; [constructor|]. constructor; auto.
Qed.

Lemma resolve_keeps (P : rstr -> Prop) segs stack tr :
  Forall P segs -> Forall (fun s => P s /\ good_seg s) stack ->
  Forall (fun s => P s /\ good_seg s) (resolve segs stack tr).1.
Proof.
  revert stack tr. induction segs as [|s segs IH]; intros stack tr Hs Hst; [done|].
  apply Forall_cons in Hs as [Hp Hs]. cbn [resolve].
  destruct (bool_decide_reflect (s = [])); [by apply IH|].
  destruct (bool_decide_reflect (s = bstr ".")); [by apply IH|]. cbn [orb].
  case_bool_decide; [by apply IH, removelast_sublist|].
  apply IH; [done|]. apply Forall_app; split; [done|]. by repeat constructor.
Qed.

Lemma resolve_good segs stack tr rest :
  Forall good_seg segs -> segs <> [] ->
  resolve (segs ++ rest) stack tr = resolve rest (stack ++ segs) false.
Proof.
  revert stack tr. induction segs as [|s segs IH]; intros stack tr Hs Hn; [done|].
  apply Forall_cons in Hs as [(H1 & H2 & H3) Hs]. cbn [resolve app].
  rewrite (bool_decide_eq_false_2 (s = [])), (bool_decide_eq_false_2 (s = bstr ".")),
    (bool_decide_eq_false_2 (s = bstr "..")) by done. cbn [orb].
  destruct segs as [|s' segs]; [done|]. rewrite IH by done. by rewrite <- app_assoc.
Qed.

Lemma join_cons sep p q ps : join sep (p :: q :: ps) = p ++ sep ++ join sep (q :: ps).
Proof. done. Qed.

Lemma join_snoc_nil sep p ps : join sep (p :: ps) ++ sep = join sep ((p :: ps) ++ [[]]).
Proof.
  revert p. induction ps as [|q ps IH]; intros p; [simpl; by rewrite app_nil_r|].
  cbn [app]. rewrite !join_cons, <- !app_assoc. by rewrite IH.
Qed.

(** The segments of a normal path. *)
Definition normal_tail (stack : list rstr) (tr : bool) : list rstr :=
  match stack with [] => [[]] | _ => stack ++ (if tr then [[]] else []) end.

Lemma normal_split stack tr :
  Forall (fun s => 47 ∉ s) stack ->
  split_on 47 (bstr "/" ++ join (bstr "/") stack ++ slash_end tr stack) [] =
  [] :: normal_tail stack tr.
Proof.
  intros Hs. change (bstr "/") with [47]. etransitivity; [apply (split_on_nosep 47 []); set_solver|]. f_equal.
  unfold slash_end. destruct stack as [|p ps]; [by destruct tr|]. rewrite bool_decide_eq_false_2 by done.
  destruct tr; cbn [andb negb].
  - cbn [normal_tail]. change (bstr "/") with [47]. rewrite join_snoc_nil. apply split_on_join.
    change (Forall (fun q => 47 ∉ q) ((p :: ps) ++ [[]])).
    apply Forall_app; split; [done|]. repeat constructor. set_solver.
  - cbn [normal_tail]. rewrite !app_nil_r. by apply split_on_join.
Qed.

Lemma resolve_normal stack tr :
  Forall good_seg stack ->
  resolve ([] :: normal_tail stack tr) [] false =
  (stack, match stack with [] => true | _ => tr end).
Proof.
  intros Hs. destruct stack as [|p ps]; [done|]. cbn [resolve]. rewrite bool_decide_eq_true_2 by done.
  cbn [orb normal_tail]. rewrite resolve_good by done. by destruct tr.
Qed.

Lemma join_canon stack : Forall canon stack -> canon (join (bstr "/") stack).
Proof.
  induction 1 as [|s stack Hs _ IH]; [constructor|]. destruct stack as [|q stack]; [done|].
  rewrite join_cons. apply canon_app; [done|]. by apply (c_plain 47).
Qed.

Lemma join_elem sep stack c : c ∈ join sep stack -> c ∈ sep \/ exists s, s ∈ stack /\ c ∈ s.
Proof.
  induction stack as [|s stack IH]; [set_solver|]. destruct stack as [|q stack]; [set_solver|].
  rewrite join_cons, !elem_of_app. intros [?|[?|?]]; [right; set_solver|by left|].
  destruct (IH H) as [?|(u & ? & ?)]; [by left|]. right. exists u. set_solver.
Qed.

Lemma before_query_id s : 63 ∉ s -> 35 ∉ s -> before_query s = s.
Proof.
  induction s as [|c s IH]; intros H1 H2; [done|]. simpl.
  destruct (N.eqb_spec c 63), (N.eqb_spec c 35); simpl; [set_solver..|]. f_equal. apply IH; set_solver.
Qed.

Lemma before_query_none s : 63 ∉ before_query s /\ 35 ∉ before_query s.
Proof.
  induction s as [|c s [IH1 IH2]]; [set_solver|]. simpl.
  destruct (N.eqb_spec c 63), (N.eqb_spec c 35); simpl; set_solver.
Qed.

Lemma normal_fix out : normal_path out -> normalize_path out = ROk out.
Proof.
  intros (stack & tr & -> & Hs).
  assert (Forall good_seg stack) as Hg by (eapply Forall_impl; [exact Hs|]; by intros s (? & _)).
  assert (canon (bstr "/" ++ join (bstr "/") stack ++ slash_end tr stack)) as Hc.
  { apply (c_plain 47); [done|]. apply canon_app.
    - apply join_canon. eapply Forall_impl; [exact Hs|]. by intros s (_ & ? & _).
    - unfold slash_end. destruct (_ && _); [|constructor]. by apply (c_plain 47); [|constructor]. }
  assert (forall c, c = 63 \/ c = 35 -> c ∉ bstr "/" ++ join (bstr "/") stack ++ slash_end tr stack) as Hq.
  { intros c Hcq. rewrite !elem_of_app. intros [H|[H|H]].
    - change (bstr "/") with [47] in H. set_solver.
    - apply join_elem in H as [H|(s & Hin & H)]; [change (bstr "/") with [47] in H; set_solver|].
      rewrite Forall_forall in Hs. destruct (Hs s Hin) as (_ & _ & _ & ? & ?). destruct Hcq; by subst.
    - unfold slash_end in H. destruct (_ && _); [change (bstr "/") with [47] in H|]; set_solver. }
  unfold normalize_path. rewrite before_query_id by (exact (Hq 63 (or_introl eq_refl)) || exact (Hq 35 (or_intror eq_refl))).
  rewrite bool_decide_eq_false_2 by done. change (starts_with (bstr "/") (bstr "/" ++ ?x)) with true.
  cbn [negb]. rewrite as_bytes_ascii by (rewrite Forall_forall; intros c H; destruct (canon_chars _ c Hc H); lia).
  rewrite decode_fix by done. cbn [rbind].
  rewrite normal_split by (eapply Forall_impl; [exact Hs|]; by intros s (_ & _ & ? & _)).
  rewrite resolve_normal by done.
  destruct stack; [by destruct tr|]. done.
Qed.

Lemma encode_char_ascii c b : b < 0x80 -> b ∈ encode_char c -> b = c.
Proof.
  intros Hb. unfold encode_char.
  destruct (c <? 0x80); [set_solver|]. destruct (c <? 0x800); [|destruct (c <? 0x10000)];
    rewrite !elem_of_cons, elem_of_nil; intros H; exfalso; repeat destruct H as [H|H];
    first [contradiction | dlia].
Qed.

Lemma as_bytes_elem s b : b < 0x80 -> b ∈ as_bytes s -> b ∈ s.
Proof.
  intros Hb. unfold as_bytes. induction s as [|c s IH]; simpl; [done|]. rewrite elem_of_app.
  intros [H|H]; [apply encode_char_ascii in H; set_solver|set_solver].
Qed.

(** Decoding brings in no query or fragment mark. *)
Lemma decode_no_query bs d c :
  c = 63 \/ c = 35 -> decode bs = ROk d -> c ∉ bs -> c ∉ d.
Proof.
  intros Hc. revert bs d. refine (decode_ind (fun bs d => c ∉ bs -> c ∉ d) _ _ _ _); cbv beta.
  - done.
  - set_solver.
  - intros h1 h2 r d h _ Hu _ IH Hn [<-|H]%elem_of_cons; [|apply IH; set_solver].
    unfold is_unreserved, is_alnum, is_alpha, is_upper, is_lower, is_digit in Hu.
    repeat rewrite ?orb_true_iff, ?andb_true_iff, ?N.leb_le, ?N.eqb_eq in Hu. lia.
  - intros h1 h2 r d h _ Hu _ IH Hn [H|H]%elem_of_app; [|apply IH; set_solver].
    destruct (escape_chars _ _ Hu H); lia.
Qed.

Lemma decode_seg_ok bs d s :
  decode bs = ROk d -> 63 ∉ bs -> 35 ∉ bs -> s ∈ split_on 47 d [] ->
  canon s /\ 47 ∉ s /\ 63 ∉ s /\ 35 ∉ s.
Proof.
  intros Hd H1 H2 Hs. apply decode_canon in Hd as Hc.
  pose proof (canon_split d [] Hc c_nil) as Hf. rewrite Forall_forall in Hf.
  pose proof (split_on_free 47 d []) as Hf2. rewrite Forall_forall in Hf2.
  split_and!; [by apply Hf|apply Hf2; [set_solver|done]|..]; intros Hin;
    destruct (split_on_sub _ _ _ _ _ Hs Hin) as [?|Hd2]; try set_solver; revert Hd2;
    eapply decode_no_query; eauto.
Qed.

Lemma normalize_normal raw out : normalize_path raw = ROk out -> normal_path out.
Proof.
  unfold normalize_path. destruct (before_query_none raw) as [H1 H2].
  set (r := before_query raw) in *. case_bool_decide as Hr.
  { intros [= <-]. by exists [], false. }
  destruct (negb _); [done|]. destruct (decode (as_bytes r)) as [d|] eqn:Ed; [|done]. cbn [rbind].
  destruct (resolve (split_on 47 d []) [] false) as [stack tr] eqn:Es. intros [= <-].
  exists stack, tr. split; [done|].
  assert (Forall (fun s => canon s /\ 47 ∉ s /\ 63 ∉ s /\ 35 ∉ s) (split_on 47 d [])) as Hf.
  { apply Forall_forall. intros s. eapply decode_seg_ok; [done|..]; intros H; apply as_bytes_elem in H; done. }
  pose proof (resolve_keeps _ _ [] false Hf (Forall_nil_2 _)) as Hk. rewrite Es in Hk.
  eapply Forall_impl; [exact Hk|]. intros s (? & ?). by split.
Qed.

Lemma normal_chars out c : normal_path out -> c ∈ out -> 0x20 <= c < 0x7f /\ c <> 92 /\ c <> 63 /\ c <> 35.
Proof.
  intros (stack & tr & -> & Hs). rewrite Forall_forall in Hs.
  assert (c ∈ bstr "/" -> 0x20 <= c < 0x7f /\ c <> 92 /\ c <> 63 /\ c <> 35) as Hsl.
  { change (bstr "/") with [47]. intros ->%list_elem_of_singleton. lia. }
  rewrite !elem_of_app. intros [H|[H|H]]; [auto| |].
  - apply join_elem in H as [H|(s & Hin & H)]; [auto|]. destruct (Hs s Hin) as (_ & Hc & _ & Hq & Hh).
    destruct (canon_chars _ _ Hc H). split_and!; try lia; intros ->; done.
  - unfold slash_end in H. destruct (_ && _); [auto|set_solver].
Qed.

Lemma normal_bytes out : normal_path out -> as_bytes out = out.
Proof.
  intros H. apply as_bytes_ascii, Forall_forall. intros c Hc. destruct (normal_chars _ _ H Hc). lia.
Qed.

Lemma normal_absolute out : normal_path out -> exists r, out = 47 :: r.
Proof. intros (stack & tr & -> & _). by eexists. Qed.

(** No segment of a normal path is a dot segment, and only the last can be
    empty. *)
Lemma normal_segments out :
  normal_path out ->
  exists segs, split_on 47 out [] = [] :: segs /\ bstr "." ∉ segs /\ bstr ".." ∉ segs /\
    forall i, segs !! i = Some [] -> S i = length segs.
Proof.
  intros (stack & tr & -> & Hs). exists (normal_tail stack tr).
  rewrite normal_split by (eapply Forall_impl; [exact Hs|]; by intros s (_ & _ & ? & _)).
  rewrite Forall_forall in Hs.
  assert (forall s, s ∈ stack -> good_seg s) as Hg by (intros s Hin; by destruct (Hs s Hin)).
  split; [done|]. destruct stack as [|p ps]; cbn [normal_tail].
  { split_and!; [set_solver..|]. intros [|i]; [done|]. done. }
  assert (forall s : rstr, s ∈ (if tr then [[]] else []) -> s = []) as Ht
    by (destruct tr; intros s; rewrite ?elem_of_cons, elem_of_nil; naive_solver).
  split_and!.
  - intros [H|H]%elem_of_app; [|by discriminate (Ht _ H)]. by destruct (Hg _ H) as (_ & ? & _).
  - intros [H|H]%elem_of_app; [|by discriminate (Ht _ H)]. by destruct (Hg _ H) as (_ & _ & ?).
  - intros i [H|[Hi H]]%lookup_app_Some.
    + apply list_elem_of_lookup_2 in H. by destruct (Hg _ H).
    + pose proof (lookup_lt_Some _ _ _ H). rewrite length_app. destruct tr; simpl in *; lia.
Qed.

(** ** Rules as relations *)

(** When a path glob names a path: it matches, or it is a directory followed
    by [/*] and the path is that directory, with or without its slash. *)
Definition path_named (p path : rstr) : Prop :=
  gmatch (as_bytes p) (as_bytes path) \/
  exists dir, p = dir ++ bstr "/*" /\
    gmatch (as_bytes dir) (as_bytes (default path (strip_suffix (bstr "/") path))).

Definition hits (r : Rule) (m host path : rstr) : Prop :=
  match method r with None => True | Some rm => to_ascii_lowercase rm = to_ascii_lowercase m end /\
  gmatch (as_bytes (rhost r)) (as_bytes host) /\
  match rpath r with None => True | Some p => path_named p path end.

Lemma path_glob_spec p path : path_glob_match p path = true <-> path_named p path.
Proof.
  unfold path_glob_match, path_named. rewrite <- glob_match_spec.
  destruct (glob_match p path) eqn:E; [tauto|]. destruct (strip_suffix (bstr "/*") p) as [dir|] eqn:Es.
  - rewrite glob_match_spec. apply strip_suffix_spec in Es as ->. split; [intros; right; eauto|].
    intros [?|(d & Ed & H)]; [done|]. apply app_inv_tail in Ed. by subst.
  - split; [done|]. intros [?|(d & Ed & H)]; [done|]. apply strip_suffix_spec in Ed. congruence.
Qed.

Lemma rule_hits_spec m host path r : rule_hits m host path r = true <-> hits r m host path.
Proof.
  unfold rule_hits, hits. rewrite !andb_true_iff. unfold method_matches, host_matches, path_matches.
  rewrite glob_match_spec. unfold eq_ignore_ascii_case.
  destruct (method r), (rpath r); rewrite ?bool_decide_eq_true, ?path_glob_spec; tauto.
Qed.

(** A path glob [/*] names every absolute path. *)
Lemma whole_path_named path : normal_path path -> path_named (bstr "/*") path.
Proof.
  intros H. left. destruct (normal_absolute _ H) as [r E]. rewrite (normal_bytes _ H), E.
  change (as_bytes (bstr "/*")) with [47; 42]. constructor; [done|].
  rewrite <- (app_nil_r r). constructor. constructor.
Qed.

Lemma any_path_named r path :
  any_path r = true -> normal_path path -> match rpath r with None => True | Some p => path_named p path end.
Proof.
  unfold any_path. destruct (rpath r) as [p|]; [|done]. intros ->%bool_decide_eq_true. apply whole_path_named.
Qed.

Lemma find_none_all {A} (f : A -> bool) l : List.find f l = None <-> Forall (fun x => f x = false) l.
Proof.
  induction l as [|x l IH]; simpl; [by split|]. rewrite Forall_cons. destruct (f x) eqn:E; [|by rewrite <- IH; tauto].
  split; [done|]. by intros [? _].
Qed.

Lemma find_some_elem {A} (f : A -> bool) l x : List.find f l = Some x -> x ∈ l /\ f x = true.
Proof. intros [H1 H2]%find_some. split; [by apply list_elem_of_In|done]. Qed.

Lemma existsb_elem {A} (f : A -> bool) l : existsb f l = true <-> exists x, x ∈ l /\ f x = true.
Proof. rewrite existsb_exists. by setoid_rewrite list_elem_of_In. Qed.

Section Verdicts.
Context (rules : list Rule).

Definition denies (m host path : rstr) : Prop :=
  exists r, r ∈ rules /\ action r = DenyRule /\ hits r m host path.
Definition allows (m host path : rstr) : Prop :=
  exists r, r ∈ rules /\ action r = AllowRule /\ hits r m host path.
Definition some_allow : Prop := exists r, r ∈ rules /\ action r = AllowRule.

Lemma has_allow_spec : has_allow rules = true <-> some_allow.
Proof.
  unfold has_allow, some_allow, is_allow_rule. rewrite existsb_elem. by setoid_rewrite bool_decide_eq_true.
Qed.

Lemma find_deny_spec m host path :
  List.find (fun r => is_deny_rule r && rule_hits m host path r) rules = None <-> ~ denies m host path.
Proof.
  rewrite find_none_all, Forall_forall. unfold denies, is_deny_rule. split.
  - intros H (r & Hr & Ha & Hh). specialize (H r Hr). apply rule_hits_spec in Hh.
    rewrite Hh, bool_decide_eq_true_2 in H by done. done.
  - intros H r Hr. apply not_true_iff_false. rewrite andb_true_iff, bool_decide_eq_true, rule_hits_spec. eauto.
Qed.

Lemma find_allow_spec m host path :
  (exists r, List.find (fun r => is_allow_rule r && rule_hits m host path r) rules = Some r) <-> allows m host path.
Proof.
  unfold allows, is_allow_rule. split.
  - intros (r & [Hr H]%find_some_elem). rewrite andb_true_iff, bool_decide_eq_true, rule_hits_spec in H. naive_solver.
  - intros (r & Hr & Ha & Hh). destruct (List.find _ rules) as [x|] eqn:E; [eauto|].
    rewrite find_none_all, Forall_forall in E. specialize (E r Hr). apply rule_hits_spec in Hh.
    rewrite Hh, bool_decide_eq_true_2 in E by done. done.
Qed.

Lemma check_active m host raw path :
  rules <> [] -> normalize_path raw = ROk path ->
  is_allow (check rules m host raw) = true <->
  ~ denies m (to_ascii_lowercase host) path /\
  (some_allow -> allows m (to_ascii_lowercase host) path).
Proof.
  intros Hn Ep. unfold check, is_active. rewrite bool_decide_eq_false_2, Ep by done. cbn [negb].
  rewrite <- find_deny_spec, <- find_allow_spec, <- has_allow_spec.
  destruct (List.find (fun r => is_deny_rule r && _) rules); [naive_solver|].
  destruct (has_allow rules); cbn [negb]; [|naive_solver].
  destruct (List.find _ rules); naive_solver.
Qed.

End Verdicts.

(** ** Properties *)

(** [glob_match] always terminates, and returns true exactly when the bytes
    of the text are those of the pattern with every [*] replaced by some run
    of bytes. *)
Theorem glob_match_correct pattern text :
  exists b, glob_run pattern text = Ok b /\ glob_match pattern text = b /\
    (b = true <-> gmatch (as_bytes pattern) (as_bytes text)).
Proof.
  unfold glob_match. destruct (glob_run_spec pattern text) as (b & -> & H). eauto.
Qed.

(** A path that is not rejected comes out as an absolute path of printable
    ASCII without backslash, query or fragment, none of whose segments is [.]
    or [..] and whose only empty segment can be the last one; and normalising
    it again changes nothing, so what is forwarded is judged as it was. *)
Theorem normalize_path_canonical raw out (H : normalize_path raw = ROk out) :
  normalize_path out = ROk out /\
  (exists segs, split_on 47 out [] = [] :: segs /\ bstr "." ∉ segs /\ bstr ".." ∉ segs /\
     forall i, segs !! i = Some [] -> S i = length segs) /\
  (forall c, c ∈ out -> 0x20 <= c < 0x7f /\ c <> 92 /\ c <> 63 /\ c <> 35).
Proof.
  apply normalize_normal in H. split_and!; [by apply normal_fix|by apply normal_segments|].
  intros c. by apply normal_chars.
Qed.

Definition path1 : rstr := bstr "/a/./b//%2e%2e/%61dmin/%3b?x=1".

Lemma normalize_path_canonical_witness :
  normalize_path path1 = ROk (bstr "/a/admin/%3B") /\
  normalize_path (bstr "/a/admin/%3B") = ROk (bstr "/a/admin/%3B").
Proof.
  split; [vm_compute; reflexivity|].
  apply (normalize_path_canonical path1 (bstr "/a/admin/%3B")). vm_compute. reflexivity.
Defined.

(** The paths the proxy reads: bytes that stand for themselves, and escapes of two
    hex digits but those of NUL, slash and backslash.  A plus sign for the first digit
    counts as an escape too, though the documentation calls a malformed escape denied. *)
Inductive readable : bytes -> Prop :=
| rd_nil : readable []
| rd_plain b r : plain b = true -> readable r -> readable (b :: r)
| rd_escape h1 h2 a b r : hex_digit h1 = Some a -> hex_digit h2 = Some b -> a * 16 + b ∉ [0; 47; 92] -> readable r -> readable (37 :: h1 :: h2 :: r)
| rd_signed h2 b r : hex_digit h2 = Some b -> b <> 0 -> readable r -> readable (37 :: 43 :: h2 :: r).

Lemma hex_digit_bound c v : hex_digit c = Some v -> v < 16 /\ c <> 43.
Proof. unfold hex_digit. repeat case_match; intros [= <-]; rewrite ?andb_true_iff, ?N.leb_le in *; lia. Qed.

Lemma u8_from_hex_pair h1 h2 v : u8_from_hex [h1; h2] = Some v <->
  (exists a b, hex_digit h1 = Some a /\ hex_digit h2 = Some b /\ v = a * 16 + b) \/ h1 = 43 /\ hex_digit h2 = Some v.
Proof.
  unfold u8_from_hex. destruct (N.eqb_spec h1 43) as [->|Hn]; cbn [hex_digits]; destruct (hex_digit h2) as [b|] eqn:E2.
  - destruct (hex_digit_bound _ _ E2) as [Hb _]. destruct (N.ltb_spec (0 * 16 + b) 256); [|lia]. split; [intros [= <-]; by right|naive_solver].
  - naive_solver.
  - destruct (hex_digit_bound _ _ E2) as [Hb _]. destruct (hex_digit h1) as [a|] eqn:E1; [|naive_solver]. destruct (hex_digit_bound _ _ E1) as [Ha _].
    destruct (N.ltb_spec (0 * 16 + a) 256); [|lia]. destruct (N.ltb_spec ((0 * 16 + a) * 16 + b) 256); [|lia]. rewrite N.mul_0_l, N.add_0_l.
    split; [intros [= <-]; left; eauto|naive_solver].
  - destruct (hex_digit h1) as [a|]; [destruct (_ <? 256)|]; naive_solver.
Qed.

Lemma decode_readable bs : (exists d, decode bs = ROk d) <-> readable bs.
Proof.
  split.
  - intros [d Hd]. revert bs d Hd.
    assert (forall h1 h2 h r, u8_from_hex [h1; h2] = Some h -> h <> 0 -> h <> 47 -> h <> 92 -> readable r -> readable (37 :: h1 :: h2 :: r)) as He.
    { intros h1 h2 h r Hh H0 H1 H2 Hr. apply u8_from_hex_pair in Hh as [(a & b & E1 & E2 & ->)|[-> E2]]; [|by eapply rd_signed]. eapply rd_escape; [done|done| |done].
      rewrite !not_elem_of_cons. split_and!; try done. by apply not_elem_of_nil. }
    refine (decode_ind (fun bs _ => readable bs) rd_nil _ _ _); cbv beta.
    + intros b r d Hb _ Hr. by constructor.
    + intros h1 h2 r d h Hh Hu _ Hr. apply (He h1 h2 h); try done; intros ->; done.
    + intros h1 h2 r d h Hh Hu _ Hr. unfold kept in Hu. rewrite !andb_true_iff, !negb_true_iff, !N.eqb_neq in Hu. by apply (He h1 h2 h); try done; intros ->; naive_solver.
  - induction 1 as [|b r Hb Hr [d IH]|h1 h2 a b r E1 E2 Hv Hr [d IH]|h2 b r E2 Hb Hr [d IH]].
    + by exists [].
    + exists (b :: d). by rewrite decode_plain, IH.
    + cbn [decode]. rewrite (proj2 (u8_from_hex_pair h1 h2 (a * 16 + b))) by (left; eauto). change (37 =? 37) with true. cbn match.
      rewrite !not_elem_of_cons in Hv. destruct Hv as (H0 & H1 & H2 & _). apply N.eqb_neq in H0, H1, H2. rewrite H0, H1, H2, IH. eauto.
    + destruct (hex_digit_bound _ _ E2) as [Hb16 _]. cbn [decode]. rewrite (proj2 (u8_from_hex_pair 43 h2 b)) by (by right). change (37 =? 37) with true. cbn match.
      rewrite (proj2 (N.eqb_neq b 0)), (proj2 (N.eqb_neq b 47)), (proj2 (N.eqb_neq b 92)), IH by lia. cbn. eauto.
Qed.

(** C26: a request is allowed exactly when there are no rules, or its path can be
    normalised, no deny rule hits the normalised path and, if there is any allow rule,
    one of them hits it; the order of the rules does not matter.  A path can be
    normalised exactly when, its query aside, it is empty or starts with a slash and is
    [readable]. *)
Theorem http_check_spec rules m host raw :
  (is_allow (check rules m host raw) = true <->
   rules = [] \/
   exists path, normalize_path raw = ROk path /\
     ~ denies rules m (to_ascii_lowercase host) path /\
     (some_allow rules -> allows rules m (to_ascii_lowercase host) path)) /\
  ((exists path, normalize_path raw = ROk path) <->
   before_query raw = [] \/ starts_with (bstr "/") (before_query raw) = true /\ readable (as_bytes (before_query raw))).
Proof.
  split.
  - destruct (decide (rules = [])) as [-> |Hn]; [by split; [left|]|].
    destruct (normalize_path raw) as [path|e] eqn:Ep.
    + rewrite (check_active rules _ _ _ path) by done. naive_solver.
    + unfold check, is_active. rewrite bool_decide_eq_false_2, Ep by done. naive_solver.
  - unfold normalize_path. destruct (before_query raw) as [|c q] eqn:Eq; [split; eauto|]. rewrite bool_decide_eq_false_2 by done.
    rewrite <- decode_readable. destruct (starts_with (bstr "/") (c :: q)); cbn [negb]; [|naive_solver].
    destruct (decode (as_bytes (c :: q))) as [d|e]; cbn [rbind]; [|naive_solver]. destruct (resolve _ _ _). naive_solver.
Qed.

(** A tunnel that is let through carries only requests the access list would
    have let through one by one, unless the rules ask for the tunnel by its
    method. *)
Lemma check_connect_sound rules m host raw path :
  check_connect rules host = Allow -> normalize_path raw = ROk path ->
  is_allow (check rules m host raw) = true \/
  exists r rm, r ∈ rules /\ action r = AllowRule /\ method r = Some rm /\
    to_ascii_lowercase rm = bstr "connect" /\ gmatch (as_bytes (rhost r)) (as_bytes (to_ascii_lowercase host)).
Proof.
  intros Hc Ep. destruct (decide (rules = [])) as [-> |Hn]; [by left|].
  unfold check_connect, is_active in Hc. rewrite bool_decide_eq_false_2 in Hc by done. cbn [negb] in Hc.
  destruct (List.find _ rules) eqn:Ed; [done|]. rewrite find_none_all, Forall_forall in Ed.
  assert (~ denies rules m (to_ascii_lowercase host) path) as Hd.
  { intros (r & Hr & Ha & (_ & Hh & _)). specialize (Ed r Hr). unfold is_deny_rule, host_matches in Ed.
    apply glob_match_spec in Hh. rewrite Hh, bool_decide_eq_true_2 in Ed by done. done. }
  destruct (has_allow rules) eqn:Ea; cbn [negb] in Hc.
  - destruct (existsb _ rules) eqn:Ex; [|done]. apply existsb_elem in Ex as (r & Hr & H).
    unfold covers_whole_host, is_allow_rule, host_matches in H.
    rewrite !andb_true_iff, bool_decide_eq_true, glob_match_spec in H. destruct H as [[Ha Hh] [Hm Hp]].
    destruct (method r) as [rm|] eqn:Em.
    + right. exists r, rm. split_and!; try done. by apply bool_decide_eq_true in Hm.
    + left. rewrite check_active by done. split; [done|]. intros _. exists r. split_and!; try done.
      split_and!; [by rewrite Em|done|]. apply any_path_named; [done|]. by eapply normalize_normal.
  - left. rewrite check_active by done. split; [done|]. intros Hs%has_allow_spec. congruence.
Qed.

(** A tunnel refused before interception could have carried no allowed
    request. *)
Lemma check_intercepted_sound rules m host raw r :
  check_intercepted_connect rules host = Deny r -> is_allow (check rules m host raw) = false.
Proof.
  intros Hc. destruct (is_allow (check rules m host raw)) eqn:E; [|done]. exfalso.
  unfold check_intercepted_connect, is_active in Hc.
  destruct (decide (rules = [])) as [-> |Hn]; [done|].
  rewrite bool_decide_eq_false_2 in Hc by done. cbn [negb] in Hc.
  destruct (normalize_path raw) as [path|e] eqn:Ep;
    [|unfold check, is_active in E; by rewrite bool_decide_eq_false_2, Ep in E].
  rewrite check_active in E by done. destruct E as [Hd Ha].
  destruct (List.find _ rules) as [d|] eqn:Ef.
  - apply find_some_elem in Ef as [Hr H]. rewrite !andb_true_iff in H. destruct H as [[[H1 H2] H3] H4].
    apply Hd. exists d. split_and!; [done|by apply bool_decide_eq_true in H1|].
    apply bool_decide_eq_true in H2. split_and!; [by rewrite H2|by apply glob_match_spec|].
    apply any_path_named; [done|]. by eapply normalize_normal.
  - destruct (has_allow rules) eqn:Eh; [|done]. apply has_allow_spec in Eh.
    destruct (Ha Eh) as (r' & Hr & Ha' & (_ & Hh & _)).
    destruct (existsb _ rules) eqn:Ex; [done|]. apply not_true_iff_false in Ex. apply Ex, existsb_elem.
    exists r'. split; [done|]. apply glob_match_spec in Hh. unfold is_allow_rule, host_matches.
    by rewrite Hh, bool_decide_eq_true_2.
Qed.

(** The two verdicts on a tunnel against the verdict on each request in it:
    a tunnel that is let through unseen carries only requests that would be
    allowed (unless an allow rule names the method CONNECT), and a tunnel
    refused before interception could carry no allowed request. *)
Theorem connect_verdicts_sound rules host :
  (check_connect rules host = Allow ->
   (forall r rm, r ∈ rules -> action r = AllowRule -> method r = Some rm ->
      to_ascii_lowercase rm <> bstr "connect") ->
   forall m raw path, normalize_path raw = ROk path -> is_allow (check rules m host raw) = true) /\
  (forall r, check_intercepted_connect rules host = Deny r ->
   forall m raw, is_allow (check rules m host raw) = false).
Proof.
  split.
  - intros Hc Hm m raw path Hp. destruct (check_connect_sound rules m host raw path Hc Hp) as [?|H]; [done|].
    destruct H as (r & rm & Hr & Ha & He & Hl & _). by destruct (Hm r rm Hr Ha He).
  - intros r Hc m raw. by eapply check_intercepted_sound.
Qed.

Definition acl1 : list Rule :=
  [MkRule AllowRule None (bstr "docs.python.org") (Some (bstr "/*")) (bstr "allow * docs.python.org/*");
   MkRule DenyRule None (bstr "evil.example") None (bstr "deny * evil.example")].

Lemma connect_verdicts_sound_witness :
  is_allow (check acl1 (bstr "PUT") (bstr "Docs.Python.org") (bstr "/a/../b")) = true /\
  is_allow (check acl1 (bstr "GET") (bstr "evil.example") (bstr "/")) = false.
Proof.
  split.
  - apply (proj1 (connect_verdicts_sound acl1 (bstr "Docs.Python.org"))) with (path := bstr "/b").
    + vm_compute. reflexivity.
    + intros r rm. unfold acl1. rewrite !elem_of_cons, elem_of_nil. intros [-> |[-> |[]]]; done.
    + vm_compute. reflexivity.
  - eapply (proj2 (connect_verdicts_sound acl1 (bstr "evil.example"))). vm_compute. reflexivity.
Defined.

(** ** The lint *)

Lemma insert_finding_perm f l : insert_finding f l ≡ₚ f :: l.
Proof.
  induction l as [|g l IH]; [done|]. simpl. destruct (_ <=? _)%nat; [done|]. rewrite IH. constructor.
Qed.

Lemma sort_findings_perm l : fold_right insert_finding [] l ≡ₚ l.
Proof. induction l as [|f l IH]; [done|]. cbn [fold_right]. by rewrite insert_finding_perm, IH. Qed.

Lemma lint_rules_elem rules before rest f :
  f ∈ lint_rules rules before rest ->
  exists pre r post, rest = pre ++ r :: post /\ f ∈ lint_rule rules (before ++ pre) r.
Proof.
  revert before. induction rest as [|r rest IH]; intros before; [set_solver|]. cbn [lint_rules].
  intros [H|H]%elem_of_app.
  - exists [], r, rest. by rewrite app_nil_r.
  - destruct (IH _ H) as (pre & r' & post & -> & Hf). exists (r :: pre), r', post.
    split; [done|]. by rewrite <- app_assoc in Hf.
Qed.

Lemma encode_char_high c : 0x80 <= c -> exists b, b ∈ encode_char c /\ 0x80 <= b.
Proof.
  intros H. unfold encode_char. destruct (N.ltb_spec c 0x80); [lia|].
  exists (0x80 + c mod 64). split; [|dlia].
  destruct (c <? 0x800); [|destruct (c <? 0x10000)]; set_solver.
Qed.

Lemma as_bytes_ascii_inv s : Forall (fun b => b < 0x80) (as_bytes s) -> as_bytes s = s.
Proof.
  intros H. apply as_bytes_ascii. induction s as [|c s IH]; [constructor|].
  unfold as_bytes in H. cbn [flat_map] in H. apply Forall_app in H as [Hc Hs]. constructor; [|by apply IH].
  destruct (N.lt_ge_cases c 0x80) as [?|Hge]; [done|]. destruct (encode_char_high c Hge) as (b & Hb & ?).
  rewrite Forall_forall in Hc. specialize (Hc b Hb). lia.
Qed.

Lemma normal_ascii path : normal_path path -> Forall (fun b => b < 0x80) path.
Proof. intros H. apply Forall_forall. intros c Hc. destruct (normal_chars _ _ H Hc). lia. Qed.

Lemma covers_hits d r m host path :
  covers d r = true -> contains 42 (rhost r) = false -> normal_path path ->
  hits r m host path -> hits d m host path.
Proof.
  unfold covers. rewrite !andb_true_iff, glob_match_spec. intros [[Hm Hp] Hg] Hs Hn (Hm' & Hh & Hp').
  assert (nostar (as_bytes (rhost r))) as Hns.
  { intros H%as_bytes_elem; [|done]. apply contains_spec in H. congruence. }
  apply gmatch_literal in Hh; [|done]. split_and!.
  - destruct (method d) as [dm|], (method r) as [rm|]; try done.
    apply bool_decide_eq_true in Hm. congruence.
  - by rewrite Hh.
  - destruct (rpath d) as [p|]; [|done]. case_bool_decide as Hw; [subst; by apply whole_path_named|].
    destruct (rpath r) as [a|]; [|done]. destruct (contains 42 a) eqn:Ea; [done|]. cbn [negb] in Hp.
    apply path_glob_spec in Hp. destruct Hp' as [Hp'|(dir & -> & _)].
    + assert (nostar (as_bytes a)) as Hna.
      { intros H%as_bytes_elem; [|done]. apply contains_spec in H. congruence. }
      apply gmatch_literal in Hp'; [|done]. rewrite (normal_bytes _ Hn) in Hp'. subst path.
      rewrite as_bytes_ascii_inv in * by (by apply normal_ascii). done.
    + exfalso. rewrite <- not_true_iff_false, contains_spec in Ea. apply Ea. change (bstr "/*") with [47; 42]. set_solver.
Qed.

Lemma lint_rule_never rules before r rs ds sev :
  MkFinding sev (AllowNeverMatches rs ds) ∈ lint_rule rules before r ->
  source r = rs /\ action r = AllowRule /\ contains 42 (rhost r) = false /\
  exists d, d ∈ rules /\ source d = ds /\ action d = DenyRule /\ covers d r = true.
Proof.
  unfold lint_rule, is_allow_rule. case_bool_decide as Ha; [|set_solver]. cbn [negb].
  rewrite !elem_of_app. intros [H|[H|[H|H]]].
  - destruct (_ && _); [set_solver|]. destruct (bool_decide _); set_solver.
  - destruct (bool_decide _); set_solver.
  - destruct (contains 42 (rhost r)); [set_solver|]. cbn [negb] in H.
    destruct (List.find _ rules) as [d|] eqn:Ef; [|set_solver].
    apply list_elem_of_singleton in H. simplify_eq. apply find_some_elem in Ef as [Hd Hf].
    rewrite andb_true_iff in Hf. unfold is_deny_rule in Hf. rewrite bool_decide_eq_true in Hf. naive_solver.
  - destruct (existsb _ _); set_solver.
Qed.

(** An allow rule the lint reports as never matching is dead: the access
    list denies every request it hits. *)
Theorem lint_dead_allow rules sev rs ds
  (H : MkFinding sev (AllowNeverMatches rs ds) ∈ lint rules) :
  exists r, r ∈ rules /\ action r = AllowRule /\ source r = rs /\
    forall m host raw path, normalize_path raw = ROk path -> hits r m (to_ascii_lowercase host) path ->
      is_allow (check rules m host raw) = false.
Proof.
  unfold lint in H. rewrite sort_findings_perm in H. apply elem_of_app in H as [H|H];
    [destruct (is_active rules && _); set_solver|].
  apply lint_rules_elem in H as (pre & r & post & -> & H).
  apply lint_rule_never in H as (Hs & Ha & Hc & d & Hd & _ & Hda & Hcov).
  exists r. split_and!; [set_solver|done|done|]. intros m host raw path Hp Hh.
  apply not_true_iff_false. rewrite check_active by (done || by destruct pre).
  intros [Hno _]. apply Hno. exists d. split_and!; [done..|].
  eapply covers_hits; eauto. by eapply normalize_normal.
Qed.

Definition acl2 : list Rule :=
  [MkRule AllowRule (Some (bstr "GET")) (bstr "a.example") (Some (bstr "/admin")) (bstr "allow GET a.example/admin");
   MkRule DenyRule None (bstr "*") (Some (bstr "/admin/*")) (bstr "deny * */admin/*")].

Lemma lint_dead_allow_witness : exists r, r ∈ acl2 /\ action r = AllowRule /\
  source r = bstr "allow GET a.example/admin" /\
    forall m host raw path, normalize_path raw = ROk path -> hits r m (to_ascii_lowercase host) path ->
      is_allow (check acl2 m host raw) = false.
Proof.
  apply (lint_dead_allow acl2 Warn _ (bstr "deny * */admin/*")). vm_compute. left.
Defined.


(** ** Accepted path globs *)

Lemma join_split sep s cur : join [sep] (split_on sep s cur) = cur ++ s.
Proof.
  revert cur. induction s as [|c s IH]; intros cur; simpl; [by rewrite app_nil_r|].
  destruct (N.eqb_spec c sep) as [-> |].
  - destruct (split_on_cur sep s []) as (h & t & E & _). rewrite E.
    rewrite join_cons, <- E, IH. done.
  - rewrite IH, <- app_assoc. done.
Qed.

(** [has_double_slash] from a position whose last character is a slash or
    not. *)
Definition double_from (prev : bool) (s : rstr) : bool :=
  (fix go (prev : bool) (s : rstr) : bool :=
     match s with
     | [] => false
     | c :: s => if c =? 47 then if prev then true else go true s else go false s
     end) prev s.

Lemma single_slash_pieces s prev cur :
  double_from prev s = false -> (cur = [] -> prev = true) ->
  forall i, split_on 47 s cur !! i = Some [] -> S i = length (split_on 47 s cur).
Proof.
  revert prev cur. induction s as [|c s IH]; intros prev cur Hd Hp i.
  - destruct i as [|i]; [done|]. done.
  - cbn [double_from split_on] in *. destruct (N.eqb_spec c 47).
    + destruct prev; [done|]. destruct i as [|i]; simpl.
      * intros [= ->]. by specialize (Hp eq_refl).
      * intros H. f_equal. by eapply (IH true).
    + apply (IH false); [done|]. by destruct cur.
Qed.

Lemma plain_canon s : Forall (fun c => plain c = true) s -> canon s.
Proof. induction 1; [constructor|by apply c_plain]. Qed.

Lemma existsb_false {A} (f : A -> bool) l : existsb f l = false <-> forall x, x ∈ l -> f x = false.
Proof.
  rewrite <- not_true_iff_false, existsb_elem. split.
  - intros H x Hx. apply not_true_iff_false. eauto.
  - intros H (x & Hx & Hf). by rewrite H in Hf.
Qed.

Lemma validate_inv p :
  validate_path_glob p = ROk tt ->
  (forall b, b ∈ as_bytes p -> b <> 37 /\ b <> 63 /\ b <> 35 /\ b <> 92 /\ is_control b = false) /\
  has_double_slash p = false /\
  (forall s, s ∈ split_on 47 p [] -> s <> bstr "." /\ s <> bstr "..").
Proof.
  unfold validate_path_glob. destruct (existsb _ (as_bytes p)) eqn:E1; [done|].
  destruct (has_double_slash p); [done|]. destruct (existsb _ (split_on 47 p [])) eqn:E2; [done|]. intros _.
  rewrite existsb_false in E1. rewrite existsb_false in E2. split_and!; [|done|].
  - intros b Hb. specialize (E1 b Hb). rewrite !orb_false_iff, !N.eqb_neq in E1. tauto.
  - intros s Hs. specialize (E2 s Hs). rewrite orb_false_iff, !bool_decide_eq_false in E2. tauto.
Qed.

Lemma pieces_normal l :
  l <> [] -> (forall i, l !! i = Some [] -> S i = length l) ->
  (forall s, s ∈ l -> s <> [] -> seg_ok s) -> normal_path (47 :: join [47] l).
Proof.
  intros Hn Hi Hs. destruct (exists_last Hn) as (stack & x & ->).
  assert (Forall seg_ok stack) as Hst.
  { apply Forall_forall. intros s [i Hl]%list_elem_of_lookup_1. apply Hs.
    - apply elem_of_app. left. by eapply list_elem_of_lookup_2.
    - intros ->. pose proof (lookup_lt_Some _ _ _ Hl). specialize (Hi i).
      rewrite lookup_app_l, length_app in Hi by done. specialize (Hi Hl). simpl in Hi. lia. }
  destruct (decide (x = [])) as [-> |Hx].
  - exists stack, true. split; [|done]. destruct stack as [|p ps]; [done|].
    rewrite <- join_snoc_nil. unfold slash_end. by rewrite bool_decide_eq_false_2.
  - exists (stack ++ [x]), false. split; [cbn; by rewrite app_nil_r|].
    apply Forall_app; split; [done|]. repeat constructor; apply Hs; set_solver.
Qed.

(** An accepted path glob of ASCII characters is a normal path itself. *)
Lemma validated_normal p :
  validate_path_glob p = ROk tt -> starts_with (bstr "/") p = true ->
  Forall (fun c => c < 0x80) p -> normal_path p.
Proof.
  intros (Hb & Hd & Hdot)%validate_inv Hp Ha. rewrite as_bytes_ascii in Hb by done.
  unfold starts_with in Hp. destruct (strip_prefix (bstr "/") p) as [s|] eqn:Es; [|done].
  apply strip_prefix_spec in Es. change (bstr "/" ++ s) with (47 :: s) in Es. subst p.
  rewrite <- (app_nil_l s), <- (join_split 47 s []) at 1. apply pieces_normal.
  - destruct (split_on_cur 47 s []) as (? & ? & -> & _). done.
  - apply (single_slash_pieces s true); [exact Hd|done].
  - intros q Hq Hne.
    assert (q ∈ split_on 47 (47 :: s) []) as Hq2 by (cbn [split_on]; rewrite N.eqb_refl; by right).
    destruct (Hdot q Hq2) as [H1 H2].
    assert (forall c, c ∈ q -> c ∈ 47 :: s) as Hsub.
    { intros c Hc. destruct (split_on_sub _ _ _ _ _ Hq Hc); set_solver. }
    unfold seg_ok, good_seg. split_and!; [done|done|done| | | |].
    + apply plain_canon, Forall_forall. intros c Hc. destruct (Hb c (Hsub c Hc)) as (? & ? & ? & ? & Hctl).
      rewrite Forall_forall in Ha. specialize (Ha c (Hsub c Hc)). unfold is_control in Hctl.
      rewrite orb_false_iff, N.ltb_ge, N.eqb_neq in Hctl. unfold plain.
      rewrite !andb_true_iff, !negb_true_iff, !N.eqb_neq, N.leb_le, N.ltb_lt. lia.
    + pose proof (split_on_free 47 s [] ltac:(set_solver)) as Hf. rewrite Forall_forall in Hf. by apply Hf.
    + intros Hc. destruct (Hb 63 (Hsub _ Hc)); tauto.
    + intros Hc. destruct (Hb 35 (Hsub _ Hc)); tauto.
Qed.

Lemma gmatch_self p : gmatch p p.
Proof.
  induction p as [|c p IH]; [constructor|]. destruct (decide (c = 42)) as [-> |]; [|by constructor].
  by apply (g_star p [42]).
Qed.

Lemma gmatch_elem p t b : gmatch p t -> b ∈ p -> b <> 42 -> b ∈ t.
Proof. induction 1; set_solver. Qed.

Lemma strip_slash_sub path c : c ∈ default path (strip_suffix (bstr "/") path) -> c ∈ path.
Proof.
  destruct (strip_suffix (bstr "/") path) as [u|] eqn:E; simpl; [|done].
  apply strip_suffix_spec in E as ->. set_solver.
Qed.

Lemma ascii_default path : normal_path path -> as_bytes (default path (strip_suffix (bstr "/") path)) =
  default path (strip_suffix (bstr "/") path).
Proof.
  intros H. apply as_bytes_ascii, Forall_forall. intros c Hc%strip_slash_sub.
  destruct (normal_chars _ _ H Hc). lia.
Qed.

(** A glob that names some normal path is ASCII. *)
Lemma named_ascii p path : normal_path path -> path_named p path -> Forall (fun c => c < 0x80) p.
Proof.
  intros Hn H. apply Forall_forall. intros c Hc. destruct (N.lt_ge_cases c 0x80) as [?|Hge]; [done|].
  destruct (encode_char_high c Hge) as (b & Hb & Hb80). exfalso.
  assert (forall q, c ∈ q -> b ∈ as_bytes q) as Hq.
  { intros q Hq. unfold as_bytes. rewrite list_elem_of_In, in_flat_map. exists c. by rewrite <- !list_elem_of_In. }
  assert (b ∈ path) as Hin.
  { destruct H as [H|(dir & -> & H)].
    - rewrite (normal_bytes _ Hn) in H. eapply gmatch_elem; [done|by apply Hq|lia].
    - rewrite ascii_default in H by done. apply strip_slash_sub. eapply gmatch_elem; [done|apply Hq|lia].
      apply elem_of_app in Hc as [?|Hc]; [done|]. change (bstr "/*") with [47; 42] in Hc. set_solver. }
  destruct (normal_chars _ _ Hn Hin). lia.
Qed.

(** A path glob that rule parsing accepts can match the path of some request
    exactly when it is ASCII.  So a rule whose glob holds any other character
    is accepted and never matches; every other accepted glob matches itself. *)
Theorem accepted_glob_reachable p
  (H : validate_path_glob p = ROk tt) (Hs : starts_with (bstr "/") p = true) :
  (exists raw path, normalize_path raw = ROk path /\ path_glob_match p path = true) <->
  Forall (fun c => c < 0x80) p.
Proof.
  split.
  - intros (raw & path & Hn & Hg). apply path_glob_spec in Hg. apply normalize_normal in Hn.
    by eapply named_ascii.
  - intros Ha. exists p, p. split; [by apply normal_fix, validated_normal|].
    apply path_glob_spec. left. apply gmatch_self.
Qed.

Lemma accepted_glob_reachable_witness :
  (exists raw path, normalize_path raw = ROk path /\ path_glob_match [47; 233] path = true) <->
  Forall (fun c => c < 0x80) [47; 233].
Proof. apply (accepted_glob_reachable [47; 233]); vm_compute; reflexivity. Defined.

(** A deny rule for [/é] lets [/é] through however the client spells it. *)
Example nonascii_deny_is_dead :
  parse_rule (bstr "deny * */" ++ [233]) =
    ROk (MkRule DenyRule None (bstr "*") (Some [47; 233]) (bstr "deny * */" ++ [233])) /\
  check [MkRule DenyRule None (bstr "*") (Some [47; 233]) []] (bstr "GET") (bstr "h") (bstr "/%C3%A9") = Allow.
Proof. split; vm_compute; reflexivity. Qed.

(** An escape with a plus sign for its first digit is read as an escape. *)
Example plus_is_a_hex_digit : normalize_path (bstr "/%+1") = ROk (bstr "/%01").
Proof. vm_compute. reflexivity. Qed.

(** ** Parsed rules *)

(** What the rest of the code relies on in a rule. *)
Definition rule_wf (r : Rule) : Prop :=
  match method r with None => True | Some m => m <> [] /\ Forall (fun c => is_upper c = true) m end /\
  rhost r <> [] /\ to_ascii_lowercase (rhost r) = rhost r /\
  (forall c, c ∈ rhost r -> c <> 47 /\ c <> 64 /\ c <> 92 /\ c <> 63 /\ c <> 35 /\ is_control c = false) /\
  match rpath r with
  | None => True
  | Some p => starts_with (bstr "/") p = true /\ validate_path_glob p = ROk tt
  end.

Lemma upper_of_alpha c : is_alpha c = true -> is_upper (upper c) = true.
Proof.
  unfold is_alpha, is_upper, is_lower, upper, is_lower. intros H.
  destruct (N.leb_spec 97 c), (N.leb_spec c 122); simpl in *;
    rewrite ?andb_true_iff, ?N.leb_le; rewrite ?orb_true_iff, ?andb_true_iff, ?N.leb_le in H; lia.
Qed.

Lemma as_bytes_low s b : b < 0x80 -> b ∈ s -> b ∈ as_bytes s.
Proof.
  intros Hb Hs. unfold as_bytes. rewrite list_elem_of_In, in_flat_map. exists b.
  rewrite <- !list_elem_of_In. split; [done|]. unfold encode_char. destruct (N.ltb_spec b 0x80); [set_solver|lia].
Qed.

(** A byte test that fails on every non-ASCII byte tests the characters. *)
Lemma bytes_all_chars (f : N -> bool) s :
  (forall b, 0x80 <= b -> f b = false) -> forallb f (as_bytes s) = true -> Forall (fun c => f c = true) s.
Proof.
  intros Hf H. rewrite forallb_forall in H.
  assert (as_bytes s = s) as E.
  { apply as_bytes_ascii_inv, Forall_forall. intros b Hb. rewrite list_elem_of_In in Hb.
    specialize (H b Hb). destruct (N.lt_ge_cases b 0x80) as [?|Hge]; [done|]. by rewrite Hf in H. }
  rewrite E in H. apply Forall_forall. intros c Hc. apply H. by rewrite <- list_elem_of_In.
Qed.

Lemma bytes_none_chars (f : N -> bool) s c :
  (forall b, 0x80 <= b -> f b = false) -> existsb f (as_bytes s) = false -> c ∈ s -> f c = false.
Proof.
  intros Hf H Hc. destruct (N.lt_ge_cases c 0x80) as [Hlt|]; [|auto].
  rewrite existsb_false in H. apply H. by apply as_bytes_low.
Qed.

Lemma parse_method_wf w m :
  parse_method w = ROk m ->
  match m with None => True | Some m => m <> [] /\ Forall (fun c => is_upper c = true) m end.
Proof.
  unfold parse_method. case_bool_decide; [by intros [= <-]|].
  destruct (bool_decide_reflect (w = [])) as [|Hw]; [done|]. destruct (forallb is_alpha (as_bytes w)) eqn:E; [|done].
  intros [= <-]. apply bytes_all_chars in E.
  - split; [by destruct w|]. unfold to_ascii_uppercase. rewrite Forall_forall in *. intros c Hc.
    rewrite list_elem_of_In, in_map_iff in Hc. destruct Hc as (x & <- & Hx). apply upper_of_alpha, E.
    by apply list_elem_of_In.
  - intros b Hb. unfold is_alpha, is_upper, is_lower. rewrite orb_false_iff, !andb_false_iff, !N.leb_gt. lia.
Qed.

Lemma lower_elem s c : c ∈ to_ascii_lowercase s -> exists x, x ∈ s /\ c = lower x.
Proof. unfold to_ascii_lowercase. rewrite list_elem_of_In, in_map_iff. intros (x & <- & Hx). exists x. by rewrite list_elem_of_In. Qed.

Lemma lower_other x c : lower x = c -> c < 97 \/ 122 < c -> x = c.
Proof. unfold lower, is_upper. destruct (N.leb_spec 65 x), (N.leb_spec x 90); simpl; lia. Qed.

Definition host_glob_bad (b : N) : bool := (b =? 64) || (b =? 92) || (b =? 63) || (b =? 35) || is_control b.

Lemma host_glob_chars host c :
  47 ∉ host -> existsb host_glob_bad (as_bytes host) = false -> c ∈ to_ascii_lowercase host ->
  c <> 47 /\ c <> 64 /\ c <> 92 /\ c <> 63 /\ c <> 35 /\ is_control c = false.
Proof.
  intros Hsl E (x & Hx & ->)%lower_elem.
  assert (host_glob_bad x = false) as Hb.
  { eapply bytes_none_chars; [|done|done]. intros b Hb. unfold host_glob_bad, is_control.
    rewrite !orb_false_iff, !N.eqb_neq, N.ltb_ge. lia. }
  assert (x <> 47) by (intros ->; done).
  unfold host_glob_bad, is_control in *. rewrite !orb_false_iff, !N.eqb_neq, !N.ltb_ge in *.
  unfold lower, is_upper. destruct (N.leb_spec 65 x), (N.leb_spec x 90); simpl; lia.
Qed.

Lemma parse_rule_wf raw r : parse_rule raw = ROk r -> rule_wf r.
Proof.
  unfold parse_rule. destruct (split_whitespace raw) as [|w0 [|w1 [|tgt [|]]]]; try done.
  destruct (parse_action w0) as [a|]; [|done]. cbn [rbind].
  destruct (parse_method w1) as [m|] eqn:Em; [|done]. cbn [rbind]. apply parse_method_wf in Em.
  destruct (match split_once 47 tgt with Some (h, rest) => (h, Some (47 :: rest)) | None => (tgt, None) end)
    as [host path] eqn:Et.
  assert (47 ∉ host /\ match path with None => True | Some p => starts_with (bstr "/") p = true end) as [Hsl Hsp].
  { destruct (split_once 47 tgt) as [[h rest]|] eqn:E; simplify_eq.
    - by apply split_once_some in E as [_ ?].
    - by apply split_once_none in E. }
  case_bool_decide as Hh; [done|].
  change (existsb _ (as_bytes host)) with (existsb host_glob_bad (as_bytes host)).
  destruct (existsb host_glob_bad (as_bytes host)) eqn:Eb; [done|].
  destruct (match path with Some p => validate_path_glob p | None => ROk tt end) as [[]|] eqn:Ev; [|done].
  intros [= <-]. split_and!; simpl; [done|by destruct host|apply to_ascii_lowercase_idemp| |].
  - intros c Hc. by apply (host_glob_chars host).
  - by destruct path.
Qed.

(** A rule set is loaded whole or not at all: one rule per line, in order,
    each with an upper-case method or any, a non-empty lower-case host glob
    without separators, and an absolute path glob that passed validation; and a
    set that is refused names a line that does not parse. *)
Theorem acl_parse_typed raws :
  match parse raws with
  | ROk rules => Forall2 (fun raw r => parse_rule raw = ROk r /\ rule_wf r) raws rules
  | RErr (raw, e) => raw ∈ raws /\ parse_rule raw = RErr e
  end.
Proof.
  induction raws as [|raw raws IH]; simpl; [constructor|].
  destruct (parse_rule raw) as [r|e] eqn:E; [|split; [left|done]].
  destruct (parse raws) as [rules|[raw' e]]; simpl.
  - constructor; [|done]. split; [done|]. by eapply parse_rule_wf.
  - destruct IH. split; [by right|done].
Qed.

(** ** Hosts *)

Lemma trim_start_matches_sub c s x : x ∈ trim_start_matches c s -> x ∈ s.
Proof. induction s as [|y s IH]; simpl; [done|]. destruct (y =? c); set_solver. Qed.

Lemma trim_end_matches_sub c s x : x ∈ trim_end_matches c s -> x ∈ s.
Proof. unfold trim_end_matches. rewrite elem_of_reverse. intros H%trim_start_matches_sub. by apply elem_of_reverse. Qed.

Lemma trim_end_matches_last c s : last (trim_end_matches c s) <> Some c.
Proof.
  unfold trim_end_matches. rewrite last_reverse. induction (reverse s) as [|y l IH]; [done|].
  simpl. destruct (N.eqb_spec y c); [done|]. simpl. congruence.
Qed.

Lemma trim_start_sub s x : x ∈ trim_start s -> x ∈ s.
Proof. induction s as [|y s IH]; simpl; [done|]. destruct (is_space y); set_solver. Qed.

Lemma strip_port_sub s h x : strip_port s = ROk h -> x ∈ h -> x ∈ s.
Proof.
  unfold strip_port. destruct (strip_prefix (bstr "[") s) as [rest|] eqn:E.
  - apply strip_prefix_spec in E. change (bstr "[") with [91] in E. subst s.
    destruct (split_once 93 rest) as [[a b]|] eqn:Eo; [|done]. intros [= <-].
    apply split_once_some in Eo as [-> _]. set_solver.
  - destruct (rsplit_once 58 s) as [[a b]|] eqn:Er; [|intros [= <-]; done].
    unfold rsplit_once in Er. destruct (split_once 58 (reverse s)) as [[u v]|] eqn:Eo; [|done].
    simplify_eq. apply split_once_some in Eo as [Ev _].
    assert (s = reverse v ++ 58 :: reverse u) as ->.
    { rewrite <- (reverse_involutive s), Ev, reverse_app, reverse_cons, <- app_assoc. done. }
    destruct (_ && _); [intros [= <-]; set_solver|]. case_bool_decide; intros [= <-]; [|done].
    apply subseteq_take.
Qed.

(** A canonical host: not empty, lower case, no trailing dot, nothing that
    makes the authority ambiguous. *)
Definition host_canonical (h : rstr) : Prop :=
  h <> [] /\ to_ascii_lowercase h = h /\ last h <> Some 46 /\ forall c, c ∈ h -> host_char_bad c = false.

Lemma canon_host_canonical s h : canon_host s = ROk h -> host_canonical h.
Proof.
  unfold canon_host. set (t := trim s). case_bool_decide; [done|].
  destruct (existsb host_char_bad (as_bytes t)) eqn:Eb; [done|]. destruct (negb _ && _); [done|].
  destruct (strip_port t) as [p|] eqn:Ep; [|done]. cbn [rbind]. case_bool_decide as Hn; [done|].
  intros [= <-]. split_and!; [done|apply to_ascii_lowercase_idemp| |].
  - unfold to_ascii_lowercase. change (map lower ?l) with (lower <$> l). rewrite fmap_last.
    pose proof (trim_end_matches_last 46 p) as Hl.
    destruct (last (trim_end_matches 46 p)) as [y|]; [|done]. intros [= Hy].
    apply lower_other in Hy; [congruence|lia].
  - intros c (x & Hx & ->)%lower_elem. apply trim_end_matches_sub in Hx. apply (strip_port_sub t p) in Hx; [|done].
    assert (host_char_bad x = false) as Hb.
    { eapply bytes_none_chars; [|done|done]. intros b Hb. unfold host_char_bad, is_control.
      rewrite !orb_false_iff, !N.eqb_neq, N.ltb_ge. lia. }
    unfold host_char_bad, is_control in *. rewrite !orb_false_iff, !N.eqb_neq, !N.ltb_ge in *.
    unfold lower, is_upper. destruct (N.leb_spec 65 x), (N.leb_spec x 90); simpl; lia.
Qed.

(** The host a request is judged by is canonical, and every host the request
    names canonicalises to it; a request whose two names differ has none. *)
Theorem effective_host_agrees uri_host host_header h (H : effective_host uri_host host_header = ROk h) :
  host_canonical h /\
  (forall u, uri_host = Some u -> canon_host u = ROk h) /\
  (forall u, host_header = Some u -> canon_host u = ROk h) /\
  (uri_host <> None \/ host_header <> None).
Proof.
  unfold effective_host in H.
  assert (forall o c, canon_opt o = ROk c -> match o, c with
    | Some u, Some x => canon_host u = ROk x | None, None => True | _, _ => False end) as Ho.
  { intros [u|] c; simpl; [|by intros [= <-]]. by destruct (canon_host u); intros [= <-]. }
  destruct (canon_opt uri_host) as [fu|] eqn:Eu; [|done].
  cbn [rbind] in H. destruct (canon_opt host_header) as [fh|] eqn:Eh; [|done]. cbn [rbind] in H.
  apply Ho in Eu, Eh. destruct uri_host, host_header, fu, fh; try done; try case_bool_decide; simplify_eq;
    split_and!; try (by eapply canon_host_canonical); naive_solver.
Qed.

Lemma effective_host_agrees_witness :
  host_canonical (bstr "a.example") /\ canon_host (bstr "A.Example.:8080") = ROk (bstr "a.example").
Proof.
  destruct (effective_host_agrees (Some (bstr "A.Example.:8080")) (Some (bstr " a.example ")) (bstr "a.example"))
    as (H1 & H2 & _); [vm_compute; reflexivity|]. split; [exact H1|]. apply H2. reflexivity.
Defined.

(** A dot after the port hides the port. *)
Example canon_host_keeps_port : canon_host (bstr "a.example:80.") = ROk (bstr "a.example:80") /\
  canon_host (bstr "a.example:80") = ROk (bstr "a.example").
Proof. split; vm_compute; reflexivity. Qed.
