(* ===== verification/Grants.v ===== *)
(** * Credential grants

    [fluxvm-core/src/grants.rs]: the store of per-sandbox secrets that the
    egress proxy injects.  A time is a number of nanoseconds; the fresh UUID of
    a grant is an argument of [add].  The mutex makes each operation one step,
    and [grant_step] is what the daemon's API may do to the store. *)

From stdpp Require Import prelude list gmap strings.
From Stdlib Require Import NArith ZArith Lia.
From S2P Require Import Prelude RustStr.

Definition SECOND : Z := 1000000000.
Definition DEFAULT_GRANT_TTL_SECS : Z := 3600.
Definition MAX_GRANT_TTL_SECS : Z := 24 * 3600.
Definition MAX_GRANTS_PER_SANDBOX : nat := 32.

(** [std::net::IpAddr]. *)
Inductive IpAddr := V4 (a : N) | V6 (a : N).

#[global] Instance IpAddr_eq_dec : EqDecision IpAddr.
Proof. solve_decision. Defined.

#[global] Instance IpAddr_countable : Countable IpAddr.
Proof.
  refine (inj_countable' (fun a => match a with V4 x => inl x | V6 x => inr x end)
            (fun s => match s with inl x => V4 x | inr x => V6 x end) _).
  by intros [].
Defined.

Record GrantRequest := MkRequest {
  req_secret_ref : rstr;
  req_hosts : list rstr;
  ttl_seconds : option Z;
  req_expires_at : option Z
}.

Record GrantInfo := MkInfo {
  g_id : rstr;
  sandbox_id : rstr;
  secret_ref : rstr;
  hosts : list rstr;
  created_at : Z;
  expires_at : Z;
  bound : bool
}.

Record Grant := MkGrant { info : GrantInfo; value : rstr }.

Record Injection := MkInjection {
  inj_sandbox_id : rstr;
  inj_grant_id : rstr;
  inj_secret_ref : rstr;
  authorization : rstr
}.

Inductive GrantError :=
| BadSecretRef
| EmptyValue
| NoHosts
| InvalidHost (h : rstr)
| BadTtl
| PastExpiry
| LifetimeTooLong
| TooMany.

(** [Inner]. *)
Record GrantStore := MkStore {
  grants : gmap rstr (list Grant);
  sources : gmap IpAddr rstr
}.

Definition empty_store : GrantStore := MkStore ∅ ∅.

(** ** Hosts *)

Definition ends_with (p s : rstr) : bool :=
  match strip_suffix p s with Some _ => true | None => false end.

Definition host_matches (pattern host : rstr) : bool :=
  let p := to_ascii_lowercase (trim_start_matches 46 (trim pattern)) in
  let h := to_ascii_lowercase (trim_end_matches 46 (trim host)) in
  negb (bool_decide (p = [])) && (bool_decide (h = p) || ends_with (46 :: p) h).

Definition secret_env_name (secret_ref : rstr) : rstr :=
  bstr "FLUXVM_SECRET_" ++ map (fun c => if is_alnum c then upper c else 95) secret_ref.

Definition host_char_bad (c : N) : bool :=
  is_space c || (c =? 42) || (c =? 47) || (c =? 58) || (c =? 64) || (c =? 63).

Definition normalize_host (h : rstr) : result GrantError rstr :=
  let h := to_ascii_lowercase (trim_start_matches 46 (trim h)) in
  if bool_decide (h = []) || existsb host_char_bad h then RErr (InvalidHost h) else ROk h.

Fixpoint normalize_hosts (hs : list rstr) : result GrantError (list rstr) :=
  match hs with
  | [] => ROk []
  | h :: hs => let? x := normalize_host h in let? xs := normalize_hosts hs in ROk (x :: xs)
  end.

(** ** Operations *)

Definition live (now : Z) (g : Grant) : bool := (now <? expires_at (info g))%Z.

Definition expiry (req : GrantRequest) (now : Z) : result GrantError Z :=
  match req_expires_at req, ttl_seconds req with
  | Some at_, _ => ROk at_
  | None, Some ttl =>
      if (ttl <=? 0)%Z || (MAX_GRANT_TTL_SECS <? ttl)%Z then RErr BadTtl else ROk (now + ttl * SECOND)%Z
  | None, None => ROk (now + DEFAULT_GRANT_TTL_SECS * SECOND)%Z
  end.

(** The checks of [add] before the lock is taken: the trimmed name, the hosts
    and the expiry of the grant to be. *)
Definition vet (req : GrantRequest) (value : rstr) (now : Z) : result GrantError (rstr * list rstr * Z) :=
  let name := trim (req_secret_ref req) in
  if bool_decide (name = []) || (128 <? lenN (as_bytes name)) then RErr BadSecretRef
  else if bool_decide (value = []) then RErr EmptyValue
  else if bool_decide (req_hosts req = []) then RErr NoHosts
  else
    let? hs := normalize_hosts (req_hosts req) in
    let? at_ := expiry req now in
    if (at_ <=? now)%Z then RErr PastExpiry
    else if (now + MAX_GRANT_TTL_SECS * SECOND <? at_)%Z then RErr LifetimeTooLong
    else ROk (name, hs, at_).

Definition add (uuid sandbox : rstr) (req : GrantRequest) (value : rstr) (source_ip : option IpAddr) (now : Z)
    (st : GrantStore) : result GrantError GrantInfo * GrantStore :=
  match vet req value now with
  | RErr e => (RErr e, st)
  | ROk (name, hs, at_) =>
      let kept := List.filter (live now) (default [] (grants st !! sandbox)) in
      if (MAX_GRANTS_PER_SANDBOX <=? length kept)%nat then
        (RErr TooMany, MkStore (<[sandbox := kept]> (grants st)) (sources st))
      else
        let i := MkInfo uuid sandbox name hs now at_ (bool_decide (source_ip <> None)) in
        (ROk i,
         MkStore (<[sandbox := kept ++ [MkGrant i value]]> (grants st))
                 (match source_ip with Some ip => <[ip := sandbox]> (sources st) | None => sources st end))
  end.

Definition remove (sandbox grant_id : rstr) (st : GrantStore) : bool * GrantStore :=
  match grants st !! sandbox with
  | None => (false, st)
  | Some l =>
      let l' := List.filter (fun g => negb (bool_decide (g_id (info g) = grant_id))) l in
      (negb (length l' =? length l)%nat, MkStore (<[sandbox := l']> (grants st)) (sources st))
  end.

Definition remove_sandbox (sandbox : rstr) (st : GrantStore) : GrantStore :=
  MkStore (delete sandbox (grants st)) (filter (fun kv => kv.2 <> sandbox) (sources st)).

Definition list_grants (sandbox : rstr) (now : Z) (st : GrantStore) : list GrantInfo :=
  match grants st !! sandbox with
  | Some l => map info (List.filter (live now) l)
  | None => []
  end.

Definition injection (g : Grant) : Injection :=
  MkInjection (sandbox_id (info g)) (g_id (info g)) (secret_ref (info g)) (value g).

Definition resolve (peer : IpAddr) (host : rstr) (now : Z) (st : GrantStore) : option Injection :=
  sandbox ← sources st !! peer;
  l ← grants st !! sandbox;
  g ← List.find (fun g => existsb (fun p => host_matches p host) (hosts (info g))) (List.filter (live now) l);
  Some (injection g).

(** ** The store as a state machine *)

Inductive grant_op :=
| OpAdd (uuid sandbox : rstr) (req : GrantRequest) (v : rstr) (ip : option IpAddr) (now : Z)
| OpRemove (sandbox gid : rstr)
| OpRemoveSandbox (sandbox : rstr).

Definition apply_op (op : grant_op) (st : GrantStore) : GrantStore :=
  match op with
  | OpAdd uuid sandbox req v ip now => (add uuid sandbox req v ip now st).2
  | OpRemove sandbox gid => (remove sandbox gid st).2
  | OpRemoveSandbox sandbox => remove_sandbox sandbox st
  end.

Definition run (ops : list grant_op) (st : GrantStore) : GrantStore :=
  fold_left (fun st op => apply_op op st) ops st.

(** ** The invariant *)

Definition pattern_ok (p : rstr) : Prop :=
  p <> [] /\ to_ascii_lowercase p = p /\ head p <> Some 46 /\ forall c, c ∈ p -> host_char_bad c = false.

Record grant_ok (sandbox : rstr) (g : Grant) : Prop := {
  ok_sandbox : sandbox_id (info g) = sandbox;
  ok_value : value g <> [];
  ok_hosts : hosts (info g) <> [] /\ Forall pattern_ok (hosts (info g));
  ok_time : (created_at (info g) < expires_at (info g) <= created_at (info g) + MAX_GRANT_TTL_SECS * SECOND)%Z
}.

Definition store_ok (st : GrantStore) : Prop :=
  forall sandbox l, grants st !! sandbox = Some l ->
    (length l <= MAX_GRANTS_PER_SANDBOX)%nat /\ Forall (grant_ok sandbox) l.

Lemma trim_start_matches_head c s : head (trim_start_matches c s) <> Some c.
Proof. induction s as [|x s IH]; simpl; [done|]. destruct (N.eqb_spec x c); [done|]. simpl. congruence. Qed.

Lemma normalize_host_ok h p : normalize_host h = ROk p -> pattern_ok p.
Proof.
  unfold normalize_host. set (s := trim_start_matches 46 (trim h)).
  case_bool_decide as Hn; [done|]. cbn [orb]. destruct (existsb _ _) eqn:E; [done|]. intros [= <-].
  split_and!; [done|apply to_ascii_lowercase_idemp| |].
  - pose proof (trim_start_matches_head 46 (trim h)) as Hh. fold s in Hh. destruct s as [|x s']; [done|].
    simpl in *. intros [= Hx]. apply Hh. f_equal. unfold lower, is_upper in Hx.
    destruct (N.leb_spec 65 x), (N.leb_spec x 90); simpl in Hx; lia.
  - intros c Hc. rewrite <- not_true_iff_false in *. intros Hb. apply E, existsb_exists. exists c.
    by rewrite <- list_elem_of_In.
Qed.

Lemma normalize_hosts_ok hs ps : normalize_hosts hs = ROk ps -> length ps = length hs /\ Forall pattern_ok ps.
Proof.
  revert ps. induction hs as [|h hs IH]; intros ps; simpl; [by intros [= <-]|].
  destruct (normalize_host h) as [x|] eqn:Ex; [|done]. destruct (normalize_hosts hs) as [xs|]; [|done].
  intros [= <-]. destruct (IH xs eq_refl) as [? ?]. split; [simpl; congruence|].
  constructor; [by eapply normalize_host_ok|done].
Qed.

Lemma vet_ok req v now name hs at_ :
  vet req v now = ROk (name, hs, at_) ->
  v <> [] /\ (hs <> [] /\ Forall pattern_ok hs) /\ (now < at_ <= now + MAX_GRANT_TTL_SECS * SECOND)%Z.
Proof.
  unfold vet. destruct (_ || _); [done|]. case_bool_decide; [done|]. case_bool_decide as Hh; [done|].
  destruct (normalize_hosts (req_hosts req)) as [ps|] eqn:En; [|done]. cbn [rbind].
  destruct (expiry req now) as [t|]; [|done]. cbn [rbind].
  destruct (Z.leb_spec t now); [done|]. destruct (Z.ltb_spec (now + MAX_GRANT_TTL_SECS * SECOND)%Z t); [done|].
  intros [= <- <- <-]. apply normalize_hosts_ok in En as [El Ef]. split_and!; try done; try lia.
  intros ->. by destruct (req_hosts req).
Qed.

Lemma filter_sublist {A} (P : A -> Prop) f (l : list A) :
  Forall P l -> Forall P (List.filter f l) /\ (length (List.filter f l) <= length l)%nat.
Proof.
  induction 1 as [|x l Hx H [IH1 IH2]]; simpl; [by split|]. destruct (f x); simpl; split; auto with lia.
Qed.

Lemma add_ok uuid sandbox req v ip now st : store_ok st -> store_ok (add uuid sandbox req v ip now st).2.
Proof.
  intros Hst. unfold add. destruct (vet req v now) as [[[name hs] at_]|] eqn:Ev; [|done].
  apply vet_ok in Ev as (Hv & Hh & Ht).
  set (kept := List.filter (live now) (default [] (grants st !! sandbox))).
  assert (Forall (grant_ok sandbox) kept /\ (length kept <= 32)%nat) as [Hk Hl].
  { unfold kept. destruct (grants st !! sandbox) as [l|] eqn:El; simpl; [|split; [constructor|lia]].
    destruct (Hst _ _ El) as [? Hf]. destruct (filter_sublist _ (live now) _ Hf). unfold MAX_GRANTS_PER_SANDBOX in *.
    split; [done|lia]. }
  destruct (Nat.leb_spec MAX_GRANTS_PER_SANDBOX (length kept)) as [Hge|Hlt]; simpl; intros sb l; simpl.
  - intros [[<- <-]|[? ?]]%lookup_insert_Some; [|by apply Hst]. done.
  - intros [[<- <-]|[? ?]]%lookup_insert_Some; [|by apply Hst].
    rewrite length_app. simpl. split; [lia|]. apply Forall_app; split; [done|]. repeat constructor; naive_solver.
Qed.

Lemma remove_ok sandbox gid st : store_ok st -> store_ok (remove sandbox gid st).2.
Proof.
  intros Hst. unfold remove. destruct (grants st !! sandbox) as [l|] eqn:El; [|done]. intros sb l'. simpl.
  intros [[<- <-]|[? ?]]%lookup_insert_Some; [|by apply Hst]. destruct (Hst _ _ El) as [? Hf].
  destruct (filter_sublist _ (fun g => negb (bool_decide (g_id (info g) = gid))) _ Hf). split; [lia|done].
Qed.

Lemma remove_sandbox_ok sandbox st : store_ok st -> store_ok (remove_sandbox sandbox st).
Proof. intros Hst sb l. simpl. intros [_ H]%lookup_delete_Some. by apply Hst. Qed.

Lemma apply_op_ok op st : store_ok st -> store_ok (apply_op op st).
Proof. destruct op; [apply add_ok|apply remove_ok|apply remove_sandbox_ok]. Qed.

Lemma run_ok ops st : store_ok st -> store_ok (run ops st).
Proof. revert st. induction ops as [|op ops IH]; intros st H; [done|]. apply IH. by apply apply_op_ok. Qed.

Lemma empty_ok : store_ok empty_store.
Proof. intros sb l H. done. Qed.

(** ** Host patterns *)

Lemma trim_start_nospace s : Forall (fun c => is_space c = false) s -> trim_start s = s.
Proof. destruct 1 as [|c s Hc _]; [done|]. simpl. by rewrite Hc. Qed.

Lemma trim_nospace s : Forall (fun c => is_space c = false) s -> trim s = s.
Proof.
  intros H. unfold trim. rewrite (trim_start_nospace s) by done.
  rewrite trim_start_nospace by (by apply Forall_reverse). apply reverse_involutive.
Qed.

(** The host of a request as [host_matches] compares it. *)
Definition bare_host (host : rstr) : rstr := to_ascii_lowercase (trim_end_matches 46 (trim host)).

(** A stored pattern matches the host itself and its subdomains. *)
Lemma host_matches_spec p host :
  pattern_ok p ->
  host_matches p host = true <-> bare_host host = p \/ exists sub, bare_host host = sub ++ 46 :: p.
Proof.
  intros (Hn & Hl & Hd & Hc). unfold host_matches. fold (bare_host host).
  rewrite trim_nospace.
  2:{ apply Forall_forall. intros c Hin. specialize (Hc c Hin). unfold host_char_bad in Hc.
      rewrite !orb_false_iff in Hc. tauto. }
  assert (trim_start_matches 46 p = p) as ->.
  { destruct p as [|c p]; [done|]. simpl. destruct (N.eqb_spec c 46) as [-> |]; [|done]. by destruct Hd. }
  rewrite Hl, bool_decide_eq_false_2 by done. cbn [negb andb].
  rewrite orb_true_iff, bool_decide_eq_true. unfold ends_with.
  destruct (strip_suffix (46 :: p) (bare_host host)) as [u|] eqn:E.
  - apply strip_suffix_spec in E. naive_solver.
  - split; [naive_solver|]. intros [?|(sub & Hs)]; [by left|]. apply strip_suffix_spec in Hs. congruence.
Qed.

(** ** Resolution *)

(** The grant [g] of [sandbox] authorises traffic from [peer] to [host]. *)
Definition authorises (st : GrantStore) (peer : IpAddr) (host : rstr) (now : Z) (sandbox : rstr) (g : Grant) : Prop :=
  sources st !! peer = Some sandbox /\
  (exists l, grants st !! sandbox = Some l /\ g ∈ l) /\
  (now < expires_at (info g))%Z /\
  exists p, p ∈ hosts (info g) /\ (bare_host host = p \/ exists sub, bare_host host = sub ++ 46 :: p).

Lemma live_spec now g : live now g = true <-> (now < expires_at (info g))%Z.
Proof. apply Z.ltb_lt. Qed.

Lemma covers_spec sandbox g host :
  grant_ok sandbox g ->
  existsb (fun p => host_matches p host) (hosts (info g)) = true <->
  exists p, p ∈ hosts (info g) /\ (bare_host host = p \/ exists sub, bare_host host = sub ++ 46 :: p).
Proof.
  intros Hg. destruct (ok_hosts _ _ Hg) as [_ Hf]. rewrite Forall_forall in Hf. rewrite existsb_exists.
  split; intros (p & Hp & H); exists p.
  - rewrite <- list_elem_of_In in Hp. split; [done|]. by apply host_matches_spec; [apply Hf|].
  - rewrite <- list_elem_of_In. split; [done|]. by apply host_matches_spec; [apply Hf|].
Qed.

Lemma resolve_inv peer host now st inj :
  store_ok st -> resolve peer host now st = Some inj ->
  exists sandbox g, authorises st peer host now sandbox g /\ inj = injection g /\ grant_ok sandbox g.
Proof.
  intros Hst. unfold resolve. destruct (sources st !! peer) as [sb|] eqn:Es; [|done]. cbn.
  destruct (grants st !! sb) as [l|] eqn:El; [|done]. cbn. destruct (Hst _ _ El) as [_ Hf].
  destruct (List.find _ _) as [g|] eqn:Ef; [|done]. cbn. intros [= <-].
  apply find_some in Ef as [Hin Hc]. apply filter_In in Hin as [Hin Hl]. rewrite <- list_elem_of_In in Hin.
  rewrite Forall_forall in Hf. pose proof (Hf g Hin) as Hg. exists sb, g. split_and!; [|done|done].
  split_and!; [done|by eauto|by apply live_spec|]. by apply (covers_spec sb).
Qed.

Lemma resolve_some peer host now st sandbox g :
  store_ok st -> authorises st peer host now sandbox g -> resolve peer host now st <> None.
Proof.
  intros Hst (Es & (l & El & Hin) & Hl & Hp). unfold resolve. rewrite Es. cbn. rewrite El. cbn.
  destruct (Hst _ _ El) as [_ Hf]. rewrite Forall_forall in Hf.
  destruct (List.find _ _) as [g'|] eqn:Ef; [done|].
  exfalso. eapply find_none in Ef; [|apply filter_In; split; [by apply list_elem_of_In|by apply live_spec]].
  apply not_true_iff_false in Ef. apply Ef. by apply (covers_spec sandbox); [apply Hf|].
Qed.

(** After any history of grants and revocations, traffic gets a secret exactly
    when some live grant of the sandbox that owns its source address names the
    destination or a parent domain of it, and the secret it gets is that of
    such a grant, at most a day old, of that same sandbox. *)
Theorem grant_resolve_correct ops peer host now :
  let st := run ops empty_store in
  (forall inj, resolve peer host now st = Some inj ->
     exists g, authorises st peer host now (inj_sandbox_id inj) g /\ inj = injection g /\
       (now < expires_at (info g) <= created_at (info g) + MAX_GRANT_TTL_SECS * SECOND)%Z) /\
  (resolve peer host now st = None <-> forall sandbox g, ~ authorises st peer host now sandbox g).
Proof.
  intros st. assert (store_ok st) as Hst by apply run_ok, empty_ok. split.
  - intros inj H. apply resolve_inv in H as (sb & g & Ha & -> & Hg); [|done]. exists g.
    destruct (ok_time _ _ Hg). pose proof (ok_sandbox _ _ Hg) as Hs. destruct Ha as (? & ? & ? & ?).
    simpl. rewrite Hs. split_and!; try done; lia.
  - split.
    + intros Hn sb g Ha. by eapply resolve_some.
    + intros Hno. destruct (resolve peer host now st) as [inj|] eqn:E; [|done].
      apply resolve_inv in E as (sb & g & Ha & _); [|done]. by destruct (Hno sb g).
Qed.

(** The store never keeps more than 32 grants for a sandbox, and every grant
    it keeps belongs to the sandbox it is filed under, names at least one
    bare lower-case host, carries a secret, and lives between now and a day. *)
Theorem grant_store_invariant ops sandbox l
  (H : grants (run ops empty_store) !! sandbox = Some l) :
  (length l <= MAX_GRANTS_PER_SANDBOX)%nat /\ Forall (grant_ok sandbox) l.
Proof. by apply (run_ok ops empty_store empty_ok). Qed.

Definition req1 : GrantRequest := MkRequest (bstr "openai") [bstr ".OpenAI.com"] (Some 60%Z) None.
Definition ops1 : list grant_op :=
  [OpAdd (bstr "u1") (bstr "sb") req1 (bstr "Bearer x") (Some (V4 1)) 0].

Lemma grant_store_invariant_witness :
  (length (default [] (grants (run ops1 empty_store) !! bstr "sb")) = 1)%nat /\
  Forall (grant_ok (bstr "sb")) (default [] (grants (run ops1 empty_store) !! bstr "sb")).
Proof.
  split; [vm_compute; reflexivity|].
  apply (grant_store_invariant ops1 (bstr "sb")). vm_compute. reflexivity.
Defined.

(** *** Revocation *)

(** No grant of [sandbox] has the identifier [gid]. *)
Definition absent (sandbox gid : rstr) (st : GrantStore) : Prop :=
  forall l g, grants st !! sandbox = Some l -> g ∈ l -> g_id (info g) <> gid.

(** The operation does not file a grant [gid] under [sandbox]. *)
Definition no_regrant (sandbox gid : rstr) (op : grant_op) : Prop :=
  match op with OpAdd uuid sb _ _ _ _ => ~ (uuid = gid /\ sb = sandbox) | _ => True end.

Lemma absent_op sandbox gid op st :
  no_regrant sandbox gid op -> absent sandbox gid st -> absent sandbox gid (apply_op op st).
Proof.
  intros Hop Ha. destruct op as [uuid sb req v ip now|sb gid'|sb]; simpl.
  - unfold add. destruct (vet req v now) as [[[name hs] at_]|]; [|done].
    assert (forall g, sb = sandbox -> g ∈ List.filter (live now) (default [] (grants st !! sb)) ->
      g_id (info g) <> gid) as Hk.
    { intros g -> [Hin _]%list_elem_of_In%filter_In. destruct (grants st !! sandbox) as [l|] eqn:El; [|done].
      by eapply Ha; [|apply list_elem_of_In]. }
    destruct (_ <=? _)%nat; intros l g; simpl; intros [[-> <-]|[? ?]]%lookup_insert_Some; try by apply Ha.
    + auto.
    + intros [?| ->%list_elem_of_singleton]%elem_of_app; [auto|]. simpl. intros ->. by apply Hop.
  - unfold remove. destruct (grants st !! sb) as [l0|] eqn:El; [|done]. intros l g. simpl.
    intros [[-> <-]|[? ?]]%lookup_insert_Some; [|by apply Ha].
    intros [Hin _]%list_elem_of_In%filter_In. eapply Ha; [done|by apply list_elem_of_In].
  - intros l g. simpl. intros [_ H]%lookup_delete_Some. by apply Ha.
Qed.

Lemma absent_run sandbox gid ops st :
  Forall (no_regrant sandbox gid) ops -> absent sandbox gid st -> absent sandbox gid (run ops st).
Proof.
  intros H. revert st. induction H as [|op ops Hop _ IH]; intros st Ha; [done|]. apply IH. by apply absent_op.
Qed.

Lemma remove_absent sandbox gid st : absent sandbox gid (remove sandbox gid st).2.
Proof.
  unfold remove. destruct (grants st !! sandbox) as [l0|] eqn:El; intros l g; simpl; [|by rewrite El].
  rewrite lookup_insert_eq. intros [= <-] [_ H]%list_elem_of_In%filter_In.
  by rewrite negb_true_iff, bool_decide_eq_false in H.
Qed.

Lemma remove_sandbox_absent sandbox gid st : absent sandbox gid (remove_sandbox sandbox st).
Proof. intros l g. simpl. by rewrite lookup_delete_eq. Qed.

(** A revoked grant is never used again: after [remove], or after its sandbox
    is removed, no later history in which no new grant gets the same
    identifier makes the proxy inject its secret, at any time, for any peer
    and host. *)
Theorem revoked_never_injected ops0 sandbox gid ops peer host now inj
  (Hfresh : Forall (no_regrant sandbox gid) ops)
  (Hres : resolve peer host now (run ops (apply_op (OpRemove sandbox gid) (run ops0 empty_store))) = Some inj \/
          resolve peer host now (run ops (apply_op (OpRemoveSandbox sandbox) (run ops0 empty_store))) = Some inj) :
  ~ (inj_sandbox_id inj = sandbox /\ inj_grant_id inj = gid).
Proof.
  intros [Hs Hg].
  assert (forall st, store_ok st -> absent sandbox gid st -> resolve peer host now (run ops st) = Some inj -> False)
    as Hgen.
  { intros st Hst Ha H. apply resolve_inv in H as (sb & g & (_ & (l & El & Hin) & _) & -> & Hok); [|by apply run_ok].
    simpl in Hs, Hg. rewrite (ok_sandbox _ _ Hok) in Hs. subst sb.
    by eapply (absent_run sandbox gid ops st Hfresh Ha). }
  pose proof (run_ok ops0 empty_store empty_ok) as H0.
  destruct Hres as [H|H]; (eapply Hgen; [by apply apply_op_ok| |exact H]).
  - apply remove_absent.
  - apply remove_sandbox_absent.
Qed.

Definition ops2 : list grant_op :=
  ops1 ++ [OpAdd (bstr "u2") (bstr "sb") req1 (bstr "Bearer y") (Some (V4 1)) 1].

Lemma revoked_never_injected_witness :
  resolve (V4 1) (bstr "api.openai.com") 2 (run [] (apply_op (OpRemove (bstr "sb") (bstr "u1")) (run ops2 empty_store)))
    = Some (MkInjection (bstr "sb") (bstr "u2") (bstr "openai") (bstr "Bearer y")) /\
  ~ (bstr "sb" = bstr "sb" /\ bstr "u2" = bstr "u1").
Proof.
  split; [vm_compute; reflexivity|].
  apply (revoked_never_injected ops2 (bstr "sb") (bstr "u1") [] (V4 1) (bstr "api.openai.com") 2
           (MkInjection (bstr "sb") (bstr "u2") (bstr "openai") (bstr "Bearer y"))); [constructor|].
  left. vm_compute. reflexivity.
Defined.

(** *** Isolation *)

Definition op_sandbox (op : grant_op) : rstr :=
  match op with OpAdd _ sb _ _ _ _ => sb | OpRemove sb _ => sb | OpRemoveSandbox sb => sb end.

Definition op_ip (op : grant_op) : option IpAddr :=
  match op with OpAdd _ _ _ _ ip _ => ip | _ => None end.

(** What is done for one sandbox does not change what another sandbox's
    traffic gets, as long as their addresses differ. *)
Lemma resolve_frame op st peer sandbox host now :
  sources st !! peer = Some sandbox -> op_sandbox op <> sandbox -> op_ip op <> Some peer ->
  resolve peer host now (apply_op op st) = resolve peer host now st.
Proof.
  intros Hs Ho Hip. unfold resolve. rewrite Hs. destruct op as [uuid sb req v ip t|sb gid|sb]; simpl in *.
  - unfold add. destruct (vet req v t) as [[[name hs] at_]|]; [|simpl; by rewrite Hs].
    destruct (_ <=? _)%nat; simpl.
    + rewrite Hs. cbn. by rewrite lookup_insert_ne.
    + assert (match ip with Some a => <[a:=sb]> (sources st) | None => sources st end !! peer = Some sandbox) as ->.
      { destruct ip as [a|]; [rewrite lookup_insert_ne by congruence|]; done. }
      cbn. by rewrite lookup_insert_ne.
  - unfold remove. destruct (grants st !! sb); simpl; rewrite Hs; cbn; [|done]. by rewrite lookup_insert_ne.
  - rewrite (map_lookup_filter_Some_2 _ _ peer sandbox) by done. cbn. by rewrite lookup_delete_ne.
Qed.
