(* ===== verification/Ipam.v ===== *)
(** * Link-local subnets for sandboxes

    [fluxvm-network/src/ipam.rs]: the persistent allocator of /28 blocks in
    169.254.0.0/16.  The state file is absent, blank, a JSON value or text that
    does not parse ([content]); every operation takes whether its write
    succeeds.  The advisory lock makes each operation one step. *)

From stdpp Require Import prelude list gmap fin_maps fin_map_dom.
From Stdlib Require Import NArith Lia.
From S2P Require Import Prelude RustStr Quota VmStore.

Definition POOL_SIZE : N := 4096.
Definition NEAR_EXHAUSTION_FREE_PERCENT : N := 5.

Abbreviation alloc_map := (gmap rstr N).
Abbreviation IpamFile := (option (content alloc_map)).

Inductive ipam_error := Exhausted | ParsingState | WritingState.

Record IpamStatus := MkStatus {
  capacity : N;
  allocated : N;
  free : N;
  utilization_percent : N;
  near_exhaustion : bool
}.

(** [Uuid::simple]: 32 lower-case hexadecimal digits. *)
Definition simple (id : N) : rstr := hex_string 32 id.

Definition block_to_octets (block : N) : N * N :=
  (U.wrap 8 (block / 16), U.wrap 8 (block mod 16 * 16)).

Definition legacy_subnet_block (id : N) : N * N := block_to_octets (U.wrap 16 (id mod POOL_SIZE)).

(** ** The state file *)

Definition read_state (f : IpamFile) : result ipam_error alloc_map :=
  match f with
  | None | Some Blank => ROk ∅
  | Some (Json m) => ROk m
  | Some Garbage => RErr ParsingState
  end.

(** Read, change, write back: an error of [f] or of the write leaves the file
    as it was (the write goes to a temporary file that is then renamed). *)
Definition with_exclusive {T} (ok : bool) (f : alloc_map -> result ipam_error (T * alloc_map)) (s : IpamFile) :
    result ipam_error T * IpamFile :=
  match read_state s with
  | RErr e => (RErr e, s)
  | ROk m =>
      match f m with
      | RErr e => (RErr e, s)
      | ROk (out, m') => if ok then (ROk out, Some (Json m')) else (RErr WritingState, s)
      end
  end.

Definition with_shared {T} (f : alloc_map -> T) (s : IpamFile) : result ipam_error T :=
  let? m := read_state s in ROk (f m).

(** ** Operations *)

(** [(lo..lo + n).find(p)]. *)
Fixpoint find_range (p : N -> bool) (n : nat) (lo : N) : option N :=
  match n with
  | O => None
  | S n => if p lo then Some lo else find_range p n (lo + 1)
  end.

Definition used (m : alloc_map) : gset N := map_img m.

Definition allocate_in (id : N) (m : alloc_map) : result ipam_error ((N * N) * alloc_map) :=
  let key := simple id in
  match m !! key with
  | Some block => ROk (block_to_octets block, m)
  | None =>
      match find_range (fun n => negb (bool_decide (n ∈ used m))) (N.to_nat POOL_SIZE) 0 with
      | None => RErr Exhausted
      | Some block => ROk (block_to_octets block, <[key := block]> m)
      end
  end.

Definition allocate (ok : bool) (id : N) : IpamFile -> result ipam_error (N * N) * IpamFile :=
  with_exclusive ok (allocate_in id).

Definition release (ok : bool) (id : N) : IpamFile -> result ipam_error (option (N * N)) * IpamFile :=
  with_exclusive ok (fun m => ROk (block_to_octets <$> m !! simple id, delete (simple id) m)).

Definition lookup_block (id : N) (s : IpamFile) : result ipam_error (option (N * N)) :=
  with_shared (fun m => block_to_octets <$> m !! simple id) s.

(** The subtraction panics when the map holds more than the pool. *)
Definition status_of (m : alloc_map) : outcome IpamStatus :=
  let allocated := U.wrap 16 (N.of_nat (stdpp.base.size m)) in
  if POOL_SIZE <? allocated then Panic
  else
    let free := POOL_SIZE - allocated in
    Ok (MkStatus POOL_SIZE allocated free (U.wrap 8 (allocated * 100 / POOL_SIZE))
          (free * 100 <=? POOL_SIZE * NEAR_EXHAUSTION_FREE_PERCENT)).

Definition status (s : IpamFile) : result ipam_error (outcome IpamStatus) := with_shared status_of s.

Inductive ipam_op := OpAllocate (ok : bool) (id : N) | OpRelease (ok : bool) (id : N).

Definition ipam_apply (s : IpamFile) (op : ipam_op) : IpamFile :=
  match op with OpAllocate ok id => (allocate ok id s).2 | OpRelease ok id => (release ok id s).2 end.

Definition ipam_run (ops : list ipam_op) (s : IpamFile) : IpamFile := fold_left ipam_apply ops s.

(** ** Keys *)

Lemma hex_string_inj n a b : a < 16 ^ N.of_nat n -> b < 16 ^ N.of_nat n -> hex_string n a = hex_string n b -> a = b.
Proof.
  revert a b. induction n as [|n IH]; intros a b Ha Hb; [simpl in *; lia|].
  rewrite Nat2N.inj_succ, N.pow_succ_r' in Ha, Hb. cbn [hex_string].
  intros [H1 H2]%app_inj_2; [|done]. apply IH in H1; [|dlia..].
  injection H2 as H2. apply hex_lower_inj in H2; [dlia..].
Qed.

Lemma simple_inj a b : in_u 128 a -> in_u 128 b -> simple a = simple b -> a = b.
Proof.
  unfold in_u, simple. intros Ha Hb. assert (16 ^ N.of_nat 32 = 2 ^ 128) as E by reflexivity.
  apply (hex_string_inj 32); by rewrite E.
Qed.

(** ** Blocks *)

Lemma block_octets block :
  block < POOL_SIZE -> block_to_octets block = (block / 16, block mod 16 * 16) /\
  block / 16 < 256 /\ block mod 16 * 16 < 256.
Proof.
  unfold block_to_octets, POOL_SIZE, U.wrap. intros H. split; [|dlia]. f_equal; rewrite N.mod_small; dlia.
Qed.

Lemma block_octets_inj a b : a < POOL_SIZE -> b < POOL_SIZE -> block_to_octets a = block_to_octets b -> a = b.
Proof.
  intros Ha Hb. destruct (block_octets a Ha) as [-> _], (block_octets b Hb) as [-> _]. intros [= H1 H2]. dlia.
Qed.

(** ** The invariant *)

(** Distinct machines hold distinct blocks of the pool. *)
Definition alloc_ok (m : alloc_map) : Prop :=
  (forall k b, m !! k = Some b -> b < POOL_SIZE) /\
  (forall k1 k2 b, m !! k1 = Some b -> m !! k2 = Some b -> k1 = k2).

Definition file_ok (s : IpamFile) : Prop :=
  match s with Some (Json m) => alloc_ok m | _ => True end.

Lemma find_range_some p n lo b :
  find_range p n lo = Some b -> lo <= b < lo + N.of_nat n /\ p b = true /\ forall c, lo <= c < b -> p c = false.
Proof.
  revert lo. induction n as [|n IH]; intros lo; [done|]. cbn [find_range]. destruct (p lo) eqn:E.
  - intros [= <-]. split_and!; [lia..|done|]. intros c Hc. lia.
  - intros (H1 & H2 & H3)%IH. split_and!; [lia..|done|]. intros c Hc.
    destruct (N.eq_dec c lo) as [-> |]; [done|]. apply H3. lia.
Qed.

Lemma find_range_none p n lo : find_range p n lo = None -> forall c, lo <= c < lo + N.of_nat n -> p c = false.
Proof.
  revert lo. induction n as [|n IH]; intros lo; [lia|]. cbn [find_range]. destruct (p lo) eqn:E; [done|].
  intros H c Hc. destruct (N.eq_dec c lo) as [-> |]; [done|]. apply (IH _ H). lia.
Qed.

Lemma used_spec (m : alloc_map) b : b ∈ used m <-> exists k, m !! k = Some b.
Proof. apply elem_of_map_img. Qed.

Lemma unused_spec (m : alloc_map) b : negb (bool_decide (b ∈ used m)) = true <-> b ∉ used m.
Proof. by rewrite negb_true_iff, bool_decide_eq_false. Qed.

Lemma allocate_in_some (id : N) (m : alloc_map) (o : N * N) (m' : alloc_map) :
  allocate_in id m = ROk (o, m') ->
  (m' = m /\ exists b, m !! simple id = Some b /\ o = block_to_octets b) \/
  (m !! simple id = None /\ exists b, b < POOL_SIZE /\ b ∉ used m /\ (forall c, c < b -> c ∈ used m) /\
     o = block_to_octets b /\ m' = <[simple id := b]> m).
Proof.
  unfold allocate_in. destruct (m !! simple id) as [b|] eqn:E; [intros [= <- <-]; left; eauto|].
  destruct (find_range _ _ _) as [b|] eqn:Ef; [|done]. intros [= <- <-]. right. split; [done|]. exists b.
  apply find_range_some in Ef as (H1 & H2 & H3). rewrite N2Nat.id in H1. split_and!; [lia|by apply unused_spec| |done|done].
  intros c Hc. specialize (H3 c). rewrite negb_false_iff, bool_decide_eq_true in H3. apply H3. lia.
Qed.

Lemma alloc_insert (m : alloc_map) k b : alloc_ok m -> b < POOL_SIZE -> b ∉ used m -> alloc_ok (<[k := b]> m).
Proof.
  intros [H1 H2] Hb Hn. split.
  - intros k' b' [[_ <-]|[_ H]]%lookup_insert_Some; eauto.
  - assert (forall k', m !! k' = Some b -> False) as Hu by (intros k' H; apply Hn, used_spec; eauto).
    intros k1 k2 b' [[<- <-]|[? Ha]]%lookup_insert_Some [[<- E2]|[? Hb2]]%lookup_insert_Some; subst; eauto; exfalso; eauto.
Qed.

Lemma allocate_in_ok (id : N) (m : alloc_map) (o : N * N) (m' : alloc_map) : alloc_ok m -> allocate_in id m = ROk (o, m') -> alloc_ok m'.
Proof.
  intros Hm [[-> _]|(_ & b & ? & ? & _ & _ & ->)]%allocate_in_some; [done|]. by apply alloc_insert.
Qed.

Lemma empty_alloc_ok : alloc_ok ∅.
Proof. split; intros *; by rewrite lookup_empty. Qed.

Lemma read_state_ok (s : IpamFile) (m : alloc_map) : file_ok s -> read_state s = ROk m -> alloc_ok m.
Proof. destruct s as [[| |]|]; simpl; intros H [= <-]; done || apply empty_alloc_ok. Qed.

Lemma with_exclusive_ok {T} (ok : bool) (f : alloc_map -> result ipam_error (T * alloc_map)) (s : IpamFile) :
  (forall (m : alloc_map) (o : T) (m' : alloc_map), alloc_ok m -> f m = ROk (o, m') -> alloc_ok m') -> file_ok s -> file_ok (with_exclusive ok f s).2.
Proof.
  intros Hf Hs. unfold with_exclusive. destruct (read_state s) as [m|] eqn:Er; [|done].
  apply read_state_ok in Er; [|done]. destruct (f m) as [[o m']|] eqn:Ef; [|done]. destruct ok; [|done].
  simpl. by eapply Hf.
Qed.

Lemma ipam_apply_ok s op : file_ok s -> file_ok (ipam_apply s op).
Proof.
  intros Hs. destruct op as [ok id|ok id]; apply with_exclusive_ok; try done.
  - intros m o m'. apply allocate_in_ok.
  - intros m o m' [H1 H2] [= _ <-]. split.
    + intros k b [_ H]%lookup_delete_Some. eauto.
    + intros k1 k2 b [_ Ha]%lookup_delete_Some [_ Hb]%lookup_delete_Some. eauto.
Qed.

Lemma ipam_run_ok ops s : file_ok s -> file_ok (ipam_run ops s).
Proof. revert s. induction ops as [|op ops IH]; intros s H; [done|]. apply IH. by apply ipam_apply_ok. Qed.

(** A pool map with the invariant is full exactly when it has 4096 entries. *)
Lemma img_size (m : alloc_map) : alloc_ok m -> stdpp.base.size (used m) = stdpp.base.size m.
Proof.
  intros [_ Hinj]. unfold used. revert Hinj. induction m as [|k b m Hk IH] using map_ind; intros Hinj.
  { by rewrite map_img_empty, map_size_empty, size_empty. }
  rewrite map_img_insert_notin_L, map_size_insert_None by done. rewrite size_union.
  - rewrite size_singleton, IH; [done|]. intros k1 k2 b' H1 H2.
    apply (Hinj k1 k2 b'); rewrite lookup_insert_ne; congruence.
  - intros x ->%elem_of_singleton [k' H]%elem_of_map_img.
    assert (k <> k') as Hne by congruence. apply Hne, (Hinj k k' b); [apply lookup_insert_eq|].
    by rewrite lookup_insert_ne.
Qed.

(** Every number below the size of the pool is a block. *)
Definition all_blocks : gset N := list_to_set (N.of_nat <$> seq 0 4096).

Lemma all_blocks_spec b : b ∈ all_blocks <-> b < POOL_SIZE.
Proof.
  unfold all_blocks, POOL_SIZE. rewrite elem_of_list_to_set, list_elem_of_fmap. setoid_rewrite elem_of_seq. split.
  - intros (n & -> & H). lia.
  - intros H. exists (N.to_nat b). lia.
Qed.

Lemma all_blocks_size : stdpp.base.size all_blocks = 4096%nat.
Proof.
  unfold all_blocks. rewrite size_list_to_set, length_fmap, length_seq; [done|].
  apply NoDup_fmap_2; [apply _|apply NoDup_seq].
Qed.

Lemma used_sub (m : alloc_map) : alloc_ok m -> used m ⊆ all_blocks.
Proof. intros [H _] b [k Hk]%used_spec. apply all_blocks_spec. eauto. Qed.

Lemma alloc_size (m : alloc_map) : alloc_ok m -> (stdpp.base.size m <= 4096)%nat.
Proof. intros H. rewrite <- img_size, <- all_blocks_size by done. by apply subseteq_size, used_sub. Qed.

Lemma full_iff (m : alloc_map) :
  alloc_ok m -> stdpp.base.size m = 4096%nat <-> forall b, b < POOL_SIZE -> b ∈ used m.
Proof.
  intros H. split.
  - intros Hs b Hb. assert (used m ≡ all_blocks) as E; [|rewrite E; by apply all_blocks_spec].
    apply set_subseteq_size_equiv; [by apply used_sub|]. rewrite img_size, all_blocks_size by done. lia.
  - intros Hall. assert (used m = all_blocks) as E; [|by rewrite <- img_size, E, all_blocks_size].
    apply leibniz_equiv, set_equiv_subseteq. split; [by apply used_sub|]. intros b Hb. apply Hall. by apply all_blocks_spec.
Qed.

(** A file that only these operations have written holds a valid map. *)
Lemma ipam_reads (ops : list ipam_op) : exists m : alloc_map, read_state (ipam_run ops None) = ROk m /\ alloc_ok m.
Proof.
  assert (file_ok (ipam_run ops None)) as Hok by (by apply ipam_run_ok).
  assert (ipam_run ops None <> Some Garbage) as Hg.
  { cut (forall s : IpamFile, s <> Some Garbage -> ipam_run ops s <> Some Garbage); [intros H; by apply H|].
    induction ops as [|op ops IH]; intros s Hs; [done|]. apply IH; [by apply ipam_run_ok|].
    destruct op; unfold ipam_apply, allocate, release, with_exclusive; destruct (read_state s); try done;
      [destruct (allocate_in _ _) as [[]|]; [|done]|]; destruct ok; done. }
  destruct (read_state (ipam_run ops None)) as [m|e] eqn:E.
  - exists m. split; [done|]. by eapply read_state_ok.
  - by destruct (ipam_run ops None) as [[| |]|].
Qed.

(** The first address of the block, as an offset in the /16. *)
Definition subnet_base (o : N * N) : N := o.1 * 256 + o.2.

Lemma lookup_block_spec (ops : list ipam_op) (m : alloc_map) (id : N) (o : N * N) :
  read_state (ipam_run ops None) = ROk m -> alloc_ok m ->
  lookup_block id (ipam_run ops None) = ROk (Some o) ->
  exists b, m !! simple id = Some b /\ b < POOL_SIZE /\ o = block_to_octets b /\ subnet_base o = b * 16.
Proof.
  intros Er [Hb _]. unfold lookup_block, with_shared. rewrite Er. cbn [rbind].
  destruct (m !! simple id) as [b|] eqn:E; [|done]. intros [= <-]. specialize (Hb _ _ E). exists b.
  split_and!; try done. destruct (block_octets b Hb) as [-> _]. unfold subnet_base. simpl. dlia.
Qed.

(** C32: Whatever machines come and go, and whichever writes of the state file
    fail, two machines never hold overlapping subnets, and every subnet lies
    inside the /16. *)
Theorem ipam_no_overlap (ops : list ipam_op) (id1 id2 : N) (o1 o2 : N * N)
  (H1 : in_u 128 id1) (H2 : in_u 128 id2) (Hne : id1 <> id2)
  (L1 : lookup_block id1 (ipam_run ops None) = ROk (Some o1))
  (L2 : lookup_block id2 (ipam_run ops None) = ROk (Some o2)) :
  (subnet_base o1 + 16 <= subnet_base o2 \/ subnet_base o2 + 16 <= subnet_base o1) /\
  subnet_base o1 + 16 <= 2 ^ 16.
Proof.
  destruct (ipam_reads ops) as (m & Er & Hm).
  destruct (lookup_block_spec ops m id1 o1 Er Hm L1) as (b1 & E1 & B1 & _ & ->).
  destruct (lookup_block_spec ops m id2 o2 Er Hm L2) as (b2 & E2 & B2 & _ & ->).
  assert (b1 <> b2).
  { intros <-. destruct Hm as [_ Hinj]. pose proof (Hinj _ _ _ E1 E2) as E. apply simple_inj in E; done. }
  unfold POOL_SIZE in *. change (2 ^ 16) with 65536. lia.
Qed.

Lemma ipam_no_overlap_witness :
  let s := ipam_run [OpAllocate true 7; OpAllocate false 8; OpAllocate true 9; OpRelease true 7; OpAllocate true 10] None in
  lookup_block 9 s = ROk (Some (0, 16)) /\ lookup_block 10 s = ROk (Some (0, 0)) /\
  (subnet_base (0, 16) + 16 <= subnet_base (0, 0) \/ subnet_base (0, 0) + 16 <= subnet_base (0, 16)) /\
  subnet_base (0, 16) + 16 <= 2 ^ 16.
Proof.
  split; [vm_compute; reflexivity|]. split; [vm_compute; reflexivity|].
  apply (ipam_no_overlap [OpAllocate true 7; OpAllocate false 8; OpAllocate true 9; OpRelease true 7; OpAllocate true 10] 9 10);
    vm_compute; (reflexivity || discriminate).
Defined.

(** Allocation gives a machine the block it holds, else the lowest free block,
    which it holds from then on while no other machine's block changes; it
    fails only when all 4096 blocks are held, and then changes nothing. *)
Theorem ipam_allocate_correct (ops : list ipam_op) (id : N) :
  let s := ipam_run ops None in
  exists m : alloc_map, read_state s = ROk m /\
  match allocate true id s with
  | (ROk o, s') =>
      lookup_block id s' = ROk (Some o) /\
      (forall id', simple id' <> simple id -> lookup_block id' s' = lookup_block id' s) /\
      match m !! simple id with
      | Some b => o = block_to_octets b /\ read_state s' = ROk m
      | None => exists b, b < POOL_SIZE /\ o = block_to_octets b /\ b ∉ used m /\ forall c, c < b -> c ∈ used m
      end
  | (RErr e, s') => e = Exhausted /\ s' = s /\ m !! simple id = None /\ stdpp.base.size m = 4096%nat
  end.
Proof.
  intros s. destruct (ipam_reads ops) as (m & Er & Hm). exists m. split; [done|].
  unfold allocate, with_exclusive. fold s in Er. rewrite Er.
  assert (forall id', lookup_block id' s = ROk (block_to_octets <$> m !! simple id')) as Hl
    by (intros id'; unfold lookup_block, with_shared; by rewrite Er).
  destruct (allocate_in id m) as [[o m']|e] eqn:Ea.
  - unfold lookup_block at 1 2, with_shared. cbn [read_state rbind].
    apply allocate_in_some in Ea as [(-> & b & Eb & ->)|(En & b & Hb & Hu & Hlow & -> & ->)].
    + rewrite Eb. split_and!; try done. 
    + rewrite En, lookup_insert_eq. split_and!; [done| |by exists b].
      intros id' Hid. rewrite Hl. by rewrite lookup_insert_ne.
  - unfold allocate_in in Ea. destruct (m !! simple id) eqn:En; [done|].
    destruct (find_range _ _ _) eqn:Ef; [done|]. injection Ea as <-. split_and!; try done.
    apply full_iff; [done|]. intros b Hb. 
    pose proof (find_range_none _ _ _ Ef b) as Hc. rewrite N2Nat.id in Hc.
    rewrite negb_false_iff, bool_decide_eq_true in Hc. apply Hc. lia.
Qed.

(** The status report never fails or overflows: allocated and free blocks add
    up to the pool, the percentage is the exact quotient and at most 100. *)
Theorem ipam_status_total (ops : list ipam_op) :
  exists (m : alloc_map) (st : IpamStatus), read_state (ipam_run ops None) = ROk m /\ status (ipam_run ops None) = ROk (Ok st) /\
    allocated st = N.of_nat (stdpp.base.size m) /\ allocated st + free st = POOL_SIZE /\
    utilization_percent st = allocated st * 100 / POOL_SIZE /\ utilization_percent st <= 100 /\
    (near_exhaustion st = true <-> free st <= 204).
Proof.
  destruct (ipam_reads ops) as (m & Er & Hm). exists m. pose proof (alloc_size m Hm) as Hs.
  unfold status, with_shared. rewrite Er. cbn [rbind]. unfold status_of, U.wrap, POOL_SIZE, NEAR_EXHAUSTION_FREE_PERCENT.
  rewrite (N.mod_small (N.of_nat (stdpp.base.size m))) by (change (2 ^ 16) with 65536; lia).
  set (n := N.of_nat (stdpp.base.size m)) in *. assert (n <= 4096) as Hn by (unfold n; lia). clearbody n.
  destruct (N.ltb_spec 4096 n); [lia|]. eexists. split_and!; [done|done|..]; cbn [allocated free utilization_percent near_exhaustion].
  - done.
  - lia.
  - rewrite N.mod_small; [done|]. change (2 ^ 8) with 256. dlia.
  - rewrite N.mod_small; [dlia|]. change (2 ^ 8) with 256. dlia.
  - rewrite N.leb_le. lia.
Qed.
