(* ===== verification/Pci.v ===== *)
(** * The PCI configuration window

    [crates/fluxvm-hypervisor/src/pci.rs]: the ECAM window with the one function
    00:01.0 and its capability chain, and the MSI-X table in BAR0.  Both are
    MMIO devices of the bus. *)

From stdpp Require Import prelude list.
From Stdlib Require Import NArith Lia.
From S2P Require Import Prelude RustStr GuestMemory VirtioMmio Bus Tables MpTable Acpi.

Definition VENDOR_REDHAT : u16 := 0x1af4.
Definition DEVICE_VIRTIO_NET : u16 := 0x1041.
Definition BAR0_SIZE : u32 := 0x1000.
Definition CAP_COMMON_CFG : u8 := 0x40.
Definition CAP_NOTIFY_CFG : u8 := 0x50.
Definition CAP_ISR_CFG : u8 := 0x60.
Definition CAP_DEVICE_CFG : u8 := 0x70.
Definition CAP_MSIX : u8 := 0x80.
Definition PCI_CAP_ID_MSIX : u8 := 0x11.
Definition MSIX_BAR_OFFSET : u64 := 0x800.
Definition MSIX_PBA_OFFSET : u32 := 0x900.
Definition MSIX_ENTRIES : u16 := 4.

(** ** Building the configuration space *)

Definition write_u16 (off : N) (v : u16) : M bytes unit := put off (le_bytes 2 v).
Definition write_u32 (off : N) (v : u32) : M bytes unit := put off (le_bytes 4 v).
Definition set_byte (off : N) (v : u8) : M bytes unit := put off [v].

Definition read_u16 (off : N) : M bytes u16 := fun cfg =>
  if off + 2 <=? lenN cfg then (Ok (from_le (slice (N.to_nat off) 2 cfg)), cfg) else (Panic, cfg).

Definition write_virtio_cap (off cfg_type next bar : u8) (offset length : u32) : M bytes unit :=
  do! set_byte off 0x09 in
  do! set_byte (off + 1) next in
  do! set_byte (off + 2) 16 in
  do! set_byte (off + 3) cfg_type in
  do! set_byte (off + 4) bar in
  do! set_byte (off + 5) 0 in
  do! set_byte (off + 6) 0 in
  do! set_byte (off + 7) 0 in
  do! write_u32 (off + 8) offset in
  write_u32 (off + 12) length.

Definition write_msix_cap : M bytes unit :=
  do! set_byte CAP_MSIX PCI_CAP_ID_MSIX in
  do! set_byte (CAP_MSIX + 1) 0 in
  do! write_u16 (CAP_MSIX + 2) (MSIX_ENTRIES - 1) in
  do! write_u32 (CAP_MSIX + 4) MSIX_BAR_OFFSET in
  write_u32 (CAP_MSIX + 8) MSIX_PBA_OFFSET.

Record PciEcam := MkEcam { e_base : u64; e_size : u64; e_cfg : bytes }.

Definition fill_header : M bytes unit :=
  do! write_u16 0x00 VENDOR_REDHAT in
  do! write_u16 0x02 DEVICE_VIRTIO_NET in
  do! write_u16 0x04 0x0000 in
  do! write_u16 0x06 0x0010 in
  do! set_byte 0x08 0x01 in
  do! set_byte 0x09 0x00 in
  do! set_byte 0x0a 0x00 in
  do! set_byte 0x0b 0x02 in
  do! set_byte 0x0e 0x00 in
  do! write_u32 0x10 (U.wrap 32 MMIO_WINDOW) in
  do! write_u32 0x14 0 in
  do! write_u32 0x18 0 in
  do! write_u32 0x1c 0 in
  do! write_u32 0x20 0 in
  do! write_u32 0x24 0 in
  do! write_u16 0x2c VENDOR_REDHAT in
  do! write_u16 0x2e DEVICE_VIRTIO_NET in
  do! set_byte 0x34 CAP_COMMON_CFG in
  do! set_byte 0x3d 5 in
  set_byte 0x3c 5.

Definition fill_caps : M bytes unit :=
  do! write_virtio_cap CAP_COMMON_CFG 1 CAP_NOTIFY_CFG 0 0x000 0x56 in
  do! write_virtio_cap CAP_NOTIFY_CFG 2 CAP_ISR_CFG 0 0x100 0x10 in
  do! write_u32 (CAP_NOTIFY_CFG + 16) 4 in
  do! write_virtio_cap CAP_ISR_CFG 3 CAP_DEVICE_CFG 0 0x200 0x04 in
  do! write_virtio_cap CAP_DEVICE_CFG 4 CAP_MSIX 0 0x300 0x100 in
  write_msix_cap.

(** The buffer of [new] before it is filled in. *)
Definition blank_cfg : bytes := repeat 0xff (N.to_nat 4096).

(** [PciEcam::new] *)
Definition new_ecam : outcome PciEcam :=
  match (do! fill_header in fill_caps) blank_cfg with
  | (Ok _, cfg) => Ok (MkEcam PCI_MMCONFIG_START PCI_MMCONFIG_SIZE cfg)
  | (Err e, _) => Err e
  | (Panic, _) => Panic
  | (Loop, _) => Loop
  end.

(** ** Access *)

Definition bdf_offset (addr : u64) : option (u8 * u8 * u8 * N) :=
  if addr <? PCI_MMCONFIG_START then None
  else
    let r := addr - PCI_MMCONFIG_START in
    if PCI_MMCONFIG_SIZE <=? r then None
    else Some (N.land (N.shiftr r 20) 0xff, N.land (N.shiftr r 15) 0x1f, N.land (N.shiftr r 12) 0x07,
               N.land r 0xfff).

Definition in_range (lo hi x : N) : bool := (lo <=? x) && (x <? hi).

(** The loop of [mmio_write] that stores byte by byte. *)
Fixpoint cfg_store (off : N) (data : bytes) (cfg : bytes) : bytes :=
  match data with
  | [] => cfg
  | b :: data =>
      let cfg' :=
        if off <? lenN cfg then
          if in_range 0x40 0x80 off then cfg
          else if in_range 0x82 0x84 off then <[N.to_nat off := b]> cfg
          else if in_range 0x80 0x90 off then cfg
          else if 0x10 <=? off then <[N.to_nat off := b]> cfg
          else cfg
        else cfg in
      cfg_store (off + 1) data cfg'
  end.

Definition on_cfg {A} (m : M bytes A) : M PciEcam A :=
  zoom e_cfg (fun c p => MkEcam (e_base p) (e_size p) c) m.

Definition ecam_write (addr : u64) (data : bytes) : M PciEcam unit :=
  match bdf_offset addr with
  | None => ret tt
  | Some (bus, dev, func, reg) =>
      if negb (bus =? 0) || negb (dev =? 1) || negb (func =? 0) then ret tt
      else if (reg =? 0x10) && (4 <=? lenN data) then
        let val := from_le (take 4 data) in
        if val =? 0xffffffff then on_cfg (write_u32 0x10 (U.not 32 (BAR0_SIZE - 1)))
        else on_cfg (write_u32 0x10 (N.land val (U.not 32 (BAR0_SIZE - 1))))
      else if (reg =? 0x04) && (2 <=? lenN data) then
        on_cfg (let! cur := read_u16 0x04 in
                let val := from_le (take 2 data) in
                write_u16 0x04 (N.lor (N.land cur (U.not 16 0x0007)) (N.land val 0x0007)))
      else on_cfg (modify (cfg_store reg data))
  end.

(** [*b = if reg + i < cfg.len() { cfg[reg + i] } else { other }] over the
    buffer. *)
Definition read_window (cfg : bytes) (reg : N) (other : u8) (data : bytes) : bytes :=
  imap (fun i _ => default other (cfg !! (N.to_nat reg + i)%nat)) data.

Definition ecam_read (addr : u64) (data : bytes) : M PciEcam bytes :=
  match bdf_offset addr with
  | None => ret (fill 0xff data)
  | Some (bus, dev, func, reg) =>
      if negb (bus =? 0) || negb (dev =? 1) || negb (func =? 0) then ret (fill 0xff data)
      else gets (fun p => read_window (e_cfg p) reg 0xff data)
  end.

#[global] Instance PciEcam_device : MmioDevice PciEcam := {
  mmio_range p := (e_base p, U.sub 64 (U.add 64 (e_base p) (e_size p)) 1);
  dev_mmio_write := ecam_write;
  dev_mmio_read := ecam_read;
}.

(** ** The MSI-X table *)

Record MsixBar := MkMsix { m_base : u64; m_table : bytes }.

Definition new_msix : MsixBar := MkMsix (MMIO_WINDOW + MSIX_BAR_OFFSET) (repeat 0 0x200).

Fixpoint table_store (i : N) (data table : bytes) : bytes :=
  match data with
  | [] => table
  | b :: data => table_store (i + 1) data (if i <? lenN table then <[N.to_nat i := b]> table else table)
  end.

(** [addr - self.base] panics below the window. *)
Definition msix_write (addr : u64) (data : bytes) : M MsixBar unit := fun m =>
  if addr <? m_base m then (Panic, m)
  else (Ok tt, MkMsix (m_base m) (table_store (addr - m_base m) data (m_table m))).

Definition msix_read (addr : u64) (data : bytes) : M MsixBar bytes := fun m =>
  if addr <? m_base m then (Panic, m)
  else (Ok (read_window (m_table m) (addr - m_base m) 0 data), m).

#[global] Instance MsixBar_device : MmioDevice MsixBar := {
  mmio_range m := (m_base m, m_base m + 0x1ff);
  dev_mmio_write := msix_write;
  dev_mmio_read := msix_read;
}.

(** ** Addresses *)

(** The address of a register of a function. *)
Definition ecam_addr (bus dev func reg : N) : u64 :=
  PCI_MMCONFIG_START + bus * 2 ^ 20 + dev * 2 ^ 15 + func * 2 ^ 12 + reg.

Lemma bdf_offset_ecam bus dev func reg :
  bus < 256 -> dev < 32 -> func < 8 -> reg < 4096 ->
  bdf_offset (ecam_addr bus dev func reg) = Some (bus, dev, func, reg).
Proof.
  intros Hb Hd Hf Hr. unfold bdf_offset, ecam_addr.
  assert (PCI_MMCONFIG_SIZE = 268435456) as -> by reflexivity. set (st := PCI_MMCONFIG_START).
  change (2 ^ 20) with 1048576. change (2 ^ 15) with 32768. change (2 ^ 12) with 4096.
  set (r := bus * 1048576 + dev * 32768 + func * 4096 + reg).
  replace (st + bus * 1048576 + dev * 32768 + func * 4096 + reg) with (st + r) by (unfold r; lia).
  destruct (N.ltb_spec (st + r) st); [lia|]. replace (st + r - st) with r by lia.
  destruct (N.leb_spec 268435456 r); [unfold r in *; lia|].
  change 0xff with (N.ones 8). change 0x1f with (N.ones 5). change 0x07 with (N.ones 3). change 0xfff with (N.ones 12).
  rewrite !N.land_ones, !N.shiftr_div_pow2. change (2 ^ 8) with 256. change (2 ^ 5) with 32. change (2 ^ 3) with 8.
  change (2 ^ 20) with 1048576. change (2 ^ 15) with 32768. change (2 ^ 12) with 4096.
  assert (r / 1048576 = bus /\ r / 32768 = bus * 32 + dev /\ r / 4096 = (bus * 32 + dev) * 8 + func /\ r mod 4096 = reg)
    as (-> & -> & -> & ->) by (unfold r; split_and!; dlia).
  repeat f_equal; dlia.
Qed.

(** ** What the guest cannot change *)

Definition new_cfg : bytes := snd ((do! fill_header in fill_caps) blank_cfg).

Lemma new_ecam_ok : new_ecam = Ok (MkEcam PCI_MMCONFIG_START PCI_MMCONFIG_SIZE new_cfg).
Proof. vm_compute. reflexivity. Qed.

(** Identity, status, class and the capability structures, the MSI-X control
    word apart. *)
Definition read_only (off : N) : bool :=
  (off <? 4) || in_range 6 16 off || in_range 0x40 0x82 off || in_range 0x84 0x90 off.

Record ecam_ok (p : PciEcam) : Prop := {
  eo_base : e_base p = PCI_MMCONFIG_START;
  eo_size : e_size p = PCI_MMCONFIG_SIZE;
  eo_len : length (e_cfg p) = 4096%nat;
  eo_ro : forall off, read_only off = true -> e_cfg p !! N.to_nat off = new_cfg !! N.to_nat off;
  eo_command : from_le (slice 4 2 (e_cfg p)) < 8
}.

Lemma length_cfg_store off data cfg : length (cfg_store off data cfg) = length cfg.
Proof.
  revert off cfg. induction data as [|b data IH]; intros off cfg; [done|]. cbn [cfg_store]. rewrite IH.
  repeat case_match; by rewrite ?length_insert.
Qed.

(** A byte below the BARs or in a capability is not stored to. *)
Lemma cfg_store_ro off data cfg j :
  read_only j = true \/ j < 16 -> cfg_store off data cfg !! N.to_nat j = cfg !! N.to_nat j.
Proof.
  intros Hj. revert off cfg. induction data as [|b data IH]; intros off cfg; [done|]. cbn [cfg_store]. rewrite IH.
  assert (off <> j -> forall c, (<[N.to_nat off := b]> c : bytes) !! N.to_nat j = c !! N.to_nat j) as Hne.
  { intros Hne c. apply list_lookup_insert_ne. lia. }
  unfold read_only, in_range in *.
  repeat rewrite ?orb_true_iff, ?andb_true_iff, ?N.leb_le, ?N.ltb_lt in Hj.
  destruct (N.ltb_spec off (lenN cfg)); [|done].
  destruct (N.leb_spec 0x40 off), (N.ltb_spec off 0x80); cbn [andb]; try done;
    destruct (N.leb_spec 0x82 off), (N.ltb_spec off 0x84); cbn [andb]; try (apply Hne; lia);
    destruct (N.leb_spec 0x80 off), (N.ltb_spec off 0x90); cbn [andb]; try done;
    destruct (N.leb_spec 0x10 off); try done; apply Hne; lia.
Qed.

Lemma put_ok off d (cfg : bytes) :
  off + lenN d <= lenN cfg -> put off d cfg = (Ok tt, splice (N.to_nat off) d cfg).
Proof. intros H. unfold put. by destruct (N.leb_spec (off + lenN d) (lenN cfg)); [|lia]. Qed.

Lemma command_bits cur val :
  cur < 8 -> N.lor (N.land cur (U.not 16 7)) (N.land val 7) = N.land val 7 /\ N.land val 7 < 8.
Proof.
  intros H. change 7 with (N.ones 3) at 2 3 4. rewrite N.land_ones.
  assert (N.land cur (U.not 16 7) = 0) as ->.
  { change (U.not 16 7) with (N.shiftl 0x1fff 3). apply N.bits_inj_0. intros n. rewrite N.land_spec.
    destruct (N.lt_ge_cases n 3) as [Hn|Hn].
    - rewrite N.shiftl_spec_low by done. apply andb_false_r.
    - rewrite (N.bits_above_log2 cur n); [done|]. destruct (N.eq_dec cur 0) as [-> |Hc]; [simpl; lia|].
      apply N.lt_le_trans with 3; [|done]. apply N.log2_lt_pow2; lia. }
  split; [apply N.lor_0_l|]. change (2 ^ 3) with 8. dlia.
Qed.

Lemma splice_other (i : nat) (d l : bytes) (j : nat) :
  (i + length d <= length l)%nat -> (j < i \/ i + length d <= j)%nat -> splice i d l !! j = l !! j.
Proof. intros H Hj. rewrite lookup_splice by done. repeat case_decide; (done || lia). Qed.

Lemma slice4_store off data cfg : slice 4 2 (cfg_store off data cfg) = slice 4 2 cfg.
Proof.
  apply list_eq. intros j. rewrite !lookup_slice. case_decide; [|done].
  rewrite <- (Nat2N.id (4 + j)). apply cfg_store_ro. right. lia.
Qed.

Lemma splice_ro (i : nat) (d cfg : bytes) :
  length cfg = 4096%nat -> (i + length d <= 4096)%nat ->
  (forall j, (i <= j < i + length d)%nat -> read_only (N.of_nat j) = false) ->
  forall off, read_only off = true -> splice i d cfg !! N.to_nat off = cfg !! N.to_nat off.
Proof.
  intros Hl Hi Hro off Hoff. apply splice_other; [lia|].
  destruct (Nat.lt_ge_cases (N.to_nat off) i), (Nat.lt_ge_cases (N.to_nat off) (i + length d)); try lia.
  specialize (Hro (N.to_nat off)). rewrite N2Nat.id, Hoff in Hro. by discriminate Hro; lia.
Qed.

Lemma write_bar_ok p v : ecam_ok p -> ecam_ok (on_cfg (write_u32 0x10 v) p).2 /\ (on_cfg (write_u32 0x10 v) p).1 = Ok tt.
Proof.
  intros [Hb Hs Hl Hro Hc]. unfold on_cfg, zoom, write_u32.
  rewrite put_ok by (unfold lenN; rewrite Hl, length_le_bytes; lia). split; [|done].
  change (N.to_nat 0x10) with 16%nat. constructor; simpl; [done|done| | |].
  - rewrite length_splice; [done|]. rewrite Hl, length_le_bytes. lia.
  - intros off Hoff. rewrite splice_ro; [by apply Hro|done|rewrite length_le_bytes; lia| |done].
    rewrite length_le_bytes. intros j Hj. do 20 (destruct j as [|j]; [first [lia|reflexivity]|]). lia.
  - rewrite slice_splice_disjoint; [done|rewrite Hl, length_le_bytes; lia|lia].
Qed.

Lemma write_command_ok p val :
  ecam_ok p ->
  let w := on_cfg (let! cur := read_u16 0x04 in
                   write_u16 0x04 (N.lor (N.land cur (U.not 16 0x0007)) (N.land val 0x0007))) p in
  ecam_ok w.2 /\ w.1 = Ok tt.
Proof.
  intros [Hb Hs Hl Hro Hc] w.
  assert (w = (Ok tt, MkEcam (e_base p) (e_size p) (splice 4 (le_bytes 2 (N.land val 7)) (e_cfg p)))) as ->.
  { unfold w, on_cfg, zoom, bind, read_u16. destruct (N.leb_spec (0x04 + 2) (lenN (e_cfg p))) as [_|H];
      [|unfold lenN in H; lia]. change (N.to_nat 0x04) with 4%nat.
    destruct (command_bits _ val Hc) as [-> _]. unfold write_u16.
    rewrite put_ok by (unfold lenN; rewrite Hl, length_le_bytes; lia). done. }
  split; [|done]. destruct (command_bits _ val Hc) as [_ Hv]. constructor; simpl; [done|done| | |].
  - rewrite length_splice; [done|]. rewrite Hl, length_le_bytes. lia.
  - intros off Hoff. rewrite splice_ro; [by apply Hro|done|rewrite length_le_bytes; lia| |done].
    rewrite length_le_bytes. intros j Hj. do 6 (destruct j as [|j]; [first [lia|reflexivity]|]). lia.
  - pose proof (slice_splice_same 4 (le_bytes 2 (N.land val 7)) (e_cfg p)) as Hss.
    rewrite length_le_bytes in Hss. rewrite Hss by lia. rewrite from_le_bytes_small; [done|].
    unfold in_u. change (2 ^ (8 * N.of_nat 2)) with 65536. lia.
Qed.

Lemma store_ok p reg data :
  ecam_ok p -> ecam_ok (on_cfg (modify (cfg_store reg data)) p).2 /\ (on_cfg (modify (cfg_store reg data)) p).1 = Ok tt.
Proof.
  intros [Hb Hs Hl Hro Hc]. split; [|done]. constructor; simpl; [done|done| | |].
  - by rewrite length_cfg_store.
  - intros off Hoff. rewrite cfg_store_ro by auto. by apply Hro.
  - by rewrite slice4_store.
Qed.

Lemma ecam_write_ok addr data p : ecam_ok p -> ecam_ok (ecam_write addr data p).2 /\ (ecam_write addr data p).1 = Ok tt.
Proof.
  intros Hp. unfold ecam_write. destruct (bdf_offset addr) as [[[[bus dev] func] reg]|]; [|done].
  destruct (_ || _ || _); [done|]. destruct ((reg =? 0x10) && _).
  { destruct (_ =? 0xffffffff); by apply write_bar_ok. }
  destruct ((reg =? 0x04) && _); [by apply write_command_ok|]. by apply store_ok.
Qed.

Fixpoint ecam_writes (ws : list (u64 * bytes)) : M PciEcam unit :=
  match ws with
  | [] => ret tt
  | (addr, data) :: ws => do! ecam_write addr data in ecam_writes ws
  end.

Lemma ecam_writes_ok ws p : ecam_ok p -> exists q, ecam_writes ws p = (Ok tt, q) /\ ecam_ok q.
Proof.
  revert p. induction ws as [|[addr data] ws IH]; intros p Hp; [by exists p|]. cbn [ecam_writes]. unfold bind.
  destruct (ecam_write_ok addr data p Hp) as [Hq E]. destruct (ecam_write addr data p) as [o q]. simpl in *.
  subst o. by apply IH.
Qed.

Lemma new_cfg_ok : ecam_ok (MkEcam PCI_MMCONFIG_START PCI_MMCONFIG_SIZE new_cfg).
Proof. constructor; [done|done|by vm_compute|done|by vm_compute]. Qed.

(** The capability list a driver walks from [ptr]. *)
Fixpoint cap_chain (fuel : nat) (ptr : N) (cfg : bytes) : list (N * N) :=
  match fuel with
  | O => []
  | S fuel =>
      if ptr =? 0 then []
      else (ptr, default 0xff (cfg !! N.to_nat ptr)) ::
           cap_chain fuel (default 0 (cfg !! N.to_nat (ptr + 1))) cfg
  end.

Lemma cap_chain_ro fuel ptr cfg :
  (forall off, read_only off = true -> cfg !! N.to_nat off = new_cfg !! N.to_nat off) ->
  forallb (fun e => read_only e.1 && read_only (e.1 + 1)) (cap_chain fuel ptr new_cfg) = true ->
  cap_chain fuel ptr cfg = cap_chain fuel ptr new_cfg.
Proof.
  intros Hro. revert ptr. induction fuel as [|fuel IH]; intros ptr; [done|]. cbn [cap_chain].
  destruct (ptr =? 0); [done|]. cbn [forallb fst]. intros H. apply andb_true_iff in H as [[H1 H2]%andb_true_iff H3].
  rewrite (Hro ptr H1), (Hro (ptr + 1) H2), (IH _ H3). reflexivity.
Qed.

Lemma ecam_read_at reg n p :
  reg < 4096 -> ecam_read (ecam_addr 0 1 0 reg) (repeat 0 n) p = (Ok (read_window (e_cfg p) reg 0xff (repeat 0 n)), p).
Proof. intros H. unfold ecam_read. by rewrite bdf_offset_ecam by lia. Qed.

Lemma read_window_slice cfg reg other n :
  (reg + n <= length cfg)%nat -> read_window cfg (N.of_nat reg) other (repeat 0 n) = slice reg n cfg.
Proof.
  intros H. apply list_eq. intros i. unfold read_window. rewrite list_lookup_imap, lookup_slice, Nat2N.id.
  destruct (decide (i < n)%nat) as [Hi|Hi].
  - destruct (lookup_lt_is_Some_2 (repeat 0 n) i) as [x ->]; [by rewrite repeat_length|]. simpl.
    destruct (lookup_lt_is_Some_2 cfg (reg + i)) as [y ->]; [lia|]. done.
  - rewrite (proj2 (lookup_ge_None (repeat 0 n) i)) by (rewrite repeat_length; lia). done.
Qed.

(** Whatever the guest writes to the configuration window, no write fails, and
    the device stays what it is: vendor and device, the status and class
    bytes and every byte of the capability structures (the MSI-X control word
    apart) read as built, the capabilities chain from common to MSI-X, and no
    command bit above bus-master can be set. *)
Theorem pci_identity_fixed ws (p : PciEcam) (H : new_ecam = Ok p) :
  exists q, ecam_writes ws p = (Ok tt, q) /\
  (forall off, read_only off = true -> e_cfg q !! N.to_nat off = new_cfg !! N.to_nat off) /\
  (ecam_read (ecam_addr 0 1 0 0) (repeat 0 4) q).1 = Ok [0xf4; 0x1a; 0x41; 0x10] /\
  cap_chain 8 CAP_COMMON_CFG (e_cfg q) =
    [(0x40, 0x09); (0x50, 0x09); (0x60, 0x09); (0x70, 0x09); (0x80, 0x11)] /\
  from_le (slice 4 2 (e_cfg q)) < 8.
Proof.
  rewrite new_ecam_ok in H. injection H as <-. destruct (ecam_writes_ok ws _ new_cfg_ok) as (q & Eq & Hq).
  exists q. destruct Hq as [Hb Hs Hl Hro Hc]. split_and!; [done|done| | |done].
  - rewrite ecam_read_at by done. cbn [fst]. rewrite (read_window_slice _ 0) by (rewrite Hl; lia). f_equal.
    transitivity (slice 0 4 new_cfg); [|by vm_compute]. apply list_eq. intros i. rewrite !lookup_slice.
    case_decide as Hi; [|done]. rewrite <- (Nat2N.id (0 + i)). apply Hro.
    do 4 (destruct i as [|i]; [reflexivity|]). lia.
  - rewrite cap_chain_ro; [vm_compute; reflexivity|exact Hro|vm_compute; reflexivity].
Qed.

Lemma pci_identity_fixed_witness :
  exists q, ecam_writes [(ecam_addr 0 1 0 0, [1; 2; 3; 4]); (ecam_addr 0 1 0 0x3e, [9; 9; 9; 9])]
              (MkEcam PCI_MMCONFIG_START PCI_MMCONFIG_SIZE new_cfg) = (Ok tt, q) /\
    (ecam_read (ecam_addr 0 1 0 0) (repeat 0 4) q).1 = Ok [0xf4; 0x1a; 0x41; 0x10].
Proof.
  destruct (pci_identity_fixed [(ecam_addr 0 1 0 0, [1; 2; 3; 4]); (ecam_addr 0 1 0 0x3e, [9; 9; 9; 9])]
              _ new_ecam_ok) as (q & E & _ & R & _).
  exists q. split; [exact E|exact R].
Defined.

(** BAR0 keeps the bits of its address above the size of the window, so the
    probe with all ones reads back the size mask. *)
Lemma bar0_probe p v :
  ecam_ok p -> in_u 32 v ->
  let w := ecam_write (ecam_addr 0 1 0 0x10) (le_bytes 4 v) p in
  w.1 = Ok tt /\ (ecam_read (ecam_addr 0 1 0 0x10) (repeat 0 4) w.2).1 = Ok (le_bytes 4 (N.land v 0xfffff000)).
Proof.
  intros Hp Hv w.
  assert (w = on_cfg (write_u32 0x10 (N.land v 0xfffff000)) p) as ->.
  { unfold w, ecam_write. rewrite bdf_offset_ecam by done. cbn [negb orb N.eqb andb].
    unfold lenN. rewrite length_le_bytes. change (4 <=? N.of_nat 4) with true. cbv iota.
    rewrite take_ge by (by rewrite length_le_bytes). rewrite from_le_bytes_small by done.
    change (U.not 32 (BAR0_SIZE - 1)) with 0xfffff000. by destruct (N.eqb_spec v 0xffffffff) as [-> |]. }
  split; [by apply write_bar_ok|]. rewrite ecam_read_at by done. cbn [fst]. f_equal.
  unfold on_cfg, zoom, write_u32. pose proof (eo_len _ Hp) as Hl.
  rewrite put_ok by (unfold lenN; rewrite Hl, length_le_bytes; lia). cbn [snd e_cfg].
  rewrite (read_window_slice _ 16) by (rewrite length_splice; rewrite Hl, ?length_le_bytes; lia).
  pose proof (slice_splice_same 16 (le_bytes 4 (N.land v 0xfffff000)) (e_cfg p)) as Hss.
  rewrite length_le_bytes in Hss. apply Hss. lia.
Qed.

(** Functions other than 00:01.0 are absent: they read as all ones and ignore
    writes. *)
Lemma other_functions_absent bus dev func reg data p :
  bus < 256 -> dev < 32 -> func < 8 -> reg < 4096 -> (bus, dev, func) <> (0, 1, 0) ->
  ecam_write (ecam_addr bus dev func reg) data p = (Ok tt, p) /\
  ecam_read (ecam_addr bus dev func reg) data p = (Ok (fill 0xff data), p).
Proof.
  intros Hb Hd Hf Hr Hne. unfold ecam_write, ecam_read. rewrite bdf_offset_ecam by done.
  destruct (N.eqb_spec bus 0), (N.eqb_spec dev 1), (N.eqb_spec func 0); cbn [negb orb]; try done. by subst.
Qed.

(** The multiplier that follows the notify capability is overwritten by the
    ISR capability that starts at the same offset. *)
Example notify_multiplier_overwritten :
  from_le (slice (N.to_nat (CAP_NOTIFY_CFG + 16)) 4 new_cfg) = 0x03107009.
Proof. by vm_compute. Qed.

(** The interrupt pin register holds 5; the legal values are 0 to 4, INTA being
    1. *)
Example interrupt_pin : new_cfg !! 0x3d%nat = Some 5.
Proof. by vm_compute. Qed.

(** A guest can store to the capabilities pointer and cut the chain off. *)
Example cap_pointer_writable :
  match ecam_write (ecam_addr 0 1 0 0x34) [0] (MkEcam PCI_MMCONFIG_START PCI_MMCONFIG_SIZE new_cfg) with
  | (Ok _, q) => (ecam_read (ecam_addr 0 1 0 0x34) [0] q).1 = Ok [0]
  | _ => False
  end.
Proof. by vm_compute. Qed.

(** ** The MSI-X table *)

Lemma table_store_splice (pre data post : bytes) (old : bytes) :
  length old = length data ->
  table_store (lenN pre) data (pre ++ old ++ post) = pre ++ data ++ post.
Proof.
  revert pre old. induction data as [|b data IH]; intros pre [|o old] Hl; try done. cbn [table_store].
  assert (lenN pre <? lenN (pre ++ (o :: old) ++ post) = true) as ->.
  { apply N.ltb_lt. rewrite lenN_app. unfold lenN. simpl. lia. }
  unfold lenN at 2. rewrite Nat2N.id, insert_app_r_alt, Nat.sub_diag by lia. cbn [app list_insert insert].
  replace (lenN pre + 1) with (lenN (pre ++ [b])) by (rewrite lenN_app; done).
  change (pre ++ b :: old ++ post) with (pre ++ [b] ++ old ++ post).
  change (pre ++ b :: data ++ post) with (pre ++ [b] ++ data ++ post).
  rewrite !(app_assoc pre [b]). apply IH. by injection Hl.
Qed.

(** What the guest stores in the table it reads back, and the rest of the
    table keeps its value. *)
Lemma msix_store m off data :
  (off + length data <= length (m_table m))%nat -> 
  msix_write (m_base m + N.of_nat off) data m = (Ok tt, MkMsix (m_base m) (splice off data (m_table m))) /\
  msix_read (m_base m + N.of_nat off) (repeat 0 (length data)) (MkMsix (m_base m) (splice off data (m_table m))) =
    (Ok data, MkMsix (m_base m) (splice off data (m_table m))).
Proof.
  intros Hl. unfold msix_write, msix_read. cbn [m_base m_table].
  destruct (N.ltb_spec (m_base m + N.of_nat off) (m_base m)); [lia|].
  replace (m_base m + N.of_nat off - m_base m) with (N.of_nat off) by lia. split.
  - do 2 f_equal. unfold splice.
    pose proof (table_store_splice (take off (m_table m)) data (drop (off + length data) (m_table m))
                  (slice off (length data) (m_table m))) as H0.
    rewrite length_slice in H0 by done. specialize (H0 eq_refl).
    assert (lenN (take off (m_table m)) = N.of_nat off) as E by (unfold lenN; rewrite length_take; lia).
    rewrite E in H0. rewrite <- H0. f_equal. unfold slice.
    rewrite <- drop_drop, take_drop, take_drop. done.
  - f_equal. f_equal. rewrite read_window_slice by (rewrite length_splice; lia). by apply slice_splice_same.
Qed.
