(* ===== verification/VmConfig.v ===== *)
(** * The engine's configuration

    [crates/fluxvm-hypervisor/src/config.rs]: the settings of a machine, their
    defaults, the command line and the checks every configuration passes.  A
    path is the string it was given as; [std::env::var] is an argument.  The
    command line is the one the system hands over, program name first: an
    argument that is not valid Unicode has no string, and [std::env::args] panics
    when it comes to it. *)

From stdpp Require Import prelude list strings.
From Stdlib Require Import NArith Lia.
From S2P Require Import Prelude RustStr VirtioMmio.

Inductive GuestKind := Linux | Windows.

#[global] Instance GuestKind_eq_dec : EqDecision GuestKind.
Proof. solve_decision. Defined.

Record VmConfig := MkConfig {
  c_memory_mib : N;
  c_cpus : N;
  c_guest : GuestKind;
  c_kernel : option rstr;
  c_initrd : option rstr;
  c_disk : option rstr;
  c_tap : option rstr;
  c_mac : rstr;
  c_vhost_net : bool;
  c_net_queues : N;
  c_net_queue_pairs : N;
  c_cmdline : rstr;
  c_firmware : option rstr;
  c_net_mbit_limit : N;
  c_blk_mbit_limit : N;
  c_dry_run : bool;
  c_print_host_net : bool;
  c_gdb : option rstr;
  c_vsock_cid : option N;
  c_vsock_uds : option rstr;
  c_balloon : bool;
  c_rng : bool;
  c_acpi : bool;
  c_pci : bool;
  c_jailer : bool;
  c_max_cpus : N;
  c_shared_dirs : list (rstr * rstr);
  c_extra_disks : list rstr
}.

Definition default_config : VmConfig := {|
  c_memory_mib := 256; c_cpus := 1; c_guest := Linux; c_kernel := None; c_initrd := None;
  c_disk := None; c_tap := None; c_mac := bstr "02:00:00:00:00:01"; c_vhost_net := true;
  c_net_queues := 1; c_net_queue_pairs := 1;
  c_cmdline := bstr "console=ttyS0 reboot=k panic=1 pci=off"; c_firmware := None;
  c_net_mbit_limit := 0; c_blk_mbit_limit := 0; c_dry_run := false; c_print_host_net := false;
  c_gdb := None; c_vsock_cid := None; c_vsock_uds := None; c_balloon := true; c_rng := true;
  c_acpi := true; c_pci := false; c_jailer := false; c_max_cpus := 1; c_shared_dirs := [];
  c_extra_disks := []
|}.

(** Assignment to a field. *)
Definition set_memory_mib (v : N) (c : VmConfig) : VmConfig :=
  MkConfig v (c_cpus c) (c_guest c) (c_kernel c) (c_initrd c) (c_disk c) (c_tap c) (c_mac c) (c_vhost_net c)
    (c_net_queues c) (c_net_queue_pairs c) (c_cmdline c) (c_firmware c) (c_net_mbit_limit c) (c_blk_mbit_limit
    c) (c_dry_run c) (c_print_host_net c) (c_gdb c) (c_vsock_cid c) (c_vsock_uds c) (c_balloon c) (c_rng c)
    (c_acpi c) (c_pci c) (c_jailer c) (c_max_cpus c) (c_shared_dirs c) (c_extra_disks c).
Definition set_cpus (v : N) (c : VmConfig) : VmConfig :=
  MkConfig (c_memory_mib c) v (c_guest c) (c_kernel c) (c_initrd c) (c_disk c) (c_tap c) (c_mac c)
    (c_vhost_net c) (c_net_queues c) (c_net_queue_pairs c) (c_cmdline c) (c_firmware c) (c_net_mbit_limit c)
    (c_blk_mbit_limit c) (c_dry_run c) (c_print_host_net c) (c_gdb c) (c_vsock_cid c) (c_vsock_uds c)
    (c_balloon c) (c_rng c) (c_acpi c) (c_pci c) (c_jailer c) (c_max_cpus c) (c_shared_dirs c) (c_extra_disks
    c).
Definition set_guest (v : GuestKind) (c : VmConfig) : VmConfig :=
  MkConfig (c_memory_mib c) (c_cpus c) v (c_kernel c) (c_initrd c) (c_disk c) (c_tap c) (c_mac c) (c_vhost_net
    c) (c_net_queues c) (c_net_queue_pairs c) (c_cmdline c) (c_firmware c) (c_net_mbit_limit c)
    (c_blk_mbit_limit c) (c_dry_run c) (c_print_host_net c) (c_gdb c) (c_vsock_cid c) (c_vsock_uds c)
    (c_balloon c) (c_rng c) (c_acpi c) (c_pci c) (c_jailer c) (c_max_cpus c) (c_shared_dirs c) (c_extra_disks
    c).
Definition set_kernel (v : option rstr) (c : VmConfig) : VmConfig :=
  MkConfig (c_memory_mib c) (c_cpus c) (c_guest c) v (c_initrd c) (c_disk c) (c_tap c) (c_mac c) (c_vhost_net
    c) (c_net_queues c) (c_net_queue_pairs c) (c_cmdline c) (c_firmware c) (c_net_mbit_limit c)
    (c_blk_mbit_limit c) (c_dry_run c) (c_print_host_net c) (c_gdb c) (c_vsock_cid c) (c_vsock_uds c)
    (c_balloon c) (c_rng c) (c_acpi c) (c_pci c) (c_jailer c) (c_max_cpus c) (c_shared_dirs c) (c_extra_disks
    c).
Definition set_initrd (v : option rstr) (c : VmConfig) : VmConfig :=
  MkConfig (c_memory_mib c) (c_cpus c) (c_guest c) (c_kernel c) v (c_disk c) (c_tap c) (c_mac c) (c_vhost_net
    c) (c_net_queues c) (c_net_queue_pairs c) (c_cmdline c) (c_firmware c) (c_net_mbit_limit c)
    (c_blk_mbit_limit c) (c_dry_run c) (c_print_host_net c) (c_gdb c) (c_vsock_cid c) (c_vsock_uds c)
    (c_balloon c) (c_rng c) (c_acpi c) (c_pci c) (c_jailer c) (c_max_cpus c) (c_shared_dirs c) (c_extra_disks
    c).
Definition set_disk (v : option rstr) (c : VmConfig) : VmConfig :=
  MkConfig (c_memory_mib c) (c_cpus c) (c_guest c) (c_kernel c) (c_initrd c) v (c_tap c) (c_mac c)
    (c_vhost_net c) (c_net_queues c) (c_net_queue_pairs c) (c_cmdline c) (c_firmware c) (c_net_mbit_limit c)
    (c_blk_mbit_limit c) (c_dry_run c) (c_print_host_net c) (c_gdb c) (c_vsock_cid c) (c_vsock_uds c)
    (c_balloon c) (c_rng c) (c_acpi c) (c_pci c) (c_jailer c) (c_max_cpus c) (c_shared_dirs c) (c_extra_disks
    c).
Definition set_tap (v : option rstr) (c : VmConfig) : VmConfig :=
  MkConfig (c_memory_mib c) (c_cpus c) (c_guest c) (c_kernel c) (c_initrd c) (c_disk c) v (c_mac c)
    (c_vhost_net c) (c_net_queues c) (c_net_queue_pairs c) (c_cmdline c) (c_firmware c) (c_net_mbit_limit c)
    (c_blk_mbit_limit c) (c_dry_run c) (c_print_host_net c) (c_gdb c) (c_vsock_cid c) (c_vsock_uds c)
    (c_balloon c) (c_rng c) (c_acpi c) (c_pci c) (c_jailer c) (c_max_cpus c) (c_shared_dirs c) (c_extra_disks
    c).
Definition set_mac (v : rstr) (c : VmConfig) : VmConfig :=
  MkConfig (c_memory_mib c) (c_cpus c) (c_guest c) (c_kernel c) (c_initrd c) (c_disk c) (c_tap c) v
    (c_vhost_net c) (c_net_queues c) (c_net_queue_pairs c) (c_cmdline c) (c_firmware c) (c_net_mbit_limit c)
    (c_blk_mbit_limit c) (c_dry_run c) (c_print_host_net c) (c_gdb c) (c_vsock_cid c) (c_vsock_uds c)
    (c_balloon c) (c_rng c) (c_acpi c) (c_pci c) (c_jailer c) (c_max_cpus c) (c_shared_dirs c) (c_extra_disks
    c).
Definition set_vhost_net (v : bool) (c : VmConfig) : VmConfig :=
  MkConfig (c_memory_mib c) (c_cpus c) (c_guest c) (c_kernel c) (c_initrd c) (c_disk c) (c_tap c) (c_mac c) v
    (c_net_queues c) (c_net_queue_pairs c) (c_cmdline c) (c_firmware c) (c_net_mbit_limit c) (c_blk_mbit_limit
    c) (c_dry_run c) (c_print_host_net c) (c_gdb c) (c_vsock_cid c) (c_vsock_uds c) (c_balloon c) (c_rng c)
    (c_acpi c) (c_pci c) (c_jailer c) (c_max_cpus c) (c_shared_dirs c) (c_extra_disks c).
Definition set_net_queues (v : N) (c : VmConfig) : VmConfig :=
  MkConfig (c_memory_mib c) (c_cpus c) (c_guest c) (c_kernel c) (c_initrd c) (c_disk c) (c_tap c) (c_mac c)
    (c_vhost_net c) v (c_net_queue_pairs c) (c_cmdline c) (c_firmware c) (c_net_mbit_limit c)
    (c_blk_mbit_limit c) (c_dry_run c) (c_print_host_net c) (c_gdb c) (c_vsock_cid c) (c_vsock_uds c)
    (c_balloon c) (c_rng c) (c_acpi c) (c_pci c) (c_jailer c) (c_max_cpus c) (c_shared_dirs c) (c_extra_disks
    c).
Definition set_net_queue_pairs (v : N) (c : VmConfig) : VmConfig :=
  MkConfig (c_memory_mib c) (c_cpus c) (c_guest c) (c_kernel c) (c_initrd c) (c_disk c) (c_tap c) (c_mac c)
    (c_vhost_net c) (c_net_queues c) v (c_cmdline c) (c_firmware c) (c_net_mbit_limit c) (c_blk_mbit_limit c)
    (c_dry_run c) (c_print_host_net c) (c_gdb c) (c_vsock_cid c) (c_vsock_uds c) (c_balloon c) (c_rng c)
    (c_acpi c) (c_pci c) (c_jailer c) (c_max_cpus c) (c_shared_dirs c) (c_extra_disks c).
Definition set_cmdline (v : rstr) (c : VmConfig) : VmConfig :=
  MkConfig (c_memory_mib c) (c_cpus c) (c_guest c) (c_kernel c) (c_initrd c) (c_disk c) (c_tap c) (c_mac c)
    (c_vhost_net c) (c_net_queues c) (c_net_queue_pairs c) v (c_firmware c) (c_net_mbit_limit c)
    (c_blk_mbit_limit c) (c_dry_run c) (c_print_host_net c) (c_gdb c) (c_vsock_cid c) (c_vsock_uds c)
    (c_balloon c) (c_rng c) (c_acpi c) (c_pci c) (c_jailer c) (c_max_cpus c) (c_shared_dirs c) (c_extra_disks
    c).
Definition set_firmware (v : option rstr) (c : VmConfig) : VmConfig :=
  MkConfig (c_memory_mib c) (c_cpus c) (c_guest c) (c_kernel c) (c_initrd c) (c_disk c) (c_tap c) (c_mac c)
    (c_vhost_net c) (c_net_queues c) (c_net_queue_pairs c) (c_cmdline c) v (c_net_mbit_limit c)
    (c_blk_mbit_limit c) (c_dry_run c) (c_print_host_net c) (c_gdb c) (c_vsock_cid c) (c_vsock_uds c)
    (c_balloon c) (c_rng c) (c_acpi c) (c_pci c) (c_jailer c) (c_max_cpus c) (c_shared_dirs c) (c_extra_disks
    c).
Definition set_net_mbit_limit (v : N) (c : VmConfig) : VmConfig :=
  MkConfig (c_memory_mib c) (c_cpus c) (c_guest c) (c_kernel c) (c_initrd c) (c_disk c) (c_tap c) (c_mac c)
    (c_vhost_net c) (c_net_queues c) (c_net_queue_pairs c) (c_cmdline c) (c_firmware c) v (c_blk_mbit_limit c)
    (c_dry_run c) (c_print_host_net c) (c_gdb c) (c_vsock_cid c) (c_vsock_uds c) (c_balloon c) (c_rng c)
    (c_acpi c) (c_pci c) (c_jailer c) (c_max_cpus c) (c_shared_dirs c) (c_extra_disks c).
Definition set_blk_mbit_limit (v : N) (c : VmConfig) : VmConfig :=
  MkConfig (c_memory_mib c) (c_cpus c) (c_guest c) (c_kernel c) (c_initrd c) (c_disk c) (c_tap c) (c_mac c)
    (c_vhost_net c) (c_net_queues c) (c_net_queue_pairs c) (c_cmdline c) (c_firmware c) (c_net_mbit_limit c) v
    (c_dry_run c) (c_print_host_net c) (c_gdb c) (c_vsock_cid c) (c_vsock_uds c) (c_balloon c) (c_rng c)
    (c_acpi c) (c_pci c) (c_jailer c) (c_max_cpus c) (c_shared_dirs c) (c_extra_disks c).
Definition set_dry_run (v : bool) (c : VmConfig) : VmConfig :=
  MkConfig (c_memory_mib c) (c_cpus c) (c_guest c) (c_kernel c) (c_initrd c) (c_disk c) (c_tap c) (c_mac c)
    (c_vhost_net c) (c_net_queues c) (c_net_queue_pairs c) (c_cmdline c) (c_firmware c) (c_net_mbit_limit c)
    (c_blk_mbit_limit c) v (c_print_host_net c) (c_gdb c) (c_vsock_cid c) (c_vsock_uds c) (c_balloon c) (c_rng
    c) (c_acpi c) (c_pci c) (c_jailer c) (c_max_cpus c) (c_shared_dirs c) (c_extra_disks c).
Definition set_print_host_net (v : bool) (c : VmConfig) : VmConfig :=
  MkConfig (c_memory_mib c) (c_cpus c) (c_guest c) (c_kernel c) (c_initrd c) (c_disk c) (c_tap c) (c_mac c)
    (c_vhost_net c) (c_net_queues c) (c_net_queue_pairs c) (c_cmdline c) (c_firmware c) (c_net_mbit_limit c)
    (c_blk_mbit_limit c) (c_dry_run c) v (c_gdb c) (c_vsock_cid c) (c_vsock_uds c) (c_balloon c) (c_rng c)
    (c_acpi c) (c_pci c) (c_jailer c) (c_max_cpus c) (c_shared_dirs c) (c_extra_disks c).
Definition set_gdb (v : option rstr) (c : VmConfig) : VmConfig :=
  MkConfig (c_memory_mib c) (c_cpus c) (c_guest c) (c_kernel c) (c_initrd c) (c_disk c) (c_tap c) (c_mac c)
    (c_vhost_net c) (c_net_queues c) (c_net_queue_pairs c) (c_cmdline c) (c_firmware c) (c_net_mbit_limit c)
    (c_blk_mbit_limit c) (c_dry_run c) (c_print_host_net c) v (c_vsock_cid c) (c_vsock_uds c) (c_balloon c)
    (c_rng c) (c_acpi c) (c_pci c) (c_jailer c) (c_max_cpus c) (c_shared_dirs c) (c_extra_disks c).
Definition set_vsock_cid (v : option N) (c : VmConfig) : VmConfig :=
  MkConfig (c_memory_mib c) (c_cpus c) (c_guest c) (c_kernel c) (c_initrd c) (c_disk c) (c_tap c) (c_mac c)
    (c_vhost_net c) (c_net_queues c) (c_net_queue_pairs c) (c_cmdline c) (c_firmware c) (c_net_mbit_limit c)
    (c_blk_mbit_limit c) (c_dry_run c) (c_print_host_net c) (c_gdb c) v (c_vsock_uds c) (c_balloon c) (c_rng
    c) (c_acpi c) (c_pci c) (c_jailer c) (c_max_cpus c) (c_shared_dirs c) (c_extra_disks c).
Definition set_vsock_uds (v : option rstr) (c : VmConfig) : VmConfig :=
  MkConfig (c_memory_mib c) (c_cpus c) (c_guest c) (c_kernel c) (c_initrd c) (c_disk c) (c_tap c) (c_mac c)
    (c_vhost_net c) (c_net_queues c) (c_net_queue_pairs c) (c_cmdline c) (c_firmware c) (c_net_mbit_limit c)
    (c_blk_mbit_limit c) (c_dry_run c) (c_print_host_net c) (c_gdb c) (c_vsock_cid c) v (c_balloon c) (c_rng
    c) (c_acpi c) (c_pci c) (c_jailer c) (c_max_cpus c) (c_shared_dirs c) (c_extra_disks c).
Definition set_balloon (v : bool) (c : VmConfig) : VmConfig :=
  MkConfig (c_memory_mib c) (c_cpus c) (c_guest c) (c_kernel c) (c_initrd c) (c_disk c) (c_tap c) (c_mac c)
    (c_vhost_net c) (c_net_queues c) (c_net_queue_pairs c) (c_cmdline c) (c_firmware c) (c_net_mbit_limit c)
    (c_blk_mbit_limit c) (c_dry_run c) (c_print_host_net c) (c_gdb c) (c_vsock_cid c) (c_vsock_uds c) v (c_rng
    c) (c_acpi c) (c_pci c) (c_jailer c) (c_max_cpus c) (c_shared_dirs c) (c_extra_disks c).
Definition set_rng (v : bool) (c : VmConfig) : VmConfig :=
  MkConfig (c_memory_mib c) (c_cpus c) (c_guest c) (c_kernel c) (c_initrd c) (c_disk c) (c_tap c) (c_mac c)
    (c_vhost_net c) (c_net_queues c) (c_net_queue_pairs c) (c_cmdline c) (c_firmware c) (c_net_mbit_limit c)
    (c_blk_mbit_limit c) (c_dry_run c) (c_print_host_net c) (c_gdb c) (c_vsock_cid c) (c_vsock_uds c)
    (c_balloon c) v (c_acpi c) (c_pci c) (c_jailer c) (c_max_cpus c) (c_shared_dirs c) (c_extra_disks c).
Definition set_acpi (v : bool) (c : VmConfig) : VmConfig :=
  MkConfig (c_memory_mib c) (c_cpus c) (c_guest c) (c_kernel c) (c_initrd c) (c_disk c) (c_tap c) (c_mac c)
    (c_vhost_net c) (c_net_queues c) (c_net_queue_pairs c) (c_cmdline c) (c_firmware c) (c_net_mbit_limit c)
    (c_blk_mbit_limit c) (c_dry_run c) (c_print_host_net c) (c_gdb c) (c_vsock_cid c) (c_vsock_uds c)
    (c_balloon c) (c_rng c) v (c_pci c) (c_jailer c) (c_max_cpus c) (c_shared_dirs c) (c_extra_disks c).
Definition set_pci (v : bool) (c : VmConfig) : VmConfig :=
  MkConfig (c_memory_mib c) (c_cpus c) (c_guest c) (c_kernel c) (c_initrd c) (c_disk c) (c_tap c) (c_mac c)
    (c_vhost_net c) (c_net_queues c) (c_net_queue_pairs c) (c_cmdline c) (c_firmware c) (c_net_mbit_limit c)
    (c_blk_mbit_limit c) (c_dry_run c) (c_print_host_net c) (c_gdb c) (c_vsock_cid c) (c_vsock_uds c)
    (c_balloon c) (c_rng c) (c_acpi c) v (c_jailer c) (c_max_cpus c) (c_shared_dirs c) (c_extra_disks c).
Definition set_jailer (v : bool) (c : VmConfig) : VmConfig :=
  MkConfig (c_memory_mib c) (c_cpus c) (c_guest c) (c_kernel c) (c_initrd c) (c_disk c) (c_tap c) (c_mac c)
    (c_vhost_net c) (c_net_queues c) (c_net_queue_pairs c) (c_cmdline c) (c_firmware c) (c_net_mbit_limit c)
    (c_blk_mbit_limit c) (c_dry_run c) (c_print_host_net c) (c_gdb c) (c_vsock_cid c) (c_vsock_uds c)
    (c_balloon c) (c_rng c) (c_acpi c) (c_pci c) v (c_max_cpus c) (c_shared_dirs c) (c_extra_disks c).
Definition set_max_cpus (v : N) (c : VmConfig) : VmConfig :=
  MkConfig (c_memory_mib c) (c_cpus c) (c_guest c) (c_kernel c) (c_initrd c) (c_disk c) (c_tap c) (c_mac c)
    (c_vhost_net c) (c_net_queues c) (c_net_queue_pairs c) (c_cmdline c) (c_firmware c) (c_net_mbit_limit c)
    (c_blk_mbit_limit c) (c_dry_run c) (c_print_host_net c) (c_gdb c) (c_vsock_cid c) (c_vsock_uds c)
    (c_balloon c) (c_rng c) (c_acpi c) (c_pci c) (c_jailer c) v (c_shared_dirs c) (c_extra_disks c).
Definition set_shared_dirs (v : list (rstr * rstr)) (c : VmConfig) : VmConfig :=
  MkConfig (c_memory_mib c) (c_cpus c) (c_guest c) (c_kernel c) (c_initrd c) (c_disk c) (c_tap c) (c_mac c)
    (c_vhost_net c) (c_net_queues c) (c_net_queue_pairs c) (c_cmdline c) (c_firmware c) (c_net_mbit_limit c)
    (c_blk_mbit_limit c) (c_dry_run c) (c_print_host_net c) (c_gdb c) (c_vsock_cid c) (c_vsock_uds c)
    (c_balloon c) (c_rng c) (c_acpi c) (c_pci c) (c_jailer c) (c_max_cpus c) v (c_extra_disks c).
Definition set_extra_disks (v : list rstr) (c : VmConfig) : VmConfig :=
  MkConfig (c_memory_mib c) (c_cpus c) (c_guest c) (c_kernel c) (c_initrd c) (c_disk c) (c_tap c) (c_mac c)
    (c_vhost_net c) (c_net_queues c) (c_net_queue_pairs c) (c_cmdline c) (c_firmware c) (c_net_mbit_limit c)
    (c_blk_mbit_limit c) (c_dry_run c) (c_print_host_net c) (c_gdb c) (c_vsock_cid c) (c_vsock_uds c)
    (c_balloon c) (c_rng c) (c_acpi c) (c_pci c) (c_jailer c) (c_max_cpus c) (c_shared_dirs c) v.

(** ** The command line *)

Inductive arg_error :=
| NeedsValue (flag : rstr)
| BadValue (flag : rstr)
| BadGuest
| UnknownArg (arg : rstr)
| VsockHalf
| BadCpus
| BadMaxCpus
| BadQueuePairs
| TooLittleMemory.

(** [from_args] returns, fails, or prints the help and exits. *)
Inductive arg_outcome :=
| Parsed (c : VmConfig)
| Failed (e : arg_error)
| HelpExit.

(** An argument of the process; [None] is one that is not valid Unicode. *)
Abbreviation os_arg := (option rstr).

(** What ends the loop early: an error is returned, or [env::args] panics. *)
Inductive arg_stop :=
| Returns (e : arg_error)
| NotUnicode.

(** [Args::next] *)
Definition next_arg (args : list os_arg) : result arg_stop (option (rstr * list os_arg)) :=
  match args with
  | [] => ROk None
  | Some a :: rest => ROk (Some (a, rest))
  | None :: _ => RErr NotUnicode
  end.

(** [req] and [parse_next]: the value that follows a flag, and what is left. *)
Definition req (flag : rstr) (args : list os_arg) : result arg_stop (rstr * list os_arg) :=
  let? o := next_arg args in
  match o with Some r => ROk r | None => RErr (Returns (NeedsValue flag)) end.

Definition parse_next (w : N) (flag : rstr) (args : list os_arg) : result arg_stop (N * list os_arg) :=
  let? (v, rest) := req flag args in
  match parse_dec w v with Some n => ROk (n, rest) | None => RErr (Returns (BadValue flag)) end.

Definition set_cpus_arg (n : N) (c : VmConfig) : VmConfig :=
  let c := set_cpus n c in
  if c_max_cpus c <? c_cpus c then set_max_cpus (c_cpus c) c else c.

Definition add_shared_dir (raw : rstr) (c : VmConfig) : VmConfig :=
  let entry := match split_once 61 raw with
               | Some (t, p) => (t, p)
               | None => (bstr "fs" ++ to_decimal (lenN (c_shared_dirs c)), raw)
               end in
  set_shared_dirs (c_shared_dirs c ++ [entry]) c.

(** One turn of the loop: the flag, and what the iterator still holds. *)
Definition arg_step (a : rstr) (rest : list os_arg) (c : VmConfig) :
    result arg_stop (VmConfig * list os_arg) :=
  let is_ f := bool_decide (a = bstr f) in
  let text (set : rstr -> VmConfig -> VmConfig) :=
    let? (v, rest) := req a rest in ROk (set v c, rest) in
  let num w (set : N -> VmConfig -> VmConfig) :=
    let? (v, rest) := parse_next w a rest in ROk (set v c, rest) in
  if is_ "--memory-mib" then num 32 set_memory_mib
  else if is_ "--cpus" then num 8 set_cpus_arg
  else if is_ "--max-cpus" then num 8 set_max_cpus
  else if is_ "--guest" then
    let? (v, rest) := req a rest in
    if bool_decide (v = bstr "linux") then ROk (set_guest Linux c, rest)
    else if bool_decide (v = bstr "windows") then ROk (set_guest Windows c, rest)
    else RErr (Returns BadGuest)
  else if is_ "--kernel" then text (fun v => set_kernel (Some v))
  else if is_ "--initrd" then text (fun v => set_initrd (Some v))
  else if is_ "--disk" then text (fun v => set_disk (Some v))
  else if is_ "--extra-disk" then text (fun v c => set_extra_disks (c_extra_disks c ++ [v]) c)
  else if is_ "--shared-dir" then text add_shared_dir
  else if is_ "--tap" then text (fun v => set_tap (Some v))
  else if is_ "--mac" then text set_mac
  else if is_ "--vhost-net" then ROk (set_vhost_net true c, rest)
  else if is_ "--no-vhost-net" then ROk (set_vhost_net false c, rest)
  else if is_ "--net-queues" then num 8 set_net_queues
  else if is_ "--net-queue-pairs" then num 8 set_net_queue_pairs
  else if is_ "--cmdline" then text set_cmdline
  else if is_ "--firmware" then text (fun v => set_firmware (Some v))
  else if is_ "--net-mbit-limit" then num 32 set_net_mbit_limit
  else if is_ "--blk-mbit-limit" then num 32 set_blk_mbit_limit
  else if is_ "--vsock-cid" then num 32 (fun v => set_vsock_cid (Some v))
  else if is_ "--vsock-uds" then text (fun v => set_vsock_uds (Some v))
  else if is_ "--no-balloon" then ROk (set_balloon false c, rest)
  else if is_ "--no-rng" then ROk (set_rng false c, rest)
  else if is_ "--no-acpi" then ROk (set_acpi false c, rest)
  else if is_ "--pci" then ROk (set_pci true c, rest)
  else if is_ "--jailer" then ROk (set_jailer true c, rest)
  else if is_ "--dry-run" then ROk (set_dry_run true c, rest)
  else if is_ "--print-host-net" then ROk (set_print_host_net true c, rest)
  else if is_ "--gdb" then text (fun v => set_gdb (Some v))
  else RErr (Returns (UnknownArg a)).

Definition is_help (a : rstr) : bool := bool_decide (a = bstr "-h") || bool_decide (a = bstr "--help").

Definition validate (c : VmConfig) : result arg_error unit :=
  if negb (bool_decide (is_Some (c_vsock_cid c) <-> is_Some (c_vsock_uds c))) then RErr VsockHalf
  else if (c_cpus c =? 0) || (32 <? c_cpus c) then RErr BadCpus
  else if (c_max_cpus c <? c_cpus c) || (8 <? c_max_cpus c) then RErr BadMaxCpus
  else if (c_net_queue_pairs c =? 0) || (NET_MAX_QUEUE_PAIRS <? c_net_queue_pairs c) then RErr BadQueuePairs
  else if c_memory_mib c <? 64 then RErr TooLittleMemory
  else ROk tt.

(** The loop; every turn takes at least one argument. *)
Fixpoint args_loop (fuel : nat) (args : list os_arg) (c : VmConfig) : outcome arg_outcome :=
  match fuel with
  | O => Loop
  | S fuel =>
      match next_arg args with
      | RErr (Returns e) => Ok (Failed e)
      | RErr NotUnicode => Panic
      | ROk None => Ok (match validate c with ROk _ => Parsed c | RErr e => Failed e end)
      | ROk (Some (a, rest)) =>
          if is_help a then Ok HelpExit
          else match arg_step a rest c with
               | ROk (c, rest) => args_loop fuel rest c
               | RErr (Returns e) => Ok (Failed e)
               | RErr NotUnicode => Panic
               end
      end
  end.

(** [skip(1)] takes the program name with [next], so that it is decoded too. *)
Definition from_args (argv : list os_arg) : outcome arg_outcome :=
  match next_arg argv with
  | RErr _ => Panic
  | ROk None => args_loop 1 [] default_config
  | ROk (Some (_, args)) => args_loop (S (length args)) args default_config
  end.

Definition memory_bytes (c : VmConfig) : N := U.mul 64 (U.mul 64 (c_memory_mib c) 1024) 1024.

(** [env] is the value of FLUXVM_NET_QUEUE_PAIRS. *)
Definition effective_net_queue_pairs (env : option rstr) (c : VmConfig) : N :=
  let raw := match env with
             | Some v => default (c_net_queue_pairs c) (parse_dec 8 (trim v))
             | None => c_net_queue_pairs c
             end in
  N.min (N.max raw 1) NET_MAX_QUEUE_PAIRS.

(** ** What an accepted configuration satisfies *)

(** The integer fields are in their machine range. *)
Definition config_typed (c : VmConfig) : Prop :=
  in_u 32 (c_memory_mib c) /\ in_u 8 (c_cpus c) /\ in_u 8 (c_net_queues c) /\ in_u 8 (c_net_queue_pairs c) /\
  in_u 32 (c_net_mbit_limit c) /\ in_u 32 (c_blk_mbit_limit c) /\ in_u 8 (c_max_cpus c) /\
  match c_vsock_cid c with Some n => in_u 32 n | None => True end.

(** What [validate] checks, read off the configuration. *)
Definition config_valid (c : VmConfig) : Prop :=
  (c_vsock_cid c = None <-> c_vsock_uds c = None) /\
  1 <= c_cpus c <= c_max_cpus c /\ c_max_cpus c <= 8 /\
  1 <= c_net_queue_pairs c <= NET_MAX_QUEUE_PAIRS /\ 64 <= c_memory_mib c.

Lemma validate_spec c : validate c = ROk tt <-> config_valid c.
Proof.
  unfold validate, config_valid. change NET_MAX_QUEUE_PAIRS with 4.
  destruct (bool_decide_reflect (is_Some (c_vsock_cid c) <-> is_Some (c_vsock_uds c))) as [Hv|Hv]; cbn [negb].
  2:{ split; [done|]. intros [H _]. destruct Hv. rewrite <- !not_eq_None_Some. tauto. }
  destruct (N.eqb_spec (c_cpus c) 0), (N.ltb_spec 32 (c_cpus c)); cbn [orb]; try (split; [done|lia]).
  destruct (N.ltb_spec (c_max_cpus c) (c_cpus c)), (N.ltb_spec 8 (c_max_cpus c)); cbn [orb]; try (split; [done|lia]).
  destruct (N.eqb_spec (c_net_queue_pairs c) 0), (N.ltb_spec 4 (c_net_queue_pairs c)); cbn [orb]; try (split; [done|lia]).
  destruct (N.ltb_spec (c_memory_mib c) 64); [split; [done|lia]|]. split; [|done]. intros _.
  rewrite <- !not_eq_None_Some in Hv. split; [|lia].
  destruct (c_vsock_cid c), (c_vsock_uds c); naive_solver.
Qed.

Lemma dec_digits_bound w p acc n : acc < 2 ^ w -> dec_digits w p acc = Some n -> n < 2 ^ w.
Proof.
  revert acc. induction p as [|c p IH]; intros acc Ha; cbn [dec_digits]; [by intros [= <-]|].
  destruct (is_digit c); [|done]. destruct (N.ltb_spec (acc * 10 + (c - 48)) (2 ^ w)); [|done]. by apply IH.
Qed.

Lemma parse_dec_bound w p n : parse_dec w p = Some n -> in_u w n.
Proof.
  assert (0 < 2 ^ w) by (apply N.neq_0_lt_0, N.pow_nonzero; lia).
  unfold parse_dec, in_u. destruct p as [|c [|d p]]; [done|by apply dec_digits_bound|].
  destruct (c =? 43); by apply dec_digits_bound.
Qed.

(** The arguments a call has read, all of them Unicode, in front of those left. *)
Definition reads (args rest : list os_arg) : Prop := exists vs : list rstr, args = map Some vs ++ rest.

Lemma reads_refl args : reads args args.
Proof. by exists []. Qed.

Lemma reads_trans l1 l2 l3 : reads l1 l2 -> reads l2 l3 -> reads l1 l3.
Proof. intros [v1 ->] [v2 ->]. exists (v1 ++ v2). by rewrite map_app, app_assoc. Qed.

Lemma reads_cons a rest : reads (Some a :: rest) rest.
Proof. by exists [a]. Qed.

Lemma reads_in x args rest : reads args rest -> x ∈ rest -> x ∈ args.
Proof. intros [vs ->]. set_solver. Qed.

Lemma reads_length args rest : reads args rest -> (length rest <= length args)%nat.
Proof. intros [vs ->]. rewrite length_app. lia. Qed.

Lemma reads_unicode args : reads args [] -> None ∉ args.
Proof. intros [vs ->]. rewrite app_nil_r. intros (v & Hv & _)%list_elem_of_fmap. done. Qed.

(** A flag keeps the configuration typed, and panics only on what it reads. *)
Definition step_ok {A} (P : A -> Prop) (args : list os_arg) (r : result arg_stop (A * list os_arg)) : Prop :=
  match r with
  | ROk (a, rest) => P a /\ reads args rest
  | RErr (Returns _) => True
  | RErr NotUnicode => None ∈ args
  end.

Lemma req_ok flag args : step_ok (fun _ => True) args (req flag args).
Proof. destruct args as [|[v|] args]; cbn; [done|split; [done|apply reads_cons]|set_solver]. Qed.

Lemma parse_next_ok w flag args : step_ok (in_u w) args (parse_next w flag args).
Proof.
  unfold parse_next. pose proof (req_ok flag args) as H. destruct (req flag args) as [[v rest]|[]]; cbn in *; [|done..].
  destruct (parse_dec w v) eqn:E; [|done]. split; [by eapply parse_dec_bound|apply H].
Qed.

Lemma step_bind {A B} (P : A -> Prop) (Q : B -> Prop) args m (f : A -> list os_arg -> result arg_stop (B * list os_arg)) :
  step_ok P args m -> (forall a rest, P a -> step_ok Q rest (f a rest)) ->
  step_ok Q args (let? (a, rest) := m in f a rest).
Proof.
  intros Hm Hf. destruct m as [[a rest]|[]]; cbn in *; [|done..]. destruct Hm as [Ha Hr]. specialize (Hf a rest Ha).
  destruct (f a rest) as [[b rest']|[]]; cbn in *; [|done|by eapply reads_in]. split; [apply Hf|]. by eapply reads_trans, Hf.
Qed.

Lemma step_text a rest (f : rstr -> VmConfig) :
  (forall v, config_typed (f v)) ->
  step_ok config_typed rest (let? (v, rest) := req a rest in ROk (f v, rest)).
Proof. intros H. eapply step_bind; [apply req_ok|]. intros v r _. split; [apply H|apply reads_refl]. Qed.

Lemma step_num w a rest (f : N -> VmConfig) :
  (forall n, in_u w n -> config_typed (f n)) ->
  step_ok config_typed rest (let? (v, rest) := parse_next w a rest in ROk (f v, rest)).
Proof. intros H. eapply step_bind; [apply parse_next_ok|]. intros n r Hn. split; [by apply H|apply reads_refl]. Qed.

Lemma step_flag rest c : config_typed c -> step_ok config_typed rest (ROk (c, rest)).
Proof. split; [done|apply reads_refl]. Qed.

Lemma step_if (b : bool) rest (r1 r2 : result arg_stop (VmConfig * list os_arg)) :
  step_ok config_typed rest r1 -> step_ok config_typed rest r2 -> step_ok config_typed rest (if b then r1 else r2).
Proof. by destruct b. Qed.

Lemma arg_step_ok a rest c : config_typed c -> step_ok config_typed rest (arg_step a rest c).
Proof.
  intros Hc. unfold arg_step.
  repeat apply step_if;
    lazymatch goal with
    | |- step_ok _ _ (RErr _) => exact I
    | |- step_ok _ _ (ROk _) => apply step_flag
    | |- step_ok _ _ (rbind (parse_next _ _ _) _) => apply step_num; intros n Hn
    | |- step_ok _ _ (rbind (req _ _) _) => first [apply step_text; intros v | idtac]
    end; try (destruct Hc as (? & ? & ? & ? & ? & ? & ? & ?); by split_and!).
  - unfold set_cpus_arg. destruct (_ <? _); destruct Hc as (? & ? & ? & ? & ? & ? & ? & ?); by split_and!.
  - eapply step_bind; [apply req_ok|]. intros v r _. repeat case_bool_decide; [| |done]; apply step_flag;
      destruct Hc as (? & ? & ? & ? & ? & ? & ? & ?); by split_and!.
Qed.

(** What reading [args] ends with. *)
Definition args_ok (args : list os_arg) (r : outcome arg_outcome) : Prop :=
  match r with
  | Ok (Parsed c) => config_typed c /\ config_valid c /\ None ∉ args
  | Ok (Failed _) => True
  | Ok HelpExit => exists a, Some a ∈ args /\ is_help a = true
  | Panic => None ∈ args
  | Err _ | Loop => False
  end.

Lemma args_ok_reads args rest r : reads args rest -> args_ok rest r -> args_ok args r.
Proof.
  intros Hr. destruct r as [[c|e|]|e| |]; cbn; [|done| |done|by apply reads_in|done].
  - intros (H1 & H2 & H3). split_and!; [done..|]. destruct Hr as [vs ->].
    intros [(v & Hv & _)%list_elem_of_fmap|Hn]%elem_of_app; done.
  - intros (a & Ha & Hh). exists a. split; [by eapply reads_in|done].
Qed.

Lemma args_loop_spec fuel args c :
  config_typed c -> (length args < fuel)%nat -> args_ok args (args_loop fuel args c).
Proof.
  revert args c. induction fuel as [|fuel IH]; intros args c Hc Hf; [lia|]. cbn [args_loop].
  destruct args as [|[a|] rest]; cbn [next_arg]; [| |cbn; set_solver].
  - destruct (validate c) as [[]|] eqn:E; [|done]. apply validate_spec in E. cbn. set_solver.
  - destruct (is_help a) eqn:Eh; [cbn; exists a; set_solver|]. pose proof (arg_step_ok a rest c Hc) as Hs.
    destruct (arg_step a rest c) as [[c' rest']|[]]; [|done|cbn in *; set_solver]. destruct Hs as [Hc' Hr].
    apply (args_ok_reads _ rest'); [eapply reads_trans, Hr; apply reads_cons|]. apply IH; [done|].
    apply reads_length in Hr. simpl in Hf. lia.
Qed.

Lemma default_typed : config_typed default_config.
Proof. by repeat split. Qed.

(** C38: reading the command line never runs on forever.  It panics only when an
    argument, the program name included, is not valid Unicode; it exits only when
    an argument is [-h] or [--help]; otherwise it returns an error or a
    configuration.  A configuration it returns comes from a command line that is
    Unicode throughout, and has every number in its machine range, one to eight
    vCPUs within the hotplug headroom, one to four queue pairs, at least 64 MiB,
    and vsock either whole or absent. *)
Theorem from_args_valid (argv : list os_arg) :
  match from_args argv with
  | Ok (Parsed c) => config_typed c /\ config_valid c /\ None ∉ argv
  | Ok (Failed _) => True
  | Ok HelpExit => exists a, Some a ∈ argv /\ is_help a = true
  | Panic => None ∈ argv
  | Err _ | Loop => False
  end.
Proof.
  change (args_ok argv (from_args argv)). unfold from_args. destruct argv as [|[a|] args]; cbn [next_arg].
  - apply args_loop_spec; [apply default_typed|]. simpl. lia.
  - apply (args_ok_reads _ args); [apply reads_cons|]. apply args_loop_spec; [apply default_typed|]. lia.
  - cbn. set_solver.
Qed.

(** An argument that is never reached does no harm; one that is panics. *)
Lemma args_non_unicode :
  from_args [Some (bstr "fluxvm"); None] = Panic /\
  from_args [None; Some (bstr "--help")] = Panic /\
  from_args [Some (bstr "fluxvm"); Some (bstr "--help"); None] = Ok HelpExit /\
  from_args [Some (bstr "fluxvm"); Some (bstr "--kernel"); None] = Panic.
Proof. split_and!; vm_compute; reflexivity. Qed.

(** The queue pairs the device is built with are in range whatever the
    environment says. *)
Lemma effective_pairs_bound env c : 1 <= effective_net_queue_pairs env c <= NET_MAX_QUEUE_PAIRS.
Proof. unfold effective_net_queue_pairs. change NET_MAX_QUEUE_PAIRS with 4. lia. Qed.

(** A command line that is accepted, and what it sets. *)
Lemma args_sample :
  from_args (map (fun s => Some (bstr s)) ["fluxvm"; "--cpus"; "4"; "--memory-mib"; "512"; "--shared-dir"; "src=/src";
                                           "--shared-dir"; "/data"; "--vsock-cid"; "3"; "--vsock-uds"; "/run/v"]%string) =
  Ok (Parsed (set_vsock_uds (Some (bstr "/run/v")) (set_vsock_cid (Some 3)
       (set_shared_dirs [(bstr "src", bstr "/src"); (bstr "fs1", bstr "/data")]
          (set_memory_mib 512 (set_max_cpus 4 (set_cpus 4 default_config))))))).
Proof. vm_compute. reflexivity. Qed.
