(* ===== verification/VmBus.v ===== *)
(** * Assembling a machine's devices

    What [VirtualMachine::from_boot_config] ([vm.rs]) does with the
    configuration before memory is loaded: the kernel command line (with
    [append_virtio_mmio_cmdline] of [boot.rs]) and the device bus.  What the
    host gives (the size of the disk image, event descriptors, the clock) is an
    argument. *)

From stdpp Require Import prelude list strings.
From Stdlib Require Import NArith Lia.
From S2P Require Import Prelude RustStr GuestMemory VirtioMmio Bus Serial Cmos VirtioNet MpTable Acpi Pci VmConfig.

Definition MMIO_BLK_WINDOW : u64 := MMIO_WINDOW + MMIO_LEN.
Definition MMIO_VSOCK_WINDOW : u64 := MMIO_WINDOW + MMIO_LEN * 2.
Definition MMIO_BALLOON_WINDOW : u64 := MMIO_WINDOW + MMIO_LEN * 3.
Definition MMIO_RNG_WINDOW : u64 := MMIO_WINDOW + MMIO_LEN * 4.

(** ** The command line *)

(** [format!("{n:x}")] and [format!("{n:08x}")]. *)
Fixpoint hex_fuel (fuel : nat) (n : N) : rstr :=
  match fuel with
  | O => []
  | S fuel => if n <? 16 then [hex_lower n] else hex_fuel fuel (n / 16) ++ [hex_lower (n mod 16)]
  end.

Definition to_hex (n : N) : rstr := hex_fuel (S (N.to_nat (N.size n))) n.
Definition to_hex08 (n : N) : rstr := let s := to_hex n in repeat 48 (8 - length s) ++ s.

Definition window_mark (base : N) : rstr := bstr "@0x" ++ to_hex base ++ bstr ":".

Definition device_arg (base len irq : N) : rstr :=
  bstr "virtio_mmio.device=0x" ++ to_hex len ++ bstr "@0x" ++ to_hex base ++ bstr ":" ++ to_decimal irq.

Definition advertised (cmd : rstr) (base : N) : bool :=
  contains_str (window_mark base) cmd || contains_str (bstr "@0x" ++ to_hex08 base ++ bstr ":") cmd ||
  contains_str (window_mark base) cmd.

Definition append_device (cmd : rstr) (dev : N * N * N) : rstr :=
  let '(base, len, irq) := dev in
  if advertised cmd base then cmd
  else cmd ++ (if bool_decide (cmd = []) then [] else [32]) ++ device_arg base len irq.

Definition append_virtio_mmio_cmdline (cmdline : rstr) (devices : list (N * N * N)) : rstr :=
  fold_left append_device devices (trim cmdline).

(** The windows announced to the kernel. *)
Definition boot_mmio_devs (c : VmConfig) : list (N * N * N) :=
  [(MMIO_WINDOW, MMIO_LEN, 5)] ++
  (match c_disk c with Some _ => [(MMIO_BLK_WINDOW, MMIO_LEN, 6)] | None => [] end) ++
  (match c_vsock_cid c, c_vsock_uds c with
   | Some _, Some _ => [(MMIO_VSOCK_WINDOW, MMIO_LEN, 7)]
   | _, _ => []
   end) ++
  (if c_balloon c then [(MMIO_BALLOON_WINDOW, MMIO_LEN, 8)] else []) ++
  (if c_rng c then [(MMIO_RNG_WINDOW, MMIO_LEN, 9)] else []).

Definition has_token (prefix cmd : rstr) : bool := existsb (starts_with prefix) (split_whitespace cmd).

(** Add a word, with a blank unless the line is empty or ends in one. *)
Definition push_word (w cmd : rstr) : rstr :=
  cmd ++ (if bool_decide (cmd = []) || bool_decide (last cmd = Some 32) then [] else [32]) ++ w.

Definition boot_cmdline (c : VmConfig) : rstr :=
  let cmd := append_virtio_mmio_cmdline (c_cmdline c) (boot_mmio_devs c) in
  let cmd := if negb (c_pci c) && negb (has_token (bstr "pci=") cmd) then push_word (bstr "pci=off") cmd else cmd in
  if (c_cpus c <? c_max_cpus c) && negb (has_token (bstr "maxcpus=") cmd)
  then push_word (bstr "maxcpus=" ++ to_decimal (c_cpus c)) cmd else cmd.

(** ** The bus *)

(** What the host supplies: the disk image's sectors and whether it is read
    only, the interrupt descriptor of each device, the state of vhost-net and
    the environment. *)
Record Host := MkHost {
  h_disk : N * bool;
  h_evt : option N;
  h_vhost_env : bool;
  h_pairs_env : option rstr
}.

Definition net_pairs (h : Host) (c : VmConfig) : u16 :=
  let pairs := effective_net_queue_pairs (h_pairs_env h) c in
  if (1 <? pairs) && negb ((c_vhost_net c && h_vhost_env h) && bool_decide (is_Some (c_tap c))) then 1 else pairs.

Definition mac_of (c : VmConfig) : bytes :=
  match parse_mac (as_bytes (c_mac c)) with Ok m => m | _ => [0x02; 0; 0; 0; 0; 2] end.

(** The virtio-mmio devices, in the order they are registered. *)
Definition virtio_devs (h : Host) (c : VmConfig) : outcome (list VirtioMmio) :=
  let net := [net_mq MMIO_WINDOW (mac_of c) (net_pairs h c) (h_evt h)] in
  let blk := match c_disk c with
             | Some _ => [block MMIO_BLK_WINDOW (h_disk h).1 (h_disk h).2 (h_evt h)]
             | None => []
             end in
  let tail := (if c_balloon c then [balloon MMIO_BALLOON_WINDOW 8 (h_evt h)] else []) ++
              (if c_rng c then [rng MMIO_RNG_WINDOW 9 (h_evt h)] else []) in
  match c_vsock_cid c, c_vsock_uds c with
  | Some cid, Some _ => Ok (net ++ blk ++ [vsock MMIO_VSOCK_WINDOW cid 7 (h_evt h)] ++ tail)
  | None, None => Ok (net ++ blk ++ tail)
  | _, _ => Err Device
  end.

Definition pci_devs (c : VmConfig) : outcome (list DynMmio) :=
  if c_pci c then
    match new_ecam with
    | Ok e => Ok [dyn_mmio _ _ e; dyn_mmio _ _ new_msix]
    | Err e => Err e
    | Panic => Panic
    | Loop => Loop
    end
  else Ok [].

Definition boot_bus (h : Host) (now : u64) (c : VmConfig) : outcome Bus :=
  match pci_devs c, virtio_devs h c with
  | Ok ps, Ok vs =>
      Ok (fold_left (fun b d => add_mmio d b) (ps ++ map (dyn_mmio _ _) vs)
            (add_pio (dyn_pio _ (Cmos_pio now) new_cmos)
               (add_pio (dyn_pio _ _ (com1 (bool_decide (is_Some (h_evt h))))) new_bus)))
  | Ok _, e => match e with Err x => Err x | Panic => Panic | _ => Loop end
  | Err e, _ => Err e
  | Panic, _ => Panic
  | Loop, _ => Loop
  end.

(** ** The windows *)

Definition window_of (d : VirtioMmio) : N * N * N := (base d, size d, VirtioMmio.irq (state d)).

Lemma fold_add_mmio ds b : mmio (fold_left (fun b d => add_mmio d b) ds b) = mmio b ++ ds /\
  pio (fold_left (fun b d => add_mmio d b) ds b) = pio b.
Proof.
  revert b. induction ds as [|d ds IH]; intros b; [by rewrite app_nil_r|]. simpl. destruct (IH (add_mmio d b)) as [-> ->].
  simpl. by rewrite <- app_assoc.
Qed.

Lemma net_mq_window m p e : window_of (net_mq MMIO_WINDOW m p e) = (MMIO_WINDOW, MMIO_LEN, 5).
Proof. unfold net_mq. by destruct (_ <=? 1). Qed.

Lemma virtio_devs_valid h c :
  config_valid c -> exists vs, virtio_devs h c = Ok vs /\ map window_of vs = boot_mmio_devs c.
Proof.
  intros (Hv & _). unfold virtio_devs, boot_mmio_devs.
  destruct (c_vsock_cid c), (c_vsock_uds c); try (exfalso; naive_solver); eexists; (split; [done|]);
    cbn [app map]; rewrite net_mq_window; f_equal;
    destruct (c_disk c), (c_balloon c), (c_rng c); reflexivity.
Qed.

Lemma pci_devs_ok c :
  exists ps, pci_devs c = Ok ps /\
    map mmio_span ps = if c_pci c then [(PCI_MMCONFIG_START, PCI_MMCONFIG_START + PCI_MMCONFIG_SIZE - 1);
                                        (MMIO_WINDOW + 0x800, MMIO_WINDOW + 0x9ff)] else [].
Proof.
  unfold pci_devs. destruct (c_pci c); [|by exists []]. rewrite new_ecam_ok. eexists. split; [done|]. reflexivity.
Qed.

Lemma virtio_span d : size d = MMIO_LEN -> base d < 2 ^ 32 -> mmio_span (dyn_mmio _ _ d) = (base d, base d + 0x1ff).
Proof.
  intros Hs Hb. change (2 ^ 32) with 4294967296 in Hb.
  cbn [mmio_span mmio_range VirtioMmio_device]. rewrite Hs. unfold MMIO_LEN, U.sub, U.add, U.wrap.
  change (2 ^ 64) with 18446744073709551616.
  rewrite (N.mod_small (base d + 0x200)) by lia. f_equal. 
  replace (base d + 0x200 + (18446744073709551616 - 1)) with (base d + 0x1ff + 1 * 18446744073709551616) by lia.
  rewrite N.Div0.mod_add. apply N.mod_small. lia.
Qed.

(** Inclusive ranges that do not meet, decided pairwise. *)
Definition meet (a b : N * N) : bool := (a.1 <=? b.2) && (b.1 <=? a.2).

Fixpoint disjoint_spans (l : list (N * N)) : bool :=
  match l with [] => true | a :: l => forallb (fun b => negb (meet a b)) l && disjoint_spans l end.

Lemma meet_spec a b x : Bus.contains a x = true -> Bus.contains b x = true -> meet a b = true.
Proof. unfold Bus.contains, meet. rewrite !andb_true_iff, !N.leb_le. lia. Qed.

Lemma disjoint_spans_apart {D} (span : D -> N * N) ds : disjoint_spans (map span ds) = true -> apart span ds.
Proof.
  assert (forall ds i j d e x, (i < j)%nat -> disjoint_spans (map span ds) = true -> ds !! i = Some d -> ds !! j = Some e ->
    Bus.contains (span d) x = true -> Bus.contains (span e) x = true -> False) as Hlt.
  { clear ds. induction ds as [|a ds IH]; intros i j d e x Hij Hdis Hi Hj Hd He; [done|].
    cbn [map disjoint_spans] in Hdis. apply andb_true_iff in Hdis as [Hall Hdis].
    destruct j as [|j]; [lia|]. destruct i as [|i]; simpl in Hi, Hj.
    - injection Hi as ->. rewrite forallb_forall in Hall.
      specialize (Hall (span e)). rewrite (meet_spec _ _ _ Hd He) in Hall.
      discriminate Hall. apply in_map, list_elem_of_In. by eapply list_elem_of_lookup_2.
    - eapply (IH i j); eauto. lia. }
  intros Hdis i j d e x Hij Hi Hj Hd. apply not_true_iff_false. intros He.
  destruct (Nat.lt_total i j) as [Hl|[?|Hl]]; [by eapply Hlt|done|by eapply (Hlt ds j i)].
Qed.

(** The spans of the whole bus. *)
Definition boot_spans (c : VmConfig) : list (N * N) :=
  (if c_pci c then [(PCI_MMCONFIG_START, PCI_MMCONFIG_START + PCI_MMCONFIG_SIZE - 1);
                    (MMIO_WINDOW + 0x800, MMIO_WINDOW + 0x9ff)] else []) ++
  map (fun w => (w.1.1, w.1.1 + 0x1ff)) (boot_mmio_devs c).

Lemma boot_mmio_devs_range c w : w ∈ boot_mmio_devs c -> w.1.2 = MMIO_LEN /\ w.1.1 < 2 ^ 32.
Proof.
  unfold boot_mmio_devs. rewrite !elem_of_app. intros [H|[H|[H|[H|H]]]];
    [|destruct (c_disk c)|destruct (c_vsock_cid c), (c_vsock_uds c)|destruct (c_balloon c)|destruct (c_rng c)];
    try (by apply elem_of_nil in H); apply list_elem_of_singleton in H as ->; by split.
Qed.

Lemma boot_mmio_devs_window c w : w ∈ boot_mmio_devs c -> MMIO_WINDOW <= w.1.1 <= MMIO_WINDOW + 0x800.
Proof.
  unfold boot_mmio_devs, MMIO_RNG_WINDOW, MMIO_BALLOON_WINDOW, MMIO_VSOCK_WINDOW, MMIO_BLK_WINDOW, MMIO_WINDOW, MMIO_LEN.
  rewrite !elem_of_app. intros [H|[H|[H|[H|H]]]];
    [|destruct (c_disk c)|destruct (c_vsock_cid c), (c_vsock_uds c)|destruct (c_balloon c)|destruct (c_rng c)];
    try (by apply elem_of_nil in H); apply list_elem_of_singleton in H as ->; cbn [fst]; lia.
Qed.

Lemma boot_bus_spans h now c :
  config_valid c -> exists b, boot_bus h now c = Ok b /\ map mmio_span (mmio b) = boot_spans c.
Proof.
  intros Hc. unfold boot_bus. destruct (pci_devs_ok c) as (ps & -> & Hps).
  destruct (virtio_devs_valid h c Hc) as (vs & -> & Hvs). eexists. split; [done|].
  destruct (fold_add_mmio (ps ++ map (dyn_mmio _ VirtioMmio_device) vs)
    (add_pio (dyn_pio _ (Cmos_pio now) new_cmos) (add_pio (dyn_pio _ Serial_pio (com1 (bool_decide (is_Some (h_evt h))))) new_bus)))
    as [-> _]. cbn [mmio add_pio new_bus app].
  rewrite map_app, Hps. unfold boot_spans. f_equal. rewrite <- Hvs, !map_map. apply map_ext_in.
  intros d Hd. assert (window_of d ∈ boot_mmio_devs c) as Hw by (rewrite <- Hvs; by apply list_elem_of_In, in_map).
  destruct (boot_mmio_devs_range c _ Hw). by apply virtio_span.
Qed.

(** The windows of the virtio devices lie on bus 255 of the ECAM range. *)
Lemma window_in_ecam x :
  MMIO_WINDOW <= x < MMIO_WINDOW + 0xa00 -> exists dev func reg, bdf_offset x = Some (255, dev, func, reg).
Proof.
  intros Hx. unfold bdf_offset.
  assert (PCI_MMCONFIG_START = 0xeec00000) as -> by reflexivity.
  assert (PCI_MMCONFIG_SIZE = 0x10000000) as -> by reflexivity. unfold MMIO_WINDOW in Hx.
  destruct (N.ltb_spec x 0xeec00000); [lia|]. destruct (N.leb_spec 0x10000000 (x - 0xeec00000)); [lia|].
  rewrite N.shiftr_div_pow2. change (2 ^ 20) with 1048576.
  assert ((x - 0xeec00000) / 1048576 = 255) as -> by dlia. by do 3 eexists.
Qed.

Lemma ecam_ignores_window x data p :
  MMIO_WINDOW <= x < MMIO_WINDOW + 0xa00 ->
  ecam_write x data p = (Ok tt, p) /\ ecam_read x data p = (Ok (fill 0xff data), p).
Proof.
  intros Hx. destruct (window_in_ecam x Hx) as (dev & func & reg & E). unfold ecam_write, ecam_read. by rewrite E.
Qed.

Lemma boot_bus_pci_first h now c b :
  c_pci c = true -> boot_bus h now c = Ok b ->
  exists ds, mmio b = dyn_mmio _ PciEcam_device (MkEcam PCI_MMCONFIG_START PCI_MMCONFIG_SIZE new_cfg) :: ds.
Proof.
  intros Hp. unfold boot_bus, pci_devs. rewrite Hp, new_ecam_ok. destruct (virtio_devs h c) as [vs| | |]; try done.
  intros [= <-]. edestruct (fold_add_mmio) as [E _]. rewrite E. by eexists.
Qed.

Lemma span_contains_window x :
  MMIO_WINDOW <= x < MMIO_WINDOW + 0xa00 ->
  Bus.contains (mmio_span (dyn_mmio _ PciEcam_device (MkEcam PCI_MMCONFIG_START PCI_MMCONFIG_SIZE new_cfg))) x = true.
Proof.
  intros Hx. unfold Bus.contains, MMIO_WINDOW in *.
  change (mmio_span _) with (0xeec00000, 0xfebfffff). cbn [fst snd]. rewrite andb_true_iff, !N.leb_le. lia.
Qed.

(** The MSI-X table and the virtio-rng device claim the same addresses. *)
Lemma msix_overlaps_rng evt :
  mmio_span (dyn_mmio _ _ new_msix) = mmio_span (dyn_mmio _ _ (rng MMIO_RNG_WINDOW 9 evt)).
Proof. reflexivity. Qed.

(** ** Announcing the windows *)

Lemma advertised_spec cmd b : advertised cmd b = true <->
  contains_str (window_mark b) cmd = true \/ contains_str (bstr "@0x" ++ to_hex08 b ++ bstr ":") cmd = true.
Proof. unfold advertised. rewrite !orb_true_iff. tauto. Qed.

Lemma advertised_app cmd t b : advertised cmd b = true -> advertised (cmd ++ t) b = true.
Proof. rewrite !advertised_spec. intros [?|?]; [left|right]; by apply contains_str_app. Qed.

Lemma append_device_keeps cmd d b : advertised cmd b = true -> advertised (append_device cmd d) b = true.
Proof. destruct d as [[b' l] i]. unfold append_device. destruct (advertised cmd b'); [done|]. by apply advertised_app. Qed.

Lemma append_device_marks cmd b l i : advertised (append_device cmd (b, l, i)) b = true.
Proof.
  unfold append_device. destruct (advertised cmd b) eqn:E; [done|]. apply advertised_spec. left.
  apply contains_str_spec. unfold device_arg, window_mark.
  exists (cmd ++ (if bool_decide (cmd = []) then [] else [32]) ++ bstr "virtio_mmio.device=0x" ++ to_hex l), (to_decimal i).
  by rewrite <- !app_assoc.
Qed.

Lemma append_all_marks ds cmd b :
  (advertised cmd b = true \/ exists l i, (b, l, i) ∈ ds) -> advertised (fold_left append_device ds cmd) b = true.
Proof.
  revert cmd. induction ds as [|[[b' l'] i'] ds IH]; intros cmd H.
  - destruct H as [?|(l & i & H)]; [done|]. by apply elem_of_nil in H.
  - cbn [fold_left]. apply IH. destruct H as [?|(l & i & [H|H]%elem_of_cons)]; [by left; apply append_device_keeps| |].
    + injection H as -> -> ->. left. apply append_device_marks.
    + right. eauto.
Qed.

Lemma append_all_id ds cmd :
  (forall b l i, (b, l, i) ∈ ds -> advertised cmd b = true) -> fold_left append_device ds cmd = cmd.
Proof.
  induction ds as [|[[b l] i] ds IH]; intros H; [done|]. cbn [fold_left append_device].
  rewrite (H b l i) by left. apply IH. intros b' l' i' Hin. apply (H b' l' i'). by right.
Qed.

Definition trimmed (s : rstr) : Prop := lead_ok s = true /\ lead_ok (reverse s) = true.

Lemma trimmed_trim s : trimmed s -> trim s = s.
Proof. intros [H1 H2]. unfold trim. rewrite (trim_start_id s), trim_start_id by done. apply reverse_involutive. Qed.

Lemma to_decimal_last n : exists s d, to_decimal n = s ++ [48 + d] /\ d < 10.
Proof.
  unfold to_decimal. generalize (N.to_nat (N.size n)). intros k. cbn [dec_fuel].
  destruct (N.ltb_spec n 10); [by exists [], n|]. exists (dec_fuel k (n / 10)), (n mod 10). split; [done|dlia].
Qed.

Lemma append_device_trimmed cmd d : trimmed cmd -> trimmed (append_device cmd d).
Proof.
  destruct d as [[b l] i]. intros [H1 H2]. unfold append_device. destruct (advertised cmd b); [by split|].
  unfold device_arg. destruct (to_decimal_last i) as (s & d & -> & Hd). split.
  - case_bool_decide as Hc; [by subst|]. by destruct cmd.
  - rewrite !app_assoc, reverse_app. simpl. by destruct (digit_not_space _ (is_digit_of d Hd)) as [-> _].
Qed.

Lemma append_all_trimmed ds cmd : trimmed cmd -> trimmed (fold_left append_device ds cmd).
Proof. revert cmd. induction ds as [|d ds IH]; intros cmd H; [done|]. by apply IH, append_device_trimmed. Qed.

(** After appending, every window of the list is announced on the command
    line, what the line held is kept in front of what was added, and appending
    the same windows again changes nothing. *)
Theorem cmdline_append_idempotent cmdline ds :
  let cmd := append_virtio_mmio_cmdline cmdline ds in
  (forall b l i, (b, l, i) ∈ ds -> advertised cmd b = true) /\
  (exists t, cmd = trim cmdline ++ t) /\
  append_virtio_mmio_cmdline cmd ds = cmd.
Proof.
  intros cmd. unfold append_virtio_mmio_cmdline in cmd.
  assert (forall b l i, (b, l, i) ∈ ds -> advertised cmd b = true) as Ha.
  { intros b l i H. apply append_all_marks. right. eauto. }
  split_and!; [done| |].
  - unfold cmd. clear. generalize (trim cmdline). induction ds as [|[[b l] i] ds IH]; intros c; [exists []; by rewrite app_nil_r|].
    cbn [fold_left]. destruct (IH (append_device c (b, l, i))) as [t ->]. unfold append_device.
    destruct (advertised c b); [by exists t|]. eexists. by rewrite <- app_assoc.
  - unfold append_virtio_mmio_cmdline. rewrite (trimmed_trim cmd).
    + by apply append_all_id.
    + apply append_all_trimmed. apply trim_ends.
Qed.

(** ** The announced arguments *)

(** A line without [@] hides no mark, so what follows it decides. *)
Lemma contains_mark_app m cmd t : 64 ∉ cmd -> contains_str (64 :: m) (cmd ++ t) = contains_str (64 :: m) t.
Proof.
  induction cmd as [|x cmd IH]; intros Hn; [done|]. apply not_elem_of_cons in Hn as [Hx Hn].
  cbn [app contains_str]. rewrite IH by done. unfold starts_with. cbn [strip_prefix]. by rewrite (proj2 (N.eqb_neq _ _) Hx).
Qed.

Lemma advertised_after cmd t b : 64 ∉ cmd -> advertised (cmd ++ t) b = advertised t b.
Proof. intros Hn. unfold advertised, window_mark. change (bstr "@0x") with (64 :: bstr "0x"). cbn [app]. by rewrite !contains_mark_app. Qed.

(** What is appended to a line that is not empty, given what was appended before. *)
Definition append_after (t : rstr) (dev : N * N * N) : rstr :=
  let '(base, len, irq) := dev in if advertised t base then t else t ++ [32] ++ device_arg base len irq.

Lemma append_all_after ds cmd t : 64 ∉ cmd -> cmd <> [] -> fold_left append_device ds (cmd ++ t) = cmd ++ fold_left append_after ds t.
Proof.
  intros Hn Hc. revert t. induction ds as [|[[b l] i] ds IH]; intros t; [done|]. cbn [fold_left]. rewrite <- IH. f_equal.
  unfold append_device, append_after. rewrite advertised_after by done. destruct (advertised t b); [done|].
  rewrite bool_decide_eq_false_2 by (by destruct cmd). by rewrite <- app_assoc.
Qed.

Definition announces (line : rstr) (w : N * N * N) : bool := contains_str (device_arg w.1.1 w.1.2 w.2) line.

Lemma announces_all c : forallb (announces (fold_left append_device (boot_mmio_devs c) [])) (boot_mmio_devs c) = true /\
  forallb (announces (fold_left append_after (boot_mmio_devs c) [])) (boot_mmio_devs c) = true.
Proof.
  unfold boot_mmio_devs. destruct (c_disk c), (c_vsock_cid c), (c_vsock_uds c), (c_balloon c), (c_rng c); split; vm_compute; reflexivity.
Qed.

Lemma trim_sub s x : x ∈ trim s -> x ∈ s.
Proof.
  assert (forall s, x ∈ trim_start s -> x ∈ s) as Hs.
  { induction s0 as [|a s0 IH]; [done|]. cbn [trim_start]. destruct (is_space a); [|done]. intros Hx%IH. by right. }
  unfold trim. rewrite elem_of_reverse. intros Hx%Hs. rewrite elem_of_reverse in Hx. by apply Hs.
Qed.

Lemma announced_line c w : 64 ∉ c_cmdline c -> w ∈ boot_mmio_devs c ->
  announces (append_virtio_mmio_cmdline (c_cmdline c) (boot_mmio_devs c)) w = true.
Proof.
  intros Hn Hw%list_elem_of_In. destruct (announces_all c) as [H1 H2]. unfold append_virtio_mmio_cmdline.
  destruct (decide (trim (c_cmdline c) = [])) as [->|Ht]; [exact (proj1 (forallb_forall _ _) H1 w Hw)|].
  rewrite <- (app_nil_r (trim _)), append_all_after; [|by intros ?%trim_sub|done].
  pose proof (proj1 (forallb_forall _ _) H2 w Hw) as Ha. unfold announces in *. rewrite contains_str_spec in Ha |- *.
  destruct Ha as (a & b & ->). exists (trim (c_cmdline c) ++ a), b. by rewrite <- app_assoc.
Qed.

Lemma boot_cmdline_extends c : exists t, boot_cmdline c = append_virtio_mmio_cmdline (c_cmdline c) (boot_mmio_devs c) ++ t.
Proof.
  assert (forall (b : bool) w cmd, exists t, (if b then push_word w cmd else cmd) = cmd ++ t) as Hw
    by (intros [] w cmd; [by eexists|exists []; by rewrite app_nil_r]).
  unfold boot_cmdline. set (cmd := append_virtio_mmio_cmdline _ _). destruct (Hw (negb (c_pci c) && negb (has_token (bstr "pci=") cmd)) (bstr "pci=off") cmd) as [t ->].
  edestruct Hw as [t' ->]. exists (t ++ t'). by rewrite app_assoc.
Qed.

(** ** The machine *)

Lemma boot_bus_mmio h now c b vs : boot_bus h now c = Ok b -> virtio_devs h c = Ok vs ->
  exists ps, pci_devs c = Ok ps /\ mmio b = ps ++ map (dyn_mmio _ _) vs.
Proof.
  unfold boot_bus. intros E Ev. rewrite Ev in E. destruct (pci_devs c) as [ps| | |]; try done. injection E as <-. exists ps. split; [done|].
  edestruct fold_add_mmio as [-> _]. done.
Qed.

(** What an access to the [i]-th device of a bus without PCI does: the device alone
    answers and changes. *)
Definition answers (b : Bus) (i : nat) (d : VirtioMmio) (x : u64) (data : bytes) : Prop :=
  mmio b !! i = Some (dyn_mmio _ _ d) /\
  mmio_read x data b = (let '(o, d') := dev_mmio_read x data d in (o, put_mmio (<[i := dyn_mmio _ VirtioMmio_device d']> (mmio b)) b)) /\
  mmio_write x data b = (let '(o, d') := dev_mmio_write x data d in (o, put_mmio (<[i := dyn_mmio _ VirtioMmio_device d']> (mmio b)) b)).

(** C16: for every valid configuration the bus is built and every virtio device sits in
    exactly the window (base, length, interrupt) listed for the kernel.  The command line
    the guest boots with names the window of every device, and, where the configured line
    holds no [@], announces each with its length and interrupt.  Without PCI every device
    is on the bus and answers, alone, every load and store in its window.  With PCI none
    does: the configuration window, registered first, covers all virtio windows, so every
    store to them is dropped and every load reads all ones. *)
Theorem boot_bus_layout h now c (H : config_valid c) :
  exists b vs, boot_bus h now c = Ok b /\ virtio_devs h c = Ok vs /\ map window_of vs = boot_mmio_devs c /\
  (forall d, d ∈ vs -> advertised (boot_cmdline c) (base d) = true /\
     (64 ∉ c_cmdline c -> contains_str (device_arg (base d) (size d) (VirtioMmio.irq (state d))) (boot_cmdline c) = true)) /\
  if c_pci c then
    forall d x data, d ∈ vs -> Bus.contains (mmio_span (dyn_mmio _ _ d)) x = true ->
      mmio_write x data b = (Ok tt, b) /\ mmio_read x data b = (Ok (fill 0xff data), b)
  else forall i d x data, vs !! i = Some d -> Bus.contains (mmio_span (dyn_mmio _ _ d)) x = true -> answers b i d x data.
Proof.
  destruct (boot_bus_spans h now c H) as (b & Eb & Hs). destruct (virtio_devs_valid h c H) as (vs & Ev & Hv).
  exists b, vs. assert (forall d, d ∈ vs -> window_of d ∈ boot_mmio_devs c) as Hw
    by (intros d Hd; rewrite <- Hv; by apply list_elem_of_In, in_map, list_elem_of_In).
  split_and!; try done.
  { intros d Hd%Hw. destruct (boot_cmdline_extends c) as [t ->]. split.
    - apply advertised_app. unfold append_virtio_mmio_cmdline. apply append_all_marks. right. by do 2 eexists.
    - intros Hn. apply contains_str_app. by apply (announced_line c (window_of d)). }
  destruct (c_pci c) eqn:Hp.
  - intros d x data Hd%Hw Hx.
    assert (MMIO_WINDOW <= x < MMIO_WINDOW + 0xa00) as Hr.
    { destruct (boot_mmio_devs_range c _ Hd) as [Hl Hb].
      rewrite virtio_span in Hx by done. unfold Bus.contains in Hx. cbn [fst snd] in Hx.
      rewrite andb_true_iff, !N.leb_le in Hx. pose proof (boot_mmio_devs_window c _ Hd) as Hw2. cbn [fst window_of] in Hw2. lia. }
    destruct (boot_bus_pci_first h now c b Hp Eb) as [ds Hds].
    unfold mmio_write, mmio_read, on_mmio, zoom. rewrite Hds. cbn [dispatch].
    rewrite span_contains_window by done. unfold mmio_run. cbn [dev_mmio_write dev_mmio_read PciEcam_device].
    destruct (ecam_ignores_window x data (MkEcam PCI_MMCONFIG_START PCI_MMCONFIG_SIZE new_cfg) Hr) as [-> ->].
    rewrite <- Hds. by destruct b.
  - assert (apart mmio_span (mmio b)) as Hap.
    { apply disjoint_spans_apart. rewrite Hs. unfold boot_spans, boot_mmio_devs. rewrite Hp.
      destruct (c_disk c), (c_vsock_cid c), (c_vsock_uds c), (c_balloon c), (c_rng c); vm_compute; reflexivity. }
    intros i d x data Hd Hx. destruct (boot_bus_mmio h now c b vs Eb Ev) as (ps & Eps & Hm).
    unfold pci_devs in Eps. rewrite Hp in Eps. injection Eps as <-. cbn [app] in Hm.
    assert (mmio b !! i = Some (dyn_mmio _ VirtioMmio_device d)) as Hi by (rewrite Hm; etransitivity; [apply list_lookup_fmap|by rewrite Hd]).
    split; [done|]. split.
    + destruct (dispatch_routes mmio_span x (mmio_run (fun D _ => dev_mmio_read x data)) (Ok (fill 0xff data)) mmio put_mmio b Hap ltac:(by destruct b)) as [Hr _].
      etransitivity; [apply (Hr i _ Hi Hx)|]. unfold mmio_run. by destruct (dev_mmio_read x data d).
    + destruct (dispatch_routes mmio_span x (mmio_run (fun D _ => dev_mmio_write x data)) (Err Device) mmio put_mmio b Hap ltac:(by destruct b)) as [Hr _].
      etransitivity; [apply (Hr i _ Hi Hx)|]. unfold mmio_run. by destruct (dev_mmio_write x data d).
Qed.

Definition host1 : Host := MkHost (64, false) (Some 0) true None.
Definition config1 : VmConfig := set_pci true (set_disk (Some (bstr "/d")) default_config).
Definition config2 : VmConfig := set_pci false (set_disk (Some (bstr "/d")) default_config).

Lemma config1_valid : config_valid config1.
Proof. apply validate_spec. vm_compute. reflexivity. Qed.

Lemma config2_valid : config_valid config2.
Proof. apply validate_spec. vm_compute. reflexivity. Qed.

Lemma boot_bus_layout_witness :
  (exists b, boot_bus host1 0 config1 = Ok b /\ mmio_read MMIO_WINDOW [0; 0; 0; 0] b = (Ok [0xff; 0xff; 0xff; 0xff], b)) /\
  (exists b d, boot_bus host1 0 config2 = Ok b /\ answers b 1 d MMIO_BLK_WINDOW [0; 0; 0; 0]).
Proof.
  split.
  - destruct (boot_bus_layout host1 0 config1 config1_valid) as (b & vs & Eb & Ev & _ & _ & H). exists b. split; [exact Eb|].
    eapply (H (net_mq MMIO_WINDOW (mac_of config1) (net_pairs host1 config1) (h_evt host1)) MMIO_WINDOW [0; 0; 0; 0]).
    + injection Ev as <-. left.
    + vm_compute. reflexivity.
  - destruct (boot_bus_layout host1 0 config2 config2_valid) as (b & vs & Eb & Ev & _ & _ & H). injection Ev as <-.
    eexists b, _. split; [exact Eb|]. eapply (H 1%nat); [reflexivity|vm_compute; reflexivity].
Defined.
