(* ===== verification/Qcow2.v ===== *)
(** * Converting qcow2 images

    [fluxvm-image/src/qcow2.rs]: the two-level walk that turns a standalone
    qcow2 image into a raw one.  A file is its bytes; the deflate and zstd
    decoders are a parameter.  The reference is the format's own account of
    what a guest reads at an offset ([guest_byte]), written with divisions and
    bit tests instead of the masks of the code. *)

From stdpp Require Import prelude list.
From Stdlib Require Import NArith Lia.
From S2P Require Import Prelude RustStr.

Definition MAGIC : bytes := [81; 70; 73; 0xfb].
Definition OFFSET_MASK : u64 := 0x00fffffffffffe00.
Definition COMPRESSED : u64 := N.shiftl 1 62.
Definition ZERO : u64 := 1.
Definition KNOWN_INCOMPATIBLE : u64 := 9.
Definition MAX_L1_BYTES : u64 := 64 * 1024 * 1024.

Inductive Compression := Deflate | Zstd.

Inductive qcow_error :=
| TruncatedHeader
| TruncatedV3
| L1TooSmall
| L1Outside
| L2Outside (i : N)
| CompressedOutside (guest : N)
| Inflate
| DataOutside (guest : N).

(** [ConvertResult], with what the target file then holds. *)
Inductive convert_result := Converted (raw : bytes) | Unsupported.

(** [u32::from_be_bytes(b[at..at + 4])]; the buffer is the whole header. *)
Definition u32be (b : bytes) (at_ : nat) : u32 := from_be (slice at_ 4 b).
Definition u64be (b : bytes) (at_ : nat) : u64 := from_be (slice at_ 8 b).

Section Convert.

(** A decoder's [read_exact] into a buffer of the given length. *)
Context (decompress : Compression -> bytes -> N -> option bytes).

Record Header := MkHeader {
  version : N;
  cluster_bits : N;
  disk_size : N;
  l1_size : N;
  l1_offset : N;
  compression : Compression
}.

(** The header: what the first 112 bytes say, or that the image is not one of
    those that are converted. *)
Definition parse_header (f : bytes) : result qcow_error (option Header) :=
  let n := N.min 112 (lenN f) in
  let header := take 112 f ++ repeat 0 (112 - length f) in
  if (n <? 72) || negb (bool_decide (take 4 header = MAGIC)) then RErr TruncatedHeader
  else
    let version := u32be header 4 in
    let backing_offset := u64be header 8 in
    let cluster_bits := u32be header 20 in
    let size := u64be header 24 in
    let crypt := u32be header 32 in
    let l1_size := u32be header 36 in
    let l1_offset := u64be header 40 in
    let finish compression :=
      if negb ((version =? 2) || (version =? 3)) || negb (backing_offset =? 0) || negb (crypt =? 0) ||
         negb ((9 <=? cluster_bits) && (cluster_bits <=? 21))
      then ROk None
      else ROk (Some (MkHeader version cluster_bits size l1_size l1_offset compression)) in
    if version =? 3 then
      if n <? 104 then RErr TruncatedV3
      else
        let incompatible := u64be header 72 in
        if negb (N.land incompatible (U.not 64 KNOWN_INCOMPATIBLE) =? 0) then ROk None
        else
          let header_len := u32be header 100 in
          if negb (N.land incompatible 8 =? 0) && (104 <? header_len) && (104 <? n) then
            let c := default 0 (header !! 104%nat) in
            if c =? 0 then finish Deflate else if c =? 1 then finish Zstd else ROk None
          else finish Deflate
    else finish Deflate.

Section Walk.
Context (f : bytes) (h : Header).

Definition file_len : N := lenN f.
Definition cluster : N := N.shiftl 1 (cluster_bits h).
Definition l2_entries : N := cluster / 8.

(** [div_ceil] *)
Definition needed_l1 : N :=
  let d := cluster * l2_entries in
  disk_size h / d + (if disk_size h mod d =? 0 then 0 else 1).

Definition in_file (off len : N) : bool :=
  match U.checked_add 64 off len with Some e => e <=? file_len | None => false end.

Definition read_at (off : N) (len : N) : bytes := slice (N.to_nat off) (N.to_nat len) f.

(** The big-endian words of a table ([as_chunks::<8>]). *)
Fixpoint words (n : nat) (b : bytes) : list N :=
  match n with O => [] | S n => from_be (take 8 b) :: words n (drop 8 b) end.

Definition csize_shift : N := 62 - (cluster_bits h - 8).
Definition coffset_mask : N := N.shiftl 1 csize_shift - 1.

(** What an L2 entry gives for the cluster at [guest]: nothing to write, the
    first [len] bytes of [data], or an error. *)
Definition cluster_data (e guest len : N) : result qcow_error (option bytes) :=
  if negb (N.land e COMPRESSED =? 0) then
    let host := N.land e coffset_mask in
    let sectors := N.shiftr (N.land (N.land e (U.not 64 COMPRESSED)) (N.shiftl 1 62 - 1)) csize_shift in
    let span := N.min ((sectors + 1) * 512 - N.land host 511) (file_len - host) in
    if (span =? 0) || (file_len <=? host) then RErr (CompressedOutside guest)
    else match decompress (compression h) (read_at host span) cluster with
         | Some d => ROk (Some (take (N.to_nat len) d))
         | None => RErr Inflate
         end
  else
    let host := N.land e OFFSET_MASK in
    if negb (N.land e ZERO =? 0) || (host =? 0) then ROk None
    else if negb (in_file host len) then RErr (DataOutside guest)
    else ROk (Some (read_at host len)).

(** [write_all_at], unless the bytes are all zero. *)
Definition write_sparse (guest : N) (d out : bytes) : bytes :=
  if existsb (fun b => negb (b =? 0)) d then splice (N.to_nat guest) d out else out.

(** The inner loop, from entry [j] of L2 table [i]. *)
Fixpoint l2_loop (i j : N) (es : list N) (out : bytes) : result qcow_error bytes :=
  match es with
  | [] => ROk out
  | e :: es =>
      let guest := (i * l2_entries + j) * cluster in
      if disk_size h <=? guest then ROk out
      else
        let len := N.min cluster (disk_size h - guest) in
        match cluster_data e guest len with
        | RErr x => RErr x
        | ROk None => l2_loop i (j + 1) es out
        | ROk (Some d) => l2_loop i (j + 1) es (write_sparse guest d out)
        end
  end.

(** The outer loop, from entry [i] of the L1 table. *)
Fixpoint l1_loop (i : N) (entries : list N) (out : bytes) : result qcow_error bytes :=
  match entries with
  | [] => ROk out
  | entry :: entries =>
      let l2_offset := N.land entry OFFSET_MASK in
      if l2_offset =? 0 then l1_loop (i + 1) entries out
      else if negb (in_file l2_offset cluster) then RErr (L2Outside i)
      else
        let? out := l2_loop i 0 (words (N.to_nat l2_entries) (read_at l2_offset cluster)) out in
        l1_loop (i + 1) entries out
  end.

Definition convert_body : result qcow_error bytes :=
  if (l1_size h <? needed_l1) || (MAX_L1_BYTES <? l1_size h * 8) then RErr L1TooSmall
  else if negb (in_file (l1_offset h) (needed_l1 * 8)) then RErr L1Outside
  else l1_loop 0 (words (N.to_nat needed_l1) (read_at (l1_offset h) (needed_l1 * 8)))
         (repeat 0 (N.to_nat (disk_size h))).

(** ** What the format says a guest reads *)

(** Bits 9 to 55 of a table entry: an offset in the file. *)
Definition offset_field (e : N) : N := e mod 2 ^ 56 / 512 * 512.

Definition word_at (off : N) : N := from_be (read_at off 8).

(** The L2 entry of a cluster of the disk, if its L2 table is allocated. *)
Definition l2_entry (c : N) : option N :=
  let t := offset_field (word_at (l1_offset h + 8 * (c / l2_entries))) in
  if t =? 0 then None else Some (word_at (t + 8 * (c mod l2_entries))).

(** The bytes of the file a compressed cluster is packed in. *)
Definition packed_bytes (e : N) : bytes :=
  let host := e mod 2 ^ csize_shift in
  let sectors := e mod 2 ^ 62 / 2 ^ csize_shift in
  let last := host / 512 * 512 + (sectors + 1) * 512 in
  read_at host (N.min last file_len - host).

Definition guest_byte (off : N) : N :=
  match l2_entry (off / cluster) with
  | None => 0
  | Some e =>
      if N.testbit e 62 then
        match decompress (compression h) (packed_bytes e) cluster with
        | Some d => default 0 (d !! N.to_nat (off mod cluster))
        | None => 0
        end
      else if N.testbit e 0 || (offset_field e =? 0) then 0
      else default 0 (f !! N.to_nat (offset_field e + off mod cluster))
  end.

End Walk.

Definition convert_to_raw (f : bytes) : result qcow_error convert_result :=
  let? h := parse_header f in
  match h with
  | None => ROk Unsupported
  | Some h => let? raw := convert_body f h in ROk (Converted raw)
  end.

(** [lia] with quotients and remainders as unknowns. *)
Ltac qlia :=
  repeat match goal with
    | |- context [?a / ?b] => let q := fresh "q" in set (q := a / b) in *; clearbody q
    | |- context [?a mod ?b] => let q := fresh "q" in set (q := a mod b) in *; clearbody q
    | H : context [?a / ?b] |- _ => let q := fresh "q" in set (q := a / b) in *; clearbody q
    | H : context [?a mod ?b] |- _ => let q := fresh "q" in set (q := a mod b) in *; clearbody q
    end; lia.

(** ** Masks as divisions *)

Lemma land_pow2 e k : N.land e (N.shiftl 1 k) =? 0 = negb (N.testbit e k).
Proof.
  rewrite N.shiftl_1_l. destruct (N.testbit e k) eqn:E; simpl.
  - apply N.eqb_neq. intros H. assert (N.testbit (N.land e (2 ^ k)) k = true) as Ht
      by (rewrite N.land_spec, E, N.pow2_bits_true; done). by rewrite H in Ht.
  - apply N.eqb_eq, N.bits_inj_0. intros n. rewrite N.land_spec.
    destruct (N.eq_dec k n) as [<- |Hn]; [by rewrite E|]. rewrite N.pow2_bits_false by done. apply andb_false_r.
Qed.

Lemma land_offset_mask e : N.land e OFFSET_MASK = offset_field e.
Proof.
  unfold offset_field. change OFFSET_MASK with (N.shiftl (N.ones 47) 9).
  rewrite <- N.land_ones. change 512 with (2 ^ 9). rewrite <- N.shiftr_div_pow2, <- N.shiftl_mul_pow2.
  apply N.bits_inj. intros n. rewrite N.land_spec. destruct (N.lt_ge_cases n 9) as [Hn|Hn].
  - rewrite !N.shiftl_spec_low by done. apply andb_false_r.
  - rewrite !N.shiftl_spec_high', N.shiftr_spec', N.land_spec by done. replace (n - 9 + 9) with n by lia. f_equal.
    destruct (N.lt_ge_cases n 56); [rewrite !N.ones_spec_low by lia; done|rewrite !N.ones_spec_high by lia; done].
Qed.

Lemma land_packed e x :
  x <= 62 ->
  N.shiftr (N.land (N.land e (U.not 64 COMPRESSED)) (N.shiftl 1 62 - 1)) x = e mod 2 ^ 62 / 2 ^ x.
Proof.
  intros Hx. rewrite N.shiftr_div_pow2. f_equal.
  change (N.shiftl 1 62 - 1) with (N.ones 62). rewrite N.land_ones.
  rewrite <- (N.land_ones e). rewrite <- N.land_ones. rewrite <- N.land_assoc. f_equal.
Qed.

Lemma coffset_mask_spec h e : N.land e (coffset_mask h) = e mod 2 ^ csize_shift h.
Proof.
  unfold coffset_mask. rewrite N.shiftl_1_l. rewrite <- N.land_ones. f_equal. unfold N.ones. rewrite N.shiftl_1_l. lia.
Qed.

(** ** Reading *)

Lemma lookup_repeat {A} (x : A) n i : (i < n)%nat -> repeat x n !! i = Some x.
Proof. revert i. induction n as [|n IH]; intros [|i] H; [lia..|done|]. apply IH. lia. Qed.

Section WalkProofs.
Context (f : bytes) (h : Header).
Hypothesis Hbits : 9 <= cluster_bits h <= 21.

Lemma cluster_pow : cluster h = 8 * l2_entries h /\ 64 <= l2_entries h /\ 512 <= cluster h.
Proof.
  unfold l2_entries, cluster. rewrite N.shiftl_1_l.
  assert (2 ^ cluster_bits h = 512 * 2 ^ (cluster_bits h - 9)) as ->.
  { change 512 with (2 ^ 9). rewrite <- N.pow_add_r. f_equal. lia. }
  assert (1 <= 2 ^ (cluster_bits h - 9)) by (apply N.lt_pred_le; apply N.neq_0_lt_0, N.pow_nonzero; lia).
  split_and!; dlia.
Qed.

Lemma in_file_spec off len : in_file f off len = true -> off + len <= file_len f.
Proof.
  unfold in_file, U.checked_add. destruct (_ <? _); [|done]. apply N.leb_le.
Qed.

Lemma length_read_at off len : off + len <= file_len f -> lenN (read_at f off len) = len.
Proof. unfold read_at, file_len, lenN. intros H. rewrite length_slice; lia. Qed.

Lemma lookup_words n b k : (k < n)%nat -> words n b !! k = Some (from_be (slice (8 * k) 8 b)).
Proof.
  revert b k. induction n as [|n IH]; intros b k Hk; [lia|]. cbn [words]. destruct k as [|k]; [done|].
  cbn [lookup list_lookup]. rewrite IH by lia. unfold slice. rewrite drop_drop.
  replace (8 + 8 * k)%nat with (8 * S k)%nat by lia. done.
Qed.

Lemma length_words n b : length (words n b) = n.
Proof. revert b. induction n as [|n IH]; intros b; simpl; [done|]. by rewrite IH. Qed.

(** A word of a table that lies in the file is the word at its offset. *)
Lemma words_read n off len k :
  (k < n)%nat -> 8 * N.of_nat n <= len -> off + len <= file_len f ->
  words n (read_at f off len) !! k = Some (word_at f (off + 8 * N.of_nat k)).
Proof.
  intros Hk Hn Hf. rewrite lookup_words by done. f_equal. unfold word_at. f_equal. unfold read_at, file_len, lenN in *.
  apply list_eq. intros i. rewrite !lookup_slice. change (N.to_nat 8) with 8%nat. case_decide; [|done].
  rewrite decide_True by lia. f_equal. lia.
Qed.

(** ** One cluster *)

(** The byte at [r] of a cluster whose L2 entry is [e]. *)
Definition entry_byte (e r : N) : N :=
  if N.testbit e 62 then
    match decompress (compression h) (packed_bytes f h e) (cluster h) with
    | Some d => default 0 (d !! N.to_nat r)
    | None => 0
    end
  else if N.testbit e 0 || (offset_field e =? 0) then 0
  else default 0 (f !! N.to_nat (offset_field e + r)).

Hypothesis Hdec : forall c p n d, decompress c p n = Some d -> lenN d = n.

Lemma packed_spec e :
  let host := N.land e (coffset_mask h) in
  let sectors := N.shiftr (N.land (N.land e (U.not 64 COMPRESSED)) (N.shiftl 1 62 - 1)) (csize_shift h) in
  let span := N.min ((sectors + 1) * 512 - N.land host 511) (file_len f - host) in
  host < file_len f -> read_at f host span = packed_bytes f h e.
Proof.
  cbv zeta. rewrite coffset_mask_spec, land_packed by (unfold csize_shift; lia). intros Hh.
  unfold packed_bytes. set (host := e mod 2 ^ csize_shift h) in *. set (s := e mod 2 ^ 62 / 2 ^ csize_shift h).
  f_equal. change 511 with (N.ones 9). rewrite N.land_ones. change (2 ^ 9) with 512.
  pose proof (N.div_mod host 512 ltac:(done)) as Hd. pose proof (N.mod_lt host 512 ltac:(done)). lia.
Qed.

(** What the loop writes for a cluster, against the entry's bytes. *)
Lemma cluster_data_spec e guest len o :
  cluster_data f h e guest len = ROk o -> len <= cluster h ->
  match o with
  | None => forall r, r < len -> entry_byte e r = 0
  | Some d => lenN d = len /\ forall r, r < len -> d !! N.to_nat r = Some (entry_byte e r)
  end.
Proof.
  unfold cluster_data, entry_byte, COMPRESSED at 1. rewrite land_pow2, negb_involutive. intros H Hlen.
  destruct (N.testbit e 62).
  - destruct (_ || _) eqn:Eo in H; [done|]. apply orb_false_iff in Eo as [_ Ho%N.leb_gt].
    rewrite (packed_spec e Ho) in H. destruct (decompress _ _ _) as [d|] eqn:Ed; [|done]. injection H as <-.
    apply Hdec in Ed. unfold lenN in *. split; [rewrite length_take; lia|]. intros r Hr.
    rewrite lookup_take_lt by lia. destruct (lookup_lt_is_Some_2 d (N.to_nat r)) as [x ->]; [lia|]. done.
  - rewrite land_offset_mask in H. change ZERO with (N.shiftl 1 0) in H. rewrite land_pow2, negb_involutive in H.
    destruct (N.testbit e 0 || (offset_field e =? 0)); [by injection H as <-|].
    destruct (in_file f (offset_field e) len) eqn:Ei; [|done]. apply in_file_spec in Ei. injection H as <-.
    split; [by apply length_read_at|]. intros r Hr. unfold read_at, file_len, lenN in *. rewrite lookup_slice.
    rewrite decide_True by lia. replace (N.to_nat (offset_field e) + N.to_nat r)%nat with (N.to_nat (offset_field e + r)) by lia.
    destruct (lookup_lt_is_Some_2 f (N.to_nat (offset_field e + r))) as [x ->]; [lia|]. done.
Qed.

(** ** The loops *)

Abbreviation size := (disk_size h).

(** [out] is the disk up to cluster [c] and zero from there on. *)
Definition done_to (c : N) (out : bytes) : Prop :=
  lenN out = size /\
  forall off, off < size ->
    out !! N.to_nat off = Some (if off / cluster h <? c then guest_byte f h off else 0).

Lemma write_sparse_lookup guest d (out : bytes) off :
  guest + lenN d <= lenN out ->
  (forall r, r < lenN d -> out !! N.to_nat (guest + r) = Some 0) ->
  lenN (write_sparse guest d out) = lenN out /\
  write_sparse guest d out !! N.to_nat off =
    (if (guest <=? off) && (off <? guest + lenN d) then d !! N.to_nat (off - guest) else out !! N.to_nat off).
Proof.
  intros Hl Hz. unfold write_sparse, lenN in *. destruct (existsb _ d) eqn:E.
  - rewrite length_splice by lia. split; [done|]. rewrite lookup_splice by lia.
    destruct (N.leb_spec guest off), (N.ltb_spec off (guest + N.of_nat (length d))); cbn [andb];
      case_decide; try lia; f_equal; lia.
  - split; [done|]. destruct (N.leb_spec guest off), (N.ltb_spec off (guest + N.of_nat (length d))); cbn [andb]; try done.
    destruct (lookup_lt_is_Some_2 d (N.to_nat (off - guest))) as [x Ex]; [lia|].
    assert (x = 0) as ->.
    { destruct (N.eq_dec x 0) as [|Hx]; [done|]. exfalso. apply not_true_iff_false in E. apply E, existsb_exists.
      exists x. split; [apply list_elem_of_In; by eapply list_elem_of_lookup_2|]. by apply negb_true_iff, N.eqb_neq. }
    rewrite Ex. replace off with (guest + (off - guest)) by lia. apply Hz. lia.
Qed.

Lemma div_in_cluster c off :
  c * cluster h <= off < c * cluster h + cluster h -> off / cluster h = c /\ off mod cluster h = off - c * cluster h.
Proof.
  destruct cluster_pow as (_ & _ & Hc). intros H.
  assert (off = cluster h * c + (off - c * cluster h)) as E by lia.
  split; [symmetry; by apply (N.div_unique off _ c (off - c * cluster h)); lia|].
  symmetry. apply (N.mod_unique off _ c); lia.
Qed.

Lemma div_cluster_iff c off : off / cluster h = c <-> c * cluster h <= off < c * cluster h + cluster h.
Proof.
  destruct cluster_pow as (_ & _ & Hc). split; [|intros H; by apply div_in_cluster].
  intros <-. pose proof (N.div_mod off (cluster h) ltac:(lia)). pose proof (N.mod_lt off (cluster h) ltac:(lia)). qlia.
Qed.

Lemma lt_succ_cluster c off : (off / cluster h <? c + 1) = (off / cluster h <? c) || (off / cluster h =? c).
Proof. destruct (N.ltb_spec (off / cluster h) (c + 1)), (N.ltb_spec (off / cluster h) c), (N.eqb_spec (off / cluster h) c); try done; qlia. Qed.

(** One entry of an L2 table takes the disk from one cluster to the next. *)
Lemma cluster_step c e out o :
  done_to c out -> c * cluster h < size -> l2_entry f h c = Some e ->
  cluster_data f h e (c * cluster h) (N.min (cluster h) (size - c * cluster h)) = ROk o ->
  done_to (c + 1) (match o with Some d => write_sparse (c * cluster h) d out | None => out end).
Proof.
  intros [Hl Hd] Hc He Ho. set (len := N.min (cluster h) (size - c * cluster h)) in *.
  assert (forall off, off < size -> off / cluster h = c ->
    guest_byte f h off = entry_byte e (off - c * cluster h) /\ off - c * cluster h < len) as Hg.
  { intros off Hs Hoff. unfold guest_byte. rewrite Hoff, He.
    apply div_cluster_iff in Hoff as Hr. destruct (div_in_cluster c off Hr) as [_ ->]. split; [done|]. lia. }
  apply cluster_data_spec in Ho; [|lia]. destruct o as [d|].
  - destruct Ho as [Hdl Hdb].
    assert (forall r, r < lenN d -> out !! N.to_nat (c * cluster h + r) = Some 0) as Hz.
    { intros r Hr. rewrite Hd by lia. destruct (div_in_cluster c (c * cluster h + r)) as [-> _]; [lia|]. by rewrite N.ltb_irrefl. }
    assert (c * cluster h + lenN d <= lenN out) as Hfit by lia.
    split; [by rewrite (proj1 (write_sparse_lookup _ d out 0 Hfit Hz))|]. intros off Hs.
    rewrite (proj2 (write_sparse_lookup _ d out off Hfit Hz)), lt_succ_cluster, Hdl.
    destruct (N.eqb_spec (off / cluster h) c) as [Hoff|Hoff].
    + destruct (Hg off Hs Hoff) as [-> Hr]. apply div_cluster_iff in Hoff.
      destruct (N.leb_spec (c * cluster h) off), (N.ltb_spec off (c * cluster h + len)); cbn [andb]; try lia.
      rewrite orb_true_r. by apply Hdb.
    + rewrite orb_false_r. rewrite div_cluster_iff in Hoff.
      destruct (N.leb_spec (c * cluster h) off), (N.ltb_spec off (c * cluster h + len)); cbn [andb]; try by apply Hd.
      exfalso. apply Hoff. lia.
  - split; [done|]. intros off Hs. rewrite Hd, lt_succ_cluster by done.
    destruct (N.eqb_spec (off / cluster h) c) as [Hoff|Hoff]; [|by rewrite orb_false_r].
    destruct (Hg off Hs Hoff) as [-> Hr]. rewrite orb_true_r, Ho by done. by destruct (_ <? _).
Qed.

Lemma done_beyond c c' out : done_to c out -> size <= c * cluster h -> c <= c' -> done_to c' out.
Proof.
  destruct cluster_pow as (_ & _ & Hcl). intros [Hl Hd] Hc Hle. split; [done|]. intros off Hs. rewrite Hd by done.
  assert (off / cluster h < c) by (apply N.div_lt_upper_bound; lia).
  by destruct (N.ltb_spec (off / cluster h) c), (N.ltb_spec (off / cluster h) c'); try qlia.
Qed.

(** The inner loop does the rest of its table. *)
Lemma l2_loop_spec i j es out out' :
  done_to (i * l2_entries h + j) out ->
  (forall k e, es !! k = Some e -> l2_entry f h (i * l2_entries h + (j + N.of_nat k)) = Some e) ->
  l2_loop f h i j es out = ROk out' -> done_to (i * l2_entries h + (j + lenN es)) out'.
Proof.
  revert j out. induction es as [|e es IH]; intros j out Hd Hes; cbn [l2_loop].
  - intros [= <-]. by rewrite N.add_0_r.
  - destruct (N.leb_spec (disk_size h) ((i * l2_entries h + j) * cluster h)).
    + intros [= <-]. eapply done_beyond; [done|lia|lia].
    + destruct (cluster_data f h e _ _) as [o|] eqn:Ec; [|done]. intros H'.
      assert (l2_entry f h (i * l2_entries h + j) = Some e) as He
        by (rewrite <- (N.add_0_r j); by apply (Hes 0%nat)).
      pose proof (cluster_step _ e out o Hd ltac:(lia) He Ec) as Hd'.
      replace (j + lenN (e :: es)) with (j + 1 + lenN es) by (unfold lenN; simpl; lia).
      assert (forall k x, es !! k = Some x -> l2_entry f h (i * l2_entries h + (j + 1 + N.of_nat k)) = Some x) as Hes'.
      { intros k x Hk. replace (j + 1 + N.of_nat k) with (j + N.of_nat (S k)) by lia. by apply Hes. }
      rewrite <- N.add_assoc in Hd'. destruct o as [d|]; by eapply IH.
Qed.

(** A missing L2 table is a run of zeros. *)
Lemma done_hole i out :
  done_to (i * l2_entries h) out ->
  offset_field (word_at f (l1_offset h + 8 * i)) = 0 -> done_to ((i + 1) * l2_entries h) out.
Proof.
  destruct cluster_pow as (Hcl & Hl2 & _). intros [Hl Hd] Hz. split; [done|]. intros off Hs. rewrite Hd by done.
  destruct (N.ltb_spec (off / cluster h) (i * l2_entries h)), (N.ltb_spec (off / cluster h) ((i + 1) * l2_entries h));
    try done; [lia|]. unfold guest_byte, l2_entry.
  assert (off / cluster h / l2_entries h = i) as ->.
  { symmetry. apply (N.div_unique _ _ i (off / cluster h - i * l2_entries h)); lia. }
  by rewrite Hz.
Qed.

Lemma l1_loop_spec i entries out out' :
  done_to (i * l2_entries h) out ->
  (forall k e, entries !! k = Some e -> e = word_at f (l1_offset h + 8 * (i + N.of_nat k))) ->
  l1_loop f h i entries out = ROk out' -> done_to ((i + lenN entries) * l2_entries h) out'.
Proof.
  destruct cluster_pow as (Hcl & Hl2 & _).
  revert i out. induction entries as [|e entries IH]; intros i out Hd Hes; cbn [l1_loop].
  { intros [= <-]. by rewrite N.add_0_r. }
  assert (e = word_at f (l1_offset h + 8 * i)) as He by (rewrite <- (N.add_0_r i); by apply (Hes 0%nat)).
  assert (forall k x, entries !! k = Some x -> x = word_at f (l1_offset h + 8 * (i + 1 + N.of_nat k))) as Hes'.
  { intros k x Hk. replace (i + 1 + N.of_nat k) with (i + N.of_nat (S k)) by lia. by apply Hes. }
  replace (i + lenN (e :: entries)) with (i + 1 + lenN entries) by (unfold lenN; simpl; lia).
  rewrite land_offset_mask. destruct (N.eqb_spec (offset_field e) 0) as [Hz|Hz].
  - apply IH; [|done]. apply done_hole; [done|]. by rewrite <- He.
  - destruct (in_file f (offset_field e) (cluster h)) eqn:Ei; [|done]. apply in_file_spec in Ei. cbn [negb].
    destruct (l2_loop f h i 0 _ out) as [out1|] eqn:E2; [|done]. cbn [rbind]. apply IH; [|done].
    apply l2_loop_spec in E2.
    + rewrite N.add_0_l in E2. unfold lenN in E2. rewrite length_words, N2Nat.id in E2.
      by replace ((i + 1) * l2_entries h) with (i * l2_entries h + l2_entries h) by lia.
    + by rewrite N.add_0_r.
    + intros k x Hk. pose proof (lookup_lt_Some _ _ _ Hk) as Hlt. rewrite length_words in Hlt.
      rewrite words_read in Hk by lia. injection Hk as <-. unfold l2_entry.
      assert ((i * l2_entries h + (0 + N.of_nat k)) / l2_entries h = i) as ->.
      { symmetry. apply (N.div_unique _ _ i (N.of_nat k)); lia. }
      assert ((i * l2_entries h + (0 + N.of_nat k)) mod l2_entries h = N.of_nat k) as ->.
      { symmetry. apply (N.mod_unique _ _ i); lia. }
      rewrite <- He. by apply N.eqb_neq in Hz as ->.
Qed.

Lemma needed_covers : size <= needed_l1 h * l2_entries h * cluster h.
Proof.
  destruct cluster_pow as (Hcl & Hl2 & Hc). unfold needed_l1. set (d := cluster h * l2_entries h).
  assert (d <> 0) as Hd0 by (unfold d; nia). pose proof (N.div_mod size d Hd0). pose proof (N.mod_lt size d Hd0).
  replace ((size / d + (if size mod d =? 0 then 0 else 1)) * l2_entries h * cluster h)
    with ((size / d + (if size mod d =? 0 then 0 else 1)) * d) by (unfold d; lia).
  destruct (N.eqb_spec (size mod d) 0); nia.
Qed.

Lemma convert_body_spec raw :
  convert_body f h = ROk raw -> lenN raw = size /\ forall off, off < size -> raw !! N.to_nat off = Some (guest_byte f h off).
Proof.
  destruct cluster_pow as (Hcl & Hl2 & Hc).
  unfold convert_body. destruct (_ || _); [done|].
  destruct (in_file f (l1_offset h) (needed_l1 h * 8)) eqn:Ei; [|done]. apply in_file_spec in Ei. cbn [negb]. intros E.
  assert (done_to 0 (repeat 0 (N.to_nat size))) as H0.
  { split; [unfold lenN; rewrite repeat_length; lia|]. intros off Hs.
    destruct (N.ltb_spec (off / cluster h) 0); [qlia|]. apply lookup_repeat. lia. }
  apply (l1_loop_spec 0) in E; [|by rewrite N.mul_0_l|].
  - destruct E as [Hl Hd]. split; [done|]. intros off Hs. rewrite Hd by done.
    unfold lenN. rewrite length_words, N2Nat.id. pose proof needed_covers.
    assert (off / cluster h < (0 + needed_l1 h) * l2_entries h) by (apply N.div_lt_upper_bound; nia).
    by destruct (N.ltb_spec (off / cluster h) ((0 + needed_l1 h) * l2_entries h)); [|qlia].
  - intros k e Hk. pose proof (lookup_lt_Some _ _ _ Hk) as Hlt. rewrite length_words in Hlt.
    rewrite words_read in Hk by lia. by injection Hk as <-.
Qed.

End WalkProofs.

Lemma parse_header_bits f hd : parse_header f = ROk (Some hd) -> 9 <= cluster_bits hd <= 21 /\ (version hd = 2 \/ version hd = 3).
Proof.
  unfold parse_header. set (header := take 112 f ++ _). set (n := N.min _ _). cbv zeta.
  set (v := u32be header 4). set (cb := u32be header 20).
  assert (forall c, (if negb ((v =? 2) || (v =? 3)) || negb (u64be header 8 =? 0) || negb (u32be header 32 =? 0) ||
         negb ((9 <=? cb) && (cb <=? 21)) then ROk None
      else ROk (Some (MkHeader v cb (u64be header 24) (u32be header 36) (u64be header 40) c))) =
      (ROk (Some hd) : result qcow_error (option Header)) ->
      9 <= cluster_bits hd <= 21 /\ (version hd = 2 \/ version hd = 3)) as Hfin.
  { intros c. destruct ((v =? 2) || (v =? 3)) eqn:Ev; cbn [negb orb]; [|done].
    destruct (negb (u64be header 8 =? 0)); cbn [orb]; [done|]. destruct (negb (u32be header 32 =? 0)); cbn [orb]; [done|].
    destruct ((9 <=? cb) && (cb <=? 21)) eqn:Eb; cbn [negb]; [|done]. intros [= <-]. cbn [cluster_bits version].
    rewrite orb_true_iff, !N.eqb_eq in Ev. rewrite andb_true_iff, !N.leb_le in Eb. done. }
  destruct ((n <? 72) || _); [done|]. destruct (v =? 3); [|apply Hfin]. destruct (n <? 104); [done|].
  destruct (negb (N.land (u64be header 72) _ =? 0)); [done|].
  destruct (_ && (104 <? u32be header 100) && _); [|apply Hfin].
  destruct (default 0 (header !! 104%nat) =? 0); [apply Hfin|].
  destruct (default 0 (header !! 104%nat) =? 1); [apply Hfin|done].
Qed.

End Convert.

(** C11: A conversion that succeeds is right: the raw file has the size of the
    virtual disk, and every byte of it is what the format's two-level lookup
    gives the guest at that offset, compressed, zero and unallocated clusters
    included.  The decoders are only asked to fill the buffer they are given. *)
Theorem qcow2_convert_refines (decompress : Compression -> bytes -> N -> option bytes)
  (Hdec : forall c p n d, decompress c p n = Some d -> lenN d = n) f raw
  (H : convert_to_raw decompress f = ROk (Converted raw)) :
  exists h, parse_header f = ROk (Some h) /\ lenN raw = disk_size h /\
    forall off, off < disk_size h -> raw !! N.to_nat off = Some (guest_byte decompress f h off).
Proof.
  unfold convert_to_raw in H. destruct (parse_header f) as [[h|]|] eqn:Eh; try done. cbn [rbind] in H.
  destruct (convert_body decompress f h) as [r|] eqn:Eb; [|done]. injection H as <-. exists h. split; [done|].
  destruct (parse_header_bits f h Eh) as [Hb _]. by eapply convert_body_spec.
Qed.

(** A stored block as the decoder, and an image with a data, a zero and a
    packed cluster of 512 bytes. *)
Definition stored (c : Compression) (p : bytes) (n : N) : option bytes :=
  if lenN p <? n then None else Some (take (N.to_nat n) p).

Definition be_bytes (n : nat) (v : N) : bytes := reverse (le_bytes n v).

Definition image1 : bytes :=
  MAGIC ++ be_bytes 4 2 ++ be_bytes 8 0 ++ be_bytes 4 0 ++ be_bytes 4 9 ++ be_bytes 8 1100 ++ be_bytes 4 0 ++
  be_bytes 4 1 ++ be_bytes 8 512 ++ repeat 0 464 ++
  be_bytes 8 1024 ++ repeat 0 504 ++
  be_bytes 8 1536 ++ be_bytes 8 1 ++ be_bytes 8 (COMPRESSED + 1536) ++ repeat 0 488 ++
  repeat 7 512.

Lemma stored_fills c p n d : stored c p n = Some d -> lenN d = n.
Proof.
  unfold stored. destruct (N.ltb_spec (lenN p) n) as [|H]; [done|]. intros [= <-].
  unfold lenN in *. rewrite length_take. lia.
Qed.

Definition raw1 : bytes :=
  match convert_to_raw stored image1 with ROk (Converted r) => r | _ => [] end.

Lemma qcow2_convert_refines_witness :
  raw1 = repeat 7 512 ++ repeat 0 512 ++ repeat 7 76 /\
  exists h, parse_header image1 = ROk (Some h) /\ lenN raw1 = disk_size h /\
    forall off, off < disk_size h -> raw1 !! N.to_nat off = Some (guest_byte stored image1 h off).
Proof.
  split; [vm_compute; reflexivity|].
  apply (qcow2_convert_refines stored stored_fills image1 raw1). vm_compute. reflexivity.
Defined.
