(* ===== verification/Idempotency.v ===== *)
(** * The idempotency store

    [fluxvm-scheduler/src/idempotency.rs]: responses kept for replay under the
    hash of tenant, route and key.  SHA-256 and base64 are parameters.  The
    directory is a map from file names to contents ([content]: blank, a record,
    or bytes that are not one), with the modification time of a stray
    temporary file; a removal may fail.  Times are seconds, as [i64]. *)

From stdpp Require Import prelude list gmap strings.
From Stdlib Require Import NArith ZArith Lia.
From S2P Require Import Prelude RustStr Quota VmStore.

Definition TTL_SECS : Z := 24 * 60 * 60.

(** [i64] subtraction, wrapping. *)
Definition i64_sub (a b : Z) : Z := ((a - b + 2 ^ 63) mod 2 ^ 64 - 2 ^ 63)%Z.

Record Stored := MkStored {
  created_at : Z;
  s_fingerprint : rstr;
  s_status : N;
  content_type : option rstr;
  body_b64 : rstr
}.

#[global] Instance Stored_eq_dec : EqDecision Stored.
Proof. solve_decision. Defined.

Inductive Lookup := Miss | Replay (s : Stored) | Conflict.

Definition is_hexdigit (c : N) : bool :=
  is_digit c || ((65 <=? c) && (c <=? 70)) || ((97 <=? c) && (c <=? 102)).

Definition is_hash (s : rstr) : bool := (lenN (as_bytes s) =? 64) && forallb is_hexdigit (as_bytes s).

(** What the digest is fed: every part after its length. *)
Definition preimage (parts : list bytes) : bytes :=
  flat_map (fun p => le_bytes 8 (lenN p) ++ p) parts.

Section Hashes.
Context (sha256 : bytes -> bytes) (b64_encode : bytes -> rstr) (b64_decode : rstr -> option bytes).

Definition key_hash (tenant route key : rstr) : rstr :=
  hex (sha256 (preimage [as_bytes tenant; as_bytes route; as_bytes key])).

Definition fingerprint (method path : rstr) (body : bytes) : rstr :=
  hex (sha256 (preimage [as_bytes method; as_bytes path; body])).

Definition new_stored (now : Z) (fp : rstr) (status : N) (ct : option rstr) (body : bytes) : Stored :=
  MkStored now fp status ct (b64_encode body).

Definition stored_body (s : Stored) : bytes := default [] (b64_decode (body_b64 s)).

End Hashes.

(** ** The directory *)

(** A file: its contents, and its modification time when there is one. *)
Record file := MkFile { f_content : content Stored; f_mtime : option Z }.

Abbreviation store_dir := (gmap rstr file).

Definition json_name (key : rstr) : rstr := key ++ bstr ".json".

(** What is after the last dot ([Path::extension]). *)
Definition extension (name : rstr) : option rstr := snd <$> rsplit_once 46 name.

Definition expired (now : Z) (s : Stored) : bool := (TTL_SECS <=? i64_sub now (created_at s))%Z.

Definition lookup_key (rm_ok : bool) (key fp : rstr) (now : Z) (d : store_dir) : Lookup * store_dir :=
  if negb (is_hash key) then (Miss, d)
  else match d !! json_name key with
       | None => (Miss, d)
       | Some fl =>
           match f_content fl with
           | Json s =>
               if expired now s then (Miss, if rm_ok then delete (json_name key) d else d)
               else if bool_decide (s_fingerprint s = fp) then (Replay s, d) else (Conflict, d)
           | _ => (Miss, d)
           end
       end.

(** [write_durable] replaces the file or fails with it untouched. *)
Definition store (io_ok : bool) (key : rstr) (s : Stored) (d : store_dir) : bool * store_dir :=
  if negb (is_hash key) then (false, d)
  else if io_ok then (true, <[json_name key := MkFile (Json s) None]> d)
  else (false, d).

Definition file_expired (now : Z) (name : rstr) (fl : file) : bool :=
  let ext := extension name in
  if bool_decide (ext = Some (bstr "json")) then
    match f_content fl with Json s => expired now s | _ => true end
  else if bool_decide (ext = Some (bstr "tmp")) then
    match f_mtime fl with Some t => (TTL_SECS <=? i64_sub now t)%Z | None => true end
  else false.

(** [rm_ok] says which removals succeed. *)
Definition purge_expired (rm_ok : rstr -> bool) (now : Z) (d : store_dir) : N * store_dir :=
  let gone name fl := file_expired now name fl && rm_ok name in
  (N.of_nat (stdpp.base.size (filter (fun kv => gone kv.1 kv.2 = true) d)),
   filter (fun kv => gone kv.1 kv.2 = false) d).

Inductive idem_op :=
| OpLookup (rm_ok : bool) (key fp : rstr) (now : Z)
| OpStore (io_ok : bool) (key : rstr) (s : Stored)
| OpPurge (rm_ok : rstr -> bool) (now : Z).

Definition idem_apply (d : store_dir) (op : idem_op) : store_dir :=
  match op with
  | OpLookup rm_ok key fp now => (lookup_key rm_ok key fp now d).2
  | OpStore io_ok key s => (store io_ok key s d).2
  | OpPurge rm_ok now => (purge_expired rm_ok now d).2
  end.

Definition idem_run (ops : list idem_op) (d : store_dir) : store_dir := fold_left idem_apply ops d.

(** ** Keys *)

Lemma preimage_inj ps qs :
  length ps = length qs -> Forall (fun p => in_u 64 (lenN p)) ps -> Forall (fun p => in_u 64 (lenN p)) qs ->
  preimage ps = preimage qs -> ps = qs.
Proof.
  revert qs. induction ps as [|p ps IH]; intros [|q qs] Hl Hp Hq; try done.
  apply Forall_cons in Hp as [Hp Hps]. apply Forall_cons in Hq as [Hq Hqs].
  unfold preimage. cbn [flat_map]. rewrite <- !app_assoc. intros H.
  apply app_inj_1 in H as [H1 H]; [|by rewrite !length_le_bytes].
  apply (f_equal from_le) in H1. rewrite !from_le_bytes_small in H1 by done.
  apply app_inj_1 in H as [-> H]; [|unfold lenN in H1; lia]. f_equal. apply IH; [by injection Hl|done..].
Qed.

Lemma hex_chars bs c : is_bytes bs -> c ∈ hex bs -> is_hexdigit c = true /\ c < 0x80.
Proof.
  intros Hb Hc. unfold hex in Hc. rewrite list_elem_of_In, in_flat_map in Hc. destruct Hc as (b & Hin & Hc).
  unfold is_bytes in Hb. rewrite List.Forall_forall in Hb. specialize (Hb b Hin). unfold in_u in Hb. change (2 ^ 8) with 256 in Hb.
  assert (forall d, d < 16 -> is_hexdigit (hex_lower d) = true /\ hex_lower d < 0x80) as Hd.
  { intros d Hd. unfold is_hexdigit, hex_lower, is_digit. destruct (N.ltb_spec d 10); (split; [|lia]);
      rewrite !orb_true_iff, !andb_true_iff, !N.leb_le; lia. }
  simpl in Hc. destruct Hc as [<- |[<- |[]]]; apply Hd; dlia.
Qed.

Lemma hex_is_hash bs : is_bytes bs -> length bs = 32%nat -> is_hash (hex bs) = true.
Proof.
  intros Hb Hl. unfold is_hash. rewrite as_bytes_ascii.
  - unfold lenN. rewrite length_hex, Hl. apply forallb_forall. intros c Hc. apply (hex_chars bs); [done|by apply list_elem_of_In].
  - apply Forall_forall. intros c Hc. by apply (hex_chars bs).
Qed.

(** Two requests share a stored response only if tenant, route and key are the
    same byte for byte, or two inputs of SHA-256 collide; and every key hash
    is well formed, so it can be stored. *)
Theorem key_hash_scoped (sha256 : bytes -> bytes)
  (Hsha : forall x, is_bytes (sha256 x) /\ length (sha256 x) = 32%nat)
  tenant route key tenant' route' key'
  (Hlen : Forall (fun s => in_u 64 (lenN (as_bytes s))) [tenant; route; key; tenant'; route'; key'])
  (H : key_hash sha256 tenant route key = key_hash sha256 tenant' route' key') :
  is_hash (key_hash sha256 tenant route key) = true /\
  ((as_bytes tenant, as_bytes route, as_bytes key) = (as_bytes tenant', as_bytes route', as_bytes key') \/
   exists x y, x <> y /\ sha256 x = sha256 y).
Proof.
  split; [apply hex_is_hash; apply Hsha|]. unfold key_hash in H. apply hex_inj in H; [|apply Hsha..].
  set (x := preimage [as_bytes tenant; as_bytes route; as_bytes key]) in *.
  set (y := preimage [as_bytes tenant'; as_bytes route'; as_bytes key']) in *.
  destruct (decide (x = y)) as [E|]; [left|right; eauto].
  rewrite !Forall_cons in Hlen. destruct Hlen as (H1 & H2 & H3 & H4 & H5 & H6 & _).
  apply preimage_inj in E; [|done|by repeat constructor..]. by injection E as -> -> ->.
Qed.

(** A stand-in digest: the first 32 bytes, padded. *)
Definition toy_digest (x : bytes) : bytes := map (fun b => b mod 256) (take 32 (x ++ repeat 0 32)).

Lemma key_hash_scoped_witness :
  is_hash (key_hash toy_digest (bstr "acme") (bstr "r") (bstr "k")) = true /\
  ((as_bytes (bstr "acme"), as_bytes (bstr "r"), as_bytes (bstr "k")) =
   (as_bytes (bstr "acme"), as_bytes (bstr "r"), as_bytes (bstr "k")) \/
   exists x y, x <> y /\ toy_digest x = toy_digest y).
Proof.
  apply (key_hash_scoped toy_digest).
  - intros x. split.
    + apply List.Forall_forall. intros b Hb. apply in_map_iff in Hb as (c & <- & _). apply N.mod_lt. discriminate.
    + unfold toy_digest. rewrite length_map, length_take, length_app, repeat_length. lia.
  - repeat constructor.
  - reflexivity.
Defined.

(** ** Replay *)

Lemma json_name_inj a b : json_name a = json_name b -> a = b.
Proof. apply app_inv_tail. Qed.

Definition unix_time (t : Z) : Prop := (0 <= t < 2 ^ 63)%Z.

Lemma i64_sub_unix a b : unix_time a -> unix_time b -> i64_sub a b = (a - b)%Z.
Proof.
  unfold unix_time, i64_sub. intros Ha Hb. rewrite Z.mod_small; [lia|].
  change (2 ^ 64)%Z with (2 * 2 ^ 63)%Z. lia.
Qed.

Lemma expired_spec now s : unix_time now -> unix_time (created_at s) ->
  expired now s = true <-> (created_at s + TTL_SECS <= now)%Z.
Proof. intros H1 H2. unfold expired. rewrite i64_sub_unix, Z.leb_le by done. lia. Qed.

(** The operation leaves a record of [key] that expires at [deadline] alone:
    it does not store under that key and comes before the deadline. *)
Definition before (key : rstr) (deadline : Z) (op : idem_op) : Prop :=
  match op with
  | OpLookup _ _ _ now | OpPurge _ now => unix_time now /\ (now < deadline)%Z
  | OpStore _ key' _ => key' <> key
  end.

Definition holds_record (key : rstr) (s : Stored) (d : store_dir) : Prop :=
  exists t, d !! json_name key = Some (MkFile (Json s) t).

Lemma fresh_not_expired now s :
  unix_time now -> unix_time (created_at s) -> (now < created_at s + TTL_SECS)%Z -> expired now s = false.
Proof. intros H1 H2 H3. apply not_true_iff_false. rewrite expired_spec by done. lia. Qed.

Lemma extension_json key : extension (json_name key) = Some (bstr "json").
Proof.
  unfold extension, rsplit_once, json_name. rewrite reverse_app.
  change (reverse (bstr ".json")) with ([110; 111; 115; 106] ++ [46]). rewrite <- app_assoc.
  change ([46] ++ reverse key) with (46 :: reverse key). rewrite split_once_app; [done|]. set_solver.
Qed.

Lemma idem_apply_keeps (key : rstr) (s : Stored) (op : idem_op) (d : store_dir) :
  unix_time (created_at s) -> before key (created_at s + TTL_SECS) op ->
  holds_record key s d -> holds_record key s (idem_apply d op).
Proof.
  intros Hs Hb [t Ht]. destruct op as [rm_ok k fp now|io_ok k s'|rm_ok now]; simpl in *.
  - destruct Hb as [Hn Hlt]. unfold lookup_key. destruct (negb (is_hash k)); [by exists t|].
    destruct (d !! json_name k) as [fl|] eqn:E; [|by exists t]. destruct (f_content fl) as [|s'|] eqn:Ec; try by exists t.
    destruct (expired now s') eqn:Ee; [|case_bool_decide; by exists t].
    destruct rm_ok; [|by exists t]. exists t. simpl. rewrite lookup_delete_ne; [done|].
    intros Hk%json_name_inj. subst k. rewrite Ht in E. injection E as <-. simpl in Ec. injection Ec as <-.
    rewrite fresh_not_expired in Ee; done.
  - unfold store. destruct (negb (is_hash k)); [by exists t|]. destruct io_ok; [|by exists t]. exists t. simpl.
    rewrite lookup_insert_ne; [done|]. intros Hk%json_name_inj. congruence.
  - destruct Hb as [Hn Hlt]. exists t. unfold purge_expired. simpl. apply map_lookup_filter_Some_2; [done|].
    simpl. unfold file_expired. rewrite extension_json, bool_decide_eq_true_2 by done. simpl.
    by rewrite fresh_not_expired.
Qed.

Lemma idem_run_keeps (key : rstr) (s : Stored) (ops : list idem_op) (d : store_dir) :
  unix_time (created_at s) -> Forall (before key (created_at s + TTL_SECS)) ops ->
  holds_record key s d -> holds_record key s (idem_run ops d).
Proof.
  intros Hs H. revert d. induction H as [|op ops Hop _ IH]; intros d Hd; [done|]. apply IH. by apply idem_apply_keeps.
Qed.

(** A stored response is replayed to every retry of the same request until it
    is a day old, and any other request with that key is a conflict, whatever
    lookups, purges and stores of other keys happen in between; from then on
    the key is a miss. *)
Theorem replay_until_ttl (key : rstr) (s : Stored) (ops : list idem_op) (d : store_dir) (fp : rstr) (now : Z)
  (Hkey : is_hash key = true) (Hs : unix_time (created_at s)) (Hnow : unix_time now)
  (Hops : Forall (before key (created_at s + TTL_SECS)) ops) :
  let d' := idem_run ops (store true key s d).2 in
  (lookup_key true key fp now d').1 =
    if (now <? created_at s + TTL_SECS)%Z then
      (if bool_decide (s_fingerprint s = fp) then Replay s else Conflict)
    else Miss.
Proof.
  intros d'. assert (holds_record key s d') as [t Ht].
  { apply idem_run_keeps; [done|done|]. unfold store. rewrite Hkey. simpl. exists None. apply lookup_insert_eq. }
  unfold lookup_key. rewrite Hkey, Ht. simpl.
  destruct (Z.ltb_spec now (created_at s + TTL_SECS)).
  - rewrite fresh_not_expired by done. by case_bool_decide.
  - rewrite (proj2 (expired_spec now s Hnow Hs)) by lia. done.
Qed.

Definition key1 : rstr := repeat 97 64.
Definition stored1 : Stored := MkStored 1000 (bstr "fp") 201 None (bstr "e30=").

Lemma replay_until_ttl_witness :
  (lookup_key true key1 (bstr "fp") 86000
     (idem_run [OpLookup true key1 (bstr "other") 1500; OpPurge (fun _ => true) 2000] (store true key1 stored1 ∅).2)).1
  = Replay stored1.
Proof.
  rewrite (replay_until_ttl key1 stored1 [OpLookup true key1 (bstr "other") 1500; OpPurge (fun _ => true) 2000] ∅
             (bstr "fp") 86000).
  - reflexivity.
  - vm_compute. reflexivity.
  - split; vm_compute; (reflexivity || discriminate).
  - split; vm_compute; (reflexivity || discriminate).
  - apply Forall_cons. split; [repeat split; vm_compute; (reflexivity || discriminate)|].
    apply Forall_cons. split; [repeat split; vm_compute; (reflexivity || discriminate)|]. constructor.
Defined.
