(* ===== verification/Supervise.v ===== *)
(** * Supervising the container's process

    [fluxvm-oci-init/src/supervise.rs]: the restart policy with its backoff,
    the health state machine, and the console markers the host reads back. *)

From stdpp Require Import prelude list strings.
From Stdlib Require Import NArith ZArith Lia.
From S2P Require Import Prelude RustStr.

Definition RESTART_MARKER : rstr := bstr "FLUXVM-RESTART".
Definition HEALTH_MARKER : rstr := bstr "FLUXVM-HEALTH".

(** Durations in seconds. *)
Definition FIRST_BACKOFF : N := 1.
Definition MAX_BACKOFF : N := 60.

Inductive RestartPolicy := No | OnFailure | Always.

Record HealthCheck := MkCheck {
  command : list rstr;
  interval_seconds : N;
  timeout_seconds : N;
  retries : N;
  start_period_seconds : N
}.

Inductive check_error := EmptyCommand | ZeroField.

Definition validate (c : HealthCheck) : result check_error unit :=
  if match command c with [] => true | a :: _ => bool_decide (a = []) end then RErr EmptyCommand
  else if (interval_seconds c =? 0) || (timeout_seconds c =? 0) || (retries c =? 0) then RErr ZeroField
  else ROk tt.

(** [1u32.checked_shl(s).unwrap_or(u32::MAX)] *)
Definition checked_shl_1 (s : N) : N := if s <? 32 then U.wrap 32 (N.shiftl 1 s) else 2 ^ 32 - 1.

Definition restart_delay (policy : RestartPolicy) (max_restarts : option N) (restarts : N) (exit_code : Z)
    (unhealthy : bool) : option N :=
  let wanted := match policy with
                | No => false
                | OnFailure => negb (exit_code =? 0)%Z || unhealthy
                | Always => true
                end in
  if negb wanted || match max_restarts with Some m => m <=? restarts | None => false end then None
  else
    let factor := checked_shl_1 (N.min restarts 16) in
    Some (N.min (FIRST_BACKOFF * factor) MAX_BACKOFF).

(** ** Health *)

Inductive HealthEvent := Unchanged | Healthy | Unhealthy.

#[global] Instance HealthEvent_eq_dec : EqDecision HealthEvent.
Proof. solve_decision. Defined.

Record HealthState := MkHealth { failures : N; healthy : option bool }.

Definition health_default : HealthState := MkHealth 0 None.

Definition record (ok counts : bool) (retries : N) (s : HealthState) : HealthEvent * HealthState :=
  if ok then
    if negb (bool_decide (healthy s = Some true)) then (Healthy, MkHealth 0 (Some true))
    else (Unchanged, MkHealth 0 (healthy s))
  else if negb counts then (Unchanged, s)
  else
    let f := U.saturating_add 32 (failures s) 1 in
    if (retries <=? f) && negb (bool_decide (healthy s = Some false)) then (Unhealthy, MkHealth f (Some false))
    else (Unchanged, MkHealth f (healthy s)).

Definition reset (s : HealthState) : HealthState := health_default.

(** A run of check results: the events it reports and the final state. *)
Fixpoint record_all (rs : list (bool * bool)) (retries : N) (s : HealthState) : list HealthEvent * HealthState :=
  match rs with
  | [] => ([], s)
  | (ok, counts) :: rs =>
      let '(e, s) := record ok counts retries s in
      let '(es, s) := record_all rs retries s in
      (e :: es, s)
  end.

(** ** Console markers *)

(** [{}] of an [i32]. *)
Definition show_i32 (z : Z) : rstr :=
  if (z <? 0)%Z then 45 :: to_decimal (Z.to_N (- z)) else to_decimal (Z.to_N z).

Definition restart_line (n : N) (exit_code : Z) : rstr :=
  RESTART_MARKER ++ bstr " " ++ to_decimal n ++ bstr " " ++ show_i32 exit_code.

Definition health_line (h : bool) : rstr :=
  HEALTH_MARKER ++ bstr " " ++ (if h then bstr "healthy" else bstr "unhealthy").

(** The [?] chain of [restarts_from_log] on one line. *)
Definition restarts_of_line (l : rstr) : option N :=
  rest ← strip_prefix RESTART_MARKER (trim l);
  w ← head (split_whitespace rest);
  parse_dec 32 w.

Fixpoint find_map {A B} (f : A -> option B) (l : list A) : option B :=
  match l with
  | [] => None
  | x :: l => match f x with Some y => Some y | None => find_map f l end
  end.

Definition restarts_from_log (log : rstr) : N :=
  default 0 (find_map restarts_of_line (reverse (lines log))).

Definition health_of_line (l : rstr) : option rstr :=
  rest ← strip_prefix HEALTH_MARKER (trim l);
  let s := trim rest in
  if bool_decide (s = bstr "healthy") || bool_decide (s = bstr "unhealthy") then Some s else None.

Definition health_from_log (log : rstr) : option rstr := find_map health_of_line (reverse (lines log)).

(** ** Restarts *)

(** The backoff doubles from one second and is capped at a minute. *)
Lemma backoff_value r : checked_shl_1 (N.min r 16) = 2 ^ N.min r 16.
Proof.
  assert (N.min r 16 <= 16) as H by lia. revert H. generalize (N.min r 16). intros k Hk.
  unfold checked_shl_1. destruct (N.ltb_spec k 32); [|lia]. rewrite N.shiftl_1_l. unfold U.wrap. apply N.mod_small.
  apply N.pow_lt_mono_r; lia.
Qed.

(** The restart policy on every input: no restart without one being wanted or
    beyond the limit; otherwise a delay that doubles from one second with each
    restart and stays between one second and a minute, so a process that
    should run is always started again. *)
Theorem restart_delay_spec policy max restarts code unhealthy :
  restart_delay policy max restarts code unhealthy =
    if (match policy with Always => true | OnFailure => negb (code =? 0)%Z || unhealthy | No => false end) &&
       (match max with Some m => restarts <? m | None => true end)
    then Some (if restarts <? 6 then 2 ^ restarts else 60) else None.
Proof.
  unfold restart_delay.
  destruct (match policy with Always => true | OnFailure => negb (code =? 0)%Z || unhealthy | No => false end);
    cbn [negb orb andb]; [|done].
  assert (match max with Some m => m <=? restarts | None => false end =
    negb (match max with Some m => restarts <? m | None => true end)) as ->.
  { destruct max as [m|]; [|done]. destruct (N.leb_spec m restarts), (N.ltb_spec restarts m); done || lia. }
  destruct (match max with Some m => restarts <? m | None => true end); cbn [negb]; [|done].
  f_equal. rewrite backoff_value. unfold FIRST_BACKOFF, MAX_BACKOFF. rewrite N.mul_1_l.
  destruct (N.ltb_spec restarts 6) as [Hr|Hr].
  - rewrite (N.min_l restarts) by lia. apply N.min_l.
    transitivity (2 ^ 5); [apply N.pow_le_mono_r; lia|done].
  - apply N.min_r. transitivity (2 ^ 6); [done|]. apply N.pow_le_mono_r; lia.
Qed.

(** ** Health transitions *)

Definition is_change (e : HealthEvent) : bool := negb (bool_decide (e = Unchanged)).

(** The health a list of events announces, starting from [h]. *)
Fixpoint announced (es : list HealthEvent) (h : option bool) : option bool :=
  match es with
  | [] => h
  | Healthy :: es => announced es (Some true)
  | Unhealthy :: es => announced es (Some false)
  | Unchanged :: es => announced es h
  end.

(** No event announces what was announced before it. *)
Fixpoint alternates (es : list HealthEvent) (h : option bool) : Prop :=
  match es with
  | [] => True
  | Healthy :: es => h <> Some true /\ alternates es (Some true)
  | Unhealthy :: es => h <> Some false /\ alternates es (Some false)
  | Unchanged :: es => alternates es h
  end.

(** The events reported for any run of check results announce the health the
    state machine holds at the end, and every event is a change: healthy is
    never announced twice in a row, nor is unhealthy. *)
Theorem health_events_alternate rs retries s :
  let '(es, s') := record_all rs retries s in
  announced es (healthy s) = healthy s' /\ alternates es (healthy s).
Proof.
  revert s. induction rs as [|[ok counts] rs IH]; intros s; [done|]. cbn [record_all].
  destruct (record ok counts retries s) as [e s1] eqn:E. specialize (IH s1).
  destruct (record_all rs retries s1) as [es s2]. revert IH. unfold record in E.
  destruct ok; [|destruct counts; cbn [negb] in E].
  - destruct (bool_decide_reflect (healthy s = Some true)) as [Hh|Hh]; injection E as <- <-; simpl; [by rewrite Hh|].
    by intros [-> ?].
  - destruct (retries <=? _); [|injection E as <- <-; done]. cbn [andb] in E.
    destruct (bool_decide_reflect (healthy s = Some false)) as [Hh|Hh]; injection E as <- <-; simpl; [done|].
    by intros [-> ?].
  - by injection E as <- <-.
Qed.

(** A counted failure. *)
Lemma record_failure retries s :
  record false true retries s =
    let f := U.saturating_add 32 (failures s) 1 in
    if (retries <=? f) && negb (bool_decide (healthy s = Some false)) then (Unhealthy, MkHealth f (Some false))
    else (Unchanged, MkHealth f (healthy s)).
Proof. done. Qed.

Lemma record_failures_saturating n retries s :
  failures s + N.of_nat n < retries -> retries < 2 ^ 32 -> healthy s <> Some false ->
  record_all (repeat (false, true) n) retries s = (repeat Unchanged n, MkHealth (failures s + N.of_nat n) (healthy s)).
Proof.
  revert s. induction n as [|n IH]; intros s Hn Hr Hh.
  - simpl. rewrite N.add_0_r. by destruct s.
  - cbn [repeat record_all]. rewrite record_failure. cbv zeta.
    assert (U.saturating_add 32 (failures s) 1 = failures s + 1) as ->.
    { unfold U.saturating_add. change (U.max 32) with 4294967295. change (2 ^ 32) with 4294967296 in *. lia. }
    destruct (N.leb_spec retries (failures s + 1)); [lia|]. cbn [andb].
    rewrite IH; cbn [failures healthy]; [|lia|done|done].
    by replace (failures s + 1 + N.of_nat n) with (failures s + N.of_nat (S n)) by lia.
Qed.

(** A process that keeps failing its checks is always found out: from any
    state in which it is not yet reported unhealthy, with [f] failures
    counted, exactly the [retries - f]-th consecutive counted failure reports
    it, and later failures report nothing more. *)
Theorem unhealthy_detected retries s k
  (Hr : failures s < retries) (H32 : retries < 2 ^ 32) (Hh : healthy s <> Some false) :
  exists s',
    record_all (repeat (false, true) (N.to_nat (retries - failures s) + k)) retries s =
      (repeat Unchanged (N.to_nat (retries - failures s) - 1) ++ [Unhealthy] ++ repeat Unchanged k, s') /\
    healthy s' = Some false.
Proof.
  set (n := N.to_nat (retries - failures s)).
  assert (forall rs1 rs2 q, record_all (rs1 ++ rs2) retries q =
    ((record_all rs1 retries q).1 ++ (record_all rs2 retries (record_all rs1 retries q).2).1,
     (record_all rs2 retries (record_all rs1 retries q).2).2)) as Happ.
  { induction rs1 as [|[ok c] rs1 IH]; intros rs2 q; cbn [app record_all]; [simpl; by destruct (record_all rs2 retries q)|].
    destruct (record ok c retries q) as [e q1]. rewrite (IH rs2 q1). destruct (record_all rs1 retries q1). simpl. done. }
  replace (n + k)%nat with ((n - 1) + (1 + k))%nat by lia. rewrite !repeat_app, Happ.
  rewrite record_failures_saturating by (done || lia). cbn [fst snd repeat app].
  cbn [record_all]. rewrite record_failure. cbv zeta. cbn [negb failures healthy].
  assert (U.saturating_add 32 (failures s + N.of_nat (n - 1)) 1 = retries) as ->.
  { unfold U.saturating_add. change (U.max 32) with 4294967295. change (2 ^ 32) with 4294967296 in *. lia. }
  rewrite N.leb_refl, bool_decide_eq_false_2 by done. cbn [negb andb].
  assert (forall q m, healthy q = Some false -> (record_all (repeat (false, true) m) retries q).1 = repeat Unchanged m /\
    healthy (record_all (repeat (false, true) m) retries q).2 = Some false) as Hstay.
  { intros q m. revert q. induction m as [|m IH]; intros q Hq; [done|]. cbn [repeat record_all]. rewrite record_failure. cbv zeta. rewrite (bool_decide_eq_true_2 (healthy q = Some false)) by done. rewrite andb_false_r.
    destruct (IH (MkHealth (U.saturating_add 32 (failures q) 1) (healthy q)) Hq) as [H1 H2].
    destruct (record_all (repeat (false, true) m) retries _). simpl in *. by rewrite H1. }
  destruct (Hstay (MkHealth retries (Some false)) k eq_refl) as [H1 H2].
  destruct (record_all (repeat (false, true) k) retries _) as [es q]. simpl in *. subst es. by exists q.
Qed.

Lemma unhealthy_detected_witness : exists s',
  record_all (repeat (false, true) (N.to_nat (3 - 1) + 2)) 3 (MkHealth 1 (Some true)) =
    (repeat Unchanged (N.to_nat (3 - 1) - 1) ++ [Unhealthy] ++ repeat Unchanged 2, s') /\ healthy s' = Some false.
Proof. apply (unhealthy_detected 3 (MkHealth 1 (Some true)) 2); vm_compute; (reflexivity || discriminate). Defined.

(** ** Reading the console back *)

Lemma split_on_app sep p s cur : split_on sep (p ++ sep :: s) cur = split_on sep p cur ++ split_on sep s [].
Proof.
  revert cur. induction p as [|c p IH]; intros cur; cbn [app split_on]; [by rewrite N.eqb_refl|].
  destruct (c =? sep); [|apply IH]. cbn [app]. by rewrite IH.
Qed.

Lemma line_pieces_end ps l : line_pieces (ps ++ [l; []]) = map strip_cr ps ++ [strip_cr l].
Proof.
  induction ps as [|p ps IH]; [done|]. cbn [app map]. destruct ps as [|q ps]; [done|].
  cbn [app] in *. cbn [line_pieces]. f_equal. exact IH.
Qed.

(** A console log to which [println!] can append: empty, or a whole number of
    lines. *)
Definition whole_lines (log : rstr) : Prop := log = [] \/ exists p, log = p ++ [10].

Lemma lines_println log line :
  whole_lines log -> 10 ∉ line -> last line <> Some 13 -> exists ls, lines (log ++ line ++ [10]) = ls ++ [line].
Proof.
  intros Hlog Hn Hcr. assert (strip_cr line = line) as Hs.
  { unfold strip_cr. destruct (strip_suffix [13] line) as [u|] eqn:E; [|done]. apply strip_suffix_spec in E. subst.
    rewrite last_snoc in Hcr. congruence. }
  unfold lines. destruct Hlog as [-> |[p ->]]; cbn [app].
  - rewrite split_on_nosep by done. exists []. cbn [split_on line_pieces app]. by rewrite Hs.
  - rewrite <- app_assoc. cbn [app]. rewrite split_on_app, split_on_nosep by done. cbn [split_on].
    rewrite line_pieces_end, Hs. by eexists.
Qed.

Lemma find_map_last {A B} (f : A -> option B) l x y : f x = Some y -> find_map f (reverse (l ++ [x])) = Some y.
Proof. intros H. rewrite reverse_app. simpl. by rewrite H. Qed.

Lemma show_i32_end z : exists s d, show_i32 z = s ++ [d] /\ is_digit d = true /\
  Forall (fun c => is_digit c = true \/ c = 45) (show_i32 z).
Proof.
  assert (forall n, exists s d, to_decimal n = s ++ [d] /\ is_digit d = true /\
    Forall (fun c => is_digit c = true \/ c = 45) (to_decimal n)) as H.
  { intros n. destruct (to_decimal_digits n) as [Hd Hne]. destruct (exists_last Hne) as (s & d & E). exists s, d.
    split_and!; [done| |eapply Forall_impl; [done|]; auto].
    rewrite E in Hd. apply Forall_app in Hd as [_ Hd]. by apply Forall_cons in Hd as [? _]. }
  unfold show_i32. destruct (z <? 0)%Z; [|apply H].
  destruct (H (Z.to_N (- z))) as (s & d & -> & Hd & Hf). exists (45 :: s), d. split_and!; [done|done|].
  constructor; [by right|done].
Qed.

Lemma words_from_word w s cur :
  Forall (fun c => is_space c = false) w -> w <> [] \/ cur <> [] ->
  words_from (w ++ 32 :: s) cur = (cur ++ w) :: words_from s [].
Proof.
  revert cur. induction w as [|c w IH]; intros cur Hw Hne; cbn [app words_from].
  - change (is_space 32) with true. cbv iota. rewrite bool_decide_eq_false_2 by naive_solver. by rewrite app_nil_r.
  - apply Forall_cons in Hw as [-> Hw]. rewrite IH; [by rewrite <- app_assoc|done|]. right. by destruct cur.
Qed.

Lemma restarts_of_restart_line n code : in_u 32 n -> restarts_of_line (restart_line n code) = Some n.
Proof.
  intros Hn. unfold restarts_of_line.
  assert (trim (restart_line n code) = restart_line n code) as ->.
  { unfold trim. rewrite (trim_start_id (restart_line n code)) by reflexivity. rewrite trim_start_id; [apply reverse_involutive|].
    unfold restart_line. destruct (show_i32_end code) as (s & d & -> & Hd & _).
    rewrite !app_assoc, reverse_app. simpl. by destruct (digit_not_space d Hd) as [-> _]. }
  unfold restart_line. assert (forall r, strip_prefix RESTART_MARKER (RESTART_MARKER ++ r) = Some r) as ->
    by (intros r; by apply strip_prefix_spec).
  cbn [mbind option_bind]. change (bstr " ") with [32]. unfold split_whitespace. cbn [app words_from].
  change (is_space 32) with true. cbv iota. rewrite bool_decide_eq_true_2 by done. cbn [app].
  destruct (to_decimal_digits n) as [Hd Hne]. rewrite words_from_word; [|eapply Forall_impl; [exact Hd|]; intros c Hc; by apply digit_not_space|by left].
  cbn [app head mbind option_bind]. by apply parse_to_decimal.
Qed.

Lemma restart_line_chars n code : 10 ∉ restart_line n code /\ last (restart_line n code) <> Some 13.
Proof.
  destruct (show_i32_end code) as (s & d & Hs & Hd & Hf). destruct (to_decimal_digits n) as [Hn _]. split.
  - unfold restart_line. change (bstr " ") with [32]. rewrite !elem_of_app. intros [H|[H|[H|[H|H]]]].
    + apply contains_spec in H. vm_compute in H. discriminate H.
    + apply list_elem_of_singleton in H. done.
    + rewrite Forall_forall in Hn. destruct (digit_not_space 10 (Hn _ H)) as (_ & ? & _). done.
    + apply list_elem_of_singleton in H. done.
    + rewrite Forall_forall in Hf. by destruct (Hf _ H).
  - unfold restart_line. rewrite Hs, !app_assoc, last_snoc. intros [= ->]. done.
Qed.

(** What the guest prints the host reads back: after a restart line is printed
    on any console log, the number of restarts read from the log is the one
    printed, and after a health line the health read is the one printed. *)
Theorem console_roundtrip log n code (h : bool) (Hlog : whole_lines log) (Hn : in_u 32 n) :
  restarts_from_log (log ++ restart_line n code ++ [10]) = n /\
  health_from_log (log ++ health_line h ++ [10]) = Some (if h then bstr "healthy" else bstr "unhealthy").
Proof.
  split.
  - destruct (restart_line_chars n code) as [H1 H2]. destruct (lines_println log _ Hlog H1 H2) as [ls E].
    unfold restarts_from_log. rewrite E, (find_map_last _ ls _ n); [done|]. by apply restarts_of_restart_line.
  - assert (10 ∉ health_line h /\ last (health_line h) <> Some 13) as [H1 H2].
    { split; [|by destruct h]. intros H%contains_spec. destruct h; vm_compute in H; discriminate H. }
    destruct (lines_println log _ Hlog H1 H2) as [ls E]. unfold health_from_log. rewrite E. apply find_map_last.
    by destruct h; vm_compute.
Qed.

Lemma console_roundtrip_witness :
  restarts_from_log (bstr "boot" ++ [10] ++ restart_line 3 (-9) ++ [10]) = 3 /\
  health_from_log (bstr "boot" ++ [10] ++ health_line false ++ [10]) = Some (bstr "unhealthy").
Proof.
  change (bstr "boot" ++ [10] ++ ?x) with ((bstr "boot" ++ [10]) ++ x).
  apply (console_roundtrip (bstr "boot" ++ [10]) 3 (-9) false); [right; eexists; reflexivity|vm_compute; reflexivity].
Defined.
