(* ===== verification/Dhcp.v ===== *)
(** * The DHCP client of the guest's init

    [fluxvm-oci-init/src/dhcp.rs]: the DISCOVER and REQUEST packets and the
    parser of server replies.  An IPv4 address is its four octets.  The
    reference is the option list of RFC 2132: [options] reads it, [tlv] writes
    one option. *)

From stdpp Require Import prelude list.
From Stdlib Require Import NArith Lia.
From S2P Require Import Prelude RustStr.

Definition DISCOVER : u8 := 1.
Definition OFFER : u8 := 2.
Definition REQUEST : u8 := 3.
Definition ACK : u8 := 5.
Definition NAK : u8 := 6.
Definition MAGIC : bytes := [99; 130; 83; 99].
Definition FIXED_LEN : nat := 236.

Record Reply := MkReply {
  message_type : u8;
  address : bytes;
  server_id : option bytes;
  netmask : option bytes;
  router : option bytes;
  dns : list bytes;
  lease_seconds : option u32
}.

#[global] Instance Reply_eq_dec : EqDecision Reply.
Proof. solve_decision. Defined.

Fixpoint pop_count (fuel : nat) (n : N) : N :=
  match fuel with O => 0 | S fuel => n mod 2 + pop_count fuel (n / 2) end.

(** [u32::from(m).count_ones()] of the netmask, 24 without one. *)
Definition prefix_len (r : Reply) : N :=
  match netmask r with Some m => pop_count 32 (from_be m) | None => 24 end.

(** ** Building *)

Definition be (n : nat) (v : N) : bytes := reverse (le_bytes n v).

Definition header (xid : u32) (mac : bytes) : bytes :=
  splice 28 mac (splice 10 (be 2 0x8000) (splice 4 (be 4 xid)
    (splice 0 [1; 1; 6] (repeat 0 FIXED_LEN)))) ++ MAGIC.

Definition finish (p : bytes) : bytes :=
  let p := p ++ [55; 5; 1; 3; 6; 12; 51] ++ [255] in
  p ++ repeat 0 (300 - length p).

Definition discover (xid : u32) (mac : bytes) : bytes :=
  finish (header xid mac ++ [53; 1; DISCOVER]).

Definition request (xid : u32) (mac : bytes) (offer : Reply) : bytes :=
  finish (header xid mac ++ [53; 1; REQUEST] ++ [50; 4] ++ address offer ++
          match server_id offer with Some s => [54; 4] ++ s | None => [] end).

(** ** Parsing *)

Fixpoint chunks4 (n : nat) (v : bytes) : list bytes :=
  match n with O => [] | S n => take 4 v :: chunks4 n (drop 4 v) end.

(** The [match (code, len)] of the loop. *)
Definition apply_option (code : u8) (v : bytes) (r : Reply) : Reply :=
  let len := lenN v in
  if (code =? 53) && (len =? 1) then
    MkReply (default 0 (v !! 0%nat)) (address r) (server_id r) (netmask r) (router r) (dns r) (lease_seconds r)
  else if (code =? 1) && (len =? 4) then
    MkReply (message_type r) (address r) (server_id r) (Some (take 4 v)) (router r) (dns r) (lease_seconds r)
  else if (code =? 3) && (4 <=? len) then
    MkReply (message_type r) (address r) (server_id r) (netmask r) (Some (take 4 v)) (dns r) (lease_seconds r)
  else if (code =? 6) && (4 <=? len) then
    MkReply (message_type r) (address r) (server_id r) (netmask r) (router r) (chunks4 (length v / 4) v)
      (lease_seconds r)
  else if (code =? 51) && (len =? 4) then
    MkReply (message_type r) (address r) (server_id r) (netmask r) (router r) (dns r) (Some (from_be (take 4 v)))
  else if (code =? 54) && (len =? 4) then
    MkReply (message_type r) (address r) (Some (take 4 v)) (netmask r) (router r) (dns r) (lease_seconds r)
  else r.

(** The option loop on what is left of the buffer. *)
Fixpoint option_loop (fuel : nat) (b : bytes) (r : Reply) : outcome (option Reply) :=
  match fuel with
  | O => Loop
  | S fuel =>
      match b with
      | [] => Ok (Some r)
      | code :: rest =>
          if code =? 0 then option_loop fuel rest r
          else if code =? 255 then Ok (Some r)
          else match rest with
               | [] => Ok None
               | len :: rest =>
                   if lenN rest <? len then Ok None
                   else option_loop fuel (drop (N.to_nat len) rest)
                          (apply_option code (take (N.to_nat len) rest) r)
               end
      end
  end.

Definition parse (buf : bytes) (xid : u32) (mac : bytes) : outcome (option Reply) :=
  if (length buf <? FIXED_LEN + 4)%nat then Ok None
  else if negb (bool_decide (slice 0 1 buf = [2])) || negb (bool_decide (slice 4 4 buf = be 4 xid)) ||
          negb (bool_decide (slice 28 6 buf = mac)) then Ok None
  else if negb (bool_decide (slice FIXED_LEN 4 buf = MAGIC)) then Ok None
  else
    let r := MkReply 0 (slice 16 4 buf) None None None [] None in
    match option_loop (S (length buf)) (drop (FIXED_LEN + 4) buf) r with
    | Ok (Some r) =>
        Ok (if (message_type r =? OFFER) || (message_type r =? ACK) || (message_type r =? NAK) then Some r else None)
    | o => o
    end.

(** ** The option list *)

Definition tlv (o : u8 * bytes) : bytes := [o.1; lenN o.2] ++ o.2.

(** The options of a packet, up to the end mark or the end of the buffer. *)
Fixpoint options (fuel : nat) (b : bytes) : option (list (u8 * bytes)) :=
  match fuel, b with
  | O, _ | _, [] => Some []
  | S fuel, code :: rest =>
      if code =? 0 then options fuel rest
      else if code =? 255 then Some []
      else match rest with
           | [] => None
           | len :: rest =>
               if lenN rest <? len then None
               else os ← options fuel (drop (N.to_nat len) rest); Some ((code, take (N.to_nat len) rest) :: os)
           end
  end.

Definition apply_all (os : list (u8 * bytes)) (r : Reply) : Reply :=
  fold_left (fun r o => apply_option o.1 o.2 r) os r.

Lemma option_loop_options fuel b r :
  (length b < fuel)%nat -> option_loop fuel b r = Ok ((fun os => apply_all os r) <$> options fuel b).
Proof.
  revert b r. induction fuel as [|fuel IH]; intros b r Hf; [lia|]. cbn [option_loop options].
  destruct b as [|code rest]; [done|]. simpl in Hf. destruct (code =? 0); [apply IH; lia|].
  destruct (code =? 255); [done|]. destruct rest as [|len rest]; [done|]. simpl in Hf.
  destruct (lenN rest <? len); [done|]. rewrite IH by (rewrite length_drop; lia).
  by destruct (options fuel _).
Qed.

Definition option_ok (o : u8 * bytes) : Prop := o.1 <> 0 /\ o.1 <> 255 /\ lenN o.2 < 256.

Lemma options_encode fuel os (rest : bytes) :
  Forall option_ok os -> (length (flat_map tlv os ++ 255%N :: rest) <= fuel)%nat ->
  options fuel (flat_map tlv os ++ 255 :: rest) = Some os.
Proof.
  intros Hos. revert fuel. induction Hos as [|[c v] os (H1 & H2 & H3) _ IH]; intros fuel Hf; cbn [fst snd] in *.
  - destruct fuel; [simpl in Hf; lia|]. done.
  - destruct fuel as [|fuel]; [simpl in Hf; lia|]. cbn [flat_map]. unfold tlv at 1. cbn [fst snd app options].
    rewrite (proj2 (N.eqb_neq c 0) H1), (proj2 (N.eqb_neq c 255) H2).
    assert ((lenN ((v ++ flat_map tlv os) ++ 255 :: rest) <? lenN v) = false) as ->.
    { apply N.ltb_ge. unfold lenN. rewrite !length_app. lia. }
    unfold lenN. rewrite Nat2N.id, <- !app_assoc, drop_app_length, take_app_length.
    rewrite IH; [done|]. cbn [flat_map] in Hf. unfold tlv at 1 in Hf. cbn [fst snd app length] in Hf.
    rewrite !length_app in *. cbn [length] in *. lia.
Qed.

(** ** Properties *)

Definition is_reply_type (t : N) : bool := (t =? OFFER) || (t =? ACK) || (t =? NAK).

(** The packet is a reply to this exchange. *)
Definition addressed (buf : bytes) (xid : N) (mac : bytes) : Prop :=
  (FIXED_LEN + 4 <= length buf)%nat /\ slice 0 1 buf = [2] /\ slice 4 4 buf = be 4 xid /\
  slice 28 6 buf = mac /\ slice FIXED_LEN 4 buf = MAGIC.

Definition blank (buf : bytes) : Reply := MkReply 0 (slice 16 4 buf) None None None [] None.

Instance addressed_dec buf xid mac : Decision (addressed buf xid mac).
Proof. unfold addressed. apply _. Defined.

(** The guards in front of the option loop are exactly [addressed]; the loop and
    the final match read the option list. *)
Lemma parse_guards buf xid mac :
  parse buf xid mac =
  Ok (if decide (addressed buf xid mac)
      then match options (S (length buf)) (drop (FIXED_LEN + 4) buf) with
           | Some os => let r := apply_all os (blank buf) in if is_reply_type (message_type r) then Some r else None
           | None => None
           end
      else None).
Proof.
  unfold parse. destruct (decide _) as [(H & H0 & H1 & H2 & H3)|Hno].
  - rewrite (proj2 (Nat.ltb_ge _ _) H), !bool_decide_true by done. cbn [negb orb].
    rewrite option_loop_options by (rewrite length_drop; lia). fold (blank buf).
    by destruct (options _ _) as [os|].
  - destruct (Nat.ltb_spec (length buf) (FIXED_LEN + 4)) as [?|H]; [done|].
    unfold addressed in Hno. repeat (case_bool_decide; [|done]). by destruct Hno.
Qed.

(** Parsing a packet always ends without a panic, and accepts it exactly when
    it is a reply to this exchange (operation, transaction, hardware address
    and magic) whose option list is well formed and names an OFFER, ACK or
    NAK; the reply is then what the options say, a later option overriding an
    earlier one. *)
Theorem dhcp_parse_spec buf xid mac :
  exists o, parse buf xid mac = Ok o /\
  forall r, o = Some r <->
    addressed buf xid mac /\
    exists os, options (S (length buf)) (drop (FIXED_LEN + 4) buf) = Some os /\
      r = apply_all os (blank buf) /\ is_reply_type (message_type r) = true.
Proof.
  rewrite parse_guards. eexists. split; [reflexivity|]. intros r.
  destruct (decide _) as [Ha|Hn]; [|split; [done|by intros [? _]]].
  destruct (options _ _) as [os|]; [|split; [done|by intros (_ & ? & ? & _)]]. cbv zeta.
  destruct (is_reply_type _) eqn:E; split.
  - intros [= <-]. by eauto.
  - by intros (_ & ? & [= <-] & -> & _).
  - done.
  - intros (_ & ? & [= <-] & -> & ?). congruence.
Qed.

(** A reply as a server sends it. *)
Definition server_packet (xid : N) (mac addr : bytes) (os : list (u8 * bytes)) (pad : bytes) : bytes :=
  splice 28 mac (splice 16 addr (splice 4 (be 4 xid) (splice 0 [2; 1; 6] (repeat 0 FIXED_LEN)))) ++ MAGIC ++
  flat_map tlv os ++ 255 :: pad.

Lemma length_be n v : length (be n v) = n.
Proof. unfold be. by rewrite length_reverse, length_le_bytes. Qed.

Lemma slice_splice_n {A} i n (d l : list A) :
  length d = n -> (i + n <= length l)%nat -> slice i n (splice i d l) = d.
Proof. intros <-. apply slice_splice_same. Qed.

Lemma slice_app_l {A} i n (a b : list A) : (i + n <= length a)%nat -> slice i n (a ++ b) = slice i n a.
Proof. intros H. unfold slice. rewrite drop_app_le, take_app_le; [done|rewrite length_drop; lia|lia]. Qed.

Ltac fixed_len :=
  repeat rewrite length_splice by fixed_len;
  rewrite ?length_be, ?repeat_length; unfold FIXED_LEN; cbn [length]; lia.

(** A reply with well-formed options, sent for this transaction and hardware
    address, is read as exactly its options, whatever follows the end mark. *)
Theorem dhcp_reply_roundtrip xid mac addr os pad
  (Hmac : length mac = 6%nat) (Haddr : length addr = 4%nat) (Hos : Forall option_ok os)
  (Ht : is_reply_type (message_type (apply_all os (MkReply 0 addr None None None [] None))) = true) :
  parse (server_packet xid mac addr os pad) xid mac = Ok (Some (apply_all os (MkReply 0 addr None None None [] None))).
Proof.
  set (buf := server_packet xid mac addr os pad).
  set (fixed := splice 28 mac (splice 16 addr (splice 4 (be 4 xid) (splice 0 [2; 1; 6] (repeat 0 FIXED_LEN))))).
  assert (length fixed = 236%nat) as Hf by (unfold fixed; fixed_len).
  assert (forall i n, (i + n <= 236)%nat -> slice i n buf = slice i n fixed) as Hs.
  { intros i n Hi. unfold buf, server_packet. fold fixed. apply slice_app_l. lia. }
  assert (slice 0 1 fixed = [2] /\ slice 4 4 fixed = be 4 xid /\ slice 28 6 fixed = mac /\ slice 16 4 fixed = addr)
    as (S0 & S4 & S28 & S16).
  { unfold fixed. split_and!.
    - rewrite !slice_splice_disjoint by (fixed_len). reflexivity.
    - rewrite !(slice_splice_disjoint 4 4) by (fixed_len).
      apply slice_splice_n; [apply length_be|fixed_len].
    - apply slice_splice_n; [done|fixed_len].
    - rewrite (slice_splice_disjoint 16 4) by (fixed_len). apply slice_splice_n; [done|fixed_len]. }
  assert (drop 236 buf = MAGIC ++ flat_map tlv os ++ 255 :: pad) as Hd236.
  { unfold buf, server_packet. fold fixed. rewrite <- Hf. apply drop_app_length. }
  assert (blank buf = MkReply 0 addr None None None [] None) as Hb
    by (unfold blank; rewrite Hs by lia; by rewrite S16).
  rewrite parse_guards, decide_True; [f_equal; rewrite Hb; cbv zeta|].
  - replace (options _ _) with (Some os); [by rewrite Ht|]. symmetry. unfold FIXED_LEN. rewrite <- drop_drop, Hd236.
    change (drop 4 (MAGIC ++ ?x)) with x. apply options_encode; [done|].
    unfold buf, server_packet. fold fixed. rewrite !length_app. lia.
  - split_and!; [|by rewrite Hs by lia|by rewrite Hs by lia|by rewrite Hs by lia|].
    + unfold buf, server_packet. fold fixed. rewrite !length_app, Hf. unfold FIXED_LEN. simpl. lia.
    + unfold slice, FIXED_LEN. by rewrite Hd236.
Qed.

Definition os1 : list (u8 * bytes) := [(53, [5]); (1, [255; 255; 255; 0]); (3, [10; 0; 0; 1]); (51, [0; 0; 14; 16])].

Lemma dhcp_reply_roundtrip_witness :
  parse (server_packet 7 [2; 0; 0; 0; 0; 1] [10; 0; 0; 9] os1 [1; 2]) 7 [2; 0; 0; 0; 0; 1] =
    Ok (Some (MkReply 5 [10; 0; 0; 9] None (Some [255; 255; 255; 0]) (Some [10; 0; 0; 1]) [] (Some 3600))).
Proof.
  apply (dhcp_reply_roundtrip 7 [2; 0; 0; 0; 0; 1] [10; 0; 0; 9] os1 [1; 2]).
  - reflexivity.
  - reflexivity.
  - repeat constructor; discriminate.
  - reflexivity.
Defined.

(** What a REQUEST asks for, as a server reads it: the message type, the offered
    address, the server it came from, and the parameters wanted. *)
Lemma request_options xid mac offer :
  length mac = 6%nat -> length (address offer) = 4%nat ->
  match server_id offer with Some s => length s = 4%nat | None => True end ->
  let p := request xid mac offer in
  (300 <= length p)%nat /\ take 236 p = take 236 (header xid mac) /\ slice 236 4 p = MAGIC /\
  options (length p) (drop 240 p) =
    Some ([(53, [REQUEST]); (50, address offer)] ++
          match server_id offer with Some s => [(54, s)] | None => [] end ++ [(55, [1; 3; 6; 12; 51])]).
Proof.
  intros Hmac Ha Hsrv p. unfold p, request, finish. cbv zeta.
  set (body := _ ++ [55; 5; 1; 3; 6; 12; 51] ++ [255]).
  assert (length (header xid mac) = 240%nat) as Hh by (unfold header; rewrite length_app; change (length MAGIC) with 4%nat; fixed_len).
  set (os := [(53, [REQUEST]); (50, address offer)] ++ match server_id offer with Some s => [(54, s)] | None => [] end ++
    [(55, [1; 3; 6; 12; 51])]).
  assert (body = header xid mac ++ flat_map tlv os ++ [255]) as Hbody.
  { unfold body, os. rewrite <- !app_assoc. f_equal. unfold tlv.
    destruct (server_id offer) as [s|]; cbn [flat_map fst snd app]; unfold lenN; rewrite ?Hsrv, Ha;
      cbn [length app]; rewrite <- ?app_assoc; cbn [app]; rewrite <- ?app_assoc; reflexivity. }
  split_and!.
  - rewrite length_app, repeat_length. lia.
  - rewrite Hbody, <- !app_assoc. by rewrite take_app_le by lia.
  - rewrite Hbody, <- !app_assoc. rewrite slice_app_l by lia. unfold header.
    unfold slice. rewrite drop_app_length'; [done|]. fixed_len.
  - rewrite Hbody, <- !app_assoc. rewrite <- Hh at 2. rewrite drop_app_length. cbn [app].
    apply options_encode; [|rewrite !length_app; lia]. unfold os, option_ok, lenN.
    apply Forall_app; split; [repeat constructor; cbn [fst snd]; rewrite ?Ha; done|].
    apply Forall_app; split; [|repeat constructor; done].
    destruct (server_id offer) as [s|]; [|constructor]. repeat constructor; cbn [fst snd]; rewrite ?Hsrv; done.
Qed.
