(* ===== verification/PauseBarrier.v ===== *)
(** * The pause barrier of the vCPU threads

    [pause.rs], the vCPU loops of [vm.rs] ([run_until] for vCPU 0, [run_ap] for
    the others), [run_once] of [kvm.rs], and [pause], [resume],
    [snapshot_create] and [stop_kvm_thread] of [guest.rs].

    Every thread is a program counter; a step of a thread is one access to the
    shared state, so that the loops of the source interleave access by access.
    The atomics are sequentially consistent here: those of the barrier are
    [SeqCst] in the source, and the [Relaxed] loads of [paused] and [stop] are
    only read to leave a loop.  [KVM_RUN] returns at once when
    [immediate_exit] is set and when the thread is signalled while inside, as
    the KVM API documents.  One caller at a time drives the barrier (the control
    API holds the state's mutex across each call); no debugger is attached, so
    [KVM_EXIT_DEBUG] does not occur. *)

From stdpp Require Import prelude list.
From Stdlib Require Import NArith Lia.
From S2P Require Import Prelude.

(** ** Threads *)

(** Why [KVM_RUN] came back; [ExError] is an error other than EINTR and EAGAIN. *)
Inductive kvm_exit := ExIo | ExMmio | ExHlt | ExIntr | ExShutdown | ExFailEntry | ExInternalError | ExOther | ExError.

(** A secondary vCPU in [run_ap]. *)
Inductive ap_pc :=
| AInit                 (* before [register] *)
| ATop                  (* the [stop] test at the top of the loop *)
| AClear                (* clearing [immediate_exit] *)
| ACheck                (* loading [paused] *)
| AEnter                (* about to call [KVM_RUN] *)
| AGuest                (* inside the guest *)
| AHandle (r : kvm_exit)(* handling an exit *)
| APark                 (* the test of the parking loop *)
| ALoad                 (* loading [requested] *)
| AStore (r : N)        (* storing the acknowledgement *)
| ADead.                (* the thread returned *)

(** The boot vCPU in [run_until]. *)
Inductive bsp_pc :=
| BTop                  (* the test of the outer loop *)
| BPark                 (* the test of the parking loop *)
| BLoad                 (* loading [requested] *)
| BAll (e : N) (k : nat)(* [all_aps_acked], at the acknowledgement of vCPU [S k] *)
| BPub (e : N)          (* storing [quiesced] *)
| BSnap                 (* [snap_rx.try_recv] *)
| BDump (id : N)        (* writing a snapshot *)
| BLeave                (* the [stop] test behind the parking loop *)
| BClear
| BCheck
| BEnter
| BGuest
| BHandle (r : kvm_exit)
| BDead.

(** What a round of kicks is for: [pause] of an epoch, or [stop_kvm_thread]. *)
Inductive goal := GPause (e : N) | GStop.

(** The control thread. *)
Inductive ctl_pc :=
| CIdle
| CBump                 (* [pause]: [paused] is stored, [fetch_add] is next *)
| CKick (g : goal) (k : nat)   (* [kick_all], writing [immediate_exit] of slot [k] *)
| CSignal (g : goal) (k : nat) (* [kick_all], signalling slot [k] *)
| CLook (g : goal)      (* looking whether the goal is reached *)
| CSnap (id : N)        (* waiting for the reply of a snapshot *)
| CGone.                (* the handle is dropped *)

#[global] Instance kvm_exit_eq_dec : EqDecision kvm_exit.
Proof. solve_decision. Defined.
#[global] Instance ap_pc_eq_dec : EqDecision ap_pc.
Proof. solve_decision. Defined.
#[global] Instance bsp_pc_eq_dec : EqDecision bsp_pc.
Proof. solve_decision. Defined.
#[global] Instance goal_eq_dec : EqDecision goal.
Proof. solve_decision. Defined.
#[global] Instance ctl_pc_eq_dec : EqDecision ctl_pc.
Proof. solve_decision. Defined.

(** The shared state.  [acks] and [imm] have an entry per vCPU ([acks] at 0 is
    not used, as in the source); [aps] starts at vCPU 1; [slots] says which
    entries of the kick registry are set. *)
Record Sys := MkSys {
  paused : bool;
  requested : N;
  quiesced : N;
  stop : bool;
  acks : list N;
  slots : list bool;
  imm : list bool;
  bsp : bsp_pc;
  aps : list ap_pc;
  ctl : ctl_pc;
  snaps : list N;
  next_cmd : N
}.

Definition set_paused v s := MkSys v (requested s) (quiesced s) (stop s) (acks s) (slots s) (imm s) (bsp s) (aps s) (ctl s) (snaps s) (next_cmd s).
Definition set_requested v s := MkSys (paused s) v (quiesced s) (stop s) (acks s) (slots s) (imm s) (bsp s) (aps s) (ctl s) (snaps s) (next_cmd s).
Definition set_quiesced v s := MkSys (paused s) (requested s) v (stop s) (acks s) (slots s) (imm s) (bsp s) (aps s) (ctl s) (snaps s) (next_cmd s).
Definition set_stop v s := MkSys (paused s) (requested s) (quiesced s) v (acks s) (slots s) (imm s) (bsp s) (aps s) (ctl s) (snaps s) (next_cmd s).
Definition set_acks v s := MkSys (paused s) (requested s) (quiesced s) (stop s) v (slots s) (imm s) (bsp s) (aps s) (ctl s) (snaps s) (next_cmd s).
Definition set_slots v s := MkSys (paused s) (requested s) (quiesced s) (stop s) (acks s) v (imm s) (bsp s) (aps s) (ctl s) (snaps s) (next_cmd s).
Definition set_imm v s := MkSys (paused s) (requested s) (quiesced s) (stop s) (acks s) (slots s) v (bsp s) (aps s) (ctl s) (snaps s) (next_cmd s).
Definition set_bsp v s := MkSys (paused s) (requested s) (quiesced s) (stop s) (acks s) (slots s) (imm s) v (aps s) (ctl s) (snaps s) (next_cmd s).
Definition set_aps v s := MkSys (paused s) (requested s) (quiesced s) (stop s) (acks s) (slots s) (imm s) (bsp s) v (ctl s) (snaps s) (next_cmd s).
Definition set_ctl v s := MkSys (paused s) (requested s) (quiesced s) (stop s) (acks s) (slots s) (imm s) (bsp s) (aps s) v (snaps s) (next_cmd s).
Definition set_snaps v n s := MkSys (paused s) (requested s) (quiesced s) (stop s) (acks s) (slots s) (imm s) (bsp s) (aps s) (ctl s) v n.

Definition set_ap (i : nat) (pc : ap_pc) (s : Sys) : Sys := set_aps (<[i := pc]> (aps s)) s.

(** [num_cpus] of [run_until]. *)
Definition num_cpus (cpus max_cpus : nat) : nat := max (max max_cpus cpus) 1.

(** [spawn_kvm] sizes the registry by [cpus]; [run_until] the acknowledgements
    and the threads by [num_cpus], with vCPU 0 registered. *)
Definition init (cpus max_cpus : nat) : Sys :=
  let n := num_cpus cpus max_cpus in
  MkSys false 0 0 false (replicate n 0) (<[0%nat := true]> (replicate (max cpus 1) false)) (replicate n false)
    BTop (replicate (n - 1) AInit) CIdle [] 0.

(** [ApAcks::ack] *)
Definition ack (idx : nat) (epoch : N) (s : Sys) : Sys := set_acks (<[idx := epoch]> (acks s)) s.

(** [VcpuKick::register] and [VcpuKick::clear]. *)
Definition register (idx : nat) (s : Sys) : Sys := set_slots (<[idx := true]> (slots s)) s.
Definition clear_slots (s : Sys) : Sys := set_slots (replicate (length (slots s)) false) s.

(** [request_immediate_exit] *)
Definition request_immediate_exit (idx : nat) (on : bool) (s : Sys) : Sys := set_imm (<[idx := on]> (imm s)) s.

(** [signal_thread]: a thread inside [KVM_RUN] comes back with EINTR, which
    [run_once] reports as [KVM_EXIT_INTR]; elsewhere the handler does nothing. *)
Definition signal (idx : nat) (s : Sys) : Sys :=
  match idx with
  | O => if bool_decide (bsp s = BGuest) then set_bsp (BHandle ExIntr) s else s
  | S i => if bool_decide (aps s !! i = Some AGuest) then set_ap i (AHandle ExIntr) s else s
  end.

(** ** Steps *)

(** What the environment decides in a step: the exit of a guest, a time limit,
    the outcome of handling an exit, the next call of the control API. *)
Inductive choice :=
| Go
| Exits (r : kvm_exit)
| Deadline
| Fails
| Resets
| DoPause
| DoResume
| DoSnapshot
| DoStop.

Inductive label := LBsp (c : choice) | LAp (i : nat) (c : choice) | LCtl (c : choice).

(** [KVM_RUN], entered with or without [immediate_exit]. *)
Definition kvm_run_enters (idx : nat) (s : Sys) : bool := negb (default false (imm s !! idx)).

(** [run_ap] of the vCPU [S i]. *)
Definition ap_step (i : nat) (c : choice) (s : Sys) : option Sys :=
  match aps s !! i with
  | None => None
  | Some pc =>
      match pc, c with
      | AInit, Go => Some (set_ap i ATop (register (S i) s))
      | ATop, Go => Some (set_ap i (if stop s then ADead else AClear) s)
      | AClear, Go => Some (set_ap i ACheck (request_immediate_exit (S i) false s))
      | ACheck, Go => Some (set_ap i (if paused s then APark else AEnter) s)
      | AEnter, Go => Some (set_ap i (if kvm_run_enters (S i) s then AGuest else AHandle ExIntr) s)
      | AGuest, Exits r => Some (set_ap i (AHandle r) s)
      | AHandle r, Go =>
          match r with
          | ExShutdown | ExFailEntry | ExInternalError => Some (set_ap i ADead (set_stop true s))
          | ExError => Some (set_ap i ADead s)
          | _ => Some (set_ap i ATop s)
          end
      | APark, Go => Some (set_ap i (if paused s && negb (stop s) then ALoad else ATop) s)
      | ALoad, Go => Some (set_ap i (AStore (requested s)) s)
      | AStore r, Go => Some (set_ap i APark (ack (S i) r s))
      | _, _ => None
      end
  end.

(** The end of [run_until]: [stop] is stored on the ordinary way out, and the
    guard clears the registry. *)
Definition bsp_return (s : Sys) : Sys := set_bsp BDead (clear_slots s).
Definition bsp_break (s : Sys) : Sys := bsp_return (set_stop true s).

(** A snapshot is written: the reply reaches the caller that still waits. *)
Definition reply (id : N) (s : Sys) : Sys :=
  if bool_decide (ctl s = CSnap id) then set_ctl CIdle s else s.

(** [run_until] of vCPU 0. *)
Definition bsp_step (c : choice) (s : Sys) : option Sys :=
  match bsp s, c with
  | BTop, Go => Some (if stop s then bsp_break s else set_bsp BPark s)
  | BTop, Deadline => Some (bsp_break s)
  | BPark, Go => Some (set_bsp (if paused s && negb (stop s) then BLoad else BLeave) s)
  | BLoad, Go => Some (set_bsp (BAll (requested s) 0) s)
  | BAll e k, Go =>
      match acks s !! S k with
      | Some a => Some (set_bsp (if a =? e then BAll e (S k) else BSnap) s)
      | None => Some (set_bsp (BPub e) s)
      end
  | BPub e, Go => Some (set_bsp BSnap (set_quiesced e s))
  | BSnap, Go =>
      match snaps s with
      | id :: rest => Some (set_bsp (BDump id) (set_snaps rest (next_cmd s) s))
      | [] => Some (set_bsp BPark s)
      end
  | BSnap, Deadline => match snaps s with [] => Some (bsp_break s) | _ :: _ => None end
  | BDump id, Go => Some (set_bsp BSnap (reply id s))
  | BLeave, Go => Some (if stop s then bsp_break s else set_bsp BClear s)
  | BLeave, Deadline => Some (bsp_break s)
  | BClear, Go => Some (set_bsp BCheck (request_immediate_exit 0 false s))
  | BCheck, Go => Some (set_bsp (if paused s then BTop else BEnter) s)
  | BEnter, Go => Some (set_bsp (if kvm_run_enters 0 s then BGuest else BHandle ExIntr) s)
  | BGuest, Exits r => Some (set_bsp (BHandle r) s)
  | BHandle r, Go =>
      match r with
      | ExHlt | ExShutdown => Some (bsp_break s)
      | ExFailEntry | ExInternalError => Some (bsp_return (set_stop true s))
      | ExError => Some (bsp_return s)
      | _ => Some (set_bsp BTop s)
      end
  | BHandle ExIo, Fails => Some (bsp_return s)
  | BHandle ExIo, Resets => Some (bsp_return (set_stop true s))
  | BHandle ExOther, Deadline => Some (bsp_break s)
  | _, _ => None
  end.

(** Whether the goal of the kicks is reached. *)
Definition reached (g : goal) (s : Sys) : bool :=
  match g with
  | GPause e => quiesced s =? e
  | GStop => bool_decide (bsp s = BDead)
  end.

(** [pause], [resume], [snapshot_create] and [stop_kvm_thread]. *)
Definition ctl_step (c : choice) (s : Sys) : option Sys :=
  match ctl s, c with
  | CIdle, DoPause => Some (set_ctl CBump (set_paused true s))
  | CBump, Go => let e := U.add 64 (requested s) 1 in Some (set_ctl (CKick (GPause e) 0) (set_requested e s))
  | CKick g k, Go =>
      match slots s !! k with
      | Some true => Some (set_ctl (CSignal g k) (request_immediate_exit k true s))
      | Some false => Some (set_ctl (CKick g (S k)) s)
      | None => Some (set_ctl (CLook g) s)
      end
  | CSignal g k, Go => Some (set_ctl (CKick g (S k)) (signal k s))
  | CLook g, Go =>
      Some (set_ctl (if reached g s then match g with GPause _ => CIdle | GStop => CGone end else CKick g 0) s)
  | CLook (GPause e), Deadline => if reached (GPause e) s then None else Some (set_ctl CIdle (set_paused false s))
  | CLook GStop, Deadline => if reached GStop s then None else Some (set_ctl CGone s)
  | CIdle, DoResume => Some (set_paused false s)
  | CIdle, DoSnapshot =>
      if negb (paused s) || negb (quiesced s =? requested s) then Some s
      else Some (set_ctl (CSnap (next_cmd s)) (set_snaps (snaps s ++ [next_cmd s]) (next_cmd s + 1) s))
  | CSnap _, Deadline => Some (set_ctl CIdle s)
  | CIdle, DoStop => Some (set_ctl (CLook GStop) (set_stop true s))
  | _, _ => None
  end.

Definition step (l : label) (s : Sys) : option Sys :=
  match l with
  | LBsp c => bsp_step c s
  | LAp i c => ap_step i c s
  | LCtl c => ctl_step c s
  end.

Fixpoint run (ls : list label) (s : Sys) : option Sys :=
  match ls with
  | [] => Some s
  | l :: ls => match step l s with Some s => run ls s | None => None end
  end.

(** ** The barrier *)

(** Out of the guest, and kept there while [paused] holds: in the parking loop,
    returned, or on the way out after [stop]. *)
Definition ap_parked (st : bool) (pc : ap_pc) : bool :=
  match pc with APark | ALoad | AStore _ | ADead => true | ATop => st | _ => false end.

Definition bsp_parked (st : bool) (pc : bsp_pc) : bool :=
  match pc with
  | BPark | BLoad | BAll _ _ | BPub _ | BSnap | BDump _ | BDead => true
  | BLeave => st
  | _ => false
  end.

Definition all_parked (s : Sys) : Prop :=
  bsp_parked (stop s) (bsp s) = true /\ Forall (fun pc => ap_parked (stop s) pc = true) (aps s).

Definition acked (s : Sys) : Prop := forall i a, acks s !! S i = Some a -> a = requested s.

(** What holds of the current epoch once its number is published and as long as
    [paused] has not been taken back: an acknowledgement of it comes from a
    parked vCPU, what [all_aps_acked] has seen of it is so, and it is only
    reported quiesced when every vCPU has acknowledged it. *)
Record fresh (s : Sys) : Prop := {
  f_ap : forall i pc, aps s !! i = Some pc -> acks s !! S i = Some (requested s) -> ap_parked (stop s) pc = true;
  f_all : match bsp s with
          | BAll e k => e = requested s -> forall i a, (i < k)%nat -> acks s !! S i = Some a -> a = requested s
          | BPub e => e = requested s -> acked s
          | _ => True
          end;
  f_q : quiesced s = requested s -> bsp_parked (stop s) (bsp s) = true /\ acked s
}.

Record inv (s : Sys) : Prop := {
  v_len : length (acks s) = S (length (aps s));
  v_ack : forall j a, acks s !! j = Some a -> a <= requested s;
  v_store : forall i r a, aps s !! i = Some (AStore r) -> acks s !! S i = Some a -> a <= r /\ r <= requested s;
  v_q : match bsp s with
        | BAll e _ | BPub e => quiesced s <= e <= requested s
        | _ => quiesced s <= requested s
        end;
  v_ctl : match ctl s with
          | CBump => paused s = true
          | CKick (GPause e) _ | CSignal (GPause e) _ | CLook (GPause e) => paused s = true /\ e = requested s
          | CSnap _ => paused s = true /\ quiesced s = requested s
          | _ => True
          end;
  v_fresh : paused s = true -> ctl s <> CBump -> fresh s
}.

Lemma inv_quiesced s : inv s -> paused s = true -> ctl s <> CBump -> quiesced s = requested s -> all_parked s.
Proof.
  intros H Hp Hc Hq. destruct (v_fresh s H Hp Hc) as [Ha _ Hf]. destruct (Hf Hq) as [Hb Hk]. split; [done|].
  apply Forall_lookup. intros i pc Hi. apply (Ha i pc Hi).
  destruct (lookup_lt_is_Some_2 (acks s) (S i)) as [a Ea].
  { rewrite (v_len s H). apply lookup_lt_Some in Hi. lia. }
  rewrite Ea. f_equal. by apply (Hk i).
Qed.

Lemma init_inv cpus max_cpus : inv (init cpus max_cpus).
Proof.
  assert (1 <= num_cpus cpus max_cpus)%nat as Hn by (unfold num_cpus; lia).
  split; simpl; try done.
  - rewrite !length_replicate. lia.
  - intros j a Hj. by apply lookup_replicate in Hj as [-> _].
  - intros i r a Hi. apply lookup_replicate in Hi as [? _]. done.
Qed.

Lemma parked_mono st st' pc : (st = true -> st' = true) -> ap_parked st pc = true -> ap_parked st' pc = true.
Proof. destruct pc; simpl; auto. Qed.

Lemma bsp_parked_mono st st' pc : (st = true -> st' = true) -> bsp_parked st pc = true -> bsp_parked st' pc = true.
Proof. destruct pc; simpl; auto. Qed.

(** A step of a secondary vCPU that leaves the acknowledgements alone. *)
Lemma inv_ap s s' i pc pc' :
  inv s -> aps s !! i = Some pc ->
  aps s' = <[i := pc']> (aps s) -> acks s' = acks s -> requested s' = requested s -> quiesced s' = quiesced s ->
  paused s' = paused s -> bsp s' = bsp s -> ctl s' = ctl s -> (stop s = true -> stop s' = true) ->
  (forall r a, pc' = AStore r -> acks s !! S i = Some a -> a <= r /\ r <= requested s) ->
  (paused s = true -> ap_parked (stop s) pc = true -> ap_parked (stop s') pc' = true) -> inv s'.
Proof.
  intros H Hi Ea Ek Er Eq Ep Eb Ec Hs H1 H2. split.
  - rewrite Ek, Ea, length_insert. apply H.
  - rewrite Ek, Er. apply H.
  - rewrite Ek, Er, Ea. intros j r a Hj Hk. apply list_lookup_insert_Some in Hj as [(<- & -> & _)|[_ Hj]]; [by apply H1|].
    by eapply (v_store s H).
  - rewrite Eb, Eq, Er. apply H.
  - rewrite Ec, Ep, Eq, Er. apply H.
  - rewrite Ep, Ec. intros Hp Hc. destruct (v_fresh s H Hp Hc) as [Ha Hb Hq]. split.
    + rewrite Ea, Ek, Er. intros j q Hj Hk. apply list_lookup_insert_Some in Hj as [(<- & <- & _)|[_ Hj]].
      * apply H2; [done|]. by eapply Ha.
      * eapply parked_mono; [exact Hs|]. by eapply Ha.
    + unfold acked. rewrite Eb, Ek, Er. exact Hb.
    + unfold acked. rewrite Eb, Eq, Ek, Er. intros E. destruct (Hq E). split; [|done]. by eapply bsp_parked_mono.
Qed.

(** Storing the acknowledgement. *)
Lemma inv_ap_ack s i r : inv s -> aps s !! i = Some (AStore r) -> inv (set_ap i APark (ack (S i) r s)).
Proof.
  intros H Hi. destruct (lookup_lt_is_Some_2 (acks s) (S i)) as [a0 Ea0].
  { rewrite (v_len s H). apply lookup_lt_Some in Hi. lia. }
  destruct (v_store s H i r a0 Hi Ea0) as [Hr1 Hr2]. split; simpl.
  - rewrite !length_insert. apply H.
  - intros j a Hj. apply list_lookup_insert_Some in Hj as [(<- & <- & _)|[_ Hj]]; [done|]. by eapply (v_ack s H).
  - intros j q a Hj Hk. apply list_lookup_insert_Some in Hj as [(<- & ? & _)|[Hne Hj]]; [done|].
    rewrite list_lookup_insert_ne in Hk by lia. by eapply (v_store s H).
  - apply H.
  - apply H.
  - intros Hp Hc. destruct (v_fresh s H Hp Hc) as [Ha Hb Hq].
    assert (forall j a, (forall a, acks s !! j = Some a -> a = requested s) -> <[S i := r]> (acks s) !! j = Some a -> a = requested s) as Hkeep.
    { intros j a Hold Hj. apply list_lookup_insert_Some in Hj as [(<- & <- & _)|[_ Hj]]; [|auto]. specialize (Hold _ Ea0). lia. }
    split; simpl.
    + intros j q Hj Hk. apply list_lookup_insert_Some in Hj as [(<- & <- & _)|[Hne Hj]]; [done|].
      rewrite list_lookup_insert_ne in Hk by lia. by eapply Ha.
    + destruct (bsp s) eqn:E; try done; [intros He j a Hj|intros He j a]; apply Hkeep; intros; eapply Hb; eauto.
    + intros E. destruct (Hq E) as [? Hk]. split; [done|]. intros j a. apply Hkeep. intros. by eapply Hk.
Qed.

(** A step of the boot vCPU. *)
Lemma inv_bsp s s' :
  inv s -> aps s' = aps s -> acks s' = acks s -> requested s' = requested s -> paused s' = paused s ->
  (ctl s' = ctl s \/ ctl s' = CIdle /\ ctl s <> CBump) -> (stop s = true -> stop s' = true) ->
  match bsp s' with BAll e _ | BPub e => quiesced s' <= e <= requested s | _ => quiesced s' <= requested s end ->
  quiesced s <= quiesced s' ->
  (fresh s -> paused s = true ->
    match bsp s' with
    | BAll e k => e = requested s -> forall i a, (i < k)%nat -> acks s !! S i = Some a -> a = requested s
    | BPub e => e = requested s -> acked s
    | _ => True
    end /\ (quiesced s' = requested s -> bsp_parked (stop s') (bsp s') = true /\ acked s)) -> inv s'.
Proof.
  intros H Ea Ek Er Ep Ec Hs Hq Hqq Hf. assert (quiesced s <= requested s) as Hqr by (pose proof (v_q s H); destruct (bsp s); lia).
  split.
  - rewrite Ek, Ea. apply H.
  - rewrite Ek, Er. apply H.
  - rewrite Ek, Er, Ea. apply H.
  - rewrite Er. exact Hq.
  - pose proof (v_ctl s H) as Hc. destruct Ec as [-> |[-> _]]; [|done]. rewrite Ep, Er.
    destruct (ctl s); try done. destruct Hc as [? Hc]. split; [done|]. destruct (bsp s'); lia.
  - rewrite Ep. intros Hp Hc. assert (ctl s <> CBump) as Hc0 by (destruct Ec as [E|[_ ?]]; congruence).
    pose proof (v_fresh s H Hp Hc0) as F. destruct (Hf F Hp) as [H1 H2]. split.
    + rewrite Ea, Ek, Er. intros i pc Hi Hk. eapply parked_mono; [exact Hs|]. by eapply F.
    + unfold acked. rewrite Ek, Er. exact H1.
    + unfold acked. rewrite Ek, Er. exact H2.
Qed.

Lemma ap_step_inv i c s s' : inv s -> ap_step i c s = Some s' -> inv s'.
Proof.
  intros H. unfold ap_step. destruct (aps s !! i) as [pc|] eqn:Hi; [|done].
  assert (forall r, pc = AStore r -> inv (set_ap i APark (ack (S i) r s))) as Hack
    by (intros r ->; by apply inv_ap_ack).
  destruct pc, c; try done; repeat case_match; intros [= <-]; simplify_eq;
    first [by apply Hack | eapply (inv_ap s _ i); try done; eauto; simpl; try done;
      try (intros; simplify_eq/=; split; [by eapply (v_ack s H)|lia]); try (by intros; destruct (paused s), (stop s))].
Qed.

Lemma bsp_step_inv c s s' : inv s -> bsp_step c s = Some s' -> inv s'.
Proof.
  intros H. pose proof (v_q s H) as Hq. unfold bsp_step, bsp_break, bsp_return, reply.
  destruct (bsp s) eqn:Hb, c; try done; repeat case_match; intros [= <-]; simplify_eq;
    (eapply (inv_bsp s); [done|done|done|done|done|try (by left)|done|..]); simpl; try done; try lia;
    try (intros [_ Hall Hqr] Hp; rewrite ?Hb in *; split; [done|]; intros E; destruct (Hqr E) as [Hpk Hak]; simpl in *; split; [|done]; congruence).
  - intros [_ _ Hf] Hp. split; [done|]. intros E. split; [|by apply Hf].
    destruct (paused s), (stop s); done.
  - intros [_ _ Hf] Hp. split; [intros; lia|]. intros E. split; [done|by apply Hf].
  - intros [_ Hall Hf] Hp. rewrite Hb in Hall. split; [|intros E; split; [done|by apply Hf]].
    intros He j a Hj Ha. destruct (decide (j = k)) as [-> |]; [|by apply (Hall He j); [lia|]].
    simplify_eq. by apply N.eqb_eq.
  - intros [_ Hall Hf] Hp. rewrite Hb in Hall. split; [|intros E; split; [done|by apply Hf]].
    intros He j a Ha. apply (Hall He j); [|done].
    match goal with Hn : acks s !! S k = None |- _ => apply lookup_ge_None in Hn end. apply lookup_lt_Some in Ha. lia.
  - intros [_ Hall _] _. rewrite Hb in Hall. split; [done|]. intros E. split; [done|by apply Hall].
  - right. split; [done|]. case_bool_decide; congruence.
Qed.

Lemma signal_fields k s : ctl (signal k s) = ctl s /\ requested (signal k s) = requested s /\ paused (signal k s) = paused s.
Proof. unfold signal. by destruct k; case_bool_decide. Qed.

Lemma signal_inv k s : inv s -> inv (signal k s).
Proof.
  intros H. unfold signal. destruct k as [|i]; case_bool_decide as E; try done.
  - eapply (inv_bsp s); try done; [by left|..]; simpl.
    + pose proof (v_q s H) as Hq. by rewrite E in Hq.
    + intros [_ _ Hf] _. split; [done|]. intros Hq. destruct (Hf Hq) as [Hb _]. by rewrite E in Hb.
  - by eapply (inv_ap s _ i).
Qed.

(** A step of the control thread that does not touch [paused] or [requested]. *)
Lemma inv_ctl s s' :
  inv s -> aps s' = aps s -> acks s' = acks s -> requested s' = requested s -> paused s' = paused s -> stop s' = stop s ->
  bsp s' = bsp s -> quiesced s' = quiesced s -> ctl s <> CBump ->
  match ctl s' with
  | CBump => paused s = true
  | CKick (GPause e) _ | CSignal (GPause e) _ | CLook (GPause e) => paused s = true /\ e = requested s
  | CSnap _ => paused s = true /\ quiesced s = requested s
  | _ => True
  end -> inv s'.
Proof.
  intros H Ea Ek Er Ep Es Eb Eq Hc Hc'. split; rewrite ?Ea, ?Ek, ?Er, ?Ep, ?Eb, ?Eq; try apply H; [done|].
  intros Hp _. destruct (v_fresh s H Hp Hc) as [H1 H2 H3]. by split; unfold acked; rewrite ?Ea, ?Ek, ?Er, ?Es, ?Eb, ?Eq.
Qed.

(** A step after which no epoch is claimed. *)
Lemma inv_stale s s' :
  inv s -> aps s' = aps s -> acks s' = acks s -> requested s' = requested s -> bsp s' = bsp s ->
  quiesced s' = quiesced s -> (ctl s' = CIdle /\ paused s' = false \/ ctl s' = CBump /\ paused s' = true) -> inv s'.
Proof.
  intros H Ea Ek Er Eb Eq Hc. split; rewrite ?Ea, ?Ek, ?Er, ?Eb, ?Eq; try apply H.
  - by destruct Hc as [[-> _]|[-> ->]].
  - by destruct Hc as [[-> ->]|[-> _]].
Qed.

Lemma inv_stop s : inv s -> inv (set_stop true s).
Proof.
  intros H. split; try apply H. intros Hp Hc. destruct (v_fresh s H Hp Hc) as [H1 H2 H3]. split; [|done|]; simpl.
  - intros i pc Hi Hk. eapply parked_mono; [|by eapply H1]. done.
  - intros E. destruct (H3 E). split; [|done]. by eapply bsp_parked_mono; [|eassumption].
Qed.

(** A new epoch: nobody has acknowledged it yet. *)
Lemma inv_bump s : requested s + 1 < 2 ^ 64 -> inv s -> ctl s = CBump ->
  inv (set_ctl (CKick (GPause (U.add 64 (requested s) 1)) 0) (set_requested (U.add 64 (requested s) 1) s)).
Proof.
  intros Hw H Hc. pose proof (v_ctl s H) as Hp. rewrite Hc in Hp. pose proof (v_q s H) as Hq.
  replace (U.add 64 (requested s) 1) with (requested s + 1) by (unfold U.add, U.wrap; by rewrite N.mod_small).
  split; simpl; try done.
  - apply H.
  - intros j a Hj. pose proof (v_ack s H j a Hj). lia.
  - intros i r a Hi Ha. pose proof (v_store s H i r a Hi Ha). lia.
  - destruct (bsp s); lia.
  - intros _ _. split; simpl.
    + intros i pc _ Hk. pose proof (v_ack s H _ _ Hk). lia.
    + destruct (bsp s); try done; lia.
    + destruct (bsp s); lia.
Qed.

Lemma ctl_step_inv c s s' : requested s + 1 < 2 ^ 64 -> inv s -> ctl_step c s = Some s' -> inv s'.
Proof.
  intros Hw H. pose proof (v_ctl s H) as Hc. unfold ctl_step.
  destruct (ctl s) eqn:Ec, c; try done; repeat case_match; intros [= <-]; simplify_eq; try done;
    first [ apply inv_bump; done
          | eapply (inv_stale s); [done|done|done|done|done|done|]; simpl; first [by left|by right]
          | eapply (inv_ctl s); [done|done|done|done|done|done|done|done|congruence|]; simpl; done
          | idtac].
  - match goal with E : _ || _ = false |- _ => apply orb_false_iff in E as [E1%negb_false_iff E2%negb_false_iff] end.
    eapply (inv_ctl s); try done; [congruence|]. simpl. split; [done|]. by apply N.eqb_eq.
  - eapply (inv_ctl (set_stop true s)); try done; [by apply inv_stop|]. simpl. congruence.
  - eapply (inv_ctl (signal k s)); try done; [by apply signal_inv|..]; simpl; destruct (signal_fields k s) as (E1 & E2 & E3); rewrite ?E1, ?E2, ?E3; congruence || done.
  - eapply (inv_ctl (signal k s)); try done; [by apply signal_inv|..]; simpl; destruct (signal_fields k s) as (E1 & E2 & E3); rewrite ?E1, ?E2, ?E3; congruence || done.
Qed.

Lemma step_inv l s s' : requested s + 1 < 2 ^ 64 -> inv s -> step l s = Some s' -> inv s'.
Proof. destruct l; simpl; eauto using ap_step_inv, bsp_step_inv, ctl_step_inv. Qed.

(** Only [pause] moves the epoch, by one. *)
Lemma step_requested l s s' : step l s = Some s' ->
  requested s' = requested s \/ l = LCtl Go /\ ctl s = CBump /\ requested s' = U.add 64 (requested s) 1.
Proof.
  destruct l as [c|i c|c]; simpl.
  - unfold bsp_step, bsp_break, bsp_return, reply. destruct (bsp s), c; try done; repeat case_match; intros [= <-]; by left.
  - unfold ap_step. repeat case_match; try done; intros [= <-]; by left.
  - unfold ctl_step. destruct (ctl s), c; try done; repeat case_match; intros [= <-]; simpl; auto.
    all: left; apply signal_fields.
Qed.

Lemma run_barrier_inv ls s s' : requested s + lenN ls < 2 ^ 64 -> inv s -> run ls s = Some s' -> inv s'.
Proof.
  revert s. induction ls as [|l ls IH]; intros s Hw H; simpl; [by intros [= <-]|].
  destruct (step l s) as [s1|] eqn:E; [|done]. change (lenN (l :: ls)) with (N.of_nat (S (length ls))) in Hw.
  unfold lenN in IH. assert (requested s + 1 < 2 ^ 64) as Hw1 by lia.
  apply IH; [|by eapply step_inv]. destruct (step_requested _ _ _ E) as [-> |(_ & _ & ->)]; [lia|].
  unfold U.add, U.wrap. rewrite N.mod_small by lia. lia.
Qed.

(** ** Soundness *)

(** The state a successful [pause] leaves, as long as nobody resumes or pauses
    again. *)
Definition ctl_rests (c : ctl_pc) : bool :=
  match c with CIdle | CSnap _ | CKick GStop _ | CSignal GStop _ | CLook GStop | CGone => true | _ => false end.

Definition held (s : Sys) : Prop := paused s = true /\ quiesced s = requested s /\ ctl_rests (ctl s) = true.

Definition keeps_pause (l : label) : bool := match l with LCtl DoPause | LCtl DoResume => false | _ => true end.

Lemma held_parked s : inv s -> held s -> all_parked s.
Proof. intros H (Hp & Hq & Hc). apply inv_quiesced; try done. intros E. by rewrite E in Hc. Qed.

Lemma held_step l s s' : inv s -> held s -> keeps_pause l = true -> step l s = Some s' -> held s'.
Proof.
  intros H (Hp & Hq & Hc) Hl. pose proof (v_q s H) as Hv. destruct l as [c|i c|c]; simpl.
  - unfold bsp_step, bsp_break, bsp_return, reply.
    destruct (bsp s) eqn:Hb, c; try done; repeat case_match; intros [= <-]; try done.
    split_and!; simpl; [done|lia|done].
  - unfold ap_step. repeat case_match; try done; intros [= <-]; done.
  - unfold ctl_step. destruct (ctl s) eqn:Ec, c; try done; repeat case_match; intros [= <-]; try done.
    all: unfold held; simpl; try rewrite Ec; try done.
    all: unfold signal; by destruct k; case_bool_decide.
Qed.

Lemma held_run ls s s' : requested s + lenN ls < 2 ^ 64 ->
  inv s -> held s -> Forall (fun l => keeps_pause l = true) ls -> run ls s = Some s' -> inv s' /\ held s'.
Proof.
  intros Hw H Hh Hl. revert s Hw H Hh. induction Hl as [|l ls Hl _ IH]; intros s Hw H Hh; simpl; [by intros [= <-]|].
  destruct (step l s) as [s1|] eqn:E; [|done]. change (lenN (l :: ls)) with (N.of_nat (S (length ls))) in Hw.
  unfold lenN in IH. apply IH; [|apply (step_inv l s s1); [lia|done|done]|by eapply held_step].
  destruct (step_requested _ _ _ E) as [-> |(-> & Hb & ->)]; [lia|]. destruct Hh as (_ & _ & Hh). by rewrite Hb in Hh.
Qed.

Lemma requested_run ls s s' : requested s + lenN ls < 2 ^ 64 -> run ls s = Some s' -> requested s' <= requested s + lenN ls.
Proof.
  revert s. induction ls as [|l ls IH]; intros s Hw; simpl; [intros [= <-]; unfold lenN; simpl; lia|].
  destruct (step l s) as [s1|] eqn:E; [|done]. change (lenN (l :: ls)) with (N.of_nat (S (length ls))) in *.
  unfold lenN in IH. assert (requested s1 <= requested s + 1) as H1.
  { destruct (step_requested _ _ _ E) as [-> |(_ & _ & ->)]; [lia|]. unfold U.add, U.wrap. rewrite N.mod_small by lia. lia. }
  intros Hr. apply IH in Hr; lia.
Qed.

(** C4: When [pause] returns success, every vCPU is out of the guest (parked, or
    its thread over), and stays so through any interleaving of the vCPU
    threads, snapshots and a shutdown until the next pause or resume; this for
    any number of vCPUs and whatever the threads did before. *)
Theorem pause_barrier_sound cpus max_cpus ls1 s e s1 ls2 s2
  (Hreach : run ls1 (init cpus max_cpus) = Some s)
  (Hpause : ctl s = CLook (GPause e) /\ reached (GPause e) s = true /\ step (LCtl Go) s = Some s1)
  (Hrest : Forall (fun l => keeps_pause l = true) ls2 /\ run ls2 s1 = Some s2)
  (Hlen : lenN ls1 + lenN ls2 + 1 < 2 ^ 64) :
  ctl s1 = CIdle /\ all_parked s1 /\ all_parked s2.
Proof.
  destruct Hpause as (Hc & Hr & Hs), Hrest as [Hl Hrun].
  assert (inv s) as H by (eapply run_barrier_inv; [|apply init_inv|exact Hreach]; simpl; lia).
  assert (requested s <= lenN ls1) as Hb by (apply (requested_run ls1) in Hreach; simpl in *; lia).
  pose proof (v_ctl s H) as Hv. rewrite Hc in Hv. destruct Hv as [Hp ->].
  simpl in Hs. unfold ctl_step in Hs. rewrite Hc, Hr in Hs. injection Hs as <-.
  assert (inv (set_ctl CIdle s)) as H1 by (eapply (inv_ctl s); try done; congruence).
  assert (held (set_ctl CIdle s)) as Hh by (split_and!; [done|by apply N.eqb_eq|done]).
  split; [done|]. split; [by apply held_parked|].
  destruct (held_run ls2 (set_ctl CIdle s) s2) as [H2 Hh2]; try done; [simpl; lia|]. by apply held_parked.
Qed.

(** A snapshot that its caller still waits for is written while every vCPU is
    parked. *)
Lemma snapshot_of_parked_vcpus cpus max_cpus ls s id :
  lenN ls < 2 ^ 64 -> run ls (init cpus max_cpus) = Some s -> bsp s = BDump id -> ctl s = CSnap id -> all_parked s.
Proof.
  intros Hw Hr _ Hc. assert (inv s) as H by (eapply run_barrier_inv; [|apply init_inv|exact Hr]; simpl; lia).
  pose proof (v_ctl s H) as Hv. rewrite Hc in Hv. destruct Hv. apply inv_quiesced; congruence.
Qed.

(** Two vCPUs in the guest, a pause, and the threads reaching the barrier. *)
Definition into_guest : list label := replicate 5 (LAp 0 Go) ++ replicate 6 (LBsp Go).
Definition kick_round : list label := replicate 5 (LCtl Go).
Definition to_barrier : list label := replicate 7 (LAp 0 Go) ++ replicate 7 (LBsp Go).
Definition pause1 : list label := into_guest ++ [LCtl DoPause; LCtl Go] ++ kick_round ++ to_barrier.
Definition snapshot1 : list label := [LAp 0 Go; LCtl DoSnapshot; LBsp Go].
Definition at_barrier : Sys := default (init 2 2) (run pause1 (init 2 2)).
Definition returned1 : Sys := set_ctl CIdle at_barrier.
Definition dumping1 : Sys := default (init 2 2) (run snapshot1 returned1).

Lemma pause_barrier_sound_witness :
  run into_guest (init 2 2) = Some (default (init 2 2) (run into_guest (init 2 2))) /\
  aps at_barrier = [APark] /\ bsp dumping1 = BDump 0 /\ ctl returned1 = CIdle /\ all_parked returned1 /\ all_parked dumping1.
Proof.
  do 3 (split; [vm_compute; reflexivity|]).
  apply (pause_barrier_sound 2 2 pause1 at_barrier 1 returned1 snapshot1 dumping1).
  - vm_compute. reflexivity.
  - split_and!; vm_compute; reflexivity.
  - split; [repeat constructor|vm_compute; reflexivity].
  - vm_compute. reflexivity.
Defined.

(** A snapshot that takes longer than its caller waits is written on after the
    resume, with a vCPU in the guest. *)
Example timed_out_snapshot_torn : exists s,
  run (pause1 ++ [LCtl Go] ++ snapshot1 ++ [LCtl Deadline; LCtl DoResume] ++ replicate 7 (LAp 0 Go)) (init 2 2) = Some s /\
  bsp s = BDump 0 /\ aps s = [AGuest].
Proof. eexists. split; [vm_compute; reflexivity|]. done. Qed.

(** ** Progress *)

(** A vCPU that can no longer stay in the guest: if it is about to enter then
    [immediate_exit] is set, and if it is inside then a signal is on its way
    ([pending]). *)
Definition ap_settled (pending : bool) (pc : ap_pc) (flag : bool) : bool :=
  match pc with AGuest => pending | AEnter => flag | _ => true end.
Definition bsp_settled (pending : bool) (pc : bsp_pc) (flag : bool) : bool :=
  match pc with BGuest => pending | BEnter => flag | _ => true end.

Definition flag_of (idx : nat) (s : Sys) : bool := default false (imm s !! idx).

Definition settled (pending : bool) (idx : nat) (s : Sys) : Prop :=
  match idx with
  | O => bsp_settled pending (bsp s) (flag_of 0 s) = true
  | S i => forall pc, aps s !! i = Some pc -> ap_settled pending pc (flag_of (S i) s) = true
  end.

(** Steps in which nothing fails, times out or ends. *)
Definition benign (r : kvm_exit) : bool :=
  match r with ExIo | ExMmio | ExIntr | ExOther => true | _ => false end.
Definition ap_benign (r : kvm_exit) : bool := benign r || bool_decide (r = ExHlt).

Definition calm (l : label) : bool :=
  match l with
  | LBsp Go | LAp _ Go | LCtl Go => true
  | LBsp (Exits r) => benign r
  | LAp _ (Exits r) => ap_benign r
  | _ => false
  end.

(** No thread has ended, or is about to. *)
Definition ap_well (pc : ap_pc) : bool := match pc with ADead => false | AHandle r => ap_benign r | _ => true end.
Definition bsp_well (pc : bsp_pc) : bool := match pc with BDead => false | BHandle r => benign r | _ => true end.
Definition healthy (s : Sys) : Prop :=
  stop s = false /\ bsp_well (bsp s) = true /\ Forall (fun pc => ap_well pc = true) (aps s).

(** [pause] of epoch [e] is waiting, or has returned. *)
Definition waits (e : N) (c : ctl_pc) : bool :=
  match c with
  | CKick (GPause e') _ | CSignal (GPause e') _ | CLook (GPause e') => e' =? e
  | CIdle => true
  | _ => false
  end.

(** Every thread past its start is in the registry. *)
Record registry (s : Sys) : Prop := {
  r_imm : length (imm s) = S (length (aps s));
  r_slots : length (slots s) = S (length (aps s));
  r_reg : bsp s <> BDead -> slots s !! 0%nat = Some true /\
          forall i pc, aps s !! i = Some pc -> pc <> AInit -> slots s !! S i = Some true
}.

Record waiting (e : N) (s : Sys) : Prop := {
  w_paused : paused s = true;
  w_epoch : requested s = e;
  w_ctl : waits e (ctl s) = true;
  w_healthy : healthy s;
  w_registry : registry s
}.

Lemma init_registry cpus max_cpus : (max_cpus <= cpus)%nat -> registry (init cpus max_cpus).
Proof.
  intros H. unfold init, num_cpus. split; simpl.
  - rewrite !length_replicate. lia.
  - rewrite length_insert, !length_replicate. lia.
  - intros _. split; [rewrite list_lookup_insert_eq; [done|rewrite length_replicate; lia]|].
    intros i pc Hi. by apply lookup_replicate in Hi as [-> _].
Qed.

Lemma registry_ap s i pc pc' :
  registry s -> aps s !! i = Some pc -> (pc <> AInit \/ pc' = AInit) -> registry (set_ap i pc' s).
Proof.
  intros [H1 H2 H3] Hi Hpc. split; simpl; rewrite ?length_insert; [done|done|].
  intros Hb. destruct (H3 Hb) as [? Hr]. split; [done|]. intros j q Hj Hq.
  apply list_lookup_insert_Some in Hj as [(<- & <- & _)|[_ Hj]]; [|by eapply Hr].
  destruct Hpc as [?| ->]; [by eapply Hr|done].
Qed.

Lemma registry_imm s k on : registry s -> registry (request_immediate_exit k on s).
Proof. intros [H1 H2 H3]. split; simpl; rewrite ?length_insert; done. Qed.

Lemma registry_bsp s s' :
  registry s -> aps s' = aps s -> imm s' = imm s -> slots s' = slots s -> bsp s <> BDead -> registry s'.
Proof. intros [H1 H2 H3] Ea Ei Es Hb. split; rewrite ?Ea, ?Ei, ?Es; auto. Qed.

Lemma registry_same s s' :
  registry s -> aps s' = aps s -> imm s' = imm s -> slots s' = slots s -> bsp s' = bsp s -> registry s'.
Proof. intros [H1 H2 H3] Ea Ei Es Hb. by split; rewrite ?Ea, ?Ei, ?Es, ?Hb. Qed.

Lemma registry_dead s : registry s -> registry (bsp_return s).
Proof. intros [H1 H2 H3]. split; simpl; rewrite ?length_replicate; done. Qed.

Lemma registry_signal k s : registry s -> registry (signal k s).
Proof.
  intros H. unfold signal. destruct k as [|i]; case_bool_decide as E; try done.
  - eapply (registry_bsp s); try done. by rewrite E.
  - eapply registry_ap; [done|exact E|by left].
Qed.

Lemma step_registry l s s' : registry s -> step l s = Some s' -> registry s'.
Proof.
  intros H. destruct l as [c|i c|c]; simpl.
  - unfold bsp_step, bsp_break, reply. destruct (bsp s) eqn:Hb, c; try done; repeat case_match; intros [= <-];
      first [by apply registry_dead | eapply (registry_bsp s); try done; congruence | idtac].
    all: try (apply registry_dead; by eapply registry_same).
    eapply (registry_bsp (request_immediate_exit 0 false s)); try done; [by apply registry_imm|simpl; congruence].
  - unfold ap_step. destruct (aps s !! i) as [pc|] eqn:Hi; [|done].
    destruct pc, c; try done; repeat case_match; intros [= <-].
    all: try (by eapply registry_ap; [done|exact Hi|left]).
    all: try (by eapply registry_ap; [by apply registry_imm|exact Hi|left]).
    all: try (by eapply registry_ap; [eapply (registry_same s); done|exact Hi|left]).
    destruct H as [H1 H2 H3]. split; simpl; rewrite ?length_insert; [done|done|]. intros Hb. destruct (H3 Hb) as [H4 H5].
    split; [by rewrite list_lookup_insert_ne|]. intros j q Hj Hq.
    apply list_lookup_insert_Some in Hj as [(<- & <- & ?)|[Hne Hj]].
    + apply list_lookup_insert_eq. lia.
    + rewrite list_lookup_insert_ne by lia. by eapply H5.
  - unfold ctl_step. destruct (ctl s) eqn:Ec, c; try done; repeat case_match; intros [= <-]; try done;
      first [ by eapply (registry_same s) | eapply (registry_same (signal k s)); try done; by apply registry_signal
            | eapply (registry_same (request_immediate_exit k true s)); try done; by apply registry_imm ].
Qed.

Lemma run_registry ls s s' : registry s -> run ls s = Some s' -> registry s'.
Proof.
  revert s. induction ls as [|l ls IH]; intros s H; simpl; [by intros [= <-]|].
  destruct (step l s) as [s1|] eqn:E; [|done]. apply IH. by eapply step_registry.
Qed.

Lemma healthy_ap s i pc : healthy s -> ap_well pc = true -> healthy (set_ap i pc s).
Proof. intros (H1 & H2 & H3) Hp. split_and!; simpl; try done. by apply Forall_insert. Qed.

Lemma healthy_ack s i r : healthy s -> healthy (ack i r s).
Proof. by intros (H1 & H2 & H3). Qed.

Lemma calm_waiting e l s s' : waiting e s -> calm l = true -> step l s = Some s' -> waiting e s'.
Proof.
  intros [Hp He Hc Hh Hr] Hl Hs. pose proof (step_registry l s s' Hr Hs) as Hr'. pose proof Hh as (Hst & Hbw & Haw).
  revert Hs. destruct l as [c|i c|c]; simpl in *.
  - unfold bsp_step, reply. destruct (bsp s) eqn:Hb, c; try done; rewrite ?Hst; repeat case_match; intros [= <-]; try done;
      simplify_eq/=; split; simpl; try done; by split_and!.
  - unfold ap_step. destruct (aps s !! i) as [pc|] eqn:Hi; [|done].
    assert (ap_well pc = true) as Hw by (eapply Forall_lookup_1 in Haw; [|exact Hi]; done).
    destruct pc, c; try done; rewrite ?Hst; repeat case_match; intros [= <-]; try done;
      split; simpl; try done; by apply healthy_ap.
  - unfold ctl_step. destruct (ctl s) eqn:Ec, c; try done; repeat case_match; intros [= <-]; try done; split; simpl in *; try done;
      try (by destruct g).
    all: try (by destruct (signal_fields k s) as (? & ? & ?); congruence).
    all: unfold signal; destruct k as [|j]; case_bool_decide as E; try done; split_and!; simpl; try done; by apply Forall_insert.
Qed.

(** Only the thread itself takes a flag back, before it looks at [paused]. *)
Lemma settled_step e l s s' b idx :
  waiting e s -> calm l = true -> step l s = Some s' -> settled b idx s -> settled b idx s'.
Proof.
  intros [Hp _ _ (Hst & _ & _) _] Hl Hs. revert Hs. destruct l as [c|i c|c]; simpl in Hl |- *.
  - unfold bsp_step, reply. destruct (bsp s) eqn:Hb, c; try done; rewrite ?Hst; repeat case_match; intros [= <-]; try done;
      destruct idx as [|j]; unfold settled, flag_of, kvm_run_enters in *; simpl in *; try rewrite Hb; try done.
    all: try (by rewrite list_lookup_insert_ne).
    all: intros; simplify_eq/=; try congruence.
    match goal with H : negb _ = true |- _ => apply negb_true_iff in H; congruence end.
  - unfold ap_step. destruct (aps s !! i) as [pc|] eqn:Hi; [|done].
    destruct pc, c; try done; rewrite ?Hst, ?Hp; repeat case_match; intros [= <-]; try done;
      destruct idx as [|j]; unfold settled, flag_of, kvm_run_enters in *; simpl in *; try done.
    all: try (by rewrite list_lookup_insert_ne).
    all: intros Hset q Hq; apply list_lookup_insert_Some in Hq as [(<- & <- & _)|[Hne Hq]];
      rewrite ?list_lookup_insert_ne by lia; try (by apply Hset); try done.
    all: try (specialize (Hset _ Hi); simpl in Hset; congruence).
    all: match goal with H : negb ?b = true |- _ => apply negb_true_iff in H; specialize (Hset _ Hi); simpl in Hset; congruence end.
  - assert (forall k, settled b idx s -> settled b idx (request_immediate_exit k true s)) as Hk.
    { intros k. unfold settled, flag_of. destruct idx as [|j]; simpl.
      - destruct (decide (k = 0%nat)) as [-> |]; [|by rewrite list_lookup_insert_ne by lia].
        destruct (decide (0 < length (imm s))%nat); [|by rewrite list_insert_ge by lia].
        rewrite list_lookup_insert_eq by done. by destruct (bsp s).
      - intros H pc Hpc. specialize (H pc Hpc). destruct (decide (k = S j)) as [-> |]; [|by rewrite list_lookup_insert_ne by lia].
        destruct (decide (S j < length (imm s))%nat); [|by rewrite list_insert_ge by lia].
        rewrite list_lookup_insert_eq by done. by destruct pc. }
    assert (forall k, settled b idx s -> settled b idx (signal k s)) as Hsig.
    { intros k. unfold settled, flag_of, signal. destruct idx as [|j], k as [|i]; case_bool_decide as E; simpl; try done.
      intros H pc Hpc. apply list_lookup_insert_Some in Hpc as [(<- & <- & _)|[_ Hpc]]; [done|by apply H]. }
    unfold ctl_step. destruct (ctl s) eqn:Ec, c; try done; repeat case_match; intros [= <-]; try done; intros Hset.
    all: destruct idx; first [exact Hset | apply (Hk k), Hset | apply (Hsig k), Hset].
Qed.

(** What the kicks so far have reached. *)
Definition kicked (s : Sys) : Prop :=
  match ctl s with
  | CKick _ k => forall idx, (idx < k)%nat -> settled false idx s
  | CSignal _ k => (forall idx, (idx < k)%nat -> settled false idx s) /\ settled true k s
  | CLook _ => forall idx, settled false idx s
  | _ => True
  end.

Lemma write_settles s k : registry s -> slots s !! k = Some true -> settled true k (request_immediate_exit k true s).
Proof.
  intros [H1 H2 _] Hk. apply lookup_lt_Some in Hk. unfold settled, flag_of.
  destruct k as [|i]; simpl; rewrite list_lookup_insert_eq by lia; simpl; [by destruct (bsp s)|by intros []].
Qed.

Lemma signal_settles s k : settled true k s -> settled false k (signal k s).
Proof.
  unfold settled, flag_of, signal. destruct k as [|i]; case_bool_decide as E; simpl.
  - done.
  - by destruct (bsp s).
  - intros _ pc Hpc. apply list_lookup_insert_Some in Hpc as [(_ & <- & _)|[? _]]; done.
  - intros H pc Hpc. specialize (H pc Hpc). by destruct pc.
Qed.

Lemma unregistered_settled s k : registry s -> bsp s <> BDead -> slots s !! k = Some false -> settled false k s.
Proof.
  intros [_ _ H] Hb Hk. destruct (H Hb) as [H0 Hi]. destruct k as [|i]; [congruence|].
  intros pc Hpc. destruct (decide (pc = AInit)) as [-> |Hne]; [done|]. specialize (Hi _ _ Hpc Hne). congruence.
Qed.

Lemma beyond_settled s idx : registry s -> slots s !! idx = None -> settled false idx s.
Proof.
  intros [_ H _] Hn. apply lookup_ge_None in Hn. destruct idx as [|i]; [lia|]. intros pc Hpc. apply lookup_lt_Some in Hpc. lia.
Qed.

Lemma kicked_step e l s s' : waiting e s -> calm l = true -> step l s = Some s' -> kicked s -> kicked s'.
Proof.
  intros W Hl Hs K. pose proof (fun b idx => settled_step e l s s' b idx W Hl Hs) as Hset.
  assert (ctl s' = ctl s -> kicked s') as Hsame.
  { unfold kicked in *. intros ->. destruct (ctl s); try done; [| |]; intuition eauto. }
  destruct W as [_ _ Hc (_ & Hbw & _) Hr].
  revert Hs. destruct l as [c|i c|c]; simpl in Hl |- *.
  - unfold bsp_step, reply, bsp_break, bsp_return. intros Hs. apply Hsame. revert Hs.
    destruct (bsp s), c; try done; repeat case_match; intros [= <-]; try done. simpl.
    match goal with H : bool_decide _ = true |- _ => apply bool_decide_eq_true in H; by rewrite H in Hc end.
  - unfold ap_step. intros Hs. apply Hsame. revert Hs. repeat case_match; try done; by intros [= <-].
  - unfold ctl_step. unfold kicked in K. destruct (ctl s) eqn:Ec, c; try done; repeat case_match; intros [= <-];
      unfold kicked; simpl; try done; try lia.
    + split; [intros; apply Hset; by apply K|].
      change (settled true k (request_immediate_exit k true s)). by apply write_settles.
    + intros idx Hi. destruct (decide (idx = k)) as [-> |]; [|by apply Hset, K; lia].
      change (settled false k s). apply unregistered_settled; [done| |done]. intros E. by rewrite E in Hbw.
    + intros idx. destruct (decide (idx < k)%nat); [by apply Hset, K|]. change (settled false idx s).
      apply beyond_settled; [done|].
      apply lookup_ge_None. match goal with H : slots s !! k = None |- _ => apply lookup_ge_None in H end. lia.
    + intros idx Hi. destruct (decide (idx = k)) as [-> |]; [|apply Hset, K; lia].
      change (settled false k (signal k s)). by apply signal_settles, K.
Qed.

(** From the end of a round of kicks on: nobody can stay in the guest. *)
Record closing (e : N) (s : Sys) : Prop := {
  g_inv : inv s;
  g_waiting : waiting e s;
  g_settled : forall idx, settled false idx s
}.

(** The steps a vCPU still needs to acknowledge the epoch. *)
Definition ap_dist (e : N) (pc : ap_pc) (a : N) : nat :=
  if a =? e then 0 else
  match pc with
  | AStore r => if r =? e then 1 else 4
  | ALoad => 2 | APark => 3 | ACheck => 4 | AClear => 5 | ATop => 6
  | AHandle _ | AInit => 7
  | _ => 8
  end.

Definition dist (e : N) (i : nat) (s : Sys) : nat :=
  match aps s !! i, acks s !! S i with Some pc, Some a => ap_dist e pc a | _, _ => 0 end.

Definition is_ap (i : nat) (l : label) : bool := match l with LAp j _ => bool_decide (i = j) | _ => false end.
Definition is_bsp (l : label) : bool := match l with LBsp _ => true | _ => false end.
Definition count (f : label -> bool) (ls : list label) : nat := length (filter (fun l => f l = true) ls).

Lemma closing_step e l s s' : requested s + 1 < 2 ^ 64 -> closing e s -> calm l = true -> step l s = Some s' -> closing e s'.
Proof.
  intros Hw [H1 H2 H3] Hl Hs. split; [by eapply step_inv|by eapply calm_waiting|].
  intros idx. eapply settled_step; eauto.
Qed.

(** Steps of the other threads do not touch a vCPU that has left the guest. *)
Lemma dist_other e i l s s' :
  closing e s -> is_ap i l = false -> calm l = true -> step l s = Some s' -> dist e i s' = dist e i s.
Proof.
  intros [_ _ Hset] Hi Hl. destruct l as [c|j c|c]; simpl in Hi |- *.
  - unfold bsp_step, bsp_break, bsp_return, reply. destruct (bsp s), c; try done; repeat case_match; intros [= <-]; done.
  - apply bool_decide_eq_false in Hi. unfold ap_step.
    destruct (aps s !! j) as [pc|]; [|done]. destruct pc, c; try done; repeat case_match; intros [= <-]; unfold dist; simpl;
      by rewrite ?list_lookup_insert_ne by lia.
  - specialize (Hset (S i)). unfold ctl_step. destruct (ctl s), c; try done; repeat case_match; intros [= <-]; unfold dist; simpl; try done.
    unfold signal. destruct k as [|k]; case_bool_decide as E; try done. simpl.
    destruct (decide (k = i)) as [-> |]; [|by rewrite list_lookup_insert_ne by lia]. by specialize (Hset _ E).
Qed.

Lemma dist_at e i s pc a : aps s !! i = Some pc -> acks s !! S i = Some a -> dist e i s = ap_dist e pc a.
Proof. unfold dist. by intros -> ->. Qed.

Lemma dist_set e i s pc a : (i < length (aps s))%nat -> acks s !! S i = Some a -> dist e i (set_ap i pc s) = ap_dist e pc a.
Proof. intros H Ha. apply dist_at; [|done]. by apply list_lookup_insert_eq. Qed.

Lemma dist_self e i c s s' :
  closing e s -> calm (LAp i c) = true -> step (LAp i c) s = Some s' -> (dist e i s' <= dist e i s - 1)%nat.
Proof.
  intros [Hinv Hw Hset] Hl. specialize (Hset (S i)). destruct Hw as [Hp <- _ (Hst & _ & Haw) _]. simpl.
  unfold ap_step. destruct (aps s !! i) as [pc|] eqn:Hi; [|done].
  destruct (acks s !! S i) as [a|] eqn:Ha.
  2:{ apply lookup_ge_None in Ha. rewrite (v_len s Hinv) in Ha. apply lookup_lt_Some in Hi. lia. }
  pose proof (Forall_lookup_1 _ _ _ _ Haw Hi) as Hwell. specialize (Hset _ Hi).
  pose proof (lookup_lt_Some _ _ _ Hi) as Hlt. pose proof (lookup_lt_Some _ _ _ Ha) as Hlt2.
  rewrite (dist_at _ _ _ _ _ Hi Ha). unfold kvm_run_enters, flag_of in *.
  destruct pc, c; try done; rewrite ?Hst, ?Hp in *; simpl in *; rewrite ?Hset; simpl.
  9:{ intros [= <-]. erewrite dist_set; [|done|by apply list_lookup_insert_eq].
      destruct (v_store s Hinv i r a Hi Ha). unfold ap_dist.
      destruct (N.eqb_spec r (requested s)), (N.eqb_spec a (requested s)); lia. }
  6: destruct r; try done.
  all: intros [= <-]; erewrite dist_set by done; unfold ap_dist; rewrite ?N.eqb_refl; destruct (a =? requested s); lia.
Qed.

Lemma dist_run e i ls s s' :
  requested s + lenN ls < 2 ^ 64 -> closing e s -> Forall (fun l => calm l = true) ls -> run ls s = Some s' ->
  closing e s' /\ (dist e i s' <= dist e i s - count (is_ap i) ls)%nat.
Proof.
  intros Hw H Hl. revert s Hw H. induction Hl as [|l ls Hl _ IH]; intros s Hw H; simpl; [intros [= <-]; split; [done|unfold count; simpl; lia]|].
  destruct (step l s) as [s1|] eqn:E; [|done]. change (lenN (l :: ls)) with (N.of_nat (S (length ls))) in Hw. intros Hr.
  assert (closing e s1) as H1 by (apply (closing_step e l s); [lia|done..]).
  destruct (IH s1) as [H2 H3]; [|done|done|].
  { rewrite (w_epoch e s1), <- (w_epoch e s) by (apply H || apply H1). unfold lenN in *. lia. }
  split; [done|]. unfold count in *. rewrite filter_cons. destruct (is_ap i l) eqn:Ei; case_decide; try done; simpl.
  - destruct l as [|j c|]; try done. simpl in Ei. apply bool_decide_eq_true in Ei as <-.
    pose proof (dist_self e i c s s1 H Hl E). lia.
  - pose proof (dist_other e i l s s1 H Ei Hl E). lia.
Qed.

Lemma closing_dist e i s : (dist e i s <= 8)%nat.
Proof. unfold dist, ap_dist. repeat case_match; lia. Qed.

Lemma dist_acked e s : closing e s -> (forall i, (i < length (aps s))%nat -> dist e i s = 0%nat) -> acked s.
Proof.
  intros [Hinv Hw _] Hd i a Ha. pose proof (lookup_lt_Some _ _ _ Ha) as Hlt. rewrite (v_len s Hinv) in Hlt.
  destruct (lookup_lt_is_Some_2 (aps s) i) as [pc Hpc]; [lia|]. specialize (Hd i ltac:(lia)).
  rewrite (dist_at _ _ _ _ _ Hpc Ha) in Hd. unfold ap_dist in Hd. rewrite (w_epoch e s Hw).
  destruct (N.eqb_spec a e); [done|]. by destruct pc; try case_match.
Qed.

(** The steps the boot vCPU still needs to publish the epoch, once all the
    others have acknowledged it. *)
Definition bsp_dist (e : N) (s : Sys) : nat :=
  let n := length (acks s) in
  let park := (n + 3)%nat in
  let snap := (2 * length (snaps s) + 1 + park)%nat in
  if quiesced s =? e then 0 else
  match bsp s with
  | BPub e' => if (e' =? e)%N then 1 else 1 + snap
  | BAll e' k => if (e' =? e)%N then (n - 1 - k) + 2 else 2 + snap
  | BLoad => n + 2
  | BPark => park
  | BSnap => snap
  | BDump _ => 1 + snap
  | BTop => 1 + park
  | BCheck | BHandle _ => 2 + park
  | BClear | BEnter => 3 + park
  | _ => 4 + park
  end%nat.

Lemma acked_step e l s s' : closing e s -> acked s -> calm l = true -> step l s = Some s' -> acked s'.
Proof.
  intros [Hinv Hw _] Ha Hl. destruct l as [c|i c|c]; simpl.
  - unfold bsp_step, bsp_break, bsp_return, reply. destruct (bsp s), c; try done; repeat case_match; intros [= <-]; done.
  - unfold ap_step. destruct (aps s !! i) as [pc|] eqn:Hi; [|done].
    destruct pc, c; try done; repeat case_match; intros [= <-]; try done.
    intros j a Hj. simpl in Hj. apply list_lookup_insert_Some in Hj as [(Hij & <- & Hlt)|[_ Hj]]; [|by eapply Ha].
    destruct (lookup_lt_is_Some_2 (acks s) (S i)) as [b Hb]; [lia|]. simpl.
    destruct (v_store s Hinv i r b Hi Hb). pose proof (Ha _ _ Hb). lia.
  - unfold ctl_step. destruct (ctl s) eqn:Ec, c; try done; repeat case_match; intros [= <-]; try done.
    + pose proof (w_ctl e s Hw) as Hc. by rewrite Ec in Hc.
    + unfold signal. by destruct k; case_bool_decide.
Qed.

Lemma bsp_dist_other e l s s' :
  closing e s -> is_bsp l = false -> calm l = true -> step l s = Some s' -> bsp_dist e s' = bsp_dist e s.
Proof.
  intros [_ Hw Hset] Hi Hl. destruct l as [c|j c|c]; simpl in Hi |- *; [done|..].
  - unfold ap_step. destruct (aps s !! j) as [pc|]; [|done].
    destruct pc, c; try done; repeat case_match; intros [= <-]; try done. unfold bsp_dist. simpl. by rewrite length_insert.
  - specialize (Hset 0%nat). unfold ctl_step. destruct (ctl s) eqn:Ec, c; try done; repeat case_match; intros [= <-]; try done.
    unfold signal. destruct k as [|k]; case_bool_decide as E; try done. unfold settled in Hset. by rewrite E in Hset.
Qed.

Lemma bsp_dist_self e c s s' :
  closing e s -> acked s -> calm (LBsp c) = true -> step (LBsp c) s = Some s' -> (bsp_dist e s' <= bsp_dist e s - 1)%nat.
Proof.
  intros [Hinv Hw Hset] Ha Hl. specialize (Hset 0%nat). destruct Hw as [Hp <- Hc (Hst & Hbw & _) _].
  pose proof (v_len s Hinv) as Hlen. simpl. unfold bsp_step, reply, settled, kvm_run_enters, flag_of in *.
  destruct (quiesced s =? requested s) eqn:Eq.
  { pose proof (v_q s Hinv) as Hq. apply N.eqb_eq in Eq.
    destruct (bsp s) eqn:Hb, c; try done; rewrite ?Hst, ?Hp in *; repeat case_match; intros [= <-]; try done; unfold bsp_dist; simpl;
      rewrite ?Eq, ?N.eqb_refl; try lia. replace e with (requested s) by lia. rewrite N.eqb_refl. lia. }
  destruct (bsp s) eqn:Hb, c; try done; rewrite ?Hst, ?Hp in *; simpl in *; rewrite ?Hset; simpl.
  all: repeat case_match; intros [= <-]; unfold bsp_dist; simpl; rewrite ?Hb, ?Eq, ?N.eqb_refl; try lia; try done.
  - pose proof (Ha _ _ H) as ->. pose proof (lookup_lt_Some _ _ _ H). apply N.eqb_eq in H0 as <-. rewrite N.eqb_refl. lia.
  - pose proof (Ha _ _ H) as ->. rewrite N.eqb_sym in H0. rewrite H0. lia.
  - destruct (e =? requested s); lia.
  - destruct (e =? requested s); lia.
  - match goal with H : snaps s = _ |- _ => rewrite H end. simpl. lia.
Qed.

Lemma bsp_dist_run e ls s s' :
  requested s + lenN ls < 2 ^ 64 -> closing e s -> acked s -> Forall (fun l => calm l = true) ls -> run ls s = Some s' ->
  (bsp_dist e s' <= bsp_dist e s - count is_bsp ls)%nat.
Proof.
  intros Hw H Ha Hl. revert s Hw H Ha. induction Hl as [|l ls Hl _ IH]; intros s Hw H Ha; simpl; [intros [= <-]; unfold count; simpl; lia|].
  destruct (step l s) as [s1|] eqn:E; [|done]. change (lenN (l :: ls)) with (N.of_nat (S (length ls))) in Hw. intros Hr.
  assert (closing e s1) as H1 by (apply (closing_step e l s); [lia|done..]).
  assert (bsp_dist e s' <= bsp_dist e s1 - count is_bsp ls)%nat as H3.
  { apply IH; [|done|by eapply (acked_step e l s)|done].
    rewrite (w_epoch e s1), <- (w_epoch e s) by (apply H || apply H1). unfold lenN in *. lia. }
  unfold count in *. rewrite filter_cons. destruct (is_bsp l) eqn:Ei; case_decide; try done; simpl.
  - destruct l as [c| |]; try done. pose proof (bsp_dist_self e c s s1 H Ha Hl E). lia.
  - pose proof (bsp_dist_other e l s s1 H Ei Hl E). lia.
Qed.

Lemma bsp_dist_bound e s : (bsp_dist e s <= length (acks s) + 2 * length (snaps s) + 7)%nat.
Proof.
  unfold bsp_dist. case_match; [lia|]. destruct (bsp s); try lia; case_match; lia.
Qed.

(** A round of kicks, calmly interleaved with the threads, leaves nobody who can
    stay in the guest. *)
Lemma kick_round_closes e ls s s' :
  requested s + lenN ls < 2 ^ 64 -> inv s -> waiting e s -> kicked s -> Forall (fun l => calm l = true) ls ->
  run ls s = Some s' -> ctl s' = CLook (GPause e) -> closing e s'.
Proof.
  intros Hw Hi W K Hl. revert s Hw Hi W K. induction Hl as [|l ls Hl _ IH]; intros s Hw Hi W K; simpl.
  - intros [= <-] Hc. unfold kicked in K. rewrite Hc in K. by split.
  - destruct (step l s) as [s1|] eqn:E; [|done]. change (lenN (l :: ls)) with (N.of_nat (S (length ls))) in Hw.
    assert (waiting e s1) as W1 by (by eapply calm_waiting).
    apply IH; [|apply (step_inv l s); [lia|done..]|done|by apply (kicked_step e l s)].
    rewrite (w_epoch e s1), <- (w_epoch e s) by done. unfold lenN in *. lia.
Qed.


(** C17: [pause] completes when every vCPU has a slot in the kick registry: from
    the start of a round of kicks, in any interleaving without a failure or a
    time-out, once the round is over and every secondary vCPU has taken eight
    more steps and then the boot vCPU a number bounded by the vCPUs and the
    queued snapshots, the epoch is reported quiesced (and the next look of
    [pause] returns success). *)
Theorem pause_completes cpus max_cpus ls0 s0 e l1 s1 l2 s2 l3 s
  (Hslots : (max_cpus <= cpus)%nat)
  (Hreach : run ls0 (init cpus max_cpus) = Some s0)
  (Hstart : ctl s0 = CKick (GPause e) 0 /\ healthy s0)
  (Hcalm : Forall (fun l => calm l = true) (l1 ++ l2 ++ l3))
  (Hround : run l1 s0 = Some s1 /\ ctl s1 = CLook (GPause e))
  (Haps : run l2 s1 = Some s2 /\ forall i, (i < length (aps s2))%nat -> (8 <= count (is_ap i) l2)%nat)
  (Hbsp : run l3 s2 = Some s /\ (length (acks s2) + 2 * length (snaps s2) + 7 <= count is_bsp l3)%nat)
  (Hlen : lenN ls0 + lenN (l1 ++ l2 ++ l3) < 2 ^ 64) :
  quiesced s = e.
Proof.
  destruct Hstart as [Hc Hh], Hround as [Hr1 Hc1], Haps as [Hr2 Ha], Hbsp as [Hr3 Hb].
  apply Forall_app in Hcalm as [Hl1 [Hl2 Hl3]%Forall_app]. rewrite !lenN_app in Hlen.
  assert (inv s0) as Hi by (eapply run_barrier_inv; [|apply init_inv|exact Hreach]; simpl; lia).
  assert (requested s0 <= lenN ls0) as Hq by (apply (requested_run ls0) in Hreach; simpl in *; lia).
  pose proof (v_ctl s0 Hi) as Hv. rewrite Hc in Hv. destruct Hv as [Hp ->].
  assert (waiting (requested s0) s0) as W.
  { split; try done; [rewrite Hc; simpl; apply N.eqb_refl|]. eapply run_registry; [|exact Hreach]. by apply init_registry. }
  assert (kicked s0) as K by (unfold kicked; rewrite Hc; lia).
  assert (closing (requested s0) s1) as C1 by (eapply (kick_round_closes _ l1 s0); [lia|done..]).
  assert (requested s1 = requested s0) as E1 by apply C1.
  destruct (dist_run (requested s0) 0 l2 s1 s2) as [C2 _]; [rewrite E1; lia|done..|].
  assert (requested s2 = requested s0) as E2 by apply C2.
  assert (acked s2) as A2.
  { apply (dist_acked _ _ C2). intros i Hlt. destruct (dist_run (requested s0) i l2 s1 s2) as [_ Hd]; [rewrite E1; lia|done..|].
    specialize (Ha i Hlt). pose proof (closing_dist (requested s0) i s1). lia. }
  assert (bsp_dist (requested s0) s <= bsp_dist (requested s0) s2 - count is_bsp l3)%nat as Hd
    by (apply bsp_dist_run; [rewrite E2; lia|done..]).
  pose proof (bsp_dist_bound (requested s0) s2). unfold bsp_dist in Hd at 1.
  destruct (N.eqb_spec (quiesced s) (requested s0)); [done|]. destruct (bsp s); repeat case_match; lia.
Qed.

Definition kicking1 : Sys := default (init 2 2) (run (into_guest ++ [LCtl DoPause; LCtl Go]) (init 2 2)).
Definition kicked1 : Sys := default (init 2 2) (run kick_round kicking1).
Definition acked1 : Sys := default (init 2 2) (run (replicate 9 (LAp 0 Go)) kicked1).

Lemma pause_completes_witness :
  bsp kicking1 = BGuest /\ aps kicking1 = [AGuest] /\
  quiesced (default (init 2 2) (run (replicate 12 (LBsp Go)) acked1)) = 1.
Proof.
  split; [vm_compute; reflexivity|]. split; [vm_compute; reflexivity|].
  eapply (pause_completes 2 2 (into_guest ++ [LCtl DoPause; LCtl Go]) kicking1 1
            kick_round kicked1 (replicate 9 (LAp 0 Go)) acked1 (replicate 12 (LBsp Go))).
  - lia.
  - vm_compute. reflexivity.
  - split; [vm_compute; reflexivity|]. split_and!; [vm_compute; reflexivity..|]. vm_compute. repeat constructor.
  - apply Forall_forall. intros l Hl. apply list_elem_of_In in Hl. vm_compute in Hl.
    repeat (destruct Hl as [<-|Hl]; [reflexivity|]). destruct Hl.
  - split; vm_compute; reflexivity.
  - split; [vm_compute; reflexivity|]. intros i Hi. replace i with 0%nat; [vm_compute; lia|].
    replace (length (aps acked1)) with 1%nat in Hi by (vm_compute; reflexivity). lia.
  - split; [vm_compute; reflexivity|]. vm_compute. lia.
  - vm_compute. reflexivity.
Defined.

(** The schedules of [pause_completes] exist: after a round of kicks no thread
    waits for anything. *)
Lemma closing_progress e s : closing e s ->
  is_Some (step (LBsp Go) s) /\ forall i, (i < length (aps s))%nat -> is_Some (step (LAp i Go) s).
Proof.
  intros [_ [_ _ _ (Hst & Hbw & Haw) _] Hset]. split.
  - specialize (Hset 0%nat). unfold settled in Hset. simpl. unfold bsp_step.
    destruct (bsp s) as [| | | | | | | | | | | |r|]; try done; try (by eexists); repeat case_match; done || by eexists.
  - intros i Hi. destruct (lookup_lt_is_Some_2 (aps s) i Hi) as [pc Hpc]. specialize (Hset (S i) pc Hpc).
    pose proof (Forall_lookup_1 _ _ _ _ Haw Hpc) as Hwell. simpl. unfold ap_step. rewrite Hpc.
    destruct pc as [| | | | | |r| | | |]; try done; try (by eexists); destruct r; done || by eexists.
Qed.

(** ** vCPUs beyond the registry *)

Definition signals_registered (s : Sys) : Prop := forall g k, ctl s = CSignal g k -> (k < length (slots s))%nat.

Lemma step_slots l s s' : step l s = Some s' -> length (slots s') = length (slots s).
Proof.
  destruct l as [c|i c|c]; simpl.
  - unfold bsp_step, bsp_break, bsp_return, reply. destruct (bsp s), c; try done; repeat case_match; intros [= <-]; simpl;
      by rewrite ?length_replicate.
  - unfold ap_step. repeat case_match; try done; intros [= <-]; simpl; by rewrite ?length_insert.
  - unfold ctl_step. destruct (ctl s), c; try done; repeat case_match; intros [= <-]; try done. unfold signal. by destruct k; case_bool_decide.
Qed.

Lemma step_signals l s s' : signals_registered s -> step l s = Some s' -> signals_registered s'.
Proof.
  intros H Hs g k. rewrite (step_slots l s s' Hs). revert Hs. destruct l as [c|i c|c]; simpl.
  - unfold bsp_step, bsp_break, bsp_return, reply. destruct (bsp s), c; try done; repeat case_match; intros [= <-]; simpl; try apply H; done.
  - unfold ap_step. repeat case_match; try done; intros [= <-]; apply H.
  - unfold ctl_step. destruct (ctl s) eqn:Ec, c; try done; repeat case_match; intros [= <-]; simpl; try congruence.
    + intros [= <- <-]. by eapply lookup_lt_Some.
Qed.

Lemma run_slots ls s s' : signals_registered s -> run ls s = Some s' ->
  signals_registered s' /\ length (slots s') = length (slots s).
Proof.
  revert s. induction ls as [|l ls IH]; intros s H; simpl; [by intros [= <-]|].
  destruct (step l s) as [s1|] eqn:E; [|done]. intros Hr. destruct (IH s1) as [? ->]; [by eapply step_signals|done|].
  split; [done|]. by eapply step_slots.
Qed.

(** A vCPU in the guest that has no slot stays there until it exits by itself. *)
Lemma unregistered_stays i l s s' :
  signals_registered s -> (length (slots s) <= S i)%nat -> aps s !! i = Some AGuest ->
  (forall r, l <> LAp i (Exits r)) -> step l s = Some s' -> aps s' !! i = Some AGuest.
Proof.
  intros Hsig Hlt Hi Hl. destruct l as [c|j c|c]; simpl.
  - unfold bsp_step, bsp_break, bsp_return, reply. destruct (bsp s), c; try done; repeat case_match; intros [= <-]; done.
  - destruct (decide (j = i)) as [-> |Hne].
    + unfold ap_step. rewrite Hi. destruct c; try done. by destruct (Hl r).
    + unfold ap_step. repeat case_match; try done; intros [= <-]; simpl; by rewrite list_lookup_insert_ne.
  - unfold ctl_step. destruct (ctl s) eqn:Ec, c; try done; repeat case_match; intros [= <-]; try done.
    specialize (Hsig _ _ Ec). unfold signal. destruct k as [|k]; case_bool_decide; try done. simpl.
    rewrite list_lookup_insert_ne by lia. done.
Qed.

(** The vCPUs reserved for hotplug defeat the barrier.  The kick registry has
    one slot per boot vCPU only, so a vCPU beyond them that sits in [KVM_RUN]
    (as a reserved one does, waiting to be brought up) stays there whatever the
    control thread and the others do, and [pause] never succeeds while it does:
    each look finds the epoch not quiesced. *)
Theorem pause_blocked_by_reserved_vcpu cpus max_cpus ls0 s0 i ls s
  (Hreach : run ls0 (init cpus max_cpus) = Some s0)
  (Hguest : aps s0 !! i = Some AGuest)
  (Hreserved : (max cpus 1 <= S i)%nat)
  (Hrun : run ls s0 = Some s)
  (Hown : forall r, ~ LAp i (Exits r) ∈ ls)
  (Hlen : lenN ls0 + lenN ls < 2 ^ 64) :
  aps s !! i = Some AGuest /\ forall e, ctl s = CLook (GPause e) -> reached (GPause e) s = false.
Proof.
  assert (signals_registered (init cpus max_cpus)) as Hsig by (intros g k; done).
  destruct (run_slots ls0 _ _ Hsig Hreach) as [Hsig0 Hl0]. simpl in Hl0. rewrite length_insert, length_replicate in Hl0.
  assert (aps s !! i = Some AGuest) as Hs.
  { clear Hreach Hlen Hsig. assert (length (slots s0) <= S i)%nat as Hls by lia. clear Hl0. revert s0 Hguest Hrun Hsig0 Hls.
    induction ls as [|l ls IH]; intros s0 Hg; simpl; [by intros [= <-]|].
    destruct (step l s0) as [s1|] eqn:E; [|done]. intros Hr Hs0 Hls.
    assert (forall r, ~ LAp i (Exits r) ∈ ls) as Hown' by (intros r ?; apply (Hown r); by right).
    eapply (IH Hown' s1); [|done|by eapply step_signals|by rewrite (step_slots l s0)].
    eapply unregistered_stays; [done|done|done| |done]. intros r ->. apply (Hown r). left. }
  split; [done|]. intros e Hc. apply not_true_is_false. intros Hq%N.eqb_eq.
  assert (inv s) as H.
  { apply (run_barrier_inv (ls0 ++ ls) (init cpus max_cpus)); [simpl; rewrite lenN_app; lia|apply init_inv|].
    clear -Hreach Hrun. revert Hreach. generalize (init cpus max_cpus). induction ls0 as [|l l0 IH]; intros t; simpl; [by intros [= ->]|].
    destruct (step l t); [apply IH|done]. }
  pose proof (v_ctl s H) as Hv. rewrite Hc in Hv. destruct Hv as [Hp ->].
  destruct (inv_quiesced s H) as [_ Hall]; [done|congruence|done|]. by apply (Forall_lookup_1 _ _ _ _ Hall) in Hs.
Qed.

(** One boot vCPU and one reserved: the pause of a guest whose reserved vCPU
    waits in [KVM_RUN]. *)
Definition reserved1 : Sys := default (init 1 2) (run into_guest (init 1 2)).
Definition try_pause : list label :=
  [LCtl DoPause; LCtl Go; LCtl Go; LCtl Go; LCtl Go] ++ replicate 9 (LBsp Go) ++ [LCtl Go; LCtl Go; LCtl Go; LCtl Go].

Lemma pause_blocked_by_reserved_vcpu_witness :
  ctl (default (init 1 2) (run try_pause reserved1)) = CLook (GPause 1) /\
  reached (GPause 1) (default (init 1 2) (run try_pause reserved1)) = false.
Proof.
  split; [vm_compute; reflexivity|].
  eapply (pause_blocked_by_reserved_vcpu 1 2 into_guest reserved1 0 try_pause).
  - vm_compute. reflexivity.
  - vm_compute. reflexivity.
  - lia.
  - vm_compute. reflexivity.
  - intros r Hr. apply list_elem_of_In in Hr. vm_compute in Hr. intuition discriminate.
  - vm_compute. reflexivity.
  - vm_compute. reflexivity.
Defined.
