(* ===== verification/VzSwitch.v ===== *)
(** * The userspace Ethernet switch

    [fluxvm-vz-switch/src/lib.rs]: the port table of one private network and the
    forwarding of a frame.  A port is an entry of the table together with the
    [closed] flag its pump thread reads; the flags outlive the entries, since
    the threads share the port, so they are a set of ids beside the table.  A
    pump takes a snapshot of the table for every frame; sockets are named by
    the id of their port, and a full receiver drops the frame. *)

From stdpp Require Import prelude list gmap strings.
From Stdlib Require Import NArith Lia.
From S2P Require Import Prelude RustStr.

Definition MAX_FRAME : nat := 1600.
Definition ETH_HEADER : nat := 14.

Abbreviation Mac := (list N).

(** [parse_mac]: pieces of two bytes, six of them, unicast and not zero. *)
Definition mac_part (h : rstr) : option N := if lenN (as_bytes h) =? 2 then u8_from_hex (as_bytes h) else None.

Definition parse_mac (s : rstr) : option Mac :=
  match mapM mac_part (split_on 58 s []) with
  | Some [a; b; c; d; e; f] =>
      let mac := [a; b; c; d; e; f] in
      if (N.land a 1 =? 0) && negb (bool_decide (mac = [0; 0; 0; 0; 0; 0])) then Some mac else None
  | _ => None
  end.

Inductive drop := Runt | Oversized | UnknownPort | Spoofed | UnknownDestination.

(** [targets]: where a frame from [from] goes. *)
Definition targets (ports : list (N * Mac)) (from : N) (frame : bytes) : result drop (list N) :=
  if (length frame <? ETH_HEADER)%nat then RErr Runt
  else if (MAX_FRAME <? length frame)%nat then RErr Oversized
  else match find (fun p => p.1 =? from) ports with
       | None => RErr UnknownPort
       | Some (_, own) =>
           if negb (bool_decide (slice 6 6 frame = own)) then RErr Spoofed
           else
             let dst := slice 0 6 frame in
             if N.land (default 0 (head dst)) 1 =? 1
             then ROk (map fst (List.filter (fun p => negb (p.1 =? from)) ports))
             else match find (fun p => negb (p.1 =? from) && bool_decide (p.2 = dst)) ports with
                  | Some (id, _) => ROk [id]
                  | None => RErr UnknownDestination
                  end
       end.

Record Port := MkPort { p_id : N; p_vm : rstr; p_mac : Mac }.

(** [Table] and the [closed] flags of every port there was. *)
Record Table := MkTable { t_ports : list Port; t_next : N; t_closed : gset N }.

Definition new_table : Table := MkTable [] 0 ∅.

Definition ids_where (f : Port -> bool) (t : Table) : gset N := list_to_set (map p_id (List.filter f (t_ports t))).

(** [Table::add] *)
Definition add (vm : rstr) (mac : Mac) (t : Table) : Port * Table :=
  let port := MkPort (t_next t) vm mac in
  let same p := bool_decide (p_mac p = mac) in
  (port, MkTable (List.filter (fun p => negb (same p)) (t_ports t) ++ [port]) (U.add 64 (t_next t) 1)
           (t_closed t ∪ ids_where same t)).

(** [Table::remove] *)
Definition remove (id : N) (t : Table) : Table :=
  let same p := p_id p =? id in
  MkTable (List.filter (fun p => negb (same p)) (t_ports t)) (t_next t) (t_closed t ∪ ids_where same t).

Definition is_empty (t : Table) : bool := bool_decide (t_ports t = []).

(** What a turn of [pump] receives. *)
Inductive received := Nothing | Hangup | Frame (b : bytes).

(** One turn of [pump] of the port [id]: the frames sent, and whether it goes on. *)
Definition pump (id : N) (r : received) (t : Table) : list (N * bytes) * bool :=
  if bool_decide (id ∈ t_closed t) then ([], false)
  else match r with
       | Nothing => ([], true)
       | Hangup => ([], false)
       | Frame frame =>
           match targets (map (fun p => (p_id p, p_mac p)) (t_ports t)) id frame with
           | ROk to => (map (fun p => (p_id p, frame))
                          (List.filter (fun p => existsb (N.eqb (p_id p)) to) (t_ports t)), true)
           | RErr _ => ([], true)
           end
       end.

(** [serve_port] up to the pump: the port is added when its address parses. *)
Definition join_port (vm mac : rstr) (t : Table) : option Port * Table :=
  match parse_mac mac with
  | Some m => let (p, t) := add vm m t in (Some p, t)
  | None => (None, t)
  end.

(** ** Histories *)

Inductive sw_op := OpJoin (vm mac : rstr) | OpLeave (id : N).

Definition sw_step (t : Table) (o : sw_op) : Table :=
  match o with OpJoin vm mac => (join_port vm mac t).2 | OpLeave id => remove id t end.

Definition sw_run (os : list sw_op) : Table := fold_left sw_step os new_table.

Definition unicast (m : Mac) : Prop := length m = 6%nat /\ N.land (default 0 (head m)) 1 = 0 /\ m <> [0; 0; 0; 0; 0; 0].

Record table_ok (t : Table) : Prop := {
  ok_macs : NoDup (map p_mac (t_ports t));
  ok_ids : NoDup (map p_id (t_ports t));
  ok_next : Forall (fun p => p_id p < t_next t) (t_ports t);
  ok_unicast : Forall (fun p => unicast (p_mac p)) (t_ports t);
  ok_open : Forall (fun p => p_id p ∉ t_closed t) (t_ports t);
  ok_closed : forall id, id ∈ t_closed t -> id < t_next t
}.

Lemma parse_mac_unicast s m : parse_mac s = Some m -> unicast m.
Proof.
  unfold parse_mac. destruct (mapM _ _) as [[|a [|b [|c [|d [|e [|f [|]]]]]]]|]; try done.
  destruct (N.eqb_spec (N.land a 1) 0) as [H|]; [|done]. case_bool_decide as E; [done|]. intros [= <-]. by split_and!.
Qed.

Lemma NoDup_map_filter {A B} (f : A -> B) g (l : list A) : NoDup (map f l) -> NoDup (map f (List.filter g l)).
Proof.
  induction l as [|x l IH]; [done|]. simpl. rewrite NoDup_cons. intros [Hx Hl]. destruct (g x); simpl; [|by apply IH].
  apply NoDup_cons. split; [|by apply IH]. intros H. apply Hx. apply list_elem_of_In, in_map_iff in H as (y & E & Hy).
  apply List.filter_In in Hy as [Hy _]. apply list_elem_of_In, in_map_iff. by exists y.
Qed.

Lemma Forall_list_filter {A} (P : A -> Prop) g (l : list A) : Forall P l -> Forall P (List.filter g l).
Proof. induction 1; simpl; [done|]. destruct (g x); [by constructor|done]. Qed.

Lemma elem_ids_where f t id : id ∈ ids_where f t <-> exists p, p ∈ t_ports t /\ f p = true /\ p_id p = id.
Proof.
  unfold ids_where. rewrite elem_of_list_to_set, list_elem_of_In, in_map_iff. setoid_rewrite List.filter_In.
  setoid_rewrite list_elem_of_In. firstorder.
Qed.

(** Taking the ports that satisfy [f] out of the table and closing them. *)
Lemma table_ok_drop f t : table_ok t ->
  table_ok (MkTable (List.filter (fun p => negb (f p)) (t_ports t)) (t_next t) (t_closed t ∪ ids_where f t)).
Proof.
  intros [H1 H2 H3 H4 H5 H6]. split; simpl; try (by apply NoDup_map_filter); try (by apply Forall_list_filter).
  - apply Forall_forall. intros p Hp. apply list_elem_of_In, List.filter_In in Hp as [Hp Hf].
    apply list_elem_of_In in Hp. rewrite Forall_forall in H5. specialize (H5 p Hp).
    rewrite elem_of_union, elem_ids_where. intros [?|(q & Hq & Hfq & E)]; [done|].
    assert (q = p) as ->; [|by rewrite Hfq in Hf].
    apply list_elem_of_lookup_1 in Hp as [i Hi], Hq as [j Hj].
    assert (i = j) as -> by (eapply (NoDup_lookup _ _ _ (p_id p) H2); rewrite list_lookup_fmap; by rewrite ?Hi, ?Hj, ?E; simpl; rewrite ?E).
    congruence.
  - intros id [?|(p & Hp & _ & <-)%elem_ids_where]%elem_of_union; [by apply H6|]. rewrite Forall_forall in H3. by apply H3.
Qed.

Lemma table_ok_add vm mac t : t_next t + 1 < 2 ^ 64 -> unicast mac -> table_ok t -> table_ok (add vm mac t).2.
Proof.
  intros Hw Hm H. pose proof (table_ok_drop (fun p => bool_decide (p_mac p = mac)) t H) as [H1 H2 H3 H4 H5 H6]. simpl in *.
  assert (U.add 64 (t_next t) 1 = t_next t + 1) as E by (unfold U.add, U.wrap; by apply N.mod_small). unfold add. simpl. rewrite E.
  set (ps := List.filter _ _) in *. split; simpl.
  - rewrite map_app. apply NoDup_app. split_and!; [done| |apply NoDup_singleton]. simpl. intros m Hin ->%list_elem_of_singleton.
    apply list_elem_of_In, in_map_iff in Hin as (p & Hp & Hin). apply List.filter_In in Hin as [_ Hin].
    apply negb_true_iff, bool_decide_eq_false in Hin. done.
  - rewrite map_app. apply NoDup_app. split_and!; [done| |apply NoDup_singleton]. simpl. intros i Hin ->%list_elem_of_singleton.
    apply list_elem_of_In, in_map_iff in Hin as (p & Hp & Hin). rewrite Forall_forall in H3.
    apply list_elem_of_In in Hin. specialize (H3 p Hin). lia.
  - apply Forall_app. split; [eapply Forall_impl; [exact H3|]; simpl; lia|]. repeat constructor. simpl. lia.
  - apply Forall_app. split; [done|]. by apply Forall_singleton.
  - apply Forall_app. split; [done|]. repeat constructor. simpl. intros Hc%H6. lia.
  - intros id Hc%H6. lia.
Qed.

Lemma sw_step_ok o t : t_next t + 1 < 2 ^ 64 -> table_ok t ->
  table_ok (sw_step t o) /\ t_next (sw_step t o) <= t_next t + 1.
Proof.
  intros Hw H. assert (U.add 64 (t_next t) 1 = t_next t + 1) as E by (unfold U.add, U.wrap; by apply N.mod_small).
  destruct o as [vm mac|id]; simpl.
  - unfold join_port. destruct (parse_mac mac) as [m|] eqn:Hm; [|split; [done|simpl; lia]].
    apply parse_mac_unicast in Hm. split; [by apply table_ok_add|]. simpl. lia.
  - split; [by apply table_ok_drop|]. simpl. lia.
Qed.

Lemma sw_run_ok os t : t_next t + lenN os < 2 ^ 64 -> table_ok t -> table_ok (fold_left sw_step os t).
Proof.
  revert t. induction os as [|o os IH]; intros t Hw H; [done|]. simpl.
  change (lenN (o :: os)) with (N.of_nat (S (length os))) in Hw. unfold lenN in IH.
  destruct (sw_step_ok o t) as [H1 H2]; [lia|done|]. apply IH; [lia|done].
Qed.

(** ** Forwarding *)

Definition group_addr (m : Mac) : bool := N.land (default 0 (head m)) 1 =? 1.

Lemma find_port_id ps id :
  match find (fun p => p.1 =? id) (map (fun p => (p_id p, p_mac p)) ps) with
  | Some (_, m) => exists p, p ∈ ps /\ p_id p = id /\ p_mac p = m
  | None => forall p, p ∈ ps -> p_id p <> id
  end.
Proof.
  destruct (find _ _) as [[i m]|] eqn:E.
  - apply List.find_some in E as [Hin Hi]. simpl in Hi. apply N.eqb_eq in Hi as <-.
    apply in_map_iff in Hin as (p & [= <- <-] & Hp). exists p. by rewrite list_elem_of_In.
  - intros p Hp <-. pose proof (List.find_none _ _ E (p_id p, p_mac p)) as Hn. simpl in Hn.
    rewrite N.eqb_refl in Hn. discriminate Hn. apply in_map_iff. exists p. by rewrite <- list_elem_of_In.
Qed.

Lemma same_id t p q : table_ok t -> p ∈ t_ports t -> q ∈ t_ports t -> p_id p = p_id q -> p = q.
Proof.
  intros H [i Hi]%list_elem_of_lookup_1 [j Hj]%list_elem_of_lookup_1 E. destruct H as [_ H _ _ _ _].
  assert (i = j) as ->; [|congruence]. eapply (NoDup_lookup _ _ _ (p_id p) H); rewrite list_lookup_fmap, ?Hi, ?Hj; simpl; congruence.
Qed.

Lemma same_mac t p q : table_ok t -> p ∈ t_ports t -> q ∈ t_ports t -> p_mac p = p_mac q -> p = q.
Proof.
  intros H [i Hi]%list_elem_of_lookup_1 [j Hj]%list_elem_of_lookup_1 E. destruct H as [H _ _ _ _ _].
  assert (i = j) as ->; [|congruence]. eapply (NoDup_lookup _ _ _ (p_mac p) H); rewrite list_lookup_fmap, ?Hi, ?Hj; simpl; congruence.
Qed.

(** The ids [targets] names, for a port of the table and a frame of its own. *)
Lemma targets_own t q frame to :
  table_ok t -> q ∈ t_ports t -> p_mac q = slice 6 6 frame -> (ETH_HEADER <= length frame <= MAX_FRAME)%nat ->
  (exists l, targets (map (fun p => (p_id p, p_mac p)) (t_ports t)) (p_id q) frame = ROk l /\ to ∈ l) <->
  exists p, p ∈ t_ports t /\ p_id p = to /\ p <> q /\ (group_addr (slice 0 6 frame) = true \/ p_mac p = slice 0 6 frame).
Proof.
  intros H Hq Hm [Hl1 Hl2]. unfold targets.
  destruct (Nat.ltb_spec (length frame) ETH_HEADER); [lia|]. destruct (Nat.ltb_spec MAX_FRAME (length frame)); [lia|].
  pose proof (find_port_id (t_ports t) (p_id q)) as Hf. destruct (find (fun p => p.1 =? p_id q) _) as [[i m]|]; [|by destruct (Hf q Hq)].
  destruct Hf as (q' & Hq' & E & <-). apply (same_id t) in E as ->; [|done..].
  rewrite bool_decide_true by done. cbn [negb]. fold (group_addr (slice 0 6 frame)).
  assert (forall p, p ∈ t_ports t -> (p_id p =? p_id q) = false <-> p <> q) as Hid.
  { intros p Hp. rewrite N.eqb_neq. split; [by intros ? ->|]. intros Hne E. by apply Hne, (same_id t). }
  destruct (group_addr _) eqn:Eg.
  - split.
    + intros (l & [= <-] & Hin). apply list_elem_of_In, in_map_iff in Hin as ([i' m'] & <- & Hin). simpl.
      apply List.filter_In in Hin as [Hin Hne]. apply in_map_iff in Hin as (p & [= <- <-] & Hp). apply list_elem_of_In in Hp.
      exists p. split_and!; [done|done| |by left]. apply Hid; [done|]. by apply negb_true_iff.
    + intros (p & Hp & <- & Hne & _). eexists. split; [done|]. apply list_elem_of_In, in_map_iff. exists (p_id p, p_mac p). split; [done|].
      apply List.filter_In. split; [apply in_map_iff; exists p; by rewrite <- list_elem_of_In|]. simpl. by rewrite (proj2 (Hid p Hp) Hne).
  - destruct (find _ _) as [[i' m']|] eqn:E.
    + apply List.find_some in E as [Hin [Hne Hd]%andb_prop]. apply bool_decide_eq_true in Hd. simpl in *. subst m'.
      apply in_map_iff in Hin as (p & [= <- Hpm] & Hp). apply list_elem_of_In in Hp. apply negb_true_iff in Hne.
      split.
      * intros (l & [= <-] & Hin). apply list_elem_of_singleton in Hin as ->. exists p. split_and!; [done|done|by apply Hid|by right].
      * intros (p' & Hp' & <- & _ & [?|Hd']); [done|]. eexists. split; [done|]. apply list_elem_of_singleton.
        f_equal. apply (same_mac t); try done. congruence.
    + split; [by intros (l & ? & _)|]. intros (p & Hp & _ & Hne & [?|Hd]); [done|].
      pose proof (List.find_none _ _ E (p_id p, p_mac p)) as Hn. simpl in Hn.
      rewrite (proj2 (Hid p Hp) Hne), bool_decide_true in Hn by done. discriminate Hn.
      apply in_map_iff. exists p. by rewrite <- list_elem_of_In.
Qed.

(** C28: Whatever joined and left before, a frame a guest sends reaches exactly
    these ports, unchanged: none unless its length is legal and its source is the
    address of the sending port (no spoofing); then, for a group address, every
    other port, and otherwise the one other port that owns the destination.  It
    never comes back to its sender. *)
Theorem switch_forwards os id frame to g (Hlen : lenN os < 2 ^ 64) :
  (to, g) ∈ (pump id (Frame frame) (sw_run os)).1 <->
  g = frame /\ (ETH_HEADER <= length frame <= MAX_FRAME)%nat /\
  exists q p, q ∈ t_ports (sw_run os) /\ p ∈ t_ports (sw_run os) /\ p_id q = id /\ p_id p = to /\ p <> q /\
    p_mac q = slice 6 6 frame /\ (group_addr (slice 0 6 frame) = true \/ p_mac p = slice 0 6 frame).
Proof.
  assert (table_ok (sw_run os)) as H.
  { apply sw_run_ok; [done|]. split; simpl; try constructor; set_solver. }
  generalize dependent (sw_run os). intros t H. unfold pump.
  assert (forall l, (to, g) ∈ map (fun p => (p_id p, frame)) (List.filter (fun p => existsb (N.eqb (p_id p)) l) (t_ports t)) <->
            g = frame /\ (exists p, p ∈ t_ports t /\ p_id p = to) /\ to ∈ l) as Hsent.
  { intros l. rewrite list_elem_of_In, in_map_iff. setoid_rewrite List.filter_In. setoid_rewrite existsb_exists.
    setoid_rewrite list_elem_of_In. split.
    - intros (p & [= <- <-] & Hp & i & Hi & E%N.eqb_eq). subst i. eauto.
    - intros (-> & (p & Hp & <-) & Hl). exists p. split_and!; [done|done|]. exists (p_id p). by rewrite N.eqb_refl. }
  pose proof (fun q => targets_own t q frame to H) as Hown.
  case_bool_decide as Hc.
  { split; [by intros ?%not_elem_of_nil|]. intros (_ & _ & q & p & Hq & _ & <- & _). destruct H as [_ _ _ _ Ho _].
    rewrite Forall_forall in Ho. by specialize (Ho q Hq). }
  simpl. split.
  - destruct (targets _ id frame) as [l|] eqn:E; [|by intros ?%not_elem_of_nil]. simpl. rewrite Hsent. intros (-> & _ & Hl).
    assert (exists q, q ∈ t_ports t /\ p_id q = id /\ p_mac q = slice 6 6 frame /\ (ETH_HEADER <= length frame <= MAX_FRAME)%nat)
      as (q & Hq & <- & Hm & Hlf).
    { revert E. unfold targets. destruct (Nat.ltb_spec (length frame) ETH_HEADER); [done|].
      destruct (Nat.ltb_spec MAX_FRAME (length frame)); [done|]. pose proof (find_port_id (t_ports t) id) as Hf.
      destruct (find _ _) as [[i m]|]; [|done]. destruct Hf as (q & Hq & Hi & Hm).
      case_bool_decide; [|done]. intros _. exists q. split_and!; try done; congruence || lia. }
    destruct (proj1 (Hown q Hq Hm Hlf)) as (p & Hp & Ht & Hne & Hd); [eauto|]. eauto 12.
  - intros (-> & Hlf & q & p & Hq & Hp & <- & Ht & Hne & Hm & Hd).
    destruct (proj2 (Hown q Hq Hm Hlf)) as (l & -> & Hin); [eauto|]. simpl. apply Hsent. eauto.
Qed.

Definition net3 : list sw_op :=
  [OpJoin (bstr "a") (bstr "02:00:00:00:00:0a"); OpJoin (bstr "b") (bstr "02:00:00:00:00:0b");
   OpJoin (bstr "c") (bstr "02:00:00:00:00:0c"); OpJoin (bstr "b") (bstr "02:00:00:00:00:0b")].
Definition frame_ab : bytes := [2; 0; 0; 0; 0; 0xb; 2; 0; 0; 0; 0; 0xa; 8; 0; 1; 2; 3].

Lemma switch_forwards_witness :
  (pump 0 (Frame frame_ab) (sw_run net3)).1 = [(3, frame_ab)] /\
  exists q p, q ∈ t_ports (sw_run net3) /\ p ∈ t_ports (sw_run net3) /\ p_id q = 0 /\ p_id p = 3 /\ p <> q /\
    p_mac q = slice 6 6 frame_ab /\ (group_addr (slice 0 6 frame_ab) = true \/ p_mac p = slice 0 6 frame_ab).
Proof.
  assert ((pump 0 (Frame frame_ab) (sw_run net3)).1 = [(3, frame_ab)]) as E by (vm_compute; reflexivity).
  split; [exact E|].
  apply (switch_forwards net3 0 frame_ab 3 frame_ab); [vm_compute; reflexivity|]. rewrite E. left.
Defined.

(** A port that was closed (its guest left, or joined again) neither sends nor
    receives from then on. *)
Lemma closed_stays os t id : id ∈ t_closed t -> id ∈ t_closed (fold_left sw_step os t).
Proof.
  revert t. induction os as [|o os IH]; intros t H; [done|]. simpl. apply IH. destruct o as [vm mac|i]; simpl; [|set_solver].
  unfold join_port. destruct (parse_mac mac); simpl; set_solver.
Qed.

Lemma switch_revokes os os' id r :
  lenN (os ++ os') < 2 ^ 64 -> id ∈ t_closed (sw_run os) ->
  pump id r (sw_run (os ++ os')) = ([], false) /\ forall p, p ∈ t_ports (sw_run (os ++ os')) -> p_id p <> id.
Proof.
  intros Hl Hc. assert (table_ok (sw_run (os ++ os'))) as H.
  { apply sw_run_ok; [done|]. split; simpl; try constructor; set_solver. }
  assert (id ∈ t_closed (sw_run (os ++ os'))) as Hc' by (unfold sw_run; rewrite fold_left_app; by apply closed_stays).
  split; [unfold pump; by rewrite bool_decide_true|]. intros p Hp <-. destruct H as [_ _ _ _ Ho _].
  rewrite Forall_forall in Ho. by specialize (Ho p Hp).
Qed.

(** What [describe] prints of an address is read back by [parse_mac]. *)
Definition show_mac (m : Mac) : rstr := join [58] (map (fun b => hex [b]) m).

Lemma mapM_map_Some {A B} (f : A -> option B) (g : B -> A) l :
  Forall (fun b => f (g b) = Some b) l -> mapM f (map g l) = Some l.
Proof. induction 1 as [|b l Hb _ IH]; [done|]. simpl. by rewrite Hb, IH. Qed.

Lemma mac_roundtrip m : unicast m -> Forall (fun b => b < 256) m -> parse_mac (show_mac m) = Some m.
Proof.
  intros (Hl & Hu & Hz) Hb. unfold parse_mac, show_mac.
  assert (forall b, b < 256 -> 58 ∉ hex [b] /\ mac_part (hex [b]) = Some b) as Hone.
  { intros b H. assert (b / 16 < 16 /\ b mod 16 < 16) as [H1 H2] by (split; dlia). unfold hex. cbn [flat_map app].
    pose proof (hex_lower_alnum _ H1). pose proof (hex_lower_alnum _ H2). split; [set_solver by lia|].
    unfold mac_part. rewrite as_bytes_ascii by (repeat constructor; lia). cbn. by apply u8_from_hex_byte. }
  destruct m as [|a [|b [|c [|d [|e [|f [|]]]]]]]; try done.
  change (map (fun b => hex [b]) [a; b; c; d; e; f]) with (hex [a] :: map (fun b => hex [b]) [b; c; d; e; f]). rewrite split_on_join.
  - change (hex [a] :: map (fun b => hex [b]) [b; c; d; e; f]) with (map (fun b => hex [b]) [a; b; c; d; e; f]).
    rewrite mapM_map_Some by (eapply Forall_impl; [exact Hb|]; intros x Hx; by apply Hone).
    cbn in Hu. rewrite Hu. by rewrite bool_decide_false.
  - change (Forall (fun q => 58 ∉ q) (map (fun b => hex [b]) [a; b; c; d; e; f])). apply Forall_map.
    eapply Forall_impl; [exact Hb|]. intros x Hx. by apply Hone.
Qed.

(** [u8::from_str_radix] takes a sign: an address may be written with one. *)
Example mac_with_sign : parse_mac (bstr "02:00:00:00:00:+a") = Some [2; 0; 0; 0; 0; 10].
Proof. reflexivity. Qed.
