(* ===== verification/Unpack.v ===== *)
(** * Unpacking OCI layers

    [fluxvm-oci-init/src/unpack.rs]: the entries of a layer applied to a
    directory.  The file system is a map from canonical absolute paths (lists of
    names, names are bytes) to nodes; system calls resolve the path they are
    given the way the kernel does, following symbolic links component by
    component, and each of them may fail: a script of faults says which, and a
    second one which of the [fs::symlink_metadata] calls do, whose errors the code
    takes for the absence of a link in [secure_join].  A directory is removed node
    by node, the contents of a file are written in one step.  The
    tar reader, the decompressors and the digest are outside the model: a layer
    is the list of entries the reader yields, an entry it cannot read being
    [None].  [anyhow] errors carry no information the code looks at: a failed
    system call is [Err Io], a refusal of the unpacker [Err Unsupported]. *)

From stdpp Require Import prelude list sorting gmap strings.
From Stdlib Require Import NArith Lia.
From S2P Require Import Prelude RustStr.

Abbreviation name := (list N).
Abbreviation path := (list name).

(** ** The file system *)

Record Attrs := MkAttrs { a_mode : option N; a_owner : option (N * N); a_mtime : option N; a_xattrs : list (name * bytes) }.
Definition fresh_attrs : Attrs := MkAttrs None None None [].

Inductive special := SpChar | SpBlock | SpFifo.

Inductive node :=
| Dir (a : Attrs)
| File (d : bytes) (a : Attrs)
| Symlink (target : bytes) (a : Attrs)
| Special (k : special) (a : Attrs).

Definition is_symlink (n : node) : bool := match n with Symlink _ _ => true | _ => false end.
Definition is_dir (n : node) : bool := match n with Dir _ => true | _ => false end.

Definition set_attrs (f : Attrs -> Attrs) (n : node) : node :=
  match n with
  | Dir a => Dir (f a)
  | File d a => File d (f a)
  | Symlink t a => Symlink t (f a)
  | Special k a => Special k (f a)
  end.

Abbreviation tree := (gmap path node).

(** [lfaults]: the failing [fs::symlink_metadata] calls. *)
Record St := MkSt { fs : tree; faults : list bool; lfaults : list bool }.

(** [Path::components], less the root and [.] components, which every caller
    skips. *)
Inductive comp := Normal (n : name) | ParentDir.

Definition comp_of (p : name) : option comp :=
  if bool_decide (p = []) || bool_decide (p = bstr ".") then None
  else if bool_decide (p = bstr "..") then Some ParentDir else Some (Normal p).

Definition components (p : bytes) : list comp := omap comp_of (split_on 47 p []).
Definition is_absolute (p : bytes) : bool := bool_decide (head p = Some 47).

(** Path resolution in the kernel, from the directory [cur]: at most 40 links. *)
Inductive kerr := ENOENT | ENOTDIR | ELOOP | EIO.

Fixpoint kwalk (hops : nat) (t : tree) (follow : bool) : path -> list comp -> result kerr path :=
  fix go (cur : path) (todo : list comp) : result kerr path :=
    match todo with
    | [] => ROk cur
    | c :: todo =>
        match t !! cur with
        | Some (Dir _) =>
            match c with
            | ParentDir => go (removelast cur) todo
            | Normal n =>
                match t !! (cur ++ [n]) with
                | Some (Symlink target _) =>
                    if negb follow && bool_decide (todo = []) then ROk (cur ++ [n])
                    else match hops with
                         | O => RErr ELOOP
                         | S hops =>
                             kwalk hops t follow (if is_absolute target then [] else cur) (components target ++ todo)
                         end
                | _ => go (cur ++ [n]) todo
                end
            end
        | Some _ => RErr ENOTDIR
        | None => RErr ENOENT
        end
    end.

Definition MAXSYMLINKS : nat := 40.
Definition resolve (t : tree) (follow : bool) (p : path) : result kerr path := kwalk MAXSYMLINKS t follow [] (map Normal p).

(** A system call that its fault makes fail. *)
Definition sys : M St unit := fun s =>
  match faults s with
  | true :: fl => (Err Io, MkSt (fs s) fl (lfaults s))
  | false :: fl => (Ok tt, MkSt (fs s) fl (lfaults s))
  | [] => (Ok tt, s)
  end.

Definition set_fs (t : tree) : M St unit := modify (fun s => MkSt t (faults s) (lfaults s)).

(** The node a call works on, and the canonical path it has. *)
Definition at_path {A} (follow : bool) (p : path) (k : path -> option node -> M St A) (h : kerr -> M St A) : M St A :=
  do! sys in
  let! t := gets fs in
  match resolve t follow p with
  | ROk q => k q (t !! q)
  | RErr e => h e
  end.

Definition io_err {A} (_ : kerr) : M St A := throw Io.

(** [fs::symlink_metadata]: the node, or why there is none. *)
Definition lstat (t : tree) (p : path) : result kerr node :=
  match resolve t false p with
  | ROk q => match t !! q with Some n => ROk n | None => RErr ENOENT end
  | RErr e => RErr e
  end.

Definition symlink_metadata (p : path) : M St (result kerr node) := fun s =>
  match lfaults s with
  | true :: fl => (Ok (RErr EIO), MkSt (fs s) (faults s) fl)
  | false :: fl => (Ok (lstat (fs s) p), MkSt (fs s) (faults s) fl)
  | [] => (Ok (lstat (fs s) p), s)
  end.

(** [fs::read_link] *)
Definition read_link (p : path) : M St bytes :=
  at_path false p (fun _ o => match o with Some (Symlink target _) => ret target | _ => throw Io end) io_err.

(** [Path::is_dir] follows links and is false on any error. *)
Definition path_is_dir (t : tree) (p : path) : bool :=
  match resolve t true p with
  | ROk q => match t !! q with Some (Dir _) => true | _ => false end
  | RErr _ => false
  end.

Definition target_is_dir (p : path) : M St bool :=
  try_ok sys (fun _ => gets (fun s => path_is_dir (fs s) p)) (ret false).

(** [mkdir], [open] with [create_new], [symlink], [mknod]: a new node. *)
Definition create_node (p : path) (n : node) : M St unit :=
  at_path false p (fun q o =>
    match o with
    | Some _ => throw Io
    | None => let! t := gets fs in set_fs (<[q := n]> t)
    end) io_err.

(** [unlink] *)
Definition unlink (p : path) : M St unit :=
  at_path false p (fun q o =>
    match o with
    | Some (Dir _) | None => throw Io
    | Some _ => let! t := gets fs in set_fs (delete q t)
    end) io_err.

(** [remove_dir_all]: everything below, the contents of a directory before the
    directory (deepest first here), each with a call of its own. *)
Definition deeper (p q : path) : Prop := (length q <= length p)%nat.

#[local] Instance deeper_dec : RelDecision deeper.
Proof. intros p q. unfold deeper. apply _. Defined.

Definition subtree (q : path) (t : tree) : list path := merge_sort deeper (filter (prefix q) (map_to_list t).*1).

Fixpoint remove_nodes (ps : list path) : M St unit :=
  match ps with
  | [] => ret tt
  | p :: ps => do! sys in do! modify (fun s => MkSt (delete p (fs s)) (faults s) (lfaults s)) in remove_nodes ps
  end.

Definition remove_dir_all (p : path) : M St unit :=
  at_path false p (fun q o =>
    match o with
    | Some (Dir _) => let! t := gets fs in remove_nodes (subtree q t)
    | _ => throw Io
    end) io_err.

(** [chmod] follows links; [lchown], [lsetxattr] and [utimensat] here do not. *)
Definition change_attrs (follow : bool) (p : path) (f : Attrs -> Attrs) : M St unit :=
  at_path follow p (fun q o =>
    match o with
    | Some n => let! t := gets fs in set_fs (<[q := set_attrs f n]> t)
    | None => throw Io
    end) io_err.

(** [linkat] without following: the new name gets the node itself. *)
Definition hard_link (src dst : path) : M St unit :=
  at_path false src (fun _ o =>
    match o with
    | Some (Dir _) | None => throw Io
    | Some n => create_node dst n
    end) io_err.

(** The names in a directory. *)
Definition child_of (q : path) (kv : path * node) : option name :=
  match reverse kv.1 with
  | n :: r => if bool_decide (reverse r = q) then Some n else None
  | [] => None
  end.

Definition read_dir (p : path) : M St (list name) :=
  at_path true p (fun q o =>
    match o with
    | Some (Dir _) => let! t := gets fs in ret (omap (child_of q) (map_to_list t))
    | _ => throw Io
    end) io_err.

(** [mkdir] as [create_dir_all] looks at it: made, or failed with NotFound or
    another error. *)
Definition mkdir (p : path) : M St (result bool unit) :=
  try_ok sys (fun _ =>
    let! t := gets fs in
    match resolve t false p with
    | ROk q => match t !! q with
               | Some _ => ret (RErr false)
               | None => do! set_fs (<[q := Dir fresh_attrs]> t) in ret (ROk tt)
               end
    | RErr ENOENT => ret (RErr true)
    | RErr _ => ret (RErr false)
    end) (ret (RErr false)).

(** [fs::create_dir_all], on the names in reverse. *)
Fixpoint create_dirs (rp : list name) : M St unit :=
  match rp with
  | [] => ret tt
  | n :: rp' =>
      let p := reverse (n :: rp') in
      let or_dir := let! b := target_is_dir p in if b then ret tt else throw Io in
      let! r := mkdir p in
      match r with
      | ROk _ => ret tt
      | RErr false => or_dir
      | RErr true =>
          do! create_dirs rp' in
          let! r := mkdir p in
          match r with ROk _ => ret tt | RErr _ => or_dir end
      end
  end.

Definition create_dir_all (p : path) : M St unit := create_dirs (reverse p).

(** ** The unpacker *)

Definition WHITEOUT_PREFIX : name := bstr ".wh.".
Definition OPAQUE : name := bstr ".wh..wh..opq".
Definition MAX_SYMLINK_HOPS : nat := 40.

Record Options := MkOptions { preserve_owner : bool; special_files : bool; xattrs : bool }.

Inductive EntryType := TDirectory | TRegular | TContinuous | TGNUSparse | TSymlink | TLink | TChar | TBlock | TFifo | TOther.

#[global] Instance EntryType_eq_dec : EqDecision EntryType.
Proof. solve_decision. Defined.

(** A tar entry, as the reader gives it: [None] where a header field does not
    parse. *)
Record Entry := MkEntry {
  e_path : option bytes;
  e_type : EntryType;
  e_link : option bytes;
  e_size : N;
  e_data : bytes;
  e_mode : option N;
  e_uid : option N;
  e_gid : option N;
  e_mtime : option N;
  e_xattrs : list (name * bytes)
}.

(** [normalize]: the names, unless a component leaves the root. *)
Fixpoint normalize (cs : list comp) : option (list name) :=
  match cs with
  | [] => Some []
  | Normal n :: cs => match normalize cs with Some r => Some (n :: r) | None => None end
  | ParentDir :: _ => None
  end.

(** [secure_join], with the links still allowed: the names below the root.  A name
    whose metadata cannot be read is taken for a plain one. *)
Fixpoint secure_join (hops : nat) (root : path) : list name -> list comp -> M St (list name) :=
  fix go (cur : list name) (todo : list comp) : M St (list name) :=
    match todo with
    | [] => ret cur
    | ParentDir :: todo => go (removelast cur) todo
    | Normal c :: todo =>
        let! m := symlink_metadata (root ++ cur ++ [c]) in
        match m with
        | ROk (Symlink _ _) =>
            match hops with
            | O => throw Unsupported
            | S hops =>
                let! target := read_link (root ++ cur ++ [c]) in
                secure_join hops root (if is_absolute target then [] else cur) (components target ++ todo)
            end
        | _ => go (cur ++ [c]) todo
        end
    end.

Definition secure_path (root : path) (rel : list name) : M St (list name) :=
  secure_join MAX_SYMLINK_HOPS root [] (map Normal rel).

Definition remove_any (p : path) : M St unit :=
  let! m := symlink_metadata p in
  match m with
  | ROk (Dir _) => remove_dir_all p
  | ROk _ => unlink p
  | RErr ENOENT => ret tt
  | RErr _ => throw Io
  end.

(** The loop of an opaque whiteout. *)
Fixpoint clear_children (parent : path) (created : gset path) (ns : list name) : M St unit :=
  match ns with
  | [] => ret tt
  | n :: ns =>
      do! sys in
      do! (if bool_decide (parent ++ [n] ∈ created) then ret tt else remove_any (parent ++ [n])) in
      clear_children parent created ns
  end.

Fixpoint set_xattrs (p : path) (xs : list (name * bytes)) : M St unit :=
  match xs with
  | [] => ret tt
  | x :: xs => do! change_attrs false p (fun a => MkAttrs (a_mode a) (a_owner a) (a_mtime a) (a_xattrs a ++ [x])) in set_xattrs p xs
  end.

(** The metadata at the end of [apply_entry]. *)
Definition finish_entry (opts : Options) (e : Entry) (target : path) : M St unit :=
  let! mode := ok_or (e_mode e) Io in
  do! (if preserve_owner opts then
         let! uid := ok_or (e_uid e) Io in
         let! gid := ok_or (e_gid e) Io in
         change_attrs false target (fun a => MkAttrs (a_mode a) (Some (U.wrap 32 uid, U.wrap 32 gid)) (a_mtime a) (a_xattrs a))
       else ret tt) in
  do! (match e_type e with
       | TSymlink => ret tt
       | _ => change_attrs true target (fun a => MkAttrs (Some (N.land mode 0xfff)) (a_owner a) (a_mtime a) (a_xattrs a))
       end) in
  do! (if xattrs opts then set_xattrs target (e_xattrs e) else ret tt) in
  change_attrs false target (fun a => MkAttrs (a_mode a) (a_owner a) (Some (default 0 (e_mtime e))) (a_xattrs a)).

(** What the entry's kind makes; [true] when the metadata follows. *)
Definition make_entry (root : path) (opts : Options) (e : Entry) (target : path) : M St (bool * bool) :=
  let special k := if special_files opts then do! create_node target (Special k fresh_attrs) in ret (true, true)
                   else ret (false, false) in
  match e_type e with
  | TDirectory =>
      let! b := target_is_dir target in
      do! (if b then ret tt else create_node target (Dir fresh_attrs)) in ret (true, true)
  | TRegular | TContinuous | TGNUSparse =>
      do! create_node target (File (take (N.to_nat (e_size e)) (e_data e)) fresh_attrs) in
      if lenN (e_data e) <? e_size e then throw Io else ret (true, true)
  | TSymlink =>
      let! link := ok_or (e_link e) Io in
      do! create_node target (Symlink link fresh_attrs) in ret (true, true)
  | TLink =>
      let! raw := ok_or (e_link e) Io in
      let! link := ok_or (normalize (components raw)) Unsupported in
      let! link_parent := secure_path root (removelast link) in
      let! n := ok_or (last link) Io in
      do! hard_link (root ++ link_parent ++ [n]) target in ret (true, false)
  | TChar => special SpChar
  | TBlock => special SpBlock
  | TFifo => special SpFifo
  | TOther => ret (false, false)
  end.

(** What is in the way of the entry goes first. *)
Definition clear_target (e : Entry) (target : path) : M St unit :=
  let! m := symlink_metadata target in
  match e_type e, m with
  | TDirectory, ROk (Dir _) | _, RErr _ => ret tt
  | _, ROk _ => remove_any target
  end.

(** [to_string_lossy] *)
Definition lossy (n : name) : rstr := utf8_lossy (S (length n)) n.

(** [apply_entry]: the paths the layer has created so far, before and after. *)
Definition apply_entry (root : path) (opts : Options) (e : Entry) (created : gset path) : M St (gset path) :=
  let! raw := ok_or (e_path e) Io in
  let! rel := ok_or (normalize (components raw)) Unsupported in
  match last rel with
  | None => ret created
  | Some n =>
      let! cur := secure_path root (removelast rel) in
      let parent := root ++ cur in
      let name_str := lossy n in
      if bool_decide (name_str = OPAQUE) then
        let! m := symlink_metadata parent in
        match m with
        | ROk (Dir _) =>
            let! ns := read_dir parent in
            do! clear_children parent created ns in ret created
        | _ => ret created
        end
      else match strip_prefix WHITEOUT_PREFIX name_str with
           | Some hidden =>
               if bool_decide (hidden = []) || bool_decide (hidden = bstr ".") || bool_decide (hidden = bstr "..") ||
                  existsb (N.eqb 47) hidden then throw Unsupported
               else do! remove_any (parent ++ [as_bytes hidden]) in ret created
           | None =>
               do! create_dir_all parent in
               let target := parent ++ [n] in
               do! clear_target e target in
               let! made := make_entry root opts e target in
               let (noted, meta) := (made : bool * bool) in
               do! (if meta then finish_entry opts e target else ret tt) in
               ret (if noted then {[target]} ∪ created else created)
           end
  end.

(** The loop of [apply_layer]. *)
Fixpoint apply_entries (root : path) (opts : Options) (es : list (option Entry)) (created : gset path) : M St unit :=
  match es with
  | [] => ret tt
  | None :: _ => throw Io
  | Some e :: es =>
      let! created := apply_entry root opts e created in
      apply_entries root opts es created
  end.

Definition apply_layer (root : path) (opts : Options) (es : list (option Entry)) : M St unit :=
  apply_entries root opts es ∅.

(** ** Resolution of paths without links *)

Definition nonlink (t : tree) (p : path) : Prop := forall nd, t !! p = Some nd -> is_symlink nd = false.

Definition wf (t : tree) : Prop := forall p n, is_Some (t !! (p ++ [n])) -> exists a, t !! p = Some (Dir a).

Lemma kwalk_cons hops t follow cur c todo :
  kwalk hops t follow cur (c :: todo) =
  match t !! cur with
  | Some (Dir _) =>
      match c with
      | ParentDir => kwalk hops t follow (removelast cur) todo
      | Normal n =>
          match t !! (cur ++ [n]) with
          | Some (Symlink target _) =>
              if negb follow && bool_decide (todo = []) then ROk (cur ++ [n])
              else match hops with
                   | O => RErr ELOOP
                   | S hops => kwalk hops t follow (if is_absolute target then [] else cur) (components target ++ todo)
                   end
          | _ => kwalk hops t follow (cur ++ [n]) todo
          end
      end
  | Some _ => RErr ENOTDIR
  | None => RErr ENOENT
  end.
Proof. by destruct hops. Qed.

Lemma kwalk_nil hops t follow cur : kwalk hops t follow cur [] = ROk cur.
Proof. by destruct hops. Qed.

(** A path none of whose components is a link (the last one apart, when it is
    not followed) resolves to itself or not at all. *)
Lemma kwalk_straight hops t follow ns cur p :
  (forall x y n, ns = x ++ n :: y -> (follow = true \/ y <> []) -> nonlink t (cur ++ x ++ [n])) ->
  kwalk hops t follow cur (map Normal ns) = ROk p -> p = cur ++ ns.
Proof.
  revert cur. induction ns as [|n ns IH]; intros cur H; cbn [map].
  - rewrite kwalk_nil. intros [= <-]. by rewrite app_nil_r.
  - rewrite kwalk_cons. destruct (t !! cur) as [[]|]; try done.
    assert (kwalk hops t follow (cur ++ [n]) (map Normal ns) = ROk p -> p = cur ++ n :: ns) as Hgo.
    { intros Hk. apply IH in Hk as ->; [by rewrite <- app_assoc|]. intros x y m -> Hf. rewrite <- app_assoc. by apply (H (n :: x) y). }
    destruct (t !! (cur ++ [n])) as [[|?|tg ?|?]|] eqn:E; try done.
    destruct (negb follow && bool_decide (map Normal ns = [])) eqn:Hl.
    + apply andb_prop in Hl as [_ Hn]. apply bool_decide_eq_true in Hn. apply map_eq_nil in Hn as ->. by intros [= <-].
    + exfalso. assert (is_symlink (Symlink tg a0) = false); [|done]. apply (H [] ns n eq_refl); [|exact E].
      apply andb_false_iff in Hl as [Hl|Hl]; [by left; destruct follow|right; intros ->; done].
Qed.

(** The directories of the tree that lead to a node. *)
Lemma wf_prefix t p q : wf t -> is_Some (t !! (p ++ q)) -> q <> [] -> exists a, t !! p = Some (Dir a).
Proof.
  intros H. revert p. induction q as [|n q IH]; intros p Hs Hq; [done|].
  destruct q as [|m q].
  - by apply (H p n).
  - destruct (IH (p ++ [n])) as [a Ha]; [by rewrite <- app_assoc|done|]. by apply (H p n).
Qed.

Definition clean (t : tree) (root : path) (cur : list name) : Prop :=
  forall x y n, cur = x ++ n :: y -> nonlink t (root ++ x ++ [n]).

Lemma clean_prefix t root x y : clean t root (x ++ y) -> clean t root x.
Proof. intros H a b n E. apply (H a (b ++ y)). by rewrite E, <- app_assoc. Qed.

Lemma clean_nil t root : clean t root [].
Proof. intros x y n E. by destruct x. Qed.

Lemma clean_snoc t root cur n : clean t root cur -> nonlink t (root ++ cur ++ [n]) -> clean t root (cur ++ [n]).
Proof.
  intros H Hn x y m E. destruct (decide (y = [])) as [-> |Hy].
  - apply app_inj_tail in E as [-> ->]. done.
  - apply (H x (removelast y)). destruct (exists_last Hy) as (y' & k & ->). rewrite removelast_last.
    rewrite app_comm_cons, app_assoc in E. apply app_inj_tail in E as [E _]. done.
Qed.

Section Root.
Context (t : tree) (root : path) (Hwf : wf t) (Hroot : exists a, t !! root = Some (Dir a)).

Lemma root_nonlink x y : root = x ++ y -> nonlink t x.
Proof.
  intros E nd Hnd. destruct (decide (y = [])) as [-> |Hy].
  - rewrite app_nil_r in E. subst. destruct Hroot as [a Ha]. by simplify_eq.
  - destruct (wf_prefix t x y Hwf) as [a Ha]; [|done|by simplify_eq]. rewrite <- E. destruct Hroot. by eexists.
Qed.

(** Under the root, a clean path resolves to itself. *)
Lemma resolve_clean follow cur n p :
  clean t root cur -> (follow = true -> nonlink t (root ++ cur ++ [n])) ->
  resolve t follow (root ++ cur ++ [n]) = ROk p -> p = root ++ cur ++ [n].
Proof.
  intros Hc Hn Hr. apply kwalk_straight in Hr; [done|]. intros x y m E Hf. cbn [app].
  destruct (decide (y = [])) as [-> |Hy].
  { destruct Hf as [-> |]; [|done]. rewrite <- E. by apply Hn. }
  assert (root ++ cur = (x ++ [m]) ++ removelast y) as E2.
  { destruct (exists_last Hy) as (y' & k & ->). rewrite removelast_last.
    rewrite app_assoc, app_comm_cons, app_assoc in E. apply app_inj_tail in E as [E _]. by rewrite E, <- app_assoc. }
  apply app_eq_app in E2 as (l & [[E3 E4]|[E3 E4]]).
  - by eapply root_nonlink.
  - rewrite E3. destruct l as [|k l]; [rewrite app_nil_r; eapply (root_nonlink root []); by rewrite app_nil_r|].
    destruct (exists_last (l := k :: l)) as (l' & k' & El); [done|]. rewrite El. apply (Hc l' (removelast y) k').
    by rewrite E4, El, <- app_assoc.
Qed.

Lemma resolve_clean_dir follow cur p : clean t root cur -> cur <> [] -> resolve t follow (root ++ cur) = ROk p -> p = root ++ cur.
Proof.
  intros Hc Hne. destruct (exists_last Hne) as (c & n & ->). intros Hr.
  apply resolve_clean in Hr; [done|by eapply clean_prefix|]. intros _. apply (Hc c [] n). done.
Qed.

(** What [lstat] says of such a path is in the tree. *)
Lemma kwalk_dirs hops follow ns cur : (forall x y, ns = x ++ y -> exists a, t !! (cur ++ x) = Some (Dir a)) ->
  forall n, nonlink t (cur ++ ns ++ [n]) \/ follow = false -> kwalk hops t follow cur (map Normal (ns ++ [n])) = ROk (cur ++ ns ++ [n]).
Proof.
  revert cur. induction ns as [|m ns IH]; intros cur H n Hn; cbn [map app]; rewrite kwalk_cons.
  - destruct (H [] [] eq_refl) as [a Ha]. rewrite app_nil_r in Ha. rewrite Ha. cbn [app] in Hn.
    destruct (t !! (cur ++ [n])) as [[|?|tg ?|?]|] eqn:E; try by rewrite kwalk_nil.
    destruct Hn as [Hn| ->]; [by specialize (Hn _ E)|done].
  - destruct (H [] (m :: ns) eq_refl) as [a Ha]. rewrite app_nil_r in Ha. rewrite Ha.
    destruct (H [m] ns eq_refl) as [b Hb]. rewrite Hb.
    rewrite (IH (cur ++ [m])); [by rewrite <- app_assoc| |by rewrite <- app_assoc].
    intros x y ->. rewrite <- app_assoc. by apply (H (m :: x) y).
Qed.

Lemma lstat_in_tree cur n nd :
  clean t root cur -> t !! (root ++ cur ++ [n]) = Some nd -> lstat t (root ++ cur ++ [n]) = ROk nd.
Proof.
  intros Hc Hnd. unfold lstat, resolve. rewrite app_assoc.
  rewrite (kwalk_dirs _ false (root ++ cur) []); [cbn [app]; rewrite <- app_assoc; by rewrite Hnd| |by right].
  intros x y E. cbn [app]. apply (wf_prefix t x (y ++ [n]) Hwf); [|by destruct y].
  rewrite app_assoc, <- E, <- app_assoc. by eexists.
Qed.

(** A name that is no link to [lstat] may be added to a clean path. *)
Lemma clean_lstat cur n : clean t root cur -> (forall tg a, lstat t (root ++ cur ++ [n]) <> ROk (Symlink tg a)) -> clean t root (cur ++ [n]).
Proof.
  intros Hc Hns. apply clean_snoc; [done|]. intros nd Hnd. apply lstat_in_tree in Hnd; [|done].
  destruct nd; try done. by destruct (Hns target a).
Qed.

End Root.

(** ... and its directory is there. *)
Lemma kwalk_straight_dir hops t follow ns n cur p :
  (forall x y m, ns = x ++ m :: y -> nonlink t (cur ++ x ++ [m])) ->
  kwalk hops t follow cur (map Normal (ns ++ [n])) = ROk p -> exists a, t !! (cur ++ ns) = Some (Dir a).
Proof.
  revert cur. induction ns as [|m ns IH]; intros cur H; cbn [map app]; rewrite kwalk_cons.
  - rewrite app_nil_r. destruct (t !! cur) as [[]|]; try done. by eexists.
  - destruct (t !! cur) as [[]|]; try done. intros Hk.
    assert (kwalk hops t follow (cur ++ [m]) (map Normal (ns ++ [n])) = ROk p) as Hgo.
    { destruct (t !! (cur ++ [m])) as [[|?|tg ?|?]|] eqn:E; try done. by specialize (H [] ns m eq_refl _ E). }
    apply IH in Hgo as [b Hb]; [exists b; by rewrite <- app_assoc in Hb|].
    intros x y k ->. rewrite <- app_assoc. by apply (H (m :: x) y).
Qed.

Lemma resolve_clean_parent t root follow cur n p :
  wf t -> (exists a, t !! root = Some (Dir a)) -> clean t root cur ->
  resolve t follow (root ++ cur ++ [n]) = ROk p -> exists a, t !! (root ++ cur) = Some (Dir a).
Proof.
  intros Hwf Hroot Hc Hr. unfold resolve in Hr. rewrite app_assoc in Hr.
  eapply kwalk_straight_dir in Hr; [exact Hr|]. intros x y m E. cbn [app].
  assert (root ++ cur = (x ++ [m]) ++ y) as E2 by (by rewrite E, <- app_assoc).
  apply app_eq_app in E2 as (l & [[E3 E4]|[E3 E4]]).
  - by eapply root_nonlink.
  - rewrite E3. destruct l as [|k l]; [rewrite app_nil_r; eapply (root_nonlink t root Hwf Hroot root []); by rewrite app_nil_r|].
    destruct (exists_last (l := k :: l)) as (l' & k' & El); [done|]. rewrite El. apply (Hc l' y k').
    by rewrite E4, El, <- app_assoc.
Qed.

(** ** Containment *)

(** [p] lies strictly below [root]. *)
Definition below (root p : path) : Prop := exists n x, p = root ++ n :: x.

Section Contained.
Context (root : path) (t0 : tree).

(** The invariant of an unpacking that began with the tree [t0]: the tree is
    well formed, the root is a directory, nothing outside it has changed, and
    the path [cur] below it holds no link; and no [fs::symlink_metadata] is to
    fail. *)
Record contained (cur : list name) (s : St) : Prop := {
  c_wf : wf (fs s);
  c_root : exists a, fs s !! root = Some (Dir a);
  c_clean : clean (fs s) root cur;
  c_outside : forall p, ~ below root p -> fs s !! p = t0 !! p;
  c_stat : true ∉ lfaults s
}.

Lemma contained_prefix x y s : contained (x ++ y) s -> contained x s.
Proof. intros [H1 H2 H3 H4 H5]. split; try done. by eapply clean_prefix. Qed.

Lemma contained_weak cur s : contained cur s -> contained [] s.
Proof. intros H. by apply (contained_prefix [] cur). Qed.

Lemma contained_snoc cur n s : contained cur s -> nonlink (fs s) (root ++ cur ++ [n]) -> contained (cur ++ [n]) s.
Proof. intros [H1 H2 H3 H4 H5] Hn. split; try done. by apply clean_snoc. Qed.

(** Computations that end normally or with an error, never outside the
    invariant. *)
Definition hoare {A} (P : St -> Prop) (m : M St A) (Q : A -> St -> Prop) : Prop :=
  forall s, P s -> match m s with (Ok a, s') => Q a s' | (Err _, s') => contained [] s' | _ => False end.

Lemma hoare_ret {A} (P : St -> Prop) (a : A) : hoare P (ret a) (fun _ => P).
Proof. by intros s H. Qed.

Lemma hoare_throw {A} cur e (Q : A -> St -> Prop) : hoare (contained cur) (throw e) Q.
Proof. intros s H. by eapply contained_weak. Qed.

Lemma hoare_ok_or {A} cur (o : option A) e : hoare (contained cur) (ok_or o e) (fun _ => contained cur).
Proof. intros s H. destruct o; [done|by eapply contained_weak]. Qed.

Lemma hoare_gets {A} (P : St -> Prop) (f : St -> A) : hoare P (gets f) (fun a s => P s /\ a = f s).
Proof. by intros s H. Qed.

Lemma hoare_bind {A B} P (m : M St A) R (f : A -> M St B) Q :
  hoare P m R -> (forall a, hoare (R a) (f a) Q) -> hoare P (bind m f) Q.
Proof.
  intros Hm Hf s H. specialize (Hm s H). unfold bind. destruct (m s) as [[a|e| |] s']; try done. by apply Hf.
Qed.

Lemma hoare_conseq {A} (P P' : St -> Prop) (m : M St A) (Q Q' : A -> St -> Prop) :
  hoare P m Q -> (forall s, P' s -> P s) -> (forall a s, Q a s -> Q' a s) -> hoare P' m Q'.
Proof. intros H HP HQ s Hs. specialize (H s (HP s Hs)). destruct (m s) as [[]]; auto. Qed.

Lemma hoare_pre {A} (P P' : St -> Prop) (m : M St A) Q : hoare P m Q -> (forall s, P' s -> P s) -> hoare P' m Q.
Proof. intros H HP s Hs. apply H. by apply HP. Qed.

Lemma hoare_and {A} P P' (m : M St A) Q Q' : hoare P m Q -> hoare P' m Q' -> hoare (fun s => P s /\ P' s) m (fun a s => Q a s /\ Q' a s).
Proof. intros H H' s [HP HP']. specialize (H s HP). specialize (H' s HP'). by destruct (m s) as [[]]. Qed.

Lemma hoare_sys cur : hoare (contained cur) sys (fun _ => contained cur).
Proof.
  intros s H. unfold sys. destruct (faults s) as [|[] fl]; [done|..].
  - apply contained_weak in H as [H1 H2 H3 H4 H5]. by split.
  - destruct H as [H1 H2 H3 H4 H5]. by split.
Qed.

Lemma hoare_metadata cur p : hoare (contained cur) (symlink_metadata p) (fun m s => contained cur s /\ m = lstat (fs s) p).
Proof.
  intros s H. unfold symlink_metadata. destruct (lfaults s) as [|[] fl] eqn:E; [done|..].
  - destruct (c_stat _ _ H). rewrite E. left.
  - split; [|done]. destruct H as [H1 H2 H3 H4 H5]. split; try done. rewrite E in H5. set_solver.
Qed.

Lemma hoare_is_dir cur p : hoare (contained cur) (target_is_dir p) (fun _ => contained cur).
Proof.
  intros s H. unfold target_is_dir, try_ok, sys, gets, ret. destruct H as [H1 H2 H3 H4 H5].
  destruct (faults s) as [|[] fl]; by split.
Qed.

(** A call on [root ++ c ++ [n]], with [c] on the clean path, works on that very
    node. *)
Lemma hoare_at_path {A} cur c y n follow (k : path -> option node -> M St A) h Q :
  cur = c ++ y ->
  (forall s, contained cur s -> (follow = true -> nonlink (fs s) (root ++ c ++ [n])) ) ->
  hoare (fun s => contained cur s) (h ENOENT) Q -> hoare (fun s => contained cur s) (h ENOTDIR) Q ->
  hoare (fun s => contained cur s) (h ELOOP) Q -> hoare (fun s => contained cur s) (h EIO) Q ->
  (forall o, hoare (fun s => contained cur s /\ fs s !! (root ++ c ++ [n]) = o /\
                   exists a, fs s !! (root ++ c) = Some (Dir a)) (k (root ++ c ++ [n]) o) Q) ->
  hoare (contained cur) (at_path follow (root ++ c ++ [n]) k h) Q.
Proof.
  intros -> Hn H1 H2 H3 H4 Hk. unfold at_path. eapply hoare_bind; [apply hoare_sys|]. intros [].
  eapply hoare_bind; [apply hoare_gets|]. intros t s [Hs Ht]. subst t.
  destruct (resolve (fs s) follow (root ++ c ++ [n])) as [q|e] eqn:E.
  - assert (clean (fs s) root c) as Hc by (eapply clean_prefix; apply Hs).
    assert (q = root ++ c ++ [n]) as Hq by (eapply resolve_clean; [apply Hs|apply Hs|done| |exact E]; by apply Hn).
    subst q. apply Hk. split_and!; [done|done|]. eapply resolve_clean_parent; [apply Hs|apply Hs|done|exact E].
  - by destruct e; [apply H1|apply H2|apply H3|apply H4].
Qed.

(** Writing a node that is no link of the clean path, under a directory. *)
Lemma contained_insert (cur c : list name) (n : name) (nd : node) (s : St) :
  contained cur s -> (exists a, fs s !! (root ++ c) = Some (Dir a)) ->
  (forall a, fs s !! (root ++ c ++ [n]) = Some (Dir a) -> is_dir nd = true) ->
  (is_symlink nd = false \/ ~ (c ++ [n]) `prefix_of` cur) ->
  contained cur (MkSt (<[root ++ c ++ [n] := nd]> (fs s)) (faults s) (lfaults s)).
Proof.
  intros [H1 H2 H3 H4 H5] [a Ha] Hdir Hl. split; simpl.
  - intros p m Hs. destruct (decide (p = root ++ c ++ [n])) as [-> |Hne].
    + rewrite lookup_insert_eq. destruct (decide ((root ++ c ++ [n]) ++ [m] = root ++ c ++ [n])) as [E|Hne].
      { apply (f_equal length) in E. rewrite !length_app in E. simpl in E. lia. }
      rewrite lookup_insert_ne in Hs by done. destruct (H1 _ _ Hs) as [b Hb]. specialize (Hdir b Hb).
      destruct nd; try done. by eexists.
    + rewrite lookup_insert_ne by done. destruct (decide (p ++ [m] = root ++ c ++ [n])) as [E|Hne2].
      * rewrite !app_assoc in E. apply app_inj_tail in E as [-> _]. by exists a.
      * rewrite lookup_insert_ne in Hs by done. by apply (H1 p m).
  - destruct H2 as [b Hb]. exists b. rewrite lookup_insert_ne; [done|]. intros E. apply (f_equal length) in E.
    rewrite !length_app in E. simpl in E. lia.
  - intros x y m Ec. unfold nonlink. destruct (decide (c ++ [n] = x ++ [m])) as [E|Hne].
    + rewrite E, lookup_insert_eq. intros nd' [= <-]. destruct Hl as [?|Hl]; [done|]. destruct Hl.
      rewrite E, Ec. exists y. by rewrite <- app_assoc.
    + rewrite lookup_insert_ne; [by apply (H3 x y m)|]. intros E. apply Hne. by apply app_inv_head in E.
  - intros p Hp. rewrite lookup_insert_ne; [by apply H4|]. intros <-. apply Hp.
    destruct c as [|k c]; simpl; [by exists n, []|by exists k, (c ++ [n])].
  - done.
Qed.

Lemma below_path c n : below root (root ++ c ++ [n]).
Proof. destruct c as [|k c]; simpl; [by exists n, []|by exists k, (c ++ [n])]. Qed.

(** Removing nodes, the whole of a subtree or one that is no directory. *)
Lemma contained_remove (cur : list name) (s : St) (t : tree) :
  contained cur s -> (forall p nd, t !! p = Some nd -> fs s !! p = Some nd) ->
  (forall p n, is_Some (t !! (p ++ [n])) -> is_Some (t !! p)) -> (forall p, ~ below root p -> t !! p = fs s !! p) ->
  contained cur (MkSt t (faults s) (lfaults s)).
Proof.
  intros [H1 H2 H3 H4 H5] Hsub Hup Hout. split; simpl.
  - intros p n Hs. destruct (Hup p n Hs) as [nd Hnd]. destruct Hs as [x Hx]. apply Hsub in Hx.
    destruct (H1 p n) as [a Ha]; [by eexists|]. apply Hsub in Hnd as Hnd'. simplify_eq. by eexists.
  - destruct H2 as [a Ha]. exists a. rewrite Hout; [done|]. intros (n & x & E). apply (f_equal length) in E. rewrite length_app in E. simpl in E. lia.
  - intros x y n E nd Hnd. by apply (H3 x y n E), Hsub.
  - intros p Hp. rewrite Hout by done. by apply H4.
  - done.
Qed.


Lemma below_not_prefix (c : list name) (n : name) : ~ (c ++ [n]) `prefix_of` c.
Proof. intros H%prefix_length. rewrite length_app in H. simpl in H. lia. Qed.

Lemma hoare_io_err {A} cur e (Q : A -> St -> Prop) : hoare (contained cur) (io_err e) Q.
Proof. apply hoare_throw. Qed.

Lemma hoare_create (cur c y : list name) (n : name) (nd : node) :
  cur = c ++ y -> is_symlink nd = false \/ ~ (c ++ [n]) `prefix_of` cur ->
  hoare (contained cur) (create_node (root ++ c ++ [n]) nd)
    (fun _ s => contained cur s /\ fs s !! (root ++ c ++ [n]) = Some nd).
Proof.
  intros E Hl. unfold create_node. eapply hoare_at_path; [exact E|done|apply hoare_io_err..|].
  intros [o|]; [eapply hoare_pre; [apply hoare_throw|]; by intros s (? & _)|].
  intros s (H & Hn & Hd). simpl. split; [|by rewrite lookup_insert_eq].
  apply contained_insert; try done. intros a Ha. congruence.
Qed.

Lemma contained_delete cur s p : contained cur s -> below root p -> (forall n, fs s !! (p ++ [n]) = None) ->
  contained cur (MkSt (delete p (fs s)) (faults s) (lfaults s)).
Proof.
  intros H Hb Hleaf. apply contained_remove; [done|..].
  - intros q nd Hq. by apply lookup_delete_Some in Hq as [_ ?].
  - intros q n [x Hx]. apply lookup_delete_Some in Hx as [Hne Hx]. rewrite lookup_delete_ne; [|by intros ->; rewrite Hleaf in Hx].
    destruct (c_wf _ _ H q n) as [a Ha]; by eexists.
  - intros q Hq. rewrite lookup_delete_ne; [done|]. by intros ->.
Qed.

(** Removing a directory node by node: the nodes below it are among those still to go. *)
Lemma hoare_remove_nodes cur q ps : below root q -> StronglySorted deeper ps -> Forall (prefix q) ps ->
  hoare (fun s => contained cur s /\ forall p, q `prefix_of` p -> is_Some (fs s !! p) -> p ∈ ps) (remove_nodes ps)
    (fun _ s => contained cur s /\ forall p, q `prefix_of` p -> fs s !! p = None).
Proof.
  intros Hb. induction ps as [|p ps IH]; intros Hso Hpre; cbn [remove_nodes].
  - intros s [Hs Hin]. split; [done|]. intros p Hp. apply eq_None_not_Some. intros H. by apply Hin, elem_of_nil in H.
  - apply StronglySorted_inv in Hso as [Hso Hd]. apply Forall_cons in Hpre as [Hp Hpre].
    eapply (hoare_bind _ _ (fun _ s => contained cur s /\ forall r, q `prefix_of` r -> is_Some (fs s !! r) -> r ∈ p :: ps)).
    { intros s [Hs Hin]. pose proof (hoare_sys cur s Hs) as H. unfold sys in *. by destruct (faults s) as [|[] fl]. }
    intros []. eapply (hoare_bind _ _ (fun _ s => contained cur s /\ forall r, q `prefix_of` r -> is_Some (fs s !! r) -> r ∈ ps)); [|intros []; by apply IH].
    intros s [Hs Hin]. simpl. split.
    + apply contained_delete; [done| |].
      * destruct Hb as (n & x & ->). destruct Hp as [z ->]. exists n, (x ++ z). by rewrite <- !app_assoc.
      * intros n. apply eq_None_not_Some. intros H. apply Hin in H; [|by apply prefix_app_r]. apply elem_of_cons in H as [H|H].
        { apply (f_equal length) in H. rewrite length_app in H. simpl in H. lia. }
        rewrite Forall_forall in Hd. specialize (Hd _ H). unfold deeper in Hd. rewrite length_app in Hd. simpl in Hd. lia.
    + intros r Hr [x Hx]. apply lookup_delete_Some in Hx as [Hne Hx]. specialize (Hin r Hr ltac:(by eexists)). set_solver.
Qed.

#[local] Instance deeper_trans : Transitive deeper.
Proof. intros x y z. unfold deeper. lia. Qed.
#[local] Instance deeper_total : Total deeper.
Proof. intros x y. unfold deeper. lia. Qed.

Lemma elem_subtree q t p : p ∈ subtree q t <-> q `prefix_of` p /\ is_Some (t !! p).
Proof.
  unfold subtree. rewrite merge_sort_Permutation, list_elem_of_filter, list_elem_of_fmap. split.
  - intros [Hp ([r nd] & -> & Hr)]. split; [done|]. apply elem_of_map_to_list in Hr. by eexists.
  - intros [Hp [nd Hnd]]. split; [done|]. exists (p, nd). by rewrite elem_of_map_to_list.
Qed.

(** The two removals of [remove_any] leave nothing at the path. *)
Lemma hoare_unlink cur c y n : cur = c ++ y ->
  hoare (contained cur) (unlink (root ++ c ++ [n])) (fun _ s => contained cur s /\ fs s !! (root ++ c ++ [n]) = None).
Proof.
  intros E. unfold unlink. eapply hoare_at_path; [exact E|done|apply hoare_io_err..|].
  intros o s (H & Ho & Hd).
  assert (o <> None -> (forall a, o <> Some (Dir a)) -> forall m, fs s !! ((root ++ c ++ [n]) ++ [m]) = None) as Hleaf.
  { intros _ Hnd m. destruct (fs s !! ((root ++ c ++ [n]) ++ [m])) eqn:Em; [|done].
    destruct (c_wf _ _ H (root ++ c ++ [n]) m) as [a Ha]; [by eexists|]. exfalso. apply (Hnd a). congruence. }
  destruct o as [[|?|?|?]|]; simpl; try (by eapply contained_weak).
  all: split; [|by rewrite lookup_delete_eq]; apply contained_delete; [done|apply below_path|by apply Hleaf].
Qed.

Lemma hoare_remove_dir_all cur c y n : cur = c ++ y ->
  hoare (contained cur) (remove_dir_all (root ++ c ++ [n])) (fun _ s => contained cur s /\ fs s !! (root ++ c ++ [n]) = None).
Proof.
  intros E. unfold remove_dir_all. eapply hoare_at_path; [exact E|done|apply hoare_io_err..|].
  intros o s (H & Ho & Hd). destruct o as [[|?|?|?]|]; try (by eapply contained_weak).
  pose proof (hoare_remove_nodes cur (root ++ c ++ [n]) (subtree (root ++ c ++ [n]) (fs s)) (below_path c n)) as Hn.
  specialize (Hn ltac:(unfold subtree; apply StronglySorted_merge_sort; apply _)).
  specialize (Hn ltac:(apply Forall_forall; by intros p [Hp _]%elem_subtree)).
  specialize (Hn s). unfold bind, gets. destruct (remove_nodes _ s) as [[[]|e| |] s'].
  2-4: apply Hn; split; [done|]; intros p Hp Hs; by apply elem_subtree.
  destruct Hn as [H1 H2]; [split; [done|]; intros p Hp Hs; by apply elem_subtree|]. split; [done|]. by apply H2.
Qed.

Lemma hoare_remove_any cur c y n : cur = c ++ y ->
  hoare (contained cur) (remove_any (root ++ c ++ [n])) (fun _ s => contained cur s /\ fs s !! (root ++ c ++ [n]) = None).
Proof.
  intros E. unfold remove_any. eapply hoare_bind; [apply hoare_metadata|]. intros m s [Hs Ht]. subst m.
  destruct (lstat (fs s) (root ++ c ++ [n])) as [nd|e] eqn:El.
  - destruct nd; [by eapply hoare_remove_dir_all|by eapply hoare_unlink..].
  - destruct e; simpl; [|by eapply contained_weak..]. split; [done|].
    destruct (fs s !! (root ++ c ++ [n])) as [nd|] eqn:En; [|done]. exfalso.
    apply (lstat_in_tree _ _ (c_wf _ _ Hs)) in En; [congruence|]. eapply clean_prefix. rewrite <- E. apply Hs.
Qed.

Lemma hoare_change follow cur c y n f : cur = c ++ y -> (follow = true -> y <> [] /\ exists z, y = n :: z) ->
  hoare (contained cur) (change_attrs follow (root ++ c ++ [n]) f) (fun _ => contained cur).
Proof.
  intros E Hf. unfold change_attrs. eapply hoare_at_path; [exact E| |apply hoare_io_err..|].
  - intros s Hs Hft. destruct (Hf Hft) as [_ [z ->]]. by apply (c_clean _ _ Hs c z n).
  - intros o s (H & Ho & Hd). destruct o as [nd|]; simpl; [|by eapply contained_weak].
    apply contained_insert; [done|done|intros a Ha; assert (nd = Dir a) as -> by congruence; done|].
    destruct (is_symlink nd) eqn:Es; [|left; by destruct nd]. right. intros [z Hz].
    assert (is_symlink nd = false); [|congruence]. apply (c_clean _ _ H c z n); [by rewrite Hz, <- app_assoc|done].
Qed.

(** A call that only looks may go anywhere. *)
Lemma hoare_look {A} follow cur p (k : path -> option node -> M St A) h Q :
  (forall q o, hoare (contained cur) (k q o) Q) -> (forall e, hoare (contained cur) (h e) Q) ->
  hoare (contained cur) (at_path follow p k h) Q.
Proof.
  intros Hk Hh. unfold at_path. eapply hoare_bind; [apply hoare_sys|]. intros [].
  eapply hoare_bind; [apply hoare_gets|]. intros t s [Hs _]. destruct (resolve t follow p); [by apply Hk|by apply Hh].
Qed.

Lemma hoare_read_dir cur p : hoare (contained cur) (read_dir p) (fun _ => contained cur).
Proof.
  apply hoare_look; [|intros e; apply hoare_throw]. intros q o. destruct o as [[|?|?|?]|]; try apply hoare_throw.
  eapply hoare_bind; [apply hoare_gets|]. intros t. eapply hoare_pre; [apply hoare_ret|]. by intros s [? _].
Qed.

Lemma hoare_hard_link cur c y src n : cur = c ++ y -> ~ (c ++ [n]) `prefix_of` cur ->
  hoare (contained cur) (hard_link src (root ++ c ++ [n])) (fun _ => contained cur).
Proof.
  intros E Hp. apply hoare_look; [|intros e; apply hoare_throw]. intros q o.
  assert (forall nd, hoare (contained cur) (create_node (root ++ c ++ [n]) nd) (fun _ => contained cur)) as Hc.
  { intros nd. eapply hoare_conseq; [eapply hoare_create; [exact E|by right]|done|]. by intros [] s [? _]. }
  destruct o as [[|?|?|?]|]; try apply hoare_throw; apply Hc.
Qed.

(** [mkdir] of a directory on the way to [root ++ cur]. *)
Lemma hoare_mkdir cur p z : root ++ cur = p ++ z -> hoare (contained cur) (mkdir p) (fun _ => contained cur).
Proof.
  intros Ep s Hs. unfold mkdir, try_ok, sys. 
  assert (forall fl, contained cur (MkSt (fs s) fl (lfaults s))) as Hfl by (intros fl; by destruct Hs; split).
  assert (forall fl, match (let! t := gets fs in
      match resolve t false p with
      | ROk q => match t !! q with
                 | Some _ => ret (RErr false)
                 | None => do! set_fs (<[q := Dir fresh_attrs]> t) in ret (ROk tt)
                 end
      | RErr ENOENT => ret (RErr true)
      | RErr _ => ret (RErr false)
      end) (MkSt (fs s) fl (lfaults s)) with (Ok _, s') => contained cur s' | (Err _, s') => contained [] s' | _ => False end) as Hmain.
  { intros fl. unfold bind, gets, ret. simpl.
    destruct (resolve (fs s) false p) as [q|[]] eqn:E; simpl; try done.
    destruct (fs s !! q) as [nd|] eqn:Eq; [done|]. simpl.
    apply app_eq_app in Ep as (l & [[Er Ez]|[Er Ez]]).
    - (* on the root's own path: it is there *)
      exfalso. assert (q = p) as ->.
      { unfold resolve in E. apply kwalk_straight in E; [done|]. intros x y n Hx _. cbn [app].
        eapply (root_nonlink (fs s) root); [apply Hs|apply Hs|]. rewrite Er, Hx, <- !app_assoc. reflexivity. }
      destruct l as [|k l].
      + rewrite app_nil_r in Er. subst p. destruct (c_root _ _ Hs) as [a Ha]. congruence.
      + destruct (wf_prefix (fs s) p (k :: l)) as [a Ha]; [apply Hs|rewrite <- Er; destruct (c_root _ _ Hs); by eexists|done|congruence].
    - destruct (decide (l = [])) as [-> |Hne].
      + exfalso. rewrite app_nil_r in Er. subst p.
        assert (q = root) as ->.
        { unfold resolve in E. apply kwalk_straight in E; [done|]. intros x y n Hx _. cbn [app].
          eapply (root_nonlink (fs s) root); [apply Hs|apply Hs|]. rewrite Hx, <- app_assoc. reflexivity. }
        destruct (c_root _ _ Hs) as [a Ha]. congruence.
      + destruct (exists_last Hne) as (c & n & ->).
        assert (clean (fs s) root c) as Hc by (eapply (clean_prefix _ _ c ([n] ++ z)); rewrite app_assoc, <- Ez; apply Hs).
        assert (q = root ++ c ++ [n]) as -> by (rewrite Er in E; by apply resolve_clean in E; [| apply Hs | apply Hs | |]).
        apply (contained_insert cur c n (Dir fresh_attrs) (MkSt (fs s) fl (lfaults s))); [done| |done|by left].
        rewrite Er in E. eapply resolve_clean_parent in E; [exact E|apply Hs|apply Hs|done]. }
  destruct (faults s) as [|[] fl] eqn:Ef; simpl; [|done|by apply Hmain].
  specialize (Hmain []). by replace (MkSt (fs s) [] (lfaults s)) with s in Hmain by (destruct s; simpl in *; by subst).
Qed.

Lemma hoare_create_dirs cur rp z : root ++ cur = reverse rp ++ z -> hoare (contained cur) (create_dirs rp) (fun _ => contained cur).
Proof.
  revert z. induction rp as [|n rp IH]; intros z E; [apply hoare_ret|]. cbn [create_dirs].
  assert (hoare (contained cur) (let! b := target_is_dir (reverse (n :: rp)) in if b then ret tt else throw Io) (fun _ => contained cur)) as Hor.
  { eapply hoare_bind; [apply hoare_is_dir|]. intros []; [apply hoare_ret|apply hoare_throw]. }
  eapply hoare_bind; [by eapply hoare_mkdir|]. intros [[]|[|]]; [apply hoare_ret| |apply Hor].
  eapply hoare_bind; [apply (IH (n :: z)); by rewrite E, reverse_cons, <- app_assoc|]. intros [].
  eapply hoare_bind; [by eapply hoare_mkdir|]. intros [[]|b]; [apply hoare_ret|apply Hor].
Qed.

Lemma hoare_clear_children cur created ns :
  hoare (contained cur) (clear_children (root ++ cur) created ns) (fun _ => contained cur).
Proof.
  induction ns as [|n ns IH]; [apply hoare_ret|]. cbn [clear_children]. eapply hoare_bind; [apply hoare_sys|]. intros []. eapply hoare_bind.
  - instantiate (1 := fun _ => contained cur). rewrite <- app_assoc. case_bool_decide; [apply hoare_ret|].
    eapply hoare_conseq; [eapply (hoare_remove_any cur cur []); by rewrite app_nil_r|done|]. by intros [] s [? _].
  - intros []. exact IH.
Qed.

Lemma hoare_set_xattrs cur c y n xs : cur = c ++ y -> hoare (contained cur) (set_xattrs (root ++ c ++ [n]) xs) (fun _ => contained cur).
Proof.
  intros E. induction xs as [|x xs IH]; [apply hoare_ret|]. cbn [set_xattrs].
  eapply hoare_bind; [by eapply hoare_change|]. by intros [].
Qed.

Lemma hoare_finish cur c y n opts e :
  cur = c ++ y -> e_type e = TSymlink \/ (exists z, y = n :: z) ->
  hoare (contained cur) (finish_entry opts e (root ++ c ++ [n])) (fun _ => contained cur).
Proof.
  intros E He. unfold finish_entry. eapply hoare_bind; [apply hoare_ok_or|]. intros mode.
  eapply (hoare_bind _ _ (fun _ => contained cur)).
  { destruct (preserve_owner opts); [|apply hoare_ret]. eapply hoare_bind; [apply hoare_ok_or|]. intros uid.
    eapply hoare_bind; [apply hoare_ok_or|]. intros gid. by eapply hoare_change. }
  intros []. eapply (hoare_bind _ _ (fun _ => contained cur)).
  { destruct He as [-> |[z ->]]; [apply hoare_ret|].
    assert (forall f, hoare (contained cur) (change_attrs true (root ++ c ++ [n]) f) (fun _ => contained cur)) as Hch.
    { intros f. eapply hoare_change; [exact E|]. intros _. split; [done|by eexists]. }
    destruct (e_type e); try apply Hch. apply hoare_ret. }
  intros []. eapply (hoare_bind _ _ (fun _ => contained cur)).
  { destruct (xattrs opts); [by eapply hoare_set_xattrs|apply hoare_ret]. }
  intros []. by eapply hoare_change.
Qed.

Lemma hoare_read_link cur p : hoare (contained cur) (read_link p) (fun _ => contained cur).
Proof.
  apply hoare_look; [|intros e; apply hoare_throw]. intros q o. destruct o as [[|?|?|?]|]; first [apply hoare_throw|apply hoare_ret].
Qed.

(** The names [secure_join] returns hold no link, while it may be asked on any path. *)
Lemma hoare_secure_join c0 hops cur todo :
  hoare (fun s => contained c0 s /\ contained cur s) (secure_join hops root cur todo) (fun r s => contained c0 s /\ contained r s).
Proof.
  revert cur todo. induction hops as [|hops IHh]; intros cur todo; revert cur; induction todo as [|[n|] todo IH]; intros cur; cbn [secure_join].
  all: try (by intros s H).
  all: try (eapply hoare_pre; [apply IH|]; intros s [H0 H]; split; [done|]; destruct (decide (cur = [])) as [-> |Hne]; [done|];
            destruct (exists_last Hne) as (c & k & ->); rewrite removelast_last; by eapply contained_prefix).
  all: eapply hoare_bind; [apply hoare_and; apply hoare_metadata|]; intros m s [[H0 _] [H ->]].
  all: assert ((forall tg a, lstat (fs s) (root ++ cur ++ [n]) <> ROk (Symlink tg a)) -> contained (cur ++ [n]) s) as Hp
    by (intros Hns; destruct H as [H1 H2 H3 H4 H5]; split; try done; by apply clean_lstat).
  - destruct (lstat (fs s) (root ++ cur ++ [n])) as [[]|] eqn:E; try (apply IH; split; [done|by apply Hp]).
    by eapply contained_weak.
  - destruct (lstat (fs s) (root ++ cur ++ [n])) as [[]|] eqn:E; try (apply IH; split; [done|by apply Hp]).
    refine (hoare_bind _ _ _ _ _ (hoare_and _ _ _ _ _ (hoare_read_link c0 _) (hoare_read_link cur _)) _ s (conj H0 H)). intros tg.
    eapply hoare_pre; [apply IHh|]. intros s' [H0' H']. split; [done|]. destruct (is_absolute tg); [by eapply contained_weak|done].
Qed.

Lemma hoare_secure_path cur rel : hoare (contained cur) (secure_path root rel) (fun r s => contained cur s /\ contained r s).
Proof. eapply hoare_pre; [apply hoare_secure_join|]. intros s H. split; [done|by eapply contained_weak]. Qed.

(** What [make_entry] leaves: a target that is no link, unless a link was
    asked for. *)
Definition made (c : list name) (n : name) (e : Entry) (r : bool * bool) (s : St) : Prop :=
  contained c s /\ (e_type e <> TSymlink -> r.2 = true -> contained (c ++ [n]) s).

Lemma hoare_make c n opts e :
  hoare (contained (c ++ [n])) (make_entry root opts e (root ++ c ++ [n])) (made c n e).
Proof.
  assert (forall nd, is_symlink nd = false ->
    hoare (contained (c ++ [n])) (do! create_node (root ++ c ++ [n]) nd in ret (true, true)) (made c n e)) as Hnew.
  { intros nd Hnd. eapply hoare_bind; [eapply (hoare_create _ c [n]); [done|by left]|]. intros [] s [H _]. simpl.
    split; [by eapply contained_prefix|done]. }
  assert (forall b, hoare (contained (c ++ [n])) (ret (b, false)) (made c n e)) as Hnone.
  { intros b s H. simpl. split; [by eapply contained_prefix|done]. }
  assert (forall k, hoare (contained (c ++ [n])) (if special_files opts
      then do! create_node (root ++ c ++ [n]) (Special k fresh_attrs) in ret (true, true) else ret (false, false)) (made c n e)) as Hsp.
  { intros k. destruct (special_files opts); [by apply Hnew|apply Hnone]. }
  assert (hoare (contained (c ++ [n])) (do! create_node (root ++ c ++ [n]) (File (take (N.to_nat (e_size e)) (e_data e)) fresh_attrs) in
      if lenN (e_data e) <? e_size e then throw Io else ret (true, true)) (made c n e)) as Hfile.
  { eapply hoare_bind; [eapply (hoare_create _ c [n]); [done|by left]|]. intros [] s [H _].
    destruct (_ <? _); simpl; [by eapply contained_weak|split; [by eapply contained_prefix|done]]. }
  unfold make_entry. destruct (e_type e) eqn:Ee; try apply Hsp; try apply Hfile; try apply Hnone.
  - eapply hoare_bind; [apply hoare_is_dir|]. intros []; [|by apply Hnew]. intros s H. simpl. split; [by eapply contained_prefix|done].
  - eapply hoare_bind; [apply hoare_ok_or|]. intros link.
    eapply hoare_bind; [eapply (hoare_pre (contained c)); [eapply (hoare_create c c []); [by rewrite app_nil_r|right; apply below_not_prefix]|intros s; apply contained_prefix]|].
    intros [] s [H _]. simpl. by split.
  - eapply hoare_bind; [apply hoare_ok_or|]. intros raw. eapply hoare_bind; [apply hoare_ok_or|]. intros link.
    eapply hoare_bind; [apply hoare_secure_path|]. intros lp. eapply (hoare_pre (contained c)); [|intros s [? _]; by eapply contained_prefix].
    eapply hoare_bind; [apply hoare_ok_or|]. intros m.
    eapply hoare_bind; [eapply (hoare_hard_link c c []); [by rewrite app_nil_r|apply below_not_prefix]|].
    intros [] s H. simpl. by split.
Qed.

Lemma hoare_clear_target c n e :
  hoare (contained c) (clear_target e (root ++ c ++ [n])) (fun _ => contained (c ++ [n])).
Proof.
  unfold clear_target. eapply hoare_bind; [apply hoare_metadata|]. intros m s [Hs Ht]. subst m.
  assert (forall b, fs s !! (root ++ c ++ [n]) = b -> (forall nd, b = Some nd -> is_symlink nd = false) -> contained (c ++ [n]) s) as Hsn.
  { intros b Hb Hnl. apply contained_snoc; [done|]. intros nd Hnd. apply Hnl. congruence. }
  assert (hoare (contained c) (remove_any (root ++ c ++ [n])) (fun _ => contained (c ++ [n]))) as Hrm.
  { eapply hoare_conseq; [eapply (hoare_remove_any c c []); by rewrite app_nil_r|done|]. intros [] s' [H1 H2].
    apply contained_snoc; [done|]. intros nd Hnd. congruence. }
  assert (forall nd, lstat (fs s) (root ++ c ++ [n]) = ROk nd -> fs s !! (root ++ c ++ [n]) = Some nd) as Hl.
  { intros nd. unfold lstat. destruct (resolve (fs s) false _) as [q|] eqn:Eq; [|done].
    apply resolve_clean in Eq; [|apply Hs|apply Hs|apply Hs|done]. subst q. destruct (fs s !! _); [|done]. by intros [= ->]. }
  assert (forall er, lstat (fs s) (root ++ c ++ [n]) = RErr er -> fs s !! (root ++ c ++ [n]) = None) as Hl2.
  { intros er Her. destruct (fs s !! (root ++ c ++ [n])) eqn:En; [|done]. apply (lstat_in_tree _ _ (c_wf _ _ Hs)) in En; [congruence|apply Hs]. }
  destruct (lstat (fs s) (root ++ c ++ [n])) as [nd|er] eqn:El.
  - specialize (Hl nd eq_refl). specialize (Hrm s Hs). destruct (e_type e), nd; try exact Hrm; simpl.
    eapply Hsn; [exact Hl|]. by intros nd [= <-].
  - destruct (e_type e); simpl; (eapply Hsn; [by eapply Hl2|done]).
Qed.

Lemma hoare_apply_entry opts e created :
  hoare (contained []) (apply_entry root opts e created) (fun _ => contained []).
Proof.
  assert (forall c (x : gset path), hoare (contained c) (ret x) (fun _ => contained [])) as Hret
    by (intros c x s H; by eapply contained_weak).
  unfold apply_entry. eapply hoare_bind; [apply hoare_ok_or|]. intros raw. eapply hoare_bind; [apply hoare_ok_or|]. intros rel.
  destruct (last rel) as [n|]; [|apply Hret].
  eapply hoare_bind; [apply hoare_secure_path|]. intros c. eapply (hoare_pre (contained c)); [|by intros s [_ ?]].
  case_bool_decide.
  { eapply hoare_bind; [apply hoare_metadata|]. intros m. eapply (hoare_pre (contained c)); [|by intros s [? _]].
    destruct m as [[]|]; try apply Hret.
    eapply hoare_bind; [apply hoare_read_dir|]. intros ns. eapply hoare_bind; [apply hoare_clear_children|]. intros []. apply Hret. }
  destruct (strip_prefix WHITEOUT_PREFIX (lossy n)) as [hidden|].
  { destruct (_ || _ || _ || _); [apply hoare_throw|]. rewrite <- app_assoc.
    eapply hoare_bind; [eapply (hoare_remove_any c c []); by rewrite app_nil_r|].
    intros []. eapply hoare_pre; [apply Hret|]. by intros s [? _]. }
  eapply hoare_bind; [eapply (hoare_create_dirs c _ []); by rewrite reverse_involutive, app_nil_r|]. intros [].
  rewrite <- app_assoc. eapply hoare_bind; [apply hoare_clear_target|].
  intros []. eapply hoare_bind; [apply hoare_make|]. intros [noted meta]. cbv iota.
  eapply (hoare_bind _ _ (fun _ => contained [])).
  { destruct meta; [|intros s [? _]; simpl; by eapply contained_weak]. intros s [H1 H2]. cbn [snd] in H2.
    destruct (decide (e_type e = TSymlink)) as [Et|Et].
    - eapply (hoare_conseq _ _ _ _ _ (hoare_finish c c [] n opts e ltac:(by rewrite app_nil_r) (or_introl Et)));
        [done|intros [] s' ?; by eapply contained_weak|exact H1].
    - eapply (hoare_conseq _ _ _ _ _ (hoare_finish (c ++ [n]) c [n] n opts e eq_refl (or_intror (ex_intro _ [] eq_refl))));
        [done|intros [] s' ?; by eapply contained_weak|by apply H2]. }
  intros []. apply Hret.
Qed.

Lemma hoare_apply_entries opts es created :
  hoare (contained []) (apply_entries root opts es created) (fun _ => contained []).
Proof.
  revert created. induction es as [|[e|] es IH]; intros created; cbn [apply_entries]; [apply hoare_ret| |apply hoare_throw].
  eapply hoare_bind; [apply hoare_apply_entry|]. intros cr. apply IH.
Qed.
End Contained.

(** ** What a layer can touch *)

(** C9: whatever a layer holds and whichever system calls fail, those of
    [fs::symlink_metadata] excepted, applying it to a directory of a well-formed tree
    ends, with success or an error, and leaves every path that is not strictly below
    that directory as it was: links planted by this layer or an earlier one do not lead
    the unpacker out.  A failing [fs::symlink_metadata] does let it out
    ([unread_link_followed], [unread_link_chmod]). *)
Theorem layer_contained (root : path) (opts : Options) (es : list (option Entry)) (t : tree) (fl lfl : list bool) :
  wf t -> (exists a, t !! root = Some (Dir a)) -> true ∉ lfl ->
  exists r s', apply_layer root opts es (MkSt t fl lfl) = (r, s') /\ (r = Ok tt \/ exists e, r = Err e) /\
    wf (fs s') /\ (exists a, fs s' !! root = Some (Dir a)) /\
    forall p, ~ below root p -> fs s' !! p = t !! p.
Proof.
  intros Hwf Hr Hl. assert (contained root t [] (MkSt t fl lfl)) as H by (split; try done; apply clean_nil).
  apply (hoare_apply_entries root t opts es ∅) in H. fold (apply_layer root opts es) in H.
  destruct (apply_layer root opts es (MkSt t fl lfl)) as [[[]|e| |] s']; try done; destruct H as [H1 H2 _ H4 _].
  - exists (Ok tt), s'. split_and!; try done. by left.
  - exists (Err e), s'. split_and!; try done. right. by eexists.
Qed.

(** A layer that plants a link to [/etc] and writes through it: the file lands
    in the image's own [etc]. *)
Definition sample_tree : tree :=
  <[[] := Dir fresh_attrs]> (<[[bstr "etc"] := Dir fresh_attrs]> (<[[bstr "etc"; bstr "passwd"] := File (bstr "host") fresh_attrs]>
  (<[[bstr "img"] := Dir fresh_attrs]> ∅))).

Definition plain_entry (k : EntryType) (p : name) (link : option bytes) (d : bytes) : Entry :=
  MkEntry (Some p) k link (lenN d) d (Some 0x1a4) (Some 0) (Some 0) (Some 7) [].

Definition planted_layer : list (option Entry) :=
  [Some (plain_entry TSymlink (bstr "x") (Some (bstr "/etc")) []);
   Some (plain_entry TRegular (bstr "x/passwd") None (bstr "evil"))].

Lemma tree_wf_check (t : tree) :
  forallb (fun kv => match reverse kv.1 with
                     | [] => true
                     | _ :: r => match t !! reverse r with Some (Dir _) => true | _ => false end
                     end) (map_to_list t) = true -> wf t.
Proof.
  intros H p n [nd Hnd]. rewrite forallb_forall in H. specialize (H (p ++ [n], nd)).
  cbn [fst] in H. rewrite reverse_snoc, reverse_involutive in H.
  destruct (t !! p) as [[a| | |]|]; [by exists a|exfalso..]; (assert (false = true); [|done]); apply H;
    apply list_elem_of_In; by apply elem_of_map_to_list.
Qed.

Lemma layer_contained_witness :
  (exists r s', apply_layer [bstr "img"] (MkOptions true true true) planted_layer (MkSt sample_tree [] []) = (r, s') /\
    (r = Ok tt \/ exists e, r = Err e) /\ wf (fs s') /\ (exists a, fs s' !! [bstr "img"] = Some (Dir a)) /\
    forall p, ~ below [bstr "img"] p -> fs s' !! p = sample_tree !! p) /\
  let out := fs (apply_layer [bstr "img"] (MkOptions true true true) planted_layer (MkSt sample_tree [] [])).2 in
  out !! [bstr "etc"; bstr "passwd"] = Some (File (bstr "host") fresh_attrs) /\
  (exists a, out !! [bstr "img"; bstr "etc"; bstr "passwd"] = Some (File (bstr "evil") a)).
Proof.
  split; [|split; [by vm_compute|eexists; by vm_compute]].
  apply (layer_contained [bstr "img"] (MkOptions true true true) planted_layer sample_tree [] []).
  - apply tree_wf_check. by vm_compute.
  - eexists. by vm_compute.
  - apply not_elem_of_nil.
Defined.

(** The same layer, when the metadata of the planted link cannot be read: the name is
    taken for a plain one, and the file of the host is replaced. *)
Lemma unread_link_followed :
  let r := apply_layer [bstr "img"] (MkOptions true true true) planted_layer (MkSt sample_tree [] [false; true]) in
  r.1 = Ok tt /\ exists a, fs r.2 !! [bstr "etc"; bstr "passwd"] = Some (File (bstr "evil") a).
Proof. split; [by vm_compute|eexists; by vm_compute]. Qed.

(** A directory entry over a planted link whose metadata cannot be read: the link is
    left, [is_dir] follows it, and the mode of the host's directory is changed. *)
Lemma unread_link_chmod :
  let r := apply_layer [bstr "img"] (MkOptions true true true)
             [Some (plain_entry TSymlink (bstr "x") (Some (bstr "/etc")) []); Some (plain_entry TDirectory (bstr "x") None [])]
             (MkSt sample_tree [] [false; true]) in
  r.1 = Ok tt /\ exists a, fs r.2 !! [bstr "etc"] = Some (Dir a) /\ a_mode a = Some 0x1a4.
Proof. split; [by vm_compute|eexists; split; by vm_compute]. Qed.

(** A whiteout of a name that is not UTF-8 is looked up with replacement
    characters: it reports success and the file stays. *)
Lemma whiteout_lossy_name :
  let t : tree := <[[bstr "img"; [0xff]] := File (bstr "old") fresh_attrs]> sample_tree in
  let r := apply_layer [bstr "img"] (MkOptions true true true)
             [Some (plain_entry TRegular (bstr ".wh." ++ [0xff]) None [])] (MkSt t [] []) in
  r.1 = Ok tt /\ fs r.2 !! [bstr "img"; [0xff]] = Some (File (bstr "old") fresh_attrs).
Proof. split; by vm_compute. Qed.
