(* ===== verification/Journal.v ===== *)
(** * The operation journal

    [fluxvm-scheduler/src/journal.rs]: intents written before an operation
    allocates anything and cleared when it is over, and the host they speak of.

    The host and everything on disk is one state.  A call that leaves the
    process ([ext]) takes the next entry of a script: it succeeds, fails, or the
    process dies before it takes effect (the outcome [Panic]).  Quantifying over
    scripts is quantifying over every failure and every crash point.  A call
    that fails changes nothing; a file is replaced by a write of a temporary
    file, a rename and a sync of the directory, three calls of which the second
    takes effect.  Log lines and the time an operation started are left out. *)

From stdpp Require Import prelude list gmap strings.
From Stdlib Require Import NArith Lia.
From S2P Require Import Prelude RustStr.

(** ** Paths and names *)

(** The [uuid] crate as the sources use it: its two text forms and its parser. *)
Class UuidFmt := {
  uuid_simple : N -> rstr;
  uuid_string : N -> rstr;
  uuid_parse : rstr -> option N;
  uuid_simple_length : forall id, length (uuid_simple id) = 32%nat;
  uuid_parse_string : forall id, in_u 128 id -> uuid_parse (uuid_string id) = Some id
}.

(** [Path], by its components: equality of paths in the sources is equality of
    components. *)
Inductive pcomp := RootDir | CurDir | ParentDir | Normal (n : rstr).
Abbreviation path := (list pcomp).

#[global] Instance pcomp_eq_dec : EqDecision pcomp.
Proof. solve_decision. Defined.

#[global] Instance pcomp_countable : Countable pcomp.
Proof.
  apply (inj_countable' (fun c => match c with RootDir => inl 0 | CurDir => inl 1 | ParentDir => inl 2 | Normal n => inr n end)
    (fun x : N + rstr => match x with inr n => Normal n | inl 0 => RootDir | inl 1 => CurDir | inl _ => ParentDir end)).
  by intros [].
Defined.

(** [Path::parent] and [Path::file_name] *)
Definition parent (p : path) : option path :=
  match reverse p with [] | RootDir :: _ => None | _ :: r => Some (reverse r) end.
Definition file_name (p : path) : option rstr :=
  match reverse p with Normal n :: _ => Some n | _ => None end.

Definition comp_str (c : pcomp) : rstr :=
  match c with RootDir => [] | CurDir => bstr "." | ParentDir => bstr ".." | Normal n => n end.
Definition display (p : path) : rstr :=
  if bool_decide (p = [RootDir]) then bstr "/" else join (bstr "/") (map comp_str p).

(** ** Intents *)

Inductive OpKind := Create | Snapshot | Fork | Restore.

Inductive Resource :=
| Workspace (p : path)
| Netns (name : rstr)
| Tap (name : rstr)
| LvmLv (p : path)
| CephClone (pool_image : rstr)
| NbdPid (pid : N) (start_time : option N)
| SnapshotDir (p : path)
| ForkChild (vm_id : N)
| TempFile (p : path).

Record OpIntent := MkOp {
  op : OpKind;
  op_id : N;
  vm_id : N;
  owner_pid : N;
  owner_start : option N;
  attempts : N;
  resources : list Resource
}.

Record DeleteIntent := MkDel { d_vm_id : N; d_workspace : path; d_jail_path : option path; d_lvm_lv : option path }.

#[global] Instance OpKind_eq_dec : EqDecision OpKind.
Proof. solve_decision. Defined.
#[global] Instance OpKind_countable : Countable OpKind.
Proof.
  apply (inj_countable' (fun k => match k with Create => 0 | Snapshot => 1 | Fork => 2 | Restore => 3 end)
    (fun n => match n with 0 => Create | 1 => Snapshot | 2 => Fork | _ => Restore end)). by intros [].
Defined.
#[global] Instance Resource_eq_dec : EqDecision Resource.
Proof. solve_decision. Defined.

Definition MAX_ROLLBACK_ATTEMPTS : N := 5.

(** ** The host and the records *)

(** A process: its [/proc/<pid>/stat] line, where it can be read, and its name
    and command line. *)
Record Proc := MkProc { p_stat : option rstr; p_comm : rstr; p_cmdline : rstr }.

(** What a path holds: a directory or not, and when it last changed. *)
Record PMeta := MkPMeta { m_dir : bool; m_modified : N }.

Record Host := MkHost {
  h_paths : gmap path PMeta;
  h_netns : gset rstr;
  h_links : gmap rstr bool;   (* network devices; whether it is a tun or tap *)
  h_lvs : gset path;
  h_ceph : gset rstr;
  h_procs : gmap N Proc
}.

Inductive VmStatus := Creating | Running | Paused | Stopped | Failed.
Inductive StorageBackend := SDefault | SLvmThin | SNbd | SCephRbd | SCephRbdInPlace | SShared.

(** [NetworkSpec], the fields that decide which devices are made and removed. *)
Record ExtraNic := MkNic { x_tap_name : option rstr; x_direct : bool; x_bridge : rstr }.
Inductive NetworkSpec :=
| NetNone
| NetUser
| NetTap (tap : option rstr) (use_netns : bool) (extra : list ExtraNic) (direct : option (option rstr)) (* its netns_path *)
| NetMacvtap.

(** The part of a [VmRecord] that recovery and [delete] look at. *)
Record VmRecord := MkVm {
  status : VmStatus;
  pid : option N;
  workspace : path;
  disk : rstr;
  tap_name : option rstr;
  netns : option rstr;
  jail_path : option path;
  lvm_lv : option path;
  nbd_pid : option N;
  virtiofsd_pids : list N;
  swtpm_pid : option N;
  storage : StorageBackend;
  network : NetworkSpec
}.

#[global] Instance VmStatus_eq_dec : EqDecision VmStatus.
Proof. solve_decision. Defined.
#[global] Instance StorageBackend_eq_dec : EqDecision StorageBackend.
Proof. solve_decision. Defined.

Inductive fault := FOk | FErr | FCrash.

Abbreviation op_key := (OpKind * N)%type.

Record St := MkSt {
  host : Host;
  recs : gmap N VmRecord;
  ops : gmap op_key OpIntent;
  dels : gmap N DeleteIntent;
  script : list fault
}.

Definition set_host (h : Host) (s : St) : St := MkSt h (recs s) (ops s) (dels s) (script s).
Definition set_recs (r : gmap N VmRecord) (s : St) : St := MkSt (host s) r (ops s) (dels s) (script s).
Definition set_ops (o : gmap op_key OpIntent) (s : St) : St := MkSt (host s) (recs s) o (dels s) (script s).
Definition set_dels (d : gmap N DeleteIntent) (s : St) : St := MkSt (host s) (recs s) (ops s) d (script s).
Definition set_script (l : list fault) (s : St) : St := MkSt (host s) (recs s) (ops s) (dels s) l.

Definition set_paths v h := MkHost v (h_netns h) (h_links h) (h_lvs h) (h_ceph h) (h_procs h).
Definition set_netns v h := MkHost (h_paths h) v (h_links h) (h_lvs h) (h_ceph h) (h_procs h).
Definition set_links v h := MkHost (h_paths h) (h_netns h) v (h_lvs h) (h_ceph h) (h_procs h).
Definition set_lvs v h := MkHost (h_paths h) (h_netns h) (h_links h) v (h_ceph h) (h_procs h).
Definition set_ceph v h := MkHost (h_paths h) (h_netns h) (h_links h) (h_lvs h) v (h_procs h).
Definition set_procs v h := MkHost (h_paths h) (h_netns h) (h_links h) (h_lvs h) (h_ceph h) v.

Definition on_host (f : Host -> Host) : M St unit := modify (fun s => set_host (f (host s)) s).

(** A call that leaves the process. *)
Definition ext {A} (m : M St A) : M St A := fun s =>
  match script s with
  | [] => m s
  | FOk :: l => m (set_script l s)
  | FErr :: l => (Err Io, set_script l s)
  | FCrash :: l => (Panic, set_script l s)
  end.

(** [let _ = m], [m.is_ok()] and [m.unwrap_or_default()] *)
Definition ignore {A} (m : M St A) : M St unit := try_ok m (fun _ => ret tt) (ret tt).
Definition succeeds {A} (m : M St A) : M St bool := try_ok m (fun _ => ret true) (ret false).

(** [for x in l { f(x)? }] *)
Fixpoint for_each {A} (l : list A) (f : A -> M St unit) : M St unit :=
  match l with [] => ret tt | x :: l => do! f x in for_each l f end.

(** [ok &= ...] over a loop. *)
Fixpoint for_all {A} (l : list A) (f : A -> M St bool) : M St bool :=
  match l with
  | [] => ret true
  | x :: l => let! a := f x in let! b := for_all l f in ret (a && b)
  end.

(** Replacing a file: temporary file, rename, sync of the directory. *)
Definition durably (m : M St unit) : M St unit :=
  do! ext (ret tt) in do! ext m in ext (ret tt).

(** ** Delete intents *)

Definition begin_delete (i : DeleteIntent) : M St unit :=
  durably (modify (fun s => set_dels (<[d_vm_id i := i]> (dels s)) s)).

Definition finish_delete (id : N) : M St unit :=
  ext (modify (fun s => set_dels (delete id (dels s)) s)).

(** The intents that can be read; a directory that cannot be listed has none. *)
Fixpoint readable {A} (l : list A) : M St (list A) :=
  match l with
  | [] => ret []
  | x :: l => let! b := succeeds (ext (ret tt)) in let! r := readable l in ret (if b then x :: r else r)
  end.

Definition pending_deletes : M St (list DeleteIntent) :=
  try_ok (ext (gets (fun s => map snd (map_to_list (dels s))))) readable (ret []).

(** [remove_tree]: a tree that is not there is fine. *)
Definition without_tree (p : path) (m : gmap path PMeta) : gmap path PMeta := filter (fun kv => ~ p `prefix_of` kv.1) m.

Definition remove_tree (p : path) : M St unit :=
  ext (on_host (fun h => set_paths (without_tree p (h_paths h)) h)).

(** ** Operation intents *)

(** [parse_stat_start_time]: field 22, counted after the last parenthesis. *)
Definition parse_stat_start_time (stat : rstr) : option N :=
  match rsplit_once 41 stat with
  | Some (_, rest) => match split_whitespace rest !! 19%nat with Some w => parse_dec 64 w | None => None end
  | None => None
  end.

Definition proc_start_time (h : Host) (p : N) : option N :=
  match h_procs h !! p with
  | Some pr => match p_stat pr with Some st => parse_stat_start_time st | None => None end
  | None => None
  end.

(** [owner_alive]; a process whose stat line cannot be read answers signal 0. *)
Definition owner_alive (h : Host) (p : N) (start : option N) : bool :=
  if p =? 0 then false
  else match proc_start_time h p with
       | Some cur => match start with Some st => st =? cur | None => true end
       | None => bool_decide (is_Some (h_procs h !! p))
       end.

Definition key_of (i : OpIntent) : op_key := (op i, op_id i).

Definition write_op (i : OpIntent) : M St unit :=
  durably (modify (fun s => set_ops (<[key_of i := i]> (ops s)) s)).

Definition read_op (k : OpKind) (id : N) : M St OpIntent :=
  ext (let! o := gets (fun s => ops s !! (k, id)) in ok_or o Io).

Definition update_op (i : OpIntent) : M St unit := write_op i.

Definition finish_op (k : OpKind) (id : N) : M St unit :=
  ext (modify (fun s => set_ops (delete (k, id) (ops s)) s)).

Definition pending_ops : M St (list OpIntent) :=
  try_ok (ext (gets (fun s => map snd (map_to_list (ops s))))) readable (ret []).

(** [OpGuard], of the daemon process [me]. *)
Definition guard_begin (me : N) (k : OpKind) (id vm : N) (rs : list Resource) : M St unit :=
  let! h := gets host in
  write_op (MkOp k id vm me (proc_start_time h me) 0 rs).

Definition with_resources (rs : list Resource) (i : OpIntent) : OpIntent :=
  MkOp (op i) (op_id i) (vm_id i) (owner_pid i) (owner_start i) (attempts i) rs.
Definition with_owner (p : N) (st : option N) (i : OpIntent) : OpIntent :=
  MkOp (op i) (op_id i) (vm_id i) p st (attempts i) (resources i).
Definition with_attempts (n : N) (i : OpIntent) : OpIntent :=
  MkOp (op i) (op_id i) (vm_id i) (owner_pid i) (owner_start i) n (resources i).

Definition guard_record (k : OpKind) (id : N) (r : Resource) : M St unit :=
  let! i := read_op k id in
  if bool_decide (r ∈ resources i) then ret tt else write_op (with_resources (resources i ++ [r]) i).

Definition guard_finish (k : OpKind) (id : N) : M St unit := ignore (finish_op k id).

(** [Drop for OpGuard], not finished: the intent is abandoned. *)
Definition guard_drop (k : OpKind) (id : N) : M St unit :=
  try_ok (read_op k id) (fun i => ignore (write_op (with_owner 0 None i))) (ret tt).

(** ** Computations that only stop when the process dies

    [calm err m]: [m] takes its calls from the front of the script, never loops,
    dies only at a crash of the script, and fails only if [err] allows it. *)

Create HintDb calm.

Definition calm (err : bool) {A} (m : M St A) : Prop := forall s,
  (forall f, f ∈ script (m s).2 -> f ∈ script s) /\
  match (m s).1 with Ok _ => True | Err _ => err = true | Panic => FCrash ∈ script s | Loop => False end.

Lemma calm_ret e {A} (a : A) : calm e (ret a).
Proof. by intros s. Qed.
Lemma calm_throw {A} x : calm true (throw (A:=A) x).
Proof. by intros s. Qed.
Lemma calm_gets e {A} (g : St -> A) : calm e (gets g).
Proof. by intros s. Qed.
Lemma calm_ok_or {A} (o : option A) x : calm true (ok_or o x).
Proof. destruct o; by intros s. Qed.
Lemma calm_modify e f : (forall s, script (f s) = script s) -> calm e (modify f).
Proof. intros Hf s. simpl. by rewrite Hf. Qed.
Lemma calm_on_host e f : calm e (on_host f).
Proof. by apply calm_modify. Qed.

Lemma calm_bind e {A B} (m : M St A) (f : A -> M St B) : calm e m -> (forall a, calm e (f a)) -> calm e (bind m f).
Proof.
  intros Hm Hf s. specialize (Hm s) as [H1 H2]. unfold bind. destruct (m s) as [[a|x| |] s1]; simpl in *; try done.
  destruct (Hf a s1) as [H3 H4]. split; [auto|]. destruct (f a s1).1; auto.
Qed.

Lemma calm_try_ok e {A B} (m : M St A) (f : A -> M St B) h :
  calm true m -> (forall a, calm e (f a)) -> calm e h -> calm e (try_ok m f h).
Proof.
  intros Hm Hf Hh s. specialize (Hm s) as [H1 H2]. unfold try_ok. destruct (m s) as [[a|x| |] s1]; simpl in *; try done.
  - destruct (Hf a s1) as [H3 H4]. split; [auto|]. destruct (f a s1).1; auto.
  - destruct (Hh s1) as [H3 H4]. split; [auto|]. destruct (h s1).1; auto.
Qed.

Lemma calm_ext {A} (m : M St A) : calm true m -> calm true (ext m).
Proof.
  intros Hm s. unfold ext. destruct (script s) as [|f l] eqn:E; [specialize (Hm s); rewrite E in Hm; exact Hm|].
  assert (forall g, g ∈ l -> g ∈ f :: l) as Hl by set_solver.
  destruct f; simpl; [|split; [done|done]|split; [done|set_solver]].
  destruct (Hm (set_script l s)) as [H1 H2]. simpl in *. split; [auto|]. destruct (m (set_script l s)).1; auto.
Qed.

Lemma calm_ignore e {A} (m : M St A) : calm true m -> calm e (ignore m).
Proof. intros Hm. apply calm_try_ok; [done|intros; apply calm_ret..]. Qed.
Lemma calm_succeeds e {A} (m : M St A) : calm true m -> calm e (succeeds m).
Proof. intros Hm. apply calm_try_ok; [done|intros; apply calm_ret..]. Qed.
Lemma calm_for_each e {A} (l : list A) f : (forall a, calm e (f a)) -> calm e (for_each l f).
Proof. intros Hf. induction l as [|a l IH]; [apply calm_ret|]. by apply calm_bind. Qed.
Lemma calm_for_all e {A} (l : list A) f : (forall a, calm e (f a)) -> calm e (for_all l f).
Proof.
  intros Hf. induction l as [|a l IH]; [apply calm_ret|]. apply calm_bind; [done|]. intros b. apply calm_bind; [done|].
  intros c. apply calm_ret.
Qed.

#[export] Hint Resolve calm_ret calm_throw calm_gets calm_ok_or calm_on_host : calm.

Ltac calm_tac :=
  repeat lazymatch goal with
  | |- forall _, calm _ _ => intro
  | |- calm _ (bind _ _) => apply calm_bind
  | |- calm _ (try_ok _ _ _) => apply calm_try_ok
  | |- calm _ (ext _) => apply calm_ext
  | |- calm _ (ignore _) => apply calm_ignore
  | |- calm _ (succeeds _) => apply calm_succeeds
  | |- calm _ (for_each _ _) => apply calm_for_each
  | |- calm _ (for_all _ _) => apply calm_for_all
  | |- calm _ (modify _) => apply calm_modify; intros; reflexivity
  | |- calm _ (let '(_, _) := ?p in _) => destruct p
  | |- calm _ (match ?e with _ => _ end) => destruct e
  | |- calm _ _ => solve [eauto with calm]
  end.

Lemma calm_durably m : calm true m -> calm true (durably m).
Proof. intros Hm. unfold durably. calm_tac. Qed.
#[export] Hint Resolve calm_durably : calm.

Lemma calm_write_op i : calm true (write_op i).
Proof. unfold write_op. apply calm_durably. calm_tac. Qed.
Lemma calm_finish_op k id : calm true (finish_op k id).
Proof. unfold finish_op. calm_tac. Qed.
Lemma calm_begin_delete i : calm true (begin_delete i).
Proof. unfold begin_delete. apply calm_durably. calm_tac. Qed.
Lemma calm_finish_delete id : calm true (finish_delete id).
Proof. unfold finish_delete. calm_tac. Qed.
Lemma calm_remove_tree p : calm true (remove_tree p).
Proof. unfold remove_tree. calm_tac. Qed.
Lemma calm_readable e {A} (l : list A) : calm e (readable l).
Proof. induction l; cbn [readable]; calm_tac. Qed.
#[export] Hint Resolve calm_write_op calm_finish_op calm_begin_delete calm_finish_delete calm_remove_tree calm_readable : calm.

Lemma calm_pending_ops e : calm e pending_ops.
Proof. unfold pending_ops. calm_tac. Qed.
Lemma calm_pending_deletes e : calm e pending_deletes.
Proof. unfold pending_deletes. calm_tac. Qed.
#[export] Hint Resolve calm_pending_ops calm_pending_deletes : calm.

(** ** Relations between the states of such computations *)

(** A relation that taking an entry of the script respects. *)
Class TakesScript (R : St -> St -> Prop) : Prop := {
  takes_script : forall s f l, script s = f :: l -> R s (set_script l s)
}.

Section Related.
Context (R : St -> St -> Prop) `{!PreOrder R, !TakesScript R}.

Lemma mrel_ext {A} (m : M St A) : mrel R m -> mrel R (ext m).
Proof.
  intros Hm s. unfold ext. destruct (script s) as [|[] l] eqn:E; [apply Hm|..]; try by eapply takes_script.
  etransitivity; [by eapply takes_script|apply Hm].
Qed.

Lemma mrel_ignore {A} (m : M St A) : mrel R m -> mrel R (ignore m).
Proof. intros Hm. apply mrel_try_ok; [apply _|done|intros; apply mrel_ret; apply _..]. Qed.

Lemma mrel_succeeds {A} (m : M St A) : mrel R m -> mrel R (succeeds m).
Proof. intros Hm. apply mrel_try_ok; [apply _|done|intros; apply mrel_ret; apply _..]. Qed.

Lemma mrel_for_each {A} (l : list A) f : (forall a, a ∈ l -> mrel R (f a)) -> mrel R (for_each l f).
Proof.
  induction l as [|a l IH]; intros Hf; [apply mrel_ret; apply _|]. apply mrel_bind; [apply _|apply Hf; set_solver|].
  intros _. apply IH. set_solver.
Qed.

Lemma mrel_for_all {A} (l : list A) f : (forall a, a ∈ l -> mrel R (f a)) -> mrel R (for_all l f).
Proof.
  induction l as [|a l IH]; intros Hf; [apply mrel_ret; apply _|]. apply mrel_bind; [apply _|apply Hf; set_solver|].
  intros b. apply mrel_bind; [apply _|apply IH; set_solver|]. intros c. apply mrel_ret; apply _.
Qed.

Lemma mrel_readable {A} (l : list A) : mrel R (readable l).
Proof.
  induction l as [|a l IH]; [apply mrel_ret; apply _|]. apply mrel_bind; [apply _|apply mrel_succeeds, mrel_ext, mrel_ret; apply _|].
  intros b. apply mrel_bind; [apply _|exact IH|]. intros r. apply mrel_ret; apply _.
Qed.

Lemma mrel_pending_ops : mrel R pending_ops.
Proof.
  apply mrel_try_ok; [apply _|apply mrel_ext, mrel_gets; apply _| |apply mrel_ret; apply _].
  intros l. apply mrel_readable.
Qed.

Lemma mrel_pending_deletes : mrel R pending_deletes.
Proof.
  apply mrel_try_ok; [apply _|apply mrel_ext, mrel_gets; apply _| |apply mrel_ret; apply _].
  intros l. apply mrel_readable.
Qed.
End Related.

(** Every intent is read when none of the reads fails, whatever fails after them. *)
Lemma readable_reads {A} (l : list A) s r s' : FErr ∉ take (length l) (script s) -> readable l s = (Ok r, s') ->
  r = l /\ script s' = drop (length l) (script s).
Proof.
  revert s r s'. induction l as [|a l IH]; intros s r s' He E; [by injection E as <- <-|].
  cbn [readable] in E. unfold bind at 1, succeeds, try_ok, ext, ret in E. cbn [length] in *.
  destruct (script s) as [|[] t] eqn:Es; cbv beta iota in E; cbn [take drop] in *; [| |exfalso; apply He; set_solver|done].
  - unfold bind in E. destruct (readable l s) as [[r1|e| |] s1] eqn:E1; try done. injection E as <- <-.
    apply IH in E1 as [-> E1]; rewrite Es, ?take_nil, ?drop_nil in *; [done|set_solver].
  - unfold bind in E. destruct (readable l (set_script t s)) as [[r1|e| |] s1] eqn:E1; try done. injection E as <- <-.
    apply IH in E1 as [-> E1]; [done|]. simpl. set_solver.
Qed.

Lemma listed_reads {A} (g : St -> list A) s l s' : FErr ∉ take (S (length (g s))) (script s) ->
  try_ok (ext (gets g)) readable (ret []) s = (Ok l, s') -> (forall l s, g (set_script l s) = g s) ->
  l = g s /\ script s' = drop (S (length (g s))) (script s).
Proof.
  intros He E Hg. unfold try_ok, ext, gets in E.
  destruct (script s) as [|[] t] eqn:Es; cbv beta iota in E; cbn [take drop] in *; [| |exfalso; apply He; set_solver|done].
  - apply readable_reads in E as [-> E]; rewrite Es, ?take_nil, ?drop_nil in *; [done|set_solver].
  - rewrite Hg in E. apply readable_reads in E as [-> E]; [done|]. simpl. set_solver.
Qed.

Lemma pending_ops_reads s l s' : FErr ∉ take (S (size (ops s))) (script s) -> pending_ops s = (Ok l, s') ->
  l = map snd (map_to_list (ops s)) /\ script s' = drop (S (size (ops s))) (script s).
Proof.
  intros He E. pose proof (listed_reads (fun s => map snd (map_to_list (ops s))) s l s') as H.
  cbn beta in H. rewrite length_map, length_map_to_list in H. by apply H.
Qed.

Lemma pending_deletes_reads s l s' : FErr ∉ take (S (size (dels s))) (script s) -> pending_deletes s = (Ok l, s') ->
  l = map snd (map_to_list (dels s)) /\ script s' = drop (S (size (dels s))) (script s).
Proof.
  intros He E. pose proof (listed_reads (fun s => map snd (map_to_list (dels s))) s l s') as H.
  cbn beta in H. rewrite length_map, length_map_to_list in H. by apply H.
Qed.

Lemma not_in_take {A} (x : A) n l : x ∉ l -> x ∉ take n l.
Proof. intros H Hx. apply H. rewrite <- (take_drop n l). set_solver. Qed.

(** With no failing call at all. *)
Lemma pending_all s l s' : FErr ∉ script s -> pending_ops s = (Ok l, s') -> l = map snd (map_to_list (ops s)).
Proof. intros He E. by apply pending_ops_reads in E as [-> _]; [|by apply not_in_take]. Qed.

