(* ===== verification/Recovery.v ===== *)
(** * Crash recovery of the scheduler

    [fluxvm-scheduler/src/recovery.rs] and the parts of [lib.rs] that journal
    and recover: [create] from its intent on, [stop], [delete],
    [replay_pending_deletes] and the first half of [reconcile]; with them
    [provision] of [fluxvm-image/src/storage.rs] and [cleanup] of
    [fluxvm-network/src/lib.rs] as far as they make and remove host resources.

    eBPF pins, cgroups, nftables tables, DHCP servers and address leases are not
    part of the host here.  A logical volume is there when its device node is. *)

From stdpp Require Import prelude list gmap strings.
From Stdlib Require Import NArith Lia.
From S2P Require Import Prelude RustStr Journal.

Create HintDb shrink.
Create HintDb quiet.

Section Recovery.
Context `{!UuidFmt} (state_dir : path) (me : N).

(** ** Names *)

Definition short_id (id : N) : rstr := take 8 (uuid_simple id).

Definition is_short_hex (s : rstr) : bool :=
  (length (as_bytes s) =? 8)%nat && forallb (fun b => is_digit b || ((97 <=? b) && (b <=? 102))) (as_bytes s).

Definition instances : path := state_dir ++ [Normal (bstr "instances")].
Definition workspace_of (id : N) : path := instances ++ [Normal (uuid_string id)].

Definition workspace_vm_id (p : path) : option N :=
  if bool_decide (parent p = Some instances)
  then match file_name p with Some n => uuid_parse n | None => None end
  else None.

(** The characters RBD names may have. *)
Definition rbd_char (c : N) : bool := is_alnum c || (c =? 45) || (c =? 95) || (c =? 46).
Definition rbd_ok (p : rstr) : bool := negb (bool_decide (p = [])) && negb (starts_with [45] p) && forallb rbd_char p.

Definition parse_rbd_ref (base : path) : option (rstr * rstr) :=
  match split_once 47 (display base) with
  | Some (pool, image) => if rbd_ok pool && rbd_ok image then Some (pool, image) else None
  | None => None
  end.

Definition is_dev_child (p : option path) : bool :=
  match p with
  | Some v => bool_decide (parent v = Some [RootDir; Normal (bstr "dev")]) &&
              match file_name v with Some n => negb (bool_decide (n = [])) | None => false end
  | None => false
  end.

(** [resource_is_ours] *)
Definition resource_is_ours (id : N) (r : Resource) : bool :=
  let short := short_id id in
  match r with
  | Workspace p => bool_decide (workspace_vm_id p = Some id)
  | Netns name => bool_decide (strip_prefix (bstr "eph-") name = Some short)
  | Tap name => bool_decide (strip_prefix (bstr "eph") name = Some short)
  | LvmLv p => bool_decide (file_name p = Some (bstr "eph-" ++ short)) && is_dev_child (parent p)
  | CephClone pool_image =>
      match split_once 47 pool_image with
      | Some (pool, image) => rbd_ok pool && bool_decide (image = bstr "eph-" ++ short)
      | None => false
      end
  | NbdPid _ _ => true
  | SnapshotDir p =>
      match file_name p with
      | Some t => negb (bool_decide (t = [])) && negb (bool_decide (t = bstr ".")) && negb (bool_decide (t = bstr ".."))
      | None => false
      end &&
      bool_decide (parent p ≫= file_name = Some (bstr "snapshots")) &&
      bool_decide ((parent p ≫= parent) ≫= workspace_vm_id = Some id)
  | ForkChild _ => true
  | TempFile p =>
      match file_name p with
      | Some n => bool_decide (is_Some (strip_suffix (bstr ".restore.tmp") n))
      | None => false
      end && bool_decide (parent p ≫= workspace_vm_id = Some id)
  end.

(** The part of a [CreateVmRequest] that decides what is allocated. *)
Record CreateVmRequest := MkReq { q_network : NetworkSpec; q_storage : StorageBackend; q_image : path }.

Definition image_vg (image : path) : option rstr := parent image ≫= file_name.

Definition planned_create_resources (id : N) (req : CreateVmRequest) : list Resource :=
  let short := short_id id in
  [Workspace (workspace_of id)] ++
  match q_network req with
  | NetTap tap use_netns _ _ =>
      if use_netns then [Netns (bstr "eph-" ++ short)]
      else match tap with None => [Tap (bstr "eph" ++ short)] | Some _ => [] end
  | _ => []
  end ++
  match q_storage req with
  | SLvmThin =>
      match image_vg (q_image req) with
      | Some vg => [LvmLv [RootDir; Normal (bstr "dev"); Normal vg; Normal (bstr "eph-" ++ short)]]
      | None => []
      end
  | SCephRbd =>
      match parse_rbd_ref (q_image req) with
      | Some (pool, _) => [CephClone (pool ++ bstr "/" ++ bstr "eph-" ++ short)]
      | None => []
      end
  | _ => []
  end.

(** ** The host *)

Definition path_exists (h : Host) (p : path) : bool := bool_decide (is_Some (h_paths h !! p)).
Definition process_alive (h : Host) (p : N) : bool := bool_decide (is_Some (h_procs h !! p)).

Definition VMM_COMM_PREFIXES : list rstr :=
  [bstr "qemu"; bstr "cloud-hyper"; bstr "firecracker"; bstr "jailer"; bstr "virtiofsd"; bstr "swtpm"; bstr "fluxvm"].

Definition nul_to_space (s : rstr) : rstr := map (fun c => if c =? 0 then 32 else c) s.

(** Whether a process is a VMM whose command line mentions one of [needles]. *)
Definition vmm_referencing (needles : list rstr) (pr : Proc) : bool :=
  existsb (fun p => starts_with p (trim (p_comm pr))) VMM_COMM_PREFIXES &&
  existsb (fun n => contains_str n (nul_to_space (p_cmdline pr))) needles.

Definition vmm_pids_referencing (h : Host) (needles : list rstr) : list N :=
  omap (fun kv => if (kv.1 =? me) || negb (vmm_referencing needles kv.2) then None else Some kv.1) (map_to_list (h_procs h)).

Definition kill (p : N) : M St unit := on_host (fun h => set_procs (delete p (h_procs h)) h).

Definition terminate_pid (p : N) : M St unit :=
  ext (let! h := gets host in if process_alive h p then kill p else throw Io).

Definition needles_of (id : N) : list rstr := [display (workspace_of id); uuid_string id].

Definition kill_vmm_processes (id : N) : M St unit :=
  let! h := gets host in
  for_each (vmm_pids_referencing h (needles_of id)) (fun p => ignore (terminate_pid p)).

(** [cleanup_tap], [netns::cleanup], [cleanup_lvm_lv], [cleanup_ceph_rbd] *)
Definition cleanup_tap (t : rstr) : M St unit := ignore (ext (on_host (fun h => set_links (delete t (h_links h)) h))).
Definition netns_cleanup (n : rstr) : M St unit := ignore (ext (on_host (fun h => set_netns (h_netns h ∖ {[n]}) h))).

Definition cleanup_lvm_lv (p : path) : M St unit :=
  ext (let! h := gets host in
       if bool_decide (p ∈ h_lvs h) then on_host (fun h => set_lvs (h_lvs h ∖ {[p]}) h) else throw Io).

Definition cleanup_ceph_rbd (c : rstr) : M St unit :=
  ext (let! h := gets host in
       if bool_decide (c ∈ h_ceph h) then on_host (fun h => set_ceph (h_ceph h ∖ {[c]}) h) else throw Io).

(** [ceph_rbd_ref] *)
Definition ceph_rbd_ref (d : rstr) : option rstr :=
  match strip_prefix (bstr "rbd:") d with
  | Some s => Some (default s (head (split_on 58 s [])))
  | None => None
  end.

Definition is_free_slot (n : ExtraNic) : bool :=
  bool_decide (x_tap_name n = None) && negb (x_direct n) && bool_decide (x_bridge n = []).

Definition netns_extra_tap_name (id : N) (i : nat) (n : ExtraNic) : rstr :=
  default (bstr "x" ++ to_decimal (N.of_nat i) ++ take 7 (uuid_simple id)) (x_tap_name n).

(** [fluxvm_network::cleanup] *)
Definition network_cleanup (id : N) (spec : NetworkSpec) (tap : rstr) (ns : option rstr) : M St unit :=
  match ns with
  | Some ns =>
      do! (match spec with
           | NetTap _ _ extra _ =>
               for_each (imap pair extra) (fun '(i, n) => if is_free_slot n then ret tt else cleanup_tap (netns_extra_tap_name id i n))
           | _ => ret tt
           end) in
      netns_cleanup ns
  | None =>
      match spec with
      | NetMacvtap => cleanup_tap tap
      | NetTap _ _ _ (Some netns_path) => if bool_decide (netns_path = None) then cleanup_tap tap else ret tt
      | NetTap _ _ extra None =>
          do! cleanup_tap tap in
          for_each extra (fun n => match x_tap_name n with Some t => cleanup_tap t | None => ret tt end)
      | _ => cleanup_tap tap
      end
  end.

(** ** Records *)

(** [Store::get]: a store that cannot be read has no record. *)
Definition store_get (id : N) : M St (option VmRecord) :=
  try_ok (ext (gets (fun s => recs s !! id))) ret (ret None).

Definition get_vm (id : N) : M St VmRecord := let! o := store_get id in ok_or o Io.

(** [Store::insert_with_cid], and [Store::update], which does not bring a record
    back. *)
Definition store_insert (id : N) (vm : VmRecord) : M St unit :=
  ext (modify (fun s => set_recs (<[id := vm]> (recs s)) s)).

Definition replace_rec (id : N) (vm : VmRecord) (r : gmap N VmRecord) : gmap N VmRecord :=
  match r !! id with Some _ => <[id := vm]> r | None => r end.

Definition store_update (id : N) (vm : VmRecord) : M St unit :=
  ext (modify (fun s => set_recs (replace_rec id vm (recs s)) s)).

(** [Store::remove] *)
Definition store_remove (id : N) : M St VmRecord :=
  ext (let! o := gets (fun s => recs s !! id) in
       let! vm := ok_or o Io in
       do! modify (fun s => set_recs (delete id (recs s)) s) in ret vm).

Definition reap (p : N) : M St unit :=
  let! h := gets host in if process_alive h p then ignore (terminate_pid p) else ret tt.

Definition stopped (vm : VmRecord) : VmRecord :=
  MkVm Stopped None (workspace vm) (disk vm) (tap_name vm) None (jail_path vm) (lvm_lv vm) (nbd_pid vm) [] None
    (storage vm) (network vm).

(** The process of a VM: asked to shut down, then terminated. *)
Definition stop_process (p : N) : M St unit :=
  let! h := gets host in
  if process_alive h p then
    let! asked := succeeds (ext (ret tt)) in
    let! exited := (if asked then succeeds (ext (kill p)) else ret false) in
    let! h := gets host in
    if negb exited && process_alive h p then terminate_pid p else ret tt
  else ret tt.

Definition stop (id : N) : M St VmRecord :=
  let! vm := get_vm id in
  do! (match pid vm with Some p => stop_process p | None => ret tt end) in
  do! (match tap_name vm with Some t => ignore (network_cleanup id (network vm) t (netns vm)) | None => ret tt end) in
  do! for_each (virtiofsd_pids vm) reap in
  do! (match swtpm_pid vm with Some p => reap p | None => ret tt end) in
  do! store_update id (stopped vm) in
  ret (stopped vm).

(** [fs::remove_dir_all], guarded by [exists] *)
Definition remove_existing (p : path) : M St unit :=
  let! h := gets host in if path_exists h p then remove_tree p else ret tt.

(** What [delete] reclaims once the record is gone. *)
Definition reclaim (id : N) (vm : VmRecord) : M St unit :=
  do! (match lvm_lv vm with Some lv => ignore (cleanup_lvm_lv lv) | None => ret tt end) in
  do! (match nbd_pid vm with Some p => ignore (terminate_pid p) | None => ret tt end) in
  do! (if bool_decide (storage vm = SCephRbd)
       then match ceph_rbd_ref (disk vm) with Some c => ignore (cleanup_ceph_rbd c) | None => ret tt end
       else ret tt) in
  do! remove_existing (workspace vm) in
  do! (match jail_path vm with Some j => remove_existing j | None => ret tt end) in
  finish_delete id.

Definition delete_vm (id : N) : M St unit :=
  let! vm := get_vm id in
  let! vm := (match pid vm with Some _ => stop id | None => ret vm end) in
  let! h := gets host in
  if match pid vm with Some p => process_alive h p | None => false end then throw Io
  else
    do! begin_delete (MkDel id (workspace vm) (jail_path vm) (lvm_lv vm)) in
    let! vm := store_remove id in
    reclaim id vm.

(** ** Rolling operations back *)

(** One resource of an interrupted create; [false] when it has to be tried
    again. *)
Definition rollback_resource (id : N) (r : Resource) : M St bool :=
  if negb (resource_is_ours id r) then ret true
  else match r with
       | NbdPid p st =>
           let! h := gets host in
           do! (if bool_decide (is_Some st) && bool_decide (proc_start_time h p = st) then ignore (terminate_pid p) else ret tt) in
           ret true
       | Netns n => do! netns_cleanup n in ret true
       | Tap t => do! cleanup_tap t in ret true
       | LvmLv p =>
           let! h := gets host in
           if bool_decide (p ∈ h_lvs h) then succeeds (cleanup_lvm_lv p) else ret true
       | CephClone c => succeeds (cleanup_ceph_rbd c)
       | _ => ret true
       end.

Definition rollback_workspace (id : N) (r : Resource) : M St bool :=
  match r with
  | Workspace p => if resource_is_ours id r then succeeds (remove_tree p) else ret true
  | _ => ret true
  end.

(** The placeholder and the workspace. *)
Definition rollback_record (i : OpIntent) : M St bool :=
  let! o := store_get (vm_id i) in
  let! ok2 := (match o with Some _ => succeeds (delete_vm (vm_id i)) | None => ret true end) in
  let! ok3 := for_all (resources i) (rollback_workspace (vm_id i)) in
  ret (ok2 && ok3).

Definition rollback_create (i : OpIntent) : M St bool :=
  let! o := store_get (vm_id i) in
  if match o with Some vm => negb (bool_decide (status vm = Creating)) | None => false end then ret true
  else
    do! kill_vmm_processes (vm_id i) in
    let! ok1 := for_all (resources i) (rollback_resource (vm_id i)) in
    let! ok2 := rollback_record i in
    ret (ok1 && ok2).

Definition rollback_file (id : N) (r : Resource) : M St bool :=
  if negb (resource_is_ours id r) then ret true
  else match r with
       | SnapshotDir p => succeeds (remove_tree p)
       | TempFile p => succeeds (ext (on_host (fun h => set_paths (delete p (h_paths h)) h)))
       | _ => ret true
       end.

Definition rollback_files (i : OpIntent) : M St bool := for_all (resources i) (rollback_file (vm_id i)).

Definition rollback_child (r : Resource) : M St bool :=
  match r with
  | ForkChild child =>
      let! o := store_get child in
      match o with
      | Some _ => succeeds (delete_vm child)
      | None =>
          do! kill_vmm_processes child in
          do! netns_cleanup (bstr "eph-" ++ short_id child) in
          succeeds (remove_tree (workspace_of child))
      end
  | _ => ret true
  end.

Definition rollback_fork (i : OpIntent) : M St bool :=
  let! ok1 := for_all (resources i) rollback_child in
  let! ok2 := rollback_files i in
  ret (ok1 && ok2).

Definition rollback (i : OpIntent) : M St bool :=
  match op i with
  | Create => rollback_create i
  | Snapshot | Restore => rollback_files i
  | Fork => rollback_fork i
  end.

(** One intent of [replay_pending_ops]. *)
Definition replay_op (i : OpIntent) : M St unit :=
  let! h := gets host in
  if owner_alive h (owner_pid i) (owner_start i) then ret tt
  else
    let! done := rollback i in
    if done then ignore (finish_op (op i) (op_id i))
    else if MAX_ROLLBACK_ATTEMPTS <=? U.add 32 (attempts i) 1 then ignore (finish_op (op i) (op_id i))
    else ignore (update_op (with_attempts (U.add 32 (attempts i) 1) i)).

Definition replay_pending_ops : M St unit := let! l := pending_ops in for_each l replay_op.

(** One intent of [replay_pending_deletes]. *)
Definition replay_delete (i : DeleteIntent) : M St unit :=
  let! o := store_get (d_vm_id i) in
  match o with
  | Some _ => ignore (finish_delete (d_vm_id i))
  | None =>
      do! (match d_lvm_lv i with Some lv => ignore (cleanup_lvm_lv lv) | None => ret tt end) in
      let! ok1 := succeeds (remove_tree (d_workspace i)) in
      let! ok2 := (match d_jail_path i with Some j => succeeds (remove_tree j) | None => ret true end) in
      if ok1 && ok2 then ignore (finish_delete (d_vm_id i)) else ret tt
  end.

Definition replay_pending_deletes : M St unit := let! l := pending_deletes in for_each l replay_delete.

(** The recovery at the start of [reconcile]. *)
Definition recover : M St unit := do! replay_pending_deletes in replay_pending_ops.

(** ** Creating a VM *)

(** What happens between the placeholder and the last update of the record:
    provisioning, network, seed, dataplane and launch.  Each is a sequence of
    host calls that may fail, of notes in the record kept in memory, and of
    resources added to the intent.  The host calls are arbitrary here: what
    follows holds whatever they make. *)
Inductive body_step :=
| BHost (f : Host -> Host)
| BNote (f : VmRecord -> VmRecord)
| BRecord (r : Resource).

Fixpoint run_body (id : N) (steps : list body_step) (vm : VmRecord) : M St (VmRecord * bool) :=
  match steps with
  | [] => ret (vm, true)
  | BHost f :: steps => try_ok (ext (on_host f)) (fun _ => run_body id steps vm) (ret (vm, false))
  | BNote f :: steps => run_body id steps (f vm)
  | BRecord r :: steps => do! ignore (guard_record Create id r) in run_body id steps vm
  end.

Definition placeholder (id : N) (req : CreateVmRequest) (d : rstr) : VmRecord :=
  MkVm Creating None (workspace_of id) d None None None None None [] None (q_storage req) (q_network req).

Definition set_status (st : VmStatus) (vm : VmRecord) : VmRecord :=
  MkVm st (pid vm) (workspace vm) (disk vm) (tap_name vm) (netns vm) (jail_path vm) (lvm_lv vm) (nbd_pid vm)
    (virtiofsd_pids vm) (swtpm_pid vm) (storage vm) (network vm).

(** What a failed create takes back before it says so. *)
Definition undo_body (id : N) (vm : VmRecord) : M St unit :=
  do! (match tap_name vm with Some t => ignore (network_cleanup id (network vm) t (netns vm)) | None => ret tt end) in
  do! (match lvm_lv vm with Some lv => ignore (cleanup_lvm_lv lv) | None => ret tt end) in
  match nbd_pid vm with Some p => ignore (terminate_pid p) | None => ret tt end.

Definition on_err {A} (m : M St A) (h : M St unit) : M St A := fun s =>
  match m s with
  | (Err e, s) => (do! h in throw e) s
  | r => r
  end.

(** [create] from its intent on; [refused] says whether a check behind the
    placeholder refuses the request. *)
Definition create (id : N) (req : CreateVmRequest) (d : rstr) (refused : bool) (steps : list body_step) : M St VmRecord :=
  do! guard_begin me Create id id (planned_create_resources id req) in
  let! r := on_err
    (do! ext (on_host (fun h => set_paths (<[workspace_of id := MkPMeta true 0]> (h_paths h)) h)) in
     do! store_insert id (placeholder id req d) in
     do! (if refused then throw Unsupported else ret tt) in
     let! r := run_body id steps (placeholder id req d) in
     do! (if (r : VmRecord * bool).2 then ret tt else undo_body id r.1) in
     do! store_update id (set_status (if r.2 then Running else Failed) r.1) in
     do! guard_finish Create id in
     ret r)
    (guard_drop Create id) in
  if (r : VmRecord * bool).2 then ret (set_status Running r.1) else throw Io.

(** ** What recovery may remove

    [quiet Rr]: a computation that adds nothing to the host and leaves the
    intents of the create of [x] alone; its record changes as [Rr] allows. *)

Record shrinks (h h' : Host) : Prop := {
  sh_paths : forall p, is_Some (h_paths h' !! p) -> is_Some (h_paths h !! p);
  sh_netns : h_netns h' ⊆ h_netns h;
  sh_links : forall t, is_Some (h_links h' !! t) -> is_Some (h_links h !! t);
  sh_lvs : h_lvs h' ⊆ h_lvs h;
  sh_ceph : h_ceph h' ⊆ h_ceph h;
  sh_procs : forall p pr, h_procs h' !! p = Some pr -> h_procs h !! p = Some pr
}.

#[local] Instance shrinks_preorder : PreOrder shrinks.
Proof.
  split; [by intros []|]. intros h1 h2 h3 [A1 A2 A3 A4 A5 A6] [B1 B2 B3 B4 B5 B6]. split; eauto; set_solver.
Qed.

Section Quiet.
Context (x : N).

(** Intents are filed under their own names, and no other operation has [x] as
    its VM or its fork child. *)
Definition others_ok (o : gmap op_key OpIntent) : Prop :=
  forall k i, o !! k = Some i -> key_of i = k /\ (k <> (Create, x) -> vm_id i <> x /\ ForkChild x ∉ resources i).

Record quiet (Rr : option VmRecord -> option VmRecord -> Prop) (s s' : St) : Prop := {
  qu_host : shrinks (host s) (host s');
  qu_rec : Rr (recs s !! x) (recs s' !! x);
  qu_op : ops s' !! (Create, x) = ops s !! (Create, x);
  qu_ops : others_ok (ops s) -> others_ok (ops s');
  qu_err : FErr ∉ script s -> FErr ∉ script s'
}.

Context (Rr : option VmRecord -> option VmRecord -> Prop) `{!PreOrder Rr}.

#[local] Instance quiet_preorder : PreOrder (quiet Rr).
Proof.
  split; [by split|]. intros s1 s2 s3 [A1 A2 A3 A4 A5] [B1 B2 B3 B4 B5]. split; try (etransitivity; eassumption); eauto.
Qed.

Lemma quiet_script s l f : script s = f :: l -> quiet Rr s (set_script l s).
Proof. intros E. split; simpl; try reflexivity; try done. rewrite E. set_solver. Qed.

#[local] Instance quiet_takes_script : TakesScript (quiet Rr).
Proof. split. intros s f l. apply quiet_script. Qed.

Lemma quiet_ext {A} (m : M St A) : mrel (quiet Rr) m -> mrel (quiet Rr) (ext m).
Proof. apply mrel_ext; apply _. Qed.

Lemma quiet_host f : (forall h, shrinks h (f h)) -> mrel (quiet Rr) (on_host f).
Proof. intros Hf s. split; simpl; try reflexivity; done. Qed.

Lemma quiet_ignore {A} (m : M St A) : mrel (quiet Rr) m -> mrel (quiet Rr) (ignore m).
Proof. apply mrel_ignore; apply _. Qed.
Lemma quiet_succeeds {A} (m : M St A) : mrel (quiet Rr) m -> mrel (quiet Rr) (succeeds m).
Proof. apply mrel_succeeds; apply _. Qed.
Lemma quiet_for_each {A} (l : list A) f : (forall a, a ∈ l -> mrel (quiet Rr) (f a)) -> mrel (quiet Rr) (for_each l f).
Proof. apply mrel_for_each; apply _. Qed.
Lemma quiet_for_all {A} (l : list A) f : (forall a, a ∈ l -> mrel (quiet Rr) (f a)) -> mrel (quiet Rr) (for_all l f).
Proof. apply mrel_for_all; apply _. Qed.

Lemma shrinks_kill p h : shrinks h (set_procs (delete p (h_procs h)) h).
Proof. split; simpl; try done. intros q pr. rewrite lookup_delete_Some. tauto. Qed.
Lemma shrinks_link t h : shrinks h (set_links (delete t (h_links h)) h).
Proof. split; simpl; try done. intros q. rewrite lookup_delete_is_Some. tauto. Qed.
Lemma shrinks_netns n h : shrinks h (set_netns (h_netns h ∖ {[n]}) h).
Proof. split; simpl; try done. set_solver. Qed.
Lemma shrinks_lv p h : shrinks h (set_lvs (h_lvs h ∖ {[p]}) h).
Proof. split; simpl; try done. set_solver. Qed.
Lemma shrinks_ceph c h : shrinks h (set_ceph (h_ceph h ∖ {[c]}) h).
Proof. split; simpl; try done. set_solver. Qed.
Lemma shrinks_tree p h : shrinks h (set_paths (without_tree p (h_paths h)) h).
Proof. split; simpl; try done. intros q [m Hm]. apply map_lookup_filter_Some in Hm as [? _]. by eexists. Qed.
Lemma shrinks_file p h : shrinks h (set_paths (delete p (h_paths h)) h).
Proof. split; simpl; try done. intros q. rewrite lookup_delete_is_Some. tauto. Qed.

#[local] Hint Resolve shrinks_kill shrinks_link shrinks_netns shrinks_lv shrinks_ceph shrinks_tree shrinks_file : shrink.

Ltac quiet_tac :=
  repeat lazymatch goal with
  | |- forall _, mrel _ _ => intro
  | |- mrel _ (bind _ _) => apply mrel_bind; [apply _ | |]
  | |- mrel _ (try_ok _ _ _) => apply mrel_try_ok; [apply _ | | |]
  | |- mrel _ (ext _) => apply quiet_ext
  | |- mrel _ (ignore _) => apply quiet_ignore
  | |- mrel _ (succeeds _) => apply quiet_succeeds
  | |- mrel _ (for_each _ _) => apply quiet_for_each; intros ? ?
  | |- mrel _ (for_all _ _) => apply quiet_for_all; intros ? ?
  | |- mrel _ (on_host _) => apply quiet_host; intro; solve [eauto with shrink]
  | |- mrel _ (ret _) => apply mrel_ret; apply _
  | |- mrel _ (throw _) => apply mrel_throw; apply _
  | |- mrel _ (gets _) => apply mrel_gets; apply _
  | |- mrel _ (ok_or _ _) => apply mrel_ok_or; apply _
  | |- mrel _ (let '(_, _) := ?p in _) => destruct p
  | |- mrel _ (match ?e with _ => _ end) => destruct e
  | |- mrel _ _ => solve [eauto with quiet]
  end.

Lemma quiet_dels f : mrel (quiet Rr) (modify (fun s => set_dels (f s) s)).
Proof. intros s. split; simpl; try reflexivity; done. Qed.

Lemma quiet_recs f : (forall s, Rr (recs s !! x) (f s !! x)) -> mrel (quiet Rr) (modify (fun s => set_recs (f s) s)).
Proof. intros Hf s. split; simpl; try reflexivity; done. Qed.

#[local] Hint Resolve quiet_dels : quiet.

Lemma quiet_terminate p : mrel (quiet Rr) (terminate_pid p).
Proof. unfold terminate_pid, kill. quiet_tac. Qed.
Lemma quiet_reap p : mrel (quiet Rr) (reap p).
Proof. unfold reap. quiet_tac. apply quiet_terminate. Qed.
Lemma quiet_tap t : mrel (quiet Rr) (cleanup_tap t).
Proof. unfold cleanup_tap. quiet_tac. Qed.
Lemma quiet_netns n : mrel (quiet Rr) (netns_cleanup n).
Proof. unfold netns_cleanup. quiet_tac. Qed.
Lemma quiet_lvm p : mrel (quiet Rr) (cleanup_lvm_lv p).
Proof. unfold cleanup_lvm_lv. quiet_tac. Qed.
Lemma quiet_ceph c : mrel (quiet Rr) (cleanup_ceph_rbd c).
Proof. unfold cleanup_ceph_rbd. quiet_tac. Qed.
Lemma quiet_remove_tree p : mrel (quiet Rr) (remove_tree p).
Proof. unfold remove_tree. quiet_tac. Qed.
Lemma quiet_finish_delete id : mrel (quiet Rr) (finish_delete id).
Proof. unfold finish_delete. quiet_tac. Qed.

#[local] Hint Resolve quiet_terminate quiet_reap quiet_tap quiet_netns quiet_lvm quiet_ceph quiet_remove_tree quiet_finish_delete : quiet.

Lemma quiet_network id spec t ns : mrel (quiet Rr) (network_cleanup id spec t ns).
Proof. unfold network_cleanup. quiet_tac. Qed.
Lemma quiet_kill_vmm id : mrel (quiet Rr) (kill_vmm_processes id).
Proof. unfold kill_vmm_processes. quiet_tac. Qed.
Lemma quiet_store_get id : mrel (quiet Rr) (store_get id).
Proof. unfold store_get. quiet_tac. Qed.
#[local] Hint Resolve quiet_store_get : quiet.
Lemma quiet_get id : mrel (quiet Rr) (get_vm id).
Proof. unfold get_vm. quiet_tac. Qed.
#[local] Hint Resolve quiet_network quiet_kill_vmm quiet_get : quiet.

(** Another VM, or [Rr] lets the record of [x] be removed and stopped. *)
Definition free (id : N) : Prop :=
  id = x -> (forall a, Rr a None) /\ (forall a vm, status vm = Stopped -> Rr a (Some vm)).

Lemma quiet_put id vm : free id -> status vm = Stopped -> mrel (quiet Rr) (store_update id vm).
Proof.
  intros Hf Hs. unfold store_update. quiet_tac. apply quiet_recs. intros s. unfold replace_rec. destruct (recs s !! id) eqn:E; [|reflexivity].
  destruct (decide (id = x)) as [-> |Hne].
  - rewrite lookup_insert_eq. by apply Hf.
  - by rewrite lookup_insert_ne.
Qed.

Lemma quiet_remove id : free id -> mrel (quiet Rr) (store_remove id).
Proof.
  intros Hf. unfold store_remove. quiet_tac. apply quiet_recs. intros s. destruct (decide (id = x)) as [-> |Hne].
  - rewrite lookup_delete_eq. by apply Hf.
  - by rewrite lookup_delete_ne.
Qed.

Lemma quiet_stop id : free id -> mrel (quiet Rr) (stop id).
Proof. intros Hf. unfold stop, stop_process, kill. quiet_tac. all: by apply quiet_put. Qed.

Lemma quiet_reclaim id vm : mrel (quiet Rr) (reclaim id vm).
Proof. unfold reclaim, remove_existing. quiet_tac. Qed.
#[local] Hint Resolve quiet_reclaim : quiet.

Lemma quiet_delete id : free id -> mrel (quiet Rr) (delete_vm id).
Proof.
  intros Hf. unfold delete_vm, begin_delete, durably. quiet_tac.
  all: first [by apply quiet_stop|by apply quiet_remove].
Qed.
#[local] Hint Resolve quiet_delete : quiet.

Lemma quiet_rollback_resource id r : mrel (quiet Rr) (rollback_resource id r).
Proof. unfold rollback_resource. quiet_tac. Qed.
Lemma quiet_rollback_workspace id r : mrel (quiet Rr) (rollback_workspace id r).
Proof. unfold rollback_workspace. quiet_tac. Qed.
Lemma quiet_rollback_file id r : mrel (quiet Rr) (rollback_file id r).
Proof. unfold rollback_file. quiet_tac. Qed.
#[local] Hint Resolve quiet_rollback_resource quiet_rollback_workspace quiet_rollback_file : quiet.

Lemma quiet_rollback_record i : free (vm_id i) -> mrel (quiet Rr) (rollback_record i).
Proof. intros Hf. unfold rollback_record. quiet_tac. Qed.
#[local] Hint Resolve quiet_rollback_record : quiet.

Lemma quiet_rollback_create i : free (vm_id i) -> mrel (quiet Rr) (rollback_create i).
Proof. intros Hf. unfold rollback_create. quiet_tac. Qed.

Lemma quiet_rollback_files i : mrel (quiet Rr) (rollback_files i).
Proof. unfold rollback_files. quiet_tac. Qed.
#[local] Hint Resolve quiet_rollback_create quiet_rollback_files : quiet.

Lemma quiet_rollback_child r : (forall c, r = ForkChild c -> free c) -> mrel (quiet Rr) (rollback_child r).
Proof. intros Hf. unfold rollback_child. destruct r; quiet_tac. Qed.

Lemma quiet_rollback i : free (vm_id i) -> (forall c, ForkChild c ∈ resources i -> free c) -> mrel (quiet Rr) (rollback i).
Proof.
  intros Hv Hc. unfold rollback, rollback_fork. quiet_tac. apply quiet_rollback_child. intros c ->. by apply Hc.
Qed.

Lemma quiet_finish_op i : key_of i <> (Create, x) -> mrel (quiet Rr) (finish_op (op i) (op_id i)).
Proof.
  intros Hk. unfold finish_op. quiet_tac. intros s. split; simpl; try reflexivity; try done.
  - by rewrite lookup_delete_ne.
  - intros Ho k j. rewrite lookup_delete_Some. intros [_ Hj]. by apply Ho.
Qed.

Lemma quiet_update_op i n : key_of i <> (Create, x) -> vm_id i <> x -> ForkChild x ∉ resources i ->
  mrel (quiet Rr) (update_op (with_attempts n i)).
Proof.
  intros Hk Hv Hc. unfold update_op, write_op, durably. quiet_tac. intros s. split; simpl; try reflexivity; try done.
  - by rewrite lookup_insert_ne.
  - intros Ho k j. rewrite lookup_insert_Some. intros [[<- <-]|[_ Hj]]; [done|by apply Ho].
Qed.

Lemma quiet_replay_op i : key_of i <> (Create, x) -> vm_id i <> x -> ForkChild x ∉ resources i -> mrel (quiet Rr) (replay_op i).
Proof.
  intros Hk Hv Hc. unfold replay_op. quiet_tac.
  1: apply quiet_rollback; [by intros ?|intros c Hi ->; done].
  1,2: by apply quiet_finish_op. by apply quiet_update_op.
Qed.

Lemma quiet_replay_delete i : mrel (quiet Rr) (replay_delete i).
Proof. unfold replay_delete. quiet_tac. Qed.

Lemma quiet_readable {A} (l : list A) : mrel (quiet Rr) (readable l).
Proof. induction l as [|a l IH]; cbn [readable]; quiet_tac. Qed.
#[local] Hint Resolve quiet_readable quiet_replay_delete : quiet.

Lemma quiet_replay_deletes : mrel (quiet Rr) replay_pending_deletes.
Proof. unfold replay_pending_deletes, pending_deletes. quiet_tac. Qed.
End Quiet.

(** ** What a rollback achieves *)

(** The resources of a plan that are there. *)
Definition exists_res (h : Host) (r : Resource) : Prop :=
  match r with
  | Workspace p => exists q, p `prefix_of` q /\ is_Some (h_paths h !! q)
  | Netns n => n ∈ h_netns h
  | Tap t => is_Some (h_links h !! t)
  | LvmLv p => p ∈ h_lvs h
  | CephClone c => c ∈ h_ceph h
  | _ => False
  end.

Definition refers (h : Host) (id p : N) : Prop :=
  exists pr, h_procs h !! p = Some pr /\ vmm_referencing (needles_of id) pr = true /\ p <> me.

Lemma exists_shrinks h h' r : shrinks h h' -> exists_res h' r -> exists_res h r.
Proof.
  intros [H1 H2 H3 H4 H5 H6]. destruct r; simpl; try (by auto).
  intros (q & Hq & Hs). exists q. auto.
Qed.

Lemma refers_shrinks h h' id p : shrinks h h' -> refers h' id p -> refers h id p.
Proof. intros Hs (pr & Hp & Hr). exists pr. split; [by apply (sh_procs _ _ Hs)|done]. Qed.

(** Everything planned carries the VM's name, so that rollback trusts it. *)
Lemma planned_ours id req r : in_u 128 id ->
  (forall vg, image_vg (q_image req) = Some vg -> vg <> []) ->
  r ∈ planned_create_resources id req -> resource_is_ours id r = true.
Proof.
  intros Hid Hvg. unfold planned_create_resources. rewrite !elem_of_app. intros [Hr|[Hr|Hr]].
  - apply list_elem_of_singleton in Hr as ->. cbn [resource_is_ours]. apply bool_decide_eq_true.
    unfold workspace_vm_id, workspace_of, parent, file_name. rewrite reverse_snoc, reverse_involutive.
    rewrite bool_decide_eq_true_2 by done. by apply uuid_parse_string.
  - destruct (q_network req) as [| |tap [] ? ?|]; try (by apply not_elem_of_nil in Hr).
    + apply list_elem_of_singleton in Hr as ->. cbn [resource_is_ours]. apply bool_decide_eq_true. by apply strip_prefix_spec.
    + destruct tap; [by apply not_elem_of_nil in Hr|]. apply list_elem_of_singleton in Hr as ->. cbn [resource_is_ours].
      apply bool_decide_eq_true. by apply strip_prefix_spec.
  - destruct (q_storage req); try (by apply not_elem_of_nil in Hr).
    + destruct (image_vg (q_image req)) as [vg|] eqn:E; [|by apply not_elem_of_nil in Hr]. apply list_elem_of_singleton in Hr as ->.
      cbn -[bstr]. rewrite bool_decide_eq_true_2 by done. cbn -[bstr]. rewrite bool_decide_eq_true_2 by done. cbn -[bstr].
      rewrite bool_decide_eq_false_2; [done|by apply Hvg].
    + destruct (parse_rbd_ref (q_image req)) as [[pool img]|] eqn:E; [|by apply not_elem_of_nil in Hr].
      apply list_elem_of_singleton in Hr as ->. unfold parse_rbd_ref in E.
      destruct (split_once 47 (display (q_image req))) as [[a b]|] eqn:Es; [|done].
      destruct (rbd_ok a && rbd_ok b) eqn:Eok; [|done]. simplify_eq. apply andb_prop in Eok as [Ha _].
      apply split_once_some in Es as [_ Hn]. cbn [resource_is_ours].
      change (bstr "/" ++ bstr "eph-" ++ short_id id) with (47 :: bstr "eph-" ++ short_id id).
      rewrite (split_once_app 47 pool (bstr "eph-" ++ short_id id)) by done. rewrite Ha. by apply bool_decide_eq_true.
Qed.

(** A placeholder has no process. *)
Definition pid_ok (o : option VmRecord) : Prop := forall vm, o = Some vm -> status vm = Creating -> pid vm = None.
Definition stopr (a b : option VmRecord) : Prop := pid_ok a -> pid_ok b.
#[local] Instance stopr_preorder : PreOrder stopr.
Proof. unfold stopr. split; [intros a|intros a b c]; auto. Qed.
#[local] Existing Instance quiet_preorder.

Section Achieves.
Context (x : N).

(** With no failing call, [m] reaches [G] whenever it ends normally;
    [settles]: also when it ends with an error. *)
Definition achieves {A} (m : M St A) (G : St -> Prop) : Prop :=
  forall s a s', FErr ∉ script s -> m s = (Ok a, s') -> G s'.
Definition settles {A} (m : M St A) (G : St -> Prop) : Prop :=
  forall s o s', FErr ∉ script s -> m s = (o, s') -> o <> Panic -> G s'.
Definition stable (G : St -> Prop) : Prop := forall s s', quiet x stopr s s' -> G s -> G s'.

Lemma ach_bind_l {A B} (m : M St A) (f : A -> M St B) G :
  achieves m G -> (forall a, mrel (quiet x stopr) (f a)) -> stable G -> achieves (bind m f) G.
Proof.
  intros Hm Hf HG s b s' He E. unfold bind in E. destruct (m s) as [[a|e| |] s1] eqn:Em; simplify_eq.
  eapply (HG s1); [|by eapply Hm]. specialize (Hf a s1). by rewrite E in Hf.
Qed.

Lemma ach_bind_r {A B} (m : M St A) (f : A -> M St B) G :
  mrel (quiet x stopr) m -> (forall a, achieves (f a) G) -> achieves (bind m f) G.
Proof.
  intros Hm Hf s b s' He E. unfold bind in E. destruct (m s) as [[a|e| |] s1] eqn:Em; simplify_eq.
  eapply Hf; [|exact E]. specialize (Hm s). rewrite Em in Hm. by apply (qu_err _ _ _ _ Hm).
Qed.

Lemma ach_for_all {A} (l : list A) f a G :
  a ∈ l -> achieves (f a) G -> (forall a, mrel (quiet x stopr) (f a)) -> stable G -> achieves (for_all l f) G.
Proof.
  intros Ha Hg Hf HG. induction l as [|b l IH]; [by apply not_elem_of_nil in Ha|]. cbn [for_all].
  assert (forall b, mrel (quiet x stopr) (let! c := for_all l f in ret (b && c))) as Hr.
  { intros c. apply mrel_bind; [apply _|apply quiet_for_all; [apply _|intros; apply Hf]|intros; apply mrel_ret; apply _]. }
  apply elem_of_cons in Ha as [<- |Ha]; [by apply ach_bind_l|].
  apply ach_bind_r; [done|]. intros c. apply ach_bind_l; [by apply IH|intros; apply mrel_ret; apply _|done].
Qed.

Lemma ach_for_each {A} (l : list A) f a G :
  a ∈ l -> achieves (f a) G -> (forall a, mrel (quiet x stopr) (f a)) -> stable G -> achieves (for_each l f) G.
Proof.
  intros Ha Hg Hf HG. induction l as [|b l IH]; [by apply not_elem_of_nil in Ha|]. cbn [for_each].
  apply elem_of_cons in Ha as [<- |Ha].
  - apply ach_bind_l; [done| |done]. intros _. apply quiet_for_each; [apply _|intros; apply Hf].
  - apply ach_bind_r; [done|]. intros _. by apply IH.
Qed.

Lemma settles_ext {A} (m : M St A) G : (forall s o s', m s = (o, s') -> G s') -> settles (ext m) G.
Proof.
  intros Hm s o s' He E Hp. unfold ext in E. destruct (script s) as [|[] l] eqn:Es; [by eapply Hm|by eapply Hm|..].
  - exfalso. apply He. set_solver.
  - by simplify_eq.
Qed.

Lemma ach_ignore {A} (m : M St A) G : settles m G -> achieves (ignore m) G.
Proof.
  intros Hm s [] s' He E. unfold ignore, try_ok in E. destruct (m s) as [[a|e| |] s1] eqn:Em; unfold ret in E; simplify_eq; (eapply Hm; [exact He|exact Em|done]).
Qed.

Lemma ach_succeeds {A} (m : M St A) G : settles m G -> achieves (succeeds m) G.
Proof.
  intros Hm s b s' He E. unfold succeeds, try_ok in E. destruct (m s) as [[a|e| |] s1] eqn:Em; unfold ret in E; simplify_eq; (eapply Hm; [exact He|exact Em|done]).
Qed.

Lemma ach_then_ret {A B} (m : M St A) (b : B) G : achieves m G -> achieves (do! m in ret b) G.
Proof.
  intros Hm s c s' He E. unfold bind, ret in E. destruct (m s) as [[a|e| |] s1] eqn:Em; simplify_eq. by eapply Hm.
Qed.

Definition gone (r : Resource) (s : St) : Prop := ~ exists_res (host s) r.

Lemma gone_stable r : stable (gone r).
Proof. intros s s' Hq Hg He. apply Hg. eapply exists_shrinks; [apply Hq|done]. Qed.

Lemma ach_resource id r : resource_is_ours id r = true ->
  match r with Netns _ | Tap _ | LvmLv _ | CephClone _ => True | _ => False end ->
  achieves (rollback_resource id r) (gone r).
Proof.
  intros Ho Hk. unfold rollback_resource. rewrite Ho. cbn [negb]. destruct r as [| | |p|c|q st| | |]; try done.
  - apply ach_then_ret, ach_ignore, settles_ext. intros s o s' [= <- <-]. unfold gone. simpl. set_solver.
  - apply ach_then_ret, ach_ignore, settles_ext. intros s o s' [= <- <-]. unfold gone. simpl. rewrite lookup_delete_eq. by intros [].
  - intros s a s' He. unfold bind at 1, gets at 1. case_bool_decide as Hp.
    + apply ach_succeeds; [|done]. apply settles_ext. intros t o t'. unfold bind, gets. case_bool_decide as Ht; intros [= <- <-]; unfold gone; simpl; [set_solver|done].
    + intros [= <- <-]. exact Hp.
  - apply ach_succeeds, settles_ext. intros t o t'. unfold bind, gets. case_bool_decide as Ht; intros [= <- <-]; unfold gone; simpl; [set_solver|done].
Qed.

Lemma ach_workspace id p : resource_is_ours id (Workspace p) = true -> achieves (rollback_workspace id (Workspace p)) (gone (Workspace p)).
Proof.
  intros Ho. unfold rollback_workspace. rewrite Ho. apply ach_succeeds, settles_ext. intros s o s' [= <- <-] (q & Hq & m & Hm). simpl in Hm.
  by apply map_lookup_filter_Some in Hm as [_ Hn].
Qed.

Lemma ach_kill_vmm id : achieves (kill_vmm_processes id) (fun s => forall p, ~ refers (host s) id p).
Proof.
  intros s a s' He E p Hp. unfold kill_vmm_processes, bind, gets in E.
  assert (p ∈ vmm_pids_referencing (host s) (needles_of id)) as Hin.
  { assert (mrel (quiet x stopr) (for_each (vmm_pids_referencing (host s) (needles_of id)) (fun p => ignore (terminate_pid p)))) as Hq.
    { apply quiet_for_each; [apply _|]. intros. apply quiet_ignore; [apply _|]. apply quiet_terminate; apply _. }
    specialize (Hq s). rewrite E in Hq. apply (refers_shrinks (host s)) in Hp as (pr & Hpr & Hv & Hme); [|apply Hq].
    unfold vmm_pids_referencing. apply list_elem_of_omap. exists (p, pr). split; [by apply elem_of_map_to_list|].
    cbn [fst snd]. rewrite Hv. apply N.eqb_neq in Hme. by rewrite Hme. }
  assert (achieves (for_each (vmm_pids_referencing (host s) (needles_of id)) (fun p => ignore (terminate_pid p)))
            (fun s => h_procs (host s) !! p = None)) as Hach.
  { eapply ach_for_each; [exact Hin|..].
    - apply ach_ignore, settles_ext. intros t o t'. unfold bind, gets, process_alive. case_bool_decide as Ht; intros [= <- <-]; simpl.
      + by rewrite lookup_delete_eq.
      + destruct (h_procs (host t) !! p) eqn:Eq; [|done]. by destruct Ht; eexists.
    - intros. apply quiet_ignore; [apply _|]. apply quiet_terminate; apply _.
    - intros t t' Ht Hn. destruct (h_procs (host t') !! p) as [pr|] eqn:Eq; [|done].
      apply (sh_procs _ _ (qu_host _ _ _ _ Ht)) in Eq. congruence. }
  destruct Hp as (pr & Hpr & _). apply (Hach s a s') in E; [congruence|done].
Qed.

Lemma ext_noerr {A} (m : M St A) s o s' : FErr ∉ script s -> ext m s = (o, s') ->
  o = Panic \/ exists l, FErr ∉ l /\ m (set_script l s) = (o, s').
Proof.
  intros He. unfold ext. destruct (script s) as [|[] l] eqn:Es.
  - intros E. right. exists []. split; [set_solver|]. rewrite <- E. destruct s. simpl in *. by subst.
  - intros E. right. exists l. split; [set_solver|done].
  - exfalso. apply He. set_solver.
  - intros [= <- <-]. by left.
Qed.

(** [safe P m Q]: with no failing call, [m] started in [P] does not fail and ends
    in [Q], unless the process dies in it. *)
Definition safe {A} (P : St -> Prop) (m : M St A) (Q : A -> St -> Prop) : Prop :=
  forall s, FErr ∉ script s -> P s ->
    match m s with (Ok a, s') => FErr ∉ script s' /\ Q a s' | (Panic, _) => True | _ => False end.

Lemma safe_bind {A B} P (m : M St A) R (f : A -> M St B) Q :
  safe P m R -> (forall a, safe (R a) (f a) Q) -> safe P (bind m f) Q.
Proof.
  intros Hm Hf s He HP. specialize (Hm s He HP). unfold bind. destruct (m s) as [[a|e| |] s1]; try done.
  destruct Hm as [He1 HR]. by apply Hf.
Qed.

Lemma safe_ext {A} (P : St -> Prop) (m : M St A) Q :
  (forall s l, P s -> P (set_script l s)) -> safe P m Q -> safe P (ext m) Q.
Proof.
  intros HP Hm s He Hs. unfold ext. destruct (script s) as [|[] l] eqn:E; [apply Hm; [by rewrite E|done]|..].
  - apply Hm; [|by apply HP]. set_solver.
  - apply He. set_solver.
  - done.
Qed.

Lemma safe_elim {A B} P (m : M St A) R (f : A -> M St B) s o s' :
  safe P m R -> FErr ∉ script s -> P s -> bind m f s = (o, s') -> o <> Panic ->
  exists a s1, m s = (Ok a, s1) /\ FErr ∉ script s1 /\ R a s1 /\ f a s1 = (o, s').
Proof.
  intros Hm He HP E Ho. specialize (Hm s He HP). unfold bind in E. destruct (m s) as [[a|e| |] s1]; try done.
  - destruct Hm. by exists a, s1.
  - by simplify_eq.
Qed.

Lemma safe_durably (P : St -> Prop) f Q : (forall s l, P s -> P (set_script l s)) ->
  (forall s l, Q s -> Q (set_script l s)) -> (forall s, P s -> script (f s) = script s /\ Q (f s)) ->
  safe P (durably (modify f)) (fun _ => Q).
Proof.
  intros HP HQ Hf. unfold durably. eapply (safe_bind _ _ (fun _ => P)); [apply safe_ext; [done|]; by intros s He Hs|].
  intros _. eapply (safe_bind _ _ (fun _ => Q)); [apply safe_ext; [done|]|intros _; apply safe_ext; [done|]; by intros s He Hs].
  intros s He Hs. destruct (Hf s Hs) as [E HQs]. simpl. by rewrite E.
Qed.

Lemma store_get_noerr id s o s' : FErr ∉ script s -> store_get id s = (o, s') ->
  o = Panic \/ o = Ok (recs s !! id) /\ exists l, FErr ∉ l /\ s' = set_script l s.
Proof.
  intros He E. unfold store_get, try_ok in E. destruct (ext (gets (fun s => recs s !! id)) s) as [o1 s1] eqn:E1.
  apply (ext_noerr _ _ _ _ He) in E1 as [->|(l & Hl & [= <- <-])]; [by left; injection E as <- _|].
  injection E as <- <-. right. split; [done|]. by exists l.
Qed.

Lemma safe_get vm : safe (fun s => recs s !! x = Some vm) (get_vm x) (fun v s => v = vm /\ recs s !! x = Some vm).
Proof.
  intros s He Hr. unfold get_vm, bind. destruct (store_get x s) as [o s'] eqn:E.
  apply (store_get_noerr _ _ _ _ He) in E as [->|(-> & l & Hl & ->)]; [done|]. by rewrite Hr.
Qed.

(** The placeholder's record goes with its delete. *)
Lemma delete_clears s o s' vm : FErr ∉ script s -> recs s !! x = Some vm -> pid vm = None ->
  delete_vm x s = (o, s') -> o <> Panic -> recs s' !! x = None.
Proof.
  intros He Hr Hpid E Hp. unfold delete_vm in E.
  eapply (safe_elim (fun s => recs s !! x = Some vm) _ (fun v s => v = vm /\ recs s !! x = Some vm)) in E
    as (v & s0 & _ & He0 & [-> Hr0] & E); [|by apply safe_get|done..].
  rewrite Hpid in E. unfold bind at 1, ret at 1, bind at 1, gets at 1 in E. rewrite Hpid in E.
  eapply (safe_elim (fun s => recs s !! x = Some vm) _ (fun _ s => recs s !! x = Some vm)) in E
    as (_ & s1 & _ & He1 & Hr1 & E); [|by apply safe_durably|done..].
  eapply (safe_elim (fun s => recs s !! x = Some vm) _ (fun _ s => recs s !! x = None)) in E
    as (vm1 & s2 & _ & He2 & Hr2 & E); [|clear E|done..].
  2:{ apply safe_ext; [done|]. intros t Ht Hrt. unfold bind, gets. rewrite Hrt. cbn. by rewrite lookup_delete_eq. }
  pose proof (quiet_reclaim x eq x vm1 s2) as Hq. rewrite E in Hq. simpl in Hq. by rewrite <- (qu_rec _ _ _ _ Hq).
Qed.

(** What is left of the create of [x]: something it planned, a VMM process, or
    its placeholder. *)
Definition creating (s : St) : Prop := exists vm, recs s !! x = Some vm /\ status vm = Creating.
Definition completed (s : St) : Prop := exists vm, recs s !! x = Some vm /\ status vm <> Creating.

Definition leftover (req : CreateVmRequest) (s : St) : Prop :=
  (exists r, r ∈ planned_create_resources x req /\ exists_res (host s) r) \/ (exists p, refers (host s) x p) \/ creating s.

Lemma free_any id : free x stopr id.
Proof. intros _. split; [by intros a _ vm|]. intros a vm Hs _ vm' [= <-] Hc. congruence. Qed.

Lemma quiet_any_all {A} (l : list A) f : (forall a, mrel (quiet x stopr) (f a)) -> mrel (quiet x stopr) (for_all l f).
Proof. intros Hf. apply quiet_for_all; [apply _|]. intros; apply Hf. Qed.

Lemma ach_gets {A B} (g : St -> A) (f : A -> M St B) G : (forall a, achieves (f a) G) -> achieves (bind (gets g) f) G.
Proof. intros Hf. apply ach_bind_r; [apply mrel_gets; apply _|done]. Qed.

Lemma refers_stable id : stable (fun s => forall p, ~ refers (host s) id p).
Proof. intros s s' Hq Hn p Hp. apply (Hn p). eapply refers_shrinks; [apply Hq|done]. Qed.

Lemma ach_rollback_workspace i p : Workspace p ∈ resources i -> resource_is_ours (vm_id i) (Workspace p) = true ->
  achieves (rollback_record i) (gone (Workspace p)).
Proof.
  intros Hin Ho. unfold rollback_record. apply ach_bind_r; [by apply quiet_store_get; apply _|]. intros o. apply ach_bind_r.
  - destruct o; [|apply mrel_ret; apply _]. apply quiet_succeeds; [apply _|]. apply quiet_delete; [apply _|apply free_any].
  - intros ok2. apply ach_bind_l; [|intros; apply mrel_ret; apply _|apply gone_stable].
    eapply ach_for_all; [exact Hin|by apply ach_workspace|intros; apply quiet_rollback_workspace; apply _|apply gone_stable].
Qed.

Lemma rollback_record_clears i s b s' : vm_id i = x -> FErr ∉ script s -> (forall vm, recs s !! x = Some vm -> pid vm = None) ->
  rollback_record i s = (Ok b, s') -> recs s' !! x = None.
Proof.
  intros Hi He0 Hp E. unfold rollback_record in E. rewrite Hi in E. unfold bind at 1 in E.
  destruct (store_get x s) as [o1 s0] eqn:E0. apply (store_get_noerr _ _ _ _ He0) in E0 as [->|(-> & l & He & ->)]; [done|].
  change (FErr ∉ script (set_script l s)) in He. change (recs s !! x) with (recs (set_script l s) !! x) in *.
  set (s0 := set_script l s) in *. clearbody s0. clear s He0 l. rename s0 into s.
  set (del := match recs s !! x with Some _ => succeeds (delete_vm x) | None => ret true end) in E.
  assert (forall b t, del s = (Ok b, t) -> recs t !! x = None) as Hdel.
  { intros c t. subst del. destruct (recs s !! x) as [vm|] eqn:Er; [|by intros [= <- <-]].
    unfold succeeds, try_ok. destruct (delete_vm x s) as [[a|e| |] s1] eqn:Ed; try done; intros [= <- <-];
      (eapply (delete_clears _ _ _ _ He Er); [by apply Hp|exact Ed|done]). }
  unfold bind at 1 in E. destruct (del s) as [[c|e| |] s1]; try done. specialize (Hdel c s1 eq_refl).
  assert (mrel (quiet x eq) (let! ok3 := for_all (resources i) (rollback_workspace x) in ret (c && ok3))) as Hq.
  { apply mrel_bind; [apply _|apply quiet_for_all; [apply _|]; intros; apply (quiet_rollback_workspace x eq)|intros; apply mrel_ret; apply _]. }
  specialize (Hq s1). rewrite E in Hq. simpl in Hq. by rewrite <- (qu_rec _ _ _ _ Hq).
Qed.

(** A rollback that runs to its end leaves nothing of an unfinished create. *)
Lemma rollback_clears req i s b s' :
  in_u 128 x -> (forall vg, image_vg (q_image req) = Some vg -> vg <> []) ->
  vm_id i = x -> planned_create_resources x req ⊆ resources i ->
  FErr ∉ script s -> pid_ok (recs s !! x) ->
  rollback_create i s = (Ok b, s') -> leftover req s' -> completed s'.
Proof.
  intros Hx Hvg Hi Hpl He0 Hpid E. unfold rollback_create in E. rewrite Hi in E. unfold bind at 1 in E.
  destruct (store_get x s) as [o1 s0] eqn:E0. apply (store_get_noerr _ _ _ _ He0) in E0 as [->|(-> & l & He & ->)]; [done|].
  change (FErr ∉ script (set_script l s)) in He. change (recs s !! x) with (recs (set_script l s) !! x) in *.
  set (s0 := set_script l s) in *. clearbody s0. clear s He0 l. rename s0 into s.
  destruct (match recs s !! x with Some vm => negb (bool_decide (status vm = Creating)) | None => false end) eqn:Ec.
  { intros _. destruct (recs s !! x) as [vm|] eqn:Er; [|done]. apply negb_true_iff, bool_decide_eq_false in Ec. injection E as _ <-. by exists vm. }
  assert (forall vm, recs s !! x = Some vm -> pid vm = None) as Hpid'.
  { intros vm Hvm. apply Hpid; [done|]. rewrite Hvm in Ec. by apply negb_false_iff, bool_decide_eq_true in Ec. }
  set (body := do! kill_vmm_processes x in _) in E.
  assert (forall a, mrel (quiet x stopr) (let! ok2 := rollback_record i in ret (a && ok2))) as Hrec.
  { intros a. apply mrel_bind; [apply _|apply quiet_rollback_record; [apply _|apply free_any]|intros; apply mrel_ret; apply _]. }
  assert (mrel (quiet x stopr) (for_all (resources i) (rollback_resource x))) as Hall
    by (apply quiet_any_all; intros; apply quiet_rollback_resource; apply _).
  assert (achieves body (fun s => forall p, ~ refers (host s) x p)) as A1.
  { apply ach_bind_l; [apply ach_kill_vmm| |apply refers_stable]. intros _. apply mrel_bind; [apply _|done|apply Hrec]. }
  assert (forall r, r ∈ planned_create_resources x req -> achieves body (gone r)) as A2.
  { intros r Hr. pose proof (planned_ours _ _ _ Hx Hvg Hr) as Ho. apply ach_bind_r; [apply quiet_kill_vmm; apply _|]. intros _.
    destruct r as [p|n|t|p|c|q st|p|c|p]; try (apply ach_bind_l; [|done|apply gone_stable];
      eapply ach_for_all; [by apply Hpl|by apply ach_resource|intros; apply quiet_rollback_resource; apply _|apply gone_stable]).
    all: try (intros s0 ? ? ? ? Hg; exact Hg).
    apply ach_bind_r; [done|]. intros a. apply ach_bind_l; [|intros; apply mrel_ret; apply _|apply gone_stable].
    apply ach_rollback_workspace; [by apply Hpl|by rewrite Hi]. }
  assert (recs s' !! x = None) as A3.
  { subst body. unfold bind at 1 in E. pose proof (quiet_kill_vmm x eq x s) as Q1. destruct (kill_vmm_processes x s) as [[a|e| |] s1]; try done.
    pose proof (quiet_for_all x eq (resources i) (rollback_resource x) (fun r _ => quiet_rollback_resource x eq x r) s1) as Q2.
    unfold bind at 1 in E. destruct (for_all (resources i) (rollback_resource x) s1) as [[c|e| |] s2]; try done. simpl in Q1, Q2.
    unfold bind at 1 in E. destruct (rollback_record i s2) as [[d|e| |] s3] eqn:E3; try done. injection E as _ <-.
    eapply rollback_record_clears; [done| | |exact E3].
    - by apply (qu_err _ _ _ _ Q2), (qu_err _ _ _ _ Q1).
    - intros vm. rewrite <- (qu_rec _ _ _ _ Q2), <- (qu_rec _ _ _ _ Q1). apply Hpid'. }
  intros [(r & Hr & Hex)|[[p Hp]|(vm & Hvm & _)]].
  - by destruct (A2 r Hr _ _ _ He E).
  - by destruct (A1 _ _ _ He E p).
  - congruence.
Qed.
End Achieves.

(** ** Recovery ends *)

Lemma calm_terminate p : calm true (terminate_pid p).
Proof. unfold terminate_pid, kill. calm_tac. Qed.
Lemma calm_tap e t : calm e (cleanup_tap t).
Proof. unfold cleanup_tap. calm_tac. Qed.
Lemma calm_netns e n : calm e (netns_cleanup n).
Proof. unfold netns_cleanup. calm_tac. Qed.
Lemma calm_lvm p : calm true (cleanup_lvm_lv p).
Proof. unfold cleanup_lvm_lv. calm_tac. Qed.
Lemma calm_ceph c : calm true (cleanup_ceph_rbd c).
Proof. unfold cleanup_ceph_rbd. calm_tac. Qed.
#[local] Hint Resolve calm_terminate calm_tap calm_netns calm_lvm calm_ceph : calm.

Lemma calm_reap e p : calm e (reap p).
Proof. unfold reap. calm_tac. Qed.
Lemma calm_kill_vmm e id : calm e (kill_vmm_processes id).
Proof. unfold kill_vmm_processes. calm_tac. Qed.
Lemma calm_network e id spec t ns : calm e (network_cleanup id spec t ns).
Proof. unfold network_cleanup. calm_tac. Qed.
Lemma calm_store_get e id : calm e (store_get id).
Proof. unfold store_get. calm_tac. Qed.
#[local] Hint Resolve calm_store_get : calm.
Lemma calm_get id : calm true (get_vm id).
Proof. unfold get_vm. calm_tac. Qed.
Lemma calm_put id vm : calm true (store_update id vm).
Proof. unfold store_update. calm_tac. Qed.
#[local] Hint Resolve calm_reap calm_kill_vmm calm_network calm_get calm_put : calm.

Lemma calm_stop id : calm true (stop id).
Proof. unfold stop, stop_process, kill. calm_tac. Qed.
Lemma calm_reclaim id vm : calm true (reclaim id vm).
Proof. unfold reclaim, remove_existing. calm_tac. Qed.
#[local] Hint Resolve calm_stop calm_reclaim : calm.

Lemma calm_delete id : calm true (delete_vm id).
Proof. unfold delete_vm, store_remove. calm_tac. Qed.
#[local] Hint Resolve calm_delete : calm.

Lemma calm_rollback e i : calm e (rollback i).
Proof.
  unfold rollback, rollback_create, rollback_record, rollback_fork, rollback_files, rollback_file, rollback_child,
    rollback_resource, rollback_workspace. calm_tac.
Qed.
#[local] Hint Resolve calm_rollback : calm.

Lemma calm_replay_op e i : calm e (replay_op i).
Proof. unfold replay_op, update_op. calm_tac. Qed.
Lemma calm_replay_delete e i : calm e (replay_delete i).
Proof. unfold replay_delete. calm_tac. Qed.
#[local] Hint Resolve calm_replay_op calm_replay_delete : calm.

Lemma calm_recover e : calm e recover.
Proof. unfold recover, replay_pending_deletes, replay_pending_ops. calm_tac. Qed.

(** ** The invariant of a create and of the recoveries after it *)

Section Cover.
Context (x : N) (req : CreateVmRequest).
Context (Hx : in_u 128 x) (Hvg : forall vg, image_vg (q_image req) = Some vg -> vg <> []).

(** The intent of the create, on disk, with everything planned. *)
Definition intent_ok (i : OpIntent) : Prop :=
  key_of i = (Create, x) /\ vm_id i = x /\ planned_create_resources x req ⊆ resources i.

(** What is left of an unfinished create is named by its intent. *)
Record cover (s : St) : Prop := {
  cv_others : others_ok x (ops s);
  cv_pid : pid_ok (recs s !! x);
  cv_intent : forall i, ops s !! (Create, x) = Some i -> intent_ok i;
  cv_cover : leftover x req s -> completed x s \/ is_Some (ops s !! (Create, x))
}.

Definition clear (s : St) : Prop := leftover x req s -> completed x s.

Definition owner_dead (s : St) : Prop :=
  forall i, ops s !! (Create, x) = Some i -> owner_alive (host s) (owner_pid i) (owner_start i) = false.

Lemma leftover_quiet s s' : quiet x eq s s' -> leftover x req s' -> leftover x req s.
Proof.
  intros Hq [(r & Hr & He)|[[p Hp]|Hc]].
  - left. exists r. split; [done|]. eapply exists_shrinks; [apply Hq|done].
  - right. left. exists p. eapply refers_shrinks; [apply Hq|done].
  - right. right. unfold creating in *. by rewrite (qu_rec _ _ _ _ Hq).
Qed.

Lemma completed_quiet s s' : quiet x eq s s' -> completed x s -> completed x s'.
Proof. intros Hq. unfold completed. by rewrite (qu_rec _ _ _ _ Hq). Qed.

Lemma cover_quiet s s' : quiet x eq s s' -> cover s -> cover s'.
Proof.
  intros Hq [C1 C2 C3 C4]. pose proof (qu_op _ _ _ _ Hq) as Ho. split.
  - by apply (qu_ops _ _ _ _ Hq).
  - by rewrite <- (qu_rec _ _ _ _ Hq).
  - rewrite Ho. exact C3.
  - intros Hl. rewrite Ho. destruct C4 as [?|?]; [by eapply leftover_quiet|left; by eapply completed_quiet|by right].
Qed.

Lemma clear_quiet s s' : quiet x eq s s' -> clear s -> clear s'.
Proof. intros Hq Hc Hl. eapply completed_quiet, Hc, leftover_quiet; eassumption. Qed.

Lemma owner_alive_shrinks h h' p st : shrinks h h' -> owner_alive h p st = false -> owner_alive h' p st = false.
Proof.
  intros Hs. unfold owner_alive, proc_start_time. destruct (p =? 0); [done|]. destruct (h_procs h' !! p) as [pr|] eqn:E.
  - by rewrite (sh_procs _ _ Hs _ _ E).
  - intros _. apply bool_decide_eq_false. by intros [].
Qed.

Lemma dead_quiet Rr s s' : quiet x Rr s s' -> owner_dead s -> owner_dead s'.
Proof. intros Hq Hd i. rewrite (qu_op _ _ _ _ Hq). intros Hi. eapply owner_alive_shrinks; [apply Hq|by apply Hd]. Qed.

(** Only the intents change, and that of the create at most its counter. *)
Definition own_intents (h : Host) (o : gmap op_key OpIntent) : Prop :=
  others_ok x o /\ forall i, o !! (Create, x) = Some i -> intent_ok i /\ owner_alive h (owner_pid i) (owner_start i) = false.

Record files_only (s s' : St) : Prop := {
  fo_host : host s' = host s;
  fo_recs : recs s' = recs s;
  fo_ops : own_intents (host s) (ops s) -> own_intents (host s) (ops s')
}.

#[local] Instance files_only_preorder : PreOrder files_only.
Proof.
  split; [by split|]. intros a b c [A1 A2 A3] [B1 B2 B3]. split; [congruence..|]. rewrite A1 in B3. auto.
Qed.

Lemma files_only_ext {A} (m : M St A) : mrel files_only m -> mrel files_only (ext m).
Proof.
  intros Hm s. unfold ext. destruct (script s) as [|[] l]; [apply Hm|..]; try (by split).
  etransitivity; [|apply Hm]. by split.
Qed.

Lemma files_only_ignore {A} (m : M St A) : mrel files_only m -> mrel files_only (ignore m).
Proof. intros Hm. apply mrel_try_ok; [apply _|done|intros; apply mrel_ret; apply _..]. Qed.

Lemma files_only_finish : mrel files_only (finish_op Create x).
Proof.
  apply files_only_ext. intros s. split; simpl; [done..|]. intros [Ho _]. split.
  - intros k i. rewrite lookup_delete_Some. intros [_ Hi]. by apply Ho.
  - intros i. by rewrite lookup_delete_eq.
Qed.

Lemma files_only_update i n : intent_ok i -> forall s, owner_alive (host s) (owner_pid i) (owner_start i) = false ->
  files_only s (update_op (with_attempts n i) s).2.
Proof.
  intros Hi s Hd. assert (key_of (with_attempts n i) = (Create, x)) as Hk by apply Hi.
  unfold update_op, write_op, durably. rewrite Hk.
  assert (forall t, host t = host s -> files_only t (modify (fun s => set_ops (<[(Create, x) := with_attempts n i]> (ops s)) s) t).2) as Hm.
  { intros t Ht. split; simpl; [done..|]. intros [Ho _]. split.
    - intros k j. rewrite lookup_insert_Some. intros [[<- <-]|[_ Hj]]; [split; [done|]; intros; by destruct Hi as (_ & <- & _)|by apply Ho].
    - intros j. rewrite lookup_insert_eq. intros [= <-]. rewrite Ht. split; [exact Hi|exact Hd]. }
  assert (forall t, files_only t (ext (ret tt) t).2) as Hnop by (apply files_only_ext, mrel_ret; apply _).
  unfold bind at 1. pose proof (Hnop s) as H1. destruct (ext (ret tt) s) as [[u|e| |] s1]; try done. simpl in H1.
  unfold bind at 1. match goal with |- context [ext ?m s1] => assert (files_only s1 (ext m s1).2) as H2 end.
  { unfold ext. destruct (script s1) as [|[] l]; [apply Hm; apply H1|..]; try (by split).
    etransitivity; [|apply Hm; apply H1]. by split. }
  match goal with |- context [ext ?m s1] => destruct (ext m s1) as [[u2|e| |] s2] end; simpl in *; try (by etransitivity).
  etransitivity; [exact H1|]. etransitivity; [exact H2|]. apply Hnop.
Qed.

Lemma files_only_cover s s' : files_only s s' -> cover s -> owner_dead s -> clear s -> cover s' /\ owner_dead s' /\ clear s'.
Proof.
  intros [F1 F2 F3] [C1 C2 C3 C4] Hd Hc.
  assert (clear s') as Hc'.
  { intros Hl. assert (leftover x req s) as Hl2.
    { destruct Hl as [(r & Hr & He)|[[p Hp]|Hc']]; [left; exists r|right; left; exists p|right; right].
      - by rewrite <- F1.
      - by rewrite <- F1.
      - unfold creating in *. by rewrite <- F2. }
    destruct (Hc Hl2) as (vm & Hvm). exists vm. by rewrite F2. }
  destruct F3 as [O1 O2]; [split; [done|]; intros i Hi; split; [by apply C3|by apply Hd]|].
  split_and!; [split|..]; try done.
  - by rewrite F2.
  - intros i Hi. by apply O2.
  - intros Hl. left. by apply Hc'.
  - intros i Hi. rewrite F1. by apply O2.
Qed.

Definition good (s : St) : Prop := cover s /\ owner_dead s /\ FErr ∉ script s.

Lemma good_quiet s s' : quiet x eq s s' -> good s -> good s'.
Proof.
  intros Hq (Hc & Hd & He). split_and!; [by eapply cover_quiet|by eapply dead_quiet|by apply (qu_err _ _ _ _ Hq)].
Qed.

(** The intent of the create itself: rolled back, or still there when the
    process dies on the way. *)
Lemma replay_own i s o s' : good s -> ops s !! (Create, x) = Some i -> replay_op i s = (o, s') ->
  cover s' /\ owner_dead s' /\ (o <> Panic -> clear s').
Proof.
  intros (Hc & Hd & He) Hi E. destruct (cv_intent _ Hc _ Hi) as (Hk & Hv & Hpl). injection Hk as Hop Hid.
  unfold replay_op in E. unfold bind at 1, gets at 1 in E. rewrite (Hd i Hi) in E. unfold rollback in E. rewrite Hop, Hid in E.
  pose proof (quiet_rollback_create x stopr i (free_any x (vm_id i)) s) as Hq. unfold bind at 1 in E.
  pose proof (calm_rollback false i s) as [_ Hcalm]. unfold rollback in Hcalm. rewrite Hop in Hcalm.
  destruct (rollback_create i s) as [[b|e| |] s1] eqn:Er; try done; simpl in Hq.
  2:{ injection E as <- <-. split_and!; [split|..]; try done.
      - by apply (qu_ops _ _ _ _ Hq), Hc.
      - apply (qu_rec _ _ _ _ Hq), Hc.
      - rewrite (qu_op _ _ _ _ Hq). apply Hc.
      - intros _. right. rewrite (qu_op _ _ _ _ Hq). by eexists.
      - by eapply dead_quiet. }
  assert (cover s1 /\ owner_dead s1 /\ clear s1) as (Hc1 & Hd1 & Hcl1).
  { pose proof (rollback_clears x req i s b s1 Hx Hvg Hv Hpl He (cv_pid _ Hc) Er) as Hcl.
    split_and!; [split|by eapply dead_quiet|done].
    - by apply (qu_ops _ _ _ _ Hq), Hc.
    - apply (qu_rec _ _ _ _ Hq), Hc.
    - rewrite (qu_op _ _ _ _ Hq). apply Hc.
    - intros Hl. left. by apply Hcl. }
  assert (ops s1 !! (Create, x) = Some i) as Hi1 by (by rewrite (qu_op _ _ _ _ Hq)).
  assert (files_only s1 s') as Hf.
  { destruct b; [|destruct (MAX_ROLLBACK_ATTEMPTS <=? _)].
    - pose proof (files_only_ignore _ files_only_finish s1) as Hf. by rewrite E in Hf.
    - pose proof (files_only_ignore _ files_only_finish s1) as Hf. by rewrite E in Hf.
    - pose proof (files_only_update i (U.add 32 (attempts i) 1) (cv_intent _ Hc1 _ Hi1) s1 (Hd1 _ Hi1)) as Hf.
      unfold ignore, try_ok in E. destruct (update_op _ s1) as [[u|e| |] s2]; simpl in *; by injection E as _ <-. }
  destruct (files_only_cover _ _ Hf Hc1 Hd1 Hcl1) as (? & ? & ?). by split_and!.
Qed.

(** The loop of [replay_pending_ops]. *)
Lemma replay_loop l s o s' :
  good s -> NoDup (map key_of l) ->
  (forall i, i ∈ l -> key_of i <> (Create, x) -> vm_id i <> x /\ ForkChild x ∉ resources i) ->
  (forall i, i ∈ l -> key_of i = (Create, x) -> ops s !! (Create, x) = Some i) ->
  for_each l replay_op s = (o, s') ->
  good s' /\ (o <> Panic -> clear s \/ (exists i, i ∈ l /\ key_of i = (Create, x)) -> clear s').
Proof.
  revert s. induction l as [|i l IH]; intros s Hg Hnd Hoth Hown E.
  { injection E as <- <-. split; [done|]. intros _ [?|(i & Hi & _)]; [done|by apply not_elem_of_nil in Hi]. }
  cbn [for_each] in E. cbn [map] in Hnd. apply NoDup_cons in Hnd as [Hni Hnd].
  pose proof (calm_replay_op false i s) as [Hsc Hcalm].
  assert (FErr ∉ script (replay_op i s).2) as He1 by (intros Hf; apply (proj2 (proj2 Hg)); by apply Hsc).
  unfold bind at 1 in E. destruct (decide (key_of i = (Create, x))) as [Hk|Hk].
  - assert (forall j, j ∈ l -> key_of j <> (Create, x)) as Hnx.
    { intros j Hj Ej. apply Hni. rewrite Hk, <- Ej. by apply list_elem_of_fmap_2. }
    destruct (replay_op i s) as [o1 s1] eqn:E1.
    destruct (replay_own i s o1 s1 Hg (Hown i ltac:(set_solver) Hk) E1) as (Hc1 & Hd1 & Hcl1).
    simpl in He1, Hcalm. destruct o1 as [[]|e| |]; try done.
    + destruct (IH s1) as [Hg' Hcl']; [done|done| | |exact E|].
      * intros j Hj. apply Hoth. set_solver.
      * intros j Hj Ej. by destruct (Hnx j Hj).
      * split; [done|]. intros Ho _. apply Hcl'; [done|]. left. by apply Hcl1.
    + injection E as <- <-. by split.
  - destruct (Hoth i ltac:(set_solver) Hk) as [Hv Hf]. pose proof (quiet_replay_op x eq i Hk Hv Hf s) as Hq.
    destruct (replay_op i s) as [o1 s1] eqn:E1. simpl in *. pose proof (good_quiet _ _ Hq Hg) as Hg1.
    destruct o1 as [[]|e| |]; try done.
    + destruct (IH s1) as [Hg' Hcl']; [done|done| | |exact E|].
      * intros j Hj. apply Hoth. set_solver.
      * intros j Hj Ej. rewrite (qu_op _ _ _ _ Hq). apply Hown; [set_solver|done].
      * split; [done|]. intros Ho Hpre. apply Hcl'; [done|]. destruct Hpre as [Hc|(j & Hj & Ej)]; [left; by eapply clear_quiet|right].
        exists j. split; [|done]. apply elem_of_cons in Hj as [-> |Hj]; done.
    + injection E as <- <-. by split.
Qed.

(** One recovery: the invariant holds wherever it stops, and nothing is left
    behind when it runs to its end. *)
Lemma recover_good s o s' : good s -> recover s = (o, s') -> good s' /\ (o <> Panic -> clear s').
Proof.
  intros Hg E. unfold recover in E. pose proof (quiet_replay_deletes x eq s) as Hq.
  assert (calm false replay_pending_deletes) as Hcd by (unfold replay_pending_deletes; calm_tac; apply calm_replay_delete).
  specialize (Hcd s) as [_ Hcd]. unfold bind at 1 in E. destruct (replay_pending_deletes s) as [o1 s1]. simpl in *.
  pose proof (good_quiet _ _ Hq Hg) as Hg1. destruct o1 as [[]|e| |]; try done; [|by injection E as <- <-].
  unfold replay_pending_ops in E. assert (mrel (quiet x eq) pending_ops) as Hqp.
  { unfold pending_ops. apply mrel_try_ok; [apply _|apply quiet_ext; [apply _|]; apply mrel_gets; apply _| |apply mrel_ret; apply _].
    intros l. apply quiet_readable; apply _. }
  specialize (Hqp s1). pose proof (calm_pending_ops false s1) as [_ Hcp]. unfold bind in E.
  destruct (pending_ops s1) as [o2 s2] eqn:E2. simpl in *. pose proof (good_quiet _ _ Hqp Hg1) as Hg2.
  destruct o2 as [l|e| |]; try done; [|by injection E as <- <-].
  pose proof (pending_all s1 l s2 (proj2 (proj2 Hg1)) E2) as ->.
  destruct Hg1 as ([Ho1 _ Hi1 Hc1] & _). assert (forall i, i ∈ map snd (map_to_list (ops s1)) -> ops s1 !! key_of i = Some i) as Hkey.
  { intros i Hi. apply list_elem_of_fmap in Hi as ([k j] & -> & Hk). simpl. apply elem_of_map_to_list in Hk.
    by destruct (Ho1 _ _ Hk) as [-> _]. }
  destruct (replay_loop (map snd (map_to_list (ops s1))) s2 o s') as [Hg' Hcl]; [done| | | |exact E|].
  - rewrite map_map, (map_ext_in _ fst); [apply NoDup_fst_map_to_list|]. intros [k j] Hj. apply list_elem_of_In, elem_of_map_to_list in Hj.
    by apply (Ho1 _ _ Hj).
  - intros i Hi Hk. by apply (Ho1 _ _ (Hkey i Hi)).
  - intros i Hi Hk. rewrite (qu_op _ _ _ _ Hqp), <- Hk. by apply Hkey.
  - split; [done|]. intros Ho. apply Hcl; [done|]. destruct (ops s1 !! (Create, x)) as [i|] eqn:Ei.
    + right. exists i. split; [|by apply (Hi1 i)]. apply list_elem_of_fmap. exists ((Create, x), i). split; [done|].
      by apply elem_of_map_to_list.
    + left. eapply clear_quiet; [exact Hqp|]. intros Hl. destruct (Hc1 Hl) as [?|[? ?]]; [done|done].
Qed.

(** ** A create keeps the invariant *)

Definition armed (s : St) : Prop :=
  others_ok x (ops s) /\ pid_ok (recs s !! x) /\ exists i, ops s !! (Create, x) = Some i /\ intent_ok i.

Lemma armed_cover s : armed s -> cover s.
Proof.
  intros (Ho & Hp & i & Hi & Hok). split; [done..| |].
  - intros j Hj. by simplify_eq.
  - intros _. right. by eexists.
Qed.

Definition recorded (s : St) : Prop := is_Some (recs s !! x).
Definition stays_armed (s s' : St) : Prop := armed s -> armed s' /\ (recorded s -> recorded s').
#[local] Instance stays_armed_preorder : PreOrder stays_armed.
Proof. unfold stays_armed. split; [intros s|intros s1 s2 s3]; naive_solver. Qed.

Lemma stays_quiet s s' : quiet x eq s s' -> stays_armed s s'.
Proof.
  intros Hq (Ho & Hp & Hi). unfold recorded. rewrite <- (qu_rec _ _ _ _ Hq).
  split; [|done]. split_and!; [by apply (qu_ops _ _ _ _ Hq)|by rewrite <- (qu_rec _ _ _ _ Hq)|by rewrite (qu_op _ _ _ _ Hq)].
Qed.

Lemma stays_ext {A} (m : M St A) : mrel stays_armed m -> mrel stays_armed (ext m).
Proof.
  intros Hm s. unfold ext. destruct (script s) as [|[] l]; [apply Hm|apply (Hm (set_script l s))|by intros Ha..].
Qed.
Lemma stays_ignore {A} (m : M St A) : mrel stays_armed m -> mrel stays_armed (ignore m).
Proof. intros Hm. apply mrel_try_ok; [apply _|done|intros; apply mrel_ret; apply _..]. Qed.
Lemma stays_host f : mrel stays_armed (on_host f).
Proof. by intros s Ha. Qed.

Lemma stays_update vm : pid_ok (Some vm) -> mrel stays_armed (store_update x vm).
Proof.
  intros Hp. apply stays_ext. intros s Ha. unfold recorded. simpl. unfold replace_rec. destruct (recs s !! x) eqn:E; [|by destruct s].
  destruct Ha as (Ho & _ & Hi). split; [split; [done|split; [simpl|done]]|]; by rewrite lookup_insert_eq.
Qed.

Lemma insert_recorded vm s : pid_ok (Some vm) -> armed s ->
  match store_insert x vm s with (Ok _, s') => armed s' /\ recorded s' | (_, s') => armed s' end.
Proof.
  intros Hp (Ho & Hr & Hi). unfold store_insert, ext, recorded. destruct (script s) as [|[] l]; simpl; rewrite ?lookup_insert_eq.
  1,2: split; [split; [done|split; [simpl; by rewrite lookup_insert_eq|done]]|done].
  all: by split_and!.
Qed.

Lemma stays_write i : intent_ok i -> mrel stays_armed (write_op i).
Proof.
  intros Hi. unfold write_op, durably. apply mrel_bind; [apply _|apply stays_ext, mrel_ret; apply _|intros _].
  apply mrel_bind; [apply _|apply stays_ext|intros _; apply stays_ext, mrel_ret; apply _].
  intros s (Ho & Hp & _). destruct Hi as (Hk & Hi). split; [|done]. split_and!; [|done|]; simpl; rewrite Hk.
  - intros k j. rewrite lookup_insert_Some. intros [[<- <-]|[_ Hj]]; [by split|by apply Ho].
  - rewrite lookup_insert_eq. by exists i.
Qed.

(** Reading the intent of an armed create gives it. *)
Lemma read_own s : armed s -> match read_op Create x s with
  | (Ok i, s') => intent_ok i /\ armed s' /\ recs s' = recs s | (_, s') => armed s' /\ recs s' = recs s end.
Proof.
  intros Ha. unfold read_op, ext. destruct (script s) as [|[] l]; [| |by split..].
  all: unfold bind, gets; destruct Ha as (Ho & Hp & i & Hi & Hok); simpl; rewrite Hi; simpl; split; [done|]; split; [|done]; split_and!; [done|done|by exists i].
Qed.

Lemma stays_record r : mrel stays_armed (guard_record Create x r).
Proof.
  intros s Ha. unfold guard_record, bind. pose proof (read_own s Ha) as Hr. unfold recorded.
  destruct (read_op Create x s) as [[i|e| |] s1]; try (simpl; destruct Hr as [Ha1 ->]; by split).
  destruct Hr as (Hi & Ha1 & <-). case_bool_decide; [by split|]. apply (stays_write (with_resources (resources i ++ [r]) i)); [|done].
  destruct Hi as (Hk & Hv & Hpl). split_and!; [done|done|]. simpl. set_solver.
Qed.

Lemma stays_drop : mrel stays_armed (guard_drop Create x).
Proof.
  intros s Ha. unfold guard_drop, try_ok. pose proof (read_own s Ha) as Hr. unfold recorded.
  destruct (read_op Create x s) as [[i|e| |] s1]; try (simpl; destruct Hr as [Ha1 ->]; by split).
  destruct Hr as (Hi & Ha1 & <-). by apply (stays_ignore _ (stays_write (with_owner 0 None i) Hi)).
Qed.

Lemma stays_body steps vm : mrel stays_armed (run_body x steps vm).
Proof.
  revert vm. induction steps as [|[f|f|r] steps IH]; intros vm; cbn [run_body]; [apply mrel_ret; apply _|..].
  - apply mrel_try_ok; [apply _|apply stays_ext, stays_host|intros _; apply IH|apply mrel_ret; apply _].
  - apply IH.
  - apply mrel_bind; [apply _|apply stays_ignore, stays_record|intros _; apply IH].
Qed.

Lemma stays_undo vm : mrel stays_armed (undo_body x vm).
Proof.
  intros s. apply stays_quiet. revert s. unfold undo_body.
  repeat (apply mrel_bind; [apply _| |intros _]); (match goal with |- mrel _ (match ?e with _ => _ end) => destruct e end);
    try (apply mrel_ret; apply _); (apply quiet_ignore; [apply _|]).
  - apply quiet_network; apply _.
  - apply quiet_lvm; apply _.
  - apply quiet_terminate; apply _.
Qed.

(** The end of a create: the record is final before the intent goes. *)
Lemma create_end st vm {A} (r : A) s : st <> Creating -> armed s -> recorded s ->
  match (do! store_update x (set_status st vm) in do! guard_finish Create x in ret r) s with
  | (Err _, s') => armed s'
  | (_, s') => cover s'
  end.
Proof.
  intros Hst Ha [v Hv]. assert (pid_ok (Some (set_status st vm))) as Hp by (intros w [= <-] Hc; done).
  pose proof (proj1 (stays_update _ Hp s Ha)) as Ha1. unfold bind. destruct (store_update x (set_status st vm) s) as [[u|e| |] s1] eqn:E; try (by apply armed_cover).
  2: exact Ha1.
  assert (recs s1 !! x = Some (set_status st vm)) as Hr.
  { unfold store_update, ext in E. destruct (script s) as [|[] l]; try done; injection E as <- <-; simpl; unfold replace_rec; rewrite Hv; by rewrite lookup_insert_eq. }
  assert (completed x s1) as Hcm by (by exists (set_status st vm)). simpl in Ha1.
  unfold guard_finish, ignore, try_ok, finish_op, ext. destruct (script s1) as [|[] l]; simpl.
  3,4: apply armed_cover; exact Ha1.
  all: destruct Ha1 as (Ho & Hp1 & _); split; simpl; try done;
    [intros k i; rewrite lookup_delete_Some; intros [_ Hi]; by apply Ho|intros i; by rewrite lookup_delete_eq|intros _; by left].
Qed.

(** Before the create: nothing of [x] is anywhere. *)
Record unborn (s : St) : Prop := {
  ub_others : others_ok x (ops s);
  ub_rec : recs s !! x = None;
  ub_left : ~ leftover x req s;
  ub_intent : forall i, ops s !! (Create, x) = Some i -> intent_ok i
}.

Lemma unborn_cover s : unborn s -> cover s.
Proof. intros [U1 U2 U3 U4]. split; [done|by rewrite U2|done|]. intros Hl. by destruct (U3 Hl). Qed.

Lemma unborn_armed s i : unborn s -> intent_ok i -> unborn (set_ops (<[(Create, x) := i]> (ops s)) s) /\ armed (set_ops (<[(Create, x) := i]> (ops s)) s).
Proof.
  intros [U1 U2 U3 U4] Hi. assert (others_ok x (<[(Create, x) := i]> (ops s))) as Ho.
  { intros k j. rewrite lookup_insert_Some. intros [[<- <-]|[_ Hj]]; [split; [apply Hi|done]|by apply U1]. }
  split; [split; try done|split_and!; try done].
  - intros j. simpl. rewrite lookup_insert_eq. by intros [= <-].
  - simpl. by rewrite U2.
  - simpl. rewrite lookup_insert_eq. by exists i.
Qed.

Lemma begin_armed s : unborn s ->
  match guard_begin me Create x x (planned_create_resources x req) s with (Ok _, s') => armed s' | (_, s') => cover s' end.
Proof.
  intros Hu. unfold guard_begin. unfold bind at 1, gets at 1. set (i := MkOp _ _ _ _ _ _ _).
  assert (intent_ok i) as Hi by (split_and!; done). unfold write_op, durably.
  assert (forall t l, unborn t -> unborn (set_script l t)) as Hs by (by intros t l [U1 U2 U3 U4]).
  assert (forall t, unborn t -> match (do! ext (modify (fun s => set_ops (<[key_of i := i]> (ops s)) s)) in ext (ret tt)) t with
    | (Ok _, s') => armed s' | (_, s') => cover s' end) as H2.
  { intros t Ht. assert (forall l, match ext (ret tt) (set_ops (<[(Create, x) := i]> (ops t)) (set_script l t)) with
      | (Ok _, s') => armed s' | (_, s') => cover s' end) as H3.
    { intros l. destruct (unborn_armed _ i (Hs t l Ht) Hi) as [Hu1 Ha1]. unfold ext. simpl. destruct l as [|[] l']; [exact Ha1|exact Ha1|..];
        apply unborn_cover; by apply (Hs _ l') in Hu1. }
    unfold bind, ext at 1. destruct (script t) as [|[] l] eqn:E; [|apply (H3 l)|apply unborn_cover; by apply Hs..].
    specialize (H3 []). destruct t. simpl in *. by subst. }
  unfold bind at 1, ext at 1. destruct (script s) as [|[] l]; [by apply H2|by apply H2, Hs|apply unborn_cover; by apply Hs..].
Qed.

Lemma bind_armed {A B} (m : M St A) (f : A -> M St B) s : mrel stays_armed m -> armed s -> recorded s ->
  (forall a s', armed s' -> recorded s' -> match f a s' with (Err _, s') => armed s' | (_, s') => cover s' end) ->
  match bind m f s with (Err _, s') => armed s' | (_, s') => cover s' end.
Proof.
  intros Hm Ha Hr Hf. unfold bind. destruct (Hm s Ha) as [Ha' Hr'].
  destruct (m s) as [[a|e| |] s']; [by apply Hf; [|apply Hr']|done|by apply armed_cover..].
Qed.

(** Whatever fails and wherever it dies, a create leaves nothing its intent or
    its record does not name. *)
Lemma create_cover d refused steps s : unborn s -> cover (create x req d refused steps s).2.
Proof.
  intros Hu. unfold create. unfold bind at 1. pose proof (begin_armed s Hu) as Hb.
  destruct (guard_begin me Create x x (planned_create_resources x req) s) as [[u|e| |] s1]; try exact Hb. clear Hu s u.
  set (inner := do! ext _ in _).
  assert (match inner s1 with (Err _, s') => armed s' | (_, s') => cover s' end) as Hin.
  { unfold inner, bind at 1. pose proof (stays_ext _ (stays_host (fun h => set_paths (<[workspace_of x := MkPMeta true 0]> (h_paths h)) h)) s1 Hb) as [Ha1 _].
    destruct (ext (on_host _) s1) as [[u|e| |] t]; [|exact Ha1|by apply armed_cover..]. simpl in Ha1. clear Hb.
    unfold bind at 1. assert (pid_ok (Some (placeholder x req d))) as Hp by (by intros v [= <-]).
    pose proof (insert_recorded _ t Hp Ha1) as Hi. destruct (store_insert x _ t) as [[u'|e| |] t1]; [|exact Hi|by apply armed_cover..]. destruct Hi as [Ht Hr].
    apply bind_armed; [destruct refused; [apply mrel_throw|apply mrel_ret]; apply _|done..|intros _ t2 Ht2 Hr2].
    apply bind_armed; [apply stays_body|done..|intros [vm ok] t3 Ht3 Hr3].
    apply bind_armed; [destruct ok; [apply mrel_ret; apply _|apply stays_undo]|done..|intros _ t4 Ht4 Hr4].
    apply create_end; [by destruct ok|done..]. }
  unfold bind at 1, on_err. destruct (inner s1) as [[[vm ok]|e| |] s2]; try exact Hin; [by destruct ok|].
  unfold bind at 1. pose proof (proj1 (stays_drop s2 Hin)) as Hd. destruct (guard_drop Create x s2) as [[u|e'| |] s3]; simpl in *; by apply armed_cover.
Qed.
End Cover.
End Recovery.

(** ** Crash safety of a create *)

(** The machine or the daemon comes back: other processes, the same disk. *)
Definition restart (ps : gmap N Proc) (s : St) : St := set_host (set_procs ps (host s)) s.

(** Recoveries that die on the way, by their scripts. *)
Definition recoveries `{!UuidFmt} (state_dir : path) (me : N) (ls : list (list fault)) (s : St) : St :=
  fold_left (fun s l => (recover state_dir me (set_script l s)).2) ls s.

Section Crash.
Context `{!UuidFmt} (state_dir : path) (me x : N) (req : CreateVmRequest).
Context (Hx : in_u 128 x) (Hvg : forall vg, image_vg (q_image req) = Some vg -> vg <> []).

Lemma recoveries_good ls s : cover state_dir me x req s -> owner_dead x s -> Forall (fun l => FErr ∉ l) ls ->
  cover state_dir me x req (recoveries state_dir me ls s) /\ owner_dead x (recoveries state_dir me ls s).
Proof.
  revert s. induction ls as [|l ls IH]; intros s Hc Hd Hls; [done|]. apply Forall_cons in Hls as [Hl Hls]. cbn [recoveries fold_left].
  assert (good state_dir me x req (set_script l s)) as Hg by (split_and!; [by destruct Hc; split|exact Hd|done]).
  destruct (recover state_dir me (set_script l s)) as [o s'] eqn:E.
  destruct (recover_good _ _ _ _ Hx Hvg _ _ _ Hg E) as [(Hc' & Hd' & _) _]. by apply IH.
Qed.
End Crash.


(** ** A concrete [uuid] format, for the examples *)

Definition from_hex (ds : list N) : N := fold_left (fun acc c => acc * 16 + default 0 (hex_digit c)) ds 0.

Definition hyphenate (s : rstr) : rstr :=
  take 8 s ++ [45] ++ slice 8 4 s ++ [45] ++ slice 12 4 s ++ [45] ++ slice 16 4 s ++ [45] ++ drop 20 s.

Definition unhyphenate (s : rstr) : option N :=
  let ds := List.filter (fun c => negb (c =? 45)) s in
  if (length ds =? 32)%nat && forallb (fun c => bool_decide (is_Some (hex_digit c))) ds then Some (from_hex ds) else None.

Lemma hex_string_digits n v : Forall (fun c => exists d, d < 16 /\ c = hex_lower d) (hex_string n v).
Proof.
  revert v. induction n as [|n IH]; intros v; [constructor|]. apply Forall_app. split; [apply IH|].
  constructor; [|constructor]. exists (v mod 16). split; [apply N.mod_lt; lia|done].
Qed.

Lemma length_hex_string n v : length (hex_string n v) = n.
Proof. revert v. induction n as [|n IH]; intros v; [done|]. cbn [hex_string]. rewrite length_app, IH. simpl. lia. Qed.

Lemma from_hex_string n v : v < 16 ^ N.of_nat n -> from_hex (hex_string n v) = v.
Proof.
  revert v. induction n as [|n IH]; intros v Hv; [change (16 ^ N.of_nat 0) with 1 in Hv; unfold from_hex; simpl; lia|]. rewrite Nat2N.inj_succ, N.pow_succ_r' in Hv.
  cbn [hex_string]. unfold from_hex in *. rewrite fold_left_app, IH by (by apply N.Div0.div_lt_upper_bound). cbn [fold_left].
  rewrite hex_digit_lower by (by apply N.mod_lt). change (default 0 (Some (v mod 16))) with (v mod 16). pose proof (N.div_mod' v 16) as Hdm. rewrite N.mul_comm. by rewrite <- Hdm.
Qed.

Lemma filter_hyphens s : Forall (fun c => c <> 45) s -> length s = 32%nat ->
  List.filter (fun c => negb (c =? 45)) (hyphenate s) = s.
Proof.
  intros Hs Hl. assert (forall t, Forall (fun c => c <> 45) t -> List.filter (fun c => negb (c =? 45)) t = t) as Hid.
  { induction t as [|c t IH]; [done|]. intros Ht. apply Forall_cons in Ht as [Hc Ht]. simpl. apply N.eqb_neq in Hc. rewrite Hc. simpl. by rewrite IH. }
  unfold hyphenate, slice. rewrite !List.filter_app. cbn [List.filter]. change (45 =? 45) with true. cbn [negb].
  rewrite !Hid by (repeat first [apply Forall_take|apply Forall_drop]; done). cbn [app].
  replace (drop 20 s) with (drop 4 (drop 16 s)) by (by rewrite drop_drop). rewrite take_drop.
  replace (drop 16 s) with (drop 4 (drop 12 s)) by (by rewrite drop_drop). rewrite take_drop.
  replace (drop 12 s) with (drop 4 (drop 8 s)) by (by rewrite drop_drop). by rewrite take_drop, take_drop.
Qed.

#[local] Instance uuid_hex : UuidFmt.
Proof.
  refine {| uuid_simple := hex_string 32; uuid_string id := hyphenate (hex_string 32 id); uuid_parse := unhyphenate |}.
  - intros id. apply length_hex_string.
  - intros id Hid. pose proof (hex_string_digits 32 id) as Hd. unfold unhyphenate. rewrite filter_hyphens.
    + rewrite length_hex_string. cbn [Nat.eqb andb]. rewrite (proj2 (forallb_forall _ _)).
      * f_equal. by apply from_hex_string.
      * intros c Hc. rewrite Forall_forall in Hd. destruct (Hd c) as (k & Hk & ->); [by apply list_elem_of_In|].
        rewrite hex_digit_lower by done. by apply bool_decide_eq_true.
    + eapply Forall_impl; [exact Hd|]. intros c (k & Hk & ->). unfold hex_lower. case_match; lia.
    + apply length_hex_string.
Defined.

(** ** Examples *)

Definition empty_host : Host := MkHost ∅ ∅ ∅ ∅ ∅ ∅.
Definition empty_state : St := MkSt empty_host ∅ ∅ ∅ [].
Definition var_fluxvm : path := [RootDir; Normal (bstr "var")].
Definition thin_req : CreateVmRequest :=
  MkReq (NetTap None true [] None) SLvmThin [RootDir; Normal (bstr "dev"); Normal (bstr "vg0"); Normal (bstr "base")].
Definition thin_lv : path := [RootDir; Normal (bstr "dev"); Normal (bstr "vg0"); Normal (bstr "eph-00000000")].

(** A create that dies when the volume and the namespace are made and the VMM
    is about to start. *)
Definition thin_steps : list body_step :=
  [BHost (fun h => set_lvs (h_lvs h ∪ {[thin_lv]}) h); BHost (fun h => set_netns (h_netns h ∪ {[bstr "eph-00000000"]}) h);
   BHost (fun h => h)].
Definition thin_crash : St := set_script (replicate 7 FOk ++ [FCrash]) empty_state.
Definition thin_dead : St := restart ∅ (create var_fluxvm 100 5 thin_req [] false thin_steps thin_crash).2.


(** A stopped VM on a clone, with an export and a jail of its own. *)
Definition ceph_clone : rstr := bstr "pool/eph-00000000".
Definition ceph_vm : VmRecord :=
  MkVm Stopped None (workspace_of var_fluxvm 5) (bstr "rbd:pool/eph-00000000:id=admin") None None None (Some thin_lv) None [] None
    SCephRbd NetNone.
Definition ceph_state : St :=
  MkSt (MkHost {[workspace_of var_fluxvm 5 := MkPMeta true 0]} ∅ ∅ {[thin_lv]} {[ceph_clone]} ∅) {[5 := ceph_vm]} ∅ ∅ [].

(** A delete that dies once the record is gone: the clone is in no intent, and no
    recovery removes it. *)
Lemma delete_crash_leaks_clone :
  let s := (delete_vm 5 (set_script (replicate 5 FOk ++ [FCrash]) ceph_state)).2 in
  let r := (recover var_fluxvm 100 (set_script [] s)).2 in
  recs r !! 5 = None /\ map_to_list (dels r) = [] /\ map_to_list (ops r) = [] /\ thin_lv ∉ h_lvs (host r) /\ ceph_clone ∈ h_ceph (host r).
Proof. cbv zeta. split_and!; by_eval. Qed.

(** A recovery that runs between the two steps of a live delete takes its intent
    for a stale one: if the delete then dies, nothing names the volume. *)
Lemma recovery_drops_live_delete :
  let s1 := (begin_delete (MkDel 5 (workspace_of var_fluxvm 5) None (Some thin_lv)) ceph_state).2 in
  let s2 := (recover var_fluxvm 100 s1).2 in
  let s3 := (store_remove 5 s2).2 in
  let r := (recover var_fluxvm 100 s3).2 in
  recs r !! 5 = None /\ map_to_list (dels r) = [] /\ thin_lv ∈ h_lvs (host r) /\
  is_Some (h_paths (host r) !! workspace_of var_fluxvm 5).
Proof. cbv zeta. split_and!; by_eval. Qed.

(** A delete replayed while the volume cannot be removed: the intent goes all
    the same. *)
Lemma replayed_delete_forgets_volume :
  let s := MkSt (host ceph_state) ∅ ∅ {[5 := MkDel 5 (workspace_of var_fluxvm 5) None (Some thin_lv)]} [FOk; FOk; FOk; FErr] in
  let r := (recover var_fluxvm 100 s).2 in
  map_to_list (dels r) = [] /\ thin_lv ∈ h_lvs (host r).
Proof. cbv zeta. split_and!; by_eval. Qed.

(** Removing a clone that is not there fails: an interrupted create that had not
    made its clone yet is retried until it is given up. *)
Definition ceph_req : CreateVmRequest := MkReq NetNone SCephRbd [Normal (bstr "pool"); Normal (bstr "base")].
Definition ceph_begun : St :=
  (create var_fluxvm 100 5 ceph_req [] false [] (set_script (replicate 3 FOk ++ [FCrash]) empty_state)).2.

Lemma clone_rollback_not_idempotent :
  map (fun n => attempts <$> ops (recoveries var_fluxvm 200 (replicate n []) ceph_begun) !! (Create, 5)) [0; 1; 2; 3; 4; 5]%nat
  = [Some 0; Some 1; Some 2; Some 3; Some 4; None].
Proof. vm_compute. reflexivity. Qed.

(** A create that completed but died before it cleared its intent; then a
    recovery in which one read of the store fails.  The VM is taken for an
    unfinished one and deleted. *)
Definition done_state : St :=
  (create var_fluxvm 100 5 (MkReq NetNone SDefault [Normal (bstr "img")]) [] false [] (set_script (replicate 6 FOk ++ [FCrash]) empty_state)).2.

Lemma recovery_unreadable_store_deletes_vm :
  let r1 := (recover var_fluxvm 200 (set_script [] done_state)).2 in
  let r2 := (recover var_fluxvm 200 (set_script [FOk; FOk; FOk; FErr] done_state)).2 in
  completed 5 done_state /\ is_Some (ops done_state !! (Create, 5)) /\
  completed 5 r1 /\ is_Some (h_paths (host r1) !! workspace_of var_fluxvm 5) /\
  recs r2 !! 5 = None /\ h_paths (host r2) !! workspace_of var_fluxvm 5 = None.
Proof. cbv zeta. split_and!; first [by_eval|eexists; split; [vm_compute; reflexivity|done]]. Qed.

(** The jail of a Firecracker VM lies outside the state directory and is in the
    record kept in memory only until the last update: a create that dies in between
    leaves it, and no recovery names it. *)
Definition jail_root : path :=
  [RootDir; Normal (bstr "srv"); Normal (bstr "jailer"); Normal (bstr "firecracker"); Normal (bstr "5"); Normal (bstr "root")].
Definition set_jail (vm : VmRecord) : VmRecord :=
  MkVm (status vm) (pid vm) (workspace vm) (disk vm) (tap_name vm) (netns vm) (Some jail_root) (lvm_lv vm) (nbd_pid vm)
    (virtiofsd_pids vm) (swtpm_pid vm) (storage vm) (network vm).
Definition jail_steps : list body_step :=
  [BHost (fun h => set_paths (<[jail_root := MkPMeta true 0]> (h_paths h)) h); BNote set_jail].

Lemma create_crash_leaks_jail :
  let req := MkReq NetNone SDefault [Normal (bstr "img")] in
  let s := restart ∅ (create var_fluxvm 100 5 req [] false jail_steps (set_script (replicate 6 FOk ++ [FCrash]) empty_state)).2 in
  let r := (recover var_fluxvm 200 (set_script [] s)).2 in
  is_Some (ops s !! (Create, 5)) /\ recs r !! 5 = None /\ map_to_list (ops r) = [] /\ map_to_list (dels r) = [] /\
  h_paths (host r) !! workspace_of var_fluxvm 5 = None /\ is_Some (h_paths (host r) !! jail_root).
Proof. cbv zeta. split_and!; by_eval. Qed.
