(* ===== verification/Sweep.v ===== *)
(** * The sweep of orphans

    [sweep_orphans] of [fluxvm-scheduler/src/recovery.rs] and its helpers:
    workspaces, network namespaces and taps that no record and no intent claims
    are removed, a workspace once it has been quiet for an hour, a name once it
    has been unclaimed in every sweep for two minutes.  Times are in seconds.
    The purge of idempotency records that ends a sweep is [Idempotency]'s. *)

From stdpp Require Import prelude list gmap strings.
From Stdlib Require Import NArith Lia.
From S2P Require Import Prelude RustStr Journal Recovery.

Definition ORPHAN_DIR_GRACE : N := 3600.
Definition ORPHAN_NET_GRACE : N := 120.

(** ** Names that stay unclaimed *)

(** [FirstSeen]: when each unclaimed name was first seen. *)
Abbreviation FirstSeen := (gmap rstr N).

Definition ripe_step (now grace : N) (acc : list rstr * FirstSeen) (name : rstr) : list rstr * FirstSeen :=
  let first := default now (acc.2 !! name) in
  (if grace <=? now - first then acc.1 ++ [name] else acc.1, <[name := first]> acc.2).

Definition ripe (current : list rstr) (now grace : N) (seen : FirstSeen) : list rstr * FirstSeen :=
  fold_left (ripe_step now grace) current ([], filter (fun kv => kv.1 ∈ current) seen).

(** [ripe_names]: one [FirstSeen] per kind, kept by the process. *)
Definition ripe_names (now : N) (kind : rstr) (current : list rstr) (all : gmap rstr FirstSeen) : list rstr * gmap rstr FirstSeen :=
  let r := ripe current now ORPHAN_NET_GRACE (default ∅ (all !! kind)) in (r.1, <[kind := r.2]> all).

Definition netns_short (name : rstr) : option rstr := strip_prefix (bstr "eph-") name.
Definition tap_short (name : rstr) : option rstr := strip_prefix (bstr "eph") name.

Section Sweep.
Context `{!UuidFmt} (state_dir : path) (me : N).

Definition unclaimed (short_of : rstr -> option rstr) (known : gset rstr) (n : rstr) : bool :=
  match short_of n with Some s => is_short_hex s && negb (bool_decide (s ∈ known)) | None => false end.

(** [unclaimed_names]; a directory that cannot be read has no names. *)
Definition unclaimed_names (dir : St -> list rstr) (short_of : rstr -> option rstr) (known : gset rstr) : M St (list rstr) :=
  try_ok (ext (gets dir)) (fun l => ret (List.filter (unclaimed short_of known) l)) (ret []).

(** One entry of [instances]: [None] when it is not an orphan. *)
Definition orphan_entry (claimed : gset N) (now grace : N) (e : path * PMeta) : M St (option path) :=
  match workspace_vm_id state_dir e.1 with
  | None => ret None
  | Some id =>
      if bool_decide (id ∈ claimed) then ret None
      else try_ok (ext (ret tt))
             (fun _ => ret (if m_dir e.2 && (grace <=? now - m_modified e.2) then Some e.1 else None))
             (ret None)
  end.

Fixpoint orphan_entries (claimed : gset N) (now grace : N) (l : list (path * PMeta)) : M St (list path) :=
  match l with
  | [] => ret []
  | e :: l =>
      let! o := orphan_entry claimed now grace e in
      let! r := orphan_entries claimed now grace l in
      ret (match o with Some p => p :: r | None => r end)
  end.

Definition dir_entries (dir : path) (s : St) : list (path * PMeta) :=
  List.filter (fun e => bool_decide (parent e.1 = Some dir)) (map_to_list (h_paths (host s))).

Definition orphan_workspaces (claimed : gset N) (now grace : N) : M St (list path) :=
  try_ok (ext (gets (dir_entries (instances state_dir)))) (orphan_entries claimed now grace) (ret []).

(** [id_from_short] *)
Definition id_from_short (short : rstr) : option N := uuid_parse (short ++ bstr "-0000-4000-8000-000000000000").

(** [Store::list], the ids. *)
Definition store_list : M St (list N) := try_ok (ext (gets (fun s => map fst (map_to_list (recs s))))) ret (ret []).

Definition fork_children (rs : list Resource) : list N := omap (fun r => match r with ForkChild c => Some c | _ => None end) rs.

Definition op_claims (i : OpIntent) : list N := vm_id i :: op_id i :: fork_children (resources i).

Definition claimed_ids : M St (gset N) :=
  let! records := store_list in
  let! os := pending_ops in
  let! ds := pending_deletes in
  ret (list_to_set (records ++ concat (map op_claims os) ++ map d_vm_id ds)).

Definition sweep_workspace (ws : path) : M St unit :=
  match workspace_vm_id state_dir ws with
  | None => ret tt
  | Some _ =>
      let! h := gets host in
      if bool_decide (vmm_pids_referencing me h [display ws] = []) then ignore (remove_tree ws) else ret tt
  end.

Definition sweep_netns (name : rstr) : M St unit :=
  match netns_short name ≫= id_from_short with
  | None => ret tt
  | Some _ => ignore (netns_cleanup name)
  end.

(** The two clocks, [FLUXVM_ORPHAN_NET_SWEEP], and whether there is a directory of
    network namespaces. *)
Record SweepEnv := MkEnv { wall : N; mono : N; host_sweep : bool; netns_dir : bool }.

Definition is_tuntap (h : Host) (n : rstr) : bool := default false (h_links h !! n).

(** [sweep_orphans]: the names it has seen go in and come out. *)
Definition sweep_names (env : SweepEnv) (shorts : gset rstr) (seen : gmap rstr FirstSeen) : M St (gmap rstr FirstSeen) :=
  let! seen := (if host_sweep env && netns_dir env then
                  let! current := unclaimed_names (fun s => elements (h_netns (host s))) netns_short shorts in
                  let r := ripe_names (mono env) (bstr "netns") current seen in
                  do! for_each r.1 sweep_netns in ret r.2
                else ret seen) in
  let! names := unclaimed_names (fun s => map fst (map_to_list (h_links (host s)))) tap_short shorts in
  let! h := gets host in
  let r := ripe_names (mono env) (bstr "tap") (List.filter (fun n => host_sweep env && is_tuntap h n) names) seen in
  do! for_each r.1 (fun n => ignore (cleanup_tap n)) in
  ret r.2.

Definition sweep_orphans (env : SweepEnv) (seen : gmap rstr FirstSeen) : M St (gmap rstr FirstSeen) :=
  let! claimed := claimed_ids in
  let! orphans := orphan_workspaces claimed (wall env) ORPHAN_DIR_GRACE in
  do! for_each orphans sweep_workspace in
  sweep_names env (set_map short_id claimed) seen.
End Sweep.

(** ** What was seen, and for how long *)

Lemma ripe_fold now grace l acc n :
  (fold_left (ripe_step now grace) l acc).2 !! n =
    (if bool_decide (n ∈ l) then Some (default now (acc.2 !! n)) else acc.2 !! n).
Proof.
  revert acc. induction l as [|m l IH]; intros acc; [done|]. cbn [fold_left]. rewrite IH. unfold ripe_step. cbn [snd].
  destruct (decide (n = m)) as [->|Hne].
  - rewrite lookup_insert_eq, (bool_decide_eq_true_2 (m ∈ m :: l)) by set_solver. by case_bool_decide.
  - rewrite lookup_insert_ne by done. rewrite (bool_decide_ext (n ∈ m :: l) (n ∈ l)); [done|set_solver].
Qed.

Lemma ripe_out_fold now grace l acc n :
  n ∈ (fold_left (ripe_step now grace) l acc).1 -> n ∈ acc.1 \/ n ∈ l /\ grace <= now - default now (acc.2 !! n).
Proof.
  revert acc. induction l as [|m l IH]; intros acc; [by left|]. cbn [fold_left]. intros Hn. apply IH in Hn.
  unfold ripe_step in Hn. cbn [fst snd] in Hn. destruct Hn as [Hn|[Hn Hg]].
  - destruct (N.leb_spec grace (now - default now (acc.2 !! m))) as [Hl|Hl]; [|by left].
    apply elem_of_app in Hn as [Hn|Hn]; [by left|]. apply list_elem_of_singleton in Hn as ->. right. split; [set_solver|done].
  - right. split; [set_solver|]. destruct (decide (n = m)) as [->|Hne]; [by rewrite lookup_insert_eq in Hg|by rewrite lookup_insert_ne in Hg].
Qed.

Lemma ripe_seen current now grace seen n :
  (ripe current now grace seen).2 !! n = if bool_decide (n ∈ current) then Some (default now (seen !! n)) else None.
Proof.
  unfold ripe. rewrite ripe_fold. cbn [snd]. case_bool_decide as Hn.
  - f_equal. destruct (seen !! n) as [t|] eqn:E.
    + by rewrite (proj2 (map_lookup_filter_Some _ _ _ _) (conj E Hn)).
    + by rewrite (proj2 (map_lookup_filter_None _ _ _) (or_introl E)).
  - apply map_lookup_filter_None. right. by intros t Ht.
Qed.

Lemma ripe_out current now grace seen n :
  n ∈ (ripe current now grace seen).1 -> n ∈ current /\ grace <= now - default now (seen !! n).
Proof.
  intros Hn. apply ripe_out_fold in Hn as [Hn|[Hn Hg]]; [set_solver|]. split; [done|]. cbn [snd] in Hg.
  destruct (seen !! n) as [t|] eqn:E.
  - by rewrite (proj2 (map_lookup_filter_Some _ _ _ _) (conj E Hn)) in Hg.
  - by rewrite (proj2 (map_lookup_filter_None _ _ _) (or_introl E)) in Hg.
Qed.

(** The sweeps of a process, oldest first: what was unclaimed, and when. *)
Abbreviation history := (list (list rstr * N)).
Definition remembered (grace : N) (hs : history) : FirstSeen :=
  fold_left (fun seen c => (ripe c.1 c.2 grace seen).2) hs ∅.

(** [n] was unclaimed in every sweep from one at [t] on. *)
Definition since (n : rstr) (t : N) (hs : history) : Prop :=
  exists pre c suf, hs = pre ++ (c, t) :: suf /\ Forall (fun c => n ∈ c.1) ((c, t) :: suf).

Lemma since_snoc n t hs c : since n t hs -> n ∈ c.1 -> since n t (hs ++ [c]).
Proof.
  intros (pre & c0 & suf & -> & Hf) Hc. exists pre, c0, (suf ++ [c]). split; [by rewrite <- app_assoc|].
  rewrite app_comm_cons. apply Forall_app. split; [done|by constructor].
Qed.

Lemma since_last n t hs c : n ∈ c -> since n t (hs ++ [(c, t)]).
Proof. intros Hc. exists hs, c, []. split; [done|]. by repeat constructor. Qed.

Lemma remembered_since grace hs n t : remembered grace hs !! n = Some t -> since n t hs.
Proof.
  revert t. induction hs as [|[c now] hs IH] using rev_ind; intros t Ht; [done|].
  unfold remembered in Ht. rewrite fold_left_app in Ht. cbn [fold_left] in Ht. rewrite ripe_seen in Ht. cbn [fst snd] in Ht.
  case_bool_decide as Hn; [|done]. injection Ht as Ht. destruct (fold_left _ hs ∅ !! n) as [t'|] eqn:E; simpl in Ht; subst.
  - apply since_snoc; [|done]. by apply IH.
  - by apply since_last.
Qed.

(** a name the sweep acts on was unclaimed in this sweep and in every sweep of
    the process since one at least the grace period ago. *)
Theorem ripe_after_grace (hs : history) (current : list rstr) (now grace : N) (n : rstr)
    (Hn : n ∈ (ripe current now grace (remembered grace hs)).1) :
  exists t, grace <= now - t /\ since n t (hs ++ [(current, now)]).
Proof.
  apply ripe_out in Hn as [Hc Hg]. destruct (remembered grace hs !! n) as [t|] eqn:E; simpl in Hg.
  - exists t. split; [done|]. apply since_snoc; [|done]. by apply remembered_since with grace.
  - exists now. split; [done|]. by apply since_last.
Qed.

Lemma ripe_after_grace_witness :
  let hs := [([bstr "eph-00000000"], 0); ([], 50); ([bstr "eph-00000000"], 100); ([bstr "eph-00000000"], 200)] in
  (ripe [bstr "eph-00000000"] 219 120 (remembered 120 hs)).1 = [] /\
  exists t, 120 <= 220 - t /\ since (bstr "eph-00000000") t (hs ++ [([bstr "eph-00000000"], 220)]).
Proof.
  cbv zeta. split; [by_eval|]. apply (ripe_after_grace _ [bstr "eph-00000000"]). by_eval.
Defined.

(** ** What is claimed is spared *)

(** [returns Q m]: what [m] returns satisfies [Q]. *)
Definition returns {A} (Q : A -> Prop) (m : M St A) : Prop := forall s a s', m s = (Ok a, s') -> Q a.

Lemma mrel_bind_returns (R : St -> St -> Prop) `{!PreOrder R} {A B} (Q : A -> Prop) (m : M St A) (f : A -> M St B) :
  mrel R m -> returns Q m -> (forall a, Q a -> mrel R (f a)) -> mrel R (bind m f).
Proof.
  intros Hm Hq Hf s. unfold bind. specialize (Hm s). destruct (m s) as [[a|e| |] s1] eqn:E; try done.
  etransitivity; [exact Hm|]. apply Hf. by apply (Hq s a s1).
Qed.

Section Spares.
Context `{!UuidFmt} (state_dir : path) (me : N) (c : gset N).

(** Nothing but unclaimed workspaces, namespaces and taps changes. *)
Record spares (s s' : St) : Prop := {
  sp_recs : recs s' = recs s;
  sp_ops : ops s' = ops s;
  sp_dels : dels s' = dels s;
  sp_lvs : h_lvs (host s') = h_lvs (host s);
  sp_ceph : h_ceph (host s') = h_ceph (host s);
  sp_procs : h_procs (host s') = h_procs (host s);
  sp_paths : forall id p, id ∈ c -> in_u 128 id -> workspace_of state_dir id `prefix_of` p ->
             h_paths (host s') !! p = h_paths (host s) !! p;
  sp_netns : forall id, id ∈ c -> (bstr "eph-" ++ short_id id ∈ h_netns (host s') <-> bstr "eph-" ++ short_id id ∈ h_netns (host s));
  sp_links : forall id, id ∈ c -> h_links (host s') !! (bstr "eph" ++ short_id id) = h_links (host s) !! (bstr "eph" ++ short_id id)
}.

#[global] Instance spares_preorder : PreOrder spares.
Proof.
  split; [by split|]. intros s1 s2 s3 [A1 A2 A3 A4 A5 A6 A7 A8 A9] [B1 B2 B3 B4 B5 B6 B7 B8 B9]. split; try congruence.
  - intros id p H1 H2 H3. by rewrite (B7 id p), (A7 id p).
  - intros id H1. by rewrite (B8 id), (A8 id).
  - intros id H1. by rewrite (B9 id), (A9 id).
Qed.

#[global] Instance spares_takes_script : TakesScript spares.
Proof. split. intros s f l _. by split. Qed.

Lemma workspace_vm_id_inv p id : workspace_vm_id state_dir p = Some id ->
  exists n, p = instances state_dir ++ [Normal n] /\ uuid_parse n = Some id.
Proof.
  unfold workspace_vm_id, parent, file_name. case_bool_decide as Hp; [|done]. rewrite <- (reverse_involutive p) in *.
  rewrite reverse_involutive in *. destruct (reverse p) as [|[| | |n] r]; try done. intros Hn. exists n. injection Hp as <-.
  by rewrite reverse_cons.
Qed.

(** The workspace of a claimed id is in no other workspace. *)
Lemma workspace_apart ws p id id' : workspace_vm_id state_dir ws = Some id' -> in_u 128 id ->
  workspace_of state_dir id `prefix_of` p -> ws `prefix_of` p -> id' = id.
Proof.
  intros Hw Hid H1 H2. apply workspace_vm_id_inv in Hw as (n & -> & Hn).
  assert (workspace_of state_dir id = instances state_dir ++ [Normal n]) as He.
  { unfold workspace_of in *. destruct H1 as [k1 ->], H2 as [k2 E]. rewrite <- !app_assoc in E. apply app_inv_head in E.
    by injection E as ->. }
  unfold workspace_of in He. apply app_inv_head in He. injection He as <-. rewrite (uuid_parse_string id Hid) in Hn. by injection Hn.
Qed.

Lemma sweep_workspace_spares ws : (forall id, workspace_vm_id state_dir ws = Some id -> id ∉ c) ->
  mrel spares (sweep_workspace state_dir me ws).
Proof.
  intros Hc. unfold sweep_workspace. destruct (workspace_vm_id state_dir ws) as [id|] eqn:E; [|apply mrel_ret; apply _].
  apply mrel_bind; [apply _|apply mrel_gets; apply _|]. intros h. case_bool_decide; [|apply mrel_ret; apply _].
  apply mrel_ignore; [apply _|]. apply mrel_ext; [apply _..|]. intros s. split; try done. intros x p Hx Hin Hp. simpl.
  destruct (h_paths (host s) !! p) as [m|] eqn:Em; [|apply map_lookup_filter_None; by left].
  apply map_lookup_filter_Some. split; [done|]. simpl. intros Hpre. pose proof (workspace_apart _ _ _ _ E Hin Hp Hpre) as ->.
  by apply (Hc x).
Qed.

Lemma unclaimed_name short_of pre n id : (forall s, short_of s = strip_prefix pre s) ->
  unclaimed short_of (set_map short_id c) n = true -> id ∈ c -> n <> pre ++ short_id id.
Proof.
  intros Hs Hu Hid ->. unfold unclaimed in Hu. rewrite Hs in Hu. rewrite (proj2 (strip_prefix_spec pre _ (short_id id)) eq_refl) in Hu.
  apply andb_true_iff in Hu as [_ Hu]. apply negb_true_iff, bool_decide_eq_false in Hu. apply Hu, elem_of_map. by exists id.
Qed.

Lemma ripe_names_in now kind cur all n : n ∈ (ripe_names now kind cur all).1 -> n ∈ cur.
Proof. intros Hn. by apply ripe_out in Hn as [? _]. Qed.

Lemma sweep_netns_spares n : unclaimed netns_short (set_map short_id c) n = true -> mrel spares (sweep_netns n).
Proof.
  intros Hu. unfold sweep_netns. destruct (_ ≫= _); [|apply mrel_ret; apply _]. apply mrel_ignore; [apply _|].
  unfold netns_cleanup. apply mrel_ignore; [apply _|]. apply mrel_ext; [apply _..|]. intros s. split; try done. intros id Hid. simpl.
  pose proof (unclaimed_name netns_short _ n id (fun s => eq_refl) Hu Hid). set_solver.
Qed.

Lemma sweep_tap_spares n : unclaimed tap_short (set_map short_id c) n = true -> mrel spares (ignore (cleanup_tap n)).
Proof.
  intros Hu. unfold cleanup_tap. apply mrel_ignore; [apply _|]. apply mrel_ignore; [apply _|]. apply mrel_ext; [apply _..|].
  intros s. split; try done. intros id Hid. simpl. apply lookup_delete_ne. by apply (unclaimed_name tap_short _ n id (fun s => eq_refl) Hu Hid).
Qed.

Lemma returns_bind {A B} (Q : A -> Prop) (R : B -> Prop) (m : M St A) (f : A -> M St B) :
  returns Q m -> (forall a, Q a -> returns R (f a)) -> returns R (bind m f).
Proof. intros Hm Hf s b s'. unfold bind. destruct (m s) as [[a|e| |] s1] eqn:E; try done. apply Hf. by apply (Hm s a s1). Qed.

Lemma returns_try {A B} (Q : A -> Prop) (R : B -> Prop) (m : M St A) (f : A -> M St B) h :
  returns Q m -> (forall a, Q a -> returns R (f a)) -> returns R h -> returns R (try_ok m f h).
Proof.
  intros Hm Hf Hh s b s'. unfold try_ok. destruct (m s) as [[a|e| |] s1] eqn:E; try done; [|apply Hh].
  apply Hf. by apply (Hm s a s1).
Qed.

Lemma returns_ret {A} (Q : A -> Prop) a : Q a -> returns Q (ret a).
Proof. intros Ha s b s' [= <- <-]. done. Qed.

Lemma returns_any {A} (m : M St A) : returns (fun _ => True) m.
Proof. done. Qed.

Definition not_claimed (ws : path) : Prop := forall id, workspace_vm_id state_dir ws = Some id -> id ∉ c.

Lemma orphan_entry_returns now grace e :
  returns (fun o => forall p, o = Some p -> not_claimed p) (orphan_entry state_dir c now grace e).
Proof.
  unfold orphan_entry. destruct (workspace_vm_id state_dir e.1) as [id|] eqn:E; [|by apply returns_ret].
  case_bool_decide as Hc; [by apply returns_ret|]. eapply returns_try; [apply returns_any| |by apply returns_ret].
  intros _ _. apply returns_ret. intros p Hp. case_match; [|done]. injection Hp as <-. intros id' Hid. congruence.
Qed.

Lemma orphan_workspaces_returns now grace : returns (Forall not_claimed) (orphan_workspaces state_dir c now grace).
Proof.
  unfold orphan_workspaces. eapply returns_try; [apply returns_any| |apply returns_ret; constructor]. intros l _.
  induction l as [|e l IH]; [apply returns_ret; constructor|]. eapply returns_bind; [apply orphan_entry_returns|]. intros o Ho.
  eapply returns_bind; [exact IH|]. intros r Hr. apply returns_ret. destruct o; [|done]. constructor; [by apply Ho|done].
Qed.

Lemma unclaimed_names_returns dir short_of known :
  returns (fun l => forall n, n ∈ l -> unclaimed short_of known n = true) (unclaimed_names dir short_of known).
Proof.
  unfold unclaimed_names. eapply returns_try; [apply returns_any| |apply returns_ret; set_solver]. intros l _. apply returns_ret.
  intros n Hn. apply list_elem_of_In, List.filter_In in Hn. tauto.
Qed.

Lemma mrel_unclaimed dir short_of known : mrel spares (unclaimed_names dir short_of known).
Proof. apply mrel_try_ok; [apply _|apply mrel_ext, mrel_gets; apply _|intros; apply mrel_ret; apply _..]. Qed.

Lemma mrel_orphans now grace : mrel spares (orphan_workspaces state_dir c now grace).
Proof.
  apply mrel_try_ok; [apply _|apply mrel_ext, mrel_gets; apply _| |apply mrel_ret; apply _]. intros l.
  induction l as [|e l IH]; [apply mrel_ret; apply _|]. apply mrel_bind; [apply _| |].
  - unfold orphan_entry. destruct (workspace_vm_id _ _); [|apply mrel_ret; apply _]. case_bool_decide; [apply mrel_ret; apply _|].
    apply mrel_try_ok; [apply _|apply mrel_ext, mrel_ret; apply _|intros; apply mrel_ret; apply _..].
  - intros o. apply mrel_bind; [apply _|exact IH|]. intros r. apply mrel_ret; apply _.
Qed.

Lemma sweep_names_spares env seen : mrel spares (sweep_names env (set_map short_id c) seen).
Proof.
  unfold sweep_names. apply mrel_bind; [apply _| |].
  - destruct (_ && _); [|apply mrel_ret; apply _]. eapply mrel_bind_returns; [apply _|apply mrel_unclaimed|apply unclaimed_names_returns|].
    intros l Hl. apply mrel_bind; [apply _| |intros; apply mrel_ret; apply _]. apply mrel_for_each; [apply _..|]. intros n Hn.
    apply sweep_netns_spares, Hl. by apply ripe_names_in in Hn.
  - intros seen1. eapply mrel_bind_returns; [apply _|apply mrel_unclaimed|apply unclaimed_names_returns|]. intros l Hl.
    apply mrel_bind; [apply _|apply mrel_gets; apply _|]. intros h. apply mrel_bind; [apply _| |intros; apply mrel_ret; apply _].
    apply mrel_for_each; [apply _..|]. intros n Hn. apply sweep_tap_spares, Hl. apply ripe_names_in in Hn.
    apply list_elem_of_In, List.filter_In in Hn as [Hn _]. by apply list_elem_of_In.
Qed.

(** Whatever fails and wherever it stops, with [c] claimed. *)
Lemma sweep_rest_spares env seen : mrel spares
  (let! orphans := orphan_workspaces state_dir c (wall env) ORPHAN_DIR_GRACE in
   do! for_each orphans (sweep_workspace state_dir me) in sweep_names env (set_map short_id c) seen).
Proof.
  eapply mrel_bind_returns; [apply _|apply mrel_orphans|apply orphan_workspaces_returns|]. intros l Hl.
  apply mrel_bind; [apply _| |intros; apply sweep_names_spares]. apply mrel_for_each; [apply _..|]. intros ws Hws.
  apply sweep_workspace_spares. rewrite Forall_forall in Hl. by apply Hl.
Qed.
End Spares.

(** What a record or an intent claims. *)
Definition claims (s : St) (id : N) : Prop :=
  is_Some (recs s !! id) \/ (exists k i, ops s !! k = Some i /\ id ∈ op_claims i) \/ (exists k d, dels s !! k = Some d /\ d_vm_id d = id).

(** A state that differs in its script only. *)
Record same_state (s s' : St) : Prop := {
  sa_host : host s' = host s; sa_recs : recs s' = recs s; sa_ops : ops s' = ops s; sa_dels : dels s' = dels s }.
#[global] Instance same_state_preorder : PreOrder same_state.
Proof. split; [by split|]. intros s1 s2 s3 [] []. split; congruence. Qed.
#[global] Instance same_state_takes_script : TakesScript same_state.
Proof. split. intros s f l E. by split. Qed.

(** The calls by which a sweep reads the records and the intents: the store, the
    two directories and every intent in them. *)
Definition claim_reads (s : St) : nat := 3 + size (ops s) + size (dels s).

Lemma not_in_take_le {A} (x : A) n m l : (n <= m)%nat -> x ∉ take m l -> x ∉ take n l.
Proof. intros Hl H. rewrite <- (Nat.min_l n m Hl), <- take_take. by apply not_in_take. Qed.

Lemma not_in_take_drop {A} (x : A) n k m l : (n + k <= m)%nat -> x ∉ take m l -> x ∉ take k (drop n l).
Proof.
  intros Hl H. rewrite take_drop_commute. apply (not_in_take_le x (n + k)) in H; [|done].
  intros Hx. apply H. rewrite <- (take_drop n (take (n + k) l)). set_solver.
Qed.

Lemma store_list_reads s ids s' : FErr ∉ take 1 (script s) -> store_list s = (Ok ids, s') ->
  ids = map fst (map_to_list (recs s)) /\ script s' = drop 1 (script s).
Proof.
  intros He E. unfold store_list, try_ok, ext, gets in E. destruct (script s) as [|[] t] eqn:Es; cbn [take drop] in *;
    try done; injection E as <- <-; [done|done|]. exfalso. apply He. set_solver.
Qed.

Lemma mrel_claimed (R : St -> St -> Prop) `{!PreOrder R, !TakesScript R} : mrel R claimed_ids.
Proof.
  unfold claimed_ids, store_list. repeat (apply mrel_bind; [apply _| |intros ?]); try (apply mrel_ret; apply _).
  - apply mrel_try_ok; [apply _|apply mrel_ext, mrel_gets; apply _|intros; apply mrel_ret; apply _..].
  - by apply mrel_pending_ops.
  - by apply mrel_pending_deletes.
Qed.

(** When none of these reads fails, everything claimed is in the set. *)
Lemma claimed_complete s c s' id : FErr ∉ take (claim_reads s) (script s) -> claimed_ids s = (Ok c, s') -> claims s id -> id ∈ c.
Proof.
  intros He E Hc. unfold claimed_ids in E. unfold bind at 1 in E. unfold claim_reads in He.
  assert (mrel same_state store_list) as Hl
    by (apply mrel_try_ok; [apply _|apply mrel_ext, mrel_gets; apply _|intros; apply mrel_ret; apply _..]).
  specialize (Hl s). destruct (store_list s) as [[ids|e| |] s1] eqn:E1; try done. destruct Hl as [_ _ Hl1 Hl2]. cbn [snd] in *.
  apply store_list_reads in E1 as [-> R1]; [|by eapply not_in_take_le, He; lia].
  unfold bind at 1 in E. pose proof (mrel_pending_ops same_state s1) as Hp. destruct (pending_ops s1) as [[os|e| |] s2] eqn:E2; try done.
  destruct Hp as [_ _ _ Hp2]. cbn [snd] in *.
  apply pending_ops_reads in E2 as [-> R2]; [|rewrite Hl1, R1; eapply not_in_take_drop, He; lia].
  unfold bind at 1 in E. destruct (pending_deletes s2) as [[ds|e| |] s3] eqn:E3; try done.
  apply pending_deletes_reads in E3 as [-> _];
    [|rewrite Hp2, Hl2, R2, R1, Hl1, drop_drop; eapply not_in_take_drop, He; lia].
  injection E as <- _. rewrite Hp2, Hl2, Hl1, elem_of_list_to_set, !elem_of_app.
  destruct Hc as [[vm Hv]|[(k & i & Hi & Hid)|(k & d & Hd & <-)]].
  - left. apply list_elem_of_fmap. exists (id, vm). split; [done|]. by apply elem_of_map_to_list.
  - right; left. apply list_elem_of_In, in_concat. exists (op_claims i). split; [|by apply list_elem_of_In]. apply in_map.
    apply list_elem_of_In, list_elem_of_fmap. exists (k, i). split; [done|]. by apply elem_of_map_to_list.
  - right; right. rewrite <- list_fmap_compose. apply list_elem_of_fmap. exists (k, d). split; [done|]. by apply elem_of_map_to_list.
Qed.

(** C33: when the first calls of a sweep, those that read the records and the
    intents, do not fail, it changes no record and no intent, and takes nothing of a
    VM that a record or an intent claims: neither anything in its workspace, nor its
    namespace, nor its tap.  Any later call may fail, the process may die at any
    call, and the names seen in earlier sweeps are arbitrary.  (A failed read is
    taken for an empty store: [sweep_unreadable_store_removes_disk].) *)
Theorem sweep_spares_claimed `{!UuidFmt} (state_dir : path) (me : N) (env : SweepEnv) (seen : gmap rstr FirstSeen) (s : St) (id : N)
    (He : FErr ∉ take (claim_reads s) (script s)) (Hc : claims s id) (Hid : in_u 128 id) :
  let s' := (sweep_orphans state_dir me env seen s).2 in
  recs s' = recs s /\ ops s' = ops s /\ dels s' = dels s /\
  (forall p, workspace_of state_dir id `prefix_of` p -> h_paths (host s') !! p = h_paths (host s) !! p) /\
  (bstr "eph-" ++ short_id id ∈ h_netns (host s') <-> bstr "eph-" ++ short_id id ∈ h_netns (host s)) /\
  h_links (host s') !! (bstr "eph" ++ short_id id) = h_links (host s) !! (bstr "eph" ++ short_id id).
Proof.
  intros s'. pose proof (mrel_claimed same_state s) as Hs. assert (s' = match claimed_ids s with
    | (Ok c, s1) => ((let! orphans := orphan_workspaces state_dir c (wall env) ORPHAN_DIR_GRACE in
                      do! for_each orphans (sweep_workspace state_dir me) in sweep_names env (set_map short_id c) seen) s1).2
    | (_, s1) => s1 end) as ->.
  { subst s'. unfold sweep_orphans, bind at 1. by destruct (claimed_ids s) as [[] ?]. }
  destruct (claimed_ids s) as [[c|e| |] s1] eqn:E; destruct Hs as [H1 H2 H3 H4]; cbn [snd] in *; try (by rewrite H1, H2, H3, H4).
  pose proof (claimed_complete s c s1 id He E Hc) as Hin. destruct (sweep_rest_spares state_dir me c env seen s1) as [S1 S2 S3 _ _ _ S4 S5 S6].
  rewrite <- H1, <- H2, <- H3, <- H4. split_and!; [exact S1|exact S2|exact S3|intros p; exact (S4 id p Hin Hid)|exact (S5 id Hin)|exact (S6 id Hin)].
Qed.

(** ** Examples *)

#[local] Existing Instance uuid_hex.

(** A stopped VM, untouched for two hours, its namespace and tap unclaimed for
    longer than the grace period; beside it the leftovers of an unknown one. *)
Definition stopped_vm (id : N) : VmRecord :=
  MkVm Stopped None (workspace_of var_fluxvm id) [] None None None None None [] None SDefault NetNone.
Definition disk_of (id : N) : path := workspace_of var_fluxvm id ++ [Normal (bstr "disk.qcow2")].
Definition swept_state : St :=
  MkSt (MkHost (list_to_map (map (fun p => (p, MkPMeta true 0)) [workspace_of var_fluxvm 5; disk_of 5; workspace_of var_fluxvm (2 ^ 100); disk_of (2 ^ 100)]))
          {[bstr "eph-00000000"; bstr "eph-00000010"]} ∅ ∅ ∅ ∅) {[5 := stopped_vm 5]} ∅ ∅ [].
Definition two_hours : SweepEnv := MkEnv 7200 7200 true true.
Definition seen_long_ago : gmap rstr FirstSeen := {[bstr "netns" := {[bstr "eph-00000000" := 0; bstr "eph-00000010" := 0]}]}.

(** The removal of the unknown VM's workspace fails, and its namespace goes. *)
Definition failing_sweep : St := set_script (replicate 5 FOk ++ [FErr]) swept_state.

Lemma sweep_spares_claimed_witness :
  let s' := (sweep_orphans var_fluxvm 100 two_hours seen_long_ago failing_sweep).2 in
  (is_Some (h_paths (host s') !! disk_of (2 ^ 100)) /\ bstr "eph-00000010" ∉ h_netns (host s')) /\
  recs s' = recs failing_sweep /\ ops s' = ops failing_sweep /\ dels s' = dels failing_sweep /\
  (forall p, workspace_of var_fluxvm 5 `prefix_of` p -> h_paths (host s') !! p = h_paths (host failing_sweep) !! p) /\
  (bstr "eph-" ++ short_id 5 ∈ h_netns (host s') <-> bstr "eph-" ++ short_id 5 ∈ h_netns (host failing_sweep)) /\
  h_links (host s') !! (bstr "eph" ++ short_id 5) = h_links (host failing_sweep) !! (bstr "eph" ++ short_id 5).
Proof.
  cbv zeta. split; [split; by_eval|]. apply (sweep_spares_claimed var_fluxvm 100 two_hours seen_long_ago failing_sweep 5).
  - change (FErr ∉ [FOk; FOk; FOk]). set_solver.
  - left. by eexists.
  - by_eval.
Defined.

(** When the records cannot be read (one failed call), the same sweep removes the
    disk of the stopped VM; its record is still there. *)
Lemma sweep_unreadable_store_removes_disk :
  let s' := (sweep_orphans var_fluxvm 100 two_hours ∅ (set_script [FErr] swept_state)).2 in
  is_Some (recs s' !! 5) /\ is_Some (h_paths (host swept_state) !! disk_of 5) /\ h_paths (host s') !! disk_of 5 = None.
Proof. cbv zeta. split_and!; by_eval. Qed.
