(* ===== verification/Boot.v ===== *)
(** * Boot

    [crates/fluxvm-hypervisor/src/boot.rs]: identity page tables, the kernel,
    the initrd, the command line, the zero page and the memory maps of the
    three ways in (raw image, [linux-loader], PVH) and the Windows firmware
    path; [setup_long_mode] and [setup_pvh_entry] of [kvm.rs], which give the
    first vCPU its registers.

    Files are read through an argument.  The [linux-loader] crate is a
    parameter: what its loaders and configurators do to guest RAM.  Notes for
    the log are left out. *)

From stdpp Require Import prelude list strings.
From Stdlib Require Import NArith Lia.
From S2P Require Import Prelude RustStr GuestMemory Tables MpTable Acpi VmConfig.

Definition KERNEL_LOAD_ADDR : u64 := 0x200000.
Definition BOOT_PARAMS_ADDR : u64 := 0x7000.
Definition INITRD_ADDR : u64 := 0x4000000.
Definition GUEST_STACK : u64 := 0x800000.
Definition PVH_INFO_START : u64 := 0x6000.
Definition MODLIST_START : u64 := 0x6040.
Definition MEMMAP_START : u64 := 0x7000.
Definition HIMEM_START : u64 := 0x100000.
Definition SYSTEM_MEM_START : u64 := 0x9fc00.
Definition SYSTEM_MEM_SIZE : u64 := RSDP_ADDR - SYSTEM_MEM_START.
Definition CMDLINE_GPA : u64 := 0x20000.

Record BootInfo := MkBoot {
  entry_rip : u64;
  boot_params_gpa : option u64;
  pvh_start_info_gpa : option u64;
  firmware_reset : bool
}.

(** [for (i, d) in ps { buf[i..].copy_from_slice(d) }] *)
Fixpoint put_each (ps : list (N * bytes)) : M bytes unit :=
  match ps with [] => ret tt | (i, d) :: ps => do! put i d in put_each ps end.

(** ** Page tables *)

Definition PML4 : u64 := 0x8000.
Definition PDPT : u64 := 0x9000.
Definition PD0 : u64 := 0xa000.
Definition PD3 : u64 := 0xd000.

Definition idx512 : list N := map N.of_nat (seq 0 512).

(** A page directory of 512 pages of 2 MiB, from [base] on. *)
Definition pd_entry (base i : N) : N := N.lor (N.lor base (N.shiftl i 21)) 0x83.
Definition pd_table (base : N) : outcome bytes :=
  build 4096 (put_each (map (fun i => (i * 8, le_bytes 8 (pd_entry base i))) idx512)).

Definition pml4_table : outcome bytes := build 4096 (put 0 (le_bytes 8 (N.lor PDPT 3))).
Definition pdpt_table : outcome bytes :=
  build 4096 (do! put 0 (le_bytes 8 (N.lor PD0 3)) in put 24 (le_bytes 8 (N.lor PD3 3))).

Definition build_identity_page_tables : M GuestMemory u64 :=
  let! pml4 := lift pml4_table in
  do! write_at PML4 pml4 in
  let! pdpt := lift pdpt_table in
  do! write_at PDPT pdpt in
  let! pd0 := lift (pd_table 0) in
  do! write_at PD0 pd0 in
  let! pd3 := lift (pd_table (N.shiftl 3 30)) in
  do! write_at PD3 pd3 in
  ret PML4.

(** ** Memory maps *)

Record MapEntry := MkMap { e_addr : u64; e_size : u64; e_type : u32 }.

Definition MAP_RAM : u32 := 1.
Definition MAP_RESERVED : u32 := 2.

(** [fill_e820]: entries of size 0 and entries past the 128 of the table are
    dropped. *)
Definition e820_push (addr size typ : N) (t : list MapEntry) : list MapEntry :=
  if (128 <=? length t)%nat || (size =? 0) then t else t ++ [MkMap addr size typ].

Definition fill_e820 (mem_size : u64) : list MapEntry :=
  let t := e820_push 0 (N.min SYSTEM_MEM_START mem_size) MAP_RAM [] in
  let t := if SYSTEM_MEM_START <? mem_size
           then e820_push SYSTEM_MEM_START (N.min SYSTEM_MEM_SIZE (mem_size - SYSTEM_MEM_START)) MAP_RESERVED t else t in
  let t := e820_push PCI_MMCONFIG_START PCI_MMCONFIG_SIZE MAP_RESERVED t in
  if HIMEM_START <? mem_size then e820_push HIMEM_START (mem_size - HIMEM_START) MAP_RAM t else t.

(** The entries of the minimal zero page. *)
Definition raw_entries (mem_size : u64) : list MapEntry :=
  [MkMap 0 (N.min SYSTEM_MEM_START mem_size) MAP_RAM] ++
  (if SYSTEM_MEM_START <? mem_size
   then [MkMap SYSTEM_MEM_START (N.min SYSTEM_MEM_SIZE (mem_size - SYSTEM_MEM_START)) MAP_RESERVED] else []) ++
  [MkMap PCI_MMCONFIG_START PCI_MMCONFIG_SIZE MAP_RESERVED] ++
  (if HIMEM_START <? mem_size then [MkMap HIMEM_START (mem_size - HIMEM_START) MAP_RAM] else []).

(** The map of [configure_pvh_boot]. *)
Definition pvh_memmap (mem_size : u64) : list MapEntry :=
  [MkMap 0 SYSTEM_MEM_START MAP_RAM;
   MkMap SYSTEM_MEM_START SYSTEM_MEM_SIZE MAP_RESERVED;
   MkMap PCI_MMCONFIG_START PCI_MMCONFIG_SIZE MAP_RESERVED] ++
  (if HIMEM_START <? mem_size then [MkMap HIMEM_START (mem_size - HIMEM_START) MAP_RAM] else []).

(** ** The raw path *)

Definition entry_bytes (e : MapEntry) : bytes := le_bytes 8 (e_addr e) ++ le_bytes 8 (e_size e) ++ le_bytes 4 (e_type e).

Definition put_entry (i : nat) (e : MapEntry) : list (N * bytes) :=
  let off := 0x2d0 + N.of_nat i * 20 in
  [(off, le_bytes 8 (e_addr e)); (off + 8, le_bytes 8 (e_size e)); (off + 16, le_bytes 4 (e_type e))].

Definition zero_page (cmdline_len initrd_len : u32) (entries : list MapEntry) : outcome bytes :=
  build 4096 (put_each
    ([(0x228, le_bytes 4 (U.wrap 32 CMDLINE_GPA)); (0x238, le_bytes 4 (U.add 32 cmdline_len 1))] ++
     (if 0 <? initrd_len then [(0x218, le_bytes 4 (U.wrap 32 INITRD_ADDR)); (0x21c, le_bytes 4 initrd_len)] else []) ++
     [(0x1e8, [U.wrap 8 (lenN entries)])] ++
     concat (imap put_entry entries))).

Definition write_linux_cmdline (cmdline : bytes) : M GuestMemory unit := write_at CMDLINE_GPA (cmdline ++ [0]).

Definition write_minimal_boot_params (cmdline : bytes) (initrd_len : u32) : M GuestMemory unit :=
  let! mem_size := gets mem_len in
  let! page := lift (zero_page (U.wrap 32 (lenN cmdline)) initrd_len (raw_entries mem_size)) in
  write_at BOOT_PARAMS_ADDR page.

Section Files.
(** [std::fs::read] and [Path::exists] *)
Context (read_file : rstr -> option bytes) (path_exists : rstr -> bool).

Definition fs_read (p : rstr) : M GuestMemory bytes := ok_or (read_file p) Io.

Definition load_initrd (c : VmConfig) : M GuestMemory u32 :=
  match c_initrd c with
  | Some p =>
      let! b := fs_read p in
      do! write_at INITRD_ADDR b in
      ret (U.wrap 32 (lenN b))
  | None => ret 0
  end.

Definition load_raw_kernel (c : VmConfig) : M GuestMemory unit :=
  match c_kernel c with
  | Some p =>
      let! b := fs_read p in
      let! n := gets mem_len in
      if n <? U.add 64 (lenN b) KERNEL_LOAD_ADDR then throw Prelude.Boot else write_at KERNEL_LOAD_ADDR b
  | None => ret tt
  end.

Definition prepare_linux_raw (c : VmConfig) : M GuestMemory BootInfo :=
  do! load_raw_kernel c in
  let! initrd_len := load_initrd c in
  do! write_linux_cmdline (as_bytes (c_cmdline c)) in
  do! write_minimal_boot_params (as_bytes (c_cmdline c)) initrd_len in
  ret (MkBoot KERNEL_LOAD_ADDR (Some BOOT_PARAMS_ADDR) None false).

(** ** Through [linux-loader] *)

(** The fields of [setup_header] that are set here; [h_rest] is the rest. *)
Record setup_header := MkHdr {
  h_boot_flag : u16; h_header : u32; h_version : u16; h_kernel_alignment : u32; h_type_of_loader : u8;
  h_cmd_line_ptr : u32; h_cmdline_size : u32; h_ramdisk_image : u32; h_ramdisk_size : u32; h_rest : bytes
}.

Record boot_params := MkParams { bp_hdr : setup_header; bp_e820 : list MapEntry }.

Record hvm_start_info := MkStart {
  si_magic : u32; si_version : u32; si_nr_modules : u32; si_modlist_paddr : u64; si_cmdline_paddr : u64;
  si_rsdp_paddr : u64; si_memmap_paddr : u64; si_memmap_entries : u32
}.

Record KernelLoaderResult := MkLoaded {
  kernel_load : u64; kernel_end : u64; lr_setup_header : option setup_header; pvh_boot_cap : option u64
}.

(** What the crate does: its two loaders on a file, its two configurators, the
    default header, and whether guest RAM can be wrapped for it. *)
Context (view_ok : bool)
        (BzImage_load Elf_load : bytes -> u64 -> M GuestMemory KernelLoaderResult)
        (write_bootparams : boot_params -> u64 -> M GuestMemory unit)
        (write_pvh : hvm_start_info -> list MapEntry -> list (u64 * u64) -> M GuestMemory unit)
        (default_header : setup_header).

Definition XEN_HVM_START_MAGIC_VALUE : u32 := 0x336ec578.

(** [map_err(|e| FluxError::Boot(..))] *)
Definition as_boot {A} (m : M GuestMemory A) : M GuestMemory A := try_ok m ret (throw Prelude.Boot).

Definition pvh_start_info (initrd_len : u32) (rsdp : u64) (memmap : list MapEntry) : hvm_start_info :=
  MkStart XEN_HVM_START_MAGIC_VALUE 1 (if 0 <? initrd_len then 1 else 0) (if 0 <? initrd_len then MODLIST_START else 0)
    CMDLINE_GPA rsdp MEMMAP_START (U.wrap 32 (lenN memmap)).

Definition configure_pvh_boot (pvh_entry : u64) (initrd_len : u32) (c : VmConfig) : M GuestMemory BootInfo :=
  let! rsdp_paddr := (if c_acpi c then try_ok (write_tables (c_cpus c)) ret (ret 0) else ret 0) in
  let! mem_size := gets mem_len in
  let memmap := pvh_memmap mem_size in
  let modules := if 0 <? initrd_len then [(INITRD_ADDR, initrd_len)] else [] in
  do! as_boot (write_pvh (pvh_start_info initrd_len rsdp_paddr memmap) memmap modules) in
  ret (MkBoot pvh_entry None (Some PVH_INFO_START) false).

Definition loader_header (hdr : option setup_header) (cmdline_len : u64) (initrd_len : u32) : setup_header :=
  let h := match hdr with
           | Some h => h
           | None => MkHdr 0xaa55 0x53726448 0x20c 0x1000000 (h_type_of_loader default_header) (h_cmd_line_ptr default_header)
                       (h_cmdline_size default_header) (h_ramdisk_image default_header) (h_ramdisk_size default_header)
                       (h_rest default_header)
           end in
  MkHdr (h_boot_flag h) (h_header h) (h_version h) (h_kernel_alignment h) 0xff (U.wrap 32 CMDLINE_GPA)
    (U.saturating_add 32 (U.wrap 32 cmdline_len) 1)
    (if 0 <? initrd_len then U.wrap 32 INITRD_ADDR else h_ramdisk_image h)
    (if 0 <? initrd_len then initrd_len else h_ramdisk_size h) (h_rest h).

Definition load_kernel (b : bytes) : M GuestMemory KernelLoaderResult :=
  try_ok (BzImage_load b HIMEM_START) ret (as_boot (Elf_load b HIMEM_START)).

Definition prepare_linux_with_loader (c : VmConfig) : M GuestMemory BootInfo :=
  let! path := ok_or (c_kernel c) Prelude.Boot in
  do! (if view_ok then ret tt else throw Prelude.Boot) in
  let! file := as_boot (fs_read path) in
  let! r := load_kernel file in
  let! initrd_len := load_initrd c in
  do! write_linux_cmdline (as_bytes (c_cmdline c)) in
  match pvh_boot_cap r with
  | Some pvh_entry => configure_pvh_boot pvh_entry initrd_len c
  | None =>
      let! mem_size := gets mem_len in
      let hdr := loader_header (lr_setup_header r) (lenN (as_bytes (c_cmdline c))) initrd_len in
      do! as_boot (write_bootparams (MkParams hdr (fill_e820 mem_size)) BOOT_PARAMS_ADDR) in
      let rip := match lr_setup_header r with Some _ => U.add 64 (kernel_load r) 0x200 | None => kernel_load r end in
      ret (MkBoot rip (Some BOOT_PARAMS_ADDR) None false)
  end.

Definition prepare_linux (c : VmConfig) : M GuestMemory BootInfo :=
  try_ok (prepare_linux_with_loader c) ret (prepare_linux_raw c).

(** ** Firmware *)

Definition FIRMWARE_GPA : u64 := 0x1000000.

Definition load_firmware (c : VmConfig) : M GuestMemory bool :=
  match (match c_firmware c with Some p => Some p | None => c_kernel c end) with
  | Some p =>
      if path_exists p then
        let! b := fs_read p in
        let! n := gets mem_len in
        if match U.checked_add 64 FIRMWARE_GPA (lenN b) with Some fin => fin <=? n | None => false end
        then do! write_at FIRMWARE_GPA b in ret true
        else ret false
      else ret false
  | None => ret false
  end.

Definition prepare_windows (c : VmConfig) : M GuestMemory BootInfo :=
  do! try_ok (write_tables (c_cpus c)) (fun _ => ret tt) (ret tt) in
  let! loaded := load_firmware c in
  let! n := gets mem_len in
  do! (if negb loaded && (FIRMWARE_GPA + 16 <=? n) then write_at FIRMWARE_GPA [0xf4; 0xeb; 0xfd] else ret tt) in
  do! (if 0xfffffff0 <? n then write_at 0xfffffff0 [0xea; 0; 0; 0; 0xf0] else ret tt) in
  ret (MkBoot FIRMWARE_GPA None None true).

Definition prepare (c : VmConfig) : M GuestMemory BootInfo :=
  match c_guest c with
  | Linux => prepare_linux c
  | Windows => prepare_windows c
  end.

(** What [from_boot_config] does to guest RAM; the MP table may fail. *)
Definition load_guest (c : VmConfig) : M GuestMemory BootInfo :=
  do! build_identity_page_tables in
  let! info := prepare c in
  do! try_ok (write_mptable (c_max_cpus c)) (fun _ => ret tt) (ret tt) in
  ret info.
End Files.

(** ** The first vCPU *)

Record KvmSegment := MkSeg {
  sg_base : u64; sg_limit : u32; sg_selector : u16; sg_type : u8; sg_present : u8; sg_dpl : u8; sg_db : u8;
  sg_s : u8; sg_l : u8; sg_g : u8; sg_avl : u8; sg_unusable : u8
}.

Record KvmSregs := MkSregs {
  sr_cs : KvmSegment; sr_ds : KvmSegment; sr_es : KvmSegment; sr_fs : KvmSegment; sr_gs : KvmSegment;
  sr_ss : KvmSegment; sr_tr : KvmSegment; sr_ldt : KvmSegment; sr_gdt : u64 * u16; sr_idt : u64 * u16;
  sr_cr0 : u64; sr_cr2 : u64; sr_cr3 : u64; sr_cr4 : u64; sr_cr8 : u64; sr_efer : u64; sr_apic_base : u64;
  sr_interrupt_bitmap : list u64
}.

(** [KvmRegs]; the registers not named here are zero. *)
Record KvmRegs := MkRegs { r_rip : u64; r_rsp : u64; r_rsi : u64; r_rbx : u64; r_rflags : u64 }.

Definition GDT : u64 := 0xb000.
Definition TSS : u64 := 0xc000.
Definition TSS_LIMIT : u64 := 103.

(** A TSS descriptor of type [t]. *)
Definition tss_desc (t : N) : u64 :=
  N.lor (N.lor (N.lor (N.lor (N.land TSS_LIMIT 0xffff) (N.shiftl (N.land TSS 0xffffff) 16)) (N.shiftl t 40)) (N.shiftl 1 47))
    (N.shiftl (N.land (N.shiftr TSS 24) 0xff) 56).

Definition gdt64 : outcome bytes :=
  build 40 (put_each [(8, le_bytes 8 0x00af9b000000ffff); (16, le_bytes 8 0x00cf93000000ffff);
                      (24, le_bytes 8 (tss_desc 0x9)); (32, le_bytes 8 (N.shiftr TSS 32))]).
Definition gdt32 : outcome bytes :=
  build 32 (put_each [(8, le_bytes 8 0x00cf9b000000ffff); (16, le_bytes 8 0x00cf93000000ffff); (24, le_bytes 8 (tss_desc 0xb))]).

Definition data_segment : KvmSegment := MkSeg 0 0xffffffff 0x10 3 1 0 1 1 0 1 0 0.
Definition ldt_segment : KvmSegment := MkSeg 0 0xffffffff 0 3 0 0 1 1 0 1 0 1.
Definition tr_segment : KvmSegment := MkSeg TSS 103 0x18 11 1 0 0 0 0 0 0 0.
Definition code64_segment : KvmSegment := MkSeg 0 0xffffffff 0x08 11 1 0 0 1 1 1 0 0.
Definition code32_segment : KvmSegment := MkSeg 0 0xffffffff 0x08 0xb 1 0 1 1 0 1 0 0.

Definition APIC_BASE : u64 := N.lor (N.lor 0xfee00000 (N.shiftl 1 11)) (N.shiftl 1 8).

(** The answers of [KVM_GET_SREGS], [KVM_SET_SREGS] and [KVM_SET_REGS]. *)
Record VcpuIo := MkIo { get_sregs : option KvmSregs; set_sregs_ok : bool; set_regs_ok : bool }.

Definition set_vcpu (io : VcpuIo) (sregs : KvmSregs -> KvmSregs) (regs : KvmRegs) : M GuestMemory (KvmSregs * KvmRegs) :=
  let! s := ok_or (get_sregs io) Hypervisor in
  if negb (set_sregs_ok io) then throw Hypervisor
  else if negb (set_regs_ok io) then throw Hypervisor
  else ret (sregs s, regs).

Definition setup_long_mode (io : VcpuIo) (rip rsp cr3 rsi : u64) : M GuestMemory (KvmSregs * KvmRegs) :=
  do! write_at TSS (repeat 0 128) in
  let! gdt := lift gdt64 in
  do! write_at GDT gdt in
  set_vcpu io (fun s => MkSregs code64_segment data_segment data_segment data_segment data_segment data_segment tr_segment
    ldt_segment (GDT, 39) (0, 0) 0x80050033 (sr_cr2 s) cr3 0x20 (sr_cr8 s) 0x500 APIC_BASE (sr_interrupt_bitmap s))
    (MkRegs rip rsp rsi 0 2).

Definition setup_pvh_entry (io : VcpuIo) (rip rbx : u64) : M GuestMemory (KvmSregs * KvmRegs) :=
  do! write_at TSS (repeat 0 128) in
  let! gdt := lift gdt32 in
  do! write_at GDT gdt in
  set_vcpu io (fun s => MkSregs code32_segment data_segment data_segment data_segment data_segment data_segment tr_segment
    ldt_segment (GDT, 31) (0, 0) 1 (sr_cr2 s) 0 0 (sr_cr8 s) 0 APIC_BASE (sr_interrupt_bitmap s))
    (MkRegs rip 0 0 rbx 2).

(** How [run_until] enters the guest, not from a snapshot. *)
Definition enter_guest (io : VcpuIo) (info : BootInfo) : M GuestMemory (KvmSregs * KvmRegs) :=
  if firmware_reset info then setup_pvh_entry io (entry_rip info) 0
  else match pvh_start_info_gpa info with
       | Some si => setup_pvh_entry io (entry_rip info) si
       | None => setup_long_mode io (entry_rip info) GUEST_STACK 0x8000 (default 0 (boot_params_gpa info))
       end.

(** ** The four-level page walk *)

Definition present (e : N) : bool := N.testbit e 0.
Definition large (e : N) : bool := N.testbit e 7.
Definition frame_of (e : N) : N := N.land e 0x000ffffffffff000.

(** Where a linear address of 48 bits is mapped by the tables at [cr3]. *)
Definition level_index (l va : N) : N := (va / 2 ^ (12 + 9 * l)) mod 512.
Definition table_entry (r : reader) (t i : N) : option N :=
  e ← from_le <$> r (t + 8 * i) 8; if present e then Some e else None.
Definition page_walk (r : reader) (cr3 va : N) : option N :=
  e4 ← table_entry r cr3 (level_index 3 va);
  e3 ← table_entry r (frame_of e4) (level_index 2 va);
  if large e3 then Some (frame_of e3 + va mod 2 ^ 30)
  else
    e2 ← table_entry r (frame_of e3) (level_index 1 va);
    if large e2 then Some (frame_of e2 + va mod 2 ^ 21)
    else
      e1 ← table_entry r (frame_of e2) (level_index 0 va);
      Some (frame_of e1 + va mod 2 ^ 12).

(** The identity the boot code needs: the first and the fourth GiB. *)
Definition identity_mapped (va : N) : bool := (va <? 2 ^ 30) || ((3 * 2 ^ 30 <=? va) && (va <? 2 ^ 32)).

Definition holds_at (m : GuestMemory) (g : N) (b : bytes) : Prop := read_at g (lenN b) m = (Ok b, m).

(** A RAM that holds the four tables. *)
Record paged (m : GuestMemory) : Prop := {
  pg_pml4 : exists t, pml4_table = Ok t /\ holds_at m PML4 t;
  pg_pdpt : exists t, pdpt_table = Ok t /\ holds_at m PDPT t;
  pg_pd0 : exists t, pd_table 0 = Ok t /\ holds_at m PD0 t;
  pg_pd3 : exists t, pd_table (N.shiftl 3 30) = Ok t /\ holds_at m PD3 t
}.

Definition entry_at (t : bytes) (i : N) : N := from_le (slice (N.to_nat (8 * i)) 8 t).

Lemma idx512_spec i : i < 512 -> i ∈ idx512.
Proof. intros Hi. apply list_elem_of_fmap. exists (N.to_nat i). split; [lia|]. apply elem_of_seq. lia. Qed.

Lemma all_idx512 (P : N -> bool) : forallb P idx512 = true -> forall i, i < 512 -> P i = true.
Proof. rewrite forallb_forall. intros H i Hi. apply H, list_elem_of_In. by apply idx512_spec. Qed.

(** What a table of 512 entries holds, checked entry by entry. *)
Definition table_is (o : outcome bytes) (f : N -> N) : bool :=
  match o with Ok t => (length t =? 4096)%nat && forallb (fun i => entry_at t i =? f i) idx512 | _ => false end.

Lemma table_is_spec o f : table_is o f = true ->
  exists t, o = Ok t /\ lenN t = 4096 /\ forall i, i < 512 -> entry_at t i = f i.
Proof.
  destruct o as [t|e| |]; try done. simpl. intros H. apply andb_true_iff in H as [Hl He]. apply Nat.eqb_eq in Hl.
  exists t. split_and!; [done|unfold lenN; by rewrite Hl|]. intros i Hi. by apply N.eqb_eq, (all_idx512 (fun i => entry_at t i =? f i)).
Qed.

Definition pml4_entry (i : N) : N := if i =? 0 then N.lor PDPT 3 else 0.
Definition pdpt_entry (i : N) : N := if i =? 0 then N.lor PD0 3 else if i =? 3 then N.lor PD3 3 else 0.

Lemma pml4_is : table_is pml4_table pml4_entry = true.
Proof. vm_compute. reflexivity. Qed.
Lemma pdpt_is : table_is pdpt_table pdpt_entry = true.
Proof. vm_compute. reflexivity. Qed.
Lemma pd0_is : table_is (pd_table 0) (pd_entry 0) = true.
Proof. vm_compute. reflexivity. Qed.
Lemma pd3_is : table_is (pd_table (N.shiftl 3 30)) (pd_entry (N.shiftl 3 30)) = true.
Proof. vm_compute. reflexivity. Qed.

#[global] Opaque pml4_table pdpt_table pd_table.

Lemma table_entry_ok m g o f i t : table_is o f = true -> o = Ok t -> holds_at m g t -> i < 512 ->
  table_entry (rd m) g i = if present (f i) then Some (f i) else None.
Proof.
  intros Ht Ho Hh Hi. apply table_is_spec in Ht as (t' & Ho' & Hl & He). rewrite Ho in Ho'. injection Ho' as <-.
  unfold table_entry. rewrite (read_at_sub g t m (g + 8 * i) 8 Hh) by lia. cbn [fmap option_fmap option_map mbind option_bind].
  replace (g + 8 * i - g) with (8 * i) by lia. change (N.to_nat 8) with 8%nat. fold (entry_at t i). by rewrite He.
Qed.

Lemma pd_entry_parts base : base = 0 \/ base = N.shiftl 3 30 -> forall i, i < 512 ->
  present (pd_entry base i) && large (pd_entry base i) && (frame_of (pd_entry base i) =? base + i * 2 ^ 21) = true.
Proof. intros [-> | ->]; apply all_idx512; vm_compute; reflexivity. Qed.

Lemma level_index_lt l va : level_index l va < 512.
Proof. unfold level_index. by apply N.mod_lt. Qed.

(** The indices of an address, and where it lies. *)
Lemma identity_indices va : va < 2 ^ 48 ->
  identity_mapped va = (level_index 3 va =? 0) && ((level_index 2 va =? 0) || (level_index 2 va =? 3)).
Proof.
  unfold identity_mapped, level_index. change (2 ^ (12 + 9 * 3)) with 0x8000000000. change (2 ^ (12 + 9 * 2)) with 0x40000000.
  change (2 ^ 30) with 0x40000000. change (3 * 0x40000000) with 0xc0000000. change (2 ^ 32) with 0x100000000. change (2 ^ 48) with 0x1000000000000.
  intros Hva. apply eq_true_iff_eq. rewrite !andb_true_iff, !orb_true_iff, !andb_true_iff, !N.ltb_lt, !N.eqb_eq, N.leb_le. dlia.
Qed.

Lemma identity_offset base va : identity_mapped va = true -> level_index 2 va * 2 ^ 30 = base ->
  base + level_index 1 va * 2 ^ 21 + va mod 2 ^ 21 = va.
Proof.
  unfold identity_mapped, level_index. change (2 ^ (12 + 9 * 1)) with 0x200000. change (2 ^ (12 + 9 * 2)) with 0x40000000.
  change (2 ^ 30) with 0x40000000. change (3 * 0x40000000) with 0xc0000000. change (2 ^ 32) with 0x100000000. change (2 ^ 21) with 0x200000.
  rewrite orb_true_iff, andb_true_iff, !N.ltb_lt, N.leb_le. dlia.
Qed.

(** The walk through one of the two directories. *)
Lemma directory_walk m base g t va : base = 0 \/ base = N.shiftl 3 30 ->
  pd_table base = Ok t -> holds_at m g t -> identity_mapped va = true -> level_index 2 va * 2 ^ 30 = base ->
  (e2 ← table_entry (rd m) g (level_index 1 va);
   if large e2 then Some (frame_of e2 + va mod 2 ^ 21)
   else e1 ← table_entry (rd m) (frame_of e2) (level_index 0 va); Some (frame_of e1 + va mod 2 ^ 12)) = Some va.
Proof.
  intros Hb Ht Hh Hid Hi. assert (table_is (pd_table base) (pd_entry base) = true) as Hp by (destruct Hb as [-> | ->]; [apply pd0_is|apply pd3_is]).
  rewrite (table_entry_ok m g _ _ _ t Hp Ht Hh) by apply level_index_lt.
  pose proof (pd_entry_parts base Hb _ (level_index_lt 1 va)) as Hq. rewrite !andb_true_iff, N.eqb_eq in Hq. destruct Hq as [[-> Hl] Hf].
  cbn [mbind option_bind]. rewrite Hl, Hf. f_equal. by apply identity_offset.
Qed.

Lemma paged_walk m va : paged m -> va < 2 ^ 48 ->
  page_walk (rd m) PML4 va = if identity_mapped va then Some va else None.
Proof.
  intros [(t4 & E4 & H4) (t3 & E3 & H3) (t0 & E0 & H0) (tt3 & Et3 & Ht3)] Hva. unfold page_walk.
  pose proof (identity_indices va Hva) as Hid.
  rewrite (table_entry_ok m PML4 _ _ _ t4 pml4_is E4 H4) by apply level_index_lt.
  unfold pml4_entry. destruct (N.eqb_spec (level_index 3 va) 0) as [Hz|Hz]; [|by rewrite Hid].
  change (present (N.lor PDPT 3)) with true. cbn [mbind option_bind andb] in *. change (frame_of (N.lor PDPT 3)) with PDPT.
  rewrite (table_entry_ok m PDPT _ _ _ t3 pdpt_is E3 H3) by apply level_index_lt.
  unfold pdpt_entry. destruct (N.eqb_spec (level_index 2 va) 0) as [H20|H20]; [|destruct (N.eqb_spec (level_index 2 va) 3) as [H23|H23]].
  - change (present (N.lor PD0 3)) with true. cbn [mbind option_bind orb] in *. change (large (N.lor PD0 3)) with false.
    change (frame_of (N.lor PD0 3)) with PD0. cbv iota. rewrite Hid. apply (directory_walk m 0 PD0 t0 va (or_introl eq_refl) E0 H0 Hid). by rewrite H20.
  - change (present (N.lor PD3 3)) with true. cbn [mbind option_bind orb] in *. change (large (N.lor PD3 3)) with false.
    change (frame_of (N.lor PD3 3)) with PD3. cbv iota. rewrite Hid. apply (directory_walk m (N.shiftl 3 30) PD3 tt3 va (or_intror eq_refl) Et3 Ht3 Hid). by rewrite H23.
  - by rewrite Hid.
Qed.

(** ** What a booted kernel reads *)

Record BootView := MkView { bv_cmdline : bytes; bv_initrd : bytes; bv_map : list MapEntry }.

Definition read_le (r : reader) (g n : N) : option N := from_le <$> r g n.

Definition read_entry (r : reader) (g : N) : option MapEntry :=
  a ← read_le r g 8; s ← read_le r (g + 8) 8; t ← read_le r (g + 16) 4; Some (MkMap a s t).

Fixpoint read_entries (r : reader) (g : N) (n : nat) : option (list MapEntry) :=
  match n with
  | O => Some []
  | S n => e ← read_entry r g; l ← read_entries r (g + 20) n; Some (e :: l)
  end.

(** The zero page at [zp], followed as the x86 boot protocol says. *)
Definition boot_view (r : reader) (zp : N) : option BootView :=
  cp ← read_le r (zp + 0x228) 4;
  cn ← read_le r (zp + 0x238) 4;
  cmdline ← r cp cn;
  ip ← read_le r (zp + 0x218) 4;
  il ← read_le r (zp + 0x21c) 4;
  initrd ← r ip il;
  n ← read_le r (zp + 0x1e8) 1;
  map ← read_entries r (zp + 0x2d0) (N.to_nat n);
  Some (MkView cmdline initrd map).

(** A byte of the [n]-byte encoding of a number, one by one. *)
Ltac explode l H :=
  lazymatch type of H with
  | _ = O => apply nil_length_inv in H; subst l
  | _ => destruct l as [|? l]; [discriminate H|cbn [length] in H; apply Nat.succ_inj in H; explode l H]
  end.
Ltac split_le n v :=
  let l := fresh "l" in let H := fresh "H" in
  pose proof (length_le_bytes n v) as H; generalize dependent (le_bytes n v); intros l H; explode l H.

(** The fields of the zero page, for RAM that reaches past 1 MiB. *)
Definition page_field (p : bytes) (i n : nat) : N := from_le (slice i n p).

Definition full_map (hi : N) : list MapEntry :=
  [MkMap 0 SYSTEM_MEM_START MAP_RAM; MkMap SYSTEM_MEM_START SYSTEM_MEM_SIZE MAP_RESERVED;
   MkMap PCI_MMCONFIG_START PCI_MMCONFIG_SIZE MAP_RESERVED; MkMap HIMEM_START hi MAP_RAM].

Lemma raw_entries_full n : HIMEM_START < n -> raw_entries n = full_map (n - HIMEM_START).
Proof.
  intros Hn. unfold raw_entries, full_map. rewrite (proj2 (N.ltb_lt _ _) Hn).
  assert (SYSTEM_MEM_START <? n = true) as -> by (apply N.ltb_lt; unfold SYSTEM_MEM_START, HIMEM_START in *; lia).
  rewrite N.min_l by (unfold SYSTEM_MEM_START, HIMEM_START in *; lia).
  rewrite N.min_l by (unfold SYSTEM_MEM_SIZE, SYSTEM_MEM_START, RSDP_ADDR, HIMEM_START in *; lia). done.
Qed.

Lemma zero_page_fields cl il hi : exists p, zero_page cl il (full_map hi) = Ok p /\ lenN p = 4096 /\
  slice 0x228 4 p = le_bytes 4 CMDLINE_GPA /\ slice 0x238 4 p = le_bytes 4 (U.add 32 cl 1) /\
  slice 0x218 4 p = (if 0 <? il then le_bytes 4 INITRD_ADDR else repeat 0 4) /\
  slice 0x21c 4 p = (if 0 <? il then le_bytes 4 il else repeat 0 4) /\
  slice 0x1e8 1 p = [4] /\
  slice 0x2d0 80 p = concat (map entry_bytes (full_map hi)).
Proof.
  unfold zero_page, full_map, entry_bytes, put_entry. cbn [imap map concat compose e_addr e_size e_type app].
  generalize (U.add 32 cl 1). intros cl'. destruct (0 <? il).
  - split_le 4%nat cl'. split_le 4%nat il. split_le 8%nat hi. eexists. split; [vm_compute; reflexivity|]. split_and!; vm_compute; reflexivity.
  - split_le 4%nat cl'. split_le 8%nat hi. eexists. split; [vm_compute; reflexivity|]. split_and!; vm_compute; reflexivity.
Qed.

(** ** Loading a raw kernel *)

Lemma holds_keep F m m' g b : mem_frame F m m' -> (forall a, in_range g (lenN b) a -> ~ F a) -> holds_at m g b -> holds_at m' g b.
Proof. intros Hf HF. by apply (read_at_keep F). Qed.

Lemma holds_rd m g b : holds_at m g b -> rd m g (lenN b) = Some b.
Proof. intros Hh. unfold rd. by rewrite Hh. Qed.

Lemma holds_slice m g b i n : holds_at m g b -> i + n <= lenN b -> rd m (g + i) n = Some (slice (N.to_nat i) (N.to_nat n) b).
Proof. intros Hh Hi. rewrite (read_at_sub g b m (g + i) n Hh) by lia. by replace (g + i - g) with i by lia. Qed.

Lemma install_len ts m m' : install ts m = (Ok tt, m') -> mem_len m' = mem_len m.
Proof.
  revert m. induction ts as [|[g b] ts IH]; intros m E; [by injection E as <-|]. cbn [install] in E. unfold bind in E. rewrite write_at_eq in E.
  destruct (in_ram m g (lenN b)) eqn:Er; [|done]. apply IH in E. rewrite E. unfold mem_len, lenN. simpl. f_equal.
  apply length_splice. pose proof (in_ram_nat _ _ _ Er). unfold lenN in *. lia.
Qed.

Lemma install_snoc ts g b m : install (ts ++ [(g, b)]) m = (do! install ts in write_at g b) m.
Proof.
  revert m. induction ts as [|[g' b'] ts IH]; intros m; cbn [install app].
  - unfold bind, ret. by destruct (write_at g b m) as [[[]|?| |] ?].
  - unfold bind in *. destruct (write_at g' b' m) as [[[]|?| |] m1]; [apply IH|done..].
Qed.

(** The page tables. *)
Definition in_tables_of (ts : list (u64 * N)) (a : N) : Prop := exists g n, (g, n) ∈ ts /\ in_range g n a.

Lemma identity_tables m : PD3 + 4096 <= mem_len m < 2 ^ 64 -> exists m',
  build_identity_page_tables m = (Ok PML4, m') /\ paged m' /\
  mem_frame (fun a => in_range PML4 0x3000 a \/ in_range PD3 0x1000 a) m m'.
Proof.
  intros Hm. destruct (table_is_spec _ _ pml4_is) as (t4 & E4 & L4 & _). destruct (table_is_spec _ _ pdpt_is) as (t3 & E3 & L3 & _).
  destruct (table_is_spec _ _ pd0_is) as (t0 & E0 & L0 & _). destruct (table_is_spec _ _ pd3_is) as (td & Ed & Ld & _).
  destruct (install_spec [(PML4, t4); (PDPT, t3); (PD0, t0); (PD3, td)] m) as (m' & Ei & Hf & Hr).
  { repeat constructor; rewrite in_ram_spec, ?L4, ?L3, ?L0, ?Ld; unfold PML4, PDPT, PD0, PD3 in *; lia. }
  { cbn [apart_tables clear_of forallb]. rewrite L4, L3, L0. reflexivity. }
  exists m'. split_and!.
  - unfold build_identity_page_tables, lift, bind, ret. rewrite E4, E3, E0, Ed. cbn [install] in Ei. unfold bind, ret in Ei.
    repeat (destruct (write_at _ _ _) as [[[]|?| |] ?]; [|done..]). by injection Ei as <-.
  - split; [exists t4; split; [exact E4|]|exists t3; split; [exact E3|]|exists t0; split; [exact E0|]|exists td; split; [exact Ed|]];
      apply Hr; rewrite !elem_of_cons; tauto.
  - eapply mem_frame_mono; [|exact Hf]. intros a (g & b & Hin & Ha). unfold in_range in *.
    repeat (apply elem_of_cons in Hin as [[= -> ->]|Hin]; [rewrite ?L4, ?L3, ?L0, ?Ld in Ha; clear -Ha; unfold PML4, PDPT, PD0, PD3 in *; lia|]). exfalso. exact (not_elem_of_nil _ Hin).
Qed.

Lemma write_len g b m u m' : write_at g b m = (Ok u, m') -> mem_len m' = mem_len m.
Proof. intros E. apply (install_len [(g, b)]). cbn [install]. unfold bind. by rewrite E. Qed.

(** Where the raw path writes. *)
Definition raw_region (a : N) : Prop :=
  in_range BOOT_PARAMS_ADDR 0x1000 a \/ in_range CMDLINE_GPA (MPFLOAT_GPA - CMDLINE_GPA) a \/ KERNEL_LOAD_ADDR <= a.

Ltac boot_consts := unfold raw_region, in_range, PML4, PDPT, PD0, PD3, GDT, TSS, KERNEL_LOAD_ADDR, INITRD_ADDR, CMDLINE_GPA, BOOT_PARAMS_ADDR, MPFLOAT_GPA in *.

Section RawBoot.
Context (read_file : rstr -> option bytes) (c : VmConfig) (kernel initrd : bytes).
Let cmdline : bytes := as_bytes (c_cmdline c).

(** The files are there, and what is loaded fits and does not overlap: the
    command line ends below the MP table, the kernel below the initrd. *)
Record raw_fits (len : N) : Prop := {
  rf_kernel : exists p, c_kernel c = Some p /\ read_file p = Some kernel;
  rf_initrd : match c_initrd c with Some p => read_file p | None => Some [] end = Some initrd;
  rf_cmdline : CMDLINE_GPA + lenN cmdline + 1 <= MPFLOAT_GPA;
  rf_apart : KERNEL_LOAD_ADDR + lenN kernel <= INITRD_ADDR;
  rf_end : INITRD_ADDR + lenN initrd <= len;
  rf_len : len < 2 ^ 32
}.

Definition raw_tables (page : bytes) : list (u64 * bytes) :=
  [(KERNEL_LOAD_ADDR, kernel); (INITRD_ADDR, initrd); (CMDLINE_GPA, cmdline ++ [0]); (BOOT_PARAMS_ADDR, page)].

Lemma write_nil g m : g <= mem_len m < 2 ^ 64 -> write_at g [] m = (Ok tt, m).
Proof.
  intros Hg. rewrite write_at_eq. assert (in_ram m g (lenN (@nil N)) = true) as -> by (apply in_ram_spec; change (lenN (@nil N)) with 0; lia).
  destruct m as [r]. unfold splice. simpl. by rewrite Nat.add_0_r, take_drop.
Qed.

Lemma load_initrd_ok m : raw_fits (mem_len m) ->
  load_initrd read_file c m = (let! u := write_at INITRD_ADDR initrd in ret (lenN initrd)) m.
Proof.
  intros [_ Hi _ _ He Hl]. unfold load_initrd, fs_read. assert (U.wrap 32 (lenN initrd) = lenN initrd) as Hw by (apply wrap_small; unfold in_u; lia).
  destruct (c_initrd c) as [p|].
  - rewrite Hi. unfold bind, ok_or, ret. rewrite Hw. by destruct (write_at _ _ _) as [[[]|?| |] ?].
  - injection Hi as <-. unfold bind. rewrite write_nil; [done|]. pose proof (N.pow_lt_mono_r 2 32 64 ltac:(done) ltac:(done)). lia.
Qed.

Lemma load_kernel_ok m : raw_fits (mem_len m) -> load_raw_kernel read_file c m = write_at KERNEL_LOAD_ADDR kernel m.
Proof.
  intros [(p & Hp & Hk) _ _ Ha He Hl]. unfold load_raw_kernel, fs_read. rewrite Hp, Hk. unfold bind, ok_or, gets, ret.
  assert (mem_len m <? U.add 64 (lenN kernel) KERNEL_LOAD_ADDR = false) as ->; [|done]. apply N.ltb_ge. unfold U.add. rewrite wrap_small; [lia|].
  unfold in_u. unfold KERNEL_LOAD_ADDR, INITRD_ADDR in *. lia.
Qed.

(** The raw path is the installation of its four pieces. *)
Lemma prepare_raw_installs m : raw_fits (mem_len m) -> exists page,
  zero_page (lenN cmdline) (lenN initrd) (full_map (mem_len m - HIMEM_START)) = Ok page /\ lenN page = 4096 /\
  prepare_linux_raw read_file c m =
    (do! install (raw_tables page) in ret (MkBoot KERNEL_LOAD_ADDR (Some BOOT_PARAMS_ADDR) None false)) m.
Proof.
  intros Hf. destruct (zero_page_fields (lenN cmdline) (lenN initrd) (mem_len m - HIMEM_START)) as (page & Ep & Lp & _).
  exists page. split_and!; [done..|]. unfold prepare_linux_raw, raw_tables. cbn [install]. unfold bind, ret. rewrite (load_kernel_ok m Hf).
  destruct (write_at KERNEL_LOAD_ADDR kernel m) as [[[]|?| |] m1] eqn:E1; [|done..]. apply write_len in E1 as L1.
  rewrite (load_initrd_ok m1) by (by rewrite L1). unfold bind, ret.
  destruct (write_at INITRD_ADDR initrd m1) as [[[]|?| |] m2] eqn:E2; [|done..]. apply write_len in E2 as L2.
  unfold write_linux_cmdline. fold cmdline. destruct (write_at CMDLINE_GPA (cmdline ++ [0]) m2) as [[[]|?| |] m3] eqn:E3; [|done..].
  apply write_len in E3 as L3. unfold write_minimal_boot_params, gets, lift, bind. rewrite L3, L2, L1.
  destruct Hf as [_ _ Hc Ha He Hl]. rewrite raw_entries_full by (unfold HIMEM_START, INITRD_ADDR in *; lia).
  fold cmdline. rewrite wrap_small, Ep by (unfold in_u, CMDLINE_GPA, MPFLOAT_GPA in *; lia).
  by destruct (write_at BOOT_PARAMS_ADDR page m3) as [[[]|?| |] m4].
Qed.


(** It leaves the four pieces in RAM and touches nothing below but the zero page
    and the room of the command line. *)
Lemma prepare_raw_holds m : raw_fits (mem_len m) -> exists m' page,
  prepare_linux_raw read_file c m = (Ok (MkBoot KERNEL_LOAD_ADDR (Some BOOT_PARAMS_ADDR) None false), m') /\
  zero_page (lenN cmdline) (lenN initrd) (full_map (mem_len m - HIMEM_START)) = Ok page /\ lenN page = 4096 /\
  (forall g b, (g, b) ∈ raw_tables page -> holds_at m' g b) /\ mem_frame raw_region m m'.
Proof.
  intros Hf. destruct (prepare_raw_installs m Hf) as (page & Ep & Lp & Ei). destruct Hf as [_ _ Hc Ha He Hl].
  assert (lenN (cmdline ++ [0]) = lenN cmdline + 1) as Lc by (unfold lenN; rewrite length_app; simpl; lia).
  destruct (install_spec (raw_tables page) m) as (m' & Ew & Hfr & Hr).
  { unfold raw_tables. repeat constructor; rewrite in_ram_spec, ?Lp, ?Lc; boot_consts; lia. }
  { unfold raw_tables. cbn [apart_tables clear_of forallb]. rewrite Lp, Lc, !andb_true_iff, !orb_true_iff, !N.leb_le. boot_consts.
    split_and!; first [done|left; lia|right; lia]. }
  exists m', page. split_and!; [|done|done|done|].
  - rewrite Ei. unfold bind. by rewrite Ew.
  - eapply mem_frame_mono; [|exact Hfr]. intros a (g & b & Hin & Hra). unfold raw_tables in Hin.
    clear Ei Ew Hfr Hr Ep. rewrite !elem_of_cons in Hin.
    destruct Hin as [E|[E|[E|[E|[]%not_elem_of_nil]]]]; injection E as -> ->; rewrite ?Lp, ?Lc in Hra; boot_consts; lia.
Qed.

Lemma read_le_ok m g p i n v : holds_at m g p -> lenN p = 4096 -> i + n <= 4096 ->
  slice (N.to_nat i) (N.to_nat n) p = v -> read_le (rd m) (g + i) n = Some (from_le v).
Proof. intros Hh Hl Hi <-. unfold read_le. rewrite (holds_slice m g p i n Hh) by lia. done. Qed.

(** Reading the table of memory ranges back. *)
Lemma read_entry_ok m g e : holds_at m g (entry_bytes e) -> in_u 64 (e_addr e) -> in_u 64 (e_size e) -> in_u 32 (e_type e) ->
  read_entry (rd m) g = Some e.
Proof.
  intros Hh H1 H2 H3. destruct e as [a s t]. unfold read_entry, read_le, entry_bytes in *. cbn [e_addr e_size e_type] in *.
  assert (lenN (le_bytes 8 a ++ le_bytes 8 s ++ le_bytes 4 t) = 20) as Hl by (unfold lenN; by rewrite !length_app, !length_le_bytes).
  replace g with (g + 0) by lia. rewrite (holds_slice _ _ _ 0 8 Hh) by (rewrite Hl; lia). replace (g + 0 + 8) with (g + 8) by lia. replace (g + 0 + 16) with (g + 16) by lia.
  rewrite (holds_slice _ _ _ 8 8 Hh), (holds_slice _ _ _ 16 4 Hh) by (rewrite Hl; lia). cbn [fmap option_fmap option_map mbind option_bind].
  pose proof (length_le_bytes 8 a) as La. pose proof (length_le_bytes 8 s) as Ls. pose proof (length_le_bytes 4 t) as Lt.
  assert (slice (N.to_nat 0) (N.to_nat 8) (le_bytes 8 a ++ le_bytes 8 s ++ le_bytes 4 t) = le_bytes 8 a) as ->.
  { unfold slice. change (N.to_nat 0) with 0%nat. change (N.to_nat 8) with 8%nat. rewrite drop_0, take_app_le by lia. apply take_ge. lia. }
  assert (slice (N.to_nat 8) (N.to_nat 8) (le_bytes 8 a ++ le_bytes 8 s ++ le_bytes 4 t) = le_bytes 8 s) as ->.
  { unfold slice. change (N.to_nat 8) with 8%nat. rewrite drop_app_ge, La by lia. rewrite Nat.sub_diag, drop_0, take_app_le by lia. apply take_ge. lia. }
  assert (slice (N.to_nat 16) (N.to_nat 4) (le_bytes 8 a ++ le_bytes 8 s ++ le_bytes 4 t) = le_bytes 4 t) as ->.
  { unfold slice. change (N.to_nat 16) with 16%nat. change (N.to_nat 4) with 4%nat. rewrite drop_app_ge, La by lia. rewrite drop_app_ge, Ls by lia.
    change (16 - 8 - 8)%nat with 0%nat. rewrite drop_0. apply take_ge. lia. }
  by rewrite !from_le_bytes_small.
Qed.

Lemma holds_app m g a b : holds_at m g (a ++ b) -> holds_at m g a /\ holds_at m (g + lenN a) b.
Proof.
  unfold holds_at. rewrite !read_at_eq. assert (lenN (a ++ b) = lenN a + lenN b) as -> by (unfold lenN; rewrite length_app; lia).
  destruct (in_ram m g (lenN a + lenN b)) eqn:E; [|done]. apply in_ram_spec in E. intros Hs. injection Hs as Hs.
  assert (in_ram m g (lenN a) = true) as -> by (apply in_ram_spec; lia). assert (in_ram m (g + lenN a) (lenN b) = true) as -> by (apply in_ram_spec; lia).
  unfold lenN, slice in *. rewrite !N2Nat.inj_add, !Nat2N.id in *. split; f_equal; f_equal.
  - replace (take (length a) _) with (take (length a) (take (length a + length b) (drop (N.to_nat g) (ram m)))) by (rewrite take_take; f_equal; lia).
    rewrite Hs. apply take_app_length.
  - rewrite <- drop_drop, take_drop_commute, Hs. by rewrite drop_app_length.
Qed.

Lemma read_entries_ok m g es : Forall (fun e => in_u 64 (e_addr e) /\ in_u 64 (e_size e) /\ in_u 32 (e_type e)) es ->
  holds_at m g (concat (map entry_bytes es)) -> read_entries (rd m) g (length es) = Some es.
Proof.
  revert g. induction es as [|e es IH]; intros g Hf Hh; [done|]. apply Forall_cons in Hf as [(H1 & H2 & H3) Hf]. cbn [map concat length read_entries] in *.
  apply holds_app in Hh as [Hh Ht]. rewrite (read_entry_ok _ _ _ Hh H1 H2 H3). cbn [mbind option_bind].
  replace (lenN (entry_bytes e)) with 20 in Ht by (unfold lenN, entry_bytes; by rewrite !length_app, !length_le_bytes). by rewrite (IH _ Hf Ht).
Qed.

Lemma holds_sub m g b i n : holds_at m g b -> (i + n <= length b)%nat -> holds_at m (g + N.of_nat i) (slice i n b).
Proof.
  intros Hh Hi. assert (b = take i b ++ slice i n b ++ drop (i + n) b) as Hb.
  { unfold slice. rewrite <- drop_drop, !take_drop. done. }
  rewrite Hb in Hh. apply holds_app in Hh as [_ Hh]. apply holds_app in Hh as [Hh _].
  replace (lenN (take i b)) with (N.of_nat i) in Hh by (unfold lenN; rewrite length_take; f_equal; lia). done.
Qed.

(** Following the zero page finds the command line, the initrd and the map. *)
Lemma boot_view_ok m page hi : CMDLINE_GPA + lenN cmdline + 1 <= MPFLOAT_GPA -> lenN initrd < 2 ^ 32 -> in_u 64 hi ->
  zero_page (lenN cmdline) (lenN initrd) (full_map hi) = Ok page ->
  holds_at m BOOT_PARAMS_ADDR page -> holds_at m CMDLINE_GPA (cmdline ++ [0]) -> holds_at m INITRD_ADDR initrd ->
  boot_view (rd m) BOOT_PARAMS_ADDR = Some (MkView (cmdline ++ [0]) initrd (full_map hi)).
Proof.
  intros Hc Hi Hhi Ep Hp Hcl Hin. destruct (zero_page_fields (lenN cmdline) (lenN initrd) hi) as (p & Ep' & Lp & F1 & F2 & F3 & F4 & F5 & F6).
  rewrite Ep in Ep'. injection Ep' as <-. unfold boot_view.
  assert (lenN (cmdline ++ [0]) = lenN cmdline + 1) as Lc by (unfold lenN; rewrite length_app; simpl; lia).
  rewrite (read_le_ok _ _ _ 0x228 4 _ Hp Lp ltac:(lia) F1), (read_le_ok _ _ _ 0x238 4 _ Hp Lp ltac:(lia) F2). cbn [mbind option_bind].
  rewrite (from_le_bytes_small 4 CMDLINE_GPA) by by_eval. rewrite (from_le_bytes_small 4 (U.add 32 (lenN cmdline) 1)) by apply wrap_range. unfold U.add. rewrite wrap_small by (unfold in_u; boot_consts; lia).
  rewrite <- Lc, (holds_rd _ _ _ Hcl). cbn [mbind option_bind].
  rewrite (read_le_ok _ _ _ 0x218 4 _ Hp Lp ltac:(lia) F3), (read_le_ok _ _ _ 0x21c 4 _ Hp Lp ltac:(lia) F4). cbn [mbind option_bind].
  assert (rd m (from_le (if 0 <? lenN initrd then le_bytes 4 INITRD_ADDR else repeat 0 4))
               (from_le (if 0 <? lenN initrd then le_bytes 4 (lenN initrd) else repeat 0 4)) = Some initrd) as ->.
  { destruct (N.ltb_spec 0 (lenN initrd)) as [Hlt|Hle].
    - rewrite (from_le_bytes_small 4 INITRD_ADDR) by by_eval. rewrite (from_le_bytes_small 4 (lenN initrd)) by exact Hi. by apply holds_rd.
    - change (from_le (repeat 0 4)) with 0. assert (initrd = []) as -> by (destruct initrd; [done|unfold lenN in Hle; simpl in Hle; lia]).
      unfold rd. rewrite read_at_eq. assert (in_ram m 0 0 = true) as -> by (apply in_ram_spec; lia). done. }
  cbn [mbind option_bind]. rewrite (read_le_ok _ _ _ 0x1e8 1 _ Hp Lp ltac:(lia) F5). cbn [mbind option_bind].
  assert (N.to_nat (from_le [4]) = length (full_map hi)) as -> by (vm_compute; reflexivity).
  rewrite (read_entries_ok m (BOOT_PARAMS_ADDR + 0x2d0) (full_map hi)); [done| |].
  - unfold full_map. repeat (apply Forall_cons; split; [split_and!; cbn [e_addr e_size e_type]; first [exact Hhi|lazy; reflexivity]|]). constructor.
  - rewrite <- F6. apply (holds_sub m BOOT_PARAMS_ADDR page 0x2d0 80 Hp). unfold lenN in Lp. lia.
Qed.
End RawBoot.

(** ** Entering the guest *)

(** The segment a descriptor stands for. *)
Definition field (d lo n : N) : N := N.land (N.shiftr d lo) (N.ones n).
Definition segment_of (sel d : N) : KvmSegment :=
  let limit := field d 0 16 + field d 48 4 * 2 ^ 16 in
  MkSeg (field d 16 24 + field d 56 8 * 2 ^ 24) (if field d 55 1 =? 1 then limit * 4096 + 4095 else limit) sel
    (field d 40 4) (field d 47 1) (field d 45 2) (field d 54 1) (field d 44 1) (field d 53 1) (field d 55 1) (field d 52 1) 0.

(** What a selector loads from the descriptor table. *)
Definition load_segment (r : reader) (gdt : u64 * u16) (sel : u16) : option KvmSegment :=
  if sel + 7 <=? gdt.2 then segment_of sel <$> read_le r (gdt.1 + sel) 8 else None.

Lemma gdt64_ok : exists t, gdt64 = Ok t /\ lenN t = 40 /\
  segment_of 0x08 (from_le (slice 8 8 t)) = code64_segment /\ segment_of 0x10 (from_le (slice 16 8 t)) = data_segment.
Proof. eexists. split; [vm_compute; reflexivity|]. by split_and!. Qed.

(** 64-bit mode: protection and paging on, physical address extension, long mode
    enabled and active, and a present 64-bit code segment of ring 0. *)
Definition long_mode (s : KvmSregs) : bool :=
  N.testbit (sr_cr0 s) 0 && N.testbit (sr_cr0 s) 31 && N.testbit (sr_cr4 s) 5 && N.testbit (sr_efer s) 8 && N.testbit (sr_efer s) 10 &&
  (sg_l (sr_cs s) =? 1) && (sg_db (sr_cs s) =? 0) && (sg_present (sr_cs s) =? 1) && (sg_dpl (sr_cs s) =? 0).

Lemma long_mode_ok m io s0 rip rsp cr3 rsi : TSS + 128 <= mem_len m < 2 ^ 64 ->
  get_sregs io = Some s0 -> set_sregs_ok io = true -> set_regs_ok io = true ->
  exists m' sregs, setup_long_mode io rip rsp cr3 rsi m = (Ok (sregs, MkRegs rip rsp rsi 0 2), m') /\
    mem_frame (fun a => in_range GDT 40 a \/ in_range TSS 128 a) m m' /\
    long_mode sregs = true /\ sr_cr3 sregs = cr3 /\ sr_cs sregs = code64_segment /\ sr_ds sregs = data_segment /\ sr_gdt sregs = (GDT, 39) /\
    load_segment (rd m') (sr_gdt sregs) 0x08 = Some (sr_cs sregs) /\
    load_segment (rd m') (sr_gdt sregs) 0x10 = Some (sr_ds sregs).
Proof.
  intros Hm H1 H2 H3. destruct gdt64_ok as (t & Et & Lt & S1 & S2).
  destruct (install_spec [(TSS, repeat 0 128); (GDT, t)] m) as (m' & Ei & Hf & Hr).
  { repeat constructor; rewrite in_ram_spec, ?Lt; unfold TSS, GDT, lenN in *; rewrite ?repeat_length; lia. }
  { cbn [apart_tables clear_of forallb]. rewrite Lt. reflexivity. }
  assert (holds_at m' GDT t) as Hg by (apply Hr; right; left).
  eexists m', _. split_and!.
  - unfold setup_long_mode, lift, bind. rewrite Et. cbn [install] in Ei. unfold bind, ret in Ei.
    destruct (write_at TSS _ m) as [[[]|?| |] m1]; [|done..]. destruct (write_at GDT t m1) as [[[]|?| |] m2]; [|done..].
    injection Ei as <-. unfold set_vcpu, bind. rewrite H1, H2, H3. reflexivity.
  - eapply mem_frame_mono; [|exact Hf]. intros a (g & b & Hin & Ha). rewrite !elem_of_cons in Hin.
    destruct Hin as [E|[E|[]%not_elem_of_nil]]; injection E as -> ->; [right; exact Ha|left; by rewrite Lt in Ha].
  - reflexivity.
  - reflexivity.
  - reflexivity.
  - reflexivity.
  - reflexivity.
  - unfold load_segment, read_le. cbn [sr_gdt sr_cs fst snd]. change (0x08 + 7 <=? 39) with true. cbv iota. rewrite (holds_slice _ _ _ 8 8 Hg) by (rewrite Lt; lia).
    cbn [fmap option_fmap option_map]. f_equal. exact S1.
  - unfold load_segment, read_le. cbn [sr_gdt sr_ds fst snd]. change (0x10 + 7 <=? 39) with true. cbv iota. rewrite (holds_slice _ _ _ 16 8 Hg) by (rewrite Lt; lia).
    cbn [fmap option_fmap option_map]. f_equal. exact S2.
Qed.

Lemma paged_keep F m m' : mem_frame F m m' ->
  (forall a, in_range PML4 0x3000 a \/ in_range PD3 0x1000 a -> ~ F a) -> paged m -> paged m'.
Proof.
  intros Hf HF [(a4 & A4 & B4) (a3 & A3 & B3) (a0 & A0 & B0) (ad & Ad & Bd)].
  destruct (table_is_spec _ _ pml4_is) as (t4 & T4 & L4 & _). destruct (table_is_spec _ _ pdpt_is) as (t3 & T3 & L3 & _).
  destruct (table_is_spec _ _ pd0_is) as (t0 & T0 & L0 & _). destruct (table_is_spec _ _ pd3_is) as (td & Td & Ld & _).
  assert (a4 = t4) as -> by congruence. assert (a3 = t3) as -> by congruence. assert (a0 = t0) as -> by congruence. assert (ad = td) as -> by congruence.
  split; [exists t4; split; [exact T4|apply (holds_keep F m m' PML4 t4 Hf)]|exists t3; split; [exact T3|apply (holds_keep F m m' PDPT t3 Hf)]
         |exists t0; split; [exact T0|apply (holds_keep F m m' PD0 t0 Hf)]|exists td; split; [exact Td|apply (holds_keep F m m' PD3 td Hf)]];
    first [assumption|intros a Ha; apply HF; rewrite ?L4, ?L3, ?L0, ?Ld in Ha; clear -Ha; unfold in_range, PML4, PDPT, PD0, PD3 in *; lia].
Qed.

Section Ready.
Context (read_file : rstr -> option bytes) (path_exists : rstr -> bool) (view_ok : bool)
        (BzImage_load Elf_load : bytes -> u64 -> M GuestMemory KernelLoaderResult)
        (write_bootparams : boot_params -> u64 -> M GuestMemory unit)
        (write_pvh : hvm_start_info -> list MapEntry -> list (u64 * u64) -> M GuestMemory unit)
        (default_header : setup_header).

Definition boot_guest (io : VcpuIo) (c : VmConfig) : M GuestMemory (KvmSregs * KvmRegs) :=
  let! info := load_guest read_file path_exists view_ok BzImage_load Elf_load write_bootparams write_pvh default_header c in
  enter_guest io info.

Lemma loader_refuses c kernel p m e1 e2 : c_kernel c = Some p -> read_file p = Some kernel ->
  (forall m, BzImage_load kernel HIMEM_START m = (Err e1, m)) -> (forall m, Elf_load kernel HIMEM_START m = (Err e2, m)) ->
  prepare_linux read_file view_ok BzImage_load Elf_load write_bootparams write_pvh default_header c m = prepare_linux_raw read_file c m.
Proof.
  intros Hp Hk H1 H2. unfold prepare_linux, try_ok at 1, prepare_linux_with_loader. rewrite Hp. unfold bind at 1, ok_or, ret at 1.
  destruct view_ok; [|done]. unfold bind at 1, ret at 1, fs_read, as_boot at 1. rewrite Hk. unfold bind at 1, try_ok at 1, ok_or, ret at 1.
  unfold load_kernel, bind at 1, try_ok at 1, ret at 1. rewrite H1. unfold as_boot, try_ok. by rewrite H2.
Qed.

(** C18: for a raw kernel whose pieces fit and do not overlap ([raw_fits]: it ends at or
    below 64 MiB, where the initrd goes, which ends in RAM; the command line ends below
    the MP table; RAM is smaller than 4 GiB), that both loaders of [linux-loader] refuse
    without writing to RAM, and with a KVM that takes the registers, booting gives a vCPU
    in 64-bit mode ([long_mode]) with interrupts off, whose page tables map the first and
    the fourth GiB to themselves and nothing else, whose instruction pointer is at the
    first byte of the kernel, whose segment registers are what the descriptor table in RAM
    holds, and whose zero page leads to the whole command line with its terminator, the
    whole initrd and the memory map; the MP table lists the processors.  A longer kernel
    is accepted and overwritten by the initrd ([raw_overlap_accepted]). *)
Theorem raw_boot_ready io s0 c kernel initrd m e1 e2
    (Hl : c_guest c = Linux) (Hf : raw_fits read_file c kernel initrd (mem_len m))
    (Hbz : forall m, BzImage_load kernel HIMEM_START m = (Err e1, m)) (Helf : forall m, Elf_load kernel HIMEM_START m = (Err e2, m))
    (H1 : get_sregs io = Some s0) (H2 : set_sregs_ok io = true) (H3 : set_regs_ok io = true) :
  exists sregs regs m', boot_guest io c m = (Ok (sregs, regs), m') /\
    long_mode sregs = true /\ r_rflags regs = 2 /\
    (forall va, va < 2 ^ 48 -> page_walk (rd m') (sr_cr3 sregs) va = if identity_mapped va then Some va else None) /\
    rd m' (r_rip regs) (lenN kernel) = Some kernel /\
    load_segment (rd m') (sr_gdt sregs) (sg_selector (sr_cs sregs)) = Some (sr_cs sregs) /\
    load_segment (rd m') (sr_gdt sregs) (sg_selector (sr_ds sregs)) = Some (sr_ds sregs) /\
    boot_view (rd m') (r_rsi regs) =
      Some (MkView (as_bytes (c_cmdline c) ++ [0]) initrd (full_map (mem_len m - HIMEM_START))) /\
    mp_scan (rd m') = Some (mp_expected (clamp_cpus (c_max_cpus c))).
Proof.
  assert (INITRD_ADDR <= mem_len m < 2 ^ 32) as Hm by (destruct Hf; lia).
  destruct (identity_tables m) as (m1 & E1 & Hp1 & F1); [boot_consts; lia|].
  assert (mem_len m1 = mem_len m) as L1 by (by eapply mem_frame_len).
  assert (raw_fits read_file c kernel initrd (mem_len m1)) as Hf1 by (by rewrite L1).
  destruct (prepare_raw_holds read_file c kernel initrd m1 Hf1) as (m2 & page & E2 & Ep & Lp & Hh & F2).
  assert (mem_len m2 = mem_len m) as L2 by (rewrite <- L1; by eapply mem_frame_len).
  destruct (mptable_installs m2 (c_max_cpus c)) as (m3 & t & E3 & F3 & Hmp & Hscan); [boot_consts; lia|].
  assert (mem_len m3 = mem_len m) as L3 by (rewrite <- L2; by eapply mem_frame_len).
  destruct (long_mode_ok m3 io s0 KERNEL_LOAD_ADDR GUEST_STACK 0x8000 BOOT_PARAMS_ADDR) as (m4 & sregs & E4 & F4 & C0 & C1 & C2 & C3 & C4 & C5 & C6); [boot_consts; lia|done..|].
  exists sregs, (MkRegs KERNEL_LOAD_ADDR GUEST_STACK BOOT_PARAMS_ADDR 0 2), m4.
  assert (forall g b, holds_at m2 g b -> (BOOT_PARAMS_ADDR <= g /\ g + lenN b <= GDT \/ PD3 <= g /\ g + lenN b <= MPFLOAT_GPA \/ KERNEL_LOAD_ADDR <= g) ->
    holds_at m4 g b) as Hkeep.
  { intros g b Hb Hg. eapply holds_keep; [exact F4| |eapply holds_keep; [exact F3| |exact Hb]]; intros a Ha Hin; boot_consts; lia. }
  destruct Hf as [(p & Hp & Hk) _ Hc Ha He _]. split_and!.
  - unfold boot_guest, load_guest, prepare, bind. rewrite E1, Hl, (loader_refuses c kernel p m1 e1 e2 Hp Hk Hbz Helf), E2.
    unfold try_ok. rewrite E3. unfold ret, enter_guest. cbn [firmware_reset pvh_start_info_gpa boot_params_gpa entry_rip default]. exact E4.
  - exact C0.
  - reflexivity.
  - rewrite C1. change 0x8000 with PML4. intros va Hva. apply paged_walk; [|exact Hva].
    eapply paged_keep; [exact F4| |eapply paged_keep; [exact F3| |eapply paged_keep; [exact F2| |exact Hp1]]]; intros a' Ha' Hin; boot_consts; lia.
  - cbn [r_rip]. apply holds_rd, Hkeep; [apply Hh; left|]. right; right. reflexivity.
  - rewrite C2 in *. exact C5.
  - rewrite C3 in *. exact C6.
  - cbn [r_rsi]. apply (boot_view_ok c initrd m4 page); [done|lia|unfold in_u; lia|by rewrite L1 in Ep|..].
    + apply Hkeep; [apply Hh; do 3 right; left|]. rewrite Lp. boot_consts. lia.
    + apply Hkeep; [apply Hh; do 2 right; left|]. boot_consts. unfold lenN in *. rewrite length_app. simpl. lia.
    + apply Hkeep; [apply Hh; right; left|]. boot_consts. lia.
  - eapply mp_scan_mono; [|exact Hscan]. apply rd_tables_sound. intros g b Hin. destruct (Hmp g b Hin) as (Hb & R1 & R2).
    eapply holds_keep; [exact F4| |exact Hb]. intros a' Ha' Hin'. boot_consts. lia.
Qed.
End Ready.

(** ** Memory maps *)

Definition listed (t : u32) (es : list MapEntry) (a : N) : Prop :=
  exists e, e ∈ es /\ e_type e = t /\ in_range (e_addr e) (e_size e) a.

Definition entries_apart (e e' : MapEntry) : Prop := e_addr e + e_size e <= e_addr e' \/ e_addr e' + e_size e' <= e_addr e.

Ltac map_consts := unfold listed, entries_apart, in_range, full_map, MAP_RAM, MAP_RESERVED, SYSTEM_MEM_SIZE, SYSTEM_MEM_START, PCI_MMCONFIG_SIZE, PCI_MMCONFIG_START,
  HIMEM_START, RSDP_ADDR, IOAPIC_ADDR, MPFLOAT_GPA, FADT in *; change (N.shiftl 256 20) with 0x10000000 in *.

Lemma three_maps n : HIMEM_START < n -> fill_e820 n = full_map (n - HIMEM_START) /\ pvh_memmap n = full_map (n - HIMEM_START).
Proof.
  intros Hn. unfold fill_e820, pvh_memmap. rewrite (proj2 (N.ltb_lt _ _) Hn).
  assert (SYSTEM_MEM_START <? n = true) as -> by (apply N.ltb_lt; map_consts; lia).
  rewrite !N.min_l by (map_consts; lia). split; [|done]. unfold e820_push. cbn [length app].
  change (SYSTEM_MEM_START =? 0) with false. change (SYSTEM_MEM_SIZE =? 0) with false. change (PCI_MMCONFIG_SIZE =? 0) with false.
  cbn [orb Nat.leb length app]. destruct (N.eqb_spec (n - HIMEM_START) 0); [lia|done].
Qed.

Lemma full_map_ram n a : HIMEM_START < n -> listed MAP_RAM (full_map (n - HIMEM_START)) a <-> a < SYSTEM_MEM_START \/ HIMEM_START <= a < n.
Proof.
  intros Hn. unfold listed, full_map. split.
  - intros (e & He & Ht & Hr). rewrite !elem_of_cons in He.
    destruct He as [->|[->|[->|[->|[]%not_elem_of_nil]]]]; cbn [e_addr e_size e_type] in *; try discriminate Ht;
      unfold in_range, SYSTEM_MEM_START, HIMEM_START in *; lia.
  - intros [Ha|Ha].
    + eexists. split; [left|]. cbn [e_addr e_size e_type]. split; [reflexivity|]. unfold in_range. lia.
    + eexists. split; [do 3 right; left|]. cbn [e_addr e_size e_type]. split; [reflexivity|]. unfold in_range. lia.
Qed.

(** [ForallOrdPairs] of a list of four. *)
Lemma pairs4 {A} (R : A -> A -> Prop) a b c d : ForallOrdPairs R [a; b; c; d] <->
  (R a b /\ R a c /\ R a d) /\ (R b c /\ R b d) /\ R c d.
Proof.
  split.
  - intros H. inversion_clear H as [|? ? Ha Hp]. inversion_clear Hp as [|? ? Hb Hq]. inversion_clear Hq as [|? ? Hc _].
    apply Forall_cons in Ha as [? [? [? _]%Forall_cons]%Forall_cons]. apply Forall_cons in Hb as [? [? _]%Forall_cons]. by apply Forall_cons in Hc as [? _].
  - intros ((H1 & H2 & H3) & (H4 & H5) & H6). repeat constructor; done.
Qed.

Lemma full_map_apart n : HIMEM_START < n -> ForallOrdPairs entries_apart (full_map (n - HIMEM_START)) <-> n <= PCI_MMCONFIG_START.
Proof.
  intros Hn. unfold full_map. rewrite pairs4. unfold entries_apart. cbn [e_addr e_size].
  change PCI_MMCONFIG_START with 0xeec00000. change PCI_MMCONFIG_SIZE with 0x10000000. change SYSTEM_MEM_SIZE with 0x40400.
  unfold SYSTEM_MEM_START, HIMEM_START in *. lia.
Qed.

(** C34: on a machine with more than 1 MiB the three memory maps a kernel may be
    given are the same.  It lists as RAM exactly the addresses below 0x9fc00 and
    those from 1 MiB to the end, so no table of the firmware lies in RAM the
    kernel would use; its entries are disjoint exactly when RAM ends at or below
    the configuration window at 0xeec00000. *)
Theorem memory_maps_bounds n (Hn : HIMEM_START < n) :
  fill_e820 n = raw_entries n /\ pvh_memmap n = raw_entries n /\
  (forall a, listed MAP_RAM (raw_entries n) a <-> a < SYSTEM_MEM_START \/ HIMEM_START <= a < n) /\
  (forall a, listed MAP_RAM (raw_entries n) a -> ~ in_range MPFLOAT_GPA 372 a /\ ~ in_range FADT 0x5000 a /\ ~ in_range RSDP_ADDR 36 a) /\
  (ForallOrdPairs entries_apart (raw_entries n) <-> n <= PCI_MMCONFIG_START).
Proof.
  destruct (three_maps n Hn) as [-> ->]. rewrite raw_entries_full by done. pose proof (full_map_ram n) as Hram.
  split_and!; [done..|by intros a; apply Hram| |by apply full_map_apart].
  intros a Ha. apply Hram in Ha; [|done]. unfold in_range, MPFLOAT_GPA, FADT, RSDP_ADDR, SYSTEM_MEM_START, HIMEM_START in *. lia.
Qed.

Lemma memory_maps_bounds_witness :
  fill_e820 0x10000000 = raw_entries 0x10000000 /\ pvh_memmap 0x10000000 = raw_entries 0x10000000 /\
  (forall a, listed MAP_RAM (raw_entries 0x10000000) a <-> a < SYSTEM_MEM_START \/ HIMEM_START <= a < 0x10000000) /\
  (forall a, listed MAP_RAM (raw_entries 0x10000000) a -> ~ in_range MPFLOAT_GPA 372 a /\ ~ in_range FADT 0x5000 a /\ ~ in_range RSDP_ADDR 36 a) /\
  (ForallOrdPairs entries_apart (raw_entries 0x10000000) <-> 0x10000000 <= PCI_MMCONFIG_START).
Proof. apply (memory_maps_bounds 0x10000000). by_eval. Defined.

(** ** Errors of the raw path *)

Lemma put_field_ok i d b : i + lenN d <= lenN b -> exists b', put i d b = (Ok tt, b') /\ lenN b' = lenN b.
Proof.
  intros Hl. unfold put. rewrite (proj2 (N.leb_le _ _) Hl). eexists. split; [done|]. unfold lenN. f_equal. apply length_splice. unfold lenN in Hl. lia.
Qed.

Lemma put_each_ok ps b : Forall (fun p => p.1 + lenN p.2 <= lenN b) ps -> exists b', put_each ps b = (Ok tt, b') /\ lenN b' = lenN b.
Proof.
  revert b. induction ps as [|[i d] ps IH]; intros b Hf; [by exists b|]. apply Forall_cons in Hf as [Hi Hf].
  destruct (put_field_ok i d b Hi) as (b1 & E1 & L1). destruct (IH b1) as (b2 & E2 & L2); [by rewrite L1|].
  exists b2. cbn [put_each]. unfold bind. rewrite E1, E2. split; [done|]. by rewrite L2.
Qed.

Lemma build_ok n ps : Forall (fun p => p.1 + lenN p.2 <= n) ps -> exists b, build n (put_each ps) = Ok b /\ lenN b = n.
Proof.
  intros Hf. assert (lenN (repeat 0 (N.to_nat n)) = n) as Hn by (unfold lenN; rewrite repeat_length; lia).
  destruct (put_each_ok ps (repeat 0 (N.to_nat n))) as (b & E & Lb); [by rewrite Hn|].
  exists b. unfold build. rewrite E, Lb, Hn. done.
Qed.

Lemma entry_in_page es i e : (length es <= 4)%nat -> es !! i = Some e ->
  Forall (fun p => p.1 + lenN p.2 <= 4096) (put_entry i e).
Proof.
  intros Hl Hi. apply lookup_lt_Some in Hi. unfold put_entry. repeat constructor; cbn [fst snd]; unfold lenN; rewrite length_le_bytes; lia.
Qed.

Lemma zero_page_total cl il es : (length es <= 4)%nat -> exists p, zero_page cl il es = Ok p /\ lenN p = 4096.
Proof.
  intros Hl. apply build_ok.
  repeat apply Forall_app_2.
  - repeat constructor; cbn [fst snd]; unfold lenN; rewrite length_le_bytes; lia.
  - destruct (0 <? il); [|constructor]. repeat constructor; cbn [fst snd]; unfold lenN; rewrite length_le_bytes; lia.
  - repeat constructor. cbn [fst snd]. unfold lenN. simpl. lia.
  - apply Forall_concat, Forall_forall. intros l Hin. apply elem_of_lookup_imap in Hin as (i & e & -> & Hi). by apply (entry_in_page es).
Qed.

Section RawErrors.
Context (read_file : rstr -> option bytes).

(** What becomes of a raw boot on [n] bytes of RAM: the first thing that is
    missing or does not fit. *)
Definition file_verdict (p : option rstr) (fits : bytes -> option FluxError) (next : option FluxError) : option FluxError :=
  match p with
  | None => next
  | Some p => match read_file p with
              | None => Some Io
              | Some b => match fits b with Some e => Some e | None => next end
              end
  end.

Definition raw_verdict (c : VmConfig) (n : N) : option FluxError :=
  file_verdict (c_kernel c) (fun b => if n <? KERNEL_LOAD_ADDR + lenN b then Some Prelude.Boot else None)
    (file_verdict (c_initrd c) (fun b => if n <? INITRD_ADDR + lenN b then Some Memory else None)
       (if n <? CMDLINE_GPA + (lenN (as_bytes (c_cmdline c)) + 1) then Some Memory
        else if n <? BOOT_PARAMS_ADDR + 4096 then Some Memory else None)).

(** Lengths of byte vectors. *)
Definition vec_len (b : bytes) : Prop := lenN b < 2 ^ 63.

Lemma write_at_vec g b m : g < 2 ^ 32 -> vec_len b ->
  if mem_len m <? g + lenN b then write_at g b m = (Err Memory, m) else exists m', write_at g b m = (Ok tt, m') /\ mem_len m' = mem_len m.
Proof.
  intros Hg Hb. unfold vec_len in Hb. destruct (N.ltb_spec (mem_len m) (g + lenN b)) as [Hlt|Hle]; rewrite write_at_eq.
  - destruct (in_ram m g (lenN b)) eqn:E; [|done]. apply in_ram_spec in E. lia.
  - assert (in_ram m g (lenN b) = true) as E by (apply in_ram_spec; split; [|done]; change (2 ^ 64) with (2 * 2 ^ 63); change (2 ^ 32) with 0x100000000 in Hg; change (2 ^ 63) with 0x8000000000000000 in *; lia).
    rewrite E. eexists. split; [done|]. eapply (write_len g b m tt). by rewrite write_at_eq, E.
Qed.

Lemma raw_frame c : mrel (mem_frame (fun a => BOOT_PARAMS_ADDR <= a)) (prepare_linux_raw read_file c).
Proof.
  assert (forall g b, BOOT_PARAMS_ADDR <= g -> mrel (mem_frame (fun a => BOOT_PARAMS_ADDR <= a)) (write_at g b)) as Hw.
  { intros g b Hg. apply write_at_frame. unfold in_range. intros a Ha. lia. }
  unfold prepare_linux_raw, load_raw_kernel, load_initrd, fs_read, write_linux_cmdline, write_minimal_boot_params.
  repeat match goal with
  | |- mrel _ (bind _ _) => apply mrel_bind; [apply _| |intros ?]
  | |- mrel _ (match ?x with _ => _ end) => destruct x
  | |- mrel _ (if ?x then _ else _) => destruct x
  | |- mrel _ (write_at _ _) => apply Hw; by_eval
  | |- mrel _ _ => solve [eauto with mrel typeclass_instances]
  end.
Qed.

Definition as_outcome {A} (a : A) (o : option FluxError) : outcome A := match o with Some e => Err e | None => Ok a end.
Definition raw_info : BootInfo := MkBoot KERNEL_LOAD_ADDR (Some BOOT_PARAMS_ADDR) None false.

Lemma raw_entries_len n : (length (raw_entries n) <= 4)%nat.
Proof. unfold raw_entries. destruct (_ <? _), (_ <? _); simpl; lia. Qed.

Lemma end_verdict c il m : vec_len (as_bytes (c_cmdline c) ++ [0]) ->
  ((do! write_linux_cmdline (as_bytes (c_cmdline c)) in do! write_minimal_boot_params (as_bytes (c_cmdline c)) il in ret raw_info) m).1 =
  as_outcome raw_info (if mem_len m <? CMDLINE_GPA + (lenN (as_bytes (c_cmdline c)) + 1) then Some Memory
                       else if mem_len m <? BOOT_PARAMS_ADDR + 4096 then Some Memory else None).
Proof.
  intros Hc. set (cl := as_bytes (c_cmdline c)) in *. unfold write_linux_cmdline, bind.
  assert (lenN (cl ++ [0]) = lenN cl + 1) as Lc by (unfold lenN; rewrite length_app; simpl; lia).
  pose proof (write_at_vec CMDLINE_GPA (cl ++ [0]) m ltac:(by_eval) Hc) as Hw. rewrite Lc in Hw.
  destruct (mem_len m <? CMDLINE_GPA + (lenN cl + 1)); [by rewrite Hw|]. destruct Hw as (m1 & -> & L1).
  unfold write_minimal_boot_params, gets, lift, bind.
  destruct (zero_page_total (U.wrap 32 (lenN cl)) il (raw_entries (mem_len m1)) (raw_entries_len _)) as (p & -> & Lp).
  pose proof (write_at_vec BOOT_PARAMS_ADDR p m1 ltac:(by_eval)) as Hw. unfold vec_len in Hw. rewrite Lp, L1 in Hw. specialize (Hw ltac:(by_eval)).
  destruct (mem_len m <? BOOT_PARAMS_ADDR + 4096); [by rewrite Hw|]. by destruct Hw as (m2 & -> & _).
Qed.

Lemma initrd_verdict c m : (forall p b, read_file p = Some b -> vec_len b) -> vec_len (as_bytes (c_cmdline c) ++ [0]) ->
  ((let! il := load_initrd read_file c in
    do! write_linux_cmdline (as_bytes (c_cmdline c)) in do! write_minimal_boot_params (as_bytes (c_cmdline c)) il in ret raw_info) m).1 =
  as_outcome raw_info (file_verdict (c_initrd c) (fun b => if mem_len m <? INITRD_ADDR + lenN b then Some Memory else None)
    (if mem_len m <? CMDLINE_GPA + (lenN (as_bytes (c_cmdline c)) + 1) then Some Memory
     else if mem_len m <? BOOT_PARAMS_ADDR + 4096 then Some Memory else None)).
Proof.
  intros Hf Hc. unfold load_initrd, file_verdict, fs_read. destruct (c_initrd c) as [p|]; [|by apply (end_verdict c 0 m)].
  destruct (read_file p) as [b|] eqn:Eb; [|done]. unfold bind at 1, ok_or, bind at 1, ret at 1.
  pose proof (write_at_vec INITRD_ADDR b m ltac:(by_eval) (Hf _ _ Eb)) as Hw.
  destruct (mem_len m <? INITRD_ADDR + lenN b); [unfold bind; by rewrite Hw|]. destruct Hw as (m1 & Hw & L1). unfold bind at 1. rewrite Hw.
  unfold ret at 1. rewrite <- L1. by apply (end_verdict c _ m1).
Qed.

(** the raw path never panics and returns exactly the verdict: an unreadable
    file is an I/O error, a kernel past the end of RAM a boot error, an initrd,
    command line or zero page past it a memory error, reported in that order;
    whatever the outcome, nothing below the zero page is touched. *)
Theorem raw_boot_errors (c : VmConfig) (m : GuestMemory)
    (Hf : forall p b, read_file p = Some b -> vec_len b) (Hc : vec_len (as_bytes (c_cmdline c) ++ [0])) :
  (prepare_linux_raw read_file c m).1 =
    match raw_verdict c (mem_len m) with
    | Some e => Err e
    | None => Ok (MkBoot KERNEL_LOAD_ADDR (Some BOOT_PARAMS_ADDR) None false)
    end /\
  mem_frame (fun a => BOOT_PARAMS_ADDR <= a) m (prepare_linux_raw read_file c m).2.
Proof.
  split; [|apply raw_frame]. change (?a = match ?o with Some e => Err e | None => Ok _ end) with (a = as_outcome raw_info o).
  unfold prepare_linux_raw, raw_verdict. unfold file_verdict at 1, load_raw_kernel, fs_read.
  destruct (c_kernel c) as [p|]; [|by apply (initrd_verdict c m)]. destruct (read_file p) as [b|] eqn:Eb; [|done].
  unfold bind at 1, ok_or, bind at 1, ret at 1, gets at 1, bind at 1.
  pose proof (write_at_vec KERNEL_LOAD_ADDR b m ltac:(by_eval) (Hf _ _ Eb)) as Hw.
  assert (U.add 64 (lenN b) KERNEL_LOAD_ADDR = KERNEL_LOAD_ADDR + lenN b) as ->.
  { unfold U.add. rewrite wrap_small; [lia|]. pose proof (Hf _ _ Eb) as Hb. unfold vec_len, in_u, KERNEL_LOAD_ADDR in *. change (2 ^ 64) with (2 * 2 ^ 63). lia. }
  destruct (mem_len m <? KERNEL_LOAD_ADDR + lenN b); [done|]. destruct Hw as (m1 & -> & L1). rewrite <- L1. by apply (initrd_verdict c m1).
Qed.
End RawErrors.

(** ** Examples *)

Definition tiny_config : VmConfig :=
  set_initrd (Some (bstr "initrd")) (set_kernel (Some (bstr "kernel")) default_config).
Definition tiny_files (p : rstr) : option bytes :=
  if bool_decide (p = bstr "kernel") then Some [0xf4] else if bool_decide (p = bstr "initrd") then Some [1; 2; 3] else None.
Definition blank_ram (n : N) : GuestMemory := {| ram := repeat 0 (N.to_nat n) |}.
Definition zero_segment : KvmSegment := MkSeg 0 0 0 0 0 0 0 0 0 0 0 0.
Definition zero_sregs : KvmSregs :=
  MkSregs zero_segment zero_segment zero_segment zero_segment zero_segment zero_segment zero_segment zero_segment
    (0, 0) (0, 0) 0 0 0 0 0 0 0 [].
Definition refuse (b : bytes) (g : u64) : M GuestMemory KernelLoaderResult := throw Prelude.Boot.

Lemma blank_ram_len n : mem_len (blank_ram n) = n.
Proof. unfold mem_len, blank_ram, lenN. simpl. rewrite repeat_length. lia. Qed.

Lemma raw_boot_ready_witness :
  exists sregs regs m', boot_guest tiny_files (fun _ => true) true refuse refuse (fun _ _ => ret tt) (fun _ _ _ => ret tt)
      (MkHdr 0 0 0 0 0 0 0 0 0 []) (MkIo (Some zero_sregs) true true) tiny_config (blank_ram 0x4001000) = (Ok (sregs, regs), m') /\
    long_mode sregs = true /\ r_rflags regs = 2 /\
    (forall va, va < 2 ^ 48 -> page_walk (rd m') (sr_cr3 sregs) va = if identity_mapped va then Some va else None) /\
    rd m' (r_rip regs) 1 = Some [0xf4] /\
    load_segment (rd m') (sr_gdt sregs) (sg_selector (sr_cs sregs)) = Some (sr_cs sregs) /\
    load_segment (rd m') (sr_gdt sregs) (sg_selector (sr_ds sregs)) = Some (sr_ds sregs) /\
    boot_view (rd m') (r_rsi regs) =
      Some (MkView (as_bytes (c_cmdline tiny_config) ++ [0]) [1; 2; 3] (full_map (mem_len (blank_ram 0x4001000) - HIMEM_START))) /\
    mp_scan (rd m') = Some (mp_expected (clamp_cpus (c_max_cpus tiny_config))).
Proof.
  apply (raw_boot_ready tiny_files (fun _ => true) true refuse refuse (fun _ _ => ret tt) (fun _ _ _ => ret tt) (MkHdr 0 0 0 0 0 0 0 0 0 [])
    (MkIo (Some zero_sregs) true true) zero_sregs tiny_config [0xf4] [1; 2; 3] (blank_ram 0x4001000) Prelude.Boot Prelude.Boot); try reflexivity.
  rewrite blank_ram_len. split; [exists (bstr "kernel"); by split|reflexivity|by_eval..].
Defined.

Lemma raw_boot_errors_witness :
  (prepare_linux_raw tiny_files tiny_config (blank_ram 0x300000)).1 = Err Memory /\
  mem_frame (fun a => BOOT_PARAMS_ADDR <= a) (blank_ram 0x300000) (prepare_linux_raw tiny_files tiny_config (blank_ram 0x300000)).2.
Proof.
  assert (raw_verdict tiny_files tiny_config (mem_len (blank_ram 0x300000)) = Some Memory) as Hv by (rewrite blank_ram_len; vm_compute; reflexivity).
  pose proof (raw_boot_errors tiny_files tiny_config (blank_ram 0x300000)) as H. rewrite Hv in H. apply H; [|by_eval].
  intros p b. unfold tiny_files. repeat case_bool_decide; intros [= <-]; by_eval.
Defined.

(** A kernel that reaches past the place of the initrd is accepted, and then
    overwritten by it. *)
Lemma raw_overlap_accepted read_file c n kp ip k i :
  c_kernel c = Some kp -> read_file kp = Some k -> c_initrd c = Some ip -> read_file ip = Some i ->
  INITRD_ADDR < KERNEL_LOAD_ADDR + lenN k <= n -> INITRD_ADDR + lenN i <= n ->
  CMDLINE_GPA + (lenN (as_bytes (c_cmdline c)) + 1) <= n -> raw_verdict read_file c n = None.
Proof.
  intros H1 H2 H3 H4 H5 H6 H7. unfold raw_verdict, file_verdict. rewrite H1, H2, H3, H4.
  repeat (match goal with |- context [?a <? ?b] => destruct (N.ltb_spec a b) end; [unfold BOOT_PARAMS_ADDR, INITRD_ADDR in *; lia|]). done.
Qed.
