(* ===== verification/Vhost.v ===== *)
(** * vhost-net

    [crates/fluxvm-hypervisor/src/vhost.rs]: the status of the network
    datapath, the order of the bring-up, and [VhostNet], one instance of the
    kernel's network engine for one pair of queues.

    The kernel is a script of answers: every [ioctl], [eventfd] and [epoll] call
    takes the next one (success when the script has run out), and successful
    calls are kept in a log.  Descriptors are numbered as they are opened.  What
    the kernel does with the rings once a backend is attached is not part of
    the model.  Log lines are left out. *)

From stdpp Require Import prelude list gmap strings.
From Stdlib Require Import NArith Lia.
From S2P Require Import Prelude RustStr Virtqueue.

(** [env_enabled]: the value of [FLUXVM_VHOST_NET] *)
Definition env_enabled (v : option rstr) : bool :=
  match v with
  | Some s => negb (bool_decide (trim s ∈ [bstr "0"; bstr "off"; bstr "false"; bstr "no"]))
  | None => true
  end.

(** [NetDatapath], with the reason it shows. *)
Record NetDatapath := MkPath { dp_kernel : bool; dp_pairs : u32; dp_detail : rstr }.
Definition NetDatapath_default : NetDatapath := MkPath false 1 (bstr "not initialised").
Definition dp_label (d : NetDatapath) : rstr := if dp_kernel d then bstr "vhost-net" else bstr "userspace-pump".
Definition dp_summary (d : NetDatapath) : rstr :=
  dp_label d ++ bstr " pairs=" ++ to_decimal (dp_pairs d) ++ bstr " (" ++ dp_detail d ++ bstr ")".

(** ** Features *)

Definition VIRTIO_NET_F_MRG_RXBUF : u64 := N.shiftl 1 15.
Definition VIRTIO_RING_F_INDIRECT_DESC : u64 := N.shiftl 1 28.
Definition VIRTIO_RING_F_EVENT_IDX : u64 := N.shiftl 1 29.
Definition VIRTIO_F_VERSION_1_BIT : u64 := N.shiftl 1 32.
Definition VHOST_NET_F_VIRTIO_NET_HDR : u64 := N.shiftl 1 27.

Definition passthrough : u64 :=
  N.lor (N.lor (N.lor VIRTIO_NET_F_MRG_RXBUF VIRTIO_RING_F_INDIRECT_DESC) VIRTIO_RING_F_EVENT_IDX) VIRTIO_F_VERSION_1_BIT.

Definition vhost_feature_mask (driver_features : u64) : u64 :=
  N.lor (N.land driver_features passthrough) VHOST_NET_F_VIRTIO_NET_HDR.

(** ** The order of the bring-up *)

Inductive BindStep := Owner | Features | MemTable | Rings | IrqRelay | Backend.

#[global] Instance BindStep_eq_dec : EqDecision BindStep.
Proof. solve_decision. Defined.

Definition next_step (s : BindStep) : option BindStep :=
  match s with
  | Owner => Some Features
  | Features => Some MemTable
  | MemTable => Some Rings
  | Rings => Some IrqRelay
  | IrqRelay => Some Backend
  | Backend => None
  end.

(** [BindOrder::enter]; [None] is the refusal. *)
Definition order_enter (step : BindStep) (last : option BindStep) : option (option BindStep) :=
  let expected := match last with None => Some Owner | Some l => next_step l end in
  if bool_decide (expected = Some step) then Some (Some step) else None.

Definition order_complete (last : option BindStep) : bool := bool_decide (last = Some Backend).

(** ** One instance *)

(** Calls that the kernel has answered with success. *)
Inductive VhostCall :=
| SetOwner
| SetFeatures (f : u64)
| SetMemTable (gpa size hva : u64)
| SetVringNum (index num : u32)
| SetVringAddr (index : u32) (desc used avail : u64)
| SetVringBase (index num : u32)
| SetVringKick (index fd : N)
| SetVringCall (index fd : N)
| StartRelay (fds : list N)
| SetBackend (index fd : N)
| Kick (fd : N).

Record VhostNet := MkVhost {
  bound : bool;
  rings_programmed : bool;
  tap_fd : option N;
  tap_queues : u32;
  order : option BindStep;
  irq_relay : bool;
  queue_fds : list (N * N)   (* kick and call *)
}.

(** [VhostNet::open], when the device opens. *)
Definition vhost_open : VhostNet := MkVhost false false None 0 None false [].

(** An instance with its kernel: answers to come, calls made, descriptors open,
    the next descriptor. *)
Record Kernel := MkKernel { answers : list bool; calls : list VhostCall; open_fds : gset N; next_fd : N }.
Record VhostSt := MkVS { vh : VhostNet; kn : Kernel }.

Definition set_vh (v : VhostNet) (s : VhostSt) : VhostSt := MkVS v (kn s).
Definition set_kn (k : Kernel) (s : VhostSt) : VhostSt := MkVS (vh s) k.

Definition with_order (o : option BindStep) (v : VhostNet) : VhostNet :=
  MkVhost (bound v) (rings_programmed v) (tap_fd v) (tap_queues v) o (irq_relay v) (queue_fds v).
Definition with_fds (l : list (N * N)) (v : VhostNet) : VhostNet :=
  MkVhost (bound v) (rings_programmed v) (tap_fd v) (tap_queues v) (order v) (irq_relay v) l.
Definition with_programmed (v : VhostNet) : VhostNet :=
  MkVhost (bound v) true (tap_fd v) (tap_queues v) (order v) (irq_relay v) (queue_fds v).
Definition with_relay (v : VhostNet) : VhostNet :=
  MkVhost (bound v) (rings_programmed v) (tap_fd v) (tap_queues v) (order v) true (queue_fds v).
Definition with_bound (v : VhostNet) : VhostNet :=
  MkVhost true (rings_programmed v) (tap_fd v) (tap_queues v) (order v) (irq_relay v) (queue_fds v).

(** The next answer of the kernel. *)
Definition answer : M VhostSt bool := fun s =>
  let k := kn s in
  match answers k with
  | [] => (Ok true, s)
  | b :: l => (Ok b, set_kn (MkKernel l (calls k) (open_fds k) (next_fd k)) s)
  end.

Definition log_call (c : VhostCall) : M VhostSt unit :=
  modify (fun s => set_kn (MkKernel (answers (kn s)) (calls (kn s) ++ [c]) (open_fds (kn s)) (next_fd (kn s))) s).

(** A call that fails with an error of the hypervisor. *)
Definition ioctl (c : VhostCall) : M VhostSt unit :=
  let! ok := answer in if ok then log_call c else throw Hypervisor.

(** [eventfd], [None] when it fails; [close] *)
Definition eventfd : M VhostSt (option N) :=
  let! ok := answer in
  if ok then
    fun s => let k := kn s in
             (Ok (Some (next_fd k)), set_kn (MkKernel (answers k) (calls k) (open_fds k ∪ {[next_fd k]}) (next_fd k + 1)) s)
  else ret None.

Definition close (fd : N) : M VhostSt unit :=
  modify (fun s => set_kn (MkKernel (answers (kn s)) (calls (kn s)) (open_fds (kn s) ∖ {[fd]}) (next_fd (kn s))) s).

Definition close_opt (fd : option N) : M VhostSt unit := match fd with Some f => close f | None => ret tt end.

Definition kernel_datapath (v : VhostNet) : bool := bound v && rings_programmed v && irq_relay v.
Definition has_tap (v : VhostNet) : bool := bool_decide (is_Some (tap_fd v)).
Definition kick_fd (v : VhostNet) (i : nat) : option N := fst <$> queue_fds v !! i.
Definition call_fd (v : VhostNet) (i : nat) : option N := snd <$> queue_fds v !! i.

Definition signal_kick (i : nat) : M VhostSt unit :=
  let! s := get in
  let! fd := ok_or (kick_fd (vh s) i) Hypervisor in
  ioctl (Kick fd).

(** [attach_tap]; a negative descriptor is [None]. *)
Definition attach_tap (fd : option N) (queues : u32) : M VhostSt unit :=
  match fd with
  | None => throw Hypervisor
  | Some fd => modify (fun s => set_vh (MkVhost (bound (vh s)) (rings_programmed (vh s)) (Some fd) (N.max 1 (N.min queues 2))
                                          (order (vh s)) (irq_relay (vh s)) (queue_fds (vh s))) s)
  end.

Definition enter (step : BindStep) : M VhostSt unit :=
  let! s := get in
  let! o := ok_or (order_enter step (order (vh s))) Hypervisor in
  modify (fun s => set_vh (with_order o (vh s)) s).

(** [for q in self.queue_fds.drain(..)] *)
Fixpoint close_pairs (l : list (N * N)) : M VhostSt unit :=
  match l with [] => ret tt | (k, c) :: l => do! close k in do! close c in close_pairs l end.

Definition drop_fds : M VhostSt unit :=
  let! s := get in
  do! close_pairs (queue_fds (vh s)) in
  modify (fun s => set_vh (with_fds [] (vh s)) s).

(** [if rc < 0 { close(kick); close(call); return Err }] *)
Definition or_close (m : M VhostSt unit) (kick call : N) : M VhostSt unit := fun s =>
  match m s with
  | (Err e, s) => (do! close kick in do! close call in throw e) s
  | r => r
  end.

Definition ring_ready (q : QueueState) : bool :=
  negb (q_ready q =? 0) && negb (q_num q =? 0) && negb (q_desc q =? 0) && negb (q_avail q =? 0) && negb (q_used q =? 0).

Definition ring_in_ram (ram_bytes : N) (q : QueueState) : bool :=
  (q_desc q <? ram_bytes) && (q_avail q <? ram_bytes) && (q_used q <? ram_bytes).

(** One ring of [program_vrings]. *)
Definition program_ring (host_base ram_bytes : N) (index : N) (q : QueueState) : M VhostSt unit :=
  if negb (ring_ready q) then throw Hypervisor
  else if negb (ring_in_ram ram_bytes q) then throw Hypervisor
  else
    do! ioctl (SetVringNum index (q_num q)) in
    do! ioctl (SetVringAddr index (U.add 64 host_base (q_desc q)) (U.add 64 host_base (q_used q)) (U.add 64 host_base (q_avail q))) in
    do! ioctl (SetVringBase index (q_last_avail q)) in
    let! kick := eventfd in
    let! call := eventfd in
    match kick, call with
    | Some kick, Some call =>
        do! or_close (ioctl (SetVringKick index kick)) kick call in
        do! or_close (ioctl (SetVringCall index call)) kick call in
        modify (fun s => set_vh (with_fds (queue_fds (vh s) ++ [(kick, call)]) (vh s)) s)
    | _, _ => do! close_opt kick in do! close_opt call in throw Hypervisor
    end.

Fixpoint program_rings (host_base ram_bytes : N) (index : N) (qs : list QueueState) : M VhostSt unit :=
  match qs with
  | [] => ret tt
  | q :: qs => do! program_ring host_base ram_bytes index q in program_rings host_base ram_bytes (index + 1) qs
  end.

(** [for index in 0..self.tap_queues] *)
Fixpoint set_backends (n : nat) (index fd : N) : M VhostSt unit :=
  match n with O => ret tt | S n => do! ioctl (SetBackend index fd) in set_backends n (index + 1) fd end.

(** [program_vrings]: the whole bring-up.  The relay is one call: it either
    waits on every call descriptor or is not there. *)
Definition program_vrings (host_base ram_bytes : N) (queues : list QueueState) (driver_features : u64) : M VhostSt unit :=
  let! s := get in
  let! tap := ok_or (tap_fd (vh s)) Hypervisor in
  if (host_base =? 0) || (ram_bytes =? 0) then throw Hypervisor
  else
    do! modify (fun s => set_vh (with_order None (vh s)) s) in
    do! enter Owner in
    do! ioctl SetOwner in
    do! enter Features in
    do! ioctl (SetFeatures (vhost_feature_mask driver_features)) in
    do! enter MemTable in
    do! ioctl (SetMemTable 0 ram_bytes host_base) in
    do! drop_fds in
    do! enter Rings in
    do! program_rings host_base ram_bytes 0 (take 2 queues) in
    let! s := get in
    if (length (queue_fds (vh s)) <? N.to_nat (tap_queues (vh s)))%nat then throw Hypervisor
    else
      do! modify (fun s => set_vh (with_programmed (vh s)) s) in
      do! enter IrqRelay in
      let! s := get in
      do! ioctl (StartRelay (map snd (queue_fds (vh s)))) in
      do! modify (fun s => set_vh (with_relay (vh s)) s) in
      do! enter Backend in
      let! s := get in
      do! set_backends (N.to_nat (tap_queues (vh s))) 0 tap in
      modify (fun s => set_vh (with_bound (vh s)) s).

(** [Drop for VhostNet] *)
Definition vhost_drop : M VhostSt unit :=
  do! modify (fun s => set_vh (MkVhost (bound (vh s)) (rings_programmed (vh s)) (tap_fd (vh s)) (tap_queues (vh s)) (order (vh s)) false (queue_fds (vh s))) s) in
  drop_fds.

(** ** What the kernel is told *)

(** [logs full s r]: [r], from [s], has made the calls [full], or a prefix of
    them when it failed; it does nothing else. *)
Definition logs {A} (full : list VhostCall) (s : VhostSt) (r : outcome A * VhostSt) : Prop :=
  match r with
  | (Ok _, s') => calls (kn s') = calls (kn s) ++ full
  | (Err _, s') => exists l, l `prefix_of` full /\ calls (kn s') = calls (kn s) ++ l
  | _ => False
  end.

Lemma logs_bind {A B} f1 f2 (m : M VhostSt A) (k : A -> M VhostSt B) s :
  logs f1 s (m s) -> (forall a s', m s = (Ok a, s') -> logs f2 s' (k a s')) -> logs (f1 ++ f2) s (bind m k s).
Proof.
  intros H1 H2. unfold bind. destruct (m s) as [[a|e| |] s1]; try done.
  - specialize (H2 a s1 eq_refl). simpl in H1. destruct (k a s1) as [[b|e| |] s2]; simpl in *; try done.
    + by rewrite H2, H1, app_assoc.
    + destruct H2 as (l & Hl & H2). exists (f1 ++ l). split; [by apply prefix_app|]. by rewrite H2, H1, app_assoc.
  - destruct H1 as (l & Hl & H1). exists l. split; [by apply prefix_app_r|done].
Qed.

Lemma logs_nil_bind {A B} f (m : M VhostSt A) (k : A -> M VhostSt B) s :
  logs [] s (m s) -> (forall a s', m s = (Ok a, s') -> logs f s' (k a s')) -> logs f s (bind m k s).
Proof. apply (logs_bind [] f). Qed.

Lemma logs_ret {A} (a : A) s : logs [] s (ret a s).
Proof. simpl. by rewrite app_nil_r. Qed.
Lemma logs_throw {A} f e s : logs f s (throw (A:=A) e s).
Proof. exists []. split; [apply prefix_nil|by rewrite app_nil_r]. Qed.
Lemma logs_modify f s : (forall s, kn (f s) = kn s) -> logs [] s (modify f s).
Proof. intros Hf. simpl. by rewrite Hf, app_nil_r. Qed.
Lemma logs_get s : logs [] s (get s).
Proof. simpl. by rewrite app_nil_r. Qed.

(** The effect of a call on the instance and the rest of the kernel. *)
Record same_but_log (s s' : VhostSt) : Prop := {
  sl_vh : vh s' = vh s; sl_open : open_fds (kn s') = open_fds (kn s); sl_next : next_fd (kn s') = next_fd (kn s) }.

Lemma ioctl_spec c s : logs [c] s (ioctl c s) /\ same_but_log s (ioctl c s).2.
Proof.
  unfold ioctl, answer, bind, log_call, modify, throw. destruct s as [v [[|[] l] cs o n]]; simpl; (split; [|by split]); try done.
  exists []. split; [apply prefix_nil|]. by rewrite app_nil_r.
Qed.

Lemma logs_ioctl c s : logs [c] s (ioctl c s).
Proof. apply ioctl_spec. Qed.

Lemma close_log fd s : calls (kn (close fd s).2) = calls (kn s).
Proof. done. Qed.

Lemma logs_close fd s : logs [] s (close fd s).
Proof. simpl. by rewrite app_nil_r. Qed.

Lemma logs_eventfd s : logs [] s (eventfd s).
Proof.
  unfold eventfd, answer, bind, ret. destruct s as [v [[|[] l] cs o n]]; simpl; by rewrite app_nil_r.
Qed.

Lemma logs_or_close f m k c s : logs f s (m s) -> logs f s (or_close m k c s).
Proof.
  intros Hm. unfold or_close. destruct (m s) as [[a|e| |] s1]; try done.
Qed.

Lemma logs_enter step s : logs [] s (enter step s).
Proof.
  unfold enter. apply logs_nil_bind; [apply logs_get|]. intros a s' _. unfold ok_or. destruct (order_enter _ _) as [o|].
  - apply logs_nil_bind; [apply logs_ret|]. intros b s2 _. by apply logs_modify.
  - unfold bind. apply logs_throw.
Qed.

(** The calls for one ring, for all rings and for a whole bring-up. *)
Definition ring_log (host_base : N) (index : N) (q : QueueState) (kick call : N) : list VhostCall :=
  [SetVringNum index (q_num q);
   SetVringAddr index (U.add 64 host_base (q_desc q)) (U.add 64 host_base (q_used q)) (U.add 64 host_base (q_avail q));
   SetVringBase index (q_last_avail q); SetVringKick index kick; SetVringCall index call].

Fixpoint rings_log (host_base index fd : N) (qs : list QueueState) : list VhostCall :=
  match qs with [] => [] | q :: qs => ring_log host_base index q fd (fd + 1) ++ rings_log host_base (index + 1) (fd + 2) qs end.

Fixpoint ring_fds (fd : N) (n : nat) : list (N * N) :=
  match n with O => [] | S n => (fd, fd + 1) :: ring_fds (fd + 2) n end.

Fixpoint backend_log (n : nat) (index tap : N) : list VhostCall :=
  match n with O => [] | S n => SetBackend index tap :: backend_log n (index + 1) tap end.

Definition bring_up (host_base ram_bytes fd tap : N) (queues : list QueueState) (driver_features : u64) (n : nat) : list VhostCall :=
  [SetOwner; SetFeatures (vhost_feature_mask driver_features); SetMemTable 0 ram_bytes host_base] ++
  rings_log host_base 0 fd (take 2 queues) ++
  [StartRelay (map snd (ring_fds fd (length (take 2 queues))))] ++
  backend_log n 0 tap.

(** Descriptors that are open are below the next one. *)
Definition fresh_fds (s : VhostSt) : Prop := forall f, f ∈ open_fds (kn s) -> f < next_fd (kn s).

(** What a step leaves when it fails: the instance as it was, and nothing open
    that was not. *)
Record undone (s s' : VhostSt) : Prop := {
  un_vh : vh s' = vh s; un_open : open_fds (kn s') = open_fds (kn s); un_next : next_fd (kn s) <= next_fd (kn s') }.

Lemma undone_same s s' : same_but_log s s' -> undone s s'.
Proof. intros [H1 H2 H3]. split; [done..|lia]. Qed.

Lemma undone_trans s1 s2 s3 : undone s1 s2 -> undone s2 s3 -> undone s1 s3.
Proof. intros [A1 A2 A3] [B1 B2 B3]. split; [congruence..|lia]. Qed.

Lemma ioctl_cases c s : exists s', same_but_log s s' /\ (ioctl c s = (Ok tt, s') /\ calls (kn s') = calls (kn s) ++ [c] \/
  ioctl c s = (Err Hypervisor, s') /\ calls (kn s') = calls (kn s)).
Proof.
  exists (ioctl c s).2. unfold ioctl, answer, bind, log_call, modify, throw. destruct s as [v [[|[] l] cs o n]]; simpl; (split; [by split|]); auto.
Qed.

Lemma eventfd_cases s : exists s', calls (kn s') = calls (kn s) /\ vh s' = vh s /\
  (eventfd s = (Ok (Some (next_fd (kn s))), s') /\ open_fds (kn s') = open_fds (kn s) ∪ {[next_fd (kn s)]} /\ next_fd (kn s') = next_fd (kn s) + 1 \/
   eventfd s = (Ok None, s') /\ open_fds (kn s') = open_fds (kn s) /\ next_fd (kn s') = next_fd (kn s)).
Proof.
  exists (eventfd s).2. unfold eventfd, answer, bind, ret. destruct s as [v [[|[] l] cs o n]]; simpl; auto 10.
Qed.

Definition ring_done (k c : N) (s s' : VhostSt) : Prop :=
  vh s' = with_fds (queue_fds (vh s) ++ [(k, c)]) (vh s) /\ open_fds (kn s') = open_fds (kn s) ∪ {[k; c]} /\ next_fd (kn s') = next_fd (kn s) + 2.

Lemma close_one (X : gset N) a : a ∉ X -> (X ∪ {[a]}) ∖ {[a]} = X.
Proof. set_solver. Qed.
Lemma close_two (X : gset N) a b : a ∉ X -> b ∉ X -> (X ∪ {[a]} ∪ {[b]}) ∖ {[a]} ∖ {[b]} = X.
Proof. set_solver. Qed.

(** The descriptors of a ring are given to the kernel, or closed again. *)
Lemma install_fds index s : fresh_fds s ->
  let n := next_fd (kn s) in
  let r := (let! kick := eventfd in
            let! call := eventfd in
            match kick, call with
            | Some kick, Some call =>
                do! or_close (ioctl (SetVringKick index kick)) kick call in
                do! or_close (ioctl (SetVringCall index call)) kick call in
                modify (fun s => set_vh (with_fds (queue_fds (vh s) ++ [(kick, call)]) (vh s)) s)
            | _, _ => do! close_opt kick in do! close_opt call in throw Hypervisor
            end) s in
  logs [SetVringKick index n; SetVringCall index (n + 1)] s r /\
  match r with (Ok _, s') => ring_done n (n + 1) s s' | (_, s') => undone s s' end.
Proof.
  intros Hf n r. unfold r. clear r. assert (n ∉ open_fds (kn s)) as Hn by (intros H; apply Hf in H; subst n; lia).
  assert (n + 1 ∉ open_fds (kn s)) as Hn1 by (intros H; apply Hf in H; subst n; lia).
  unfold bind, or_close.
  destruct (eventfd_cases s) as (s1 & C1 & V1 & [(E1 & O1 & N1)|(E1 & O1 & N1)]); rewrite E1; cbv beta iota; fold n in O1, N1.
  2: { destruct (eventfd_cases s1) as (s2 & C2 & V2 & [(E2 & O2 & N2)|(E2 & O2 & N2)]); rewrite E2; cbv beta iota; rewrite ?N1 in *;
       (split; [exists []; split; [apply prefix_nil|simpl; by rewrite C2, C1, app_nil_r]|]); split; simpl; try congruence; try (unfold n in *; lia).
       rewrite O2, O1. by apply close_one. }
  destruct (eventfd_cases s1) as (s2 & C2 & V2 & [(E2 & O2 & N2)|(E2 & O2 & N2)]); rewrite E2; cbv beta iota.
  2: { split; [exists []; split; [apply prefix_nil|simpl; by rewrite C2, C1, app_nil_r]|]. split; simpl; [congruence| |unfold n in *; lia].
       rewrite O2, O1. by apply close_one. }
  rewrite N1 in *. fold n. destruct (ioctl_cases (SetVringKick index n) s2) as (s3 & [A1 A2 A3] & [[E3 C3]|[E3 C3]]); rewrite E3; cbv beta iota.
  2: { split; [exists []; split; [apply prefix_nil|simpl; by rewrite C3, C2, C1, app_nil_r]|]. split; simpl; [congruence| |unfold n in *; lia].
       rewrite A2, O2, O1. by apply close_two. }
  destruct (ioctl_cases (SetVringCall index (n + 1)) s3) as (s4 & [B1 B2 B3] & [[E4 C4]|[E4 C4]]); rewrite E4; cbv beta iota.
  2: { split; [exists [SetVringKick index n]; split; [by apply prefix_cons, prefix_nil|simpl; by rewrite C4, C3, C2, C1]|]. split; simpl; [congruence| |unfold n in *; lia].
       rewrite B2, A2, O2, O1. by apply close_two. }
  split; simpl; [by rewrite C4, C3, C2, C1, <- app_assoc|]. split_and!; simpl; [by rewrite B1, A1, V2, V1|by rewrite B2, A2, O2, O1, union_assoc_L|unfold n in *; lia].
Qed.

(** [m] and then [k], when [m] only makes a call. *)
Lemma after_ioctl {A} c (k : unit -> M VhostSt A) full s (P : VhostSt -> Prop) :
  (forall s', same_but_log s s' -> logs full s' (k tt s') /\ match k tt s' with (Ok _, s2) => P s2 | (_, s2) => undone s' s2 end) ->
  logs (c :: full) s (bind (ioctl c) k s) /\ match bind (ioctl c) k s with (Ok _, s2) => P s2 | (_, s2) => undone s s2 end.
Proof.
  intros Hk. destruct (ioctl_cases c s) as (s1 & S1 & H1). destruct (Hk s1 S1) as [L2 P2]. split.
  - change (c :: full) with ([c] ++ full). apply logs_bind; [apply logs_ioctl|]. intros [] s' E.
    assert (s' = s1) as -> by (destruct H1 as [[E1 _]|[E1 _]]; rewrite E1 in E; congruence). done.
  - unfold bind. destruct H1 as [[-> _]|[-> _]]; [|by apply undone_same].
    destruct (k tt s1) as [[a|e| |] s2]; try done; eapply undone_trans; [by apply undone_same|done].
Qed.

Lemma fresh_same s s' : same_but_log s s' -> fresh_fds s -> fresh_fds s'.
Proof. intros [_ H2 H3] Hf f. rewrite H2, H3. apply Hf. Qed.

Lemma ring_done_same k c s1 s s' : same_but_log s1 s -> ring_done k c s s' -> ring_done k c s1 s'.
Proof. intros [H1 H2 H3] (R1 & R2 & R3). unfold ring_done. by rewrite <- H1, <- H2, <- H3. Qed.

Lemma program_ring_spec hb ram i q s : fresh_fds s ->
  logs (ring_log hb i q (next_fd (kn s)) (next_fd (kn s) + 1)) s (program_ring hb ram i q s) /\
  match program_ring hb ram i q s with (Ok _, s') => ring_done (next_fd (kn s)) (next_fd (kn s) + 1) s s' | (_, s') => undone s s' end.
Proof.
  intros Hf. unfold program_ring. assert (undone s s) as Hu by (split; [done..|lia]).
  destruct (ring_ready q); simpl negb; cbv iota; [|split; [apply logs_throw|exact Hu]].
  destruct (ring_in_ram ram q); simpl negb; cbv iota; [|split; [apply logs_throw|exact Hu]].
  apply after_ioctl. intros s1 S1. apply after_ioctl. intros s2 S2. apply after_ioctl. intros s3 S3.
  assert (same_but_log s s3) as S by (destruct S1, S2, S3; split; congruence). rewrite <- (sl_next _ _ S).
  pose proof (install_fds i s3 (fresh_same _ _ S Hf)) as Hi. cbv zeta in Hi. destruct Hi as [HL HP]. split; [exact HL|].
  destruct (bind _ _ s3) as [[a|e| |] s4]; [by eapply ring_done_same|done..].
Qed.

Definition flat_fds (l : list (N * N)) : list N := concat (map (fun p => [p.1; p.2]) l).

Definition rings_done (j : nat) (s s' : VhostSt) : Prop :=
  vh s' = with_fds (queue_fds (vh s) ++ ring_fds (next_fd (kn s)) j) (vh s) /\
  open_fds (kn s') = open_fds (kn s) ∪ list_to_set (flat_fds (ring_fds (next_fd (kn s)) j)) /\
  next_fd (kn s) + 2 * N.of_nat j <= next_fd (kn s').

Lemma fresh_ring k c s s' : ring_done k c s s' -> k = next_fd (kn s) -> c = k + 1 -> fresh_fds s -> fresh_fds s'.
Proof. intros (_ & R2 & R3) -> -> Hf f. rewrite R2, R3, !elem_of_union, !elem_of_singleton. intros [H|[->| ->]]; [apply Hf in H|..]; lia. Qed.

Lemma rings_done_cons s s1 s2 j : ring_done (next_fd (kn s)) (next_fd (kn s) + 1) s s1 -> rings_done j s1 s2 -> rings_done (S j) s s2.
Proof.
  intros (R1 & R2 & R3) (Q1 & Q2 & Q3). rewrite R3 in *. split_and!.
  - rewrite Q1, R1. unfold with_fds. cbn [queue_fds bound rings_programmed tap_fd tap_queues order irq_relay ring_fds]. by rewrite <- app_assoc.
  - rewrite Q2, R2. cbn [ring_fds flat_fds map concat fst snd app]. fold (flat_fds (ring_fds (next_fd (kn s) + 2) j)). rewrite !list_to_set_cons. set_solver.
  - lia.
Qed.

Lemma program_rings_spec hb ram qs i s : fresh_fds s ->
  logs (rings_log hb i (next_fd (kn s)) qs) s (program_rings hb ram i qs s) /\
  match program_rings hb ram i qs s with
  | (Ok _, s') => rings_done (length qs) s s' /\ next_fd (kn s') = next_fd (kn s) + 2 * lenN qs
  | (_, s') => exists j, rings_done j s s' end.
Proof.
  assert (forall s, rings_done 0 s s) as H0.
  { intros t. unfold rings_done. simpl. rewrite app_nil_r. split_and!; [by destruct t as [[]]|set_solver|lia]. }
  revert i s. induction qs as [|q qs IH]; intros i s Hf; cbn [program_rings rings_log].
  - split; [apply logs_ret|]. simpl. split; [apply H0|unfold lenN; simpl; lia].
  - destruct (program_ring_spec hb ram i q s Hf) as [HL HP]. split.
    + apply logs_bind; [exact HL|]. intros [] s1 E. rewrite E in HP.
      pose proof (fresh_ring _ _ _ _ HP eq_refl eq_refl Hf) as Hf1. destruct HP as (_ & _ & R3). rewrite <- R3. by apply IH.
    + unfold bind. destruct (program_ring hb ram i q s) as [[[]|e| |] s1].
      * pose proof (fresh_ring _ _ _ _ HP eq_refl eq_refl Hf) as Hf1. destruct (IH (i + 1) s1 Hf1) as [_ HI].
        destruct (program_rings hb ram (i + 1) qs s1) as [[[]|e| |] s2].
        { destruct HI as [HI HN]. split; [by eapply rings_done_cons|]. rewrite HN. destruct HP as (_ & _ & ->). unfold lenN. simpl length. lia. }
        all: destruct HI as [j HI]; exists (S j); by eapply rings_done_cons.
      * exists 0%nat. destruct HP as [U1 U2 U3]. unfold rings_done. simpl. rewrite app_nil_r, U1, U2. split_and!; [by destruct (vh s)|set_solver|lia].
      * done.
      * done.
Qed.

(** ** A whole bring-up *)

Lemma close_pairs_spec l s : exists s', close_pairs l s = (Ok tt, s') /\ vh s' = vh s /\ calls (kn s') = calls (kn s) /\
  next_fd (kn s') = next_fd (kn s) /\ open_fds (kn s') = open_fds (kn s) ∖ list_to_set (flat_fds l).
Proof.
  revert s. induction l as [|[k c] l IH]; intros s; cbn [close_pairs].
  - exists s. split_and!; try done. unfold flat_fds. simpl. set_solver.
  - edestruct IH as (s' & E & H1 & H2 & H3 & H4). exists s'. unfold bind, close, modify. rewrite E. split_and!; [done..|].
    rewrite H4. cbn [kn set_kn open_fds]. unfold flat_fds. cbn [map concat fst snd app]. rewrite !list_to_set_cons. fold (flat_fds l). set_solver.
Qed.

(** The instance holds every descriptor that is open, and no other. *)
Definition owns_fds (s : VhostSt) : Prop :=
  open_fds (kn s) = list_to_set (flat_fds (queue_fds (vh s))) /\ fresh_fds s.

Lemma drop_fds_spec s : exists s', drop_fds s = (Ok tt, s') /\ vh s' = with_fds [] (vh s) /\ calls (kn s') = calls (kn s) /\
  next_fd (kn s') = next_fd (kn s) /\ open_fds (kn s') = open_fds (kn s) ∖ list_to_set (flat_fds (queue_fds (vh s))).
Proof.
  destruct (close_pairs_spec (queue_fds (vh s)) s) as (s1 & E & H1 & H2 & H3 & H4).
  eexists. unfold drop_fds, bind, get. rewrite E. split; [done|]. simpl. by rewrite H1, H2, H3, H4.
Qed.

Lemma rings_done_owns j s s' : open_fds (kn s) = ∅ -> queue_fds (vh s) = [] -> rings_done j s s' -> owns_fds s'.
Proof.
  intros H1 H2 (Q1 & Q2 & Q3). rewrite H1 in Q2. rewrite H2 in Q1. split.
  - rewrite Q2, Q1. unfold with_fds. cbn [queue_fds]. rewrite app_nil_l. set_solver.
  - intros f Hin. rewrite Q2 in Hin. apply elem_of_union in Hin as [?|Hin]; [set_solver|].
    apply elem_of_list_to_set in Hin. clear Q1 Q2 H1 H2.
    enough (forall b, f ∈ flat_fds (ring_fds b j) -> f < b + 2 * N.of_nat j) as H by (apply H in Hin; lia).
    clear. induction j as [|j IH]; intros b; cbn [ring_fds]; unfold flat_fds; cbn [map concat fst snd app]; [set_solver|].
    fold (flat_fds (ring_fds (b + 2) j)). intros [-> |[-> |H]%elem_of_cons]%elem_of_cons; [lia..|]. apply IH in H. lia.
Qed.

(** The result of the bring-up: the calls it made, the descriptors it holds, and
    whether the datapath is the kernel's. *)
Definition brought_up (full : list VhostCall) (s : VhostSt) (r : outcome unit * VhostSt) : Prop :=
  logs full s r /\ owns_fds r.2 /\
  match r with
  | (Ok _, s') => kernel_datapath (vh s') = true /\ order_complete (order (vh s')) = true /\
                   (N.to_nat (tap_queues (vh s')) <= length (queue_fds (vh s')))%nat
  | (_, s') => bound (vh s') = bound (vh s)
  end.

Lemma owns_same s s' : queue_fds (vh s') = queue_fds (vh s) -> open_fds (kn s') = open_fds (kn s) -> next_fd (kn s') = next_fd (kn s) -> owns_fds s -> owns_fds s'.
Proof. intros E1 E2 E3 [H1 H2]. split; [by rewrite E1, E2|]. intros f. rewrite E2, E3. apply H2. Qed.

Lemma brought_throw full s e : owns_fds s -> brought_up full s (throw e s).
Proof. intros H. split_and!; [apply logs_throw|done|done]. Qed.

(** A call, and then the rest. *)
Lemma brought_ioctl c full s (k : unit -> M VhostSt unit) : owns_fds s ->
  (forall s', same_but_log s s' -> brought_up full s' (k tt s')) -> brought_up (c :: full) s (bind (ioctl c) k s).
Proof.
  intros Ho Hk. destruct (ioctl_cases c s) as (s1 & S1 & H1). destruct (Hk s1 S1) as (L & O & R). split.
  - change (c :: full) with ([c] ++ full). apply logs_bind; [apply logs_ioctl|]. intros [] s' E.
    assert (s' = s1) as -> by (destruct H1 as [[E1 _]|[E1 _]]; rewrite E1 in E; congruence). done.
  - unfold bind. destruct S1 as [V1 O1 N1]. destruct H1 as [[-> _]|[-> _]].
    + split; [done|]. destruct (k tt s1) as [[a|e| |] s2]; first [exact R|congruence].
    + simpl. split; [eapply owns_same; [by rewrite V1|done..]|by rewrite V1].
Qed.

(** A change of the order or of a flag, and then the rest. *)
Lemma brought_modify f full s (k : unit -> M VhostSt unit) :
  bound (f (vh s)) = bound (vh s) ->
  brought_up full (set_vh (f (vh s)) s) (k tt (set_vh (f (vh s)) s)) ->
  brought_up full s (bind (modify (fun s => set_vh (f (vh s)) s)) k s).
Proof.
  intros Hb (L & O & R). unfold bind, modify. set (s1 := set_vh (f (vh s)) s) in *.
  split; [|split; [done|]]; destruct (k tt s1) as [[a|e| |] s2]; first [exact L|exact R|by rewrite R].
Qed.

Lemma brought_enter step o full s (k : unit -> M VhostSt unit) :
  order_enter step (order (vh s)) = Some o ->
  brought_up full (set_vh (with_order o (vh s)) s) (k tt (set_vh (with_order o (vh s)) s)) ->
  brought_up full s (bind (enter step) k s).
Proof.
  intros E H. unfold enter, bind, get, ok_or. rewrite E.
  exact (brought_modify (with_order o) full s k eq_refl H).
Qed.

Lemma owns_empty s : owns_fds s -> open_fds (kn s) ∖ list_to_set (flat_fds (queue_fds (vh s))) = ∅.
Proof. intros [-> _]. set_solver. Qed.

Lemma brought_drop full s (k : unit -> M VhostSt unit) : owns_fds s ->
  (forall s', vh s' = with_fds [] (vh s) -> open_fds (kn s') = ∅ -> next_fd (kn s') = next_fd (kn s) -> brought_up full s' (k tt s')) ->
  brought_up full s (bind drop_fds k s).
Proof.
  intros Ho Hk. destruct (drop_fds_spec s) as (s1 & E & V & C & N & O). rewrite owns_empty in O by done.
  unfold bind. rewrite E. destruct (Hk s1 V O N) as (L & O2 & R). rewrite V in R. split; [|split; [done|]].
  - destruct (k tt s1) as [[a|e| |] s2]; simpl in *; rewrite <- ?C; done.
  - by destruct (k tt s1) as [[a|e| |] s2].
Qed.

Lemma brought_rings hb ram qs full s (k : unit -> M VhostSt unit) : queue_fds (vh s) = [] -> open_fds (kn s) = ∅ ->
  (forall s', owns_fds s' -> vh s' = with_fds (ring_fds (next_fd (kn s)) (length qs)) (vh s) -> brought_up full s' (k tt s')) ->
  brought_up (rings_log hb 0 (next_fd (kn s)) qs ++ full) s (bind (program_rings hb ram 0 qs) k s).
Proof.
  intros Hq Ho Hk. assert (fresh_fds s) as Hf by (intros f; rewrite Ho; set_solver).
  destruct (program_rings_spec hb ram qs 0 s Hf) as [HL HP]. unfold brought_up.
  destruct (program_rings hb ram 0 qs s) as [[[]|e| |] s1] eqn:E; try done.
  - destruct HP as [HD _]. pose proof (rings_done_owns _ _ _ Ho Hq HD) as H1. destruct HD as (V & _). rewrite Hq in V. simpl in V.
    destruct (Hk s1 H1 V) as (L & O & R). split.
    + apply logs_bind; rewrite E; [done|]. by intros [] s' [= <-].
    + unfold bind. rewrite E. split; [done|]. rewrite V in R. by destruct (k tt s1) as [[a|e| |] s2].
  - destruct HP as [j HD]. split; [apply logs_bind; rewrite E; done|]. unfold bind. rewrite E.
    split; [by eapply rings_done_owns|]. destruct HD as (V & _). by rewrite V.
Qed.

Lemma brought_backends full n i tap s : owns_fds s -> full = backend_log n i tap ->
  irq_relay (vh s) = true -> rings_programmed (vh s) = true -> order (vh s) = Some Backend ->
  (N.to_nat (tap_queues (vh s)) <= length (queue_fds (vh s)))%nat ->
  brought_up full s (bind (set_backends n i tap) (fun _ => modify (fun s => set_vh (with_bound (vh s)) s)) s).
Proof.
  intros Ho -> H1 H2 H3 H4. revert i s Ho H1 H2 H3 H4. induction n as [|n IH]; intros i s Ho H1 H2 H3 H4; cbn [set_backends backend_log].
  - unfold bind, ret, modify. split; [simpl; by rewrite app_nil_r|]. split; [exact Ho|].
    unfold kernel_datapath, order_complete. simpl. rewrite H1, H2, H3. by split_and!.
  - assert (forall k k2 : unit -> M VhostSt unit, forall m : M VhostSt unit, bind (bind m k) k2 s = bind m (fun x => bind (k x) k2) s) as Assoc.
    { intros k k2 m. unfold bind. by destruct (m s) as [[a|e| |] s1]. }
    rewrite Assoc. apply brought_ioctl; [done|]. intros s' [V O N]. apply IH; rewrite ?V; try done. eapply owns_same; [by rewrite V|done..].
Qed.

Lemma program_vrings_brought hb ram qs feats s tap : owns_fds s -> tap_fd (vh s) = Some tap ->
  brought_up (bring_up hb ram (next_fd (kn s)) tap qs feats (N.to_nat (tap_queues (vh s)))) s (program_vrings hb ram qs feats s).
Proof.
  intros Ho Ht. unfold program_vrings. unfold bind at 1. unfold get at 1. rewrite Ht. unfold bind at 1. cbn [ok_or ret].
  destruct ((hb =? 0) || (ram =? 0)); [by apply brought_throw|]. unfold bring_up.
  apply (brought_modify (with_order None)); [done|]. apply (brought_enter Owner (Some Owner)); [done|].
  apply brought_ioctl; [done|]. intros s1 [V1 O1 N1]. simpl in V1, O1, N1. apply (brought_enter Features (Some Features)); [by rewrite V1|].
  assert (owns_fds s1) as Ho1 by (eapply owns_same; [|done..|exact Ho]; by rewrite V1).
  apply brought_ioctl; [exact Ho1|]. intros s2 [V2 O2 N2]. simpl in V2, O2, N2. apply (brought_enter MemTable (Some MemTable)); [by rewrite V2|].
  assert (owns_fds s2) as Ho2 by (eapply owns_same; [|done..|exact Ho1]; by rewrite V2).
  apply brought_ioctl; [exact Ho2|]. intros s3 [V3 O3 N3]. simpl in V3, O3, N3.
  assert (owns_fds s3) as Ho3 by (eapply owns_same; [|done..|exact Ho2]; by rewrite V3).
  apply brought_drop; [exact Ho3|]. intros s4 V4 O4 N4. apply (brought_enter Rings (Some Rings)); [by rewrite V4, V3|].
  rewrite <- N1, <- N2, <- N3, <- N4. apply (brought_rings _ _ (take 2 qs) _ (set_vh (with_order (Some Rings) (vh s4)) s4)); [by simpl; rewrite V4|done|].
  intros s5 Ho5 V5. simpl in V5. rewrite V4, V3, V2, V1 in V5.
  assert (queue_fds (vh s5) = ring_fds (next_fd (kn s4)) (length (take 2 qs))) as Q5 by (by rewrite V5).
  assert (tap_queues (vh s5) = tap_queues (vh s)) as T5 by (by rewrite V5). assert (order (vh s5) = Some Rings) as R5 by (by rewrite V5).
  clear V1 V2 V3 V4 V5. unfold bind at 1. unfold get at 1.
  destruct (_ <? _)%nat eqn:Hlt; [by apply brought_throw|]. apply Nat.ltb_ge in Hlt.
  apply (brought_modify with_programmed); [done|]. apply (brought_enter IrqRelay (Some IrqRelay)); [simpl; by rewrite R5|].
  unfold bind at 1. unfold get at 1. cbn [vh set_vh]. cbn [queue_fds with_order with_programmed]. rewrite Q5.
  apply brought_ioctl; [exact Ho5|]. intros s6 [V6 O6 N6]. cbn [vh set_vh kn set_kn] in V6, O6, N6.
  apply (brought_modify with_relay); [done|]. apply (brought_enter Backend (Some Backend)); [change (order_enter Backend (order (vh s6)) = Some (Some Backend)); by rewrite V6|].
  assert (tap_queues (vh s6) = tap_queues (vh s)) as T6 by (rewrite V6; exact T5). unfold bind at 1. unfold get at 1.
  cbn [vh set_vh]. change (tap_queues (with_order _ _)) with (tap_queues (vh s6)). rewrite T6.
  apply brought_backends; cbn [vh set_vh]; rewrite ?V6; try done. eapply owns_same; [|done..|exact Ho5]. by rewrite ?V6.
Qed.

Lemma vhost_drop_closes s : owns_fds s -> exists s', vhost_drop s = (Ok tt, s') /\ open_fds (kn s') = ∅ /\ calls (kn s') = calls (kn s).
Proof.
  intros Ho. unfold vhost_drop. set (f := fun s => set_vh _ s).
  destruct (drop_fds_spec (f s)) as (s' & E & _ & C & _ & O). exists s'. unfold bind, modify. rewrite E. split_and!; [done| |done].
  rewrite O. apply owns_empty. exact Ho.
Qed.

(** C35: the vhost-net bring-up of [program_vrings], against any kernel.  When it
    succeeds the kernel has been told exactly the calls of [bring_up] in that
    order (owner, features, memory table, every ring, the interrupt relay, and
    only then the tap backend), the instance reports the kernel datapath, and at
    least as many rings as backends are held.  When it fails the calls are a
    prefix of these, so a backend is never attached before the rings and the
    relay, and the instance is no more bound than before.  In both cases the
    eventfds that are open are those the instance holds, and dropping it closes
    them all. *)
Theorem vhost_bring_up hb ram qs feats s tap : owns_fds s -> tap_fd (vh s) = Some tap ->
  let full := bring_up hb ram (next_fd (kn s)) tap qs feats (N.to_nat (tap_queues (vh s))) in
  match program_vrings hb ram qs feats s with
  | (Ok _, s') => calls (kn s') = calls (kn s) ++ full /\ kernel_datapath (vh s') = true /\
      (N.to_nat (tap_queues (vh s')) <= length (queue_fds (vh s')))%nat /\ open_fds (kn (vhost_drop s').2) = ∅
  | (Err _, s') => (exists l, l `prefix_of` full /\ calls (kn s') = calls (kn s) ++ l) /\ bound (vh s') = bound (vh s) /\
      open_fds (kn (vhost_drop s').2) = ∅
  | _ => False
  end.
Proof.
  intros Ho Ht full. destruct (program_vrings_brought hb ram qs feats s tap Ho Ht) as (L & O & R). fold full in L.
  destruct (vhost_drop_closes _ O) as (sd & E & Od & _).
  destruct (program_vrings hb ram qs feats s) as [[[]|e| |] s']; simpl in E, O; try done; rewrite E.
  - by destruct R as (R1 & R2 & R3).
  - done.
Qed.

(** Two rings of a guest of 1 MiB. *)
Definition demo_ring (at_ : N) : QueueState := 
  {| q_num := 256; q_ready := 1; q_desc := at_; q_avail := at_ + 4096; q_used := at_ + 8192; q_last_avail := 7 |}.
Definition demo_inst (answers : list bool) : VhostSt :=
  MkVS (MkVhost false false (Some 9) 2 None false []) (MkKernel answers [] ∅ 20).

Lemma demo_inst_owns l : owns_fds (demo_inst l).
Proof. split; [done|]. intros f Hf. change (f ∈ (∅ : gset N)) in Hf. set_solver. Qed.

Lemma vhost_bring_up_witness :
  tap_fd (vh (demo_inst [])) = Some 9 /\
  match program_vrings 4096 (N.shiftl 1 20) [demo_ring 65536; demo_ring 131072] 0 (demo_inst []) with
  | (Ok _, s') => calls (kn s') = bring_up 4096 (N.shiftl 1 20) 20 9 [demo_ring 65536; demo_ring 131072] 0 2 | _ => False end.
Proof.
  split; [reflexivity|].
  pose proof (vhost_bring_up 4096 (N.shiftl 1 20) [demo_ring 65536; demo_ring 131072] 0 (demo_inst []) 9 (demo_inst_owns []) eq_refl) as H.
  cbv zeta in H. revert H. assert (exists s', program_vrings 4096 (N.shiftl 1 20) [demo_ring 65536; demo_ring 131072] 0 (demo_inst []) = (Ok tt, s')) as [s' E].
  { eexists. vm_compute. reflexivity. }
  rewrite E. intros [H _]. exact H.
Defined.

(** The second eventfd fails: six calls were made, the first
    eventfd is closed again and nothing is left open. *)
Example vhost_eventfd_fails :
  let r := program_vrings 4096 (N.shiftl 1 20) [demo_ring 65536; demo_ring 131072] 0 (demo_inst [true; true; true; true; true; true; true; false]) in
  r.1 = Err Hypervisor /\ length (calls (kn r.2)) = 6%nat /\ open_fds (kn r.2) = ∅ /\ queue_fds (vh r.2) = [].
Proof. vm_compute. done. Qed.

(** A ring is accepted when its first byte is inside guest RAM: the used ring of
    256 entries that starts in the last byte of RAM is given to the kernel,
    which writes 2054 bytes from there. *)
Definition edge_ring : QueueState :=
  {| q_num := 256; q_ready := 1; q_desc := 65536; q_avail := 69632; q_used := N.shiftl 1 20 - 1; q_last_avail := 0 |}.

Lemma ring_past_ram_accepted :
  let ram := N.shiftl 1 20 in
  let r := program_vrings 4096 ram [edge_ring; edge_ring] 0 (demo_inst []) in
  r.1 = Ok tt /\ SetVringAddr 0 (4096 + 65536) (4096 + ram - 1) (4096 + 69632) ∈ calls (kn r.2) /\ ram < q_used edge_ring + 6 + 8 * q_num edge_ring.
Proof.
  split; [by vm_compute|]. split; [|by vm_compute]. apply list_elem_of_lookup. exists 4%nat. by vm_compute.
Qed.
