(* ===== verification/QueueService.v ===== *)
(** * The queue service

    [crates/fluxvm-hypervisor/src/queue_service.rs]: the state behind the one
    mutex that all queue handlers share, the service of a guest notify on each
    device, the late binding of vhost-net, and the worker thread that polls the
    notify eventfds and the tap.

    Devices are those of [VirtioNet], [VirtioBlk], [VirtioVsock],
    [VirtioBalloon] and [VirtioRng]; vhost-net instances are those of [Vhost],
    each with its own view of the kernel.  The net limiter and the block limiter
    are of any type with [RateLimit].  Log lines are left out, and with them the
    text of an error in the published detail. *)

From stdpp Require Import prelude list gmap strings.
From Stdlib Require Import NArith Lia.
From S2P Require Import Prelude RustStr GuestMemory Virtqueue VirtioMmio RateLimiter Vhost.
From S2P Require VirtioBlk VirtioRng VirtioBalloon VirtioNet VirtioNetRx VirtioVsock.
Import VirtioNet(Tap, NetStats, RxPump, NoBuffers, Idle, More).

Definition QUEUE_NOTIFY_OFFSET : u64 := 0x50.
Definition no_stats : NetStats :=
  {| VirtioNet.rx_frames := 0; VirtioNet.rx_bytes := 0; VirtioNet.rx_no_buffer := 0; VirtioNet.rx_too_small := 0;
     VirtioNet.rx_invalid := 0; VirtioNet.rx_rate_limited := 0; VirtioNet.tx_frames := 0 |}.

Inductive Dev := DNet | DBlk | DVsock | DBalloon | DRng.

#[global] Instance Dev_eq_dec : EqDecision Dev.
Proof. solve_decision. Defined.

Section Service.
Context {L : Type} `{RateLimit L}.

(** What the host does for the balloon and the vsock backend. *)
Context (dontneed : usize -> usize -> bytes -> bytes) (key_order : gmap u32 VirtioVsock.ConnState -> list u32).

(** The fuel of the transmit and control loops of virtio-net, which have no
    bound of their own. *)
Context (net_fuel : nat).

Record QueueService := MkSvc {
  sv_host : N;                     (* where guest RAM is mapped *)
  sv_mem : GuestMemory;
  sv_net : option VirtioMmio;
  sv_blk : option VirtioMmio;
  sv_blk_backend : option VirtioBlk.BlockBackend;
  sv_vsock : option VirtioMmio;
  sv_vsock_backend : option VirtioVsock.VsockBackend;
  sv_balloon : option VirtioMmio;
  sv_rng : option VirtioMmio;
  sv_rng_pool : list bytes;        (* what getrandom will return *)
  sv_net_limiter : L;
  sv_blk_limiter : L;
  sv_tap : option Tap;
  sv_vhost : option VhostSt;
  sv_vhost_pairs : list VhostSt;
  sv_datapath : NetDatapath;
  sv_max_pairs : u32;
  sv_net_stats : NetStats
}.

Definition svc_net (mem : GuestMemory) (net : option VirtioMmio) (lim : L) (tap : option Tap) (st : NetStats) (s : QueueService) : QueueService :=
  MkSvc (sv_host s) mem net (sv_blk s) (sv_blk_backend s) (sv_vsock s) (sv_vsock_backend s) (sv_balloon s) (sv_rng s) (sv_rng_pool s)
    lim (sv_blk_limiter s) tap (sv_vhost s) (sv_vhost_pairs s) (sv_datapath s) (sv_max_pairs s) st.
Definition svc_blk (mem : GuestMemory) (d : option VirtioMmio) (be : option VirtioBlk.BlockBackend) (lim : L) (s : QueueService) : QueueService :=
  MkSvc (sv_host s) mem (sv_net s) d be (sv_vsock s) (sv_vsock_backend s) (sv_balloon s) (sv_rng s) (sv_rng_pool s)
    (sv_net_limiter s) lim (sv_tap s) (sv_vhost s) (sv_vhost_pairs s) (sv_datapath s) (sv_max_pairs s) (sv_net_stats s).
Definition svc_vsock (mem : GuestMemory) (d : option VirtioMmio) (be : option VirtioVsock.VsockBackend) (s : QueueService) : QueueService :=
  MkSvc (sv_host s) mem (sv_net s) (sv_blk s) (sv_blk_backend s) d be (sv_balloon s) (sv_rng s) (sv_rng_pool s)
    (sv_net_limiter s) (sv_blk_limiter s) (sv_tap s) (sv_vhost s) (sv_vhost_pairs s) (sv_datapath s) (sv_max_pairs s) (sv_net_stats s).
Definition svc_balloon (mem : GuestMemory) (d : option VirtioMmio) (s : QueueService) : QueueService :=
  MkSvc (sv_host s) mem (sv_net s) (sv_blk s) (sv_blk_backend s) (sv_vsock s) (sv_vsock_backend s) d (sv_rng s) (sv_rng_pool s)
    (sv_net_limiter s) (sv_blk_limiter s) (sv_tap s) (sv_vhost s) (sv_vhost_pairs s) (sv_datapath s) (sv_max_pairs s) (sv_net_stats s).
Definition svc_rng (mem : GuestMemory) (d : option VirtioMmio) (pool : list bytes) (s : QueueService) : QueueService :=
  MkSvc (sv_host s) mem (sv_net s) (sv_blk s) (sv_blk_backend s) (sv_vsock s) (sv_vsock_backend s) (sv_balloon s) d pool
    (sv_net_limiter s) (sv_blk_limiter s) (sv_tap s) (sv_vhost s) (sv_vhost_pairs s) (sv_datapath s) (sv_max_pairs s) (sv_net_stats s).
Definition svc_vhost (v : option VhostSt) (vs : list VhostSt) (dp : NetDatapath) (s : QueueService) : QueueService :=
  MkSvc (sv_host s) (sv_mem s) (sv_net s) (sv_blk s) (sv_blk_backend s) (sv_vsock s) (sv_vsock_backend s) (sv_balloon s) (sv_rng s) (sv_rng_pool s)
    (sv_net_limiter s) (sv_blk_limiter s) (sv_tap s) v vs dp (sv_max_pairs s) (sv_net_stats s).

(** [QueueService::new] *)
Definition new_service (host : N) (mem : GuestMemory) (net blk : option VirtioMmio) (blk_be : option VirtioBlk.BlockBackend)
    (vsock : option VirtioMmio) (vsock_be : option VirtioVsock.VsockBackend) (balloon rng : option VirtioMmio) (pool : list bytes)
    (net_lim blk_lim : L) (tap : option Tap) (vhost : option VhostSt) (pairs : list VhostSt) (dp : NetDatapath) : QueueService :=
  MkSvc host mem net blk blk_be vsock vsock_be balloon rng pool net_lim blk_lim tap vhost pairs dp
    (match net with Some n => N.max 1 (net_max_pairs (state n)) | None => 1 end) no_stats.

(** ** Which datapath *)

Definition vhost_kernel (v : option VhostSt) : bool := match v with Some v => kernel_datapath (vh v) | None => false end.

Definition vhost_owns_tap (s : QueueService) : bool := vhost_kernel (sv_vhost s).

Definition rx_poll_fd (s : QueueService) : option Tap :=
  match sv_net s with None => None | Some _ => if vhost_owns_tap s then None else sv_tap s end.

Definition pair_vhost (pair : nat) (s : QueueService) : option VhostSt :=
  match pair with O => sv_vhost s | S p => sv_vhost_pairs s !! p end.

Definition pair_kernel (pair : nat) (s : QueueService) : bool := vhost_kernel (pair_vhost pair s).

Definition vhost_all_kernel (s : QueueService) : bool :=
  bool_decide (is_Some (sv_vhost s)) && (lenN (sv_vhost_pairs s) + 1 =? sv_max_pairs s) &&
  forallb (fun p => pair_kernel p s) (seq 0 (N.to_nat (sv_max_pairs s))).

Definition publish_datapath (detail : rstr) (s : QueueService) : QueueService :=
  let kernel := vhost_all_kernel s in
  svc_vhost (sv_vhost s) (sv_vhost_pairs s) (MkPath kernel (if kernel then sv_max_pairs s else 1) detail) s.

(** [*v = x], where [v] is the instance of the pair. *)
Definition put_vhost (pair : nat) (x : VhostSt) (s : QueueService) : QueueService :=
  match pair with
  | O => svc_vhost (Some x) (sv_vhost_pairs s) (sv_datapath s) s
  | S p => svc_vhost (sv_vhost s) (<[p := x]> (sv_vhost_pairs s)) (sv_datapath s) s
  end.

Definition programmed_detail (pair : nat) (s : QueueService) : rstr :=
  if vhost_all_kernel s then bstr "vhost-net rings programmed, irq relay running"
  else bstr "vhost-net pair " ++ to_decimal (N.of_nat pair) ++ bstr " programmed; waiting for the other pairs".

(** Both queues of a pair are set up. *)
Definition pair_ready (qs : list QueueState) : bool := forallb ring_ready qs.

Definition try_program_pair (pair : nat) : M QueueService unit := fun s =>
  match sv_net s with
  | None => (Ok tt, s)
  | Some net =>
      let st := state net in
      let lo := (pair * 2)%nat in
      if (N.to_nat (num_queues st) <? lo + 2)%nat then (Ok tt, s)
      else if (length (queues st) <? lo + 2)%nat then (Panic, s)
      else
        let qs := take 2 (drop lo (queues st)) in
        match pair_vhost pair s with
        | None => (Ok tt, s)
        | Some v =>
            if negb (has_tap (vh v)) || rings_programmed (vh v) || negb (pair_ready qs) then (Ok tt, s)
            else
              match program_vrings (sv_host s) (mem_len (sv_mem s)) qs (driver_features st) v with
              | (Ok _, v) => let s := put_vhost pair v s in (Ok tt, publish_datapath (programmed_detail pair s) s)
              | (Err _, _) => (Ok tt, publish_datapath (bstr "vhost-net cannot program vrings") (svc_vhost None [] (sv_datapath s) s))
              | (Panic, v) => (Panic, put_vhost pair v s)
              | (Loop, v) => (Loop, put_vhost pair v s)
              end
        end
  end.

(** [for pair in 0..self.net_max_pairs], [n] of them left. *)
Fixpoint program_pairs (n pair : nat) : M QueueService unit :=
  match n with
  | O => ret tt
  | S n =>
      let! s := get in
      match sv_vhost s with
      | None => ret tt
      | Some _ => do! try_program_pair pair in program_pairs n (S pair)
      end
  end.

Definition program_pending_vhost : M QueueService unit :=
  let! s := get in program_pairs (N.to_nat (sv_max_pairs s)) 0.

(** [v.signal_kick(i)], with its error ignored. *)
Definition kick_pair (pair i : nat) : M QueueService unit := fun s =>
  match pair_vhost pair s with
  | None => (Ok tt, s)
  | Some v => (Ok tt, put_vhost pair (signal_kick i v).2 s)
  end.

Definition kick_vhost (pair : nat) (q : u32) : M QueueService unit := kick_pair pair (N.to_nat (q mod 2)).

Fixpoint kick_all (n pair : nat) : M QueueService unit :=
  match n with O => ret tt | S n => do! kick_pair pair 0 in do! kick_pair pair 1 in kick_all n (S pair) end.

Definition rebind_vhost_after_restore : M QueueService unit :=
  let! s := get in
  match sv_net s, sv_vhost s with
  | Some _, Some _ =>
      do! program_pending_vhost in
      let! s := get in
      if vhost_all_kernel s then
        do! kick_all (N.to_nat (sv_max_pairs s)) 0 in
        modify (publish_datapath (bstr "vhost-net re-bound after snapshot restore"))
      else
        match sv_vhost s with
        | Some _ => modify (publish_datapath (bstr "snapshot restored; vhost-net binds once the guest rings are ready"))
        | None => ret tt
        end
  | _, _ => ret tt
  end.

(** ** Serving a notify *)

(** The registers of a device after its handler, with the interrupt raised. *)
Definition after_handler (raise : bool) (st : VirtioState) (d : VirtioMmio) : VirtioMmio :=
  let d := with_state st d in if raise then raise_vring_interrupt d else d.

(** What the handler's outcome is for the service: its error is printed. *)
Definition swallow {A} (o : outcome A) : outcome unit :=
  match o with Ok _ => Ok tt | Err _ => Ok tt | Panic => Panic | Loop => Loop end.

Definition succeeded {A} (o : outcome A) : bool := match o with Ok _ => true | _ => false end.

Definition net_rx : M QueueService RxPump := fun s =>
  match sv_net s, sv_tap s with
  | Some net, Some tap =>
      if vhost_owns_tap s then (Ok NoBuffers, s)
      else
        match queues (state net) with
        | [] => (Ok NoBuffers, s)
        | _ =>
            let '(o, d) := VirtioNet.rx_pump VirtioNet.RX_FRAME_MAX 32
              {| VirtioNet.x_mem := sv_mem s; VirtioNet.x_st := state net; VirtioNet.x_tap := tap;
                 VirtioNet.x_lim := Some (sv_net_limiter s); VirtioNet.x_stats := sv_net_stats s |} in
            let irq := match o with Ok (_, irq) => irq | _ => false end in
            (match o with Ok (p, _) => Ok p | Err e => Err e | Panic => Panic | Loop => Loop end,
             svc_net (VirtioNet.x_mem d) (Some (after_handler irq (VirtioNet.x_st d) net))
               (default (sv_net_limiter s) (VirtioNet.x_lim d)) (Some (VirtioNet.x_tap d)) (VirtioNet.x_stats d) s)
        end
  | _, _ => (Ok NoBuffers, s)
  end.

Definition as_netdev (net : VirtioMmio) (s : QueueService) : VirtioNet.NetDev L :=
  {| VirtioNet.n_mem := sv_mem s; VirtioNet.n_st := state net; VirtioNet.n_tap := sv_tap s; VirtioNet.n_lim := Some (sv_net_limiter s) |}.

Definition from_netdev (raise : bool) (stats : NetStats) (net : VirtioMmio) (d : VirtioNet.NetDev L) (s : QueueService) : QueueService :=
  svc_net (VirtioNet.n_mem d) (Some (after_handler raise (VirtioNet.n_st d) net)) (default (sv_net_limiter s) (VirtioNet.n_lim d)) (VirtioNet.n_tap d) stats s.

Definition count_tx (n : u64) (t : NetStats) : NetStats :=
  {| VirtioNet.rx_frames := VirtioNet.rx_frames t; VirtioNet.rx_bytes := VirtioNet.rx_bytes t; VirtioNet.rx_no_buffer := VirtioNet.rx_no_buffer t;
     VirtioNet.rx_too_small := VirtioNet.rx_too_small t; VirtioNet.rx_invalid := VirtioNet.rx_invalid t;
     VirtioNet.rx_rate_limited := VirtioNet.rx_rate_limited t; VirtioNet.tx_frames := U.add 64 (VirtioNet.tx_frames t) n |}.

(** The userspace pump of the first pair. *)
Definition pump_net (q : u32) (net : VirtioMmio) : M QueueService unit := fun s =>
  let '(o, d) := VirtioNet.handle_notify net_fuel q (as_netdev net s) in
  let tx := succeeded o && (q =? 1) in
  (swallow o, from_netdev tx (match o with Ok n => if q =? 1 then count_tx n (sv_net_stats s) else sv_net_stats s | _ => sv_net_stats s end) net d s).

Definition ctrl_net (q : u32) (allow_multi : bool) (net : VirtioMmio) : M QueueService unit := fun s =>
  let '(o, d) := VirtioNet.handle_ctrl net_fuel (N.to_nat q) allow_multi (as_netdev net s) in
  (swallow o, from_netdev (match o with Ok n => 0 <? n | _ => false end) (sv_net_stats s) net d s).

(** [self.net], which is there. *)
Definition with_net (k : VirtioMmio -> M QueueService unit) : M QueueService unit :=
  let! s := get in match sv_net s with None => ret tt | Some net => k net end.

Definition notify_net_ctrl (q : u32) : M QueueService unit :=
  do! program_pending_vhost in
  let! s := get in
  with_net (ctrl_net q (vhost_all_kernel s)).

Definition notify_net (q : u32) : M QueueService unit :=
  with_net (fun _ =>
    let! s := get in
    if (1 <? sv_max_pairs s) && (q =? 2 * sv_max_pairs s) then notify_net_ctrl q
    else
      let pair := N.to_nat (q / 2) in
      if pair_kernel pair s then kick_vhost pair q
      else
        do! program_pending_vhost in
        let! s := get in
        if pair_kernel pair s then kick_vhost pair q
        else if (0 <? pair)%nat then ret tt
        else with_net (pump_net q)).

Definition kick_rx_vhost : M QueueService bool :=
  let! s := get in
  match sv_net s with
  | None => ret false
  | Some _ =>
      do! (if negb (pair_kernel 0 s) then program_pending_vhost else ret tt) in
      let! s := get in
      if negb (pair_kernel 0 s) then ret false
      else do! kick_vhost 0 0 in ret true
  end.

Definition notify_blk (q : u32) : M QueueService unit := fun s =>
  match sv_blk s, sv_blk_backend s with
  | Some blk, Some be =>
      let '(o, d) := VirtioBlk.handle_notify q
        {| VirtioBlk.bd_mem := sv_mem s; VirtioBlk.bd_st := state blk; VirtioBlk.bd_backend := be; VirtioBlk.bd_lim := Some (sv_blk_limiter s) |} in
      (swallow o, svc_blk (VirtioBlk.bd_mem d) (Some (after_handler (succeeded o) (VirtioBlk.bd_st d) blk)) (Some (VirtioBlk.bd_backend d))
                    (default (sv_blk_limiter s) (VirtioBlk.bd_lim d)) s)
  | _, _ => (Ok tt, s)
  end.

Definition notify_vsock (q : u32) : M QueueService unit := fun s =>
  match sv_vsock s with
  | Some vs =>
      let '(o, d) := VirtioVsock.handle_notify q
        {| VirtioVsock.v_mem := sv_mem s; VirtioVsock.v_st := state vs; VirtioVsock.v_be := sv_vsock_backend s |} in
      (swallow o, svc_vsock (VirtioVsock.v_mem d) (Some (after_handler (succeeded o) (VirtioVsock.v_st d) vs)) (VirtioVsock.v_be d) s)
  | None => (Ok tt, s)
  end.

Definition notify_balloon (q : u32) : M QueueService unit := fun s =>
  match sv_balloon s with
  | Some b =>
      let '(o, d) := VirtioBalloon.handle_notify dontneed q {| VirtioBalloon.bd_mem := sv_mem s; VirtioBalloon.bd_st := state b |} in
      (swallow o, svc_balloon (VirtioBalloon.bd_mem d) (Some (after_handler (succeeded o) (VirtioBalloon.bd_st d) b)) s)
  | None => (Ok tt, s)
  end.

Definition notify_rng (q : u32) : M QueueService unit := fun s =>
  match sv_rng s with
  | Some r =>
      let '(o, d) := VirtioRng.handle_notify q {| VirtioRng.rd_mem := sv_mem s; VirtioRng.rd_st := state r; VirtioRng.rd_pool := sv_rng_pool s |} in
      (swallow o, svc_rng (VirtioRng.rd_mem d) (Some (after_handler (succeeded o) (VirtioRng.rd_st d) r)) (VirtioRng.rd_pool d) s)
  | None => (Ok tt, s)
  end.

Definition vsock_poll : M QueueService unit := fun s =>
  match sv_vsock s, sv_vsock_backend s with
  | Some vs, Some be =>
      let '(o, d) := VirtioVsock.poll key_order
        {| VirtioVsock.v_mem := sv_mem s; VirtioVsock.v_st := state vs; VirtioVsock.v_be := Some be |} in
      (swallow o, svc_vsock (VirtioVsock.v_mem d) (Some (after_handler (match o with Ok n => 0 <? n | _ => false end) (VirtioVsock.v_st d) vs)) (VirtioVsock.v_be d) s)
  | _, _ => (Ok tt, s)
  end.

Definition device (dev : Dev) (s : QueueService) : option VirtioMmio :=
  match dev with DNet => sv_net s | DBlk => sv_blk s | DVsock => sv_vsock s | DBalloon => sv_balloon s | DRng => sv_rng s end.

Definition notify (dev : Dev) (q : u32) : M QueueService unit :=
  match dev with
  | DNet => notify_net q
  | DBlk => notify_blk q
  | DVsock => notify_vsock q
  | DBalloon => notify_balloon q
  | DRng => notify_rng q
  end.

(** ** Registering the notifies *)

(** The queues that get an eventfd: device, window, queue. *)
Definition dev_queues (dev : Dev) (s : QueueService) : list (Dev * u64 * u32) :=
  match device dev s with
  | None => []
  | Some d => map (fun i => (dev, U.add 64 (base d) QUEUE_NOTIFY_OFFSET, N.of_nat i)) (seq 0 (N.to_nat (N.min (num_queues (state d)) (N.of_nat MAX_QUEUES))))
  end.

Definition wanted_queues (s : QueueService) : list (Dev * u64 * u32) :=
  concat (map (fun dev => dev_queues dev s) [DNet; DBlk; DVsock; DBalloon; DRng]).

(** ** The worker *)

(** What [poll] says: nothing for 100 ms, an error, or which eventfds could be
    read, and whether the tap is ready. *)
Inductive PollResult := Timeout | PollError | Ready (evts : list bool) (tap_ready : bool).

(** The worker's own variables: it has a tap, tap polling is armed, the kernel
    has RX. *)
Record Worker := MkWorker { w_tap : bool; rx_armed : bool; kernel_rx : bool }.

Definition start_worker (s : QueueService) : Worker :=
  let t := bool_decide (is_Some (rx_poll_fd s)) in MkWorker t t false.

(** The events asked of the tap. *)
Definition poll_tap (paused : bool) (w : Worker) : bool := w_tap w && rx_armed w && negb paused && negb (kernel_rx w).

(** The eventfds that fired, in order; [rx_kick] is asked for by queue 0. *)
Fixpoint serve_bindings (fired : list (Dev * u32)) (w : Worker) (rx_kick : bool) : M QueueService (Worker * bool) :=
  match fired with
  | [] => ret (w, rx_kick)
  | (dev, q) :: fired =>
      if bool_decide (dev = DNet) && (q =? 0) && w_tap w then
        let! kernel := kick_rx_vhost in
        if kernel then serve_bindings fired (MkWorker (w_tap w) (rx_armed w) true) rx_kick
        else serve_bindings fired w true
      else do! notify dev q in serve_bindings fired w rx_kick
  end.

(** The receive loop; [stops] are the values read from the stop flag, and it
    stays up after the last. *)
Fixpoint rx_drain (fuel : nat) (stops : list bool) (w : Worker) : M QueueService Worker :=
  match fuel with
  | O => diverge
  | S fuel => fun s =>
      let disarmed := MkWorker (w_tap w) false (kernel_rx w) in
      match net_rx s with
      | (Ok More, s) => if hd false stops then (Ok w, s) else rx_drain fuel (tl stops) w s
      | (Ok Idle, s) => (Ok w, s)
      | (Ok NoBuffers, s) => (Ok disarmed, s)
      | (Err _, s) => (Ok disarmed, s)
      | (Panic, s) => (Panic, s)
      | (Loop, s) => (Loop, s)
      end
  end.

Definition fired_of (bindings : list (Dev * u32)) (evts : list bool) : list (Dev * u32) :=
  map fst (filter (fun p => p.2 = true) (zip bindings evts)).

(** One turn of the loop after [poll]; [paused] is the second reading of the
    flag. *)
Definition worker_turn (fuel : nat) (bindings : list (Dev * u32)) (r : PollResult) (paused : bool) (stops : list bool) (w : Worker) : M QueueService Worker :=
  match r with
  | Timeout => ret (MkWorker (w_tap w) (w_tap w) (kernel_rx w))
  | PollError => ret w
  | Ready evts tap_ready =>
      let! (w, rx_kick) := serve_bindings (fired_of bindings evts) w false in
      if w_tap w && negb (kernel_rx w) then
        let w := MkWorker (w_tap w) (rx_armed w || rx_kick) (kernel_rx w) in
        if (tap_ready || rx_kick) && negb paused then rx_drain fuel stops w else ret w
      else ret w
  end.

End Service.
Arguments QueueService : clear implicits.

(** ** Relations the service keeps *)

Section Kept.
Context {L : Type} `{RateLimit L}.
Context (dontneed : usize -> usize -> bytes -> bytes) (key_order : gmap u32 VirtioVsock.ConnState -> list u32) (net_fuel : nat).

Abbreviation Svc := (QueueService L).

(** Part of the state that decides the datapath. *)
Definition dp_view (s : Svc) := (sv_vhost s, sv_vhost_pairs s, sv_datapath s, sv_max_pairs s).

(** The registers of a data queue. *)
Definition net_queue (i : nat) (s : Svc) : option QueueState :=
  match sv_net s with Some n => queues (state n) !! i | None => None end.

Lemma dp_view_kernel (s s' : Svc) : dp_view s' = dp_view s -> vhost_all_kernel s' = vhost_all_kernel s.
Proof.
  unfold dp_view, vhost_all_kernel. intros [= E1 E2 _ E4]. rewrite E1, E2, E4. f_equal.
  induction (seq 0 _) as [|p l IH]; simpl; [done|]. rewrite IH. f_equal. unfold pair_kernel, pair_vhost. destruct p; by rewrite ?E1, ?E2.
Qed.

Lemma all_kernel_inv (s : Svc) : vhost_all_kernel s = true ->
  (exists v, sv_vhost s = Some v) /\ lenN (sv_vhost_pairs s) + 1 = sv_max_pairs s /\
  forall p, (p < N.to_nat (sv_max_pairs s))%nat -> pair_kernel p s = true.
Proof.
  unfold vhost_all_kernel. intros [[H1 H2]%andb_prop H3]%andb_prop. apply bool_decide_eq_true in H1. apply N.eqb_eq in H2.
  rewrite forallb_forall in H3. split_and!; [by destruct H1 as [v ?]; exists v|done|]. intros p Hp. apply H3, in_seq. lia.
Qed.

Lemma all_kernel_first (s : Svc) : vhost_all_kernel s = true -> vhost_owns_tap s = true.
Proof. intros (_ & Hl & Hp)%all_kernel_inv. apply (Hp 0%nat). lia. Qed.

(** A kick only adds to the calls of the kernel. *)
Lemma signal_kick_vh i v : vh (signal_kick i v).2 = vh v.
Proof.
  unfold signal_kick, bind, get, ok_or. destruct (kick_fd (vh v) i) as [fd|]; [|done]. simpl.
  destruct (ioctl_spec (Kick fd) v) as [_ [E _ _]]. done.
Qed.

Lemma put_vhost_same pair v x (s : Svc) : pair_vhost pair s = Some v -> vh x = vh v ->
  (forall p, option_map vh (pair_vhost p (put_vhost pair x s)) = option_map vh (pair_vhost p s)) /\
  length (sv_vhost_pairs (put_vhost pair x s)) = length (sv_vhost_pairs s) /\
  (is_Some (sv_vhost (put_vhost pair x s)) <-> is_Some (sv_vhost s)).
Proof.
  intros Hv Hx. unfold put_vhost. destruct pair as [|k]; simpl in Hv |- *.
  - split_and!; [|done|rewrite Hv; split; eauto]. intros [|p]; simpl; [by rewrite Hv; simpl; rewrite Hx|done].
  - split_and!; [|apply length_insert|done]. intros [|p]; simpl; [done|]. destruct (decide (k = p)) as [->|Hne].
    + rewrite list_lookup_insert_eq by (by eapply lookup_lt_Some). rewrite Hv. simpl. by rewrite Hx.
    + by rewrite list_lookup_insert_ne.
Qed.

(** Whether the kernel has the rings depends on the instances only. *)
Lemma all_kernel_ext (s s' : Svc) : sv_max_pairs s' = sv_max_pairs s ->
  (forall p, option_map vh (pair_vhost p s') = option_map vh (pair_vhost p s)) ->
  length (sv_vhost_pairs s') = length (sv_vhost_pairs s) -> vhost_all_kernel s' = vhost_all_kernel s.
Proof.
  intros E1 E2 E3. unfold vhost_all_kernel. rewrite E1. f_equal; [f_equal|].
  - specialize (E2 0%nat). simpl in E2. apply bool_decide_ext. destruct (sv_vhost s'), (sv_vhost s); split; intros []; try done; eauto.
  - unfold lenN. by rewrite E3.
  - induction (seq 0 _) as [|p l IH]; simpl; [done|]. rewrite IH. f_equal. unfold pair_kernel, vhost_kernel.
    specialize (E2 p). destruct (pair_vhost p s'), (pair_vhost p s); simpl in E2; congruence.
Qed.

(** A relation between the states before and after: it is enough that the leaves
    keep it. *)
Class SvcRel (R : Svc -> Svc -> Prop) := {
  sr_pre :: PreOrder R;
  sr_pairs : forall s s', R s s' -> sv_max_pairs s' = sv_max_pairs s;
  sr_frame : forall s s', dp_view s' = dp_view s -> sv_tap s' = sv_tap s -> sv_net_limiter s' = sv_net_limiter s -> sv_net s' = sv_net s -> R s s';
  sr_kick : forall pair i, mrel R (kick_pair pair i);
  sr_try : forall pair, mrel R (try_program_pair pair);
  sr_publish : forall d, mrel R (modify (publish_datapath d));
  sr_ctrl : forall am net s, sv_net s = Some net -> R s (ctrl_net net_fuel (2 * sv_max_pairs s) am net s).2;
  sr_pump : forall q net s, sv_net s = Some net -> pair_kernel 0 s = false -> R s (pump_net net_fuel q net s).2;
  sr_rx : mrel R net_rx }.

Section Lift.
Context (R : Svc -> Svc -> Prop) `{!SvcRel R}.

Lemma kept_blk q : mrel R (notify_blk q).
Proof. intros s. unfold notify_blk. destruct (sv_blk s), (sv_blk_backend s); try reflexivity. destruct (VirtioBlk.handle_notify _ _) as [o d]. by apply sr_frame. Qed.
Lemma kept_vsock q : mrel R (notify_vsock q).
Proof. intros s. unfold notify_vsock. destruct (sv_vsock s); try reflexivity. destruct (VirtioVsock.handle_notify _ _) as [o d]. by apply sr_frame. Qed.
Lemma kept_balloon q : mrel R (notify_balloon dontneed q).
Proof. intros s. unfold notify_balloon. destruct (sv_balloon s); try reflexivity. destruct (VirtioBalloon.handle_notify _ _) as [o d]. by apply sr_frame. Qed.
Lemma kept_rng q : mrel R (notify_rng q).
Proof. intros s. unfold notify_rng. destruct (sv_rng s); try reflexivity. destruct (VirtioRng.handle_notify _ _) as [o d]. by apply sr_frame. Qed.
Lemma kept_poll : mrel R (vsock_poll key_order).
Proof. intros s. unfold vsock_poll. destruct (sv_vsock s), (sv_vsock_backend s); try reflexivity. destruct (VirtioVsock.poll _ _) as [o d]. by apply sr_frame. Qed.

Lemma kept_pairs n p : mrel R (program_pairs n p).
Proof.
  revert p. induction n as [|n IH]; intros p; cbn [program_pairs]; [mrel_tac|]. apply mrel_bind; [apply _|mrel_tac|]. intros t.
  destruct (sv_vhost t); [|mrel_tac]. apply mrel_bind; [apply _|apply sr_try|]. intros _. apply IH.
Qed.

Lemma kept_pending : mrel R program_pending_vhost.
Proof. unfold program_pending_vhost. apply mrel_bind; [apply _|mrel_tac|]. intros s. apply kept_pairs. Qed.

Lemma kept_kick_all n p : mrel R (kick_all n p).
Proof.
  revert p. induction n as [|n IH]; intros p; cbn [kick_all]; [mrel_tac|]. apply mrel_bind; [apply _|apply sr_kick|]. intros _.
  apply mrel_bind; [apply _|apply sr_kick|]. intros _. apply IH.
Qed.

Lemma kept_rebind : mrel R rebind_vhost_after_restore.
Proof.
  unfold rebind_vhost_after_restore. apply mrel_bind; [apply _|mrel_tac|]. intros s. destruct (sv_net s); [|mrel_tac].
  destruct (sv_vhost s); [|mrel_tac]. apply mrel_bind; [apply _|apply kept_pending|]. intros _. apply mrel_bind; [apply _|mrel_tac|]. intros t.
  destruct (vhost_all_kernel t).
  - apply mrel_bind; [apply _|apply kept_kick_all|]. intros _. apply sr_publish.
  - destruct (sv_vhost t); [apply sr_publish|mrel_tac].
Qed.

Lemma with_net_eq (k : VirtioMmio -> M Svc unit) s : with_net k s = match sv_net s with None => (Ok tt, s) | Some net => k net s end.
Proof. unfold with_net, bind, get. by destruct (sv_net s). Qed.

Lemma after_pending (k : M Svc unit) s : (forall s', R s s' -> R s' (k s').2) -> R s ((do! program_pending_vhost in k) s).2.
Proof.
  intros H2. pose proof (kept_pending s) as H1. unfold bind. destruct (program_pending_vhost s) as [[[]|e| |] s1]; try done.
  etransitivity; [exact H1|by apply H2].
Qed.

Lemma kept_notify_net q : mrel R (notify_net net_fuel q).
Proof.
  intros s. unfold notify_net. rewrite with_net_eq. destruct (sv_net s) as [net|] eqn:Hn; [|reflexivity].
  unfold bind at 1, get at 1. destruct ((_ <? _) && _) eqn:Hc.
  - apply andb_prop in Hc as [_ ->%N.eqb_eq]. apply after_pending. intros s1 P1%sr_pairs.
    unfold bind at 1, get at 1. rewrite with_net_eq. destruct (sv_net s1) as [net1|] eqn:Hn1; [|reflexivity].
    rewrite <- P1. by apply sr_ctrl.
  - destruct (pair_kernel (N.to_nat (q / 2)) s) eqn:Hp; [apply sr_kick|]. apply after_pending. intros s1 _.
    unfold bind at 1, get at 1. destruct (pair_kernel _ s1) eqn:Hp1; [apply sr_kick|].
    destruct (0 <? _)%nat eqn:H0; [reflexivity|]. apply Nat.ltb_ge, Nat.le_0_r in H0. rewrite H0 in Hp1.
    rewrite with_net_eq. destruct (sv_net s1) as [net1|] eqn:Hn1; [by apply sr_pump|reflexivity].
Qed.

Lemma kept_notify dev q : mrel R (notify dontneed net_fuel dev q).
Proof. destruct dev; [apply kept_notify_net|apply kept_blk|apply kept_vsock|apply kept_balloon|apply kept_rng]. Qed.

Lemma kept_kick_rx : mrel R kick_rx_vhost.
Proof.
  unfold kick_rx_vhost. apply mrel_bind; [apply _|mrel_tac|]. intros s. destruct (sv_net s); [|mrel_tac].
  apply mrel_bind; [apply _|destruct (negb _); [apply kept_pending|mrel_tac]|]. intros _. apply mrel_bind; [apply _|mrel_tac|]. intros t.
  destruct (negb _); [mrel_tac|]. apply mrel_bind; [apply _|apply sr_kick|]. intros _. mrel_tac.
Qed.

Lemma kept_bindings l w b : mrel R (serve_bindings dontneed net_fuel l w b).
Proof.
  revert w b. induction l as [|[dev q] l IH]; intros w b; cbn [serve_bindings]; [mrel_tac|]. destruct (_ && _).
  - apply mrel_bind; [apply _|apply kept_kick_rx|]. intros []; apply IH.
  - apply mrel_bind; [apply _|apply kept_notify|]. intros _. apply IH.
Qed.

Lemma kept_drain fuel stops w : mrel R (rx_drain fuel stops w).
Proof.
  revert stops. induction fuel as [|fuel IH]; intros stops s; cbn [rx_drain]; [reflexivity|]. pose proof (sr_rx s) as Hr.
  destruct (net_rx s) as [[[]|e| |] s1]; try done. destruct (hd false stops); [done|]. etransitivity; [exact Hr|apply IH].
Qed.

Lemma kept_turn fuel bs r paused stops w : mrel R (worker_turn dontneed net_fuel fuel bs r paused stops w).
Proof.
  destruct r as [| |evts tr]; simpl; [mrel_tac..|]. apply mrel_bind; [apply _|apply kept_bindings|]. intros [w' k].
  destruct (_ && _); [|mrel_tac]. cbv zeta. destruct (_ && _); [apply kept_drain|mrel_tac].
Qed.

End Lift.

(** What can happen to the service, in any order. *)
Inductive SvcOp :=
| OpNotify (dev : Dev) (q : u32)
| OpVsockPoll
| OpRebind
| OpTurn (fuel : nat) (bs : list (Dev * u32)) (r : PollResult) (paused : bool) (stops : list bool) (w : Worker)
| OpGuestRam (m : GuestMemory).   (* the guest writes its RAM *)

Definition run_op (s : Svc) (op : SvcOp) : Svc :=
  match op with
  | OpNotify dev q => (notify dontneed net_fuel dev q s).2
  | OpVsockPoll => (vsock_poll key_order s).2
  | OpRebind => (rebind_vhost_after_restore s).2
  | OpTurn fuel bs r paused stops w => (worker_turn dontneed net_fuel fuel bs r paused stops w s).2
  | OpGuestRam m => svc_balloon m (sv_balloon s) s
  end.

Lemma kept_ops R `{!SvcRel R} ops s : R s (fold_left run_op ops s).
Proof.
  revert s. induction ops as [|op ops IH]; intros s; simpl; [reflexivity|]. etransitivity; [|apply IH].
  destruct op; simpl; [by apply kept_notify|by apply kept_poll|by apply kept_rebind|by apply kept_turn|by apply sr_frame].
Qed.

(** ** The control queue *)

(** What the control handler leaves alone. *)
Definition ctrl_frame (qidx : nat) (d d' : VirtioNet.NetDev L) : Prop :=
  VirtioNet.n_tap d' = VirtioNet.n_tap d /\ VirtioNet.n_lim d' = VirtioNet.n_lim d /\
  forall i, i <> qidx -> queues (VirtioNet.n_st d') !! i = queues (VirtioNet.n_st d) !! i.

#[local] Instance ctrl_frame_preorder qidx : PreOrder (ctrl_frame qidx).
Proof.
  split; [done|]. intros d1 d2 d3 (A1 & A2 & A3) (B1 & B2 & B3). split_and!; [congruence..|]. intros i Hi. by rewrite B3, A3.
Qed.

Lemma frame_on_nmem qidx {A} (m : M GuestMemory A) : mrel (ctrl_frame qidx) (VirtioNet.on_nmem m).
Proof. apply mrel_zoom. done. Qed.
Lemma frame_n_queue qidx i : mrel (ctrl_frame qidx) (VirtioNet.n_queue (L:=L) i).
Proof. intros d. unfold VirtioNet.n_queue. by destruct (queues (VirtioNet.n_st d) !! i). Qed.
Lemma frame_n_bump qidx : mrel (ctrl_frame qidx) (VirtioNet.n_bump (L:=L) qidx).
Proof. intros d. split_and!; [done..|]. intros i Hi. simpl. by rewrite list_lookup_alter_ne. Qed.
Lemma frame_set_pairs qidx n : mrel (ctrl_frame qidx) (modify (fun d : VirtioNet.NetDev L => VirtioNet.set_nst (VirtioNet.set_active_pairs n (VirtioNet.n_st d)) d)).
Proof. done. Qed.

Lemma ctrl_loop_frame fuel qidx q am done : mrel (ctrl_frame qidx) (VirtioNet.ctrl_loop (L:=L) fuel qidx q am done).
Proof.
  revert done. induction fuel as [|fuel IH]; intros done; cbn [VirtioNet.ctrl_loop]; [mrel_tac|].
  unfold VirtioNet.ctrl_one. repeat first
    [ apply frame_on_nmem | apply frame_n_queue | apply frame_n_bump | apply frame_set_pairs | apply IH
    | progress mrel_tac | intros [] ].
Qed.

Lemma handle_ctrl_frame fuel qidx am d : ctrl_frame qidx d (VirtioNet.handle_ctrl (L:=L) fuel qidx am d).2.
Proof.
  revert d. change (mrel (ctrl_frame qidx) (VirtioNet.handle_ctrl (L:=L) fuel qidx am)). unfold VirtioNet.handle_ctrl.
  apply mrel_bind; [apply _|apply frame_n_queue|]. intros q. apply mrel_if; [mrel_tac|apply ctrl_loop_frame].
Qed.

Lemma state_after raise st d : queues (state (after_handler raise st d)) = queues st.
Proof. unfold after_handler. by destruct raise. Qed.

(** ** Who owns the rings *)

(** What the service does to the network while the kernel has every pair. *)
Record kernel_owned (s s' : Svc) : Prop := {
  ko_all : vhost_all_kernel s' = true;
  ko_pairs : sv_max_pairs s' = sv_max_pairs s;
  ko_tap : sv_tap s' = sv_tap s;
  ko_lim : sv_net_limiter s' = sv_net_limiter s;
  ko_queues : forall i, (i < N.to_nat (2 * sv_max_pairs s))%nat -> net_queue i s' = net_queue i s }.

Definition kernel_rel (s s' : Svc) : Prop :=
  sv_max_pairs s' = sv_max_pairs s /\ (vhost_all_kernel s = true -> kernel_owned s s').

#[local] Instance kernel_rel_preorder : PreOrder kernel_rel.
Proof.
  split.
  - intros s. split; [done|]. intros Hk. by split.
  - intros s1 s2 s3 [E1 H1] [E2 H2]. split; [congruence|]. intros Hk. destruct (H1 Hk) as [A1 A2 A3 A4 A5]. destruct (H2 A1) as [B1 B2 B3 B4 B5].
    split; [done|congruence..|]. intros i Hi. rewrite B5, A5; [done|done|by rewrite A2].
Qed.

(** A pair the kernel has is not programmed again. *)
Lemma kernel_try pair (s : Svc) : vhost_all_kernel s = true -> (try_program_pair pair s).2 = s.
Proof.
  intros Hk. unfold try_program_pair.
  destruct (sv_net s) as [net|]; [|done]. destruct (_ <? _)%nat; [done|]. destruct (_ <? _)%nat; [done|].
  destruct (pair_vhost pair s) as [v|] eqn:Hv; [|done]. enough (rings_programmed (vh v) = true) as -> by (rewrite orb_true_r; done).
  apply all_kernel_inv in Hk as (_ & Hl & Hp). assert (pair_kernel pair s = true) as Hpk.
  { apply Hp. destruct pair as [|p]; [lia|]. simpl in Hv. apply lookup_lt_Some in Hv. unfold lenN in Hl. lia. }
  unfold pair_kernel in Hpk. rewrite Hv in Hpk. simpl in Hpk. unfold kernel_datapath in Hpk. by apply andb_prop in Hpk as [[_ ?]%andb_prop _].
Qed.

Lemma kernel_rx_idle (s : Svc) : vhost_all_kernel s = true -> net_rx s = (Ok NoBuffers, s).
Proof. intros Hk%all_kernel_first. unfold net_rx. destruct (sv_net s), (sv_tap s); try done. by rewrite Hk. Qed.


Lemma kernel_kick pair i (s : Svc) : vhost_all_kernel s = true -> kernel_owned s (kick_pair pair i s).2.
Proof.
  intros Hk. unfold kick_pair. destruct (pair_vhost pair s) as [v|] eqn:Hv; [|by split]. simpl.
  destruct (put_vhost_same pair v (signal_kick i v).2 s Hv (signal_kick_vh i v)) as (H1 & H2 & _).
  split; [|by destruct pair..|].
  - rewrite (all_kernel_ext s); [done|by destruct pair|done..].
  - intros j _. unfold net_queue. by destruct pair.
Qed.

Lemma kernel_ctrl am net (s : Svc) : sv_net s = Some net -> vhost_all_kernel s = true -> kernel_owned s (ctrl_net net_fuel (2 * sv_max_pairs s) am net s).2.
Proof.
  intros Hn Hk. unfold ctrl_net. destruct (VirtioNet.handle_ctrl _ _ _ _) as [o d] eqn:E.
  destruct (handle_ctrl_frame net_fuel (N.to_nat (2 * sv_max_pairs s)) am (as_netdev net s)) as (F1 & F2 & F3). rewrite E in F1, F2, F3. simpl in F1, F2, F3.
  split; simpl; [|done|done|by rewrite F2|].
  - rewrite (dp_view_kernel s); done.
  - intros i Hi. unfold net_queue. simpl. rewrite Hn, state_after. apply F3. lia.
Qed.

Lemma try_program_pairs pair (s : Svc) : sv_max_pairs (try_program_pair pair s).2 = sv_max_pairs s.
Proof.
  unfold try_program_pair. destruct (sv_net s); [|done]. do 2 (destruct (_ <? _)%nat; [done|]). destruct (pair_vhost pair s); [|done].
  destruct (_ || _); [done|]. destruct (program_vrings _ _ _ _ _) as [[a|e| |] v']; by destruct pair.
Qed.

#[local] Instance kernel_rel_kept : SvcRel kernel_rel.
Proof.
  assert (forall s s', sv_max_pairs s' = sv_max_pairs s -> s' = s -> kernel_rel s s') as Hsame by (intros s s' _ ->; reflexivity).
  split; [apply _|..].
  - by intros s s' [? _].
  - intros s s' E1 E2 E3 E4. split; [by injection E1|]. intros Hk. split; [by rewrite (dp_view_kernel _ _ E1)|by injection E1|done..|].
    intros i _. unfold net_queue. by rewrite E4.
  - intros pair i s. split; [|apply kernel_kick]. unfold kick_pair. destruct (pair_vhost pair s); [by destruct pair|done].
  - intros pair s. split; [apply try_program_pairs|]. intros Hk. rewrite kernel_try by done. by split.
  - intros d s. split; [done|]. intros Hk. split; [|done..]. rewrite <- Hk. by apply all_kernel_ext.
  - intros am net s Hn. split; [|by apply kernel_ctrl]. unfold ctrl_net. by destruct (VirtioNet.handle_ctrl _ _ _ _).
  - intros q net s Hn Hp. split; [unfold pump_net; by destruct (VirtioNet.handle_notify _ _ _)|]. intros (_ & Hl & Hall)%all_kernel_inv.
    rewrite Hall in Hp by lia. done.
  - intros s. split; [|intros Hk; rewrite kernel_rx_idle by done; by split]. unfold net_rx. destruct (sv_net s), (sv_tap s); try done.
    destruct (vhost_owns_tap s); [done|]. destruct (queues _); [done|]. by destruct (VirtioNet.rx_pump _ _ _).
Qed.

(** ** The published status *)

(** What is said of the datapath is what it is, and every instance holds its own
    descriptors. *)
Record svc_inv (s : Svc) : Prop := {
  si_kernel : dp_kernel (sv_datapath s) = vhost_all_kernel s;
  si_pairs : dp_pairs (sv_datapath s) = if vhost_all_kernel s then sv_max_pairs s else 1;
  si_owns : forall p v, pair_vhost p s = Some v -> owns_fds v }.

Definition inv_rel (s s' : Svc) : Prop := sv_max_pairs s' = sv_max_pairs s /\ (svc_inv s -> svc_inv s').

#[local] Instance inv_rel_preorder : PreOrder inv_rel.
Proof. split; [by intros s|]. intros s1 s2 s3 [E1 H1] [E2 H2]. split; [congruence|]. intros Hi. by apply H2, H1. Qed.

Lemma inv_frame (s s' : Svc) : dp_view s' = dp_view s -> inv_rel s s'.
Proof.
  intros E. split; [by injection E|]. intros [H1 H2 H3]. pose proof (dp_view_kernel _ _ E) as Hk. injection E as E1 E2 E3 E4.
  split; [by rewrite Hk, E3|by rewrite Hk, E3, E4|]. intros [|p] v; simpl; [rewrite E1; apply (H3 0%nat)|rewrite E2; apply (H3 (S p))].
Qed.

Lemma inv_publish d (s : Svc) : (forall p v, pair_vhost p s = Some v -> owns_fds v) -> svc_inv (publish_datapath d s).
Proof.
  intros Ho. assert (vhost_all_kernel (publish_datapath d s) = vhost_all_kernel s) as Hk by (by apply all_kernel_ext).
  split; [by rewrite Hk|by rewrite Hk|exact Ho].
Qed.

Lemma put_vhost_owns pair x (s : Svc) : (forall p v, pair_vhost p s = Some v -> owns_fds v) -> owns_fds x ->
  forall p v, pair_vhost p (put_vhost pair x s) = Some v -> owns_fds v.
Proof.
  intros Hs Hx p v Hv. destruct pair as [|k], p as [|p]; simpl in Hv.
  - by injection Hv as <-.
  - apply (Hs (S p)), Hv.
  - apply (Hs 0%nat), Hv.
  - apply list_lookup_insert_Some in Hv as [(_ & <- & _)|[_ Hv]]; [done|by apply (Hs (S p))].
Qed.

Lemma signal_kick_owns i v : owns_fds v -> owns_fds (signal_kick i v).2.
Proof.
  intros Ho. unfold signal_kick, bind, get, ok_or. destruct (kick_fd (vh v) i) as [fd|]; [|done]. simpl.
  destruct (ioctl_spec (Kick fd) v) as [_ [E1 E2 E3]]. eapply owns_same; [by rewrite E1|done..].
Qed.

Lemma inv_kick pair i (s : Svc) : svc_inv s -> svc_inv (kick_pair pair i s).2.
Proof.
  intros [H1 H2 H3]. unfold kick_pair. destruct (pair_vhost pair s) as [v|] eqn:Hv; [|done]. simpl.
  destruct (put_vhost_same pair v (signal_kick i v).2 s Hv (signal_kick_vh i v)) as (E1 & E2 & _).
  assert (vhost_all_kernel (put_vhost pair (signal_kick i v).2 s) = vhost_all_kernel s) as Hk by (apply all_kernel_ext; [by destruct pair|done..]).
  split; [rewrite Hk; by destruct pair|rewrite Hk; by destruct pair|]. apply put_vhost_owns; [done|]. apply signal_kick_owns. by apply (H3 pair).
Qed.

Lemma inv_try pair (s : Svc) : svc_inv s -> svc_inv (try_program_pair pair s).2.
Proof.
  intros Hi. unfold try_program_pair. destruct (sv_net s) as [net|]; [|done]. do 2 (destruct (_ <? _)%nat; [done|]).
  destruct (pair_vhost pair s) as [v|] eqn:Hv; [|done]. destruct (_ || _) eqn:Hc; [done|].
  apply orb_false_iff in Hc as [[Ht%negb_false_iff _]%orb_false_iff _]. unfold has_tap in Ht. apply bool_decide_eq_true in Ht as [tap Ht].
  pose proof (program_vrings_brought (sv_host s) (mem_len (sv_mem s)) (take 2 (drop (pair * 2) (queues (state net)))) (driver_features (state net)) v tap
                (si_owns s Hi pair v Hv) Ht) as (L1 & O1 & _).
  destruct (program_vrings _ _ _ _ v) as [[a|e| |] v']; try done; simpl.
  - apply inv_publish, put_vhost_owns; [apply Hi|done].
  - apply inv_publish. intros [|p] x; done.
Qed.

#[local] Instance inv_rel_kept : SvcRel inv_rel.
Proof.
  split; [apply _|..].
  - by intros s s' [? _].
  - intros s s' E1 _ _ _. by apply inv_frame.
  - intros pair i s. split; [|apply inv_kick]. unfold kick_pair. destruct (pair_vhost pair s); [by destruct pair|done].
  - intros pair s. split; [apply try_program_pairs|apply inv_try].
  - intros d s. split; [done|]. intros Hi. apply inv_publish, Hi.
  - intros am net s _. apply inv_frame. unfold ctrl_net. by destruct (VirtioNet.handle_ctrl _ _ _ _).
  - intros q net s _ _. apply inv_frame. unfold pump_net. by destruct (VirtioNet.handle_notify _ _ _).
  - intros s. apply inv_frame. unfold net_rx. destruct (sv_net s), (sv_tap s); try done.
    destruct (vhost_owns_tap s); [done|]. destruct (queues _); [done|]. by destruct (VirtioNet.rx_pump _ _ _).
Qed.

(** Operations of the service, and changes of the net registers by the guest. *)
Definition run_event (s : Svc) (e : SvcOp + option VirtioMmio) : Svc :=
  match e with
  | inl op => run_op s op
  | inr net => svc_net (sv_mem s) net (sv_net_limiter s) (sv_tap s) (sv_net_stats s) s
  end.

Lemma inv_events es (s : Svc) : svc_inv s -> svc_inv (fold_left run_event es s).
Proof.
  revert s. induction es as [|e es IH]; intros s Hi; simpl; [done|]. apply IH. destruct e as [op|net]; simpl.
  - exact (proj2 (kept_ops inv_rel [op] s) Hi).
  - exact (proj2 (inv_frame s (svc_net (sv_mem s) net (sv_net_limiter s) (sv_tap s) (sv_net_stats s) s) eq_refl) Hi).
Qed.

(** C10: ownership of the rings.  Once vhost-net has every queue pair, then
    whatever the queue service does next and in whatever order (notifies of any
    device and any queue index, the vsock poll, a rebind, turns of the worker
    with any poll results and flags, the guest writing its
    RAM) it never reads from or writes to the tap,
    never spends the net limiter and never moves the position of a data queue;
    the kernel keeps every pair.  So no ring is served twice. *)
Theorem kernel_owns_rings ops (s : Svc) : vhost_all_kernel s = true -> kernel_owned s (fold_left run_op ops s).
Proof. apply (kept_ops kernel_rel ops s). Qed.

(** the datapath that is published is the one that is live: after any
    operations of the service, with the guest changing its network registers at
    any moment, it says vhost-net, with the number of pairs, exactly
    when the kernel has every pair, and userspace with one pair otherwise; and
    the eventfds that are open for an instance are those the instance holds. *)
Theorem datapath_truthful es (s : Svc) : svc_inv s -> svc_inv (fold_left run_event es s).
Proof. apply inv_events. Qed.

(** ** Falling back *)

(** A bring-up that fails leaves no pair to the kernel. *)
Lemma vhost_fallback pair (s : Svc) v e net : sv_net s = Some net -> pair_vhost pair s = Some v ->
  (pair * 2 + 2 <= N.to_nat (num_queues (state net)))%nat -> (pair * 2 + 2 <= length (queues (state net)))%nat ->
  has_tap (vh v) = true -> rings_programmed (vh v) = false -> pair_ready (take 2 (drop (pair * 2) (queues (state net)))) = true ->
  (program_vrings (sv_host s) (mem_len (sv_mem s)) (take 2 (drop (pair * 2) (queues (state net)))) (driver_features (state net)) v).1 = Err e ->
  exists s', try_program_pair pair s = (Ok tt, s') /\ (forall p, pair_kernel p s' = false) /\
    dp_kernel (sv_datapath s') = false /\ dp_pairs (sv_datapath s') = 1 /\ rx_poll_fd s' = sv_tap s.
Proof.
  intros Hn Hv H1 H2 H3 H4 H5 H6. unfold try_program_pair. rewrite Hn, Hv.
  rewrite (proj2 (Nat.ltb_ge _ _) H1), (proj2 (Nat.ltb_ge _ _) H2), H3, H4, H5. cbn [negb orb].
  destruct (program_vrings _ _ _ _ v) as [o v']. simpl in H6. subst o. eexists. split; [reflexivity|].
  split_and!; [by intros [|p]|done|done|]. unfold rx_poll_fd. simpl. by rewrite Hn.
Qed.

(** ** The receive loop ends *)

(** A pump that asks for more has read a frame per unit of its budget. *)
Lemma rx_more_reads budget n irq (d d' : VirtioNet.RxDev L) i : VirtioNet.rx_pump_loop budget n irq d = (Ok (More, i), d') ->
  (length (VirtioNet.t_in (VirtioNet.x_tap d')) + budget <= length (VirtioNet.t_in (VirtioNet.x_tap d)))%nat.
Proof.
  revert irq d. induction budget as [|budget IH]; intros irq d; cbn [VirtioNet.rx_pump_loop]; [intros [= _ <-]; lia|].
  unfold bind at 1. destruct (VirtioNet.x_pending d) as [[p|e| |] d1] eqn:E1; try done.
  assert (d1 = d) as -> by (unfold VirtioNet.x_pending in E1; destruct (queues _); congruence).
  destruct (p =? 0); [done|]. unfold bind at 1. destruct (VirtioNet.x_read n d) as [[[frame|]|e| |] d2] eqn:E2; try done.
  assert (length (VirtioNet.t_in (VirtioNet.x_tap d2)) + 1 <= length (VirtioNet.t_in (VirtioNet.x_tap d)))%nat as Hl.
  { unfold VirtioNet.x_read, zoom, VirtioNet.read_frame in E2. destruct (VirtioNet.t_in (VirtioNet.x_tap d)) as [|[f| |] rest]; try done.
    simpl in E2. injection E2 as _ <-. simpl. lia. }
  unfold bind at 1, VirtioNet.x_consume. destruct (consume_opt _ _) as [granted lim]. destruct granted; cbn [negb].
  - unfold bind at 1, VirtioNet.x_deliver. destruct (VirtioNet.deliver_q0 _ _ _) as [[[r|e| |] mem] st]; try done.
    unfold bind, VirtioNet.x_count, modify. intros Hgo%IH. simpl in Hgo. lia.
  - unfold bind, VirtioNet.x_count, modify. intros Hgo%IH. simpl in Hgo. lia.
Qed.

Definition tap_backlog (s : Svc) : nat := match sv_tap s with Some t => length (VirtioNet.t_in t) | None => 0%nat end.

(** Room in the frame counters for the backlog and one more pump. *)
Definition counters_room (s : Svc) : Prop := VirtioNetRx.handled (sv_net_stats s) + N.of_nat (tap_backlog s) + 32 < 2 ^ 64.

Lemma net_rx_returns (s : Svc) : counters_room s ->
  exists o s', net_rx s = (o, s') /\ returns o /\ (o = Ok More -> (tap_backlog s' < tap_backlog s)%nat /\ counters_room s').
Proof.
  intros Hc. unfold net_rx. assert (forall o, o = Ok NoBuffers -> returns o) as Hr by (by intros ? ->).
  destruct (sv_net s) as [net|]; [|by eexists _, s]. destruct (sv_tap s) as [tap|] eqn:Ht; [|by eexists _, s].
  destruct (vhost_owns_tap s); [by eexists _, s|]. destruct (queues (state net)) as [|q0 qs] eqn:Hq; [by eexists _, s|].
  unfold counters_room, tap_backlog in Hc. rewrite Ht in Hc. set (d := VirtioNet.Build_RxDev _ _ _ _ _).
  destruct (VirtioNetRx.rx_pump_loop_ok 32 VirtioNet.RX_FRAME_MAX false d) as (o & d' & used & E & Ho & Hrel & Hh).
  { simpl. by rewrite Hq. }
  { simpl. lia. }
  unfold VirtioNet.rx_pump. change (N.to_nat 32) with 32%nat. rewrite E. eexists _, _. split; [reflexivity|].
  split; [by destruct o as [[p irq]|e| |]|]. intros Hm. destruct o as [[p irq]|e| |]; try done. injection Hm as ->.
  pose proof (rx_more_reads _ _ _ _ _ _ E) as Hl. destruct Hrel as (Hin & _). specialize (Hh eq_refl).
  unfold counters_room, tap_backlog. cbn [sv_tap svc_net sv_net_stats]. rewrite Ht. simpl in Hin, Hl, Hh.
  assert (VirtioNetRx.frames_in VirtioNet.RX_FRAME_MAX used <= lenN used) as Hu.
  { unfold VirtioNetRx.frames_in, lenN. pose proof (length_filter (fun r => VirtioNetRx.is_frame VirtioNet.RX_FRAME_MAX r = true) used). lia. }
  split; [lia|]. rewrite Hh. rewrite Hin, length_app in Hc. unfold lenN in Hu. lia.
Qed.

(** Serving the tap ends: the loop asks for another pump only after reading 32
    frames. *)
Lemma rx_drain_ends fuel stops w (s : Svc) : (tap_backlog s < fuel)%nat -> counters_room s -> exists w' s', rx_drain fuel stops w s = (Ok w', s').
Proof.
  revert stops s. induction fuel as [|fuel IH]; intros stops s Hb Hc; [lia|]. cbn [rx_drain].
  destruct (net_rx_returns s Hc) as (o & s' & -> & Ho & Hm). destruct o as [[]|e| |]; try done; [by eexists _, _..| |by eexists _, _].
  destruct (hd false stops); [by eexists _, _|]. destruct (Hm eq_refl) as [H1 H2]. apply IH; [lia|done].
Qed.

(** ** What the worker remembers *)

(** Once the worker has seen the kernel take RX it never serves the tap again. *)
Lemma serve_kernel_rx l w b (s s' : Svc) w' b' : kernel_rx w = true -> serve_bindings dontneed net_fuel l w b s = (Ok (w', b'), s') -> kernel_rx w' = true.
Proof.
  revert w b s. induction l as [|[dev q] l IH]; intros w b s Hw; cbn [serve_bindings]; [by intros [= <- _ _]|].
  destruct (_ && _); unfold bind.
  - destruct (kick_rx_vhost s) as [[[]|e| |] s1]; try done; by apply IH.
  - destruct (notify _ _ _ _ s) as [[[]|e| |] s1]; try done. by apply IH.
Qed.

Lemma kernel_rx_sticky fuel bs r paused stops w (s s' : Svc) w' : kernel_rx w = true ->
  worker_turn dontneed net_fuel fuel bs r paused stops w s = (Ok w', s') -> kernel_rx w' = true /\ poll_tap paused w' = false.
Proof.
  intros Hw Ht. assert (kernel_rx w' = true) as Hk; [|by unfold poll_tap; rewrite Hk, andb_false_r].
  destruct r as [| |evts tr]; simpl in Ht; [by injection Ht as <- _..|]. unfold bind in Ht.
  destruct (serve_bindings _ _ _ w false s) as [[[w1 k]|e| |] s1] eqn:E; try done. apply serve_kernel_rx in E; [|done].
  rewrite E, andb_false_r in Ht. by injection Ht as <- _.
Qed.

End Kept.

(** ** Starting *)

(** The eventfds and the doorbells given to KVM; every call takes the next
    answer of the host. *)
Record StartSt := MkStart { sa_ans : list bool; sa_open : gset N; sa_next : N; sa_regs : list (u64 * u32 * N) }.

Definition start_answer : M StartSt bool := fun s =>
  match sa_ans s with [] => (Ok true, s) | b :: l => (Ok b, MkStart l (sa_open s) (sa_next s) (sa_regs s)) end.

Definition create_eventfd : M StartSt (option N) :=
  let! ok := start_answer in
  if ok then fun s => (Ok (Some (sa_next s)), MkStart (sa_ans s) (sa_open s ∪ {[sa_next s]}) (sa_next s + 1) (sa_regs s)) else ret None.

Definition close_eventfd (fd : N) : M StartSt unit :=
  modify (fun s => MkStart (sa_ans s) (sa_open s ∖ {[fd]}) (sa_next s) (sa_regs s)).

Definition register_ioeventfd (addr : u64) (datamatch : u32) (fd : N) : M StartSt bool :=
  let! ok := start_answer in
  if ok then fun s => (Ok true, MkStart (sa_ans s) (sa_open s) (sa_next s) (sa_regs s ++ [(addr, datamatch, fd)])) else ret false.

Record Binding := MkBinding { b_fd : N; b_dev : Dev; b_queue : u32 }.

Fixpoint close_bindings (l : list Binding) : M StartSt unit :=
  match l with [] => ret tt | b :: l => do! close_eventfd (b_fd b) in close_bindings l end.

(** The two loops of [start], over the queues that want an eventfd. *)
Fixpoint bind_queues (wanted : list (Dev * u64 * u32)) (bindings : list Binding) : M StartSt (list Binding) :=
  match wanted with
  | [] => ret bindings
  | (dev, addr, queue) :: wanted =>
      let! fd := create_eventfd in
      match fd with
      | None => do! close_bindings bindings in throw Hypervisor
      | Some fd =>
          let! ok := register_ioeventfd addr queue fd in
          if negb ok then do! close_eventfd fd in do! close_bindings bindings in throw Hypervisor
          else bind_queues wanted (bindings ++ [MkBinding fd dev queue])
      end
  end.

(** [start], up to the spawn: the bindings the worker is given, if it starts. *)
Definition start {L} (svc : QueueService L) : M StartSt (option (list Binding)) :=
  let! bindings := bind_queues (wanted_queues svc) [] in
  match bindings with [] => ret None | _ => ret (Some bindings) end.

(** Bindings made so far: their descriptors are what is open, and are below the
    next. *)
Definition bound_so_far (O : gset N) (bs : list Binding) (s : StartSt) : Prop :=
  sa_open s = O ∪ list_to_set (map b_fd bs) /\ (forall f, f ∈ O -> f < sa_next s) /\ (forall b, b ∈ bs -> b_fd b < sa_next s) /\
  (forall b, b ∈ bs -> b_fd b ∉ O).

Lemma close_bindings_spec l s : exists s', close_bindings l s = (Ok tt, s') /\ sa_open s' = sa_open s ∖ list_to_set (map b_fd l).
Proof.
  revert s. induction l as [|b l IH]; intros s; cbn [close_bindings]; [exists s; split; [done|set_solver]|].
  destruct (IH (MkStart (sa_ans s) (sa_open s ∖ {[b_fd b]}) (sa_next s) (sa_regs s))) as (s' & E & O). exists s'. unfold bind, close_eventfd, modify. rewrite E.
  split; [done|]. rewrite O. simpl. set_solver.
Qed.

Lemma close_bound O bs s : bound_so_far O bs s -> sa_open s ∖ list_to_set (map b_fd bs) = O.
Proof.
  intros (E & _ & _ & H). rewrite E. enough (forall f, f ∈ O -> f ∉ (list_to_set (map b_fd bs) : gset N)) by set_solver.
  intros f Hf [b [-> Hb]]%elem_of_list_to_set%list_elem_of_fmap. by apply (H b).
Qed.

Definition doorbell (w : Dev * u64 * u32) (fd : N) : u64 * u32 * N := (w.1.2, w.2, fd).
Definition binding_of (w : Dev * u64 * u32) (fd : N) : Binding := MkBinding fd w.1.1 w.2.

(** What a pass over [wanted] gives. *)
Definition all_bound (O : gset N) (wanted : list (Dev * u64 * u32)) (bs : list Binding) (s : StartSt) (r : outcome (list Binding) * StartSt) : Prop :=
  match r with
  | (Ok l, s') => exists fds, length fds = length wanted /\ NoDup fds /\ (forall f, f ∈ fds -> sa_next s <= f) /\
      l = bs ++ zip_with binding_of wanted fds /\ sa_regs s' = sa_regs s ++ zip_with doorbell wanted fds /\ bound_so_far O l s'
  | (Err _, s') => sa_open s' = O
  | _ => False
  end.

Lemma create_cases s : exists s', sa_regs s' = sa_regs s /\
  (create_eventfd s = (Ok (Some (sa_next s)), s') /\ sa_open s' = sa_open s ∪ {[sa_next s]} /\ sa_next s' = sa_next s + 1 \/
   create_eventfd s = (Ok None, s') /\ sa_open s' = sa_open s /\ sa_next s' = sa_next s).
Proof. exists (create_eventfd s).2. unfold create_eventfd, start_answer, bind, ret. destruct s as [[|[] l] o n r]; simpl; auto 10. Qed.

Lemma register_cases a q fd s : exists s', sa_open s' = sa_open s /\ sa_next s' = sa_next s /\
  (register_ioeventfd a q fd s = (Ok true, s') /\ sa_regs s' = sa_regs s ++ [(a, q, fd)] \/
   register_ioeventfd a q fd s = (Ok false, s') /\ sa_regs s' = sa_regs s).
Proof. exists (register_ioeventfd a q fd s).2. unfold register_ioeventfd, start_answer, bind, ret. destruct s as [[|[] l] o n r]; simpl; auto 10. Qed.

Lemma bound_snoc O bs s s' w : bound_so_far O bs s -> sa_open s' = sa_open s ∪ {[sa_next s]} -> sa_next s' = sa_next s + 1 ->
  bound_so_far O (bs ++ [binding_of w (sa_next s)]) s'.
Proof.
  intros (B1 & B2 & B3 & B4) E1 E2. split_and!.
  - rewrite E1, B1, map_app, list_to_set_app_L. simpl. set_solver.
  - intros f Hf%B2. lia.
  - intros b [Hb%B3| ->%list_elem_of_singleton]%elem_of_app; simpl; lia.
  - intros b [Hb%B4| ->%list_elem_of_singleton]%elem_of_app; [done|]. simpl. intros Hf%B2. lia.
Qed.

Lemma close_failed O w bs s s1 : bound_so_far O bs s -> sa_open s1 = sa_open s -> all_bound O w bs s ((do! close_bindings bs in throw Hypervisor) s1).
Proof.
  intros Hb E1. unfold bind. destruct (close_bindings_spec bs s1) as (s2 & -> & E2). simpl. rewrite E2, E1. by apply close_bound.
Qed.

Lemma bind_queues_spec O wanted bs s : bound_so_far O bs s -> all_bound O wanted bs s (bind_queues wanted bs s).
Proof.
  revert bs s. induction wanted as [|[[dev addr] q] wanted IH]; intros bs s Hb; cbn [bind_queues].
  { exists []. simpl. rewrite !app_nil_r. split_and!; [done|constructor|set_solver|done..]. }
  unfold bind at 1. destruct (create_cases s) as (s1 & R1 & [(-> & O1 & N1)|(-> & O1 & N1)]); [|by apply close_failed].
  unfold bind at 1. destruct (register_cases addr q (sa_next s) s1) as (s2 & O2 & N2 & [[-> R2]|[-> R2]]); cbn [negb].
  - assert (bound_so_far O (bs ++ [MkBinding (sa_next s) dev q]) s2) as Hb2 by (apply (bound_snoc O bs s s2 (dev, addr, q)); [done|congruence..]).
    specialize (IH _ _ Hb2). destruct (bind_queues wanted _ s2) as [[l|e| |] s3]; try done.
    destruct IH as (fds & F1 & F2 & F3 & F4 & F5 & F6). exists (sa_next s :: fds). split_and!.
    + simpl. by rewrite F1.
    + constructor; [|done]. intros Hin%F3. lia.
    + intros f [-> |Hin%F3]%elem_of_cons; lia.
    + rewrite F4. by rewrite <- app_assoc.
    + rewrite F5, R2, R1. by rewrite <- app_assoc.
    + done.
  - unfold bind at 1, close_eventfd, modify. apply close_failed; [done|]. simpl. rewrite O2, O1.
    destruct Hb as (B1 & B2 & B3 & _). enough (sa_next s ∉ sa_open s) by set_solver. rewrite B1.
    intros [Hf%B2|[b [E Hin%B3]]%elem_of_list_to_set%list_elem_of_fmap]%elem_of_union; lia.
Qed.

(** Every queue of every device gets one eventfd of its own and one doorbell (a
    store of the queue's index to the device's notify register); when the host
    refuses any of them, none is left open. *)
Lemma start_binds {L} (svc : QueueService L) s : (forall f, f ∈ sa_open s -> f < sa_next s) ->
  match start svc s with
  | (Ok r, s') => exists fds, NoDup fds /\ length fds = length (wanted_queues svc) /\
      default [] r = zip_with binding_of (wanted_queues svc) fds /\ sa_regs s' = sa_regs s ++ zip_with doorbell (wanted_queues svc) fds
  | (Err _, s') => sa_open s' = sa_open s
  | _ => False
  end.
Proof.
  intros Hf. assert (bound_so_far (sa_open s) [] s) as Hb by (split_and!; [set_solver|done|set_solver..]).
  pose proof (bind_queues_spec _ (wanted_queues svc) _ _ Hb) as H. unfold start, bind.
  destruct (bind_queues (wanted_queues svc) [] s) as [[l|e| |] s']; try done.
  destruct H as (fds & F1 & F2 & _ & F4 & F5 & _). simpl in F4. by destruct l; exists fds; rewrite <- F4.
Qed.

(** ** Examples *)

Definition kernel_inst : VhostSt :=
  MkVS (MkVhost true true (Some 9) 2 (Some Backend) true [(20, 21); (22, 23)]) (MkKernel [] [] (list_to_set [20; 21; 22; 23]) 24).

Definition demo_queues (at_ : N) : list QueueState := [demo_ring at_; demo_ring (at_ + 65536)] ++ repeat QueueState_default 7.

Definition demo_netdev (at_ : N) : VirtioMmio :=
  let d := net_mq 0xd0000000 [2; 0; 0; 0; 0; 2] 1 (Some 0) in with_state (st_queues (demo_queues at_) (state d)) d.

Definition demo_svc (v : option VhostSt) (t : Tap) : QueueService RateLimiter :=
  new_service 4096 {| ram := repeat 0 64 |} (Some (demo_netdev 65536)) None None None None None None [] (unlimited []) (unlimited []) (Some t) v []
    (MkPath (vhost_kernel v) 1 []).

Definition one_frame : Tap := {| VirtioNet.t_in := [VirtioNet.Frame [1; 2; 3]]; VirtioNet.t_wfail := []; VirtioNet.t_out := [] |}.

Lemma kernel_owns_rings_witness :
  let s := demo_svc (Some kernel_inst) one_frame in
  vhost_all_kernel s = true /\
  sv_tap (fold_left (run_op (fun _ _ r => r) (fun _ => []) 10)
    [OpNotify DNet 1; OpTurn 5 [(DNet, 0)] (Ready [true] true) false [] (MkWorker true true false)] s) = Some one_frame.
Proof.
  cbv zeta. assert (vhost_all_kernel (demo_svc (Some kernel_inst) one_frame) = true) as Hk by (by vm_compute). split; [exact Hk|].
  rewrite (ko_tap _ _ (kernel_owns_rings (fun _ _ r => r) (fun _ => []) 10
    [OpNotify DNet 1; OpTurn 5 [(DNet, 0)] (Ready [true] true) false [] (MkWorker true true false)] (demo_svc (Some kernel_inst) one_frame) Hk)).
  reflexivity.
Defined.

Lemma kernel_inst_owns : owns_fds kernel_inst.
Proof.
  split; [by apply leibniz_equiv_iff; vm_compute|]. intros f Hf. change (f ∈ (list_to_set [20; 21; 22; 23] : gset N)) in Hf.
  apply elem_of_list_to_set in Hf. change (next_fd (kn kernel_inst)) with 24. repeat (apply elem_of_cons in Hf as [->|Hf]; [lia|]). by apply not_elem_of_nil in Hf.
Qed.

(** A guest of 64 bytes with both rings in RAM, and an instance with its tap. *)
Definition small_ring : QueueState := {| q_num := 1; q_ready := 1; q_desc := 16; q_avail := 32; q_used := 40; q_last_avail := 3 |}.

Definition small_netdev (pairs : N) : VirtioMmio :=
  let d := net_mq 0xd0000000 [2; 0; 0; 0; 0; 2] pairs (Some 0) in with_state (st_queues (repeat small_ring 9) (state d)) d.

Definition small_svc (pairs : N) (v : VhostSt) (vs : list VhostSt) : QueueService RateLimiter :=
  new_service 4096 {| ram := repeat 0 64 |} (Some (small_netdev pairs)) None None None None None None [] (unlimited []) (unlimited []) (Some one_frame)
    (Some v) vs NetDatapath_default.

Lemma datapath_truthful_witness :
  let s := small_svc 1 (demo_inst []) [] in
  svc_inv s /\ sv_datapath (fold_left (run_event (fun _ _ r => r) (fun _ => []) 10) [inl (OpNotify DNet 0)] s) =
    MkPath true 1 (bstr "vhost-net rings programmed, irq relay running") /\
  vhost_all_kernel (fold_left (run_event (fun _ _ r => r) (fun _ => []) 10) [inl (OpNotify DNet 0)] s) = true.
Proof.
  assert (svc_inv (small_svc 1 (demo_inst []) [])) as Hi.
  { split; [by vm_compute|by vm_compute|]. intros [|p] v; simpl; [intros [= <-]; apply demo_inst_owns|done]. }
  split; [exact Hi|]. split; [by vm_compute|].
  pose proof (datapath_truthful (fun _ _ r => r) (fun _ => []) 10 [inl (OpNotify DNet 0)] (small_svc 1 (demo_inst []) []) Hi) as [H1 _ _].
  rewrite <- H1. by vm_compute.
Defined.

(** The second pair fails after the first was bound: both fall back, but a worker
    that has seen the kernel take RX asks the tap for nothing from then on. *)
Example fallback_stops_rx :
  let s := small_svc 2 kernel_inst [demo_inst [false]] in
  let r := worker_turn (fun _ _ r => r) 10 5 [(DNet, 2)] (Ready [true] false) false [] (MkWorker true true true) s in
  sv_vhost r.2 = None /\ dp_kernel (sv_datapath r.2) = false /\ r.1 = Ok (MkWorker true true true) /\
  (forall w, r.1 = Ok w -> poll_tap false w = false) /\ sv_tap r.2 = Some one_frame /\
  net_queue 0 r.2 = Some small_ring.
Proof. vm_compute. split_and!; try done. by intros w [= <-]. Qed.

(** A guest that resets the device and sets up other rings: the kernel is kicked
    and keeps serving the old ones. *)
Example reset_keeps_old_rings :
  let s := demo_svc (Some kernel_inst) one_frame in
  let d := (do! step_access (reset_request (demo_netdev 65536)) in run_accesses (program_queue (demo_netdev 65536) 0 256 8192 12288 16384)) (demo_netdev 65536) in
  let s' := (notify (fun _ _ r => r) 10 DNet 0 (svc_net (sv_mem s) (Some d.2) (sv_net_limiter s) (sv_tap s) (sv_net_stats s) s)).2 in
  (q_desc <$> net_queue 0 s') = Some 8192 /\ (calls ∘ kn <$> sv_vhost s') = Some [Kick 20].
Proof. vm_compute. done. Qed.
