(* ===== verification/Seccomp.v ===== *)
(** * System call filters

    Three filters: the allowlist of a QEMU or Cloud Hypervisor child, written as
    BPF instructions ([crates/fluxvm-core/src/vmm_seccomp.rs]), the allowlist of
    the FluxVM hypervisor ([crates/fluxvm-hypervisor/src/seccomp.rs]) and the
    denylist of a confined process ([crates/fluxvm-procbox/src/seccomp.rs], with
    [net_deny_for] of [run.rs]), which are handed to the [seccompiler] crate.

    The numbers of the system calls ([libc::SYS_*]) are a parameter, and so is
    the translation of [seccompiler]; its documented meaning is [verdict].  The
    BPF machine of the kernel is [bpf_run], for the instructions the program
    uses.  The target is x86-64. *)

From stdpp Require Import prelude list gmap strings.
From Stdlib Require Import NArith Lia.
From S2P Require Import Prelude RustStr.

(** ** The kernel *)

(** [struct seccomp_data] *)
Record SeccompData := MkData { sd_nr : u32; sd_arch : u32; sd_args : list u64 }.

(** [struct sock_filter] *)
Record SockFilter := MkInsn { i_code : u16; i_jt : u8; i_jf : u8; i_k : u32 }.

Definition BPF_LD : u16 := 0x00.
Definition BPF_W : u16 := 0x00.
Definition BPF_ABS : u16 := 0x20.
Definition BPF_JMP : u16 := 0x05.
Definition BPF_JEQ : u16 := 0x10.
Definition BPF_K : u16 := 0x00.
Definition BPF_RET : u16 := 0x06.

Definition SECCOMP_RET_KILL_PROCESS : u32 := 0x80000000.
Definition SECCOMP_RET_LOG : u32 := 0x7ffc0000.
Definition SECCOMP_RET_ALLOW : u32 := 0x7fff0000.

(** The machine, on the instructions that are left: loads of the call number and
    the architecture, equality jumps, returns.  Jumps only go forward, so that
    the length of the program bounds a run; running off the end has no verdict. *)
Fixpoint bpf_run (fuel : nat) (prog : list SockFilter) (acc : u32) (d : SeccompData) : option u32 :=
  match fuel, prog with
  | S fuel, i :: prog =>
      if i_code i =? 0x20 then
        if i_k i =? 0 then bpf_run fuel prog (sd_nr d) d
        else if i_k i =? 4 then bpf_run fuel prog (sd_arch d) d
        else None
      else if i_code i =? 0x15 then
        bpf_run fuel (drop (N.to_nat (if acc =? i_k i then i_jt i else i_jf i)) prog) acc d
      else if i_code i =? 0x06 then Some (i_k i)
      else None
  | _, _ => None
  end.

Definition bpf_verdict (prog : list SockFilter) (d : SeccompData) : option u32 := bpf_run (length prog) prog 0 d.

(** ** The filter of a VMM child *)

Definition AUDIT_ARCH : u32 := 0xc000003e.

(** [VmmSeccompMode] *)
Inductive VmmSeccompMode := ModeOff | ModeLog | ModeKill.

Definition vmm_seccomp_mode_from (value : option rstr) : VmmSeccompMode :=
  let v := default (bstr "log") value in
  if bool_decide (v ∈ [bstr "off"; bstr "0"; bstr "false"]) then ModeOff
  else if bool_decide (v = bstr "kill") then ModeKill
  else ModeLog.

Definition allow_syscalls : list rstr :=
  [bstr "read"; bstr "write"; bstr "close"; bstr "fstat"; bstr "lseek"; bstr "mmap"; bstr "mprotect"; bstr "munmap";
    bstr "brk"; bstr "rt_sigaction"; bstr "rt_sigprocmask"; bstr "rt_sigreturn"; bstr "ioctl"; bstr "pread64";
    bstr "pwrite64"; bstr "readv"; bstr "writev"; bstr "pipe2"; bstr "dup"; bstr "dup3"; bstr "nanosleep";
    bstr "getpid"; bstr "socket"; bstr "connect"; bstr "accept"; bstr "accept4"; bstr "sendto"; bstr "recvfrom";
    bstr "sendmsg"; bstr "recvmsg"; bstr "shutdown"; bstr "bind"; bstr "listen"; bstr "getsockname";
    bstr "getpeername"; bstr "socketpair"; bstr "setsockopt"; bstr "getsockopt"; bstr "clone"; bstr "execve";
    bstr "exit"; bstr "exit_group"; bstr "wait4"; bstr "kill"; bstr "uname"; bstr "fcntl"; bstr "flock"; bstr "fsync";
    bstr "fdatasync"; bstr "truncate"; bstr "ftruncate"; bstr "getcwd"; bstr "chdir"; bstr "fchdir"; bstr "umask";
    bstr "gettimeofday"; bstr "getrlimit"; bstr "getrusage"; bstr "sysinfo"; bstr "getuid"; bstr "getgid";
    bstr "geteuid"; bstr "getegid"; bstr "getppid"; bstr "setsid"; bstr "capget"; bstr "capset"; bstr "sigaltstack";
    bstr "prctl"; bstr "setrlimit"; bstr "sync"; bstr "gettid"; bstr "futex"; bstr "sched_setaffinity";
    bstr "sched_getaffinity"; bstr "sched_yield"; bstr "set_tid_address"; bstr "clock_gettime"; bstr "clock_getres";
    bstr "clock_nanosleep"; bstr "tgkill"; bstr "openat"; bstr "mkdirat"; bstr "newfstatat"; bstr "unlinkat";
    bstr "renameat"; bstr "faccessat"; bstr "readlinkat"; bstr "symlinkat"; bstr "linkat"; bstr "ppoll";
    bstr "pselect6"; bstr "set_robust_list"; bstr "get_robust_list"; bstr "epoll_create1"; bstr "epoll_ctl";
    bstr "epoll_pwait"; bstr "prlimit64"; bstr "getrandom"; bstr "memfd_create"; bstr "statx"; bstr "clone3";
    bstr "close_range"; bstr "rseq"; bstr "eventfd2"; bstr "fallocate"; bstr "preadv"; bstr "pwritev";
    bstr "sendmmsg"; bstr "recvmmsg"; bstr "timerfd_create"; bstr "timerfd_settime"; bstr "timerfd_gettime";
    bstr "signalfd4"; bstr "inotify_init1"; bstr "inotify_add_watch"; bstr "inotify_rm_watch"; bstr "splice";
    bstr "copy_file_range"; bstr "mremap"; bstr "madvise"; bstr "mlock"; bstr "munlock"; bstr "getdents64";
    bstr "waitid"; bstr "seccomp"; bstr "userfaultfd"; bstr "arch_prctl"; bstr "fork"; bstr "vfork";
    bstr "epoll_wait"; bstr "rename"; bstr "mkdir"; bstr "rmdir"; bstr "unlink"; bstr "readlink"; bstr "chmod";
    bstr "fchmod"; bstr "chown"].

(** [libc::sock_filter { code, jt, jf, k }] of each shape. *)
Definition ld_abs (k : u32) : SockFilter := MkInsn (N.lor (N.lor BPF_LD BPF_W) BPF_ABS) 0 0 k.
Definition jeq (k : u32) (jt jf : u8) : SockFilter := MkInsn (N.lor (N.lor BPF_JMP BPF_JEQ) BPF_K) jt jf k.
Definition ret_k (k : u32) : SockFilter := MkInsn (N.lor BPF_RET BPF_K) 0 0 k.

Definition FILTER_SLOTS : nat := 512.

(** [push]: a write past the array panics. *)
Definition push (i : SockFilter) (f : list SockFilter) : outcome (list SockFilter) :=
  if (length f <? FILTER_SLOTS)%nat then Ok (f ++ [i]) else Panic.

Fixpoint push_all (is_ : list SockFilter) (f : list SockFilter) : outcome (list SockFilter) :=
  match is_ with
  | [] => Ok f
  | i :: is_ => match push i f with Ok f => push_all is_ f | o => o end
  end.

Definition default_action (kill : bool) : u32 := if kill then SECCOMP_RET_KILL_PROCESS else SECCOMP_RET_LOG.

(** The instructions in the order they are pushed. *)
Definition filter_insns (kill : bool) (allowed : list N) : list SockFilter :=
  [ld_abs 4; jeq AUDIT_ARCH 1 0; ret_k SECCOMP_RET_KILL_PROCESS; ld_abs 0] ++
  concat (map (fun nr => [jeq (U.wrap 32 nr) 0 1; ret_k SECCOMP_RET_ALLOW]) allowed) ++
  [ret_k (default_action kill)].

Definition EINVAL : N := 22.

(** The kernel's answers: to [PR_SET_NO_NEW_PRIVS] and [PR_SET_SECCOMP] (an
    [errno] or success), and the filter it was given. *)
Record Prctl := MkPrctl { nnp_answer : option N; seccomp_answer : option N; installed : option (list SockFilter) }.

(** ** The meaning of a [seccompiler] filter *)

Inductive SeccompAction := ActAllow | ActErrno (e : u32) | ActKillProcess.

Inductive SeccompCmpOp := CmpEq | CmpMaskedEq (mask : u64).
Inductive SeccompCmpArgLen := Dword | Qword.
Record SeccompCondition := MkCond { c_arg : nat; c_len : SeccompCmpArgLen; c_op : SeccompCmpOp; c_val : u64 }.
Abbreviation SeccompRule := (list SeccompCondition).
Record SeccompFilter := MkFilter { f_rules : gmap N (list SeccompRule); f_mismatch : SeccompAction; f_match : SeccompAction }.

Definition cond_holds (d : SeccompData) (c : SeccompCondition) : bool :=
  let v := default 0 (sd_args d !! c_arg c) in
  let v := match c_len c with Dword => U.wrap 32 v | Qword => v end in
  match c_op c with CmpEq => v =? c_val c | CmpMaskedEq m => N.land v m =? N.land (c_val c) m end.

(** A call with no rule or a rule whose conditions all hold is a match; a
    foreign architecture is killed. *)
Definition verdict (f : SeccompFilter) (d : SeccompData) : SeccompAction :=
  if negb (sd_arch d =? AUDIT_ARCH) then ActKillProcess
  else
    match f_rules f !! sd_nr d with
    | None => f_mismatch f
    | Some [] => f_match f
    | Some rules => if existsb (forallb (cond_holds d)) rules then f_match f else f_mismatch f
    end.

(** Stacked filters: the most restrictive action, the newest of them in a tie. *)
Definition rank (a : SeccompAction) : nat := match a with ActKillProcess => 0 | ActErrno _ => 1 | ActAllow => 2 end%nat.
Definition stricter (newer older : SeccompAction) : SeccompAction := if (rank older <? rank newer)%nat then older else newer.

(** ** The filter of a confined process *)

Inductive SeccompMode := SMErrno | SMKill.
Definition EPERM : u32 := 1.
Definition ENOSYS : u32 := 38.
Definition errno_or_kill (m : SeccompMode) : SeccompAction := match m with SMErrno => ActErrno EPERM | SMKill => ActKillProcess end.

Definition denied_syscalls : list rstr :=
  [bstr "ptrace"; bstr "mount"; bstr "umount2"; bstr "pivot_root"; bstr "chroot"; bstr "kexec_load";
    bstr "init_module"; bstr "finit_module"; bstr "delete_module"; bstr "bpf"; bstr "perf_event_open"; bstr "keyctl";
    bstr "add_key"; bstr "request_key"; bstr "reboot"; bstr "swapon"; bstr "swapoff"; bstr "open_by_handle_at";
    bstr "userfaultfd"; bstr "process_vm_readv"; bstr "process_vm_writev"].

Definition namespace_syscalls : list rstr := [bstr "unshare"; bstr "setns"].

Definition CLONE_NEW_FLAGS : list u64 := [0x20000; 0x2000000; 0x4000000; 0x8000000; 0x10000000; 0x20000000; 0x40000000].

(** The other names [syscall_by_name] knows. *)
Definition curated_syscalls : list rstr :=
  [bstr "fchmod"; bstr "fchmodat"; bstr "fchown"; bstr "fchownat"; bstr "kill"; bstr "tkill"; bstr "tgkill";
    bstr "socket"; bstr "connect"; bstr "bind"; bstr "listen"; bstr "accept"; bstr "accept4"; bstr "sendto";
    bstr "recvfrom"; bstr "sendmsg"; bstr "recvmsg"; bstr "execve"; bstr "execveat"; bstr "clone"; bstr "clone3";
    bstr "unlinkat"; bstr "renameat"; bstr "renameat2"; bstr "mkdirat"; bstr "symlinkat"; bstr "linkat";
    bstr "truncate"; bstr "ftruncate"; bstr "mknodat"; bstr "setuid"; bstr "setgid"; bstr "setreuid"; bstr "setregid";
    bstr "setresuid"; bstr "setresgid"; bstr "setgroups"; bstr "prctl"; bstr "personality"; bstr "syslog";
    bstr "acct"; bstr "settimeofday"; bstr "clock_settime"; bstr "sethostname"; bstr "setdomainname"; bstr "mlock";
    bstr "mlockall"; bstr "io_uring_setup"; bstr "io_uring_enter"; bstr "io_uring_register"; bstr "memfd_create";
    bstr "seccomp"; bstr "capset"; bstr "fanotify_init"; bstr "name_to_handle_at"; bstr "kcmp"; bstr "quotactl";
    bstr "setpriority"; bstr "sched_setaffinity"; bstr "chmod"; bstr "chown"; bstr "lchown"; bstr "unlink";
    bstr "rename"; bstr "mkdir"; bstr "rmdir"; bstr "symlink"; bstr "link"; bstr "mknod"; bstr "fork"; bstr "vfork";
    bstr "iopl"; bstr "ioperm"; bstr "modify_ldt"].

Definition known_syscalls : list rstr := denied_syscalls ++ namespace_syscalls ++ curated_syscalls.

Record NetDeny := MkDeny { dgram_raw : bool; packet_netlink : bool; deny_unix : bool }.
Definition NetDeny_default : NetDeny := MkDeny false false false.
Definition deny_any (n : NetDeny) : bool := dgram_raw n || packet_netlink n || deny_unix n.

Definition AF_UNIX : u64 := 1.
Definition AF_NETLINK : u64 := 16.
Definition AF_PACKET : u64 := 17.
Definition SOCK_DGRAM : u64 := 2.
Definition SOCK_RAW : u64 := 3.
Definition SOCK_TYPE_MASK : u64 := 0xf.

Definition socket_rules (net : NetDeny) : list SeccompRule :=
  (if dgram_raw net then map (fun t => [MkCond 1 Dword (CmpMaskedEq SOCK_TYPE_MASK) t]) [SOCK_DGRAM; SOCK_RAW] else []) ++
  (if packet_netlink net then map (fun d => [MkCond 0 Dword CmpEq d]) [AF_PACKET; AF_NETLINK] else []) ++
  (if deny_unix net then [[MkCond 0 Dword CmpEq AF_UNIX]] else []).

Definition clone_rules : list SeccompRule := map (fun flag => [MkCond 0 Qword (CmpMaskedEq flag) flag]) CLONE_NEW_FLAGS.

(** The part of the policy that decides the socket filters ([run.rs]). *)
Inductive TcpRule := TcpAny | TcpDeny | TcpPorts (ports : list u16).
Definition is_any (r : TcpRule) : bool := match r with TcpAny => true | _ => false end.

Definition net_deny_for (tcp_connect tcp_bind : TcpRule) (allow_udp allow_unix newnet hidden : bool) : NetDeny :=
  if (negb (is_any tcp_connect) || negb (is_any tcp_bind)) && negb newnet then
    MkDeny (negb allow_udp) (negb allow_udp) (negb allow_unix && negb hidden)
  else NetDeny_default.

Section Filters.
(** [libc::SYS_*] *)
Context (sys : rstr -> N).

Definition install_filter (kill : bool) : M Prctl unit := fun s =>
  match push_all (filter_insns kill (map sys allow_syscalls)) [] with
  | Ok prog =>
      match nnp_answer s with
      | Some _ => (Err Io, s)
      | None =>
          match seccomp_answer s with
          | Some e => (if negb kill && (e =? EINVAL) then Ok tt else Err Io, s)
          | None => (Ok tt, MkPrctl (nnp_answer s) (seccomp_answer s) (Some prog))
          end
      end
  | _ => (Panic, s)
  end.

Definition install (mode : VmmSeccompMode) : M Prctl unit :=
  match mode with ModeOff => ret tt | ModeLog => install_filter false | ModeKill => install_filter true end.

Definition hypervisor_syscalls : list rstr :=
  [bstr "read"; bstr "write"; bstr "open"; bstr "close"; bstr "stat"; bstr "fstat"; bstr "lstat"; bstr "poll";
    bstr "lseek"; bstr "mmap"; bstr "mprotect"; bstr "munmap"; bstr "brk"; bstr "rt_sigaction"; bstr "rt_sigprocmask";
    bstr "rt_sigreturn"; bstr "ioctl"; bstr "pread64"; bstr "pwrite64"; bstr "readv"; bstr "writev"; bstr "access";
    bstr "pipe"; bstr "select"; bstr "sched_yield"; bstr "mremap"; bstr "msync"; bstr "madvise"; bstr "dup";
    bstr "dup2"; bstr "nanosleep"; bstr "getpid"; bstr "socket"; bstr "connect"; bstr "accept"; bstr "sendto";
    bstr "recvfrom"; bstr "sendmsg"; bstr "recvmsg"; bstr "shutdown"; bstr "bind"; bstr "listen"; bstr "getsockname";
    bstr "getpeername"; bstr "socketpair"; bstr "setsockopt"; bstr "getsockopt"; bstr "clone"; bstr "fork";
    bstr "vfork"; bstr "execve"; bstr "exit"; bstr "wait4"; bstr "kill"; bstr "uname"; bstr "fcntl"; bstr "flock";
    bstr "fsync"; bstr "fdatasync"; bstr "truncate"; bstr "ftruncate"; bstr "getcwd"; bstr "chdir"; bstr "rename";
    bstr "mkdir"; bstr "rmdir"; bstr "unlink"; bstr "readlink"; bstr "chmod"; bstr "fchmod"; bstr "unshare";
    bstr "chroot"; bstr "setuid"; bstr "setgid"; bstr "chown"; bstr "umask"; bstr "gettimeofday"; bstr "getrlimit";
    bstr "getuid"; bstr "getgid"; bstr "geteuid"; bstr "getegid"; bstr "getppid"; bstr "setsid"; bstr "capget";
    bstr "capset"; bstr "sigaltstack"; bstr "arch_prctl"; bstr "prctl"; bstr "setrlimit"; bstr "sync"; bstr "gettid";
    bstr "futex"; bstr "sched_setaffinity"; bstr "sched_getaffinity"; bstr "set_tid_address"; bstr "clock_gettime";
    bstr "clock_nanosleep"; bstr "exit_group"; bstr "epoll_wait"; bstr "epoll_ctl"; bstr "tgkill"; bstr "openat";
    bstr "mkdirat"; bstr "newfstatat"; bstr "unlinkat"; bstr "renameat"; bstr "faccessat"; bstr "ppoll";
    bstr "set_robust_list"; bstr "get_robust_list"; bstr "epoll_create1"; bstr "dup3"; bstr "pipe2"; bstr "prlimit64";
    bstr "setns"; bstr "getrandom"; bstr "memfd_create"; bstr "statx"; bstr "clone3"; bstr "close_range"; bstr "rseq";
    bstr "epoll_pwait"; bstr "accept4"; bstr "eventfd2"; bstr "fallocate"; bstr "getdents"; bstr "getdents64";
    bstr "statfs"; bstr "fstatfs"; bstr "copy_file_range"].

(** [SeccompFilter] and [BpfProgram::try_from] of [seccompiler]. *)
Context {BpfProgram : Type} (try_from : SeccompFilter -> option BpfProgram) (runs : BpfProgram -> SeccompData -> SeccompAction).

(** The rules of [apply_seccomp_filter], an allowlist. *)
Definition hypervisor_filter : SeccompFilter :=
  MkFilter (list_to_map (map (fun n => (sys n, [])) hypervisor_syscalls)) ActKillProcess ActAllow.

(** [apply_seccomp_filter], up to the installation; an error is [None]. *)
Definition compile_hypervisor : option BpfProgram := try_from hypervisor_filter.

Definition syscall_by_name (name : rstr) : option N :=
  if bool_decide (name ∈ known_syscalls) then Some (sys name) else None.

Definition insert_bare (names : list rstr) (rules : gmap N (list SeccompRule)) : gmap N (list SeccompRule) :=
  fold_left (fun m n => <[sys n := []]> m) names rules.

(** [for n in allow { rules.remove(&lookup(n)?) }] and its like. *)
Fixpoint edit_rules (f : N -> gmap N (list SeccompRule) -> gmap N (list SeccompRule)) (names : list rstr) (rules : gmap N (list SeccompRule)) : option (gmap N (list SeccompRule)) :=
  match names with
  | [] => Some rules
  | n :: names => nr ← syscall_by_name n; edit_rules f names (f nr rules)
  end.

Definition clone3_filter : SeccompFilter := MkFilter {[sys (bstr "clone3") := []]} ActAllow (ActErrno ENOSYS).

Definition base_rules (allow_namespaces : bool) (net : NetDeny) : gmap N (list SeccompRule) :=
  let rules := insert_bare denied_syscalls ∅ in
  let rules := if allow_namespaces then rules else <[sys (bstr "clone") := clone_rules]> (insert_bare namespace_syscalls rules) in
  if deny_any net then <[sys (bstr "socket") := socket_rules net]> rules else rules.

(** The shim that makes libc fall back from [clone3] to [clone]. *)
Definition clone3_shim (allow_namespaces : bool) (allow : list rstr) : option (list BpfProgram) :=
  if negb allow_namespaces && negb (bool_decide (bstr "clone3" ∈ allow)) then p ← try_from clone3_filter; Some [p] else Some [].

(** An error is [None]. *)
Definition compile_full (mode : SeccompMode) (allow_namespaces : bool) (extra_deny allow : list rstr) (net : NetDeny) : option (list BpfProgram) :=
  programs ← clone3_shim allow_namespaces allow;
  rules ← edit_rules delete allow (base_rules allow_namespaces net);
  rules ← edit_rules (fun nr => insert nr []) extra_deny rules;
  p ← try_from (MkFilter rules ActAllow (errno_or_kill mode));
  Some (programs ++ [p]).

Definition compile_with (mode : SeccompMode) (allow_namespaces : bool) (extra_deny allow : list rstr) : option (list BpfProgram) :=
  compile_full mode allow_namespaces extra_deny allow NetDeny_default.

(** What the kernel does after [apply] installed the programs in order. *)
Definition kernel_verdict (programs : list BpfProgram) (d : SeccompData) : SeccompAction :=
  fold_left (fun older p => stricter (runs p d) older) programs ActAllow.

End Filters.

(** ** The machine runs the allowlist *)

Definition pairs_of (allowed : list N) : list SockFilter := concat (map (fun nr => [jeq (U.wrap 32 nr) 0 1; ret_k SECCOMP_RET_ALLOW]) allowed).

Lemma length_pairs allowed : length (pairs_of allowed) = (2 * length allowed)%nat.
Proof. unfold pairs_of. induction allowed as [|n l IH]; simpl in *; lia. Qed.

(** One step of the machine. *)
Lemma bpf_ld0 n p acc d : bpf_run (S n) (ld_abs 0 :: p) acc d = bpf_run n p (sd_nr d) d.
Proof. done. Qed.
Lemma bpf_ld4 n p acc d : bpf_run (S n) (ld_abs 4 :: p) acc d = bpf_run n p (sd_arch d) d.
Proof. done. Qed.
Lemma bpf_jeq n k jt jf p acc d : bpf_run (S n) (jeq k jt jf :: p) acc d = bpf_run n (drop (N.to_nat (if acc =? k then jt else jf)) p) acc d.
Proof. done. Qed.
Lemma bpf_ret n k p acc d : bpf_run (S n) (ret_k k :: p) acc d = Some k.
Proof. done. Qed.

Lemma run_pairs allowed dflt acc d fuel : (2 * length allowed < fuel)%nat ->
  bpf_run fuel (pairs_of allowed ++ [ret_k dflt]) acc d =
  Some (if existsb (fun nr => acc =? U.wrap 32 nr) allowed then SECCOMP_RET_ALLOW else dflt).
Proof.
  revert fuel. induction allowed as [|nr l IH]; intros fuel Hf; [by destruct fuel; [lia|]|].
  destruct fuel as [|[|fuel]]; [simpl in Hf; lia..|].
  change (pairs_of (nr :: l)) with ([jeq (U.wrap 32 nr) 0 1; ret_k SECCOMP_RET_ALLOW] ++ pairs_of l). cbn [app existsb].
  rewrite bpf_jeq. destruct (acc =? U.wrap 32 nr); cbn [orb]; [apply bpf_ret|]. change (N.to_nat 1) with 1%nat. cbn [drop].
  apply IH. simpl in Hf. lia.
Qed.

Lemma filter_insns_eq kill allowed :
  filter_insns kill allowed = [ld_abs 4; jeq AUDIT_ARCH 1 0; ret_k SECCOMP_RET_KILL_PROCESS; ld_abs 0] ++ pairs_of allowed ++ [ret_k (default_action kill)].
Proof. done. Qed.

Lemma length_filter_insns kill allowed : length (filter_insns kill allowed) = (2 * length allowed + 5)%nat.
Proof. rewrite filter_insns_eq, !length_app, length_pairs. simpl. lia. Qed.

(** What the filter is to answer. *)
Definition allowlist_verdict (kill : bool) (allowed : list N) (d : SeccompData) : u32 :=
  if negb (sd_arch d =? AUDIT_ARCH) then SECCOMP_RET_KILL_PROCESS
  else if existsb (fun nr => sd_nr d =? U.wrap 32 nr) allowed then SECCOMP_RET_ALLOW
  else default_action kill.

Lemma filter_runs kill allowed d : bpf_verdict (filter_insns kill allowed) d = Some (allowlist_verdict kill allowed d).
Proof.
  unfold bpf_verdict. rewrite length_filter_insns, filter_insns_eq. replace (2 * length allowed + 5)%nat with (S (S (S (S (2 * length allowed + 1))))) by lia.
  unfold allowlist_verdict.
  cbn [app]. rewrite bpf_ld4, bpf_jeq. destruct (sd_arch d =? AUDIT_ARCH); cbn [negb]; [|apply bpf_ret].
  change (N.to_nat 1) with 1%nat. cbn [drop]. rewrite bpf_ld0.
  apply run_pairs. lia.
Qed.

Lemma push_all_fits l f : (length f + length l <= FILTER_SLOTS)%nat -> push_all l f = Ok (f ++ l).
Proof.
  revert f. induction l as [|i l IH]; intros f Hl; cbn [push_all]; [by rewrite app_nil_r|]. simpl in Hl. unfold push.
  rewrite (proj2 (Nat.ltb_lt _ _)) by lia. rewrite IH; [by rewrite <- app_assoc|]. rewrite length_app. simpl. lia.
Qed.

(** C37: The system call filter of a QEMU or Cloud Hypervisor child, whatever the
    numbers of the system calls.  Installing it never overruns the instruction
    array; if the kernel takes it, the BPF program it holds gives for every call
    the verdict of the allowlist: a call whose architecture value is not that of x86-64 is
    killed in both modes, a call whose number is that of a listed name is allowed, any
    other is logged or, in kill mode, fatal.  The x32 ABI shares the architecture value:
    its calls are among the others, logged in log mode ([x32_logged]).  When installing
    succeeds in kill mode the filter is in place; in log mode the only refusal that is
    passed over is EINVAL. *)
Theorem vmm_filter_spec sys kill s :
  match nnp_answer s, seccomp_answer s with
  | None, None => exists prog, install_filter sys kill s = (Ok tt, MkPrctl None None (Some prog)) /\
      forall d, bpf_verdict prog d = Some (allowlist_verdict kill (map sys allow_syscalls) d)
  | None, Some e => install_filter sys kill s = (if negb kill && (e =? EINVAL) then Ok tt else Err Io, s)
  | Some _, _ => install_filter sys kill s = (Err Io, s)
  end.
Proof.
  assert (length (filter_insns kill (map sys allow_syscalls)) <= FILTER_SLOTS)%nat as Hlen.
  { rewrite length_filter_insns, length_map. by apply Nat.leb_le; vm_compute. }
  unfold install_filter. rewrite push_all_fits by exact Hlen. rewrite app_nil_l.
  destruct (nnp_answer s); [done|]. destruct (seccomp_answer s); [done|]. eexists. split; [done|]. apply filter_runs.
Qed.

(** A call of the x32 ABI is not killed in log mode. *)
Lemma x32_logged sys d : (forall n, n ∈ allow_syscalls -> sys n < 2 ^ 30) -> sd_arch d = AUDIT_ARCH -> 2 ^ 30 <= sd_nr d ->
  allowlist_verdict false (map sys allow_syscalls) d = SECCOMP_RET_LOG.
Proof.
  intros Hs Ha Hd. unfold allowlist_verdict. rewrite Ha, N.eqb_refl. cbn [negb].
  destruct (existsb _ _) eqn:E; [|done]. apply existsb_exists in E as (nr & (n & <- & Hn%list_elem_of_In)%in_map_iff & E%N.eqb_eq).
  specialize (Hs n Hn). rewrite wrap_small in E by (unfold in_u; lia). lia.
Qed.

(** ** The denylist of a confined process *)

(** What the socket filter is to refuse: the domain and the type without its
    flags. *)
Definition socket_refused (net : NetDeny) (d : SeccompData) : bool :=
  let domain := U.wrap 32 (default 0 (sd_args d !! 0%nat)) in
  let type := N.land (U.wrap 32 (default 0 (sd_args d !! 1%nat))) SOCK_TYPE_MASK in
  (dgram_raw net && ((type =? SOCK_DGRAM) || (type =? SOCK_RAW))) ||
  (packet_netlink net && ((domain =? AF_PACKET) || (domain =? AF_NETLINK))) ||
  (deny_unix net && (domain =? AF_UNIX)).

(** A [clone] that asks for a new namespace. *)
Definition clone_refused (d : SeccompData) : bool :=
  existsb (fun flag => N.testbit (default 0 (sd_args d !! 0%nat)) (N.log2 flag)) CLONE_NEW_FLAGS.

(** What the denylist is to do with the call of that name. *)
Definition denylist_spec (mode : SeccompMode) (allow_namespaces : bool) (extra_deny allow : list rstr) (net : NetDeny) (name : rstr) (d : SeccompData) : SeccompAction :=
  let act := errno_or_kill mode in
  if bool_decide (name ∈ extra_deny) then act
  else if bool_decide (name ∈ allow) then ActAllow
  else if bool_decide (name = bstr "socket") then if socket_refused net d then act else ActAllow
  else if bool_decide (name ∈ denied_syscalls) then act
  else if allow_namespaces then ActAllow
  else if bool_decide (name = bstr "clone") then if clone_refused d then act else ActAllow
  else if bool_decide (name = bstr "clone3") then ActErrno ENOSYS
  else if bool_decide (name ∈ namespace_syscalls) then act
  else ActAllow.

Lemma masked_bit v k : (N.land v (2 ^ k) =? N.land (2 ^ k) (2 ^ k)) = N.testbit v k.
Proof.
  rewrite N.land_diag. apply eq_bool_prop_intro. rewrite !Is_true_true, N.eqb_eq. split.
  - intros E. assert (N.testbit (N.land v (2 ^ k)) k = true) as H by (rewrite E; apply N.pow2_bits_true).
    rewrite N.land_spec in H. by apply andb_prop in H as [? _].
  - intros H. apply N.bits_inj. intros i. rewrite N.land_spec. destruct (N.eq_dec i k) as [->|Hne].
    + by rewrite N.pow2_bits_true, H.
    + rewrite N.pow2_bits_false by done. apply andb_false_r.
Qed.

Lemma clone_rules_spec d : existsb (forallb (cond_holds d)) clone_rules = clone_refused d.
Proof.
  unfold clone_rules, clone_refused. set (v := default 0 (sd_args d !! 0%nat)).
  assert (forall k, forallb (cond_holds d) [MkCond 0 Qword (CmpMaskedEq (2 ^ k)) (2 ^ k)] = N.testbit v (N.log2 (2 ^ k))) as Hb.
  { intros k. cbn [forallb]. rewrite andb_true_r, N.log2_pow2 by lia. apply masked_bit. }
  unfold CLONE_NEW_FLAGS. cbn [map existsb].
  change 0x20000 with (2 ^ 17). change 0x2000000 with (2 ^ 25). change 0x4000000 with (2 ^ 26). change 0x8000000 with (2 ^ 27).
  change 0x10000000 with (2 ^ 28). change 0x20000000 with (2 ^ 29). change 0x40000000 with (2 ^ 30). by rewrite !Hb.
Qed.

Lemma socket_rules_spec net d : existsb (forallb (cond_holds d)) (socket_rules net) = socket_refused net d.
Proof.
  unfold socket_rules, socket_refused. rewrite !existsb_app. rewrite <- !orb_assoc. f_equal; [|f_equal].
  - destruct (dgram_raw net); [|done]. cbn [map existsb forallb]. by rewrite orb_false_r, !andb_true_r.
  - destruct (packet_netlink net); [|done]. cbn [map existsb forallb]. by rewrite orb_false_r, !andb_true_r.
  - destruct (deny_unix net); [|done]. cbn [map existsb forallb]. by rewrite orb_false_r, !andb_true_r.
Qed.

Section Denylist.
Context (sys : rstr -> N) {BpfProgram : Type} (try_from : SeccompFilter -> option BpfProgram) (runs : BpfProgram -> SeccompData -> SeccompAction).
Context (sys_inj : forall a b, a ∈ known_syscalls -> b ∈ known_syscalls -> sys a = sys b -> a = b).
Context (try_from_correct : forall f p, try_from f = Some p -> forall d, runs p d = verdict f d).

(** Membership in a list with one more name. *)
Lemma name_cons (n m : rstr) names : bool_decide (n ∈ m :: names) = bool_decide (n = m) || bool_decide (n ∈ names).
Proof. rewrite <- bool_decide_or. apply bool_decide_ext, elem_of_cons. Qed.

Lemma insert_bare_known names rules n : n ∈ known_syscalls -> (forall m, m ∈ names -> m ∈ known_syscalls) ->
  insert_bare sys names rules !! sys n = if bool_decide (n ∈ names) then Some [] else rules !! sys n.
Proof.
  intros Hn. revert rules. induction names as [|m names IH]; intros rules Hk; [done|]. cbn [insert_bare fold_left].
  change (fold_left _ names ?x) with (insert_bare sys names x). rewrite IH by (intros x Hx; apply Hk; by right). rewrite name_cons.
  destruct (bool_decide (n ∈ names)); [by rewrite orb_true_r|]. rewrite orb_false_r. case_bool_decide as H2.
  - subst m. by rewrite lookup_insert_eq.
  - rewrite lookup_insert_ne; [done|]. intros E. apply H2, sys_inj; [done|apply Hk; by left|done].
Qed.

Lemma edit_rules_known f o names rules rules' n : n ∈ known_syscalls ->
  (forall nr m k, f nr m !! k = if decide (k = nr) then o else m !! k) ->
  edit_rules sys f names rules = Some rules' ->
  rules' !! sys n = if bool_decide (n ∈ names) then o else rules !! sys n.
Proof.
  intros Hn Hf. revert rules. induction names as [|m names IH]; intros rules; cbn [edit_rules]; [by intros [= <-]|].
  unfold syscall_by_name. destruct (bool_decide (m ∈ known_syscalls)) eqn:Hm; [|done]. apply bool_decide_eq_true in Hm. simpl.
  intros E%IH. rewrite E, Hf, name_cons. destruct (bool_decide (n ∈ names)); [by rewrite orb_true_r|]. rewrite orb_false_r. case_bool_decide as H2.
  - subst m. by rewrite decide_True.
  - rewrite decide_False; [done|]. intros E2. by apply H2, sys_inj.
Qed.

(** The rules before the edits, and after them. *)
Lemma base_rules_known ns net n : n ∈ known_syscalls ->
  base_rules sys ns net !! sys n =
    if deny_any net && bool_decide (n = bstr "socket") then Some (socket_rules net)
    else if negb ns && bool_decide (n = bstr "clone") then Some clone_rules
    else if negb ns && bool_decide (n ∈ namespace_syscalls) then Some []
    else if bool_decide (n ∈ denied_syscalls) then Some [] else None.
Proof.
  intros Hn. assert (bstr "clone" ∈ known_syscalls /\ bstr "socket" ∈ known_syscalls) as [Hc Hs] by (split; by_eval).
  assert (forall m, m ∈ denied_syscalls -> m ∈ known_syscalls) as Hd by (intros m Hm; unfold known_syscalls; apply elem_of_app; by left).
  assert (forall m, m ∈ namespace_syscalls -> m ∈ known_syscalls) as Hns by (intros m Hm; unfold known_syscalls; apply elem_of_app; right; apply elem_of_app; by left).
  assert (forall (m : rstr) x rules, m ∈ known_syscalls -> (<[sys m := x]> rules : gmap N (list SeccompRule)) !! sys n = if bool_decide (n = m) then Some x else rules !! sys n) as Hins.
  { intros m x rules Hm. case_bool_decide as E; [subst; apply lookup_insert_eq|]. apply lookup_insert_ne. intros E2. by apply E, sys_inj. }
  assert (base_rules sys ns NetDeny_default !! sys n =
    if negb ns && bool_decide (n = bstr "clone") then Some clone_rules
    else if negb ns && bool_decide (n ∈ namespace_syscalls) then Some []
    else if bool_decide (n ∈ denied_syscalls) then Some [] else None) as Hb.
  { unfold base_rules. cbv zeta. change (deny_any NetDeny_default) with false. cbv iota. destruct ns; cbn [negb andb].
    - rewrite insert_bare_known by done. by rewrite lookup_empty.
    - rewrite Hins, !insert_bare_known by done. by rewrite lookup_empty. }
  unfold base_rules in *. cbv zeta in *. change (deny_any NetDeny_default) with false in Hb. cbv iota in Hb. destruct (deny_any net); cbn [andb]; [|exact Hb]. rewrite Hins by done. by rewrite Hb.
Qed.

Lemma edited_rules mode ns extra allow net progs n : n ∈ known_syscalls -> compile_full sys try_from mode ns extra allow net = Some progs ->
  exists shim rules p, clone3_shim sys try_from ns allow = Some shim /\ progs = shim ++ [p] /\
    (forall d, runs p d = verdict (MkFilter rules ActAllow (errno_or_kill mode)) d) /\
    rules !! sys n = if bool_decide (n ∈ extra) then Some [] else if bool_decide (n ∈ allow) then None else base_rules sys ns net !! sys n.
Proof.
  intros Hn. unfold compile_full. destruct (clone3_shim sys try_from ns allow) as [shim|]; [|done]. simpl.
  destruct (edit_rules sys delete allow _) as [r1|] eqn:E1; [|done]. simpl. destruct (edit_rules sys _ extra r1) as [r2|] eqn:E2; [|done]. simpl.
  destruct (try_from _) as [p|] eqn:E3; [|done]. simpl. intros [= <-]. exists shim, r2, p. split; [done|]. split; [done|]. split; [by apply try_from_correct|].
  erewrite (edit_rules_known _ (Some [])); [|done| |exact E2].
  - erewrite (edit_rules_known _ None); [done|done| |exact E1]. intros nr m k. destruct (decide (k = nr)) as [->|Hne]; [apply lookup_delete_eq|by apply lookup_delete_ne].
  - intros nr m k. simpl. destruct (decide (k = nr)) as [->|Hne]; [apply lookup_insert_eq|by apply lookup_insert_ne].
Qed.

(** The verdict on a native call. *)
Lemma verdict_native f d n : sd_arch d = AUDIT_ARCH -> sd_nr d = sys n ->
  verdict f d =
    match f_rules f !! sys n with
    | None => f_mismatch f
    | Some [] => f_match f
    | Some rs => if existsb (forallb (cond_holds d)) rs then f_match f else f_mismatch f
    end.
Proof. intros Ha Hn. unfold verdict. rewrite Ha, Hn. by rewrite N.eqb_refl. Qed.

Lemma shim_verdict ns allow shim d n : n ∈ known_syscalls -> sd_arch d = AUDIT_ARCH -> sd_nr d = sys n ->
  clone3_shim sys try_from ns allow = Some shim ->
  kernel_verdict runs shim d =
    if negb ns && negb (bool_decide (bstr "clone3" ∈ allow)) && bool_decide (n = bstr "clone3") then ActErrno ENOSYS else ActAllow.
Proof.
  intros Hk Ha Hn. unfold clone3_shim. destruct (_ && _) eqn:Hs; [|by intros [= <-]].
  destruct (try_from (clone3_filter sys)) as [p|] eqn:E; [|done]. simpl. intros [= <-]. change (kernel_verdict runs [p] d) with (stricter (runs p d) ActAllow).
  assert (f_rules (clone3_filter sys) !! sys n = (if bool_decide (n = bstr "clone3") then Some [] else None : option (list SeccompRule))) as Hl.
  { unfold clone3_filter. cbn [f_rules]. destruct (decide (n = bstr "clone3")) as [E2|E2]; [rewrite bool_decide_true by exact E2; rewrite E2; apply lookup_singleton_eq|].
    rewrite bool_decide_false by exact E2. apply lookup_singleton_ne. intros E3. apply E2. symmetry. apply sys_inj; [by_eval|done|done]. }
  rewrite (try_from_correct _ _ E). rewrite (verdict_native _ _ n Ha Hn). rewrite Hl. by destruct (bool_decide (n = bstr "clone3")).
Qed.

Lemma socket_refused_off net d : deny_any net = false -> socket_refused net d = false.
Proof. unfold deny_any, socket_refused. destruct net as [[] [] []]; done. Qed.

Lemma socket_rules_on net : deny_any net = true -> socket_rules net <> [].
Proof. unfold deny_any, socket_rules. destruct net as [[] [] []]; done. Qed.

(** A native call of a known name gets exactly the verdict of the policy. *)
Lemma known_verdict mode ns extra allow net progs n d :
  n ∈ known_syscalls -> sd_arch d = AUDIT_ARCH -> sd_nr d = sys n ->
  compile_full sys try_from mode ns extra allow net = Some progs ->
  kernel_verdict runs progs d = denylist_spec mode ns extra allow net n d.
Proof.
  intros Hk Ha Hn Hc. destruct (edited_rules _ _ _ _ _ _ _ Hk Hc) as (shim & rules & p & Hs & -> & Hp & Hr).
  unfold kernel_verdict. rewrite fold_left_app. change (fold_left _ shim ActAllow) with (kernel_verdict runs shim d). cbn [fold_left].
  rewrite (shim_verdict _ _ _ _ _ Hk Ha Hn Hs), Hp, (verdict_native _ _ n Ha Hn). cbn [f_rules f_match f_mismatch]. rewrite Hr, base_rules_known by done. clear Hr Hp Hs Hc.
  assert (forall a, stricter (errno_or_kill mode) a = errno_or_kill mode \/ a = ActKillProcess) as Hst by (intros []; destruct mode; auto).
  unfold denylist_spec. destruct (bool_decide (n ∈ extra)).
  { destruct (_ && _ && _); by destruct mode. }
  destruct (decide (n = bstr "clone3")) as [->|H3].
  - rewrite (bool_decide_true (bstr "clone3" = bstr "clone3")) by done.
    rewrite (bool_decide_false (bstr "clone3" = bstr "socket")), (bool_decide_false (bstr "clone3" = bstr "clone")) by by_eval.
    rewrite (bool_decide_false (bstr "clone3" ∈ denied_syscalls)), (bool_decide_false (bstr "clone3" ∈ namespace_syscalls)) by by_eval.
    rewrite !andb_false_r, andb_true_r. destruct (bool_decide (_ ∈ allow)), ns; done.
  - rewrite (bool_decide_false (n = bstr "clone3")), andb_false_r by done.
    assert (forall x, stricter x ActAllow = x) as -> by (intros []; done).
    destruct (bool_decide (n ∈ allow)); [done|]. destruct (decide (n = bstr "socket")) as [->|H4].
    + rewrite (bool_decide_true (bstr "socket" = bstr "socket")), andb_true_r by done.
      rewrite (bool_decide_false (bstr "socket" = bstr "clone")), !andb_false_r by by_eval.
      rewrite (bool_decide_false (bstr "socket" ∈ denied_syscalls)), ?(bool_decide_false (bstr "socket" ∈ namespace_syscalls)), ?andb_false_r by by_eval.
      destruct (deny_any net) eqn:Hd; [|by rewrite socket_refused_off]. rewrite <- socket_rules_spec.
      pose proof (socket_rules_on net Hd). by destruct (socket_rules net).
    + rewrite (bool_decide_false (n = bstr "socket")), andb_false_r by done. destruct (decide (n = bstr "clone")) as [->|H5].
      * rewrite (bool_decide_true (bstr "clone" = bstr "clone")), andb_true_r by done.
        rewrite (bool_decide_false (bstr "clone" ∈ denied_syscalls)), (bool_decide_false (bstr "clone" ∈ namespace_syscalls)) by by_eval.
        destruct ns; [done|]. cbn [negb]. rewrite <- clone_rules_spec. done.
      * rewrite (bool_decide_false (n = bstr "clone")), andb_false_r by done.
        destruct ns; cbn [negb andb]; destruct (bool_decide (n ∈ namespace_syscalls)), (bool_decide (n ∈ denied_syscalls)); done.
Qed.

(** ** Calls the denylist does not name *)

Lemma insert_bare_other names rules nr : (forall n, n ∈ names -> sys n <> nr) -> insert_bare sys names rules !! nr = rules !! nr.
Proof.
  revert rules. induction names as [|m names IH]; intros rules Hne; [done|]. cbn [insert_bare fold_left].
  change (fold_left _ names ?x) with (insert_bare sys names x). rewrite IH by (intros x Hx; apply Hne; by right).
  apply lookup_insert_ne, Hne. by left.
Qed.

Lemma edit_rules_other f names rules rules' nr : (forall k m, k <> nr -> f k m !! nr = m !! nr) -> (forall n, n ∈ known_syscalls -> sys n <> nr) ->
  edit_rules sys f names rules = Some rules' -> rules' !! nr = rules !! nr.
Proof.
  intros Hf Hne. revert rules. induction names as [|m names IH]; intros rules; cbn [edit_rules]; [by intros [= <-]|].
  unfold syscall_by_name. destruct (bool_decide (m ∈ known_syscalls)) eqn:Hm; [|done]. apply bool_decide_eq_true in Hm. simpl.
  intros ->%IH. apply Hf, Hne, Hm.
Qed.

(** A native call that is none of the known names passes, whatever the policy. *)
Lemma unknown_passes mode ns extra allow net progs d : (forall n, n ∈ known_syscalls -> sys n <> sd_nr d) -> sd_arch d = AUDIT_ARCH ->
  compile_full sys try_from mode ns extra allow net = Some progs -> kernel_verdict runs progs d = ActAllow.
Proof.
  intros Hne Ha Hc. assert (forall f, f_rules f !! sd_nr d = None -> verdict f d = f_mismatch f) as Hv.
  { intros f Hf. unfold verdict. by rewrite Ha, N.eqb_refl, Hf. }
  assert (bstr "clone" ∈ known_syscalls /\ bstr "socket" ∈ known_syscalls /\ bstr "clone3" ∈ known_syscalls) as (K1 & K2 & K3) by (split_and!; by_eval).
  assert (kernel_verdict runs [] d = ActAllow) as Hnil by done.
  unfold compile_full, clone3_shim in Hc. destruct (if _ && _ then _ else _) as [shim|] eqn:Hs; [|done]. simpl in Hc.
  destruct (edit_rules sys delete allow _) as [r1|] eqn:E1; [|done]. simpl in Hc. destruct (edit_rules sys _ extra r1) as [r2|] eqn:E2; [|done]. simpl in Hc.
  destruct (try_from _) as [p|] eqn:E3 in Hc; [|done]. injection Hc as <-.
  assert (kernel_verdict runs shim d = ActAllow) as Hsh.
  { destruct (_ && _); [|by injection Hs as <-]. destruct (try_from _) as [q|] eqn:E4; [|done]. injection Hs as <-.
    change (kernel_verdict runs [q] d) with (stricter (runs q d) ActAllow). rewrite (try_from_correct _ _ E4), Hv; [done|].
    apply lookup_singleton_ne. by apply Hne. }
  unfold kernel_verdict. rewrite fold_left_app. change (fold_left _ shim ActAllow) with (kernel_verdict runs shim d). cbn [fold_left].
  rewrite Hsh, (try_from_correct _ _ E3), Hv; [done|]. cbn [f_rules].
  rewrite (edit_rules_other _ _ _ _ _ (fun k m Hk => lookup_insert_ne m k (sd_nr d) [] Hk) Hne E2),
    (edit_rules_other _ _ _ _ _ (fun k m Hk => lookup_delete_ne m k (sd_nr d) Hk) Hne E1).
  assert (forall names, (forall n, n ∈ names -> n ∈ known_syscalls) -> forall r, insert_bare sys names r !! sd_nr d = r !! sd_nr d) as Hb.
  { intros names Hk r. apply insert_bare_other. intros n Hn. by apply Hne, Hk. }
  unfold base_rules. cbv zeta. destruct (deny_any net); [rewrite lookup_insert_ne by (by apply Hne)|]; (destruct ns; [|rewrite lookup_insert_ne by (by apply Hne)]);
    rewrite !Hb; try (by rewrite lookup_empty); intros n Hn; unfold known_syscalls; rewrite !elem_of_app; auto.
Qed.

Lemma foreign_killed mode ns extra allow net progs d : sd_arch d <> AUDIT_ARCH ->
  compile_full sys try_from mode ns extra allow net = Some progs -> kernel_verdict runs progs d = ActKillProcess.
Proof.
  intros Ha. unfold compile_full. destruct (clone3_shim sys try_from ns allow) as [shim|]; [|done]. simpl.
  destruct (edit_rules sys delete allow _) as [r1|]; [|done]. simpl. destruct (edit_rules sys _ extra r1) as [r2|]; [|done]. simpl.
  destruct (try_from _) as [p|] eqn:E; [|done]. intros [= <-]. unfold kernel_verdict. rewrite fold_left_app. cbn [fold_left].
  rewrite (try_from_correct _ _ E). unfold verdict. by rewrite (proj2 (N.eqb_neq _ _) Ha).
Qed.

(** C19: the system call filter of a confined process, through the programs it is
    compiled to and the kernel's rule for stacked filters, decides every call.  A call of
    another architecture is killed.  A call whose number is that of a known name gets the
    verdict of the policy: names denied by the profile are refused; otherwise names the
    profile allows pass; [socket] is refused for the classes of sockets the policy closes;
    the built-in denylist is refused; without namespaces [clone] is refused when it asks
    for one, [clone3] is answered ENOSYS and the namespace calls are refused; the other
    known names pass.  Any other number passes, those of the x32 calls included, whichever
    call they stand for ([x32_calls_pass]). *)
Theorem procbox_denylist mode ns extra allow net progs d :
  compile_full sys try_from mode ns extra allow net = Some progs ->
  kernel_verdict runs progs d =
    if negb (sd_arch d =? AUDIT_ARCH) then ActKillProcess
    else match list_find (fun n => sys n = sd_nr d) known_syscalls with
         | Some (_, n) => denylist_spec mode ns extra allow net n d
         | None => ActAllow
         end.
Proof.
  intros Hc. destruct (N.eqb_spec (sd_arch d) AUDIT_ARCH) as [Ha|Ha]; cbn [negb]; [|by apply (foreign_killed mode ns extra allow net)].
  destruct (list_find _ known_syscalls) as [[i n]|] eqn:E.
  - apply list_find_Some in E as (Hi & Hn & _). apply known_verdict; [by eapply list_elem_of_lookup_2|done|done|done].
  - apply list_find_None in E. rewrite Forall_forall in E. by apply (unknown_passes mode ns extra allow net).
Qed.

(** The x32 calls share the architecture of x86-64 and have bit 30 of the number
    set: they are none of the names, so the whole denylist passes them. *)
Lemma x32_calls_pass mode ns extra allow net progs d : (forall n, n ∈ known_syscalls -> sys n < 2 ^ 30) -> sd_arch d = AUDIT_ARCH -> 2 ^ 30 <= sd_nr d ->
  compile_full sys try_from mode ns extra allow net = Some progs -> kernel_verdict runs progs d = ActAllow.
Proof. intros Hs Ha Hd. apply unknown_passes; [|done]. intros n Hn E. specialize (Hs n Hn). rewrite E in Hs. lia. Qed.

End Denylist.

(** A policy with no network leaves the calls of [io_uring] open, through which
    sockets can be made that the socket filter never sees. *)
Example io_uring_passes mode ns d :
  denylist_spec mode ns [] [] (net_deny_for TcpDeny TcpDeny false false false false) (bstr "io_uring_setup") d = ActAllow /\
  denylist_spec mode ns [] [] (net_deny_for TcpDeny TcpDeny false false false false) (bstr "io_uring_enter") d = ActAllow.
Proof. destruct ns; by vm_compute. Qed.

(** ** A concrete numbering *)

Definition sys_index (n : rstr) : N := match list_find (fun m => m = n) known_syscalls with Some (i, _) => N.of_nat i | None => 1000 end.

Lemma sys_index_inj a b : a ∈ known_syscalls -> b ∈ known_syscalls -> sys_index a = sys_index b -> a = b.
Proof.
  intros Ha Hb. unfold sys_index. destruct (list_find (fun m => m = a) known_syscalls) as [[i x]|] eqn:Ea.
  - destruct (list_find (fun m => m = b) known_syscalls) as [[j y]|] eqn:Eb.
    + apply list_find_Some in Ea as (La & <- & _). apply list_find_Some in Eb as (Lb & <- & _). intros E%Nat2N.inj. subst j. congruence.
    + apply list_find_None in Eb. rewrite Forall_forall in Eb. by apply Eb in Hb.
  - apply list_find_None in Ea. rewrite Forall_forall in Ea. by apply Ea in Ha.
Qed.

Lemma procbox_denylist_witness :
  let d := MkData (sys_index (bstr "socket")) AUDIT_ARCH [2; 0x80002; 0; 0; 0; 0] in
  exists progs, compile_full sys_index Some SMErrno false [] [] (net_deny_for TcpDeny TcpDeny false false false false) = Some progs /\
    kernel_verdict verdict progs d = ActErrno EPERM.
Proof.
  intros d. eexists. split; [reflexivity|].
  rewrite (procbox_denylist sys_index Some verdict sys_index_inj (fun f p (E : Some f = Some p) d => f_equal (fun o => verdict (default f o) d) (eq_sym E))
    SMErrno false [] [] (net_deny_for TcpDeny TcpDeny false false false false) _ d).
  - by vm_compute.
  - reflexivity.
Defined.

(** The filter of the hypervisor: a native call passes exactly when its number is
    that of a listed name, anything else is killed. *)
Lemma hypervisor_filter_spec sys d :
  verdict (hypervisor_filter sys) d =
    if (sd_arch d =? AUDIT_ARCH) && bool_decide (sd_nr d ∈ map sys hypervisor_syscalls) then ActAllow else ActKillProcess.
Proof.
  unfold verdict. destruct (sd_arch d =? AUDIT_ARCH); cbn [negb andb]; [|done]. unfold hypervisor_filter. cbn [f_rules f_match f_mismatch].
  assert (forall names : list rstr, (list_to_map (map (fun n => (sys n, [] : list SeccompRule)) names) : gmap N (list SeccompRule)) !! sd_nr d =
    if bool_decide (sd_nr d ∈ map sys names) then Some [] else None) as ->.
  { induction names as [|m names IH]; [by rewrite bool_decide_false by apply not_elem_of_nil|]. cbn [map list_to_map foldr fst snd].
    destruct (decide (sd_nr d = sys m)) as [E|E].
    - rewrite bool_decide_true by (rewrite E; left). rewrite <- E. apply lookup_insert_eq.
    - rewrite lookup_insert_ne by congruence. rewrite IH.
      destruct (decide (sd_nr d ∈ map sys names)) as [H|H]; [rewrite !bool_decide_true by (first [exact H|by right]); done|].
      rewrite !bool_decide_false; [done| |done]. intros [?|?]%elem_of_cons; done. }
  by destruct (bool_decide _).
Qed.
