(* ===== verification/Snapshot.v ===== *)
(** * KVM snapshots

    [crates/fluxvm-hypervisor/src/kvm_snap.rs] and [kvm_state.rs]: the FLUXKVM1
    file of a paused VM (registers, virtio queues, MP states and the tagged
    sections of the full state), its reader for every version of the format, the
    restore of virtio devices and vCPUs, and the MSR loops.

    A file is its bytes and a reader takes bytes from the front.  The register
    structures are kept as the raw bytes the file holds.  What the KVM calls
    return is given to [dump]; a restore is the list of calls it makes.  Errors of
    the file system are left out. *)

From stdpp Require Import prelude list strings.
From Stdlib Require Import NArith Lia.
From S2P Require Import Prelude RustStr GuestMemory Virtqueue VirtioMmio.

(** ** The file format *)

Definition MAGIC : bytes := bstr "FLUXKVM1".
Definition VERSION : u32 := 5.
Definition V2_WATERMARK : nat := 256.
Definition MAX_SNAPSHOT_VCPUS : N := 256.
Definition MAX_SNAPSHOT_DEVICES : N := 64.
Definition MAX_VIRTIO_QUEUES : u32 := N.of_nat MAX_QUEUES.

(** [size_of::<KvmRegs>()] and [size_of::<KvmSregs>()] *)
Definition REGS_LEN : nat := 144.
Definition SREGS_LEN : nat := 312.

Definition TAG_XSAVE : u32 := 0x01.
Definition TAG_XCRS : u32 := 0x02.
Definition TAG_MSRS : u32 := 0x03.
Definition TAG_LAPIC : u32 := 0x04.
Definition TAG_EVENTS : u32 := 0x05.
Definition TAG_DEBUGREGS : u32 := 0x06.
Definition TAG_TSC_KHZ : u32 := 0x07.
Definition TAG_CLOCK : u32 := 0x10.
Definition TAG_IRQCHIP : u32 := 0x11.
Definition TAG_PIT2 : u32 := 0x12.

Definition XSAVE_MIN : N := 4096.
Definition XCRS_LEN : N := 392.
Definition EVENTS_LEN : N := 64.
Definition DEBUGREGS_LEN : N := 128.
Definition LAPIC_LEN : N := 1024.
Definition CLOCK_LEN : N := 48.
Definition IRQCHIP_LEN : N := 520.
Definition PIT2_LEN : N := 112.
Definition MAX_SECTION_BYTES : N := N.shiftl 1 20.
Definition MAX_MSRS : N := 4096.
Definition IRQCHIP_IDS : list u32 := [0; 1; 2].

Record VcpuState := MkVcpu {
  xsave : bytes; xcrs : bytes; msrs : list (u32 * u64); lapic : bytes; events : bytes; debugregs : bytes; tsc_khz : u32 }.
Definition VcpuState_default : VcpuState := MkVcpu [] [] [] [] [] [] 0.

Definition vcpu_complete (v : VcpuState) : bool :=
  (XSAVE_MIN <=? lenN (xsave v)) && (lenN (lapic v) =? LAPIC_LEN) && negb (bool_decide (msrs v = [])).

Record VmState := MkVm { clock : bytes; irqchips : list bytes; pit2 : bytes }.
Definition VmState_default : VmState := MkVm [] [] [].

Definition vm_complete (v : VmState) : bool :=
  (lenN (clock v) =? CLOCK_LEN) && (lenN (irqchips v) =? lenN IRQCHIP_IDS) &&
  forallb (fun c => lenN c =? IRQCHIP_LEN) (irqchips v) && (lenN (pit2 v) =? PIT2_LEN).

(** ** Writing *)

Definition put_section (tag : u32) (payload : bytes) : bytes := le_bytes 4 tag ++ le_bytes 4 (lenN payload) ++ payload.
Definition with_idx (idx : nat) (data : bytes) : bytes := le_bytes 4 (N.of_nat idx) ++ data.
Definition put_msr (m : u32 * u64) : bytes := le_bytes 4 m.1 ++ le_bytes 8 m.2.

(** The sections of one vCPU, with their tags. *)
Definition vcpu_sections (i : nat) (v : VcpuState) : list (u32 * bytes) :=
  [(TAG_XSAVE, with_idx i (xsave v)); (TAG_XCRS, with_idx i (xcrs v));
   (TAG_MSRS, le_bytes 4 (N.of_nat i) ++ le_bytes 4 (lenN (msrs v)) ++ concat (map put_msr (msrs v)));
   (TAG_LAPIC, with_idx i (lapic v)); (TAG_EVENTS, with_idx i (events v)); (TAG_DEBUGREGS, with_idx i (debugregs v));
   (TAG_TSC_KHZ, with_idx i (le_bytes 4 (tsc_khz v)))].

Definition vm_sections (vm : VmState) : list (u32 * bytes) :=
  [(TAG_CLOCK, clock vm)] ++ map (fun c => (TAG_IRQCHIP, c)) (irqchips vm) ++ [(TAG_PIT2, pit2 vm)].

Fixpoint vcpus_sections (i : nat) (vs : list VcpuState) : list (u32 * bytes) :=
  match vs with [] => [] | v :: vs => vcpu_sections i v ++ vcpus_sections (S i) vs end.

Definition put_all (l : list (u32 * bytes)) : bytes := concat (map (fun s => put_section s.1 s.2) l).

Definition write_sections (vs : list VcpuState) (vm : VmState) : bytes := put_all (vcpus_sections 0 vs ++ vm_sections vm).

Definition put_queue (q : QueueState) : bytes :=
  le_bytes 4 (q_num q) ++ le_bytes 4 (q_ready q) ++ le_bytes 8 (q_desc q) ++ le_bytes 8 (q_avail q) ++ le_bytes 8 (q_used q) ++
  le_bytes 2 (q_last_avail q).

Definition put_device (st : VirtioState) : bytes :=
  le_bytes 4 (device_id st) ++ le_bytes 8 (features st) ++ le_bytes 8 (driver_features st) ++ le_bytes 4 (status st) ++
  le_bytes 4 (interrupt_status st) ++ le_bytes 4 (num_queues st) ++
  concat (map put_queue (take (N.to_nat (num_queues st)) (queues st))).

Definition write_virtio_v3 (devices : list VirtioState) : outcome bytes :=
  if (MAX_SNAPSHOT_DEVICES <? lenN devices) || existsb (fun d => MAX_VIRTIO_QUEUES <? num_queues d) devices then Err Hypervisor
  else Ok (le_bytes 4 (lenN devices) ++ concat (map put_device devices)).

(** What KVM says of a vCPU. *)
Record KvmCpu := MkCpu { k_regs : outcome bytes; k_sregs : outcome bytes; k_mp : outcome u32 }.

Definition oapp {A} (a : outcome (list A)) (b : outcome (list A)) : outcome (list A) :=
  match a with Ok x => match b with Ok y => Ok (x ++ y) | Err e => Err e | Panic => Panic | Loop => Loop end | Err e => Err e | Panic => Panic | Loop => Loop end.

Fixpoint put_cpus (cpus : list KvmCpu) : outcome bytes :=
  match cpus with [] => Ok [] | c :: cpus => oapp (oapp (k_regs c) (k_sregs c)) (put_cpus cpus) end.

Fixpoint put_mp (cpus : list KvmCpu) : outcome bytes :=
  match cpus with
  | [] => Ok []
  | c :: cpus => oapp (match k_mp c with Ok m => Ok (le_bytes 4 m) | Err e => Err e | Panic => Panic | Loop => Loop end) (put_mp cpus)
  end.

(** The [vmstate] file of [dump]; the memory file is RAM as it is. *)
Definition dump (mem : GuestMemory) (cpus : list KvmCpu) (capture : outcome (list VcpuState * VmState)) (virtio : list VirtioState) : outcome bytes :=
  if (lenN cpus =? 0) || (MAX_SNAPSHOT_VCPUS <? lenN cpus) then Err Hypervisor
  else
    oapp (Ok (MAGIC ++ le_bytes 4 VERSION ++ le_bytes 8 (mem_len mem) ++ le_bytes 4 (lenN cpus)))
      (oapp (put_cpus cpus)
         (oapp (write_virtio_v3 virtio)
            (oapp (put_mp cpus)
               (match capture with
                | Ok (vs, vm) => Ok (write_sections vs vm)
                | Err e => Err e | Panic => Panic | Loop => Loop
                end)))).

(** ** Reading *)

(** [f.read_exact(&mut buf)] *)
Definition read_exact (n : nat) : M bytes bytes := fun f =>
  if (length f <? n)%nat then (Err Hypervisor, []) else (Ok (take n f), drop n f).

Definition read_le (n : nat) : M bytes N := let! b := read_exact n in ret (from_le b).

(** A loop of [n] reads. *)
Fixpoint read_n {A} (n : nat) (p : M bytes A) : M bytes (list A) :=
  match n with O => ret [] | S n => let! a := p in let! l := read_n n p in ret (a :: l) end.

Definition read_queue : M bytes QueueState :=
  let! num := read_le 4 in let! ready := read_le 4 in
  let! desc := read_le 8 in let! avail := read_le 8 in let! used := read_le 8 in let! last := read_le 2 in
  ret {| q_num := num; q_ready := ready; q_desc := desc; q_avail := avail; q_used := used; q_last_avail := last |}.

(** The fields of a device that a snapshot holds, in a default device. *)
Definition unpacked (id : u32) (feat dfeat : u64) (st ints nq : u32) (qs : list QueueState) : VirtioState :=
  let d := VirtioState_default in
  {| device_id := id; features := feat; driver_features := dfeat; status := st; mac := mac d; capacity_sectors := capacity_sectors d;
     guest_cid := guest_cid d; balloon_num_pages := balloon_num_pages d; balloon_actual := balloon_actual d; fs_tag := fs_tag d;
     queues := qs ++ drop (length qs) (queues d); num_queues := nq; sel := sel d; notify := notify d; interrupt_status := ints; irq := irq d;
     net_max_pairs := net_max_pairs d; net_active_pairs := net_active_pairs d |}.

Definition read_device : M bytes VirtioState :=
  let! id := read_le 4 in let! feat := read_le 8 in let! dfeat := read_le 8 in
  let! st := read_le 4 in let! ints := read_le 4 in let! nq := read_le 4 in
  if MAX_VIRTIO_QUEUES <? nq then throw Hypervisor
  else let! qs := read_n (N.to_nat nq) read_queue in ret (unpacked id feat dfeat st ints nq qs).

Definition read_virtio_v3 : M bytes (list VirtioState) :=
  let! ndev := read_le 4 in
  if MAX_SNAPSHOT_DEVICES <? ndev then throw Hypervisor else read_n (N.to_nat ndev) read_device.

Definition take_idx (payload : bytes) (ncpus : nat) : outcome (nat * bytes) :=
  if lenN payload <? 4 then Err Hypervisor
  else
    let idx := N.to_nat (from_le (take 4 payload)) in
    if (ncpus <=? idx)%nat then Err Hypervisor else Ok (idx, drop 4 payload).

Definition exact (data : bytes) (want : N) : outcome bytes := if lenN data =? want then Ok data else Err Hypervisor.

(** [set_once(&mut slot, val)], for a slot of a vCPU: what it held and the update. *)
Definition set_once {A S} `{EqDecision A} (dflt old : A) (upd : S) : outcome S := if bool_decide (old = dflt) then Ok upd else Err Hypervisor.

Definition get_msr (d : bytes) (k : nat) : u32 * u64 := (from_le (slice (4 + k * 12) 4 d), from_le (slice (4 + k * 12 + 4) 8 d)).

Definition obind {A B} (o : outcome A) (f : A -> outcome B) : outcome B :=
  match o with Ok a => f a | Err e => Err e | Panic => Panic | Loop => Loop end.

(** What a section does to the vCPU it names. *)
Definition vcpu_section (tag : u32) (d : bytes) (v : VcpuState) : outcome VcpuState :=
  if tag =? TAG_XSAVE then
    if lenN d <? XSAVE_MIN then Err Hypervisor
    else set_once [] (xsave v) (MkVcpu d (xcrs v) (msrs v) (lapic v) (events v) (debugregs v) (tsc_khz v))
  else if tag =? TAG_XCRS then
    obind (exact d XCRS_LEN) (fun d => set_once [] (xcrs v) (MkVcpu (xsave v) d (msrs v) (lapic v) (events v) (debugregs v) (tsc_khz v)))
  else if tag =? TAG_MSRS then
    if lenN d <? 4 then Err Hypervisor
    else
      let count := from_le (take 4 d) in
      if (MAX_MSRS <? count) || negb (lenN d =? 4 + count * 12) then Err Hypervisor
      else set_once [] (msrs v) (MkVcpu (xsave v) (xcrs v) (map (get_msr d) (seq 0 (N.to_nat count))) (lapic v) (events v) (debugregs v) (tsc_khz v))
  else if tag =? TAG_LAPIC then
    obind (exact d LAPIC_LEN) (fun d => set_once [] (lapic v) (MkVcpu (xsave v) (xcrs v) (msrs v) d (events v) (debugregs v) (tsc_khz v)))
  else if tag =? TAG_EVENTS then
    obind (exact d EVENTS_LEN) (fun d => set_once [] (events v) (MkVcpu (xsave v) (xcrs v) (msrs v) (lapic v) d (debugregs v) (tsc_khz v)))
  else if tag =? TAG_DEBUGREGS then
    obind (exact d DEBUGREGS_LEN) (fun d => set_once [] (debugregs v) (MkVcpu (xsave v) (xcrs v) (msrs v) (lapic v) (events v) d (tsc_khz v)))
  else
    obind (exact d 4) (fun d => set_once 0 (tsc_khz v) (MkVcpu (xsave v) (xcrs v) (msrs v) (lapic v) (events v) (debugregs v) (from_le d))).

Definition is_vcpu_tag (tag : u32) : bool := (TAG_XSAVE <=? tag) && (tag <=? TAG_TSC_KHZ).

(** What a section does to the state of the VM; an unknown tag is skipped. *)
Definition vm_section (tag : u32) (payload : bytes) (vm : VmState) : outcome VmState :=
  if tag =? TAG_CLOCK then obind (exact payload CLOCK_LEN) (fun d => set_once [] (clock vm) (MkVm d (irqchips vm) (pit2 vm)))
  else if tag =? TAG_IRQCHIP then
    obind (exact payload IRQCHIP_LEN) (fun chip =>
      let id := from_le (take 4 chip) in
      if negb (existsb (N.eqb id) IRQCHIP_IDS) then Err Hypervisor
      else if existsb (fun c => from_le (take 4 c) =? id) (irqchips vm) then Err Hypervisor
      else Ok (MkVm (clock vm) (irqchips vm ++ [chip]) (pit2 vm)))
  else if tag =? TAG_PIT2 then obind (exact payload PIT2_LEN) (fun d => set_once [] (pit2 vm) (MkVm (clock vm) (irqchips vm) d))
  else Ok vm.

Definition apply_section (tag : u32) (payload : bytes) (s : list VcpuState * VmState) : outcome (list VcpuState * VmState) :=
  let '(vs, vm) := s in
  if is_vcpu_tag tag then
    obind (take_idx payload (length vs)) (fun '(i, d) =>
      match vs !! i with
      | Some v => obind (vcpu_section tag d v) (fun v => Ok (<[i := v]> vs, vm))
      | None => Panic
      end)
  else obind (vm_section tag payload vm) (fun vm => Ok (vs, vm)).

(** [for _ in 0..max_records] *)
Fixpoint sections_loop (n : nat) (s : list VcpuState * VmState) : M bytes (list VcpuState * VmState) :=
  match n with
  | O => throw Hypervisor
  | S n => fun f =>
      match f with
      | [] => (Ok s, [])
      | _ =>
          (let! tag := read_le 4 in
           let! len := read_le 4 in
           if MAX_SECTION_BYTES <? len then throw Hypervisor
           else
             let! payload := read_exact (N.to_nat len) in
             let! s := lift (apply_section tag payload s) in
             sections_loop n s) f
      end
  end.

Definition read_sections (ncpus : nat) : M bytes (list VcpuState * VmState) :=
  sections_loop (ncpus * 8 + 16) (repeat VcpuState_default ncpus, VmState_default).

Record CpuSnapshot := MkSnap {
  s_mem_len : u64;
  s_vcpus : list (bytes * bytes);
  s_virtio : list VirtioState;
  s_mp_states : list u32;
  s_version : u32;
  s_vcpu_states : list VcpuState;
  s_vm_state : option VmState }.

Definition read_cpu : M bytes (bytes * bytes) := let! r := read_exact REGS_LEN in let! s := read_exact SREGS_LEN in ret (r, s).

(** [load_cpu], from the bytes of the file; [regs] and [sregs] of the snapshot
    are those of the first vCPU. *)
Definition load_body : M bytes CpuSnapshot :=
  let! magic := read_exact 8 in
  if negb (bool_decide (magic = MAGIC)) then throw Hypervisor
  else
    let! version := read_le 4 in
    if negb ((1 <=? version) && (version <=? VERSION)) then throw Hypervisor
    else
      let! mem_len := read_le 8 in
      let! ncpus := if 2 <=? version then read_le 4 else ret 1 in
      if (ncpus =? 0) || (MAX_SNAPSHOT_VCPUS <? ncpus) then throw Hypervisor
      else
        let n := N.to_nat ncpus in
        let! vcpus := read_n n read_cpu in
        let! virtio :=
          if 3 <=? version then read_virtio_v3
          else if version =? 2 then do! read_exact V2_WATERMARK in ret [] else ret [] in
        let! mp := if 4 <=? version then read_n n (read_le 4) else ret [] in
        let! (vs, vm) :=
          if 5 <=? version then let! (vs, vm) := read_sections n in ret (vs, Some vm) else ret (repeat VcpuState_default n, None) in
        ret (MkSnap mem_len vcpus virtio mp version vs vm).

Definition load_cpu (file : bytes) : outcome CpuSnapshot := (load_body file).1.

(** ** Reading back *)

(** [p] reads [a] from [b], whatever follows. *)
Definition parses {A} (p : M bytes A) (b : bytes) (a : A) : Prop := forall rest, p (b ++ rest) = (Ok a, rest).

Lemma parses_ret {A} (a : A) : parses (ret a) [] a.
Proof. done. Qed.

Lemma parses_bind {A B} (p : M bytes A) (k : A -> M bytes B) b1 b2 a c :
  parses p b1 a -> parses (k a) b2 c -> parses (bind p k) (b1 ++ b2) c.
Proof. intros H1 H2 rest. unfold bind. rewrite <- app_assoc, H1. apply H2. Qed.

Lemma parses_exact n b : length b = n -> parses (read_exact n) b b.
Proof.
  intros Hn rest. unfold read_exact. rewrite (proj2 (Nat.ltb_ge _ _)) by (rewrite length_app; lia).
  by rewrite <- Hn, take_app_length, drop_app_length.
Qed.

Lemma parses_le n v : in_u (8 * N.of_nat n) v -> parses (read_le n) (le_bytes n v) v.
Proof.
  intros Hv. rewrite <- (app_nil_r (le_bytes n v)). eapply parses_bind; [apply parses_exact, length_le_bytes|].
  rewrite from_le_bytes_small by done. apply parses_ret.
Qed.

Lemma parses_n {A} (p : M bytes A) (f : A -> bytes) l n : length l = n -> Forall (fun a => parses p (f a) a) l -> parses (read_n n p) (concat (map f l)) l.
Proof.
  intros <-. induction 1 as [|a l Ha Hl IH]; [apply parses_ret|]. cbn [length read_n map concat]. eapply parses_bind; [exact Ha|].
  rewrite <- (app_nil_r (concat (map f l))). eapply parses_bind; [exact IH|apply parses_ret].
Qed.

(** A reader of several fields, one after the other. *)
Ltac field := eapply parses_bind; [apply parses_le; assumption|]; cbv beta.

Definition queue_typed (q : QueueState) : Prop :=
  in_u 32 (q_num q) /\ in_u 32 (q_ready q) /\ in_u 64 (q_desc q) /\ in_u 64 (q_avail q) /\ in_u 64 (q_used q) /\ in_u 16 (q_last_avail q).

Lemma parses_queue q : queue_typed q -> parses read_queue (put_queue q) q.
Proof.
  intros (H1 & H2 & H3 & H4 & H5 & H6). unfold read_queue, put_queue. do 5 field.
  rewrite <- (app_nil_r (le_bytes 2 _)). field. by destruct q.
Qed.

(** A live device: its registers have their widths, and all its queues are there. *)
Definition device_typed (st : VirtioState) : Prop :=
  in_u 32 (device_id st) /\ in_u 64 (features st) /\ in_u 64 (driver_features st) /\ in_u 32 (status st) /\ in_u 32 (interrupt_status st) /\
  num_queues st <= MAX_VIRTIO_QUEUES /\ Forall queue_typed (queues st) /\ length (queues st) = MAX_QUEUES.

(** What a snapshot keeps of a device. *)
Definition packed (st : VirtioState) : VirtioState :=
  unpacked (device_id st) (features st) (driver_features st) (status st) (interrupt_status st) (num_queues st)
    (take (N.to_nat (num_queues st)) (queues st)).

Lemma parses_device st : device_typed st -> parses read_device (put_device st) (packed st).
Proof.
  intros (H1 & H2 & H3 & H4 & H5 & H6 & H7 & H8). unfold read_device, put_device, packed.
  assert (in_u 32 (num_queues st)) as H9 by (unfold in_u, MAX_VIRTIO_QUEUES, MAX_QUEUES in *; simpl in *; lia).
  do 6 field. rewrite (proj2 (N.ltb_ge _ _)) by done. rewrite <- (app_nil_r (concat _)).
  eapply parses_bind; [|apply parses_ret]. apply parses_n.
  - rewrite length_take, H8. unfold MAX_VIRTIO_QUEUES in H6. lia.
  - apply Forall_take. eapply Forall_impl; [exact H7|]. intros q. apply parses_queue.
Qed.

Lemma parses_virtio ds b : Forall device_typed ds -> write_virtio_v3 ds = Ok b -> parses read_virtio_v3 b (map packed ds).
Proof.
  intros Hd. unfold write_virtio_v3. destruct (_ || _) eqn:E; [done|]. intros Hb.
  assert (b = le_bytes 4 (lenN ds) ++ concat (map put_device ds)) as -> by congruence. clear Hb. apply orb_false_iff in E as [E _]. apply N.ltb_ge in E.
  unfold read_virtio_v3. assert (in_u 32 (lenN ds)) by (unfold in_u, MAX_SNAPSHOT_DEVICES in *; lia). field.
  rewrite (proj2 (N.ltb_ge _ _)) by done. unfold lenN. rewrite Nat2N.id. clear E. 
  induction Hd as [|d ds H1 H2 IH]; [apply parses_ret|]. cbn [map concat length read_n]. eapply parses_bind; [by apply parses_device|].
  rewrite <- (app_nil_r (concat _)). eapply parses_bind; [apply IH; unfold in_u, lenN in *; simpl in *; lia|apply parses_ret].
Qed.

(** ** Sections *)

Fixpoint apply_all (l : list (u32 * bytes)) (s : list VcpuState * VmState) : outcome (list VcpuState * VmState) :=
  match l with [] => Ok s | (tag, p) :: l => obind (apply_section tag p s) (apply_all l) end.

Lemma apply_all_app l1 l2 s s' : apply_all l1 s = Ok s' -> apply_all (l1 ++ l2) s = apply_all l2 s'.
Proof.
  revert s. induction l1 as [|[tag p] l1 IH]; intros s; cbn [apply_all app]; [by intros [= ->]|].
  destruct (apply_section tag p s) as [s1| | |]; try done. apply IH.
Qed.

Definition section_fits (x : u32 * bytes) : Prop := in_u 32 x.1 /\ lenN x.2 <= MAX_SECTION_BYTES.

Lemma sections_read l n s s' : apply_all l s = Ok s' -> Forall section_fits l -> (length l < n)%nat -> sections_loop n s (put_all l) = (Ok s', []).
Proof.
  revert n s. induction l as [|[tag p] l IH]; intros n s Ha Hl Hn; (destruct n as [|n]; [simpl in Hn; lia|]).
  { simpl in Ha. by simplify_eq. }
  cbn [apply_all] in Ha. destruct (apply_section tag p s) as [s1| | |] eqn:E; try done. inversion Hl as [|? ? [F1 F2] Hl']; subst. simpl in F1, F2.
  change (put_all ((tag, p) :: l)) with ((le_bytes 4 tag ++ le_bytes 4 (lenN p) ++ p) ++ put_all l). cbn [sections_loop].
  assert (exists b0 b, (le_bytes 4 tag ++ le_bytes 4 (lenN p) ++ p) ++ put_all l = b0 :: b) as (b0 & b & Eb) by (eexists _, _; reflexivity).
  rewrite Eb. rewrite <- Eb. unfold bind. rewrite <- !app_assoc.
  rewrite (parses_le 4 tag F1). rewrite (parses_le 4 (lenN p)) by (change MAX_SECTION_BYTES with 1048576 in F2; unfold in_u; simpl; lia).
  rewrite (proj2 (N.ltb_ge _ _)) by done. unfold lenN. rewrite Nat2N.id. rewrite (parses_exact (length p) p eq_refl).
  unfold lift. rewrite E. apply IH; [done|done|simpl in Hn; lia].
Qed.

(** The state of a vCPU as KVM gives it. *)
Record vcpu_ok (v : VcpuState) : Prop := {
  vo_xsave : XSAVE_MIN <= lenN (xsave v) /\ lenN (xsave v) + 4 <= MAX_SECTION_BYTES;
  vo_xcrs : lenN (xcrs v) = XCRS_LEN;
  vo_msrs : lenN (msrs v) <= MAX_MSRS /\ Forall (fun m => in_u 32 m.1 /\ in_u 64 m.2) (msrs v);
  vo_lapic : lenN (lapic v) = LAPIC_LEN;
  vo_events : lenN (events v) = EVENTS_LEN;
  vo_debugregs : lenN (debugregs v) = DEBUGREGS_LEN;
  vo_tsc : in_u 32 (tsc_khz v) }.

Lemma length_put_msrs ms : length (concat (map put_msr ms)) = (12 * length ms)%nat.
Proof. induction ms as [|m ms IH]; [done|]. cbn [map concat length]. unfold put_msr at 1. rewrite !length_app, !length_le_bytes, IH. lia. Qed.

(** The entries of an MSR section. *)
Lemma msrs_read pre ms rest : Forall (fun m => in_u 32 m.1 /\ in_u 64 m.2) ms -> forall o, length pre = o ->
  map (fun k => (from_le (slice (o + k * 12) 4 (pre ++ concat (map put_msr ms) ++ rest)), from_le (slice (o + k * 12 + 4) 8 (pre ++ concat (map put_msr ms) ++ rest))))
    (seq 0 (length ms)) = ms.
Proof.
  intros Hm. revert pre. induction Hm as [|[a b] ms [Ha Hb] Hm IH]; intros pre o Ho; [done|]. simpl in Ha, Hb. cbn [length seq map concat]. f_equal.
  - unfold put_msr at 1 3, slice. cbn [fst snd]. rewrite Nat.mul_0_l, Nat.add_0_r, <- !app_assoc. rewrite drop_app_length' by done.
    rewrite take_app_length' by (by rewrite length_le_bytes). rewrite from_le_bytes_small by done.
    rewrite (app_assoc pre). rewrite drop_app_length' by (rewrite length_app, length_le_bytes; lia).
    rewrite take_app_length' by (by rewrite length_le_bytes). by rewrite from_le_bytes_small.
  - rewrite <- (seq_shift (length ms) 0), map_map. etransitivity; [|apply (IH (pre ++ put_msr (a, b)) (o + 12)%nat)].
    + apply map_ext. intros k. rewrite <- !app_assoc. by replace (o + S k * 12)%nat with (o + 12 + k * 12)%nat by lia.
    + unfold put_msr. rewrite !length_app, !length_le_bytes. simpl. lia.
Qed.

Lemma vcpu_tag_idx i d n : (i < n)%nat -> N.of_nat n <= 2 ^ 32 -> take_idx (with_idx i d) n = Ok (i, d).
Proof.
  intros Hi Hn. unfold take_idx, with_idx, lenN. rewrite length_app, length_le_bytes. rewrite (proj2 (N.ltb_ge _ _)) by lia.
  rewrite take_app_length', drop_app_length' by (by rewrite length_le_bytes). rewrite from_le_bytes_small by (unfold in_u; simpl; lia).
  rewrite Nat2N.id. by rewrite (proj2 (Nat.leb_gt _ _)).
Qed.

Lemma exact_len d n : lenN d = n -> exact d n = Ok d.
Proof. intros <-. unfold exact. by rewrite N.eqb_refl. Qed.

(** One section applied to one vCPU. *)
Lemma apply_vcpu_section tag i d v v' vs vm : is_vcpu_tag tag = true -> vs !! i = Some v -> N.of_nat (length vs) <= 2 ^ 32 ->
  vcpu_section tag d v = Ok v' -> apply_section tag (with_idx i d) (vs, vm) = Ok (<[i := v']> vs, vm).
Proof.
  intros Ht Hv Hn Hs. unfold apply_section. rewrite Ht, vcpu_tag_idx by (done || by eapply lookup_lt_Some). simpl. by rewrite Hv, Hs.
Qed.

Lemma msr_section v d : vcpu_ok v -> d = le_bytes 4 (lenN (msrs v)) ++ concat (map put_msr (msrs v)) ->
  vcpu_section TAG_MSRS d (MkVcpu (xsave v) (xcrs v) [] [] [] [] 0) = Ok (MkVcpu (xsave v) (xcrs v) (msrs v) [] [] [] 0).
Proof.
  intros [_ _ [Hm1 Hm2] _ _ _ _] ->. unfold vcpu_section. cbn [N.eqb TAG_MSRS TAG_XSAVE TAG_XCRS Pos.eqb].
  change (TAG_MSRS =? TAG_XSAVE) with false. change (TAG_MSRS =? TAG_XCRS) with false. change (TAG_MSRS =? TAG_MSRS) with true. cbv iota.
  unfold lenN at 1. rewrite length_app, length_le_bytes. rewrite (proj2 (N.ltb_ge _ _)) by lia.
  rewrite take_app_length' by (by rewrite length_le_bytes). assert (in_u 32 (lenN (msrs v))) as Hu by (unfold in_u, MAX_MSRS in *; simpl; lia).
  rewrite from_le_bytes_small by done. rewrite (proj2 (N.ltb_ge _ _)) by done. unfold lenN at 1. rewrite length_app, length_le_bytes, length_put_msrs.
  rewrite (proj2 (N.eqb_eq _ _)) by (unfold lenN; lia). cbn [orb negb]. unfold set_once. rewrite bool_decide_true by done. do 2 f_equal.
  unfold lenN. rewrite Nat2N.id. pose proof (msrs_read (le_bytes 4 (N.of_nat (length (msrs v)))) (msrs v) [] Hm2 4%nat (length_le_bytes _ _)) as H.
  by rewrite !app_nil_r in H.
Qed.

Lemma apply_vcpu_step tag i d v v' vs vm l : is_vcpu_tag tag = true -> vs !! i = Some v -> N.of_nat (length vs) <= 2 ^ 32 ->
  vcpu_section tag d v = Ok v' -> apply_all ((tag, with_idx i d) :: l) (vs, vm) = apply_all l (<[i := v']> vs, vm).
Proof. intros Ht Hv Hn Hs. cbn [apply_all]. by rewrite (apply_vcpu_section tag i d v v' vs vm). Qed.

(** The seven sections of a vCPU give it back. *)
Lemma vcpu_sections_apply i v vs vm : vcpu_ok v -> vs !! i = Some VcpuState_default -> N.of_nat (length vs) <= 2 ^ 32 ->
  apply_all (vcpu_sections i v) (vs, vm) = Ok (<[i := v]> vs, vm).
Proof.
  intros Hv Hi Hn. pose proof Hv as [[H1 _] H2 _ H4 H5 H6 H7]. assert (forall x, <[i := x]> vs !! i = Some x) as Hx by (intros x; apply list_lookup_insert_eq; by eapply lookup_lt_Some).
  assert (forall x, N.of_nat (length (<[i := x]> vs)) <= 2 ^ 32) as Hl by (intros x; by rewrite length_insert).
  assert (forall x y : VcpuState, <[i := x]> (<[i := y]> vs) = <[i := x]> vs) as Hii by (intros; apply list_insert_insert_eq).
  unfold vcpu_sections. fold (with_idx i (le_bytes 4 (lenN (msrs v)) ++ concat (map put_msr (msrs v)))).
  erewrite (apply_vcpu_step TAG_XSAVE _ _ _ (MkVcpu (xsave v) [] [] [] [] [] 0)); [|done|exact Hi|done|].
  2: { unfold vcpu_section. change (TAG_XSAVE =? TAG_XSAVE) with true. cbv iota. by rewrite (proj2 (N.ltb_ge _ _)). }
  erewrite (apply_vcpu_step TAG_XCRS _ _ _ (MkVcpu (xsave v) (xcrs v) [] [] [] [] 0)); [|done|apply Hx|apply Hl|].
  2: { unfold vcpu_section. rewrite (exact_len _ XCRS_LEN H2). reflexivity. }
  rewrite Hii. erewrite (apply_vcpu_step TAG_MSRS _ _ _ (MkVcpu (xsave v) (xcrs v) (msrs v) [] [] [] 0)); [|done|apply Hx|apply Hl|by apply msr_section].
  rewrite Hii. erewrite (apply_vcpu_step TAG_LAPIC _ _ _ (MkVcpu (xsave v) (xcrs v) (msrs v) (lapic v) [] [] 0)); [|done|apply Hx|apply Hl|].
  2: { unfold vcpu_section. rewrite (exact_len _ LAPIC_LEN H4). reflexivity. }
  rewrite Hii. erewrite (apply_vcpu_step TAG_EVENTS _ _ _ (MkVcpu (xsave v) (xcrs v) (msrs v) (lapic v) (events v) [] 0)); [|done|apply Hx|apply Hl|].
  2: { unfold vcpu_section. rewrite (exact_len _ EVENTS_LEN H5). reflexivity. }
  rewrite Hii. erewrite (apply_vcpu_step TAG_DEBUGREGS _ _ _ (MkVcpu (xsave v) (xcrs v) (msrs v) (lapic v) (events v) (debugregs v) 0)); [|done|apply Hx|apply Hl|].
  2: { unfold vcpu_section. rewrite (exact_len _ DEBUGREGS_LEN H6). reflexivity. }
  rewrite Hii. erewrite (apply_vcpu_step TAG_TSC_KHZ _ _ _ v); [|done|apply Hx|apply Hl|].
  2: { unfold vcpu_section. rewrite (exact_len (le_bytes 4 (tsc_khz v)) 4) by (unfold lenN; by rewrite length_le_bytes).
       change (Ok (MkVcpu (xsave v) (xcrs v) (msrs v) (lapic v) (events v) (debugregs v) (from_le (le_bytes 4 (tsc_khz v)))) = Ok v).
       rewrite from_le_bytes_small by done. by destruct v. }
  by rewrite Hii.
Qed.

Lemma vcpus_sections_apply vs pre vm : Forall vcpu_ok vs -> N.of_nat (length pre + length vs) <= 2 ^ 32 ->
  apply_all (vcpus_sections (length pre) vs) (pre ++ repeat VcpuState_default (length vs), vm) = Ok (pre ++ vs, vm).
Proof.
  intros Hv. revert pre. induction Hv as [|v vs H1 H2 IH]; intros pre Hn; [done|]. cbn [vcpus_sections length repeat].
  erewrite apply_all_app.
  2: { apply vcpu_sections_apply; [done|by apply list_lookup_middle|]. rewrite length_app. simpl. rewrite repeat_length. simpl in Hn. lia. }
  rewrite (insert_app_r_alt) by lia. rewrite Nat.sub_diag. simpl. 
  specialize (IH (pre ++ [v])). rewrite length_app in IH. simpl in IH. rewrite <- !app_assoc in IH. simpl in IH.
  replace (length pre + 1)%nat with (S (length pre)) in IH by lia. apply IH. simpl in Hn. lia.
Qed.

(** The state of a VM as KVM gives it. *)
Record vm_ok (vm : VmState) : Prop := {
  mo_clock : lenN (clock vm) = CLOCK_LEN;
  mo_pit2 : lenN (pit2 vm) = PIT2_LEN;
  mo_chips : Forall (fun c => lenN c = IRQCHIP_LEN) (irqchips vm);
  mo_ids : map (fun c => from_le (take 4 c)) (irqchips vm) = IRQCHIP_IDS }.

Lemma chips_apply chips pre vs c : Forall (fun c => lenN c = IRQCHIP_LEN) chips ->
  NoDup (map (fun c => from_le (take 4 c)) (pre ++ chips)) -> (forall x, x ∈ chips -> from_le (take 4 x) ∈ IRQCHIP_IDS) ->
  apply_all (map (fun c => (TAG_IRQCHIP, c)) chips) (vs, MkVm c pre []) = Ok (vs, MkVm c (pre ++ chips) []).
Proof.
  intros Hc. revert pre. induction Hc as [|x chips Hx Hc IH]; intros pre Hnd Hin; [by rewrite app_nil_r|]. cbn [map apply_all].
  assert (apply_section TAG_IRQCHIP x (vs, MkVm c pre []) = Ok (vs, MkVm c (pre ++ [x]) [])) as ->.
  { unfold apply_section. change (is_vcpu_tag TAG_IRQCHIP) with false. cbv iota. unfold vm_section. change (TAG_IRQCHIP =? TAG_CLOCK) with false.
    change (TAG_IRQCHIP =? TAG_IRQCHIP) with true. cbv iota. rewrite exact_len by done. cbn [obind].
    assert (existsb (N.eqb (from_le (take 4 x))) IRQCHIP_IDS = true) as ->.
    { apply existsb_exists. exists (from_le (take 4 x)). split; [|apply N.eqb_refl]. apply list_elem_of_In, Hin. by left. }
    cbn [negb]. cbn [irqchips]. destruct (existsb _ pre) eqn:E; [|done]. exfalso.
    apply existsb_exists in E as (y & Hy & Ey%N.eqb_eq). apply list_elem_of_In in Hy. rewrite map_app in Hnd. apply NoDup_app in Hnd as (_ & Hd & _).
    apply (Hd (from_le (take 4 y))); [exact (list_elem_of_fmap_2 (fun c => from_le (take 4 c)) pre y Hy)|]. simpl. rewrite Ey. by left. }
  cbn [obind]. rewrite IH; [by rewrite <- app_assoc|by rewrite <- app_assoc|]. intros y Hy. apply Hin. by right.
Qed.

Lemma vm_sections_apply vs vm : vm_ok vm -> apply_all (vm_sections vm) (vs, VmState_default) = Ok (vs, vm).
Proof.
  intros [H1 H2 H3 H4]. unfold vm_sections. cbn [app apply_all].
  assert (apply_section TAG_CLOCK (clock vm) (vs, VmState_default) = Ok (vs, MkVm (clock vm) [] [])) as ->.
  { unfold apply_section, vm_section. change (is_vcpu_tag TAG_CLOCK) with false. cbv iota. change (TAG_CLOCK =? TAG_CLOCK) with true. cbv iota. by rewrite exact_len. }
  cbn [obind]. erewrite apply_all_app.
  2: { apply chips_apply; [done| |].
       - rewrite app_nil_l, H4. by_eval.
       - intros x Hx. rewrite <- H4. exact (list_elem_of_fmap_2 (fun c => from_le (take 4 c)) _ x Hx). }
  cbn [apply_all app]. unfold apply_section, vm_section. change (is_vcpu_tag TAG_PIT2) with false. cbv iota.
  change (TAG_PIT2 =? TAG_CLOCK) with false. change (TAG_PIT2 =? TAG_IRQCHIP) with false. change (TAG_PIT2 =? TAG_PIT2) with true. cbv iota.
  rewrite exact_len by done. by destruct vm.
Qed.

Lemma section_lens vs vm : Forall vcpu_ok vs -> vm_ok vm ->
  Forall section_fits (vcpus_sections 0 vs ++ vm_sections vm) /\ length (vcpus_sections 0 vs ++ vm_sections vm) = (7 * length vs + 5)%nat.
Proof.
  intros Hv [H1 H2 H3 H4]. change MAX_SECTION_BYTES with 1048576 in *. split.
  - apply Forall_app. split.
    + generalize 0%nat. induction Hv as [|v vs [[A1 A2] A3 [A4 _] A5 A6 A7 _] Hv IH]; intros i; [constructor|]. cbn [vcpus_sections].
      apply Forall_app. split; [|apply IH]. unfold vcpu_sections, with_idx, section_fits, lenN in *. change MAX_SECTION_BYTES with 1048576 in *.
      repeat constructor; simpl; rewrite ?length_app, ?length_le_bytes, ?length_put_msrs; try done;
        unfold XCRS_LEN, LAPIC_LEN, EVENTS_LEN, DEBUGREGS_LEN, MAX_MSRS in *; lia.
    + unfold vm_sections, section_fits, lenN in *. change MAX_SECTION_BYTES with 1048576 in *. unfold CLOCK_LEN, PIT2_LEN, IRQCHIP_LEN in *.
      apply Forall_app. split; [constructor; [split; [done|simpl; lia]|constructor]|]. apply Forall_app. split; [|constructor; [split; [done|simpl; lia]|constructor]].
      apply Forall_map. eapply Forall_impl; [exact H3|]. intros c Hc. split; [done|]. simpl in *. lia.
  - rewrite length_app. assert (length (vm_sections vm) = 5)%nat as ->.
    { unfold vm_sections. rewrite !length_app, length_map. apply (f_equal length) in H4. rewrite length_map in H4. change (length IRQCHIP_IDS) with 3%nat in H4. cbn [length]. rewrite H4. done. }
    f_equal. assert (forall i, length (vcpus_sections i vs) = (7 * length vs)%nat) as Hc; [|apply Hc]. clear.
    induction vs as [|v vs IH]; intros i; [done|]. cbn [vcpus_sections]. rewrite length_app, IH.
    change (length (vcpu_sections i v)) with 7%nat. cbn [length]. lia.
Qed.

Lemma sections_roundtrip vs vm : Forall vcpu_ok vs -> vm_ok vm -> N.of_nat (length vs) <= 2 ^ 32 ->
  read_sections (length vs) (write_sections vs vm) = (Ok (vs, vm), []).
Proof.
  intros Hv Hm Hn. destruct (section_lens vs vm Hv Hm) as [Hf Hl]. unfold read_sections, write_sections. apply sections_read; [|done|lia].
  erewrite apply_all_app; [by apply vm_sections_apply|]. exact (vcpus_sections_apply vs [] VmState_default Hv Hn).
Qed.

(** KVM answers for every vCPU: the raw registers and the MP state. *)
Definition cpu_answers (c : KvmCpu) (x : bytes * bytes * u32) : Prop :=
  k_regs c = Ok x.1.1 /\ k_sregs c = Ok x.1.2 /\ k_mp c = Ok x.2 /\ length x.1.1 = REGS_LEN /\ length x.1.2 = SREGS_LEN /\ in_u 32 x.2.

Lemma oapp_ok {A} (a b : outcome (list A)) l : oapp a b = Ok l -> exists x y, a = Ok x /\ b = Ok y /\ l = x ++ y.
Proof. destruct a, b; simpl; try done. intros [= <-]. eauto. Qed.

Lemma parses_cpu r s : length r = REGS_LEN -> length s = SREGS_LEN -> parses read_cpu (r ++ s) (r, s).
Proof.
  intros H1 H2. unfold read_cpu. eapply parses_bind; [by apply parses_exact|]. rewrite <- (app_nil_r s) at 1.
  eapply parses_bind; [by apply parses_exact|apply parses_ret].
Qed.

Lemma parses_cpus cpus xs b : Forall2 cpu_answers cpus xs -> put_cpus cpus = Ok b -> parses (read_n (length cpus) read_cpu) b (map fst xs).
Proof.
  intros H. revert b. induction H as [|c [[r s] m] cpus xs (H1 & H2 & _ & H3 & H4 & _) Hf IH]; intros b; cbn [put_cpus]; [intros [= <-]; apply parses_ret|].
  simpl in *. rewrite H1, H2. intros (x & y & Ex & Ey & ->)%oapp_ok. simpl in Ex. injection Ex as <-. cbn [read_n].
  eapply parses_bind.
  - apply parses_cpu; done.
  - rewrite <- (app_nil_r y). eapply parses_bind; [by apply IH|apply parses_ret].
Qed.

Lemma parses_mp cpus xs b : Forall2 cpu_answers cpus xs -> put_mp cpus = Ok b -> parses (read_n (length cpus) (read_le 4)) b (map snd xs).
Proof.
  intros H. revert b. induction H as [|c [[r s] m] cpus xs (_ & _ & H1 & _ & _ & H2) Hf IH]; intros b; cbn [put_mp]; [intros [= <-]; apply parses_ret|].
  simpl in *. rewrite H1. intros (x & y & Ex & Ey & ->)%oapp_ok. assert (x = le_bytes 4 m) as -> by congruence.
  eapply parses_bind; [by apply parses_le|]. rewrite <- (app_nil_r y). eapply parses_bind; [by apply IH|apply parses_ret].
Qed.

Lemma dump_load mem cpus xs vs vm virtio file :
  in_u 64 (mem_len mem) -> Forall2 cpu_answers cpus xs -> length vs = length cpus -> Forall vcpu_ok vs -> vm_ok vm -> Forall device_typed virtio ->
  dump mem cpus (Ok (vs, vm)) virtio = Ok file ->
  load_cpu file = Ok (MkSnap (mem_len mem) (map fst xs) (map packed virtio) (map snd xs) VERSION vs (Some vm)).
Proof.
  intros Hmem Hx Hvs Hv Hm Hd. unfold dump. destruct (_ || _) eqn:Hc; [done|]. apply orb_false_iff in Hc as [Hc1 Hc2]. pose proof Hc2 as Hc3. apply N.ltb_ge in Hc3.
  intros (b1 & r1 & E1 & (b2 & r2 & E2 & (b3 & r3 & E3 & (b4 & b5 & E4 & E5 & ->)%oapp_ok & ->)%oapp_ok & ->)%oapp_ok & ->)%oapp_ok.
  assert (b1 = MAGIC ++ le_bytes 4 VERSION ++ le_bytes 8 (mem_len mem) ++ le_bytes 4 (lenN cpus)) as -> by congruence.
  assert (b5 = write_sections vs vm) as -> by congruence. clear E1 E5.
  unfold load_cpu, load_body, bind. rewrite <- !app_assoc. rewrite (parses_exact 8 MAGIC eq_refl). rewrite bool_decide_true by done. cbn [negb].
  rewrite (parses_le 4 VERSION) by done. change ((1 <=? VERSION) && (VERSION <=? VERSION)) with true. cbn [negb].
  rewrite (parses_le 8 (mem_len mem)) by done. change (2 <=? VERSION) with true. cbv iota.
  rewrite (parses_le 4 (lenN cpus)) by (unfold in_u, MAX_SNAPSHOT_VCPUS in *; simpl; lia). rewrite Hc1, Hc2. cbn [orb].
  unfold lenN at 1 2 3. rewrite Nat2N.id. rewrite (parses_cpus cpus xs b2 Hx E2). change (3 <=? VERSION) with true. cbv iota.
  rewrite (parses_virtio virtio b3 Hd E3). change (4 <=? VERSION) with true. cbv iota. rewrite (parses_mp cpus xs b4 Hx E4).
  change (5 <=? VERSION) with true. cbv iota. rewrite <- Hvs.
  assert (N.of_nat (length vs) <= 2 ^ 32) as Hn by (rewrite Hvs; unfold MAX_SNAPSHOT_VCPUS, lenN in *; simpl; lia).
  rewrite (sections_roundtrip vs vm Hv Hm Hn). done.
Qed.

(** ** Any file *)

(** Whatever bytes are left, [m] returns, and a value it returns satisfies [P]. *)
Definition yields {A} (m : M bytes A) (P : A -> Prop) : Prop :=
  forall f, match (m f).1 with Ok a => P a | Err _ => True | _ => False end.

Definition oyields {A} (o : outcome A) (P : A -> Prop) : Prop := match o with Ok a => P a | Err _ => True | _ => False end.

Lemma yields_ret {A} (a : A) (P : A -> Prop) : P a -> yields (ret a) P.
Proof. by intros H f. Qed.

Lemma yields_throw {A} e (P : A -> Prop) : yields (throw e) P.
Proof. by intros f. Qed.

Lemma yields_bind {A B} (m : M bytes A) (k : A -> M bytes B) P Q :
  yields m P -> (forall a, P a -> yields (k a) Q) -> yields (bind m k) Q.
Proof. intros Hm Hk f. specialize (Hm f). unfold bind. destruct (m f) as [[a|e| |] f']; simpl in *; try done. by apply Hk. Qed.

Lemma yields_weaken {A} (m : M bytes A) (P Q : A -> Prop) : yields m P -> (forall a, P a -> Q a) -> yields m Q.
Proof. intros Hm Hi f. specialize (Hm f). destruct (m f) as [[a|e| |] f']; simpl in *; auto. Qed.

Lemma yields_lift {A} (o : outcome A) P : oyields o P -> yields (lift o) P.
Proof. by intros H f. Qed.

Lemma yields_exact n : yields (read_exact n) (fun b => length b = n).
Proof. intros f. unfold read_exact. destruct (_ <? _)%nat eqn:E; [done|]. apply Nat.ltb_ge in E. simpl. rewrite length_take. lia. Qed.

Lemma yields_le n : yields (read_le n) (fun _ => True).
Proof. eapply yields_bind; [apply yields_exact|]. intros b _. by apply yields_ret. Qed.

Lemma yields_n {A} n (p : M bytes A) P : yields p P -> yields (read_n n p) (fun l => length l = n /\ Forall P l).
Proof.
  intros Hp. induction n as [|n IH]; cbn [read_n]; [by apply yields_ret|]. eapply yields_bind; [done|]. intros a Ha.
  eapply yields_bind; [done|]. intros l [Hl Hf]. apply yields_ret. split; [by simpl; f_equal|by constructor].
Qed.

Definition device_shape (d : VirtioState) : Prop := num_queues d <= MAX_VIRTIO_QUEUES /\ length (queues d) = MAX_QUEUES.

Lemma yields_queue : yields read_queue (fun _ => True).
Proof. repeat (eapply yields_bind; [apply yields_le|intros ? _]). by apply yields_ret. Qed.

Lemma yields_device : yields read_device device_shape.
Proof.
  do 5 (eapply yields_bind; [apply yields_le|intros ? _]). eapply yields_bind; [apply yields_le|intros nq _].
  destruct (_ <? _) eqn:E; [apply yields_throw|]. apply N.ltb_ge in E. eapply yields_bind; [apply yields_n, yields_queue|]. intros qs [Hl _].
  apply yields_ret. split; [done|]. cbn [unpacked queues]. rewrite length_app, length_drop, Hl.
  change (length (queues VirtioState_default)) with MAX_QUEUES. unfold MAX_VIRTIO_QUEUES in E. lia.
Qed.

Lemma yields_virtio : yields read_virtio_v3 (fun l => (length l <= 64)%nat /\ Forall device_shape l).
Proof.
  eapply yields_bind; [apply yields_le|intros n _]. destruct (_ <? _) eqn:E; [apply yields_throw|]. apply N.ltb_ge in E.
  eapply yields_weaken; [apply yields_n, yields_device|]. intros l [Hl Hf]. split; [unfold MAX_SNAPSHOT_DEVICES in E; lia|done].
Qed.

Lemma oyields_bind {A B} (o : outcome A) (f : A -> outcome B) P : oyields o (fun a => oyields (f a) P) -> oyields (obind o f) P.
Proof. by destruct o. Qed.

Lemma exact_yields d n (P : bytes -> Prop) : (lenN d = n -> P d) -> oyields (exact d n) P.
Proof. intros H. unfold exact. destruct (_ =? _) eqn:E; [|done]. by apply H, N.eqb_eq. Qed.

Lemma set_once_yields {A S} `{EqDecision A} (x y : A) (u : S) (P : S -> Prop) : P u -> oyields (set_once x y u) P.
Proof. intros H. unfold set_once. by case_bool_decide. Qed.

Lemma vcpu_section_returns tag d v : oyields (vcpu_section tag d v) (fun _ => True).
Proof.
  unfold vcpu_section. repeat (destruct (tag =? _); [try (by apply oyields_bind, exact_yields; intros; apply set_once_yields)|]).
  - destruct (_ <? _); [done|by apply set_once_yields].
  - destruct (_ <? _); [done|]. cbv zeta. destruct (_ || _); [done|by apply set_once_yields].
  - by apply oyields_bind, exact_yields; intros; apply set_once_yields.
Qed.

(** The pieces of the VM's state that have been read have their sizes. *)
Definition vm_shape (vm : VmState) : Prop :=
  (clock vm = [] \/ lenN (clock vm) = CLOCK_LEN) /\ (pit2 vm = [] \/ lenN (pit2 vm) = PIT2_LEN) /\
  Forall (fun c => lenN c = IRQCHIP_LEN) (irqchips vm) /\ NoDup (map (fun c => from_le (take 4 c)) (irqchips vm)).

Lemma vm_section_shape tag p vm : vm_shape vm -> oyields (vm_section tag p vm) vm_shape.
Proof.
  intros (H1 & H2 & H3 & H4). unfold vm_section. destruct (_ =? _).
  { apply oyields_bind, exact_yields. intros Hl. apply set_once_yields. by split_and!; [right| | |]. }
  destruct (_ =? _).
  { apply oyields_bind, exact_yields. intros Hl. cbv zeta. destruct (negb _); [done|]. destruct (existsb _ _) eqn:E; [done|]. simpl. split_and!; try done.
    - apply Forall_app. split; [done|]. by constructor.
    - simpl. rewrite map_app. apply NoDup_app. split_and!; [done| |apply NoDup_singleton]. intros i (c & -> & Hc)%list_elem_of_fmap Hi.
      simpl in Hi. apply list_elem_of_singleton in Hi. apply not_true_iff_false in E. apply E, existsb_exists. exists c.
      split; [by apply list_elem_of_In|]. by apply N.eqb_eq. }
  destruct (_ =? _); [|done]. apply oyields_bind, exact_yields. intros Hl. apply set_once_yields. by split_and!; [|right| |].
Qed.

Lemma apply_section_shape n tag p s : length s.1 = n -> vm_shape s.2 -> oyields (apply_section tag p s) (fun s' => length s'.1 = n /\ vm_shape s'.2).
Proof.
  destruct s as [vs vm]. simpl. intros Hn Hv. unfold apply_section. destruct (is_vcpu_tag tag); apply oyields_bind.
  - unfold take_idx. destruct (_ <? _); [done|]. cbv zeta. destruct (_ <=? _)%nat eqn:E; [done|]. apply Nat.leb_gt in E. simpl.
    destruct (lookup_lt_is_Some_2 vs _ E) as [v ->]. apply oyields_bind. pose proof (vcpu_section_returns tag (drop 4 p) v) as H.
    destruct (vcpu_section _ _ _); try done. simpl. by rewrite length_insert.
  - pose proof (vm_section_shape tag p vm Hv) as H. by destruct (vm_section _ _ _).
Qed.

Lemma yields_sections k n s : length s.1 = n -> vm_shape s.2 -> yields (sections_loop k s) (fun s' => length s'.1 = n /\ vm_shape s'.2).
Proof.
  revert s. induction k as [|k IH]; intros s Hn Hv; cbn [sections_loop]; [apply yields_throw|]. intros [|b f]; [done|]. revert f.
  assert (forall A (m : M bytes A) P, yields m P -> forall f, match (m (b :: f)).1 with Ok a => P a | Err _ => True | _ => False end) as Hy by (intros A m P H f; apply H).
  intros f. apply Hy. eapply yields_bind; [apply yields_le|intros tag _]. eapply yields_bind; [apply yields_le|intros len _].
  destruct (_ <? _); [apply yields_throw|]. eapply yields_bind; [apply yields_exact|intros p _].
  eapply yields_bind; [by apply yields_lift, apply_section_shape|]. intros s' [H1 H2]. by apply IH.
Qed.

(** What the reader accepts. *)
Record snap_shape (s : CpuSnapshot) : Prop := {
  ss_vcpus : (1 <= length (s_vcpus s) <= 256)%nat;
  ss_regs : Forall (fun c => length c.1 = REGS_LEN /\ length c.2 = SREGS_LEN) (s_vcpus s);
  ss_states : length (s_vcpu_states s) = length (s_vcpus s);
  ss_mp : length (s_mp_states s) = if 4 <=? s_version s then length (s_vcpus s) else O;
  ss_version : 1 <= s_version s <= VERSION;
  ss_devices : (length (s_virtio s) <= 64)%nat /\ Forall device_shape (s_virtio s);
  ss_vm : match s_vm_state s with Some vm => 5 <= s_version s /\ vm_shape vm | None => s_version s < 5 end }.

Lemma yields_cpu : yields read_cpu (fun c => length c.1 = REGS_LEN /\ length c.2 = SREGS_LEN).
Proof. eapply yields_bind; [apply yields_exact|intros r Hr]. eapply yields_bind; [apply yields_exact|intros s Hs]. by apply yields_ret. Qed.

Lemma yields_load : yields load_body snap_shape.
Proof.
  eapply yields_bind; [apply yields_exact|intros magic _]. destruct (negb _); [apply yields_throw|].
  eapply yields_bind; [apply yields_le|intros version _]. destruct (negb _) eqn:Ev; [apply yields_throw|].
  apply negb_false_iff, andb_true_iff in Ev as [Ev1%N.leb_le Ev2%N.leb_le].
  eapply yields_bind; [apply yields_le|intros mlen _].
  eapply (yields_bind _ _ (fun _ => True)); [destruct (2 <=? version); [apply yields_le|by apply yields_ret]|intros ncpus _].
  destruct (_ || _) eqn:En; [apply yields_throw|]. apply orb_false_iff in En as [En1%N.eqb_neq En2%N.ltb_ge]. unfold MAX_SNAPSHOT_VCPUS in En2. cbv zeta.
  eapply yields_bind; [apply yields_n, yields_cpu|intros vcpus [Hc1 Hc2]].
  eapply (yields_bind _ _ (fun l => (length l <= 64)%nat /\ Forall device_shape l)).
  { destruct (3 <=? version); [apply yields_virtio|]. destruct (_ =? _); [|apply yields_ret; split; [simpl; lia|constructor]].
    eapply yields_bind; [apply yields_exact|intros ? _]. apply yields_ret. split; [simpl; lia|constructor]. }
  intros virtio Hvirtio. eapply (yields_bind _ _ (fun l => length l = if 4 <=? version then N.to_nat ncpus else O)).
  { destruct (4 <=? version); [|by apply yields_ret]. eapply yields_weaken; [apply yields_n, yields_le|]. by intros l [Hl _]. }
  intros mp Hmp. eapply (yields_bind _ _ (fun '(vs, vm) => length vs = N.to_nat ncpus /\
    match vm with Some vm => 5 <= version /\ vm_shape vm | None => version < 5 end)).
  { destruct (5 <=? version) eqn:E5.
    - apply N.leb_le in E5. eapply yields_bind; [apply yields_sections; [apply repeat_length|]|].
      + split_and!; [by left|by left|constructor|constructor].
      + intros [vs vm] [H1 H2]. by apply yields_ret.
    - apply N.leb_gt in E5. apply yields_ret. by rewrite repeat_length. }
  intros [vs vm] [Hvs Hvm]. apply yields_ret. split; simpl; try done; try lia. by rewrite Hc1.
Qed.

(** any file is read or refused: whatever bytes a snapshot file holds and
    whatever version it claims, loading it ends without a panic, and it is taken
    only with 1 to 256 vCPUs of full registers, as many MP states from version 4 on,
    at most 64 devices of at most 9 queues, and sections of the right sizes, no two
    for the same interrupt controller. *)
Theorem load_cpu_total file :
  match load_cpu file with Ok s => snap_shape s | Err _ => True | _ => False end.
Proof. exact (yields_load file). Qed.

(** The state of a small VM: one vCPU, a disk. *)
Definition sample_vcpu : VcpuState :=
  MkVcpu (repeat 7 4096) (repeat 1 392) [(0x10, 1000); (0x174, 16)] (repeat 2 1024) (repeat 3 64) (repeat 4 128) 2600000.
Definition sample_vm : VmState := MkVm (repeat 5 48) (map (fun i => le_bytes 4 i ++ repeat 6 516) IRQCHIP_IDS) (repeat 8 112).
Definition sample_cpu : KvmCpu := MkCpu (Ok (repeat 9 REGS_LEN)) (Ok (repeat 10 SREGS_LEN)) (Ok 0).
Definition sample_mem : GuestMemory := {| ram := repeat 0 64 |}.
Definition sample_file : bytes :=
  match dump sample_mem [sample_cpu] (Ok ([sample_vcpu], sample_vm)) [VirtioState_default] with Ok f => f | _ => [] end.
