(* ===== verification/SnapRestore.v ===== *)
(** * Restoring a KVM snapshot

    [kvm_state.rs] (the MSR loops and the state KVM is given), [kvm_snap.rs]
    (memory, vCPUs, virtio devices), [snapshot.rs] (the check before a restore, the
    copy of the disk, saving) and the checks of [guest.rs] and [migration.rs].

    A restore is a computation over the list of the [ioctl]s made; what KVM answers
    to a call, given the calls before it, is a parameter ([None]: a negative return). *)

From stdpp Require Import prelude list strings.
From Stdlib Require Import NArith Lia.
From S2P Require Import Prelude RustStr GuestMemory Virtqueue VirtioMmio Snapshot.

(** ** Reading the MSRs *)

Section ReadMsrs.
Variable kvm_get_msrs : list u32 -> option (nat * list (u32 * u64)).

Fixpoint read_msrs_loop (fuel : nat) (rest : list u32) (out : list (u32 * u64)) : outcome (list (u32 * u64)) :=
  match rest with
  | [] => Ok out
  | _ =>
      match fuel with
      | O => Loop
      | S fuel =>
          match kvm_get_msrs rest with
          | None => Err Hypervisor
          | Some (done_, buf) =>
              read_msrs_loop fuel (drop (Nat.min (done_ + 1) (length rest)) rest) (out ++ take (Nat.min done_ (length rest)) buf)
          end
      end
  end.

Definition read_msrs (indices : list u32) : outcome (list (u32 * u64)) := read_msrs_loop (length indices) indices [].

Lemma read_msrs_ends fuel rest out : (length rest <= fuel)%nat -> returns (read_msrs_loop fuel rest out).
Proof.
  revert rest out. induction fuel as [|fuel IH]; intros [|i rest] out Hf; simpl in *; try done; [lia|].
  destruct (kvm_get_msrs _) as [[n buf]|]; [|done]. apply IH. rewrite length_drop. simpl. lia.
Qed.
End ReadMsrs.

(** The longest prefix whose members pass [ok]. *)
Fixpoint prefix_ok {A} (ok : A -> bool) (l : list A) : list A :=
  match l with [] => [] | a :: l => if ok a then a :: prefix_ok ok l else [] end.

Lemma prefix_split {A} (ok : A -> bool) l :
  let n := length (prefix_ok ok l) in
  prefix_ok ok l = take n l /\ forallb ok (take n l) = true /\ (n <= length l)%nat /\
  ((n = length l /\ drop (n + 1) l = []) \/ exists a, l = take n l ++ a :: drop (n + 1) l /\ ok a = false).
Proof.
  induction l as [|a l IH]; [simpl; by split_and!; [..|left]|]. simpl. destruct (ok a) eqn:E; simpl.
  - destruct IH as (H1 & H2 & H3 & H4). split_and!; [by f_equal|by rewrite E|lia|].
    destruct H4 as [[H4 H5]|(b & H4 & H5)]; [left; split; [lia|done]|right; exists b; split; [by f_equal|done]].
  - split_and!; [done|done|lia|]. right. exists a. by rewrite drop_0.
Qed.

(** KVM_GET_MSRS fills in the values up to the first MSR it cannot read, and says
    how many it read; [rdmsr] is what the vCPU's MSRs hold. *)
Definition get_msrs_documented (get : list u32 -> option (nat * list (u32 * u64))) (rdmsr : u32 -> option u64) : Prop :=
  forall l, exists buf, get l = Some (length (prefix_ok (fun i => bool_decide (is_Some (rdmsr i))) l), buf) /\ length buf = length l /\
    take (length (prefix_ok (fun i => bool_decide (is_Some (rdmsr i))) l)) buf =
      omap (fun i => pair i <$> rdmsr i) (prefix_ok (fun i => bool_decide (is_Some (rdmsr i))) l).

Lemma read_msrs_all get rdmsr : get_msrs_documented get rdmsr -> forall fuel rest out, (length rest <= fuel)%nat ->
  read_msrs_loop get fuel rest out = Ok (out ++ omap (fun i => pair i <$> rdmsr i) rest).
Proof.
  intros Hg. induction fuel as [|fuel IH]; intros [|i rest] out Hf; try (by simpl; rewrite ?app_nil_r); [simpl in Hf; lia|].
  cbn [read_msrs_loop]. set (l := i :: rest) in *. clearbody l. destruct (Hg l) as (buf & -> & Hb & Ht).
  destruct (prefix_split (fun i => bool_decide (is_Some (rdmsr i))) l) as (Hp & _ & Hn & Hsplit).
  set (n := length (prefix_ok _ l)) in *. rewrite (Nat.min_l n (length l)) by lia. rewrite Ht.
  rewrite IH; [|rewrite length_drop; lia]. rewrite <- app_assoc. do 2 f_equal. rewrite Hp.
  destruct Hsplit as [[E1 E2]|(a & E1 & E2)].
  - rewrite E1, firstn_all, Nat.min_r, drop_all by lia. simpl. by rewrite app_nil_r.
  - assert (n + 1 <= length l)%nat as Hle by (apply (f_equal length) in E1; rewrite length_app, length_take in E1; simpl in E1; lia).
    rewrite Nat.min_l by done. rewrite E1 at 3. rewrite omap_app. simpl. apply bool_decide_eq_false in E2.
    destruct (rdmsr a); [destruct E2; eauto|done].
Qed.

(** no readable MSR is missed: however many of the MSRs KVM lists cannot be read
    on this host, the capture ends and holds every readable one, in order, with its
    value; an unreadable one costs only itself. *)
Theorem read_msrs_complete get rdmsr indices : get_msrs_documented get rdmsr ->
  read_msrs get indices = Ok (omap (fun i => pair i <$> rdmsr i) indices).
Proof. intros Hg. exact (read_msrs_all get rdmsr Hg (length indices) indices [] (le_n _)). Qed.

Definition sample_rdmsr (i : u32) : option u64 := if i =? 2 then None else Some (i + 100).
Definition sample_get (l : list u32) : option (nat * list (u32 * u64)) :=
  let n := length (prefix_ok (fun i => bool_decide (is_Some (sample_rdmsr i))) l) in
  Some (n, map (fun i => (i, i + 100)) (take n l) ++ map (fun i => (i, 0)) (drop n l)).

Lemma sample_get_ok : get_msrs_documented sample_get sample_rdmsr.
Proof.
  intros l. unfold sample_get. eexists. split; [reflexivity|].
  destruct (prefix_split (fun i => bool_decide (is_Some (sample_rdmsr i))) l) as (Hp & Hf & Hn & _). set (n := length (prefix_ok _ l)) in *.
  split; [rewrite length_app, !length_map, length_take, length_drop; lia|].
  rewrite take_app_length' by (rewrite length_map, length_take; lia). rewrite Hp.
  revert Hf. generalize (take n l). clear. intros t. induction t as [|a t IH]; [done|]. simpl. intros [Ha Ht]%andb_true_iff.
  apply bool_decide_eq_true in Ha. unfold sample_rdmsr at 1. unfold sample_rdmsr in Ha at 1. destruct (a =? 2); [by destruct Ha|]. simpl. by rewrite IH.
Qed.

Lemma read_msrs_complete_witness : read_msrs sample_get [1; 2; 3; 2; 4] = Ok [(1, 101); (3, 103); (4, 104)].
Proof. exact (read_msrs_complete sample_get sample_rdmsr [1; 2; 3; 2; 4] sample_get_ok). Defined.

(** ** Giving the state back to KVM *)

Inductive KvmCall :=
| SetClock (d : bytes) | SetIrqchip (d : bytes) | SetPit2 (d : bytes)
| SetSregs (i : nat) (d : bytes) | SetRegs (i : nat) (d : bytes)
| SetXsave (i : nat) (d : bytes) | SetXcrs (i : nat) (d : bytes) | SetLapic (i : nat) (d : bytes)
| SetTscKhz (i : nat) (khz : u32) | SetMsrs (i : nat) (l : list (u32 * u64))
| SetVcpuEvents (i : nat) (d : bytes) | SetDebugregs (i : nat) (d : bytes) | KvmclockCtrl (i : nat)
| SetMpState (i : nat) (st : u32).

#[global] Instance KvmCall_eq_dec : EqDecision KvmCall.
Proof. solve_decision. Defined.

Section Restore.
(** The answer to a call, and [kvm.num_cpus()]. *)
Variable rc : list KvmCall -> KvmCall -> option N.
Variable ncpus : nat.

Definition ioctl (c : KvmCall) : M (list KvmCall) N := fun log =>
  (match rc log c with Some n => Ok n | None => Err Hypervisor end, log ++ [c]).

(** A call whose failure is only logged. *)
Definition best_effort (c : KvmCall) : M (list KvmCall) () := fun log => (Ok tt, log ++ [c]).

Definition set_blob (c : KvmCall) : M (list KvmCall) () := do! ioctl c in ret tt.

(** [kvm.vcpus[idx]] *)
Definition vcpu_at {A} (i : nat) (m : M (list KvmCall) A) : M (list KvmCall) A := if (i <? ncpus)%nat then m else panic.

Fixpoint write_msrs_loop (fuel i : nat) (rest : list (u32 * u64)) (skipped : N) : M (list KvmCall) N :=
  match rest with
  | [] => ret skipped
  | _ =>
      match fuel with
      | O => lift Loop
      | S fuel =>
          let! n := ioctl (SetMsrs i rest) in
          let done_ := N.to_nat n in
          write_msrs_loop fuel i (drop (Nat.min (done_ + 1) (length rest)) rest) (if (done_ <? length rest)%nat then skipped + 1 else skipped)
      end
  end.

Definition write_msrs (i : nat) (msrs : list (u32 * u64)) : M (list KvmCall) N := write_msrs_loop (length msrs) i msrs 0.

Definition KVM_CLOCK_REALTIME : u32 := 4.
Definition KVM_CLOCK_HOST_TSC : u32 := 8.

(** The clock with its flags at bytes 8 to 11 cleared of REALTIME and HOST_TSC. *)
Definition restored_clock (c : bytes) : bytes :=
  let flags := N.land (from_le (slice 8 4 c)) (N.lnot (N.lor KVM_CLOCK_REALTIME KVM_CLOCK_HOST_TSC) 32) in
  take 8 c ++ le_bytes 4 flags ++ drop 12 c.

(** The clock a VM resumes with: the flags REALTIME and HOST_TSC are off. *)
Definition resumed_clock (c : bytes) : bytes := take 8 c ++ le_bytes 4 (N.ldiff (from_le (slice 8 4 c)) 12) ++ drop 12 c.

Lemma le_bytes_mod n v w : v mod 2 ^ (8 * N.of_nat n) = w mod 2 ^ (8 * N.of_nat n) -> le_bytes n v = le_bytes n w.
Proof.
  intros H. rewrite <- (le_bytes_from_le (le_bytes n v)) by apply le_bytes_is_bytes. rewrite <- (le_bytes_from_le (le_bytes n w)) by apply le_bytes_is_bytes.
  by rewrite !length_le_bytes, !from_le_bytes, H.
Qed.

Lemma restored_clock_resumed c : restored_clock c = resumed_clock c.
Proof.
  unfold restored_clock, resumed_clock. cbv zeta. do 2 f_equal. apply le_bytes_mod. generalize (from_le (slice 8 4 c)). intros x.
  change (8 * N.of_nat 4) with 32. change (N.lor KVM_CLOCK_REALTIME KVM_CLOCK_HOST_TSC) with 12. apply N.bits_inj. intros i.
  destruct (N.lt_ge_cases i 32) as [Hi|Hi]; [|by rewrite !N.mod_pow2_bits_high].
  rewrite !N.mod_pow2_bits_low by done. rewrite N.land_spec, N.ldiff_spec, N.lnot_spec_low by done. done.
Qed.

Fixpoint set_chips (l : list bytes) : M (list KvmCall) () :=
  match l with [] => ret tt | c :: l => do! set_blob (SetIrqchip c) in set_chips l end.

Definition apply_vm (vm : VmState) : M (list KvmCall) () :=
  if (length (clock vm) <? 12)%nat then panic
  else
    do! set_blob (SetClock (restored_clock (clock vm))) in
    do! set_chips (irqchips vm) in
    set_blob (SetPit2 (pit2 vm)).

Definition apply_vcpu (i : nat) (st : VcpuState) : M (list KvmCall) () :=
  vcpu_at i (
    do! set_blob (SetXsave i (xsave st)) in
    do! set_blob (SetXcrs i (xcrs st)) in
    do! set_blob (SetLapic i (lapic st)) in
    do! (if negb (tsc_khz st =? 0) then best_effort (SetTscKhz i (tsc_khz st)) else ret tt) in
    do! write_msrs i (msrs st) in
    do! set_blob (SetVcpuEvents i (events st)) in
    do! set_blob (SetDebugregs i (debugregs st)) in
    best_effort (KvmclockCtrl i)).

(** The snapshot has the full state of the VM. *)
Definition full (s : CpuSnapshot) : bool :=
  (5 <=? s_version s) && (length (s_vcpu_states s) =? length (s_vcpus s))%nat && forallb vcpu_complete (s_vcpu_states s) &&
  match s_vm_state s with Some vm => vm_complete vm | None => false end.

Fixpoint restore_cpus (fl : bool) (states : list VcpuState) (i : nat) (l : list (bytes * bytes)) : M (list KvmCall) () :=
  match l with
  | [] => ret tt
  | (regs, sregs) :: l =>
      do! vcpu_at i (set_blob (SetSregs i sregs)) in
      do! vcpu_at i (set_blob (SetRegs i regs)) in
      do! (if fl then match states !! i with Some st => apply_vcpu i st | None => panic end else ret tt) in
      restore_cpus fl states (S i) l
  end.

Fixpoint restore_mp (i : nat) (l : list u32) : M (list KvmCall) () :=
  match l with [] => ret tt | st :: l => do! vcpu_at i (set_blob (SetMpState i st)) in restore_mp (S i) l end.

Definition restore_vcpus (s : CpuSnapshot) : M (list KvmCall) () :=
  if negb (length (s_vcpus s) =? ncpus)%nat then throw Hypervisor
  else
    do! (if full s then match s_vm_state s with Some vm => apply_vm vm | None => ret tt end else ret tt) in
    do! restore_cpus (full s) (s_vcpu_states s) 0 (s_vcpus s) in
    restore_mp 1 (drop 1 (s_mp_states s)).

(** Any call sequence: these computations return. *)
Definition any_log (s0 s : list KvmCall) : Prop := True.

Lemma keeps_ioctl c : keeps any_log (ioctl c).
Proof. intros s0 s _. unfold ioctl. by destruct (rc s c). Qed.

Lemma keeps_blob c : keeps any_log (set_blob c).
Proof. apply keeps_bind; [apply keeps_ioctl|]. intros n. apply keeps_ret. Qed.

Lemma keeps_best c : keeps any_log (best_effort c).
Proof. by intros s0 s _. Qed.

Lemma keeps_at {A} i (m : M (list KvmCall) A) : (i < ncpus)%nat -> keeps any_log m -> keeps any_log (vcpu_at i m).
Proof. intros Hi Hm. unfold vcpu_at. by rewrite (proj2 (Nat.ltb_lt _ _) Hi). Qed.

Lemma keeps_write_msrs fuel i rest k : (length rest <= fuel)%nat -> keeps any_log (write_msrs_loop fuel i rest k).
Proof.
  revert rest k. induction fuel as [|fuel IH]; intros [|m rest] k Hf; cbn [write_msrs_loop]; try apply keeps_ret; [simpl in Hf; lia|].
  apply keeps_bind; [apply keeps_ioctl|]. intros n. apply IH. rewrite length_drop. simpl in *. lia.
Qed.

#[local] Hint Resolve keeps_ioctl keeps_blob keeps_best : keeps.

Lemma keeps_apply_vm vm : vm_complete vm = true -> keeps any_log (apply_vm vm).
Proof.
  intros (((Hc%N.eqb_eq & _)%andb_true_iff & _)%andb_true_iff & _)%andb_true_iff. unfold apply_vm, lenN, CLOCK_LEN in *.
  rewrite (proj2 (Nat.ltb_ge _ _)) by lia. keeps_tac. induction (irqchips vm) as [|c l IH]; cbn [set_chips]; keeps_tac.
Qed.

Lemma keeps_apply_vcpu i st : (i < ncpus)%nat -> keeps any_log (apply_vcpu i st).
Proof. intros Hi. apply keeps_at; [done|]. keeps_tac. by apply keeps_write_msrs. Qed.

Lemma keeps_restore_cpus fl states l i : (i + length l <= ncpus)%nat -> (fl = true -> length states = ncpus) -> keeps any_log (restore_cpus fl states i l).
Proof.
  revert i. induction l as [|[r s] l IH]; intros i Hi Hst; cbn [restore_cpus]; [apply keeps_ret|]. simpl in Hi.
  do 2 (apply keeps_bind; [apply keeps_at; [lia|apply keeps_blob]|intros _]). apply keeps_bind; [|intros _; apply IH; [lia|done]].
  destruct fl; [|apply keeps_ret]. destruct (lookup_lt_is_Some_2 states i) as [st ->]; [rewrite Hst by done; lia|]. apply keeps_apply_vcpu. lia.
Qed.

Lemma keeps_restore_mp l i : (i + length l <= ncpus)%nat -> keeps any_log (restore_mp i l).
Proof.
  revert i. induction l as [|st l IH]; intros i Hi; cbn [restore_mp]; [apply keeps_ret|]. simpl in Hi.
  apply keeps_bind; [apply keeps_at; [lia|apply keeps_blob]|intros _]. apply IH. lia.
Qed.

Lemma keeps_restore s : snap_shape s -> keeps any_log (restore_vcpus s).
Proof.
  intros Hs. unfold restore_vcpus. destruct (_ =? _)%nat eqn:E; [|apply keeps_throw]. apply Nat.eqb_eq in E. cbn [negb].
  assert (full s = true -> length (s_vcpu_states s) = length (s_vcpus s) /\ exists vm, s_vm_state s = Some vm /\ vm_complete vm = true) as Hf.
  { unfold full. intros [[[_ H1%Nat.eqb_eq]%andb_true_iff _]%andb_true_iff H2]%andb_true_iff. split; [done|]. destruct (s_vm_state s); eauto. done. }
  apply keeps_bind.
  { destruct (full s) eqn:F; [|apply keeps_ret]. destruct (Hf eq_refl) as (_ & vm & -> & Hv). by apply keeps_apply_vm. }
  intros _. apply keeps_bind; [apply keeps_restore_cpus; [lia|]; intros F; destruct (Hf F); congruence|]. intros _.
  apply keeps_restore_mp. rewrite length_drop, (ss_mp s Hs). pose proof (ss_vcpus s Hs). destruct (4 <=? s_version s); lia.
Qed.

(** ** The calls of a restore *)

(** [m] adds the calls [cs] and returns [a]. *)
Definition calls {A} (m : M (list KvmCall) A) (a : A) (cs : list KvmCall) : Prop := forall log, m log = (Ok a, log ++ cs).

Lemma calls_ret {A} (a : A) : calls (ret a) a [].
Proof. intros log. by rewrite app_nil_r. Qed.

Lemma calls_bind {A B} (m : M (list KvmCall) A) (k : A -> M (list KvmCall) B) a b c1 c2 :
  calls m a c1 -> calls (k a) b c2 -> calls (bind m k) b (c1 ++ c2).
Proof. intros H1 H2 log. unfold bind. by rewrite H1, H2, app_assoc. Qed.

Lemma calls_best c : calls (best_effort c) tt [c].
Proof. by intros log. Qed.

Definition msr_calls (i : nat) (l : list (u32 * u64)) : list KvmCall := match l with [] => [] | _ => [SetMsrs i l] end.

Definition vm_calls (vm : VmState) : list KvmCall :=
  [SetClock (resumed_clock (clock vm))] ++ map SetIrqchip (irqchips vm) ++ [SetPit2 (pit2 vm)].

Definition vcpu_calls (i : nat) (st : VcpuState) : list KvmCall :=
  [SetXsave i (xsave st); SetXcrs i (xcrs st); SetLapic i (lapic st)] ++ (if tsc_khz st =? 0 then [] else [SetTscKhz i (tsc_khz st)]) ++
  msr_calls i (msrs st) ++ [SetVcpuEvents i (events st); SetDebugregs i (debugregs st); KvmclockCtrl i].

(** vCPU by vCPU: special registers, registers, then the rest of its state. *)
Fixpoint cpu_calls (i : nat) (l : list (bytes * bytes * VcpuState)) : list KvmCall :=
  match l with [] => [] | (regs, sregs, st) :: l => [SetSregs i sregs; SetRegs i regs] ++ vcpu_calls i st ++ cpu_calls (S i) l end.

Fixpoint mp_calls (i : nat) (l : list u32) : list KvmCall := match l with [] => [] | st :: l => SetMpState i st :: mp_calls (S i) l end.

(** KVM takes everything it is given. *)
Definition accepts : Prop :=
  forall log c, exists n, rc log c = Some n /\ match c with SetMsrs _ l => N.to_nat n = length l | _ => True end.

Context (Hrc : accepts).

Lemma calls_blob c : calls (set_blob c) tt [c].
Proof. intros log. unfold set_blob, bind, ioctl. by destruct (Hrc log c) as (n & -> & _). Qed.

Lemma calls_at {A} i (m : M (list KvmCall) A) a cs : (i < ncpus)%nat -> calls m a cs -> calls (vcpu_at i m) a cs.
Proof. intros Hi Hm. unfold vcpu_at. by rewrite (proj2 (Nat.ltb_lt _ _) Hi). Qed.

Lemma calls_msrs i l : calls (write_msrs i l) 0 (msr_calls i l).
Proof.
  destruct l as [|m l]; [apply calls_ret|]. intros log. unfold write_msrs. cbn [length write_msrs_loop msr_calls]. unfold bind, ioctl at 1.
  destruct (Hrc log (SetMsrs i (m :: l))) as (n & -> & ->). rewrite Nat.ltb_irrefl, drop_ge by (simpl; lia).
  by destruct (length l).
Qed.

Lemma calls_chips l : calls (set_chips l) tt (map SetIrqchip l).
Proof. induction l as [|c l IH]; [apply calls_ret|]. exact (calls_bind _ _ _ _ [_] _ (calls_blob _) IH). Qed.

Lemma calls_apply_vm vm : (12 <= length (clock vm))%nat -> calls (apply_vm vm) tt (vm_calls vm).
Proof.
  intros Hc. unfold apply_vm, vm_calls. rewrite (proj2 (Nat.ltb_ge _ _)), restored_clock_resumed by lia. eapply calls_bind; [apply calls_blob|].
  eapply calls_bind; [apply calls_chips|apply calls_blob].
Qed.

Lemma calls_apply_vcpu i st : (i < ncpus)%nat -> calls (apply_vcpu i st) tt (vcpu_calls i st).
Proof.
  intros Hi. apply calls_at; [done|]. unfold vcpu_calls.
  change ([SetXsave i (xsave st); SetXcrs i (xcrs st); SetLapic i (lapic st)] ++ ?r) with ([SetXsave i (xsave st)] ++ [SetXcrs i (xcrs st)] ++ [SetLapic i (lapic st)] ++ r).
  change [SetVcpuEvents i (events st); SetDebugregs i (debugregs st); KvmclockCtrl i] with ([SetVcpuEvents i (events st)] ++ [SetDebugregs i (debugregs st)] ++ [KvmclockCtrl i]).
  do 3 (eapply calls_bind; [apply calls_blob|]). eapply calls_bind; [destruct (_ =? _); [apply calls_ret|apply calls_best]|].
  eapply calls_bind; [apply calls_msrs|]. do 2 (eapply calls_bind; [apply calls_blob|]). apply calls_best.
Qed.

Lemma calls_restore_cpus states l i pre : length pre = i -> length states = length l -> (i + length l <= ncpus)%nat ->
  calls (restore_cpus true (pre ++ states) i l) tt (cpu_calls i (zip l states)).
Proof.
  revert states i pre. induction l as [|[r s] l IH]; intros [|st states] i pre Hp Hl Hi; try done; [apply calls_ret|]. simpl in Hl, Hi.
  cbn [restore_cpus zip zip_with cpu_calls]. change ([SetSregs i s; SetRegs i r] ++ ?k) with ([SetSregs i s] ++ [SetRegs i r] ++ k).
  do 2 (eapply calls_bind; [apply calls_at; [lia|apply calls_blob]|]). rewrite list_lookup_middle by done.
  eapply calls_bind; [apply calls_apply_vcpu; lia|]. rewrite cons_middle, app_assoc. apply IH; [rewrite length_app; simpl; lia|lia|lia].
Qed.

Lemma calls_restore_mp l i : (i + length l <= ncpus)%nat -> calls (restore_mp i l) tt (mp_calls i l).
Proof.
  revert i. induction l as [|st l IH]; intros i Hi; cbn [restore_mp mp_calls]; [apply calls_ret|]. simpl in Hi.
  change (SetMpState i st :: ?k) with ([SetMpState i st] ++ k). eapply calls_bind; [apply calls_at; [lia|apply calls_blob]|]. apply IH. lia.
Qed.

Lemma calls_restore s vm : full s = true -> s_vm_state s = Some vm -> length (s_vcpus s) = ncpus -> length (s_mp_states s) = ncpus -> (1 <= ncpus)%nat ->
  calls (restore_vcpus s) tt (vm_calls vm ++ cpu_calls 0 (zip (s_vcpus s) (s_vcpu_states s)) ++ mp_calls 1 (drop 1 (s_mp_states s))).
Proof.
  intros Hf Hvm Hn Hmp H1. unfold restore_vcpus. rewrite Hn, Nat.eqb_refl, Hf, Hvm. cbn [negb].
  unfold full in Hf. rewrite Hvm in Hf. apply andb_true_iff in Hf as [[[_ Hl%Nat.eqb_eq]%andb_true_iff _]%andb_true_iff Hc].
  unfold vm_complete in Hc. apply andb_true_iff in Hc as [[[Hc%N.eqb_eq _]%andb_true_iff _]%andb_true_iff _]. unfold lenN, CLOCK_LEN in Hc.
  eapply calls_bind; [apply calls_apply_vm; lia|]. eapply calls_bind; [apply (calls_restore_cpus (s_vcpu_states s) _ 0 []); [done|done|lia]|].
  apply calls_restore_mp. rewrite length_drop. lia.
Qed.
End Restore.

(** C36: no snapshot file takes the VMM down: whatever the bytes of the file and
    whatever KVM answers, loading it and restoring its vCPUs returns: no index or
    slice is out of range and the MSR loop ends. *)
Theorem restore_safe rc ncpus file log :
  match load_cpu file with Ok s => returns (restore_vcpus rc ncpus s log).1 | Err _ => True | _ => False end.
Proof. pose proof (yields_load file) as H. unfold load_cpu. destruct (load_body file) as [[s| | |] f]; simpl in *; try done. by apply (keeps_restore rc ncpus s H [] log). Qed.

Lemma vm_ok_complete vm : vm_ok vm -> vm_complete vm = true.
Proof.
  intros [H1 H2 H3 H4]. unfold vm_complete. rewrite H1, H2. apply (f_equal length) in H4. rewrite length_map in H4. unfold lenN at 1. rewrite H4.
  rewrite !andb_true_iff. split_and!; try done. apply forallb_forall. intros c Hc. apply N.eqb_eq. rewrite Forall_forall in H3. by apply H3, list_elem_of_In.
Qed.

Lemma vcpu_ok_complete v : vcpu_ok v -> msrs v <> [] -> vcpu_complete v = true.
Proof.
  intros [[H1 _] _ _ H2 _ _ _] Hm. unfold vcpu_complete. rewrite H2, !andb_true_iff. split_and!; [by apply N.leb_le|done|]. by rewrite bool_decide_false.
Qed.

(** C15: a snapshot gives the VM back: loading the file [dump] wrote of a paused VM
    whose full state was captured, and restoring it on a KVM that accepts every call and
    every MSR ([accepts]), makes exactly these calls, in this order: the VM's clock
    (without the flags that would move it by the time that passed), its interrupt
    controllers and timer; for every vCPU its special registers, registers, FPU, XCRs,
    local APIC, TSC frequency before the MSRs, events and debug registers, with the values
    KVM gave when the snapshot was taken; last the MP state of every vCPU but the first.
    The MP state saved for the first vCPU is not given back: it starts as runnable. *)
Theorem snapshot_restores rc mem cpus xs vs vm virtio file log :
  accepts rc ->
  in_u 64 (mem_len mem) -> Forall2 cpu_answers cpus xs -> length vs = length cpus -> Forall (fun v => vcpu_ok v /\ msrs v <> []) vs -> vm_ok vm ->
  Forall device_typed virtio -> dump mem cpus (Ok (vs, vm)) virtio = Ok file ->
  exists s, load_cpu file = Ok s /\
    restore_vcpus rc (length cpus) s log =
      (Ok tt, log ++ vm_calls vm ++ cpu_calls 0 (zip (map fst xs) vs) ++ mp_calls 1 (drop 1 (map snd xs))).
Proof.
  intros Hrc Hmem Hx Hvs Hv Hm Hd Hdump. eexists. split.
  { eapply dump_load; try done. eapply Forall_impl; [exact Hv|]. by intros v []. }
  pose proof (Forall2_length _ _ _ Hx) as Hlen.
  match goal with |- restore_vcpus _ _ ?s0 _ = _ => set (s := s0) end.
  refine (calls_restore rc (length cpus) Hrc s vm _ eq_refl _ _ _ log).
  - unfold full, s. simpl. rewrite length_map, Hvs, Hlen, Nat.eqb_refl, vm_ok_complete by done. simpl. rewrite andb_true_r.
    apply forallb_forall. intros v Hin%list_elem_of_In. rewrite Forall_forall in Hv. destruct (Hv v Hin). by apply vcpu_ok_complete.
  - simpl. by rewrite length_map.
  - simpl. by rewrite length_map.
  - unfold dump in Hdump. destruct cpus; [done|simpl; lia].
Qed.

Definition taking (log : list KvmCall) (c : KvmCall) : option N := match c with SetMsrs _ l => Some (lenN l) | _ => Some 0 end.

Lemma snapshot_restores_witness : exists s, load_cpu sample_file = Ok s /\
  restore_vcpus taking 1 s [] =
    (Ok tt, vm_calls sample_vm ++ cpu_calls 0 [(repeat 9 REGS_LEN, repeat 10 SREGS_LEN, sample_vcpu)] ++ []).
Proof.
  apply (snapshot_restores taking sample_mem [sample_cpu] [(repeat 9 REGS_LEN, repeat 10 SREGS_LEN, 0)] [sample_vcpu] sample_vm [VirtioState_default] sample_file []).
  - intros log c. destruct c; eexists; (split; [reflexivity|]); try exact I. unfold lenN. by rewrite Nat2N.id.
  - reflexivity.
  - by repeat constructor.
  - done.
  - constructor; [|constructor]. split; [|done].
    split; [split; by_eval|reflexivity|split; [by_eval|repeat constructor]|reflexivity..].
  - split; [reflexivity|reflexivity|repeat constructor|reflexivity].
  - constructor; [|constructor]. unfold device_typed, queue_typed. by_eval.
  - reflexivity.
Defined.

(** ** Writing the MSRs *)

(** KVM_SET_MSRS writes up to the first MSR it rejects and says how many it wrote. *)
Definition set_msrs_documented (rc : list KvmCall -> KvmCall -> option N) (ok : u32 * u64 -> bool) : Prop :=
  forall log i l, rc log (SetMsrs i l) = Some (lenN (prefix_ok ok l)).

(** The MSRs that calls have written. *)
Definition written (ok : u32 * u64 -> bool) (cs : list KvmCall) : list (u32 * u64) :=
  concat (map (fun c => match c with SetMsrs _ l => prefix_ok ok l | _ => [] end) cs).

Lemma filter_all_ok {A} (ok : A -> bool) t : forallb ok t = true -> filter (fun m => ok m = false) t = [] /\ filter (fun m => ok m = true) t = t.
Proof.
  induction t as [|a t IH]; [done|]. simpl. intros [Ha Ht]%andb_true_iff. rewrite !filter_cons. destruct (IH Ht) as [-> ->].
  rewrite Ha. by repeat case_decide.
Qed.

(** What a stopped call leaves: the rejected MSR is counted, the rest goes on. *)
Lemma msr_step ok (l : list (u32 * u64)) :
  let n := length (prefix_ok ok l) in let r := drop (Nat.min (n + 1) (length l)) l in
  lenN (filter (fun m => ok m = false) l) = (if (n <? length l)%nat then 1 else 0) + lenN (filter (fun m => ok m = false) r) /\
  filter (fun m => ok m = true) l = prefix_ok ok l ++ filter (fun m => ok m = true) r.
Proof.
  cbv zeta. destruct (prefix_split ok l) as (Hp & Hok & Hn & Hsplit). set (n := length (prefix_ok ok l)) in *. clearbody n. rewrite Hp.
  destruct (filter_all_ok ok _ Hok) as [F1 F2]. destruct Hsplit as [[E1 E2]|(a & E1 & E2)].
  - rewrite Nat.min_r, drop_all, E1, Nat.ltb_irrefl by lia. rewrite E1, firstn_all in F1, F2. rewrite F1, F2, firstn_all, app_nil_r. done.
  - assert (n < length l)%nat as Hlt by (apply (f_equal length) in E1; rewrite length_app, length_take in E1; cbn [length] in E1; lia).
    rewrite (proj2 (Nat.ltb_lt _ _) Hlt), Nat.min_l by lia. 
    assert (forall (P : u32 * u64 -> Prop) (H : forall x, Decision (P x)), filter P l = filter P (take n l) ++ filter P (a :: drop (n + 1) l)) as Hfa
      by (intros P H; rewrite E1 at 1; apply filter_app).
    rewrite !Hfa, !filter_cons, F1, F2, E2.
    repeat case_decide; try done. simpl. unfold lenN. cbn [length]. split; [lia|done].
Qed.

Lemma write_msrs_all rc ok i : set_msrs_documented rc ok -> forall fuel rest k log, (length rest <= fuel)%nat ->
  exists cs, write_msrs_loop rc fuel i rest k log = (Ok (k + lenN (filter (fun m => ok m = false) rest)), log ++ cs) /\
    written ok cs = filter (fun m => ok m = true) rest.
Proof.
  intros Hs. induction fuel as [|fuel IH]; intros [|m rest] k log Hf; try (exists []; by rewrite app_nil_r, N.add_0_r); [simpl in Hf; lia|].
  cbn [write_msrs_loop]. set (l := m :: rest) in *. clearbody l. unfold bind, ioctl at 1. rewrite Hs. unfold lenN at 1 2. rewrite !Nat2N.id.
  destruct (msr_step ok l) as [Hc Hw]. rewrite Hc, Hw. set (n := length (prefix_ok ok l)) in *.
  edestruct (IH (drop (Nat.min (n + 1) (length l)) l)) as (cs & -> & Hcs); [rewrite length_drop; lia|].
  exists (SetMsrs i l :: cs). split; [|unfold written in *; simpl; by rewrite Hcs].
  rewrite <- app_assoc. f_equal. f_equal. destruct (_ <? _)%nat; lia.
Qed.

(** an MSR this host rejects does not stop the others: restoring the MSRs of a
    vCPU ends, writes every one KVM accepts, each once and in order, and counts the
    rejected ones. *)
Theorem write_msrs_complete rc ok i msrs log : set_msrs_documented rc ok ->
  exists cs, write_msrs rc i msrs log = (Ok (lenN (filter (fun m => ok m = false) msrs)), log ++ cs) /\
    written ok cs = filter (fun m => ok m = true) msrs.
Proof. intros Hs. exact (write_msrs_all rc ok i Hs (length msrs) msrs 0 log (le_n _)). Qed.

Definition sample_ok (m : u32 * u64) : bool := negb (m.1 =? 2).
Definition sample_rc (log : list KvmCall) (c : KvmCall) : option N := match c with SetMsrs _ l => Some (lenN (prefix_ok sample_ok l)) | _ => Some 0 end.

Lemma write_msrs_complete_witness : exists cs, write_msrs sample_rc 0 [(1, 7); (2, 8); (3, 9)] [] = (Ok 1, cs) /\ written sample_ok cs = [(1, 7); (3, 9)].
Proof. exact (write_msrs_complete sample_rc sample_ok 0 [(1, 7); (2, 8); (3, 9)] [] (fun _ _ _ => eq_refl)). Defined.

(** A version 5 file without a section for the XCRs is taken for complete
    ([is_complete] asks only for FPU, APIC and MSRs), and the restore passes KVM
    an empty buffer for them. *)
Definition no_xcrs_file : bytes :=
  let secs := filter (fun s => negb (s.1 =? TAG_XCRS) = true) (vcpus_sections 0 [sample_vcpu] ++ vm_sections sample_vm) in
  MAGIC ++ le_bytes 4 VERSION ++ le_bytes 8 64 ++ le_bytes 4 1 ++ repeat 9 REGS_LEN ++ repeat 10 SREGS_LEN ++ le_bytes 4 0 ++ le_bytes 4 0 ++ put_all secs.

Lemma missing_xcrs_restored : exists s, load_cpu no_xcrs_file = Ok s /\ full s = true /\ SetXcrs 0 [] ∈ (restore_vcpus taking 1 s []).2.
Proof.
  destruct (load_cpu no_xcrs_file) as [s| | |] eqn:E; [|by vm_compute in E..]. exists s. split; [done|].
  assert (match load_cpu no_xcrs_file with Ok s => full s && bool_decide (SetXcrs 0 [] ∈ (restore_vcpus taking 1 s []).2) | _ => false end = true) as H by (vm_compute; reflexivity).
  rewrite E in H. apply andb_true_iff in H as [H1 H2]. split; [done|]. by apply bool_decide_eq_true in H2.
Qed.

(** ** Virtio devices *)

(** What [restore_virtio] writes into a live device. *)
Definition overlay (live packed : VirtioState) : VirtioState :=
  let nq := N.to_nat (N.min (num_queues packed) MAX_VIRTIO_QUEUES) in
  {| device_id := device_id live; features := features packed; driver_features := driver_features packed; status := status packed;
     mac := mac live; capacity_sectors := capacity_sectors live; guest_cid := guest_cid live; balloon_num_pages := balloon_num_pages live;
     balloon_actual := balloon_actual live; fs_tag := fs_tag live; queues := take nq (queues packed) ++ drop nq (queues live);
     num_queues := num_queues packed; sel := sel live; notify := notify live; interrupt_status := interrupt_status packed; irq := irq live;
     net_max_pairs := net_max_pairs live; net_active_pairs := net_active_pairs live |}.

(** [for target in targets]: the first device with the same id. *)
Fixpoint restore_one (packed : VirtioState) (targets : list VirtioState) : list VirtioState :=
  match targets with
  | [] => []
  | t :: ts => if negb (device_id t =? device_id packed) then t :: restore_one packed ts else overlay t packed :: ts
  end.

Definition restore_virtio (targets : list VirtioState) (snap : list VirtioState) : list VirtioState :=
  fold_left (fun ts p => restore_one p ts) snap targets.

Lemma overlay_packed live p : device_id live = device_id p -> device_shape p -> length (queues live) = MAX_QUEUES -> packed (overlay live p) = packed p.
Proof.
  intros Hid [Hn Hq] Hl. unfold packed. cbn [device_id features driver_features status interrupt_status num_queues queues overlay].
  rewrite Hid, N.min_l by done. f_equal. rewrite take_app_length'; [done|]. rewrite length_take, Hq. unfold MAX_VIRTIO_QUEUES in Hn. lia.
Qed.

Lemma restore_one_ids p ts : map device_id (restore_one p ts) = map device_id ts.
Proof. induction ts as [|t ts IH]; [done|]. simpl. destruct (_ =? _); simpl; [done|by rewrite IH]. Qed.

(** One saved device: it goes to the live device of its kind, the others stay. *)
Lemma restore_one_lookup p ts i t : NoDup (map device_id ts) -> ts !! i = Some t ->
  restore_one p ts !! i = Some (if device_id t =? device_id p then overlay t p else t).
Proof.
  revert i. induction ts as [|u ts IH]; intros i Hnd Hi; [done|]. simpl in *. apply NoDup_cons in Hnd as [Hu Hnd].
  destruct i as [|i]; simpl in Hi.
  - injection Hi as <-. by destruct (_ =? _).
  - assert (device_id t <> device_id u) as Hne.
    { intros E. apply Hu. rewrite <- E. exact (list_elem_of_fmap_2 device_id ts t (list_elem_of_lookup_2 _ _ _ Hi)). }
    destruct (device_id u =? device_id p) eqn:E; simpl; [|by apply IH]. apply N.eqb_eq in E. rewrite Hi.
    rewrite (proj2 (N.eqb_neq _ _)); [done|congruence].
Qed.

(** What the devices of a kind hold in the snapshot, if it has one. *)
Lemma restore_virtio_lookup snap : NoDup (map device_id snap) -> Forall device_shape snap -> forall ts i t,
  NoDup (map device_id ts) -> Forall (fun t => length (queues t) = MAX_QUEUES) ts -> ts !! i = Some t ->
  exists t', restore_virtio ts snap !! i = Some t' /\
    match list_find (fun p => device_id p = device_id t) snap with
    | Some (_, p) => t' = overlay t p /\ packed t' = packed p
    | None => t' = t
    end.
Proof.
  induction snap as [|p snap IH]; intros Hs Hf ts i t Hnd Hq Hi; [by exists t|]. simpl in Hs. apply NoDup_cons in Hs as [Hp Hs].
  inversion_clear Hf as [|? ? Hp1 Hf']. unfold restore_virtio in *. cbn [fold_left].
  pose proof (restore_one_lookup p ts i t Hnd Hi) as Hi'.
  assert (Forall (fun t => length (queues t) = MAX_QUEUES) (restore_one p ts)) as Hq'.
  { apply Forall_lookup_2. intros j u Hj. destruct (ts !! j) as [w|] eqn:Ej.
    - rewrite (restore_one_lookup p ts j w Hnd Ej) in Hj. injection Hj as <-. pose proof (Forall_lookup_1 _ _ _ _ Hq Ej) as Hw. cbv beta in Hw.
      destruct (device_id w =? device_id p); [|exact Hw]. cbn [overlay queues]. rewrite length_app, length_take, length_drop, Hw. destruct Hp1 as [_ ->]. lia.
    - apply lookup_ge_None in Ej. apply lookup_lt_Some in Hj. pose proof (f_equal length (restore_one_ids p ts)) as Hl. rewrite !length_map in Hl. lia. }
  destruct (IH Hs Hf' (restore_one p ts) i _ ltac:(by rewrite restore_one_ids) Hq' Hi') as (t' & Ht' & Hm). exists t'. split; [exact Ht'|].
  cbn [list_find]. case_decide as Hd.
  - rewrite (proj2 (N.eqb_eq _ _) (eq_sym Hd)) in Hm. cbn [overlay device_id] in Hm.
    destruct (list_find (fun p0 => device_id p0 = device_id t) snap) as [[j q]|] eqn:Ef.
    + exfalso. apply list_find_Some in Ef as (Ej & Eq & _). apply Hp. rewrite Hd, <- Eq.
      exact (list_elem_of_fmap_2 device_id snap q (list_elem_of_lookup_2 _ _ _ Ej)).
    + cbn [fst snd option_map prod_map id fmap]. subst t'. split; [done|]. apply overlay_packed; [done|done|]. exact (Forall_lookup_1 _ _ _ _ Hq Hi).
  - rewrite (proj2 (N.eqb_neq _ _)) in Hm by congruence. cbn [device_id] in Hm.
    destruct (list_find (fun p0 => device_id p0 = device_id t) snap) as [[j q]|]; exact Hm.
Qed.

(** every device comes back as it was saved: with one live device of each kind,
    restoring a snapshot gives the device of a kind in the snapshot the features,
    status, interrupt status and queues it was saved with, keeps its backend's
    configuration, and leaves a device the snapshot does not know as it was. *)
Theorem restore_virtio_exact ts snap i t :
  NoDup (map device_id ts) -> Forall (fun t => length (queues t) = MAX_QUEUES) ts -> NoDup (map device_id snap) -> Forall device_shape snap ->
  ts !! i = Some t ->
  exists t', restore_virtio ts snap !! i = Some t' /\
    match list_find (fun p => device_id p = device_id t) snap with
    | Some (_, p) => t' = overlay t p /\ packed t' = packed p
    | None => t' = t
    end.
Proof. intros H1 H2 H3 H4. by apply restore_virtio_lookup. Qed.

Definition saved_net : VirtioState := unpacked VIRTIO_ID_NET 1 1 15 0 2 (repeat QueueState_default 2).

Lemma restore_virtio_exact_witness :
  exists t', restore_virtio [VirtioState_default] [packed saved_net] !! 0%nat = Some t' /\
    t' = overlay VirtioState_default (packed saved_net) /\ packed t' = packed (packed saved_net).
Proof.
  apply (restore_virtio_exact [VirtioState_default] [packed saved_net] 0 VirtioState_default).
  - repeat constructor. apply not_elem_of_nil.
  - by repeat constructor.
  - repeat constructor. apply not_elem_of_nil.
  - constructor; [split; by_eval|constructor].
  - reflexivity.
Defined.

(** ** Memory and the checks before a restore *)

(** [load_memory_into]; [remaps] is whether the private mapping of the file works. *)
Definition load_memory_into (remaps : bool) (file : bytes) (mem : GuestMemory) : outcome GuestMemory :=
  if negb (lenN file =? mem_len mem) then Err Hypervisor
  else if remaps then Ok {| ram := file |}
  else Ok {| ram := take (length (ram mem)) file |}.

Lemma load_memory_exact remaps file mem m : load_memory_into remaps file mem = Ok m -> ram m = file /\ mem_len m = mem_len mem.
Proof.
  unfold load_memory_into. destruct (_ =? _) eqn:E; [|done]. apply N.eqb_eq in E. unfold mem_len, lenN in *. simpl.
  rewrite firstn_all2 by lia. by destruct remaps; intros [= <-].
Qed.

Definition is_flux_kvm_vmstate (file : bytes) : bool := (8 <=? length file)%nat && bool_decide (take 8 file = MAGIC).

(** The parts of [SnapshotSpec] the check reads: [spec.boot] and the files. *)
Record SnapshotSpec := { b_kvm : bool; b_memory_mib : u64; b_vcpus : N; b_max_vcpus : option N; p_vmstate : option bytes; p_memory : option bytes }.

Definition preflight_restore (spec : SnapshotSpec) : outcome () :=
  if negb (b_kvm spec) then Ok tt
  else
    match p_vmstate spec with
    | None => Err Hypervisor
    | Some file =>
        obind (load_cpu file) (fun cpu =>
          match U.checked_mul 64 (b_memory_mib spec) (1024 * 1024) with
          | None => Err Hypervisor
          | Some expected =>
              if negb (s_mem_len cpu =? expected) then Err Hypervisor
              else
                match p_memory spec with
                | None => Err Hypervisor
                | Some m =>
                    if negb (lenN m =? expected) then Err Hypervisor
                    else if negb (lenN (s_vcpus cpu) =? b_vcpus spec) then Err Hypervisor
                    else if (5 <=? s_version cpu) && negb (full cpu) then Err Hypervisor
                    else if (1 <? lenN (s_vcpus cpu)) && negb (lenN (s_mp_states cpu) =? lenN (s_vcpus cpu)) then Err Hypervisor
                    else Ok tt
                end
          end)
    end.

(** The vCPUs [run_until] creates, and [boot_to_vm_config]'s [max_cpus]. *)
Definition created_vcpus (spec : SnapshotSpec) : N :=
  N.max (N.max (N.max (default (b_vcpus spec) (b_max_vcpus spec)) (b_vcpus spec)) (b_vcpus spec)) 1.

(** A bundle that passes the check is one [restore_vcpus] has the full state of, if
    it is of version 5, and with an MP state for every vCPU. *)
Lemma preflight_full spec file cpu : b_kvm spec = true -> p_vmstate spec = Some file -> load_cpu file = Ok cpu -> preflight_restore spec = Ok tt ->
  (5 <= s_version cpu -> full cpu = true) /\ lenN (s_vcpus cpu) = b_vcpus spec /\
  (exists m, p_memory spec = Some m /\ lenN m = s_mem_len cpu /\ s_mem_len cpu = b_memory_mib spec * 1048576).
Proof.
  intros Hk Hf Hl. unfold preflight_restore. rewrite Hk, Hf, Hl. cbn [negb obind]. destruct (U.checked_mul _ _ _) as [ex|] eqn:Em; [|done].
  assert (ex = b_memory_mib spec * 1048576) as -> by (unfold U.checked_mul in Em; destruct (_ <? _); [injection Em as <-; lia|done]).
  destruct (s_mem_len cpu =? _) eqn:E1; [|done]. apply N.eqb_eq in E1. cbn [negb]. destruct (p_memory spec) as [m|]; [|done].
  destruct (lenN m =? _) eqn:E2; [|done]. apply N.eqb_eq in E2. destruct (_ =? b_vcpus spec) eqn:E3; [|done]. apply N.eqb_eq in E3. cbn [negb].
  destruct (_ && _) eqn:E4; [done|]. intros _. split; [|split; [done|]].
  - intros H5. apply N.leb_le in H5. rewrite H5 in E4. by apply negb_false_iff in E4.
  - exists m. split; [done|]. split; congruence.
Qed.

(** A VM with room for hotplug has more vCPUs than [vcpus], so the snapshot taken
    of it is refused when it is restored. *)
Lemma headroom_refused spec file cpu n : b_kvm spec = true -> b_max_vcpus spec = Some n -> b_vcpus spec < n -> p_vmstate spec = Some file ->
  load_cpu file = Ok cpu -> lenN (s_vcpus cpu) = created_vcpus spec -> preflight_restore spec = Err Hypervisor.
Proof.
  intros Hk Hm Hn Hf Hl Hc. unfold created_vcpus in Hc. rewrite Hm in Hc. simpl in Hc. unfold preflight_restore. rewrite Hk, Hf, Hl. cbn [negb obind].
  destruct (U.checked_mul _ _ _); [|done]. destruct (_ =? _); [|done]. destruct (p_memory spec); [|done]. destruct (_ =? _); [|done]. cbn [negb].
  rewrite (proj2 (N.eqb_neq _ _)) by lia. done.
Qed.

(** The checks of [start_kvm_from_snapshot]. *)
Definition start_kvm_from_snapshot (memory_mib : u64) (cpus : N) (vmstate mem : bytes) : outcome CpuSnapshot :=
  obind (load_cpu vmstate) (fun cpu =>
    if negb (s_mem_len cpu =? memory_mib * 1024 * 1024) then Err Hypervisor
    else if negb (lenN (s_vcpus cpu) =? cpus) then Err Hypervisor
    else if negb (lenN mem =? s_mem_len cpu) then Err Hypervisor
    else Ok cpu).

(** [MigrationBundle::validate_import], of the files a directory has. *)
Definition validate_import (vmstate mem : option bytes) : outcome () :=
  match vmstate, mem with
  | Some v, Some _ => if negb (is_flux_kvm_vmstate v) then Err Unsupported else Ok tt
  | _, _ => Err Unsupported
  end.

Definition import_state (vmstate mem : option bytes) : outcome CpuSnapshot :=
  obind (validate_import vmstate mem) (fun _ => match vmstate with Some v => load_cpu v | None => Err Hypervisor end).

(** A loadable file is recognised as one. *)
Lemma loadable_recognised file s : load_cpu file = Ok s -> is_flux_kvm_vmstate file = true.
Proof.
  unfold load_cpu, load_body, bind, read_exact at 1. destruct (_ <? _)%nat eqn:E; [done|]. apply Nat.ltb_ge in E. cbn [fst].
  destruct (bool_decide (take 8 file = MAGIC)) eqn:Em; [|done]. intros _. unfold is_flux_kvm_vmstate. rewrite Em, andb_true_r. by apply Nat.leb_le.
Qed.
