(* ===== verification/SnapSave.v ===== *)
(** * Saving a snapshot

    [crates/fluxvm-hypervisor/src/snapshot.rs]: the copy of the disk that keeps its
    holes, and the publication of the four files of a snapshot.

    A directory is a map from file names to contents; every file operation that can
    fail takes one answer of a script of faults.  [Path::exists] is taken to see the
    directory (an error of it reads as absent in the code). *)

From stdpp Require Import prelude list strings gmap.
From Stdlib Require Import NArith Lia.
From S2P Require Import Prelude RustStr.

(** ** The copy of the disk *)

(** A file being written: its bytes and the position. *)
Record Out := { o_bytes : bytes; o_pos : nat }.

Definition seek (n : nat) (o : Out) : Out := {| o_bytes := o_bytes o; o_pos := o_pos o + n |}.

(** [write_all] at the position; a gap before it reads as zeros. *)
Definition write_all (b : bytes) (o : Out) : Out :=
  let base := o_bytes o ++ repeat 0 (o_pos o - length (o_bytes o)) in
  {| o_bytes := take (o_pos o) base ++ b ++ drop (o_pos o + length b) base; o_pos := o_pos o + length b |}.

Definition set_len (n : nat) (o : Out) : bytes := take n (o_bytes o) ++ repeat 0 (n - length (o_bytes o)).

Section Clone.
(** How much a [read] at an offset returns, at most the buffer. *)
Variable read_size : nat -> nat.
Definition BUF : N := N.shiftl 1 20.

Fixpoint copy_loop (fuel : nat) (src : bytes) (off : nat) (o : Out) : outcome Out :=
  match drop off src with
  | [] => Ok o
  | rest =>
      match fuel with
      | O => Loop
      | S fuel =>
          let n := Nat.min (Nat.max 1 (read_size off)) (Nat.min (N.to_nat BUF) (length rest)) in
          let b := take n rest in
          copy_loop fuel src (off + n) (if forallb (N.eqb 0) b then seek n o else write_all b o)
      end
  end.

(** The contents of the copy; [cloned] is whether the file system could share the
    source's extents. *)
Definition clone_cow (cloned : bool) (src : bytes) : outcome bytes :=
  if cloned then Ok src
  else match copy_loop (length src) src 0 {| o_bytes := []; o_pos := 0 |} with
       | Ok o => Ok (set_len (length src) o)
       | Err e => Err e | Panic => Panic | Loop => Loop
       end.

(** What has been copied: the source up to the position, holes included. *)
Definition copied (src : bytes) (o : Out) : Prop :=
  (length (o_bytes o) <= o_pos o)%nat /\ (o_pos o <= length src)%nat /\ o_bytes o ++ repeat 0 (o_pos o - length (o_bytes o)) = take (o_pos o) src.

Lemma copied_chunk src o b : copied src o -> (o_pos o + length b <= length src)%nat -> take (length b) (drop (o_pos o) src) = b ->
  copied src (if forallb (N.eqb 0) b then seek (length b) o else write_all b o).
Proof.
  intros (H1 & H2 & H3) Hl Hb.
  assert (take (o_pos o + length b) src = take (o_pos o) src ++ b) as Ht by (by rewrite <- Hb at 2; rewrite take_take_drop).
  destruct (forallb _ b) eqn:Hz.
  - split_and!; simpl; [lia|lia|]. rewrite Ht, <- H3, <- app_assoc. f_equal.
    replace (o_pos o + length b - length (o_bytes o))%nat with (o_pos o - length (o_bytes o) + length b)%nat by lia. rewrite repeat_app. f_equal.
    clear -Hz. induction b as [|x b IH]; [done|]. cbn [forallb length repeat] in *. apply andb_true_iff in Hz as [Ex%N.eqb_eq Hz]. subst x. f_equal. by apply IH.
  - unfold write_all. rewrite H3. rewrite (take_ge (take _ _)) by (rewrite length_take; lia).
    rewrite (drop_ge (take _ _)), app_nil_r by (rewrite length_take; lia).
    split_and!; simpl; rewrite ?length_app, ?length_take; [lia|lia|]. rewrite Ht.
    replace (_ - _)%nat with 0%nat by lia. by rewrite app_nil_r.
Qed.

Lemma copy_loop_copies fuel src o : (length src - o_pos o <= fuel)%nat -> copied src o ->
  exists o', copy_loop fuel src (o_pos o) o = Ok o' /\ copied src o' /\ o_pos o' = length src.
Proof.
  revert o. induction fuel as [|fuel IH]; intros o Hf Hc; cbn [copy_loop]; destruct (drop (o_pos o) src) as [|x rest] eqn:Ed.
  1, 3: exists o; split_and!; [done|done|]; apply (f_equal length) in Ed; rewrite length_drop in Ed; destruct Hc as (_ & Hc & _); simpl in Ed; lia.
  - apply (f_equal length) in Ed. rewrite length_drop in Ed. simpl in Ed. lia.
  - set (n := Nat.min (Nat.max 1 (read_size (o_pos o))) (Nat.min (N.to_nat BUF) (length (x :: rest)))).
    pose proof (f_equal length Ed) as Hl. rewrite length_drop in Hl.
    assert (1 <= n <= length (x :: rest))%nat as Hn.
    { unfold n. assert (1 <= BUF) as HB by done. cbn [length]. revert HB. generalize BUF. intros. lia. }
    assert (length (take n (x :: rest)) = n) as Hb by (rewrite length_take; lia).
    pose proof (copied_chunk src o (take n (x :: rest)) Hc) as Hs. rewrite Hb, Ed in Hs. specialize (Hs ltac:(lia) eq_refl).
    set (o2 := if forallb _ _ then _ else _) in *.
    assert (o_pos o2 = (o_pos o + n)%nat) as Hp by (unfold o2; destruct (forallb _ _); simpl; rewrite ?Hb; done).
    rewrite <- Hp. apply IH; [lia|done].
Qed.

(** a snapshot's disk is a copy: whether or not the file system shares extents,
    however the reads are cut and wherever the holes are left, copying the disk
    ends and the copy holds the bytes of the source. *)
Theorem clone_cow_copies cloned src : clone_cow cloned src = Ok src.
Proof.
  unfold clone_cow. destruct cloned; [done|].
  destruct (copy_loop_copies (length src) src {| o_bytes := []; o_pos := 0 |}) as (o & E & (H1 & H2 & H3) & Hp); [simpl; lia|by split_and!; simpl; [|lia|]|].
  simpl in E. rewrite E. f_equal. unfold set_len. rewrite take_ge by lia. rewrite Hp in H3. by rewrite H3, firstn_all.
Qed.
End Clone.

(** ** Publishing the files *)

(** [Path::with_extension], on the last component. *)
Definition file_stem (name : rstr) : rstr :=
  match rsplit_once 46 name with Some (a, _) => if bool_decide (a = []) then name else a | None => name end.
Definition with_extension (name ext : rstr) : rstr := file_stem name ++ [46] ++ ext.

Record Dir := { files : gmap rstr bytes; stage : option (gmap rstr bytes); faults : list bool }.

(** A file operation that can fail. *)
Definition try_op : M Dir () := fun s =>
  match faults s with
  | true :: f => (Err Io, {| files := files s; stage := stage s; faults := f |})
  | _ :: f => (Ok tt, {| files := files s; stage := stage s; faults := f |})
  | [] => (Ok tt, s)
  end.

Definition set_files (f : gmap rstr bytes -> gmap rstr bytes) : M Dir () := modify (fun s => {| files := f (files s); stage := stage s; faults := faults s |}).
Definition set_stage (f : option (gmap rstr bytes) -> option (gmap rstr bytes)) : M Dir () := modify (fun s => {| files := files s; stage := f (stage s); faults := faults s |}).

(** Writing a file of the stage; a failure can leave part of it. *)
Definition stage_write (name : rstr) (b part : bytes) : M Dir () :=
  do! set_stage (fun st => <[name := part]> <$> st) in do! try_op in set_stage (fun st => <[name := b]> <$> st).

(** [fs::rename(stage/name, dest)], which replaces what is at [dest]. *)
Definition publish (name dest : rstr) : M Dir () :=
  do! try_op in
  let! s := get in
  match stage s ≫= lookup name with
  | None => throw Io
  | Some b => do! set_stage (fun st => delete name <$> st) in set_files <[dest := b]>
  end.

(** [let _ = op]: a failure is ignored. *)
Definition ignore (m : M Dir ()) : M Dir () := fun s => (match (m s).1 with Panic => Panic | Loop => Loop | _ => Ok tt end, (m s).2).

Definition remove_file (name : rstr) : M Dir () := do! try_op in set_files (delete name).

Section Save.
(** What is saved: RAM, the vmstate file, the disk and the metadata. *)
Variables (mem vmstate disk meta part : bytes).

Definition save_body (path disk_snap mem_snap vmstate_snap : rstr) : M Dir () :=
  do! try_op in (* pause *)
  do! stage_write (bstr "vmstate") vmstate part in
  do! stage_write (bstr "mem") mem part in
  do! stage_write (bstr "rootfs") disk part in
  do! stage_write (bstr "metadata") meta part in
  do! publish (bstr "rootfs") disk_snap in
  do! publish (bstr "mem") mem_snap in
  do! publish (bstr "vmstate") vmstate_snap in
  publish (bstr "metadata") path.

Definition save (path : rstr) : M Dir () :=
  let disk_snap := with_extension path (bstr "rootfs") in
  let mem_snap := with_extension path (bstr "mem") in
  let vmstate_snap := with_extension path (bstr "vmstate") in
  do! try_op in (* create_dir_all *)
  let! s := get in
  if existsb (fun d => bool_decide (is_Some (files s !! d))) [path; disk_snap; mem_snap; vmstate_snap] then throw Io
  else
    do! try_op in (* create_dir *)
    do! set_stage (fun _ => Some ∅) in
    fun s1 =>
      let '(result, s2) := save_body path disk_snap mem_snap vmstate_snap s1 in
      (do! (match result with
            | Ok _ => ret tt
            | _ => let! s := get in
                if bool_decide (is_Some (files s !! path)) then ret tt
                else do! ignore (remove_file disk_snap) in do! ignore (remove_file mem_snap) in ignore (remove_file vmstate_snap)
            end) in
       do! ignore (do! try_op in set_stage (fun _ => None)) in
       lift result) s2.
End Save.

(** ** What a save leaves *)

(** Only the files [ns] have changed. *)
Definition only (ns : list rstr) (s0 s : Dir) : Prop := forall k, k ∉ ns -> files s !! k = files s0 !! k.

Section SaveProofs.
Context (mem vmstate disk meta part : bytes) (ns : list rstr).

Lemma keeps_try : keeps (only ns) try_op.
Proof. intros s0 s H. unfold try_op. by destruct (faults s) as [|[] f]. Qed.

Lemma keeps_set_stage f : keeps (only ns) (set_stage f).
Proof. by apply keeps_modify. Qed.

Lemma keeps_stage_write n b : keeps (only ns) (stage_write n b part).
Proof. unfold stage_write. repeat (apply keeps_bind; [auto using keeps_try, keeps_set_stage|intros _]). apply keeps_set_stage. Qed.

Lemma keeps_publish n d : d ∈ ns -> keeps (only ns) (publish n d).
Proof.
  intros Hd. apply keeps_bind; [apply keeps_try|intros _]. apply keeps_bind; [apply keeps_get|intros s]. destruct (_ ≫= _) as [b|]; [|apply keeps_throw].
  apply keeps_bind; [apply keeps_set_stage|intros _]. apply keeps_modify. intros s0 s1 H k Hk. simpl. rewrite lookup_insert_ne by (intros ->; done). by apply H.
Qed.

Lemma keeps_remove d : d ∈ ns -> keeps (only ns) (ignore (remove_file d)).
Proof.
  intros Hd s0 s H. assert (keeps (only ns) (remove_file d)) as Hr.
  { apply keeps_bind; [apply keeps_try|intros _]. apply keeps_modify. intros t0 t Ht k Hk. simpl. rewrite lookup_delete_ne by (intros ->; done). by apply Ht. }
  destruct (Hr s0 s H) as [H1 H2]. unfold ignore. split; [|done]. by destruct (remove_file d s) as [[| | |] ?].
Qed.

Lemma publish_fails n d s e s' : publish n d s = (Err e, s') -> files s' = files s.
Proof.
  unfold publish, bind, get. unfold try_op. destruct (faults s) as [|[] f]; cbn [stage files]; try (intros [= <- <-]; done);
    destruct (_ ≫= _); unfold set_stage, set_files, modify, throw; intros H; inversion H; done.
Qed.

(** All but the metadata. *)
Definition save_parts (disk_snap mem_snap vmstate_snap : rstr) : M Dir () :=
  do! try_op in
  do! stage_write (bstr "vmstate") vmstate part in do! stage_write (bstr "mem") mem part in
  do! stage_write (bstr "rootfs") disk part in do! stage_write (bstr "metadata") meta part in
  do! publish (bstr "rootfs") disk_snap in do! publish (bstr "mem") mem_snap in publish (bstr "vmstate") vmstate_snap.

Lemma save_body_parts p d m v s : save_body mem vmstate disk meta part p d m v s = (do! save_parts d m v in publish (bstr "metadata") p) s.
Proof.
  unfold save_body, save_parts, bind.
  repeat (match goal with |- context [match ?x with pair _ _ => _ end] =>
    lazymatch x with context [match _ with pair _ _ => _ end] => fail | _ => destruct x as [[| | |] ?] end end; try done).
Qed.

Lemma keeps_parts d m v : d ∈ ns -> m ∈ ns -> v ∈ ns -> keeps (only ns) (save_parts d m v).
Proof.
  intros Hd Hm Hv. unfold save_parts. do 7 (apply keeps_bind; [auto using keeps_try, keeps_stage_write, keeps_publish|intros _]). by apply keeps_publish.
Qed.

Lemma bind_inv {A B} (m : M Dir A) (k : A -> M Dir B) s b s' : bind m k s = (Ok b, s') -> exists a s1, m s = (Ok a, s1) /\ k a s1 = (Ok b, s').
Proof. unfold bind. destruct (m s) as [[a| | |] s1]; try done. eauto. Qed.

Lemma try_inv s u s' : try_op s = (Ok u, s') -> files s' = files s /\ stage s' = stage s.
Proof. unfold try_op. by destruct (faults s) as [|[] f]; intros [= <- <-]. Qed.

Lemma stage_write_inv n b s st u s' : stage s = Some st -> stage_write n b part s = (Ok u, s') -> files s' = files s /\ stage s' = Some (<[n := b]> st).
Proof.
  intros Hs (? & s1 & E1 & (? & s2 & [F S]%try_inv & E3)%bind_inv)%bind_inv. unfold set_stage, modify in E1, E3.
  injection E1 as _ E1. injection E3 as _ E3. subst s1 s'. simpl in *. rewrite F, S, Hs. simpl. by rewrite insert_insert_eq.
Qed.

Lemma publish_inv n d b s st u s' : stage s = Some st -> st !! n = Some b -> publish n d s = (Ok u, s') ->
  files s' = <[d := b]> (files s) /\ stage s' = Some (delete n st).
Proof.
  intros Hs Hb (? & s1 & [F S]%try_inv & E)%bind_inv. unfold get, bind in E. rewrite S, Hs in E. simpl in E. rewrite Hb in E.
  unfold set_stage, set_files, modify in E. injection E as _ E. subst s'. simpl. by rewrite F, S, Hs.
Qed.

Lemma save_body_inv p d m v s st u s' : stage s = Some st -> save_body mem vmstate disk meta part p d m v s = (Ok u, s') ->
  files s' = <[p := meta]> (<[v := vmstate]> (<[m := mem]> (<[d := disk]> (files s)))).
Proof.
  intros Hs (? & s1 & [F1 S1]%try_inv & (? & s2 & E2 & (? & s3 & E3 & (? & s4 & E4 & (? & s5 & E5 & (? & s6 & E6 & (? & s7 & E7 & (? & s8 & E8 & E9)%bind_inv)%bind_inv)%bind_inv)%bind_inv)%bind_inv)%bind_inv)%bind_inv)%bind_inv.
  rewrite Hs in S1. apply (stage_write_inv _ _ _ _ _ _ S1) in E2 as [F2 S2]. apply (stage_write_inv _ _ _ _ _ _ S2) in E3 as [F3 S3].
  apply (stage_write_inv _ _ _ _ _ _ S3) in E4 as [F4 S4]. apply (stage_write_inv _ _ _ _ _ _ S4) in E5 as [F5 S5].
  apply (publish_inv _ _ disk _ _ _ _ S5) in E6 as [F6 S6]; [|by simplify_map_eq].
  apply (publish_inv _ _ mem _ _ _ _ S6) in E7 as [F7 S7]; [|by simplify_map_eq].
  apply (publish_inv _ _ vmstate _ _ _ _ S7) in E8 as [F8 S8]; [|by simplify_map_eq].
  apply (publish_inv _ _ meta _ _ _ _ S8) in E9 as [F9 S9]; [|by simplify_map_eq].
  by rewrite F9, F8, F7, F6, F5, F4, F3, F2, F1.
Qed.
End SaveProofs.

(** The names of the parts of a snapshot. *)
Definition part_names (path : rstr) : list rstr :=
  [with_extension path (bstr "rootfs"); with_extension path (bstr "mem"); with_extension path (bstr "vmstate")].

(** A save that fails: the parts it had published may be gone or not, nothing else changed. *)
Lemma save_body_err mem vmstate disk meta part path s e s' :
  save_body mem vmstate disk meta part path (with_extension path (bstr "rootfs")) (with_extension path (bstr "mem")) (with_extension path (bstr "vmstate")) s = (Err e, s') ->
  only (part_names path) s s'.
Proof.
  rewrite save_body_parts. unfold bind.
  destruct (keeps_parts mem vmstate disk meta part (part_names path) (with_extension path (bstr "rootfs")) (with_extension path (bstr "mem")) (with_extension path (bstr "vmstate"))
    ltac:(set_solver) ltac:(set_solver) ltac:(set_solver) s s ltac:(by intros k)) as [Hr Hk].
  destruct (save_parts _ _ _ _ _ _ _ _ s) as [[?|?| |] s1]; simpl in *; try done.
  - intros H%publish_fails k Hn. rewrite H. by apply Hk.
  - by intros [= <- <-].
Qed.

Lemma try_cases s : exists r s', try_op s = (r, s') /\ files s' = files s /\ stage s' = stage s /\ (r = Ok tt \/ r = Err Io).
Proof. unfold try_op. destruct (faults s) as [|[] f]; eexists _, _; (split; [reflexivity|]); auto. Qed.

Lemma drop_stage s : exists s', ignore (do! try_op in set_stage (fun _ => None)) s = (Ok tt, s') /\ files s' = files s.
Proof.
  unfold ignore, bind. destruct (try_cases s) as (r & s1 & -> & F & _ & [-> | ->]); eexists; (split; [reflexivity|]); done.
Qed.

(** The end of a failed save. *)
Lemma cleanup_only path s : exists s',
  (let! s := get in
   if bool_decide (is_Some (files s !! path)) then ret tt
   else do! ignore (remove_file (with_extension path (bstr "rootfs"))) in do! ignore (remove_file (with_extension path (bstr "mem"))) in
     ignore (remove_file (with_extension path (bstr "vmstate")))) s = (Ok tt, s') /\ only (part_names path) s s'.
Proof.
  assert (forall n t, n ∈ part_names path -> exists t', ignore (remove_file n) t = (Ok tt, t') /\ only (part_names path) t t') as Hr.
  { intros n t Hn. destruct (keeps_remove (part_names path) n Hn t t ltac:(by intros k)) as [H1 H2]. exists (ignore (remove_file n) t).2. split; [|done].
    unfold ignore in *. by destruct (remove_file n t) as [[| | |] ?]. }
  unfold get. unfold bind at 1. case_bool_decide; [by exists s|]. unfold bind.
  destruct (Hr (with_extension path (bstr "rootfs")) s ltac:(set_solver)) as (s1 & -> & H1).
  destruct (Hr (with_extension path (bstr "mem")) s1 ltac:(set_solver)) as (s2 & -> & H2).
  destruct (Hr (with_extension path (bstr "vmstate")) s2 ltac:(set_solver)) as (s3 & -> & H3).
  exists s3. split; [done|]. intros k Hk. by rewrite H3, H2, H1.
Qed.

Lemma nothing_there s path : existsb (fun d => bool_decide (is_Some (files s !! d))) (path :: part_names path) = false ->
  forall k, is_Some (files s !! k) -> k ∉ part_names path /\ k <> path.
Proof.
  intros He k Hk. assert (k ∉ path :: part_names path) as Hn; [|set_solver]. intros Hin. apply not_true_iff_false in He. apply He, existsb_exists.
  exists k. split; [by apply list_elem_of_In|]. by apply bool_decide_eq_true.
Qed.

Lemma save_body_returns mem vmstate disk meta part p d m v s s' :
  save_body mem vmstate disk meta part p d m v s <> (Panic, s') /\ save_body mem vmstate disk meta part p d m v s <> (Loop, s').
Proof.
  assert (returns (save_body mem vmstate disk meta part p d m v s).1) as Hr; [|by split; intros E; rewrite E in Hr].
  rewrite save_body_parts. assert (keeps (only [p; d; m; v]) (do! save_parts mem vmstate disk meta part d m v in publish (bstr "metadata") p)) as Hk; [|by apply (Hk s s)].
  apply keeps_bind; [apply keeps_parts; set_solver|]. intros _. apply keeps_publish. set_solver.
Qed.

Lemma with_extension_inj path a b : with_extension path a = with_extension path b -> a = b.
Proof. unfold with_extension. by intros H%app_inv_head%app_inv_head. Qed.

(** The four names of a snapshot, each with its own contents. *)
Lemma saved_files (mem vmstate disk meta : bytes) (path : rstr) (f : gmap rstr bytes) : path ∉ part_names path ->
  let f' := <[path := meta]> (<[with_extension path (bstr "vmstate") := vmstate]> (<[with_extension path (bstr "mem") := mem]>
              (<[with_extension path (bstr "rootfs") := disk]> f))) in
  f' !! path = Some meta /\ f' !! with_extension path (bstr "vmstate") = Some vmstate /\
  f' !! with_extension path (bstr "mem") = Some mem /\ f' !! with_extension path (bstr "rootfs") = Some disk.
Proof.
  intros Hp f'. unfold part_names in Hp. rewrite !not_elem_of_cons in Hp. destruct Hp as (P1 & P2 & P3 & _). unfold f'.
  split_and!; [apply lookup_insert_eq|..]; rewrite lookup_insert_ne by done; [apply lookup_insert_eq|..];
    rewrite lookup_insert_ne by (by intros ?%with_extension_inj); [apply lookup_insert_eq|].
  rewrite lookup_insert_ne by (by intros ?%with_extension_inj). apply lookup_insert_eq.
Qed.

(** C20: a snapshot is there or it is not.  Whichever file operation of a save fails, a
    save that succeeds adds exactly the disk, the RAM, the vmstate and the metadata, and
    one that fails leaves every file that was there, an older snapshot's too, as it was.
    At a path that is none of the names its own parts get (one that does not end in
    [.rootfs], [.mem] or [.vmstate]) the four files then hold what was saved, and after
    a failure no metadata is published, so that no reader sees the snapshot.  At a path
    that does end so the metadata replaces a part ([save_over_memory]). *)
Theorem save_atomic mem vmstate disk meta part path s :
  match save mem vmstate disk meta part path s with
  | (Ok _, s') => files s' = <[path := meta]> (<[with_extension path (bstr "vmstate") := vmstate]>
      (<[with_extension path (bstr "mem") := mem]> (<[with_extension path (bstr "rootfs") := disk]> (files s)))) /\
      (path ∉ part_names path ->
       files s' !! path = Some meta /\ files s' !! with_extension path (bstr "vmstate") = Some vmstate /\
       files s' !! with_extension path (bstr "mem") = Some mem /\ files s' !! with_extension path (bstr "rootfs") = Some disk)
  | (Err _, s') => (path ∉ part_names path -> files s' !! path = files s !! path) /\ forall k, is_Some (files s !! k) -> files s' !! k = files s !! k
  | _ => False
  end.
Proof.
  unfold save. unfold bind at 1. destruct (try_cases s) as (r & s1 & -> & F1 & _ & [-> | ->]); [|split; [intros _|intros k _]; by rewrite F1].
  unfold bind at 1. change (get s1) with (Ok s1, s1). cbv iota. change [path; with_extension path (bstr "rootfs"); with_extension path (bstr "mem"); with_extension path (bstr "vmstate")] with (path :: part_names path).
  destruct (existsb _ _) eqn:He; [split; [intros _|intros k _]; by rewrite F1|]. pose proof (nothing_there s1 path He) as Hn. rewrite F1 in Hn. clear He.
  unfold bind at 1. destruct (try_cases s1) as (r & s2 & -> & F2 & _ & [-> | ->]); [|split; [intros _|intros k _]; by rewrite F2, F1].
  unfold bind at 1. set (s3 := {| files := files s2; stage := Some ∅; faults := faults s2 |}). change (set_stage (fun _ => Some ∅) s2) with (Ok tt, s3). cbv iota.
  assert (files s3 = files s) as F3 by (simpl; congruence).
  destruct (save_body _ _ _ _ _ _ _ _ _ s3) as [[[]|e| |] s4] eqn:Eb.
  - apply (save_body_inv _ _ _ _ _ _ _ _ _ _ ∅) in Eb; [|done]. unfold ret. unfold bind at 1. cbv iota. unfold bind at 1. destruct (drop_stage s4) as (s5 & -> & F5). unfold lift. cbv iota.
    rewrite F5, Eb, F3. split; [done|apply saved_files].
  - apply save_body_err in Eb. unfold bind at 1. destruct (cleanup_only path s4) as (s5 & -> & H5). unfold bind at 1. destruct (drop_stage s5) as (s6 & -> & F6).
    unfold lift. cbv iota. rewrite F6. assert (forall k, k ∉ part_names path -> files s5 !! k = files s !! k) as Hk by (intros k Hk; by rewrite H5, Eb, F3).
    split; [by apply Hk|]. intros k Hs. apply Hk. by destruct (Hn k Hs).
  - exfalso. revert Eb. apply save_body_returns.
  - exfalso. revert Eb. apply save_body_returns.
Qed.

(** A save beside an older file. *)
Definition sample_dir : Dir := {| files := {[ bstr "old" := [9] ]}; stage := None; faults := [] |}.

Example sample_save :
  let r := save [1; 2] [3] [4; 5] [6] [] (bstr "snap") sample_dir in
  r.1 = Ok tt /\ files r.2 !! bstr "snap" = Some [6] /\ files r.2 !! bstr "snap.mem" = Some [1; 2] /\ files r.2 !! bstr "old" = Some [9].
Proof. cbv zeta. split_and!; vm_compute; reflexivity. Qed.

(** At a path that ends in [.mem] the metadata replaces the RAM that has just been
    published: the save succeeds and the snapshot has no memory. *)
Lemma save_over_memory :
  let s := {| files := ∅; stage := None; faults := [] |} in
  (save [1; 2] [3] [4; 5] [6] [] (bstr "snap.mem") s).1 = Ok tt /\
  files (save [1; 2] [3] [4; 5] [6] [] (bstr "snap.mem") s).2 !! with_extension (bstr "snap.mem") (bstr "mem") = Some [6].
Proof. by vm_compute. Qed.
