(* ===== verification/SnapCapture.v ===== *)
(** * Capturing the state of a paused VM

    [crates/fluxvm-hypervisor/src/kvm_state.rs]: [msr_index_list], [xsave_len],
    [capture_vcpu], [capture_vm] and [capture]; what they return is what
    [Snapshot.dump] writes.

    What KVM writes into a buffer is a parameter ([None]: a negative return); the
    buffer keeps its length. *)

From stdpp Require Import prelude list strings.
From Stdlib Require Import NArith Lia.
From S2P Require Import Prelude RustStr GuestMemory Virtqueue VirtioMmio Snapshot SnapRestore.

(** The calls that fill a buffer. *)
Inductive GetCall :=
| GetXsave2 (i : nat) | GetXsave (i : nat) | GetXcrs (i : nat) | GetLapic (i : nat) | GetVcpuEvents (i : nat) | GetDebugregs (i : nat)
| GetClock | GetIrqchip (id : u32) | GetPit2.

Record Kvm := {
  num_cpus : nat;
  fills : GetCall -> option bytes;
  (** the count a probe with no room reports, and the list a second call fills *)
  msr_count : u32;
  msr_list : option (u32 * list u32);
  get_msrs : nat -> list u32 -> option (nat * list (u32 * u64));
  (** KVM_CHECK_EXTENSION(KVM_CAP_XSAVE2); negative answers are 0 *)
  cap_xsave2 : N;
  get_tsc_khz : nat -> option u32 }.

(** A buffer after KVM wrote [b] at its start. *)
Definition filled (buf b : bytes) : bytes := take (length buf) b ++ drop (length b) buf.

Section Capture.
Variable kvm : Kvm.

Definition get_blob (c : GetCall) (len : N) : outcome bytes :=
  match fills kvm c with None => Err Hypervisor | Some b => Ok (filled (repeat 0 (N.to_nat len)) b) end.

Definition msr_index_list : outcome (list u32) :=
  let n := msr_count kvm in
  if (n =? 0) || (MAX_MSRS <? n) then Err Hypervisor
  else
    match msr_list kvm with
    | None => Err Hypervisor
    | Some (buf0, l) =>
        let got := N.to_nat (N.min buf0 n) in
        Ok (take got (take (N.to_nat n) l ++ repeat 0 (N.to_nat n - length l)))
    end.

Definition xsave_len : N * bool := if XSAVE_MIN <? cap_xsave2 kvm then (cap_xsave2 kvm, true) else (XSAVE_MIN, false).

(** [kvm.vcpus[idx]] is there for the indices [capture] uses. *)
Definition capture_vcpu (i : nat) (l : list u32) : outcome VcpuState :=
  let '(xlen, xsave2) := xsave_len in
  obind (get_blob (if xsave2 then GetXsave2 i else GetXsave i) xlen) (fun xsave =>
  let tsc := get_tsc_khz kvm i in
  obind (get_blob (GetXcrs i) XCRS_LEN) (fun xcrs =>
  obind (read_msrs (get_msrs kvm i) l) (fun msrs =>
  obind (get_blob (GetLapic i) LAPIC_LEN) (fun lapic =>
  obind (get_blob (GetVcpuEvents i) EVENTS_LEN) (fun events =>
  obind (get_blob (GetDebugregs i) DEBUGREGS_LEN) (fun debugregs =>
  Ok (MkVcpu xsave xcrs msrs lapic events debugregs (default 0 tsc)))))))).

(** One interrupt controller: the buffer starts with its id. *)
Definition chip_buf (id : u32) : bytes := le_bytes 4 id ++ repeat 0 (N.to_nat IRQCHIP_LEN - 4).

Definition get_chip (id : u32) : outcome bytes :=
  match fills kvm (GetIrqchip id) with
  | None => Err Hypervisor
  | Some b => Ok (filled (chip_buf id) b)
  end.

Fixpoint get_chips (ids : list u32) : outcome (list bytes) :=
  match ids with [] => Ok [] | id :: ids => obind (get_chip id) (fun c => obind (get_chips ids) (fun l => Ok (c :: l))) end.

Definition capture_vm : outcome VmState :=
  obind (get_blob GetClock CLOCK_LEN) (fun clock =>
  obind (get_chips IRQCHIP_IDS) (fun irqchips =>
  obind (get_blob GetPit2 PIT2_LEN) (fun pit2 => Ok (MkVm clock irqchips pit2)))).

Fixpoint capture_vcpus (n i : nat) (l : list u32) : outcome (list VcpuState) :=
  match n with O => Ok [] | S n => obind (capture_vcpu i l) (fun v => obind (capture_vcpus n (S i) l) (fun vs => Ok (v :: vs))) end.

Definition capture : outcome (list VcpuState * VmState) :=
  obind msr_index_list (fun l =>
  obind (capture_vcpus (num_cpus kvm) 0 l) (fun vs =>
  obind capture_vm (fun vm => Ok (vs, vm)))).
End Capture.

(** What KVM promises: MSR buffers keep their length and hold 32-bit indices and
    64-bit values, frequencies fit 32 bits, an interrupt controller's buffer keeps
    the id it was asked for, and the FPU state is below the section limit. *)
Record kvm_promises (kvm : Kvm) : Prop := {
  kp_msrs : forall i l n buf, get_msrs kvm i l = Some (n, buf) -> length buf = length l /\ Forall (fun m => in_u 32 m.1 /\ in_u 64 m.2) buf;
  kp_tsc : forall i khz, get_tsc_khz kvm i = Some khz -> in_u 32 khz;
  kp_chip : forall id b, id ∈ IRQCHIP_IDS -> fills kvm (GetIrqchip id) = Some b -> from_le (take 4 (filled (chip_buf id) b)) = id;
  kp_xsave : cap_xsave2 kvm + 4 <= MAX_SECTION_BYTES }.

Lemma filled_len buf b : lenN (filled buf b) = lenN buf.
Proof. unfold filled, lenN. rewrite length_app, length_take, length_drop. lia. Qed.

Lemma obind_ok {A B} (o : outcome A) (f : A -> outcome B) b : obind o f = Ok b -> exists a, o = Ok a /\ f a = Ok b.
Proof. destruct o; try done. eauto. Qed.

Lemma get_blob_len kvm c len b : get_blob kvm c len = Ok b -> lenN b = len.
Proof. unfold get_blob. destruct (fills kvm c) as [w|]; [|done]. intros E. assert (b = filled (repeat 0 (N.to_nat len)) w) as -> by congruence. rewrite filled_len. unfold lenN. rewrite repeat_length. lia. Qed.

Lemma read_msrs_bound get fuel rest out l :
  (forall l n buf, get l = Some (n, buf) -> length buf = length l /\ Forall (fun m : u32 * u64 => in_u 32 m.1 /\ in_u 64 m.2) buf) ->
  read_msrs_loop get fuel rest out = Ok l -> Forall (fun m => in_u 32 m.1 /\ in_u 64 m.2) out ->
  (length l <= length out + length rest)%nat /\ Forall (fun m => in_u 32 m.1 /\ in_u 64 m.2) l.
Proof.
  intros Hg. revert rest out. induction fuel as [|fuel IH]; intros [|i rest] out; cbn [read_msrs_loop]; try done; try (intros [= <-] Ho; split; [simpl; lia|done]).
  destruct (get (i :: rest)) as [[n buf]|] eqn:E; [|done]. destruct (Hg _ _ _ E) as [Hl Hb]. intros Hr Ho.
  destruct (IH _ _ Hr) as [H1 H2]; [apply Forall_app; split; [done|by apply Forall_take]|]. split; [|done].
  rewrite length_app, length_take, length_drop, Hl in H1. simpl in *. lia.
Qed.

Lemma capture_vcpu_ok kvm i l v : kvm_promises kvm -> (length l <= 4096)%nat -> capture_vcpu kvm i l = Ok v -> vcpu_ok v.
Proof.
  intros [Hm Ht _ Hx] Hl. unfold capture_vcpu. destruct (xsave_len kvm) as [xlen x2] eqn:Ex.
  intros (xs & E1 & (xc & E2 & (ms & E3 & (la & E4 & (ev & E5 & (db & E6 & E7)%obind_ok)%obind_ok)%obind_ok)%obind_ok)%obind_ok)%obind_ok.
  assert (v = MkVcpu xs xc ms la ev db (default 0 (get_tsc_khz kvm i))) as -> by congruence.
  apply get_blob_len in E1, E2, E4, E5, E6. apply read_msrs_bound in E3 as [H1 H2]; [|apply Hm|constructor]. split; cbn [xsave xcrs msrs lapic events debugregs tsc_khz]; try done.
  - rewrite E1. unfold xsave_len in Ex. change MAX_SECTION_BYTES with 1048576 in *. destruct (XSAVE_MIN <? _) eqn:Eb; injection Ex as <- <-.
    + apply N.ltb_lt in Eb. lia.
    + unfold XSAVE_MIN. lia.
  - split; [|done]. unfold lenN, MAX_MSRS. simpl in H1. lia.
  - destruct (get_tsc_khz kvm i) eqn:E; [by apply (Ht i)|done].
Qed.

Lemma msr_list_len kvm l : msr_index_list kvm = Ok l -> (length l <= 4096)%nat.
Proof.
  unfold msr_index_list. destruct (_ || _) eqn:E; [done|]. apply orb_false_iff in E as [_ E%N.ltb_ge]. unfold MAX_MSRS in E.
  destruct (msr_list kvm) as [[b0 m]|]; [|done]. intros H. assert (l = take (N.to_nat (N.min b0 (msr_count kvm))) (take (N.to_nat (msr_count kvm)) m ++ repeat 0 (N.to_nat (msr_count kvm) - length m))) as -> by congruence.
  rewrite length_take. lia.
Qed.

Lemma get_chips_ok kvm ids l : kvm_promises kvm -> Forall (.∈ IRQCHIP_IDS) ids -> get_chips kvm ids = Ok l ->
  Forall (fun c => lenN c = IRQCHIP_LEN) l /\ map (fun c => from_le (take 4 c)) l = ids.
Proof.
  intros Hk Hi. revert l. induction Hi as [|id ids Hid Hi IH]; intros l; cbn [get_chips]; [intros [= <-]; done|].
  intros (c & E1 & (l' & E2 & E3)%obind_ok)%obind_ok. assert (l = c :: l') as -> by congruence. destruct (IH _ E2) as [H1 H2].
  unfold get_chip in E1. destruct (fills kvm (GetIrqchip id)) as [b|] eqn:Eb; [|done]. assert (c = filled (chip_buf id) b) as -> by congruence.
  split; [constructor; [|done]|cbn [map]; f_equal; [by apply (kp_chip kvm Hk)|done]].
  rewrite filled_len. unfold chip_buf, lenN. rewrite length_app, length_le_bytes, repeat_length. done.
Qed.

Lemma capture_vcpus_ok kvm l n i vs : kvm_promises kvm -> (length l <= 4096)%nat -> capture_vcpus kvm n i l = Ok vs -> length vs = n /\ Forall vcpu_ok vs.
Proof.
  intros Hk Hl. revert i vs. induction n as [|n IH]; intros i vs; cbn [capture_vcpus]; [intros [= <-]; done|].
  intros (v & E1 & (vs' & E2 & E3)%obind_ok)%obind_ok. assert (vs = v :: vs') as -> by congruence. destruct (IH _ _ E2) as [H1 H2].
  split; [simpl; by f_equal|]. constructor; [by eapply capture_vcpu_ok|done].
Qed.

(** What a capture returns is what the snapshot format can hold. *)
Lemma capture_ok kvm vs vm : kvm_promises kvm -> capture kvm = Ok (vs, vm) -> length vs = num_cpus kvm /\ Forall vcpu_ok vs /\ vm_ok vm.
Proof.
  intros Hk (l & El%msr_list_len & (vs' & E1 & (vm' & E2 & E3)%obind_ok)%obind_ok)%obind_ok. assert (vs = vs' /\ vm = vm') as [-> ->] by (split; congruence).
  destruct (capture_vcpus_ok kvm l _ _ _ Hk El E1) as [H1 H2]. split_and!; try done.
  apply obind_ok in E2 as (c & Ec & (ch & Ech & (p & Ep & E)%obind_ok)%obind_ok). assert (vm' = MkVm c ch p) as -> by congruence.
  destruct (get_chips_ok kvm IRQCHIP_IDS _ Hk ltac:(by_eval) Ech) as [H3 H4]. split; simpl; [by eapply get_blob_len|by eapply get_blob_len|done|done].
Qed.

(** C14: a snapshot holds the VM: when KVM keeps its promises, what [capture] takes of
    a paused VM fits the file format, and reading back the file [dump] writes of it
    gives the registers and MP state of every vCPU, the captured state of every
    vCPU and of the VM and the size of RAM, each exactly, and of every virtio device
    its features, status, interrupt status and queues. *)
Theorem captured_roundtrip kvm mem cpus xs vs vm virtio file :
  kvm_promises kvm -> in_u 64 (mem_len mem) -> length cpus = num_cpus kvm -> Forall2 cpu_answers cpus xs -> Forall device_typed virtio ->
  capture kvm = Ok (vs, vm) -> dump mem cpus (capture kvm) virtio = Ok file ->
  load_cpu file = Ok (MkSnap (mem_len mem) (map fst xs) (map packed virtio) (map snd xs) VERSION vs (Some vm)).
Proof.
  intros Hk Hm Hn Hx Hd Hc. rewrite Hc. intros Hf. destruct (capture_ok kvm vs vm Hk Hc) as (H1 & H2 & H3).
  eapply dump_load; try done. congruence.
Qed.

Definition sample_kvm : Kvm := {|
  num_cpus := 1;
  fills := fun c => match c with GetIrqchip id => Some (le_bytes 4 (U.wrap 32 id) ++ [7; 7]) | GetXcrs _ => Some [1] | _ => Some [3; 4] end;
  msr_count := 3; msr_list := Some (3, [1; 2; 16]);
  get_msrs := fun i l => let n := length (prefix_ok (fun m => negb (m =? 2)) l) in Some (n, map (fun m => (U.wrap 32 m, 5)) l);
  cap_xsave2 := 0; get_tsc_khz := fun _ => Some 2600000 |}.
Definition sample_capture : list VcpuState * VmState := match capture sample_kvm with Ok r => r | _ => ([], VmState_default) end.
Definition sample_dump : bytes := match dump sample_mem [sample_cpu] (capture sample_kvm) [VirtioState_default] with Ok f => f | _ => [] end.

Lemma captured_roundtrip_witness :
  msrs <$> sample_capture.1 = [[(1, 5); (16, 5)]] /\
  load_cpu sample_dump = Ok (MkSnap 64 [(repeat 9 REGS_LEN, repeat 10 SREGS_LEN)] [packed VirtioState_default] [0] VERSION sample_capture.1 (Some sample_capture.2)).
Proof.
  split; [by vm_compute|].
  apply (captured_roundtrip sample_kvm sample_mem [sample_cpu] [(repeat 9 REGS_LEN, repeat 10 SREGS_LEN, 0)] sample_capture.1 sample_capture.2 [VirtioState_default]).
  - split.
    + intros i l n buf H. simpl in H. assert (buf = map (fun m => (U.wrap 32 m, 5)) l) as -> by congruence. split; [apply length_map|].
      apply Forall_map, Forall_forall. intros m _. split; [apply N.mod_lt; discriminate|done].
    + intros i khz [= <-]. done.
    + intros id b Hid E. change (Some (le_bytes 4 (U.wrap 32 id) ++ [7; 7]) = Some b) in E. assert (b = le_bytes 4 (U.wrap 32 id) ++ [7; 7]) as -> by congruence.
      apply list_elem_of_In in Hid. destruct Hid as [<-|[<-|[<-|[]]]]; vm_compute; reflexivity.
    + by_eval.
  - reflexivity.
  - reflexivity.
  - by repeat constructor.
  - constructor; [|constructor]. unfold device_typed, queue_typed. by_eval.
  - by vm_compute.
  - by vm_compute.
Defined.
