(* ===== verification/LbService.v ===== *)
(** * Load-balanced services

    [crates/fluxvm-network/src/service.rs]: the specification of a service and its
    validation, and the weighted Maglev table.  An [anyhow] error is [false] or
    [None]; native byte order is little endian. *)

From stdpp Require Import prelude list strings gmap sorting.
From Stdlib Require Import NArith ZArith Lia.
From S2P Require Import Prelude RustStr.

(** ** Addresses *)

(** [std::net::IpAddr], by its octets. *)
Inductive IpAddr := V4 (octets : bytes) | V6 (octets : bytes).

#[global] Instance IpAddr_eq_dec : EqDecision IpAddr.
Proof. solve_decision. Defined.

Definition is_ipv4 (a : IpAddr) : bool := match a with V4 _ => true | V6 _ => false end.

Definition intersperse_app (sep : rstr) (l : list rstr) : rstr :=
  match l with [] => [] | x :: l => x ++ concat (map (fun y => sep ++ y) l) end.

Definition show_v4 (o : bytes) : rstr := intersperse_app [46] (map to_decimal o).

(** The [{:x}] form of a 16-bit segment. *)
Definition show_seg (n : N) : rstr :=
  let d i := hex_lower (N.shiftr n (4 * i) mod 16) in
  if n <? 16 then [d 0] else if n <? 256 then [d 1; d 0] else if n <? 4096 then [d 2; d 1; d 0] else [d 3; d 2; d 1; d 0].

Fixpoint segments (o : bytes) : list N := match o with a :: b :: o => a * 256 + b :: segments o | _ => [] end.

(** The first longest run of zero segments: start and length. *)
Fixpoint zero_runs (l : list N) (i : nat) (cur best : nat * nat) : nat * nat :=
  match l with
  | [] => best
  | s :: l =>
      if s =? 0 then
        let cur := (if (cur.2 =? 0)%nat then i else cur.1, S cur.2) in
        zero_runs l (S i) cur (if (best.2 <? cur.2)%nat then cur else best)
      else zero_runs l (S i) (O, O) best
  end.

Definition show_v6 (o : bytes) : rstr :=
  let segs := segments o in
  if bool_decide (take 10 o = repeat 0 10) && bool_decide (slice 10 2 o = [255; 255]) then bstr "::ffff:" ++ show_v4 (drop 12 o)
  else
    let '(start, len) := zero_runs segs 0 (O, O) (O, O) in
    let part l := intersperse_app [58] (map show_seg l) in
    if (1 <? len)%nat then part (take start segs) ++ [58; 58] ++ part (drop (start + len) segs) else part segs.

Definition show_ip (a : IpAddr) : rstr := match a with V4 o => show_v4 o | V6 o => show_v6 o end.

Example show_ip_examples :
  show_ip (V4 [10; 0; 0; 7]) = bstr "10.0.0.7" /\
  show_ip (V6 [253; 0; 0; 0; 0; 0; 0; 0; 0; 0; 0; 0; 0; 0; 0; 1]) = bstr "fd00::1" /\
  show_ip (V6 (repeat 0 10 ++ [255; 255; 192; 0; 2; 1])) = bstr "::ffff:192.0.2.1" /\ show_ip (V6 (repeat 0 16)) = bstr "::".
Proof. by vm_compute. Qed.

(** ** The specification of a service *)

Inductive ServiceProtocol := Tcp | Udp.
Inductive ServiceMode := Nat_ | Dsr.
Inductive ServiceExposure := EastWest | NorthSouth | Both.
Inductive BackendState := Ready | Draining | Unhealthy.

#[global] Instance ServiceProtocol_eq_dec : EqDecision ServiceProtocol. Proof. solve_decision. Defined.
#[global] Instance ServiceMode_eq_dec : EqDecision ServiceMode. Proof. solve_decision. Defined.
#[global] Instance BackendState_eq_dec : EqDecision BackendState. Proof. solve_decision. Defined.

Definition ip_proto (p : ServiceProtocol) : u8 := match p with Tcp => 6 | Udp => 17 end.
Definition MODE_NAT : u8 := 1.
Definition MODE_DSR : u8 := 2.
Definition mode_wire (m : ServiceMode) : u8 := match m with Nat_ => MODE_NAT | Dsr => MODE_DSR end.
Definition north_south (e : ServiceExposure) : bool := match e with NorthSouth | Both => true | EastWest => false end.
Definition BACKEND_READY : u16 := 1.
Definition BACKEND_DRAINING : u16 := 2.
Definition BACKEND_UNHEALTHY : u16 := 4.
Definition wire_flags (s : BackendState) : u16 := match s with Ready => BACKEND_READY | Draining => BACKEND_DRAINING | Unhealthy => BACKEND_UNHEALTHY end.

Record ServiceHealthCheck := { timeout_ms : u64; unhealthy_threshold : u32; healthy_threshold : u32 }.

Record ServiceBackend := {
  address : IpAddr; b_port : u16; weight : u16; enabled : bool; b_state : BackendState; drain_until_unix_ms : option u64 }.

Record ServiceSpec := {
  name : rstr; vip : IpAddr; port : u16; protocol : ServiceProtocol; mode : ServiceMode; exposure : ServiceExposure;
  backends : list ServiceBackend; maglev_table_size : option u32; snat_address : option IpAddr; health_check : option ServiceHealthCheck;
  advertise : bool; max_egress_mbps : option u32; flow_sample_rate : u32; host_routing : bool }.

Definition DEFAULT_MAGLEV_TABLE_SIZE : u32 := 4093.
Definition ALLOWED_MAGLEV_TABLE_SIZES : list u32 := [251; 509; 1021; 2039; 4093; 8191; 16381].
Definition MAX_BACKENDS : N := 128.
Definition MAX_WEIGHT : u16 := 32.

Definition table_size (s : ServiceSpec) : u32 := default DEFAULT_MAGLEV_TABLE_SIZE (maglev_table_size s).

Definition name_char (c : N) : bool := is_alpha c || is_digit c || (c =? 45) || (c =? 95) || (c =? 46).

(** A backend takes new flows. *)
Definition is_ready (b : ServiceBackend) : bool := enabled b && bool_decide (b_state b = Ready).

Definition valid_backend (s : ServiceSpec) (b : ServiceBackend) : bool :=
  negb (b_port b =? 0) && Bool.eqb (is_ipv4 (address b)) (is_ipv4 (vip s)) && negb ((weight b =? 0) || (MAX_WEIGHT <? weight b)) &&
  negb (negb (bool_decide (b_state b = Draining)) && bool_decide (is_Some (drain_until_unix_ms b))) &&
  negb (bool_decide (mode s = Dsr) && negb (b_port b =? port s)).

Definition validate (s : ServiceSpec) : bool :=
  negb ((lenN (name s) =? 0) || (63 <? lenN (name s))) && forallb name_char (name s) && negb (port s =? 0) &&
  negb (MAX_BACKENDS <? lenN (backends s)) && negb (lenN (List.filter enabled (backends s)) =? 0) &&
  forallb (valid_backend s) (backends s) && bool_decide (NoDup (map (fun b => (address b, b_port b)) (backends s))) &&
  match snat_address s with None => true | Some a => Bool.eqb (is_ipv4 a) (is_ipv4 (vip s)) && negb (bool_decide (mode s = Dsr)) end &&
  negb (north_south (exposure s) && bool_decide (mode s = Nat_) && bool_decide (snat_address s = None)) &&
  match health_check s with
  | None => true
  | Some h => negb ((timeout_ms h =? 0) || (30000 <? timeout_ms h)) && negb ((unhealthy_threshold h =? 0) || (healthy_threshold h =? 0))
  end &&
  negb (advertise s && negb (north_south (exposure s))) &&
  match max_egress_mbps s with None => true | Some v => negb (v =? 0) && negb (1000000 <? v) end &&
  negb (1000000000 <? flow_sample_rate s) && existsb (N.eqb (table_size s)) ALLOWED_MAGLEV_TABLE_SIZES.

(** ** Hashes *)

Definition service_id (nm : rstr) : u32 :=
  N.max (fold_left (fun h b => U.mul 32 (N.lxor h b) 0x01000193) (as_bytes nm) 0x811c9dc5) 1.

Definition hash64 (seed : u64) (bs : bytes) : u64 :=
  let h := fold_left (fun h b => U.mul 64 (N.lxor h b) 0x100000001b3) bs (N.lxor 0xcbf29ce484222325 seed) in
  let h := N.lxor h (N.shiftr h 33) in
  let h := U.mul 64 h 0xff51afd7ed558ccd in
  let h := N.lxor h (N.shiftr h 33) in
  let h := U.mul 64 h 0xc4ceb9fe1a85ec53 in
  N.lxor h (N.shiftr h 33).

(** ** The Maglev table *)

Definition token (b : ServiceBackend) (replica : N) : rstr := show_ip (address b) ++ [58] ++ to_decimal (b_port b) ++ [35] ++ to_decimal replica.

(** The virtual backends: one per unit of weight. *)
Fixpoint virtuals_from (i : nat) (bs : list ServiceBackend) : list (nat * rstr) :=
  match bs with
  | [] => []
  | b :: bs =>
      (if is_ready b then map (fun r => (i, token b (N.of_nat r))) (seq 0 (N.to_nat (weight b))) else []) ++ virtuals_from (S i) bs
  end.

Record Virtual := MkVirt { v_idx : nat; v_offset : N; v_skip : N; v_next : N }.

Definition virtual_of (m : N) (x : nat * rstr) : Virtual :=
  MkVirt x.1 (hash64 0x464c555801 x.2 mod m) (hash64 0x464c555802 x.2 mod (m - 1) + 1) 0.

Definition slot (m : N) (v : Virtual) (k : N) : nat := N.to_nat ((v_offset v + k * v_skip v) mod m).

(** [while entry[c].is_some()]: the next free slot of a virtual backend. *)
Fixpoint probe (fuel : nat) (m : N) (e : list (option nat)) (v : Virtual) (k : N) : outcome N :=
  match e !! slot m v k with
  | None => Panic
  | Some None => Ok k
  | Some (Some _) => match fuel with O => Loop | S fuel => probe fuel m e v (k + 1) end
  end.

(** [for i in 0..n], with the break when the table is full. *)
Fixpoint turn (m : N) (vs : list Virtual) (e : list (option nat)) (filled : N) : outcome (list Virtual * list (option nat) * N) :=
  match vs with
  | [] => Ok ([], e, filled)
  | v :: vs =>
      match probe (N.to_nat m) m e v (v_next v) with
      | Ok k =>
          let e := <[slot m v k := Some (v_idx v)]> e in
          let v := MkVirt (v_idx v) (v_offset v) (v_skip v) (k + 1) in
          if filled + 1 =? m then Ok (v :: vs, e, filled + 1)
          else match turn m vs e (filled + 1) with Ok (vs, e, f) => Ok (v :: vs, e, f) | Err x => Err x | Panic => Panic | Loop => Loop end
      | Err x => Err x | Panic => Panic | Loop => Loop
      end
  end.

(** [while filled < m] *)
Fixpoint rounds (fuel : nat) (m : N) (vs : list Virtual) (e : list (option nat)) (filled : N) : outcome (list (option nat)) :=
  if filled <? m then
    match fuel with
    | O => Loop
    | S fuel =>
        match turn m vs e filled with Ok (vs, e, f) => rounds fuel m vs e f | Err x => Err x | Panic => Panic | Loop => Loop end
    end
  else Ok e.

(** [Option::unwrap] on every slot. *)
Fixpoint unwrap_all (e : list (option nat)) : outcome (list nat) :=
  match e with
  | [] => Ok []
  | Some i :: e => match unwrap_all e with Ok l => Ok (i :: l) | o => o end
  | None :: _ => Panic
  end.

Definition maglev_table (s : ServiceSpec) : outcome (list nat) :=
  if negb (validate s) then Err Network
  else
    let m := table_size s in
    match virtuals_from 0 (backends s) with
    | [] => Ok []
    | vs =>
        match rounds (N.to_nat m) m (map (virtual_of m) vs) (repeat None (N.to_nat m)) 0 with
        | Ok e => unwrap_all e
        | Err x => Err x | Panic => Panic | Loop => Loop
        end
    end.
