(* ===== verification/Maglev.v ===== *)
(** * The Maglev table is total and fair

    Proofs about [LbService.maglev_table]: the probing ends because the table sizes
    are prime, the table is full, and every ready backend has its share of the slots
    by weight, up to one slot per unit of weight. *)

From stdpp Require Import prelude list strings gmap.
From Stdlib Require Import NArith ZArith Lia.
From S2P Require Import Prelude RustStr LbService.

(** ** The table sizes *)

(** Every step below [m] is coprime to [m]. *)
Definition prime_size (m : N) : Prop := 1 < m /\ forall s, 0 < s < m -> Z.gcd (Z.of_N s) (Z.of_N m) = 1%Z.

Fixpoint coprime_from (fuel : nat) (i m : N) : bool :=
  match fuel with O => true | S fuel => (Z.gcd (Z.of_N i) (Z.of_N m) =? 1)%Z && coprime_from fuel (i + 1) m end.

Lemma coprime_from_ok fuel i m s : coprime_from fuel i m = true -> i <= s < i + N.of_nat fuel -> Z.gcd (Z.of_N s) (Z.of_N m) = 1%Z.
Proof.
  revert i. induction fuel as [|fuel IH]; intros i H Hs; [lia|]. simpl in H. apply andb_true_iff in H as [H1%Z.eqb_eq H2].
  destruct (N.eq_dec s i) as [->|Hne]; [done|]. apply (IH (i + 1)); [done|lia].
Qed.

Definition coprime_below (m : N) : bool := coprime_from (N.to_nat m - 1) 1 m.

Lemma coprime_below_ok m : 1 < m -> coprime_below m = true -> prime_size m.
Proof. intros Hm H. split; [done|]. intros s Hs. apply (coprime_from_ok _ _ _ _ H). lia. Qed.

Lemma allowed_prime m : m ∈ ALLOWED_MAGLEV_TABLE_SIZES -> prime_size m.
Proof.
  intros H. assert (forallb (fun m => (1 <? m) && coprime_below m) ALLOWED_MAGLEV_TABLE_SIZES = true) as Ha by (vm_compute; reflexivity).
  rewrite forallb_forall in Ha. specialize (Ha m ltac:(by apply list_elem_of_In)). apply andb_true_iff in Ha as [H1%N.ltb_lt H2].
  by apply coprime_below_ok.
Qed.

Lemma validate_size s : validate s = true -> prime_size (table_size s).
Proof.
  unfold validate. rewrite !andb_true_iff. intros H. destruct H as [_ H]. apply existsb_exists in H as (x & Hx & ->%N.eqb_eq). by apply allowed_prime, list_elem_of_In.
Qed.

(** ** Probing *)

Definition step_ok (m : N) (v : Virtual) : Prop := 0 < v_skip v < m.

(** From any position the probe sequence meets every slot within [m] steps. *)
Lemma slot_hits m v k c : prime_size m -> step_ok m v -> (c < N.to_nat m)%nat -> exists t, t < m /\ slot m v (k + t) = c.
Proof.
  intros [Hm Hp] Hv Hc. specialize (Hp _ Hv). destruct (Z.gcd_bezout (Z.of_N (v_skip v)) (Z.of_N m) 1 Hp) as (a & b & Hab).
  set (d := (Z.of_nat c - Z.of_N (v_offset v + k * v_skip v))%Z). set (t := ((a * d) mod Z.of_N m)%Z).
  assert (0 <= t < Z.of_N m)%Z as Ht by (apply Z.mod_pos_bound; lia). exists (Z.to_N t). split; [lia|]. unfold slot.
  apply Nat2Z.inj. rewrite N_nat_Z, N2Z.inj_mod, N2Z.inj_add, !N2Z.inj_mul, N2Z.inj_add, Z2N.id by lia.
  assert (t = a * d - Z.of_N m * ((a * d) / Z.of_N m))%Z as -> by (unfold t; rewrite Z.mod_eq by lia; done).
  rewrite <- (Z.mod_small (Z.of_nat c) (Z.of_N m)) by lia.
  replace (Z.of_N (v_offset v) + (Z.of_N k + (a * d - Z.of_N m * (a * d / Z.of_N m))) * Z.of_N (v_skip v))%Z
    with (Z.of_nat c + (- b * d - (a * d / Z.of_N m) * Z.of_N (v_skip v)) * Z.of_N m)%Z; [apply Z.mod_add; lia|].
  assert (d * (a * Z.of_N (v_skip v) + b * Z.of_N m) = d)%Z as Hd by (rewrite Hab; ring).
  assert (d = Z.of_nat c - (Z.of_N (v_offset v) + Z.of_N k * Z.of_N (v_skip v)))%Z as Hd2 by (unfold d; by rewrite N2Z.inj_add, N2Z.inj_mul).
  clearbody d. generalize (a * d / Z.of_N m)%Z. intros q. lia.
Qed.

Lemma slot_bound m v k : 0 < m -> (slot m v k < N.to_nat m)%nat.
Proof. intros Hm. unfold slot. pose proof (N.mod_lt (v_offset v + k * v_skip v) m). lia. Qed.

Lemma probe_finds fuel m e v k t : 0 < m -> length e = N.to_nat m -> e !! slot m v (k + t) = Some None -> (N.to_nat t <= fuel)%nat ->
  exists k', probe fuel m e v k = Ok k' /\ e !! slot m v k' = Some None.
Proof.
  intros Hm He. revert k t. induction fuel as [|fuel IH]; intros k t Ht Hf; cbn [probe].
  - assert (t = 0) as -> by lia. rewrite N.add_0_r in Ht. rewrite Ht. eauto.
  - destruct (lookup_lt_is_Some_2 e (slot m v k)) as [[i|] Hk]; [rewrite He; by apply slot_bound| |rewrite Hk; eauto]. rewrite Hk.
    destruct (N.eq_dec t 0) as [->|Hz]; [rewrite N.add_0_r in Ht; congruence|].
    apply (IH (k + 1) (t - 1)); [|lia]. by replace (k + 1 + (t - 1)) with (k + t) by lia.
Qed.

(** ** Counting *)

Definition nones (e : list (option nat)) : nat := length (filter (fun x => x = None) e).
Definition count (b : nat) (e : list (option nat)) : nat := length (filter (fun x => x = Some b) e).
Definition share (b : nat) (vs : list Virtual) : nat := length (filter (fun v => v_idx v = b) vs).

Lemma filter_insert_count (P : option nat -> Prop) `{forall x, Decision (P x)} e c old new : e !! c = Some old ->
  (length (filter P (<[c := new]> e)) + (if decide (P old) then 1 else 0) = length (filter P e) + (if decide (P new) then 1 else 0))%nat.
Proof.
  intros Hc. rewrite <- (take_drop_middle e c old Hc) at 2. rewrite insert_take_drop by (by apply lookup_lt_Some in Hc).
  rewrite !filter_app, !filter_cons, !length_app. repeat case_decide; simpl; lia.
Qed.

Lemma place_counts e c i : e !! c = Some None ->
  nones (<[c := Some i]> e) = (nones e - 1)%nat /\ (1 <= nones e)%nat /\ forall b, count b (<[c := Some i]> e) = (count b e + if decide (i = b) then 1 else 0)%nat.
Proof.
  intros Hc. pose proof (filter_insert_count (fun x => x = None) e c None (Some i) Hc) as H1. unfold nones, count. split_and!.
  - repeat case_decide; try done; lia.
  - assert (None ∈ filter (fun x => x = None) e) as Hin by (apply list_elem_of_filter; split; [done|by apply list_elem_of_lookup_2 in Hc]).
    destruct (filter (fun x => x = None) e); [by apply not_elem_of_nil in Hin|simpl; lia].
  - intros b. pose proof (filter_insert_count (fun x => x = Some b) e c None (Some i) Hc) as H2. repeat case_decide; simplify_eq; lia.
Qed.

Lemma nones_free e : (1 <= nones e)%nat -> exists c, e !! c = Some None.
Proof.
  unfold nones. destruct (filter (fun x => x = None) e) as [|x l] eqn:E; [simpl; lia|]. intros _.
  assert (x ∈ filter (fun x => x = None) e) as [Hx Hin]%list_elem_of_filter by (rewrite E; by left). subst x. by apply list_elem_of_lookup_1 in Hin.
Qed.

(** ** Rounds *)

(** The same virtual backends, further along. *)
Definition same_virtual (v w : Virtual) : Prop := v_idx v = v_idx w /\ v_offset v = v_offset w /\ v_skip v = v_skip w.

Lemma same_virtual_refl vs : Forall2 same_virtual vs vs.
Proof. by induction vs as [|v vs IH]; constructor. Qed.

(** A table with [f] slots filled. *)
Definition table_at (m : N) (e : list (option nat)) (f : N) : Prop := length e = N.to_nat m /\ f <= m /\ N.of_nat (nones e) = m - f.

Lemma turn_spec m vs e f : prime_size m -> Forall (step_ok m) vs -> table_at m e f -> f < m ->
  exists vs' e', let p := Nat.min (length vs) (N.to_nat (m - f)) in
    turn m vs e f = Ok (vs', e', f + N.of_nat p) /\ Forall2 same_virtual vs vs' /\ table_at m e' (f + N.of_nat p) /\
    forall b, count b e' = (count b e + share b (take p vs))%nat.
Proof.
  intros Hp Hv. assert (0 < m) as Hm by (destruct Hp; lia). revert e f. induction Hv as [|v vs Hs Hv IH]; intros e f (He & Hf & Hn) Hlt; cbn [turn].
  { exists [], e. simpl. rewrite N.add_0_r. split_and!; [done|constructor|done|]. intros b. unfold share. simpl. lia. }
  destruct (nones_free e) as [c Hc]; [lia|]. pose proof (lookup_lt_Some _ _ _ Hc) as Hcl. rewrite He in Hcl.
  destruct (slot_hits m v (v_next v) c Hp Hs Hcl) as (t & Ht & Hslot). rewrite <- Hslot in Hc.
  destruct (probe_finds (N.to_nat m) m e v (v_next v) t Hm He Hc ltac:(lia)) as (k & -> & Hk).
  destruct (place_counts e (slot m v k) (v_idx v) Hk) as (Hn1 & Hn2 & Hn3).
  set (v' := MkVirt (v_idx v) (v_offset v) (v_skip v) (k + 1)). set (e1 := <[slot m v k := Some (v_idx v)]> e) in *.
  assert (table_at m e1 (f + 1)) as Ht1 by (split_and!; [by unfold e1; rewrite length_insert|lia|lia]).
  destruct (f + 1 =? m) eqn:Ef.
  - apply N.eqb_eq in Ef. exists (v' :: vs), e1. replace (Nat.min (length (v :: vs)) (N.to_nat (m - f))) with 1%nat by (cbn [length]; lia).
    split_and!; [done|constructor; [done|apply same_virtual_refl]|done|]. intros b. rewrite Hn3. unfold share. cbn [take]. rewrite filter_cons. case_decide; simpl; lia.
  - apply N.eqb_neq in Ef. destruct (IH e1 (f + 1) Ht1 ltac:(lia)) as (vs' & e' & -> & H1 & H2 & H3).
    replace (Nat.min (length (v :: vs)) (N.to_nat (m - f))) with (S (Nat.min (length vs) (N.to_nat (m - (f + 1))))) by (cbn [length]; lia).
    set (q := Nat.min (length vs) (N.to_nat (m - (f + 1)))) in *. exists (v' :: vs'), e'.
    replace (f + N.of_nat (S q)) with (f + 1 + N.of_nat q) by lia. split_and!; [done|by constructor|done|].
    intros b. rewrite H3, Hn3. unfold share. cbn [take]. rewrite filter_cons. case_decide; simpl; lia.
Qed.

Lemma same_share vs vs' b p : Forall2 same_virtual vs vs' -> share b (take p vs') = share b (take p vs).
Proof.
  intros H. revert p. unfold share. induction H as [|v w vs vs' [Hi _] H IH]; intros [|p]; try done. cbn [take]. rewrite !filter_cons, Hi.
  case_decide; simpl; by rewrite IH.
Qed.

Lemma same_steps m vs vs' : Forall2 same_virtual vs vs' -> Forall (step_ok m) vs -> Forall (step_ok m) vs'.
Proof.
  intros H. induction H as [|v w vs vs' (_ & _ & Hs) H IH]; intros Hf; constructor; inversion_clear Hf; [|by apply IH]. unfold step_ok in *. by rewrite <- Hs.
Qed.

(** The table fills up in full rounds and the start of one more. *)
Lemma rounds_spec fuel m vs e f : prime_size m -> Forall (step_ok m) vs -> vs <> [] -> table_at m e f -> (N.to_nat (m - f) <= fuel)%nat ->
  exists e' r p, rounds fuel m vs e f = Ok e' /\ table_at m e' m /\ (p < length vs)%nat /\ N.to_nat (m - f) = (r * length vs + p)%nat /\
    forall b, count b e' = (count b e + r * share b vs + share b (take p vs))%nat.
Proof.
  intros Hp. revert vs e f. induction fuel as [|fuel IH]; intros vs e f Hv Hne Ht Hf; cbn [rounds].
  - destruct Ht as (H1 & H2 & H3). assert (f = m) as -> by lia. rewrite N.ltb_irrefl. exists e, O, O.
    split_and!; [done|by split_and!|by destruct vs; [|simpl; lia]|simpl; lia|]. intros b. unfold share at 2. simpl. lia.
  - destruct (f <? m) eqn:El.
    + apply N.ltb_lt in El. destruct (turn_spec m vs e f Hp Hv Ht El) as (vs' & e1 & -> & Hsame & Ht1 & Hc).
      set (q := Nat.min (length vs) (N.to_nat (m - f))) in *. pose proof (Forall2_length _ _ _ Hsame) as Hlen.
      assert (1 <= length vs)%nat by (destruct vs; [done|simpl; lia]).
      destruct (IH vs' e1 (f + N.of_nat q)) as (e' & r & p & -> & H1 & H2 & H3 & H4);
        [by eapply same_steps|by intros ->; destruct vs|done|lia|]. exists e'. rewrite <- Hlen in H2, H3.
      destruct (decide (q = length vs)) as [Hq|Hq].
      * exists (S r), p. split_and!; [done|done|done|lia|]. intros b. rewrite H4, Hc, Hq, firstn_all. rewrite (same_share vs vs' b p Hsame).
        pose proof (same_share vs vs' b (length vs) Hsame) as Hs. rewrite firstn_all in Hs. rewrite Hlen, firstn_all in Hs. rewrite Hs. lia.
      * assert (r = O /\ p = O) as [-> ->] by (split; nia). exists O, q. split_and!; [done|done|lia|lia|]. intros b. rewrite H4, Hc. unfold share at 3. simpl. lia.
    + apply N.ltb_ge in El. destruct Ht as (H1 & H2 & H3). assert (f = m) as -> by lia. exists e, O, O.
      split_and!; [done|by split_and!|by destruct vs; [|simpl; lia]|simpl; lia|]. intros b. unfold share at 2. simpl. lia.
Qed.

Lemma unwrap_full e : nones e = O -> exists l, unwrap_all e = Ok l /\ e = map Some l.
Proof.
  unfold nones. induction e as [|[i|] e IH]; intros H; [by exists []| |].
  - rewrite filter_cons in H. case_decide; [done|]. destruct (IH H) as (l & El & ->). simpl. rewrite El. by exists (i :: l).
  - rewrite filter_cons in H. by case_decide.
Qed.

(** ** Shares *)

(** The slots a backend is entitled to per round. *)
Definition ready_weight (b : ServiceBackend) : nat := if is_ready b then N.to_nat (weight b) else O.
Definition total_weight (bs : list ServiceBackend) : nat := sum_list_with ready_weight bs.
Definition occurrences (i : nat) (t : list nat) : nat := length (filter (fun x => x = i) t).

Lemma length_virtuals i bs : length (virtuals_from i bs) = total_weight bs.
Proof.
  revert i. unfold total_weight. induction bs as [|b bs IH]; intros i; [done|]. cbn [virtuals_from sum_list_with]. rewrite length_app, IH. f_equal.
  unfold ready_weight. destruct (is_ready b); [by rewrite length_map, length_seq|done].
Qed.

Lemma share_own m i (b : ServiceBackend) j l : share j (map (virtual_of m) (map (fun r => (i, token b (N.of_nat r))) l)) = if decide (i = j) then length l else O.
Proof.
  unfold share. induction l as [|r l IH]; [by case_decide|]. cbn [map]. rewrite filter_cons. cbn [virtual_of v_idx fst]. revert IH. repeat case_decide; intros IH; simpl; rewrite ?IH; done.
Qed.

Lemma share_app j a b : share j (a ++ b) = (share j a + share j b)%nat.
Proof. unfold share. by rewrite filter_app, length_app. Qed.

Lemma share_virtuals m bs i j : share j (map (virtual_of m) (virtuals_from i bs)) =
  if decide (i <= j)%nat then match bs !! (j - i)%nat with Some b => ready_weight b | None => O end else O.
Proof.
  revert i. induction bs as [|b bs IH]; intros i; [by case_decide|]. cbn [virtuals_from]. rewrite map_app, share_app, IH.
  assert (share j (map (virtual_of m) (if is_ready b then map (fun r => (i, token b (N.of_nat r))) (seq 0 (N.to_nat (weight b))) else [])) =
    if decide (i = j) then ready_weight b else O) as ->.
  { unfold ready_weight. destruct (is_ready b); [rewrite share_own, length_seq; done|by case_decide]. }
  destruct (decide (i = j)) as [->|Hne].
  - rewrite Nat.sub_diag, decide_False, decide_True by lia. simpl. lia.
  - destruct (decide (i <= j)%nat); [rewrite decide_True by lia; replace (j - i)%nat with (S (j - S i)) by lia; done|by rewrite decide_False by lia].
Qed.

Lemma share_take j p vs : (share j (take p vs) <= share j vs)%nat.
Proof. rewrite <- (take_drop p vs) at 2. rewrite share_app. lia. Qed.

Lemma virtual_steps m l : 1 < m -> Forall (step_ok m) (map (virtual_of m) l).
Proof.
  intros Hm. apply Forall_map, Forall_forall. intros x _. unfold step_ok. cbn [virtual_of v_skip]. generalize (hash64 0x464c555802 x.2). intros h.
  pose proof (N.mod_lt h (m - 1) ltac:(lia)) as H. revert H. generalize (h mod (m - 1)). lia.
Qed.

Lemma count_some i t : count i (map Some t) = occurrences i t.
Proof. unfold count, occurrences. induction t as [|x t IH]; [done|]. cbn [map]. rewrite !filter_cons. repeat case_decide; simplify_eq; simpl; by rewrite IH. Qed.

Lemma nones_repeat n : nones (repeat None n) = n /\ forall b, count b (repeat None n) = O.
Proof.
  unfold nones, count. induction n as [|n [IH1 IH2]]; [done|]. cbn [repeat]. split; [|intros b]; rewrite filter_cons; case_decide; try done; simpl; by rewrite ?IH1.
Qed.

(** The weight of a backend by its index. *)
Definition weight_at (s : ServiceSpec) (i : nat) : nat := match backends s !! i with Some b => ready_weight b | None => O end.

Lemma maglev_counts s : validate s = true -> total_weight (backends s) <> O ->
  exists t, maglev_table s = Ok t /\ lenN t = table_size s /\
    forall i, let q := (N.to_nat (table_size s) / total_weight (backends s))%nat in
      (weight_at s i * q <= occurrences i t <= weight_at s i * (q + 1))%nat.
Proof.
  intros Hv Hw. pose proof (validate_size s Hv) as Hp. unfold maglev_table. rewrite Hv. cbn [negb].
  set (m := table_size s) in *. assert (1 < m) as Hm by apply Hp. pose proof (length_virtuals 0 (backends s)) as Hlen.
  set (vs := virtuals_from 0 (backends s)) in *. assert (vs <> []) as Hne by (intros E; rewrite E in Hlen; simpl in Hlen; lia).
  destruct (nones_repeat (N.to_nat m)) as [Hn1 Hn2].
  destruct (rounds_spec (N.to_nat m) m (map (virtual_of m) vs) (repeat None (N.to_nat m)) 0) as (e & r & p & Er & (He & _ & Hz) & Hpl & Hrp & Hcnt);
    [done|by apply virtual_steps|by destruct vs|split_and!; [apply repeat_length|lia|lia]|lia|]. rewrite length_map in Hpl, Hrp.
  destruct (unwrap_full e) as (t & Et & Ee); [lia|]. exists t.
  split; [clear -Er Et Hne; clearbody vs; destruct vs; [done|]; by rewrite Er|]. subst e. rewrite length_map in He. split; [unfold lenN; lia|]. intros i. cbv zeta.
  specialize (Hcnt i). rewrite count_some, Hn2 in Hcnt. unfold vs in Hcnt at 1. rewrite share_virtuals, decide_True, Nat.sub_0_r in Hcnt by lia. fold (weight_at s i) in Hcnt.
  assert (N.to_nat m / total_weight (backends s) = r)%nat as -> by (rewrite <- Hlen; symmetry; apply (Nat.div_unique _ _ r p); lia).
  pose proof (share_take i p (map (virtual_of m) vs)) as Hs. unfold vs in Hs at 2. rewrite share_virtuals, decide_True, Nat.sub_0_r in Hs by lia. fold (weight_at s i) in Hs. lia.
Qed.

Lemma total_zero bs : total_weight bs = O -> Forall (fun b => ready_weight b = O) bs.
Proof. unfold total_weight. induction bs as [|b bs IH]; simpl; intros H; constructor; [lia|]. apply IH. lia. Qed.

(** A valid backend that is ready has a positive weight. *)
Lemma valid_weight s b : validate s = true -> b ∈ backends s -> is_ready b = true -> (1 <= ready_weight b)%nat.
Proof.
  unfold validate. rewrite !andb_true_iff. intros H Hb Hr. assert (forallb (valid_backend s) (backends s) = true) as Hf by tauto.
  rewrite forallb_forall in Hf. specialize (Hf b ltac:(by apply list_elem_of_In)). unfold valid_backend in Hf. rewrite !andb_true_iff in Hf.
  destruct Hf as [[[_ Hw] _] _]. apply negb_true_iff, orb_false_iff in Hw as [Hw%N.eqb_neq _]. unfold ready_weight. rewrite Hr. lia.
Qed.

(** Every slot of the table is the index of a ready backend. *)
Lemma maglev_entries_ready s t : validate s = true -> maglev_table s = Ok t -> Forall (fun i => exists b, backends s !! i = Some b /\ is_ready b = true) t.
Proof.
  intros Hv Ht. apply Forall_forall. intros i Hi. destruct (decide (total_weight (backends s) = O)) as [Hz|Hz].
  - unfold maglev_table in Ht. rewrite Hv in Ht. cbn [negb] in Ht. pose proof (length_virtuals 0 (backends s)) as Hl. rewrite Hz in Hl.
    destruct (virtuals_from 0 (backends s)); [|done]. assert (t = []) as -> by congruence. by apply not_elem_of_nil in Hi.
  - destruct (maglev_counts s Hv Hz) as (t' & Ht' & _ & Hc). assert (t' = t) as -> by congruence.
    specialize (Hc i). assert (1 <= occurrences i t)%nat as Ho.
    { unfold occurrences. assert (i ∈ filter (fun x => x = i) t) as Hf by (by apply list_elem_of_filter). destruct (filter _ t); [by apply not_elem_of_nil in Hf|simpl; lia]. }
    unfold weight_at in Hc. destruct (backends s !! i) as [b|]; [|lia]. exists b. split; [done|]. unfold ready_weight in Hc. destruct (is_ready b); [done|lia].
Qed.

(** C13: the Maglev table is complete and fair: for every valid service the loops end;
    with no ready backend the table is empty, and otherwise each of its slots (as
    many as the configured prime size) is the index of an enabled, ready backend,
    and a ready backend of weight [w] has between [w * q] and [w * (q + 1)] of
    them, where [q] is the size divided by the total weight. *)
Theorem maglev_fair s : validate s = true ->
  exists t, maglev_table s = Ok t /\
    (Forall (fun b => is_ready b = false) (backends s) -> t = []) /\
    (Exists (fun b => is_ready b = true) (backends s) ->
       lenN t = table_size s /\ Forall (fun i => exists b, backends s !! i = Some b /\ is_ready b = true) t /\
       forall i b, backends s !! i = Some b -> is_ready b = true ->
         let w := N.to_nat (weight b) in let q := (N.to_nat (table_size s) / total_weight (backends s))%nat in
         (w * q <= occurrences i t <= w * (q + 1))%nat).
Proof.
  intros Hv. destruct (decide (total_weight (backends s) = O)) as [Hz|Hz].
  - exists []. pose proof (length_virtuals 0 (backends s)) as Hl. rewrite Hz in Hl. split_and!; [|done|].
    + unfold maglev_table. rewrite Hv. by destruct (virtuals_from 0 (backends s)).
    + intros (b & Hb & Hr)%Exists_exists. pose proof (valid_weight s b Hv Hb Hr) as Hw. pose proof (total_zero _ Hz) as Hf. rewrite Forall_forall in Hf. specialize (Hf b Hb). lia.
  - destruct (maglev_counts s Hv Hz) as (t & Ht & Hl & Hc). exists t. split_and!; [done| |].
    + intros Hf. destruct t as [|i t]; [done|]. pose proof (maglev_entries_ready s _ Hv Ht) as He. inversion_clear He as [|? ? (b & Hb & Hr) _].
      rewrite Forall_forall in Hf. specialize (Hf b (list_elem_of_lookup_2 _ _ _ Hb)). congruence.
    + intros _. split_and!; [done|by apply maglev_entries_ready|]. intros i b Hb Hr. specialize (Hc i). unfold weight_at, ready_weight in Hc. by rewrite Hb, Hr in Hc.
Qed.

(** Backends of a test service, all ready. *)
Definition ready_backend (i : N) (w : u16) : ServiceBackend :=
  {| address := V4 [10; 0; 0; i]; b_port := 80; weight := w; enabled := true; b_state := Ready; drain_until_unix_ms := None |}.
Definition spec_of (bs : list ServiceBackend) : ServiceSpec :=
  {| name := bstr "web"; vip := V4 [10; 0; 1; 1]; port := 80; protocol := Tcp; mode := Nat_; exposure := EastWest; backends := bs;
     maglev_table_size := Some 251; snat_address := None; health_check := None; advertise := false; max_egress_mbps := None;
     flow_sample_rate := 0; host_routing := false |}.

Definition two_backends : ServiceSpec := spec_of [ready_backend 1 1; ready_backend 2 3].

Lemma maglev_fair_witness : exists t, maglev_table two_backends = Ok t /\ lenN t = 251 /\ (62 <= occurrences 0 t <= 63)%nat /\ (186 <= occurrences 1 t <= 189)%nat.
Proof.
  destruct (maglev_fair two_backends) as (t & Ht & _ & H); [vm_compute; reflexivity|]. exists t. split; [exact Ht|].
  destruct H as (H1 & _ & H2); [by left|]. split; [exact H1|]. split; [exact (H2 0%nat _ eq_refl eq_refl)|exact (H2 1%nat _ eq_refl eq_refl)].
Defined.

(** The size of the table is not compared with the weights: a service can have more
    units of weight than slots, and a ready backend that no flow reaches. *)
Definition crowded : ServiceSpec := spec_of (map (fun i => ready_backend i 32) [1; 2; 3; 4; 5; 6; 7; 8] ++ [ready_backend 9 1]).

Lemma starved_backend : validate crowded = true /\ exists t, maglev_table crowded = Ok t /\ occurrences 8 t = O.
Proof.
  split; [vm_compute; reflexivity|]. assert (match maglev_table crowded with Ok t => (occurrences 8 t =? 0)%nat | _ => false end = true) as H by (vm_compute; reflexivity).
  destruct (maglev_table crowded) as [t| | |]; try done. exists t. split; [done|]. by apply Nat.eqb_eq.
Qed.
