(* ===== verification/LbCatalog.v ===== *)
(** * The catalog of services

    [crates/fluxvm-network/src/service.rs]: the limits of a catalog, reading and
    changing it with the rollback of a change the kernel refused, active health
    and the advertisement of VIPs.

    The catalog file holds parsed specifications.  Writing it can fail before or
    after the new file is in place; programming the kernel ([sync_all]) can fail and
    then leaves the kernel in an unknown state.  A script gives these answers. *)

From stdpp Require Import prelude list strings gmap sorting.
From Stdlib Require Import NArith Lia.
From S2P Require Import Prelude RustStr LbService Maglev.

(** ** Limits *)

Inductive MapTier := TierS | TierM | TierL.

Definition normalize_map_tier (tier : rstr) : MapTier :=
  let t := to_ascii_uppercase (trim tier) in
  if bool_decide (t = bstr "S") then TierS else if bool_decide (t = bstr "L") then TierL else TierM.

Definition MAX_SERVICES_M : N := 4096.
Definition MAX_BACKEND_MAP_ENTRIES_M : N := 16384.
Definition MAX_MAGLEV_MAP_ENTRIES_M : N := 262144.

Definition map_tier_max_services (tier : rstr) : N := match normalize_map_tier tier with TierS => 1024 | TierL => 8192 | TierM => MAX_SERVICES_M end.
Definition map_tier_max_backends (tier : rstr) : N := match normalize_map_tier tier with TierS => 4096 | TierL => 32768 | TierM => MAX_BACKEND_MAP_ENTRIES_M end.
Definition map_tier_max_maglev (tier : rstr) : N := match normalize_map_tier tier with TierS => 65536 | TierL => 524288 | TierM => MAX_MAGLEV_MAP_ENTRIES_M end.

Definition frontend (s : ServiceSpec) : IpAddr * u16 * ServiceProtocol := (vip s, port s, protocol s).
Definition backend_entries (s : ServiceSpec) : N := lenN (List.filter enabled (backends s)).
Definition maglev_entries (s : ServiceSpec) : N := if existsb is_ready (backends s) then table_size s else 0.
Definition sumN (f : ServiceSpec -> N) (specs : list ServiceSpec) : N := fold_right (fun s n => f s + n) 0 specs.

Definition validate_catalog (specs : list ServiceSpec) (tier : rstr) : bool :=
  negb (map_tier_max_services tier <? lenN specs) && forallb validate specs && bool_decide (NoDup (map name specs)) &&
  bool_decide (NoDup (map frontend specs)) && bool_decide (NoDup (map (fun s => service_id (name s)) specs)) &&
  negb (map_tier_max_backends tier <? sumN backend_entries specs) && negb (map_tier_max_maglev tier <? sumN maglev_entries specs).

(** ** Reading and changing *)

Definition name_le (a b : ServiceSpec) : Prop := rstr_leb (name a) (name b) = true.

#[global] Instance name_le_dec : RelDecision name_le.
Proof. intros a b. unfold name_le. apply _. Defined.

Inductive Answer := Fine | FailBefore | FailAfter.

(** The file, what the kernel was last programmed with ([None]: a part of it), and the answers to come. *)
Record Node := MkNode { catalog : option (list ServiceSpec); kernel : option (list ServiceSpec); script : list Answer }.

Section Catalog.
Variable tier : rstr.

Definition list_services : M Node (list ServiceSpec) := fun n =>
  match catalog n with
  | None => (Ok [], n)
  | Some specs => if validate_catalog specs tier then (Ok (merge_sort name_le specs), n) else (Err Network, n)
  end.

Definition get (nm : rstr) : M Node (option ServiceSpec) := let! l := list_services in ret (find (fun s => bool_decide (name s = nm)) l).

Definition next_answer (n : Node) : Answer * list Answer := match script n with [] => (Fine, []) | a :: s => (a, s) end.

Definition save_catalog (specs : list ServiceSpec) : M Node () := fun n =>
  let '(a, s) := next_answer n in
  match a with
  | Fine => (Ok tt, MkNode (Some specs) (kernel n) s)
  | FailBefore => (Err Io, MkNode (catalog n) (kernel n) s)
  | FailAfter => (Err Io, MkNode (Some specs) (kernel n) s)
  end.

(** [sync_all]: what the file holds is programmed. *)
Definition sync_all : M Node () := fun n =>
  let '(a, s) := next_answer n in
  match a with
  | Fine => (Ok tt, MkNode (catalog n) (Some (default [] (catalog n))) s)
  | _ => (Err Network, MkNode (catalog n) None s)
  end.

(** [if let Err(e) = m] *)
Definition catch (m : M Node ()) (h : M Node ()) : M Node () := fun n => match m n with (Err _, n) => h n | r => r end.

Definition commit_catalog (previous desired : list ServiceSpec) : M Node () :=
  do! save_catalog desired in
  catch sync_all (
    do! save_catalog previous in
    do! sync_all in
    throw Network).

(** [*existing = spec], or push. *)
Fixpoint put_spec (spec : ServiceSpec) (l : list ServiceSpec) : list ServiceSpec :=
  match l with
  | [] => [spec]
  | s :: l => if bool_decide (name s = name spec) then spec :: l else s :: put_spec spec l
  end.

Definition upsert (spec : ServiceSpec) : M Node () :=
  if negb (validate spec) then throw Network
  else
    let! previous := list_services in
    let specs := put_spec spec previous in
    if negb (validate_catalog specs tier) then throw Network else commit_catalog previous specs.

Definition delete (nm : rstr) : M Node bool :=
  let! previous := list_services in
  let specs := List.filter (fun s => negb (bool_decide (name s = nm))) previous in
  if (length specs =? length previous)%nat then ret false else do! commit_catalog previous specs in ret true.

(** ** Health *)

Record BackendHealthStatus := MkHealth {
  h_service : rstr; h_index : nat; h_address : IpAddr; h_port : u16; healthy : bool; consecutive_successes : u32; consecutive_failures : u32 }.

(** What health makes of the backends of a service. *)
Fixpoint demote (bad : nat -> bool) (i : nat) (bs : list ServiceBackend) : list ServiceBackend :=
  match bs with
  | [] => []
  | b :: bs =>
      (if is_ready b && bad i
       then {| address := address b; b_port := b_port b; weight := weight b; enabled := enabled b; b_state := Unhealthy; drain_until_unix_ms := drain_until_unix_ms b |}
       else b) :: demote bad (S i) bs
  end.

Definition with_backends (s : ServiceSpec) (bs : list ServiceBackend) : ServiceSpec :=
  {| name := name s; vip := vip s; port := port s; protocol := protocol s; mode := mode s; exposure := exposure s; backends := bs;
     maglev_table_size := maglev_table_size s; snat_address := snat_address s; health_check := health_check s; advertise := advertise s;
     max_egress_mbps := max_egress_mbps s; flow_sample_rate := flow_sample_rate s; host_routing := host_routing s |}.

Definition unhealthy_in (health : list BackendHealthStatus) (nm : rstr) (i : nat) : bool :=
  existsb (fun h => negb (healthy h) && bool_decide (h_service h = nm) && (h_index h =? i)%nat) health.

Definition effective_catalog (health : list BackendHealthStatus) : M Node (list ServiceSpec) :=
  let! specs := list_services in
  ret (map (fun s => with_backends s (demote (unhealthy_in health (name s)) 0 (backends s))) specs).

(** One probe of a backend: [up] is whether the connection was made in time. *)
Definition probe_record (policy : ServiceHealthCheck) (up : bool) (r : BackendHealthStatus) : BackendHealthStatus :=
  if up then
    let n := U.saturating_add 32 (consecutive_successes r) 1 in
    MkHealth (h_service r) (h_index r) (h_address r) (h_port r) (if healthy_threshold policy <=? n then true else healthy r) n 0
  else
    let n := U.saturating_add 32 (consecutive_failures r) 1 in
    MkHealth (h_service r) (h_index r) (h_address r) (h_port r) (if unhealthy_threshold policy <=? n then false else healthy r) 0 n.

(** The record a sweep makes of a backend, from the record it had. *)
Definition sweep_one (up : bool) (old : list BackendHealthStatus) (s : ServiceSpec) (policy : ServiceHealthCheck) (i : nat) (b : ServiceBackend) : BackendHealthStatus :=
  let r := default (MkHealth (name s) i (address b) (b_port b) true 0 0)
             (find (fun h => bool_decide (h_service h = name s) && (h_index h =? i)%nat) old) in
  probe_record policy up (MkHealth (h_service r) (h_index r) (address b) (b_port b) (healthy r) (consecutive_successes r) (consecutive_failures r)).

Fixpoint sweep_backends (up : rstr -> nat -> bool) (old : list BackendHealthStatus) (s : ServiceSpec) (policy : ServiceHealthCheck) (i : nat) (bs : list ServiceBackend) : list BackendHealthStatus :=
  match bs with
  | [] => []
  | b :: bs => (if is_ready b then [sweep_one (up (name s) i) old s policy i b] else []) ++ sweep_backends up old s policy (S i) bs
  end.

(** [reconcile_health], the records it saves: of probed backends only. *)
Definition sweep (up : rstr -> nat -> bool) (old : list BackendHealthStatus) (specs : list ServiceSpec) : list BackendHealthStatus :=
  concat (map (fun s => match health_check s with Some p => sweep_backends up old s p 0 (backends s) | None => [] end) specs).

(** ** VIP advertisement *)

Record VipAdvertisement := MkAdv { a_service : rstr; a_vip : IpAddr; prefix_len : u8; a_advertise : bool }.

Definition advertisement (specs : list ServiceSpec) : list VipAdvertisement :=
  map (fun s => MkAdv (name s) (vip s) (if is_ipv4 (vip s) then 32 else 128) (advertise s && existsb is_ready (backends s)))
    (List.filter (fun s => north_south (exposure s)) specs).
End Catalog.

(** ** Catalogs as maps from names *)

Definition lookup_spec (nm : rstr) (l : list ServiceSpec) : option ServiceSpec := find (fun s => bool_decide (name s = nm)) l.

Lemma lookup_spec_some nm l s : NoDup (map name l) -> lookup_spec nm l = Some s <-> s ∈ l /\ name s = nm.
Proof.
  unfold lookup_spec. induction l as [|t l IH]; intros Hn; [simpl; split; [done|]; intros [H _]; by apply not_elem_of_nil in H|]. simpl in *.
  apply NoDup_cons in Hn as [Ht Hn]. case_bool_decide as E.
  - split; [intros [= <-]; split; [by left|done]|]. intros [[->|Hs]%elem_of_cons Hm]; [done|]. exfalso. apply Ht. rewrite E, <- Hm. by apply list_elem_of_fmap_2.
  - rewrite IH by done. split; [intros [H1 H2]; split; [by right|done]|]. intros [[->|Hs]%elem_of_cons Hm]; done.
Qed.

Lemma lookup_perm nm l l' : NoDup (map name l) -> l ≡ₚ l' -> lookup_spec nm l = lookup_spec nm l'.
Proof.
  intros Hn Hp. assert (NoDup (map name l')) as Hn' by (by rewrite <- Hp). destruct (lookup_spec nm l') as [s|] eqn:E.
  - apply lookup_spec_some in E; [|done]. apply lookup_spec_some; [done|]. by rewrite Hp.
  - destruct (lookup_spec nm l) as [s|] eqn:E2; [|done]. apply lookup_spec_some in E2 as [H1 H2]; [|done]. rewrite Hp in H1.
    assert (lookup_spec nm l' = Some s) by (by apply lookup_spec_some). congruence.
Qed.

Lemma lookup_put nm s l : lookup_spec nm (put_spec s l) = if decide (nm = name s) then Some s else lookup_spec nm l.
Proof.
  unfold lookup_spec. induction l as [|t l IH]; simpl.
  - case_bool_decide; case_decide; congruence.
  - case_bool_decide as E; simpl; [|rewrite IH]; repeat case_bool_decide; repeat case_decide; congruence.
Qed.

Lemma lookup_filter nm x l : lookup_spec nm (List.filter (fun s => negb (bool_decide (name s = x))) l) = if decide (nm = x) then None else lookup_spec nm l.
Proof.
  unfold lookup_spec. induction l as [|t l IH]; simpl; [by case_decide|]. destruct (bool_decide (name t = x)) eqn:E; simpl; rewrite IH.
  - apply bool_decide_eq_true in E. repeat case_bool_decide; repeat case_decide; congruence.
  - apply bool_decide_eq_false in E. repeat case_bool_decide; repeat case_decide; congruence.
Qed.

(** ** Validity *)

Record catalog_ok (tier : rstr) (l : list ServiceSpec) : Prop := {
  co_len : lenN l <= map_tier_max_services tier;
  co_valid : Forall (fun s => validate s = true) l;
  co_names : NoDup (map name l);
  co_frontends : NoDup (map frontend l);
  co_ids : NoDup (map (fun s => service_id (name s)) l);
  co_backends : sumN backend_entries l <= map_tier_max_backends tier;
  co_maglev : sumN maglev_entries l <= map_tier_max_maglev tier }.

Lemma validate_catalog_ok tier l : validate_catalog l tier = true <-> catalog_ok tier l.
Proof.
  unfold validate_catalog. rewrite !andb_true_iff, !negb_true_iff, !N.ltb_ge, !bool_decide_eq_true, forallb_forall.
  assert ((forall x, In x l -> validate x = true) <-> Forall (fun s => validate s = true) l) as ->.
  { rewrite Forall_forall. split; intros H x Hx; apply H; by apply list_elem_of_In. }
  split; [intros [[[[[[? ?] ?] ?] ?] ?] ?]; by split|intros []; tauto].
Qed.

Lemma sumN_perm f l l' : l ≡ₚ l' -> sumN f l = sumN f l'.
Proof. induction 1; unfold sumN in *; simpl; lia. Qed.

Lemma catalog_perm tier l l' : l ≡ₚ l' -> catalog_ok tier l -> catalog_ok tier l'.
Proof.
  intros Hp [H1 H2 H3 H4 H5 H6 H7]. split; try (by rewrite <- Hp).
  - unfold lenN in *. by rewrite <- Hp.
  - by rewrite <- (sumN_perm _ _ _ Hp).
  - by rewrite <- (sumN_perm _ _ _ Hp).
Qed.

Lemma sumN_filter f g l : sumN f (List.filter g l) <= sumN f l.
Proof. unfold sumN. induction l as [|s l IH]; simpl; [lia|]. destruct (g s); simpl; lia. Qed.

Lemma sublist_filter {A} (g : A -> bool) (l : list A) : List.filter g l `sublist_of` l.
Proof. induction l as [|a l IH]; simpl; [constructor|]. destruct (g a); [by apply sublist_skip|by apply sublist_cons]. Qed.

Lemma sublist_map {A B} (f : A -> B) l l' : l `sublist_of` l' -> map f l `sublist_of` map f l'.
Proof. induction 1; simpl; [done|by apply sublist_skip|by apply sublist_cons]. Qed.

Lemma catalog_filter tier g l : catalog_ok tier l -> catalog_ok tier (List.filter g l).
Proof.
  intros [H1 H2 H3 H4 H5 H6 H7]. pose proof (sublist_filter g l) as Hs. split.
  - pose proof (sublist_length _ _ Hs). unfold lenN in *. lia.
  - rewrite Forall_forall in *. intros s Hin. apply H2. apply list_elem_of_In, filter_In in Hin as [Hin _]. by apply list_elem_of_In.
  - eapply sublist_NoDup; [exact H3|]. by apply sublist_map.
  - eapply sublist_NoDup; [exact H4|]. by apply sublist_map.
  - eapply sublist_NoDup; [exact H5|]. by apply sublist_map.
  - pose proof (sumN_filter backend_entries g l). lia.
  - pose proof (sumN_filter maglev_entries g l). lia.
Qed.

(** ** Changes *)

Definition specs_of (n : Node) : list ServiceSpec := default [] (catalog n).
Definition service (n : Node) (nm : rstr) : option ServiceSpec := lookup_spec nm (specs_of n).
Definition node_ok (tier : rstr) (n : Node) : Prop := catalog_ok tier (specs_of n).

#[global] Instance Answer_eq_dec : EqDecision Answer. Proof. solve_decision. Defined.

(** At most one operation fails. *)
Definition one_fault (n : Node) : Prop := (length (filter (fun a => a <> Fine) (script n)) <= 1)%nat.

Lemma list_services_spec tier n : node_ok tier n -> exists l, list_services tier n = (Ok l, n) /\ l ≡ₚ specs_of n.
Proof.
  unfold node_ok, specs_of, list_services. destruct (catalog n) as [specs|]; simpl; [|by exists []]. intros H. rewrite (proj2 (validate_catalog_ok tier specs) H).
  eexists. split; [done|]. apply merge_sort_Permutation.
Qed.

(** Reading by name. *)
Lemma get_service tier n nm : node_ok tier n -> get tier nm n = (Ok (service n nm), n).
Proof.
  intros Hn. destruct (list_services_spec tier n Hn) as (l & E & Hp). unfold get, bind. rewrite E. unfold ret. do 2 f_equal.
  apply lookup_perm; [|done]. rewrite Hp. apply Hn.
Qed.

(** What a commit leaves. *)
Definition committed (tier : rstr) (n : Node) (desired : list ServiceSpec) (r : outcome ()) (n' : Node) : Prop :=
  node_ok tier n' /\
  match r with
  | Ok _ => catalog n' = Some desired /\ kernel n' = Some desired
  | Err _ => ((forall nm, service n' nm = service n nm) \/ catalog n' = Some desired) /\
      (one_fault n ->
       (forall nm, service n' nm = service n nm) /\ (kernel n' = kernel n \/ kernel n' = catalog n') \/
       head (script n) = Some FailAfter /\ catalog n' = Some desired /\ kernel n' = kernel n)
  | _ => False
  end.

Lemma commit_spec tier previous desired n : node_ok tier n -> previous ≡ₚ specs_of n -> catalog_ok tier desired ->
  committed tier n desired (commit_catalog previous desired n).1 (commit_catalog previous desired n).2.
Proof.
  intros Hn Hp Hd. assert (catalog_ok tier previous) as Hpo by (by eapply catalog_perm; [symmetry|]).
  assert (forall nm, lookup_spec nm previous = service n nm) as Hl by (intros nm; apply lookup_perm; [apply Hpo|done]).
  unfold commit_catalog, catch, bind, save_catalog, sync_all, next_answer, throw, committed, one_fault, node_ok, service, specs_of in *.
  destruct n as [cat ker [|[] [|[] [|[] [|[] sc]]]]]; cbn [catalog kernel script]; cbv iota beta zeta; cbn [fst snd catalog kernel script default] in *;
    (split; [assumption|]); try (by split); (split; [first [left; exact Hl|left; intros nm; reflexivity|right; reflexivity]|]); intros Hc;
    try (exfalso; clear -Hc; simpl in Hc; lia); first [right; by split|left; split; first [exact Hl|intros nm; reflexivity|left; reflexivity|right; reflexivity]].
Qed.

(** A change [f] of the services: done, refused, or half done after two faults. *)
Definition changed (tier : rstr) (n : Node) (f : rstr -> option ServiceSpec) (ok : bool) (n' : Node) : Prop :=
  node_ok tier n' /\
  if ok then kernel n' = catalog n' /\ forall nm, service n' nm = f nm
  else ((forall nm, service n' nm = service n nm) \/ (forall nm, service n' nm = f nm)) /\
       (one_fault n ->
        (forall nm, service n' nm = service n nm) /\ (kernel n' = kernel n \/ kernel n' = catalog n') \/
        head (script n) = Some FailAfter /\ (forall nm, service n' nm = f nm) /\ kernel n' = kernel n).

Lemma unchanged tier n f : node_ok tier n -> changed tier n f false n.
Proof. intros Hn. split; [done|]. split; [by left|]. intros _. left. split; [done|by left]. Qed.

Lemma commit_changed tier previous desired n f : node_ok tier n -> previous ≡ₚ specs_of n -> catalog_ok tier desired -> (forall nm, lookup_spec nm desired = f nm) ->
  match commit_catalog previous desired n with (Ok _, n') => changed tier n f true n' | (Err _, n') => changed tier n f false n' | _ => False end.
Proof.
  intros Hn Hp Hd Hf. pose proof (commit_spec tier previous desired n Hn Hp Hd) as H. destruct (commit_catalog previous desired n) as [[[]|e| |] n']; cbn [fst snd] in H; [| |by destruct H..].
  - destruct H as (H1 & H2 & H3). split; [done|]. split; [congruence|]. intros nm. unfold service, specs_of. by rewrite H2.
  - destruct H as (H1 & H2 & H3). assert (catalog n' = Some desired -> forall nm, service n' nm = f nm) as Hs.
    { intros E nm. unfold service, specs_of. by rewrite E. }
    split; [done|]. split; [destruct H2 as [H2|H2]; auto|]. intros [H|(H4 & H5 & H6)]%H3; [by left|right]. auto.
Qed.

(** C23: a change of a service is a transaction: on a valid catalog [upsert] adds or
    replaces the one service and leaves the others, and reports success only with
    file and kernel both at the new catalog; a refused or failed change leaves a
    valid catalog, that of before or that of after; and when a single step fails it
    leaves the old one, to which the kernel is brought back, with one exception: when
    the first step is the one that fails and it is the sync of the directory after the
    rename ([FailAfter]), the call fails with the new catalog in the file and the kernel
    not told.  Names, frontends and service ids stay unique and the BPF maps within the
    capacity of the tier. *)
Theorem upsert_transaction tier spec n : node_ok tier n ->
  let f nm := if decide (nm = name spec) then Some spec else service n nm in
  match upsert tier spec n with (Ok _, n') => changed tier n f true n' | (Err _, n') => changed tier n f false n' | _ => False end.
Proof.
  intros Hn f. unfold upsert. destruct (validate spec); cbn [negb]; [|by apply unchanged]. destruct (list_services_spec tier n Hn) as (l & E & Hp).
  unfold bind. rewrite E. destruct (validate_catalog _ tier) eqn:Hv; cbn [negb]; [|by apply unchanged]. apply validate_catalog_ok in Hv.
  apply commit_changed; [done|done|done|]. intros nm. rewrite lookup_put. unfold f. case_decide; [done|]. apply lookup_perm; [|done]. rewrite Hp. apply Hn.
Qed.

Lemma sublist_equal {A} (l l' : list A) : l `sublist_of` l' -> (length l' <= length l)%nat -> l = l'.
Proof.
  induction 1 as [|a l l' Hs IH|a l l' Hs IH]; simpl; intros H; [done|f_equal; apply IH; lia|]. apply sublist_length in Hs. lia.
Qed.

(** [delete], in the same terms; [Ok false] is a name the catalog does not have. *)
Lemma delete_transaction tier x n : node_ok tier n ->
  let f nm := if decide (nm = x) then None else service n nm in
  match delete tier x n with
  | (Ok true, n') => changed tier n f true n'
  | (Ok false, n') => n' = n /\ service n x = None
  | (Err _, n') => changed tier n f false n'
  | _ => False
  end.
Proof.
  intros Hn f. unfold delete. destruct (list_services_spec tier n Hn) as (l & E & Hp). unfold bind. rewrite E.
  assert (catalog_ok tier l) as Hl by (by eapply catalog_perm; [symmetry|]).
  set (l' := List.filter _ l). destruct (length l' =? length l)%nat eqn:El.
  - simpl. split; [done|]. apply Nat.eqb_eq in El. assert (l' = l) as Hll.
    { apply sublist_equal; [apply sublist_filter|lia]. }
    pose proof (lookup_filter x x l) as H. fold l' in H. rewrite Hll, decide_True in H by done. unfold service. rewrite <- H. symmetry. apply lookup_perm; [apply Hl|done].
  - pose proof (commit_changed tier l l' n f Hn Hp (catalog_filter tier _ l Hl)) as Hc. unfold bind.
    assert (forall nm, lookup_spec nm l' = f nm) as Hf.
    { intros nm. unfold l'. rewrite lookup_filter. unfold f. case_decide; [done|]. apply lookup_perm; [|done]. rewrite Hp. apply Hn. }
    specialize (Hc Hf). by destruct (commit_catalog l l' n) as [[[]|e| |] n'].
Qed.

Definition empty_node : Node := MkNode None None [Fine; FailBefore].

Lemma upsert_transaction_witness :
  exists n', upsert (bstr "S") two_backends empty_node = (Err Network, n') /\ (forall nm, service n' nm = None) /\ node_ok (bstr "S") n'.
Proof.
  assert (node_ok (bstr "S") empty_node) as Hn by (apply validate_catalog_ok; vm_compute; reflexivity).
  pose proof (upsert_transaction (bstr "S") two_backends empty_node Hn) as H.
  assert ((upsert (bstr "S") two_backends empty_node).1 = Err Network) as E by (vm_compute; reflexivity).
  destruct (upsert (bstr "S") two_backends empty_node) as [r n']. cbn [fst] in E. subst r. exists n'. split; [reflexivity|]. destruct H as (H1 & H2 & H3).
  split; [|exact H1]. destruct H3 as [[H3 _]|[H3 _]]; [vm_compute; lia|exact H3|done].
Defined.

(** The directory cannot be synced after the rename: an error, with the new catalog in
    place and the kernel not told. *)
Lemma synced_too_late :
  let r := upsert (bstr "S") two_backends (MkNode None None [FailAfter]) in
  r.1 = Err Io /\ catalog r.2 = Some [two_backends] /\ kernel r.2 = None.
Proof. cbv zeta. split_and!; vm_compute; reflexivity. Qed.

(** ** Health *)

(** A sweep flips a backend only at its threshold of probes in a row. *)
Fixpoint probes (policy : ServiceHealthCheck) (ups : list bool) (r : BackendHealthStatus) : BackendHealthStatus :=
  match ups with [] => r | u :: ups => probes policy ups (probe_record policy u r) end.

Lemma probes_down policy n r : (consecutive_failures r + N.of_nat n < 2 ^ 32) -> unhealthy_threshold policy <= consecutive_failures r + N.of_nat n -> (0 < n)%nat ->
  healthy (probes policy (repeat false n) r) = false.
Proof.
  revert r. induction n as [|n IH]; intros r Hb Ht Hn; [lia|]. cbn [repeat probes]. destruct n as [|n].
  - cbn [repeat probes]. unfold probe_record. cbn [healthy]. assert (U.saturating_add 32 (consecutive_failures r) 1 = consecutive_failures r + 1) as -> by (unfold U.saturating_add, U.max; simpl in *; lia).
    by rewrite (proj2 (N.leb_le _ _)) by lia.
  - apply IH; [| |lia]; unfold probe_record; cbn [consecutive_failures]; unfold U.saturating_add, U.max; simpl in *; lia.
Qed.

(** Health is kept by the position of a backend, not by its address: a new backend
    in the place of an unhealthy one is taken out of the table before any probe. *)
Lemma health_follows_position :
  let old := [MkHealth (bstr "web") 1 (V4 [10; 0; 0; 2]) 80 false 0 3] in
  let spec := spec_of [ready_backend 1 1; ready_backend 99 1] in
  let n := MkNode (Some [spec]) None [] in
  match effective_catalog (bstr "S") old n with
  | (Ok [s], _) => map b_state (backends s) = [Ready; Unhealthy] /\ map address (backends s) = [V4 [10; 0; 0; 1]; V4 [10; 0; 0; 99]]
  | _ => False
  end.
Proof. by vm_compute. Qed.

(** Health only takes ready backends out; what the operator drained stays. *)
Lemma demote_only bad bs i j b : demote bad i bs !! j = Some b -> exists b0, bs !! j = Some b0 /\ (b = b0 \/ (is_ready b0 = true /\ bad (i + j)%nat = true /\ b_state b = Unhealthy)).
Proof.
  revert i j. induction bs as [|c bs IH]; intros i [|j] Hb; try done; simpl in Hb.
  - exists c. split; [done|]. destruct (is_ready c && bad i) eqn:E; injection Hb as <-; [right|by left]. apply andb_true_iff in E as [E1 E2]. by rewrite Nat.add_0_r.
  - destruct (IH (S i) j Hb) as (b0 & H1 & H2). exists b0. split; [done|]. by replace (i + S j)%nat with (S i + j)%nat by lia.
Qed.
