(* ===== verification/LbMaps.v ===== *)
(** * The BPF maps of the load balancer

    [crates/fluxvm-network/src/service.rs]: the contents of the maps the data plane
    reads ([desired_intent_maps]), and bringing the kernel's maps to them behind a
    guard ([reconcile_one_map], [populate_maps]).

    A map is a finite map from key bytes to value bytes; an update or deletion in the
    kernel takes one answer of a script ([true]: it fails and changes nothing). *)

From stdpp Require Import prelude list strings gmap.
From Stdlib Require Import NArith Lia.
From S2P Require Import Prelude RustStr LbService Maglev LbCatalog.

Abbreviation BpfMap := (gmap bytes bytes).

Record DesiredMaps := MkMaps { svc4 : BpfMap; svc6 : BpfMap; backend4 : BpfMap; backend6 : BpfMap; maglev : BpfMap; snat4 : BpfMap; snat6 : BpfMap }.
Definition no_maps : DesiredMaps := MkMaps ∅ ∅ ∅ ∅ ∅ ∅ ∅.

Definition SERVICE_F_HOST_ROUTING : u8 := 1.

(** [struct svc_value]: 24 bytes. *)
Definition desired_service_value (s : ServiceSpec) (sid tsize : u32) : option bytes :=
  rate ← match max_egress_mbps s with
         | Some mbps => (fun v => v / 8) <$> U.checked_mul 64 mbps 1000000
         | None => Some 0
         end;
  Some (le_bytes 4 sid ++ le_bytes 4 tsize ++ le_bytes 8 rate ++ le_bytes 4 (flow_sample_rate s) ++ [mode_wire (mode s)] ++
        [if host_routing s then SERVICE_F_HOST_ROUTING else 0] ++ le_bytes 2 0).

Definition octets (a : IpAddr) : bytes := match a with V4 o | V6 o => o end.
Definition svc_key (a : IpAddr) (p : u16) (pr : ServiceProtocol) : bytes := octets a ++ le_bytes 2 p ++ [ip_proto pr] ++ [0].
Definition pair_key (sid : u32) (i : nat) : bytes := le_bytes 4 sid ++ le_bytes 4 (N.of_nat i).
Definition backend_value (b : ServiceBackend) : bytes := octets (address b) ++ le_bytes 2 (b_port b) ++ le_bytes 2 (wire_flags (b_state b)).

Definition put_service (s : ServiceSpec) (value : bytes) (m : DesiredMaps) : DesiredMaps :=
  match vip s with
  | V4 _ => MkMaps (<[svc_key (vip s) (port s) (protocol s) := value]> (svc4 m)) (svc6 m) (backend4 m) (backend6 m) (maglev m) (snat4 m) (snat6 m)
  | V6 _ => MkMaps (svc4 m) (<[svc_key (vip s) (port s) (protocol s) := value]> (svc6 m)) (backend4 m) (backend6 m) (maglev m) (snat4 m) (snat6 m)
  end.

Fixpoint put_backends (sid : u32) (i : nat) (bs : list ServiceBackend) (m : DesiredMaps) : DesiredMaps :=
  match bs with
  | [] => m
  | b :: bs =>
      put_backends sid (S i) bs
        (if negb (enabled b) then m
         else match address b with
              | V4 _ => MkMaps (svc4 m) (svc6 m) (<[pair_key sid i := backend_value b]> (backend4 m)) (backend6 m) (maglev m) (snat4 m) (snat6 m)
              | V6 _ => MkMaps (svc4 m) (svc6 m) (backend4 m) (<[pair_key sid i := backend_value b]> (backend6 m)) (maglev m) (snat4 m) (snat6 m)
              end)
  end.

Definition put_snat (s : ServiceSpec) (sid : u32) (m : DesiredMaps) : DesiredMaps :=
  match snat_address s with
  | None => m
  | Some (V4 o) => MkMaps (svc4 m) (svc6 m) (backend4 m) (backend6 m) (maglev m) (<[le_bytes 4 sid := o ++ le_bytes 4 1]> (snat4 m)) (snat6 m)
  | Some (V6 o) => MkMaps (svc4 m) (svc6 m) (backend4 m) (backend6 m) (maglev m) (snat4 m) (<[le_bytes 4 sid := o ++ le_bytes 4 1]> (snat6 m))
  end.

Fixpoint put_table (sid : u32) (i : nat) (t : list nat) (m : DesiredMaps) : DesiredMaps :=
  match t with
  | [] => m
  | b :: t =>
      put_table sid (S i) t
        (MkMaps (svc4 m) (svc6 m) (backend4 m) (backend6 m) (<[pair_key sid i := le_bytes 4 (N.of_nat b)]> (maglev m)) (snat4 m) (snat6 m))
  end.

(** What a service adds to the maps. *)
Definition put_spec_maps (s : ServiceSpec) (m : DesiredMaps) : outcome DesiredMaps :=
  let sid := service_id (name s) in
  match maglev_table s with
  | Ok table =>
      match desired_service_value s sid (U.wrap 32 (lenN table)) with
      | None => Err Network
      | Some value => Ok (put_table sid 0 table (put_snat s sid (put_backends sid 0 (backends s) (put_service s value m))))
      end
  | Err e => Err e | Panic => Panic | Loop => Loop
  end.

Fixpoint desired_from (specs : list ServiceSpec) (m : DesiredMaps) : outcome DesiredMaps :=
  match specs with
  | [] => Ok m
  | s :: specs => match put_spec_maps s m with Ok m => desired_from specs m | Err e => Err e | Panic => Panic | Loop => Loop end
  end.

Definition desired_intent_maps (specs : list ServiceSpec) : outcome DesiredMaps := desired_from specs no_maps.

(** ** Bringing the kernel's maps up to date *)

(** The maps in the order of their names, the guard and the answers to come. *)
Record Kernel := MkKernel { kmaps : list BpfMap; sguard : N; kfaults : list bool }.

Definition kernel_op : M Kernel () := fun k =>
  match kfaults k with
  | true :: f => (Err Network, MkKernel (kmaps k) (sguard k) f)
  | _ :: f => (Ok tt, MkKernel (kmaps k) (sguard k) f)
  | [] => (Ok tt, k)
  end.

Definition on_map (i : nat) (f : BpfMap -> BpfMap) : M Kernel () := modify (fun k => MkKernel (alter f i (kmaps k)) (sguard k) (kfaults k)).
Definition map_update (i : nat) (key value : bytes) : M Kernel () := do! kernel_op in on_map i <[key := value]>.
Definition map_delete (i : nat) (key : bytes) : M Kernel () := do! kernel_op in on_map i (base.delete key).
Definition set_guard (v : N) : M Kernel () := do! kernel_op in modify (fun k => MkKernel (kmaps k) v (kfaults k)).

Fixpoint each {A} (f : A -> M Kernel ()) (l : list A) : M Kernel () :=
  match l with [] => ret tt | a :: l => do! f a in each f l end.

(** The dump of a map is one more call that can fail. *)
Definition reconcile_one_map (i : nat) (desired : BpfMap) : M Kernel () :=
  do! kernel_op in
  let! k := Prelude.get in
  let existing := default ∅ (kmaps k !! i) in
  do! each (map_delete i) (List.filter (fun key => negb (bool_decide (is_Some (desired !! key)))) (map fst (map_to_list existing))) in
  each (fun kv : bytes * bytes => if bool_decide (existing !! kv.1 = Some kv.2) then ret tt else map_update i kv.1 kv.2) (map_to_list desired).

Fixpoint reconcile_all (i : nat) (ds : list BpfMap) : M Kernel () :=
  match ds with [] => ret tt | d :: ds => do! reconcile_one_map i d in reconcile_all (S i) ds end.

(** [BTreeMap] order of the names of the maps. *)
Definition in_order (m : DesiredMaps) : list BpfMap := [backend4 m; backend6 m; maglev m; snat4 m; snat6 m; svc4 m; svc6 m].

Definition populate_maps (specs : list ServiceSpec) : M Kernel () :=
  do! set_guard 1 in
  let! desired := lift (desired_intent_maps specs) in
  do! reconcile_all 0 (in_order desired) in
  set_guard 0.

(** ** Reconciliation *)

Definition cur (i : nat) (k : Kernel) : BpfMap := default ∅ (kmaps k !! i).

(** Only map [i] has changed. *)
Definition only_map (i : nat) (k k' : Kernel) : Prop :=
  length (kmaps k') = length (kmaps k) /\ sguard k' = sguard k /\ forall j, j <> i -> kmaps k' !! j = kmaps k !! j.

Lemma only_map_trans i a b c : only_map i a b -> only_map i b c -> only_map i a c.
Proof. intros (A1 & A2 & A3) (B1 & B2 & B3). split_and!; [congruence|congruence|]. intros j Hj. by rewrite B3, A3. Qed.

Lemma kernel_op_cases k : exists r k', kernel_op k = (r, k') /\ kmaps k' = kmaps k /\ sguard k' = sguard k /\ (r = Ok tt \/ r = Err Network).
Proof. unfold kernel_op. destruct (kfaults k) as [|[] f]; eexists _, _; (split; [reflexivity|]); auto. Qed.

(** One call on map [i] that applies [f] when it works. *)
Definition applies (i : nat) (f : BpfMap -> BpfMap) (m : M Kernel ()) : Prop :=
  forall k, match m k with
  | (Ok _, k') => only_map i k k' /\ ((i < length (kmaps k))%nat -> cur i k' = f (cur i k))
  | (Err _, k') => only_map i k k'
  | _ => False
  end.

Lemma applies_call i f : applies i f (do! kernel_op in on_map i f).
Proof.
  intros k. unfold bind. destruct (kernel_op_cases k) as (r & k1 & -> & H1 & H2 & [-> | ->]); cbn.
  - split; [split_and!; cbn; [by rewrite length_alter, H1|done|]|].
    + intros j Hj. by rewrite list_lookup_alter_ne, H1.
    + intros Hi. unfold cur. cbn. rewrite list_lookup_alter_eq, H1. destruct (lookup_lt_is_Some_2 (kmaps k) i Hi) as [m ->]. done.
  - split_and!; by rewrite ?H1.
Qed.

Lemma applies_ret i : applies i id (ret tt).
Proof. intros k. split; [by split_and!|done]. Qed.

Lemma applies_bind i f g m m' : applies i f m -> applies i g m' -> applies i (fun x => g (f x)) (do! m in m').
Proof.
  intros Hm Hm' k. unfold bind. specialize (Hm k). destruct (m k) as [[[]|e| |] k1]; try done. destruct Hm as [H1 H2].
  specialize (Hm' k1). destruct (m' k1) as [[[]|e| |] k2]; try done.
  - destruct Hm' as [H3 H4]. split; [by eapply only_map_trans|]. intros Hi. rewrite H4, H2; [done|done|]. destruct H1 as [-> _]. done.
  - by eapply only_map_trans.
Qed.

Lemma applies_ext i f g m : (forall x, f x = g x) -> applies i f m -> applies i g m.
Proof. intros E H k. specialize (H k). destruct (m k) as [[[]|e| |] k']; try done. destruct H as [H1 H2]. split; [done|]. intros Hi. by rewrite <- E, <- H2. Qed.

Lemma applies_each {A} (i : nat) (f : A -> BpfMap -> BpfMap) (op : A -> M Kernel ()) (l : list A) : (forall a, applies i (f a) (op a)) ->
  applies i (fun x => fold_left (fun x a => f a x) l x) (each op l).
Proof. intros H. induction l as [|a l IH]; [apply applies_ret|]. exact (applies_bind i (f a) _ _ _ (H a) IH). Qed.

(** What the two loops make of a map. *)
Definition reconciled (desired existing : BpfMap) : BpfMap :=
  fold_left (fun x kv => if bool_decide (existing !! kv.1 = Some kv.2) then x else <[kv.1 := kv.2]> x) (map_to_list desired)
    (fold_left (fun x key => base.delete key x) (List.filter (fun key => negb (bool_decide (is_Some (desired !! key)))) (map fst (map_to_list existing))) existing).

Lemma fold_delete_lookup (l : list bytes) (x : BpfMap) key : fold_left (fun x k => base.delete k x) l x !! key = if decide (key ∈ l) then None else x !! key.
Proof.
  revert x. induction l as [|k l IH]; intros x; [done|]. cbn [fold_left]. rewrite IH. repeat case_decide; try set_solver.
  - assert (key = k) as -> by set_solver. apply lookup_delete_eq.
  - rewrite lookup_delete_ne; [done|set_solver].
Qed.

Lemma fold_update_lookup (existing : BpfMap) (l : list (bytes * bytes)) (x : BpfMap) key : NoDup (map fst l) ->
  fold_left (fun x kv => if bool_decide (existing !! kv.1 = Some kv.2) then x else <[kv.1 := kv.2]> x) l x !! key =
  match list_to_map (M := BpfMap) l !! key with
  | Some v => if bool_decide (existing !! key = Some v) then x !! key else Some v
  | None => x !! key
  end.
Proof.
  revert x. induction l as [|[k v] l IH]; intros x Hn; [by rewrite list_to_map_nil, lookup_empty|]. rewrite list_to_map_cons. cbn [fold_left fst snd]. simpl in Hn.
  apply NoDup_cons in Hn as [Hk Hn]. rewrite IH by done. destruct (decide (k = key)) as [->|Hne].
  - rewrite lookup_insert_eq. assert (list_to_map (M := BpfMap) l !! key = None) as -> by (by apply not_elem_of_list_to_map_1).
    case_bool_decide; [done|]. by rewrite lookup_insert_eq.
  - rewrite lookup_insert_ne by done. assert ((if bool_decide (existing !! k = Some v) then x else <[k := v]> x) !! key = x !! key) as ->; [|done].
    case_bool_decide; [done|]. by rewrite lookup_insert_ne.
Qed.

Lemma reconciled_desired desired existing : reconciled desired existing = desired.
Proof.
  apply map_eq. intros key. unfold reconciled. rewrite fold_update_lookup by apply NoDup_fst_map_to_list. rewrite list_to_map_to_list, fold_delete_lookup.
  destruct (desired !! key) as [v|] eqn:Ed.
  - case_bool_decide as E; [|done]. rewrite decide_False; [done|]. intros Hin. apply list_elem_of_In, filter_In in Hin as [_ Hin]. rewrite Ed in Hin. by rewrite bool_decide_true in Hin.
  - case_decide as Hin; [done|]. destruct (existing !! key) as [w|] eqn:Ee; [|done]. exfalso. apply Hin, list_elem_of_In, filter_In. split.
    + apply list_elem_of_In. change key with (key, w).1. apply list_elem_of_fmap_2. by apply elem_of_map_to_list.
    + rewrite Ed. by rewrite bool_decide_false by (by intros []).
Qed.

Lemma reconcile_applies i desired : applies i (fun _ => desired) (reconcile_one_map i desired).
Proof.
  intros k. unfold reconcile_one_map. unfold bind at 1. destruct (kernel_op_cases k) as (r & k1 & -> & H1 & H2 & [-> | ->]); [|split_and!; by rewrite ?H1].
  unfold bind at 1. change (Prelude.get k1) with (Ok k1, k1). cbv iota. set (existing := default ∅ (kmaps k1 !! i)).
  pose proof (applies_bind i _ _ _ _
    (applies_each i (fun key x => base.delete key x) (map_delete i)
       (List.filter (fun key => negb (bool_decide (is_Some (desired !! key)))) (map fst (map_to_list existing))) (fun key => applies_call i (base.delete key)))
    (applies_each i (fun kv x => if bool_decide (existing !! kv.1 = Some kv.2) then x else <[kv.1 := kv.2]> x)
       (fun kv : bytes * bytes => if bool_decide (existing !! kv.1 = Some kv.2) then ret tt else map_update i kv.1 kv.2) (map_to_list desired)
       ltac:(intros [a b]; cbn; case_bool_decide; [exact (applies_ret i)|exact (applies_call i <[a := b]>)])) k1) as Ha.
  assert (only_map i k k1) as Hk by (split_and!; intros; by rewrite ?H1).
  destruct (bind _ _ k1) as [[[]|e| |] k2]; try done.
  - destruct Ha as [A1 A2]. split; [by eapply only_map_trans|]. intros Hi. rewrite A2 by (by rewrite H1). exact (reconciled_desired desired existing).
  - by eapply only_map_trans.
Qed.

Lemma reconcile_all_spec ds i k : length (kmaps k) = (i + length ds)%nat ->
  match reconcile_all i ds k with
  | (Ok _, k') => kmaps k' = take i (kmaps k) ++ ds /\ sguard k' = sguard k
  | (Err _, k') => sguard k' = sguard k /\ length (kmaps k') = length (kmaps k)
  | _ => False
  end.
Proof.
  revert i k. induction ds as [|d ds IH]; intros i k Hl; cbn [reconcile_all].
  - cbn in *. rewrite firstn_all2, app_nil_r by lia. done.
  - unfold bind. pose proof (reconcile_applies i d k) as H. destruct (reconcile_one_map i d k) as [[[]|e| |] k1]; try done; [|by destruct H as (H1 & H2 & _)].
    destruct H as [(H1 & H2 & H3) H4]. simpl in Hl. specialize (H4 ltac:(lia)). specialize (IH (S i) k1 ltac:(lia)).
    destruct (reconcile_all (S i) ds k1) as [[[]|e| |] k2]; try done; [|by destruct IH; split; congruence].
    destruct IH as [-> H5]. split; [|congruence]. destruct (lookup_lt_is_Some_2 (kmaps k1) i ltac:(lia)) as [x Hx].
    rewrite (take_S_r _ _ _ Hx), <- app_assoc. unfold cur in H4. rewrite Hx in H4. simpl in H4. subst x. f_equal.
    apply list_eq. intros j. destruct (decide (j < i)%nat); [rewrite !lookup_take_lt by done; by apply H3; lia|by rewrite !lookup_take_ge by lia].
Qed.


