(* ===== verification/LbRoute.v ===== *)
(** * What the load balancer's maps make of a packet

    The contents of the maps of [crates/fluxvm-network/src/service.rs] as the data
    plane ([bpf/fluxvm_service.bpf.c]) reads them: every service of a valid catalog is
    found under its VIP, port and protocol, its Maglev slots name its backends, and
    the maps are replaced behind a guard that stays closed when a call fails. *)

From stdpp Require Import prelude list strings gmap.
From Stdlib Require Import NArith Lia.
From S2P Require Import Prelude RustStr LbService Maglev LbCatalog LbMaps.

(** ** What the maps hold *)

Definition svc_of (m : DesiredMaps) (a : IpAddr) : BpfMap := if is_ipv4 a then svc4 m else svc6 m.
Definition backend_of (m : DesiredMaps) (a : IpAddr) : BpfMap := if is_ipv4 a then backend4 m else backend6 m.

(** Addresses of four or sixteen octets, ports of sixteen bits. *)
Definition ip_typed (a : IpAddr) : Prop := match a with V4 o => length o = 4%nat | V6 o => length o = 16%nat end.
Definition front_typed (f : IpAddr * u16 * ServiceProtocol) : Prop := ip_typed f.1.1 /\ in_u 16 f.1.2.

Definition key_of_front (f : IpAddr * u16 * ServiceProtocol) : bytes := svc_key f.1.1 f.1.2 f.2.

Lemma svc_key_inj f g : front_typed f -> front_typed g -> is_ipv4 f.1.1 = is_ipv4 g.1.1 -> key_of_front f = key_of_front g -> f = g.
Proof.
  destruct f as [[a p] pr], g as [[b q] qr]. unfold front_typed, key_of_front, svc_key. cbn [fst snd]. intros [Ha Hp] [Hb Hq] Hf E.
  assert (octets a = octets b /\ le_bytes 2 p ++ [ip_proto pr; 0] = le_bytes 2 q ++ [ip_proto qr; 0]) as [E1 E2].
  { apply app_inj_1; [|exact E]. destruct a, b; try done; simpl in *; congruence. }
  apply app_inj_1 in E2 as [E2 E3]; [|by rewrite !length_le_bytes]. apply (f_equal from_le) in E2. rewrite !from_le_bytes_small in E2 by done. subst q.
  assert (pr = qr) as -> by (by destruct pr, qr). destruct a, b; simpl in *; try done; congruence.
Qed.

Lemma pair_key_inj s i t j : in_u 32 s -> in_u 32 t -> in_u 32 (N.of_nat i) -> in_u 32 (N.of_nat j) -> pair_key s i = pair_key t j -> s = t /\ i = j.
Proof.
  unfold pair_key. intros Hs Ht Hi Hj [E1 E2]%app_inj_1; [|by rewrite !length_le_bytes].
  apply (f_equal from_le) in E1, E2. rewrite !from_le_bytes_small in E1, E2 by done. lia.
Qed.

(** The maps of services do not change in the later steps, and the like. *)
Lemma put_table_frame sid t i m : let m' := put_table sid i t m in
  svc4 m' = svc4 m /\ svc6 m' = svc6 m /\ backend4 m' = backend4 m /\ backend6 m' = backend6 m /\ snat4 m' = snat4 m /\ snat6 m' = snat6 m.
Proof. revert i m. induction t as [|b t IH]; intros i m; [done|]. cbn [put_table]. specialize (IH (S i) (MkMaps (svc4 m) (svc6 m) (backend4 m) (backend6 m) (<[pair_key sid i := le_bytes 4 (N.of_nat b)]> (maglev m)) (snat4 m) (snat6 m))). exact IH. Qed.

Lemma put_backends_frame sid bs i m : let m' := put_backends sid i bs m in
  svc4 m' = svc4 m /\ svc6 m' = svc6 m /\ maglev m' = maglev m /\ snat4 m' = snat4 m /\ snat6 m' = snat6 m.
Proof.
  revert i m. induction bs as [|b bs IH]; intros i m; [done|]. cbn [put_backends]. set (m1 := if negb (enabled b) then m else _).
  destruct (IH (S i) m1) as (-> & -> & -> & -> & ->). unfold m1. destruct (negb (enabled b)); [done|]. by destruct (address b).
Qed.

Lemma put_table_lookup sid t i m s j : in_u 32 sid -> in_u 32 s -> in_u 32 (N.of_nat j) -> N.of_nat (i + length t) < 2 ^ 32 ->
  maglev (put_table sid i t m) !! pair_key s j =
  if decide (s = sid /\ (i <= j)%nat /\ (j < i + length t)%nat) then (fun b => le_bytes 4 (N.of_nat b)) <$> t !! (j - i)%nat else maglev m !! pair_key s j.
Proof.
  intros Hsid Hs Hj. revert i m. induction t as [|b t IH]; intros i m Hl; cbn [put_table].
  - rewrite decide_False by (simpl; lia). done.
  - simpl in Hl. rewrite IH by lia. cbn [maglev length]. destruct (decide (s = sid /\ (S i <= j)%nat /\ (j < S i + length t)%nat)) as [(-> & H1 & H2)|Hn].
    + rewrite decide_True by (split_and!; [done|lia|lia]). by replace (j - i)%nat with (S (j - S i)) by lia.
    + destruct (decide (s = sid /\ j = i)) as [[-> ->]|Hn2].
      * rewrite decide_True by (split_and!; [done|lia|lia]). by rewrite lookup_insert_eq, Nat.sub_diag.
      * rewrite decide_False by lia. rewrite lookup_insert_ne; [done|]. intros E. apply pair_key_inj in E as [-> ->]; [by apply Hn2|done|done|unfold in_u; lia|done].
Qed.

(** The entry of a backend. *)
Definition backend_entry (bs : list ServiceBackend) (i : nat) : option bytes :=
  b ← bs !! i; if enabled b then Some (backend_value b) else None.

Lemma put_backends_lookup (v4 : bool) sid bs i m s j : in_u 32 sid -> in_u 32 s -> in_u 32 (N.of_nat j) -> N.of_nat (i + length bs) < 2 ^ 32 ->
  Forall (fun b => is_ipv4 (address b) = v4) bs ->
  (if v4 then backend4 (put_backends sid i bs m) else backend6 (put_backends sid i bs m)) !! pair_key s j =
  match (if decide (s = sid /\ (i <= j)%nat) then backend_entry bs (j - i) else None) with
  | Some v => Some v
  | None => (if v4 then backend4 m else backend6 m) !! pair_key s j
  end.
Proof.
  intros Hsid Hs Hj Hl Hf. revert i m Hl. induction Hf as [|b bs Hb Hf IH]; intros i m Hl; cbn [put_backends].
  - case_decide; [|done]. by unfold backend_entry; rewrite lookup_nil.
  - simpl in Hl. rewrite IH by lia. clear IH. set (m1 := if negb (enabled b) then m else _).
    assert ((if v4 then backend4 m1 else backend6 m1) = if enabled b then <[pair_key sid i := backend_value b]> (if v4 then backend4 m else backend6 m) else (if v4 then backend4 m else backend6 m)) as ->.
    { unfold m1. destruct (enabled b); [|done]. cbn [negb]. destruct (address b); simpl in Hb; subst v4; done. }
    destruct (decide (s = sid /\ j = i)) as [[-> ->]|Hn].
    + rewrite (decide_False (P := sid = sid /\ (S i <= i)%nat)) by lia. rewrite decide_True by lia. unfold backend_entry. rewrite Nat.sub_diag. simpl.
      destruct (enabled b); [by rewrite lookup_insert_eq|done].
    + assert ((if enabled b then <[pair_key sid i := backend_value b]> (if v4 then backend4 m else backend6 m) else (if v4 then backend4 m else backend6 m)) !! pair_key s j = (if v4 then backend4 m else backend6 m) !! pair_key s j) as ->.
      { destruct (enabled b); [|done]. rewrite lookup_insert_ne; [done|]. intros E. apply pair_key_inj in E as [-> ->]; [by apply Hn|done|done|unfold in_u; lia|done]. }
      destruct (decide (s = sid /\ (S i <= j)%nat)) as [[-> H1]|Hn2].
      * rewrite decide_True by lia. unfold backend_entry. by replace (j - i)%nat with (S (j - S i)) by lia.
      * rewrite decide_False; [done|]. intros [-> H1]. apply Hn2. split; [done|]. destruct (decide (j = i)); [by destruct Hn|lia].
Qed.

(** ** One service *)

Lemma service_id_u32 nm : in_u 32 (service_id nm).
Proof.
  unfold service_id. generalize (as_bytes nm). clear nm. intros nm. assert (forall h, in_u 32 h -> in_u 32 (fold_left (fun h b => U.mul 32 (N.lxor h b) 0x01000193) nm h)) as Hf.
  { induction nm as [|b nm IH]; intros h Hh; [done|]. cbn [fold_left]. apply IH. apply N.mod_lt. discriminate. }
  specialize (Hf 0x811c9dc5 ltac:(done)). unfold in_u in *. lia.
Qed.

Lemma valid_families s : validate s = true -> Forall (fun b => is_ipv4 (address b) = is_ipv4 (vip s)) (backends s) /\ (length (backends s) <= 128)%nat.
Proof.
  unfold validate. rewrite !andb_true_iff, !negb_true_iff, !N.ltb_ge. intros H. split.
  - assert (forallb (valid_backend s) (backends s) = true) as Hf by tauto. rewrite forallb_forall in Hf. apply Forall_forall. intros b Hb%list_elem_of_In.
    specialize (Hf b Hb). unfold valid_backend in Hf. rewrite !andb_true_iff in Hf. destruct Hf as [[[[_ Hf] _] _] _]. by apply Bool.eqb_prop.
  - assert (lenN (backends s) <= MAX_BACKENDS) as Hl by tauto. unfold lenN, MAX_BACKENDS in Hl. lia.
Qed.

Lemma table_size_bound s : validate s = true -> table_size s <= 16381.
Proof.
  unfold validate. rewrite !andb_true_iff. intros [_ H]. apply existsb_exists in H as (x & Hx & ->%N.eqb_eq).
  assert (forallb (fun x => x <=? 16381) ALLOWED_MAGLEV_TABLE_SIZES = true) as Ha by (vm_compute; reflexivity).
  rewrite forallb_forall in Ha. by apply N.leb_le, Ha.
Qed.

(** A valid service has a table and a value. *)
Lemma table_total s : validate s = true -> exists t, maglev_table s = Ok t /\ lenN t = maglev_entries s.
Proof.
  intros Hv. unfold maglev_entries. destruct (decide (total_weight (backends s) = O)) as [Hz|Hz].
  - exists []. pose proof (length_virtuals 0 (backends s)) as Hl. rewrite Hz in Hl. split.
    + unfold maglev_table. rewrite Hv. by destruct (virtuals_from 0 (backends s)).
    + destruct (existsb is_ready (backends s)) eqn:E; [|done]. apply existsb_exists in E as (b & Hb%list_elem_of_In & Hr).
      pose proof (valid_weight s b Hv Hb Hr). pose proof (total_zero _ Hz) as Hf. rewrite Forall_forall in Hf. specialize (Hf b Hb). lia.
  - destruct (maglev_counts s Hv Hz) as (t & Ht & Hl & _). exists t. split; [done|]. rewrite Hl. destruct (existsb is_ready (backends s)) eqn:E; [done|]. exfalso. apply Hz.
    unfold total_weight. clear -E. induction (backends s) as [|b bs IH]; [done|]. simpl in *. apply orb_false_iff in E as [E1 E2]. unfold ready_weight at 1. rewrite E1. by apply IH.
Qed.

Lemma value_total s sid n : validate s = true -> exists v, desired_service_value s sid n = Some v /\ take 4 v = le_bytes 4 sid /\ slice 4 4 v = le_bytes 4 n.
Proof.
  unfold validate. rewrite !andb_true_iff. intros H. unfold desired_service_value.
  assert (exists r, match max_egress_mbps s with Some mbps => (fun v => v / 8) <$> U.checked_mul 64 mbps 1000000 | None => Some 0 end = Some r) as [r ->].
  { revert H. destruct (max_egress_mbps s) as [v|]; intros H; [|by exists 0]. assert (negb (v =? 0) && negb (1000000 <? v) = true) as Hb by tauto.
    apply andb_true_iff in Hb as [_ Hb]. apply negb_true_iff, N.ltb_ge in Hb. unfold U.checked_mul. rewrite (proj2 (N.ltb_lt _ _)); [by eexists|]. change (2 ^ 64) with 18446744073709551616. lia. }
  eexists. split; [reflexivity|]. split.
  - exact (take_app_length' (le_bytes 4 sid) _ 4 (length_le_bytes 4 sid)).
  - unfold slice. rewrite (drop_app_length' (le_bytes 4 sid) _ 4 (length_le_bytes 4 sid)). exact (take_app_length' (le_bytes 4 n) _ 4 (length_le_bytes 4 n)).
Qed.

Lemma put_backends_other (v4 : bool) sid bs i m : Forall (fun b => is_ipv4 (address b) = v4) bs ->
  (if v4 then backend6 (put_backends sid i bs m) else backend4 (put_backends sid i bs m)) = if v4 then backend6 m else backend4 m.
Proof.
  intros Hf. revert i m. induction Hf as [|b bs Hb Hf IH]; intros i m; [done|]. cbn [put_backends]. rewrite IH. destruct (enabled b); [|done]. cbn [negb].
  destruct (address b); simpl in Hb; by subst v4.
Qed.

(** The maps serve [s]. *)
Record serves (m : DesiredMaps) (s : ServiceSpec) (t : list nat) : Prop := {
  sv_value : exists v, svc_of m (vip s) !! key_of_front (frontend s) = Some v /\ take 4 v = le_bytes 4 (service_id (name s)) /\ from_le (slice 4 4 v) = lenN t;
  sv_backend : forall j v, in_u 32 (N.of_nat j) -> backend_entry (backends s) j = Some v -> backend_of m (vip s) !! pair_key (service_id (name s)) j = Some v;
  sv_table : forall j b, t !! j = Some b -> maglev m !! pair_key (service_id (name s)) j = Some (le_bytes 4 (N.of_nat b)) }.

Lemma svc_put s v m f : front_typed (frontend s) -> front_typed f ->
  svc_of (put_service s v m) f.1.1 !! key_of_front f = if decide (f = frontend s) then Some v else svc_of m f.1.1 !! key_of_front f.
Proof.
  intros Hs Hf. unfold svc_of, put_service. case_decide as E.
  - subst f. cbn [frontend fst]. unfold key_of_front. cbn [frontend fst snd]. destruct (vip s); simpl; by rewrite lookup_insert_eq.
  - assert (is_ipv4 f.1.1 = is_ipv4 (vip s) -> key_of_front (frontend s) <> key_of_front f) as Hne.
    { intros Hfam Ek. apply E. symmetry. apply svc_key_inj; [done|done|by symmetry|done]. }
    change (svc_key (vip s) (port s) (protocol s)) with (key_of_front (frontend s)).
    destruct (vip s), (is_ipv4 f.1.1); simpl in *; try done; rewrite lookup_insert_ne; auto.
Qed.

Lemma put_spec_ok s m : validate s = true -> front_typed (frontend s) ->
  exists t m', maglev_table s = Ok t /\ put_spec_maps s m = Ok m' /\ serves m' s t /\
    (forall f, front_typed f -> f <> frontend s -> svc_of m' f.1.1 !! key_of_front f = svc_of m f.1.1 !! key_of_front f) /\
    (forall s' t', front_typed (frontend s') -> validate s' = true -> frontend s' <> frontend s -> service_id (name s') <> service_id (name s) ->
       lenN t' <= 16381 -> serves m s' t' -> serves m' s' t').
Proof.
  intros Hv Hty. destruct (table_total s Hv) as (t & Ht & Hl). pose proof (table_size_bound s Hv) as Hsz.
  assert (lenN t <= 16381) as Hlt by (rewrite Hl; unfold maglev_entries; destruct (existsb _ _); lia).
  destruct (value_total s (service_id (name s)) (U.wrap 32 (lenN t)) Hv) as (v & Ev & Hv1 & Hv2).
  destruct (valid_families s Hv) as [Hfam Hlen]. pose proof (service_id_u32 (name s)) as Hid. set (sid := service_id (name s)) in *.
  unfold put_spec_maps. fold sid. rewrite Ht, Ev. eexists t, _. split; [done|]. split; [reflexivity|].
  set (m1 := put_service s v m). set (m2 := put_backends sid 0 (backends s) m1). set (m3 := put_snat s sid m2). set (m4 := put_table sid 0 t m3).
  destruct (put_table_frame sid t 0 m3) as (A1 & A2 & A3 & A4 & _). fold m4 in A1, A2, A3, A4.
  assert (svc4 m3 = svc4 m2 /\ svc6 m3 = svc6 m2 /\ backend4 m3 = backend4 m2 /\ backend6 m3 = backend6 m2 /\ maglev m3 = maglev m2) as (B1 & B2 & B3 & B4 & B5)
    by (unfold m3, put_snat; destruct (snat_address s) as [[]|]; done).
  destruct (put_backends_frame sid (backends s) 0 m1) as (C1 & C2 & C3 & _). fold m2 in C1, C2, C3.
  assert (forall a, svc_of m4 a = svc_of (put_service s v m) a) as Hsvc by (intros a; fold m1; unfold svc_of; by rewrite A1, A2, B1, B2, C1, C2).
  assert (forall a, backend_of m4 a = backend_of m2 a) as Hback by (intros a; unfold backend_of; by rewrite A3, A4, B3, B4).
  assert (forall a, backend_of m1 a = backend_of m a) as Hb1 by (intros a; unfold backend_of, m1, put_service; by destruct (vip s)).
  assert (maglev m3 = maglev m) as Hmag by (rewrite B5, C3; unfold m1, put_service; by destruct (vip s)).
  assert (forall q j, in_u 32 q -> in_u 32 (N.of_nat j) -> backend_of m4 (vip s) !! pair_key q j =
    match (if decide (q = sid /\ (0 <= j)%nat) then backend_entry (backends s) (j - 0) else None) with Some w => Some w | None => backend_of m (vip s) !! pair_key q j end) as Hbl.
  { intros q j Hq Hj. rewrite Hback, <- Hb1. apply (put_backends_lookup (is_ipv4 (vip s)) sid (backends s) 0 m1 q j); [done|done|done|lia|done]. }
  assert (forall q j, in_u 32 q -> in_u 32 (N.of_nat j) -> q <> sid -> forall a, backend_of m4 a !! pair_key q j = backend_of m a !! pair_key q j) as Hbo.
  { intros q j Hq Hj Hne a. destruct (decide (is_ipv4 a = is_ipv4 (vip s))) as [E|E].
    - specialize (Hbl q j Hq Hj). rewrite decide_False in Hbl by (by intros []). unfold backend_of in *. by rewrite E.
    - rewrite Hback, <- Hb1. pose proof (put_backends_other (is_ipv4 (vip s)) sid (backends s) 0 m1 Hfam) as Ho. fold m2 in Ho.
      unfold backend_of. destruct (is_ipv4 a), (is_ipv4 (vip s)); try done; by rewrite Ho. }
  assert (forall q j, in_u 32 q -> in_u 32 (N.of_nat j) -> maglev m4 !! pair_key q j =
    if decide (q = sid /\ (0 <= j)%nat /\ (j < 0 + length t)%nat) then (fun b => le_bytes 4 (N.of_nat b)) <$> t !! (j - 0)%nat else maglev m !! pair_key q j) as Hml.
  { intros q j Hq Hj. rewrite <- Hmag. apply put_table_lookup; [done|done|done|unfold lenN in Hlt; simpl; lia]. }
  assert (forall f, front_typed f -> f <> frontend s -> svc_of m4 f.1.1 !! key_of_front f = svc_of m f.1.1 !! key_of_front f) as Hfr
    by (intros f Hf Hne; by rewrite Hsvc, svc_put, decide_False).
  split; [|split; [exact Hfr|]].
  - split.
    + exists v. rewrite Hsvc. change (vip s) with (frontend s).1.1. rewrite svc_put, decide_True by done. split_and!; [done|done|]. rewrite Hv2, from_le_bytes_small.
      * unfold U.wrap. apply N.mod_small. change (2 ^ 32) with 4294967296. lia.
      * apply N.mod_lt. discriminate.
    + intros j w Hj He. rewrite Hbl, decide_True, Nat.sub_0_r, He by (done || lia). done.
    + intros j b Hb. pose proof (lookup_lt_Some _ _ _ Hb) as Hj. assert (in_u 32 (N.of_nat j)) as Hj32 by (unfold in_u, lenN in *; change (2 ^ 32) with 4294967296; lia).
      rewrite Hml by done. rewrite decide_True, Nat.sub_0_r, Hb by lia. done.
  - intros s' t' Hty' Hv' Hne1 Hne2 Ht' [(w & Hw & Hw') H2 H3]. pose proof (service_id_u32 (name s')) as Hid'. split.
    + exists w. split; [|done]. change (vip s') with (frontend s').1.1. by rewrite Hfr.
    + intros j x Hj He. rewrite Hbo by done. by apply H2.
    + intros j b Hb. pose proof (lookup_lt_Some _ _ _ Hb) as Hj. assert (in_u 32 (N.of_nat j)) as Hj32 by (unfold in_u, lenN in *; change (2 ^ 32) with 4294967296; lia).
      rewrite Hml by done. rewrite decide_False by (by intros []). by apply H3.
Qed.

(** ** The whole catalog *)

Lemma desired_from_ok specs m : Forall (fun s => validate s = true) specs -> Forall (fun s => front_typed (frontend s)) specs ->
  NoDup (map frontend specs) -> NoDup (map (fun s => service_id (name s)) specs) ->
  exists m', desired_from specs m = Ok m' /\
    (forall s, s ∈ specs -> exists t, maglev_table s = Ok t /\ serves m' s t) /\
    (forall f, front_typed f -> f ∉ map frontend specs -> svc_of m' f.1.1 !! key_of_front f = svc_of m f.1.1 !! key_of_front f) /\
    (forall s t, front_typed (frontend s) -> validate s = true -> frontend s ∉ map frontend specs -> service_id (name s) ∉ map (fun s => service_id (name s)) specs ->
       lenN t <= 16381 -> serves m s t -> serves m' s t).
Proof.
  revert m. induction specs as [|s specs IH]; intros m Hv Hty Hf Hi.
  { exists m. split_and!; [done|intros s Hs; by apply not_elem_of_nil in Hs|done|done]. }
  inversion_clear Hv as [|? ? Hs Hv']. inversion_clear Hty as [|? ? Hts Hty']. simpl in Hf, Hi. apply NoDup_cons in Hf as [Hf1 Hf]. apply NoDup_cons in Hi as [Hi1 Hi].
  destruct (put_spec_ok s m Hs Hts) as (t & m1 & Ht & E & H1 & H2 & H3). destruct (IH m1 Hv' Hty' Hf Hi) as (m' & E' & G1 & G2 & G3). cbn [desired_from]. rewrite E.
  destruct (table_total s Hs) as (t0 & Ht0 & Hl). assert (t0 = t) as -> by congruence. pose proof (table_size_bound s Hs) as Hsz.
  assert (lenN t <= 16381) as Hlt by (rewrite Hl; unfold maglev_entries; destruct (existsb _ _); lia).
  exists m'. split_and!; [done| | |].
  - intros x [->|Hx]%elem_of_cons; [|by apply G1]. exists t. split; [done|]. by apply G3.
  - intros f Hf' Hn. simpl in Hn. apply not_elem_of_cons in Hn as [Hn1 Hn2]. by rewrite G2, H2.
  - intros x tx Hx1 Hx2 Hx3 Hx4 Hx5 Hx6. simpl in Hx3, Hx4. apply not_elem_of_cons in Hx3 as [Hx3 Hx3']. apply not_elem_of_cons in Hx4 as [Hx4 Hx4'].
    apply G3; [done..|]. by apply H3.
Qed.

Lemma desired_ok tier specs : catalog_ok tier specs -> Forall (fun s => front_typed (frontend s)) specs ->
  exists m, desired_intent_maps specs = Ok m /\ (forall s, s ∈ specs -> exists t, maglev_table s = Ok t /\ serves m s t) /\
    (forall f, front_typed f -> f ∉ map frontend specs -> svc_of m f.1.1 !! key_of_front f = None).
Proof.
  intros [_ H2 _ H4 H5 _ _] Ht. destruct (desired_from_ok specs no_maps H2 Ht H4 H5) as (m & E & A & B & _). exists m. split_and!; [done|done|].
  intros f Hf Hn. rewrite B by done. unfold svc_of. destruct (is_ipv4 _); apply lookup_empty.
Qed.

(** ** The data plane *)

(** What [forward4] and [forward6] of [bpf/fluxvm_service.bpf.c] choose for the first
    packet of a flow (no affinity yet) that the guard and the policy of the service
    let through, by its hash: let it pass, drop it, or send it to a backend. *)
Inductive Verdict := Pass | Shot | To (backend : bytes).

Definition bpf_select (m : DesiredMaps) (a : IpAddr) (p : u16) (pr : ServiceProtocol) (h : u32) : Verdict :=
  match svc_of m a !! svc_key a p pr with
  | None => Pass
  | Some svc =>
      let sid := take 4 svc in
      let tsize := from_le (slice 4 4 svc) in
      if tsize =? 0 then Shot
      else
        match maglev m !! (sid ++ le_bytes 4 (h mod tsize)) with
        | None => Shot
        | Some bid =>
            match backend_of m a !! (sid ++ bid) with
            | None => Shot
            | Some b =>
                let flags := from_le (drop (length b - 2) b) in
                if negb (N.land flags BACKEND_UNHEALTHY =? 0) || (N.land flags BACKEND_READY =? 0) then Shot else To b
            end
        end
  end.

Lemma ready_flags b : b_state b = Ready -> from_le (drop (length (backend_value b) - 2) (backend_value b)) = 1.
Proof.
  intros E. unfold backend_value. rewrite E. rewrite app_assoc, !length_app, !length_le_bytes.
  rewrite drop_app_length' by (rewrite !length_app, !length_le_bytes; lia). done.
Qed.

Lemma is_ready_state b : is_ready b = true -> enabled b = true /\ b_state b = Ready.
Proof. unfold is_ready. intros [H1 H2]%andb_true_iff. by apply bool_decide_eq_true in H2. Qed.

(** C12: the maps route every new flow of a service to one of its ready backends: with
    the maps of a valid catalog in place, whatever the hash of the flow, the data
    plane sends it to an enabled, ready backend of the service whose VIP, port and
    protocol it names, drops it if the service has none, and leaves a packet for any
    other destination alone. *)
Theorem maps_route_ready tier specs m : catalog_ok tier specs -> Forall (fun s => front_typed (frontend s)) specs -> desired_intent_maps specs = Ok m ->
  (forall s h, s ∈ specs -> Exists (fun b => is_ready b = true) (backends s) ->
     exists i b, backends s !! i = Some b /\ is_ready b = true /\ bpf_select m (vip s) (port s) (protocol s) h = To (backend_value b)) /\
  (forall s h, s ∈ specs -> Forall (fun b => is_ready b = false) (backends s) -> bpf_select m (vip s) (port s) (protocol s) h = Shot) /\
  (forall a p pr h, front_typed (a, p, pr) -> (a, p, pr) ∉ map frontend specs -> bpf_select m a p pr h = Pass).
Proof.
  intros Hc Hty Hm. destruct (desired_ok tier specs Hc Hty) as (m' & E & Hs & Hf). assert (m' = m) as -> by congruence.
  assert (forall s (h : u32), s ∈ specs -> exists t, maglev_table s = Ok t /\ lenN t = maglev_entries s /\ validate s = true /\ serves m s t) as Hsv.
  { intros s h Hin. destruct (Hs s Hin) as (t & Ht & H1). assert (validate s = true) as Hv by (pose proof (co_valid _ _ Hc) as Hf'; rewrite Forall_forall in Hf'; by apply Hf').
    exists t. destruct (table_total s Hv) as (t0 & Ht0 & Hl). assert (t0 = t) as -> by congruence. done. }
  split_and!.
  - intros s h Hin Hex. destruct (Hsv s h Hin) as (t & Ht & Hl & Hv & [(v & Hv1 & Hv2 & Hv3) H2 H3]). unfold bpf_select. change (svc_key (vip s) (port s) (protocol s)) with (key_of_front (frontend s)).
    rewrite Hv1. cbv zeta. rewrite Hv3, Hv2. unfold maglev_entries in Hl.
    assert (existsb is_ready (backends s) = true) as He by (apply existsb_exists; apply Exists_exists in Hex as (b & Hb & Hr); exists b; split; [by apply list_elem_of_In|done]).
    rewrite He in Hl. destruct (validate_size s Hv) as [Hsz _]. rewrite (proj2 (N.eqb_neq _ _)) by lia.
    assert (N.to_nat (h mod lenN t) < length t)%nat as Hslot by (pose proof (N.mod_lt h (lenN t) ltac:(lia)); unfold lenN in *; lia).
    destruct (lookup_lt_is_Some_2 t _ Hslot) as [i Hi]. pose proof (H3 _ _ Hi) as Hmg. unfold pair_key in Hmg. rewrite N2Nat.id in Hmg. rewrite Hmg.
    pose proof (maglev_entries_ready s t Hv Ht) as Hen. rewrite Forall_forall in Hen. destruct (Hen i (list_elem_of_lookup_2 _ _ _ Hi)) as (b & Hb & Hr).
    destruct (is_ready_state b Hr) as [Hr1 Hr2]. exists i, b. split_and!; [done|done|].
    destruct (valid_families s Hv) as [_ Hlen]. pose proof (lookup_lt_Some _ _ _ Hb) as Hilt.
    assert (backend_of m (vip s) !! pair_key (service_id (name s)) i = Some (backend_value b)) as Hbk.
    { apply H2; [unfold in_u; change (2 ^ 32) with 4294967296; lia|]. unfold backend_entry. rewrite Hb. simpl. by rewrite Hr1. }
    unfold pair_key in Hbk. rewrite Hbk, ready_flags by done. done.
  - intros s h Hin Hno. destruct (Hsv s h Hin) as (t & Ht & Hl & Hv & [(v & Hv1 & Hv2 & Hv3) _ _]). unfold bpf_select. change (svc_key (vip s) (port s) (protocol s)) with (key_of_front (frontend s)).
    rewrite Hv1. cbv zeta. rewrite Hv3, Hl. unfold maglev_entries. assert (existsb is_ready (backends s) = false) as ->; [|done].
    apply not_true_iff_false. intros (b & Hb & Hr)%existsb_exists. rewrite Forall_forall in Hno. specialize (Hno b ltac:(by apply list_elem_of_In)). congruence.
  - intros a p pr h Hty' Hn. unfold bpf_select. pose proof (Hf (a, p, pr) Hty' Hn) as H. cbn [fst] in H. change (svc_key a p pr) with (key_of_front (a, p, pr)). by rewrite H.
Qed.

Lemma maps_route_ready_witness : exists m, desired_intent_maps [two_backends] = Ok m /\
  exists i b, backends two_backends !! i = Some b /\ is_ready b = true /\ bpf_select m (V4 [10; 0; 1; 1]) 80 Tcp 12345 = To (backend_value b).
Proof.
  assert (catalog_ok (bstr "S") [two_backends]) as Hc by (apply validate_catalog_ok; vm_compute; reflexivity).
  assert (Forall (fun s => front_typed (frontend s)) [two_backends]) as Ht by (by repeat constructor).
  destruct (desired_ok (bstr "S") [two_backends] Hc Ht) as (m & Hm & _). exists m. split; [exact Hm|].
  destruct (maps_route_ready (bstr "S") [two_backends] m Hc Ht Hm) as (H & _ & _). apply (H two_backends 12345); [by left|by left].
Defined.

(** ** Replacing the maps *)

Lemma set_guard_cases v k : exists r k', set_guard v k = (r, k') /\ kmaps k' = kmaps k /\
  ((r = Ok tt /\ sguard k' = v) \/ (r = Err Network /\ sguard k' = sguard k)).
Proof.
  unfold set_guard, bind. destruct (kernel_op_cases k) as (r & k1 & -> & H1 & H2 & [-> | ->]); eexists _, _; (split; [reflexivity|]); auto.
Qed.

(** C21: the data plane never reads half a catalog: whichever kernel call fails while
    the maps are brought to a valid catalog, [populate_maps] either succeeds, and the
    seven maps are exactly those of the catalog with the guard open, or fails with
    the guard closed or with nothing changed. *)
Theorem populate_fail_closed tier specs k : catalog_ok tier specs -> Forall (fun s => front_typed (frontend s)) specs -> length (kmaps k) = 7%nat ->
  match populate_maps specs k with
  | (Ok _, k') => exists m, desired_intent_maps specs = Ok m /\ kmaps k' = in_order m /\ sguard k' = 0
  | (Err _, k') => sguard k' = 1 \/ (kmaps k' = kmaps k /\ sguard k' = sguard k)
  | _ => False
  end.
Proof.
  intros Hc Hty Hl. destruct (desired_ok tier specs Hc Hty) as (m & Hm & _). unfold populate_maps, bind.
  destruct (set_guard_cases 1 k) as (r & k1 & -> & A1 & [[-> A2]|[-> A2]]); [|by right].
  unfold lift. rewrite Hm. pose proof (reconcile_all_spec (in_order m) 0 k1 ltac:(by rewrite A1)) as H.
  destruct (reconcile_all 0 (in_order m) k1) as [[[]|e| |] k2]; try done; [|left; destruct H; congruence].
  destruct H as [B1 B2]. destruct (set_guard_cases 0 k2) as (r & k3 & -> & C1 & [[-> C2]|[-> C2]]); [|left; congruence].
  exists m. split_and!; [done|by rewrite C1, B1|done].
Qed.

(** The fourth call fails: the guard is left closed. *)
Lemma populate_fail_closed_witness :
  let k := MkKernel (repeat ∅ 7) 0 [false; false; false; true] in
  match populate_maps [two_backends] k with (Ok _, k') => sguard k' = 0 | (Err _, k') => sguard k' = 1 \/ sguard k' = sguard k | _ => False end.
Proof.
  intros k. assert (catalog_ok (bstr "S") [two_backends]) as Hc by (apply validate_catalog_ok; vm_compute; reflexivity).
  assert (Forall (fun s => front_typed (frontend s)) [two_backends]) as Ht by (by repeat constructor).
  pose proof (populate_fail_closed (bstr "S") [two_backends] k Hc Ht eq_refl) as H.
  destruct (populate_maps [two_backends] k) as [[[]|e| |] k']; [destruct H as (m & _ & _ & H); exact H|destruct H as [H|[_ H]]; [by left|by right]|exact H|exact H].
Defined.
