(* ===== verification/HaJournal.v ===== *)
(** * Replication of the load balancer's connections to a standby

    [crates/fluxvm-network/src/service.rs] (the HA journal) and
    [crates/fluxvm-network/src/service_ha.rs] (the mutation queue): the source keeps a
    durable journal of numbered changes of a service's connection-tracking entries,
    hands out batches of them and forgets what was acknowledged; the standby replays
    a batch behind a durable cursor.

    An edge is the directory of pinned maps of a north-south interface, a map from
    names to BPF maps; [None] is a directory that does not exist.  A file is absent,
    unreadable ([Some None]) or parsed.  Calls that can fail without changing anything
    (a dump, an update, a read of the queue, a write of a file) take one answer of a
    script ([true]: it fails); deletions in the kernel take theirs from a second one,
    since their failures are ignored. *)

From stdpp Require Import prelude list strings gmap sorting.
From Stdlib Require Import NArith Lia.
From S2P Require Import Prelude RustStr LbService LbCatalog LbMaps.

Definition SERVICE_SCHEMA_VERSION : u32 := 4.
Definition HA_JOURNAL_MAX_ENTRIES : N := 32768.
Definition HA_DELTA_MAX_BATCH : N := 8192.

Abbreviation Edge := (gmap rstr BpfMap).

Record RawMapEntry := MkRaw { r_map : rstr; r_key_hex : rstr; r_value_hex : rstr }.
Record ConntrackSnapshot := MkSnap { s_schema_version : u32; s_service : rstr; s_service_id : u32; created_unix_ms : N; s_entries : list RawMapEntry }.

Inductive HaDeltaOperation := Upsert | Delete.
Record ConntrackDeltaEntry := MkDelta { seq : u64; operation : HaDeltaOperation; d_map : rstr; key_hex : rstr; value_hex : option rstr }.

Record ConntrackDeltaBatch := MkBatch {
  b_schema_version : u32; b_service : rstr; b_service_id : u32; after_seq : u64; last_seq : u64; b_acked_seq : u64;
  reset_required : bool; snapshot_barrier : bool; truncated : bool; b_entries : list ConntrackDeltaEntry }.

Record HaJournalStatus := MkStatus { st_service : rstr; st_service_id : u32; st_last_seq : u64; st_acked_seq : u64; first_available_seq : u64; retained_entries : N }.
Record HaDeltaApplyReport := MkReport { rp_service : rstr; applied_entries : N; deleted_entries : N; rp_last_applied_seq : u64; rp_snapshot_barrier : bool }.

Record HaJournalState := MkJ {
  j_schema_version : u32; j_service : rstr; j_service_id : u32; next_seq : u64; acked_seq : u64; known : gmap rstr rstr; journal : list ConntrackDeltaEntry }.
Record HaImportCursor := MkCursor { c_schema_version : u32; c_service : rstr; c_service_id : u32; last_applied_seq : u64 }.

(** A node: its catalog, the edges of its interfaces with their queues of raw events, the files. *)
Record HaNode := MkHa {
  lb : Node; edges : list (option Edge); queues : list (option (list bytes));
  journals : gmap rstr (option HaJournalState); cursors : gmap rstr (option HaImportCursor); hfaults : list bool; dfaults : list bool }.

Definition ha_op : M HaNode () := fun n =>
  match hfaults n with
  | f :: fs => ((if f then Err Io else Ok tt), MkHa (lb n) (edges n) (queues n) (journals n) (cursors n) fs (dfaults n))
  | [] => (Ok tt, n)
  end.

Definition set_edges (es : list (option Edge)) (n : HaNode) : HaNode := MkHa (lb n) es (queues n) (journals n) (cursors n) (hfaults n) (dfaults n).
Definition set_queues (qs : list (option (list bytes))) (n : HaNode) : HaNode := MkHa (lb n) (edges n) qs (journals n) (cursors n) (hfaults n) (dfaults n).
Definition set_journal (nm : rstr) (st : HaJournalState) (n : HaNode) : HaNode :=
  MkHa (lb n) (edges n) (queues n) (<[nm := Some st]> (journals n)) (cursors n) (hfaults n) (dfaults n).
Definition set_cursor (nm : rstr) (c : HaImportCursor) (n : HaNode) : HaNode :=
  MkHa (lb n) (edges n) (queues n) (journals n) (<[nm := Some c]> (cursors n)) (hfaults n) (dfaults n).

(** ** Hexadecimal *)

Abbreviation bytes_hex := hex.

(** The characters two by two; [&raw[i..i + 2]] panics inside a character. *)
Fixpoint decode_pairs (bs : bytes) : outcome bytes :=
  match bs with
  | a :: b :: rest =>
      if cont a || match rest with c :: _ => cont c | [] => false end then Panic
      else match u8_from_hex [a; b] with
           | None => Err Network
           | Some v => match decode_pairs rest with Ok vs => Ok (v :: vs) | e => e end
           end
  | _ => Ok []
  end.

Definition decode_hex (raw : rstr) : outcome bytes :=
  let bs := as_bytes raw in
  if negb (N.even (lenN bs)) then Err Network else decode_pairs bs.

(** ** The source's snapshot *)

Definition CT_MAPS : list rstr := [bstr "fluxvm_fct4"; bstr "fluxvm_fct6"; bstr "fluxvm_nat4"; bstr "fluxvm_nat6"].

Definition owned (sid : u32) (value : bytes) : bool := negb (length value <? 4)%nat && (from_le (take 4 value) =? sid).

Definition rows (sid : u32) (nm : rstr) (m : BpfMap) : list RawMapEntry :=
  map (fun kv : bytes * bytes => MkRaw nm (bytes_hex kv.1) (bytes_hex kv.2)) (List.filter (fun kv => owned sid kv.2) (map_to_list m)).

Section Ha.
Variable tier : rstr.

(** [get(cfg, name)?.with_context(..)?] *)
Definition service_of (nm : rstr) : M HaNode ServiceSpec :=
  let! n := Prelude.get in
  let! s := lift (fst (LbCatalog.get tier nm (lb n))) in
  match s with Some s => ret s | None => throw Network end.

Fixpoint dump_maps (sid : u32) (e : Edge) (names : list rstr) : M HaNode (list RawMapEntry) :=
  match names with
  | [] => ret []
  | nm :: names =>
      match e !! nm with
      | None => dump_maps sid e names
      | Some m => do! ha_op in let! rest := dump_maps sid e names in ret (rows sid nm m ++ rest)
      end
  end.

Definition export_conntrack (now : N) (nm : rstr) : M HaNode ConntrackSnapshot :=
  let! spec := service_of nm in
  let sid := service_id nm in
  let! n := Prelude.get in
  match edges n with
  | [] => throw Network
  | e :: _ =>
      let! entries := dump_maps sid (default ∅ e) CT_MAPS in
      ret (MkSnap SERVICE_SCHEMA_VERSION (name spec) sid now entries)
  end.

Definition identity (m key : rstr) : rstr := m ++ 124 :: key.

Definition snapshot_index (s : ConntrackSnapshot) : gmap rstr rstr :=
  fold_left (fun x e => <[identity (r_map e) (r_key_hex e) := r_value_hex e]> x) (s_entries s) ∅.

(** ** The journal *)

Definition load_ha_journal (nm : rstr) (sid : u32) : M HaNode HaJournalState :=
  let! n := Prelude.get in
  match journals n !! nm with
  | None => ret (MkJ SERVICE_SCHEMA_VERSION nm sid 1 0 ∅ [])
  | Some f =>
      do! ha_op in
      match f with
      | None => throw Network
      | Some st =>
          if negb (j_schema_version st =? SERVICE_SCHEMA_VERSION) || negb (bool_decide (j_service st = nm)) || negb (j_service_id st =? sid) then throw Network
          else ret st
      end
  end.

Definition save_ha_journal (st : HaJournalState) : M HaNode () := do! ha_op in modify (set_journal (j_service st) st).

Definition append_delta (op : HaDeltaOperation) (m key : rstr) (value : option rstr) (st : HaJournalState) : HaJournalState :=
  let s := N.max (next_seq st) 1 in
  MkJ (j_schema_version st) (j_service st) (j_service_id st) (U.saturating_add 64 s 1) (acked_seq st) (known st) (journal st ++ [MkDelta s op m key value]).

Definition set_known (k : gmap rstr rstr) (st : HaJournalState) : HaJournalState :=
  MkJ (j_schema_version st) (j_service st) (j_service_id st) (next_seq st) (acked_seq st) k (journal st).
Definition set_entries (acked : u64) (j : list ConntrackDeltaEntry) (st : HaJournalState) : HaJournalState :=
  MkJ (j_schema_version st) (j_service st) (j_service_id st) (next_seq st) acked (known st) j.

(** A [BTreeMap] is visited in the order of its keys. *)
Definition key_le (a b : rstr * rstr) : Prop := rstr_leb a.1 b.1 = true.

#[global] Instance key_le_dec : RelDecision key_le.
Proof. intros a b. unfold key_le. apply _. Defined.

Definition btree (m : gmap rstr rstr) : list (rstr * rstr) := merge_sort key_le (map_to_list m).

(** The two loops over identities that changed. *)
Fixpoint append_all (op : HaDeltaOperation) (l : list (rstr * option rstr)) (st : HaJournalState) : outcome HaJournalState :=
  match l with
  | [] => Ok st
  | (id, v) :: l =>
      match split_once 124 id with
      | None => Err Network
      | Some (m, key) => append_all op l (append_delta op m key v st)
      end
  end.

Definition changed (old current : gmap rstr rstr) : list (rstr * option rstr) :=
  map (fun kv => (kv.1, Some kv.2)) (List.filter (fun kv => negb (bool_decide (old !! kv.1 = Some kv.2))) (btree current)).
Definition removed (old current : gmap rstr rstr) : list (rstr * option rstr) :=
  map (fun kv => (kv.1, None)) (List.filter (fun kv => negb (bool_decide (is_Some (current !! kv.1)))) (btree old)).

(** The bound on the journal, and what every standby has acknowledged. *)
Definition trim_journal (st : HaJournalState) : HaJournalState :=
  let j := if HA_JOURNAL_MAX_ENTRIES <? lenN (journal st) then drop (N.to_nat (lenN (journal st) - HA_JOURNAL_MAX_ENTRIES)) (journal st) else journal st in
  set_entries (acked_seq st) (List.filter (fun e => acked_seq st <? seq e) j) st.

Definition refresh_ha_journal (now : N) (nm : rstr) : M HaNode HaJournalState :=
  let! snapshot := export_conntrack now nm in
  let! st := load_ha_journal nm (s_service_id snapshot) in
  let current := snapshot_index snapshot in
  let! st1 := lift (append_all Upsert (changed (known st) current) st) in
  let! st2 := lift (append_all Delete (removed (known st) current) st1) in
  let st3 := trim_journal (set_known current st2) in
  do! save_ha_journal st3 in
  ret st3.

Definition first_available (st : HaJournalState) (last : u64) : u64 :=
  match journal st with e :: _ => seq e | [] => U.saturating_add 64 last 1 end.

Definition status (nm : rstr) (sid : u32) (st : HaJournalState) : HaJournalStatus :=
  let last := next_seq st - 1 in
  MkStatus nm sid last (acked_seq st) (first_available st last) (lenN (journal st)).

(** One change, journalled when it is one. *)
Definition ha_change (op : HaDeltaOperation) (m key : rstr) (value : option rstr) (st : HaJournalState) : outcome (option HaJournalState) :=
  let id := identity m key in
  match op with
  | Upsert =>
      match value with
      | None => Err Network
      | Some v =>
          if bool_decide (known st !! id = Some v) then Ok None
          else Ok (Some (set_known (<[id := v]> (known st)) (append_delta Upsert m key (Some v) st)))
      end
  | Delete =>
      match known st !! id with
      | Some _ => Ok (Some (append_delta Delete m key None (set_known (base.delete id (known st)) st)))
      | None => Ok None
      end
  end.

Definition append_ha_delta_event (nm : rstr) (op : HaDeltaOperation) (m key : rstr) (value : option rstr) : M HaNode HaJournalStatus :=
  if negb (bool_decide (m ∈ CT_MAPS)) then throw Network
  else
    let! spec := service_of nm in
    let sid := service_id (name spec) in
    let! st := load_ha_journal nm sid in
    let! st' := lift (ha_change op m key value st) in
    match st' with
    | None => ret (status nm sid st)
    | Some st' =>
        let st'' := trim_journal st' in
        do! save_ha_journal st'' in
        ret (status nm sid st'')
    end.

(** ** The queue of events ([service_ha.rs]) *)

Definition EVENT_HEADER : N := 24.
Definition EVENT_KEY_MAX : N := 48.
Definition EVENT_VALUE_MAX : N := 56.

Record ParsedEvent := MkEvent { e_service_id : u32; e_operation : HaDeltaOperation; e_map : rstr; e_key_hex : rstr; e_value_hex : option rstr }.

Definition at_ (i : nat) (raw : bytes) : N := default 0 (raw !! i).

Definition event_op (raw : bytes) : option HaDeltaOperation := if at_ 16 raw =? 1 then Some Upsert else if at_ 16 raw =? 2 then Some Delete else None.
Definition event_map (raw : bytes) : option rstr :=
  let c := at_ 17 raw in
  if c =? 1 then Some (bstr "fluxvm_fct4") else if c =? 2 then Some (bstr "fluxvm_fct6")
  else if c =? 3 then Some (bstr "fluxvm_nat4") else if c =? 4 then Some (bstr "fluxvm_nat6") else None.

Definition parse_event (raw : bytes) : option ParsedEvent :=
  let sid := from_le (slice 8 4 raw) in
  op ← event_op raw;
  m ← event_map raw;
  let key_len := at_ 20 raw in
  let value_len := at_ 21 raw in
  if (key_len =? 0) || (EVENT_KEY_MAX <? key_len) || (EVENT_VALUE_MAX <? value_len) then None
  else
    let key := slice (N.to_nat EVENT_HEADER) (N.to_nat key_len) raw in
    let value := slice (N.to_nat (EVENT_HEADER + EVENT_KEY_MAX)) (N.to_nat value_len) raw in
    match op with
    | Upsert => if value_len =? 0 then None else Some (MkEvent sid op m (hex key) (Some (hex value)))
    | Delete => Some (MkEvent sid op m (hex key) None)
    end.

Record HaEventDrainReport := MkDrain { queue_maps : N; drained : N; dispatched_other_services : N; ignored_unknown_services : N; malformed : N }.

Definition count (q d o u m : N) (r : HaEventDrainReport) : HaEventDrainReport :=
  MkDrain (queue_maps r + q) (drained r + d) (dispatched_other_services r + o) (ignored_unknown_services r + u) (malformed r + m).

(** The name of the last service with the id: the later entries of a [HashMap] win. *)
Definition owner (specs : list ServiceSpec) (sid : u32) : option rstr := name <$> find (fun s => service_id (name s) =? sid) (rev specs).

(** Pops until the queue or the budget is empty. *)
Fixpoint drain_queue (specs : list ServiceSpec) (sid : u32) (i : nat) (remaining : nat) (r : HaEventDrainReport) : M HaNode (nat * HaEventDrainReport) :=
  match remaining with
  | O => ret (O, r)
  | S budget =>
      do! ha_op in
      let! n := Prelude.get in
      match queues n !! i with
      | Some (Some (raw :: q)) =>
          do! modify (set_queues (<[i := Some q]> (queues n))) in
          match parse_event raw with
          | None => drain_queue specs sid i budget (count 0 0 0 0 1 r)
          | Some ev =>
              match owner specs (e_service_id ev) with
              | None => drain_queue specs sid i budget (count 0 0 0 1 0 r)
              | Some nm =>
                  let! _ := append_ha_delta_event nm (e_operation ev) (e_map ev) (e_key_hex ev) (e_value_hex ev) in
                  drain_queue specs sid i budget (if e_service_id ev =? sid then count 0 1 0 0 0 r else count 0 0 1 0 0 r)
              end
          end
      | _ => ret (S budget, r)
      end
  end.

(** The directories that exist, in order; a queue may be missing from one. *)
Fixpoint drain_dirs (specs : list ServiceSpec) (sid : u32) (dirs : list nat) (remaining : nat) (r : HaEventDrainReport) : M HaNode HaEventDrainReport :=
  match dirs with
  | [] => ret r
  | i :: dirs =>
      if (remaining =? 0)%nat then ret r
      else
        let! n := Prelude.get in
        match queues n !! i with
        | Some (Some _) =>
            do! ha_op in
            let! x := drain_queue specs sid i remaining (count 1 0 0 0 0 r) in
            drain_dirs specs sid dirs x.1 x.2
        | _ => drain_dirs specs sid dirs remaining r
        end
  end.

Definition existing (es : list (option Edge)) : list nat := List.filter (fun i => match es !! i with Some (Some _) => true | _ => false end) (List.seq 0 (length es)).

Definition drain_service_events (nm : rstr) (max_events : N) : M HaNode HaEventDrainReport :=
  let! spec := service_of nm in
  let! n := Prelude.get in
  let! specs := lift (fst (list_services tier (lb n))) in
  drain_dirs specs (service_id (name spec)) (existing (edges n)) (N.to_nat (N.min (N.max max_events 1) 65536)) (MkDrain 0 0 0 0 0).

(** ** Handing out batches *)

Definition batch_of (st : HaJournalState) (after : u64) (max_entries : N) : outcome ConntrackDeltaBatch :=
  let last := next_seq st - 1 in
  if last <? after then Err Network
  else
    let first := first_available st last in
    let reset := (U.saturating_add 64 after 1 <? first) && (after <? last) in
    let limit := N.min (N.max max_entries 1) HA_DELTA_MAX_BATCH in
    let eligible := List.filter (fun e => after <? seq e) (journal st) in
    let entries := if reset then [] else take (N.to_nat limit) eligible in
    Ok (MkBatch SERVICE_SCHEMA_VERSION (j_service st) (j_service_id st) after last (acked_seq st) reset false (negb reset && (lenN entries <? lenN eligible)) entries).

(** [if let Err(error) = m { warn }]: what was done stays done. *)
Definition tolerate {A} (m : M HaNode A) : M HaNode () := fun n => match m n with (Ok _, n) | (Err _, n) => (Ok tt, n) | (Panic, n) => (Panic, n) | (Loop, n) => (Loop, n) end.

Definition export_conntrack_delta (now : N) (nm : rstr) (after : u64) (max_entries : N) : M HaNode ConntrackDeltaBatch :=
  do! tolerate (drain_service_events nm 4096) in
  let! st := refresh_ha_journal now nm in
  lift (batch_of st after max_entries).

Definition ack_conntrack_delta (nm : rstr) (ack : u64) : M HaNode HaJournalStatus :=
  let! spec := service_of nm in
  let sid := service_id (name spec) in
  let! st := load_ha_journal nm sid in
  if next_seq st - 1 <? ack then throw Network
  else if ack <? acked_seq st then throw Network
  else
    let st' := set_entries ack (List.filter (fun e => ack <? seq e) (journal st)) st in
    do! save_ha_journal st' in
    ret (status nm sid st').

(** ** The standby *)

Definition load_import_cursor (nm : rstr) (sid : u32) : M HaNode HaImportCursor :=
  let! n := Prelude.get in
  match cursors n !! nm with
  | None => ret (MkCursor SERVICE_SCHEMA_VERSION nm sid 0)
  | Some f =>
      do! ha_op in
      match f with
      | None => throw Network
      | Some c =>
          if negb (c_schema_version c =? SERVICE_SCHEMA_VERSION) || negb (bool_decide (c_service c = nm)) || negb (c_service_id c =? sid) then throw Network
          else ret c
      end
  end.

Definition save_import_cursor (c : HaImportCursor) : M HaNode () := do! ha_op in modify (set_cursor (c_service c) c).

Definition on_edge (i : nat) (f : Edge -> Edge) (n : HaNode) : HaNode := set_edges (alter (fmap f) i (edges n)) n.
Definition has_map (nm : rstr) (i : nat) (n : HaNode) : bool := match edges n !! i with Some (Some e) => bool_decide (is_Some (e !! nm)) | _ => false end.

(** [map_update] in every directory that has the map. *)
Fixpoint update_dirs (dirs : list nat) (nm : rstr) (key value : bytes) : M HaNode N :=
  match dirs with
  | [] => ret 0
  | i :: dirs =>
      let! n := Prelude.get in
      if has_map nm i n then
        do! ha_op in
        do! modify (on_edge i (alter <[key := value]> nm)) in
        let! w := update_dirs dirs nm key value in
        ret (w + 1)
      else update_dirs dirs nm key value
  end.

(** [let _ = map_delete(..)] *)
Fixpoint delete_dirs (dirs : list nat) (nm : rstr) (key : bytes) : M HaNode () :=
  match dirs with
  | [] => ret tt
  | i :: dirs =>
      let! n := Prelude.get in
      do! (if has_map nm i n then
             match dfaults n with
             | f :: fs =>
                 modify (fun n => (if f then id else on_edge i (alter (base.delete key) nm)) (MkHa (lb n) (edges n) (queues n) (journals n) (cursors n) (hfaults n) fs))
             | [] => modify (on_edge i (alter (base.delete key) nm))
             end
           else ret tt) in
      delete_dirs dirs nm key
  end.

(** The entries of a batch, with the cursor and the two counts. *)
Fixpoint apply_entries (sid : u32) (dirs : list nat) (es : list ConntrackDeltaEntry) (cur a d : N) : M HaNode (N * N * N) :=
  match es with
  | [] => ret (cur, a, d)
  | e :: es =>
      if seq e <=? cur then apply_entries sid dirs es cur a d
      else if negb (seq e =? U.saturating_add 64 cur 1) then throw Network
      else if negb (bool_decide (d_map e ∈ CT_MAPS)) then throw Network
      else
        let! key := lift (decode_hex (key_hex e)) in
        match operation e with
        | Upsert =>
            match value_hex e with
            | None => throw Network
            | Some raw =>
                let! value := lift (decode_hex raw) in
                if negb (owned sid value) then throw Network
                else let! _ := update_dirs dirs (d_map e) key value in apply_entries sid dirs es (seq e) (a + 1) d
            end
        | Delete =>
            if bool_decide (is_Some (value_hex e)) then throw Network
            else do! delete_dirs dirs (d_map e) key in apply_entries sid dirs es (seq e) a (d + 1)
        end
  end.

Definition advance (c : HaImportCursor) (s : u64) : HaImportCursor := MkCursor (c_schema_version c) (c_service c) (c_service_id c) s.

Definition import_conntrack_delta (nm : rstr) (b : ConntrackDeltaBatch) : M HaNode HaDeltaApplyReport :=
  let! spec := service_of nm in
  let sid := service_id (name spec) in
  if negb (b_schema_version b =? SERVICE_SCHEMA_VERSION) || negb (bool_decide (b_service b = nm)) || negb (b_service_id b =? sid) then throw Network
  else if reset_required b && negb (snapshot_barrier b) then throw Network
  else
    let! c := load_import_cursor nm sid in
    if snapshot_barrier b then
      if negb (length (b_entries b) =? 0)%nat then throw Network
      else if last_seq b <? last_applied_seq c then throw Network
      else do! save_import_cursor (advance c (last_seq b)) in ret (MkReport nm 0 0 (last_seq b) true)
    else
      let! n := Prelude.get in
      let dirs := existing (edges n) in
      if (length dirs =? 0)%nat then throw Network
      else
        let! r := apply_entries sid dirs (b_entries b) (last_applied_seq c) 0 0 in
        let '(cur, a, d) := r in
        do! save_import_cursor (advance c cur) in
        ret (MkReport nm a d cur false).

(** A whole snapshot: entries are added, none is removed. *)
Fixpoint import_rows (sid : u32) (dirs : list nat) (es : list RawMapEntry) (written : N) : M HaNode N :=
  match es with
  | [] => ret written
  | e :: es =>
      if negb (bool_decide (r_map e ∈ CT_MAPS)) then throw Network
      else
        let! key := lift (decode_hex (r_key_hex e)) in
        let! value := lift (decode_hex (r_value_hex e)) in
        if negb (owned sid value) then throw Network
        else let! w := update_dirs dirs (r_map e) key value in import_rows sid dirs es (written + w)
  end.

Definition import_conntrack (nm : rstr) (s : ConntrackSnapshot) : M HaNode N :=
  let! spec := service_of nm in
  let sid := service_id (name spec) in
  if negb (s_schema_version s =? SERVICE_SCHEMA_VERSION) || negb (s_service_id s =? sid) || negb (bool_decide (s_service s = nm)) then throw Network
  else
    let! n := Prelude.get in
    let dirs := existing (edges n) in
    if (length dirs =? 0)%nat then throw Network else import_rows sid dirs (s_entries s) 0.
End Ha.
