(* ===== verification/HaReplay.v ===== *)
(** * Replication converges

    The journal of [HaJournal] against an abstract history: the journal is the end of
    a history of numbered changes, its [known] what the history leaves, and a standby
    that replays batches always lies between its cursor and the end of the history,
    whichever calls fail on the way. *)

From stdpp Require Import prelude list strings gmap sorting.
From Stdlib Require Import NArith Lia.
From S2P Require Import Prelude RustStr LbService Maglev LbCatalog LbMaps HaJournal.

(** ** Hexadecimal text *)

Lemma hex_ascii bs : is_bytes bs -> Forall (fun c => 48 <= c < 103) (hex bs).
Proof.
  intros H. induction H as [|b bs Hb H IH]; [done|]. change (b < 256) in Hb. change (hex (b :: bs)) with (hex_lower (b / 16) :: hex_lower (b mod 16) :: hex bs).
  pose proof (hex_lower_alnum (b / 16) ltac:(dlia)). pose proof (hex_lower_alnum (b mod 16) ltac:(dlia)). constructor; [lia|]. constructor; [lia|done].
Qed.

Lemma decode_hex_pairs bs : is_bytes bs -> decode_pairs (hex bs) = Ok bs.
Proof.
  intros H. induction H as [|b bs Hb H IH]; [done|]. change (b < 256) in Hb. change (hex (b :: bs)) with (hex_lower (b / 16) :: hex_lower (b mod 16) :: hex bs).
  cbn [decode_pairs]. rewrite u8_from_hex_byte, IH by done. pose proof (hex_lower_alnum (b / 16) ltac:(dlia)) as [Ha _].
  assert (cont (hex_lower (b / 16)) = false) as -> by (unfold cont; apply andb_false_iff; left; apply N.leb_gt; lia).
  pose proof (hex_ascii bs H) as Hx. destruct (hex bs) as [|c r]; [done|]. inversion_clear Hx.
  assert (cont c = false) as -> by (unfold cont; apply andb_false_iff; left; apply N.leb_gt; lia). done.
Qed.

Lemma decode_hex_hex bs : is_bytes bs -> decode_hex (hex bs) = Ok bs.
Proof.
  intros H. unfold decode_hex. rewrite as_bytes_ascii by (eapply Forall_impl; [by apply hex_ascii|simpl; lia]).
  replace (N.even (lenN (hex bs))) with true by (symmetry; apply N.even_spec; exists (lenN bs); unfold lenN; rewrite length_hex; lia). by apply decode_hex_pairs.
Qed.

(** Inside a character the slice panics. *)
Lemma decode_hex_panics : decode_hex [97; 233; 49] = Panic.
Proof. reflexivity. Qed.

(** ** Identities *)

Lemma ct_map_free m : m ∈ CT_MAPS -> 124 ∉ m.
Proof. unfold CT_MAPS. rewrite !elem_of_cons. intros [->|[->|[->|[->|H]]]]; [by_eval..|by apply not_elem_of_nil in H]. Qed.

Lemma split_identity m k : m ∈ CT_MAPS -> split_once 124 (identity m k) = Some (m, k).
Proof. intros H. apply split_once_app. by apply ct_map_free. Qed.

Lemma identity_inj m k m' k' : m ∈ CT_MAPS -> m' ∈ CT_MAPS -> identity m k = identity m' k' -> m = m' /\ k = k'.
Proof. intros H H' E. pose proof (split_identity m k H) as S. rewrite E, split_identity in S by done. split; congruence. Qed.

(** ** What an edge holds of a service *)

Definition edge_rows (sid : u32) (e : Edge) (names : list rstr) : list RawMapEntry :=
  flat_map (fun nm => match e !! nm with Some m => rows sid nm m | None => [] end) names.

Definition index (sid : u32) (e : Edge) : gmap rstr rstr := snapshot_index (MkSnap SERVICE_SCHEMA_VERSION [] sid 0 (edge_rows sid e CT_MAPS)).

Definition edge_typed (e : Edge) : Prop := forall nm m k v, e !! nm = Some m -> m !! k = Some v -> is_bytes k /\ is_bytes v.

(** The entry [id] of the service [sid]. *)
Definition holds (sid : u32) (e : Edge) (id v : rstr) : Prop :=
  exists nm m k w, nm ∈ CT_MAPS /\ e !! nm = Some m /\ m !! k = Some w /\ owned sid w = true /\ id = identity nm (hex k) /\ v = hex w.

Lemma fold_index_lookup (l : list RawMapEntry) (x : gmap rstr rstr) id v :
  (forall a b, a ∈ l -> b ∈ l -> identity (r_map a) (r_key_hex a) = identity (r_map b) (r_key_hex b) -> r_value_hex a = r_value_hex b) ->
  (forall a, a ∈ l -> x !! identity (r_map a) (r_key_hex a) = None) ->
  fold_left (fun x e => <[identity (r_map e) (r_key_hex e) := r_value_hex e]> x) l x !! id = Some v <->
  x !! id = Some v \/ exists a, a ∈ l /\ id = identity (r_map a) (r_key_hex a) /\ v = r_value_hex a.
Proof.
  intros Hf Hx. induction l as [|b l IH] using rev_ind; cbn [fold_left].
  { split; [by left|]. intros [?|(a & Ha & _)]; [done|by apply not_elem_of_nil in Ha]. }
  rewrite fold_left_app. cbn [fold_left]. rewrite lookup_insert_Some, IH; [|intros; apply Hf; set_solver|intros; apply Hx; set_solver]. clear IH. split.
  - intros [[<- <-]|[Hne [H|(a & Ha & H)]]]; [right; exists b; set_solver|by left|right; exists a; set_solver].
  - intros H. destruct (decide (identity (r_map b) (r_key_hex b) = id)) as [<-|Hne].
    + left. split; [done|]. destruct H as [H|(a & Ha & E & ->)]; [rewrite Hx in H by set_solver; done|apply Hf; [set_solver|done|done]].
    + right. split; [done|]. destruct H as [H|(a & Ha & E & ->)]; [by left|right]. exists a. split_and!; [|done|done].
      apply elem_of_app in Ha as [Ha| ->%list_elem_of_singleton]; [done|by symmetry in E].
Qed.

Lemma elem_edge_rows sid e r : r ∈ edge_rows sid e CT_MAPS <->
  exists nm m k w, nm ∈ CT_MAPS /\ e !! nm = Some m /\ m !! k = Some w /\ owned sid w = true /\ r = MkRaw nm (hex k) (hex w).
Proof.
  unfold edge_rows. rewrite list_elem_of_In, in_flat_map. split.
  - intros (nm & Hnm%list_elem_of_In & Hr). destruct (e !! nm) as [m|] eqn:E; [|done]. unfold rows in Hr. apply in_map_iff in Hr as ([k w] & <- & Hr).
    apply filter_In in Hr as [Hr Ho]. apply list_elem_of_In, elem_of_map_to_list in Hr. by exists nm, m, k, w.
  - intros (nm & m & k & w & Hnm & E & Hk & Ho & ->). exists nm. split; [by apply list_elem_of_In|]. rewrite E. unfold rows. apply in_map_iff. exists (k, w). split; [done|].
    apply filter_In. split; [|done]. apply list_elem_of_In. by apply elem_of_map_to_list.
Qed.

Lemma index_lookup sid e id v : edge_typed e -> index sid e !! id = Some v <-> holds sid e id v.
Proof.
  intros Ht. unfold index, snapshot_index. cbn [s_entries]. rewrite fold_index_lookup.
  - rewrite lookup_empty. setoid_rewrite elem_edge_rows. split.
    + intros [?|(a & (nm & m & k & w & H1 & H2 & H3 & H4 & ->) & -> & ->)]; [done|]. by exists nm, m, k, w.
    + intros (nm & m & k & w & H1 & H2 & H3 & H4 & -> & ->). right. exists (MkRaw nm (hex k) (hex w)). split; [by exists nm, m, k, w|done].
  - intros a b (nm & m & k & w & H1 & H2 & H3 & H4 & ->)%elem_edge_rows (nm' & m' & k' & w' & H1' & H2' & H3' & H4' & ->)%elem_edge_rows. cbn.
    intros [-> E]%identity_inj; [|done|done]. apply hex_inj in E; [|by apply (Ht _ _ _ _ H2 H3)|by apply (Ht _ _ _ _ H2' H3')]. congruence.
  - intros a _. apply lookup_empty.
Qed.

Lemma index_at sid e nm m k : edge_typed e -> nm ∈ CT_MAPS -> e !! nm = Some m -> is_bytes k ->
  index sid e !! identity nm (hex k) = (w ← m !! k; if owned sid w then Some (hex w) else None).
Proof.
  intros Ht Hnm Em Hk. apply option_eq. intros v. rewrite index_lookup by done. split.
  - intros (nm' & m' & k' & w & H1 & H2 & H3 & H4 & E & ->). apply identity_inj in E as [<- E]; [|done|done]. apply hex_inj in E; [|done|by apply (Ht _ _ _ _ H2 H3)].
    assert (m' = m) as -> by congruence. subst k'. rewrite H3. simpl. by rewrite H4.
  - destruct (m !! k) as [w|] eqn:E; [|done]. simpl. destruct (owned sid w) eqn:Ho; [|done]. intros [= <-]. by exists nm, m, k, w.
Qed.

Lemma index_other sid e nm m m' k id : edge_typed e -> edge_typed (<[nm := m']> e) -> nm ∈ CT_MAPS -> e !! nm = Some m ->
  (forall k', k' <> k -> m' !! k' = m !! k') -> id <> identity nm (hex k) -> index sid (<[nm := m']> e) !! id = index sid e !! id.
Proof.
  intros Ht Ht' Hnm Em Hk Hid. apply option_eq. intros v. rewrite !index_lookup by done. unfold holds. split; intros (nm2 & m2 & k2 & w & H1 & H2 & H3 & H4 & -> & ->).
  - apply lookup_insert_Some in H2 as [[<- <-]|[Hne H2]]; [|by exists nm2, m2, k2, w]. exists nm, m, k2, w. rewrite Hk in H3 by (by intros ->). done.
  - destruct (decide (nm2 = nm)) as [->|Hne]; [|exists nm2, m2, k2, w; by rewrite lookup_insert_ne]. exists nm, m', k2, w. rewrite lookup_insert_eq.
    assert (m2 = m) as -> by congruence. rewrite Hk by (by intros ->). done.
Qed.

Lemma alter_map (e : Edge) (nm : rstr) (m : BpfMap) (f : BpfMap -> BpfMap) : e !! nm = Some m -> alter f nm e = <[nm := f m]> e.
Proof.
  intros E. apply map_eq. intros i. destruct (decide (i = nm)) as [->|Hne]; [by rewrite lookup_alter_eq, lookup_insert_eq, E|by rewrite lookup_alter_ne, lookup_insert_ne].
Qed.

Lemma index_update sid e nm m k v : edge_typed e -> nm ∈ CT_MAPS -> e !! nm = Some m -> is_bytes k -> is_bytes v -> owned sid v = true ->
  edge_typed (alter <[k := v]> nm e) /\ index sid (alter <[k := v]> nm e) = <[identity nm (hex k) := hex v]> (index sid e).
Proof.
  intros Ht Hnm Em Hk Hv Ho. rewrite (alter_map e nm m) by done. assert (edge_typed (<[nm := <[k := v]> m]> e)) as Ht'.
  { intros nm' m' k' v' [[<- <-]|[_ H]]%lookup_insert_Some; [|exact (Ht _ _ _ _ H)]. intros [[<- <-]|[_ H]]%lookup_insert_Some; [done|by apply (Ht _ _ _ _ Em)]. }
  split; [done|]. apply map_eq. intros id. destruct (decide (id = identity nm (hex k))) as [->|Hne].
  - rewrite lookup_insert_eq, (index_at sid _ nm (<[k := v]> m)), lookup_insert_eq by (done || apply lookup_insert_eq). simpl. by rewrite Ho.
  - rewrite lookup_insert_ne by done. apply (index_other sid e nm m _ k); [done..| |done]. intros k' Hk'. by rewrite lookup_insert_ne.
Qed.

Lemma index_delete sid e nm m k : edge_typed e -> nm ∈ CT_MAPS -> e !! nm = Some m -> is_bytes k ->
  edge_typed (alter (base.delete k) nm e) /\ index sid (alter (base.delete k) nm e) = base.delete (identity nm (hex k)) (index sid e).
Proof.
  intros Ht Hnm Em Hk. rewrite (alter_map e nm m) by done. assert (edge_typed (<[nm := base.delete k m]> e)) as Ht'.
  { intros nm' m' k' v' [[<- <-]|[_ H]]%lookup_insert_Some; [|exact (Ht _ _ _ _ H)]. intros [_ H]%lookup_delete_Some. by apply (Ht _ _ _ _ Em). }
  split; [done|]. apply map_eq. intros id. destruct (decide (id = identity nm (hex k))) as [->|Hne].
  - rewrite lookup_delete_eq, (index_at sid _ nm (base.delete k m)), lookup_delete_eq by (done || apply lookup_insert_eq). done.
  - rewrite lookup_delete_ne by done. apply (index_other sid e nm m _ k); [done..| |done]. intros k' Hk'. by rewrite lookup_delete_ne.
Qed.

(** ** Histories *)

Definition delta_id (e : ConntrackDeltaEntry) : rstr := identity (d_map e) (key_hex e).

Definition apply_delta (x : gmap rstr rstr) (e : ConntrackDeltaEntry) : gmap rstr rstr :=
  match value_hex e with Some v => <[delta_id e := v]> x | None => base.delete (delta_id e) x end.

Definition replay (h : list ConntrackDeltaEntry) : gmap rstr rstr := fold_left apply_delta h ∅.

(** A change of the service [sid] that a standby accepts. *)
Record delta_ok (sid : u32) (e : ConntrackDeltaEntry) : Prop := {
  do_map : d_map e ∈ CT_MAPS;
  do_key : exists k, is_bytes k /\ key_hex e = hex k;
  do_value : match operation e with
             | Upsert => exists v, is_bytes v /\ owned sid v = true /\ value_hex e = Some (hex v)
             | Delete => value_hex e = None
             end }.

(** Numbered from one. *)
Definition numbered (h : list ConntrackDeltaEntry) : Prop := forall i e, h !! i = Some e -> seq e = N.of_nat i + 1.

Lemma numbered_snoc h e : numbered h -> seq e = lenN h + 1 -> numbered (h ++ [e]).
Proof.
  intros H E i x Hx. apply lookup_app_Some in Hx as [Hx|[Hl Hx]]; [by apply H|]. apply list_lookup_singleton_Some in Hx as [Hi <-]. unfold lenN in E. rewrite E. lia.
Qed.

Lemma filter_numbered h a d : numbered h -> List.filter (fun e => a <? seq e) (drop d h) = drop (Nat.max d (N.to_nat a)) h.
Proof.
  intros H. remember (length h - d)%nat as n eqn:En. revert d En. induction n as [|n IH]; intros d En.
  - rewrite !drop_ge by lia. done.
  - destruct (lookup_lt_is_Some_2 h d ltac:(lia)) as [e He]. rewrite (drop_S _ _ _ He). cbn [List.filter]. rewrite (H _ _ He).
    rewrite IH by lia. destruct (N.ltb_spec a (N.of_nat d + 1)).
    + rewrite (Nat.max_l d), (Nat.max_l (S d)), (drop_S _ _ _ He) by lia. done.
    + by rewrite !Nat.max_r by lia.
Qed.

(** ** The journal is the end of a history *)

Record log_inv (sid : u32) (h : list ConntrackDeltaEntry) (st : HaJournalState) : Prop := {
  li_numbered : numbered h;
  li_ok : Forall (delta_ok sid) h;
  li_next : next_seq st = lenN h + 1;
  li_max : lenN h + 1 <= U.max 64;
  li_acked : acked_seq st <= lenN h;
  li_tail : exists d, (d <= length h)%nat /\ journal st = drop d h }.

(** The sequence numbers have run out. *)
Definition full (st : HaJournalState) : Prop := U.max 64 <= next_seq st.

Definition journal_inv (sid : u32) (h : list ConntrackDeltaEntry) (st : HaJournalState) : Prop :=
  full st \/ (log_inv sid h st /\ known st = replay h).

Definition same_service (st st' : HaJournalState) : Prop :=
  j_schema_version st' = j_schema_version st /\ j_service st' = j_service st /\ j_service_id st' = j_service_id st.

Lemma append_delta_full op m k v st : full st -> full (append_delta op m k v st).
Proof. unfold full. cbn. unfold U.saturating_add. lia. Qed.

Lemma append_delta_log sid op m k v st h : log_inv sid h st -> let e := MkDelta (lenN h + 1) op m k v in delta_ok sid e ->
  full (append_delta op m k v st) \/ log_inv sid (h ++ [e]) (append_delta op m k v st).
Proof.
  intros [H1 H2 H3 H4 H5 (d & Hd & H6)] e He. destruct (decide (lenN h + 1 = U.max 64)) as [E|E].
  { left. unfold full. cbn. unfold U.saturating_add. lia. }
  right. split.
  - by apply numbered_snoc.
  - apply Forall_app. split; [done|]. by constructor.
  - cbn. unfold U.saturating_add. rewrite lenN_app. change (lenN [e]) with 1. lia.
  - rewrite lenN_app. change (lenN [e]) with 1. lia.
  - cbn. rewrite lenN_app. lia.
  - exists d. rewrite length_app. split; [lia|]. cbn. rewrite drop_app_le, H6, H3 by lia. do 4 f_equal. lia.
Qed.

(** A change of an identity, as the loops of [refresh_ha_journal] make it. *)
Definition put (x : gmap rstr rstr) (c : rstr * option rstr) : gmap rstr rstr :=
  match c.2 with Some v => <[c.1 := v]> x | None => base.delete c.1 x end.

Definition change_ok (sid : u32) (op : HaDeltaOperation) (c : rstr * option rstr) : Prop :=
  exists m k, m ∈ CT_MAPS /\ is_bytes k /\ c.1 = identity m (hex k) /\
    match op with Upsert => exists v, is_bytes v /\ owned sid v = true /\ c.2 = Some (hex v) | Delete => c.2 = None end.

Lemma append_all_spec sid op l st h : Forall (change_ok sid op) l -> full st \/ log_inv sid h st ->
  exists st', append_all op l st = Ok st' /\ known st' = known st /\ same_service st st' /\
    (full st' \/ exists es, log_inv sid (h ++ es) st' /\ forall x, fold_left apply_delta es x = fold_left put l x).
Proof.
  intros Hl. revert st h. induction Hl as [|c l Hc Hl IH]; intros st h H; cbn [append_all].
  { exists st. split_and!; try done. destruct H as [H|H]; [by left|]. right. exists []. by rewrite app_nil_r. }
  destruct c as [id v]. destruct Hc as (m & k & Hm & Hk & E & Hv). cbn [fst snd] in E, Hv. subst id. rewrite split_identity by done.
  set (e := MkDelta (lenN h + 1) op m (hex k) v). assert (delta_ok sid e) as He by (split; [done|by exists k|destruct op; done]).
  assert (full (append_delta op m (hex k) v st) \/ log_inv sid (h ++ [e]) (append_delta op m (hex k) v st)) as H1.
  { destruct H as [H|H]; [left; by apply append_delta_full|by apply append_delta_log]. }
  destruct (IH _ _ H1) as (st' & -> & A & B & C). exists st'. split_and!; [done|by rewrite A|done|]. destruct C as [C|(es & C1 & C2)]; [by left|].
  right. exists (e :: es). rewrite <- app_assoc in C1. split; [exact C1|]. intros x. cbn [fold_left]. by rewrite C2.
Qed.

(** What a history leaves. *)
Lemma replay_app h es : replay (h ++ es) = fold_left apply_delta es (replay h).
Proof. apply fold_left_app. Qed.

Lemma replay_entries sid h id v : Forall (delta_ok sid) h -> replay h !! id = Some v ->
  exists m k w, m ∈ CT_MAPS /\ is_bytes k /\ is_bytes w /\ owned sid w = true /\ id = identity m (hex k) /\ v = hex w.
Proof.
  induction h as [|e h IH] using rev_ind; [done|]. intros [Hh He]%Forall_app. rewrite replay_app. cbn [fold_left]. inversion_clear He as [|? ? Hx _].
  destruct Hx as [H1 (k & Hk & Ek) H3]. unfold apply_delta. destruct (operation e).
  - destruct H3 as (w & Hw & Ho & ->). intros [[<- <-]|[_ H]]%lookup_insert_Some; [|by apply IH]. exists (d_map e), k, w. unfold delta_id. by rewrite Ek.
  - rewrite H3. intros [_ H]%lookup_delete_Some. by apply IH.
Qed.

(** The changes between two snapshots make one of the other. *)
Lemma btree_nodup m : NoDup (map fst (btree m)).
Proof. unfold btree. change (NoDup (fst <$> merge_sort key_le (map_to_list m))). rewrite merge_sort_Permutation. apply NoDup_fst_map_to_list. Qed.

Lemma elem_btree m id v : (id, v) ∈ btree m <-> m !! id = Some v.
Proof. unfold btree. rewrite merge_sort_Permutation. apply elem_of_map_to_list. Qed.

Lemma fold_changed old current x : fold_left put (changed old current) x =
  fold_left (fun x kv => if bool_decide (old !! kv.1 = Some kv.2) then x else <[kv.1 := kv.2]> x) (btree current) x.
Proof.
  unfold changed. revert x. induction (btree current) as [|[id v] l IH]; intros x; [done|]. cbn [List.filter fold_left fst snd].
  case_bool_decide; cbn [negb map fold_left]; by rewrite IH.
Qed.

Lemma fold_removed old current x : fold_left put (removed old current) x =
  fold_left (fun x k => base.delete k x) (List.filter (fun k => negb (bool_decide (is_Some (current !! k)))) (map fst (btree old))) x.
Proof.
  unfold removed. revert x. induction (btree old) as [|[id v] l IH]; intros x; [done|]. cbn [List.filter fold_left fst snd map].
  case_bool_decide; cbn [negb map fold_left]; by rewrite IH.
Qed.

Lemma changes_apply old current : fold_left put (removed old current) (fold_left put (changed old current) old) = current.
Proof.
  rewrite fold_changed, fold_removed. apply map_eq. intros id. rewrite fold_delete_lookup, fold_update_lookup by apply btree_nodup.
  assert (list_to_map (M := gmap rstr rstr) (btree current) = current) as ->.
  { rewrite <- (list_to_map_to_list current) at 2. apply list_to_map_proper; [apply btree_nodup|apply merge_sort_Permutation]. }
  destruct (current !! id) as [v|] eqn:Ec.
  - rewrite decide_False; [by case_bool_decide|]. intros Hin. apply list_elem_of_In, filter_In in Hin as [_ Hin]. rewrite Ec in Hin. by rewrite bool_decide_true in Hin.
  - case_decide as Hin; [done|]. destruct (old !! id) as [w|] eqn:Eo; [|done]. exfalso. apply Hin, list_elem_of_In, filter_In. split.
    + apply list_elem_of_In. change id with (id, w).1. apply list_elem_of_fmap_2. by apply elem_btree.
    + rewrite Ec. by rewrite bool_decide_false by (by intros []).
Qed.

Lemma changed_ok sid old e : edge_typed e -> Forall (change_ok sid Upsert) (changed old (index sid e)).
Proof.
  intros Ht. apply Forall_forall. intros c Hc%list_elem_of_In. unfold changed in Hc. apply in_map_iff in Hc as ([id v] & <- & Hc). apply filter_In in Hc as [Hc _].
  apply list_elem_of_In, elem_btree, index_lookup in Hc; [|done]. destruct Hc as (m & x & k & w & H1 & H2 & H3 & H4 & -> & ->).
  destruct (Ht _ _ _ _ H2 H3) as [Hk Hw]. exists m, k. split_and!; try done. by exists w.
Qed.

Lemma removed_ok sid h current : Forall (delta_ok sid) h -> Forall (change_ok sid Delete) (removed (replay h) current).
Proof.
  intros Hh. apply Forall_forall. intros c Hc%list_elem_of_In. unfold removed in Hc. apply in_map_iff in Hc as ([id v] & <- & Hc). apply filter_In in Hc as [Hc _].
  apply list_elem_of_In, elem_btree, (replay_entries sid) in Hc as (m & k & w & H1 & H2 & _ & _ & -> & _); [|done]. by exists m, k.
Qed.

Lemma trim_log sid h st : log_inv sid h st -> log_inv sid h (trim_journal st).
Proof.
  intros [H1 H2 H3 H4 H5 (d & Hd & H6)]. split; try done. unfold trim_journal. cbn [journal set_entries].
  assert (exists d', (if HA_JOURNAL_MAX_ENTRIES <? lenN (journal st) then drop (N.to_nat (lenN (journal st) - HA_JOURNAL_MAX_ENTRIES)) (journal st) else journal st) = drop d' h) as (d' & ->).
  { destruct (_ <? _); [|by exists d]. rewrite H6, drop_drop. by eexists. }
  rewrite filter_numbered by done. exists (Nat.min (Nat.max d' (N.to_nat (acked_seq st))) (length h)). split; [lia|].
  destruct (Nat.min_spec (Nat.max d' (N.to_nat (acked_seq st))) (length h)) as [[_ ->]|[Hl ->]]; [done|]. by rewrite !drop_ge by lia.
Qed.

Lemma trim_inv sid h st : journal_inv sid h st -> journal_inv sid h (trim_journal st).
Proof. intros [H|[H1 H2]]; [by left|right]. split; [by apply trim_log|done]. Qed.

(** ** Calls that only use up answers *)

Definition same (n n' : HaNode) : Prop :=
  lb n' = lb n /\ edges n' = edges n /\ queues n' = queues n /\ journals n' = journals n /\ cursors n' = cursors n /\ dfaults n' = dfaults n /\
  (hfaults n = [] -> hfaults n' = []).

Lemma same_refl n : same n n.
Proof. by split_and!. Qed.

Lemma keeps_ha_op : keeps same ha_op.
Proof.
  intros n0 n (H1 & H2 & H3 & H4 & H5 & H6 & H7). unfold ha_op. destruct (hfaults n) as [|f fs] eqn:E; [by split_and!|]. destruct f; (split; [done|]); split_and!; try done;
  intros H; specialize (H7 H); congruence.
Qed.

Lemma keeps_lift {A} (o : outcome A) : returns o -> keeps same (lift o).
Proof. intros Ho n0 n H. split; done. Qed.

#[local] Hint Resolve keeps_ha_op : keeps.

Lemma get_returns tier nm n : returns (LbCatalog.get tier nm n).1 /\ returns (list_services tier n).1.
Proof. unfold LbCatalog.get, list_services, bind. destruct (catalog n) as [specs|]; [|done]. by destruct (validate_catalog specs tier). Qed.

Lemma keeps_service_of tier nm : keeps same (service_of tier nm).
Proof. unfold service_of. keeps_tac. apply keeps_lift, get_returns. Qed.

Lemma keeps_dump sid e names : keeps same (dump_maps sid e names).
Proof. induction names as [|nm names IH]; cbn [dump_maps]; keeps_tac. Qed.

#[local] Hint Resolve keeps_service_of keeps_dump : keeps.

Lemma keeps_export tier now nm : keeps same (export_conntrack tier now nm).
Proof. unfold export_conntrack. keeps_tac. Qed.

Lemma keeps_load nm sid : keeps same (load_ha_journal nm sid).
Proof. unfold load_ha_journal. keeps_tac. Qed.

Lemma keeps_cursor nm sid : keeps same (load_import_cursor nm sid).
Proof. unfold load_import_cursor. keeps_tac. Qed.

Lemma service_of_ok tier nm n s n' : service_of tier nm n = (Ok s, n') -> name s = nm.
Proof.
  unfold service_of. intros (? & ? & [= <- <-] & (o & ? & E & E2)%bind_Ok)%bind_Ok. destruct o as [sp|]; [|done]. injection E2 as -> _.
  unfold lift in E. injection E as E _. unfold LbCatalog.get, bind, ret in E. destruct (list_services tier (lb n)) as [[l|e| |] n1]; try done. cbn in E.
  injection E as E. apply List.find_some in E as [_ E]. by apply bool_decide_eq_true in E.
Qed.

Lemma dump_ok sid e names n r n' : dump_maps sid e names n = (Ok r, n') -> r = edge_rows sid e names.
Proof.
  revert n r n'. induction names as [|nm names IH]; intros n r n'; cbn [dump_maps]; [by intros [= <- _]|]. unfold edge_rows. cbn [flat_map]. destruct (e !! nm) as [m|]; [|by apply IH].
  intros (? & n1 & _ & (rest & n2 & E & [= <- _])%bind_Ok)%bind_Ok. f_equal. by apply IH in E.
Qed.

Lemma export_ok tier now nm n s n' : export_conntrack tier now nm n = (Ok s, n') ->
  s_service_id s = service_id nm /\ exists e es, edges n = e :: es /\ snapshot_index s = index (service_id nm) (default ∅ e).
Proof.
  unfold export_conntrack. intros (spec & n1 & E1 & (? & ? & [= <- <-] & E)%bind_Ok)%bind_Ok.
  destruct (keeps_service_of tier nm n n (same_refl n)) as [_ Hs]. rewrite E1 in Hs. cbn in Hs. destruct Hs as (_ & He & _). rewrite He in E.
  destruct (edges n) as [|e es]; [done|]. apply bind_Ok in E as (r & n2 & Ed%dump_ok & [= <- _]). split; [done|]. exists e, es. split; [done|]. by rewrite Ed.
Qed.

(** ** The source *)

(** The file of the service [nm] stands for the history [h]. *)
Definition journal_ok (nm : rstr) (h : list ConntrackDeltaEntry) (n : HaNode) : Prop :=
  match journals n !! nm with
  | None => h = []
  | Some None => True
  | Some (Some st) => journal_inv (service_id nm) h st
  end.

Lemma load_ok nm h n st n' : load_ha_journal nm (service_id nm) n = (Ok st, n') -> journal_ok nm h n ->
  j_service st = nm /\ j_service_id st = service_id nm /\ journal_inv (service_id nm) h st.
Proof.
  unfold load_ha_journal, journal_ok. intros (? & ? & [= <- <-] & E)%bind_Ok. destruct (journals n !! nm) as [f|].
  - apply bind_Ok in E as (? & n1 & _ & E). destruct f as [fst0|]; [|done]. destruct (_ || _ || _) eqn:Eb; [done|]. injection E as -> _.
    rewrite !orb_false_iff, !negb_false_iff, !N.eqb_eq in Eb. destruct Eb as [[_ Eb] Ei]. apply bool_decide_eq_true in Eb. done.
  - injection E as <- _. intros ->. split_and!; [done|done|]. right. split; [|done]. split; try done. by exists 0%nat.
Qed.

Lemma log_known sid h k st : log_inv sid h st -> log_inv sid h (set_known k st).
Proof. intros [H1 H2 H3 H4 H5 H6]. by split. Qed.

Lemma ha_change_inv sid op m k v st st' h : journal_inv sid h st -> m ∈ CT_MAPS -> is_bytes k ->
  match op with Upsert => exists w, is_bytes w /\ owned sid w = true /\ v = Some (hex w) | Delete => v = None end ->
  ha_change op m (hex k) v st = Ok (Some st') -> same_service st st' /\ exists h', h `prefix_of` h' /\ journal_inv sid h' st'.
Proof.
  intros Hj Hm Hk Hv E. set (e := MkDelta (lenN h + 1) op m (hex k) v).
  assert (delta_ok sid e) as He by (split; [done|by exists k|destruct op; done]).
  assert (h `prefix_of` h ++ [e]) as Hp by (by apply prefix_app_r).
  destruct op; cbn [ha_change] in E.
  - destruct Hv as (w & Hw & Ho & ->). case_bool_decide as Hkn; [done|]. injection E as <-. split; [done|]. exists (h ++ [e]). split; [done|].
    destruct Hj as [Hj|[Hl Hkw]]; [left; exact (append_delta_full _ _ _ _ _ Hj)|]. destruct (append_delta_log sid Upsert m (hex k) (Some (hex w)) st h Hl He) as [H|H]; [by left|].
    right. split; [by apply log_known|]. cbn [known set_known]. rewrite replay_app, Hkw. done.
  - subst v. destruct (known st !! identity m (hex k)); [|done]. injection E as <-. split; [done|]. exists (h ++ [e]). split; [done|].
    destruct Hj as [Hj|[Hl Hkw]]; [left; apply append_delta_full; exact Hj|].
    destruct (append_delta_log sid Delete m (hex k) None (set_known (base.delete (identity m (hex k)) (known st)) st) h (log_known _ _ _ _ Hl) He) as [H|H]; [by left|].
    right. split; [done|]. cbn [known set_known append_delta]. rewrite replay_app, Hkw. done.
Qed.

Lemma append_all_full op l st st' : append_all op l st = Ok st' -> same_service st st' /\ known st' = known st /\ (full st -> full st').
Proof.
  revert st. induction l as [|[id v] l IH]; intros st; cbn [append_all]; [by intros [= <-]|]. destruct (split_once 124 id) as [[m k]|]; [|done]. intros E.
  destruct (IH _ E) as (H1 & H2 & H3). split_and!; [exact H1|exact H2|]. intros Hf. by apply H3, append_delta_full.
Qed.

Lemma refresh_inv sid st st1 st2 h e : journal_inv sid h st -> edge_typed e ->
  append_all Upsert (changed (known st) (index sid e)) st = Ok st1 -> append_all Delete (removed (known st) (index sid e)) st1 = Ok st2 ->
  same_service st st2 /\ exists h', h `prefix_of` h' /\ journal_inv sid h' (set_known (index sid e) st2).
Proof.
  intros Hj Ht E1 E2. destruct (append_all_full _ _ _ _ E1) as ((A1 & A2 & A3) & A4 & A5), (append_all_full _ _ _ _ E2) as ((B1 & B2 & B3) & B4 & B5).
  split; [split_and!; congruence|]. destruct Hj as [Hj|[Hl Hk]]; [exists h; split; [done|]; left; by apply B5, A5|].
  destruct (append_all_spec sid Upsert _ st h (changed_ok sid (known st) e Ht) (or_intror Hl)) as (x & Ex & _ & _ & H1). assert (x = st1) as -> by congruence.
  destruct H1 as [H1|(es & H1 & R1)]; [exists h; split; [done|]; left; by apply B5|].
  assert (Forall (change_ok sid Delete) (removed (known st) (index sid e))) as Hr by (rewrite Hk; apply removed_ok, Hl).
  destruct (append_all_spec sid Delete _ st1 (h ++ es) Hr (or_intror H1)) as (y & Ey & _ & _ & H2). assert (y = st2) as -> by congruence.
  destruct H2 as [H2|(es' & H2 & R2)]; [exists h; split; [done|]; by left|]. exists ((h ++ es) ++ es'). split; [rewrite <- app_assoc; by apply prefix_app_r|].
  right. split; [by apply log_known|]. cbn [known set_known]. rewrite !replay_app, R1, R2, <- Hk. symmetry. apply changes_apply.
Qed.

(** What the data plane queues: bytes, and a new value that starts with its service. *)
Definition event_ok (raw : bytes) : Prop :=
  is_bytes raw /\ (at_ 16 raw = 1 -> owned (from_le (slice 8 4 raw)) (slice 72 (N.to_nat (at_ 21 raw)) raw) = true).

Definition queues_ok (n : HaNode) : Prop := forall i q raw, queues n !! i = Some (Some q) -> raw ∈ q -> event_ok raw.

(** From [n0] the history of [nm] has only grown. *)
Record source_step (nm : rstr) (n0 n : HaNode) : Prop := {
  ss_lb : lb n = lb n0; ss_edges : edges n = edges n0; ss_queues : queues_ok n;
  ss_history : forall h0, journal_ok nm h0 n0 -> exists h, h0 `prefix_of` h /\ journal_ok nm h n }.

Lemma same_step nm n0 n n' : source_step nm n0 n -> same n n' -> source_step nm n0 n'.
Proof.
  intros [H1 H2 H3 H4] (E1 & E2 & E3 & E4 & _). split; [congruence|congruence|unfold queues_ok; by rewrite E3|]. unfold journal_ok in *. rewrite E4. done.
Qed.

Lemma keeps_same_step {A} nm (m : M HaNode A) : keeps same m -> keeps (source_step nm) m.
Proof. intros H n0 n Hs. destruct (H n n (same_refl n)) as [H1 H2]. split; [done|]. by eapply same_step. Qed.

Lemma save_step nm n0 n st : source_step nm n0 n ->
  (j_service st = nm -> forall h, journal_ok nm h n -> exists h', h `prefix_of` h' /\ journal_inv (service_id nm) h' st) ->
  source_step nm n0 (save_ha_journal st n).2 /\ returns (save_ha_journal st n).1.
Proof.
  intros Hs Hj. unfold save_ha_journal, bind. destruct (keeps_ha_op n n (same_refl n)) as [Hr Hk]. destruct (ha_op n) as [[[]|e| |] n1]; try done; cbn in *; [|by split; [eapply same_step|]].
  split; [|done]. destruct (same_step nm n0 n n1 Hs Hk) as [H1 H2 H3 H4]. split; [done|done|done|]. intros h0 H0. destruct Hs as [_ _ _ H5]. destruct (H5 h0 H0) as (h & Hp & Hh).
  unfold journal_ok. cbn [journals set_journal]. destruct (decide (j_service st = nm)) as [E|E].
  - destruct (Hj E h Hh) as (h' & Hp' & Hh'). exists h'. split; [by etrans|]. by rewrite E, lookup_insert_eq.
  - rewrite lookup_insert_ne by done. destruct (H4 h0 H0) as (h2 & Hp2 & Hh2). exists h2. by split.
Qed.

(** A bind whose second half depends on what the first returned. *)
Lemma bind_val {S A B} (J : S -> Prop) (m : M S A) (f : A -> M S B) n : returns (m n).1 /\ J (m n).2 ->
  (forall a n1, m n = (Ok a, n1) -> J n1 -> returns (f a n1).1 /\ J (f a n1).2) -> returns (bind m f n).1 /\ J (bind m f n).2.
Proof. intros [H1 H2] Hf. unfold bind. destruct (m n) as [[a|e| |] n1]; try done. by apply Hf. Qed.

Lemma load_name nm sid n st n' : load_ha_journal nm sid n = (Ok st, n') -> j_service st = nm.
Proof.
  unfold load_ha_journal. intros (? & ? & [= <- <-] & E)%bind_Ok. destruct (journals n !! nm) as [f|]; [|by injection E as <- _].
  apply bind_Ok in E as (? & ? & _ & E). destruct f as [fs|]; [|done]. destruct (_ || _ || _) eqn:Eb; [done|]. injection E as -> _.
  rewrite !orb_false_iff, !negb_false_iff in Eb. destruct Eb as [[_ Eb] _]. by apply bool_decide_eq_true in Eb.
Qed.

Lemma ha_change_service op m k v st st' : ha_change op m k v st = Ok (Some st') -> j_service st' = j_service st.
Proof.
  destruct op; cbn [ha_change]; [destruct v; [|done]; case_bool_decide; [done|]|destruct (known st !! _); [|done]]; intros E; injection E as <-; done.
Qed.

Lemma ha_change_returns op m k v st : returns (ha_change op m k v st).
Proof. by destruct op; cbn [ha_change]; [destruct v; [case_bool_decide|]|destruct (known st !! _)]. Qed.

Lemma event_step tier nm nm' op m k v : is_bytes k ->
  match op with Upsert => exists w, is_bytes w /\ owned (service_id nm') w = true /\ v = Some (hex w) | Delete => v = None end ->
  keeps (source_step nm) (append_ha_delta_event tier nm' op m (hex k) v).
Proof.
  intros Hk Hv n0 n Hs. unfold append_ha_delta_event. case_bool_decide as Hm; [|done]. cbn [negb].
  apply (bind_val (source_step nm n0)); [apply (keeps_same_step nm _ (keeps_service_of tier nm') n0 n Hs)|]. intros spec n1 ->%service_of_ok Hs1.
  apply (bind_val (source_step nm n0)); [apply (keeps_same_step nm _ (keeps_load nm' _) n0 n1 Hs1)|]. intros st n2 E2 Hs2.
  destruct (keeps_load nm' (service_id nm') n1 n1 (same_refl n1)) as [_ Hk2]. rewrite E2 in Hk2. destruct Hk2 as (_ & _ & _ & Ej & _). cbn [snd] in Ej.
  apply (bind_val (source_step nm n0)); [split; [apply ha_change_returns|done]|]. intros st' ? [= Ec <-] _. destruct st' as [st'|]; [|done].
  assert (j_service (trim_journal st') = nm -> forall h, journal_ok nm h n2 -> exists h', h `prefix_of` h' /\ journal_inv (service_id nm) h' (trim_journal st')) as Hj.
  { intros En h Hh. assert (journal_ok nm h n1) as Hh1 by (unfold journal_ok in *; by rewrite Ej in Hh).
    change (j_service (trim_journal st')) with (j_service st') in En. rewrite (ha_change_service _ _ _ _ _ _ Ec), (load_name _ _ _ _ _ E2) in En. subst nm'.
    destruct (load_ok nm h n1 st n2 E2 Hh1) as (_ & _ & Hi). destruct (ha_change_inv _ _ _ _ _ _ _ _ Hi Hm Hk Hv Ec) as (_ & h' & Hp & Hi'). exists h'. split; [done|]. by apply trim_inv. }
  destruct (save_step nm n0 n2 (trim_journal st') Hs2 Hj) as [H1 H2]. apply (bind_val (source_step nm n0)); [done|]. by intros [] n3 _ Hs3.
Qed.

Lemma bytes_slice i n raw : is_bytes raw -> is_bytes (slice i n raw).
Proof. intros H. unfold slice. by apply Forall_take, Forall_drop. Qed.

Lemma parse_event_ok raw ev : event_ok raw -> parse_event raw = Some ev ->
  exists k, is_bytes k /\ e_key_hex ev = hex k /\
    match e_operation ev with Upsert => exists w, is_bytes w /\ owned (e_service_id ev) w = true /\ e_value_hex ev = Some (hex w) | Delete => e_value_hex ev = None end.
Proof.
  intros [Hb Hv]. unfold parse_event, event_op. set (sid := from_le (slice 8 4 raw)) in *.
  destruct (N.eqb_spec (at_ 16 raw) 1) as [E1|E1]; [|destruct (N.eqb_spec (at_ 16 raw) 2); [|done]]; cbn [mbind option_bind]; (destruct (event_map raw) as [m|]; [|done]); cbn [mbind option_bind];
    (destruct (_ || _ || _); [done|]).
  - destruct (at_ 21 raw =? 0); [done|]. intros [= <-]. eexists. split_and!; [|reflexivity|]; [by apply bytes_slice|]. eexists. split_and!; [|exact (Hv E1)|reflexivity]. by apply bytes_slice.
  - intros [= <-]. eexists. split_and!; [|reflexivity|done]. by apply bytes_slice.
Qed.

Lemma owner_id specs sid nm : owner specs sid = Some nm -> service_id nm = sid.
Proof. unfold owner. destruct (find _ _) as [s|] eqn:E; [|done]. intros [= <-]. apply List.find_some in E as [_ E]. by apply N.eqb_eq in E. Qed.

Lemma drain_queue_step tier nm specs sid i remaining r : keeps (source_step nm) (drain_queue tier specs sid i remaining r).
Proof.
  revert r. induction remaining as [|budget IH]; intros r; cbn [drain_queue]; [apply keeps_ret|].
  apply keeps_bind; [apply keeps_same_step, keeps_ha_op|]. intros []. intros n0 n Hs. apply (bind_val (source_step nm n0)); [done|]. intros ? ? [= <- <-] _.
  destruct (queues n !! i) as [[[|raw q]|]|] eqn:Eq; try (by split).
  assert (source_step nm n0 (set_queues (<[i := Some q]> (queues n)) n)) as Hs1.
  { destruct Hs as [H1 H2 H3 H4]. split; [done|done| |done]. intros j q' raw' Hj Hin. cbn in Hj. apply list_lookup_insert_Some in Hj as [(-> & [= <-] & _)|[_ Hj]]; [|by eapply H3].
    eapply H3; [exact Eq|by right]. }
  apply (bind_val (source_step nm n0)); [done|]. intros [] ? [= <-] _.
  assert (event_ok raw) as He by (eapply (ss_queues _ _ _ Hs); [exact Eq|by left]).
  destruct (parse_event raw) as [ev|] eqn:Ep; [|by apply IH]. destruct (owner specs (e_service_id ev)) as [o|] eqn:Eo; [|by apply IH].
  destruct (parse_event_ok raw ev He Ep) as (k & Hk & -> & Hv). rewrite <- (owner_id _ _ _ Eo) in Hv. revert Hs1. apply keeps_bind; [|intros; by apply IH].
  by apply event_step.
Qed.

Lemma drain_dirs_step tier nm specs sid dirs remaining r : keeps (source_step nm) (drain_dirs tier specs sid dirs remaining r).
Proof.
  revert remaining r. induction dirs as [|i dirs IH]; intros remaining r; cbn [drain_dirs]; [apply keeps_ret|]. destruct (_ =? _)%nat; [apply keeps_ret|].
  apply keeps_bind; [apply keeps_get|]. intros n. destruct (queues n !! i) as [[q|]|]; try apply IH.
  apply keeps_bind; [apply keeps_same_step, keeps_ha_op|]. intros []. apply keeps_bind; [apply drain_queue_step|]. intros x. apply IH.
Qed.

Lemma drain_step tier nm max : keeps (source_step nm) (tolerate (drain_service_events tier nm max)).
Proof.
  assert (keeps (source_step nm) (drain_service_events tier nm max)) as Hd.
  { unfold drain_service_events. apply keeps_bind; [apply keeps_same_step, keeps_service_of|]. intros spec. apply keeps_bind; [apply keeps_get|]. intros n.
    apply keeps_bind; [apply keeps_same_step, keeps_lift, (get_returns tier nm)|]. intros specs. apply drain_dirs_step. }
  intros n0 n Hs. destruct (Hd n0 n Hs) as [H1 H2]. unfold tolerate. by destruct (drain_service_events tier nm max n) as [[x|e| |] n1].
Qed.

(** Acknowledging keeps the history and never lets go of an entry that was not acknowledged. *)
Lemma ack_log sid h st ack : log_inv sid h st -> ack <= next_seq st - 1 ->
  log_inv sid h (set_entries ack (List.filter (fun e => ack <? seq e) (journal st)) st).
Proof.
  intros [H1 H2 H3 H4 H5 (d & Hd & H6)] Ha. split; try done; [cbn; lia|]. cbn [journal set_entries]. rewrite H6, filter_numbered by done.
  exists (Nat.max d (N.to_nat ack)). split; [unfold lenN in *; lia|done].
Qed.

Lemma ack_step tier nm nm' ack : keeps (source_step nm) (ack_conntrack_delta tier nm' ack).
Proof.
  intros n0 n Hs. unfold ack_conntrack_delta.
  apply (bind_val (source_step nm n0)); [apply (keeps_same_step nm _ (keeps_service_of tier nm') n0 n Hs)|]. intros spec n1 ->%service_of_ok Hs1.
  apply (bind_val (source_step nm n0)); [apply (keeps_same_step nm _ (keeps_load nm' _) n0 n1 Hs1)|]. intros st n2 E2 Hs2.
  destruct (keeps_load nm' (service_id nm') n1 n1 (same_refl n1)) as [_ Hk2]. rewrite E2 in Hk2. destruct Hk2 as (_ & _ & _ & Ej & _). cbn [snd] in Ej.
  destruct (N.ltb_spec (next_seq st - 1) ack); [done|]. destruct (_ <? _); [done|]. set (st' := set_entries ack _ st).
  assert (j_service st' = nm -> forall h, journal_ok nm h n2 -> exists h', h `prefix_of` h' /\ journal_inv (service_id nm) h' st') as Hj.
  { intros En h Hh. assert (journal_ok nm h n1) as Hh1 by (unfold journal_ok in *; by rewrite Ej in Hh).
    change (j_service st = nm) in En. rewrite (load_name _ _ _ _ _ E2) in En. subst nm'. destruct (load_ok nm h n1 st n2 E2 Hh1) as (_ & _ & [Hf|[Hl Hkn]]); exists h; (split; [done|]); [by left|].
    right. split; [by apply ack_log|done]. }
  destruct (save_step nm n0 n2 st' Hs2 Hj) as [H1 H2]. apply (bind_val (source_step nm n0)); [done|]. by intros [] n3 _ Hs3.
Qed.

(** ** Batches *)

(** The entries of the batch follow [after]. *)
Record batch_ok (nm : rstr) (h : list ConntrackDeltaEntry) (after : u64) (b : ConntrackDeltaBatch) : Prop := {
  bo_schema : b_schema_version b = SERVICE_SCHEMA_VERSION; bo_service : b_service b = nm; bo_id : b_service_id b = service_id nm;
  bo_last : last_seq b = lenN h; bo_after : after <= lenN h; bo_barrier : snapshot_barrier b = false;
  bo_entries : reset_required b = false ->
    b_entries b = take (length (b_entries b)) (drop (N.to_nat after) h) /\ truncated b = (after + lenN (b_entries b) <? lenN h) }.

Lemma first_available_tail sid h st d : log_inv sid h st -> (d <= length h)%nat -> journal st = drop d h -> first_available st (next_seq st - 1) = N.of_nat d + 1.
Proof.
  intros [H1 _ H3 H4 _ _] Hd Ej. unfold first_available. rewrite Ej. destruct (drop d h) as [|e r] eqn:Ed.
  - assert (d = length h) as -> by (pose proof (length_drop h d) as L; rewrite Ed in L; simpl in L; lia). unfold U.saturating_add. unfold lenN in *. lia.
  - assert (h !! d = Some e) as Hl by (rewrite <- (Nat.add_0_r d), <- lookup_drop, Ed; done). by rewrite (H1 _ _ Hl).
Qed.

(** A reset is asked for exactly when an entry after [after] was dropped. *)
Lemma batch_of_spec sid h st after max b : log_inv sid h st -> j_service_id st = sid -> sid = service_id (j_service st) -> batch_of st after max = Ok b ->
  batch_ok (j_service st) h after b /\ exists d, (d <= length h)%nat /\ journal st = drop d h /\ reset_required b = (after <? N.of_nat d).
Proof.
  intros Hl Hid Hsid E. pose proof (li_tail _ _ _ Hl) as (d & Hd & Ej). unfold batch_of in E. rewrite (first_available_tail sid h st d Hl Hd Ej), Ej, filter_numbered in E by apply Hl.
  pose proof Hl as [H1 _ H3 H4 _ _]. rewrite H3, N.add_sub in E. destruct (N.ltb_spec (lenN h) after); [done|]. injection E as <-. cbn [reset_required].
  assert (((U.saturating_add 64 after 1 <? N.of_nat d + 1) && (after <? lenN h)) = (after <? N.of_nat d)) as Er.
  { unfold U.saturating_add, lenN in *. apply Bool.eq_iff_eq_true. rewrite andb_true_iff, !N.ltb_lt. lia. }
  rewrite Er. split; [|exists d; by split_and!]. split; cbn [b_schema_version b_service b_service_id last_seq reset_required b_entries truncated snapshot_barrier]; try done; [congruence|].
  intros Hr. rewrite Hr. apply N.ltb_ge in Hr. rewrite Nat.max_r by lia. cbn [negb andb]. split.
  - rewrite length_take. set (l := drop _ h). destruct (Nat.min_spec (N.to_nat (N.min (N.max max 1) HA_DELTA_MAX_BATCH)) (length l)) as [[_ ->]|[Hle ->]]; [done|]. by rewrite !take_ge by lia.
  - apply Bool.eq_iff_eq_true. rewrite !N.ltb_lt. unfold lenN in *. rewrite length_take, length_drop. lia.
Qed.

Definition source_edge (n : HaNode) : Edge := default ∅ (mjoin (head (edges n))).

Lemma export_spec tier now nm after max n b n' h0 : queues_ok n -> edge_typed (source_edge n) -> journal_ok nm h0 n ->
  export_conntrack_delta tier now nm after max n = (Ok b, n') -> last_seq b < U.max 64 - 1 ->
  exists h, h0 `prefix_of` h /\ journal_ok nm h n' /\ numbered h /\ Forall (delta_ok (service_id nm)) h /\ lenN h + 1 <= U.max 64 /\
    batch_ok nm h after b /\ replay h = index (service_id nm) (source_edge n).
Proof.
  intros Hq Ht Hj0 (? & n1 & E1 & (st & n2 & E2 & [= E3 <-])%bind_Ok)%bind_Ok Hlast.
  assert (source_step nm n n) as Hs0 by (split; [done|done|done|intros h Hh; by exists h]).
  destruct (drain_step tier nm 4096 n n Hs0) as [_ Hs1]. rewrite E1 in Hs1. cbn [snd] in Hs1. destruct Hs1 as [_ He1 _ Hh1]. destruct (Hh1 h0 Hj0) as (h1 & Hp1 & Hj1).
  unfold refresh_ha_journal in E2. apply bind_Ok in E2 as (snap & n3 & Ex & (st0 & n4 & El & (st1 & n5 & [= Ea <-] & (st2 & n6 & [= Eb <-] & (? & n7 & Es & [= <- <-])%bind_Ok)%bind_Ok)%bind_Ok)%bind_Ok).
  destruct (keeps_export tier now nm n1 n1 (same_refl n1)) as [_ Hk]. rewrite Ex in Hk. destruct Hk as (_ & _ & _ & Hjn & _). cbn [snd] in Hjn.
  apply export_ok in Ex as (Hsid & e & es & Ee & Ei). assert (index (service_id nm) (default ∅ e) = index (service_id nm) (source_edge n)) as Hsrc.
  { unfold source_edge. rewrite <- He1, Ee. done. }
  rewrite Hsrc in Ei. rewrite Ei in *. rewrite Hsid in El. assert (journal_ok nm h1 n3) as Hj3 by (unfold journal_ok in *; by rewrite Hjn).
  destruct (load_ok nm h1 n3 st0 n4 El Hj3) as (Hn & Hid & Hi). destruct (refresh_inv _ _ _ _ _ _ Hi Ht Ea Eb) as ((A1 & A2 & A3) & h & Hp & Hinv%trim_inv).
  set (st3 := trim_journal (set_known (index (service_id nm) (source_edge n)) st2)) in *.
  assert (j_service st3 = nm) as Hn3 by (transitivity (j_service st2); [done|congruence]). assert (j_service_id st3 = service_id nm) as Hid3 by (transitivity (j_service_id st2); [done|congruence]).
  assert (known st3 = index (service_id nm) (source_edge n)) as Hk3 by done. clearbody st3. unfold save_ha_journal in Es. apply bind_Ok in Es as (? & n8 & Eo & E7). assert (n7 = set_journal (j_service st3) st3 n8) as -> by (unfold modify in E7; congruence). exists h. split; [by etrans|].
  assert (journal_ok nm h (set_journal (j_service st3) st3 n8)) as Hjf by (unfold journal_ok; cbn [journals set_journal]; by rewrite Hn3, lookup_insert_eq).
  split; [exact Hjf|]. destruct Hinv as [Hf|[Hl Hkn]].
  { exfalso. unfold full in Hf. unfold batch_of in E3. destruct (_ <? _); [done|]. injection E3 as <-. cbn [last_seq] in Hlast. change (U.max 64) with 18446744073709551615 in *. lia. }
  pose proof Hl as [H1 H2 _ H4 _ _]. split_and!; try done; [|congruence]. rewrite <- Hn3. apply (batch_of_spec (service_id nm) h st3 after max b Hl Hid3 ltac:(by rewrite Hn3) E3).
Qed.

(** ** The standby *)

(** Every entry is as it was at some point of the history after the first [c] changes. *)
Definition between (h : list ConntrackDeltaEntry) (c : nat) (x : gmap rstr rstr) : Prop :=
  forall id, exists j, (c <= j <= length h)%nat /\ x !! id = replay (take j h) !! id.

Lemma between_le h c c' x : (c <= c')%nat -> between h c' x -> between h c x.
Proof. intros Hc H id. destruct (H id) as (j & Hj & E). exists j. split; [lia|done]. Qed.

Lemma between_grow h h' c x : h `prefix_of` h' -> between h c x -> between h' c x.
Proof. intros [r ->] H id. destruct (H id) as (j & Hj & E). exists j. rewrite length_app, take_app_le by lia. split; [lia|done]. Qed.

Lemma between_end h x : between h (length h) x -> x = replay h.
Proof. intros H. apply map_eq. intros id. destruct (H id) as (j & Hj & ->). by rewrite take_ge by lia. Qed.

Lemma replay_take_S h c e : h !! c = Some e -> replay (take (S c) h) = apply_delta (replay (take c h)) e.
Proof. intros He. by rewrite (take_S_r _ _ _ He), replay_app. Qed.

Lemma apply_delta_at x y e : apply_delta x e !! delta_id e = apply_delta y e !! delta_id e.
Proof. unfold apply_delta. destruct (value_hex e); by rewrite ?lookup_insert_eq, ?lookup_delete_eq. Qed.

Lemma apply_delta_ne x e id : id <> delta_id e -> apply_delta x e !! id = x !! id.
Proof. intros H. unfold apply_delta. destruct (value_hex e); by rewrite ?lookup_insert_ne, ?lookup_delete_ne. Qed.

(** The next change can be applied, to whatever is there. *)
Lemma between_step h c e x : h !! c = Some e -> between h c x -> between h (S c) (apply_delta x e).
Proof.
  intros He H id. pose proof (lookup_lt_Some _ _ _ He) as Hc. destruct (decide (id = delta_id e)) as [->|Hne].
  - exists (S c). split; [lia|]. rewrite (replay_take_S _ _ _ He). apply apply_delta_at.
  - rewrite apply_delta_ne by done. destruct (H id) as (j & Hj & E). destruct (decide (j = c)) as [->|Hjc]; [|exists j; split; [lia|done]].
    exists (S c). split; [lia|]. by rewrite (replay_take_S _ _ _ He), apply_delta_ne.
Qed.

Definition edges_between (sid : u32) (h : list ConntrackDeltaEntry) (c : nat) (n : HaNode) : Prop :=
  forall i e, edges n !! i = Some (Some e) -> edge_typed e /\ (forall nm, nm ∈ CT_MAPS -> is_Some (e !! nm)) /\ between h c (index sid e).

Definition covers (dirs : list nat) (n : HaNode) : Prop := NoDup dirs /\ forall i, i ∈ dirs <-> exists e, edges n !! i = Some (Some e).

Lemma existing_covers n : covers (existing (edges n)) n.
Proof.
  unfold existing. split; [apply NoDup_ListNoDup, List.NoDup_filter, List.seq_NoDup|]. intros i. rewrite list_elem_of_In, filter_In. split.
  - intros [_ H]. destruct (edges n !! i) as [[e|]|]; try done. by exists e.
  - intros [e E]. rewrite E. split; [|done]. apply in_seq. apply lookup_lt_Some in E. lia.
Qed.

(** Everything but the edges and the answers is as before. *)
Definition frame (n n' : HaNode) : Prop :=
  lb n' = lb n /\ queues n' = queues n /\ journals n' = journals n /\ cursors n' = cursors n /\ dfaults n' = dfaults n /\ (hfaults n = [] -> hfaults n' = []).

Lemma frame_trans a b c : frame a b -> frame b c -> frame a c.
Proof. intros (A1 & A2 & A3 & A4 & A5 & A6) (B1 & B2 & B3 & B4 & B5 & B6). split_and!; try congruence. auto. Qed.

Lemma same_frame n n' : same n n' -> frame n n'.
Proof. intros (A1 & A2 & A3 & A4 & A5 & A6 & A7). by split_and!. Qed.

(** [g] was applied to the edges in [dirs]; or to some of them only. *)
Definition touched (g : Edge -> Edge) (dirs : list nat) (n n' : HaNode) : Prop :=
  frame n n' /\ forall i, edges n' !! i = if decide (i ∈ dirs) then fmap g <$> edges n !! i else edges n !! i.
Definition half_touched (g : Edge -> Edge) (n n' : HaNode) : Prop :=
  frame n n' /\ forall i, edges n' !! i = edges n !! i \/ edges n' !! i = fmap g <$> edges n !! i.

Definition ready (nm : rstr) (dirs : list nat) (n : HaNode) : Prop := NoDup dirs /\ forall i, i ∈ dirs -> has_map nm i n = true.

Lemma on_edge_touched i g n : touched g [i] n (on_edge i g n).
Proof.
  split; [by split_and!|]. intros j. cbn [edges on_edge set_edges]. case_decide as H; [apply list_elem_of_singleton in H as ->; apply list_lookup_alter_eq|].
  apply list_lookup_alter_ne. intros ->. apply H. by left.
Qed.

Lemma ready_tail nm i dirs g n n' : ready nm (i :: dirs) n -> touched g [i] n n' -> ready nm dirs n'.
Proof.
  intros [Hn Hr] [_ He]. apply NoDup_cons in Hn as [Hi Hn]. split; [done|]. intros j Hj. unfold has_map. rewrite He, decide_False.
  - apply Hr. by right.
  - intros ->%list_elem_of_singleton. done.
Qed.

Lemma touched_cons g (i : nat) (dirs : list nat) n n1 n' : i ∉ dirs -> touched g [i] n n1 -> touched g dirs n1 n' -> touched g (i :: dirs) n n'.
Proof.
  intros Hi [F1 H1] [F2 H2]. split; [by eapply frame_trans|]. intros j. rewrite H2, H1. destruct (decide (j = i)) as [->|Hne].
  - by rewrite (decide_False (P := i ∈ dirs)), !decide_True by set_solver.
  - rewrite (decide_False (P := j ∈ [i])) by set_solver. repeat case_decide; set_solver.
Qed.

Lemma half_cons g (i : nat) n n1 n' (dirs : list nat) : i ∉ dirs -> touched g [i] n n1 -> half_touched g n1 n' -> (edges n' !! i = edges n1 !! i) -> half_touched g n n'.
Proof.
  intros Hi [F1 H1] [F2 H2] Hni. split; [by eapply frame_trans|]. intros j. destruct (decide (j = i)) as [->|Hne].
  - rewrite Hni, H1, decide_True by set_solver. by right.
  - destruct (H2 j) as [->| ->]; rewrite H1, decide_False by set_solver; auto.
Qed.

Lemma update_dirs_spec dirs nm k v n : ready nm dirs n ->
  match update_dirs dirs nm k v n with
  | (Ok _, n') => touched (alter <[k := v]> nm) dirs n n'
  | (Err _, n') => hfaults n <> [] /\ half_touched (alter <[k := v]> nm) n n' /\ forall j, j ∉ dirs -> edges n' !! j = edges n !! j
  | _ => False
  end.
Proof.
  revert n. induction dirs as [|i dirs IH]; intros n Hr; cbn [update_dirs].
  { split; [by split_and!|]. intros i. by rewrite decide_False by (by apply not_elem_of_nil). }
  unfold bind at 1. change (Prelude.get n) with (Ok n, n). cbv iota. rewrite (proj2 Hr i) by (by left). unfold bind at 1.
  assert (i ∉ dirs) as Hi by (by destruct Hr as [[? _]%NoDup_cons _]).
  destruct (keeps_ha_op n n (same_refl n)) as [Hret Hk]. destruct (ha_op n) as [[[]|e| |] n1] eqn:Eo; try done; cbn [snd] in Hk.
  - set (g := alter <[k := v]> nm). unfold bind at 1. change (modify (on_edge i g) n1) with (Ok tt, on_edge i g n1). cbv iota.
    assert (touched g [i] n (on_edge i g n1)) as Ht.
    { destruct (on_edge_touched i g n1) as [F1 H1]. split; [eapply frame_trans; [by apply same_frame|done]|]. intros j. rewrite H1. destruct Hk as (_ & -> & _). done. }
    specialize (IH (on_edge i g n1) (ready_tail _ _ _ _ _ _ Hr Ht)). unfold bind. destruct (update_dirs dirs nm k v (on_edge i g n1)) as [[w|e| |] n2]; try done.
    + by apply touched_cons with (on_edge i g n1).
    + destruct IH as (H1 & H2 & H3). split_and!.
      * intros Hf. apply H1. destruct Hk as (_ & _ & _ & _ & _ & _ & Hk). by apply Hk.
      * apply (half_cons g i n (on_edge i g n1) n2 dirs); [done|done|done|]. by apply H3.
      * intros j [Hj1 Hj2]%not_elem_of_cons. rewrite H3 by done. destruct Ht as [_ Ht]. by rewrite Ht, decide_False by set_solver.
  - split_and!.
    + intros Hf. unfold ha_op in Eo. by rewrite Hf in Eo.
    + split; [by apply same_frame|]. intros j. left. by destruct Hk as (_ & -> & _).
    + intros j _. by destruct Hk as (_ & -> & _).
Qed.

Lemma delete_dirs_spec dirs nm k n : ready nm dirs n -> dfaults n = [] ->
  exists n', delete_dirs dirs nm k n = (Ok tt, n') /\ touched (alter (base.delete k) nm) dirs n n'.
Proof.
  revert n. induction dirs as [|i dirs IH]; intros n Hr Hd; cbn [delete_dirs].
  { exists n. split; [done|]. split; [by split_and!|]. intros i. by rewrite decide_False by (by apply not_elem_of_nil). }
  unfold bind at 1. change (Prelude.get n) with (Ok n, n). cbv iota. rewrite (proj2 Hr i), Hd by (by left). unfold bind at 1.
  set (g := alter (base.delete k) nm). change (modify (on_edge i g) n) with (Ok tt, on_edge i g n). cbv iota. pose proof (on_edge_touched i g n) as Ht.
  destruct (IH (on_edge i g n) (ready_tail _ _ _ _ _ _ Hr Ht) Hd) as (n' & E & H). exists n'. split; [done|].
  apply touched_cons with (on_edge i g n); [by destruct Hr as [[? _]%NoDup_cons _]|done|done].
Qed.

Lemma covers_ready sid h c dirs nm n : covers dirs n -> edges_between sid h c n -> nm ∈ CT_MAPS -> ready nm dirs n.
Proof.
  intros [Hn Hc] He Hnm. split; [done|]. intros i Hi. apply Hc in Hi as [e E]. unfold has_map. rewrite E. apply bool_decide_eq_true. destruct (He _ _ E) as (_ & H & _). by apply H.
Qed.

Lemma touched_covers g dirs n n' : covers dirs n -> touched g dirs n n' -> covers dirs n'.
Proof.
  intros [Hn Hc] [_ Ht]. split; [done|]. intros i. rewrite Ht, Hc. case_decide as Hi; [|done]. apply Hc in Hi as [e E]. rewrite E. cbn. split; [by eexists|by exists e].
Qed.

Lemma half_covers g dirs n n' : covers dirs n -> half_touched g n n' -> covers dirs n'.
Proof.
  intros [Hn Hc] [_ Ht]. split; [done|]. intros i. rewrite Hc. destruct (Ht i) as [->| ->]; [done|]. destruct (edges n !! i) as [[e|]|]; cbn; split; intros [x E]; try done; by eexists.
Qed.

(** [g] does to an edge what the change [e] does to its index. *)
Definition does (sid : u32) (e : ConntrackDeltaEntry) (g : Edge -> Edge) : Prop :=
  forall x, edge_typed x -> (forall nm, nm ∈ CT_MAPS -> is_Some (x !! nm)) ->
    edge_typed (g x) /\ (forall nm, nm ∈ CT_MAPS -> is_Some (g x !! nm)) /\ index sid (g x) = apply_delta (index sid x) e.

Lemma alter_is_some (f : BpfMap -> BpfMap) (nm : rstr) (x : Edge) (nm' : rstr) : is_Some (x !! nm') -> is_Some (alter f nm x !! nm').
Proof. destruct (decide (nm' = nm)) as [->|Hne]; [rewrite lookup_alter_eq; by intros [m ->]|by rewrite lookup_alter_ne]. Qed.

Lemma does_upsert sid e k v : d_map e ∈ CT_MAPS -> is_bytes k -> key_hex e = hex k -> is_bytes v -> owned sid v = true -> value_hex e = Some (hex v) ->
  does sid e (alter <[k := v]> (d_map e)).
Proof.
  intros Hm Hk Ek Hv Ho Ev x Hx Hp. destruct (Hp _ Hm) as [m Em]. destruct (index_update sid x (d_map e) m k v Hx Hm Em Hk Hv Ho) as [H1 H2].
  split_and!; [done|intros nm Hnm; by apply alter_is_some, Hp|]. rewrite H2. unfold apply_delta, delta_id. by rewrite Ev, Ek.
Qed.

Lemma does_delete sid e k : d_map e ∈ CT_MAPS -> is_bytes k -> key_hex e = hex k -> value_hex e = None -> does sid e (alter (base.delete k) (d_map e)).
Proof.
  intros Hm Hk Ek Ev x Hx Hp. destruct (Hp _ Hm) as [m Em]. destruct (index_delete sid x (d_map e) m k Hx Hm Em Hk) as [H1 H2].
  split_and!; [done|intros nm Hnm; by apply alter_is_some, Hp|]. rewrite H2. unfold apply_delta, delta_id. by rewrite Ev, Ek.
Qed.

Lemma touched_between sid h c e g dirs n n' : h !! c = Some e -> does sid e g -> covers dirs n -> edges_between sid h c n -> touched g dirs n n' -> edges_between sid h (S c) n'.
Proof.
  intros He Hg [_ Hc] Hb [_ Ht] i x Hx. rewrite Ht in Hx. case_decide as Hi; [|exfalso; apply Hi, Hc; by exists x]. apply Hc in Hi as [y Ey]. rewrite Ey in Hx. cbn in Hx. injection Hx as <-.
  destruct (Hb _ _ Ey) as (H1 & H2 & H3). destruct (Hg y H1 H2) as (G1 & G2 & ->). split_and!; [done|done|]. by apply between_step.
Qed.

Lemma half_between sid h c e g n n' : h !! c = Some e -> does sid e g -> edges_between sid h c n -> half_touched g n n' -> edges_between sid h c n'.
Proof.
  intros He Hg Hb [_ Ht] i x Hx. destruct (Ht i) as [E|E]; [rewrite E in Hx; by apply Hb with i|]. rewrite E in Hx. destruct (edges n !! i) as [[y|]|] eqn:Ey; try done.
  cbn in Hx. injection Hx as <-. destruct (Hb _ _ Ey) as (H1 & H2 & H3). destruct (Hg y H1 H2) as (G1 & G2 & ->). split_and!; [done|done|].
  apply (between_le _ _ (S c)); [lia|]. by apply between_step.
Qed.

Section Replay.
Context (sid : u32) (h : list ConntrackDeltaEntry) (dirs : list nat).
Hypothesis Hnum : numbered h.
Hypothesis Hok : Forall (delta_ok sid) h.
Hypothesis Hmax : lenN h + 1 <= U.max 64.

(** What replaying some entries leaves: all of them applied, or a call failed. *)
Definition replayed (c c' : nat) (n : HaNode) (r : outcome (N * N * N) * HaNode) : Prop :=
  match r with
  | (Ok x, n') => x.1.1 = N.of_nat c' /\ frame n n' /\ covers dirs n' /\ edges_between sid h c' n'
  | (Err _, n') => hfaults n <> [] /\ frame n n' /\ covers dirs n' /\ edges_between sid h c n'
  | _ => False
  end.

Lemma replayed_next c c' n n1 r : (hfaults n = [] -> hfaults n1 = []) -> frame n n1 -> replayed (S c) c' n1 r -> replayed c c' n r.
Proof.
  intros Hf F. destruct r as [[x|e| |] n']; cbn; try done.
  - intros (H1 & H2 & H3 & H4). split_and!; [done|by eapply frame_trans|done|done].
  - intros (H1 & H2 & Hcv & H3). split_and!; [auto|by eapply frame_trans|done|]. intros i y Hy. destruct (H3 i y Hy) as (A & B & C). split_and!; [done|done|]. apply (between_le _ _ (S c)); [lia|done].
Qed.

Lemma apply_entries_spec k a c x y n : (a <= c)%nat -> (c <= length h)%nat -> covers dirs n -> dfaults n = [] -> edges_between sid h c n ->
  let es := take k (drop a h) in
  replayed c (Nat.max c (a + length es)) n (apply_entries sid dirs es (N.of_nat c) x y n).
Proof.
  revert a c x y n. induction k as [|k IH]; intros a c x y n Hac Hc Hcov Hd Hb.
  { change (take 0 (drop a h)) with (@nil ConntrackDeltaEntry). cbv zeta. rewrite Nat.max_l by (simpl; lia). split_and!; [done|by split_and!|done|done]. }
  destruct (h !! a) as [e|] eqn:He.
  2: { apply lookup_ge_None in He. rewrite drop_ge, take_nil by lia. cbv zeta. rewrite Nat.max_l by (simpl; lia). split_and!; [done|by split_and!|done|done]. }
  rewrite (drop_S _ _ _ He). cbn [take]. cbv zeta. cbn [apply_entries length]. rewrite (Hnum _ _ He). pose proof (lookup_lt_Some _ _ _ He) as Ha.
  replace (Nat.max c (a + S (length (take k (drop (S a) h))))) with (Nat.max c (S a + length (take k (drop (S a) h)))) by lia.
  destruct (N.leb_spec (N.of_nat a + 1) (N.of_nat c)) as [Hle|Hgt]; [by apply IH; [lia|..]|]. assert (a = c) as -> by lia.
  assert (U.saturating_add 64 (N.of_nat c) 1 = N.of_nat c + 1) as -> by (unfold U.saturating_add, lenN in *; lia). rewrite N.eqb_refl. cbn [negb].
  rewrite Forall_forall in Hok. destruct (Hok e (list_elem_of_lookup_2 _ _ _ He)) as [Hm (key & Hk & Ek) Hv]. rewrite bool_decide_true by done. cbn [negb].
  rewrite Ek. unfold bind at 1, lift. rewrite decode_hex_hex by done. replace (N.of_nat c + 1) with (N.of_nat (S c)) by lia.
  pose proof (covers_ready _ _ _ _ _ _ Hcov Hb Hm) as Hr. rewrite (Nat.max_r c) by lia. rewrite <- (Nat.max_r (S c) (S c + _)) by lia.
  destruct (operation e) eqn:Eop.
  - destruct Hv as (v & Hvb & Ho & Ev). rewrite Ev. unfold bind at 1. rewrite decode_hex_hex by done. rewrite Ho. cbn [negb].
    unfold bind at 1. pose proof (update_dirs_spec dirs (d_map e) key v n Hr) as Hu. pose proof (does_upsert sid e key v Hm Hk Ek Hvb Ho Ev) as Hg.
    destruct (update_dirs dirs (d_map e) key v n) as [[w|er| |] n1]; try done.
    + eapply replayed_next; [apply Hu|apply Hu|]. apply IH; [lia|lia|by eapply touched_covers| |by eapply touched_between]. destruct Hu as [(_ & _ & _ & _ & E & _) _]. congruence.
    + destruct Hu as (H1 & H2 & _). split_and!; [done|apply H2|by eapply half_covers|by eapply half_between].
  - rewrite Hv. cbn [bool_decide]. rewrite bool_decide_false by (by intros []). destruct (delete_dirs_spec dirs (d_map e) key n Hr Hd) as (n1 & E & Ht). unfold bind at 1. rewrite E.
    pose proof (does_delete sid e key Hm Hk Ek Hv) as Hg.
    eapply replayed_next; [apply Ht|apply Ht|]. apply IH; [lia|lia|by eapply touched_covers| |by eapply touched_between]. destruct Ht as [(_ & _ & _ & _ & E' & _) _]. congruence.
Qed.
End Replay.

(** ** Source and standby together *)

(** A standby that has applied the first [c] changes of [h], and perhaps some later ones. *)
Record standby_ok (tier nm : rstr) (h : list ConntrackDeltaEntry) (c : nat) (n : HaNode) : Prop := {
  sb_service : exists s, (LbCatalog.get tier nm (lb n)).1 = Ok (Some s);
  sb_cursor : match cursors n !! nm with
              | None => c = 0%nat
              | Some None => False
              | Some (Some k) => k = MkCursor SERVICE_SCHEMA_VERSION nm (service_id nm) (N.of_nat c)
              end;
  sb_len : (c <= length h)%nat;
  sb_edges : edges_between (service_id nm) h c n;
  sb_some : exists i e, edges n !! i = Some (Some e);
  sb_deletes : dfaults n = [] }.

Lemma standby_service tier nm h c n : standby_ok tier nm h c n -> exists s, service_of tier nm n = (Ok s, n) /\ name s = nm.
Proof.
  intros [(s & E) _ _ _ _ _]. exists s. assert (service_of tier nm n = (Ok s, n)) as Es; [|split; [done|by eapply service_of_ok]].
  unfold service_of, bind at 1. change (Prelude.get n) with (Ok n, n). cbv iota. unfold bind, lift. by rewrite E.
Qed.

Definition cursor_at (nm : rstr) (c : nat) : HaImportCursor := MkCursor SERVICE_SCHEMA_VERSION nm (service_id nm) (N.of_nat c).

Lemma standby_cursor tier nm h c n : standby_ok tier nm h c n ->
  exists r n', load_import_cursor nm (service_id nm) n = (r, n') /\ same n n' /\ (r = Ok (cursor_at nm c) \/ (exists e, r = Err e) /\ hfaults n <> []).
Proof.
  intros [_ Hc _ _ _ _]. destruct (keeps_cursor nm (service_id nm) n n (same_refl n)) as [_ Hk]. destruct (load_import_cursor nm (service_id nm) n) as [r n'] eqn:E. exists r, n'.
  split_and!; [done|done|]. unfold load_import_cursor, bind at 1 in E. change (Prelude.get n) with (Ok n, n) in E. cbv iota in E.
  destruct (cursors n !! nm) as [[k|]|]; [|done|].
  - subst k. unfold bind in E. destruct (ha_op n) as [[[]|e| |] n1] eqn:Eo.
    + rewrite !N.eqb_refl, bool_decide_true in E by done. cbn [negb orb] in E. injection E as <- <-. by left.
    + injection E as <- <-. right. split; [by exists e|]. intros Hf. unfold ha_op in Eo. by rewrite Hf in Eo.
    + unfold ha_op in Eo. by destruct (hfaults n) as [|[] ?].
    + unfold ha_op in Eo. by destruct (hfaults n) as [|[] ?].
  - injection E as <- <-. subst c. by left.
Qed.

Lemma standby_frame tier nm h c c' n n' : standby_ok tier nm h c n -> frame n n' -> (c' <= length h)%nat -> edges_between (service_id nm) h c' n' ->
  covers (existing (edges n)) n' ->
  (c' = c -> standby_ok tier nm h c' n') /\ standby_ok tier nm h c' (set_cursor nm (cursor_at nm c') n').
Proof.
  intros [H1 H2 H3 H4 (i & He) H6] (F1 & F2 & F3 & F4 & F5 & F6) Hc Hb [_ Hex]. destruct (proj1 (Hex i) (proj2 (proj2 (existing_covers n) i) He)) as (e & He').
  split; [intros ->|]; split; try done; try congruence; try (by exists i, e); try (by rewrite F1).
  - by rewrite F4.
  - cbn [lb set_cursor]. by rewrite F1.
  - cbn [cursors set_cursor]. by rewrite lookup_insert_eq.
  - cbn [dfaults set_cursor]. congruence.
Qed.

Lemma save_cursor nm c c' s : exists s', same s s' /\
  ((save_import_cursor (advance (cursor_at nm c) (N.of_nat c')) s = (Ok tt, set_cursor nm (cursor_at nm c') s')) \/
   (exists e, save_import_cursor (advance (cursor_at nm c) (N.of_nat c')) s = (Err e, s')) /\ hfaults s <> []).
Proof.
  unfold save_import_cursor, bind. destruct (keeps_ha_op s s (same_refl s)) as [Hr Hk]. destruct (ha_op s) as [[[]|e| |] s'] eqn:Eo; try done; exists s'; (split; [exact Hk|]).
  - by left.
  - right. split; [by exists e|]. intros Hf. unfold ha_op in Eo. by rewrite Hf in Eo.
Qed.

(** What an import leaves, at [c] before. *)
Definition imported (tier nm : rstr) (h : list ConntrackDeltaEntry) (c c' : nat) (s : HaNode) (r : outcome HaDeltaApplyReport * HaNode) : Prop :=
  match r with
  | (Ok r, s') => rp_last_applied_seq r = N.of_nat c' /\ standby_ok tier nm h c' s'
  | (Err _, s') => hfaults s <> [] /\ standby_ok tier nm h c s'
  | _ => False
  end.

Lemma finish_import tier nm h c c' x y s s2 : standby_ok tier nm h c s -> (c <= c' <= length h)%nat -> (hfaults s = [] -> hfaults s2 = []) -> frame s s2 -> covers (existing (edges s)) s2 ->
  edges_between (service_id nm) h c' s2 ->
  imported tier nm h c c' s ((do! save_import_cursor (advance (cursor_at nm c) (N.of_nat c')) in ret (MkReport nm x y (N.of_nat c') false)) s2).
Proof.
  intros Hs Hc Hf Hfr Hcov Hb. unfold bind. destruct (save_cursor nm c c' s2) as (s3 & Hsame & [->|[(e & ->) Hne]]); cbn; (assert (edges s3 = edges s2) as E3 by apply Hsame);
    (assert (covers (existing (edges s)) s3) as Hcov3 by (unfold covers; rewrite E3; exact Hcov)).
  - split; [done|]. apply (standby_frame tier nm h c c' s s3); [done|eapply frame_trans; [done|by apply same_frame]|lia| |done]. intros i e. rewrite E3. apply Hb.
  - split; [auto|]. apply (standby_frame tier nm h c c s s3); [done|eapply frame_trans; [done|by apply same_frame]|lia| |done|done].
    intros i z. rewrite E3. intros Hz. destruct (Hb i z Hz) as (A & B & C). split_and!; [done|done|]. by apply (between_le _ _ c'); [lia|].
Qed.

Lemma import_spec tier nm h after c b s : numbered h -> Forall (delta_ok (service_id nm)) h -> lenN h + 1 <= U.max 64 -> batch_ok nm h after b -> reset_required b = false ->
  after <= N.of_nat c -> standby_ok tier nm h c s ->
  imported tier nm h c (Nat.max c (N.to_nat after + length (b_entries b))) s (import_conntrack_delta tier nm b s).
Proof.
  intros Hn Hok Hmx [Bs Bn Bi Bl Baf Bb Be] Hr Ha Hs. destruct (Be Hr) as [Ees _]. clear Be.
  destruct (standby_service _ _ _ _ _ Hs) as (spec & Es & Hname). unfold import_conntrack_delta. unfold bind at 1. rewrite Es, Hname, Bs, Bn, Bi, Hr, Bb.
  rewrite !N.eqb_refl, bool_decide_true by done. cbn [negb orb andb].
  destruct (standby_cursor _ _ _ _ _ Hs) as (rc & s1 & Ec & Hsame & Hrc). unfold bind at 1. rewrite Ec.
  pose proof (same_frame _ _ Hsame) as Hf. assert (edges s1 = edges s) as He1 by apply Hsame.
  assert (edges_between (service_id nm) h c s1) as Hb1 by (intros i e; rewrite He1; apply Hs).
  assert (covers (existing (edges s)) s1) as Hcov by (rewrite <- He1; apply existing_covers).
  destruct Hrc as [-> |[[e ->] Hf0]]; [|split; [done|]; apply (standby_frame _ _ _ c c s s1); [done|done|apply Hs|done|done|done]].
  unfold bind at 1. change (Prelude.get s1) with (Ok s1, s1). cbv iota. rewrite He1. destruct (existing (edges s)) as [|d0 ds] eqn:Eex.
  { exfalso. destruct Hs as [_ _ _ _ (i & e & Hi) _]. destruct Hcov as [_ Hcov]. apply (not_elem_of_nil i), Hcov. rewrite He1. by exists e. }
  cbn [length Nat.eqb]. rewrite <- Eex in *. clear d0 ds Eex.
  pose proof (apply_entries_spec (service_id nm) h (existing (edges s)) Hn Hok Hmx (length (b_entries b)) (N.to_nat after) c 0 0 s1 ltac:(lia) ltac:(apply Hs) Hcov) as Hrun.
  assert (dfaults s1 = []) as Hd1 by (destruct Hsame as (_ & _ & _ & _ & _ & -> & _); apply Hs). specialize (Hrun Hd1 Hb1). cbv zeta in Hrun. rewrite <- Ees in Hrun.
  set (c' := Nat.max c (N.to_nat after + length (b_entries b))) in *. assert (c' <= length h)%nat as Hc'.
  { pose proof (sb_len _ _ _ _ _ Hs). assert (length (b_entries b) <= length h - N.to_nat after)%nat by (rewrite Ees, length_take, length_drop; lia). unfold lenN in *. lia. }
  unfold bind at 1. cbn [last_applied_seq cursor_at]. destruct (apply_entries _ _ _ _ _ _ s1) as [[[[cur x] y]|e| |] s2]; cbn [replayed] in Hrun; try done; destruct Hrun as (R1 & R2 & R3 & R4).
  - cbn [fst] in R1. subst cur. assert (frame s s2) as F2 by (by eapply frame_trans). apply finish_import; [done|lia|apply F2|done|done|done].
  - split; [intros H0; apply R1, Hsame, H0|]. apply (standby_frame _ _ _ c c s s2); [done|by eapply frame_trans|apply Hs|done|done|done].
Qed.

Lemma standby_grow tier nm h h' c n : h `prefix_of` h' -> standby_ok tier nm h c n -> standby_ok tier nm h' c n.
Proof.
  intros Hp [H1 H2 H3 H4 H5 H6]. split; try done.
  - apply prefix_length in Hp. lia.
  - intros i e He. destruct (H4 i e He) as (A & B & C). split_and!; [done|done|by eapply between_grow].
Qed.

(** C6: replication of the first interface converges.  From a source whose journal stands
    for a history [h] and a standby that has applied the first [c] changes of it (and,
    after calls that failed, perhaps some later ones), a batch exported after a position
    the standby has passed, that asks for no full resync, brings the standby to the end
    of the batch; whichever lookup, map update or file write of the import fails, the
    import reports it and the standby is where it was, ready to replay the batch; and once
    a batch is not truncated, every edge of the standby holds exactly the connections of
    the service on the first north-south interface of the source ([source_edge]; those of
    another interface are not replicated, [second_interface_dropped]).  The deletions of the
    import succeed ([sb_deletes]): a failing one is ignored by the code and the connection
    stays ([failed_delete_ignored]). *)
Theorem standby_converges tier now nm after max h c n b n' s :
  queues_ok n -> edge_typed (source_edge n) -> journal_ok nm h n -> export_conntrack_delta tier now nm after max n = (Ok b, n') -> last_seq b < U.max 64 - 1 ->
  reset_required b = false -> after <= N.of_nat c -> standby_ok tier nm h c s ->
  exists h', h `prefix_of` h' /\ journal_ok nm h' n' /\
  match import_conntrack_delta tier nm b s with
  | (Ok r, s') =>
      let c' := Nat.max c (N.to_nat after + length (b_entries b)) in
      rp_last_applied_seq r = N.of_nat c' /\ standby_ok tier nm h' c' s' /\
      (truncated b = false -> forall i e, edges s' !! i = Some (Some e) -> index (service_id nm) e = index (service_id nm) (source_edge n))
  | (Err _, s') => hfaults s <> [] /\ standby_ok tier nm h' c s'
  | _ => False
  end.
Proof.
  intros Hq Ht Hj E Hl Hr Ha Hs. destruct (export_spec tier now nm after max n b n' h Hq Ht Hj E Hl) as (h' & Hp & Hj' & Hn & Hok & Hmx & Hb & Hrep).
  exists h'. split; [done|]. split; [done|]. apply (standby_grow _ _ _ h') in Hs; [|done].
  pose proof (import_spec tier nm h' after c b s Hn Hok Hmx Hb Hr Ha Hs) as Hi. destruct (import_conntrack_delta tier nm b s) as [[r|e| |] s']; try done. destruct Hi as [H1 H2].
  split_and!; [done|done|]. intros Etr i e He. destruct (bo_entries _ _ _ _ Hb Hr) as [_ Et]. rewrite Et in Etr. apply N.ltb_ge in Etr.
  destruct (sb_edges _ _ _ _ _ H2 i e He) as (_ & _ & Hbt). rewrite <- Hrep. apply between_end.
  pose proof (sb_len _ _ _ _ _ H2) as Hlen. replace (length h') with (Nat.max c (N.to_nat after + length (b_entries b))); [done|]. unfold lenN in Etr. lia.
Qed.

(** ** An example, and what the replication does not cover *)

Definition example_sid : u32 := service_id (name two_backends).
Definition example_flow : bytes := le_bytes 4 example_sid ++ repeat 7 20.
Definition empty_edge : Edge := list_to_map (map (fun nm => (nm, ∅)) CT_MAPS).
Definition flow_edge : Edge := alter (fun _ => {[ [1; 2] := example_flow ]}) (bstr "fluxvm_fct4") empty_edge.
Definition node_with (es : list (option Edge)) (qs : list (option (list bytes))) (df : list bool) : HaNode :=
  MkHa (MkNode (Some [two_backends]) None []) es qs ∅ ∅ [] df.

Definition example_export := export_conntrack_delta (bstr "S") 0 (name two_backends) 0 100 (node_with [Some flow_edge] [None] []).
Definition example_batch : ConntrackDeltaBatch := match example_export with (Ok b, _) => b | _ => MkBatch 0 [] 0 0 0 0 true false false [] end.

Lemma flow_edge_typed e : e = flow_edge \/ e = empty_edge -> edge_typed e.
Proof.
  intros He nm m k v Hm Hk.
  assert (map_Forall (fun _ (m : BpfMap) => map_Forall (fun k v => bytesb k = true /\ bytesb v = true) m) e) as Hf by (destruct He as [->| ->]; by_eval).
  destruct (Hf _ _ Hm _ _ Hk) as [H1 H2]. by rewrite <- !bytesb_spec.
Qed.

Lemma standby_converges_witness :
  match import_conntrack_delta (bstr "S") (name two_backends) example_batch (node_with [Some empty_edge] [None] []) with
  | (Ok _, s') => forall i e, edges s' !! i = Some (Some e) -> index example_sid e = index example_sid flow_edge
  | _ => False
  end.
Proof.
  assert (standby_ok (bstr "S") (name two_backends) [] 0 (node_with [Some empty_edge] [None] [])) as Hs.
  { split; [by eexists; vm_compute|done|simpl; lia| |by exists 0%nat, empty_edge|done]. intros i e He. apply list_lookup_singleton_Some in He as [_ [= <-]].
    split_and!; [apply flow_edge_typed; by right| |].
    - apply Forall_forall. by_eval.
    - intros id. exists 0%nat. split; [simpl; lia|]. vm_compute. done. }
  destruct (standby_converges (bstr "S") 0 (name two_backends) 0 100 [] 0 (node_with [Some flow_edge] [None] []) example_batch example_export.2 (node_with [Some empty_edge] [None] []))
    as (h' & _ & _ & H).
  - intros i q raw Hq. apply list_lookup_singleton_Some in Hq as [_ Hq]. done.
  - apply flow_edge_typed. by left.
  - done.
  - vm_compute. reflexivity.
  - by vm_compute.
  - by vm_compute.
  - done.
  - exact Hs.
  - destruct (import_conntrack_delta _ _ example_batch _) as [[r|e| |] s']; [|by destruct H as [H _]|exact H|exact H]. destruct H as (_ & _ & H). apply H. by vm_compute.
Defined.

(** A deletion the kernel refuses is reported as done, and the standby keeps the connection. *)
Lemma failed_delete_ignored :
  let b := MkBatch SERVICE_SCHEMA_VERSION (name two_backends) example_sid 0 1 0 false false false [MkDelta 1 Delete (bstr "fluxvm_fct4") (hex [1; 2]) None] in
  let r := import_conntrack_delta (bstr "S") (name two_backends) b (node_with [Some flow_edge] [None] [true]) in
  r.1 = Ok (MkReport (name two_backends) 0 1 1 false) /\ edges r.2 = [Some flow_edge].
Proof. split; vm_compute; reflexivity. Qed.

(** A full snapshot removes nothing: connections that ended on the source stay. *)
Lemma resync_keeps_stale :
  let s := MkSnap SERVICE_SCHEMA_VERSION (name two_backends) example_sid 0 [] in
  let r := import_conntrack (bstr "S") (name two_backends) s (node_with [Some flow_edge] [None] []) in
  r.1 = Ok 0 /\ edges r.2 = [Some flow_edge].
Proof. split; vm_compute; reflexivity. Qed.

(** An event of the second interface is journalled and taken back by the same export. *)
Definition example_event : bytes := repeat 0 8 ++ le_bytes 4 example_sid ++ repeat 0 4 ++ [1; 1; 4; 6; 2; 24; 0; 0] ++ [1; 2] ++ repeat 0 46 ++ example_flow ++ repeat 0 32.

Lemma second_interface_dropped :
  match export_conntrack_delta (bstr "S") 0 (name two_backends) 0 100 (node_with [Some empty_edge; Some flow_edge] [Some []; Some [example_event]] []) with
  | (Ok b, _) => map (fun e => (operation e, key_hex e)) (b_entries b) = [(Upsert, hex [1; 2]); (Delete, hex [1; 2])]
  | _ => False
  end.
Proof. vm_compute. done. Qed.
