(* ===== verification/Pressure.v ===== *)
(** * Memory pressure: admission and idle reclaim

    [crates/fluxvm-core/src/pressure_admission.rs]: the thresholds on what the host
    reports and the parsers of what it reports, with [crates/fluxvm-cgroup/src/pressure.rs]
    for PSI; [crates/fluxvm-scheduler/src/density.rs]: the gate of the create path that
    waits for pressure to clear, the memory account of a VMM and the balloon of idle
    sandboxes.

    Files are texts of code points or unreadable.  The standard library's reader of
    decimal fractions is an argument of the PSI parser; comparisons are those of
    binary64.  What the clock and the host show at each turn of the waiting loop, and
    what a VMM answers to a balloon request, are arguments. *)

From stdpp Require Import prelude list strings gmap.
From Stdlib Require Import NArith Lia SpecFloat.
From S2P Require Import Prelude RustStr RateLimiter VirtioBalloon.

(** ** The host *)

Inductive PressureLevel := LevelNormal | LevelWarn | LevelCritical.

#[global] Instance PressureLevel_eq_dec : EqDecision PressureLevel.
Proof. solve_decision. Defined.

Definition from_sysctl (v : Z) : option PressureLevel :=
  if (v =? 1)%Z then Some LevelNormal else if (v =? 2)%Z then Some LevelWarn else if (v =? 4)%Z then Some LevelCritical else None.

(** [PartialOrd] of the enum. *)
Definition level_rank (l : PressureLevel) : N := match l with LevelNormal => 0 | LevelWarn => 1 | LevelCritical => 2 end.

Record HostPressure := MkHost {
  mem_available_mib : option u64; mem_total_mib : option u64; psi_some_avg10 : option f64; psi_full_avg10 : option f64; level : option PressureLevel }.
Definition no_pressure : HostPressure := MkHost None None None None None.

(** The thresholds of [config::Policy]. *)
Record PressurePolicy := MkPressure {
  min_host_mem_available_mib : option u64; max_host_mem_psi_some_avg10 : option f64; max_host_mem_psi_full_avg10 : option f64;
  deny_host_pressure_level : option PressureLevel; pressure_defer_secs : u64 }.

Inductive PressureDeny :=
| LowMemory (available_mib requested_mib reserve_mib : u64)
| PsiSome (avg10 max : f64)
| PsiFull (avg10 max : f64)
| DenyLevel (l deny_at : PressureLevel).

Definition f64_gt (x y : f64) : bool := SFltb y x.

(** A threshold whose input the host does not expose is skipped. *)
Definition threshold {A B} (t : option A) (v : option B) (bad : A -> B -> bool) (deny : A -> B -> PressureDeny) : option PressureDeny :=
  match t, v with Some t, Some v => if bad t v then Some (deny t v) else None | _, _ => None end.

Definition check_pressure (requested_mib : u64) (p : PressurePolicy) (h : HostPressure) : PressureDeny + () :=
  match threshold (min_host_mem_available_mib p) (mem_available_mib h) (fun reserve avail => avail - requested_mib <? reserve) (fun reserve avail => LowMemory avail requested_mib reserve) with
  | Some d => inl d
  | None =>
  match threshold (max_host_mem_psi_some_avg10 p) (psi_some_avg10 h) (fun max avg => f64_gt avg max) (fun max avg => PsiSome avg max) with
  | Some d => inl d
  | None =>
  match threshold (max_host_mem_psi_full_avg10 p) (psi_full_avg10 h) (fun max avg => f64_gt avg max) (fun max avg => PsiFull avg max) with
  | Some d => inl d
  | None =>
  match threshold (deny_host_pressure_level p) (level h) (fun deny l => level_rank deny <=? level_rank l) (fun deny l => DenyLevel l deny) with
  | Some d => inl d
  | None => inr tt
  end end end end.

Definition is_enabled (p : PressurePolicy) : bool :=
  bool_decide (is_Some (min_host_mem_available_mib p)) || bool_decide (is_Some (max_host_mem_psi_some_avg10 p)) ||
  bool_decide (is_Some (max_host_mem_psi_full_avg10 p)) || bool_decide (is_Some (deny_host_pressure_level p)).

(** ** Parsers *)

(** [rest.split_whitespace().next().and_then(|v| v.parse().ok())] *)
Definition first_number (s : rstr) : option u64 := w ← head (split_whitespace s); parse_dec 64 w.

Definition meminfo_line (r : option u64 * option u64) (line : rstr) : option u64 * option u64 :=
  match split_once 58 line with
  | None => r
  | Some (key, rest) =>
      let mib := (fun k => k / 1024) <$> first_number rest in
      if bool_decide (key = bstr "MemAvailable") then (mib, r.2) else if bool_decide (key = bstr "MemTotal") then (r.1, mib) else r
  end.

Definition parse_meminfo (text : rstr) : option u64 * option u64 := fold_left meminfo_line (lines text) (None, None).

(** What follows the first occurrence of [pat], and what is before the next one. *)
Fixpoint after_str (pat s : rstr) : option rstr :=
  match strip_prefix pat s with
  | Some r => Some r
  | None => match s with [] => None | _ :: s => after_str pat s end
  end.
Fixpoint before_str (pat s : rstr) : rstr :=
  match strip_prefix pat s with
  | Some _ => []
  | None => match s with [] => [] | c :: s => c :: before_str pat s end
  end.

Definition vm_stat_keys : list rstr := [bstr "Pages free"; bstr "Pages inactive"; bstr "Pages speculative"; bstr "Pages purgeable"].

Definition vm_stat_line (r : u64 * bool) (line : rstr) : u64 * bool :=
  match split_once 58 line with
  | None => r
  | Some (key, val) =>
      if bool_decide (trim key ∈ vm_stat_keys) then
        match parse_dec 64 (trim_end_matches 46 (trim val)) with Some n => (U.add 64 r.1 n, true) | None => r end
      else r
  end.

Definition parse_vm_stat (text : rstr) : option u64 :=
  match lines text with
  | [] => None
  | l :: ls =>
      rest ← after_str (bstr "page size of ") l;
      page_size ← first_number (before_str (bstr "page size of ") rest);
      let r := fold_left vm_stat_line ls (0, false) in
      if r.2 then Some (U.mul 64 r.1 page_size / 1048576) else None
  end.

Section Psi.
Variable parse_f64 : rstr -> option f64.

Record PressureRecord := MkPsi { avg10 : f64; avg60 : f64; avg300 : f64; total : u64 }.
Record PressureStats := MkStats { some_rec : PressureRecord; full_rec : option PressureRecord }.

(** One [key=value] token. *)
Definition psi_token (r : PressureRecord) (token : rstr) : option PressureRecord :=
  kv ← split_once 61 token;
  let '(key, value) := kv in
  if bool_decide (key = bstr "avg10") then (fun x => MkPsi x (avg60 r) (avg300 r) (total r)) <$> parse_f64 value
  else if bool_decide (key = bstr "avg60") then (fun x => MkPsi (avg10 r) x (avg300 r) (total r)) <$> parse_f64 value
  else if bool_decide (key = bstr "avg300") then (fun x => MkPsi (avg10 r) (avg60 r) x (total r)) <$> parse_f64 value
  else if bool_decide (key = bstr "total") then (fun x => MkPsi (avg10 r) (avg60 r) (avg300 r) x) <$> parse_dec 64 value
  else Some r.

Fixpoint psi_tokens (r : PressureRecord) (ts : list rstr) : option PressureRecord :=
  match ts with [] => Some r | t :: ts => r ← psi_token r t; psi_tokens r ts end.

Definition psi_zero : PressureRecord := MkPsi (S754_zero false) (S754_zero false) (S754_zero false) 0.

Definition parse_pressure_line (line : rstr) : option (rstr * PressureRecord) :=
  match split_whitespace line with [] => None | kind :: ts => (fun r => (kind, r)) <$> psi_tokens psi_zero ts end.

Fixpoint pressure_lines (ls : list rstr) (s f : option PressureRecord) : option (option PressureRecord * option PressureRecord) :=
  match ls with
  | [] => Some (s, f)
  | l :: ls =>
      let line := trim l in
      if bool_decide (line = []) then pressure_lines ls s f
      else
        kr ← parse_pressure_line line;
        let '(kind, r) := kr in
        if bool_decide (kind = bstr "some") then pressure_lines ls (Some r) f
        else if bool_decide (kind = bstr "full") then pressure_lines ls s (Some r) else pressure_lines ls s f
  end.

Definition parse_pressure (content : rstr) : option PressureStats :=
  sf ← pressure_lines (lines content) None None;
  s ← sf.1;
  Some (MkStats s sf.2).

(** The two files; [None] is one that cannot be read. *)
Definition sample_from (meminfo psi : option rstr) : HostPressure :=
  let m := from_option parse_meminfo (None, None) meminfo in
  let st := psi ≫= parse_pressure in
  MkHost m.1 m.2 ((fun s => avg10 (some_rec s)) <$> st) (st ≫= fun s => avg10 <$> full_rec s) None.
End Psi.

(** ** The gate of the create path *)

Section Admit.
Variables (policy : PressurePolicy) (requested_mib : u64).
(** The sample of turn [i] and the time the turn looks at the clock, in seconds since
    the gate was entered. *)
Variables (host : nat -> HostPressure) (clock : nat -> N).

Fixpoint admit_loop (fuel : nat) (i : nat) : outcome (PressureDeny + ()) :=
  match fuel with
  | O => Loop
  | S fuel =>
      match check_pressure requested_mib policy (host i) with
      | inr _ => Ok (inr tt)
      | inl d => if pressure_defer_secs policy <=? clock i then Ok (inl d) else admit_loop fuel (S i)
      end
  end.

(** [uptime]: the monotonic clock when the gate is entered; its sum with the wait
    overflows the [i64] of an [Instant] and panics beyond it. *)
Definition admit_under_pressure (uptime : N) : outcome (PressureDeny + ()) :=
  if negb (is_enabled policy) then Ok (inr tt)
  else if 2 ^ 63 <=? uptime + pressure_defer_secs policy then Panic
  else admit_loop (S (N.to_nat (pressure_defer_secs policy))) 0.
End Admit.

(** ** Idle reclaim *)

Definition idle_balloon_target_mib (memory : u64) (percent : u8) : u64 :=
  let pct := N.min percent 90 in
  N.min (U.mul 64 memory pct / 100) (memory - MIN_GUEST_MIB).

Inductive ReclaimAction := Inflate | Deflate | Nothing.

Definition reclaim_action (idle inflated : bool) : ReclaimAction :=
  match idle, inflated with true, false => Inflate | false, true => Deflate | _, _ => Nothing end.

Definition PRESSURE_RECLAIM_SECS : u64 := 60.

Definition reclaim_after_secs (idle_balloon_secs : u64) (l : option PressureLevel) : u64 :=
  match l with Some LevelWarn | Some LevelCritical => N.min idle_balloon_secs PRESSURE_RECLAIM_SECS | _ => idle_balloon_secs end.

(** A listed VM: [eligible] is [autopause_eligible], [last] its last activity. *)
Record IdleVm := MkIdle { vm_id : N; eligible : bool; running : bool; last : Z; vm_memory_mib : u64 }.

Section Tick.
Variables (percent : u8) (cutoff : Z).
(** Whether the VMM takes the request. *)
Variable answer : N -> u64 -> bool.

(** One VM: the set of balloons the scanner inflated, the requests made, the count. *)
Definition reclaim_vm (v : IdleVm) (st : gset N * list (N * u64) * N) : gset N * list (N * u64) * N :=
  let '(inflated, log, changed) := st in
  if negb (eligible v) || negb (running v) then st
  else
    let mine := bool_decide (vm_id v ∈ inflated) in
    let move target :=
      if (target =? 0) && negb mine then st
      else if answer (vm_id v) target then
        ((if target =? 0 then inflated ∖ {[vm_id v]} else inflated ∪ {[vm_id v]}), log ++ [(vm_id v, target)], changed + 1)
      else (inflated, log ++ [(vm_id v, target)], changed) in
    match reclaim_action (last v <? cutoff)%Z mine with
    | Inflate => move (idle_balloon_target_mib (vm_memory_mib v) percent)
    | Deflate => move 0
    | Nothing => st
    end.

Definition reclaim_vms (vms : list IdleVm) (st : gset N * list (N * u64) * N) : gset N * list (N * u64) * N := fold_left (fun st v => reclaim_vm v st) vms st.
End Tick.

Definition idle_reclaim_tick (idle_balloon_secs : u64) (percent : u8) (l : option PressureLevel) (now : Z) (answer : N -> u64 -> bool) (vms : list IdleVm)
    (inflated : gset N) : gset N * list (N * u64) * N :=
  let secs := reclaim_after_secs idle_balloon_secs l in
  if secs =? 0 then (inflated, [], 0) else reclaim_vms percent (now - Z.of_N secs) answer vms (inflated, [], 0).

(** ** The memory account of a VMM *)

Record MemUsage := MkMem { rss_kib : u64; pss_kib : u64; private_kib : u64; shared_kib : u64; swap_kib : u64 }.

(** The variables of the loop. *)
Record Smaps := MkSmaps { sm_rss : u64; sm_pss : u64; sm_swap : u64; seen_pss : bool; private_clean : u64; private_dirty : u64; shared_clean : u64; shared_dirty : u64 }.

Definition smaps_line (m : Smaps) (line : rstr) : Smaps :=
  match split_once 58 line with
  | None => m
  | Some (key, rest) =>
      match first_number rest with
      | None => m
      | Some kib =>
          let '(MkSmaps r p w seen pc pd sc sd) := m in
          if bool_decide (key = bstr "Rss") then MkSmaps kib p w seen pc pd sc sd
          else if bool_decide (key = bstr "Pss") then MkSmaps r kib w true pc pd sc sd
          else if bool_decide (key = bstr "Private_Clean") then MkSmaps r p w seen kib pd sc sd
          else if bool_decide (key = bstr "Private_Dirty") then MkSmaps r p w seen pc kib sc sd
          else if bool_decide (key = bstr "Shared_Clean") then MkSmaps r p w seen pc pd kib sd
          else if bool_decide (key = bstr "Shared_Dirty") then MkSmaps r p w seen pc pd sc kib
          else if bool_decide (key = bstr "Swap") then MkSmaps r p kib seen pc pd sc sd
          else m
      end
  end.

Definition parse_smaps_rollup (text : rstr) : option MemUsage :=
  let m := fold_left smaps_line (lines text) (MkSmaps 0 0 0 false 0 0 0 0) in
  if seen_pss m then Some (MkMem (sm_rss m) (sm_pss m) (U.add 64 (private_clean m) (private_dirty m)) (U.add 64 (shared_clean m) (shared_dirty m)) (sm_swap m)) else None.

(** ** Admission *)

(** The gate of one sample is the conjunction of the thresholds it can check. *)
Theorem check_pressure_spec r p h : check_pressure r p h = inr tt <->
  (forall reserve avail, min_host_mem_available_mib p = Some reserve -> mem_available_mib h = Some avail -> reserve <= avail - r) /\
  (forall m x, max_host_mem_psi_some_avg10 p = Some m -> psi_some_avg10 h = Some x -> f64_gt x m = false) /\
  (forall m x, max_host_mem_psi_full_avg10 p = Some m -> psi_full_avg10 h = Some x -> f64_gt x m = false) /\
  (forall d l, deny_host_pressure_level p = Some d -> level h = Some l -> level_rank l < level_rank d).
Proof.
  assert (forall A B (t : option A) (v : option B) bad deny, threshold t v bad deny = None <-> forall a b, t = Some a -> v = Some b -> bad a b = false) as Ht.
  { intros A B t v bad deny. unfold threshold. destruct t as [a|], v as [b|]; try (split; [by intros _ ? ?|done]).
    destruct (bad a b) eqn:E; split; [done|intros H; specialize (H a b eq_refl eq_refl); congruence|intros _ ? ? [= <-] [= <-]; done|done]. }
  unfold check_pressure.
  setoid_rewrite <- N.ltb_ge. setoid_rewrite <- N.leb_gt. rewrite <- (Ht _ _ _ _ _ (fun reserve avail => LowMemory avail r reserve)).
  rewrite <- (Ht _ _ (max_host_mem_psi_some_avg10 p) _ _ (fun max avg => PsiSome avg max)), <- (Ht _ _ (max_host_mem_psi_full_avg10 p) _ _ (fun max avg => PsiFull avg max)),
    <- (Ht _ _ _ _ _ (fun deny l => DenyLevel l deny)).
  repeat match goal with |- context [match threshold ?a ?b ?c ?d with _ => _ end] => destruct (threshold a b c d) end; intuition congruence.
Qed.

Section AdmitSpec.
Context (p : PressurePolicy) (r : u64) (host : nat -> HostPressure) (clock : nat -> N).
(** Every turn sleeps for a second. *)
Hypothesis sleeps : forall i, clock i + 1 <= clock (S i).

Lemma clock_after i : N.of_nat i <= clock i.
Proof. induction i as [|i IH]; [lia|]. specialize (sleeps i). lia. Qed.

(** What the gate says after turn [n]. *)
Definition decided (n : nat) (o : outcome (PressureDeny + ())) : Prop :=
  (forall j, (j < n)%nat -> (exists d, check_pressure r p (host j) = inl d) /\ clock j < pressure_defer_secs p) /\
  ((o = Ok (inr tt) /\ check_pressure r p (host n) = inr tt) \/
   exists d, o = Ok (inl d) /\ check_pressure r p (host n) = inl d /\ pressure_defer_secs p <= clock n).

Lemma admit_loop_spec fuel i : (N.to_nat (pressure_defer_secs p) < i + fuel)%nat ->
  (forall j, (j < i)%nat -> (exists d, check_pressure r p (host j) = inl d) /\ clock j < pressure_defer_secs p) ->
  exists n, (n <= N.to_nat (pressure_defer_secs p))%nat /\ decided n (admit_loop p r host clock fuel i).
Proof.
  revert i. induction fuel as [|fuel IH]; intros i Hf Hb.
  { destruct i as [|i]; [lia|]. destruct (Hb i ltac:(lia)) as [_ Hc]. pose proof (clock_after i). lia. }
  cbn [admit_loop]. assert (i <= N.to_nat (pressure_defer_secs p))%nat as Hi.
  { destruct i as [|i]; [lia|]. destruct (Hb i ltac:(lia)) as [_ Hc]. pose proof (clock_after i). lia. }
  destruct (check_pressure r p (host i)) as [d|[]] eqn:E; [|exists i; split; [done|]; split; [done|]; by left].
  destruct (N.leb_spec (pressure_defer_secs p) (clock i)); [exists i; split; [done|]; split; [done|]; right; by exists d|].
  apply IH; [lia|]. intros j Hj. destruct (decide (j = i)) as [->|Hne]; [split; [by exists d|done]|apply Hb; lia].
Qed.

(** A create is admitted by the first sample that satisfies every threshold, or
    refused with the reason of a sample taken when the wait was over; the gate
    decides within one turn per second of the wait. *)
Theorem admit_under_pressure_spec uptime : is_enabled p = true -> uptime + pressure_defer_secs p < 2 ^ 63 ->
  exists n, (n <= N.to_nat (pressure_defer_secs p))%nat /\ decided n (admit_under_pressure p r host clock uptime).
Proof.
  intros He Hu. unfold admit_under_pressure. rewrite He. cbn [negb]. rewrite (proj2 (N.leb_gt _ _)) by done. apply admit_loop_spec; [lia|]. intros j Hj. lia.
Qed.
End AdmitSpec.

(** A wait that does not fit an [Instant] panics. *)
Lemma long_wait_panics : admit_under_pressure (MkPressure (Some 1) None None None (2 ^ 64 - 1)) 1 (fun _ => no_pressure) N.of_nat 0 = Panic.
Proof. reflexivity. Qed.

(** With nothing configured every create is admitted. *)
Lemma admit_disabled p r host clock uptime : is_enabled p = false -> admit_under_pressure p r host clock uptime = Ok (inr tt).
Proof. intros H. unfold admit_under_pressure. by rewrite H. Qed.

(** ** Idle reclaim *)

Lemma idle_target_accepted memory percent : in_u 24 memory ->
  let t := idle_balloon_target_mib memory percent in
  t <= memory - MIN_GUEST_MIB /\ plan_balloon_pages memory t = Ok (t * PAGES_PER_MIB).
Proof.
  intros Hm t. assert (t <= memory - MIN_GUEST_MIB) as Ht by (unfold t, idle_balloon_target_mib; apply N.le_min_r). split; [done|].
  unfold in_u in Hm. change (2 ^ 24) with 16777216 in Hm. unfold plan_balloon_pages. rewrite (proj2 (N.ltb_ge _ _)) by done.
  assert (U.mul 64 t PAGES_PER_MIB = t * PAGES_PER_MIB) as ->.
  { unfold U.mul, PAGES_PER_MIB. apply N.mod_small. change (2 ^ 64) with 18446744073709551616. lia. }
  unfold PAGES_PER_MIB. rewrite (proj2 (N.ltb_lt _ _)); [done|]. change (2 ^ 32) with 4294967296. lia.
Qed.

Section TickSpec.
Context (percent : u8) (cutoff : Z) (answer : N -> u64 -> bool).

(** The request a VM gets, by the balloons inflated before the tick. *)
Definition request (inflated : gset N) (v : IdleVm) : option u64 :=
  if negb (eligible v) || negb (running v) then None
  else match reclaim_action (last v <? cutoff)%Z (bool_decide (vm_id v ∈ inflated)) with
       | Inflate => let t := idle_balloon_target_mib (vm_memory_mib v) percent in if t =? 0 then None else Some t
       | Deflate => Some 0
       | Nothing => None
       end.

(** Whether the scanner counts the balloon as its own afterwards. *)
Definition owned_after (inflated : gset N) (v : IdleVm) : bool :=
  match request inflated v with
  | None => bool_decide (vm_id v ∈ inflated)
  | Some t => if t =? 0 then negb (answer (vm_id v) 0) else answer (vm_id v) t
  end.

Lemma reclaim_vm_spec v inflated log c : exists inflated' c', reclaim_vm percent cutoff answer v (inflated, log, c) = (inflated', log ++ option_list ((fun t => (vm_id v, t)) <$> request inflated v), c') /\
  (forall i, i <> vm_id v -> i ∈ inflated' <-> i ∈ inflated) /\ (vm_id v ∈ inflated' <-> owned_after inflated v = true).
Proof.
  unfold reclaim_vm, owned_after, request. destruct (negb (eligible v) || negb (running v)).
  { exists inflated, c. rewrite app_nil_r. split_and!; [done|done|]. by rewrite bool_decide_eq_true. }
  case_bool_decide as Hin; destruct (last v <? cutoff)%Z; cbn [reclaim_action].
  - exists inflated, c. rewrite app_nil_r. done.
  - destruct (answer (vm_id v) 0) eqn:Ea; cbn [N.eqb negb andb]; rewrite ?Ea; eexists _, _; (split; [reflexivity|]); split; [set_solver|set_solver|done|done].
  - set (t := idle_balloon_target_mib _ _). destruct (N.eqb_spec t 0) as [->|Ht]; cbn [N.eqb negb andb]; [exists inflated, c; rewrite app_nil_r; split_and!; [done|done|]; split; [done|discriminate]|].
    destruct (answer (vm_id v) t) eqn:Ea; rewrite (proj2 (N.eqb_neq _ _)), ?Ea by done; eexists _, _; (split; [reflexivity|]); split; [set_solver|set_solver|done|done].
  - exists inflated, c. rewrite app_nil_r. split_and!; [done|done|]. split; [done|discriminate].
Qed.

(** A scan asks for exactly what the balloons before it call for: an idle VM the
    scanner has not inflated is inflated, an active one whose balloon is the
    scanner's is emptied, nothing else is asked; and afterwards the scanner counts as
    its own exactly the balloons whose last request a VMM took. *)
Theorem reclaim_vms_spec vms inflated log c : NoDup (map vm_id vms) ->
  let r := reclaim_vms percent cutoff answer vms (inflated, log, c) in
  r.1.2 = log ++ omap (fun v => (fun t => (vm_id v, t)) <$> request inflated v) vms /\
  (forall v, v ∈ vms -> vm_id v ∈ r.1.1 <-> owned_after inflated v = true) /\
  (forall i, i ∉ map vm_id vms -> i ∈ r.1.1 <-> i ∈ inflated).
Proof.
  revert inflated log c. induction vms as [|v vms IH]; intros inflated log c Hn r.
  { unfold r. cbn. rewrite app_nil_r. split_and!; [done|intros v Hv; by apply not_elem_of_nil in Hv|done]. }
  simpl in Hn. apply NoDup_cons in Hn as [Hv Hn]. destruct (reclaim_vm_spec v inflated log c) as (inf1 & c1 & E & H1 & H2).
  unfold r, reclaim_vms. cbn [fold_left]. rewrite E. set (log1 := log ++ _). destruct (IH inf1 log1 c1 Hn) as (A & B & C). unfold reclaim_vms in A, B, C.
  assert (forall w, w ∈ vms -> request inf1 w = request inflated w /\ owned_after inf1 w = owned_after inflated w) as Hr.
  { intros w Hw. assert (vm_id w <> vm_id v) as Hne by (intros E'; apply Hv; rewrite <- E'; by apply list_elem_of_fmap_2).
    assert (bool_decide (vm_id w ∈ inf1) = bool_decide (vm_id w ∈ inflated)) as Hb by (apply bool_decide_ext; by apply H1). unfold owned_after, request. rewrite !Hb. done. }
  assert (omap (fun w => (fun t => (vm_id w, t)) <$> request inf1 w) vms = omap (fun w => (fun t => (vm_id w, t)) <$> request inflated w) vms) as Ho.
  { clear -Hr. induction vms as [|w vms IHv]; [done|]. change (omap (fun w => (fun t => (vm_id w, t)) <$> request inf1 w) ([w] ++ vms) = omap (fun w => (fun t => (vm_id w, t)) <$> request inflated w) ([w] ++ vms)).
    rewrite !omap_app, IHv by (intros x Hx; apply Hr; by right). f_equal. cbn. by rewrite (proj1 (Hr w ltac:(by left))). }
  split_and!.
  - rewrite A, Ho. unfold log1. rewrite <- app_assoc. f_equal. cbn. by destruct (request inflated v).
  - intros w [->|Hw]%elem_of_cons; [rewrite C by done; done|]. rewrite B by done. by rewrite (proj2 (Hr w Hw)).
  - intros i Hi. simpl in Hi. apply not_elem_of_cons in Hi as [Hi1 Hi2]. by rewrite C, H1.
Qed.
End TickSpec.

(** A VM that is deleted, or restarted with an empty balloon, while its balloon is
    inflated stays in the set: it is still counted, and not inflated again when idle. *)
Lemma stopped_stays_inflated :
  let s0 := idle_reclaim_tick 300 50 None 1000 (fun _ _ => true) [MkIdle 7 true true 0 1024] ∅ in
  let s1 := idle_reclaim_tick 300 50 None 2000 (fun _ _ => true) [] s0.1.1 in
  let s2 := idle_reclaim_tick 300 50 None 3000 (fun _ _ => true) [MkIdle 7 true true 0 1024] s1.1.1 in
  s0 = ({[7]}, [(7, 512)], 1) /\ s1.1.1 = {[7]} /\ s2 = ({[7]}, [], 0).
Proof. split_and!; vm_compute; reflexivity. Qed.

(** The parsers on what Linux and macOS print. *)
Example meminfo_example : parse_meminfo (bstr "MemTotal:       16384000 kB" ++ [10] ++ bstr "MemAvailable:    8192000 kB" ++ [10]) = (Some 8000, Some 16000).
Proof. vm_compute. reflexivity. Qed.

Example vm_stat_example :
  parse_vm_stat (bstr "Mach Virtual Memory Statistics: (page size of 16384 bytes)" ++ [10] ++ bstr "Pages free:  105261." ++ [10] ++ bstr "Pages inactive:  222161.") = Some 5115.
Proof. vm_compute. reflexivity. Qed.

(** *** The account *)

(** The number of a line, when it is the line of [key]. *)
Definition number_of (key line : rstr) : option u64 := kr ← split_once 58 line; if bool_decide (kr.1 = key) then first_number kr.2 else None.

(** The last line of [key] that carries a number. *)
Definition last_number (key : rstr) (ls : list rstr) : option u64 := list.last (omap (number_of key) ls).

Lemma last_number_cons key l ls : last_number key (l :: ls) = match last_number key ls with Some n => Some n | None => number_of key l end.
Proof.
  unfold last_number. change (omap (number_of key) (l :: ls)) with (match number_of key l with Some n => n :: omap (number_of key) ls | None => omap (number_of key) ls end).
  destruct (number_of key l) as [n|]; [rewrite last_cons; by destruct (list.last _)|by destruct (list.last _)].
Qed.

(** One variable of the loop holds the last number of its line. *)
Lemma fold_smaps (f : Smaps -> u64) key ls m : (forall m l, f (smaps_line m l) = default (f m) (number_of key l)) ->
  f (fold_left smaps_line ls m) = default (f m) (last_number key ls).
Proof.
  intros Hf. revert m. induction ls as [|l ls IH]; intros m; [done|]. rewrite last_number_cons. simpl. rewrite IH, Hf. by destruct (last_number key ls).
Qed.

Ltac smaps_var :=
  let m := fresh in let l := fresh in
  intros m l; unfold smaps_line, number_of; destruct (split_once 58 l) as [[key rest]|]; [|done]; simpl;
  destruct (first_number rest), m; [|by case_bool_decide]; repeat case_bool_decide; simplify_eq; done.

Lemma fold_seen ls m : seen_pss (fold_left smaps_line ls m) = true <-> seen_pss m = true \/ is_Some (last_number (bstr "Pss") ls).
Proof.
  revert m. induction ls as [|l ls IH]; intros m; [split; [by left|intros [?|[? [=]]]; done]|]. rewrite last_number_cons. simpl. rewrite IH.
  assert (seen_pss (smaps_line m l) = true <-> seen_pss m = true \/ is_Some (number_of (bstr "Pss") l)) as ->.
  { unfold smaps_line, number_of. destruct (split_once 58 l) as [[key rest]|]; simpl; [|rewrite is_Some_alt; naive_solver].
    destruct (first_number rest), m; simpl; repeat case_bool_decide; simplify_eq; rewrite ?is_Some_alt; naive_solver. }
  destruct (last_number (bstr "Pss") ls); rewrite !is_Some_alt; naive_solver.
Qed.

(** The account of a VMM is made of the last number of each line, zero where there is
    none; a text without a [Pss] line is an error. *)
Theorem smaps_spec text : let n key := default 0 (last_number (bstr key) (lines text)) in
  parse_smaps_rollup text = (if bool_decide (is_Some (last_number (bstr "Pss") (lines text)))
    then Some (MkMem (n "Rss"%string) (n "Pss"%string) (U.add 64 (n "Private_Clean"%string) (n "Private_Dirty"%string)) (U.add 64 (n "Shared_Clean"%string) (n "Shared_Dirty"%string)) (n "Swap"%string))
    else None).
Proof.
  intros n. unfold parse_smaps_rollup. rewrite (fold_smaps sm_rss (bstr "Rss")) by smaps_var. rewrite (fold_smaps sm_pss (bstr "Pss")) by smaps_var.
  rewrite (fold_smaps private_clean (bstr "Private_Clean")), (fold_smaps private_dirty (bstr "Private_Dirty")) by smaps_var.
  rewrite (fold_smaps shared_clean (bstr "Shared_Clean")), (fold_smaps shared_dirty (bstr "Shared_Dirty")), (fold_smaps sm_swap (bstr "Swap")) by smaps_var.
  case_bool_decide as H.
  - by rewrite (proj2 (fold_seen _ _)) by auto.
  - destruct (seen_pss _) eqn:E; [|done]. by apply fold_seen in E as [?|?].
Qed.

(** A VM whose VMM refuses the request gets it again at every scan. *)
Lemma refused_again :
  let tick s := idle_reclaim_tick 300 50 None 1000 (fun _ _ => false) [MkIdle 7 true true 0 1024] s in
  tick ∅ = (∅, [(7, 512)], 0) /\ tick (tick ∅).1.1 = tick ∅.
Proof. split; vm_compute; reflexivity. Qed.
