(* ===== verification/LbGc.v ===== *)
(** * Garbage collection of tracked connections

    [gc_conntrack] of [crates/fluxvm-network/src/service.rs]: the entries of the
    connection maps that have expired, or whose draining backend is past its deadline,
    are removed.

    The maps that exist are given in the order of the directories; dumps and deletions
    take their answers from the script of [LbMaps.Kernel]. *)

From stdpp Require Import prelude list strings gmap.
From Stdlib Require Import NArith Lia.
From S2P Require Import Prelude RustStr LbService LbCatalog LbMaps.

Record ConntrackGcReport := MkGc { maps_scanned : N; entries_scanned : N; expired_deleted : N; drain_deleted : N; entries_remaining : N; pressure_percent : u8 }.

Definition CONNTRACK_MAP_MAX_M : N := 131072.
Definition map_tier_conntrack_max (tier : rstr) : N := match normalize_map_tier tier with TierS => 32768 | TierL => 262144 | TierM => CONNTRACK_MAP_MAX_M end.

(** The deadlines of draining backends, by service id and position. *)
Fixpoint drain_backends (sid : u32) (i : N) (bs : list ServiceBackend) (m : gmap (N * N) N) : gmap (N * N) N :=
  match bs with
  | [] => m
  | b :: bs =>
      drain_backends sid (i + 1) bs
        (match drain_until_unix_ms b with
         | Some d => if enabled b && bool_decide (b_state b = Draining) then <[(sid, i) := d]> m else m
         | None => m
         end)
  end.

Definition draining (specs : list ServiceSpec) : gmap (N * N) N := fold_left (fun m s => drain_backends (service_id (name s)) 0 (backends s) m) specs ∅.

Section Gc.
Variables (boot_now unix_now : N) (drains : gmap (N * N) N).

Definition expired (value : bytes) : bool := from_le (slice 16 8 value) <=? boot_now.
Definition drained (value : bytes) : bool :=
  match drains !! (from_le (slice 0 4 value), from_le (slice 4 4 value)) with Some d => d <=? unix_now | None => false end.

Fixpoint gc_rows (i : nat) (rows : list (bytes * bytes)) (r : ConntrackGcReport) : M Kernel ConntrackGcReport :=
  match rows with
  | [] => ret r
  | (key, value) :: rows =>
      if (length value <? 24)%nat then gc_rows i rows r
      else
        let ex := expired value in
        let dr := drained value in
        if ex || dr then
          do! map_delete i key in
          gc_rows i rows (MkGc (maps_scanned r) (entries_scanned r + 1) (expired_deleted r + (if ex then 1 else 0)) (drain_deleted r + (if dr then 1 else 0)) (entries_remaining r) (pressure_percent r))
        else gc_rows i rows (MkGc (maps_scanned r) (entries_scanned r + 1) (expired_deleted r) (drain_deleted r) (entries_remaining r + 1) (pressure_percent r))
  end.

(** The maps [i] and up, [n] of them. *)
Fixpoint gc_maps (i n : nat) (r : ConntrackGcReport) : M Kernel ConntrackGcReport :=
  match n with
  | O => ret r
  | S n =>
      do! kernel_op in
      let! k := Prelude.get in
      let! r := gc_rows i (map_to_list (default ∅ (kmaps k !! i)))
                  (MkGc (maps_scanned r + 1) (entries_scanned r) (expired_deleted r) (drain_deleted r) (entries_remaining r) (pressure_percent r)) in
      gc_maps (S i) n r
  end.
End Gc.

(** [checked_div(capacity).map_or(0, |p| p.min(100) as u8)] *)
Definition percent_of (remaining capacity : N) : u8 :=
  if capacity =? 0 then 0 else N.min (N.min (remaining * 100) (U.max 64) / capacity) 100.

Definition gc_conntrack (tier : rstr) (boot_now unix_now : N) (specs : list ServiceSpec) : M Kernel ConntrackGcReport :=
  let! k := Prelude.get in
  let! r := gc_maps boot_now unix_now (draining specs) 0 (length (kmaps k)) (MkGc 0 0 0 0 0 0) in
  let capacity := N.min (maps_scanned r * map_tier_conntrack_max tier) (U.max 64) in
  ret (MkGc (maps_scanned r) (entries_scanned r) (expired_deleted r) (drain_deleted r) (entries_remaining r) (percent_of (entries_remaining r) capacity)).

(** ** What is removed *)

Section GcSpec.
Context (boot_now unix_now : N) (drains : gmap (N * N) N).

(** An entry the collector removes. *)
Definition doomed (value : bytes) : bool := negb (length value <? 24)%nat && (expired boot_now value || drained unix_now drains value).

Definition kept (m : BpfMap) : BpfMap := filter (fun kv => doomed kv.2 = false) m.
Definition doomed_keys (rows : list (bytes * bytes)) : list bytes := map fst (List.filter (fun kv => doomed kv.2) rows).
Definition live (kv : bytes * bytes) : bool := negb (length kv.2 <? 24)%nat && negb (doomed kv.2).
Definition deletes (keys : list bytes) (m : BpfMap) : BpfMap := fold_left (fun x key => base.delete key x) keys m.

Lemma map_delete_err i key k e k' : map_delete i key k = (Err e, k') -> kmaps k' = kmaps k.
Proof. unfold map_delete, bind. destruct (kernel_op_cases k) as (r & k1 & -> & H & _ & [-> | ->]); [done|]. by intros [= _ <-]. Qed.

Lemma gc_rows_spec i rows r k :
  match gc_rows boot_now unix_now drains i rows r k with
  | (Ok r', k') => only_map i k k' /\ ((i < length (kmaps k))%nat -> cur i k' = deletes (doomed_keys rows) (cur i k)) /\
      entries_remaining r' = entries_remaining r + lenN (List.filter live rows) /\ maps_scanned r' = maps_scanned r
  | (Err _, k') => only_map i k k' /\ ((i < length (kmaps k))%nat -> exists ds, (forall d, d ∈ ds -> d ∈ doomed_keys rows) /\ cur i k' = deletes ds (cur i k))
  | _ => False
  end.
Proof.
  revert r k. induction rows as [|[key value] rows IH]; intros r k; cbn [gc_rows].
  { split_and!; [by split_and!|done|unfold lenN; cbn; lia|done]. }
  unfold doomed_keys, live, doomed in *. cbn [List.filter fst snd]. destruct (length value <? 24)%nat; cbn [negb andb]; [apply IH|].
  destruct (expired boot_now value || drained unix_now drains value) eqn:Ed; cbn [negb map].
  - unfold bind. pose proof (applies_call i (base.delete key) k) as Ha. fold (map_delete i key) in Ha. destruct (map_delete i key k) as [[[]|e| |] k1] eqn:Em; try done.
    + destruct Ha as [Ha1 Ha2]. set (r1 := MkGc _ _ _ _ _ _). specialize (IH r1 k1). destruct (gc_rows boot_now unix_now drains i rows r1 k1) as [[r'|e| |] k2]; try done.
      * destruct IH as (H1 & H2 & H3 & H4). split_and!; [by eapply only_map_trans| |done|done]. intros Hi. rewrite H2, Ha2; [done|done|]. by destruct Ha1 as [-> _].
      * destruct IH as (H1 & H2). split; [by eapply only_map_trans|]. intros Hi. destruct H2 as (ds & Hd & E); [by destruct Ha1 as [-> _]|].
        exists (key :: ds). split; [|by rewrite E, Ha2]. intros d [->|Hd']%elem_of_cons; [by left|right; by apply Hd].
    + split; [done|]. intros Hi. exists []. split; [intros d Hd; by apply not_elem_of_nil in Hd|]. unfold cur. by rewrite (map_delete_err _ _ _ _ _ Em).
  - set (r1 := MkGc _ _ _ _ _ _). specialize (IH r1 k). destruct (gc_rows boot_now unix_now drains i rows r1 k) as [[r'|e| |] k2]; try done.
    destruct IH as (H1 & H2 & H3 & H4). split_and!; [done|done| |done]. rewrite H3. unfold lenN. cbn. lia.
Qed.

Lemma deletes_lookup keys m key : deletes keys m !! key = if decide (key ∈ keys) then None else m !! key.
Proof. apply fold_delete_lookup. Qed.

Lemma elem_doomed (m : BpfMap) key : key ∈ doomed_keys (map_to_list m) <-> exists v, m !! key = Some v /\ doomed v = true.
Proof.
  unfold doomed_keys. rewrite list_elem_of_In, in_map_iff. split.
  - intros ([k v] & <- & H). apply filter_In in H as [H1 H2]. apply list_elem_of_In, elem_of_map_to_list in H1. by exists v.
  - intros (v & H1 & H2). exists (key, v). split; [done|]. apply filter_In. split; [|done]. by apply list_elem_of_In, elem_of_map_to_list.
Qed.

Lemma kept_lookup m key : kept m !! key = (v ← m !! key; if doomed v then None else Some v).
Proof.
  unfold kept. apply option_eq. intros v. rewrite map_lookup_filter_Some. cbn. destruct (m !! key) as [w|]; cbn; [|by split; [intros []|]].
  destruct (doomed w) eqn:E; split; [intros [[= <-] H]; congruence|done|by intros [[= <-] _]|intros [= <-]; done].
Qed.

Lemma deletes_kept (m : BpfMap) : deletes (doomed_keys (map_to_list m)) m = kept m.
Proof.
  apply map_eq. intros key. rewrite deletes_lookup, kept_lookup. case_decide as H; rewrite elem_doomed in H.
  - destruct H as (v & -> & E). cbn. by rewrite E.
  - destruct (m !! key) as [v|]; [|done]. cbn. destruct (doomed v) eqn:E; [|done]. exfalso. apply H. by exists v.
Qed.

(** Some of the doomed entries are gone, and nothing else. *)
Definition partly_kept (m m' : BpfMap) : Prop := kept m ⊆ m' /\ m' ⊆ m.

Lemma deletes_partly (m : BpfMap) ds : (forall d, d ∈ ds -> d ∈ doomed_keys (map_to_list m)) -> partly_kept m (deletes ds m).
Proof.
  intros H. split; apply map_subseteq_spec; intros key v; rewrite deletes_lookup, ?kept_lookup.
  - destruct (m !! key) as [w|] eqn:E; [|done]. cbn. destruct (doomed w) eqn:Ed; [done|]. intros [= <-]. rewrite decide_False; [done|].
    intros Hd. apply H, elem_doomed in Hd as (x & Hx & Hy). congruence.
  - by case_decide.
Qed.

Lemma kept_partly m : partly_kept m (kept m).
Proof. split; [done|]. apply map_filter_subseteq. Qed.

Lemma partly_refl m : partly_kept m m.
Proof. split; [apply map_filter_subseteq|done]. Qed.

Definition live_rows (m : BpfMap) : N := lenN (List.filter live (map_to_list m)).
Definition live_total (ms : list BpfMap) : N := fold_right (fun m n => live_rows m + n) 0 ms.

Lemma gc_maps_spec n i r k : length (kmaps k) = (i + n)%nat ->
  match gc_maps boot_now unix_now drains i n r k with
  | (Ok r', k') => kmaps k' = take i (kmaps k) ++ map kept (drop i (kmaps k)) /\ sguard k' = sguard k /\
      entries_remaining r' = entries_remaining r + live_total (drop i (kmaps k)) /\ maps_scanned r' = maps_scanned r + N.of_nat n
  | (Err _, k') => length (kmaps k') = length (kmaps k) /\ sguard k' = sguard k /\
      forall j m m', kmaps k !! j = Some m -> kmaps k' !! j = Some m' -> if decide (j < i)%nat then m' = m else partly_kept m m'
  | _ => False
  end.
Proof.
  revert i r k. induction n as [|n IH]; intros i r k Hl; cbn [gc_maps].
  { rewrite drop_ge, firstn_all2 by lia. cbn. rewrite app_nil_r. split_and!; [done|done|lia|lia]. }
  unfold bind at 1. destruct (kernel_op_cases k) as (o & k1 & -> & K1 & K2 & [-> | ->]).
  2: { rewrite K1. split_and!; [done|done|]. intros j m m' H1 H2. assert (m' = m) as -> by congruence. case_decide; [done|apply partly_refl]. }
  unfold bind at 1. change (Prelude.get k1) with (Ok k1, k1). cbv iota. rewrite K1. destruct (lookup_lt_is_Some_2 (kmaps k) i ltac:(lia)) as [m Em]. rewrite Em. change (default ∅ (Some m)) with m.
  set (r1 := MkGc _ _ _ _ _ _). unfold bind. pose proof (gc_rows_spec i (map_to_list m) r1 k1) as Hr. destruct (gc_rows boot_now unix_now drains i (map_to_list m) r1 k1) as [[r2|e| |] k2]; try done.
  - destruct Hr as ((O1 & O2 & O3) & Hc & Hrem & Hms). specialize (Hc ltac:(rewrite K1; lia)). unfold cur in Hc. rewrite K1, Em in Hc. change (default ∅ (Some m)) with m in Hc. rewrite deletes_kept in Hc.
    assert (kmaps k2 !! i = Some (kept m)) as E2.
    { destruct (lookup_lt_is_Some_2 (kmaps k2) i ltac:(rewrite O1, K1; lia)) as [x Ex]. rewrite Ex in Hc. cbn in Hc. congruence. }
    assert (take (S i) (kmaps k2) = take i (kmaps k) ++ [kept m]) as Et.
    { rewrite (take_S_r _ _ _ E2). f_equal. apply list_eq. intros j. destruct (decide (j < i)%nat); [rewrite !lookup_take_lt, O3, K1 by lia; done|by rewrite !lookup_take_ge by lia]. }
    assert (drop (S i) (kmaps k2) = drop (S i) (kmaps k)) as Ed by (apply list_eq; intros j; rewrite !lookup_drop, O3, K1 by lia; done).
    specialize (IH (S i) r2 k2 ltac:(rewrite O1, K1; lia)). destruct (gc_maps boot_now unix_now drains (S i) n r2 k2) as [[r'|e| |] k3]; try done.
    + destruct IH as (A & B & C & D). rewrite Et, Ed in *. rewrite (drop_S _ _ _ Em). cbn [map live_total fold_right]. fold (live_total (drop (S i) (kmaps k))). cbv iota. split_and!.
      * rewrite A, <- app_assoc. done.
      * congruence.
      * rewrite C, Hrem. change (entries_remaining r1) with (entries_remaining r). unfold live_rows. lia.
      * rewrite D, Hms. change (maps_scanned r1) with (maps_scanned r + 1). lia.
    + destruct IH as (A & B & C). split_and!; [congruence|congruence|]. intros j x x' H1 H2.
      destruct (decide (j = i)) as [->|Hne].
      * specialize (C i (kept m) x' E2 H2). rewrite decide_True in C by lia. rewrite decide_False by lia. assert (x = m) as -> by congruence. subst x'. apply kept_partly.
      * assert (kmaps k2 !! j = Some x) as H3 by (rewrite O3, K1 by done; done). specialize (C j x x' H3 H2). destruct (decide (j < i)%nat); [rewrite decide_True in C by lia; done|rewrite decide_False in C by lia; done].
  - destruct Hr as ((O1 & O2 & O3) & Hc). destruct (Hc ltac:(rewrite K1; lia)) as (ds & Hd & E). unfold cur in E. rewrite K1, Em in E. change (default ∅ (Some m)) with m in E.
    split_and!; [congruence|congruence|]. intros j x x' H1 H2. destruct (decide (j = i)) as [->|Hne].
    + rewrite decide_False by lia. assert (x = m) as -> by congruence. rewrite H2 in E. cbn in E. subst x'. by apply deletes_partly.
    + rewrite O3, K1 in H2 by done. assert (x' = x) as -> by congruence. case_decide; [done|apply partly_refl].
Qed.
End GcSpec.

(** The collector removes exactly the entries that have expired or whose draining
    backend is past its deadline, counts what it leaves, and when a call fails has
    removed only such entries. *)
Theorem gc_exact tier boot unix specs k :
  match gc_conntrack tier boot unix specs k with
  | (Ok r, k') => kmaps k' = map (kept boot unix (draining specs)) (kmaps k) /\ sguard k' = sguard k /\
      entries_remaining r = live_total boot unix (draining specs) (kmaps k) /\ maps_scanned r = lenN (kmaps k) /\ pressure_percent r <= 100
  | (Err _, k') => forall j m m', kmaps k !! j = Some m -> kmaps k' !! j = Some m' -> partly_kept boot unix (draining specs) m m'
  | _ => False
  end.
Proof.
  unfold gc_conntrack. unfold bind at 1. change (Prelude.get k) with (Ok k, k). cbv iota. unfold bind.
  pose proof (gc_maps_spec boot unix (draining specs) (length (kmaps k)) 0 (MkGc 0 0 0 0 0 0) k eq_refl) as H.
  destruct (gc_maps boot unix (draining specs) 0 (length (kmaps k)) (MkGc 0 0 0 0 0 0) k) as [[r|e| |] k']; try done.
  - destruct H as (H1 & H2 & H3 & H4). cbn [entries_remaining maps_scanned] in H3, H4. split_and!; [done|done|exact H3|exact H4|]. cbn [pressure_percent ret]. unfold percent_of. destruct (_ =? 0); [lia|apply N.le_min_r].
  - intros j m m' Hm Hm'. destruct H as (_ & _ & H). exact (H j m m' Hm Hm').
Qed.
