(* ===== verification/NetPolicy.v ===== *)
(** * Network policies of a VM, security groups and CNP documents

    [crates/fluxvm-network/src/dataplane.rs] (the policy), [groups.rs] (security groups,
    membership and the merge into a VM's policy), [identity.rs] (entities), [cnp.rs]
    (Cilium-style documents compiled to groups) and the validation of [ebpf.rs].

    The group store and the document store are files: absent, unparseable
    ([Some None]) or parsed.  Saving takes one answer of a script: it works, fails
    before the new file is in place, or fails after (the sync of the directory).  The
    standard library's IPv6 reader is a parameter. *)

From stdpp Require Import prelude list strings gmap sorting.
From Stdlib Require Import NArith Lia.
From S2P Require Import Prelude RustStr LbService.

Record VmNetworkPolicy := MkPolicy {
  default_allow : bool; allow_cidrs : list rstr; allow_ports : list rstr; max_egress_mbps : option u32; max_egress_pps : option u32; sample_rate : u32;
  deny_cidrs : list rstr; allow_icmp : bool; groups : list rstr; labels : list rstr; allow_fqdns : list rstr; entities : list rstr;
  audit_mode : bool; deny_udp : bool; compiled_group_ids : list u32 }.

(** [VmNetworkPolicy::default] *)
Definition default_vm_policy : VmNetworkPolicy := MkPolicy true [] [] None None 0 [] false [] [] [] [] false false [].

(** ** CIDRs and ports *)

(** One octet of [Ipv4Addr::from_str]: at most three digits and no leading zero. *)
Definition parse_octet (s : rstr) : option N :=
  if bool_decide (s = []) || (3 <? length s)%nat || negb (forallb is_digit s) then None
  else match s with
       | 48 :: _ :: _ => None
       | _ => parse_dec 8 s
       end.

Definition parse_v4 (s : rstr) : option bytes :=
  match split_on 46 s [] with
  | [a; b; c; d] => a ← parse_octet a; b ← parse_octet b; c ← parse_octet c; d ← parse_octet d; Some [a; b; c; d]
  | _ => None
  end.

Record Cidr := MkCidr { family4 : bool; network : N; prefix : u8 }.

#[global] Instance Cidr_eq_dec : EqDecision Cidr.
Proof. solve_decision. Defined.

Definition from_be (bs : bytes) : N := from_le (rev bs).

(** [u32::MAX << (32 - prefix)], and of 128 bits. *)
Definition cidr_mask (w : N) (prefix : N) : N := if prefix =? 0 then 0 else N.shiftl (2 ^ prefix - 1) (w - prefix).

Definition normalize_ipv4 (ip : u32) (prefix : u8) : option Cidr := if 32 <? prefix then None else Some (MkCidr true (N.land ip (cidr_mask 32 prefix)) prefix).
Definition normalize_ipv6 (ip : N) (prefix : u8) : option Cidr := if 128 <? prefix then None else Some (MkCidr false (N.land ip (cidr_mask 128 prefix)) prefix).

Definition IPPROTO_ICMP : u8 := 1.
Definition IPPROTO_TCP : u8 := 6.
Definition IPPROTO_UDP : u8 := 17.
Definition IPPROTO_SCTP : u8 := 132.
Definition IPPROTO_ICMPV6 : u8 := 58.

Record PortRule := MkPort { pr_protocol : u8; pr_port : u16 }.

Definition parse_port_rule (raw : rstr) : option PortRule :=
  pp ← split_once 47 raw;
  let '(proto, port) := pp in
  let p := to_ascii_lowercase (trim proto) in
  protocol ← (if bool_decide (p = bstr "tcp") then Some IPPROTO_TCP else if bool_decide (p = bstr "udp") then Some IPPROTO_UDP
              else if bool_decide (p = bstr "sctp") then Some IPPROTO_SCTP else if bool_decide (p = bstr "icmp") then Some IPPROTO_ICMP
              else if bool_decide (p = bstr "icmp6") || bool_decide (p = bstr "icmpv6") then Some IPPROTO_ICMPV6 else None);
  n ← parse_dec 16 (trim port);
  if (n =? 0) && negb (protocol =? IPPROTO_ICMP) && negb (protocol =? IPPROTO_ICMPV6) then None else Some (MkPort protocol n).

Definition mbps_to_bytes_per_second (mbps : u32) : option u64 :=
  if mbps =? 0 then None else (fun bits => bits / 8) <$> U.checked_mul 64 mbps 1000000.

(** ** Names and labels *)

Definition label_char (c : N) : bool := is_alnum c || existsb (N.eqb c) [61; 47; 46; 45; 95; 58].
Definition group_char (c : N) : bool := is_alnum c || existsb (N.eqb c) [45; 95].

Definition normalize_label (raw : rstr) : option rstr :=
  let s := trim raw in
  if bool_decide (s = []) || (128 <? lenN (as_bytes s)) || negb (forallb label_char s) then None else Some s.

Definition normalize_name (raw : rstr) : option rstr :=
  let s := trim raw in
  if bool_decide (s = []) || (64 <? lenN (as_bytes s)) || negb (forallb group_char s) then None else Some s.

(** [sort] and [dedup] of a vector of strings. *)
Definition rstr_le (a b : rstr) : Prop := rstr_leb a b = true.

#[global] Instance rstr_le_dec : RelDecision rstr_le.
Proof. intros a b. unfold rstr_le. apply _. Defined.

Fixpoint dedup (l : list rstr) : list rstr :=
  match l with
  | a :: ((b :: _) as l') => if bool_decide (a = b) then dedup l' else a :: dedup l'
  | _ => l
  end.

Definition sort_dedup (l : list rstr) : list rstr := dedup (merge_sort rstr_le l).

Definition GROUP_IDENTITY_BASE : u32 := 0x10000.
Definition MAX_GROUP_IDENTITIES_PER_VM : nat := 8.

Definition fnv (h : u64) (b : N) : u64 := U.mul 64 (N.lxor h b) 0x100000001b3.

Definition identity_for_labels (ls : list rstr) : u32 :=
  let set := sort_dedup (omap normalize_label ls) in
  let hash := fold_left (fun h l => fnv (fold_left fnv (as_bytes l) h) 0xff) set 0xcbf29ce484222325 in
  U.saturating_add 32 GROUP_IDENTITY_BASE (N.land (U.wrap 32 hash) 0x7fffffff).

(** ** Groups *)

Record SecurityGroup := MkGroup { g_name : rstr; g_labels : list rstr; g_policy : VmNetworkPolicy; g_identity : u32; priority : u32; description : rstr }.
Record ResolvedMembership := MkMember { vm_groups : list rstr; vm_labels : list rstr; matched : list SecurityGroup; identities : list u32 }.

(** [a.priority.cmp(&b.priority).then(a.name.cmp(&b.name))] *)
Definition group_le (a b : SecurityGroup) : Prop :=
  (if priority a <? priority b then true else if priority a =? priority b then rstr_leb (g_name a) (g_name b) else false) = true.

#[global] Instance group_le_dec : RelDecision group_le.
Proof. intros a b. unfold group_le. apply _. Defined.

(** Whether a group applies to a VM with these explicit groups and labels. *)
Definition applies_to (explicit lbls : list rstr) (g : SecurityGroup) : bool :=
  bool_decide (g_name g ∈ explicit) || (negb (bool_decide (g_labels g = [])) && forallb (fun l => bool_decide (l ∈ lbls)) (g_labels g)).

Definition resolve_membership (store : gmap rstr SecurityGroup) (p : VmNetworkPolicy) : ResolvedMembership :=
  let explicit := sort_dedup (omap normalize_name (groups p)) in
  let lbls := sort_dedup (omap normalize_label (labels p)) in
  let out := take MAX_GROUP_IDENTITIES_PER_VM (merge_sort group_le (List.filter (applies_to explicit lbls) (map snd (map_to_list store)))) in
  MkMember explicit lbls out (map g_identity out).

Definition min_opt (a b : option u32) : option u32 :=
  match a, b with Some x, Some y => Some (N.min x y) | Some x, None => Some x | None, b => b end.

(** *** Entities *)

Definition entity_names : list rstr :=
  map bstr ["world"; "world-ipv4"; "world-ipv6"; "host"; "cluster"; "remote-node"; "unmanaged"; "kube-apiserver"; "ingress"; "unknown"; "health"; "init"]%string.

Definition parse_entity (raw : rstr) : option rstr :=
  let s := to_ascii_lowercase (trim raw) in
  find (fun n => bool_decide (s = n) || bool_decide (s = bstr "reserved:" ++ n)) entity_names.

Definition entity_cidrs (e : rstr) : list rstr :=
  if bool_decide (e = bstr "world") then [bstr "0.0.0.0/0"; bstr "::/0"]
  else if bool_decide (e = bstr "world-ipv4") then [bstr "0.0.0.0/0"]
  else if bool_decide (e = bstr "world-ipv6") then [bstr "::/0"]
  else if bool_decide (e = bstr "host") then [bstr "127.0.0.0/8"; bstr "169.254.0.0/16"; bstr "fe80::/10"]
  else if bool_decide (e = bstr "cluster") || bool_decide (e = bstr "remote-node") || bool_decide (e = bstr "unmanaged")
  then [bstr "10.0.0.0/8"; bstr "172.16.0.0/12"; bstr "192.168.0.0/16"; bstr "fd00::/8"]
  else [].

Definition expand_entities (es : list rstr) : list rstr := flat_map (fun e => match parse_entity e with Some n => entity_cidrs n | None => [] end) es.

(** *** The merge *)

Definition merge_one (p : VmNetworkPolicy) (g : SecurityGroup) : VmNetworkPolicy :=
  let q := g_policy g in
  MkPolicy (default_allow p && default_allow q) (allow_cidrs p ++ allow_cidrs q) (allow_ports p ++ allow_ports q)
    (min_opt (max_egress_mbps p) (max_egress_mbps q)) (min_opt (max_egress_pps p) (max_egress_pps q)) (N.max (sample_rate p) (sample_rate q))
    (deny_cidrs p ++ deny_cidrs q) (allow_icmp p || allow_icmp q) (groups p) (labels p) (allow_fqdns p ++ allow_fqdns q) (entities p ++ entities q)
    (audit_mode p || audit_mode q) (deny_udp p) (compiled_group_ids p).

Definition merge_group_policy (store : gmap rstr SecurityGroup) (p : VmNetworkPolicy) : VmNetworkPolicy * list u32 :=
  let m := resolve_membership store p in
  let q := fold_left merge_one (matched m) p in
  (MkPolicy (default_allow q) (sort_dedup (allow_cidrs q ++ expand_entities (entities q))) (sort_dedup (allow_ports q))
     (max_egress_mbps q) (max_egress_pps q) (sample_rate q) (sort_dedup (deny_cidrs q)) (allow_icmp q) (groups q) (labels q)
     (sort_dedup (allow_fqdns q)) (sort_dedup (entities q)) (audit_mode q) (deny_udp q) (identities m), identities m).

(** ** CNP documents *)

Record CidrSet := MkSet { cidr : rstr; except : list rstr }.
Record FqdnMatch := MkFqdn { match_name : option rstr; match_pattern : option rstr }.
Record PortProto := MkPP { pp_port : rstr; pp_protocol : rstr }.
Record CnpRule := MkRule {
  to_cidr : list rstr; to_cidr_set : list CidrSet; from_cidr : list rstr; to_entities : list rstr; from_entities : list rstr; to_fqdns : list FqdnMatch;
  to_ports : list (list PortProto) }.
Record DefaultDeny := MkDeny { dd_egress : option bool; dd_ingress : option bool }.
Record CnpSpec := MkSpec {
  endpoint_selector : option (list (rstr * rstr)); egress : list CnpRule; egress_deny : list CnpRule; ingress : list CnpRule; ingress_deny : list CnpRule;
  enable_default_deny : option DefaultDeny; c_audit_mode : bool; c_description : rstr }.
Record CiliumNetworkPolicy := MkCnp { kind : rstr; c_name : rstr; spec : CnpSpec }.

Definition named_ports : list (rstr * N) :=
  map (fun x : String.string * N => (bstr x.1, x.2))
    [("http", 80); ("https", 443); ("dns", 53); ("ssh", 22); ("smtp", 25); ("ntp", 123); ("ldap", 389); ("ldaps", 636); ("mysql", 3306);
     ("postgres", 5432); ("postgresql", 5432); ("redis", 6379); ("kube-apiserver", 6443)]%string.

Definition named_port (nm : rstr) : option u16 := snd <$> find (fun x => bool_decide (x.1 = to_ascii_lowercase nm)) named_ports.

Definition show_port (proto : rstr) (p : N) : rstr := proto ++ 47 :: to_decimal p.

Definition expand_port (protocol port : rstr) : option (list rstr) :=
  let p := to_ascii_lowercase (trim protocol) in
  proto ← (if bool_decide (p = []) || bool_decide (p = bstr "any") || bool_decide (p = bstr "tcp") then Some (bstr "tcp")
           else if bool_decide (p = bstr "udp") then Some (bstr "udp") else if bool_decide (p = bstr "icmp") then Some (bstr "icmp")
           else if bool_decide (p = bstr "icmpv6") || bool_decide (p = bstr "icmp6") then Some (bstr "icmp6") else None);
  if bool_decide (proto = bstr "icmp") || bool_decide (proto = bstr "icmp6") then Some [show_port proto 0]
  else
    let port := trim port in
    match named_port port with
    | Some n => Some [show_port proto n]
    | None =>
        match split_once 45 port with
        | Some (a, b) =>
            start ← parse_dec 16 a;
            stop ← parse_dec 16 b;
            if (start =? 0) || (stop <? start) then None
            else if 256 <? stop - start then None
            else Some (map (fun i => show_port proto (start + N.of_nat i)) (List.seq 0 (N.to_nat (stop - start + 1))))
        | None => n ← parse_dec 16 port; if n =? 0 then None else Some [show_port proto n]
        end
    end.

Fixpoint expand_ports (ps : list PortProto) : option (list rstr) :=
  match ps with [] => Some [] | p :: ps => a ← expand_port (pp_protocol p) (pp_port p); b ← expand_ports ps; Some (a ++ b) end.

Fixpoint rule_entities (es : list rstr) : option (list rstr) :=
  match es with [] => Some [] | e :: es => n ← parse_entity e; r ← rule_entities es; Some (entity_cidrs n ++ r) end.

Definition add_lists (p : VmNetworkPolicy) (allow deny ports fqdns ents : list rstr) : VmNetworkPolicy :=
  MkPolicy (default_allow p) (allow_cidrs p ++ allow) (allow_ports p ++ ports) (max_egress_mbps p) (max_egress_pps p) (sample_rate p)
    (deny_cidrs p ++ deny) (allow_icmp p) (groups p) (labels p) (allow_fqdns p ++ fqdns) (entities p ++ ents) (audit_mode p) (deny_udp p) (compiled_group_ids p).

(** One rule; the changes a failing rule leaves are lost with the policy. *)
Definition fold_rule (deny : bool) (out : VmNetworkPolicy) (r : CnpRule) : option VmNetworkPolicy :=
  let ents := to_entities r ++ from_entities r in
  ec ← rule_entities ents;
  ports ← expand_ports (concat (to_ports r));
  let cidrs := to_cidr r ++ from_cidr r ++ map cidr (to_cidr_set r) ++ ec in
  let excepts := flat_map except (to_cidr_set r) in
  let fqdns := flat_map (fun f => option_list (to_ascii_lowercase <$> match_name f) ++ option_list (to_ascii_lowercase <$> match_pattern f)) (to_fqdns r) in
  Some (if deny then add_lists out [] (excepts ++ cidrs) ports fqdns ents else add_lists out cidrs excepts ports fqdns ents).

Fixpoint fold_rules (deny : bool) (out : VmNetworkPolicy) (rs : list CnpRule) : option VmNetworkPolicy :=
  match rs with [] => Some out | r :: rs => out ← fold_rule deny out r; fold_rules deny out rs end.

Definition finish_lists (p : VmNetworkPolicy) : VmNetworkPolicy :=
  MkPolicy (default_allow p) (sort_dedup (allow_cidrs p)) (sort_dedup (allow_ports p)) (max_egress_mbps p) (max_egress_pps p) (sample_rate p)
    (sort_dedup (deny_cidrs p)) (allow_icmp p) (groups p) (labels p) (sort_dedup (allow_fqdns p)) (entities p) (audit_mode p) (deny_udp p) (compiled_group_ids p).

Definition cnp_default_allow (s : CnpSpec) : bool :=
  let d := negb (default true (enable_default_deny s ≫= dd_egress)) in
  match enable_default_deny s with
  | None => if negb (bool_decide (length (egress s) = 0%nat)) || negb (bool_decide (length (egress_deny s) = 0%nat)) then false else d
  | Some _ => d
  end.

Section Validate.
Variable parse_v6 : rstr -> option bytes.

Definition parse_ip (s : rstr) : option IpAddr := match parse_v4 s with Some o => Some (V4 o) | None => V6 <$> parse_v6 s end.

Definition parse_ip_cidr (raw : rstr) : option Cidr :=
  ip_p ← split_once 47 raw;
  let '(ip, p) := ip_p in
  a ← parse_ip ip;
  n ← parse_dec 8 p;
  match a with V4 o => normalize_ipv4 (from_be o) n | V6 o => normalize_ipv6 (from_be o) n end.

Definition is_some {A} (o : option A) : bool := match o with Some _ => true | None => false end.

Definition validate_policy (p : VmNetworkPolicy) : bool :=
  forallb (fun c => is_some (parse_ip_cidr c)) (allow_cidrs p) && forallb (fun c => is_some (parse_ip_cidr c)) (deny_cidrs p) &&
  forallb (fun r => is_some (parse_port_rule r)) (allow_ports p) &&
  match max_egress_mbps p with Some m => is_some (mbps_to_bytes_per_second m) | None => true end &&
  negb (bool_decide (max_egress_pps p = Some 0)).

Definition compile (c : CiliumNetworkPolicy) : option SecurityGroup :=
  let s := spec c in
  let lbls := sort_dedup (map (fun kv => kv.1 ++ 61 :: kv.2) (default [] (endpoint_selector s))) in
  let p0 := MkPolicy (cnp_default_allow s) [] [] None None 0 [] false [] [] [] [] (c_audit_mode s) false [] in
  p1 ← fold_rules false p0 (egress s);
  p2 ← fold_rules true p1 (egress_deny s);
  p3 ← fold_rules false p2 (ingress s);
  p4 ← fold_rules true p3 (ingress_deny s);
  let p := finish_lists p4 in
  if negb (validate_policy p) then None
  else
    nm ← normalize_name (c_name c);
    Some (MkGroup nm lbls p 0 50 (if bool_decide (c_description s = []) then bstr "CNP " ++ c_name c else c_description s)).

(** ** The stores *)

Inductive Answer := Fine | FailBefore | FailAfter.
Record PolicyStores := MkStores { group_file : option (option (gmap rstr SecurityGroup)); cnp_file : option (option (gmap rstr CiliumNetworkPolicy)); answers : list Answer }.

Definition load_groups : M PolicyStores (gmap rstr SecurityGroup) := fun s =>
  (match group_file s with None => Ok ∅ | Some None => Err Network | Some (Some g) => Ok g end, s).
Definition load_cnps : M PolicyStores (gmap rstr CiliumNetworkPolicy) := fun s =>
  (match cnp_file s with None => Ok ∅ | Some None => Err Network | Some (Some g) => Ok g end, s).

Definition next_answer (s : PolicyStores) : Answer * list Answer := match answers s with [] => (Fine, []) | a :: r => (a, r) end.

Definition save_groups (g : gmap rstr SecurityGroup) : M PolicyStores () := fun s =>
  let '(a, r) := next_answer s in
  match a with
  | Fine => (Ok tt, MkStores (Some (Some g)) (cnp_file s) r)
  | FailBefore => (Err Io, MkStores (group_file s) (cnp_file s) r)
  | FailAfter => (Err Io, MkStores (Some (Some g)) (cnp_file s) r)
  end.
(** No sync after the rename. *)
Definition save_cnps (c : gmap rstr CiliumNetworkPolicy) : M PolicyStores () := fun s =>
  let '(a, r) := next_answer s in
  match a with
  | Fine => (Ok tt, MkStores (group_file s) (Some (Some c)) r)
  | _ => (Err Io, MkStores (group_file s) (cnp_file s) r)
  end.

Fixpoint all_some {A} (l : list (option A)) : option (list A) :=
  match l with [] => Some [] | o :: l => a ← o; r ← all_some l; Some (a :: r) end.

Definition normal_group (g : SecurityGroup) : option SecurityGroup :=
  nm ← normalize_name (g_name g);
  ls ← all_some (map normalize_label (g_labels g));
  let ls := sort_dedup ls in
  if negb (validate_policy (g_policy g)) then None
  else
    let id := if g_identity g <? GROUP_IDENTITY_BASE
              then (if bool_decide (ls = []) then identity_for_labels [bstr "name=" ++ nm] else identity_for_labels ls)
              else g_identity g in
    Some (MkGroup nm ls (g_policy g) id (priority g) (description g)).

Definition upsert_group (g : SecurityGroup) : M PolicyStores SecurityGroup :=
  let! g := ok_or (normal_group g) Network in
  let! store := load_groups in
  do! save_groups (<[g_name g := g]> store) in
  ret g.

Definition delete_group (nm : rstr) : M PolicyStores () :=
  let! nm := ok_or (normalize_name nm) Network in
  let! store := load_groups in
  match store !! nm with None => throw Network | Some _ => save_groups (base.delete nm store) end.

Definition apply_cnp (c : CiliumNetworkPolicy) : M PolicyStores SecurityGroup :=
  if negb (bool_decide (kind c = bstr "CiliumNetworkPolicy")) && negb (bool_decide (kind c = bstr "CiliumClusterwideNetworkPolicy")) then throw Network
  else
    let! g := ok_or (compile c) Network in
    let! g := upsert_group g in
    let! store := load_cnps in
    do! save_cnps (<[c_name c := c]> store) in
    ret g.

Definition delete_cnp (nm : rstr) : M PolicyStores () :=
  let! store := load_cnps in
  match store !! nm with None => throw Network | Some _ => save_cnps (base.delete nm store) end.
End Validate.
