(* ===== verification/NetEdge.v ===== *)
(** * The edge of a VM: policy maps and the verdict on a packet

    [configure_maps] of [crates/fluxvm-network/src/ebpf.rs], which writes the maps of a
    VM's policy, and [handle_ipv4] of [bpf/fluxvm_tc.bpf.c], which reads them.

    A map of prefixes is a set of (identity, network, prefix length); every value is
    one, so that the longest-prefix lookup of the kernel finds something exactly when
    some prefix matches.  Every call that can fail takes one answer of a script
    ([true]: it fails and changes nothing).  What else the verdict looks at (conntrack,
    address spoofing, DNS and SNI lists, the phase of a migration, Pod policy, the rate
    limiter) is given with the packet. *)

From stdpp Require Import prelude list strings gmap.
From Stdlib Require Import NArith Lia.
From S2P Require Import Prelude RustStr LbService NetPolicy.

Record IfaceConfig := MkIface {
  identity : u32; c_default_allow : bool; enforce_cidr : bool; enforce_l4 : bool; c_sample_rate : u32; c_allow_icmp : bool;
  rate_bytes_per_sec : u64; rate_packets_per_sec : u64; pod_id : u32; iface_flags : u32 }.

Abbreviation Keys := (gset (N * N * N)).

(** [fluxvm_id] at the interface, the five maps ([None]: the map does not exist), the
    group identities and the answers to come. *)
Record Edge := MkEdge {
  conf : option IfaceConfig; v4 : Keys; v6 : Keys; deny4 : option Keys; deny6 : option Keys; l4 : Keys; gids : option (list u32); efaults : list bool }.

Definition edge_op : M Edge () := fun e =>
  match efaults e with
  | f :: fs => ((if f then Err Network else Ok tt), MkEdge (conf e) (v4 e) (v6 e) (deny4 e) (deny6 e) (l4 e) (gids e) fs)
  | [] => (Ok tt, e)
  end.

Inductive EdgeMap := V4Map | V6Map | Deny4Map | Deny6Map | L4Map.

#[global] Instance EdgeMap_eq_dec : EqDecision EdgeMap.
Proof. solve_decision. Defined.

Definition map_of (m : EdgeMap) (e : Edge) : Keys :=
  match m with V4Map => v4 e | V6Map => v6 e | Deny4Map => default ∅ (deny4 e) | Deny6Map => default ∅ (deny6 e) | L4Map => l4 e end.
Definition map_exists (m : EdgeMap) (e : Edge) : bool :=
  match m with Deny4Map => bool_decide (is_Some (deny4 e)) | Deny6Map => bool_decide (is_Some (deny6 e)) | _ => true end.
Definition put_map (m : EdgeMap) (s : Keys) (e : Edge) : Edge :=
  match m with
  | V4Map => MkEdge (conf e) s (v6 e) (deny4 e) (deny6 e) (l4 e) (gids e) (efaults e)
  | V6Map => MkEdge (conf e) (v4 e) s (deny4 e) (deny6 e) (l4 e) (gids e) (efaults e)
  | Deny4Map => MkEdge (conf e) (v4 e) (v6 e) ((fun _ => s) <$> deny4 e) (deny6 e) (l4 e) (gids e) (efaults e)
  | Deny6Map => MkEdge (conf e) (v4 e) (v6 e) (deny4 e) ((fun _ => s) <$> deny6 e) (l4 e) (gids e) (efaults e)
  | L4Map => MkEdge (conf e) (v4 e) (v6 e) (deny4 e) (deny6 e) s (gids e) (efaults e)
  end.
Definition set_conf (c : IfaceConfig) (e : Edge) : Edge := MkEdge (Some c) (v4 e) (v6 e) (deny4 e) (deny6 e) (l4 e) (gids e) (efaults e).
Definition set_gids (g : list u32) (e : Edge) : Edge := MkEdge (conf e) (v4 e) (v6 e) (deny4 e) (deny6 e) (l4 e) (Some g) (efaults e).

(** ** Writing the maps *)

Definition update_iface_config (c : IfaceConfig) : M Edge () := do! edge_op in modify (set_conf c).

Fixpoint delete_keys (m : EdgeMap) (ks : list (N * N * N)) : M Edge () :=
  match ks with [] => ret tt | k :: ks => do! edge_op in do! modify (fun e => put_map m (map_of m e ∖ {[k]}) e) in delete_keys m ks end.

(** A dump, then a deletion per key. *)
Definition clear_map (m : EdgeMap) : M Edge () := do! edge_op in let! e := Prelude.get in delete_keys m (elements (map_of m e)).

Definition update_key (m : EdgeMap) (k : N * N * N) : M Edge () := do! edge_op in modify (fun e => put_map m (map_of m e ∪ {[k]}) e).

(** [let _ = ..] *)
Definition ignore (m : M Edge ()) : M Edge () := fun e => match m e with (Err _, e) => (Ok tt, e) | r => r end.

(** [if map.exists() { let _ = clear_map(..) }] *)
Definition clear_deny (m : EdgeMap) : M Edge () := let! e := Prelude.get in if map_exists m e then ignore (clear_map m) else ret tt.

Fixpoint for_each {A} (f : A -> M Edge ()) (l : list A) : M Edge () := match l with [] => ret tt | a :: l => do! f a in for_each f l end.

Section Configure.
Variable parse_v6 : rstr -> option bytes.

Definition allow_cidr (id : u32) (raw : rstr) : M Edge () :=
  let! c := ok_or (parse_ip_cidr parse_v6 raw) Network in
  update_key (if family4 c then V4Map else V6Map) (id, network c, prefix c).

Definition deny_cidr (id : u32) (raw : rstr) : M Edge () :=
  let! c := ok_or (parse_ip_cidr parse_v6 raw) Network in
  let m := if family4 c then Deny4Map else Deny6Map in
  let! e := Prelude.get in
  if map_exists m e then update_key m (id, network c, prefix c) else ret tt.

Definition allow_port (id : u32) (raw : rstr) : M Edge () :=
  let! r := ok_or (parse_port_rule raw) Network in
  update_key L4Map (id, pr_port r, pr_protocol r).

Definition write_group_ids (ids : list u32) : M Edge () := do! edge_op in modify (set_gids (take 8 ids)).

Definition deny_all (id pod : u32) : IfaceConfig := MkIface id false false false 0 false 0 0 pod 0.

Definition packed_sample (p : VmNetworkPolicy) : u32 := N.lor (sample_rate p) (if audit_mode p then 2 ^ 31 else 0).

Definition policy_config (id pod : u32) (p : VmNetworkPolicy) (rate : u64) : IfaceConfig :=
  MkIface id (default_allow p) (negb (bool_decide (allow_cidrs p = []))) (negb (bool_decide (allow_ports p = []))) (packed_sample p) (allow_icmp p)
    rate (default 0 (max_egress_pps p)) pod (if deny_udp p then 1 else 0).

Definition rate_of (p : VmNetworkPolicy) : outcome u64 :=
  match max_egress_mbps p with
  | None => Ok 0
  | Some m => match mbps_to_bytes_per_second m with Some r => Ok r | None => Err Network end
  end.

(** The parts of [configure_maps]. *)
Definition clear_maps : M Edge () :=
  do! clear_map V4Map in
  do! clear_map V6Map in
  do! clear_deny Deny4Map in
  do! clear_deny Deny6Map in
  clear_map L4Map.

Definition write_rules (id : u32) (p : VmNetworkPolicy) : M Edge () :=
  do! for_each (allow_cidr id) (allow_cidrs p) in
  do! for_each (deny_cidr id) (deny_cidrs p) in
  for_each (allow_port id) (allow_ports p).

Definition write_groups (p : VmNetworkPolicy) : M Edge () :=
  let! e := Prelude.get in
  match gids e with Some _ => ignore (write_group_ids (compiled_group_ids p)) | None => ret tt end.

Definition configure_maps (id pod : u32) (p : VmNetworkPolicy) (fail_closed_first : bool) : M Edge () :=
  do! (if fail_closed_first then update_iface_config (deny_all id pod) else ret tt) in
  do! clear_maps in
  do! write_rules id p in
  let! rate := lift (rate_of p) in
  do! write_groups p in
  update_iface_config (policy_config id pod p rate).
End Configure.

(** ** The verdict *)

Inductive Tc := TcOk | TcShot.

#[global] Instance Tc_eq_dec : EqDecision Tc.
Proof. solve_decision. Defined.

Record Packet := MkPacket {
  daddr : N; proto : u8; sport : u16; dport : u16; fragmented : bool; malformed : bool; edge_denied : bool;
  l7_denied : bool; ct_hit : bool; migration_blocked : bool; pod_denied : bool; rate_ok : bool }.

(** [parse_ports4] finds ports in TCP, UDP and SCTP only. *)
Definition has_ports (k : Packet) : bool := negb (fragmented k) && ((proto k =? IPPROTO_TCP) || (proto k =? IPPROTO_UDP) || (proto k =? IPPROTO_SCTP)).

(** The ports of a fragment are not looked at. *)
Definition is_dhcp4 (k : Packet) : bool := negb (fragmented k) && (proto k =? IPPROTO_UDP) && ((sport k =? 67) && (dport k =? 68) || (sport k =? 68) && (dport k =? 67)).

Definition cidr_lookup4 (s : Keys) (id addr : N) : bool :=
  existsb (fun e : N * N * N => (e.1.1 =? id) && (N.land addr (cidr_mask 32 e.2) =? e.1.2)) (elements s).

Definition l4_allowed (s : Keys) (id : N) (pr port : N) : bool := bool_decide ((id, port, pr) ∈ s) || bool_decide ((id, 0, pr) ∈ s).

(** The VM's identity, then those of its groups. *)
Definition any_id (e : Edge) (id : u32) (f : N -> bool) : bool := f id || existsb f (take 8 (default [] (gids e))).

Definition handle_ipv4 (e : Edge) (c : IfaceConfig) (k : Packet) : Tc :=
  let audit := negb (N.shiftr (c_sample_rate c) 31 =? 0) in
  let refuse := if audit then TcOk else TcShot in
  if malformed k then TcShot
  else if fragmented k && enforce_l4 c then refuse
  else if is_dhcp4 k then TcOk
  else if N.testbit (iface_flags c) 0 && ((proto k =? IPPROTO_UDP) || (proto k =? IPPROTO_SCTP)) then refuse
  else if has_ports k && l7_denied k && negb audit then TcShot
  else if ct_hit k then (if rate_ok k then TcOk else refuse)
  else if migration_blocked k then TcShot
  else if any_id e (identity c) (fun i => cidr_lookup4 (default ∅ (deny4 e)) i (daddr k)) then refuse
  else if c_allow_icmp c && (proto k =? IPPROTO_ICMP) then TcOk
  else
    let has_policy := enforce_cidr c || enforce_l4 c in
    let allowed := if has_policy then true else c_default_allow c in
    let allowed := allowed && negb (enforce_cidr c && negb (any_id e (identity c) (fun i => cidr_lookup4 (v4 e) i (daddr k)))) in
    let allowed := allowed && negb (enforce_l4 c && negb (has_ports k && any_id e (identity c) (fun i => l4_allowed (l4 e) i (proto k) (dport k)))) in
    let allowed := allowed && negb (negb (pod_id c =? 0) && pod_denied k) in
    let allowed := allowed && rate_ok k in
    if allowed then TcOk else refuse.

(** An interface without configuration drops everything. *)
Definition egress_verdict4 (e : Edge) (k : Packet) : Tc := match conf e with Some c => if edge_denied k then TcShot else handle_ipv4 e c k | None => TcShot end.

(** ** What a write leaves alone *)

Lemma edge_op_cases e : exists fs, (edge_op e = (Ok tt, MkEdge (conf e) (v4 e) (v6 e) (deny4 e) (deny6 e) (l4 e) (gids e) fs)
    \/ edge_op e = (Err Network, MkEdge (conf e) (v4 e) (v6 e) (deny4 e) (deny6 e) (l4 e) (gids e) fs)) /\ (efaults e = [] -> fs = [] /\ (edge_op e).1 = Ok tt).
Proof. unfold edge_op. destruct e as [c a b d d' l g [|[] fs]]; simpl; eexists; split; eauto; done. Qed.

(** All but the map [m] is as it was. *)
Definition frame (m : EdgeMap) (e e' : Edge) : Prop :=
  (forall m', m' <> m -> map_of m' e' = map_of m' e) /\ (is_Some (deny4 e') <-> is_Some (deny4 e)) /\ (is_Some (deny6 e') <-> is_Some (deny6 e)) /\
  conf e' = conf e /\ gids e' = gids e.

Lemma frame_refl m e : frame m e e.
Proof. done. Qed.

Lemma frame_op m : keeps (frame m) edge_op.
Proof. intros e0 e H. destruct (edge_op_cases e) as (fs & [-> | ->] & _); (split; [done|]); destruct H as (H & ?); split; [intros []; apply H|done|intros []; apply H|done]. Qed.

Lemma frame_put (m : EdgeMap) (f : Edge -> Keys) : keeps (frame m) (modify (fun e => put_map m (f e) e)).
Proof.
  apply keeps_modify. intros e0 e (H & H4 & H6 & Hc & Hg). destruct m; (split; [intros [] Hm; try done; simpl; (apply (H V4Map) || apply (H V6Map) || apply (H L4Map) || apply (H Deny4Map) || apply (H Deny6Map)); done|]);
    simpl; rewrite ?fmap_is_Some; done.
Qed.

#[export] Hint Resolve frame_op frame_put : keeps.

Lemma frame_delete m ks : keeps (frame m) (delete_keys m ks).
Proof. induction ks; simpl; keeps_tac; done. Qed.

#[export] Hint Resolve frame_delete : keeps.

Lemma frame_clear m : keeps (frame m) (clear_map m).
Proof. unfold clear_map. keeps_tac. Qed.

Lemma keeps_ignore (J : Edge -> Edge -> Prop) c : keeps J c -> keeps J (ignore c).
Proof. intros H e0 e He. destruct (H e0 e He) as [Hr HJ]. unfold ignore. by destruct (c e) as [[] ?]. Qed.

#[export] Hint Resolve frame_clear keeps_ignore : keeps.

Lemma frame_clear_deny m : keeps (frame m) (clear_deny m).
Proof. unfold clear_deny. keeps_tac. Qed.

Lemma frame_update m k : keeps (frame m) (update_key m k).
Proof. unfold update_key. keeps_tac. Qed.

#[export] Hint Resolve frame_clear_deny frame_update : keeps.

(** The configuration in force and the groups stay. *)
Definition same_conf (e e' : Edge) : Prop := conf e' = conf e /\ gids e' = gids e /\ (is_Some (deny4 e') <-> is_Some (deny4 e)).

Lemma same_of_frame {A} m (c : M Edge A) : keeps (frame m) c -> keeps same_conf c.
Proof. intros H e0 e (Hc & Hg & Hd). destruct (H e e (frame_refl m e)) as [Hr (_ & Hd' & _ & Hc' & Hg')]. split; [done|]. unfold same_conf. split_and!; try congruence. by rewrite Hd'. Qed.

Lemma same_op : keeps same_conf edge_op.
Proof. apply (same_of_frame V4Map). auto with keeps. Qed.

Lemma same_clear m : keeps same_conf (clear_map m).
Proof. apply (same_of_frame m). auto with keeps. Qed.

Lemma same_clear_deny m : keeps same_conf (clear_deny m).
Proof. apply (same_of_frame m). auto with keeps. Qed.

Lemma same_update m k : keeps same_conf (update_key m k).
Proof. apply (same_of_frame m). auto with keeps. Qed.

#[export] Hint Resolve same_op same_clear same_clear_deny same_update : keeps.

Lemma keeps_for_each {A} (J : Edge -> Edge -> Prop) (f : A -> M Edge ()) l : (forall a, keeps J (f a)) -> keeps J (for_each f l).
Proof. intros H. induction l; simpl; keeps_tac; auto. Qed.

Lemma same_clear_maps : keeps same_conf clear_maps.
Proof. unfold clear_maps. keeps_tac. Qed.

Lemma same_rules parse_v6 id p : keeps same_conf (write_rules parse_v6 id p).
Proof. unfold write_rules. keeps_tac; apply keeps_for_each; intros raw; unfold allow_cidr, deny_cidr, allow_port; keeps_tac. Qed.

Lemma rate_returns p : returns (rate_of p).
Proof. unfold rate_of. by destruct (max_egress_mbps p) as [m|]; [destruct (mbps_to_bytes_per_second m)|]. Qed.

Lemma keeps_lift_returns {A} (J : Edge -> Edge -> Prop) (o : outcome A) : returns o -> keeps J (lift o).
Proof. by intros H e0 e He. Qed.

(** ** Failing closed *)

Definition conf_is (c : option IfaceConfig) (_ e : Edge) : Prop := conf e = c.

Lemma keeps_conf_is {A} c (m : M Edge A) : keeps same_conf m -> keeps (conf_is c) m.
Proof. intros H e0 e He. destruct (H e e) as (Hr & Hc & _); [done|]. split; [done|]. unfold conf_is in *. congruence. Qed.

Lemma conf_write_groups c p : keeps (conf_is c) (write_groups p).
Proof.
  unfold write_groups, write_group_ids. keeps_tac. apply keeps_ignore, keeps_bind; [by apply keeps_conf_is, same_op|]. intros _. by apply keeps_modify.
Qed.

Lemma update_iface_err c e r e' : update_iface_config c e = (r, e') -> r <> Ok tt -> exists fs, e' = MkEdge (conf e) (v4 e) (v6 e) (deny4 e) (deny6 e) (l4 e) (gids e) fs.
Proof. unfold update_iface_config, bind. destruct (edge_op_cases e) as (fs & [-> | ->] & _); intros [= <- <-] H; [done|by exists fs]. Qed.

(** Under the deny-all configuration only DHCP and known flows pass. *)
Lemma deny_all_shot e id pod k : conf e = Some (deny_all id pod) -> is_dhcp4 k = false -> ct_hit k = false -> egress_verdict4 e k = TcShot.
Proof.
  intros Hc Hd Hct. unfold egress_verdict4, handle_ipv4. rewrite Hc, Hd, Hct. simpl. rewrite !andb_false_r. simpl. repeat case_match; done.
Qed.

(** A failure leaves the configuration [c] in force. *)
Definition fails_in (c : option IfaceConfig) (m : M Edge ()) : Prop :=
  forall e r e', conf e = c -> m e = (r, e') -> r <> Ok tt -> (exists err, r = Err err) /\ conf e' = c.

Lemma fails_in_bind {A} c (m : M Edge A) f : keeps (conf_is c) m -> (forall a, fails_in c (f a)) -> fails_in c (bind m f).
Proof.
  intros Hm Hf e r e' He. unfold bind. destruct (Hm e e He) as [Hr Hc]. destruct (m e) as [[a|err| |] e1]; simpl in *; try done.
  - by apply Hf.
  - intros [= <- <-] _. by split; [exists err|].
Qed.

Lemma fails_in_update c c' : fails_in c (update_iface_config c').
Proof.
  intros e r e' He Eu Hr. split; [|by destruct (update_iface_err _ _ _ _ Eu Hr) as [fs ->]].
  revert Eu. unfold update_iface_config, bind. destruct (edge_op_cases e) as (? & [-> | ->] & _); intros [= <- <-]; [done|eauto].
Qed.

(** C22: When reconfiguring an interface fails part way — any of its writes to the
    kernel's maps, a rule that cannot be read, a rate that is too large — either no
    verdict has changed or every packet of a new flow is dropped, DHCP aside. *)
Theorem configure_fail_closed parse_v6 id pod p e r e' : configure_maps parse_v6 id pod p true e = (r, e') -> r <> Ok tt ->
  (exists err, r = Err err) /\
  ((forall k, egress_verdict4 e' k = egress_verdict4 e k) \/ (forall k, is_dhcp4 k = false -> ct_hit k = false -> egress_verdict4 e' k = TcShot)).
Proof.
  unfold configure_maps. intros E Hr. unfold bind at 1 in E. destruct (update_iface_config (deny_all id pod) e) as [r0 e0] eqn:E0.
  assert (r0 = Ok tt \/ r0 <> Ok tt) as [->|Hr0] by (destruct r0 as [[]| | |]; auto).
  - assert (Hc : conf e0 = Some (deny_all id pod)).
    { revert E0. unfold update_iface_config, bind. destruct (edge_op_cases e) as (fs & [-> | ->] & _); by intros [= <-]. }
    refine (_ (fails_in_bind (Some (deny_all id pod)) clear_maps _ _ _ e0 r e' Hc E Hr)).
    + intros [Herr Hc']. split; [done|right]. eauto using deny_all_shot.
    + apply keeps_conf_is, same_clear_maps.
    + intros _. apply fails_in_bind; [apply keeps_conf_is, same_rules|intros _]. apply fails_in_bind; [apply keeps_lift_returns, rate_returns|intros rate].
      apply fails_in_bind; [apply conf_write_groups|intros _]. apply fails_in_update.
  - destruct (fails_in_update (conf e) (deny_all id pod) e r0 e0) as [[err ->] _]; [done..|]. injection E as <- <-. split; [by exists err|left]. intros k.
    destruct (update_iface_err _ _ _ _ E0) as [fs ->]; done.
Qed.

(** ** What the maps hold after a write *)

Lemma edge_op_ok e e' : edge_op e = (Ok tt, e') -> forall m, map_of m e' = map_of m e.
Proof. destruct (edge_op_cases e) as (fs & [-> | ->] & _); intros [= <-]; by intros []. Qed.

Lemma map_of_put m s e : map_exists m e = true -> map_of m (put_map m s e) = s.
Proof. destruct m; simpl; try done; intros H%bool_decide_eq_true; destruct H as [x Hx]; by rewrite Hx. Qed.

Lemma map_of_absent m e : map_exists m e = false -> map_of m e = ∅.
Proof. destruct m; simpl; try done; intros H%bool_decide_eq_false; apply eq_None_not_Some in H; by rewrite H. Qed.

Lemma frame_exists m e e' m' : frame m e e' -> map_exists m' e' = map_exists m' e.
Proof. intros (_ & H4 & H6 & _). destruct m'; try done; simpl; by apply bool_decide_ext. Qed.

Lemma keeps_run {A} (J : Edge -> Edge -> Prop) (m : M Edge A) e r e' : keeps J m -> J e e -> m e = (r, e') -> J e e'.
Proof. intros H He E. destruct (H e e He) as [_ HJ]. by rewrite E in HJ. Qed.

Lemma delete_keys_ok m ks e e' : map_exists m e = true -> delete_keys m ks e = (Ok tt, e') -> map_of m e' = map_of m e ∖ list_to_set ks.
Proof.
  revert e. induction ks as [|k ks IH]; intros e Hx; simpl; [intros [= <-]; set_solver|].
  intros ([] & e1 & E1 & (? & e2 & [= <- <-] & E2)%bind_Ok)%bind_Ok. pose proof (keeps_run (frame m) _ _ _ _ (frame_op m) (frame_refl m e) E1) as F.
  rewrite <- (frame_exists _ _ _ m F) in Hx. apply IH in E2; [|by rewrite (frame_exists m e1) by apply (keeps_run (frame m) _ _ _ _ (frame_put m (fun e => map_of m e ∖ {[k]})) (frame_refl m e1) eq_refl)].
  rewrite E2, map_of_put, (edge_op_ok _ _ E1) by done. set_solver.
Qed.

Lemma clear_map_ok m e e' : clear_map m e = (Ok tt, e') -> map_of m e' = ∅.
Proof.
  intros ([] & e1 & E1 & (? & ? & [= <- <-] & E2)%bind_Ok)%bind_Ok. destruct (map_exists m e1) eqn:Hx.
  - apply delete_keys_ok in E2; [|done]. rewrite E2. set_solver.
  - rewrite (map_of_absent m e1 Hx), elements_empty in E2. injection E2 as <-. by apply map_of_absent.
Qed.

Lemma update_key_ok m k e e' : map_exists m e = true -> update_key m k e = (Ok tt, e') -> map_of m e' = map_of m e ∪ {[k]}.
Proof.
  intros Hx ([] & e1 & E1 & [= <-])%bind_Ok. pose proof (keeps_run (frame m) _ _ _ _ (frame_op m) (frame_refl m e) E1) as F.
  rewrite map_of_put, (edge_op_ok _ _ E1); [done|]. by rewrite (frame_exists _ _ _ m F).
Qed.

(** Without failures a write succeeds. *)
Definition smooth {A} (m : M Edge A) : Prop := forall e, efaults e = [] -> exists a e', m e = (Ok a, e') /\ efaults e' = [].

Lemma smooth_bind {A B} (m : M Edge A) (f : A -> M Edge B) : smooth m -> (forall a, smooth (f a)) -> smooth (bind m f).
Proof. intros Hm Hf e He. destruct (Hm e He) as (a & e1 & E & H1). unfold bind. rewrite E. by apply Hf. Qed.

Lemma smooth_op : smooth edge_op.
Proof. intros e He. unfold edge_op. rewrite He. eauto. Qed.

Lemma smooth_modify f : (forall e, efaults (f e) = efaults e) -> smooth (modify f).
Proof. intros H e He. exists tt, (f e). split; [done|]. by rewrite H. Qed.

Lemma smooth_get : smooth Prelude.get.
Proof. intros e He. by exists e, e. Qed.

Lemma smooth_ret {A} (a : A) : smooth (ret a).
Proof. intros e He. by exists a, e. Qed.

Lemma smooth_put m f : smooth (modify (fun e => put_map m (f e) e)).
Proof. apply smooth_modify. by destruct m. Qed.

Create HintDb smooth discriminated.
#[export] Hint Resolve smooth_op smooth_get smooth_ret smooth_put : smooth.

Lemma smooth_delete m ks : smooth (delete_keys m ks).
Proof. induction ks; simpl; repeat (apply smooth_bind; intros); auto with smooth. Qed.

#[export] Hint Resolve smooth_delete : smooth.

Lemma smooth_clear m : smooth (clear_map m).
Proof. unfold clear_map. repeat (apply smooth_bind; intros); auto with smooth. Qed.

Lemma smooth_ignore c : smooth c -> smooth (ignore c).
Proof. intros H e He. destruct (H e He) as ([] & e1 & E & H1). exists tt, e1. unfold ignore. by rewrite E. Qed.

Lemma smooth_clear_deny m : smooth (clear_deny m).
Proof. unfold clear_deny. apply smooth_bind; [apply smooth_get|]. intros e. case_match; [apply smooth_ignore, smooth_clear|apply smooth_ret]. Qed.

Lemma smooth_update m k : smooth (update_key m k).
Proof. unfold update_key. apply smooth_bind; [apply smooth_op|]. intros _. apply smooth_put. Qed.

Lemma smooth_for_each {A} (f : A -> M Edge ()) l : Forall (fun a => smooth (f a)) l -> smooth (for_each f l).
Proof. induction 1; simpl; [apply smooth_ret|]. by apply smooth_bind. Qed.

#[export] Hint Resolve smooth_clear smooth_clear_deny smooth_update : smooth.

Lemma smooth_run {A} (m : M Edge A) e r e' : smooth m -> efaults e = [] -> m e = (r, e') -> efaults e' = [] /\ exists a, r = Ok a.
Proof. intros H He E. destruct (H e He) as (a & e1 & E1 & H1). rewrite E in E1. injection E1 as -> ->. eauto. Qed.

Lemma clear_deny_ok m e e' r : clear_deny m e = (r, e') -> efaults e = [] -> map_of m e' = ∅.
Proof.
  unfold clear_deny, bind, Prelude.get. intros E He. destruct (map_exists m e) eqn:Hx; [|injection E as _ <-; by apply map_of_absent].
  destruct (smooth_clear m e He) as ([] & e1 & E1 & _). unfold ignore in E. rewrite E1 in E. injection E as _ <-. by apply (clear_map_ok m e).
Qed.

Lemma clear_maps_ok e e' : clear_maps e = (Ok tt, e') -> v4 e' = ∅ /\ l4 e' = ∅ /\ (efaults e = [] -> map_of Deny4Map e' = ∅).
Proof.
  intros ([] & e1 & E1 & ([] & e2 & E2 & ([] & e3 & E3 & ([] & e4 & E4 & E5)%bind_Ok)%bind_Ok)%bind_Ok)%bind_Ok.
  pose proof (keeps_run _ _ _ _ _ (frame_clear V6Map) (frame_refl _ _) E2) as (F2 & _). pose proof (keeps_run _ _ _ _ _ (frame_clear_deny Deny4Map) (frame_refl _ _) E3) as (F3 & _).
  pose proof (keeps_run _ _ _ _ _ (frame_clear_deny Deny6Map) (frame_refl _ _) E4) as (F4 & _). pose proof (keeps_run _ _ _ _ _ (frame_clear L4Map) (frame_refl _ _) E5) as (F5 & _).
  split; [|split].
  - change (map_of V4Map e' = ∅). by rewrite F5, F4, F3, F2, (clear_map_ok _ _ _ E1).
  - apply (clear_map_ok L4Map _ _ E5).
  - intros He. rewrite F5, F4 by done. apply (clear_deny_ok _ _ _ _ E3).
    apply (smooth_run (clear_map V6Map) e1 _ _ (smooth_clear _)) in E2 as [? _]; [done|]. by apply (smooth_run (clear_map V4Map) e _ _ (smooth_clear _)) in E1 as [? _].
Qed.

(** A command that adds the keys [K] to the map [m], when it succeeds. *)
Definition adds (m : EdgeMap) (K : list (N * N * N)) (c : M Edge ()) : Prop :=
  forall e e', map_exists m e = true -> c e = (Ok tt, e') -> map_of m e' = map_of m e ∪ list_to_set K /\ map_exists m e' = true.

Lemma adds_ret m : adds m [] (ret tt).
Proof. intros e e' Hx [= <-]. set_solver. Qed.

Lemma adds_bind m K K' c c' : adds m K c -> adds m K' c' -> adds m (K ++ K') (bind c (fun _ => c')).
Proof.
  intros H H' e e' Hx ([] & e1 & E & E')%bind_Ok. apply H in E as [E Hx1]; [|done]. apply H' in E' as [E' Hx2]; [|done]. split; [|done]. rewrite E', E. set_solver.
Qed.

Lemma adds_update m m' k : adds m (if decide (m = m') then [k] else []) (update_key m' k).
Proof.
  intros e e' Hx E. pose proof (keeps_run _ _ _ _ _ (frame_update m' k) (frame_refl _ _) E) as F. rewrite (frame_exists _ _ _ m F). split; [|done].
  destruct (decide (m = m')) as [->|Hn]; [rewrite (update_key_ok _ _ _ _ Hx E); set_solver|]. destruct F as [F _]. rewrite F by done. set_solver.
Qed.

Lemma adds_for_each {A} m (key : A -> list (N * N * N)) (f : A -> M Edge ()) l : (forall a, adds m (key a) (f a)) -> adds m (flat_map key l) (for_each f l).
Proof. intros H. induction l; simpl; [apply adds_ret|]. by apply adds_bind. Qed.

Section Rules.
Variable parse_v6 : rstr -> option bytes.

(** The keys of the rules of a policy. *)
Definition key4 (id : u32) (raw : rstr) : list (N * N * N) :=
  match parse_ip_cidr parse_v6 raw with Some c => if family4 c then [(id, network c, prefix c)] else [] | None => [] end.

Definition port_key (id : u32) (raw : rstr) : list (N * N * N) :=
  match parse_port_rule raw with Some r => [(id, pr_port r, pr_protocol r)] | None => [] end.

Lemma adds_ok_or {A} m K (o : option A) (f : A -> M Edge ()) : (forall a, o = Some a -> adds m K (f a)) -> adds m K (let! a := ok_or o Network in f a).
Proof. intros H e e' Hx. destruct o as [a|]; [|done]. by apply (H a). Qed.

Lemma adds_allow_cidr m id raw : adds m (match m with V4Map => key4 id raw | V6Map => (match parse_ip_cidr parse_v6 raw with Some c => if family4 c then [] else [(id, network c, prefix c)] | None => [] end) | _ => [] end) (allow_cidr parse_v6 id raw).
Proof.
  apply adds_ok_or. intros c Hc. unfold key4. rewrite Hc. pose proof (adds_update m (if family4 c then V4Map else V6Map) (id, network c, prefix c)) as H.
  by destruct m, (family4 c).
Qed.

Lemma adds_deny_cidr m id raw : m <> V6Map -> m <> Deny6Map -> adds m (match m with Deny4Map => key4 id raw | _ => [] end) (deny_cidr parse_v6 id raw).
Proof.
  intros H6 Hd6. apply adds_ok_or. intros c Hc. unfold key4. rewrite Hc. intros e e' Hx (? & ? & [= <- <-] & E)%bind_Ok.
  pose proof (adds_update m (if family4 c then Deny4Map else Deny6Map) (id, network c, prefix c) e e' Hx) as H.
  destruct (map_exists (if family4 c then Deny4Map else Deny6Map) e) eqn:Hm.
  - specialize (H E). by destruct m, (family4 c).
  - injection E as <-. destruct m, (family4 c); simpl in *; try done; try congruence; set_solver.
Qed.

Lemma adds_allow_port m id raw : adds m (match m with L4Map => port_key id raw | _ => [] end) (allow_port id raw).
Proof. apply adds_ok_or. intros r Hr. unfold port_key. rewrite Hr. pose proof (adds_update m L4Map (id, pr_port r, pr_protocol r)) as H. by destruct m. Qed.

Lemma flat_map_nil {A B} (l : list A) : flat_map (fun _ => @nil B) l = [].
Proof. by induction l. Qed.

Lemma write_rules_ok id p e e' : write_rules parse_v6 id p e = (Ok tt, e') ->
  v4 e' = v4 e ∪ list_to_set (flat_map (key4 id) (allow_cidrs p)) /\
  l4 e' = l4 e ∪ list_to_set (flat_map (port_key id) (allow_ports p)) /\
  (is_Some (deny4 e) -> map_of Deny4Map e' = map_of Deny4Map e ∪ list_to_set (flat_map (key4 id) (deny_cidrs p))).
Proof.
  assert (W : forall m, m <> V6Map -> m <> Deny6Map -> adds m (flat_map (fun raw => match m with V4Map => key4 id raw | _ => [] end) (allow_cidrs p) ++
      flat_map (fun raw => match m with Deny4Map => key4 id raw | _ => [] end) (deny_cidrs p) ++ flat_map (fun raw => match m with L4Map => port_key id raw | _ => [] end) (allow_ports p))
      (write_rules parse_v6 id p)).
  { intros m H6 Hd6. unfold write_rules. repeat apply adds_bind; apply adds_for_each; intros raw; [|by apply adds_deny_cidr|apply adds_allow_port].
    pose proof (adds_allow_cidr m id raw) as H. by destruct m. }
  intros E. destruct (W V4Map) with e e' as [H4 _]; [done..|]. destruct (W L4Map) with e e' as [Hl _]; [done..|].
  split_and!; [|revert Hl|intros Hd; destruct (W Deny4Map) with e e' as [Hd4 _]; [done..|by apply bool_decide_eq_true|done|revert Hd4]]; simpl in *;
    rewrite ?flat_map_nil, ?app_nil_r in *; simpl; done.
Qed.
End Rules.

(** ** What a policy permits *)

Section Permits.
Variable parse_v6 : rstr -> option bytes.

Definition in_cidr (a : N) (raw : rstr) : bool :=
  match parse_ip_cidr parse_v6 raw with Some c => family4 c && (N.land a (cidr_mask 32 (prefix c)) =? network c) | None => false end.

(** Port zero of a rule stands for every port. *)
Definition port_ok (k : Packet) (raw : rstr) : bool :=
  match parse_port_rule raw with Some r => (pr_protocol r =? proto k) && ((pr_port r =? dport k) || (pr_port r =? 0)) | None => false end.

Definition empty {A} (l : list A) : bool := match l with [] => true | _ => false end.

(** Denied networks go before everything else; ICMP may be let through as such; both
    lists must agree where both are given; without lists the default decides. *)
Definition permitted (p : VmNetworkPolicy) (k : Packet) : bool :=
  negb (deny_udp p && ((proto k =? IPPROTO_UDP) || (proto k =? IPPROTO_SCTP))) &&
  negb (existsb (in_cidr (daddr k)) (deny_cidrs p)) &&
  (allow_icmp p && (proto k =? IPPROTO_ICMP) ||
   (if empty (allow_cidrs p) && empty (allow_ports p) then default_allow p
    else (empty (allow_cidrs p) || existsb (in_cidr (daddr k)) (allow_cidrs p)) && (empty (allow_ports p) || has_ports k && existsb (port_ok k) (allow_ports p)))).

(** A whole packet of a new flow that nothing but the policy stops. *)
Definition ordinary (pod : u32) (k : Packet) : bool :=
  negb (malformed k) && negb (fragmented k) && negb (edge_denied k) && negb (is_dhcp4 k) && negb (l7_denied k) && negb (ct_hit k) &&
  negb (migration_blocked k) && ((pod =? 0) || negb (pod_denied k)) && rate_ok k.

Lemma bool_eq (a b : bool) : (a = true <-> b = true) -> a = b.
Proof. destruct a, b; naive_solver. Qed.

Lemma cidr_lookup4_true s i a : cidr_lookup4 s i a = true <-> exists n l, (i, n, l) ∈ s /\ N.land a (cidr_mask 32 l) = n.
Proof.
  unfold cidr_lookup4. rewrite existsb_exists. split.
  - intros ([[i' n] l] & Hin & [Hi%N.eqb_eq Hn%N.eqb_eq]%andb_true_iff). simpl in *. subst. exists (N.land a (cidr_mask 32 l)), l. split; [|done]. by apply elem_of_elements, list_elem_of_In.
  - intros (n & l & Hin & Hn). exists (i, n, l). split; [by apply list_elem_of_In, elem_of_elements|]. simpl. by rewrite Hn, !N.eqb_refl.
Qed.

Lemma elem_keys4 id l i n m : (i, n, m) ∈ (list_to_set (flat_map (key4 parse_v6 id) l) : Keys) <-> i = id /\ exists raw, raw ∈ l /\ parse_ip_cidr parse_v6 raw = Some (MkCidr true n m).
Proof.
  rewrite elem_of_list_to_set, list_elem_of_In, in_flat_map. unfold key4. split.
  - intros (raw & Hin & H). destruct (parse_ip_cidr parse_v6 raw) as [[[] n' m']|] eqn:E; simpl in H; try done. destruct H as [[= <- <- <-]|[]]. split; [done|]. exists raw. by rewrite list_elem_of_In.
  - intros (-> & raw & Hin & E). exists raw. rewrite E. simpl. rewrite <- list_elem_of_In. auto.
Qed.

Lemma lookup_keys4 id l a : cidr_lookup4 (list_to_set (flat_map (key4 parse_v6 id) l)) id a = existsb (in_cidr a) l.
Proof.
  apply bool_eq. rewrite cidr_lookup4_true, existsb_exists. unfold in_cidr. split.
  - intros (n & m & (_ & raw & Hin & E)%elem_keys4 & Hn). exists raw. rewrite E. simpl. rewrite Hn, N.eqb_refl. by rewrite <- list_elem_of_In.
  - intros (raw & Hin & H). destruct (parse_ip_cidr parse_v6 raw) as [[[] n m]|] eqn:E; try done. simpl in H. apply N.eqb_eq in H.
    exists n, m. split; [|done]. apply elem_keys4. split; [done|]. exists raw. by rewrite list_elem_of_In.
Qed.

Lemma lookup_keys4_other id i l a : i <> id -> cidr_lookup4 (list_to_set (flat_map (key4 parse_v6 id) l)) i a = false.
Proof. intros Hi. apply not_true_is_false. rewrite cidr_lookup4_true. by intros (n & m & [Hid _]%elem_keys4 & _). Qed.

Lemma elem_port_keys id l i n m : (i, n, m) ∈ (list_to_set (flat_map (port_key id) l) : Keys) <-> i = id /\ exists raw, raw ∈ l /\ parse_port_rule raw = Some (MkPort m n).
Proof.
  rewrite elem_of_list_to_set, list_elem_of_In, in_flat_map. unfold port_key. split.
  - intros (raw & Hin & H). destruct (parse_port_rule raw) as [[m' n']|] eqn:E; simpl in H; [|done]. destruct H as [[= <- <- <-]|[]]. split; [done|]. exists raw. by rewrite list_elem_of_In.
  - intros (-> & raw & Hin & E). exists raw. rewrite E. simpl. rewrite <- list_elem_of_In. auto.
Qed.

Lemma l4_keys id l k : l4_allowed (list_to_set (flat_map (port_key id) l)) id (proto k) (dport k) = existsb (port_ok k) l.
Proof.
  unfold l4_allowed, port_ok. apply bool_eq. rewrite orb_true_iff, !bool_decide_eq_true, !elem_port_keys, existsb_exists. split.
  - intros [(_ & raw & Hin & E)|(_ & raw & Hin & E)]; exists raw; rewrite <- list_elem_of_In, E; simpl; rewrite !N.eqb_refl, ?orb_true_r; done.
  - intros (raw & Hin%list_elem_of_In & H). destruct (parse_port_rule raw) as [[m n]|] eqn:E; [|done]. simpl in H.
    apply andb_true_iff in H as [<-%N.eqb_eq [<-%N.eqb_eq| ->%N.eqb_eq]%orb_true_iff]; eauto.
Qed.

Lemma l4_keys_other id i l pr po : i <> id -> l4_allowed (list_to_set (flat_map (port_key id) l)) i pr po = false.
Proof. intros Hi. unfold l4_allowed. apply orb_false_iff. rewrite !bool_decide_eq_false, !elem_port_keys. split; by intros [? _]. Qed.

(** Keys carry the VM's own identity, so the groups add nothing. *)
Lemma any_id_own e id f : (forall i, i <> id -> f i = false) -> any_id e id f = f id.
Proof.
  intros H. unfold any_id. apply bool_eq. rewrite orb_true_iff, existsb_exists. split; [|tauto]. intros [?|(i & _ & Hi)]; [done|].
  destruct (decide (i = id)) as [->|Hn]; [done|]. by rewrite H in Hi.
Qed.

End Permits.

(** A policy that is written as one to audit: by its own word, or by a sampling rate
    that reaches the bit the audit mode is packed into. *)
Definition audits (p : VmNetworkPolicy) : bool := audit_mode p || (2 ^ 31 <=? sample_rate p).

Lemma packed_bit p : (N.shiftr (packed_sample p) 31 =? 0) = negb (audits p).
Proof.
  apply bool_eq. rewrite N.eqb_eq, negb_true_iff. unfold packed_sample, audits. rewrite N.shiftr_lor, N.lor_eq_0_iff, orb_false_iff, N.leb_gt, N.shiftr_div_pow2.
  rewrite N.div_small_iff by done. destruct (audit_mode p); [|naive_solver]. split; [intros [_ H]|intros [H _]]; done.
Qed.

(** The policy in force at an edge: without a deny map its deny rules are skipped. *)
Definition in_force (e : Edge) (p : VmNetworkPolicy) : VmNetworkPolicy :=
  match deny4 e with
  | Some _ => p
  | None => MkPolicy (default_allow p) (allow_cidrs p) (allow_ports p) (max_egress_mbps p) (max_egress_pps p) (sample_rate p) [] (allow_icmp p)
              (groups p) (labels p) (allow_fqdns p) (entities p) (audit_mode p) (deny_udp p) (compiled_group_ids p)
  end.

(** ** The policy is enforced *)

Section Enforce.
Variable parse_v6 : rstr -> option bytes.

(** The maps are those of the policy, at an interface configured for it. *)
Definition loaded (id pod : u32) (p : VmNetworkPolicy) (e : Edge) : Prop :=
  (exists rate, conf e = Some (policy_config id pod p rate)) /\
  v4 e = list_to_set (flat_map (key4 parse_v6 id) (allow_cidrs p)) /\ l4 e = list_to_set (flat_map (port_key id) (allow_ports p)) /\
  list_to_set (flat_map (key4 parse_v6 id) (deny_cidrs p)) ⊆ map_of Deny4Map e.

Lemma groups_maps p e r e' : write_groups p e = (r, e') -> v4 e' = v4 e /\ l4 e' = l4 e /\ deny4 e' = deny4 e.
Proof.
  unfold write_groups, bind, Prelude.get. destruct (gids e); [|by intros [= _ <-]]. unfold ignore, write_group_ids, bind.
  destruct (edge_op_cases e) as (fs & [-> | ->] & _); by intros [= _ <-].
Qed.

Lemma update_iface_ok c e e' : update_iface_config c e = (Ok tt, e') -> conf e' = Some c /\ v4 e' = v4 e /\ l4 e' = l4 e /\ deny4 e' = deny4 e.
Proof. unfold update_iface_config, bind. destruct (edge_op_cases e) as (fs & [-> | ->] & _); by intros [= <-]. Qed.

Lemma start_same (ff : bool) c e e' : (if ff then update_iface_config c else ret tt) e = (Ok tt, e') -> deny4 e' = deny4 e /\ (efaults e = [] -> efaults e' = []).
Proof.
  destruct ff; [|by intros [= <-]]. unfold update_iface_config, bind. destruct (edge_op_cases e) as (fs & [-> | ->] & Hf); intros [= <-]. split; [done|]. by intros [-> _]%Hf.
Qed.

Lemma configure_ok id pod p ff e e' : configure_maps parse_v6 id pod p ff e = (Ok tt, e') ->
  loaded id pod (in_force e p) e' /\ (efaults e = [] -> map_of Deny4Map e' = list_to_set (flat_map (key4 parse_v6 id) (deny_cidrs (in_force e p)))).
Proof.
  intros ([] & e0 & E0 & ([] & e1 & E1 & ([] & e2 & E2 & (rate & e3 & [= Er <-] & ([] & e4 & E4 & E5)%bind_Ok)%bind_Ok)%bind_Ok)%bind_Ok)%bind_Ok.
  apply start_same in E0 as [D0 F0]. destruct (keeps_run same_conf _ _ _ _ same_clear_maps ltac:(done) E1) as (_ & _ & D1).
  destruct (keeps_run same_conf _ _ _ _ (same_rules parse_v6 id p) ltac:(done) E2) as (_ & _ & D2).
  apply clear_maps_ok in E1 as (H4 & Hl & Hx). apply write_rules_ok in E2 as (H4' & Hl' & Hx'). apply groups_maps in E4 as (G4 & Gl & Gd).
  apply update_iface_ok in E5 as (Hc & U4 & Ul & Ud). rewrite D0 in D1. unfold in_force. destruct (deny4 e) as [d|] eqn:Ede.
  - assert (Dn : map_of Deny4Map e' = map_of Deny4Map e1 ∪ list_to_set (flat_map (key4 parse_v6 id) (deny_cidrs p))).
    { rewrite <- Hx' by (apply D1; by eexists). simpl. by rewrite Ud, Gd. }
    split; [split_and!|].
    + by exists rate.
    + rewrite U4, G4, H4', H4. set_solver.
    + rewrite Ul, Gl, Hl', Hl. set_solver.
    + rewrite Dn. set_solver.
    + intros He. rewrite Dn, Hx by auto. set_solver.
  - assert (Dn : map_of Deny4Map e' = ∅).
    { apply map_of_absent. apply bool_decide_eq_false. rewrite Ud, Gd, D2, D1. by intros [? ?]. }
    split; [split_and!|].
    + by exists rate.
    + rewrite U4, G4, H4', H4. simpl. set_solver.
    + rewrite Ul, Gl, Hl', Hl. simpl. set_solver.
    + simpl. set_solver.
    + intros _. rewrite Dn. done.
Qed.

Lemma any_cidr_rules id l e a : v4 e = list_to_set (flat_map (key4 parse_v6 id) l) -> any_id e id (fun i => cidr_lookup4 (v4 e) i a) = existsb (in_cidr parse_v6 a) l.
Proof. intros ->. rewrite any_id_own, lookup_keys4; [done|]. intros i Hi. by apply lookup_keys4_other. Qed.

Lemma any_l4_rules id l e k : l4 e = list_to_set (flat_map (port_key id) l) -> any_id e id (fun i => l4_allowed (l4 e) i (proto k) (dport k)) = existsb (port_ok k) l.
Proof. intros ->. rewrite any_id_own, l4_keys; [done|]. intros i Hi. by apply l4_keys_other. Qed.

Definition denied (e : Edge) (id : u32) (k : Packet) : bool := any_id e id (fun i => cidr_lookup4 (map_of Deny4Map e) i (daddr k)).

Lemma denied_sound id pod p e k : loaded id pod p e -> existsb (in_cidr parse_v6 (daddr k)) (deny_cidrs p) = true -> denied e id k = true.
Proof.
  intros (_ & _ & _ & Hs) H. unfold denied, any_id. apply orb_true_iff. left. rewrite <- (lookup_keys4 parse_v6 id), cidr_lookup4_true in H.
  apply cidr_lookup4_true. destruct H as (n & m & Hin & Hn). exists n, m. split; [by apply Hs|done].
Qed.

Lemma denied_exact id p e k : map_of Deny4Map e = list_to_set (flat_map (key4 parse_v6 id) (deny_cidrs p)) -> denied e id k = existsb (in_cidr parse_v6 (daddr k)) (deny_cidrs p).
Proof. intros H. unfold denied. rewrite H, any_id_own, lookup_keys4; [done|]. intros i Hi. by apply lookup_keys4_other. Qed.

Definition by_lists (p : VmNetworkPolicy) (k : Packet) : bool :=
  if empty (allow_cidrs p) && empty (allow_ports p) then default_allow p
  else (empty (allow_cidrs p) || existsb (in_cidr parse_v6 (daddr k)) (allow_cidrs p)) && (empty (allow_ports p) || has_ports k && existsb (port_ok k) (allow_ports p)).

Lemma bool_decide_nil {A} `{EqDecision A} (l : list A) : bool_decide (l = []) = empty l.
Proof. by destruct l. Qed.

(** The verdict on a new flow, outside audit mode. *)
Lemma verdict_new id pod p e k : loaded id pod p e -> audits p = false -> is_dhcp4 k = false -> ct_hit k = false ->
  egress_verdict4 e k = TcOk <->
  negb (edge_denied k) && negb (malformed k) && negb (fragmented k && negb (empty (allow_ports p))) &&
  negb (deny_udp p && ((proto k =? IPPROTO_UDP) || (proto k =? IPPROTO_SCTP))) && negb (has_ports k && l7_denied k) && negb (migration_blocked k) &&
  negb (denied e id k) && (allow_icmp p && (proto k =? IPPROTO_ICMP) || by_lists p k && ((pod =? 0) || negb (pod_denied k)) && rate_ok k) = true.
Proof.
  intros ((rate & Hc) & H4 & Hl & _) Ha Hd Hct. unfold egress_verdict4, handle_ipv4. rewrite Hc. cbn [c_sample_rate enforce_l4 policy_config iface_flags identity c_allow_icmp enforce_cidr c_default_allow pod_id].
  rewrite (any_cidr_rules id (allow_cidrs p)), (any_l4_rules id (allow_ports p)), packed_bit, Ha, Hd, Hct by done. change (default ∅ (deny4 e)) with (map_of Deny4Map e). fold (denied e id k).
  rewrite !bool_decide_nil. unfold by_lists. simpl.
  destruct (edge_denied k), (malformed k), (fragmented k), (empty (allow_ports p)), (deny_udp p); simpl; try (by split; intros); 
  destruct ((proto k =? IPPROTO_UDP) || (proto k =? IPPROTO_SCTP)); simpl; try (by split; intros);
  destruct (has_ports k), (l7_denied k); simpl; try (by split; intros);
  destruct (migration_blocked k), (denied e id k), (allow_icmp p && (proto k =? IPPROTO_ICMP)); simpl; try (by split; intros);
  destruct (empty (allow_cidrs p)), (existsb (in_cidr parse_v6 (daddr k)) (allow_cidrs p)); simpl; try (by split; intros);
  destruct (existsb (port_ok k) (allow_ports p)), (default_allow p), (pod =? 0), (pod_denied k), (rate_ok k); simpl; by split; intros.
Qed.

(** Under a policy to audit an ordinary packet passes. *)
Lemma verdict_audit id pod p e k : loaded id pod p e -> audits p = true -> ordinary pod k = true -> egress_verdict4 e k = TcOk.
Proof.
  intros ((rate & Hc) & _) Ha Hk. unfold ordinary in Hk. repeat (apply andb_true_iff in Hk as [Hk ?]). unfold egress_verdict4, handle_ipv4. rewrite Hc.
  cbn [c_sample_rate policy_config]. rewrite packed_bit, Ha. cbn [negb]. repeat match goal with H : negb _ = true |- _ => apply negb_true_iff in H; rewrite H end.
  simpl. rewrite andb_false_r. by repeat case_match.
Qed.

Lemma audits_in_force e p : audits (in_force e p) = audits p.
Proof. unfold in_force. by destruct (deny4 e). Qed.

End Enforce.


Lemma smooth_ok_or {A} (o : option A) (f : A -> M Edge ()) : is_some o = true -> (forall a, smooth (f a)) -> smooth (bind (ok_or o Network) f).
Proof. intros Ho Hf. destruct o as [a|]; [|done]. apply smooth_bind; [apply smooth_ret|done]. Qed.

Lemma smooth_clear_maps : smooth clear_maps.
Proof. unfold clear_maps. do 4 (apply smooth_bind; [auto with smooth|intros _]). auto with smooth. Qed.

Lemma smooth_checked {A} (ok : A -> bool) (f : A -> M Edge ()) l : forallb ok l = true -> (forall a, ok a = true -> smooth (f a)) -> smooth (for_each f l).
Proof. intros H Hf. apply smooth_for_each, Forall_forall. intros a Hin%list_elem_of_In. apply Hf. by apply (proj1 (forallb_forall ok l)). Qed.

Lemma smooth_rules parse_v6 id p : validate_policy parse_v6 p = true -> smooth (write_rules parse_v6 id p).
Proof.
  unfold validate_policy. intros Hv. repeat (apply andb_true_iff in Hv as [Hv ?]). unfold write_rules. apply smooth_bind; [|intros _; apply smooth_bind; [|intros _]].
  - apply (smooth_checked _ _ _ Hv). intros raw Hr. apply smooth_ok_or; [done|]. intros c. apply smooth_update.
  - eapply smooth_checked; [done|]. intros raw Hr. apply smooth_ok_or; [done|]. intros c. apply smooth_bind; [apply smooth_get|]. intros e.
    destruct (map_exists _ e); [apply smooth_update|apply smooth_ret].
  - eapply smooth_checked; [done|]. intros raw Hr. apply smooth_ok_or; [done|]. intros c. apply smooth_update.
Qed.

Lemma smooth_iface c : smooth (update_iface_config c).
Proof. apply smooth_bind; [apply smooth_op|]. intros _. by apply smooth_modify. Qed.

Lemma smooth_groups p : smooth (write_groups p).
Proof.
  unfold write_groups. apply smooth_bind; [apply smooth_get|]. intros x. case_match; [|apply smooth_ret].
  apply smooth_ignore, smooth_bind; [apply smooth_op|]. intros _. by apply smooth_modify.
Qed.

Lemma smooth_rate parse_v6 p : validate_policy parse_v6 p = true -> smooth (lift (rate_of p)).
Proof.
  unfold validate_policy. intros Hv e He. repeat (apply andb_true_iff in Hv as [Hv ?]). unfold lift, rate_of.
  destruct (max_egress_mbps p) as [m|]; [|eauto]. destruct (mbps_to_bytes_per_second m); [eauto|done].
Qed.

(** A policy that passes validation is written when nothing fails. *)
Lemma configure_succeeds parse_v6 id pod p ff e : validate_policy parse_v6 p = true -> efaults e = [] -> exists e', configure_maps parse_v6 id pod p ff e = (Ok tt, e').
Proof.
  intros Hv He. assert (smooth (configure_maps parse_v6 id pod p ff)) as Hm; [|destruct (Hm e He) as ([] & e' & -> & _); eauto].
  unfold configure_maps. apply smooth_bind; [destruct ff; [apply smooth_iface|apply smooth_ret]|intros _]. apply smooth_bind; [apply smooth_clear_maps|intros _].
  apply smooth_bind; [by apply smooth_rules|intros _]. apply smooth_bind; [by eapply smooth_rate|intros rate]. apply smooth_bind; [apply smooth_groups|intros _]. apply smooth_iface.
Qed.

(** ** Examples *)

Definition no_v6 : rstr -> option bytes := fun _ => None.

(** Web traffic to 10.0.0.0/8, but not to 10.1.0.0/16. *)
Definition web_policy : VmNetworkPolicy :=
  MkPolicy false [bstr "10.0.0.0/8"] [bstr "tcp/443"] (Some 100) None 0 [bstr "10.1.0.0/16"] false [] [] [] [] false false [].

(** The maps of an earlier policy. *)
Definition old_edge (faults : list bool) : Edge :=
  MkEdge (Some (MkIface 7 true false false 0 true 0 0 0 0)) {[(7, 0, 0)]} ∅ (Some {[(9, 0, 0)]}) (Some ∅) {[(7, 22, 6)]} (Some [9]) faults.

Definition tcp_packet (a port : N) : Packet := MkPacket a IPPROTO_TCP 40000 port false false false false false false false true.

Lemma configure_fail_closed_witness : exists e', configure_maps no_v6 7 0 web_policy true (old_edge [false; false; true]) = (Err Network, e') /\
  ((exists err, @Err unit Network = Err err) /\
   ((forall k, egress_verdict4 e' k = egress_verdict4 (old_edge [false; false; true]) k) \/ (forall k, is_dhcp4 k = false -> ct_hit k = false -> egress_verdict4 e' k = TcShot))).
Proof.
  eexists. split; [vm_compute; reflexivity|]. apply (configure_fail_closed no_v6 7 0 web_policy); [vm_compute; reflexivity|done].
Defined.

