(* ===== verification/NetGroups.v ===== *)
(** * Security groups, from the document to the packet

    What the merge of a VM's groups keeps of them ([groups.rs]), carried through
    [configure_maps] to the verdict of the edge, and what CNP documents and group
    stores do at the limits. *)

From stdpp Require Import prelude list strings gmap sorting.
From Stdlib Require Import NArith Lia.
From S2P Require Import Prelude RustStr LbService NetPolicy NetEdge.

(** ** Sorting and removing duplicates *)

Lemma elem_dedup a l : a ∈ dedup l <-> a ∈ l.
Proof.
  induction l as [|b [|c l] IH]; [done..|]. change (dedup (b :: c :: l)) with (if bool_decide (b = c) then dedup (c :: l) else b :: dedup (c :: l)).
  case_bool_decide as E; [subst c; rewrite IH; set_solver|]. rewrite !(elem_of_cons _ a b), IH. done.
Qed.

Lemma elem_sort_dedup a l : a ∈ sort_dedup l <-> a ∈ l.
Proof. unfold sort_dedup. rewrite elem_dedup. by rewrite merge_sort_Permutation. Qed.

Lemma dedup_nil l : dedup l = [] -> l = [].
Proof. intros H. destruct l as [|a l]; [done|]. assert (a ∈ dedup (a :: l)) as Ha by (apply elem_dedup; left). rewrite H in Ha. by apply not_elem_of_nil in Ha. Qed.

(** ** Membership *)

(** The groups of a store that apply to a VM, in no order. *)
Definition applying (store : gmap rstr SecurityGroup) (p : VmNetworkPolicy) (g : SecurityGroup) : Prop :=
  (exists nm, store !! nm = Some g) /\ applies_to (sort_dedup (omap normalize_name (groups p))) (sort_dedup (omap normalize_label (labels p))) g = true.

Definition applying_list (store : gmap rstr SecurityGroup) (p : VmNetworkPolicy) : list SecurityGroup :=
  List.filter (applies_to (sort_dedup (omap normalize_name (groups p))) (sort_dedup (omap normalize_label (labels p)))) (map snd (map_to_list store)).

Lemma elem_applying store p g : g ∈ applying_list store p <-> applying store p g.
Proof.
  unfold applying_list, applying. rewrite list_elem_of_In, filter_In, in_map_iff. split.
  - intros [([nm g'] & [= <-] & Hin%list_elem_of_In%elem_of_map_to_list) Ha]. eauto.
  - intros [[nm Hs] Ha]. split; [|done]. exists (nm, g). split; [done|]. by apply list_elem_of_In, elem_of_map_to_list.
Qed.

Lemma matched_applies store p g : g ∈ matched (resolve_membership store p) -> applying store p g.
Proof.
  simpl. fold (applying_list store p). intros H. apply elem_applying. rewrite <- (merge_sort_Permutation group_le). apply (subseteq_take 8 _ _ H).
Qed.

Lemma matched_all store p g : (length (applying_list store p) <= 8)%nat -> applying store p g -> g ∈ matched (resolve_membership store p).
Proof.
  intros Hl H%elem_applying. simpl. fold (applying_list store p). rewrite take_ge; [by rewrite merge_sort_Permutation|].
  by rewrite merge_sort_Permutation.
Qed.

(** ** The merge *)

(** A list field of the merge, before sorting. *)
Lemma fold_merge_list (f : VmNetworkPolicy -> list rstr) gs p c : (forall q g, f (merge_one q g) = f q ++ f (g_policy g)) ->
  c ∈ f (fold_left merge_one gs p) <-> c ∈ f p \/ exists g, g ∈ gs /\ c ∈ f (g_policy g).
Proof.
  intros Hf. revert p. induction gs as [|g gs IH]; intros p; simpl; [set_solver|]. rewrite IH, Hf, elem_of_app. set_solver.
Qed.

Lemma fold_merge_all (f : VmNetworkPolicy -> bool) gs p : (forall q g, f (merge_one q g) = f q && f (g_policy g)) ->
  f (fold_left merge_one gs p) = true <-> f p = true /\ forall g, g ∈ gs -> f (g_policy g) = true.
Proof.
  intros Hf. revert p. induction gs as [|g gs IH]; intros p; simpl; [set_solver|]. rewrite IH, Hf, andb_true_iff. set_solver.
Qed.

Lemma fold_merge_any (f : VmNetworkPolicy -> bool) gs p : (forall q g, f (merge_one q g) = f q || f (g_policy g)) ->
  f (fold_left merge_one gs p) = true <-> f p = true \/ exists g, g ∈ gs /\ f (g_policy g) = true.
Proof.
  intros Hf. revert p. induction gs as [|g gs IH]; intros p; simpl; [set_solver|]. rewrite IH, Hf, orb_true_iff. set_solver.
Qed.

(** [r] is a limit of [a], or [a] has none. *)
Definition under (r : N) (a : option N) : Prop := match a with Some x => r <= x | None => True end.

Lemma under_min r a b : under r (min_opt a b) <-> under r a /\ under r b.
Proof. destruct a, b; simpl; try tauto; lia. Qed.

(** The limit of the merge is the least of those given. *)
Lemma fold_merge_min (f : VmNetworkPolicy -> option N) gs p r : (forall q g, f (merge_one q g) = min_opt (f q) (f (g_policy g))) ->
  under r (f (fold_left merge_one gs p)) <-> under r (f p) /\ forall g, g ∈ gs -> under r (f (g_policy g)).
Proof.
  intros Hf. revert p. induction gs as [|g gs IH]; intros p; simpl; [set_solver|]. rewrite IH, Hf, under_min. set_solver.
Qed.

(** The policy in force for a VM is its own merged with those of its groups: what
    any of them denies is denied, a packet class passes by default only when all of
    them say so, the allow lists are joined (entities replaced by their networks), and
    the rate limits are the least of those given.  The groups are those of the store
    that the VM names, or whose labels the VM all carries; all of them, when there are
    at most eight. *)
Theorem groups_merge store p : let q := (merge_group_policy store p).1 in let gs := matched (resolve_membership store p) in
  (forall c, c ∈ deny_cidrs q <-> c ∈ deny_cidrs p \/ exists g, g ∈ gs /\ c ∈ deny_cidrs (g_policy g)) /\
  (default_allow q = true <-> default_allow p = true /\ forall g, g ∈ gs -> default_allow (g_policy g) = true) /\
  (forall c, c ∈ allow_ports q <-> c ∈ allow_ports p \/ exists g, g ∈ gs /\ c ∈ allow_ports (g_policy g)) /\
  (forall c, c ∈ allow_cidrs q <-> c ∈ allow_cidrs p \/ c ∈ expand_entities (entities p) \/
     exists g, g ∈ gs /\ (c ∈ allow_cidrs (g_policy g) \/ c ∈ expand_entities (entities (g_policy g)))) /\
  (forall r, under r (max_egress_mbps q) <-> under r (max_egress_mbps p) /\ forall g, g ∈ gs -> under r (max_egress_mbps (g_policy g))) /\
  (audit_mode q = true <-> audit_mode p = true \/ exists g, g ∈ gs /\ audit_mode (g_policy g) = true) /\
  (forall g, g ∈ gs -> applying store p g) /\ ((length (applying_list store p) <= 8)%nat -> forall g, applying store p g -> g ∈ gs).
Proof.
  intros q gs. subst q. unfold merge_group_policy. fold gs. simpl. split_and!.
  - intros c. rewrite elem_sort_dedup. by apply (fold_merge_list deny_cidrs).
  - by apply (fold_merge_all default_allow).
  - intros c. rewrite elem_sort_dedup. by apply (fold_merge_list allow_ports).
  - intros c. rewrite elem_sort_dedup, elem_of_app, (fold_merge_list allow_cidrs) by done. unfold expand_entities. rewrite !list_elem_of_In, !in_flat_map.
    setoid_rewrite <- list_elem_of_In. setoid_rewrite (fold_merge_list entities); [|done]. setoid_rewrite list_elem_of_In. setoid_rewrite in_flat_map.
    setoid_rewrite <- list_elem_of_In. naive_solver.
  - intros r. by apply (fold_merge_min max_egress_mbps).
  - by apply (fold_merge_any audit_mode).
  - apply matched_applies.
  - intros Hl g. by apply matched_all.
Qed.

(** ** From the group to the packet *)

Lemma merge_denies store p g c : g ∈ matched (resolve_membership store p) -> c ∈ deny_cidrs (g_policy g) -> c ∈ deny_cidrs (merge_group_policy store p).1.
Proof. intros Hg Hc. simpl. apply elem_sort_dedup. apply (fold_merge_list deny_cidrs); [done|]. right. by exists g. Qed.

(** C24: A network that a VM's group denies stays out of its reach: once the merged policy
    has been written for the VM's interface, whatever failed on the way, a packet of a new
    flow to that network, other than DHCP, passes only when the merged policy audits (one
    of the policies by its flag, or a sampling rate of 2^31 or more) or the edge has no
    deny map, whatever else its own policy and its other groups allow.  The group is one of
    those the merge takes, the first eight that apply by priority; that is every group
    that applies when there are at most eight. *)
Theorem group_deny_enforced parse_v6 store p g id pod ff e e' raw k :
  g ∈ matched (resolve_membership store p) -> raw ∈ deny_cidrs (g_policy g) -> in_cidr parse_v6 (daddr k) raw = true ->
  let q := (merge_group_policy store p).1 in
  configure_maps parse_v6 id pod q ff e = (Ok tt, e') -> is_dhcp4 k = false -> ct_hit k = false ->
  (egress_verdict4 e' k = TcOk -> audits q = true \/ deny4 e = None) /\
  ((length (applying_list store p) <= 8)%nat -> forall g', applying store p g' -> g' ∈ matched (resolve_membership store p)).
Proof.
  intros Hg Hraw Hk q E Hdh Hct. split; [|intros Hl g'; by apply matched_all].
  intros Hv. destruct (audits q) eqn:Ha; [by left|right]. destruct (deny4 e) as [d|] eqn:Hd; [exfalso|done].
  apply configure_ok in E as [HL _]. unfold in_force in HL. rewrite Hd in HL.
  apply (verdict_new parse_v6 id pod q) in Hv; [|done..]. rewrite (denied_sound parse_v6 id pod q) in Hv; [by rewrite !andb_false_r in Hv|done|].
  apply existsb_exists. exists raw. split; [|done]. apply list_elem_of_In. by apply (merge_denies store p g).
Qed.

(** *** Examples *)

Definition group_of (nm : rstr) (prio : u32) (pol : VmNetworkPolicy) : SecurityGroup := MkGroup nm [bstr "app=web"] pol (GROUP_IDENTITY_BASE + prio) prio [].

Definition quarantine : VmNetworkPolicy := MkPolicy true [] [] None None 0 [bstr "10.9.0.0/16"] false [] [] [] [] false false [].

Definition web_vm : VmNetworkPolicy := MkPolicy false [bstr "10.0.0.0/8"] [] None None 0 [] true [] [bstr " app=web "] [] [] false false [].

Definition one_group : gmap rstr SecurityGroup := {[ bstr "quarantine" := group_of (bstr "quarantine") 50 quarantine ]}.

Lemma group_deny_enforced_witness : let e' := (configure_maps no_v6 7 0 (merge_group_policy one_group web_vm).1 true (old_edge [])).2 in
  audits (merge_group_policy one_group web_vm).1 = false /\ is_Some (deny4 (old_edge [])) /\
  (egress_verdict4 e' (tcp_packet 0x0a090001 443) = TcOk -> audits (merge_group_policy one_group web_vm).1 = true \/ deny4 (old_edge []) = None).
Proof.
  intros e'. split; [vm_compute; reflexivity|]. split; [by eexists|].
  apply (group_deny_enforced no_v6 one_group web_vm (group_of (bstr "quarantine") 50 quarantine) 7 0 true (old_edge []) e' (bstr "10.9.0.0/16") (tcp_packet 0x0a090001 443)).
  - vm_compute. left.
  - vm_compute. left.
  - vm_compute. reflexivity.
  - vm_compute. reflexivity.
  - vm_compute. reflexivity.
  - vm_compute. reflexivity.
Defined.

(** ** At the limits *)

Definition icmp_packet (a : N) : Packet := MkPacket a IPPROTO_ICMP 0 0 false false false false false false false true.

Definition icmp_rule : VmNetworkPolicy := MkPolicy false [] [bstr "icmp/0"] None None 0 [] false [] [] [] [] false false [].

(** The port rule for ICMP is accepted and stored, and matches no packet: ICMP has no
    ports, and the edge asks for ports first. *)
Lemma icmp_rule_matches_nothing : validate_policy no_v6 icmp_rule = true /\ port_ok (icmp_packet 1) (bstr "icmp/0") = true /\
  exists e', configure_maps no_v6 7 0 icmp_rule true (old_edge []) = (Ok tt, e') /\
  forall k, proto k = IPPROTO_ICMP -> ct_hit k = false -> egress_verdict4 e' k = TcShot.
Proof.
  split; [vm_compute; reflexivity|]. split; [vm_compute; reflexivity|]. destruct (configure_succeeds no_v6 7 0 icmp_rule true (old_edge [])) as [e' E]; [vm_compute; reflexivity|done|].
  exists e'. split; [done|]. intros k Hk Hct. destruct (egress_verdict4 e' k) eqn:Hv; [|done]. assert (Hd : is_dhcp4 k = false) by (unfold is_dhcp4; rewrite Hk; simpl; by rewrite andb_false_r).
  apply configure_ok in E as [HL _]. apply (verdict_new no_v6 7 0 icmp_rule) in Hv; [|done..]. unfold by_lists, has_ports in Hv. rewrite Hk in Hv. simpl in Hv.
  by rewrite !andb_false_r in Hv.
Qed.

(** A sampling rate of [2 ^ 31] is accepted, and turns the policy into audit mode:
    the packet is not permitted and passes. *)
Definition loud_policy : VmNetworkPolicy := MkPolicy false [] [] None None (2 ^ 31) [bstr "0.0.0.0/0"] false [] [] [] [] false false [].

Lemma sample_rate_audits : validate_policy no_v6 loud_policy = true /\ audit_mode loud_policy = false /\ permitted no_v6 loud_policy (tcp_packet 1 443) = false /\
  let '(r, e') := configure_maps no_v6 7 0 loud_policy true (old_edge []) in r = Ok tt /\ egress_verdict4 e' (tcp_packet 1 443) = TcOk.
Proof. vm_compute. repeat split. Qed.

(** Without the deny map the deny rules are skipped and the call succeeds. *)
Definition old_object : Edge := MkEdge None ∅ ∅ None None ∅ None [].

Lemma deny_rules_skipped : permitted no_v6 quarantine (tcp_packet 0x0a090001 443) = false /\
  let '(r, e') := configure_maps no_v6 7 0 quarantine true old_object in r = Ok tt /\ egress_verdict4 e' (tcp_packet 0x0a090001 443) = TcOk.
Proof. vm_compute. repeat split. Qed.

(** The ninth group of a VM, by priority, is left out, and with it what it denies. *)
Definition nine_groups : gmap rstr SecurityGroup :=
  list_to_map (map (fun i => let nm := [97 + N.of_nat i] in (nm, group_of nm (N.of_nat i) (if Nat.eqb i 8 then quarantine else default_vm_policy))) (List.seq 0 9)).

Lemma ninth_group_dropped : applying nine_groups web_vm (group_of [105] 8 quarantine) /\ deny_cidrs (merge_group_policy nine_groups web_vm).1 = [].
Proof. split; [split; [exists [105]; vm_compute; reflexivity|vm_compute; reflexivity]|vm_compute; reflexivity]. Qed.

(** A port under [egressDeny] ends up in the allow list. *)
Definition no_smtp : CiliumNetworkPolicy :=
  MkCnp (bstr "CiliumNetworkPolicy") (bstr "no-smtp")
    (MkSpec (Some [(bstr "app", bstr "web")]) [] [MkRule [] [] [] [] [] [] [[MkPP (bstr "25") (bstr "TCP")]]] [] [] None false []).

Lemma denied_port_allowed : exists g, compile no_v6 no_smtp = Some g /\ allow_ports (g_policy g) = [bstr "tcp/25"] /\ deny_cidrs (g_policy g) = [] /\
  permitted no_v6 (g_policy g) (tcp_packet 1 25) = true.
Proof. eexists. split; [vm_compute; reflexivity|]. split; [vm_compute; reflexivity|]. split; vm_compute; reflexivity. Qed.

(** Deleting a document leaves the group it was compiled to. *)
Lemma deleted_cnp_in_force : let s0 := MkStores None None [] in
  match apply_cnp no_v6 no_smtp s0 with
  | (Ok g, s1) => match delete_cnp (bstr "no-smtp") s1 with
                  | (Ok _, s2) => cnp_file s2 = Some (Some ∅) /\ group_file s2 = Some (Some {[ bstr "no-smtp" := g ]})
                  | _ => False
                  end
  | _ => False
  end.
Proof. vm_compute. split; reflexivity. Qed.

(** The largest range of ports has 257 of them. *)
Lemma port_range_257 : length <$> expand_port (bstr "tcp") (bstr "1-257") = Some 257%nat /\ expand_port (bstr "tcp") (bstr "1-258") = None.
Proof. split; vm_compute; reflexivity. Qed.

(** [any] is TCP. *)
Lemma any_protocol_is_tcp : expand_port (bstr "ANY") (bstr "dns") = Some [bstr "tcp/53"].
Proof. vm_compute. reflexivity. Qed.

(** ** The group store *)

Definition stored (s : PolicyStores) : gmap rstr SecurityGroup := match group_file s with Some (Some g) => g | _ => ∅ end.

Lemma identity_labels_base ls : GROUP_IDENTITY_BASE <= identity_for_labels ls.
Proof. unfold identity_for_labels, U.saturating_add, U.max, GROUP_IDENTITY_BASE. lia. Qed.

Lemma normal_group_id parse_v6 g g' : normal_group parse_v6 g = Some g' -> GROUP_IDENTITY_BASE <= g_identity g' /\ normalize_name (g_name g) = Some (g_name g') /\ validate_policy parse_v6 (g_policy g') = true.
Proof.
  unfold normal_group. destruct (normalize_name (g_name g)) as [nm|]; [|done]. simpl. destruct (all_some _) as [ls|]; [|done]. simpl. destruct (validate_policy parse_v6 (g_policy g)) eqn:Hv; [|done].
  simpl. intros [= <-]. split_and!; [|done..]. simpl. destruct (g_identity g <? GROUP_IDENTITY_BASE) eqn:Hb; [case_match; apply identity_labels_base|by apply N.ltb_ge].
Qed.

(** Storing a group: on success the store holds it under its normalised name, with an
    identity of the groups' range and a policy that passes validation, and every other
    group is as it was; on failure the file is the old one or the new one. *)
Lemma upsert_group_spec parse_v6 g s r s' : upsert_group parse_v6 g s = (r, s') ->
  (forall g', r = Ok g' -> stored s' = <[g_name g' := g']> (stored s) /\ GROUP_IDENTITY_BASE <= g_identity g' /\ validate_policy parse_v6 (g_policy g') = true) /\
  (group_file s' = group_file s \/ exists g', stored s' = <[g_name g' := g']> (stored s)).
Proof.
  unfold upsert_group, bind. destruct (normal_group parse_v6 g) as [g'|] eqn:Hg; simpl; [|intros [= <- <-]; split; [done|by left]]. apply normal_group_id in Hg as (Hid & _ & Hv).
  unfold load_groups, save_groups, stored. destruct (group_file s) as [[m|]|] eqn:Hf; [|intros [= <- <-]; split; [done|by left]|]; destruct (next_answer s) as [[] rest];
    intros [= <- <-]; (split; [intros ? [= <-]; by split_and!|]); simpl; eauto.
Qed.

(** Deleting a group: on success only it is gone; a group that does not exist is an
    error that changes nothing. *)
Lemma delete_group_spec nm s r s' : delete_group nm s = (r, s') ->
  (r = Ok tt -> exists n, normalize_name nm = Some n /\ is_Some (stored s !! n) /\ stored s' = base.delete n (stored s)) /\
  (forall n, normalize_name nm = Some n -> stored s !! n = None -> r = Err Network /\ s' = s).
Proof.
  unfold delete_group, bind. destruct (normalize_name nm) as [n|]; simpl; [|by intros [= <- <-]; split; [|intros ? [=]]]. unfold load_groups, stored. destruct (group_file s) as [[m|]|] eqn:Hf; simpl.
  - destruct (m !! n) eqn:Hn; [|intros [= <- <-]; split; [done|by intros ? [= <-]]]. unfold save_groups. destruct (next_answer s) as [[] rest]; intros [= <- <-];
      (split; [|intros ? [= <-]; by rewrite Hn]); try done. intros _. exists n. by rewrite Hn.
  - by intros [= <- <-]; split.
  - intros [= <- <-]. split; [done|]. intros ? [= <-] _. done.
Qed.
