(* ===== verification/NetApply.v ===== *)
(** * Applying the policy of a sandbox

    [crates/fluxvm-network/src/dataplane.rs]: the stored policy of a VM, the policy in
    force (groups, resolved names, extra networks), the native attachment and the
    nftables rules it falls back to; [egress.rs]: the egress decision of the proxy and
    the resolution of names.

    A policy file is absent, unparseable ([Some None]) or parsed.  Every step that can
    fail takes one answer of a script ([true]: it fails and changes nothing); the native
    attachment ([ebpf::apply]) is one step.  Name resolution, the IPv6 reader and the
    fingerprint of a policy are arguments.  VMs of Kubernetes Pods (a [pod_uid]) are left
    out, and so are the address cache and the endpoint records, whose failures are
    ignored. *)

From stdpp Require Import prelude list strings gmap sorting.
From Stdlib Require Import NArith Lia.
From S2P Require Import Prelude RustStr LbService NetPolicy NetEdge NetGroups.

(** ** The egress decision *)

Record CredentialInject := MkInject { host : rstr; authorization : rstr }.
Record EgressDecision := MkDecision { allow : bool; inject_authorization : option rstr; reason : rstr }.

Definition ends_with (p s : rstr) : bool := is_some (strip_suffix p s).

Definition dns_lookup_name (domain : rstr) : rstr := to_ascii_lowercase (trim_start_matches 46 (trim domain)).

Definition domain_matches (pattern h : rstr) : bool := let p := dns_lookup_name pattern in bool_decide (h = p) || ends_with (46 :: p) h.

Definition decide_egress (egress_allow_domains : list rstr) (credential_vault : list CredentialInject) (h : rstr) : EgressDecision :=
  let h := to_ascii_lowercase (trim_end_matches 46 (trim h)) in
  let inject := authorization <$> find (fun c => domain_matches (host c) h) credential_vault in
  if empty egress_allow_domains then MkDecision true inject (bstr "no allowlist configured")
  else if existsb (fun d => domain_matches d h) egress_allow_domains then MkDecision true inject (bstr "host matched allowlist")
  else MkDecision false None (bstr "host " ++ h ++ bstr " not in egress allowlist").

(** ** Resolved names *)

Section Resolve.
(** What the resolver gives for a name; [None] is an error. *)
Variable lookup_host : rstr -> option (list IpAddr).

Definition host_cidr (a : IpAddr) : rstr := match a with V4 o => show_v4 o ++ bstr "/32" | V6 o => show_v6 o ++ bstr "/128" end.

Definition resolve_one (domain : rstr) : list rstr :=
  let nm := dns_lookup_name domain in
  if empty nm || contains 42 nm then [] else match lookup_host nm with Some l => map host_cidr l | None => [] end.

Definition resolve_allow_cidrs_sync (domains : list rstr) : list rstr := sort_dedup (flat_map resolve_one domains).

Definition with_allow (p : VmNetworkPolicy) (l : list rstr) : VmNetworkPolicy :=
  MkPolicy (default_allow p) l (allow_ports p) (max_egress_mbps p) (max_egress_pps p) (sample_rate p) (deny_cidrs p) (allow_icmp p) (groups p) (labels p)
    (allow_fqdns p) (entities p) (audit_mode p) (deny_udp p) (compiled_group_ids p).

(** The policy to be enforced, from the merged one. *)
Definition sandbox_policy (extra : list rstr) (p : VmNetworkPolicy) : VmNetworkPolicy :=
  with_allow p (sort_dedup (allow_cidrs p ++ (if empty (allow_fqdns p) then [] else resolve_allow_cidrs_sync (allow_fqdns p)) ++ extra)).
End Resolve.

(** ** The host *)

Inductive DataplaneMode := Legacy | Ebpf | Cilium.

#[global] Instance DataplaneMode_eq_dec : EqDecision DataplaneMode.
Proof. solve_decision. Defined.

Record DataplaneConfig := MkDp {
  dp_mode : DataplaneMode; dp_required : bool; dp_default_allow : bool; dp_allow_cidrs : list rstr; dp_allow_ports : list rstr;
  dp_max_egress_mbps : option u32; dp_max_egress_pps : option u32; dp_sample_rate : u32 }.

(** A rule of the forward chain: accept what goes to the network and the port. *)
Inductive NftRule := AcceptTo (daddr : option rstr) (l4 : option (rstr * u16)) | AcceptEstablished.

(** The nftables table of a VM: its masquerading sources and its forward chain, whose
    policy is to drop. *)
Record NftTable := MkNft { masquerade : list rstr; forward : option (list NftRule) }.

Record NetHost := MkNetHost {
  policy_file : option (option VmNetworkPolicy); stores : PolicyStores; nft : option NftTable; native : option VmNetworkPolicy;
  committed : option u64; hfaults : list bool }.

Definition set_policy_file f h := MkNetHost f (stores h) (nft h) (native h) (committed h) (hfaults h).
Definition set_nft t h := MkNetHost (policy_file h) (stores h) t (native h) (committed h) (hfaults h).
Definition set_native p h := MkNetHost (policy_file h) (stores h) (nft h) (Some p) (committed h) (hfaults h).
Definition set_committed f h := MkNetHost (policy_file h) (stores h) (nft h) (native h) (Some f) (hfaults h).

Definition host_op : M NetHost () := fun h =>
  match hfaults h with
  | f :: fs => ((if f then Err Network else Ok tt), MkNetHost (policy_file h) (stores h) (nft h) (native h) (committed h) fs)
  | [] => (Ok tt, h)
  end.

(** ** The stored policy *)

Definition default_policy (dp : DataplaneConfig) : VmNetworkPolicy :=
  MkPolicy (dp_default_allow dp) (dp_allow_cidrs dp) (dp_allow_ports dp) (dp_max_egress_mbps dp) (dp_max_egress_pps dp) (dp_sample_rate dp)
    [] false [] [] [] [] false false [].

Section Apply.
Variables (parse_v6 : rstr -> option bytes) (lookup_host : rstr -> option (list IpAddr)) (policy_fingerprint : VmNetworkPolicy -> u64).

Definition load_policy : M NetHost (option VmNetworkPolicy) := fun h =>
  match policy_file h with
  | None => (Ok None, h)
  | Some None => (Err Network, h)
  | Some (Some p) => if validate_policy parse_v6 p then (Ok (Some p), h) else (Err Network, h)
  end.

Definition effective_policy (dp : DataplaneConfig) : M NetHost VmNetworkPolicy := let! p := load_policy in ret (default (default_policy dp) p).

(** The steps before the rename, the rename, the sync of the directory. *)
Definition save_policy (p : VmNetworkPolicy) : M NetHost () :=
  if negb (validate_policy parse_v6 p) then throw Network
  else
    do! host_op in
    do! modify (set_policy_file (Some (Some p))) in
    host_op.

Definition delete_policy : M NetHost () := do! host_op in modify (set_policy_file None).

(** ** nftables *)

Definition policy_contains_ipv6 (p : VmNetworkPolicy) : bool :=
  existsb (fun c => match parse_ip_cidr parse_v6 c with Some c => negb (family4 c) | None => false end) (allow_cidrs p ++ deny_cidrs p).

Definition policy_uses_native_only_features (p : VmNetworkPolicy) : bool :=
  is_some (max_egress_mbps p) || is_some (max_egress_pps p) || policy_contains_ipv6 p || negb (empty (deny_cidrs p)) || audit_mode p ||
  negb (empty (compiled_group_ids p)) || negb (empty (allow_fqdns p)).

Definition parse_nft_port_rule (raw : rstr) : option (rstr * u16) :=
  pp ← split_once 47 raw;
  let p := to_ascii_lowercase (trim pp.1) in
  proto ← (if bool_decide (p = bstr "tcp") then Some (bstr "tcp") else if bool_decide (p = bstr "udp") then Some (bstr "udp") else None);
  n ← parse_dec 16 (trim pp.2);
  if n =? 0 then None else Some (proto, n).

(** Adding a table or a chain that exists changes nothing. *)
Definition the_table (h : NetHost) : NftTable := default (MkNft [] None) (nft h).
Definition nft_delete_table : M NetHost () := do! host_op in modify (set_nft None).
Definition nft_add_table : M NetHost () := do! host_op in modify (fun h => set_nft (Some (the_table h)) h).
Definition nft_masquerade (source : rstr) : M NetHost () :=
  do! host_op in modify (fun h => set_nft (Some (MkNft (masquerade (the_table h) ++ [source]) (forward (the_table h)))) h).
Definition nft_forward_chain : M NetHost () :=
  do! host_op in modify (fun h => set_nft (Some (MkNft (masquerade (the_table h)) (Some (default [] (forward (the_table h)))))) h).
Definition nft_add_rule (r : NftRule) : M NetHost () :=
  do! host_op in modify (fun h => set_nft (Some (MkNft (masquerade (the_table h)) (Some (default [] (forward (the_table h)) ++ [r])))) h).

(** [let _ = run_nft(["delete", ..])], then table, chain and rule. *)
Definition apply_subnet_masquerade (source : rstr) : M NetHost () :=
  do! try_ok nft_delete_table ret (ret tt) in
  do! nft_add_table in
  do! host_op in
  nft_masquerade source.

Fixpoint add_rules (rs : list (option NftRule)) : M NetHost () :=
  match rs with [] => ret tt | r :: rs => let! r := ok_or r Network in do! nft_add_rule r in add_rules rs end.

(** The accept rules in the order they are added; [None] where the port is refused. *)
Definition accept_rules (p : VmNetworkPolicy) : list (option NftRule) :=
  match empty (allow_cidrs p), empty (allow_ports p) with
  | false, false => flat_map (fun c => map (fun r => (fun l4 => AcceptTo (Some c) (Some l4)) <$> parse_nft_port_rule r) (allow_ports p)) (allow_cidrs p)
  | false, true => map (fun c => Some (AcceptTo (Some c) None)) (allow_cidrs p)
  | true, false => map (fun r => (fun l4 => AcceptTo None (Some l4)) <$> parse_nft_port_rule r) (allow_ports p)
  | true, true => []
  end.

Definition apply_nftables (guest_cidr : rstr) (p : VmNetworkPolicy) : M NetHost () :=
  if policy_uses_native_only_features p then throw Network
  else
    do! apply_subnet_masquerade guest_cidr in
    let listed := negb (empty (allow_cidrs p)) || negb (empty (allow_ports p)) in
    if listed || negb (default_allow p) then
      do! nft_forward_chain in
      do! add_rules (accept_rules p) in
      if listed then nft_add_rule AcceptEstablished else ret tt
    else ret tt.

(** ** The attachment *)

Definition group_store : M NetHost (gmap rstr SecurityGroup) := fun h => ((load_groups (stores h)).1, h).

Definition native_apply (dp : DataplaneConfig) (p : VmNetworkPolicy) : M NetHost () :=
  do! (if bool_decide (dp_mode dp = Cilium) then host_op else ret tt) in
  do! host_op in
  do! host_op in
  modify (set_native p).

Definition apply_sandbox_policy (dp : DataplaneConfig) (iface : bool) (guest_cidr : option rstr) (extra : list rstr) : M NetHost () :=
  let! base := effective_policy dp in
  let! groups := group_store in
  let p := sandbox_policy lookup_host extra (merge_group_policy groups base).1 in
  if bool_decide (dp_mode dp = Legacy) then match guest_cidr with Some c => apply_nftables c p | None => ret tt end
  else if negb iface then ret tt
  else
    try_ok (native_apply dp p)
      (fun _ => do! host_op in do! modify (set_committed (policy_fingerprint base)) in host_op)
      (if dp_required dp then throw Network
       else if policy_uses_native_only_features p then throw Network
       else match guest_cidr with Some c => apply_nftables c p | None => ret tt end).

(** The repair of the reconciler; [same_iface]: the program is attached to the VM's
    interface, [repaired]: what the service layer says of itself. *)
Definition ensure_sandbox_policy (dp : DataplaneConfig) (iface same_iface repaired : bool) (extra : list rstr) : M NetHost bool :=
  if bool_decide (dp_mode dp = Legacy) then ret false
  else
    do! (if bool_decide (dp_mode dp = Cilium) then host_op else ret tt) in
    if negb iface then throw Network
    else
      let! base := effective_policy dp in
      let! groups := group_store in
      let p := sandbox_policy lookup_host extra (merge_group_policy groups base).1 in
      do! host_op in
      do! host_op in
      let! h := Prelude.get in
      if is_some (native h) && same_iface && bool_decide (committed h = Some (policy_fingerprint base)) then ret repaired
      else
        do! host_op in
        do! host_op in
        do! modify (set_native p) in
        do! host_op in
        do! modify (set_committed (policy_fingerprint base)) in
        do! host_op in
        ret true.
End Apply.

(** ** The egress decision *)

Lemma ends_with_spec p s : ends_with p s = true <-> exists a, s = a ++ p.
Proof.
  unfold ends_with, is_some. destruct (strip_suffix p s) as [a|] eqn:E.
  - split; [|done]. intros _. exists a. by apply strip_suffix_spec.
  - split; [done|]. intros [a Ha%strip_suffix_spec]. congruence.
Qed.

(** A pattern stands for a host and for every host under it. *)
Lemma domain_matches_spec p h : domain_matches p h = true <-> h = dns_lookup_name p \/ exists sub, h = sub ++ 46 :: dns_lookup_name p.
Proof. unfold domain_matches. by rewrite orb_true_iff, bool_decide_eq_true, ends_with_spec. Qed.

(** A request is allowed when there is no list or a pattern of it matches, and gets the
    first credential whose pattern matches, only when it is allowed. *)
Theorem decide_egress_spec domains vault h : let r := decide_egress domains vault h in let h' := to_ascii_lowercase (trim_end_matches 46 (trim h)) in
  (allow r = true <-> domains = [] \/ exists d, d ∈ domains /\ domain_matches d h' = true) /\
  inject_authorization r = (if allow r then authorization <$> find (fun c => domain_matches (host c) h') vault else None).
Proof.
  intros r h'. subst r. unfold decide_egress. fold h'. destruct domains as [|d ds]; simpl; [split; [by split; [left|]|done]|].
  destruct (domain_matches d h' || existsb (fun d => domain_matches d h') ds) eqn:E; simpl; (split; [|done]); split; try done.
  - intros _. right. apply orb_true_iff in E as [E|(x & Hx & E)%existsb_exists]; [exists d|exists x]; (split; [|done]); [left|right; by apply list_elem_of_In].
  - intros [?|(x & [->|Hx]%elem_of_cons & Hm)]; [done|by rewrite Hm in E|]. apply orb_false_iff in E as [_ E].
    rewrite <- not_true_iff_false, existsb_exists in E. destruct E. exists x. by rewrite <- list_elem_of_In.
Qed.

(** ** nftables *)

Definition nft_l4 (k : Packet) (l4 : rstr * u16) : bool := (proto k =? (if bool_decide (l4.1 = bstr "tcp") then IPPROTO_TCP else IPPROTO_UDP)) && (dport k =? l4.2).

Section Nft.
Variable parse_v6 : rstr -> option bytes.

(** What the rules mean, for a packet that comes from the guest or not. *)
Definition rule_accepts (from_guest : bool) (k : Packet) (r : NftRule) : bool :=
  match r with
  | AcceptTo c l4 => from_guest && (match c with Some c => in_cidr parse_v6 (daddr k) c | None => true end) && match l4 with Some l4 => nft_l4 k l4 | None => true end
  | AcceptEstablished => ct_hit k
  end.

Definition table_accepts (t : option NftTable) (from_guest : bool) (k : Packet) : bool :=
  match t ≫= forward with Some rs => existsb (rule_accepts from_guest k) rs | None => true end.

Lemma host_op_ok h h' : host_op h = (Ok tt, h') -> nft h' = nft h /\ policy_file h' = policy_file h /\ native h' = native h /\ stores h' = stores h /\ committed h' = committed h.
Proof. unfold host_op. destruct (hfaults h) as [|[] fs]; by intros [= <-]. Qed.

Lemma op_then_ok (f : NetHost -> NetHost) h h' : (do! host_op in modify f) h = (Ok tt, h') -> exists h1, nft h1 = nft h /\ h' = f h1.
Proof. intros ([] & h1 & E & [= <-])%bind_Ok. exists h1. split; [|done]. by apply host_op_ok in E as [? _]. Qed.

(** The chain of the old table, when its deletion fails: the failure is ignored. *)
Definition kept (h : NetHost) : option (list NftRule) := if bool_decide (head (hfaults h) = Some true) then nft h ≫= forward else None.

Lemma masquerade_ok g h h' : apply_subnet_masquerade g h = (Ok tt, h') -> exists m, nft h' = Some (MkNft m (kept h)).
Proof.
  intros ([] & h1 & E1 & ([] & h2 & (h2' & N2 & ->)%op_then_ok & ([] & h3 & (N3 & _)%host_op_ok & (h4 & N4 & ->)%op_then_ok)%bind_Ok)%bind_Ok)%bind_Ok.
  simpl. unfold the_table. rewrite N4, N3. simpl. unfold the_table. rewrite N2. unfold kept.
  unfold try_ok, nft_delete_table, bind, host_op in E1. destruct (hfaults h) as [|[] fs] eqn:Hh; simpl in E1; injection E1 as <-; simpl; eauto.
  destruct (nft h) as [[m f]|]; eauto.
Qed.

Lemma forward_ok m f h h' : nft h = Some (MkNft m f) -> nft_forward_chain h = (Ok tt, h') -> nft h' = Some (MkNft m (Some (default [] f))).
Proof. intros H (h1 & N & ->)%op_then_ok. simpl. unfold the_table. by rewrite N, H. Qed.

Lemma add_rule_ok r m rs h h' : nft h = Some (MkNft m (Some rs)) -> nft_add_rule r h = (Ok tt, h') -> nft h' = Some (MkNft m (Some (rs ++ [r]))).
Proof. intros H (h1 & N & ->)%op_then_ok. simpl. unfold the_table. by rewrite N, H. Qed.

Lemma add_rules_ok os m rs h h' : nft h = Some (MkNft m (Some rs)) -> add_rules os h = (Ok tt, h') ->
  exists l, os = map Some l /\ nft h' = Some (MkNft m (Some (rs ++ l))).
Proof.
  revert rs h. induction os as [|o os IH]; intros rs h H; simpl; [intros [= <-]; exists []; by rewrite app_nil_r|].
  destruct o as [r|]; [|done]. intros (r' & h1 & [= <- <-] & ([] & h2 & E & E2)%bind_Ok)%bind_Ok. apply (add_rule_ok r m rs) in E; [|done].
  destruct (IH _ _ E E2) as (l & -> & ->). exists (r :: l). by rewrite <- app_assoc.
Qed.

Definition listed (p : VmNetworkPolicy) : bool := negb (empty (allow_cidrs p)) || negb (empty (allow_ports p)).

Lemma apply_nftables_ok g p h h' : apply_nftables parse_v6 g p h = (Ok tt, h') ->
  policy_uses_native_only_features parse_v6 p = false /\ exists m,
  if listed p || negb (default_allow p)
  then exists l, accept_rules p = map Some l /\ nft h' = Some (MkNft m (Some (default [] (kept h) ++ l ++ if listed p then [AcceptEstablished] else [])))
  else nft h' = Some (MkNft m (kept h)).
Proof.
  unfold apply_nftables. destruct (policy_uses_native_only_features parse_v6 p); [done|]. intros ([] & h1 & [m E1]%masquerade_ok & E)%bind_Ok. split; [done|]. exists m.
  fold (listed p) in E. destruct (listed p || negb (default_allow p)); [|by injection E as <-].
  apply bind_Ok in E as ([] & h2 & E2 & ([] & h3 & E3 & E4)%bind_Ok). apply (forward_ok m (kept h)) in E2; [|done]. apply (add_rules_ok _ m (default [] (kept h))) in E3 as (l & Hl & E3); [|done].
  exists l. split; [done|]. rewrite app_assoc. destruct (listed p); [by apply (add_rule_ok _ m (default [] (kept h) ++ l)) in E4|]. injection E4 as <-. by rewrite app_nil_r.
Qed.

(** A port rule of nftables is one of the edge, for a whole packet. *)
Lemma nft_port_ok raw l4 k : parse_nft_port_rule raw = Some l4 -> fragmented k = false -> nft_l4 k l4 = has_ports k && port_ok k raw.
Proof.
  unfold parse_nft_port_rule, port_ok, parse_port_rule, nft_l4, has_ports. destruct (split_once 47 raw) as [[pr po]|]; [|done]. simpl. intros H Hf. rewrite Hf. simpl.
  destruct (bool_decide (to_ascii_lowercase (trim pr) = bstr "tcp")); [|destruct (bool_decide (to_ascii_lowercase (trim pr) = bstr "udp")); [|done]];
    simpl in *; (destruct (parse_dec 16 (trim po)) as [n|]; [|done]); simpl in *; destruct (n =? 0) eqn:En; try done; injection H as <-; simpl; rewrite En, orb_false_r.
  - rewrite (N.eqb_sym (dport k)). destruct (N.eqb_spec (proto k) IPPROTO_TCP) as [->|Hn]; [done|]. change (false = ((proto k =? IPPROTO_UDP) || (proto k =? IPPROTO_SCTP)) && ((IPPROTO_TCP =? proto k) && (n =? dport k))).
    by rewrite (proj2 (N.eqb_neq IPPROTO_TCP (proto k))), andb_false_r by done.
  - rewrite (N.eqb_sym (dport k)). destruct (N.eqb_spec (proto k) IPPROTO_UDP) as [->|Hn]; [done|].
    change (false = ((proto k =? IPPROTO_TCP) || false || (proto k =? IPPROTO_SCTP)) && ((IPPROTO_UDP =? proto k) && (n =? dport k))).
    by rewrite (proj2 (N.eqb_neq IPPROTO_UDP (proto k))), andb_false_r by done.
Qed.
End Nft.

Lemma existsb_and {A} (b : bool) (f : A -> bool) l : existsb (fun a => b && f a) l = b && existsb f l.
Proof. induction l as [|a l IH]; simpl; [by rewrite andb_false_r|]. rewrite IH. by destruct b. Qed.

Section NftAgrees.
Variables (parse_v6 : rstr -> option bytes) (k : Packet).
Hypothesis whole : fragmented k = false.

Lemma port_rules_accept c rs l : map (fun r => (fun l4 => AcceptTo c (Some l4)) <$> parse_nft_port_rule r) rs = map Some l ->
  existsb (rule_accepts parse_v6 true k) l = match c with Some c => in_cidr parse_v6 (daddr k) c | None => true end && (has_ports k && existsb (port_ok k) rs).
Proof.
  revert l. induction rs as [|raw rs IH]; intros [|x l] H; try done; [by simpl; rewrite !andb_false_r|]. simpl in H. injection H as Hx Hl.
  destruct (parse_nft_port_rule raw) as [l4|] eqn:E; [|done]. injection Hx as <-. simpl. rewrite (IH _ Hl), (nft_port_ok raw l4 k E whole).
  destruct c as [c|]; [destruct (in_cidr parse_v6 (daddr k) c)|]; by destruct (has_ports k).
Qed.

Lemma pair_rules_accept cs rs l : flat_map (fun c => map (fun r => (fun l4 => AcceptTo (Some c) (Some l4)) <$> parse_nft_port_rule r) rs) cs = map Some l ->
  existsb (rule_accepts parse_v6 true k) l = existsb (in_cidr parse_v6 (daddr k)) cs && (has_ports k && existsb (port_ok k) rs).
Proof.
  revert l. induction cs as [|c cs IH]; intros l H; [by destruct l|]. simpl in H. symmetry in H. apply map_eq_app in H as (l1 & l2 & -> & H1 & H2).
  rewrite existsb_app, (IH l2), (port_rules_accept (Some c) rs l1) by done. simpl. by rewrite andb_orb_distrib_l.
Qed.

Lemma accept_rules_spec p l : accept_rules p = map Some l -> listed p = true ->
  existsb (rule_accepts parse_v6 true k) l =
  (empty (allow_cidrs p) || existsb (in_cidr parse_v6 (daddr k)) (allow_cidrs p)) && (empty (allow_ports p) || has_ports k && existsb (port_ok k) (allow_ports p)).
Proof.
  unfold accept_rules, listed. destruct (empty (allow_cidrs p)) eqn:Ec, (empty (allow_ports p)) eqn:Er; intros H Hn; [done| | |]; simpl.
  - by rewrite (port_rules_accept None (allow_ports p)).
  - rewrite andb_true_r. clear Ec Er Hn. revert l H. induction (allow_cidrs p) as [|c cs IH]; intros [|x l] H; try done. simpl in H. injection H as <- H. simpl. by rewrite (IH l H), andb_true_r.
  - by apply pair_rules_accept.
Qed.
End NftAgrees.

(** What the rules of nftables carry of a policy: [deny_udp] and [allow_icmp] have none. *)
Definition carried (p : VmNetworkPolicy) : VmNetworkPolicy :=
  MkPolicy (default_allow p) (allow_cidrs p) (allow_ports p) (max_egress_mbps p) (max_egress_pps p) (sample_rate p) (deny_cidrs p) false
    (groups p) (labels p) (allow_fqdns p) (entities p) (audit_mode p) false (compiled_group_ids p).

(** The rules of a policy, on their own. *)
Lemma new_rules_accept parse_v6 p l k : accept_rules p = map Some l -> deny_cidrs p = [] -> fragmented k = false -> ct_hit k = false ->
  listed p || negb (default_allow p) = true ->
  existsb (rule_accepts parse_v6 true k) (l ++ if listed p then [AcceptEstablished] else []) = permitted parse_v6 (carried p) k.
Proof.
  intros Hl Hd Hk Hct He. unfold permitted. simpl. rewrite Hd. simpl.
  assert (Hle : empty (allow_cidrs p) && empty (allow_ports p) = negb (listed p)) by (unfold listed; by destruct (empty (allow_cidrs p)), (empty (allow_ports p))). rewrite Hle.
  destruct (listed p) eqn:El; simpl in *.
  - rewrite existsb_app, (accept_rules_spec parse_v6 k Hk p l) by done. simpl. by rewrite Hct, !orb_false_r.
  - apply negb_true_iff in He. rewrite app_nil_r, He. unfold accept_rules in Hl. unfold listed in El.
    apply orb_false_iff in El as [Ec%negb_false_iff Er%negb_false_iff]. rewrite Ec, Er in Hl. by destruct l.
Qed.

(** C25: the nftables fallback and the policy agree, at the VM's own table and for the
    guest's own packets.  Once [apply_nftables] has succeeded, a whole packet of a new flow
    from the guest passes the table exactly when the policy permits it, [deny_udp] and
    [allow_icmp] aside, which the rules do not carry; and when the deletion of the old
    table failed, which is ignored, exactly when a rule kept from the old chain accepts it or
    the policy, if it restricts anything, permits it. *)
Theorem nft_agrees parse_v6 g p h h' k : apply_nftables parse_v6 g p h = (Ok tt, h') -> fragmented k = false -> ct_hit k = false ->
  table_accepts parse_v6 (nft h') true k =
  match kept h with
  | None => permitted parse_v6 (carried p) k
  | Some old => existsb (rule_accepts parse_v6 true k) old || (listed p || negb (default_allow p)) && permitted parse_v6 (carried p) k
  end.
Proof.
  intros E Hk Hct. apply apply_nftables_ok in E as (Hn & m & E).
  assert (deny_cidrs p = []) as Hd by (unfold policy_uses_native_only_features in Hn; destruct (deny_cidrs p); [done|]; simpl in Hn; by rewrite !orb_true_r in Hn).
  unfold table_accepts. destruct (listed p || negb (default_allow p)) eqn:El.
  - destruct E as (l & Hl & ->). simpl. rewrite existsb_app, (new_rules_accept parse_v6 p l k) by done. by destruct (kept h).
  - rewrite E. simpl. destruct (kept h); [by rewrite orb_false_r|]. apply orb_false_iff in El as [El Hda%negb_false_iff].
    unfold listed in El. apply orb_false_iff in El as [Ec%negb_false_iff Er%negb_false_iff]. unfold permitted. simpl. by rewrite Hd, Ec, Er, Hda.
Qed.

(** ** The attachment *)

Section Attach.
Variables (parse_v6 : rstr -> option bytes) (lookup_host : rstr -> option (list IpAddr)) (fp : VmNetworkPolicy -> u64).

Lemma native_apply_ok dp p h h' : native_apply dp p h = (Ok tt, h') -> native h' = Some p.
Proof. intros ([] & h1 & _ & ([] & h2 & _ & ([] & h3 & _ & [= <-])%bind_Ok)%bind_Ok)%bind_Ok. done. Qed.

Lemma host_op_native h r h' : host_op h = (r, h') -> native h' = native h.
Proof. unfold host_op. destruct (hfaults h) as [|[] fs]; by intros [= _ <-]. Qed.

(** The policy in force after a success. *)
Definition policy_for (dp : DataplaneConfig) (extra : list rstr) (h : NetHost) : VmNetworkPolicy :=
  sandbox_policy lookup_host extra (merge_group_policy (stored (stores h)) (match policy_file h with Some (Some p) => p | _ => default_policy dp end)).1.

Lemma effective_ok dp h p h' : effective_policy parse_v6 dp h = (Ok p, h') -> h' = h /\ p = match policy_file h with Some (Some p) => p | _ => default_policy dp end.
Proof.
  unfold effective_policy, load_policy, bind. destruct (policy_file h) as [[q|]|]; [|done|by intros [= <- <-]]. destruct (validate_policy parse_v6 q); [|done]. by intros [= <- <-].
Qed.

Lemma group_store_ok h g h' : group_store h = (Ok g, h') -> h' = h /\ g = stored (stores h).
Proof. unfold group_store, load_groups, stored. intros [= E <-]. split; [done|]. simpl in E. destruct (group_file (stores h)) as [[?|]|]; by simplify_eq. Qed.

(** Where the native data plane is required, success means that the program at the VM's
    interface holds exactly the policy of the VM, its groups and its names, and that
    its fingerprint is recorded. *)
Theorem required_attaches dp guest extra h h' : dp_mode dp <> Legacy -> dp_required dp = true ->
  apply_sandbox_policy parse_v6 lookup_host fp dp true guest extra h = (Ok tt, h') -> native h' = Some (policy_for dp extra h) /\ is_Some (committed h').
Proof.
  intros Hm Hq (base & h1 & (-> & ->)%effective_ok & (g & h2 & (-> & ->)%group_store_ok & E)%bind_Ok)%bind_Ok. fold (policy_for dp extra h) in E.
  rewrite bool_decide_eq_false_2, Hq in E by done. simpl in E. unfold try_ok in E. destruct (native_apply dp (policy_for dp extra h) h) as [[[]| | |] h3] eqn:En; try done.
  apply native_apply_ok in En. apply bind_Ok in E as ([] & h4 & E4%host_op_native & ([] & h5 & [= <-] & E6)%bind_Ok). pose proof (host_op_ok _ _ E6) as (_ & _ & N & _ & C).
  rewrite N, C. simpl. rewrite E4. by split.
Qed.

(** After a repair the program holds the policy of the VM, or what it held before when
    the recorded fingerprint is that of the stored policy. *)
Theorem ensure_heals dp same repaired extra h b h' : dp_mode dp <> Legacy ->
  ensure_sandbox_policy parse_v6 lookup_host fp dp true same repaired extra h = (Ok b, h') ->
  native h' = Some (policy_for dp extra h) \/
  native h' = native h /\ is_Some (native h) /\ committed h = Some (fp (match policy_file h with Some (Some p) => p | _ => default_policy dp end)).
Proof.
  intros Hm. unfold ensure_sandbox_policy. rewrite bool_decide_eq_false_2 by done. intros ([] & h0 & E0 & E)%bind_Ok. cbn [negb] in E.
  assert (H0 : policy_file h0 = policy_file h /\ native h0 = native h /\ stores h0 = stores h /\ committed h0 = committed h).
  { destruct (bool_decide (dp_mode dp = Cilium)); [|by injection E0 as <-]. by apply host_op_ok in E0 as (_ & ?). }
  apply bind_Ok in E as (base & h1 & (-> & ->)%effective_ok & (g & h2 & (-> & ->)%group_store_ok & E)%bind_Ok). fold (policy_for dp extra h0) in E.
  assert (policy_for dp extra h0 = policy_for dp extra h) as Hp by (unfold policy_for; by destruct H0 as (-> & _ & -> & _)). rewrite Hp in E.
  destruct H0 as (Hpf & Hn & _ & Hc). rewrite Hpf in E. apply bind_Ok in E as ([] & h3 & (_ & _ & N3 & _ & C3)%host_op_ok & ([] & h4 & (_ & _ & N4 & _ & C4)%host_op_ok & (? & ? & [= <- <-] & E)%bind_Ok)%bind_Ok).
  destruct (is_some (native h4) && same && _) eqn:Eb.
  - right. injection E as _ <-. apply andb_true_iff in Eb as [[Ea _]%andb_true_iff Ef%bool_decide_eq_true]. rewrite N4, N3, Hn in *. split_and!; [done|by destruct (native h)|]. congruence.
  - left. apply bind_Ok in E as ([] & h5 & _ & ([] & h6 & _ & ([] & h7 & [= <-] & ([] & h8 & (_ & _ & N8 & _)%host_op_ok & ([] & h9 & [= <-] & ([] & h10 & (_ & _ & N10 & _)%host_op_ok & [= _ <-])%bind_Ok)%bind_Ok)%bind_Ok)%bind_Ok)%bind_Ok).
    rewrite N10. simpl. by rewrite N8.
Qed.
End Attach.

(** ** The stored policy *)

(** A saved policy is the one in force, whatever step fails: the file is the old one or
    the new one, and after a success it is the new one. *)
Lemma save_policy_spec parse_v6 dp p h r h' : save_policy parse_v6 p h = (r, h') ->
  (r = Ok tt -> (effective_policy parse_v6 dp h').1 = Ok p) /\ (policy_file h' = policy_file h \/ policy_file h' = Some (Some p)).
Proof.
  unfold save_policy, effective_policy, load_policy, bind, host_op. destruct (validate_policy parse_v6 p) eqn:Hv; simpl; [|intros [= <- <-]; split; [done|by left]].
  destruct (hfaults h) as [|[] [|[] fs]] eqn:Hf; simpl; rewrite ?Hf; intros [= <- <-]; simpl; rewrite ?Hv; (split; [done|]); auto.
Qed.

(** ** Examples and limits *)

Definition no_host (faults : list bool) : NetHost := MkNetHost None (MkStores None None []) None None None faults.

Definition web_only : VmNetworkPolicy := MkPolicy false [bstr "10.0.0.0/8"] [bstr "tcp/443"] None None 0 [] false [] [] [] [] false false [].

Lemma nft_agrees_witness : let h' := (apply_nftables no_v6 (bstr "10.7.0.2/32") web_only (no_host [])).2 in
  kept (no_host []) = None /\
  table_accepts no_v6 (nft h') true (tcp_packet 0x0a020304 443) =
  match kept (no_host []) with
  | None => permitted no_v6 (carried web_only) (tcp_packet 0x0a020304 443)
  | Some old => existsb (rule_accepts no_v6 true (tcp_packet 0x0a020304 443)) old ||
                (listed web_only || negb (default_allow web_only)) && permitted no_v6 (carried web_only) (tcp_packet 0x0a020304 443)
  end.
Proof.
  intros h'. split; [vm_compute; reflexivity|].
  apply (nft_agrees no_v6 (bstr "10.7.0.2/32") web_only (no_host []) h' (tcp_packet 0x0a020304 443)); vm_compute; reflexivity.
Defined.

(** [deny_udp] is not among the features that nftables cannot carry: UDP passes. *)
Definition no_udp : VmNetworkPolicy := MkPolicy true [] [] None None 0 [] false [] [] [] [] false true [].
Definition udp_packet : Packet := MkPacket 1 IPPROTO_UDP 40000 443 false false false false false false false true.

Lemma deny_udp_ignored : permitted no_v6 no_udp udp_packet = false /\
  let '(r, h') := apply_nftables no_v6 (bstr "10.7.0.2/32") no_udp (no_host []) in r = Ok tt /\ table_accepts no_v6 (nft h') true udp_packet = true.
Proof. vm_compute. repeat split. Qed.

(** A failure after the old table is gone leaves the guest without a filter. *)
Definition filtered (faults : list bool) : NetHost :=
  MkNetHost None (MkStores None None []) (Some (MkNft [bstr "10.7.0.2/32"] (Some []))) None None faults.

Lemma chain_failure_opens : let '(r, h') := apply_nftables no_v6 (bstr "10.7.0.2/32") web_only (filtered [false; false; false; false; true]) in
  r = Err Network /\ forall k, table_accepts no_v6 (nft h') true k = true.
Proof. vm_compute. split; reflexivity. Qed.

(** When the old table cannot be deleted its accept rules stay in force. *)
Definition open_host (faults : list bool) : NetHost :=
  MkNetHost None (MkStores None None []) (Some (MkNft [bstr "10.7.0.2/32"] (Some [AcceptTo None None]))) None None faults.

Lemma stale_rules_kept : let '(r, h') := apply_nftables no_v6 (bstr "10.7.0.2/32") web_only (open_host [true]) in
  r = Ok tt /\ permitted no_v6 web_only (tcp_packet 1 22) = false /\ table_accepts no_v6 (nft h') true (tcp_packet 1 22) = true.
Proof. vm_compute. repeat split. Qed.

(** Every table drops what its own guest did not send: with two guests under an allow
    list no new flow of either gets through. *)
Lemma two_guests_blocked : forall a b, (apply_nftables no_v6 (bstr "10.7.0.2/32") web_only (no_host [])) = (Ok tt, a) ->
  (apply_nftables no_v6 (bstr "10.7.0.3/32") web_only (no_host [])) = (Ok tt, b) ->
  permitted no_v6 web_only (tcp_packet 0x0a020304 443) = true /\ table_accepts no_v6 (nft a) true (tcp_packet 0x0a020304 443) = true /\
  forall k, ct_hit k = false -> table_accepts no_v6 (nft b) false k = false.
Proof.
  intros a b Ha Hb. vm_compute in Ha, Hb. injection Ha as <-. injection Hb as <-. split; [vm_compute; reflexivity|]. split; [vm_compute; reflexivity|].
  intros k Hk. unfold table_accepts. simpl. by rewrite Hk.
Qed.

(** A native attachment that fails where it is not required and no guest network is
    known: success, and nothing enforces the policy. *)
Definition soft_dp : DataplaneConfig := MkDp Ebpf false false [bstr "10.0.0.0/8"] [bstr "tcp/443"] None None 0.

Lemma unenforced_success : let '(r, h') := apply_sandbox_policy no_v6 (fun _ => None) (fun _ => 0) soft_dp true None [] (no_host [false; true]) in
  r = Ok tt /\ native h' = None /\ nft h' = None.
Proof. vm_compute. repeat split. Qed.

(** A rule for names that are wildcards, which are never resolved, with a port: any
    destination is permitted on that port. *)
Definition wildcard_policy : VmNetworkPolicy := MkPolicy false [] [bstr "tcp/443"] None None 0 [] false [] [] [bstr "*.example.com"] [] false false [].

Lemma wildcard_opens lookup a : permitted no_v6 (sandbox_policy lookup [] wildcard_policy) (tcp_packet a 443) = true.
Proof. vm_compute. reflexivity. Qed.

(** A credential for a host is also sent to every host under it. *)
Lemma vault_for_subdomains : inject_authorization (decide_egress [] [MkInject (bstr "example.com") (bstr "Bearer t")] (bstr "evil.example.com")) = Some (bstr "Bearer t").
Proof. vm_compute. reflexivity. Qed.

(** The fingerprint is that of the stored policy alone: when a group is deleted the
    program keeps its rules and no repair notices. *)
Definition grouped_dp : DataplaneConfig := MkDp Ebpf true true [] [] None None 0.
Definition grouped_host : NetHost := MkNetHost (Some (Some web_vm)) (MkStores (Some (Some one_group)) None []) None None None [].
Definition drop_groups (h : NetHost) : NetHost :=
  MkNetHost (policy_file h) (delete_group (bstr "quarantine") (stores h)).2 (nft h) (native h) (committed h) (hfaults h).

Lemma deleted_group_stays : let fp p := lenN (deny_cidrs p) in
  let h1 := (apply_sandbox_policy no_v6 (fun _ => None) fp grouped_dp true None [] grouped_host).2 in
  let r := ensure_sandbox_policy no_v6 (fun _ => None) fp grouped_dp true true false [] (drop_groups h1) in
  stored (stores (drop_groups h1)) = ∅ /\ r.1 = Ok false /\ (deny_cidrs <$> native r.2) = Some [bstr "10.9.0.0/16"] /\
  deny_cidrs (policy_for (fun _ => None) grouped_dp [] (drop_groups h1)) = [].
Proof. vm_compute. repeat split. Qed.
